(* ===== verification/_CoqProject ===== *)
-Q . S2P
Prelude.v
Json.v
Contracts.v
Slot.v
SlotProps.v
SlotSpec.v
Binding.v
BindingProps.v
Delivery.v
DeliveryProps.v
AgentState.v
Numbers.v
Text.v
MultiDevice.v
MultiDeviceProps.v
Events.v
EventsProps.v
SessionGraph.v
SessionGraphProps.v
Authorization.v
AuthorizationProps.v
Reliability.v
ReliabilityProps.v
Registry.v
Recovery.v
RecoveryProps.v
Rollout.v
Interactions.v
Attention.v
AttentionProps.v
MarkerProps.v
Intent.v
Status.v
StatusProps.v
Voice.v
Relations.v
Subagents.v
RemoteContracts.v
Remote.v
RemoteProps.v
Topology.v
TopologyProps.v
ChangeIntent.v
WorkspaceRepo.v
WorkspaceRepoProps.v
Memory.v
MemoryProps.v
Seed.v
Schemas.v
Components.v
ComponentsProps.v
Planner.v
PlannerProps.v
Conversation.v
ConversationProps.v
SessionArtifacts.v
GeneratedObjects.v
Privacy.v
Observability.v
Performance.v
Accessibility.v
Presence.v
ViewModels.v
Transport.v
DashboardAdapter.v
Navigation.v
Shell.v
LiveWorkspace.v
Scene.v
DashboardScene.v
AgentInterface.v
AgentVoice.v
SceneField.v
WireContracts.v
Clients.v
