(* ===== verification/Prelude.v ===== *)
(** * AiDN operator dashboard: a verification development

    The AiDN hypervisor is operated through a web dashboard
    (src/web/operator-dashboard). Its spatial workspace keeps the state of a
    Node's primary agent, of the shared world the operator's devices edit, of
    the event stream, of the interaction sessions and of the safety services
    around them in TypeScript classes under src/spatial. This development
    models those classes and proves what makes them correct. Paths below are
    relative to src/web/operator-dashboard/src/spatial.

    ** How the parts fit together

    A Node owns one primary agent slot (data/primary-agent-slot.ts). Operators
    change it with binding plans (data/primary-agent-binding.ts), which call
    the slot repository and tell the hook delivery service
    (data/primary-agent-delivery.ts) when a binding is gone; that service reads
    the slot, issues capability grants and delivers redacted events from a
    durable inbox. data/primary-agent-state.ts derives the operational state
    from slot, connectivity and health. Changes reach the dashboard as events:
    data/events.ts validates envelopes, drops duplicate and stale ones and
    reconnects. multidevice/service.ts holds the semantic world all devices
    share, applies mutations against a base revision, queues them offline and
    shares views. interaction/session-graph.ts keeps the sessions of a
    workspace and their relations. hardening/authorization.ts decides requests,
    redacts audit payloads and stores the audit trail;
    hardening/reliability.ts tracks fault incidents until they are safe,
    hardening/rollout.ts climbs the rollout stages and hardening/privacy.ts
    classifies, exports and purges stored records.

    Every durable thing of a workspace is filed in the reference registry
    (topology/reference-registry.ts); topology/semantic-relations.ts and
    topology/subagent-lifecycle.ts write through it, topology/provenance.ts
    records interactions beside it, and status/recovery.ts looks it up.
    interaction/intent-gateway.ts admits what an operator says; an accepted
    intent opens an exchange in interaction/conversation.ts, whose turns live in
    the session graph, and interaction/session-artifact.ts collapses a session
    of that graph into an artifact. topology/attention.ts keeps what asks for
    the operator's attention and draws its markers. remote/mediation.ts is the
    one way to a remote endpoint: it keeps the endpoints of the registry, minimizes
    what leaves, and validates what comes back. components/change-intent.ts
    turns an edited form into a diff that is validated and applied once, and
    workspace/repository.ts keeps the semantic snapshot a workspace is drawn
    from, with its change log; memory/engine.ts ages, clusters and lays out what
    the workspace remembers. status/aggregator.ts reduces
    probe observations to the status a Node shows.

    What an agent wants shown goes through interaction/presentation-planner.ts,
    which takes components from interaction/component-registry.ts and makes
    generated objects (interaction/generated-object.ts); interaction/voice.ts
    turns speech into a reviewed draft. hardening/observability.ts,
    performance.ts and accessibility.ts measure the surface within bounds.

    A Node is reached over data/transport.ts, with the typed calls of
    data/clients.ts, whose answers are parsed by the contracts of
    contracts/index.ts; data/dashboard-adapter.ts makes the same snapshot from
    the classic dashboard's read model. data/use-spatial-workspace.ts keeps the
    live snapshot, status and agent of the scope from answers and events,
    data/view-models.ts and presence/ compose what is shown of it, and
    multidevice/navigation.ts and camera.ts move through it. The calibration
    scene (../spatial-calibration) draws it: model.ts and endpoint.ts are its
    bodies, agent-interface.ts is the channel to the agent that publishes
    scenes, workspace-artifacts.ts keeps the artifacts it published,
    primary-agent-voice.ts speaks with it, and interaction-seed.ts tells a tap
    from a drag. Around all of it are the flags, routes and saved connections of
    the dashboard's shell.

    ** Files

    - [Prelude]: thrown errors as [result], methods as state passing in which a
      throw keeps the mutations made so far ([method], [let!]), JavaScript
      strings, dates, [Map] with insertion order ([jsmap]), the tactics
      [inv_ok] and [run_method], the hint database [js].
    - [Json]: JSON values, [JSON.stringify], the canonical [stableStringify] of
      binding plans and locations in a value.
    - [Contracts]: the zod schemas of contracts/index.ts that the services
      share, as parsers into [option]. zod's own leaves are the class [Zod],
      with its documented behaviour in [ZodLaws]; [zod_ref] is an instance.
    - [Numbers], [Text]: JavaScript numbers as rationals, infinities and NaN;
      global text replacement as a scan, and a stable sort.
    - [Slot], [SlotProps]: [InMemoryPrimaryAgentSlotRepository]. [apply] is
      [apply_begin] and [apply_commit], the code before and after its await;
      [step] interleaves any number of them.
    - [SlotSpec]: an atomic register with a journal, the specification of the
      slot repository, and the refinement.
    - [Binding], [BindingProps]: [PrimaryAgentBindingApi], with the 32-bit
      FNV-1a plan hash written out on wrapped integers.
    - [Delivery], [DeliveryProps]: [InMemoryPrimaryAgentDeliveryService]. The
      slot repository is behind the interface class [SlotSource]; [repo_source]
      shows that the repository of [Slot] implements it.
    - [AgentState]: [aggregatePrimaryAgentState] and
      [PrimaryAgentStateAggregator], with their properties.
    - [MultiDevice], [MultiDeviceProps]: [SpatialMultiDeviceWorkspaceService].
      The host's [localeCompare] is the parameter class [Collation].
    - [Events], [EventsProps]: event types, envelope parsing,
      [SpatialEventGateway] and the reconnecting adapter as a state machine
      ([rstep]). The payload parsers are the parameter class [PayloadParsers].
    - [SessionGraph], [SessionGraphProps]: [WorkspaceSessionGraph]. Sessions
      are mutated in place and may be filed under two keys, so they live in a
      heap and the map holds addresses.
    - [Authorization], [AuthorizationProps]: [SpatialAuthorizationService],
      [redactSensitiveKeys] and [SpatialAuditService].
    - [Reliability], [ReliabilityProps]: [SpatialReliabilityController].
    - [Registry]: [CanonicalReferenceRegistry]. [Relations]:
      [SemanticRelationService]; [Subagents]: [SubagentLifecycleService].
      Both hold the registry in their state and write it through its methods.
    - [Interactions]: [InteractionProvenanceService] and the counters per
      endpoint.
    - [RemoteContracts], [Remote], [RemoteProps]: [LocalRemoteMediationService],
      with the submission split at the adapter it awaits ([submit_begin],
      [submit_settle]) and its regular expressions as matchers.
    - [Topology], [TopologyProps]: [EndpointDiscoveryService] and the energy
      objects endpoints are drawn as.
    - [ChangeIntent]: [ChangeIntentService], with its properties.
    - [WorkspaceRepo], [WorkspaceRepoProps]: [InMemorySpatialWorkspaceRepository]
      with the helpers of workspace/model.ts, and the store of finite maps it
      refines.
    - [Memory], [MemoryProps]: [SpatialMemoryEngine]. The host's cosine, sine and
      square root are the parameter class [HostMath] of [Numbers].
    - [Status], [StatusProps]: [SpatialStatusAggregator], with the probes'
      answers as inputs. [Recovery], [RecoveryProps]:
      [SpatialRecoveryCommandService], split at its awaited handler, and
      [StatusWorkspaceBridge] on the registry.
    - [Attention], [AttentionProps], [MarkerProps]: [AttentionQueueService],
      [OrbitalAttentionMarkerService] and [AttentionFocusController].
    - [Intent]: [IntentGateway]. [Seed]: [InteractionSeedController], which
      holds the gateway. [Conversation], [ConversationProps]:
      [DurableConversationService] on the session graph of [SessionGraph].
      [SessionArtifacts]: [SessionArtifactService] on the same graph.
    - [Rollout]: [SpatialRolloutController]. [Privacy]:
      [SpatialPrivacyLifecycleService].
    - [Schemas]: values of type [unknown] and zod's combinators as functions on
      them, with what every schema built from them has. [Components],
      [ComponentsProps]: [SpatialComponentRegistry], on these schemas; [Planner],
      [PlannerProps]: [PresentationPlanner]; [GeneratedObjects], [Voice]: the
      services of these names.
    - [Observability], [Performance], [Accessibility]: the telemetry buffer and
      the two gates of hardening/.
    - [WireContracts]: the schemas of contracts/index.ts on values of type
      [unknown], as they are written, [parseSpatialContract] and the freshness
      policy. Dates are parsed and printed by the host ([HostDate]).
    - [Transport]: the fetch transport, with [fetch] as what it reports of a
      request. [Clients]: the domain clients over any transport, and the query
      keys.
    - [Presence], [ViewModels]: the agent's presence and the view models.
      [LiveWorkspace]: [useSpatialWorkspace] as a state machine.
    - [DashboardAdapter], [DashboardScene]: data/dashboard-adapter.ts, the
      snapshot and the scene it makes of a payload.
    - [Navigation]: gestures and camera. [Shell]: flags, routes, screens and saved
      connections.
    - [Scene]: the bodies of the calibration scene and their motion.
      [AgentInterface]: the channel to the agent. [AgentVoice]: the conversation
      by voice. [SceneField]: the artifacts in depth, taps and the seed's panel.

    ** What the theorems show

    - Slot: the repository, under every interleaving of its suspended calls,
      refines an atomic register with a journal;
      every operation keeps the repository well formed; no update is lost
      and of two concurrent operations on one revision only one commits, under
      every interleaving; replays return the recorded result; a restart gives
      the same repository; a revoked slot stays revoked; a replacement starts
      without the privileges of the binding it replaces; the lifecycle moves
      that are possible.
    - Binding and delivery: a created plan passes its own verification; a plan
      is applied once; removed bindings are announced and then read nothing;
      inbox records keep to their attempts and states; reading delivers what is
      due, redacted; redaction is complete and removes nothing else.
    - State and events: the precedence of operational states; revisions never
      go down; the gateway delivers each event once, in sequence order, with
      non-decreasing revisions per resource; reconnection stays within its
      bounds.
    - Multi-device: the outcome of every mutation in every branch; a conflict
      on a common target is found; each mutation is applied at most once,
      online or replayed from the offline queue; the world always satisfies its
      contract.
    - Sessions: the cycle search terminates and is exact; the lineage is a
      forest in every history, snapshots put back included; sessions only grow.
    - Safety services: a request is allowed exactly when it should be; a
      revocation stands until it is lifted; audit redaction is exact; the audit
      index agrees with the records and a purge removes exactly what expired;
      no incident is green before every safety invariant passes.
    - Topology: a reference stays registered and its history only grows; a
      stored relation can always be inspected; no subagent of a Primary Agent
      with a trimmed reference is an orphan; the
      counters of an endpoint are what its records say; a discovery ranks the
      newest endpoints and only a selection registers one.
    - Remote mediation: nothing leaves without every approval nor with more
      fields than may cross; remote text carries no tag and a valid result
      nothing the validator looks for; every submission ends; recorded
      submissions agree with themselves and a free one costs nothing.
    - Change intents and the workspace: a created diff is exactly what changes,
      on declared editable fields; a change is applied at most once; the
      repository is a store of finite maps, call for call, whose changes are
      numbered without a gap.
    - Memory: automatic clusters are exactly the records that share a signal; a
      focus keeps its way back; the recent region and a plan keep to their
      budgets; a search shows what it may; levels have hysteresis.
    - Attention: one call moves an item only as its life allows; urgent items
      are neither trimmed nor grouped away; no secret assignment survives in a
      summary; a marker keeps its phase.
    - Status and recovery: a snapshot is green only when every probe answered
      green, its revisions only go up, a cached one is never green; a planned
      recovery does what the table of actions says, once per key.
    - Conversation: an intent is admitted once and only when well formed; a
      submission carries what its seed holds, and is the seed's last; every
      exchange agrees with the turns it names until a restore, which brings the
      exchanges back and trims the turns; a rejected binding changes
      nothing; a chunk let through carries no markup; collapsing a session and
      restoring it loses nothing.
    - Presentation: what is registered is data, migrations end, validated data
      are stable; a plan shows registered content only, within its bound;
      generated objects stay; a spoken draft is submitted as it was reviewed.
    - Hardening gates: telemetry names no content and keeps its bounds; a gate
      passes exactly when every requirement does.
    - The way to a Node: a request keeps its scope and a client's answer belongs
      to it; what a contract's parser delivers is data it accepts again unchanged, only
      another version is called incompatible, and freshness never improves;
      references keep their place in a path, and keys tell scopes apart.
    - The live workspace: what is shown belongs to the scope's Node, if the answers
      do, and never goes back; snapshots and projections are closed under their references; a seed
      needs a long press and a tap is one still pointer; the camera keeps its
      bounds and the screen follows the address.
    - The scene: it shows the projection, one body each, in place; what is shown
      of an agent was published by it; a spoken delivery ends; the field shows the
      newest artifacts, at depths that only approach their targets; the panel
      stays on the screen.
    - Rollout and privacy: the stages are climbed one at a time with their
      gates; an export discloses no secret and a purge removes what expired.
    - Some theorems state what the code does where its comments or its intent
      say otherwise: a concurrent change that is missed, a slot revision that
      hides a state event, colliding plan hashes, a padded actor reference that
      evades a revocation, overlapping recoveries that run a handler twice, a
      late discovery that rewrites history, a script URL scheme that survives
      its own removal, and the smaller ones beside them.

    What a theorem needs is said beside it: ids that are not repeated, references
    without surrounding space, relevances that are numbers, no group named like an
    automatic one, answers that name the Node they were asked of. What the code
    does outside of these is a theorem of its own where it matters, and a finding.

    ** Bounds and fuel

    Integers are [Z]; revisions and sequences are far below 2^53, and the
    places that depend on 32-bit arithmetic wrap explicitly. Four recursions
    carry fuel: the hexadecimal printer of [Binding], with eight digits for a
    32-bit number; the graph search, with two more than the number of
    relations, which [SessionGraphProps] proves sufficient; the migrations of
    [Components], with one more than there are migrations, which [migration_ends]
    proves sufficient; and the polling of [AgentVoice], with [rounds_enough],
    which [voice_delivery_ends] proves sufficient. Every other loop is
    structural. Numbers that need not be integers are rationals, infinities and
    NaN ([Numbers]); sums and products of them are exact where the code rounds to
    doubles, and [toFixed] rounds as the language says. The texts of
    [Conversation] are lists of UTF-16 code units, because one separator is
    such a unit; elsewhere characters are bytes; case mapping and white space
    follow the ASCII and Latin-1 part of the language. Timestamps are the
    instants their ISO strings denote. Each handler reads its clock once. Error messages are not modelled, only their
    codes; where a file has one kind of error, that it is thrown.

    ** What is not modelled

    React components and the rendering of scenes, since they are views without
    state of their own beside what is modelled; the texts of
    hardening/localization.ts; the classic dashboard's pages and the HTTP calls of
    lib/api.ts, which show the read model of [DashboardAdapter] as it is;
    agentInterfaceSchema and the presentation contracts no modelled code parses;
    WebSockets, [fetch], speech recognition and the other devices of the host,
    which are parameters; the floating-point layout of marker phases and of
    presentation geometry; and the Node services themselves, which are not in
    this language. *)

From stdpp Require Export base option list gmap strings numbers sorting.
From Stdlib Require Export Ascii.

#[global] Set Default Goal Selector "!".
#[global] Open Scope Z_scope.

Declare Scope js_scope.
Delimit Scope js_scope with js.

(** ** Results and exceptions *)

(** The outcome of code that may throw: a value or the thrown error. *)
Inductive result (E A : Type) : Type :=
| Ok (a : A)
| Err (e : E).
Arguments Ok {E A} a.
Arguments Err {E A} e.

Definition rbind {E A B} (r : result E A) (f : A -> result E B) : result E B :=
  match r with
  | Ok a => f a
  | Err e => Err e
  end.

Notation "'let?' x := r 'in' k" := (rbind r (fun x => k))
  (at level 10, x binder, r at level 100, k at level 200) : js_scope.
Notation "r ';?' k" := (rbind r (fun _ => k))
  (at level 199, right associativity) : js_scope.
#[global] Open Scope js_scope.

Definition is_ok {E A} (r : result E A) : bool :=
  match r with Ok _ => true | Err _ => false end.

(** [guard? b e] is the source's [if (!b) throw e]. *)
Definition require {E} (b : bool) (e : E) : result E unit :=
  if b then Ok tt else Err e.

Definition of_option {E A} (o : option A) (e : E) : result E A :=
  match o with Some a => Ok a | None => Err e end.

(** [Array.prototype.map] with a callback that may throw. *)
Fixpoint rmap {E A B} (f : A -> result E B) (l : list A) : result E (list B) :=
  match l with
  | [] => Ok []
  | x :: l => let? y := f x in let? ys := rmap f l in Ok (y :: ys)
  end.

(** ** Methods: state passing with exceptions that do not roll back *)

(** A method of an object with state [S] that may throw [E]: a JavaScript
    exception leaves the mutations already made in place, so the final state
    is there on both outcomes. *)
Definition method (S E A : Type) : Type := S -> S * result E A.

Definition jret {S E A} (a : A) : method S E A := fun s => (s, Ok a).
Definition jthrow {S E A} (e : E) : method S E A := fun s => (s, Err e).
Definition jlift {S E A} (r : result E A) : method S E A := fun s => (s, r).
Definition jread {S E} : method S E S := fun s => (s, Ok s).
Definition jwrite {S E} (s' : S) : method S E unit := fun _ => (s', Ok tt).
Definition jbind {S E A B} (m : method S E A) (f : A -> method S E B) : method S E B :=
  fun s => match m s with
           | (s', Ok a) => f a s'
           | (s', Err e) => (s', Err e)
           end.

(** [try { m } catch (e) { h(e) }] and [try { m } finally { c }]. *)
Definition jcatch {S E A} (m : method S E A) (h : E -> method S E A) : method S E A := fun s =>
  match m s with (s, Ok a) => (s, Ok a) | (s, Err e) => h e s end.
Definition jfinally {S E A} (m : method S E A) (c : S -> S) : method S E A := fun s => let '(s, r) := m s in (c s, r).

(** Run a method on a part of the state, wrapping its errors. *)
Definition jzoom {S T E F A} (part : S -> T) (put : T -> S -> S) (wrap : E -> F) (m : method T E A) : method S F A :=
  fun s => let '(t, r) := m (part s) in (put t s, match r with Ok a => Ok a | Err e => Err (wrap e) end).

Lemma jzoom_inv {S T E F A} (part : S -> T) put (wrap : E -> F) (m : method T E A) s s' r :
  jzoom part put wrap m s = (s', r) ->
  exists t res, m (part s) = (t, res) /\ s' = put t s /\ r = match res with Ok a => Ok a | Err e => Err (wrap e) end.
Proof. unfold jzoom. destruct (m (part s)) as [t res]. intros [= <- <-]. by exists t, res. Qed.

Notation "'let!' x := m 'in' k" := (jbind m (fun x => k))
  (at level 10, x binder, m at level 100, k at level 200) : js_scope.
Notation "m ';!' k" := (jbind m (fun _ => k))
  (at level 199, right associativity) : js_scope.

Fixpoint jforeach {S E A} (f : A -> method S E unit) (l : list A) : method S E unit :=
  match l with
  | [] => jret tt
  | x :: l => f x ;! jforeach f l
  end.

Section monad_lemmas.
Context {E : Type}.

Lemma rbind_ok {A B} (r : result E A) (f : A -> result E B) b :
  rbind r f = Ok b <-> exists a, r = Ok a /\ f a = Ok b.
Proof. destruct r; simpl; naive_solver. Qed.

Lemma require_ok b (e : E) u : require b e = Ok u <-> b = true.
Proof. destruct b, u; simpl; naive_solver. Qed.

Lemma of_option_ok {A} (o : option A) (e : E) a :
  of_option o e = Ok a <-> o = Some a.
Proof. destruct o; simpl; naive_solver. Qed.

Lemma rmap_ok_forall2 {A B} (f : A -> result E B) l ys :
  rmap f l = Ok ys <-> Forall2 (fun x y => f x = Ok y) l ys.
Proof.
  revert ys. induction l as [|x l IH]; intros ys; simpl.
  - split; [intros [= <-]; constructor | by inversion 1].
  - rewrite rbind_ok. split.
    + intros (y & Hy & (zs & Hzs & [= <-])%rbind_ok). constructor; [done|]. by apply IH.
    + inversion 1; subst. eexists; split; [done|].
      apply rbind_ok. eexists; split; [by apply IH | done].
Qed.

Lemma rmap_id {A} (f : A -> result E A) l :
  Forall (fun x => f x = Ok x) l -> rmap f l = Ok l.
Proof. intros H. apply rmap_ok_forall2. by induction H; constructor. Qed.

Context {S : Type}.

Lemma jbind_ok {A B} (m : method S E A) (f : A -> method S E B) s s' b :
  jbind m f s = (s', Ok b) <-> exists s1 a, m s = (s1, Ok a) /\ f a s1 = (s', Ok b).
Proof. unfold jbind. destruct (m s) as [s1 []]; naive_solver. Qed.

Lemma jforeach_cons_ok {A} (f : A -> method S E unit) x l s s1 :
  f x s = (s1, Ok tt) -> jforeach f (x :: l) s = jforeach f l s1.
Proof. intros H. simpl. unfold jbind. by rewrite H. Qed.

Lemma jforeach_app {A} (f : A -> method S E unit) l1 l2 s :
  jforeach f (l1 ++ l2) s = (jforeach f l1 ;! jforeach f l2) s.
Proof.
  revert s. induction l1 as [|x l1 IH]; intros s; [done|]. simpl.
  unfold jbind in *. destruct (f x s) as [s1 []]; [apply IH | done].
Qed.
(** An invariant of the body is an invariant of the loop, thrown or not. *)
Lemma jforeach_preserves {A} (P : S -> Prop) (f : A -> method S E unit) l s s' res :
  (forall x s s' res, x ∈ l -> P s -> f x s = (s', res) -> P s') ->
  P s -> jforeach f l s = (s', res) -> P s'.
Proof.
  revert s. induction l as [|x l IH]; intros s Hf Hs Hrun.
  - by injection Hrun as <- <-.
  - simpl in Hrun. unfold jbind in Hrun. destruct (f x s) as [s1 [u|e]] eqn:Hx.
    + apply (IH s1); [|eapply (Hf x s); [left|done..]|done].
      intros y ? ? ? Hin. apply Hf. by right.
    + injection Hrun as <- <-. by eapply (Hf x s); [left|..].
Qed.
End monad_lemmas.

(** ** Numbers *)

(** A JavaScript number as the validations of the code see it: an integer
    (exact below 2^53, the range of every revision and sequence), or any other
    number (fractional, infinite or NaN), which the code only ever rejects. *)
Inductive number : Type :=
| NInt (z : Z)
| NOther.

#[export] Instance number_eq_dec : EqDecision number.
Proof. solve_decision. Defined.

(** [Number.isInteger(n) && n >= 0]. *)
Definition is_nonneg_integer (n : number) : bool :=
  match n with NInt z => bool_decide (0 <= z) | NOther => false end.

(** ** Dates *)

(** A [Date]: its time value in milliseconds, [None] for an invalid date. *)
Definition date : Type := option Z.

(** A timestamp field. The code keeps timestamps as the ISO strings that
    [toISOString] prints; [iso] is the instant such a string denotes. *)
Definition iso : Type := Z.

(** ** Strings *)

Definition is_js_space (c : ascii) : bool :=
  let n := N_of_ascii c in
  bool_decide ((9 <= n <= 13)%N) || bool_decide (n = 32%N) || bool_decide (n = 160%N).

Fixpoint trim_start (s : string) : string :=
  match s with
  | String c s' => if is_js_space c then trim_start s' else s
  | EmptyString => EmptyString
  end.

(** [trim_end]: the last whitespace run is dropped. *)
Fixpoint trim_end (s : string) : string :=
  match s with
  | EmptyString => EmptyString
  | String c s' =>
      match trim_end s' with
      | EmptyString => if is_js_space c then EmptyString else String c EmptyString
      | t => String c t
      end
  end.

(** [String.prototype.trim]. *)
Definition trim (s : string) : string := trim_end (trim_start s).

Definition ascii_map_range (lo hi : N) (shift : N -> N) (c : ascii) : ascii :=
  let n := N_of_ascii c in
  if bool_decide (lo <= n <= hi)%N then ascii_of_N (shift n) else c.

Fixpoint string_map (f : ascii -> ascii) (s : string) : string :=
  match s with
  | EmptyString => EmptyString
  | String c s' => String (f c) (string_map f s')
  end.

(** [toLowerCase] and [toUpperCase] on the ASCII letters. *)
Definition to_lower (s : string) : string := string_map (ascii_map_range 65 90 (fun n => n + 32)%N) s.
Definition to_upper (s : string) : string := string_map (ascii_map_range 97 122 (fun n => n - 32)%N) s.

Definition str_eqb (a b : string) : bool := bool_decide (a = b).

Lemma str_eqb_eq a b : str_eqb a b = true <-> a = b.
Proof. apply bool_decide_eq_true. Qed.

Lemma str_eqb_refl a : str_eqb a a = true.
Proof. by apply str_eqb_eq. Qed.

(** The truthiness of a [string | null | undefined]: [null], [undefined] and
    the empty string are false. *)
Definition truthy (o : option string) : bool :=
  match o with Some s => negb (str_eqb s "") | None => false end.

Lemma truthy_some o : truthy o = true <-> exists s, o = Some s /\ s <> "".
Proof.
  destruct o as [s|]; simpl; [|naive_solver].
  unfold str_eqb. case_bool_decide; naive_solver.
Qed.

Lemma trim_end_idem s : trim_end (trim_end s) = trim_end s.
Proof.
  induction s as [|c s IH]; [done|]. simpl.
  destruct (trim_end s) as [|c' s'] eqn:Ht; simpl in *.
  - destruct (is_js_space c) eqn:Hc; simpl; [done|]. by rewrite Hc.
  - by rewrite IH.
Qed.

Lemma trim_start_trim_end s :
  trim_start s = s -> trim_start (trim_end s) = trim_end s.
Proof.
  destruct s as [|c s]; [done|]. simpl. destruct (is_js_space c) eqn:Hc.
  - intros Heq. exfalso.
    assert (Hlen : forall t, (String.length (trim_start t) <= String.length t)%nat).
    { intros t. induction t as [|d t IHt]; simpl; [lia|]. case_match; simpl; lia. }
    specialize (Hlen s). rewrite Heq in Hlen. simpl in Hlen. lia.
  - intros _. destruct (trim_end s); simpl; by rewrite Hc.
Qed.

Lemma trim_start_idem s : trim_start (trim_start s) = trim_start s.
Proof.
  induction s as [|c s IH]; [done|]. simpl.
  destruct (is_js_space c) eqn:Hc; [done|]. simpl. by rewrite Hc.
Qed.

Lemma trim_idem s : trim (trim s) = trim s.
Proof.
  unfold trim. rewrite (trim_start_trim_end (trim_start s)) by apply trim_start_idem.
  apply trim_end_idem.
Qed.

(** ** The JavaScript [Map] with string keys *)

(** Iteration order is insertion order; [set] on a present key keeps its
    place. [Set] is a map to [unit]. *)
Definition jsmap (V : Type) : Type := list (string * V).

Section jsmap.
Context {V : Type}.
Implicit Types m : jsmap V.

Fixpoint jget (k : string) m : option V :=
  match m with
  | [] => None
  | (k', v) :: m => if str_eqb k' k then Some v else jget k m
  end.

Definition jhas (k : string) m : bool := bool_decide (is_Some (jget k m)).

Fixpoint jset (k : string) (v : V) m : jsmap V :=
  match m with
  | [] => [(k, v)]
  | (k', v') :: m => if str_eqb k' k then (k', v) :: m else (k', v') :: jset k v m
  end.

Definition jkeys m : list string := map fst m.
Definition jvalues m : list V := map snd m.

Lemma jget_jset k k' v m :
  jget k' (jset k v m) = if str_eqb k k' then Some v else jget k' m.
Proof.
  unfold str_eqb. induction m as [|[k0 v0] m IH]; simpl; unfold str_eqb in *.
  - done.
  - destruct (bool_decide (k0 = k)) eqn:H0; simpl; unfold str_eqb.
    + apply bool_decide_eq_true in H0 as ->. repeat case_bool_decide; done.
    + rewrite IH. apply bool_decide_eq_false in H0.
      repeat case_bool_decide; subst; done.
Qed.

Lemma jget_jset_eq k v m : jget k (jset k v m) = Some v.
Proof. rewrite jget_jset. unfold str_eqb. by rewrite bool_decide_eq_true_2. Qed.

Lemma jget_jset_ne k k' v m : k <> k' -> jget k' (jset k v m) = jget k' m.
Proof. intros. rewrite jget_jset. unfold str_eqb. by rewrite bool_decide_eq_false_2. Qed.

Lemma jget_elem k v m : jget k m = Some v -> (k, v) ∈ m.
Proof.
  induction m as [|[k0 v0] m IH]; simpl; [done|]. unfold str_eqb.
  case_bool_decide; [intros [= ->]; subst; left | intros; right; auto].
Qed.

Lemma jget_None k m : jget k m = None <-> k ∉ jkeys m.
Proof.
  induction m as [|[k0 v0] m IH]; simpl; [set_solver|]. unfold str_eqb.
  case_bool_decide; set_solver.
Qed.

Lemma elem_jget k v m : NoDup (jkeys m) -> (k, v) ∈ m -> jget k m = Some v.
Proof.
  induction m as [|[k0 v0] m IH]; simpl; [set_solver|].
  intros [Hn Hnd]%NoDup_cons Hin. unfold str_eqb. case_bool_decide as Hk.
  - subst. apply elem_of_cons in Hin as [[= ->]|Hin]; [done|].
    destruct Hn. apply list_elem_of_fmap. by exists (k, v).
  - apply elem_of_cons in Hin as [[= -> ->]|Hin]; [done|]. auto.
Qed.

Lemma jkeys_jset k v m :
  jkeys (jset k v m) = if jhas k m then jkeys m else jkeys m ++ [k].
Proof.
  unfold jhas. induction m as [|[k0 v0] m IH]; simpl; [done|].
  unfold str_eqb in *. destruct (bool_decide (k0 = k)) eqn:Hk; simpl.
  - done.
  - rewrite IH. by destruct (bool_decide (is_Some (jget k m))).
Qed.

Lemma NoDup_jset k v m : NoDup (jkeys m) -> NoDup (jkeys (jset k v m)).
Proof.
  intros Hnd. rewrite jkeys_jset. unfold jhas. case_bool_decide as Hk; [done|].
  apply eq_None_not_Some, jget_None in Hk.
  apply NoDup_app. repeat split; [done | set_solver | apply NoDup_singleton].
Qed.

Lemma jset_fresh k v m : jget k m = None -> jset k v m = m ++ [(k, v)].
Proof.
  induction m as [|[k0 v0] m IH]; simpl; [done|]. unfold str_eqb.
  case_bool_decide; [done|]. intros. by rewrite IH.
Qed.

Lemma elem_jset_inv k v m k' v' :
  (k', v') ∈ jset k v m -> (k' = k /\ v' = v) \/ (k', v') ∈ m.
Proof.
  induction m as [|[k0 v0] m IH]; simpl; [set_solver|]. unfold str_eqb.
  case_bool_decide; set_solver.
Qed.

Lemma length_jset k v m :
  length (jset k v m) = if jhas k m then length m else S (length m).
Proof.
  assert (Hl : forall m : jsmap V, length m = length (jkeys m)) by (intros; unfold jkeys; by rewrite length_map).
  rewrite !Hl, jkeys_jset. destruct (jhas k m); [done|]. rewrite length_app. simpl. lia.
Qed.

(** [set] on a present key replaces the value in place. *)
Lemma jset_mid m1 m2 k v v' : k ∉ jkeys m1 -> jset k v' (m1 ++ (k, v) :: m2) = m1 ++ (k, v') :: m2.
Proof.
  induction m1 as [|[k0 v0] m1 IH]; simpl; unfold str_eqb; intros Hk.
  - by rewrite bool_decide_eq_true_2.
  - apply not_elem_of_cons in Hk as [Hne Hk]. rewrite bool_decide_eq_false_2 by congruence. by rewrite IH.
Qed.

Lemma jset_same k v m : jget k m = Some v -> jset k v m = m.
Proof.
  induction m as [|[k0 v0] m IH]; simpl; [done|]. unfold str_eqb.
  case_bool_decide; [by intros [= ->] | intros; by rewrite IH].
Qed.

(** [Map.prototype.delete]. *)
Fixpoint jdelete (k : string) m : jsmap V :=
  match m with
  | [] => []
  | (k', v) :: m => if str_eqb k' k then jdelete k m else (k', v) :: jdelete k m
  end.

Lemma jget_jdelete k k' m : jget k' (jdelete k m) = if str_eqb k k' then None else jget k' m.
Proof.
  unfold str_eqb. induction m as [|[k0 v0] m IH]; simpl; [by case_bool_decide|].
  unfold str_eqb. destruct (bool_decide (k0 = k)) eqn:Hk; simpl; unfold str_eqb; rewrite ?IH;
    [apply bool_decide_eq_true in Hk | apply bool_decide_eq_false in Hk];
    repeat case_bool_decide; subst; done.
Qed.

Lemma elem_jdelete k k' v m : (k', v) ∈ jdelete k m <-> (k', v) ∈ m /\ k' <> k.
Proof.
  induction m as [|[k0 v0] m IH]; simpl; [set_solver|]. unfold str_eqb. case_bool_decide as Hk.
  - rewrite IH, elem_of_cons. naive_solver.
  - rewrite !elem_of_cons, IH. naive_solver.
Qed.

Lemma NoDup_jdelete k m : NoDup (jkeys m) -> NoDup (jkeys (jdelete k m)).
Proof.
  induction m as [|[k0 v0] m IH]; simpl; [done|]. intros [Hn Hnd]%NoDup_cons. unfold str_eqb.
  case_bool_decide; [by apply IH|]. simpl. constructor; [|by apply IH]. intros Hin. apply Hn.
  apply list_elem_of_fmap in Hin as ([k1 v1] & -> & [Hin _]%elem_jdelete).
  apply list_elem_of_fmap. by exists (k1, v1).
Qed.

Lemma jget_jset_is_Some k k' v m : is_Some (jget k' m) -> is_Some (jget k' (jset k v m)).
Proof. intros H. rewrite jget_jset. by destruct (str_eqb k k'). Qed.

Lemma jhas_jset k k' v m : jhas k' m = true -> jhas k' (jset k v m) = true.
Proof. unfold jhas. rewrite !bool_decide_eq_true. apply jget_jset_is_Some. Qed.

(** The finite map a [Map] stands for; order forgotten. *)
Definition to_gmap m : gmap string V := list_to_map m.

Lemma lookup_to_gmap k m : to_gmap m !! k = jget k m.
Proof.
  unfold to_gmap. induction m as [|[k0 v0] m IH]; simpl; [done|].
  unfold str_eqb. rewrite lookup_insert.
  case_decide; [by rewrite bool_decide_eq_true_2 | by rewrite bool_decide_eq_false_2].
Qed.

Lemma to_gmap_jset k v m : to_gmap (jset k v m) = <[k := v]> (to_gmap m).
Proof.
  apply map_eq. intros i. rewrite lookup_to_gmap, lookup_insert, lookup_to_gmap, jget_jset.
  unfold str_eqb.
  case_decide; [by rewrite bool_decide_eq_true_2 | by rewrite bool_decide_eq_false_2].
Qed.

(** Every entry satisfies [P]. *)
Definition jall (P : string -> V -> Prop) m : Prop := forall k v, jget k m = Some v -> P k v.

Lemma jall_jset (P : string -> V -> Prop) k v m :
  P k v -> jall P m -> jall P (jset k v m).
Proof.
  intros Hp Hall k' v'. rewrite jget_jset. unfold str_eqb.
  case_bool_decide as Hk; [intros [= <-]; by subst | apply Hall].
Qed.

Lemma elem_jvalues v m : v ∈ jvalues m <-> exists k, (k, v) ∈ m.
Proof.
  unfold jvalues. rewrite list_elem_of_fmap. split; [intros ([k v'] & -> & H); eauto | intros [k H]; by exists (k, v)].
Qed.

(** Values filed under their own key are listed as the keys are. *)
Lemma jvalues_keys (f : V -> string) m : NoDup (jkeys m) -> jall (fun k v => f v = k) m -> map f (jvalues m) = jkeys m.
Proof.
  intros Hn Hk. assert (Hf : Forall (fun kv => f kv.2 = kv.1) m).
  { apply Forall_forall. intros [k v] Hin. apply Hk. by apply elem_jget. }
  unfold jvalues, jkeys. rewrite map_map. clear Hn Hk. induction Hf as [|kv m H _ IH]; [done|]. cbn [map]. by rewrite H, IH.
Qed.

(** Such a map is determined by its values. *)
Lemma jmap_of_values (f : V -> string) m : NoDup (jkeys m) -> jall (fun k v => f v = k) m -> m = map (fun v => (f v, v)) (jvalues m).
Proof.
  intros Hn Hk. assert (Hf : Forall (fun kv => f kv.2 = kv.1) m).
  { apply Forall_forall. intros [k v] Hin. apply Hk. by apply elem_jget. }
  unfold jvalues. rewrite map_map. clear Hn Hk. induction Hf as [|[k v] m H _ IH]; [done|]. cbn [map]. cbn [fst snd] in *.
  rewrite <-H. by f_equal.
Qed.
End jsmap.

(** [[...new Set(values)]]: first occurrences, in order. *)
Fixpoint unique_go (seen : list string) (l : list string) : list string :=
  match l with
  | [] => []
  | x :: l => if bool_decide (x ∈ seen) then unique_go seen l else x :: unique_go (x :: seen) l
  end.
Definition unique (l : list string) : list string := unique_go [] l.

Lemma elem_of_unique_go x seen l : x ∈ unique_go seen l <-> x ∈ l /\ x ∉ seen.
Proof.
  revert seen. induction l as [|y l IH]; intros seen; simpl; [set_solver|].
  case_bool_decide as Hy.
  - rewrite IH. set_solver.
  - rewrite elem_of_cons, IH. destruct (decide (x = y)); set_solver.
Qed.

Lemma elem_of_unique x l : x ∈ unique l <-> x ∈ l.
Proof. unfold unique. rewrite elem_of_unique_go. set_solver. Qed.

Lemma NoDup_unique l : NoDup (unique l).
Proof.
  unfold unique. generalize (@nil string). induction l as [|y l IH]; intros seen; simpl.
  - constructor.
  - case_bool_decide; [apply IH|]. constructor; [|apply IH].
    rewrite elem_of_unique_go. set_solver.
Qed.

(** [Array.prototype.map] with the index, from [index] on. *)
Definition map_index {A B} (f : N -> A -> B) : N -> list A -> list B :=
  fix go (index : N) (l : list A) : list B :=
    match l with
    | [] => []
    | item :: l => f index item :: go (index + 1)%N l
    end.

(** What every step of a fold preserves. *)
Lemma foldl_invariant {A B} (P : A -> Prop) (f : A -> B -> A) l a : (forall a b, b ∈ l -> P a -> P (f a b)) -> P a -> P (foldl f a l).
Proof.
  revert a. induction l as [|b l IH]; intros a Hf Ha; [done|]. cbn [foldl]. apply IH; [|apply Hf; [left | done]].
  intros a' b' Hb. apply Hf. by right.
Qed.

Lemma length_map_index {A B} (f : N -> A -> B) (i : N) (l : list A) : length (map_index f i l) = length l.
Proof. revert i. induction l as [|x l IH]; intros i; simpl; [done|]. by rewrite IH. Qed.

Lemma lookup_map_index {A B} (f : N -> A -> B) (i : N) (l : list A) j :
  map_index f i l !! j = f (i + N.of_nat j)%N <$> l !! j.
Proof.
  revert i j. induction l as [|x l IH]; intros i [|j]; simpl; try done.
  - by rewrite N.add_0_r.
  - rewrite IH. do 2 f_equal. lia.
Qed.

(** [String.prototype.localeCompare] of the host's collation, which the
    environment supplies. *)
Class Collation : Type := localeCompare : string -> string -> Z.

(** ** Automation *)

Create HintDb js discriminated.
#[export] Hint Resolve jget_jset_eq NoDup_jset trim_idem NoDup_unique : js.
#[export] Hint Rewrite @jget_jset_eq @to_gmap_jset @lookup_to_gmap : js.

(** Take one successful computation apart: every [let?] and guard of a
    hypothesis [r = Ok _] becomes an equation. *)
Ltac inv_ok :=
  repeat match goal with
  | H : ?x = ?x |- _ => clear H
  | H : rbind _ _ = Ok _ |- _ => apply rbind_ok in H as (? & ? & ?)
  | H : jbind _ _ _ = (_, Ok _) |- _ => apply jbind_ok in H as (? & ? & ? & ?)
  | H : require _ _ = Ok _ |- _ => apply require_ok in H
  | H : of_option _ _ = Ok _ |- _ => apply of_option_ok in H
  | H : jret _ _ = (_, _) |- _ => unfold jret in H
  | H : jlift _ _ = (_, _) |- _ => unfold jlift in H
  | H : jread _ = (_, _) |- _ => unfold jread in H
  | H : jwrite _ _ = (_, _) |- _ => unfold jwrite in H
  | H : Ok _ = Ok _ |- _ => injection H as H
  | H : Err _ = Ok _ |- _ => discriminate H
  | H : (_, _) = (_, _) |- _ => injection H as H
  | H1 : ?a = Ok ?x, H2 : ?a = Ok ?y |- _ =>
      assert (x = y) by congruence; clear H2
  | u : unit |- _ => destruct u
  | _ => progress subst
  end.

(** Run a method in a hypothesis: unfold the monad and split every branch. *)
Ltac run_method H :=
  unfold jbind, jlift, jread, jret, jwrite, jthrow in H; repeat (case_match; simplify_eq/=; try done).
