(* ===== verification/Json.v ===== *)
(** * JSON values and their two printers

    [json] is a JSON value as the dashboard code handles it, [stringify] is
    [JSON.stringify] and [stableStringify] the key-sorting printer of
    data/primary-agent-binding.ts that the plan hash is computed from. The
    file proves that [stringify] is injective (two operations have the same
    fingerprint exactly when they are the same operation) and that
    [stableStringify] prints the canonical form of a value, so it does not
    depend on the order in which the keys of an object were written. *)

From S2P Require Import Prelude.
From stdpp Require Import pretty.

(** Numbers are the integers the code prints (revisions and sequences); an
    object is the list of its own enumerable properties in enumeration order. *)
Inductive json : Type :=
| JNull
| JBool (b : bool)
| JNum (z : Z)
| JStr (s : string)
| JArr (l : list json)
| JObj (l : list (string * json)).

Section json_ind.
Variable P : json -> Prop.
Hypothesis Hnull : P JNull.
Hypothesis Hbool : forall b, P (JBool b).
Hypothesis Hnum : forall z, P (JNum z).
Hypothesis Hstr : forall s, P (JStr s).
Hypothesis Harr : forall l, Forall P l -> P (JArr l).
Hypothesis Hobj : forall l, Forall (fun kv => P kv.2) l -> P (JObj l).

Fixpoint json_ind' (v : json) : P v :=
  match v with
  | JNull => Hnull
  | JBool b => Hbool b
  | JNum z => Hnum z
  | JStr s => Hstr s
  | JArr l => Harr l ((fix go (l : list json) : Forall P l :=
                         match l with
                         | [] => Forall_nil_2 P
                         | x :: l => Forall_cons_2 P x l (json_ind' x) (go l)
                         end) l)
  | JObj l => Hobj l ((fix go (l : list (string * json)) : Forall (fun kv => P kv.2) l :=
                         match l with
                         | [] => Forall_nil_2 _
                         | kv :: l => Forall_cons_2 _ kv l (json_ind' kv.2) (go l)
                         end) l)
  end.
End json_ind.

(** ** [JSON.stringify] *)

Definition chr (n : N) : string := String (ascii_of_N n) EmptyString.

Definition hex_digit (n : N) : ascii :=
  ascii_of_N (if bool_decide (n < 10)%N then n + 48 else n + 87)%N.

(** The escape of one character inside a JSON string. *)
Definition esc_char (c : ascii) : string :=
  match N_of_ascii c with
  | 8%N => "\b" | 9%N => "\t" | 10%N => "\n" | 12%N => "\f" | 13%N => "\r"
  | 34%N => chr 92 +:+ chr 34
  | 92%N => "\\"
  | n => if bool_decide (n < 32)%N
         then "\u00" +:+ String (hex_digit (n / 16)) (String (hex_digit (n mod 16)) EmptyString)
         else String c EmptyString
  end.

Fixpoint esc (s : string) : string :=
  match s with
  | EmptyString => EmptyString
  | String c s => esc_char c +:+ esc s
  end.

Definition quote (s : string) : string := chr 34 +:+ esc s +:+ chr 34.

(** [Array.prototype.join(',')]. *)
Fixpoint join (l : list string) : string :=
  match l with
  | [] => ""
  | [x] => x
  | x :: l => x +:+ "," +:+ join l
  end.

Fixpoint stringify (v : json) : string :=
  match v with
  | JNull => "null"
  | JBool b => if b then "true" else "false"
  | JNum z => pretty z
  | JStr s => quote s
  | JArr l => "[" +:+ join (map stringify l) +:+ "]"
  | JObj l => "{" +:+ join (map (fun kv => quote kv.1 +:+ ":" +:+ stringify kv.2) l) +:+ "}"
  end.

(** ** [padStart] and [Date.prototype.toISOString] *)

Fixpoint repeat_char (c : ascii) (n : nat) : string :=
  match n with O => EmptyString | S n => String c (repeat_char c n) end.

Definition padStart (width : nat) (c : ascii) (s : string) : string :=
  repeat_char c (width - String.length s) +:+ s.

Definition pad_number (width : nat) (n : Z) : string := padStart width "0" (pretty n).

#[local] Open Scope Z_scope.

(** Year, month and day of a day number (days since 1970-01-01) in the
    proleptic Gregorian calendar. *)
Definition civil_from_days (days : Z) : Z * Z * Z :=
  let z := days + 719468 in
  let era := z / 146097 in
  let doe := z - era * 146097 in
  let yoe := (doe - doe / 1460 + doe / 36524 - doe / 146096) / 365 in
  let doy := doe - (365 * yoe + yoe / 4 - yoe / 100) in
  let mp := (5 * doy + 2) / 153 in
  let d := doy - (153 * mp + 2) / 5 + 1 in
  let m := if bool_decide (mp < 10) then mp + 3 else mp - 9 in
  (yoe + era * 400 + (if bool_decide (m <= 2) then 1 else 0), m, d).

Definition year_string (y : Z) : string :=
  if bool_decide (0 <= y <= 9999) then pad_number 4 y
  else if bool_decide (0 <= y) then "+" +:+ pad_number 6 y
  else "-" +:+ pad_number 6 (- y).

Definition toISOString (t : iso) : string :=
  let '(y, m, d) := civil_from_days (t / 86400000) in
  let ms := t mod 86400000 in
  year_string y +:+ "-" +:+ pad_number 2 m +:+ "-" +:+ pad_number 2 d +:+ "T"
  +:+ pad_number 2 (ms / 3600000) +:+ ":" +:+ pad_number 2 (ms / 60000 mod 60) +:+ ":"
  +:+ pad_number 2 (ms / 1000 mod 60) +:+ "." +:+ pad_number 3 (ms mod 1000) +:+ "Z".

Example toISOString_epoch : toISOString 1709210096789 = "2024-02-29T12:34:56.789Z".
Proof. by vm_compute. Qed.

#[local] Close Scope Z_scope.

(** ** [stableStringify] *)

(** [keys.sort()]: code unit order, here by insertion. *)
Fixpoint insert_key {A} (kv : string * A) (l : list (string * A)) : list (string * A) :=
  match l with
  | [] => [kv]
  | kv' :: l' => if bool_decide (String.le kv.1 kv'.1) then kv :: l else kv' :: insert_key kv l'
  end.
Fixpoint sort_keys {A} (l : list (string * A)) : list (string * A) :=
  match l with
  | [] => []
  | kv :: l => insert_key kv (sort_keys l)
  end.

Fixpoint stableStringify (v : json) : string :=
  match v with
  | JArr l => "[" +:+ join (map stableStringify l) +:+ "]"
  | JObj l =>
      let printed := map (fun kv => (kv.1, stableStringify kv.2)) l in
      "{" +:+ join (map (fun kv => quote kv.1 +:+ ":" +:+ kv.2) (sort_keys printed)) +:+ "}"
  | v => stringify v
  end.

(** ** Injectivity of [stringify] *)

Lemma sapp_assoc (a b c : string) : (a +:+ b) +:+ c = a +:+ (b +:+ c).
Proof. induction a as [|x a IH]; [done|]. change (String x ((a +:+ b) +:+ c) = String x (a +:+ (b +:+ c))). by rewrite IH. Qed.

Lemma sapp_nil_r (a : string) : a +:+ "" = a.
Proof. induction a as [|x a IH]; [done|]. change (String x (a +:+ "") = String x a). by rewrite IH. Qed.


Lemma slength_app (a b : string) : String.length (a +:+ b) = (String.length a + String.length b)%nat.
Proof. induction a as [|c a IH]; [done|]. simpl. by rewrite IH. Qed.
Lemma sapp_cons x (a b : string) : String x a +:+ b = String x (a +:+ b).
Proof. done. Qed.

Lemma sapp_nil (b : string) : "" +:+ b = b.
Proof. done. Qed.

(** Undo one escape. *)
Definition hex_val (c : ascii) : N :=
  let n := N_of_ascii c in if bool_decide (n < 58)%N then n - 48 else n - 87.

Definition unesc (s : string) : option (ascii * string) :=
  match s with
  | String c r =>
      if bool_decide (N_of_ascii c = 92%N) then
        match r with
        | String d r' =>
            match N_of_ascii d with
            | 98%N => Some (ascii_of_N 8, r') | 116%N => Some (ascii_of_N 9, r')
            | 110%N => Some (ascii_of_N 10, r') | 102%N => Some (ascii_of_N 12, r')
            | 114%N => Some (ascii_of_N 13, r') | 34%N => Some (ascii_of_N 34, r')
            | 92%N => Some (ascii_of_N 92, r')
            | 117%N => match r' with
                       | String _ (String _ (String h (String l r''))) =>
                           Some (ascii_of_N (hex_val h * 16 + hex_val l), r'')
                       | _ => None
                       end
            | _ => None
            end
        | EmptyString => None
        end
      else if bool_decide (N_of_ascii c = 34%N) then None else Some (c, r)
  | EmptyString => None
  end.

Lemma unesc_esc_char c r : unesc (esc_char c +:+ r) = Some (c, r).
Proof. destruct c as [[] [] [] [] [] [] [] []]; reflexivity. Qed.

Lemma unesc_quote r : unesc (chr 34 +:+ r) = None.
Proof. reflexivity. Qed.

Lemma esc_inj s s' r r' :
  esc s +:+ chr 34 +:+ r = esc s' +:+ chr 34 +:+ r' -> s = s' /\ r = r'.
Proof.
  revert s'. induction s as [|c s IH]; intros [|c' s'] Heq; simpl in Heq;
    rewrite ?sapp_assoc, ?sapp_nil in Heq.
  - split; [done|]. by apply (inj (String.app (chr 34))) in Heq.
  - apply (f_equal unesc) in Heq. by rewrite unesc_esc_char, unesc_quote in Heq.
  - apply (f_equal unesc) in Heq. by rewrite unesc_esc_char, unesc_quote in Heq.
  - apply (f_equal unesc) in Heq. rewrite !unesc_esc_char in Heq.
    injection Heq as -> Heq. apply IH in Heq as [-> ->]. done.
Qed.

Lemma quote_inj s s' r r' : quote s +:+ r = quote s' +:+ r' -> s = s' /\ r = r'.
Proof.
  unfold quote. rewrite !sapp_assoc. intros Heq.
  apply (inj (String.app (chr 34))) in Heq. by apply esc_inj in Heq.
Qed.

(** A character that can occur in a printed integer. *)
Definition is_num_char (c : ascii) : bool :=
  let n := N_of_ascii c in bool_decide (48 <= n <= 57)%N || bool_decide (n = 45%N).

Fixpoint all_num (s : string) : bool :=
  match s with
  | EmptyString => true
  | String c s => is_num_char c && all_num s
  end.

(** What may follow a value: nothing, or a character no integer contains. *)
Definition stops (r : string) : Prop :=
  match r with EmptyString => True | String c _ => is_num_char c = false end.

Lemma num_prefix_inj a b r r' :
  all_num a = true -> all_num b = true -> stops r -> stops r' ->
  a +:+ r = b +:+ r' -> a = b /\ r = r'.
Proof.
  revert b. induction a as [|c a IH]; intros [|d b]; simpl.
  - done.
  - intros _ Hb Hr _. rewrite sapp_nil. intros ->. simpl in Hr.
    apply andb_true_iff in Hb. naive_solver congruence.
  - intros Ha _ _ Hr. rewrite sapp_nil. intros <-. simpl in Hr.
    apply andb_true_iff in Ha. naive_solver congruence.
  - intros [_ Ha]%andb_true_iff [_ Hb]%andb_true_iff Hr Hr'. rewrite !sapp_cons.
    intros [= -> Heq]. destruct (IH b Ha Hb Hr Hr' Heq) as [-> ->]. done.
Qed.

Lemma is_num_char_digit x : (x < 10)%N -> is_num_char (pretty_N_char x) = true.
Proof.
  intros Hx. assert (x ∈ [0;1;2;3;4;5;6;7;8;9]%N) as Hin by (rewrite !elem_of_cons; lia).
  repeat (apply elem_of_cons in Hin as [->|Hin]; [reflexivity|]). by apply not_elem_of_nil in Hin.
Qed.

Lemma all_num_pretty_go x s : all_num s = true -> all_num (pretty_N_go x s) = true.
Proof.
  revert s. induction (N.lt_wf_0 x) as [x _ IH]; intros s Hs.
  destruct (decide (0 < x)%N) as [Hx|Hx].
  - rewrite pretty_N_go_step by done. apply IH; [by apply N.div_lt|].
    simpl. rewrite Hs, is_num_char_digit; [done|]. by apply N.mod_lt.
  - assert (x = 0%N) as -> by lia. by rewrite pretty_N_go_0.
Qed.

Lemma all_num_pretty_N (x : N) : all_num (pretty x) = true.
Proof.
  unfold pretty, pretty_N. case_decide; [reflexivity|]. by apply all_num_pretty_go.
Qed.

Lemma all_num_pretty_Z (z : Z) : all_num (pretty z) = true.
Proof.
  destruct z as [|p|p]; [reflexivity| |].
  - apply (all_num_pretty_N (N.pos p)).
  - change (all_num (String "-" (pretty (N.pos p))) = true). simpl. apply all_num_pretty_N.
Qed.

Lemma pretty_N_nonempty (x : N) : pretty x <> "".
Proof.
  unfold pretty, pretty_N. case_decide; [done|].
  assert (Hgo : forall x s, (0 < x)%N -> pretty_N_go x s <> "").
  { clear. intros x. induction (N.lt_wf_0 x) as [x _ IH]; intros s Hx.
    rewrite pretty_N_go_step by done.
    destruct (decide (0 < x `div` 10)%N) as [Hd|Hd].
    - apply IH; [by apply N.div_lt | done].
    - assert (x `div` 10 = 0)%N as -> by (apply N.le_0_r; by apply N.nlt_ge). by rewrite pretty_N_go_0. }
  apply Hgo. lia.
Qed.

Lemma pretty_Z_head (z : Z) : exists c s, pretty z = String c s /\ is_num_char c = true.
Proof.
  pose proof (all_num_pretty_Z z) as Hn.
  assert (pretty z <> "") as Hne.
  { destruct z as [|p|p]; [done | apply (pretty_N_nonempty (N.pos p)) | done]. }
  destruct (pretty z) as [|c s]; [done|]. exists c, s. split; [done|].
  simpl in Hn. by apply andb_true_iff in Hn as [? _].
Qed.

(** The first character of a printed value tells its constructor. *)
Definition head_class (v : json) (c : ascii) : Prop :=
  match v with
  | JNull => c = "n"%char
  | JBool b => c = if b then "t"%char else "f"%char
  | JNum _ => is_num_char c = true
  | JStr _ => c = ascii_of_N 34
  | JArr _ => c = "["%char
  | JObj _ => c = "{"%char
  end.

Lemma stringify_head v : exists c s, stringify v = String c s /\ head_class v c.
Proof.
  destruct v as [|[]|z|s|l|l]; simpl; try by eauto.
  apply pretty_Z_head.
Qed.

(** The separators after the first element of an array or object. *)
Fixpoint tail (close : string) (l : list string) : string :=
  match l with
  | [] => close
  | x :: l => "," +:+ x +:+ tail close l
  end.

Lemma join_tail close x l : join (x :: l) +:+ close = x +:+ tail close l.
Proof.
  revert x. induction l as [|y l IH]; intros x; [done|].
  change (join (x :: y :: l)) with (x +:+ "," +:+ join (y :: l)).
  rewrite !sapp_assoc, IH. done.
Qed.

(** A printer is uniquely readable up to what may follow. *)
Definition readable {A} (p : A -> string) (a : A) : Prop :=
  forall b r r', stops r -> stops r' -> p a +:+ r = p b +:+ r' -> a = b /\ r = r'.

Lemma stops_tail close (l : list string) r :
  (forall r, stops (close +:+ r)) -> stops (tail close l +:+ r).
Proof. intros Hc. destruct l as [|x l]; [apply Hc | done]. Qed.

Section readable_list.
Context {A : Type} (p : A -> string) (close : string).
Hypothesis Hstop : forall r, stops (close +:+ r).
Hypothesis Hcomma : forall r r', close +:+ r <> "," +:+ r'.
Hypothesis Hhead : forall a r r', p a +:+ r <> close +:+ r'.

Lemma tail_readable l l' r r' :
  Forall (readable p) l ->
  tail close (map p l) +:+ r = tail close (map p l') +:+ r' -> l = l' /\ r = r'.
Proof using Hcomma Hstop.
  intros Hl. revert l'. induction Hl as [|a l Ha Hl IH]; intros [|b l'] Heq; simpl in Heq.
  - split; [done|]. by apply (inj (String.app close)) in Heq.
  - rewrite !sapp_assoc in Heq. by apply Hcomma in Heq.
  - rewrite !sapp_assoc in Heq. symmetry in Heq. by apply Hcomma in Heq.
  - rewrite !sapp_assoc in Heq. apply (inj (String.app ",")) in Heq.
    apply Ha in Heq as [-> Heq]; [|by apply stops_tail..].
    apply IH in Heq as [-> ->]. done.
Qed.

Lemma join_readable l l' r r' :
  Forall (readable p) l ->
  join (map p l) +:+ close +:+ r = join (map p l') +:+ close +:+ r' -> l = l' /\ r = r'.
Proof using Hcomma Hhead Hstop.
  intros Hl Heq. rewrite <-!sapp_assoc in Heq.
  destruct l as [|a l], l' as [|b l']; simpl map in Heq; rewrite ?join_tail in Heq.
  - split; [done|]. by apply (inj (String.app close)) in Heq.
  - rewrite !sapp_assoc in Heq. symmetry in Heq. by apply Hhead in Heq.
  - rewrite !sapp_assoc in Heq. by apply Hhead in Heq.
  - rewrite !sapp_assoc in Heq. apply Forall_cons in Hl as [Ha Hl].
    apply Ha in Heq as [-> Heq]; [|by apply stops_tail..].
    apply tail_readable in Heq as [-> ->]; done.
Qed.
End readable_list.

Lemma head_class_eq v v' c : head_class v c -> head_class v' c ->
  match v, v' with
  | JNull, JNull | JNum _, JNum _ | JStr _, JStr _ | JArr _, JArr _ | JObj _, JObj _ => True
  | JBool b, JBool b' => b = b'
  | _, _ => False
  end.
Proof.
  destruct v as [|[]|z|s|l|l], v' as [|[]|z'|s'|l'|l']; simpl; intros H H'; subst;
    first [done | by vm_compute in H | by vm_compute in H'].
Qed.

Lemma stringify_close v (r r' : string) c :
  c = "]"%char \/ c = "}"%char -> stringify v +:+ r <> String c r'.
Proof.
  intros Hc. destruct (stringify_head v) as (d & s & -> & Hd).
  rewrite sapp_cons. intros [= -> _].
  destruct v as [|[]|z|t|l|l]; simpl in Hd; destruct Hc as [-> | ->]; vm_compute in Hd; discriminate.
Qed.

Lemma stringify_readable v : readable stringify v.
Proof.
  induction v as [|b|z|s|l IH|l IH] using json_ind'; intros v' r r' Hr Hr' Heq;
    destruct (stringify_head v') as (d & s' & Hv' & Hd);
    match goal with
    | _ : stringify ?v +:+ _ = _ |- _ =>
        destruct (stringify_head v) as (c & s0 & Hv & Hc);
        assert (c = d) as -> by (rewrite Hv, Hv', !sapp_cons in Heq; by injection Heq);
        pose proof (head_class_eq _ _ _ Hc Hd) as Hk; clear Hv Hv' Hc Hd
    end; destruct v' as [|b'|z'|t'|l'|l']; try done; simpl stringify in Heq.
  - by apply (inj (String.app "null")) in Heq.
  - subst. destruct b'; by apply (inj (String.app _)) in Heq.
  - apply num_prefix_inj in Heq as [Heq ->]; [|apply all_num_pretty_Z..|done|done].
    apply (inj pretty) in Heq as ->. done.
  - apply quote_inj in Heq as [-> ->]. done.
  - rewrite !sapp_assoc in Heq. apply (inj (String.app "[")) in Heq.
    apply join_readable in Heq as [-> ->]; [done|done|done| |done].
    intros v r0 r1. apply stringify_close. by left.
  - rewrite !sapp_assoc in Heq. apply (inj (String.app "{")) in Heq.
    apply join_readable in Heq as [-> ->]; [done|done|done| |].
    + intros [k v] r0 r1. simpl. unfold quote. rewrite !sapp_assoc. by intros [= ].
    + clear -IH. induction IH as [|[k v] l Hv _ IHl]; constructor; [|done].
      intros [k' v'] r r' Hr Hr' Heq. simpl in Heq. rewrite !sapp_assoc in Heq.
      apply quote_inj in Heq as [-> Heq]. apply (inj (String.app ":")) in Heq.
      apply Hv in Heq as [Heq ->]; [|done..]. simpl in Heq. by subst.
Qed.

(** [JSON.stringify] is injective. *)
Lemma stringify_inj v v' : stringify v = stringify v' -> v = v'.
Proof.
  intros Heq. assert (stringify v +:+ "" = stringify v' +:+ "") as H by by rewrite Heq.
  by apply stringify_readable in H as [-> _].
Qed.

(** ** The canonical form *)

Fixpoint canon (v : json) : json :=
  match v with
  | JArr l => JArr (map canon l)
  | JObj l => JObj (sort_keys (map (fun kv => (kv.1, canon kv.2)) l))
  | v => v
  end.

Section sort_keys.
Context {A : Type}.
Definition key_le (p q : string * A) : Prop := String.le p.1 q.1.

Lemma insert_key_perm (kv : string * A) l : insert_key kv l ≡ₚ kv :: l.
Proof.
  induction l as [|kv' l IH]; simpl; [done|]. case_bool_decide; [done|].
  rewrite IH. by apply Permutation_swap.
Qed.

Lemma sort_keys_perm (l : list (string * A)) : sort_keys l ≡ₚ l.
Proof. induction l as [|kv l IH]; simpl; [done|]. by rewrite insert_key_perm, IH. Qed.

Lemma insert_key_sorted (kv : string * A) l :
  StronglySorted key_le l -> StronglySorted key_le (insert_key kv l).
Proof.
  induction 1 as [|kv' l Hl IH Hf]; simpl; [repeat constructor|].
  case_bool_decide as Hle.
  - constructor; [by constructor|]. constructor; [done|].
    eapply Forall_impl; [exact Hf|]. intros q Hq. unfold key_le in *. by etrans.
  - constructor; [done|]. apply Forall_forall. intros q Hq.
    rewrite insert_key_perm in Hq. apply elem_of_cons in Hq as [->|Hq].
    + unfold key_le. destruct (total String.le kv.1 kv'.1); done.
    + by eapply Forall_forall in Hf.
Qed.

Lemma sort_keys_sorted (l : list (string * A)) : StronglySorted key_le (sort_keys l).
Proof. induction l; simpl; [constructor | by apply insert_key_sorted]. Qed.

(** With distinct keys the sorted list depends on the set of entries only. *)
Lemma sort_keys_proper (l l' : list (string * A)) :
  NoDup (map fst l) -> l ≡ₚ l' -> sort_keys l = sort_keys l'.
Proof.
  intros Hnd Hp.
  eapply (StronglySorted_unique_strong key_le); [|apply sort_keys_sorted..|].
  - intros [k a] [k' a'] Hin Hin' Hle Hle'. unfold key_le in *. simpl in *.
    assert (k = k') as -> by (apply (anti_symm String.le); done).
    rewrite sort_keys_perm in Hin, Hin'. rewrite <-Hp in Hin'.
    f_equal. pose proof (elem_jget k' a l Hnd Hin) as H1.
    pose proof (elem_jget k' a' l Hnd Hin') as H2. by simplify_eq.
  - by rewrite !sort_keys_perm.
Qed.
End sort_keys.

(** Sorting by key commutes with a function on the values. *)
Lemma sort_keys_map {A B} (f : A -> B) (l : list (string * A)) :
  sort_keys (map (fun kv => (kv.1, f kv.2)) l) = map (fun kv => (kv.1, f kv.2)) (sort_keys l).
Proof.
  assert (Hins : forall kv l, insert_key (kv.1, f kv.2) (map (fun kv => (kv.1, f kv.2)) l)
                   = map (fun kv => (kv.1, f kv.2)) (insert_key kv l)).
  { intros kv k. induction k as [|kv' k IH]; simpl; [done|].
    case_bool_decide; simpl; [done | by rewrite IH]. }
  induction l as [|kv l IH]; simpl; [done|]. by rewrite IH, Hins.
Qed.

(** [stableStringify] prints the canonical form. *)
Lemma stableStringify_canon v : stableStringify v = stringify (canon v).
Proof.
  induction v as [|b|z|s|l IH|l IH] using json_ind'; simpl; try done.
  - do 2 f_equal. rewrite map_map. f_equal. by induction IH; simpl; f_equal.
  - do 2 f_equal. f_equal. rewrite !sort_keys_map, !map_map. simpl.
    apply map_ext_in. intros [k v] Hin%list_elem_of_In. rewrite sort_keys_perm in Hin.
    simpl. rewrite Forall_forall in IH. specialize (IH _ Hin). simpl in IH. by rewrite IH.
Qed.

Lemma stableStringify_eq_iff v v' : stableStringify v = stableStringify v' <-> canon v = canon v'.
Proof. rewrite !stableStringify_canon. split; [apply stringify_inj | by intros ->]. Qed.

(** The order in which the properties of an object were written is not seen. *)
Lemma stableStringify_perm l l' :
  NoDup (map fst l) -> l ≡ₚ l' -> stableStringify (JObj l) = stableStringify (JObj l').
Proof.
  intros Hnd Hp. apply stableStringify_eq_iff. simpl. f_equal.
  rewrite !sort_keys_map. by rewrite (sort_keys_proper l l').
Qed.

(** ** Locations in a value *)

(** A step into a payload, and the value a sequence of steps leads to. *)
Inductive segment : Type := Key (k : string) | Index (i : nat).

Definition segment_name (s : segment) : string :=
  match s with Key k => k | Index i => pretty (N.of_nat i) end.

Inductive reaches : json -> list segment -> json -> Prop :=
| reaches_here v : reaches v [] v
| reaches_key l k w ss x : (k, w) ∈ l -> reaches w ss x -> reaches (JObj l) (Key k :: ss) x
| reaches_index l i w ss x : l !! i = Some w -> reaches w ss x -> reaches (JArr l) (Index i :: ss) x.

Definition is_leaf (v : json) : bool :=
  match v with JArr _ | JObj _ => false | _ => true end.
