(* ===== verification/Contracts.v ===== *)
(** * The shared contracts (spatial/contracts/index.ts) and the Node scope

    The enumerations and records of the Primary Agent boundary, the field
    schemas ([idSchema], [revisionSchema], the nullable and object forms) and
    [normalizeSpatialNodeScope] of data/scope.ts. The leaf validators come
    from the zod package; they are the operations of the class [Zod], and
    [ZodLaws] states what their documentation promises. *)

From S2P Require Import Prelude.

(** ** The zod leaves *)

(** [z_string lo hi s] is [z.string().min(lo).max(hi).safeParse(s)],
    [z_nonneg z] is [z.number().int().nonnegative().safeParse(z)]. *)
Class Zod : Type := {
  z_string : nat -> nat -> string -> option string;
  z_nonneg : Z -> option Z;
}.

(** Documented behaviour: validation returns its input, [min] and [max] bound
    the length, [nonnegative] bounds below; a safe integer is accepted. *)
Class ZodLaws (zod : Zod) : Prop := {
  z_string_sound lo hi s t :
    z_string lo hi s = Some t -> t = s /\ (lo <= String.length s <= hi)%nat;
  z_string_complete lo hi s :
    (lo <= String.length s <= hi)%nat -> z_string lo hi s = Some s;
  z_nonneg_sound n m : z_nonneg n = Some m -> m = n /\ 0 <= n;
  z_nonneg_complete n : 0 <= n < 2 ^ 53 -> z_nonneg n = Some n;
}.

(** A concrete validator with that behaviour; the witnesses run on it. *)
#[local] Instance zod_ref : Zod := {|
  z_string lo hi s :=
    if bool_decide (lo <= String.length s)%nat && bool_decide (String.length s <= hi)%nat
    then Some s else None;
  z_nonneg n := if bool_decide (0 <= n) then Some n else None;
|}.

#[export] Instance zod_ref_laws : ZodLaws zod_ref.
Proof.
  split; simpl.
  - intros lo hi s t H. case_bool_decide; [|done]. case_bool_decide; [|done].
    injection H as <-. split; [done | lia].
  - intros lo hi s H. by rewrite !bool_decide_eq_true_2 by lia.
  - intros n m H. case_bool_decide; [|done]. injection H as <-. split; [done | lia].
  - intros n H. by rewrite bool_decide_eq_true_2 by lia.
Qed.

(** ** Enumerations *)

Inductive lifecycle : Type :=
| UNASSIGNED | BINDING | CONNECTED | DEGRADED | DISCONNECTED | REVOKED.
#[export] Instance lifecycle_eq_dec : EqDecision lifecycle.
Proof. solve_decision. Defined.

Inductive capability_category : Type := cap_read | cap_write | cap_action.
#[export] Instance capability_category_eq_dec : EqDecision capability_category.
Proof. solve_decision. Defined.

Inductive grant_state : Type := G_ACTIVE | G_REVOKED | G_EXPIRED.
#[export] Instance grant_state_eq_dec : EqDecision grant_state.
Proof. solve_decision. Defined.

Inductive operational_state : Type :=
| READY | LISTENING | THINKING | ACTING | WORKING | ATTENTION | CRITICAL | OFFLINE.
#[export] Instance operational_state_eq_dec : EqDecision operational_state.
Proof. solve_decision. Defined.

Inductive attention_severity : Type := SEV_NONE | SEV_INFO | SEV_WARNING | SEV_CRITICAL.
#[export] Instance attention_severity_eq_dec : EqDecision attention_severity.
Proof. solve_decision. Defined.

(** ** Records *)

Record provenance : Type := Provenance {
  prov_actor_ref : string;
  prov_operation_id : string;
  prov_recorded_at : iso;
}.
#[export] Instance provenance_eq_dec : EqDecision provenance.
Proof. solve_decision. Defined.

(** [SpatialPrimaryAgentSlot]. *)
Record slot : Type := Slot {
  slot_id : string;
  slot_node_id : string;
  current_binding_id : option string;
  lifecycle_state : lifecycle;
  slot_revision : Z;
  assigned_at : option iso;
  assigned_by : option string;
  last_seen_at : option iso;
  slot_grant_ref : option string;
  hook_subscription_ref : option string;
  durable_inbox_ref : option string;
  changed_at : option iso;
  slot_provenance : option provenance;
}.
#[export] Instance slot_eq_dec : EqDecision slot.
Proof. solve_decision. Defined.

(** [SpatialPrimaryAgentGrant]. *)
Record grant : Type := Grant {
  grant_id : string;
  grant_node_id : string;
  grant_binding_id : string;
  grant_revision : Z;
  grant_categories : list capability_category;
  allowlisted_tools : list string;
  redaction_profile_ref : option string;
  grant_status : grant_state;
  issued_at : iso;
  issued_by : string;
  grant_expires_at : option iso;
}.

(** [SpatialPrimaryAgentState]. *)
Record agent_state : Type := AgentState {
  st_node_id : string;
  st_slot_id : string;
  st_binding_id : option string;
  st_state : operational_state;
  st_severity : attention_severity;
  st_source : string;
  st_revision : Z;
  st_observed_at : iso;
  st_last_successful : option iso;
  st_last_failed : option iso;
}.

(** [SpatialPrimaryAgentBindingRecord] of data/primary-agent-slot.ts. *)
Record binding : Type := Binding {
  binding_id : string;
  binding_node_id : string;
  agent_identity_ref : string;
  runtime_ref : string;
  binding_revision : Z;
  binding_grant_ref : option (option string);
}.
#[export] Instance binding_eq_dec : EqDecision binding.
Proof. solve_decision. Defined.

(** [SpatialNodeScope] of data/scope.ts. *)
Record scope : Type := Scope {
  hypervisor_id : string;
  scope_node_id : string;
}.
#[export] Instance scope_eq_dec : EqDecision scope.
Proof. solve_decision. Defined.

(** ** Field schemas *)

Section schemas.
Context {zod : Zod}.

(** [idSchema]: trimmed, then between 1 and [MAX_ID_LENGTH] characters. *)
Definition idSchema (s : string) : option string := z_string 1 256 (trim s).

(** [labelSchema]: trimmed, then between 1 and [MAX_LABEL_LENGTH] characters. *)
Definition labelSchema (s : string) : option string := z_string 1 240 (trim s).

Definition revisionSchema (n : Z) : option Z := z_nonneg n.

(** [schema.nullable()] and [schema.optional()]. *)
Definition nullable {A} (p : A -> option A) (o : option A) : option (option A) :=
  match o with
  | None => Some None
  | Some a => Some <$> p a
  end.

(** [stateSchema]: trimmed, upper-cased, at most 96 characters. *)
Definition stateSchema (s : string) : option string := z_string 1 96 (to_upper (trim s)).

(** [z.array(schema).max(n)]. *)
Definition z_array {A} (p : A -> option A) (max : N) (l : list A) : option (list A) :=
  if bool_decide (N.of_nat (length l) <= max)%N then mapM p l else None.

(** [timestampSchema] on a timestamp that is already an ISO string. *)
Definition timestampSchema (t : iso) : option iso := Some t.

Definition provenanceSchema (p : provenance) : option provenance :=
  a ← idSchema (prov_actor_ref p);
  o ← idSchema (prov_operation_id p);
  t ← timestampSchema (prov_recorded_at p);
  Some (Provenance a o t).

Definition spatialPrimaryAgentSlotSchema (s : slot) : option slot :=
  id ← idSchema (slot_id s);
  node ← idSchema (slot_node_id s);
  b ← nullable idSchema (current_binding_id s);
  rev ← revisionSchema (slot_revision s);
  at_ ← nullable timestampSchema (assigned_at s);
  by_ ← nullable idSchema (assigned_by s);
  seen ← nullable timestampSchema (last_seen_at s);
  g ← nullable idSchema (slot_grant_ref s);
  h ← nullable idSchema (hook_subscription_ref s);
  d ← nullable idSchema (durable_inbox_ref s);
  c ← nullable timestampSchema (changed_at s);
  p ← nullable provenanceSchema (slot_provenance s);
  Some (Slot id node b (lifecycle_state s) rev at_ by_ seen g h d c p).

Definition spatialPrimaryAgentGrantSchema (g : grant) : option grant :=
  id ← idSchema (grant_id g);
  node ← idSchema (grant_node_id g);
  b ← idSchema (grant_binding_id g);
  rev ← revisionSchema (grant_revision g);
  cats ← z_array Some 32 (grant_categories g);
  tools ← z_array idSchema 256 (allowlisted_tools g);
  red ← nullable idSchema (redaction_profile_ref g);
  at_ ← timestampSchema (issued_at g);
  by_ ← idSchema (issued_by g);
  ex ← nullable timestampSchema (grant_expires_at g);
  Some (Grant id node b rev cats tools red (grant_status g) at_ by_ ex).

Definition spatialPrimaryAgentStateSchema (s : agent_state) : option agent_state :=
  node ← idSchema (st_node_id s);
  id ← idSchema (st_slot_id s);
  b ← nullable idSchema (st_binding_id s);
  src ← idSchema (st_source s);
  rev ← revisionSchema (st_revision s);
  obs ← timestampSchema (st_observed_at s);
  ok ← nullable timestampSchema (st_last_successful s);
  ko ← nullable timestampSchema (st_last_failed s);
  Some (AgentState node id b (st_state s) (st_severity s) src rev obs ok ko).

(** [bindingRecordSchema] of data/primary-agent-slot.ts. *)
Definition bindingRecordSchema (b : binding) : option binding :=
  id ← idSchema (binding_id b);
  node ← idSchema (binding_node_id b);
  ident ← idSchema (agent_identity_ref b);
  rt ← idSchema (runtime_ref b);
  rev ← revisionSchema (binding_revision b);
  g ← nullable (nullable idSchema) (binding_grant_ref b);
  Some (Binding id node ident rt rev g).

(** [normalizeSpatialNodeScope]; [None] is the ZodError of [parse]. *)
Definition normalizeSpatialNodeScope (s : scope) : option scope :=
  h ← idSchema (hypervisor_id s);
  n ← idSchema (scope_node_id s);
  Some (Scope h n).

(** [spatialScopeKey]. *)
Definition spatialScopeKey (s : scope) : option string :=
  n ← normalizeSpatialNodeScope s;
  Some (hypervisor_id n +:+ ":" +:+ scope_node_id n).
End schemas.

(** ** Validation is idempotent *)

(** A parser whose results are fixed points of it. *)
Class Idempotent {A} (p : A -> option A) : Prop :=
  idem : forall a b, p a = Some b -> p b = Some b.

Ltac inv_some :=
  repeat match goal with
  | H : base.mbind _ _ = Some _ |- _ => apply bind_Some in H as (? & ? & ?)
  | H : Some _ = Some _ |- _ => injection H as H
  | _ => progress subst
  end.

(** A schema of idempotent schemas is idempotent. *)
Ltac solve_idem :=
  repeat match goal with H : base.mbind _ _ = Some _ |- _ => apply bind_Some in H as (? & ? & ?) end;
  match goal with H : Some _ = Some _ |- _ => injection H as <- end; simpl in *;
  by repeat (erewrite idem by done; simpl).

Section schema_laws.
Context {zod : Zod} {laws : ZodLaws zod}.

#[export] Instance idSchema_idem : Idempotent idSchema.
Proof using laws.
  intros s t H. unfold idSchema in *. apply z_string_sound in H as [-> Hlen].
  rewrite trim_idem. by apply z_string_complete.
Qed.

#[export] Instance labelSchema_idem : Idempotent labelSchema.
Proof using laws.
  intros s t H. unfold labelSchema in *. apply z_string_sound in H as [-> Hlen].
  rewrite trim_idem. by apply z_string_complete.
Qed.

Lemma idSchema_spec s t : idSchema s = Some t -> t = trim s /\ t <> "".
Proof using laws.
  unfold idSchema. intros [-> Hlen]%z_string_sound. split; [done|].
  intros Heq. rewrite Heq in Hlen. simpl in Hlen. lia.
Qed.

Lemma z_array_forall2 {A} (p : A -> option A) max l l' : z_array p max l = Some l' -> Forall2 (fun x y => p x = Some y) l l'.
Proof. unfold z_array. case_bool_decide; [|done]. apply mapM_Some_1. Qed.

Lemma z_array_map {A B} (p : A -> option A) (f g : A -> B) max l l' :
  (forall a b, p a = Some b -> f b = g a) -> z_array p max l = Some l' -> map f l' = map g l.
Proof.
  intros Hp. unfold z_array. case_bool_decide as Hb; [|done]. intros H%mapM_Some. clear Hb.
  induction H as [|x y l l' Hx H IH]; simpl; [done|]. f_equal; auto.
Qed.

Lemma z_array_ids max l l' : z_array idSchema max l = Some l' -> l' = map trim l.
Proof using laws. intros H. rewrite <-(map_id l'). eapply z_array_map; [|exact H]. by intros x y [-> _]%idSchema_spec. Qed.

#[export] Instance revisionSchema_idem : Idempotent revisionSchema.
Proof using laws.
  intros n m H. unfold revisionSchema in *. pose proof H as [-> _]%z_nonneg_sound. done.
Qed.

Lemma nullable_id {A} (p : A -> option A) o :
  (forall a, o = Some a -> p a = Some a) -> nullable p o = Some o.
Proof. destruct o as [a|]; simpl; [|done]. intros H. by rewrite (H a). Qed.

#[export] Instance nullable_idem {A} (p : A -> option A) : Idempotent p -> Idempotent (nullable p).
Proof.
  intros Hp [a|] o H; simpl in H; [|by injection H as <-].
  apply fmap_Some in H as (b & Hb & ->). simpl. by rewrite (Hp a b Hb).
Qed.

#[export] Instance z_array_idem {A} (p : A -> option A) max : Idempotent p -> Idempotent (z_array p max).
Proof.
  intros Hp l l' H. unfold z_array in *. case_bool_decide as Hl; [|done].
  apply mapM_Some in H. rewrite bool_decide_eq_true_2 by (by erewrite <-Forall2_length).
  apply mapM_Some. clear Hl. induction H as [|x y l l' Hx H IH]; constructor; [by eapply Hp | done].
Qed.

(** Changing case commutes with trimming. *)
Lemma trim_map (f : ascii -> ascii) s :
  (forall c, is_js_space (f c) = is_js_space c) -> trim (string_map f s) = string_map f (trim s).
Proof.
  intros Hf. assert (Hs : forall s, trim_start (string_map f s) = string_map f (trim_start s)).
  { intros t. induction t as [|c t IH]; simpl; [done|]. rewrite Hf. by destruct (is_js_space c). }
  assert (He : forall s, trim_end (string_map f s) = string_map f (trim_end s)).
  { intros t. induction t as [|c t IH]; simpl; [done|]. rewrite IH, Hf.
    destruct (trim_end t); simpl; [by destruct (is_js_space c) | done]. }
  unfold trim. by rewrite Hs, He.
Qed.

Lemma trim_upper_idem s : to_upper (trim (to_upper (trim s))) = to_upper (trim s).
Proof.
  unfold to_upper. rewrite trim_map, trim_idem.
  - generalize (trim s). intros t. induction t as [|c t IH]; simpl; [done|]. f_equal; [|done].
    destruct c as [[] [] [] [] [] [] [] []]; by vm_compute.
  - intros c. destruct c as [[] [] [] [] [] [] [] []]; by vm_compute.
Qed.

#[export] Instance code_idem : Idempotent stateSchema.
Proof using laws.
  intros s t H. unfold stateSchema in *. apply z_string_sound in H as [-> Hlen].
  rewrite trim_upper_idem. by apply z_string_complete.
Qed.

Lemma trim_lower_idem s : to_lower (trim (to_lower (trim s))) = to_lower (trim s).
Proof.
  unfold to_lower. rewrite trim_map, trim_idem.
  - generalize (trim s). intros t. induction t as [|c t IH]; simpl; [done|]. f_equal; [|done].
    destruct c as [[] [] [] [] [] [] [] []]; by vm_compute.
  - intros c. destruct c as [[] [] [] [] [] [] [] []]; by vm_compute.
Qed.

#[export] Instance timestampSchema_idem : Idempotent timestampSchema.
Proof. intros a b [= ->]. done. Qed.

#[export] Instance provenanceSchema_idem : Idempotent provenanceSchema.
Proof using laws.
  intros [a o t] p H. unfold provenanceSchema in *. inv_some. simpl in *.
  by repeat (erewrite idem by done; simpl).
Qed.

#[export] Instance slotSchema_idem : Idempotent spatialPrimaryAgentSlotSchema.
Proof using laws.
  intros s t H. unfold spatialPrimaryAgentSlotSchema in *. inv_some. simpl in *.
  by repeat (erewrite idem by done; simpl).
Qed.

#[export] Instance stateSchema_idem : Idempotent spatialPrimaryAgentStateSchema.
Proof using laws.
  intros s t H. unfold spatialPrimaryAgentStateSchema in *. inv_some. simpl in *.
  by repeat (erewrite idem by done; simpl).
Qed.

#[export] Instance bindingSchema_idem : Idempotent bindingRecordSchema.
Proof using laws.
  intros b b' H. unfold bindingRecordSchema in *. inv_some. simpl in *.
  by repeat (erewrite idem by done; simpl).
Qed.

#[export] Instance scope_idem : Idempotent normalizeSpatialNodeScope.
Proof using laws.
  intros s t H. unfold normalizeSpatialNodeScope in *. inv_some. simpl in *.
  by repeat (erewrite idem by done; simpl).
Qed.
End schema_laws.

#[export] Hint Resolve idem : js.
