(* ===== verification/Slot.v ===== *)
(** * The Primary Agent Slot repository (data/primary-agent-slot.ts)

    A Node owns one Primary Agent Slot. [repo] is the state of
    [InMemoryPrimaryAgentSlotRepository]: slots by node key, registered
    bindings, the idempotency table and the change log. The file models the
    constructor, every public and private method, the serialization and
    [fromState]; [apply] is split at its [await] into [apply_begin] and
    [apply_commit], and [step] interleaves any number of suspended calls. *)

From S2P Require Import Prelude Json Contracts.

(** ** Data *)

Inductive kind : Type :=
| K_bind | K_replace | K_detach | K_revoke
| K_mark_degraded | K_mark_disconnected | K_restore | K_transition.
#[export] Instance kind_eq_dec : EqDecision kind.
Proof. solve_decision. Defined.

(** [PRIMARY_AGENT_SLOT_OPERATION_KINDS]: the spellings the code accepts. *)
Definition OPERATION_KINDS : list (string * kind) :=
  [("bind", K_bind); ("replace", K_replace); ("detach", K_detach); ("revoke", K_revoke);
   ("mark-degraded", K_mark_degraded); ("mark-disconnected", K_mark_disconnected);
   ("restore", K_restore); ("transition", K_transition)].

Definition kind_of (s : string) : option kind := jget s OPERATION_KINDS.

(** [SpatialPrimaryAgentSlotOperation]. A field [x?: T | null] is an
    [option (option T)]: absent, [null], or a value. *)
Record operation : Type := Operation {
  op_operation_id : string;
  op_idempotency_key : string;
  op_actor_ref : string;
  op_expected_revision : number;
  op_kind : string;
  op_binding_id : option string;
  op_binding : option binding;
  op_grant_ref : option (option string);
  op_hook_ref : option (option string);
  op_inbox_ref : option (option string);
  op_lifecycle : option lifecycle;
}.
#[export] Instance operation_eq_dec : EqDecision operation.
Proof. solve_decision. Defined.

Record change : Type := Change {
  change_id : string;
  change_slot_id : string;
  change_node_id : string;
  change_revision : Z;
  change_operation_id : string;
  change_actor_ref : string;
  change_kind : string;
  change_occurred_at : iso;
}.

(** [SpatialPrimaryAgentSlotMutationResult]; its two flags are constants. *)
Record mutation : Type := Mutation {
  mut_slot : slot;
  mut_change : change;
}.

Inductive code : Type :=
| NODE_MISMATCH | DUPLICATE_SLOT | NOT_FOUND | STALE_REVISION | INVALID_TRANSITION
| CORRUPT_BINDING | IDEMPOTENCY_CONFLICT | UNAUTHORIZED | VALIDATION.
#[export] Instance code_eq_dec : EqDecision code.
Proof. solve_decision. Defined.

(** What the repository throws: a [PrimaryAgentSlotConflict] with its code, or
    the ZodError of a [parse]. *)
Inductive error : Type :=
| Conflict (c : code)
| ZodError.
#[export] Instance error_eq_dec : EqDecision error.
Proof. solve_decision. Defined.

Record op_entry : Type := OpEntry { entry_fingerprint : string; entry_result : mutation }.

Record repo : Type := Repo {
  slots : jsmap slot;
  bindings : jsmap binding;
  operations : jsmap op_entry;
  changes : list change;
}.

Definition set_slots (m : jsmap slot) (r : repo) : repo := Repo m (bindings r) (operations r) (changes r).
Definition set_bindings (m : jsmap binding) (r : repo) : repo := Repo (slots r) m (operations r) (changes r).
Definition set_operations (m : jsmap op_entry) (r : repo) : repo := Repo (slots r) (bindings r) m (changes r).
Definition set_changes (l : list change) (r : repo) : repo := Repo (slots r) (bindings r) (operations r) l.

(** ** The lifecycle table *)

Definition TRANSITIONS (s : lifecycle) : list lifecycle :=
  match s with
  | UNASSIGNED => [BINDING; REVOKED]
  | BINDING => [CONNECTED; DEGRADED; DISCONNECTED; UNASSIGNED; REVOKED]
  | CONNECTED => [BINDING; DEGRADED; DISCONNECTED; REVOKED]
  | DEGRADED => [BINDING; CONNECTED; DISCONNECTED; UNASSIGNED; REVOKED]
  | DISCONNECTED => [BINDING; CONNECTED; UNASSIGNED; REVOKED]
  | REVOKED => []
  end.

Definition transition_allowed (from to : lifecycle) : bool :=
  bool_decide (from = to) || bool_decide (to ∈ TRANSITIONS from).

(** ** JSON of an operation and of a binding *)

Definition lifecycle_name (s : lifecycle) : string :=
  match s with
  | UNASSIGNED => "UNASSIGNED" | BINDING => "BINDING" | CONNECTED => "CONNECTED"
  | DEGRADED => "DEGRADED" | DISCONNECTED => "DISCONNECTED" | REVOKED => "REVOKED"
  end.

(** An absent property is not printed. *)
Definition opt_field (k : string) (o : option json) : list (string * json) :=
  match o with Some v => [(k, v)] | None => [] end.

Definition json_nullable (o : option string) : json :=
  match o with Some s => JStr s | None => JNull end.

(** [JSON.stringify] prints a number that is not finite as [null]; [NOther]
    never reaches the printer, because [validateOperation] comes first. *)
Definition json_number (n : number) : json :=
  match n with NInt z => JNum z | NOther => JNull end.

Definition binding_json (b : binding) : json :=
  JObj ([("binding_id", JStr (binding_id b)); ("node_id", JStr (binding_node_id b));
         ("agent_identity_ref", JStr (agent_identity_ref b)); ("runtime_ref", JStr (runtime_ref b));
         ("revision", JNum (binding_revision b))]
        ++ opt_field "capability_grant_ref" (json_nullable <$> binding_grant_ref b)).

Definition operation_json (o : operation) : json :=
  JObj ([("operation_id", JStr (op_operation_id o)); ("idempotency_key", JStr (op_idempotency_key o));
         ("actor_ref", JStr (op_actor_ref o)); ("expected_revision", json_number (op_expected_revision o));
         ("kind", JStr (op_kind o))]
        ++ opt_field "binding_id" (JStr <$> op_binding_id o)
        ++ opt_field "binding" (binding_json <$> op_binding o)
        ++ opt_field "capability_grant_ref" (json_nullable <$> op_grant_ref o)
        ++ opt_field "hook_subscription_ref" (json_nullable <$> op_hook_ref o)
        ++ opt_field "durable_inbox_ref" (json_nullable <$> op_inbox_ref o)
        ++ opt_field "lifecycle_state" ((JStr ∘ lifecycle_name) <$> op_lifecycle o)).

Definition operationFingerprint (o : operation) : string := stringify (operation_json o).

Definition same_binding_json (a b : binding) : bool :=
  str_eqb (stringify (binding_json a)) (stringify (binding_json b)).

(** ** Functions of the module *)

Section slot.
Context {zod : Zod}.

(** [spatialTimestampSchema.parse(now)]: an invalid date is a ZodError. *)
Definition nowIso (now : date) : result error iso := of_option now ZodError.

Definition requireText (s : string) : result error string :=
  if str_eqb (trim s) "" then Err (Conflict VALIDATION) else Ok (trim s).

Definition scope_of (s : scope) : result error scope :=
  of_option (normalizeSpatialNodeScope s) ZodError.

Definition assertPrimaryAgentSlotOwnership (s : slot) (sc : scope) : result error unit :=
  let? n := scope_of sc in
  require (str_eqb (slot_node_id s) (scope_node_id n)) (Conflict NODE_MISMATCH).

(** [options.x?.trim() || fallback]. *)
Definition trimmed_or (o : option string) (fallback : string) : string :=
  match o with
  | Some s => if str_eqb (trim s) "" then fallback else trim s
  | None => fallback
  end.

Definition createPrimaryAgentSlot (sc : scope) (slot_id_opt inbox_opt : option string) (now : date)
  : result error slot :=
  let? n := scope_of sc in
  let? timestamp := nowIso now in
  let slotId := trimmed_or slot_id_opt ("primary-agent-slot-" +:+ scope_node_id n) in
  let durableInboxRef := trimmed_or inbox_opt ("inbox-primary-agent-" +:+ scope_node_id n) in
  let? sid := requireText slotId in
  let? nid := requireText (scope_node_id n) in
  let? inbox := requireText durableInboxRef in
  of_option (spatialPrimaryAgentSlotSchema
    (Slot sid nid None UNASSIGNED 0 None None None None None (Some inbox) (Some timestamp) None))
    (Conflict VALIDATION).

Definition transitionPrimaryAgentSlot (current : slot) (target : lifecycle)
    (actor_ref operation_id : option string) (now : date) : result error slot :=
  require (transition_allowed (lifecycle_state current) target) (Conflict INVALID_TRANSITION) ;?
  let? timestamp := nowIso now in
  Ok (Slot (slot_id current) (slot_node_id current) (current_binding_id current) target
       (slot_revision current + (if bool_decide (lifecycle_state current = target) then 0 else 1))
       (assigned_at current) (assigned_by current)
       (if bool_decide (target = CONNECTED) then Some timestamp else last_seen_at current)
       (slot_grant_ref current) (hook_subscription_ref current) (durable_inbox_ref current)
       (Some timestamp)
       (match actor_ref, operation_id with
        | Some a, Some o =>
            if truthy (Some a) && truthy (Some o) then Some (Provenance a o timestamp)
            else slot_provenance current
        | _, _ => slot_provenance current
        end)).

Definition serializePrimaryAgentSlot (s : slot) : result error slot :=
  of_option (spatialPrimaryAgentSlotSchema s) (Conflict VALIDATION).

Definition validateOperation (o : operation) : result error unit :=
  requireText (op_operation_id o) ;?
  requireText (op_idempotency_key o) ;?
  requireText (op_actor_ref o) ;?
  require (is_nonneg_integer (op_expected_revision o)) (Conflict VALIDATION) ;?
  require (bool_decide (is_Some (kind_of (op_kind o)))) (Conflict VALIDATION).

Definition validateBinding (b : binding) : result error binding :=
  of_option (bindingRecordSchema b) (Conflict VALIDATION).

(** [operation.binding_id ?? operation.binding?.binding_id], trimmed and
    non-blank, else [null]. *)
Definition operationBindingId (o : operation) : option string :=
  let bindingId := match op_binding_id o with
                   | Some b => Some b
                   | None => binding_id <$> op_binding o
                   end in
  match bindingId with
  | Some b => if str_eqb (trim b) "" then None else Some (trim b)
  | None => None
  end.

(** [x === undefined ? dflt : x]. *)
Definition or_undefined (x : option (option string)) (dflt : option string) : option string :=
  match x with Some v => v | None => dflt end.

Definition slotForOperation (current : slot) (o : operation) (b : option binding) (timestamp : iso)
  : result error slot :=
  let prov := Some (Provenance (trim (op_actor_ref o)) (trim (op_operation_id o)) timestamp) in
  (* the clone with its revision, changed_at and provenance set, and the
     fields the switch assigns as arguments *)
  let next bind_id state at_ by_ seen grant hook inbox :=
    Slot (slot_id current) (slot_node_id current) bind_id state (slot_revision current + 1)
      at_ by_ seen grant hook inbox (Some timestamp) prov in
  let with_state state seen :=
    next (current_binding_id current) state (assigned_at current) (assigned_by current) seen
      (slot_grant_ref current) (hook_subscription_ref current) (durable_inbox_ref current) in
  match kind_of (op_kind o) with
  | Some K_bind | Some K_replace =>
      match b with
      | None => Err (Conflict CORRUPT_BINDING)
      | Some b =>
          Ok (next (Some (binding_id b)) CONNECTED (Some timestamp) (Some (trim (op_actor_ref o)))
                (Some timestamp)
                (or_undefined (op_grant_ref o) (or_undefined (binding_grant_ref b) None))
                (or_undefined (op_hook_ref o) None)
                (or_undefined (op_inbox_ref o) (durable_inbox_ref current)))
      end
  | Some K_detach =>
      Ok (next None UNASSIGNED None None (last_seen_at current) None None (durable_inbox_ref current))
  | Some K_revoke =>
      Ok (next None REVOKED (assigned_at current) (assigned_by current) (last_seen_at current)
            None None (durable_inbox_ref current))
  | Some K_mark_degraded => Ok (with_state DEGRADED (last_seen_at current))
  | Some K_mark_disconnected => Ok (with_state DISCONNECTED (last_seen_at current))
  | Some K_restore =>
      if truthy (current_binding_id current)
      then Ok (with_state CONNECTED (Some timestamp))
      else Ok (with_state UNASSIGNED (last_seen_at current))
  | Some K_transition =>
      match op_lifecycle o with
      | None => Err (Conflict VALIDATION)
      | Some target =>
          require (transition_allowed (lifecycle_state current) target) (Conflict INVALID_TRANSITION) ;?
          Ok (with_state target
                (if bool_decide (target = CONNECTED) then Some timestamp else last_seen_at current))
      end
  | None => Err (Conflict VALIDATION) (* not reached: validateOperation rejects the kind *)
  end.

Definition is_bound_state (s : lifecycle) : bool :=
  bool_decide (s ∈ [BINDING; CONNECTED; DEGRADED; DISCONNECTED]).

Definition is_free_state (s : lifecycle) : bool :=
  bool_decide (s = UNASSIGNED) || bool_decide (s = REVOKED).

Definition assertOperationTransition (current : slot) (o : operation) : result error unit :=
  let st := lifecycle_state current in
  let bound := truthy (current_binding_id current) in
  let invalid := Conflict INVALID_TRANSITION in
  match kind_of (op_kind o) with
  | Some K_bind => require (bool_decide (st = UNASSIGNED) && negb bound) invalid
  | Some K_replace => require (negb (is_free_state st) && bound) invalid
  | Some K_detach => require (is_bound_state st && bound) invalid
  | Some K_revoke => require (negb (bool_decide (st = REVOKED))) invalid
  | Some K_mark_degraded | Some K_mark_disconnected => require (negb (is_free_state st) && bound) invalid
  | Some K_restore => require (negb (is_free_state st) && bound) invalid
  | Some K_transition =>
      match op_lifecycle o with
      | None => Err (Conflict VALIDATION)
      | Some target => require (transition_allowed st target) invalid
      end
  | None => Ok tt
  end.

(** ** Methods of the repository *)

Definition key (node_id : string) : string := "node:" +:+ node_id.

(** [assertBindingReference]. *)
Definition assertBindingReference (bs : jsmap binding) (s : slot) : result error unit :=
  match current_binding_id s with
  | Some b =>
      if truthy (Some b) then
        require (negb (is_free_state (lifecycle_state s))) (Conflict CORRUPT_BINDING) ;?
        let? bnd := of_option (jget b bs) (Conflict CORRUPT_BINDING) in
        require (str_eqb (binding_node_id bnd) (slot_node_id s)) (Conflict NODE_MISMATCH)
      else require (negb (is_bound_state (lifecycle_state s))) (Conflict CORRUPT_BINDING)
  | None => require (negb (is_bound_state (lifecycle_state s))) (Conflict CORRUPT_BINDING)
  end.

Definition insertSlot (input : slot) : method repo error slot :=
  let! s := jlift (of_option (spatialPrimaryAgentSlotSchema input) (Conflict VALIDATION)) in
  let! r := jread in
  jlift (require (negb (jhas (key (slot_node_id s)) (slots r))) (Conflict DUPLICATE_SLOT)) ;!
  jlift (assertBindingReference (bindings r) s) ;!
  jwrite (set_slots (jset (key (slot_node_id s)) s (slots r)) r) ;!
  jret s.

Definition registerBinding (input : binding) : method repo error binding :=
  let! b := jlift (validateBinding input) in
  let! r := jread in
  match jget (binding_id b) (bindings r) with
  | Some existing =>
      jlift (require (same_binding_json existing b) (Conflict IDEMPOTENCY_CONFLICT)) ;!
      jret existing
  | None =>
      jwrite (set_bindings (jset (binding_id b) b (bindings r)) r) ;!
      jret b
  end.

Definition getBinding (id : string) (r : repo) : result error (option binding) :=
  let? n := requireText id in Ok (jget n (bindings r)).

Definition createSlot (sc : scope) (slot_id_opt inbox_opt : option string) (now : date)
  : method repo error slot :=
  let! n := jlift (scope_of sc) in
  let! r := jread in
  jlift (require (negb (jhas (key (scope_node_id n)) (slots r))) (Conflict DUPLICATE_SLOT)) ;!
  let! s := jlift (createPrimaryAgentSlot sc slot_id_opt inbox_opt now) in
  insertSlot s.

Definition getSlot (sc : scope) (r : repo) : result error slot :=
  let? n := scope_of sc in
  let? s := of_option (jget (key (scope_node_id n)) (slots r)) (Conflict NOT_FOUND) in
  assertPrimaryAgentSlotOwnership s sc ;?
  assertBindingReference (bindings r) s ;?
  Ok s.

Definition ensureSlot (sc : scope) (now : date) : method repo error slot :=
  let! n := jlift (scope_of sc) in
  let! r := jread in
  match jget (key (scope_node_id n)) (slots r) with
  | Some _ => jlift (getSlot sc r)
  | None => createSlot sc None None now
  end.

(** The [authorize] callback of the options. *)
Definition authorizer : Type := option (scope -> operation -> slot -> bool).

Definition authorized (auth : authorizer) (sc : scope) (o : operation) (s : slot) : bool :=
  match auth with Some f => f sc o s | None => true end.

(** [apply] up to its [await]: the normalized scope and the slot read. *)
Definition apply_begin (sc : scope) (o : operation) (r : repo) : result error (scope * slot) :=
  let? n := scope_of sc in
  validateOperation o ;?
  let? s := getSlot n r in
  Ok (n, s).

(** The binding an operation designates: the record it carries, checked
    against the id, the Node and the registered record of that id, or the
    registered record alone. *)
Definition lookupBinding (n : scope) (o : operation) (bid : string) (bs : jsmap binding)
  : result error (option binding) :=
  match op_binding o with
  | Some carried =>
      let? staged := validateBinding carried in
      require (str_eqb (binding_id staged) bid) (Conflict VALIDATION) ;?
      require (str_eqb (binding_node_id staged) (scope_node_id n)) (Conflict NODE_MISMATCH) ;?
      match jget bid bs with
      | Some registered =>
          require (same_binding_json registered staged) (Conflict IDEMPOTENCY_CONFLICT) ;?
          Ok (Some registered)
      | None => Ok (Some staged)
      end
  | None => Ok (jget bid bs)
  end.

(** The binding a bind or replace resolves; other kinds use none. *)
Definition resolveBinding (n : scope) (o : operation) (bs : jsmap binding) : result error (option binding) :=
  match kind_of (op_kind o) with
  | Some K_bind | Some K_replace =>
      let? bid := of_option (operationBindingId o) (Conflict VALIDATION) in
      let? found := lookupBinding n o bid bs in
      let? b := of_option found (Conflict CORRUPT_BINDING) in
      require (str_eqb (binding_node_id b) (scope_node_id n)) (Conflict NODE_MISMATCH) ;?
      Ok (Some b)
  | _ => Ok None
  end.

Definition change_of (s : slot) (o : operation) (timestamp : iso) : change :=
  Change (slot_id s +:+ ":change:" +:+ stringify (JNum (slot_revision s))) (slot_id s) (slot_node_id s)
    (slot_revision s) (trim (op_operation_id o)) (trim (op_actor_ref o)) (op_kind o) timestamp.

(** The four writes of a commit, in source order. *)
Definition commit (o : operation) (b : option binding) (n : scope) (next : slot) (m : mutation) (r : repo)
  : repo :=
  let bs := match op_binding o, b with
            | Some _, Some b =>
                if jhas (binding_id b) (bindings r) then bindings r
                else jset (binding_id b) b (bindings r)
            | _, _ => bindings r
            end in
  Repo (jset (key (scope_node_id n)) next (slots r)) bs
    (jset (op_idempotency_key o) (OpEntry (operationFingerprint o) m) (operations r))
    (changes r ++ [mut_change m]).

(** [apply] after its [await], with the snapshot [s] read before it. *)
Definition apply_commit (auth : authorizer) (now : date) (n : scope) (o : operation) (s : slot)
  : method repo error mutation :=
  let! r := jread in
  match jget (op_idempotency_key o) (operations r) with
  | Some existing =>
      jlift (require (str_eqb (entry_fingerprint existing) (operationFingerprint o))
               (Conflict IDEMPOTENCY_CONFLICT)) ;!
      jlift (require (str_eqb (change_actor_ref (mut_change (entry_result existing))) (trim (op_actor_ref o)))
               (Conflict UNAUTHORIZED)) ;!
      jret (entry_result existing)
  | None =>
      jlift (require (authorized auth n o s) (Conflict UNAUTHORIZED)) ;!
      jlift (require (bool_decide (op_expected_revision o = NInt (slot_revision s)))
               (Conflict STALE_REVISION)) ;!
      jlift (assertOperationTransition s o) ;!
      let! b := jlift (resolveBinding n o (bindings r)) in
      jlift (require (match jget (key (scope_node_id n)) (slots r) with
                      | Some current => bool_decide (slot_revision current = slot_revision s)
                      | None => false
                      end) (Conflict STALE_REVISION)) ;!
      let! timestamp := jlift (nowIso now) in
      let! next := jlift (slotForOperation s o b timestamp) in
      let m := Mutation next (change_of next o timestamp) in
      jwrite (commit o b n next m r) ;!
      jret m
  end.

(** [apply] with nothing scheduled between its two halves. *)
Definition apply (auth : authorizer) (now : date) (sc : scope) (o : operation) : method repo error mutation :=
  let! r := jread in
  let! ns := jlift (apply_begin sc o r) in
  apply_commit auth now (ns.1) o (ns.2).

Definition getChanges (sc : scope) (after : number) (r : repo) : result error (list change) :=
  let? s := getSlot sc r in
  match after with
  | NInt a =>
      require (bool_decide (0 <= a)) (Conflict VALIDATION) ;?
      Ok (filter (fun c => change_node_id c = slot_node_id s /\ a < change_revision c) (changes r))
  | NOther => Err (Conflict VALIDATION)
  end.

(** ** Serialization *)

(** [PrimaryAgentSlotRepositoryState]. *)
Record repo_state : Type := RepoState {
  rs_slots : list slot;
  rs_bindings : list binding;
  rs_operations : list (string * op_entry);
  rs_changes : list change;
}.

Definition serialize (r : repo) : repo_state :=
  RepoState (jvalues (slots r)) (jvalues (bindings r)) (operations r) (changes r).

Definition empty_repo : repo := Repo [] [] [] [].

(** The constructor: register the bindings, then insert the slots. *)
Definition new_repo (initial : list slot) (bs : list binding) : method repo error unit :=
  jforeach (fun b => registerBinding b ;! jret tt) bs ;!
  jforeach (fun s => insertSlot s ;! jret tt) initial.

Definition fromState (st : repo_state) : result error repo :=
  snd ((new_repo [] (rs_bindings st) ;!
   jforeach (fun s => insertSlot s ;! jret tt) (rs_slots st) ;!
   jforeach (fun e => let! r := jread in jwrite (set_operations (jset e.1 e.2 (operations r)) r))
     (rs_operations st) ;!
   let! r := jread in jwrite (set_changes (changes r ++ rs_changes st) r) ;! jread) empty_repo).

Definition restart (r : repo) : result error repo := fromState (serialize r).
End slot.

(** ** Interleavings *)

(** An [apply] call suspended at its [await]. *)
Record task : Type := Task { task_scope : scope; task_op : operation; task_slot : slot }.

Definition config : Type := repo * list task.

Section interleaving.
Context {zod : Zod} (auth : authorizer).

(** One turn of the event loop: a synchronous call, the first half of an
    [apply], or the second half of any suspended one. *)
Inductive step : config -> config -> Prop :=
| step_register b r ts r' res :
    registerBinding b r = (r', res) -> step (r, ts) (r', ts)
| step_ensure sc now r ts r' res :
    ensureSlot sc now r = (r', res) -> step (r, ts) (r', ts)
| step_create sc i d now r ts r' res :
    createSlot sc i d now r = (r', res) -> step (r, ts) (r', ts)
| step_begin sc o r ts n s :
    apply_begin sc o r = Ok (n, s) -> step (r, ts) (r, Task n o s :: ts)
| step_commit now r ts1 t ts2 r' res :
    apply_commit auth now (task_scope t) (task_op t) (task_slot t) r = (r', res) ->
    step (r, ts1 ++ t :: ts2) (r', ts1 ++ ts2).
End interleaving.

(** The revisions the change log records for a Node, oldest first. *)
Definition node_revisions (node : string) (l : list change) : list Z :=
  map change_revision (filter (fun c => change_node_id c = node) l).

(** [l] is a run of consecutive integers that ends at [r]. *)
Definition contiguous (l : list Z) (r : Z) : Prop :=
  l = seqZ (r - Z.of_nat (length l) + 1) (Z.of_nat (length l)).

(** ** Basic facts *)

Lemma key_inj a b : key a = key b -> a = b.
Proof. apply (inj (String.app "node:")). Qed.

Lemma lifecycle_name_inj a b : lifecycle_name a = lifecycle_name b -> a = b.
Proof. by destruct a, b. Qed.

Lemma json_nullable_inj a b : json_nullable a = json_nullable b -> a = b.
Proof. destruct a, b; simpl; congruence. Qed.

Lemma binding_json_inj a b : binding_json a = binding_json b -> a = b.
Proof.
  destruct a as [a1 a2 a3 a4 a5 a6], b as [b1 b2 b3 b4 b5 b6]. unfold binding_json. simpl.
  intros [= -> -> -> -> -> H]. f_equal.
  destruct a6 as [a6|], b6 as [b6|]; simpl in H; try done.
  injection H as H. f_equal. by apply json_nullable_inj.
Qed.

Lemma same_binding_json_eq a b : same_binding_json a b = true <-> a = b.
Proof.
  unfold same_binding_json. rewrite str_eqb_eq.
  split; [intros H%stringify_inj; by apply binding_json_inj | by intros ->].
Qed.

(** The optional tail of an operation's JSON determines its fields. *)
Lemma opt_field_inj k (a b : option json) (l l' : list (string * json)) :
  k ∉ map fst l -> k ∉ map fst l' ->
  opt_field k a ++ l = opt_field k b ++ l' -> a = b /\ l = l'.
Proof.
  intros Hl Hl'. destruct a as [a|], b as [b|]; simpl.
  - by intros [= -> ->].
  - intros <-. destruct Hl'. simpl. left.
  - intros ->. destruct Hl. simpl. left.
  - done.
Qed.

Lemma map_fst_opt_field k o : map fst (opt_field k o) = if o then [k] else [].
Proof. by destruct o. Qed.

(** Close a goal [k ∉ map fst (opt_field ... ++ ...)]. *)
Ltac fresh_key :=
  rewrite ?map_app, ?map_fst_opt_field, ?not_elem_of_app;
  repeat match goal with |- _ /\ _ => split end;
  try case_match; set_solver.

Lemma fmap_option_inj {A B} (f : A -> B) (a b : option A) :
  (forall x y, f x = f y -> x = y) -> f <$> a = f <$> b -> a = b.
Proof. intros Hf. destruct a, b; simpl; intros; simplify_eq; f_equal; auto. Qed.

Definition valid_expected (o : operation) : Prop := op_expected_revision o <> NOther.

Lemma operation_json_inj o o' :
  valid_expected o -> valid_expected o' -> operation_json o = operation_json o' -> o = o'.
Proof.
  destruct o as [a1 a2 a3 [a4|] a5 a6 a7 a8 a9 a10 a11],
           o' as [b1 b2 b3 [b4|] b5 b6 b7 b8 b9 b10 b11]; try done.
  intros _ _. unfold operation_json. simpl. intros [= -> -> -> -> -> H].
  apply opt_field_inj in H as [H6 H]; [|fresh_key..].
  apply opt_field_inj in H as [H7 H]; [|fresh_key..].
  apply opt_field_inj in H as [H8 H]; [|fresh_key..].
  apply opt_field_inj in H as [H9 H]; [|fresh_key..].
  apply opt_field_inj in H as [H10 H]; [|fresh_key..].
  rewrite <-(app_nil_r (opt_field _ _)) in H.
  rewrite <-(app_nil_r (opt_field _ ((JStr ∘ lifecycle_name) <$> b11))) in H.
  apply opt_field_inj in H as [H11 _]; [|set_solver..].
  f_equal.
  - eapply fmap_option_inj, H6. congruence.
  - eapply fmap_option_inj, H7. apply binding_json_inj.
  - eapply fmap_option_inj, H8. apply json_nullable_inj.
  - eapply fmap_option_inj, H9. apply json_nullable_inj.
  - eapply fmap_option_inj, H10. apply json_nullable_inj.
  - eapply fmap_option_inj, H11. intros x y [= ?]. by apply lifecycle_name_inj.
Qed.

(** Two valid operations have the same fingerprint only when they are equal. *)
Lemma operationFingerprint_inj o o' :
  valid_expected o -> valid_expected o' ->
  operationFingerprint o = operationFingerprint o' -> o = o'.
Proof. intros Ho Ho' H%stringify_inj. by apply operation_json_inj. Qed.

Lemma contiguous_nil r : contiguous [] r.
Proof. done. Qed.

Lemma contiguous_snoc l r : contiguous l r -> contiguous (l ++ [r + 1]) (r + 1).
Proof.
  unfold contiguous. intros H. rewrite length_app. simpl.
  replace (r + 1 - Z.of_nat (length l + 1) + 1) with (r - Z.of_nat (length l) + 1) by lia.
  replace (Z.of_nat (length l + 1)) with (Z.of_nat (length l) + 1) by lia.
  rewrite seqZ_app, <-H by lia. f_equal.
  replace (r - Z.of_nat (length l) + 1 + Z.of_nat (length l)) with (r + 1) by lia. done.
Qed.

Lemma node_revisions_app node l1 l2 :
  node_revisions node (l1 ++ l2) = node_revisions node l1 ++ node_revisions node l2.
Proof. unfold node_revisions. by rewrite filter_app, map_app. Qed.
