(* ===== verification/SlotProps.v ===== *)
(** * Properties of the Primary Agent Slot repository

    Inversion of [apply], the change log under arbitrary interleavings of
    suspended calls, idempotent replay, atomicity of errors, the binding
    invariant, the lifecycle, privileges of a replacement and the
    serialization round trip. *)

From S2P Require Import Prelude Json Contracts Slot.

Section apply.
Context {zod : Zod}.
Implicit Types (r : repo) (o : operation) (s next : slot) (n sc : scope).

(** What one operation does to the fields no operation may change. *)
Lemma slotForOperation_frame s o b t next :
  slotForOperation s o b t = Ok next ->
  slot_id next = slot_id s /\ slot_node_id next = slot_node_id s /\
  slot_revision next = slot_revision s + 1.
Proof.
  unfold slotForOperation. intros H. repeat case_match; inv_ok; simplify_eq; done.
Qed.

(** A successful [apply_commit] either replays a stored result or commits. *)
Lemma apply_commit_ok auth now n o s r r' m :
  apply_commit auth now n o s r = (r', Ok m) ->
  (exists e, jget (op_idempotency_key o) (operations r) = Some e /\
     entry_fingerprint e = operationFingerprint o /\
     change_actor_ref (mut_change (entry_result e)) = trim (op_actor_ref o) /\
     r' = r /\ m = entry_result e) \/
  (jget (op_idempotency_key o) (operations r) = None /\
   authorized auth n o s = true /\
   op_expected_revision o = NInt (slot_revision s) /\
   assertOperationTransition s o = Ok tt /\
   exists b t cur, resolveBinding n o (bindings r) = Ok b /\
     jget (key (scope_node_id n)) (slots r) = Some cur /\
     slot_revision cur = slot_revision s /\
     now = Some t /\
     slotForOperation s o b t = Ok (mut_slot m) /\
     mut_change m = change_of (mut_slot m) o t /\
     r' = commit o b n (mut_slot m) m r).
Proof.
  unfold apply_commit. intros H. inv_ok.
  destruct (jget (op_idempotency_key o) (operations _)) as [e|] eqn:He; inv_ok.
  - left. exists e. by rewrite <-!str_eqb_eq.
  - right. unfold nowIso in *. inv_ok.
    destruct (jget (key (scope_node_id n)) (slots _)) as [cur|] eqn:Hcur; [|done].
    rewrite bool_decide_eq_true in *. do 4 (split; [done|]).
    eexists _, _, cur. by repeat (split; [done|]).
Qed.

(** A thrown error leaves the repository as it was. *)
Lemma apply_commit_err auth now n o s r r' e :
  apply_commit auth now n o s r = (r', Err e) -> r' = r.
Proof.
  unfold apply_commit, jbind, jread, jlift, jret, jwrite.
  intros H. repeat case_match; by simplify_eq.
Qed.

Lemma apply_err auth now sc o r r' e : apply auth now sc o r = (r', Err e) -> r' = r.
Proof.
  unfold apply, jbind, jread, jlift. intros H.
  destruct (apply_begin sc o r) as [[n s]|e']; [by apply apply_commit_err in H | by simplify_eq].
Qed.

Lemma getSlot_ok sc r s :
  getSlot sc r = Ok s ->
  exists n, scope_of sc = Ok n /\ jget (key (scope_node_id n)) (slots r) = Some s /\
    slot_node_id s = scope_node_id n /\ assertBindingReference (bindings r) s = Ok tt.
Proof.
  unfold getSlot, assertPrimaryAgentSlotOwnership. intros H. inv_ok.
  eexists. split; [done|]. rewrite str_eqb_eq in *. done.
Qed.

Lemma apply_begin_ok sc o r n s :
  apply_begin sc o r = Ok (n, s) ->
  scope_of sc = Ok n /\ validateOperation o = Ok tt /\ getSlot n r = Ok s.
Proof.
  unfold apply_begin. intros H. inv_ok.
  done.
Qed.

Lemma apply_split auth now sc o r r' m :
  apply auth now sc o r = (r', Ok m) ->
  exists n s, apply_begin sc o r = Ok (n, s) /\ apply_commit auth now n o s r = (r', Ok m).
Proof. unfold apply. intros H. inv_ok. match goal with x : scope * slot |- _ => destruct x end. eauto. Qed.
End apply.

(** The scope a call ends up with is a fixed point of normalization. *)
Lemma scope_of_idem {zod : Zod} {laws : ZodLaws zod} sc n : scope_of sc = Ok n -> scope_of n = Ok n.
Proof. unfold scope_of. rewrite !of_option_ok. apply scope_idem. Qed.

(** ** The change log under every interleaving *)

(** What a suspended call relies on: its snapshot is not newer than the
    stored slot, and equal to it when the revisions agree. *)
Definition snapshot_ok (r : repo) (t : task) : Prop :=
  slot_node_id (task_slot t) = scope_node_id (task_scope t) /\
  exists cur, jget (key (scope_node_id (task_scope t))) (slots r) = Some cur /\
    slot_revision (task_slot t) <= slot_revision cur /\
    (slot_revision (task_slot t) = slot_revision cur -> task_slot t = cur).

Record log_ok (c : config) : Prop := LogOk {
  log_keys : jall (fun k s => k = key (slot_node_id s)) (slots c.1);
  log_run : forall k s, jget k (slots c.1) = Some s ->
    contiguous (node_revisions (slot_node_id s) (changes c.1)) (slot_revision s);
  log_none : forall node, jget (key node) (slots c.1) = None ->
    node_revisions node (changes c.1) = [];
  log_tasks : Forall (snapshot_ok c.1) c.2;
}.

Section log.
Context {zod : Zod} {laws : ZodLaws zod}.

Lemma log_ok_same_slots r r' ts :
  slots r' = slots r -> changes r' = changes r -> log_ok (r, ts) -> log_ok (r', ts).
Proof.
  intros Hs Hc [H1 H2 H3 H4]. split; simpl in *; rewrite ?Hs, ?Hc; try done.
  eapply Forall_impl; [exact H4|]. unfold snapshot_ok. by rewrite Hs.
Qed.

Lemma registerBinding_frame b r r' res :
  registerBinding b r = (r', res) -> slots r' = slots r /\ changes r' = changes r.
Proof.
  unfold registerBinding, jbind, jread, jlift, jret, jwrite. intros H.
  repeat case_match; by simplify_eq.
Qed.

(** A slot enters the store only under a key that was free. *)
Lemma insertSlot_frame s r r' res :
  insertSlot s r = (r', res) ->
  r' = r \/ exists s', spatialPrimaryAgentSlotSchema s = Some s' /\
    jget (key (slot_node_id s')) (slots r) = None /\
    assertBindingReference (bindings r) s' = Ok tt /\ res = Ok s' /\
    r' = set_slots (jset (key (slot_node_id s')) s' (slots r)) r.
Proof.
  unfold insertSlot, jbind, jread, jlift, jret, jwrite, jhas. intros H.
  destruct (spatialPrimaryAgentSlotSchema s) as [s'|] eqn:Hp; simpl in H; [|simplify_eq; by left].
  destruct (jget (key (slot_node_id s')) (slots r)) eqn:Hg; simpl in H; [simplify_eq; by left|].
  destruct (assertBindingReference (bindings r) s') as [[]|e] eqn:Ha; [|simplify_eq; by left].
  right. exists s'. simplify_eq. done.
Qed.

(** A new slot is contract-valid, unassigned, unbound and at revision 0. *)
Lemma createPrimaryAgentSlot_ok sc i d now s :
  createPrimaryAgentSlot sc i d now = Ok s ->
  spatialPrimaryAgentSlotSchema s = Some s /\ slot_revision s = 0 /\
  lifecycle_state s = UNASSIGNED /\ current_binding_id s = None.
Proof using laws.
  unfold createPrimaryAgentSlot. intros H. inv_ok.
  match goal with H : spatialPrimaryAgentSlotSchema _ = Some s |- _ => rename H into Hs end.
  split; [by eapply slotSchema_idem|].
  unfold spatialPrimaryAgentSlotSchema in Hs. inv_some. simpl in *. inv_some.
  by match goal with H : revisionSchema 0 = Some _ |- _ => apply z_nonneg_sound in H as [-> _] end.
Qed.

Lemma createSlot_frame sc i d now r r' res :
  createSlot sc i d now r = (r', res) ->
  r' = r \/ exists s', slot_revision s' = 0 /\ jget (key (slot_node_id s')) (slots r) = None /\
    r' = set_slots (jset (key (slot_node_id s')) s' (slots r)) r.
Proof using laws.
  unfold createSlot, jbind at 1 2 3, jread, jlift. intros H.
  destruct (scope_of sc) as [n|e]; [|simplify_eq; by left].
  destruct (require _ _); [|simplify_eq; by left]. unfold jbind in H.
  destruct (createPrimaryAgentSlot sc i d now) as [s|e] eqn:Hc; [|simplify_eq; by left].
  apply insertSlot_frame in H as [->|(s' & Hs' & Hg & _ & _ & ->)]; [by left|].
  right. exists s'. split; [|done].
  pose proof (createPrimaryAgentSlot_ok _ _ _ _ _ Hc) as (Hfix & Hrev & _).
  rewrite Hfix in Hs'. by simplify_eq.
Qed.

Lemma ensureSlot_frame sc now r r' res :
  ensureSlot sc now r = (r', res) ->
  r' = r \/ exists s', slot_revision s' = 0 /\ jget (key (slot_node_id s')) (slots r) = None /\
    r' = set_slots (jset (key (slot_node_id s')) s' (slots r)) r.
Proof using laws.
  unfold ensureSlot, jbind, jread, jlift. intros H.
  destruct (scope_of sc) as [n|e]; [|simplify_eq; by left].
  destruct (jget (key (scope_node_id n)) (slots r)); [simplify_eq; by left|].
  by apply createSlot_frame in H.
Qed.

Lemma log_ok_insert r ts s :
  jget (key (slot_node_id s)) (slots r) = None -> log_ok (r, ts) ->
  log_ok (set_slots (jset (key (slot_node_id s)) s (slots r)) r, ts).
Proof.
  intros Hfree [H1 H2 H3 H4]. split; simpl in *.
  - by apply jall_jset.
  - intros k s'. rewrite jget_jset. unfold str_eqb. case_bool_decide; [|by apply H2].
    intros [= <-]. by rewrite H3.
  - intros node. rewrite jget_jset. unfold str_eqb. case_bool_decide; [done|]. apply H3.
  - eapply Forall_impl; [exact H4|]. intros t (Hn & cur & Hcur & Hle). split; [done|].
    exists cur. split; [|done]. simpl. rewrite jget_jset_ne; [done|]. intros Heq. congruence.
Qed.

Lemma log_ok_begin r ts n o s :
  getSlot n r = Ok s -> scope_of n = Ok n -> log_ok (r, ts) -> log_ok (r, Task n o s :: ts).
Proof.
  intros (n' & Hn' & Hs & Hnode & _)%getSlot_ok Hn [H1 H2 H3 H4]. simplify_eq.
  rewrite Hn in Hn'. injection Hn' as <-.
  split; simpl in *; [done..|]. constructor; [|done]. split; [done|].
  exists s. simpl. split; [done|]. split; [lia | done].
Qed.

Lemma log_ok_sub r ts ts' : ts' ⊆+ ts -> log_ok (r, ts) -> log_ok (r, ts').
Proof. intros Hsub [H1 H2 H3 H4]. split; simpl in *; [done..|].
  rewrite Forall_forall in *. intros t Ht. apply H4. by eapply elem_of_submseteq. Qed.

Lemma log_ok_commit auth now t ts r r' m :
  apply_commit auth now (task_scope t) (task_op t) (task_slot t) r = (r', Ok m) ->
  snapshot_ok r t -> log_ok (r, ts) -> log_ok (r', ts).
Proof.
  destruct t as [n o s]. simpl. intros Hap (Hnode & cur0 & Hcur0 & Hle & Heq) Hlog. simpl in *.
  apply apply_commit_ok in Hap
    as [(e & _ & _ & _ & -> & _) | (_ & _ & _ & _ & b & tm & cur & _ & Hcur & Hrev & _ & Hnext & Hch & ->)];
    [done|].
  rewrite Hcur0 in Hcur. injection Hcur as ->.
  assert (s = cur) as -> by auto. clear Heq Hle.
  pose proof (slotForOperation_frame _ _ _ _ _ Hnext) as (_ & Hn & Hr).
  destruct Hlog as [H1 H2 H3 H4]. rewrite <-Hnode in *.
  assert (Hkn : key (slot_node_id cur) = key (slot_node_id (mut_slot m))) by by rewrite Hn.
  split; simpl in *; rewrite <-?Hnode.
  - apply jall_jset; [done|exact H1].
  - intros k s'. rewrite jget_jset. unfold str_eqb. rewrite node_revisions_app, Hch.
    case_bool_decide as Hk.
    + intros [= <-]. rewrite Hn, Hr. unfold node_revisions at 2. rewrite filter_cons_True by done.
      simpl. rewrite Hr. apply contiguous_snoc. by eapply H2.
    + intros Hs'. unfold node_revisions at 2. rewrite filter_cons_False; [by rewrite app_nil_r; eapply H2|].
      simpl. pose proof (H1 _ _ Hs'). congruence.
  - intros node. rewrite jget_jset. unfold str_eqb. case_bool_decide as Hk; [done|].
    intros Hnone. rewrite node_revisions_app, (H3 _ Hnone), Hch. unfold node_revisions.
    rewrite filter_cons_False; [done|]. simpl. congruence.
  - eapply Forall_impl; [exact H4|]. intros t (Htn & c & Hc & Hcle & Hceq). split; [done|].
    simpl. rewrite <-Hnode.
    destruct (decide (key (slot_node_id cur) = key (scope_node_id (task_scope t)))) as [Hk|Hk].
    + exists (mut_slot m). simpl. rewrite Hk, jget_jset_eq. split; [done|].
      rewrite <-Hk, Hcur0 in Hc. injection Hc as <-. split; lia.
    + exists c. simpl. by rewrite jget_jset_ne.
Qed.

Lemma log_ok_step auth c c' : step auth c c' -> log_ok c -> log_ok c'.
Proof using laws.
  destruct 1 as [b r ts r' res H|sc now r ts r' res H|sc i d now r ts r' res H|sc o r ts n s H
                |now r ts1 t ts2 r' res H]; intros Hlog.
  - apply registerBinding_frame in H as [? ?]. by eapply log_ok_same_slots.
  - apply ensureSlot_frame in H as [->|(s' & _ & ? & ->)]; [done|]. by apply log_ok_insert.
  - apply createSlot_frame in H as [->|(s' & _ & ? & ->)]; [done|]. by apply log_ok_insert.
  - apply apply_begin_ok in H as (Hsc & _ & Hs). apply log_ok_begin; [done| |done].
    by eapply scope_of_idem.
  - assert (log_ok (r, ts1 ++ ts2)) as Hrest.
    { eapply log_ok_sub; [|exact Hlog]. apply submseteq_app; [done|]. by apply submseteq_cons. }
    destruct res as [m|e]; [|by apply apply_commit_err in H as ->].
    eapply log_ok_commit; [done| |done].
    pose proof (log_tasks _ Hlog) as Ht. simpl in Ht. rewrite Forall_app, Forall_cons in Ht. tauto.
Qed.

Lemma log_ok_steps auth c c' : rtc (step auth) c c' -> log_ok c -> log_ok c'.
Proof using laws. induction 1; eauto using log_ok_step. Qed.

Lemma log_ok_empty : log_ok (empty_repo, []).
Proof. by split; simpl. Qed.
End log.

(** ** The repository invariant *)

(** A stored slot sits under its own key, satisfies the shared contract and
    refers to a registered binding of its Node exactly when its lifecycle
    state needs one. *)
Section invariant.
Context {zod : Zod}.

Definition slot_ok (bs : jsmap binding) (k : string) (s : slot) : Prop :=
  k = key (slot_node_id s) /\ spatialPrimaryAgentSlotSchema s = Some s /\
  assertBindingReference bs s = Ok tt.

Definition binding_ok (k : string) (b : binding) : Prop :=
  k = binding_id b /\ bindingRecordSchema b = Some b.

Record wf (r : repo) : Prop := Wf {
  wf_slot_keys : NoDup (jkeys (slots r));
  wf_binding_keys : NoDup (jkeys (bindings r));
  wf_operation_keys : NoDup (jkeys (operations r));
  wf_slots : jall (slot_ok (bindings r)) (slots r);
  wf_bindings : jall binding_ok (bindings r);
}.

(** An operation whose references satisfy the id contract, on a slot whose
    revision stays a safe integer, and which does not move a bound slot to
    an unbound lifecycle state (or back) without touching the binding. *)
Record op_safe (s : slot) (o : operation) : Prop := OpSafe {
  safe_actor : idSchema (trim (op_actor_ref o)) = Some (trim (op_actor_ref o));
  safe_operation_id : idSchema (trim (op_operation_id o)) = Some (trim (op_operation_id o));
  safe_grant : forall g, op_grant_ref o = Some (Some g) -> idSchema g = Some g;
  safe_hook : forall g, op_hook_ref o = Some (Some g) -> idSchema g = Some g;
  safe_inbox : forall g, op_inbox_ref o = Some (Some g) -> idSchema g = Some g;
  safe_revision : slot_revision s + 1 < 2 ^ 53;
  safe_target : forall t, kind_of (op_kind o) = Some K_transition -> op_lifecycle o = Some t ->
    is_bound_state t = is_bound_state (lifecycle_state s);
}.

(** A reference field that the contract leaves unchanged. *)
Definition ref_ok (o : option string) : Prop := nullable idSchema o = Some o.

Lemma ref_ok_none : ref_ok None.
Proof. done. Qed.

Lemma ref_ok_or_undefined x d :
  (forall g, x = Some (Some g) -> idSchema g = Some g) -> ref_ok d -> ref_ok (or_undefined x d).
Proof.
  intros Hx Hd. destruct x as [[g|]|]; simpl; [|done..].
  apply nullable_id. intros a [= ->]. by apply Hx.
Qed.

Lemma nullable_timestamp o : nullable timestampSchema o = Some o.
Proof. by apply nullable_id. Qed.

(** The contract on a slot, field by field. *)
Lemma slotSchema_fix s :
  spatialPrimaryAgentSlotSchema s = Some s <->
  idSchema (slot_id s) = Some (slot_id s) /\ idSchema (slot_node_id s) = Some (slot_node_id s) /\
  ref_ok (current_binding_id s) /\ revisionSchema (slot_revision s) = Some (slot_revision s) /\
  ref_ok (assigned_by s) /\ ref_ok (slot_grant_ref s) /\ ref_ok (hook_subscription_ref s) /\
  ref_ok (durable_inbox_ref s) /\ nullable provenanceSchema (slot_provenance s) = Some (slot_provenance s).
Proof.
  unfold spatialPrimaryAgentSlotSchema, ref_ok. split.
  - intros H. inv_some.
    destruct s; simpl in *.
    match goal with H : Slot _ _ _ _ _ _ _ _ _ _ _ _ _ = _ |- _ => injection H; intros; subst end.
    by split_and!.
  - intros (-> & -> & Hb & -> & Ha & Hg & Hh & Hd & Hp). simpl.
    rewrite Hb, Ha, Hg, Hh, Hd, Hp, !nullable_timestamp. simpl. by destruct s.
Qed.

Lemma assertBindingReference_mono bs bs' s :
  (forall k b, jget k bs = Some b -> jget k bs' = Some b) ->
  assertBindingReference bs s = Ok tt -> assertBindingReference bs' s = Ok tt.
Proof.
  intros Hmono. unfold assertBindingReference. destruct (current_binding_id s) as [b|]; [|done].
  case_match; [|done]. intros Hok. inv_ok.
  match goal with H : jget b bs = Some _ |- _ => rewrite (Hmono _ _ H) end.
  simpl. unfold require in *. repeat case_match; simplify_eq/=; done.
Qed.

Lemma lookupBinding_ok {laws : ZodLaws zod} n o bid bs b :
  lookupBinding n o bid bs = Ok (Some b) ->
  jget bid bs = Some b \/
  (is_Some (op_binding o) /\ jget bid bs = None /\ bid = binding_id b /\ bindingRecordSchema b = Some b).
Proof.
  unfold lookupBinding, validateBinding. destruct (op_binding o) as [c|]; intros H; [|inv_ok; by left].
  inv_ok. rewrite str_eqb_eq in *.
  destruct (jget bid bs) as [g|]; inv_ok; simplify_eq/=; [by left|].
  right. split_and!; [eauto..|by eapply bindingSchema_idem].
Qed.

Lemma resolveBinding_some n o bs b :
  resolveBinding n o bs = Ok (Some b) ->
  exists bid, lookupBinding n o bid bs = Ok (Some b) /\ binding_node_id b = scope_node_id n.
Proof.
  unfold resolveBinding. intros H.
  destruct (kind_of (op_kind o)) as [[]|]; simplify_eq/=; inv_ok; simplify_eq/=;
    rewrite str_eqb_eq in *; eauto.
Qed.

(** What a resolved binding is. *)
Lemma resolveBinding_ok {laws : ZodLaws zod} n o bs b :
  jall binding_ok bs ->
  resolveBinding n o bs = Ok (Some b) ->
  binding_node_id b = scope_node_id n /\ bindingRecordSchema b = Some b /\ binding_id b <> "" /\
  (jget (binding_id b) bs = Some b \/ (is_Some (op_binding o) /\ jget (binding_id b) bs = None)).
Proof.
  intros Hall (bid & Hb%lookupBinding_ok & Hn)%resolveBinding_some.
  assert (bindingRecordSchema b = Some b) as Hfix.
  { destruct Hb as [Hb|(_ & _ & _ & Hb)]; [by apply Hall in Hb as [_ ?] | done]. }
  split; [done|]. split; [done|]. split.
  - unfold bindingRecordSchema in Hfix. inv_some. intros Heq. rewrite Heq in *.
    match goal with H : idSchema "" = Some _ |- _ => apply idSchema_spec in H as [-> ?] end. done.
  - destruct Hb as [Hb|(Ho & Hb & -> & _)]; [|by right].
    left. pose proof (Hall _ _ Hb) as [-> _]. done.
Qed.
End invariant.

Section preservation.
Context {zod : Zod} {laws : ZodLaws zod}.

Lemma binding_grant_ok b :
  bindingRecordSchema b = Some b ->
  idSchema (binding_id b) = Some (binding_id b) /\
  (forall g, binding_grant_ref b = Some (Some g) -> idSchema g = Some g).
Proof.
  destruct b as [b1 b2 b3 b4 b5 b6]; unfold bindingRecordSchema; simpl. intros H. inv_some.
  simplify_eq/=. split; [done|].
  intros g ->. simpl in *.
  destruct (idSchema g) as [g'|] eqn:Hg; simpl in *; by simplify_eq/=.
Qed.

(** The slot an operation writes satisfies the contract. *)
Lemma slotForOperation_valid s o b t next :
  spatialPrimaryAgentSlotSchema s = Some s -> op_safe s o ->
  (forall b', b = Some b' -> bindingRecordSchema b' = Some b') ->
  slotForOperation s o b t = Ok next -> spatialPrimaryAgentSlotSchema next = Some next.
Proof using laws.
  rewrite !slotSchema_fix. intros (Hid & Hn & Hb & Hr & Ha & Hg & Hh & Hd & Hp) [Sact Sop Sgr Shk Sin Srev Star] Hbnd Hnext.
  assert (revisionSchema (slot_revision s + 1) = Some (slot_revision s + 1)) as Hr1.
  { unfold revisionSchema in *. apply z_nonneg_sound in Hr as [_ ?]. apply z_nonneg_complete. lia. }
  assert (provenanceSchema (Provenance (trim (op_actor_ref o)) (trim (op_operation_id o)) t) =
          Some (Provenance (trim (op_actor_ref o)) (trim (op_operation_id o)) t)) as Hp1.
  { unfold provenanceSchema. simpl. rewrite Sact, Sop. done. }
  assert (ref_ok (Some (trim (op_actor_ref o)))) as Hact by (unfold ref_ok; simpl; by rewrite Sact).
  unfold slotForOperation in Hnext.
  destruct (kind_of (op_kind o)) as [[]|]; [| | | | | | | |done].
  1,2: destruct b as [b|]; [|done]; injection Hnext as <-; simpl; rewrite Hp1;
       pose proof (binding_grant_ok b (Hbnd b eq_refl)) as [Hbid Hbg];
       split_and!; try done; [unfold ref_ok; simpl; by rewrite Hbid | | |];
       auto using ref_ok_or_undefined, ref_ok_none.
  6: destruct (op_lifecycle o); [|done].
  5: destruct (truthy _).
  all: inv_ok; simpl; rewrite Hp1; by split_and!.
Qed.

Lemma free_not_bound st : is_free_state st = negb (is_bound_state st).
Proof. by destruct st. Qed.

(** Keeping the binding and the class of the lifecycle state keeps the
    reference good. *)
Lemma reference_keep bs s next :
  assertBindingReference bs s = Ok tt ->
  current_binding_id next = current_binding_id s -> slot_node_id next = slot_node_id s ->
  is_bound_state (lifecycle_state next) = is_bound_state (lifecycle_state s) ->
  assertBindingReference bs next = Ok tt.
Proof.
  unfold assertBindingReference. rewrite !free_not_bound. by intros H -> -> ->.
Qed.

(** ... and refers to its binding as its lifecycle state demands. *)
Lemma slotForOperation_reference s o b t next bs bs' :
  op_safe s o -> assertBindingReference bs s = Ok tt -> assertOperationTransition s o = Ok tt ->
  (forall k x, jget k bs = Some x -> jget k bs' = Some x) ->
  (forall b', b = Some b' -> binding_id b' <> "" /\ jget (binding_id b') bs' = Some b' /\
                             binding_node_id b' = slot_node_id s) ->
  slotForOperation s o b t = Ok next -> assertBindingReference bs' next = Ok tt.
Proof.
  intros [_ _ _ _ _ _ Star] Href Htr Hmono Hbnd Hnext.
  apply (assertBindingReference_mono _ bs') in Href; [|done]. clear Hmono.
  unfold slotForOperation in Hnext. unfold assertOperationTransition in Htr.
  destruct (kind_of (op_kind o)) as [[]|] eqn:Hk; [| | | | | | | |done].
  1,2: destruct b as [b|]; [|done]; injection Hnext as <-;
       destruct (Hbnd b eq_refl) as (Hne & Hget & Hnode);
       unfold assertBindingReference; simpl; unfold str_eqb; rewrite (bool_decide_eq_false_2 _ Hne);
       simpl; rewrite Hget; simpl; by rewrite bool_decide_eq_true_2.
  1,2: by injection Hnext as <-.
  all: eapply reference_keep; [exact Href| | |].
  all: rewrite ?free_not_bound, ?negb_involutive in Htr.
  10-12: destruct (op_lifecycle o) as [target|] eqn:Ht; inv_ok; simpl; auto.
  all: inv_ok; apply andb_true_iff in Htr as [Hst Htru]; rewrite ?Htru in *; by inv_ok.
Qed.
End preservation.

(** ** Claims *)

Section claims.
Context {zod : Zod} {laws : ZodLaws zod}.

Lemma commit_bindings_mono o b n next m r k x :
  jget k (bindings r) = Some x -> jget k (bindings (commit o b n next m r)) = Some x.
Proof.
  intros Hk. unfold commit. simpl. destruct (op_binding o), b as [b|]; try done.
  unfold jhas. case_bool_decide as Hh; [done|].
  rewrite jget_jset_ne; [done|]. intros Heq. rewrite Heq, Hk in Hh. by apply Hh.
Qed.

Lemma commit_binding_found o b n next m r :
  jget (binding_id b) (bindings r) = Some b \/
  (is_Some (op_binding o) /\ jget (binding_id b) (bindings r) = None) ->
  jget (binding_id b) (bindings (commit o (Some b) n next m r)) = Some b.
Proof.
  intros [Hb|[[c Hc] Hn]]; [by apply commit_bindings_mono|].
  unfold commit. simpl. rewrite Hc. unfold jhas. rewrite Hn. simpl. apply jget_jset_eq.
Qed.

Lemma commit_bindings_ok o b n next m r :
  NoDup (jkeys (bindings r)) -> jall binding_ok (bindings r) ->
  (forall b', b = Some b' -> bindingRecordSchema b' = Some b') ->
  NoDup (jkeys (bindings (commit o b n next m r))) /\
  jall binding_ok (bindings (commit o b n next m r)).
Proof.
  intros Hnd Hall Hb. unfold commit. simpl. destruct (op_binding o), b as [b|]; try done.
  destruct (jhas _ _); [done|]. split; [by apply NoDup_jset|].
  apply jall_jset; [|done]. split; auto.
Qed.

(** C1. [apply] keeps the repository well formed: on every outcome the
    slots stay under their Node's key, satisfy the slot contract and refer
    to registered bindings of their Node as their lifecycle state demands,
    and the key tables stay duplicate free, provided the operation's
    references satisfy the id contract and a [transition] does not change
    whether the state needs a binding. *)
Theorem apply_preserves_wf auth now sc o r r' res :
  wf r -> (forall n s, apply_begin sc o r = Ok (n, s) -> op_safe s o) ->
  apply auth now sc o r = (r', res) -> wf r'.
Proof.
  intros Hwf Hsafe Hap. destruct res as [m|e]; [|by apply apply_err in Hap as ->].
  apply apply_split in Hap as (n & s & Hbegin & Hap). specialize (Hsafe _ _ Hbegin).
  apply apply_begin_ok in Hbegin as (Hsc & _ & Hget).
  apply getSlot_ok in Hget as (n' & Hn' & Hs & Hnode & Href).
  rewrite (scope_of_idem _ _ Hsc) in Hn'. injection Hn' as <-.
  apply apply_commit_ok in Hap
    as [(e & _ & _ & _ & -> & _) | (_ & _ & _ & Htr & b & t & cur & Hb & Hcur & _ & _ & Hnext & Hch & ->)];
    [done|].
  destruct Hwf as [Hk1 Hk2 Hk3 Hslots Hbs].
  destruct (Hslots _ _ Hs) as (_ & Hvalid & _).
  assert (Hbok : forall b', b = Some b' -> bindingRecordSchema b' = Some b').
  { intros b' ->. by apply resolveBinding_ok in Hb as (_ & ? & _). }
  destruct (commit_bindings_ok o b n (mut_slot m) m r Hk2 Hbs Hbok) as [Hk2' Hbs'].
  split; [by apply NoDup_jset|done|by apply NoDup_jset| |done].
  pose proof (commit_bindings_mono o b n (mut_slot m) m r) as Hmono.
  intros k s'. simpl. rewrite jget_jset. unfold str_eqb. case_bool_decide as Hk.
  - intros [= <-]. subst k. split; [|split].
    + by rewrite <-Hnode, (proj1 (proj2 (slotForOperation_frame _ _ _ _ _ Hnext))).
    + by eapply slotForOperation_valid.
    + apply (slotForOperation_reference s o b t _ (bindings r) (bindings (commit o b n (mut_slot m) m r)));
        try done. intros b' ->.
      apply resolveBinding_ok in Hb as (Hbn & _ & Hne & Hf); [|done].
      split; [done|]. split; [by apply commit_binding_found | congruence].
  - intros Hs'. destruct (Hslots _ _ Hs') as (? & ? & Hr'). split; [done|]. split; [done|].
    eapply assertBindingReference_mono; [|exact Hr']. intros; by apply Hmono.
Qed.

Lemma new_repo_log initial bs r0 u :
  new_repo initial bs empty_repo = (r0, Ok u) -> log_ok (r0, []).
Proof.
  unfold new_repo. intros H. inv_ok.
  assert (Hreg : forall l r r', log_ok (r, []) ->
    jforeach (fun b => registerBinding b ;! jret tt) l r = (r', Ok tt) -> log_ok (r', [])).
  { induction l as [|b l IH]; intros r r' Hlog Hf; simpl in Hf; inv_ok; [done|].
    eapply IH; [|done]. match goal with Hb : registerBinding b r = _ |- _ => apply registerBinding_frame in Hb as [? ?] end.
    by eapply log_ok_same_slots. }
  assert (Hins : forall l r r', log_ok (r, []) ->
    jforeach (fun s => insertSlot s ;! jret tt) l r = (r', Ok tt) -> log_ok (r', [])).
  { induction l as [|s l IH]; intros r r' Hlog Hf; simpl in Hf; inv_ok; [done|].
    eapply IH; [|done].
    match goal with Hb : insertSlot s r = _ |- _ => apply insertSlot_frame in Hb as [->|(s' & _ & ? & _ & _ & ->)] end;
      [done | by apply log_ok_insert]. }
  eapply Hins; [|done]. eapply Hreg; [|done]. apply log_ok_empty.
Qed.

(** C2. No update is lost, whatever the interleaving: in every state
    reachable from a constructed repository by any sequence of synchronous
    calls and halves of suspended [apply] calls, the change log of a Node is
    a run of consecutive revisions that ends at the revision of its slot,
    so every committed operation has its own revision and none was
    overwritten by a call that read the slot before it. *)
Theorem no_lost_update auth initial bs r0 c node s :
  new_repo initial bs empty_repo = (r0, Ok tt) ->
  rtc (step auth) (r0, []) c ->
  jget (key node) (slots c.1) = Some s ->
  contiguous (node_revisions node (changes c.1)) (slot_revision s).
Proof.
  intros Hnew%new_repo_log Hsteps Hs. apply log_ok_steps in Hsteps as [H1 H2 _ _]; [|done].
  pose proof (H1 _ _ Hs) as ->%key_inj. by eapply H2.
Qed.

(** Of two [apply] calls that read the same slot before either
    commits, with different fresh idempotency keys, the second to resume
    after the first committed throws and changes nothing. *)
Theorem concurrent_apply_single_winner auth now1 now2 sc1 sc2 o1 o2 n1 n2 s1 s2 r r1 m1 :
  apply_begin sc1 o1 r = Ok (n1, s1) -> apply_begin sc2 o2 r = Ok (n2, s2) ->
  scope_node_id n1 = scope_node_id n2 ->
  op_idempotency_key o1 <> op_idempotency_key o2 ->
  jget (op_idempotency_key o1) (operations r) = None ->
  jget (op_idempotency_key o2) (operations r) = None ->
  apply_commit auth now1 n1 o1 s1 r = (r1, Ok m1) ->
  exists e, apply_commit auth now2 n2 o2 s2 r1 = (r1, Err e).
Proof.
  intros Hb1 Hb2 Hn Hk Hf1 Hf2 Hc1.
  apply apply_begin_ok in Hb1 as (Hs1 & _ & Hg1), Hb2 as (Hs2 & _ & Hg2).
  apply getSlot_ok in Hg1 as (n1' & Hn1 & Hg1 & _), Hg2 as (n2' & Hn2 & Hg2 & _).
  rewrite (scope_of_idem _ _ Hs1) in Hn1. rewrite (scope_of_idem _ _ Hs2) in Hn2. simplify_eq.
  apply apply_commit_ok in Hc1
    as [(e & He & _) | (_ & _ & _ & _ & b & t & cur & _ & _ & _ & _ & Hnext & _ & ->)]; [congruence|].
  destruct (apply_commit auth now2 n2' o2 s2 _) as [r2 [m2|e]] eqn:Hc2.
  - exfalso. apply apply_commit_ok in Hc2
      as [(e & He & _) | (_ & _ & _ & _ & b2 & t2 & cur2 & _ & Hcur2 & Hrev & _)]; simpl in *.
    + rewrite jget_jset_ne in He by done. congruence.
    + rewrite Hn, jget_jset_eq in Hcur2. injection Hcur2 as <-.
      apply slotForOperation_frame in Hnext as (_ & _ & Hr). rewrite Hn in Hg1.
      rewrite Hg1 in Hg2. injection Hg2 as ->. lia.
  - exists e. by apply apply_commit_err in Hc2 as ->.
Qed.

(** The idempotency table only grows. *)
Lemma step_operations_mono auth c c' k e :
  step auth c c' -> jget k (operations c.1) = Some e -> jget k (operations c'.1) = Some e.
Proof.
  destruct 1 as [b r ts r' res H|sc now r ts r' res H|sc i d now r ts r' res H|sc o r ts n s H
                |now r ts1 t ts2 r' res H]; simpl; intros Hk.
  - unfold registerBinding, jbind, jread, jlift, jret, jwrite in H. repeat case_match; by simplify_eq.
  - by apply ensureSlot_frame in H as [->|(s' & _ & _ & ->)].
  - by apply createSlot_frame in H as [->|(s' & _ & _ & ->)].
  - done.
  - destruct res as [m|er]; [|by apply apply_commit_err in H as ->].
    apply apply_commit_ok in H as [(? & _ & _ & _ & -> & _) | (Hn & _ & _ & _ & b & tm & cur & Hrest)]; [done|].
    destruct Hrest as (_ & _ & _ & _ & _ & _ & ->). simpl.
    rewrite jget_jset_ne; [done|]. congruence.
Qed.

Lemma steps_operations_mono auth c c' k e :
  rtc (step auth) c c' -> jget k (operations c.1) = Some e -> jget k (operations c'.1) = Some e.
Proof. induction 1; eauto using step_operations_mono. Qed.

(** After a successful [apply] the key is bound to the operation's own
    fingerprint and result. *)
Lemma apply_records auth now sc o r r' m :
  apply auth now sc o r = (r', Ok m) ->
  exists e, jget (op_idempotency_key o) (operations r') = Some e /\
    entry_fingerprint e = operationFingerprint o /\ entry_result e = m /\
    change_actor_ref (mut_change m) = trim (op_actor_ref o) /\ validateOperation o = Ok tt.
Proof.
  intros (n & s & (_ & Hv & _)%apply_begin_ok & Hap)%apply_split.
  apply apply_commit_ok in Hap
    as [(e & He & Hf & Ha & -> & ->) | (_ & _ & _ & _ & b & t & cur & _ & _ & _ & _ & _ & Hch & ->)].
  - by exists e.
  - eexists. simpl. rewrite jget_jset_eq. split_and!; [done..| |done]. by rewrite Hch.
Qed.

Lemma validate_expected o : validateOperation o = Ok tt -> valid_expected o.
Proof.
  unfold validateOperation, valid_expected. intros H. inv_ok. intros Heq. by rewrite Heq in *.
Qed.

(** Replay is idempotent: once an operation was applied, applying it
    again in any later state of the repository, however many other calls
    ran in between, returns the very same result and changes nothing. *)
Theorem apply_replay auth now now' sc o r r1 m ts c ns :
  apply auth now sc o r = (r1, Ok m) ->
  rtc (step auth) (r1, ts) c ->
  apply_begin sc o c.1 = Ok ns ->
  apply auth now' sc o c.1 = (c.1, Ok m).
Proof.
  intros (e & He & Hf & Hm & Ha & _)%apply_records Hsteps Hb.
  apply (steps_operations_mono _ _ _ _ _ Hsteps) in He.
  unfold apply, jbind at 1 2, jread, jlift. rewrite Hb.
  unfold apply_commit, jbind, jread, jlift, jret. rewrite He, Hf, Hm, Ha, !str_eqb_refl. done.
Qed.

(** An idempotency key belongs to one operation: after an operation
    was applied, any different operation under the same key is rejected with
    IDEMPOTENCY_CONFLICT in every later state, and changes nothing. *)
Theorem apply_key_reuse_rejected auth now now' sc sc' o o' r r1 m ts c ns :
  apply auth now sc o r = (r1, Ok m) ->
  rtc (step auth) (r1, ts) c ->
  op_idempotency_key o' = op_idempotency_key o -> o' <> o ->
  apply_begin sc' o' c.1 = Ok ns ->
  apply auth now' sc' o' c.1 = (c.1, Err (Conflict IDEMPOTENCY_CONFLICT)).
Proof.
  intros (e & He & Hf & _ & _ & Hv)%apply_records Hsteps Hk Hne Hb.
  apply (steps_operations_mono _ _ _ _ _ Hsteps) in He. rewrite <-Hk in He.
  unfold apply, jbind at 1 2, jread, jlift. rewrite Hb. destruct ns as [n s].
  apply apply_begin_ok in Hb as (_ & Hv' & _).
  unfold apply_commit, jbind, jread, jlift. simpl. rewrite He, Hf.
  unfold str_eqb. rewrite bool_decide_eq_false_2; [done|].
  intros Heq%operationFingerprint_inj; [|by apply validate_expected..]. by subst.
Qed.

(** C22. Errors are atomic: whatever a repository method throws, it
    throws before it changed anything. *)
Theorem errors_change_nothing auth now sc i d o b r r' e :
  apply auth now sc o r = (r', Err e) \/ registerBinding b r = (r', Err e) \/
  createSlot sc i d now r = (r', Err e) \/ ensureSlot sc now r = (r', Err e) -> r' = r.
Proof.
  assert (Hins : forall s, insertSlot s r = (r', Err e) -> r' = r).
  { intros s. by intros [->|(s' & _ & _ & _ & ? & _)]%insertSlot_frame. }
  assert (Hcreate : createSlot sc i d now r = (r', Err e) -> r' = r).
  { unfold createSlot, jbind, jread, jlift. intros H. repeat case_match; simplify_eq; eauto. }
  intros [H|[H|[H|H]]]; [by apply apply_err in H| | by apply Hcreate |].
  - unfold registerBinding, jbind, jread, jlift, jret, jwrite in H. repeat case_match; by simplify_eq.
  - unfold ensureSlot, createSlot, jbind, jread, jlift in H. repeat case_match; simplify_eq; eauto.
Qed.

(** ** The serialization round trip *)

Lemma registerBinding_fresh b r :
  bindingRecordSchema b = Some b -> jget (binding_id b) (bindings r) = None ->
  registerBinding b r = (set_bindings (bindings r ++ [(binding_id b, b)]) r, Ok b).
Proof.
  intros Hb Hf. unfold registerBinding, validateBinding, jbind, jlift, jread, jwrite, jret.
  rewrite Hb. cbn [of_option]. by rewrite Hf, jset_fresh.
Qed.

Lemma insertSlot_fresh s r :
  spatialPrimaryAgentSlotSchema s = Some s -> assertBindingReference (bindings r) s = Ok tt ->
  jget (key (slot_node_id s)) (slots r) = None ->
  insertSlot s r = (set_slots (slots r ++ [(key (slot_node_id s), s)]) r, Ok s).
Proof.
  intros Hs Hr Hf. unfold insertSlot, jbind, jlift, jread, jwrite, jret, jhas.
  rewrite Hs. cbn [of_option]. rewrite Hf. cbn. by rewrite Hr, jset_fresh.
Qed.

(** The key of a later entry is not among the earlier ones. *)
Lemma later_key_fresh {V} (pre l : jsmap V) k v :
  NoDup (jkeys (pre ++ (k, v) :: l)) -> jget k pre = None.
Proof.
  unfold jkeys. rewrite map_app. intros (_ & Hd & _)%NoDup_app. apply jget_None.
  intros Hin. apply (Hd k Hin). simpl. left.
Qed.

Lemma register_all l pre S O C :
  NoDup (jkeys (pre ++ l)) -> Forall (fun kb => binding_ok kb.1 kb.2) l ->
  jforeach (fun b => registerBinding b ;! jret tt) (jvalues l) (Repo S pre O C) =
  (Repo S (pre ++ l) O C, Ok tt).
Proof.
  revert pre. induction l as [|[k b] l IH]; intros pre Hnd Hok; [by rewrite app_nil_r|].
  apply Forall_cons in Hok as [[Hk Hb] Hok]. cbn [fst snd] in *. subst k.
  cbn [jvalues map jforeach snd]. unfold jbind at 1 2.
  rewrite registerBinding_fresh by (eauto using later_key_fresh).
  unfold jret at 1, set_bindings. cbn [slots bindings operations changes].
  fold (jvalues l). rewrite IH; [by rewrite <-app_assoc | by rewrite <-app_assoc | done].
Qed.

Lemma insert_all l pre B O C :
  NoDup (jkeys (pre ++ l)) -> Forall (fun ks => slot_ok B ks.1 ks.2) l ->
  jforeach (fun s => insertSlot s ;! jret tt) (jvalues l) (Repo pre B O C) =
  (Repo (pre ++ l) B O C, Ok tt).
Proof.
  revert pre. induction l as [|[k s] l IH]; intros pre Hnd Hok; [by rewrite app_nil_r|].
  apply Forall_cons in Hok as [(Hk & Hs & Hr) Hok]. cbn [fst snd] in *. subst k.
  cbn [jvalues map jforeach snd]. unfold jbind at 1 2.
  rewrite insertSlot_fresh by (eauto using later_key_fresh).
  unfold jret at 1, set_slots. cbn [slots bindings operations changes].
  fold (jvalues l). rewrite IH; [by rewrite <-app_assoc | by rewrite <-app_assoc | done].
Qed.

Lemma restore_operations l pre S B C :
  NoDup (jkeys (pre ++ l)) ->
  jforeach (fun e => let! r := jread in jwrite (E := error) (set_operations (jset e.1 e.2 (operations r)) r))
    l (Repo S B pre C) = (Repo S B (pre ++ l) C, Ok tt).
Proof.
  revert pre. induction l as [|[k e] l IH]; intros pre Hnd; [by rewrite app_nil_r|].
  erewrite jforeach_cons_ok; [|reflexivity]. unfold set_operations.
  cbn [slots bindings operations changes fst snd]. rewrite jset_fresh by (by eapply later_key_fresh).
  rewrite IH; [by rewrite <-app_assoc | by rewrite <-app_assoc].
Qed.

Lemma jall_Forall {V} (P : string -> V -> Prop) (m : jsmap V) :
  NoDup (jkeys m) -> jall P m -> Forall (fun kv => P kv.1 kv.2) m.
Proof. intros Hnd Hall. apply Forall_forall. intros [k v] Hin. apply Hall. by apply elem_jget. Qed.

(** Serialization round trip: [fromState] applied to what [serialize]
    wrote rebuilds exactly the same repository (slots, bindings, idempotency
    table and change log, in the same order) whenever the repository is well
    formed; [restart] therefore succeeds and loses nothing. *)
Theorem restart_roundtrip r : wf r -> restart r = Ok r.
Proof.
  intros [H1 H2 H3 H4 H5]. unfold restart, fromState, serialize, new_repo, empty_repo.
  cbn [rs_slots rs_bindings rs_operations rs_changes].
  unfold jbind at 1 2. rewrite register_all by eauto using jall_Forall. cbn [jforeach app].
  unfold jret at 1, jbind at 1. rewrite insert_all by eauto using jall_Forall. cbn [app].
  unfold jbind at 1. rewrite restore_operations by done. by destruct r.
Qed.

(** ** Lifecycle *)

(** A commit of a non-[transition] operation, or one along the table. *)
Lemma commit_lifecycle s o b t next :
  assertOperationTransition s o = Ok tt -> slotForOperation s o b t = Ok next ->
  transition_allowed (lifecycle_state s) (lifecycle_state next) = true \/
  (kind_of (op_kind o) = Some K_bind /\ lifecycle_state s = UNASSIGNED /\ lifecycle_state next = CONNECTED) \/
  (kind_of (op_kind o) = Some K_detach /\ lifecycle_state s = CONNECTED /\ lifecycle_state next = UNASSIGNED) \/
  (kind_of (op_kind o) = Some K_mark_degraded /\ lifecycle_state s = DISCONNECTED /\ lifecycle_state next = DEGRADED).
Proof.
  unfold assertOperationTransition, slotForOperation. intros Htr Hnext.
  destruct (kind_of (op_kind o)) as [[]|]; [| | | | | | | |done].
  8: destruct (op_lifecycle o); inv_ok; by left.
  1,2: destruct b; [|done].
  7: destruct (truthy _).
  all: inv_ok; simpl; try (apply andb_true_iff in Htr as [Htr Hb]; try discriminate Hb);
    destruct (lifecycle_state s); vm_compute in Htr;
    first [discriminate Htr | by left | by right; left | by right; right; left | by right; right; right].
Qed.

(** Lifecycle discipline: every committed operation moves the slot
    along [PRIMARY_AGENT_SLOT_TRANSITIONS] or leaves its state, with exactly
    three exceptions: a [bind] goes from UNASSIGNED to CONNECTED, a [detach]
    may go from CONNECTED to UNASSIGNED, and a [mark-degraded] may go from
    DISCONNECTED to DEGRADED. *)
Theorem apply_lifecycle_moves auth now sc o r r' m :
  apply auth now sc o r = (r', Ok m) -> jget (op_idempotency_key o) (operations r) = None ->
  exists s, getSlot sc r = Ok s /\
    (transition_allowed (lifecycle_state s) (lifecycle_state (mut_slot m)) = true \/
     (kind_of (op_kind o) = Some K_bind /\ lifecycle_state s = UNASSIGNED /\
      lifecycle_state (mut_slot m) = CONNECTED) \/
     (kind_of (op_kind o) = Some K_detach /\ lifecycle_state s = CONNECTED /\
      lifecycle_state (mut_slot m) = UNASSIGNED) \/
     (kind_of (op_kind o) = Some K_mark_degraded /\ lifecycle_state s = DISCONNECTED /\
      lifecycle_state (mut_slot m) = DEGRADED)).
Proof.
  intros (n & s & Hb & Hap)%apply_split Hfresh.
  apply apply_begin_ok in Hb as (Hsc & _ & Hg).
  apply apply_commit_ok in Hap
    as [(e & He & _) | (_ & _ & _ & Htr & b & t & cur & _ & _ & _ & _ & Hnext & _)]; [congruence|].
  exists s. split; [|by eapply commit_lifecycle].
  unfold getSlot, assertPrimaryAgentSlotOwnership in *. by rewrite Hsc, (scope_of_idem _ _ Hsc) in *.
Qed.

(** REVOKED is never left by a commit. *)
Lemma commit_revoked s o b t next :
  lifecycle_state s = REVOKED -> assertOperationTransition s o = Ok tt ->
  slotForOperation s o b t = Ok next -> lifecycle_state next = REVOKED.
Proof.
  intros Hs Htr Hnext. destruct (commit_lifecycle _ _ _ _ _ Htr Hnext) as [H|[(_ & H & _)|[(_ & H & _)|(_ & H & _)]]];
    rewrite Hs in H; [|done..]. by destruct (lifecycle_state next).
Qed.

Lemma step_revoked auth c c' k s :
  step auth c c' -> log_ok c -> jget k (slots c.1) = Some s -> lifecycle_state s = REVOKED ->
  exists s', jget k (slots c'.1) = Some s' /\ lifecycle_state s' = REVOKED.
Proof.
  destruct 1 as [b r ts r' res H|sc now r ts r' res H|sc i d now r ts r' res H|sc o r ts n s0 H
                |now r ts1 t ts2 r' res H]; simpl; intros Hlog Hk Hs.
  - apply registerBinding_frame in H as [-> _]. eauto.
  - apply ensureSlot_frame in H as [->|(s' & _ & Hf & ->)]; [eauto|]. simpl.
    rewrite jget_jset_ne; [eauto | congruence].
  - apply createSlot_frame in H as [->|(s' & _ & Hf & ->)]; [eauto|]. simpl.
    rewrite jget_jset_ne; [eauto | congruence].
  - eauto.
  - destruct res as [m|e]; [|apply apply_commit_err in H as ->; eauto].
    pose proof (log_tasks _ Hlog) as Ht. simpl in Ht. rewrite Forall_app, Forall_cons in Ht.
    destruct Ht as (_ & (Hn & cur0 & Hc0 & _ & Heq) & _).
    apply apply_commit_ok in H as [(? & _ & _ & _ & -> & _) | (_ & _ & _ & Htr & b & tm & cur & Hrest)]; [eauto|].
    destruct Hrest as (_ & Hcur & Hrev & _ & Hnext & _ & ->). simpl.
    rewrite jget_jset. unfold str_eqb. case_bool_decide as Hkey; [|eauto].
    eexists. split; [done|]. subst k. simplify_eq.
    rewrite Heq in Htr, Hnext by done. by eapply commit_revoked.
Qed.

(** Revocation is final: once the slot of a Node is REVOKED it is
    REVOKED in every later state, for every interleaving of calls, including
    calls that were suspended before the revocation. *)
Theorem revoked_forever auth initial bs r0 c c' node s :
  new_repo initial bs empty_repo = (r0, Ok tt) ->
  rtc (step auth) (r0, []) c ->
  jget (key node) (slots c.1) = Some s -> lifecycle_state s = REVOKED ->
  rtc (step auth) c c' ->
  exists s', jget (key node) (slots c'.1) = Some s' /\ lifecycle_state s' = REVOKED.
Proof.
  intros Hnew%new_repo_log H1 Hs Hrev H2. apply log_ok_steps in H1; [|done].
  revert s Hs Hrev H1. induction H2 as [|c1 c2 c3 Hst _ IH]; intros s Hs Hrev Hlog; [eauto|].
  destruct (step_revoked _ _ _ _ _ Hst Hlog Hs Hrev) as (s' & Hs' & Hr').
  eapply IH; eauto using log_ok_step.
Qed.

(** A replacement inherits no privilege: after a committed [bind] or
    [replace] the hook subscription is the one the operation itself names
    (none when it names none) and the capability grant is the one the
    operation names or else the one of the new binding record, whatever the
    previous slot held; only the durable inbox is kept. *)
Theorem replacement_inherits_no_privilege auth now sc o r r' m :
  apply auth now sc o r = (r', Ok m) -> jget (op_idempotency_key o) (operations r) = None ->
  kind_of (op_kind o) = Some K_bind \/ kind_of (op_kind o) = Some K_replace ->
  exists s b, getSlot sc r = Ok s /\
    resolveBinding (Scope (trim (hypervisor_id sc)) (trim (scope_node_id sc))) o (bindings r) = Ok (Some b) /\
    current_binding_id (mut_slot m) = Some (binding_id b) /\
    lifecycle_state (mut_slot m) = CONNECTED /\
    hook_subscription_ref (mut_slot m) = or_undefined (op_hook_ref o) None /\
    slot_grant_ref (mut_slot m) = or_undefined (op_grant_ref o) (or_undefined (binding_grant_ref b) None) /\
    durable_inbox_ref (mut_slot m) = or_undefined (op_inbox_ref o) (durable_inbox_ref s).
Proof.
  intros (n & s & Hb & Hap)%apply_split Hfresh Hk.
  apply apply_begin_ok in Hb as (Hsc & _ & Hg).
  apply apply_commit_ok in Hap
    as [(e & He & _) | (_ & _ & _ & Htr & b & t & cur & Hres & _ & _ & _ & Hnext & _)]; [congruence|].
  assert (Scope (trim (hypervisor_id sc)) (trim (scope_node_id sc)) = n) as ->.
  { unfold scope_of, normalizeSpatialNodeScope in Hsc. rewrite of_option_ok in Hsc. inv_some.
    by repeat match goal with H : idSchema _ = Some _ |- _ => apply idSchema_spec in H as [-> _] end. }
  unfold slotForOperation in Hnext.
  assert (exists b', b = Some b') as [b' ->].
  { destruct Hk as [Hk|Hk]; rewrite Hk in Hnext; destruct b; simplify_eq; eauto. }
  exists s, b'. split.
  { unfold getSlot, assertPrimaryAgentSlotOwnership in *. by rewrite Hsc, (scope_of_idem _ _ Hsc) in *. }
  split; [done|]. by destruct Hk as [Hk|Hk]; rewrite Hk in Hnext; injection Hnext as <-.
Qed.
End claims.

(** ** The [transition] operation and the binding invariant *)

(** The [transition] operation can leave the repository invariant: a
    fresh slot (UNASSIGNED, no binding) moved to BINDING, a move the lifecycle
    table allows, is committed, and from then on the slot cannot be read and
    every further operation on the Node, revocation included, is refused with
    CORRUPT_BINDING. *)
Theorem transition_to_binding_locks_slot {zod : Zod} {laws : ZodLaws zod} auth now sc o r r' m s :
  getSlot sc r = Ok s -> lifecycle_state s = UNASSIGNED -> current_binding_id s = None ->
  kind_of (op_kind o) = Some K_transition -> op_lifecycle o = Some BINDING ->
  jget (op_idempotency_key o) (operations r) = None ->
  apply auth now sc o r = (r', Ok m) ->
  getSlot sc r' = Err (Conflict CORRUPT_BINDING) /\
  forall auth' now' o', validateOperation o' = Ok tt ->
    apply auth' now' sc o' r' = (r', Err (Conflict CORRUPT_BINDING)).
Proof.
  intros Hget Hst Hnone Hk Hl Hfresh (n & s0 & Hb & Hap)%apply_split.
  apply apply_begin_ok in Hb as (Hsc & _ & Hg).
  pose proof (scope_of_idem _ _ Hsc) as Hnn.
  apply getSlot_ok in Hget as (n1 & Hn1 & Hs1 & _), Hg as (n2 & Hn2 & Hs2 & Hnode & _).
  rewrite Hsc in Hn1. rewrite Hnn in Hn2. simplify_eq.
  apply apply_commit_ok in Hap
    as [(e & He & _) | (_ & _ & _ & _ & b & t & cur & _ & _ & _ & _ & Hnext & _ & ->)]; [congruence|].
  unfold slotForOperation in Hnext. rewrite Hk, Hl, Hst in Hnext. cbn in Hnext. injection Hnext as Hm.
  assert (Hread : forall sc', scope_of sc' = Ok n1 ->
            getSlot sc' (commit o b n1 (mut_slot m) m r) = Err (Conflict CORRUPT_BINDING)).
  { intros sc' Hsc'. unfold getSlot, assertPrimaryAgentSlotOwnership. rewrite Hsc'. cbn [rbind].
    unfold commit. cbn [slots bindings]. rewrite jget_jset_eq. cbn [of_option rbind].
    rewrite <-Hm. cbn [slot_node_id]. rewrite Hnode, str_eqb_refl. cbn [require rbind].
    unfold assertBindingReference. cbn [current_binding_id lifecycle_state]. by rewrite Hnone. }
  split; [by apply Hread|]. intros auth' now' o' Hv.
  unfold apply, jbind, jread, jlift, apply_begin. rewrite Hsc. cbn [rbind].
  rewrite Hv. cbn [rbind]. by rewrite (Hread n1 Hnn).
Qed.

(** ** Witnesses *)

Definition w_scope : scope := Scope " hv-1 " "node-1".
Definition w_binding : binding := Binding "b-1" "node-1" "agent-1" "runtime-1" 0 (Some (Some "grant-b")).
Definition w_binding2 : binding := Binding "b-2" "node-1" "agent-2" "runtime-2" 3 None.
Definition w_bind : operation :=
  Operation "op-1" "key-1" "operator" (NInt 0) "bind" (Some "b-1") (Some w_binding) None (Some (Some "hook-1")) None None.
Definition w_bind2 : operation :=
  Operation "op-2" "key-2" "operator" (NInt 0) "bind" None (Some w_binding2) None None None None.
Definition w_replace : operation :=
  Operation "op-3" "key-3" "operator" (NInt 1) "replace" None (Some w_binding2) None None None None.
Definition w_revoke : operation :=
  Operation "op-4" "key-4" "operator" (NInt 1) "revoke" None None None None None None.
Definition w_transition : operation :=
  Operation "op-5" "key-5" "operator" (NInt 0) "transition" None None None None None (Some BINDING).

Definition w_repo0 : repo := fst (createSlot (zod := zod_ref) w_scope None None (Some 1000) empty_repo).
Definition w_apply (o : operation) (r : repo) : repo * result error mutation :=
  apply (zod := zod_ref) None (Some 2000) w_scope o r.
Definition w_repo1 : repo := fst (w_apply w_bind w_repo0).
Definition w_slot_of (r : repo) : slot :=
  default (Slot "" "" None UNASSIGNED 0 None None None None None None None None) (jget "node:node-1" (slots r)).
Definition w_result (p : repo * result error mutation) : mutation :=
  match p.2 with Ok m => m | Err _ => Mutation (w_slot_of p.1) (change_of (w_slot_of p.1) w_bind 0) end.
Definition w_norm : scope := Scope "hv-1" "node-1".

Lemma w_steps : rtc (step (zod := zod_ref) None) (empty_repo, [])
  (w_repo1, [Task w_norm w_bind2 (w_slot_of w_repo0)]).
Proof.
  eapply rtc_l. { by apply (step_create _ w_scope None None (Some 1000) _ _ w_repo0 _ (surjective_pairing _)). }
  eapply rtc_l. { apply (step_begin _ w_scope w_bind _ _ w_norm (w_slot_of w_repo0)). by vm_compute. }
  eapply rtc_l. { apply (step_begin _ w_scope w_bind2 _ _ w_norm (w_slot_of w_repo0)). by vm_compute. }
  apply rtc_once.
  apply (step_commit None (Some 2000) w_repo0 [_] (Task w_norm w_bind (w_slot_of w_repo0)) [] w_repo1
           (snd (w_apply w_bind w_repo0))). by vm_compute.
Defined.

Lemma no_lost_update_witness :
  contiguous (node_revisions "node-1" (changes w_repo1)) (slot_revision (w_slot_of w_repo1)).
Proof.
  apply (no_lost_update (zod := zod_ref) None [] [] empty_repo
           (w_repo1, [Task w_norm w_bind2 (w_slot_of w_repo0)]) "node-1"); [done | exact w_steps | by vm_compute].
Defined.

Lemma concurrent_apply_single_winner_witness :
  exists e, apply_commit (zod := zod_ref) None (Some 3000) w_norm w_bind2 (w_slot_of w_repo0) w_repo1 = (w_repo1, Err e).
Proof.
  apply (concurrent_apply_single_winner (zod := zod_ref) None (Some 2000) (Some 3000) w_scope w_scope w_bind w_bind2
           w_norm w_norm (w_slot_of w_repo0) (w_slot_of w_repo0) w_repo0 w_repo1 (w_result (w_apply w_bind w_repo0)));
    by vm_compute.
Defined.

Lemma apply_replay_witness :
  apply (zod := zod_ref) None (Some 9000) w_scope w_bind w_repo1 = (w_repo1, Ok (w_result (w_apply w_bind w_repo0))).
Proof.
  apply (apply_replay (zod := zod_ref) None (Some 2000) (Some 9000) w_scope w_bind w_repo0 w_repo1
           (w_result (w_apply w_bind w_repo0)) [] (w_repo1, []) (w_norm, w_slot_of w_repo1));
    [by vm_compute | apply rtc_refl | by vm_compute].
Defined.

Lemma apply_key_reuse_rejected_witness :
  let o' := Operation "op-9" "key-1" "operator" (NInt 1) "revoke" None None None None None None in
  apply (zod := zod_ref) None (Some 9000) w_scope o' w_repo1 = (w_repo1, Err (Conflict IDEMPOTENCY_CONFLICT)).
Proof.
  intros o'.
  apply (apply_key_reuse_rejected (zod := zod_ref) None (Some 2000) (Some 9000) w_scope w_scope w_bind o' w_repo0 w_repo1
           (w_result (w_apply w_bind w_repo0)) [] (w_repo1, []) (w_norm, w_slot_of w_repo1));
    [by vm_compute | apply rtc_refl | done | done | by vm_compute].
Defined.

Lemma errors_change_nothing_witness : fst (w_apply w_revoke w_repo0) = w_repo0.
Proof.
  apply (errors_change_nothing (zod := zod_ref) None (Some 2000) w_scope None None w_revoke w_binding w_repo0 _
           (Conflict STALE_REVISION)). left. by vm_compute.
Defined.

Lemma w_wf0 : wf (zod := zod_ref) w_repo0.
Proof.
  split; [by repeat constructor; set_solver..| |done].
  assert (slots w_repo0 = [("node:node-1", w_slot_of w_repo0)]) as -> by (by vm_compute).
  intros k s. cbn [jget]. case_match eqn:Hk; [|done]. intros [= <-].
  apply bool_decide_eq_true in Hk as <-. split; by vm_compute.
Defined.

Lemma w_safe : op_safe (zod := zod_ref) (w_slot_of w_repo0) w_bind.
Proof. split; try done; by intros g [= <-]. Defined.

Lemma apply_preserves_wf_witness : wf (zod := zod_ref) w_repo1.
Proof.
  apply (apply_preserves_wf (zod := zod_ref) None (Some 2000) w_scope w_bind w_repo0 w_repo1 (snd (w_apply w_bind w_repo0)));
    [exact w_wf0 | | by vm_compute].
  intros n s H. vm_compute in H. injection H as <- <-. exact w_safe.
Defined.

Lemma restart_roundtrip_witness : restart (zod := zod_ref) w_repo0 = Ok w_repo0.
Proof. apply (restart_roundtrip (zod := zod_ref) w_repo0). exact w_wf0. Defined.

Lemma apply_lifecycle_moves_witness :
  exists s, getSlot (zod := zod_ref) w_scope w_repo0 = Ok s /\
    (transition_allowed (lifecycle_state s) CONNECTED = true \/
     (kind_of "bind" = Some K_bind /\ lifecycle_state s = UNASSIGNED /\ CONNECTED = CONNECTED) \/
     (kind_of "bind" = Some K_detach /\ lifecycle_state s = CONNECTED /\ CONNECTED = UNASSIGNED) \/
     (kind_of "bind" = Some K_mark_degraded /\ lifecycle_state s = DISCONNECTED /\ CONNECTED = DEGRADED)).
Proof.
  apply (apply_lifecycle_moves (zod := zod_ref) None (Some 2000) w_scope w_bind w_repo0 w_repo1
           (w_result (w_apply w_bind w_repo0))); by vm_compute.
Defined.

Definition w_repo_revoked : repo := fst (w_apply w_revoke w_repo1).

Lemma w_steps_revoke : rtc (step (zod := zod_ref) None)
  (w_repo1, [Task w_norm w_bind2 (w_slot_of w_repo0)])
  (w_repo_revoked, [Task w_norm w_bind2 (w_slot_of w_repo0)]).
Proof.
  eapply rtc_l. { apply (step_begin _ w_scope w_revoke _ _ w_norm (w_slot_of w_repo1)). by vm_compute. }
  apply rtc_once.
  apply (step_commit None (Some 2000) w_repo1 [] (Task w_norm w_revoke (w_slot_of w_repo1)) [_] w_repo_revoked
           (snd (w_apply w_revoke w_repo1))). by vm_compute.
Defined.

Lemma revoked_forever_witness :
  exists s', jget (key "node-1") (slots w_repo_revoked) = Some s' /\ lifecycle_state s' = REVOKED.
Proof.
  apply (revoked_forever (zod := zod_ref) None [] [] empty_repo
           (w_repo_revoked, [Task w_norm w_bind2 (w_slot_of w_repo0)]) (w_repo_revoked, []) "node-1"
           (w_slot_of w_repo_revoked));
    [done | etransitivity; [exact w_steps | exact w_steps_revoke] | by vm_compute | by vm_compute |].
  apply rtc_once.
  apply (step_commit None (Some 5000) w_repo_revoked [] (Task w_norm w_bind2 (w_slot_of w_repo0)) [] w_repo_revoked
           (Err (Conflict STALE_REVISION))). by vm_compute.
Defined.

Lemma replacement_inherits_no_privilege_witness :
  exists s b, getSlot (zod := zod_ref) w_scope w_repo1 = Ok s /\
    resolveBinding (zod := zod_ref) w_norm w_replace (bindings w_repo1) = Ok (Some b) /\
    current_binding_id (mut_slot (w_result (w_apply w_replace w_repo1))) = Some (binding_id b) /\
    lifecycle_state (mut_slot (w_result (w_apply w_replace w_repo1))) = CONNECTED /\
    hook_subscription_ref (mut_slot (w_result (w_apply w_replace w_repo1))) = None /\
    slot_grant_ref (mut_slot (w_result (w_apply w_replace w_repo1))) = or_undefined (binding_grant_ref b) None /\
    durable_inbox_ref (mut_slot (w_result (w_apply w_replace w_repo1))) = durable_inbox_ref s.
Proof.
  apply (replacement_inherits_no_privilege (zod := zod_ref) None (Some 2000) w_scope w_replace w_repo1
           (fst (w_apply w_replace w_repo1)) (w_result (w_apply w_replace w_repo1)));
    [by vm_compute | by vm_compute | by right].
Defined.

Lemma transition_to_binding_locks_slot_witness :
  getSlot (zod := zod_ref) w_scope (fst (w_apply w_transition w_repo0)) = Err (Conflict CORRUPT_BINDING) /\
  forall auth' now' o', validateOperation o' = Ok tt ->
    apply (zod := zod_ref) auth' now' w_scope o' (fst (w_apply w_transition w_repo0)) =
    (fst (w_apply w_transition w_repo0), Err (Conflict CORRUPT_BINDING)).
Proof.
  apply (transition_to_binding_locks_slot (zod := zod_ref) None (Some 2000) w_scope w_transition w_repo0 _
           (w_result (w_apply w_transition w_repo0)) (w_slot_of w_repo0)); by vm_compute.
Defined.
