(* ===== verification/SlotSpec.v ===== *)
(** * The slot repository as an atomic register

    An abstract specification of [InMemoryPrimaryAgentSlotRepository]: one cell
    per Node and a journal, where an operation reads the cell, checks it and
    writes the next slot in one indivisible step. The repository, whose [apply]
    suspends between reading and committing, refines it under every
    interleaving. *)

From stdpp Require Import relations.
From S2P Require Import Prelude.
From S2P Require Import Json.
From S2P Require Import Contracts.
From S2P Require Import Slot.
From S2P Require Import SlotProps.

#[local] Open Scope Z_scope.

(** ** The specification *)

Record register : Type := Register {
  cells : gmap string slot;
  journal : list change;
}.

(** A Node gets its cell once, at revision 0; afterwards only operations that
    name the current revision and are allowed in the current state write it. *)
Inductive atomic_step (g : register) : register -> Prop :=
| atomic_open s :
    cells g !! key (slot_node_id s) = None -> slot_revision s = 0 ->
    atomic_step g (Register (<[key (slot_node_id s) := s]> (cells g)) (journal g))
| atomic_apply k cur o b t next :
    cells g !! k = Some cur -> op_expected_revision o = NInt (slot_revision cur) ->
    assertOperationTransition cur o = Ok tt -> slotForOperation cur o b t = Ok next ->
    atomic_step g (Register (<[k := next]> (cells g)) (journal g ++ [change_of next o t])).
(** What the specification sees of a repository. *)
Definition register_of (r : repo) : register := Register (to_gmap (slots r)) (changes r).

(** ** Refinement *)

Section refinement.
Context {zod : Zod} {laws : ZodLaws zod}.

Lemma register_of_set k s r : register_of (set_slots (jset k s (slots r)) r) = Register (<[k := s]> (to_gmap (slots r))) (changes r).
Proof. unfold register_of. simpl. by rewrite to_gmap_jset. Qed.

(** A step of the repository is a step of the register, or none. *)
Lemma step_refines auth c c' : step auth c c' -> log_ok c ->
  register_of c'.1 = register_of c.1 \/ atomic_step (register_of c.1) (register_of c'.1).
Proof using laws.
  destruct 1 as [b r ts r' res H|sc now r ts r' res H|sc i d now r ts r' res H|sc o r ts n s H
                |now r ts1 t ts2 r' res H]; simpl; intros Hlog.
  - apply registerBinding_frame in H as [Hs Hc]. left. unfold register_of. by rewrite Hs, Hc.
  - apply ensureSlot_frame in H as [->|(s' & Hrev & Hf & ->)]; [by left|]. right. rewrite register_of_set.
    apply atomic_open; [simpl; by rewrite lookup_to_gmap | done].
  - apply createSlot_frame in H as [->|(s' & Hrev & Hf & ->)]; [by left|]. right. rewrite register_of_set.
    apply atomic_open; [simpl; by rewrite lookup_to_gmap | done].
  - by left.
  - destruct res as [m|e]; [|apply apply_commit_err in H as ->; by left].
    pose proof (log_tasks _ Hlog) as Ht. simpl in Ht. rewrite Forall_app, Forall_cons in Ht.
    destruct Ht as (_ & (Hn & cur0 & Hc0 & _ & Heq) & _).
    apply apply_commit_ok in H as [(? & _ & _ & _ & -> & _) | (_ & _ & Hexp & Htr & b & tm & cur & Hrest)]; [by left|].
    destruct Hrest as (_ & Hcur & Hrev & _ & Hnext & Hch & ->). right. rewrite Hc0 in Hcur. injection Hcur as ->.
    assert (Hts : task_slot t = cur) by auto. rewrite Hts in *. clear Heq.
    unfold register_of. simpl. rewrite to_gmap_jset, Hch.
    apply (atomic_apply (register_of r) _ cur (task_op t) b tm (mut_slot m)); [|done..]. simpl. by rewrite lookup_to_gmap.
Qed.

(** C3. The repository refines the atomic register: whatever the
    interleaving of synchronous calls with the two halves of suspended [apply]
    calls, from a constructed repository every history is, on the stored slots
    and the change log, a history of indivisible operations, each of which
    checked and transformed the very slot that was stored when it committed. *)
Theorem repository_refines_register auth initial bs r0 c c' :
  new_repo initial bs empty_repo = (r0, Ok tt) ->
  rtc (step auth) (r0, []) c -> rtc (step auth) c c' ->
  rtc atomic_step (register_of c.1) (register_of c'.1).
Proof using laws.
  intros Hnew%new_repo_log H1 H2. apply log_ok_steps in H1; [|done]. revert H1.
  induction H2 as [|c1 c2 c3 Hs _ IH]; intros Hlog; [done|].
  assert (Hlog2 : log_ok c2) by by eapply log_ok_step.
  destruct (step_refines _ _ _ Hs Hlog) as [<-|Ha]; [by apply IH|]. eapply rtc_l; [exact Ha | by apply IH].
Qed.
End refinement.

(** Two calls suspended on the same slot: one of them commits. *)
Lemma repository_refines_register_witness :
  rtc atomic_step (register_of empty_repo) (register_of w_repo1) /\
  cells (register_of w_repo1) !! key "node-1" = Some (w_slot_of w_repo1).
Proof.
  split; [|vm_compute; reflexivity].
  exact (repository_refines_register (zod := zod_ref) None [] [] empty_repo (empty_repo, [])
    (w_repo1, [Task w_norm w_bind2 (w_slot_of w_repo0)]) eq_refl (rtc_refl _ _) w_steps).
Defined.
