(* ===== verification/Binding.v ===== *)
(** * The Primary Agent binding API (data/primary-agent-binding.ts)

    Binding plans: their contract, their hash ([stableStringify] and 32-bit
    FNV-1a), and [PrimaryAgentBindingApi], which turns a verified plan into a
    slot operation, numbers the events it emits per Node and tells its owner
    which binding lost the slot. The API is a client of the slot repository of
    Slot.v. Calls of [onEvent] and [onBindingRevoked] are recorded in logs. *)

From S2P Require Import Prelude Json Contracts Slot SlotProps.

(** ** Data *)

Definition BINDING_OPERATIONS : list string :=
  ["bind"; "replace"; "suspend"; "detach"; "revoke"; "recover"].

(** [bindingPlanSchema]; [plan_operation] is the raw string. *)
Record plan : Type := Plan {
  plan_id : string;
  plan_slot_id : string;
  plan_node_id : string;
  plan_expected_revision : Z;
  plan_operation : string;
  plan_actor_ref : string;
  plan_idempotency_key : string;
  plan_binding : option binding;
  plan_grant_ref : option (option string);
  plan_hook_ref : option (option string);
  plan_inbox_ref : option (option string);
  plan_created_at : iso;
  plan_expires_at : option (option iso);
}.
#[export] Instance plan_eq_dec : EqDecision plan.
Proof. solve_decision. Defined.

(** A plan with its [plan_hash]. *)
Record signed_plan : Type := Signed { sp_plan : plan; sp_hash : string }.

(** The argument of [createBindingPlan]; an [expires_at] is a [Date] or an
    ISO string. *)
Inductive expiry : Type := ExDate (d : date) | ExIso (t : iso).

Record plan_input : Type := PlanInput {
  in_operation : string;
  in_actor_ref : string;
  in_idempotency_key : string;
  in_binding : option binding;
  in_grant_ref : option (option string);
  in_hook_ref : option (option string);
  in_inbox_ref : option (option string);
  in_plan_id : option string;
  in_expires_at : option (option expiry);
}.

Record audit : Type := Audit {
  audit_id : string;
  audit_actor_ref : string;
  audit_operation : string;
  audit_node_id : string;
  audit_slot_id : string;
  audit_revision : Z;
  audit_occurred_at : iso;
}.

Record changed_event : Type := ChangedEvent {
  ce_event_id : string;
  ce_node_id : string;
  ce_sequence : Z;
  ce_revision : Z;
  ce_occurred_at : iso;
  ce_correlation_id : option string;
  ce_causation_id : option string;
  ce_payload : slot;
}.

Record command_result : Type := CommandResult {
  cr_plan : signed_plan;
  cr_mutation : mutation;
  cr_audit : audit;
  cr_event : changed_event;
}.

Inductive health_status : Type :=
| HS_healthy | HS_degraded | HS_disconnected | HS_unassigned | HS_revoked | HS_unknown.

Record health : Type := Health {
  h_node_id : string;
  h_slot_id : string;
  h_binding_id : option string;
  h_status : health_status;
  h_observed_at : iso;
  h_revision : Z;
}.

(** [PrimaryAgentBindingApi]: the repository it works on, its two private
    maps, and the calls made to its two callbacks. *)
Record api : Type := Api {
  api_repo : repo;
  sequences : jsmap Z;
  appliedPlans : jsmap command_result;
  event_log : list changed_event;
  revoked_log : list (string * slot);
}.

Definition set_repo (r : repo) (a : api) : api :=
  Api r (sequences a) (appliedPlans a) (event_log a) (revoked_log a).

(** Run a repository method on the API's repository. *)
Definition on_repo {A} (m : method repo error A) : method api error A :=
  fun a => let '(r, res) := m (api_repo a) in (set_repo r a, res).

(** ** 32-bit FNV-1a *)

(** [ToInt32], [Math.imul], [x >>> 0]. *)
Definition to_int32 (z : Z) : Z := (z + 2 ^ 31) mod 2 ^ 32 - 2 ^ 31.
Definition imul (a b : Z) : Z := to_int32 (to_int32 a * to_int32 b).
Definition to_uint32 (z : Z) : Z := z mod 2 ^ 32.
Definition bit_xor (a b : Z) : Z := to_int32 (Z.lxor (to_int32 a) (to_int32 b)).

(** [toString(16)] of a number below [16 ^ fuel]. *)
Fixpoint toString16 (fuel : nat) (n : Z) : string :=
  match fuel with
  | O => ""
  | S fuel =>
      if bool_decide (n < 16) then String (hex_digit (Z.to_N n)) ""
      else toString16 fuel (n / 16) +:+ String (hex_digit (Z.to_N (n mod 16))) ""
  end.

Definition charCode (c : ascii) : Z := Z.of_N (N_of_ascii c).

Fixpoint fnv1a_loop (hash : Z) (value : string) : Z :=
  match value with
  | EmptyString => hash
  | String c rest => fnv1a_loop (imul (bit_xor hash (charCode c)) 16777619) rest
  end.

Definition fnv1a (value : string) : string :=
  padStart 8 "0" (toString16 8 (to_uint32 (fnv1a_loop 2166136261 value))).

(** ** Plan material and its hash *)

Definition json_timestamp (t : option iso) : json :=
  match t with Some t => JStr (toISOString t) | None => JNull end.

(** The plan object without [plan_hash]. *)
Definition plan_fields (p : plan) : list (string * json) :=
  [("schema_version", JStr "spatial.primary-agent-binding-plan.v1");
   ("plan_id", JStr (plan_id p)); ("slot_id", JStr (plan_slot_id p));
   ("node_id", JStr (plan_node_id p)); ("expected_revision", JNum (plan_expected_revision p));
   ("operation", JStr (plan_operation p)); ("actor_ref", JStr (plan_actor_ref p));
   ("idempotency_key", JStr (plan_idempotency_key p))]
  ++ opt_field "binding" (binding_json <$> plan_binding p)
  ++ opt_field "capability_grant_ref" (json_nullable <$> plan_grant_ref p)
  ++ opt_field "hook_subscription_ref" (json_nullable <$> plan_hook_ref p)
  ++ opt_field "durable_inbox_ref" (json_nullable <$> plan_inbox_ref p)
  ++ [("created_at", JStr (toISOString (plan_created_at p)))]
  ++ opt_field "expires_at" (json_timestamp <$> plan_expires_at p).

(** [delete copy.k]. *)
Definition delete_key (k : string) (l : list (string * json)) : list (string * json) :=
  filter (fun kv => kv.1 <> k) l.

(** [computePrimaryAgentBindingPlanHash] on any object. *)
Definition computePlanHash (fields : list (string * json)) : string :=
  "sha256:local-" +:+ fnv1a (stableStringify (JObj (delete_key "plan_hash" fields))).

Section binding.
Context {zod : Zod}.

(** The [operation] field: trimmed, lower-cased, one of the six. *)
Definition operationSchema (s : string) : option string :=
  let v := to_lower (trim s) in
  if bool_decide (v ∈ BINDING_OPERATIONS) then Some v else None.

Definition bindingPlanFields (p : plan) : option plan :=
  id ← idSchema (plan_id p);
  sid ← idSchema (plan_slot_id p);
  node ← idSchema (plan_node_id p);
  rev ← revisionSchema (plan_expected_revision p);
  op ← operationSchema (plan_operation p);
  actor ← idSchema (plan_actor_ref p);
  idem ← idSchema (plan_idempotency_key p);
  b ← nullable bindingRecordSchema (plan_binding p);
  g ← nullable (nullable idSchema) (plan_grant_ref p);
  h ← nullable (nullable idSchema) (plan_hook_ref p);
  d ← nullable (nullable idSchema) (plan_inbox_ref p);
  c ← timestampSchema (plan_created_at p);
  e ← nullable (nullable timestampSchema) (plan_expires_at p);
  Some (Plan id sid node rev op actor idem b g h d c e).

Definition bindingPlanSchema (s : signed_plan) : option signed_plan :=
  p ← bindingPlanFields (sp_plan s);
  h ← idSchema (sp_hash s);
  Some (Signed p h).

Definition safeBinding (b : option binding) : result error (option binding) :=
  match b with
  | None => Ok None
  | Some b => let? b' := of_option (bindingRecordSchema b) (Conflict VALIDATION) in Ok (Some b')
  end.

Definition normalizePlan (input : signed_plan) : result error signed_plan :=
  let? parsed := of_option (bindingPlanSchema input) (Conflict VALIDATION) in
  let expectedHash :=
    computePlanHash (plan_fields (sp_plan parsed) ++ [("plan_hash", JStr (sp_hash parsed))]) in
  require (str_eqb expectedHash (sp_hash parsed)) (Conflict VALIDATION) ;?
  Ok parsed.

Definition bindingFor (r : repo) (bindingId : option string) : result error (option binding) :=
  match bindingId with
  | Some b => if truthy (Some b) then getBinding b r else Ok None
  | None => Ok None
  end.

(** [operationKind]: the slot operation a plan operation stands for. *)
Definition operationKind (operation : string) : string :=
  if str_eqb operation "suspend" then "mark-disconnected"
  else if str_eqb operation "recover" then "restore"
  else operation.

Definition inspectSlot (sc : scope) (now : date) : method api error (slot * option binding) :=
  let! s := on_repo (ensureSlot sc now) in
  let! a := jread in
  let! b := jlift (bindingFor (api_repo a) (current_binding_id s)) in
  jret (s, b).

Definition expiry_iso (e : option expiry) : result error (option iso) :=
  match e with
  | Some (ExDate d) => let? t := nowIso d in Ok (Some t)
  | Some (ExIso t) => Ok (Some t)
  | None => Ok None
  end.

Definition optional {A B} (f : A -> result error B) (o : option A) : result error (option B) :=
  match o with Some a => let? b := f a in Ok (Some b) | None => Ok None end.

Definition createBindingPlan (sc : scope) (input : plan_input) (now : date) : method api error signed_plan :=
  let! n := jlift (scope_of sc) in
  let! s := on_repo (ensureSlot n now) in
  let! opText := jlift (requireText (in_operation input)) in
  let operation := to_lower opText in
  jlift (require (bool_decide (operation ∈ BINDING_OPERATIONS)) (Conflict VALIDATION)) ;!
  let! b := jlift (safeBinding (in_binding input)) in
  jlift (require (negb ((str_eqb operation "bind" || str_eqb operation "replace")
                        && bool_decide (b = None))) (Conflict VALIDATION)) ;!
  jlift (match b with
         | Some b => require (str_eqb (binding_node_id b) (scope_node_id n)) (Conflict NODE_MISMATCH)
         | None => Ok tt
         end) ;!
  let! id := jlift (requireText (default (slot_id s +:+ ":plan:" +:+ in_idempotency_key input)
                                   (in_plan_id input))) in
  let! actor := jlift (requireText (in_actor_ref input)) in
  let! idem := jlift (requireText (in_idempotency_key input)) in
  let! created := jlift (nowIso now) in
  let! expires := jlift (optional expiry_iso (in_expires_at input)) in
  let planBase := Plan id (slot_id s) (scope_node_id n) (slot_revision s) operation actor idem b
                    (in_grant_ref input) (in_hook_ref input) (in_inbox_ref input) created expires in
  let! parsed := jlift (of_option (bindingPlanFields planBase) (Conflict VALIDATION)) in
  jret (Signed parsed (computePlanHash (plan_fields parsed))).

(** The [authorize] option of the API. *)
Definition plan_authorizer : Type := option (scope -> signed_plan -> slot -> bool).

Definition plan_authorized (auth : plan_authorizer) (n : scope) (p : signed_plan) (s : slot) : bool :=
  match auth with Some f => f n p s | None => true end.

(** The slot operation a plan is applied as. *)
Definition operation_of (p : plan) : operation :=
  Operation (plan_id p) (plan_idempotency_key p) (plan_actor_ref p)
    (NInt (plan_expected_revision p)) (operationKind (plan_operation p))
    (binding_id <$> plan_binding p) (plan_binding p)
    (plan_grant_ref p) (plan_hook_ref p) (plan_inbox_ref p) None.

(** What [applyBindingPlan] has after its checks: the earlier result of the
    plan, or the slot it read. *)
Inductive begun : Type :=
| Replay (res : command_result)
| Proceed (n : scope) (p : signed_plan) (s : slot).

(** [applyBindingPlan] up to the call of [repository.apply]. *)
Definition applyBindingPlan_begin (auth : plan_authorizer) (sc : scope) (input : signed_plan) (a : api)
  : result error begun :=
  let? n := scope_of sc in
  let? p := normalizePlan input in
  require (str_eqb (plan_node_id (sp_plan p)) (scope_node_id n)) (Conflict NODE_MISMATCH) ;?
  let? s := getSlot n (api_repo a) in
  require (str_eqb (slot_id s) (plan_slot_id (sp_plan p))) (Conflict NODE_MISMATCH) ;?
  require (plan_authorized auth n p s) (Conflict UNAUTHORIZED) ;?
  match jget (plan_idempotency_key (sp_plan p)) (appliedPlans a) with
  | Some applied =>
      require (str_eqb (sp_hash (cr_plan applied)) (sp_hash p)) (Conflict IDEMPOTENCY_CONFLICT) ;?
      Ok (Replay applied)
  | None => Ok (Proceed n p s)
  end.

Definition event_of (n : scope) (p : signed_plan) (m : mutation) (sequence : Z) : changed_event :=
  ChangedEvent (change_id (mut_change m) +:+ ":event") (scope_node_id n) sequence
    (change_revision (mut_change m)) (change_occurred_at (mut_change m))
    (Some (plan_id (sp_plan p))) (Some (change_operation_id (mut_change m))) (mut_slot m).

Definition audit_of (n : scope) (p : signed_plan) (m : mutation) : audit :=
  Audit (change_id (mut_change m)) (change_actor_ref (mut_change m)) (plan_operation (sp_plan p))
    (scope_node_id n) (slot_id (mut_slot m)) (slot_revision (mut_slot m))
    (change_occurred_at (mut_change m)).

(** [previousBindingId], when the plan removed it. *)
Definition removed_binding (p : signed_plan) (s : slot) (m : mutation) : option string :=
  match current_binding_id s with
  | Some previous =>
      if truthy (Some previous)
         && bool_decide (plan_operation (sp_plan p) ∈ ["replace"; "detach"; "revoke"])
         && negb (bool_decide (Some previous = current_binding_id (mut_slot m)))
      then Some previous else None
  | None => None
  end.

(** [applyBindingPlan] after [repository.apply] has returned [m]. *)
Definition applyBindingPlan_finish (n : scope) (p : signed_plan) (s : slot) (m : mutation) (a : api)
  : api * command_result :=
  let node := scope_node_id n in
  let sequence := Z.max (default 0 (jget node (sequences a)) + 1) (change_revision (mut_change m)) in
  let event := event_of n p m sequence in
  let res := CommandResult p m (audit_of n p m) event in
  (Api (api_repo a) (jset node sequence (sequences a))
     (jset (plan_idempotency_key (sp_plan p)) res (appliedPlans a))
     (event_log a ++ [event])
     (match removed_binding p s m with
      | Some b => revoked_log a ++ [(b, mut_slot m)]
      | None => revoked_log a
      end), res).

Definition applyBindingPlan (auth : plan_authorizer) (rauth : authorizer) (now : date)
    (sc : scope) (input : signed_plan) : method api error command_result :=
  let! a := jread in
  let! b := jlift (applyBindingPlan_begin auth sc input a) in
  match b with
  | Replay res => jret res
  | Proceed n p s =>
      let! m := on_repo (apply rauth now n (operation_of (sp_plan p))) in
      fun a => let '(a', res) := applyBindingPlan_finish n p s m a in (a', Ok res)
  end.

Definition health_of (st : lifecycle) : health_status :=
  match st with
  | CONNECTED => HS_healthy
  | DEGRADED => HS_degraded
  | DISCONNECTED => HS_disconnected
  | REVOKED => HS_revoked
  | UNASSIGNED => HS_unassigned
  | BINDING => HS_unknown
  end.

Definition verifyHealth (sc : scope) (now : date) : method api error health :=
  let! i := inspectSlot sc now in
  let! t := jlift (nowIso now) in
  jret (Health (slot_node_id i.1) (slot_id i.1) (current_binding_id i.1)
          (health_of (lifecycle_state i.1)) t (slot_revision i.1)).

Definition recoverPreviousSafeState (auth : plan_authorizer) (rauth : authorizer) (now : date)
    (sc : scope) (actor_ref idempotency_key : string) : method api error command_result :=
  let! p := createBindingPlan sc
              (PlanInput "recover" actor_ref idempotency_key None None None None None None) now in
  applyBindingPlan auth rauth now sc p.

Definition new_api (r : repo) : api := Api r [] [] [] [].

(** ** Concurrent [applyBindingPlan] calls *)

(** A call suspended while [repository.apply] runs, or resumed with its
    result and about to finish. *)
Inductive api_task : Type :=
| Waiting (n : scope) (p : signed_plan) (s : slot) (t : task)
| Returned (n : scope) (p : signed_plan) (s : slot) (m : mutation).

Inductive api_step (auth : plan_authorizer) (rauth : authorizer)
  : api * list api_task -> api * list api_task -> Prop :=
| as_create sc input now a ts a' res :
    createBindingPlan sc input now a = (a', res) -> api_step auth rauth (a, ts) (a', ts)
| as_health sc now a ts a' res :
    verifyHealth sc now a = (a', res) -> api_step auth rauth (a, ts) (a', ts)
| as_begin sc input a ts n p s n' s' :
    applyBindingPlan_begin auth sc input a = Ok (Proceed n p s) ->
    apply_begin n (operation_of (sp_plan p)) (api_repo a) = Ok (n', s') ->
    api_step auth rauth (a, ts) (a, Waiting n p s (Task n' (operation_of (sp_plan p)) s') :: ts)
| as_commit now n p s t a ts1 ts2 r m :
    apply_commit rauth now (task_scope t) (task_op t) (task_slot t) (api_repo a) = (r, Ok m) ->
    api_step auth rauth (a, ts1 ++ Waiting n p s t :: ts2) (set_repo r a, ts1 ++ Returned n p s m :: ts2)
| as_fail now n p s t a ts1 ts2 r e :
    apply_commit rauth now (task_scope t) (task_op t) (task_slot t) (api_repo a) = (r, Err e) ->
    api_step auth rauth (a, ts1 ++ Waiting n p s t :: ts2) (set_repo r a, ts1 ++ ts2)
| as_finish n p s m a ts1 ts2 a' res :
    applyBindingPlan_finish n p s m a = (a', res) ->
    api_step auth rauth (a, ts1 ++ Returned n p s m :: ts2) (a', ts1 ++ ts2).
End binding.
