(* ===== verification/BindingProps.v ===== *)
(** * The binding API: theorems

    The plan hash is 32-bit FNV-1a over the key-sorted JSON of the plan; a
    plan the API creates passes its own verification; the events of a Node
    are numbered in strictly increasing order under every interleaving of
    calls; a plan applied again is answered from the record; and the owner is
    told about every binding that lost the slot. *)

From S2P Require Import Prelude Json Contracts Slot SlotProps Binding.

(** ** FNV-1a against its unsigned definition *)

(** The published definition, on unsigned 32-bit arithmetic. *)
Fixpoint fnv1a_ref (h : Z) (s : string) : Z :=
  match s with
  | EmptyString => h
  | String c s => fnv1a_ref ((Z.lxor h (charCode c) * 16777619) mod 2 ^ 32) s
  end.

(** The [k] low hexadecimal digits, most significant first. *)
Fixpoint hex_fixed (k : nat) (n : Z) : string :=
  match k with
  | O => ""
  | S k => hex_fixed k (n / 16) +:+ String (hex_digit (Z.to_N (n mod 16))) ""
  end.

Lemma to_int32_mod z : to_int32 z mod 2 ^ 32 = z mod 2 ^ 32.
Proof. unfold to_int32. rewrite Zminus_mod_idemp_l. f_equal. lia. Qed.

Lemma imul_mod a b : imul a b mod 2 ^ 32 = (a * b) mod 2 ^ 32.
Proof.
  unfold imul. rewrite to_int32_mod, Zmult_mod, !to_int32_mod. by rewrite <-Zmult_mod.
Qed.

Lemma lxor_mod a b : Z.lxor a b mod 2 ^ 32 = Z.lxor (a mod 2 ^ 32) (b mod 2 ^ 32).
Proof. rewrite <-!Z.land_ones by lia. apply Z.bits_inj'. intros n Hn. rewrite !Z.land_spec, !Z.lxor_spec, !Z.land_spec. by destruct (Z.testbit a n), (Z.testbit b n), (Z.testbit (Z.ones 32) n). Qed.

Lemma bit_xor_mod a b : bit_xor a b mod 2 ^ 32 = Z.lxor (a mod 2 ^ 32) (b mod 2 ^ 32).
Proof. unfold bit_xor. by rewrite to_int32_mod, lxor_mod, !to_int32_mod. Qed.

Lemma charCode_range c : 0 <= charCode c < 256.
Proof. unfold charCode. pose proof (N_ascii_bounded c). lia. Qed.

Lemma fnv1a_loop_mod h s : fnv1a_loop h s mod 2 ^ 32 = fnv1a_ref (h mod 2 ^ 32) s mod 2 ^ 32.
Proof.
  revert h. induction s as [|c s IH]; intros h; simpl fnv1a_loop; simpl fnv1a_ref.
  - by rewrite Zmod_mod.
  - rewrite IH. f_equal. f_equal. rewrite imul_mod, Zmult_mod, bit_xor_mod.
    rewrite (Z.mod_small (charCode c)) by (pose proof (charCode_range c); lia).
    by rewrite Zmult_mod_idemp_r, <-(Z.mod_small (charCode c) (2 ^ 32)), <-lxor_mod, Zmult_mod_idemp_l
      by (pose proof (charCode_range c); lia).
Qed.

Lemma fnv1a_ref_range h s : 0 <= h < 2 ^ 32 -> 0 <= fnv1a_ref h s < 2 ^ 32.
Proof.
  revert h. induction s as [|c s IH]; intros h Hh; [done|].
  change (0 <= fnv1a_ref ((Z.lxor h (charCode c) * 16777619) mod 2 ^ 32) s < 2 ^ 32).
  apply IH, Z.mod_pos_bound. lia.
Qed.

Lemma toString16_length k n : (String.length (toString16 k n) <= k)%nat.
Proof.
  revert n. induction k as [|k IH]; intros n; [done|]. simpl. case_bool_decide; simpl; [lia|].
  rewrite slength_app. simpl. specialize (IH (n / 16)). lia.
Qed.

Lemma hex_fixed_0 k : hex_fixed k 0 = repeat_char "0" k.
Proof.
  assert (Hs : forall k, repeat_char "0" k +:+ "0" = String "0" (repeat_char "0" k)).
  { clear. intros k. induction k as [|k IH]; [done|]. simpl. by rewrite sapp_cons, IH. }
  induction k as [|k IH]; [done|]. cbn [hex_fixed repeat_char]. change (0 / 16) with 0.
  rewrite IH. apply Hs.
Qed.

Lemma padStart_toString16 k n : 0 <= n < 16 ^ Z.of_nat k -> (0 < k)%nat ->
  padStart k "0" (toString16 k n) = hex_fixed k n.
Proof.
  revert n. induction k as [|k IH]; intros n Hn Hk; [lia|]. simpl. case_bool_decide as H16.
  - unfold padStart. simpl. rewrite Nat.sub_0_r, Z.div_small, hex_fixed_0, Z.mod_small by lia. done.
  - assert (0 < k)%nat. { destruct k; [|lia]. simpl in Hn. lia. }
    rewrite <-IH; [|split; [apply Z.div_pos; lia|apply Z.div_lt_upper_bound; [lia|]]|done].
    + unfold padStart. rewrite slength_app, sapp_assoc. simpl.
      by replace (S k - (String.length (toString16 k (n / 16)) + 1))%nat
        with (k - String.length (toString16 k (n / 16)))%nat by lia.
    + rewrite Nat2Z.inj_succ, Z.pow_succ_r in Hn by lia. lia.
Qed.

Lemma hex_fixed_length k n : String.length (hex_fixed k n) = k.
Proof. revert n. induction k as [|k IH]; intros n; [done|]. simpl. rewrite slength_app, IH. simpl. lia. Qed.

Lemma fnv1a_hex s : fnv1a s = hex_fixed 8 (fnv1a_ref 2166136261 s).
Proof.
  unfold fnv1a. assert (Hr : to_uint32 (fnv1a_loop 2166136261 s) = fnv1a_ref 2166136261 s).
  { unfold to_uint32. rewrite fnv1a_loop_mod. change (2166136261 mod 2 ^ 32) with 2166136261.
    apply Z.mod_small, fnv1a_ref_range. lia. }
  rewrite Hr. apply padStart_toString16; [|lia]. apply fnv1a_ref_range. lia.
Qed.

(** The hash loop, written with JavaScript's signed 32-bit operators
    ([^], [Math.imul], [>>> 0]) and variable-width [toString(16)], computes
    32-bit FNV-1a: offset basis 2166136261, xor then multiply by 16777619
    modulo 2^32, printed as exactly eight hexadecimal digits. *)
Theorem fnv1a_reference s :
  fnv1a s = hex_fixed 8 (fnv1a_ref 2166136261 s) /\
  0 <= fnv1a_ref 2166136261 s < 2 ^ 32 /\ String.length (fnv1a s) = 8%nat.
Proof.
  rewrite fnv1a_hex, hex_fixed_length. split; [done|]. split; [|done]. apply fnv1a_ref_range. lia.
Qed.

(** ** A created plan verifies *)

Lemma trim_end_last s c : is_js_space c = false -> trim_end (s +:+ String c "") = s +:+ String c "".
Proof.
  intros Hc. induction s as [|d s IH]; simpl; [by rewrite Hc|].
  fold (s +:+ String c ""). rewrite sapp_cons. cbn [trim_end]. rewrite IH.
  by destruct s.
Qed.

Lemma hex_digit_nonspace n : 0 <= n < 16 -> is_js_space (hex_digit (Z.to_N n)) = false.
Proof.
  intros Hn. assert (Hd : forall k, (k < 16)%nat -> is_js_space (hex_digit (N.of_nat k)) = false).
  { intros k Hk. do 16 (destruct k as [|k]; [done|]). lia. }
  replace (Z.to_N n) with (N.of_nat (Z.to_nat n)) by lia. apply Hd. lia.
Qed.

Lemma hash_well_formed l : trim (computePlanHash l) = computePlanHash l /\
  String.length (computePlanHash l) = 21%nat.
Proof.
  unfold computePlanHash. rewrite fnv1a_hex, slength_app, hex_fixed_length. split; [|done].
  set (h := fnv1a_ref _ _). unfold trim. change (trim_start ("sha256:local-" +:+ ?x)) with ("sha256:local-" +:+ x).
  cbn [hex_fixed]. rewrite <-sapp_assoc. apply trim_end_last, hex_digit_nonspace, Z.mod_pos_bound. lia.
Qed.

Lemma delete_key_fresh k l : k ∉ map fst l -> delete_key k l = l.
Proof.
  induction l as [|[k' v] l IH]; [done|]. simpl. rewrite not_elem_of_cons. intros [Hk Hl].
  unfold delete_key. rewrite filter_cons_True by (simpl; congruence). f_equal. by apply IH.
Qed.

Lemma plan_hash_fresh p : "plan_hash" ∉ map fst (plan_fields p).
Proof. unfold plan_fields. rewrite !map_app, !not_elem_of_app. rewrite !map_fst_opt_field. repeat split; try case_match; set_solver. Qed.

Lemma computePlanHash_signed p h :
  computePlanHash (plan_fields p ++ [("plan_hash", JStr h)]) = computePlanHash (plan_fields p).
Proof.
  unfold computePlanHash. do 4 f_equal. rewrite (delete_key_fresh _ (plan_fields p)) by apply plan_hash_fresh.
  unfold delete_key. rewrite filter_app, filter_cons_False by (simpl; naive_solver).
  rewrite filter_nil, app_nil_r. apply delete_key_fresh, plan_hash_fresh.
Qed.

Section created_plan.
Context {zod : Zod} {laws : ZodLaws zod}.

#[local] Instance operationSchema_idem : Idempotent operationSchema.
Proof using zod laws.
  intros s t. unfold operationSchema. case_bool_decide as Hin; [|done]. intros [= <-].
  assert (Hfix : forall v, v ∈ BINDING_OPERATIONS -> to_lower (trim v) = v).
  { apply Forall_forall. by repeat constructor. }
  rewrite Hfix by done. by rewrite bool_decide_eq_true_2.
Qed.

Lemma bindingPlanFields_idem : Idempotent bindingPlanFields.
Proof using laws.
  intros s t H. unfold bindingPlanFields in *. inv_some. simpl in *.
  by repeat (erewrite idem by done; simpl).
Qed.

Lemma idSchema_hash l : idSchema (computePlanHash l) = Some (computePlanHash l).
Proof using laws.
  unfold idSchema. destruct (hash_well_formed l) as [-> Hl]. apply z_string_complete. rewrite Hl. lia.
Qed.

Lemma normalizePlan_signed p :
  bindingPlanFields p = Some p ->
  normalizePlan (Signed p (computePlanHash (plan_fields p))) = Ok (Signed p (computePlanHash (plan_fields p))).
Proof using laws.
  intros Hp. unfold normalizePlan, bindingPlanSchema. cbn [sp_plan sp_hash].
  rewrite Hp. cbn [mbind option_bind]. rewrite idSchema_hash. cbn [mbind option_bind of_option rbind sp_plan sp_hash].
  rewrite computePlanHash_signed, str_eqb_refl. done.
Qed.

(** Every plan the verification accepts is in normal form and signed. *)
Lemma normalizePlan_ok sp p : normalizePlan sp = Ok p ->
  bindingPlanFields (sp_plan p) = Some (sp_plan p) /\ sp_hash p = computePlanHash (plan_fields (sp_plan p)).
Proof using laws.
  unfold normalizePlan, bindingPlanSchema. intros H. inv_ok. inv_some. cbn [sp_plan sp_hash] in *.
  split; [by eapply bindingPlanFields_idem|].
  match goal with H : str_eqb _ _ = true |- _ => apply str_eqb_eq in H as <- end.
  by rewrite computePlanHash_signed.
Qed.

Lemma scope_node_trim sc n : scope_of sc = Ok n -> trim (scope_node_id n) = scope_node_id n.
Proof using laws.
  unfold scope_of, normalizeSpatialNodeScope. rewrite of_option_ok. intros H. inv_some. cbn [scope_node_id].
  by repeat match goal with H : idSchema _ = Some _ |- _ => apply idSchema_spec in H as [-> _] end; rewrite trim_idem.
Qed.

Lemma createPrimaryAgentSlot_node sc n i d now s :
  scope_of sc = Ok n -> createPrimaryAgentSlot sc i d now = Ok s -> slot_node_id s = scope_node_id n.
Proof using laws.
  intros Hsc. unfold createPrimaryAgentSlot, requireText. rewrite Hsc. cbn [rbind]. intros H.
  pose proof (scope_node_trim _ _ Hsc) as Htrim. rewrite Htrim in H.
  inv_ok. repeat (case_match; inv_ok; try done).
  match goal with H : spatialPrimaryAgentSlotSchema _ = Some s |- _ => rename H into Hs end.
  unfold spatialPrimaryAgentSlotSchema in Hs. cbn [slot_node_id] in Hs. inv_some. cbn [slot_node_id].
  by match goal with H : idSchema (scope_node_id n) = Some _ |- _ => apply idSchema_spec in H as [-> _] end.
Qed.

(** The slot [ensureSlot] returns is the one the repository then holds. *)
Lemma ensureSlot_get n now r r' s :
  scope_of n = Ok n -> ensureSlot n now r = (r', Ok s) -> getSlot n r' = Ok s.
Proof using laws.
  intros Hn. unfold ensureSlot, jbind, jread, jlift. rewrite Hn.
  destruct (jget (key (scope_node_id n)) (slots r)) eqn:Hget; [by intros [= <- ?]|].
  unfold createSlot, jbind at 1 2 3, jread, jlift. rewrite Hn. unfold jhas. rewrite Hget. cbn.
  unfold jbind. destruct (createPrimaryAgentSlot n None None now) as [s0|] eqn:Hc; [|done].
  pose proof (createPrimaryAgentSlot_node _ _ _ _ _ _ Hn Hc) as Hnode.
  pose proof (createPrimaryAgentSlot_ok _ _ _ _ _ Hc) as (Hfix & _ & Hun & Hnob).
  unfold insertSlot, jbind, jlift, jread, jwrite, jret. rewrite Hfix. cbn [of_option].
  rewrite Hnode. unfold jhas. rewrite Hget. cbn [require negb bool_decide]. intros H.
  destruct (assertBindingReference (bindings r) s0) as [[]|] eqn:Ha; [|done]. injection H as <- <-.
  unfold getSlot, assertPrimaryAgentSlotOwnership. rewrite Hn. cbn [rbind slots set_slots bindings].
  rewrite jget_jset_eq. cbn [of_option rbind]. rewrite Hnode, str_eqb_refl. cbn [require rbind].
  by rewrite Ha.
Qed.

(** A plan made by [createBindingPlan] passes the verification of
    [applyBindingPlan] unchanged (contract and hash), whatever the spelling
    and white space of its input, and is made for the revision, slot and
    Node of the slot the repository holds at that moment. *)
Theorem created_plan_verifies sc input now a a' p :
  createBindingPlan sc input now a = (a', Ok p) ->
  normalizePlan p = Ok p /\
  exists n s, scope_of sc = Ok n /\ getSlot n (api_repo a') = Ok s /\
    plan_slot_id (sp_plan p) = trim (slot_id s) /\ plan_expected_revision (sp_plan p) = slot_revision s /\
    plan_node_id (sp_plan p) = slot_node_id s.
Proof using laws.
  unfold createBindingPlan. intros H. inv_ok.
  match goal with H : bindingPlanFields _ = Some _ |- _ => rename H into Hp end.
  match goal with H : on_repo _ _ = _ |- _ => rename H into He end.
  match goal with H : scope_of sc = Ok ?n |- _ => rename H into Hsc; rename n into n0 end.
  split; [apply normalizePlan_signed; by eapply bindingPlanFields_idem|].
  unfold on_repo in He. destruct (ensureSlot n0 now (api_repo _)) as [r res] eqn:Hens.
  injection He as <- ->. apply ensureSlot_get in Hens; [|by eapply scope_of_idem].
  eexists n0, _. split; [done|]. split; [exact Hens|].
  apply getSlot_ok in Hens as (n1 & Hn1 & _ & Hnode & _).
  rewrite (scope_of_idem _ _ Hsc) in Hn1. injection Hn1 as <-. rewrite Hnode.
  unfold bindingPlanFields in Hp. inv_some. cbn [sp_plan plan_slot_id plan_expected_revision plan_node_id] in *.
  repeat match goal with H : idSchema _ = Some _ |- _ => apply idSchema_spec in H as [-> _] end.
  match goal with H : revisionSchema _ = Some _ |- _ => apply z_nonneg_sound in H as [-> _] end.
  by rewrite (scope_node_trim _ _ Hsc).
Qed.
End created_plan.

(** ** Event numbering under concurrency *)

(** The sequence numbers of a Node's events, in emission order. *)
Definition node_sequences (node : string) (l : list changed_event) : list Z :=
  map ce_sequence (filter (fun e => ce_node_id e = node) l).

Lemma node_sequences_app node l1 l2 :
  node_sequences node (l1 ++ l2) = node_sequences node l1 ++ node_sequences node l2.
Proof. unfold node_sequences. by rewrite filter_app, map_app. Qed.

(** [l] increases strictly and stays at or below [top]. *)
Definition increasing_to (top : Z) (l : list Z) : Prop :=
  StronglySorted Z.lt l /\ Forall (fun q => q <= top) l.

Lemma increasing_to_snoc top q l : increasing_to top l -> top < q -> increasing_to q (l ++ [q]).
Proof.
  intros [Hs Hle] Hq. induction Hs as [|x l Hs IH Hx]; simpl.
  - split; by repeat constructor.
  - apply Forall_cons in Hle as [Hxt Hle]. destruct (IH Hle) as [IHs IHle].
    split; constructor; [done| |lia|done]. apply Forall_app. split; [done|]. constructor; [lia | done].
Qed.

(** Every event is numbered at least by its revision, and a Node's events
    increase up to the number last given. *)
Definition numbered (a : api) : Prop :=
  Forall (fun e => ce_revision e <= ce_sequence e) (event_log a) /\
  forall node, increasing_to (default 0 (jget node (sequences a))) (node_sequences node (event_log a)).

Section numbering.
Context {zod : Zod}.

Lemma numbered_frame a a' :
  event_log a' = event_log a -> sequences a' = sequences a -> numbered a -> numbered a'.
Proof. unfold numbered. by intros -> ->. Qed.

Lemma on_repo_frame {A} (m : method repo error A) a a' res :
  on_repo m a = (a', res) -> a' = set_repo (api_repo a') a.
Proof. unfold on_repo. destruct (m (api_repo a)). by intros [= <- <-]. Qed.

Lemma createBindingPlan_frame sc input now a a' res :
  createBindingPlan sc input now a = (a', res) -> a' = set_repo (api_repo a') a.
Proof.
  unfold createBindingPlan, jbind, jlift, jret. intros H.
  destruct (scope_of sc); [|by destruct a; simplify_eq].
  destruct (on_repo _ a) as [a1 r1] eqn:Ho. apply on_repo_frame in Ho.
  destruct r1; [|by simplify_eq]. by repeat (case_match; simplify_eq).
Qed.

Lemma verifyHealth_frame sc now a a' res :
  verifyHealth sc now a = (a', res) -> a' = set_repo (api_repo a') a.
Proof.
  unfold verifyHealth, inspectSlot, jbind, jlift, jread, jret. intros H.
  destruct (on_repo _ a) as [a1 r1] eqn:Ho. apply on_repo_frame in Ho.
  destruct r1; [|by simplify_eq]. by repeat (case_match; simplify_eq).
Qed.

Lemma numbered_finish n p s m a a' res :
  applyBindingPlan_finish n p s m a = (a', res) -> numbered a -> numbered a'.
Proof.
  unfold applyBindingPlan_finish. intros [= <- _] [Hrev Hinc].
  set (q := Z.max _ _). assert (Hq : default 0 (jget (scope_node_id n) (sequences a)) < q) by lia.
  split; cbn [event_log sequences].
  - apply Forall_app. split; [done|]. constructor; [cbn; lia | done].
  - intros node. rewrite node_sequences_app, jget_jset. unfold str_eqb, node_sequences at 2, event_of.
    rewrite filter_cons. cbn [ce_node_id]. case_decide; case_bool_decide; try done; subst.
    + cbn. by eapply increasing_to_snoc.
    + cbn. by rewrite app_nil_r.
Qed.

Lemma numbered_step auth rauth c c' : api_step auth rauth c c' -> numbered c.1 -> numbered c'.1.
Proof.
  destruct 1 as [sc input now a ts a' res Hs|sc now a ts a' res Hs| | | |n p s m a ts1 ts2 a' res Hs]; simpl.
  - apply createBindingPlan_frame in Hs as ->. by apply numbered_frame.
  - apply verifyHealth_frame in Hs as ->. by apply numbered_frame.
  - done.
  - by apply numbered_frame.
  - by apply numbered_frame.
  - by eapply numbered_finish.
Qed.

(** Under every interleaving of plan creation, health checks and
    suspended [applyBindingPlan] calls, on any repository, the
    binding-changed events of a Node carry strictly increasing sequence
    numbers, and no event is numbered below the slot revision it announces. *)
Theorem event_sequences_increase auth rauth r c node :
  rtc (api_step auth rauth) (new_api r, []) c ->
  StronglySorted Z.lt (node_sequences node (event_log c.1)) /\
  Forall (fun e => ce_revision e <= ce_sequence e) (event_log c.1).
Proof.
  intros Hc. assert (Hn : numbered c.1).
  { eapply (rtc_ind_r (fun c => numbered c.1) (new_api r, [])), Hc.
    - split; [done|]. intros ?. split; constructor.
    - intros c1 c2 _ Hs. by eapply numbered_step. }
  destruct Hn as [Hrev Hinc]. split; [apply Hinc | done].
Qed.
End numbering.

(** ** Applying a plan *)

Section apply_plan.
Context {zod : Zod} {laws : ZodLaws zod}.

Lemma begin_ok auth sc input a b :
  applyBindingPlan_begin auth sc input a = Ok b ->
  exists n p s, scope_of sc = Ok n /\ normalizePlan input = Ok p /\
    plan_node_id (sp_plan p) = scope_node_id n /\ getSlot n (api_repo a) = Ok s /\
    slot_id s = plan_slot_id (sp_plan p) /\ plan_authorized auth n p s = true /\
    match b with
    | Replay res => jget (plan_idempotency_key (sp_plan p)) (appliedPlans a) = Some res /\
                    sp_hash (cr_plan res) = sp_hash p
    | Proceed n' p' s' => jget (plan_idempotency_key (sp_plan p)) (appliedPlans a) = None /\
                    n' = n /\ p' = p /\ s' = s
    end.
Proof.
  unfold applyBindingPlan_begin. intros H. inv_ok. rewrite str_eqb_eq in *.
  do 3 eexists. do 6 (split; [done|]).
  destruct (jget _ (appliedPlans a)); inv_ok; [by rewrite <-str_eqb_eq | done].
Qed.

(** A call that returns either answers from the record or commits one slot
    operation and records it. *)
Lemma applyBindingPlan_ok auth rauth now sc input a a' res :
  applyBindingPlan auth rauth now sc input a = (a', Ok res) ->
  (applyBindingPlan_begin auth sc input a = Ok (Replay res) /\ a' = a) \/
  (exists n p s r m, applyBindingPlan_begin auth sc input a = Ok (Proceed n p s) /\
     apply rauth now n (operation_of (sp_plan p)) (api_repo a) = (r, Ok m) /\
     applyBindingPlan_finish n p s m (set_repo r a) = (a', res)).
Proof.
  unfold applyBindingPlan, jbind, jread, jlift. intros H.
  destruct (applyBindingPlan_begin auth sc input a) as [[old|n p s]|e] eqn:Hb; [|right|done].
  - injection H as -> ->. by left.
  - unfold on_repo in H. destruct (apply rauth now n _ (api_repo a)) as [r [m|e]] eqn:Ha; [|done].
    destruct (applyBindingPlan_finish n p s m (set_repo r a)) as [a1 res1] eqn:Hf.
    injection H as -> ->. naive_solver.
Qed.

Lemma applied_recorded auth rauth now sc input a a' res p :
  applyBindingPlan auth rauth now sc input a = (a', Ok res) -> normalizePlan input = Ok p ->
  jget (plan_idempotency_key (sp_plan p)) (appliedPlans a') = Some res /\ sp_hash (cr_plan res) = sp_hash p.
Proof.
  intros [[Hb ->]|(n & q & s & r & m & Hb & _ & Hf)]%applyBindingPlan_ok Hp;
    apply begin_ok in Hb as (n' & p' & s' & _ & Hp' & _ & _ & _ & _ & Hm);
    rewrite Hp in Hp'; injection Hp' as <-; [done|].
  destruct Hm as (_ & -> & -> & ->). unfold applyBindingPlan_finish in Hf. injection Hf as <- <-.
  cbn [appliedPlans]. by rewrite jget_jset_eq.
Qed.

(** Once a plan was applied, submitting it again, whatever happened
    to the repository in between, returns the recorded result and does
    nothing: no slot operation, no event, no revocation callback. A plan
    with the same idempotency key and another hash is refused with
    IDEMPOTENCY_CONFLICT, also without effect. *)
Theorem applied_plan_replay auth rauth rauth' now now' sc input input' a a' res p p' n s r :
  applyBindingPlan auth rauth now sc input a = (a', Ok res) ->
  normalizePlan input = Ok p -> normalizePlan input' = Ok p' ->
  plan_idempotency_key (sp_plan p') = plan_idempotency_key (sp_plan p) ->
  scope_of sc = Ok n -> plan_node_id (sp_plan p') = scope_node_id n ->
  getSlot n r = Ok s -> slot_id s = plan_slot_id (sp_plan p') -> plan_authorized auth n p' s = true ->
  applyBindingPlan auth rauth' now' sc input' (set_repo r a') =
    (set_repo r a', if bool_decide (sp_hash p' = sp_hash p) then Ok res
                    else Err (Conflict IDEMPOTENCY_CONFLICT)).
Proof.
  intros Happ Hp Hp' Hkey Hsc Hnode Hs Hid Hauth.
  destruct (applied_recorded _ _ _ _ _ _ _ _ _ Happ Hp) as [Hrec Hhash].
  unfold applyBindingPlan, jbind, jread, jlift, applyBindingPlan_begin. rewrite Hsc, Hp'. cbn [rbind].
  rewrite Hnode, str_eqb_refl. cbn [require rbind api_repo set_repo]. rewrite Hs. cbn [rbind].
  rewrite Hid, str_eqb_refl, Hauth. cbn [require rbind]. cbn [appliedPlans set_repo].
  rewrite Hkey, Hrec, Hhash.
  unfold str_eqb. repeat case_bool_decide; simplify_eq; done.
Qed.

Lemma plan_operation_cases p : bindingPlanFields p = Some p -> plan_operation p ∈ BINDING_OPERATIONS.
Proof.
  intros H. unfold bindingPlanFields in H.
  repeat match goal with H : base.mbind _ _ = Some _ |- _ => apply bind_Some in H as (? & ? & ?) end.
  match goal with H : Some _ = Some p, Ho : operationSchema _ = Some _ |- _ =>
    injection H as <-; unfold operationSchema in Ho; revert Ho end.
  case_bool_decide; [|done]. by intros [= <-].
Qed.

(** The operations outside the list of [applyBindingPlan] keep the binding,
    or start from a slot that has none. *)
Lemma unlisted_keeps_binding p s b t next :
  plan_operation p ∈ ["bind"; "suspend"; "recover"] ->
  assertOperationTransition s (operation_of p) = Ok tt ->
  slotForOperation s (operation_of p) b t = Ok next ->
  truthy (current_binding_id s) = false \/ current_binding_id next = current_binding_id s.
Proof.
  unfold assertOperationTransition, slotForOperation, operation_of, operationKind.
  cbn [op_kind op_lifecycle]. intros Hop Htr Hnext.
  repeat (apply elem_of_cons in Hop as [Hop|Hop]); [| | |set_solver]; rewrite Hop in *; cbn in Htr, Hnext.
  - left. apply require_ok, andb_true_iff in Htr as [_ Htr%negb_true_iff]. done.
  - right. by injection Hnext as <-.
  - right. by destruct (truthy _); injection Hnext as <-.
Qed.

Lemma removed_binding_exact p s m b t :
  plan_operation (sp_plan p) ∈ BINDING_OPERATIONS ->
  assertOperationTransition s (operation_of (sp_plan p)) = Ok tt ->
  slotForOperation s (operation_of (sp_plan p)) b t = Ok (mut_slot m) ->
  removed_binding p s m =
    match current_binding_id s with
    | Some b => if bool_decide (b <> "" /\ current_binding_id (mut_slot m) <> Some b) then Some b else None
    | None => None
    end.
Proof.
  intros Hop Htr Hnext. unfold removed_binding. destruct (current_binding_id s) as [b0|] eqn:Hcur; [|done].
  cbn [truthy]. unfold str_eqb. case_bool_decide as Hb0; cbn [negb andb].
  { by rewrite bool_decide_eq_false_2 by naive_solver. }
  destruct (decide (plan_operation (sp_plan p) ∈ ["replace"; "detach"; "revoke"])) as [Hin|Hin].
  - rewrite (bool_decide_eq_true_2 _ Hin). cbn [andb]. repeat case_bool_decide; naive_solver.
  - rewrite (bool_decide_eq_false_2 _ Hin). cbn [andb]. rewrite bool_decide_eq_false_2; [done|].
    destruct (unlisted_keeps_binding (sp_plan p) s b t (mut_slot m)) as [Hf|Hk]; [|done..| |].
    + unfold BINDING_OPERATIONS in Hop. set_solver.
    + rewrite Hcur in Hf. cbn in Hf. unfold str_eqb in Hf. by case_bool_decide.
    + rewrite Hk, Hcur. naive_solver.
Qed.

(** The owner learns of every binding that loses the slot, exactly
    once and of no other: when a plan is carried out (not answered from a
    record), [onBindingRevoked] is called with the binding the slot had
    before if the slot no longer has it, and is not called otherwise. *)
Theorem removal_notified auth rauth now sc input a a' res p n s :
  applyBindingPlan auth rauth now sc input a = (a', Ok res) ->
  normalizePlan input = Ok p -> scope_of sc = Ok n -> getSlot n (api_repo a) = Ok s ->
  jget (plan_idempotency_key (sp_plan p)) (appliedPlans a) = None ->
  jget (plan_idempotency_key (sp_plan p)) (operations (api_repo a)) = None ->
  revoked_log a' = revoked_log a ++
    match current_binding_id s with
    | Some b => if bool_decide (b <> "" /\ current_binding_id (mut_slot (cr_mutation res)) <> Some b)
                then [(b, mut_slot (cr_mutation res))] else []
    | None => []
    end.
Proof.
  intros [[Hb ->]|(n' & q & s' & r & m & Hb & Ha & Hf)]%applyBindingPlan_ok Hp Hsc Hs Hfresh Hrfresh;
    apply begin_ok in Hb as (n1 & p1 & s1 & Hsc1 & Hp1 & _ & Hs1 & _ & _ & Hm);
    rewrite Hp in Hp1; injection Hp1 as <-; [destruct Hm; congruence|].
  destruct Hm as (_ & -> & -> & ->). rewrite Hsc in Hsc1. injection Hsc1 as <-.
  rewrite Hs in Hs1. injection Hs1 as <-.
  unfold applyBindingPlan_finish in Hf. injection Hf as <- <-. cbn [revoked_log set_repo cr_mutation].
  apply normalizePlan_ok in Hp as [Hop%plan_operation_cases _].
  apply apply_split in Ha as (n2 & s2 & Hb & Ha).
  apply apply_begin_ok in Hb as (Hn2 & _ & Hs2).
  rewrite (scope_of_idem _ _ Hsc) in Hn2. injection Hn2 as <-. rewrite Hs in Hs2. injection Hs2 as <-.
  apply apply_commit_ok in Ha as [(e & He & _)|(_ & _ & _ & Htr & b & t & cur & _ & _ & _ & _ & Hnext & _)].
  { cbn [operation_of op_idempotency_key] in He. congruence. }
  rewrite (removed_binding_exact _ _ _ _ _ Hop Htr Hnext).
  destruct (current_binding_id s); [case_bool_decide|]; by rewrite ?app_nil_r.
Qed.
End apply_plan.

(** ** Concrete plans *)

Definition wb_binding : binding := Binding "b-1" "node-1" "agent-1" "runtime-1" 0 None.
Definition wb_bind : plan_input :=
  PlanInput " Bind " "operator" "key-1" (Some wb_binding) None None None (Some "p1185319") None.
Definition wb_revoke : plan_input :=
  PlanInput "revoke" "operator" "key-1" None None None None (Some "q121116") None.
Definition wb_api0 : api := new_api w_repo0.
Definition wb_plan (i : plan_input) (a : api) : signed_plan :=
  match (createBindingPlan (zod := zod_ref) w_scope i (Some 2000) a).2 with
  | Ok p => p
  | Err _ => Signed (Plan "" "" "" 0 "" "" "" None None None None 0 None) ""
  end.
Definition wb_run (p : signed_plan) (a : api) : api * result error command_result :=
  applyBindingPlan (zod := zod_ref) None None (Some 3000) w_scope p a.
Definition wb_api1 : api := (wb_run (wb_plan wb_bind wb_api0) wb_api0).1.

(** The plan hash is labelled sha256 but has 32 bits, and the replay
    check compares hashes only: a revoke plan whose hash collides with that of
    an applied bind plan of the same idempotency key is answered with the
    result of the bind, although both plans verify and the slot stays bound. *)
Theorem plan_hash_collision :
  let bind := wb_plan wb_bind wb_api0 in
  let revoke := wb_plan wb_revoke wb_api0 in
  normalizePlan (zod := zod_ref) bind = Ok bind /\ normalizePlan (zod := zod_ref) revoke = Ok revoke /\
  plan_operation (sp_plan bind) = "bind" /\ plan_operation (sp_plan revoke) = "revoke" /\
  sp_hash bind = sp_hash revoke /\
  exists res, wb_run bind wb_api0 = (wb_api1, Ok res) /\ wb_run revoke wb_api1 = (wb_api1, Ok res) /\
    current_binding_id (mut_slot (cr_mutation res)) = Some "b-1".
Proof.
  cbv zeta. do 5 (split; [by vm_compute|]). eexists. split; [|split]; by vm_compute.
Qed.

Lemma created_plan_verifies_witness :
  let p := wb_plan wb_bind wb_api0 in
  normalizePlan (zod := zod_ref) p = Ok p /\
  exists n s, scope_of (zod := zod_ref) w_scope = Ok n /\
    getSlot (zod := zod_ref) n (api_repo (createBindingPlan (zod := zod_ref) w_scope wb_bind (Some 2000) wb_api0).1) = Ok s /\
    plan_slot_id (sp_plan p) = trim (slot_id s) /\ plan_expected_revision (sp_plan p) = slot_revision s /\
    plan_node_id (sp_plan p) = slot_node_id s.
Proof.
  intros p. apply (created_plan_verifies (zod := zod_ref) w_scope wb_bind (Some 2000) wb_api0). by vm_compute.
Defined.

Definition wb_norm_slot (a : api) : slot := w_slot_of (api_repo a).
Definition wb_detach : plan_input := PlanInput "DETACH" "operator" "key-2" None None None None None None.
Definition wb_ok (p : api * result error command_result) : command_result :=
  match p.2 with
  | Ok r => r
  | Err _ => CommandResult (wb_plan wb_bind wb_api0) (w_result (w_apply w_bind w_repo0))
               (Audit "" "" "" "" "" 0 0) (ChangedEvent "" "" 0 0 0 None None (w_slot_of w_repo0))
  end.

Lemma removal_notified_witness :
  let p := wb_plan wb_detach wb_api1 in
  revoked_log (wb_run p wb_api1).1 = [("b-1", mut_slot (cr_mutation (wb_ok (wb_run p wb_api1))))].
Proof.
  intros p.
  rewrite (removal_notified (zod := zod_ref) None None (Some 3000) w_scope p wb_api1 (wb_run p wb_api1).1
             (wb_ok (wb_run p wb_api1)) p w_norm (wb_norm_slot wb_api1)); by vm_compute.
Defined.

