(* ===== verification/Delivery.v ===== *)
(** * Hook delivery to the Primary Agent (data/primary-agent-delivery.ts)

    [service] is the state of [InMemoryPrimaryAgentDeliveryService]: capability
    grants, hook subscriptions, the durable inbox, the deliveries made and the
    event index. Every public method is modelled. The slot repository is seen
    through the interface [SlotSource], whose instance is the repository of
    Slot.v. Inbox records and subscriptions are shared mutable objects in the
    source: a mutation is written back under the object's key at the point
    where the source makes it, also when a later line throws. *)

From S2P Require Import Prelude Json Contracts Slot SlotProps.
From stdpp Require Import pretty.

#[local] Open Scope Z_scope.

(** ** Data *)

Inductive delivery_state : Type := PENDING | DELIVERED | ACKED | DEAD_LETTER.
#[export] Instance delivery_state_eq_dec : EqDecision delivery_state.
Proof. solve_decision. Defined.

Inductive hook_state : Type := HOOK_ACTIVE | HOOK_PAUSED | HOOK_IS_REVOKED.
#[export] Instance hook_state_eq_dec : EqDecision hook_state.
Proof. solve_decision. Defined.

Record profile : Type := Profile {
  profile_id : string;
  redact_keys : list string;
  redact_paths : option (list string);
  replacement : option string;
}.

Record hook_filter : Type := HookFilter {
  f_event_types : option (list string);
  f_resource_refs : option (list string);
  f_severities : option (list attention_severity);
}.

Record subscription : Type := Subscription {
  subscription_id : string;
  sub_node_id : string;
  sub_binding_id : string;
  sub_revision : Z;
  sub_filter : hook_filter;
  sub_profile : profile;
  delivery_cursor : Z;
  sub_state : hook_state;
  sub_created_at : iso;
  sub_updated_at : iso;
}.

(** [PrimaryAgentInboxEvent]; [resource_ref] absent and [null] are the same to
    every use of the field. *)
Record inbox_event : Type := InboxEvent {
  ie_event_id : string;
  ie_node_id : string;
  ie_event_type : string;
  ie_resource_ref : option string;
  ie_severity : option attention_severity;
  ie_sequence : Z;
  ie_payload : json;
  ie_occurred_at : option iso;
}.

(** [InternalInboxRecord]. *)
Record inbox_record : Type := InboxRecord {
  inbox_id : string;
  rec_event_id : string;
  rec_node_id : string;
  rec_slot_id : string;
  rec_binding_id : option string;
  rec_event_type : string;
  rec_resource_ref : option string;
  rec_severity : attention_severity;
  rec_sequence : Z;
  rec_state : delivery_state;
  attempts : Z;
  available_at : iso;
  last_delivery_id : option string;
  last_error : option string;
  rec_payload : json;
}.

(** [PrimaryAgentInboxRecord]: what callers see, without the payload. *)
Record public_record : Type := PublicRecord {
  pub_inbox_id : string;
  pub_event_id : string;
  pub_node_id : string;
  pub_slot_id : string;
  pub_binding_id : option string;
  pub_event_type : string;
  pub_resource_ref : option string;
  pub_severity : attention_severity;
  pub_sequence : Z;
  pub_state : delivery_state;
  pub_attempts : Z;
  pub_available_at : iso;
  pub_last_delivery_id : option string;
  pub_last_error : option string;
}.

Definition publicRecord (r : inbox_record) : public_record :=
  PublicRecord (inbox_id r) (rec_event_id r) (rec_node_id r) (rec_slot_id r) (rec_binding_id r)
    (rec_event_type r) (rec_resource_ref r) (rec_severity r) (rec_sequence r) (rec_state r) (attempts r)
    (available_at r) (last_delivery_id r) (last_error r).

Record delivery : Type := Delivery {
  delivery_id : string;
  del_inbox_id : string;
  del_event_id : string;
  del_node_id : string;
  del_slot_id : string;
  del_binding_id : string;
  del_event_type : string;
  del_resource_ref : option string;
  del_severity : attention_severity;
  del_sequence : Z;
  del_attempt : Z;
  del_payload : json;
  delivered_at : iso;
  del_redaction_ref : string;
}.

Record grant_event : Type := GrantEvent {
  ge_event_id : string;
  ge_node_id : string;
  ge_sequence : Z;
  ge_revision : Z;
  ge_occurred_at : iso;
  ge_payload : grant;
}.

Inductive delivery_code : Type :=
| D_NODE_MISMATCH | D_NOT_FOUND | D_UNAUTHORIZED | D_GRANT_REVOKED
| D_HOOK_REVOKED | D_ACK_CONFLICT | D_FILTERED | D_VALIDATION.

(** What the service throws: its own conflict, a ZodError, or an error of the
    slot repository. *)
Inductive delivery_error : Type :=
| DConflict (c : delivery_code)
| DZod
| DSlot (e : error).

Record service : Type := Service {
  maxAttempts : Z;
  grants : jsmap grant;
  subscriptions : jsmap subscription;
  inbox : jsmap inbox_record;
  deliveries : jsmap delivery;
  grantSequences : jsmap Z;
  eventRecords : jsmap string;
  grant_log : list grant_event;
}.

Definition set_grants (g : jsmap grant) (s : service) : service :=
  Service (maxAttempts s) g (subscriptions s) (inbox s) (deliveries s) (grantSequences s) (eventRecords s) (grant_log s).
Definition set_subscriptions (m : jsmap subscription) (s : service) : service :=
  Service (maxAttempts s) (grants s) m (inbox s) (deliveries s) (grantSequences s) (eventRecords s) (grant_log s).
Definition set_inbox (m : jsmap inbox_record) (s : service) : service :=
  Service (maxAttempts s) (grants s) (subscriptions s) m (deliveries s) (grantSequences s) (eventRecords s) (grant_log s).
Definition set_deliveries (m : jsmap delivery) (s : service) : service :=
  Service (maxAttempts s) (grants s) (subscriptions s) (inbox s) m (grantSequences s) (eventRecords s) (grant_log s).
Definition set_grantSequences (m : jsmap Z) (s : service) : service :=
  Service (maxAttempts s) (grants s) (subscriptions s) (inbox s) (deliveries s) m (eventRecords s) (grant_log s).
Definition set_eventRecords (m : jsmap string) (s : service) : service :=
  Service (maxAttempts s) (grants s) (subscriptions s) (inbox s) (deliveries s) (grantSequences s) m (grant_log s).
Definition add_grant_event (e : grant_event) (s : service) : service :=
  Service (maxAttempts s) (grants s) (subscriptions s) (inbox s) (deliveries s) (grantSequences s) (eventRecords s)
    (grant_log s ++ [e]).

(** [structuredClone] with some fields of an inbox record assigned. *)
Definition set_record (r : inbox_record) (st : delivery_state) (att : Z) (avail : iso)
    (last err : option string) : inbox_record :=
  InboxRecord (inbox_id r) (rec_event_id r) (rec_node_id r) (rec_slot_id r) (rec_binding_id r)
    (rec_event_type r) (rec_resource_ref r) (rec_severity r) (rec_sequence r) st att avail last err (rec_payload r).

Definition set_subscription (s : subscription) (rev cursor : Z) (st : hook_state) (updated : iso) : subscription :=
  Subscription (subscription_id s) (sub_node_id s) (sub_binding_id s) rev (sub_filter s) (sub_profile s)
    cursor st (sub_created_at s) updated.

(** ** The repository as the service uses it *)

(** The service only ever reads the slot of a scope. *)
Class SlotSource : Type := read_slot : scope -> result error slot.

(** What it relies on: the slot belongs to the Node asked for. *)
Class SlotSourceLaws {zod : Zod} (src : SlotSource) : Prop :=
  read_slot_node : forall sc n s,
    scope_of sc = Ok n -> read_slot sc = Ok s -> slot_node_id s = scope_node_id n.

(** The repository of Slot.v is such a source. *)
Definition repo_source {zod : Zod} (r : repo) : SlotSource := fun sc => getSlot sc r.

#[export] Instance repo_source_laws {zod : Zod} (r : repo) : SlotSourceLaws (repo_source r).
Proof.
  intros sc n s Hsc (n' & Hn' & _ & Hnode & _)%getSlot_ok. rewrite Hsc in Hn'. by injection Hn' as <-.
Qed.

(** ** Pure helpers *)

(** [text(value, label)]. *)
Definition d_text (s : string) : result delivery_error string :=
  if str_eqb (trim s) "" then Err (DConflict D_VALIDATION) else Ok (trim s).

Definition d_now (now : date) : result delivery_error iso := of_option now DZod.

Definition d_optional {A B} (f : A -> result delivery_error B) (o : option A) : result delivery_error (option B) :=
  match o with Some a => let? b := f a in Ok (Some b) | None => Ok None end.

(** [safeFilter]. *)
Definition safeFilter (f : option hook_filter) : result delivery_error hook_filter :=
  match f with
  | None => Ok (HookFilter None None None)
  | Some f =>
      let? types := d_optional (rmap d_text) (f_event_types f) in
      let? refs := d_optional (rmap d_text) (f_resource_refs f) in
      Ok (HookFilter types refs (f_severities f))
  end.

(** A filter list that is absent or empty lets everything through. *)
Definition passes {A} `{EqDecision A} (allowed : option (list A)) (v : A) : bool :=
  match allowed with
  | Some (x :: l) => bool_decide (v ∈ x :: l)
  | _ => true
  end.

Definition matchesFilter (f : hook_filter) (event_type : string) (resource_ref : option string)
    (severity : option attention_severity) : bool :=
  passes (f_event_types f) event_type
  && passes (f_resource_refs f) (default "" resource_ref)
  && passes (f_severities f) (default SEV_NONE severity).

Definition child_path (path key : string) : string :=
  if str_eqb path "" then key else path +:+ "." +:+ key.

Definition profile_replacement (p : profile) : json := JStr (default "[REDACTED]" (replacement p)).

Definition key_hit (p : profile) (key : string) : bool :=
  bool_decide (to_lower key ∈ map to_lower (redact_keys p)).

Definition path_hit (p : profile) (path : string) : bool :=
  bool_decide (to_lower path ∈ map to_lower (default [] (redact_paths p))).

(** [redactValue(value, profile, path)]. *)
Fixpoint redactValue (p : profile) (path : string) (v : json) : json :=
  if path_hit p path then profile_replacement p else
  match v with
  | JArr l =>
      JArr (map_index (fun index item => redactValue p (child_path path (pretty index)) item) 0%N l)
  | JObj l =>
      JObj (map (fun kv =>
              let nextPath := child_path path kv.1 in
              (kv.1, if key_hit p kv.1 || path_hit p nextPath then profile_replacement p
                     else redactValue p nextPath kv.2)) l)
  | v => v
  end.

Definition default_profile : profile :=
  Profile "redaction-default" ["secret"; "token"; "password"; "private_key"; "credential"; "authorization"]
    None (Some "[REDACTED]").

(** [[...records].sort((l, r) => l.sequence - r.sequence)], which is stable. *)
Fixpoint insert_record (r : inbox_record) (l : list inbox_record) : list inbox_record :=
  match l with
  | [] => [r]
  | r' :: l' => if bool_decide (rec_sequence r <= rec_sequence r') then r :: l else r' :: insert_record r l'
  end.
Fixpoint sort_records (l : list inbox_record) : list inbox_record :=
  match l with
  | [] => []
  | r :: l => insert_record r (sort_records l)
  end.

(** [[...new Set(values)]] on enumeration values. *)
Fixpoint unique_categories (l : list capability_category) : list capability_category :=
  match l with
  | [] => []
  | c :: l => c :: filter (fun c' => c' <> c) (unique_categories l)
  end.

Definition event_key (node_id event_id : string) : string := node_id +:+ ":" +:+ event_id.

(** ** Methods *)

Section delivery.
Context {zod : Zod} {src : SlotSource}.

Definition d_scope (sc : scope) : result delivery_error scope :=
  of_option (normalizeSpatialNodeScope sc) DZod.

(** [this.slot(scope)]. *)
Definition d_slot (sc : scope) : result delivery_error slot :=
  let? n := d_scope sc in
  match read_slot n with
  | Ok s => Ok s
  | Err e => Err (DSlot e)
  end.

Definition activeBinding (s : slot) (bindingId : string) : result delivery_error unit :=
  require (truthy (current_binding_id s) && bool_decide (current_binding_id s = Some bindingId))
    (DConflict D_UNAUTHORIZED) ;?
  require (negb (is_free_state (lifecycle_state s))) (DConflict D_UNAUTHORIZED).

(** A comparison with an invalid clock is false. *)
Definition grant_expired (g : grant) (now : date) : bool :=
  match grant_expires_at g, now with
  | Some e, Some t => bool_decide (e <= t)
  | _, _ => false
  end.

Definition activeGrant (s : slot) (bindingId : string) (now : date) (gs : jsmap grant)
  : result delivery_error grant :=
  let revoked := DConflict D_GRANT_REVOKED in
  require (truthy (slot_grant_ref s)) revoked ;?
  let? g := of_option (jget (default "" (slot_grant_ref s)) gs) revoked in
  require (str_eqb (grant_binding_id g) bindingId && bool_decide (grant_status g = G_ACTIVE)) revoked ;?
  require (negb (grant_expired g now)) revoked ;?
  Ok g.

Record grant_input : Type := GrantInput {
  gi_grant_id : string;
  gi_binding_id : string;
  gi_categories : list capability_category;
  gi_tools : list string;
  gi_redaction : option string;
  gi_issued_by : string;
  gi_expires_at : option date;
}.

(** Store a grant, number the event of its Node and call [onGrantEvent]. *)
Definition record_grant (node : string) (g : grant) (timestamp : iso) : method service delivery_error grant_event :=
  let! s := jread in
  let sequence := default 0 (jget node (grantSequences s)) + 1 in
  let event := GrantEvent (grant_id g +:+ ":grant:" +:+ pretty (grant_revision g)) node sequence
                 (grant_revision g) timestamp g in
  jwrite (add_grant_event event
            (set_grantSequences (jset node sequence (grantSequences s))
               (set_grants (jset (grant_id g) g (grants s)) s))) ;!
  jret event.

Definition issueGrant (sc : scope) (input : grant_input) (now : date)
  : method service delivery_error (grant * grant_event) :=
  let! n := jlift (d_scope sc) in
  let! sl := jlift (d_slot n) in
  jlift (activeBinding sl (gi_binding_id input)) ;!
  let! timestamp := jlift (d_now now) in
  let! s := jread in
  let! id := jlift (d_text (gi_grant_id input)) in
  let! bid := jlift (d_text (gi_binding_id input)) in
  let revision := default 0 (grant_revision <$> jget (gi_grant_id input) (grants s)) + 1 in
  let! tools := jlift (rmap d_text (unique (gi_tools input))) in
  let! issuer := jlift (d_text (gi_issued_by input)) in
  let! expires := jlift (d_optional d_now (gi_expires_at input)) in
  let candidate := Grant id (scope_node_id n) bid revision (unique_categories (gi_categories input)) tools
                     (gi_redaction input) G_ACTIVE timestamp issuer expires in
  let! g := jlift (of_option (spatialPrimaryAgentGrantSchema candidate) (DConflict D_VALIDATION)) in
  let! event := record_grant (scope_node_id n) g timestamp in
  jret (g, event).

Definition revokeGrant (sc : scope) (grantId issuedBy : string) (now : date)
  : method service delivery_error grant :=
  let! n := jlift (d_scope sc) in
  let! id := jlift (d_text grantId) in
  let! s := jread in
  let! cur := jlift (of_option (jget id (grants s)) (DConflict D_NOT_FOUND)) in
  jlift (require (str_eqb (grant_node_id cur) (scope_node_id n)) (DConflict D_NOT_FOUND)) ;!
  let! timestamp := jlift (d_now now) in
  let! issuer := jlift (d_text issuedBy) in
  let next := Grant (grant_id cur) (grant_node_id cur) (grant_binding_id cur) (grant_revision cur + 1)
                (grant_categories cur) (allowlisted_tools cur) (redaction_profile_ref cur) G_REVOKED
                timestamp issuer (grant_expires_at cur) in
  let sequence := default 0 (jget (scope_node_id n) (grantSequences s)) + 1 in
  let event := GrantEvent (grant_id next +:+ ":grant:" +:+ pretty (grant_revision next)) (scope_node_id n)
                 sequence (grant_revision next) timestamp next in
  jwrite (add_grant_event event
            (set_grantSequences (jset (scope_node_id n) sequence (grantSequences s))
               (set_grants (jset id next (grants s)) s))) ;!
  jret next.

Definition getGrant (grantId : string) (s : service) : result delivery_error (option grant) :=
  let? id := d_text grantId in Ok (jget id (grants s)).

Definition subscribe (sc : scope) (sub_id bindingId : string) (filter_ : option hook_filter)
    (prof : option profile) (now : date) : method service delivery_error subscription :=
  let! n := jlift (d_scope sc) in
  let! sl := jlift (d_slot n) in
  jlift (activeBinding sl bindingId) ;!
  let! s := jread in
  jlift (activeGrant sl bindingId now (grants s)) ;!
  let! timestamp := jlift (d_now now) in
  let! id := jlift (d_text sub_id) in
  let! bid := jlift (d_text bindingId) in
  let revision := default 0 (sub_revision <$> jget sub_id (subscriptions s)) + 1 in
  let! f := jlift (safeFilter filter_) in
  let sub := Subscription id (scope_node_id n) bid revision f (default default_profile prof) 0
               HOOK_ACTIVE timestamp timestamp in
  jwrite (set_subscriptions (jset id sub (subscriptions s)) s) ;!
  jret sub.

Definition setSubscriptionState (sc : scope) (sub_id : string) (st : hook_state) (now : date)
  : method service delivery_error subscription :=
  let! n := jlift (d_scope sc) in
  let! id := jlift (d_text sub_id) in
  let! s := jread in
  let! cur := jlift (of_option (jget id (subscriptions s)) (DConflict D_NOT_FOUND)) in
  jlift (require (str_eqb (sub_node_id cur) (scope_node_id n)) (DConflict D_NOT_FOUND)) ;!
  let! timestamp := jlift (d_now now) in
  let next := set_subscription cur (sub_revision cur + 1) (delivery_cursor cur) st timestamp in
  jwrite (set_subscriptions (jset id next (subscriptions s)) s) ;!
  jret next.

Definition getSubscription (sub_id : string) (s : service) : result delivery_error (option subscription) :=
  let? id := d_text sub_id in Ok (jget id (subscriptions s)).

(** The loop body of [onBindingRevoked], on one entry of the map. *)
Definition revoke_subscription (id : string) (now : date) (e : string * subscription)
  : method service delivery_error unit :=
  if str_eqb (sub_binding_id e.2) id then
    let! timestamp := jlift (d_now now) in
    let! s := jread in
    jwrite (set_subscriptions
      (jset e.1 (set_subscription e.2 (sub_revision e.2 + 1) (delivery_cursor e.2) HOOK_IS_REVOKED timestamp)
         (subscriptions s)) s)
  else jret tt.

Definition onBindingRevoked (bindingId : string) (now : date) : method service delivery_error unit :=
  let! id := jlift (d_text bindingId) in
  let! s := jread in
  jforeach (revoke_subscription id now) (subscriptions s).

Definition publish (sc : scope) (event : inbox_event) (now : date) : method service delivery_error public_record :=
  let! n := jlift (d_scope sc) in
  let! sl := jlift (d_slot n) in
  jlift (require (str_eqb (ie_node_id event) (scope_node_id n)) (DConflict D_NODE_MISMATCH)) ;!
  let! eventId := jlift (d_text (ie_event_id event)) in
  let! s := jread in
  let k := event_key (scope_node_id n) eventId in
  let existing := match jget k (eventRecords s) with
                  | Some existingId => if truthy (Some existingId) then jget existingId (inbox s) else None
                  | None => None
                  end in
  match existing with
  | Some r => jret (publicRecord r)
  | None =>
      let! timestamp := jlift (match ie_occurred_at event with Some t => Ok t | None => d_now now end) in
      let inboxId := slot_id sl +:+ ":inbox:" +:+ eventId in
      let! ty := jlift (d_text (ie_event_type event)) in
      let! seq := jlift (of_option (revisionSchema (ie_sequence event)) DZod) in
      let r := InboxRecord inboxId eventId (scope_node_id n) (slot_id sl) (current_binding_id sl) ty
                 (ie_resource_ref event) (default SEV_NONE (ie_severity event)) seq PENDING 0 timestamp
                 None None (ie_payload event) in
      jwrite (set_eventRecords (jset k inboxId (eventRecords s))
                (set_inbox (jset inboxId r (inbox s)) s)) ;!
      jret (publicRecord r)
  end.

(** The records [readInbox] considers for a binding. *)
Definition eligible (node id : string) (now : date) (sub : subscription) (r : inbox_record) : bool :=
  str_eqb (rec_node_id r) node && bool_decide (rec_binding_id r = Some id)
  && bool_decide (rec_state r = PENDING)
  && match now with Some t => bool_decide (available_at r <= t) | None => true end
  && matchesFilter (sub_filter sub) (rec_event_type r) (rec_resource_ref r) (Some (rec_severity r)).

Definition delivery_of (id : string) (g : grant) (sub : subscription) (r : inbox_record) (at_ : iso) : delivery :=
  Delivery (inbox_id r +:+ ":delivery:" +:+ pretty (attempts r)) (inbox_id r) (rec_event_id r) (rec_node_id r)
    (rec_slot_id r) id (rec_event_type r) (rec_resource_ref r) (rec_severity r) (rec_sequence r) (attempts r)
    (redactValue (sub_profile sub) "" (rec_payload r)) at_
    (default (profile_id (sub_profile sub)) (redaction_profile_ref g)).

(** The loop of [readInbox]: [sub_key] is the key of the subscription found,
    [out] the deliveries so far. *)
Fixpoint readInbox_loop (node id : string) (now : date) (limit : Z) (g : grant) (sub_key : string)
    (sub : subscription) (records : list inbox_record) (out : list delivery)
  : method service delivery_error (list delivery * subscription) :=
  match records with
  | [] => jret (out, sub)
  | r :: records =>
      if bool_decide (Z.max 1 limit <= Z.of_nat (length out)) then jret (out, sub)
      else if negb (eligible node id now sub r) then readInbox_loop node id now limit g sub_key sub records out
      else
        let! s := jread in
        if bool_decide (maxAttempts s <= attempts r) then
          let r' := set_record r DEAD_LETTER (attempts r) (available_at r) (last_delivery_id r)
                      (Some "delivery attempts exhausted") in
          jwrite (set_inbox (jset (inbox_id r) r' (inbox s)) s) ;!
          readInbox_loop node id now limit g sub_key sub records out
        else
          let deliveryId := inbox_id r +:+ ":delivery:" +:+ pretty (attempts r + 1) in
          let r' := set_record r DELIVERED (attempts r + 1) (available_at r) (Some deliveryId) (last_error r) in
          jwrite (set_inbox (jset (inbox_id r) r' (inbox s)) s) ;!
          let! at_ := jlift (d_now now) in
          let d := delivery_of id g sub r' at_ in
          let sub' := set_subscription sub (sub_revision sub) (Z.max (delivery_cursor sub) (rec_sequence r))
                        (sub_state sub) at_ in
          let! s := jread in
          jwrite (set_subscriptions (jset sub_key sub' (subscriptions s))
                    (set_deliveries (jset deliveryId d (deliveries s)) s)) ;!
          readInbox_loop node id now limit g sub_key sub' records (out ++ [d])
  end.

Definition readInbox (sc : scope) (bindingId : string) (limit : Z) (now : date)
  : method service delivery_error (list delivery) :=
  let! n := jlift (d_scope sc) in
  let! sl := jlift (d_slot n) in
  let! id := jlift (d_text bindingId) in
  jlift (activeBinding sl id) ;!
  let! s := jread in
  let! g := jlift (activeGrant sl id now (grants s)) in
  let! sub := jlift (of_option
    (list_find (fun e : string * subscription =>
       sub_node_id e.2 = scope_node_id n /\ sub_binding_id e.2 = id /\ sub_state e.2 = HOOK_ACTIVE)
       (subscriptions s)) (DConflict D_HOOK_REVOKED)) in
  let! out := readInbox_loop (scope_node_id n) id now limit g (sub.2.1) (sub.2.2)
                (sort_records (jvalues (inbox s))) [] in
  let! s' := jread in
  jwrite (set_subscriptions (jset (subscription_id out.2) out.2 (subscriptions s')) s') ;!
  jret out.1.

Definition acknowledge (sc : scope) (bindingId deliveryId : string) : method service delivery_error public_record :=
  let! n := jlift (d_scope sc) in
  let! sl := jlift (d_slot n) in
  let! id := jlift (d_text bindingId) in
  jlift (activeBinding sl id) ;!
  let! did := jlift (d_text deliveryId) in
  let! s := jread in
  let! d := jlift (of_option (jget did (deliveries s)) (DConflict D_NOT_FOUND)) in
  jlift (require (str_eqb (del_node_id d) (scope_node_id n)) (DConflict D_NOT_FOUND)) ;!
  jlift (require (str_eqb (del_binding_id d) id) (DConflict D_ACK_CONFLICT)) ;!
  let! r := jlift (of_option (jget (del_inbox_id d) (inbox s)) (DConflict D_NOT_FOUND)) in
  if bool_decide (rec_state r = ACKED) then jret (publicRecord r)
  else
    jlift (require (bool_decide (rec_state r = DELIVERED)) (DConflict D_ACK_CONFLICT)) ;!
    let r' := set_record r ACKED (attempts r) (available_at r) (last_delivery_id r) (last_error r) in
    jwrite (set_inbox (jset (del_inbox_id d) r' (inbox s)) s) ;!
    jret (publicRecord r').

(** The record of an event, when it was captured for this binding. *)
Definition bound_record (node id eventId : string) (s : service) : result delivery_error (string * inbox_record) :=
  let missing := DConflict D_NOT_FOUND in
  let? inboxId := of_option (jget (event_key node eventId) (eventRecords s)) missing in
  require (truthy (Some inboxId)) missing ;?
  let? r := of_option (jget inboxId (inbox s)) missing in
  require (bool_decide (rec_binding_id r = Some id)) missing ;?
  Ok (inboxId, r).

Definition retry (sc : scope) (bindingId eventId : string) (now : date) : method service delivery_error public_record :=
  let! n := jlift (d_scope sc) in
  let! sl := jlift (d_slot n) in
  let! id := jlift (d_text bindingId) in
  jlift (activeBinding sl id) ;!
  let! ev := jlift (d_text eventId) in
  let! s := jread in
  let! e := jlift (bound_record (scope_node_id n) id ev s) in
  let r := e.2 in
  jlift (require (negb (bool_decide (rec_state r = ACKED))) (DConflict D_ACK_CONFLICT)) ;!
  let st := if bool_decide (maxAttempts s <= attempts r) then DEAD_LETTER else PENDING in
  let r1 := set_record r st (attempts r) (available_at r) (last_delivery_id r) (last_error r) in
  jwrite (set_inbox (jset e.1 r1 (inbox s)) s) ;!
  let! timestamp := jlift (d_now now) in
  let r2 := set_record r st (attempts r) timestamp (last_delivery_id r) (last_error r) in
  jwrite (set_inbox (jset e.1 r2 (inbox s)) s) ;!
  jret (publicRecord r2).

Definition replay (sc : scope) (bindingId eventId : string) (now : date) : method service delivery_error public_record :=
  let! n := jlift (d_scope sc) in
  let! sl := jlift (d_slot n) in
  let! id := jlift (d_text bindingId) in
  jlift (activeBinding sl id) ;!
  let! ev := jlift (d_text eventId) in
  let! s := jread in
  let! e := jlift (bound_record (scope_node_id n) id ev s) in
  let r := e.2 in
  let r1 := set_record r PENDING 0 (available_at r) (last_delivery_id r) None in
  jwrite (set_inbox (jset e.1 r1 (inbox s)) s) ;!
  let! timestamp := jlift (d_now now) in
  let r2 := set_record r PENDING 0 timestamp (last_delivery_id r) None in
  jwrite (set_inbox (jset e.1 r2 (inbox s)) s) ;!
  jret (publicRecord r2).

Definition listDeadLetters (sc : scope) (s : service) : result delivery_error (list public_record) :=
  let? n := d_scope sc in
  Ok (map publicRecord (filter (fun r => rec_node_id r = scope_node_id n /\ rec_state r = DEAD_LETTER) (jvalues (inbox s)))).

Definition getInboxRecord (sc : scope) (eventId : string) (s : service)
  : result delivery_error (option public_record) :=
  let? n := d_scope sc in
  let? ev := d_text eventId in
  Ok (publicRecord <$> match jget (event_key (scope_node_id n) ev) (eventRecords s) with
      | Some inboxId => if truthy (Some inboxId) then jget inboxId (inbox s) else None
      | None => None
      end).

(** The constructor. *)
Definition new_service (max : option Z) : service :=
  Service (Z.max 1 (default 3 max)) [] [] [] [] [] [] [].
End delivery.
