(* ===== verification/DeliveryProps.v ===== *)
(** * Hook delivery: theorems

    The inbox invariant under every sequence of calls, what a read hands out
    and to whom, idempotent publication, acknowledgement, what revocation cuts
    off, and completeness of redaction. *)

From S2P Require Import Prelude Json Contracts Slot SlotProps Delivery.
From stdpp Require Import pretty.

#[local] Open Scope Z_scope.

Section invariant.
Context {zod : Zod}.

Definition delivery_id_of (r : inbox_record) : string := inbox_id r +:+ ":delivery:" +:+ pretty (attempts r).

(** A record counts its attempts within the limit, a delivered or
    acknowledged one names its last delivery, a dead letter used them all. *)
Record record_ok (max : Z) (k : string) (r : inbox_record) : Prop := RecordOk {
  rec_key : k = inbox_id r;
  rec_attempts : 0 <= attempts r <= max;
  rec_delivered : rec_state r = DELIVERED \/ rec_state r = ACKED ->
    1 <= attempts r /\ last_delivery_id r = Some (delivery_id_of r);
  rec_dead : rec_state r = DEAD_LETTER -> attempts r = max;
}.

Record service_ok (s : service) : Prop := ServiceOk {
  ok_max : 1 <= maxAttempts s;
  ok_inbox_keys : NoDup (jkeys (inbox s));
  ok_inbox : jall (record_ok (maxAttempts s)) (inbox s);
  ok_sub_keys : NoDup (jkeys (subscriptions s));
  ok_subs : jall (fun k sub => k = subscription_id sub) (subscriptions s);
  ok_deliveries : jall (fun k d => k = delivery_id d) (deliveries s);
}.

(** One call of any method of the service, with any slot source and clock. *)
Inductive dstep : service -> service -> Prop :=
| d_issue (src : SlotSource) sc input now s s' res : issueGrant sc input now s = (s', res) -> dstep s s'
| d_revoke sc id by_ now s s' res : revokeGrant sc id by_ now s = (s', res) -> dstep s s'
| d_subscribe (src : SlotSource) sc id b f p now s s' res : subscribe sc id b f p now s = (s', res) -> dstep s s'
| d_set_state sc id st now s s' res : setSubscriptionState sc id st now s = (s', res) -> dstep s s'
| d_binding_revoked b now s s' res : onBindingRevoked b now s = (s', res) -> dstep s s'
| d_publish (src : SlotSource) sc e now s s' res : publish sc e now s = (s', res) -> dstep s s'
| d_read (src : SlotSource) sc b limit now s s' res : readInbox sc b limit now s = (s', res) -> dstep s s'
| d_ack (src : SlotSource) sc b d s s' res : acknowledge sc b d s = (s', res) -> dstep s s'
| d_retry (src : SlotSource) sc b e now s s' res : retry sc b e now s = (s', res) -> dstep s s'
| d_replay (src : SlotSource) sc b e now s s' res : replay sc b e now s = (s', res) -> dstep s s'.

Lemma new_service_ok max : service_ok (new_service max).
Proof. split; try constructor; try done. simpl. lia. Qed.

Lemma service_ok_inbox s k r :
  service_ok s -> record_ok (maxAttempts s) k r -> service_ok (set_inbox (jset k r (inbox s)) s).
Proof. intros [] Hr. split; simpl; auto using NoDup_jset, jall_jset. Qed.

Lemma service_ok_sub s k sub :
  service_ok s -> k = subscription_id sub -> service_ok (set_subscriptions (jset k sub (subscriptions s)) s).
Proof. intros [] Hr. split; simpl; auto using NoDup_jset, jall_jset. Qed.

Lemma service_ok_delivery s k d :
  service_ok s -> k = delivery_id d -> service_ok (set_deliveries (jset k d (deliveries s)) s).
Proof. intros [] Hr. split; simpl; auto using jall_jset. Qed.

Lemma service_ok_frame s s' :
  maxAttempts s' = maxAttempts s -> inbox s' = inbox s -> subscriptions s' = subscriptions s ->
  deliveries s' = deliveries s -> service_ok s -> service_ok s'.
Proof. intros H1 H2 H3 H4 []. split; rewrite ?H1, ?H2, ?H3, ?H4; done. Qed.

(** The state a record is put in for its next attempt. *)
Definition delivered_record (r : inbox_record) : inbox_record :=
  set_record r DELIVERED (attempts r + 1) (available_at r)
    (Some (inbox_id r +:+ ":delivery:" +:+ pretty (attempts r + 1))) (last_error r).

Lemma delivered_record_ok max k r :
  record_ok max k r -> attempts r < max -> record_ok max k (delivered_record r).
Proof. intros [-> Ha Hd Hx] Hlt. split; simpl; try done; try lia. intros _. split; [lia | done]. Qed.

Lemma dead_record_ok max k r e :
  record_ok max k r -> max <= attempts r ->
  record_ok max k (set_record r DEAD_LETTER (attempts r) (available_at r) (last_delivery_id r) e).
Proof. intros [-> Ha Hd Hx] Hlt. split; simpl; try done; try lia. by intros []. Qed.

Section read_loop.
Context (node id : string) (now : date) (limit : Z) (g : grant) (sub0 : subscription).

(** [d] is the delivery of [r], which is now marked delivered in [s']. *)
Definition handed_out (s' : service) (r : inbox_record) (d : delivery) : Prop :=
  eligible node id now sub0 r = true /\ attempts r < maxAttempts s' /\
  exists t, now = Some t /\ d = delivery_of id g sub0 (delivered_record r) t /\
    jget (inbox_id r) (inbox s') = Some (delivered_record r).

Definition same_hook (sub : subscription) : Prop :=
  sub_filter sub = sub_filter sub0 /\ sub_profile sub = sub_profile sub0 /\
  subscription_id sub = subscription_id sub0.

Lemma same_hook_eligible sub r : same_hook sub -> eligible node id now sub r = eligible node id now sub0 r.
Proof. intros (Hf & _). unfold eligible. by rewrite Hf. Qed.

Lemma same_hook_delivery sub r t : same_hook sub -> delivery_of id g sub r t = delivery_of id g sub0 r t.
Proof. intros (_ & Hp & _). unfold delivery_of. by rewrite Hp. Qed.

Definition loop_post (records : list inbox_record) (out : list delivery) (s s' : service)
    (res : result delivery_error (list delivery * subscription)) : Prop :=
  service_ok s' /\ maxAttempts s' = maxAttempts s /\
  (forall k, k ∉ map inbox_id records -> jget k (inbox s') = jget k (inbox s)) /\
  match res with
  | Ok (out', sub') => same_hook sub' /\
      exists rs new, out' = out ++ new /\ sublist rs records /\ Forall2 (handed_out s') rs new /\
        (Z.of_nat (length out) <= Z.max 1 limit -> Z.of_nat (length out') <= Z.max 1 limit)
  | Err _ => now = None
  end.

(** Passing over a record the loop rewrites but does not hand out. *)
Lemma loop_post_skip r records out s s1 s' res :
  inbox_id r ∉ map inbox_id records -> maxAttempts s1 = maxAttempts s ->
  (forall k, k <> inbox_id r -> jget k (inbox s1) = jget k (inbox s)) ->
  loop_post records out s1 s' res -> loop_post (r :: records) out s s' res.
Proof.
  intros Hfresh Hmax Hfr (Hok & Hm & Hk & Hres). split; [done|]. split; [congruence|]. split.
  - intros k Hin. simpl in Hin. apply not_elem_of_cons in Hin as [Hne Hin]. by rewrite Hk, Hfr.
  - destruct res as [[out' sub']|e]; [|done]. destruct Hres as (Hsame & rs & new & Ho & Hsub & Hf & Hl).
    split; [done|]. exists rs, new. split; [done|]. split; [by apply sublist_cons|]. done.
Qed.

Lemma snapshots_survive (records : list inbox_record) r x s :
  inbox_id r ∉ map inbox_id records ->
  Forall (fun r => jget (inbox_id r) (inbox s) = Some r) records ->
  Forall (fun r' => jget (inbox_id r') (jset (inbox_id r) x (inbox s)) = Some r') records.
Proof.
  intros Hfresh Hs. induction Hs as [|r' l Hr' Hs IH]; constructor.
  - rewrite jget_jset_ne; [done|]. intros Heq. apply Hfresh. rewrite Heq. simpl. left.
  - apply IH. intros Hin. apply Hfresh. simpl. by right.
Qed.

(** Handing out one record. *)
Lemma loop_post_deliver r records out sub s s2 s' res t :
  same_hook sub -> inbox_id r ∉ map inbox_id records -> now = Some t ->
  eligible node id now sub r = true -> attempts r < maxAttempts s -> maxAttempts s2 = maxAttempts s ->
  inbox s2 = jset (inbox_id r) (delivered_record r) (inbox s) ->
  ~ Z.max 1 limit <= Z.of_nat (length out) ->
  loop_post records (out ++ [delivery_of id g sub (delivered_record r) t]) s2 s' res ->
  loop_post (r :: records) out s s' res.
Proof.
  intros Hsame Hfresh Hnow Hel Hlt Hmax Hin Hlim (Hok & Hm & Hk & Hres).
  split; [done|]. split; [congruence|]. split.
  - intros k Hkin. simpl in Hkin. apply not_elem_of_cons in Hkin as [Hne Hkin].
    rewrite Hk, Hin by done. by rewrite jget_jset_ne.
  - destruct res as [[out' sub']|e]; [|done]. destruct Hres as (Hsame' & rs & new & -> & Hsub & Hf & Hl).
    split; [done|]. exists (r :: rs), (delivery_of id g sub (delivered_record r) t :: new).
    rewrite <-app_assoc in *. split; [done|]. split; [by apply sublist_skip|]. split.
    + constructor; [|done]. rewrite (same_hook_eligible _ _ Hsame) in Hel. split; [done|].
      split; [congruence|]. exists t. rewrite (same_hook_delivery _ _ _ Hsame). split; [done|]. split; [done|].
      rewrite (Hk (inbox_id r)), Hin by done. apply jget_jset_eq.
    + intros _. apply Hl. rewrite length_app. simpl. lia.
Qed.

Lemma readInbox_loop_ok records out sub s s' res :
  same_hook sub -> service_ok s -> NoDup (map inbox_id records) ->
  Forall (fun r => jget (inbox_id r) (inbox s) = Some r) records ->
  readInbox_loop node id now limit g (subscription_id sub0) sub records out s = (s', res) ->
  loop_post records out s s' res.
Proof.
  revert out sub s. induction records as [|r records IH]; intros out sub s Hsame Hok Hnd Hsnap Hrun.
  { injection Hrun as <- <-. split; [done|]. split; [done|]. split; [done|]. split; [done|].
    exists [], []. rewrite app_nil_r. done. }
  simpl in Hnd. apply NoDup_cons in Hnd as [Hfresh Hnd]. apply Forall_cons in Hsnap as [Hr Hsnap].
  cbn [readInbox_loop] in Hrun. case_bool_decide as Hlim.
  { injection Hrun as <- <-. split; [done|]. split; [done|]. split; [done|]. split; [done|].
    exists [], []. rewrite app_nil_r. split; [done|]. split; [apply sublist_nil_l|]. done. }
  destruct (eligible node id now sub r) eqn:Hel; cbn [negb] in Hrun.
  2:{ eapply loop_post_skip; [done..|]. by eapply IH. }
  unfold jbind at 1, jread at 1 in Hrun. pose proof (ok_inbox s Hok _ _ Hr) as Hrok.
  case_bool_decide as Hmax; unfold jbind at 1, jwrite at 1 in Hrun.
  { eapply (loop_post_skip r records out s (set_inbox (jset (inbox_id r) _ (inbox s)) s)); [done|done| |].
    - intros k Hk. simpl. by rewrite jget_jset_ne.
    - eapply IH; [done| |done| |exact Hrun].
      + apply service_ok_inbox; [done|]. by apply dead_record_ok.
      + simpl. by apply snapshots_survive. }
  assert (Hlt : attempts r < maxAttempts s) by lia. pose proof (delivered_record_ok _ _ _ Hrok Hlt) as Hdok.
  set (s1 := set_inbox (jset (inbox_id r) (delivered_record r) (inbox s)) s).
  change (set_inbox _ s) with s1 in Hrun.
  assert (Hok1 : service_ok s1) by (by apply service_ok_inbox).
  assert (Hfr : forall k, k <> inbox_id r -> jget k (inbox s1) = jget k (inbox s)).
  { intros k Hk. simpl. by rewrite jget_jset_ne. }
  unfold jbind at 1, jlift at 1 in Hrun. destruct now as [t|] eqn:Hnow; cbn [d_now of_option] in Hrun.
  2:{ injection Hrun as <- <-. split; [done|]. split; [done|]. split; [|done].
      intros k Hin. simpl in Hin. apply not_elem_of_cons in Hin as [Hne _]. by apply Hfr. }
  unfold jbind, jread, jwrite in Hrun.
  eapply IH in Hrun; cycle 1.
  - by destruct Hsame as (? & ? & ?).
  - refine (service_ok_sub _ _ _ (service_ok_delivery s1 _ (delivery_of id g sub (delivered_record r) t) Hok1 eq_refl) _).
    by destruct Hsame as (? & ? & ?).
  - done.
  - by apply snapshots_survive.
  - rewrite <-Hnow in Hel.
    by refine (loop_post_deliver r records out sub s _ s' res t Hsame Hfresh Hnow Hel Hlt _ _ Hlim Hrun).
Qed.
End read_loop.

(** ** Every method preserves the invariant *)

Lemma insert_record_perm r l : insert_record r l ≡ₚ r :: l.
Proof.
  induction l as [|r' l IH]; simpl; [done|]. case_bool_decide; [done|]. rewrite IH. apply Permutation_swap.
Qed.

Lemma sort_records_perm l : sort_records l ≡ₚ l.
Proof. induction l as [|r l IH]; simpl; [done|]. by rewrite insert_record_perm, IH. Qed.

Definition by_sequence (a b : inbox_record) : Prop := rec_sequence a <= rec_sequence b.

Lemma insert_record_sorted r l : StronglySorted by_sequence l -> StronglySorted by_sequence (insert_record r l).
Proof.
  induction 1 as [|r' l Hs IH Hall]; simpl; [by repeat constructor|]. case_bool_decide as Hle.
  - constructor; [by constructor|]. constructor; [done|]. eapply Forall_impl; [exact Hall|].
    unfold by_sequence. intros; lia.
  - constructor; [done|]. rewrite insert_record_perm. constructor; [|done]. unfold by_sequence. lia.
Qed.

Lemma sort_records_sorted l : StronglySorted by_sequence (sort_records l).
Proof. induction l as [|r l IH]; simpl; [constructor|]. by apply insert_record_sorted. Qed.

(** The records in the inbox, as the read loop meets them. *)
Lemma inbox_snapshot s : service_ok s ->
  NoDup (map inbox_id (sort_records (jvalues (inbox s)))) /\
  Forall (fun r => jget (inbox_id r) (inbox s) = Some r) (sort_records (jvalues (inbox s))).
Proof.
  intros Hok. rewrite sort_records_perm.
  assert (Hent : Forall (fun e : string * inbox_record => e.1 = inbox_id e.2) (inbox s)).
  { apply Forall_forall. intros [k r] Hin.
    apply (rec_key _ _ _ (ok_inbox s Hok k r (elem_jget _ _ _ (ok_inbox_keys s Hok) Hin))). }
  assert (Hkeys : map inbox_id (jvalues (inbox s)) = jkeys (inbox s)).
  { unfold jvalues, jkeys. rewrite map_map. clear Hok. induction Hent; simpl; [done|]. by f_equal. }
  split; [rewrite Hkeys; apply Hok|]. apply Forall_forall. intros r Hin. unfold jvalues in Hin.
  apply list_elem_of_fmap in Hin as ([k r'] & -> & Hin). simpl.
  rewrite Forall_forall in Hent. specialize (Hent _ Hin). simpl in Hent. rewrite <-Hent.
  by apply elem_jget; [apply Hok|].
Qed.

Section steps.
Context {src : SlotSource}.

Lemma issueGrant_ok sc input now s s' res : issueGrant sc input now s = (s', res) -> service_ok s -> service_ok s'.
Proof. unfold issueGrant, record_grant. intros H Hok. run_method H; by apply (service_ok_frame s). Qed.

Lemma revokeGrant_ok sc id by_ now s s' res : revokeGrant sc id by_ now s = (s', res) -> service_ok s -> service_ok s'.
Proof. unfold revokeGrant. intros H Hok. run_method H; by apply (service_ok_frame s). Qed.

Lemma subscribe_ok sc id b f p now s s' res : subscribe sc id b f p now s = (s', res) -> service_ok s -> service_ok s'.
Proof. unfold subscribe. intros H Hok. run_method H; by apply service_ok_sub. Qed.

Lemma setSubscriptionState_ok sc id st now s s' res :
  setSubscriptionState sc id st now s = (s', res) -> service_ok s -> service_ok s'.
Proof.
  unfold setSubscriptionState. intros H Hok. run_method H. apply service_ok_sub; [done|]. simpl.
  match goal with H : of_option (jget _ _) _ = Ok _ |- _ => apply of_option_ok in H end.
  by eapply (ok_subs s Hok).
Qed.

Lemma onBindingRevoked_ok b now s s' res : onBindingRevoked b now s = (s', res) -> service_ok s -> service_ok s'.
Proof.
  unfold onBindingRevoked. unfold jbind at 1, jlift at 1. intros H Hok.
  destruct (d_text b) as [id|]; [|by simplify_eq]. unfold jbind at 1, jread at 1 in H.
  eapply jforeach_preserves in H; [exact H| |done]. simpl.
  intros [k sub] s1 s2 r Hin Hok1 Hrun. unfold revoke_subscription in Hrun. simpl in Hrun. destruct (str_eqb _ _); [|by injection Hrun as <- <-].
  run_method Hrun. apply service_ok_sub; [done|]. simpl.
  by apply (ok_subs s Hok k), elem_jget; [apply Hok|].
Qed.

Lemma publish_ok sc e now s s' res : publish sc e now s = (s', res) -> service_ok s -> service_ok s'.
Proof.
  unfold publish. intros H Hok. run_method H;
    (eapply (service_ok_frame (set_inbox _ s)); [reflexivity..|]; apply service_ok_inbox; [done|];
     pose proof (ok_max s Hok); split; simpl; try done; try lia; naive_solver).
Qed.

(** The hook a read is made through: the first active one of the binding. *)
Definition is_hook (node id : string) (e : string * subscription) : Prop :=
  sub_node_id e.2 = node /\ sub_binding_id e.2 = id /\ sub_state e.2 = HOOK_ACTIVE.

(** A read fails before it touches anything, or runs the loop. *)
Lemma readInbox_split sc b limit now s s' res :
  readInbox sc b limit now s = (s', res) ->
  (s' = s /\ exists e, res = Err e) \/
  exists n sl id g i e s1 lres,
    d_scope sc = Ok n /\ d_slot n = Ok sl /\ d_text b = Ok id /\ activeBinding sl id = Ok tt /\
    activeGrant sl id now (grants s) = Ok g /\
    list_find (is_hook (scope_node_id n) id) (subscriptions s) = Some (i, e) /\
    readInbox_loop (scope_node_id n) id now limit g e.1 e.2 (sort_records (jvalues (inbox s))) [] s = (s1, lres) /\
    match lres with
    | Ok p => res = Ok p.1 /\ s' = set_subscriptions (jset (subscription_id p.2) p.2 (subscriptions s1)) s1
    | Err e => res = Err e /\ s' = s1
    end.
Proof.
  unfold readInbox. intros H.
  destruct (d_scope sc) as [n|e] eqn:Hn; [|injection H as <- <-; eauto].
  unfold jbind at 1, jlift at 1 in H. unfold jbind at 1, jlift at 1 in H.
  destruct (d_slot n) as [sl|e] eqn:Hsl; [|injection H as <- <-; eauto].
  unfold jbind at 1, jlift at 1 in H.
  destruct (d_text b) as [id|e] eqn:Hid; [|injection H as <- <-; eauto].
  unfold jbind at 1, jlift at 1 in H.
  destruct (activeBinding sl id) as [[]|e] eqn:Hab; [|injection H as <- <-; eauto].
  unfold jbind at 1, jread at 1 in H. unfold jbind at 1, jlift at 1 in H.
  destruct (activeGrant sl id now (grants s)) as [g|e] eqn:Hag; [|injection H as <- <-; eauto].
  unfold jbind at 1, jlift at 1 in H.
  destruct (list_find _ (subscriptions s)) as [[i e]|] eqn:Hf; [|injection H as <- <-; eauto].
  cbn [of_option] in H. unfold jbind at 1 in H.
  destruct (readInbox_loop _ _ _ _ _ _ _ _ _ s) as [s1 lres] eqn:Hl. right.
  exists n, sl, id, g, i, e, s1, lres. do 7 (split; [done|]).
  destruct lres as [p|err]; unfold jbind, jread, jwrite, jret in H; by injection H as <- <-.
Qed.

Lemma readInbox_ok sc b limit now s s' res : readInbox sc b limit now s = (s', res) -> service_ok s -> service_ok s'.
Proof.
  intros [[-> _]|(n & sl & id & g & i & [k sub] & s1 & lres & _ & _ & _ & _ & _ & Hf & Hl & Hres)]%readInbox_split Hok; [done|].
  destruct (inbox_snapshot s Hok) as [Hnd Hsnap].
  apply list_find_Some in Hf as (Hin & _ & _). apply list_elem_of_lookup_2 in Hin.
  assert (k = subscription_id sub) as ->. { by apply (ok_subs s Hok), elem_jget; [apply Hok|]. }
  apply (readInbox_loop_ok _ _ _ _ _ sub) in Hl as (Hok1 & _ & _ & Hp); [|done..].
  destruct lres as [[out sub']|err]; destruct Hres as [_ ->]; [|done]. by apply service_ok_sub.
Qed.

Lemma acknowledge_ok sc b d s s' res : acknowledge sc b d s = (s', res) -> service_ok s -> service_ok s'.
Proof.
  unfold acknowledge. intros H Hok. run_method H. apply service_ok_inbox; [done|].
  repeat match goal with H : of_option _ _ = Ok _ |- _ => apply of_option_ok in H end.
  match goal with H : jget _ (inbox s) = Some ?r, Hs : require (bool_decide (rec_state ?r = _)) _ = Ok _ |- _ =>
    pose proof (ok_inbox s Hok _ _ H) as [Hk Ha Hd Hx]; apply require_ok, bool_decide_eq_true in Hs end.
  split; simpl; try done. intros _. apply Hd. by left.
Qed.

Lemma bound_record_ok node id ev s k r :
  bound_record node id ev s = Ok (k, r) -> service_ok s ->
  record_ok (maxAttempts s) k r /\ jget k (inbox s) = Some r /\ rec_binding_id r = Some id.
Proof.
  unfold bound_record. intros H Hok. inv_ok. rewrite bool_decide_eq_true in *.
  split; [by apply (ok_inbox s Hok) | done].
Qed.

Lemma retry_ok sc b e now s s' res : retry sc b e now s = (s', res) -> service_ok s -> service_ok s'.
Proof.
  unfold retry. intros H Hok. run_method H;
    (apply service_ok_inbox; [done|];
     match goal with H : bound_record _ _ _ _ = Ok ?p |- _ =>
       destruct p; apply bound_record_ok in H as [[Hk Ha Hd Hx] _]; [|done] end;
     split; simpl in *; rewrite ?bool_decide_eq_true in *; try done; intros; destruct_or?; try done; lia).
Qed.

Lemma replay_ok sc b e now s s' res : replay sc b e now s = (s', res) -> service_ok s -> service_ok s'.
Proof.
  unfold replay. intros H Hok. run_method H;
    (apply service_ok_inbox; [done|]; pose proof (ok_max s Hok);
     match goal with H : bound_record _ _ _ _ = Ok ?p |- _ =>
       destruct p; apply bound_record_ok in H as [[Hk Ha Hd Hx] _]; [|done] end;
     split; simpl in *; rewrite ?bool_decide_eq_true in *; try done; intros; destruct_or?; try done; lia).
Qed.
End steps.

Lemma dstep_ok s s' : dstep s s' -> service_ok s -> service_ok s'.
Proof.
  destruct 1; eauto using issueGrant_ok, revokeGrant_ok, subscribe_ok, setSubscriptionState_ok, onBindingRevoked_ok,
    publish_ok, readInbox_ok, acknowledge_ok, retry_ok, replay_ok.
Qed.

Lemma dsteps_ok max s : rtc dstep (new_service max) s -> service_ok s.
Proof.
  intros H. eapply (rtc_ind_r service_ok (new_service max)); [apply new_service_ok| |done].
  intros ? ? _ Hs. by apply dstep_ok.
Qed.
End invariant.

(** ** Redaction *)

Definition path_of (path : string) (ss : list segment) : string :=
  foldl (fun p s => child_path p (segment_name s)) path ss.

(** What a profile says about the step [s] made at [path]: its key is
    redacted, or the path it leads to is. *)
Definition protected (p : profile) (path : string) (s : segment) : bool :=
  match s with Key k => key_hit p k | Index _ => false end || path_hit p (child_path path (segment_name s)).

Section redaction.
Context (p : profile).

Lemma replacement_stuck s ss x : ~ reaches (profile_replacement p) (s :: ss) x.
Proof. unfold profile_replacement. by inversion 1. Qed.

Lemma redact_hit path v : path_hit p path = true -> redactValue p path v = profile_replacement p.
Proof. intros H. destruct v; simpl; by rewrite H. Qed.

(** One step into a redacted value: what is there is the replacement, or the
    redacted value of the same step into the original. *)
Lemma redact_step path v s ss x :
  reaches (redactValue p path v) (s :: ss) x ->
  exists w, reaches w ss x /\
    if protected p path s then w = profile_replacement p
    else exists v', w = redactValue p (child_path path (segment_name s)) v'.
Proof.
  intros H. destruct (path_hit p path) eqn:Hp.
  { rewrite redact_hit in H by done. by apply replacement_stuck in H. }
  destruct v as [| | | |l|l]; simpl in H; rewrite Hp in H; inversion H as [|? k w ? ? Hin Hr|? i w ? ? Hin Hr]; subst.
  - exists w. split; [done|]. rewrite lookup_map_index in Hin. apply fmap_Some in Hin as (v' & _ & ->).
    unfold protected. cbn [orb]. rewrite N.add_0_l in *. simpl.
    destruct (path_hit p (child_path path (pretty (N.of_nat i)))) eqn:Hc; [by apply redact_hit | eauto].
  - exists w. split; [done|]. apply list_elem_of_fmap in Hin as ([k' v'] & Heq & _). simpl in Heq.
    injection Heq as -> ->. unfold protected. simpl. destruct (_ || _); eauto.
Qed.

(** Redaction is complete: in a redacted payload, at any depth,
    through objects and arrays, whatever sits under a redacted key (compared
    without case) or at a listed path is the replacement text. *)
Theorem redaction_complete path v ss s x :
  reaches (redactValue p path v) (ss ++ [s]) x ->
  protected p (path_of path ss) s = true ->
  x = profile_replacement p.
Proof.
  revert path v. induction ss as [|s0 ss IH]; intros path v H Hp; simpl in *.
  - apply redact_step in H as (w & Hr & Hw). rewrite Hp in Hw. inversion Hr; subst. done.
  - apply redact_step in H as (w & Hr & Hw). destruct (protected p path s0).
    + subst w. destruct ss; simpl in Hr; by apply replacement_stuck in Hr.
    + destruct Hw as [v' ->]. by eapply IH.
Qed.

(** Redaction removes nothing else: a leaf of the payload that no
    step on its way protects is in the redacted payload at the same place. *)
Theorem redaction_precise path v ss x :
  reaches v ss x -> is_leaf x = true -> path_hit p path = false ->
  (forall pre s post, ss = pre ++ s :: post -> protected p (path_of path pre) s = false) ->
  reaches (redactValue p path v) ss x.
Proof.
  intros H Hleaf. revert path. induction H as [v|l k w ss x Hin Hr IH|l i w ss x Hin Hr IH]; intros path Hp Hfree.
  - destruct v; simpl in *; try done; rewrite Hp; constructor.
  - pose proof (Hfree [] (Key k) ss eq_refl) as H0. cbn [path_of foldl] in H0.
    simpl. rewrite Hp. apply (reaches_key _ k (redactValue p (child_path path k) w)).
    + apply list_elem_of_fmap. exists (k, w). split; [|done]. cbn [fst snd].
      unfold protected in H0. simpl in H0. by rewrite H0.
    + apply IH; [done| |].
      * unfold protected in H0. apply orb_false_iff in H0 as [_ H0]. done.
      * intros pre s post ->. by apply (Hfree (Key k :: pre) s post).
  - pose proof (Hfree [] (Index i) ss eq_refl) as H0. cbn [path_of foldl] in H0.
    simpl. rewrite Hp. apply (reaches_index _ i (redactValue p (child_path path (pretty (N.of_nat i))) w)).
    + by rewrite lookup_map_index, Hin.
    + apply IH; [done| |].
      * unfold protected in H0. apply orb_false_iff in H0 as [_ H0]. done.
      * intros pre s post ->. by apply (Hfree (Index i :: pre) s post).
Qed.
End redaction.

(** ** The inbox: claims *)

Section claims.
Context {zod : Zod} {laws : ZodLaws zod}.

(** C7. In every state the service can reach, by any sequence of calls
    with any slots and clocks, an inbox record was attempted at most
    [maxAttempts] times; it is DELIVERED or ACKED only after an attempt, and
    then names the delivery of its last attempt; it is a DEAD_LETTER only
    when all attempts were used. *)
Theorem inbox_invariant max s k r :
  rtc dstep (new_service max) s -> jget k (inbox s) = Some r ->
  0 <= attempts r <= maxAttempts s /\
  (rec_state r = DELIVERED \/ rec_state r = ACKED ->
     1 <= attempts r /\ last_delivery_id r = Some (inbox_id r +:+ ":delivery:" +:+ pretty (attempts r))) /\
  (rec_state r = DEAD_LETTER -> attempts r = maxAttempts s).
Proof. intros Hok%dsteps_ok Hr. by destruct (ok_inbox s Hok k r Hr). Qed.

Lemma activeBinding_ok s id : activeBinding s id = Ok tt ->
  current_binding_id s = Some id /\ is_free_state (lifecycle_state s) = false.
Proof.
  unfold activeBinding. intros H. inv_ok.
  repeat match goal with H : _ && _ = true |- _ => apply andb_true_iff in H as [? ?] end.
  by rewrite bool_decide_eq_true, negb_true_iff in *.
Qed.

Lemma activeGrant_ok s id now gs g : activeGrant s id now gs = Ok g ->
  exists gid, slot_grant_ref s = Some gid /\ jget gid gs = Some g /\
    grant_binding_id g = id /\ grant_status g = G_ACTIVE /\ grant_expired g now = false.
Proof.
  unfold activeGrant. intros H. inv_ok.
  repeat match goal with H : _ && _ = true |- _ => apply andb_true_iff in H as [? ?] end.
  destruct (slot_grant_ref s) as [gid|]; [|done]. exists gid.
  rewrite ?bool_decide_eq_true, ?negb_true_iff in *. unfold str_eqb in *.
  rewrite ?bool_decide_eq_true in *. done.
Qed.

Lemma eligible_ok node id now sub r : eligible node id now sub r = true ->
  rec_node_id r = node /\ rec_binding_id r = Some id /\ rec_state r = PENDING /\
  (forall t, now = Some t -> available_at r <= t) /\
  matchesFilter (sub_filter sub) (rec_event_type r) (rec_resource_ref r) (Some (rec_severity r)) = true.
Proof.
  unfold eligible. rewrite !andb_true_iff, !bool_decide_eq_true. unfold str_eqb. rewrite bool_decide_eq_true.
  intros [[[[-> ->] ->] Ht] Hf]. repeat split; try done. intros t ->. by apply bool_decide_eq_true in Ht.
Qed.

(** An event the index knows has its record in the inbox. *)
Definition indexed (k : string) (s : service) : Prop :=
  exists id r, jget k (eventRecords s) = Some id /\ truthy (Some id) = true /\ jget id (inbox s) = Some r.

Lemma indexed_frame k s s' :
  eventRecords s' = eventRecords s -> (forall j, is_Some (jget j (inbox s)) -> is_Some (jget j (inbox s'))) ->
  indexed k s -> indexed k s'.
Proof.
  intros He Hi (id & r & Hid & Ht & Hr). destruct (Hi id) as [r' Hr']; [by rewrite Hr|].
  exists id, r'. by rewrite He.
Qed.

Lemma indexed_set_inbox k s j r : indexed k s -> indexed k (set_inbox (jset j r (inbox s)) s).
Proof. apply indexed_frame; [done|]. intros j'. apply jget_jset_is_Some. Qed.

Lemma indexed_publish k k' id r s s' :
  truthy (Some id) = true -> eventRecords s' = jset k' id (eventRecords s) -> inbox s' = jset id r (inbox s) ->
  indexed k s -> indexed k s'.
Proof.
  intros Ht He Hb (id0 & r0 & Hid & Ht0 & Hr). unfold indexed. rewrite He, jget_jset, Hb.
  unfold str_eqb. case_bool_decide.
  - exists id, r. by rewrite jget_jset_eq.
  - destruct (jget_jset_is_Some id id0 r (inbox s)) as [r1 Hr1]; [by rewrite Hr|]. by exists id0, r1.
Qed.

Lemma indexed_loop k node id now limit g sk sub records out s s' res :
  readInbox_loop node id now limit g sk sub records out s = (s', res) -> indexed k s -> indexed k s'.
Proof.
  revert sub out s. induction records as [|r records IH]; intros sub out s Hrun Hi.
  { by injection Hrun as <- <-. }
  cbn [readInbox_loop] in Hrun. case_bool_decide; [by injection Hrun as <- <-|].
  destruct (negb _); [by eapply IH|]. unfold jbind at 1, jread at 1 in Hrun.
  case_bool_decide; unfold jbind at 1, jwrite at 1 in Hrun.
  { eapply IH; [exact Hrun|]. by apply indexed_set_inbox. }
  unfold jbind, jlift, jread, jwrite in Hrun. destruct (d_now now).
  - eapply IH; [exact Hrun|]. by refine (indexed_frame k _ _ _ _ (indexed_set_inbox k s (inbox_id r) (delivered_record r) Hi)).
  - injection Hrun as <- <-. by apply indexed_set_inbox.
Qed.

Lemma indexed_foreach {A} k (f : A -> method service delivery_error unit) l s s' res :
  (forall x s s' res, f x s = (s', res) -> eventRecords s' = eventRecords s /\ inbox s' = inbox s) ->
  indexed k s -> jforeach f l s = (s', res) -> indexed k s'.
Proof.
  intros Hf. apply jforeach_preserves. intros x s1 s2 r _ Hi Hx. apply Hf in Hx as [He Hb].
  eapply indexed_frame; [done| |done]. by rewrite Hb.
Qed.

Lemma indexed_step k s s' : dstep s s' -> indexed k s -> indexed k s'.
Proof.
  intros Hstep Hi. destruct Hstep as
    [src sc input now s s' res H|sc id by_ now s s' res H|src sc id b f p now s s' res H|sc id st now s s' res H
    |b now s s' res H|src sc e now s s' res H|src sc b limit now s s' res H|src sc b d s s' res H
    |src sc b e now s s' res H|src sc b e now s s' res H].
  - unfold issueGrant, record_grant in H. run_method H.
  - unfold revokeGrant in H. run_method H.
  - unfold subscribe in H. run_method H.
  - unfold setSubscriptionState in H. run_method H.
  - unfold onBindingRevoked in H. unfold jbind at 1, jlift at 1 in H.
    destruct (d_text b) as [id|]; [|by simplify_eq]. unfold jbind at 1, jread at 1 in H.
    eapply indexed_foreach in H; [done| |done]. intros x s1 s2 r Hx. unfold revoke_subscription in Hx.
    run_method Hx.
  - unfold publish in H. run_method H;
      (eapply (indexed_publish k _ _ _ s); [|reflexivity|reflexivity|exact Hi]; by destruct (slot_id _)).
  - apply readInbox_split in H as [[-> _]|(n & sl & id & g & i & e & s1 & lres & _ & _ & _ & _ & _ & _ & Hl & Hres)]; [done|].
    apply (indexed_loop k) in Hl; [|done]. by destruct lres; destruct Hres as [_ ->].
  - unfold acknowledge in H. run_method H. by apply indexed_set_inbox.
  - unfold retry in H. run_method H; by apply indexed_set_inbox.
  - unfold replay in H. run_method H; by apply indexed_set_inbox.
Qed.

Lemma Forall_sub {A} (P : A -> Prop) (rs l : list A) : sublist rs l -> Forall P l -> Forall P rs.
Proof. induction 1; inversion_clear 1; auto. Qed.

Lemma sublist_map {A B} (f : A -> B) (rs l : list A) : sublist rs l -> sublist (map f rs) (map f l).
Proof. induction 1; simpl; by constructor. Qed.

Lemma sublist_sorted rs l : sublist rs l -> StronglySorted by_sequence l -> StronglySorted by_sequence rs.
Proof.
  induction 1 as [|x l k Hs IH|x l k Hs IH]; intros Hso; [constructor| |].
  - inversion_clear Hso as [|? ? Hso' Hall]. constructor; [auto|]. by eapply Forall_sub.
  - inversion_clear Hso. auto.
Qed.

(** What a read hands out: the caller's binding is the slot's current
    one, on a slot that is neither unassigned nor revoked, with an active,
    unexpired grant of that binding and an active hook. Every delivery comes
    from a pending, due record that was captured for this Node and this very
    binding and passes the hook's filter; its payload is redacted with the
    hook's profile; the record is DELIVERED afterwards with one more
    attempt. Deliveries come in sequence order, no record twice, at most
    [max 1 limit] of them. *)
Theorem readInbox_delivers {src : SlotSource} sc b limit now max s s' ds :
  rtc dstep (new_service max) s -> readInbox sc b limit now s = (s', Ok ds) ->
  exists n sl g sub rs,
    d_scope sc = Ok n /\ d_slot n = Ok sl /\
    current_binding_id sl = Some (trim b) /\ is_free_state (lifecycle_state sl) = false /\
    jget (default "" (slot_grant_ref sl)) (grants s) = Some g /\
    grant_binding_id g = trim b /\ grant_status g = G_ACTIVE /\ grant_expired g now = false /\
    sub_binding_id sub = trim b /\ sub_node_id sub = scope_node_id n /\ sub_state sub = HOOK_ACTIVE /\
    Forall2 (fun r d =>
      jget (inbox_id r) (inbox s) = Some r /\ rec_state r = PENDING /\
      rec_node_id r = scope_node_id n /\ rec_binding_id r = Some (trim b) /\
      (forall t, now = Some t -> available_at r <= t) /\
      matchesFilter (sub_filter sub) (rec_event_type r) (rec_resource_ref r) (Some (rec_severity r)) = true /\
      del_inbox_id d = inbox_id r /\ del_binding_id d = trim b /\ del_sequence d = rec_sequence r /\
      del_payload d = redactValue (sub_profile sub) "" (rec_payload r) /\
      jget (inbox_id r) (inbox s') = Some (delivered_record r)) rs ds /\
    NoDup (map inbox_id rs) /\ StronglySorted by_sequence rs /\
    Z.of_nat (length ds) <= Z.max 1 limit.
Proof.
  intros Hok%dsteps_ok
    [[_ [e He]]|(n & sl & id & g & i & [k sub] & s1 & lres & Hn & Hsl & Hid & Hab & Hag & Hf & Hl & Hres)]%readInbox_split;
    [done|].
  assert (id = trim b) as ->. { unfold d_text in Hid. destruct (str_eqb (trim b) ""); by simplify_eq. }
  destruct (inbox_snapshot s Hok) as [Hnd Hsnap].
  apply list_find_Some in Hf as (Hin & (Hsn & Hsb & Hss) & _). apply list_elem_of_lookup_2 in Hin.
  assert (k = subscription_id sub) as ->. { by apply (ok_subs s Hok), elem_jget; [apply Hok|]. }
  apply (readInbox_loop_ok _ _ _ _ _ sub) in Hl as (_ & _ & _ & Hp); [|done..].
  destruct lres as [[out sub']|err]; [|by destruct Hres]. destruct Hres as [[= ->] ->].
  destruct Hp as (_ & rs & new & -> & Hsub & Hall & Hlen).
  apply activeBinding_ok in Hab as [Hcur Hfree].
  apply activeGrant_ok in Hag as (gid & Hgid & Hg & Hgb & Hgs & Hge).
  exists n, sl, g, sub, rs. rewrite Hgid. simpl in Hsn, Hsb, Hss |- *. do 11 (split; [done|]).
  split; [|split; [|split; [|by apply Hlen; simpl; lia]]].
  - assert (Hs2 : Forall (fun r => jget (inbox_id r) (inbox s) = Some r) rs) by (by eapply Forall_sub).
    clear -Hall Hs2. induction Hall as [|r d rs new (Hel & _ & t & Ht & -> & Hr') Hall IH]; [constructor|].
    apply Forall_cons in Hs2 as [Hr Hs2]. constructor; [|by apply IH].
    apply eligible_ok in Hel as (? & ? & ? & ? & ?). by repeat (split; [done|]).
  - eapply sublist_NoDup; [exact Hnd|]. by apply sublist_map.
  - eapply sublist_sorted; [exact Hsub | apply sort_records_sorted].
Qed.

Lemma indexed_published {src : SlotSource} sc e now s s' r n :
  publish sc e now s = (s', Ok r) -> d_scope sc = Ok n ->
  indexed (event_key (scope_node_id n) (trim (ie_event_id e))) s'.
Proof.
  unfold publish. intros H Hn. rewrite Hn in H. unfold jbind at 1, jlift at 1 in H.
  unfold d_text at 1 in H. run_method H; try by eexists _, _.
  all: eexists _, _; split; [apply jget_jset_eq|]; split; [by destruct (slot_id _)|]; apply jget_jset_eq.
Qed.

(** Publication is idempotent for ever: once an event was published
    on a Node, publishing any event of that id on the Node again, in any
    later state of the service, returns the record there is and changes
    nothing, so no delivery state, attempt count or payload is reset. *)
Theorem publish_idempotent {src src' : SlotSource} sc e now s s' r n s'' sc' e' now' sl :
  publish (src := src) sc e now s = (s', Ok r) -> d_scope sc = Ok n -> rtc dstep s' s'' ->
  d_scope sc' = Ok n -> d_slot (src := src') n = Ok sl -> ie_node_id e' = scope_node_id n ->
  trim (ie_event_id e') = trim (ie_event_id e) -> trim (ie_event_id e') <> "" ->
  exists r', publish (src := src') sc' e' now' s'' = (s'', Ok r').
Proof.
  intros Hpub Hn Hsteps Hn' Hsl Hnode Hid Hne.
  assert (Hi : indexed (event_key (scope_node_id n) (trim (ie_event_id e))) s'').
  { pose proof (indexed_published _ _ _ _ _ _ _ Hpub Hn) as H0. revert H0. generalize (event_key (scope_node_id n) (trim (ie_event_id e))). intros k H0.
    eapply (rtc_ind_r (indexed k) s'); [exact H0| |done].
    intros ? ? _ Hs. by apply indexed_step. }
  destruct Hi as (id & r0 & Hk & Ht & Hr). exists (publicRecord r0).
  unfold publish, jbind, jlift, jread. rewrite Hn', Hsl, Hnode, str_eqb_refl. cbn [require].
  unfold d_text, str_eqb. rewrite bool_decide_eq_false_2 by done. rewrite Hid, Hk, Ht, Hr. done.
Qed.

(** A read on which no active hook of the binding exists fails. *)
Lemma readInbox_no_hook {src : SlotSource} sc b limit now s :
  Forall (fun e : string * subscription => sub_binding_id e.2 = trim b -> sub_state e.2 <> HOOK_ACTIVE) (subscriptions s) ->
  exists e, readInbox sc b limit now s = (s, Err e).
Proof.
  intros Hnone. destruct (readInbox sc b limit now s) as [s' res] eqn:Hr.
  apply readInbox_split in Hr
    as [[-> [e ->]]|(n & sl & id & g & i & e & s1 & lres & _ & _ & Hid & _ & _ & Hf & _)]; [by eexists|].
  assert (id = trim b) as ->. { unfold d_text in Hid. destruct (str_eqb (trim b) ""); by simplify_eq. }
  apply list_find_Some in Hf as (Hin & (_ & Hb & Ha) & _). apply list_elem_of_lookup_2 in Hin.
  rewrite Forall_forall in Hnone. by destruct (Hnone _ Hin).
Qed.

Definition revoke_entry (id : string) (t : iso) (e : string * subscription) : string * subscription :=
  if str_eqb (sub_binding_id e.2) id
  then (e.1, set_subscription e.2 (sub_revision e.2 + 1) (delivery_cursor e.2) HOOK_IS_REVOKED t) else e.

Lemma revoke_loop id now pre l s s' :
  NoDup (jkeys (pre ++ l)) -> subscriptions s = pre ++ l ->
  jforeach (revoke_subscription id now) l s = (s', Ok tt) ->
  subscriptions s' = pre ++ map (revoke_entry id (default 0 now)) l.
Proof.
  revert pre s. induction l as [|[k sub] l IH]; intros pre s Hnd Hs Hrun.
  { by injection Hrun as <-. }
  assert (Hk : k ∉ jkeys pre).
  { unfold jkeys in Hnd. rewrite map_app in Hnd. apply NoDup_app in Hnd as (_ & Hd & _).
    intros Hin. apply (Hd k Hin). simpl. left. }
  cbn [jforeach] in Hrun. unfold jbind at 1 in Hrun. unfold revoke_subscription at 1 in Hrun.
  cbn [map]. unfold revoke_entry at 1. simpl in Hrun |- *. destruct (str_eqb (sub_binding_id sub) id).
  - destruct now as [t|]; [|done]. unfold jbind, jlift, jread, jwrite in Hrun. cbn [d_now of_option default] in Hrun |- *.
    rewrite Hs, jset_mid in Hrun by done.
    eapply (IH (pre ++ [(k, set_subscription sub (sub_revision sub + 1) (delivery_cursor sub) HOOK_IS_REVOKED t)])) in Hrun.
    + by rewrite Hrun, <-app_assoc.
    + rewrite <-app_assoc. unfold jkeys in *. by rewrite map_app in *.
    + by rewrite <-app_assoc.
  - unfold jret in Hrun. specialize (IH (pre ++ [(k, sub)]) s).
    rewrite <-app_assoc in IH. specialize (IH Hnd Hs Hrun). rewrite IH. by rewrite <-app_assoc.
Qed.

(** Revoking a binding revokes every hook it has and touches no
    other: afterwards each read by that binding fails and leaves the service
    unchanged, whatever the slot, the grant and the clock say. *)
Theorem revoked_binding_reads_nothing b now max s s' :
  rtc dstep (new_service max) s -> onBindingRevoked b now s = (s', Ok tt) ->
  (exists t, subscriptions s' = map (revoke_entry (trim b) t) (subscriptions s)) /\
  forall src sc limit now', exists e, readInbox (src := src) sc b limit now' s' = (s', Err e).
Proof.
  intros Hok%dsteps_ok Hrun.
  assert (Hsubs : exists t, subscriptions s' = map (revoke_entry (trim b) t) (subscriptions s)); [|split; [done|]].
  2:{ intros src sc limit now'. apply readInbox_no_hook. destruct Hsubs as [t ->].
      apply Forall_forall. intros e (e0 & -> & _)%list_elem_of_fmap. unfold revoke_entry, str_eqb. simpl.
      case_bool_decide; [done|]. done. }
  unfold onBindingRevoked, d_text in Hrun. unfold jbind at 1, jlift at 1 in Hrun.
  destruct (str_eqb (trim b) ""); [done|]. unfold jbind at 1, jread at 1 in Hrun.
  eexists. apply (revoke_loop _ now [] _ s); [apply Hok | done | exact Hrun].
Qed.

(** A revoked grant stops delivery: on any slot that refers to it,
    each read fails and leaves the service unchanged. *)
Theorem revoked_grant_reads_nothing {src : SlotSource} sc gid by_ now s s' g sc' b limit now' n sl :
  revokeGrant sc gid by_ now s = (s', Ok g) ->
  d_scope sc' = Ok n -> d_slot n = Ok sl -> slot_grant_ref sl = Some (trim gid) ->
  exists e, readInbox sc' b limit now' s' = (s', Err e).
Proof.
  intros Hrev Hn Hsl Href. destruct (readInbox sc' b limit now' s') as [s2 res] eqn:Hr.
  apply readInbox_split in Hr
    as [[-> [e ->]]|(n1 & sl1 & id & g1 & i & e & s1 & lres & Hn1 & Hsl1 & _ & _ & Hag & _)]; [by eexists|].
  rewrite Hn in Hn1. injection Hn1 as <-. rewrite Hsl in Hsl1. injection Hsl1 as <-.
  apply activeGrant_ok in Hag as (gid' & Hgid & Hg & _ & Hact & _). rewrite Href in Hgid. injection Hgid as <-.
  unfold revokeGrant, d_text in Hrev. run_method Hrev. rewrite jget_jset_eq in Hg. by injection Hg as <-.
Qed.

(** Acknowledgement: only the slot's current binding, and only for a
    delivery made to itself, moves a DELIVERED record to ACKED; doing it
    again returns the same record and changes nothing. *)
Theorem acknowledge_once {src : SlotSource} sc b d s s' r :
  acknowledge sc b d s = (s', Ok r) ->
  (exists n sl dl r0, d_scope sc = Ok n /\ d_slot n = Ok sl /\ current_binding_id sl = Some (trim b) /\
     jget (trim d) (deliveries s) = Some dl /\ del_binding_id dl = trim b /\ del_node_id dl = scope_node_id n /\
     jget (del_inbox_id dl) (inbox s) = Some r0 /\ (rec_state r0 = DELIVERED \/ rec_state r0 = ACKED)) /\
  pub_state r = ACKED /\ acknowledge sc b d s' = (s', Ok r).
Proof.
  unfold acknowledge. intros H. unfold jbind, jlift, jread in *.
  destruct (d_scope sc) as [n|] eqn:Hn; [|done]. destruct (d_slot n) as [sl|] eqn:Hsl; [|done].
  unfold d_text in *. destruct (str_eqb (trim b) ""); [done|].
  destruct (activeBinding sl (trim b)) as [[]|] eqn:Hab; [|done]. destruct (str_eqb (trim d) ""); [done|].
  destruct (jget (trim d) (deliveries s)) as [dl|] eqn:Hdl; [|done]. cbn [of_option] in H.
  unfold str_eqb in *. destruct (bool_decide (del_node_id dl = _)) eqn:Hdn; [|done]. cbn [require] in H.
  destruct (bool_decide (del_binding_id dl = _)) eqn:Hdb; [|done]. cbn [require] in H.
  destruct (jget (del_inbox_id dl) (inbox s)) as [r0|] eqn:Hr0; [|done]. cbn [of_option] in H.
  pose proof Hdn as Hdn'%bool_decide_eq_true. pose proof Hdb as Hdb'%bool_decide_eq_true.
  apply activeBinding_ok in Hab as [Hcur _]. case_bool_decide as Hst.
  - injection H as <- <-. split; [|split; [done|]].
    + exists n, sl, dl, r0. repeat (split; [done|]). by right.
    + rewrite Hdl. cbn [of_option]. rewrite Hdn, Hdb. cbn [require]. rewrite Hr0. cbn [of_option].
      by rewrite bool_decide_eq_true_2.
  - destruct (bool_decide (rec_state r0 = DELIVERED)) eqn:Hd; [|done]. cbn [require] in H.
    unfold jwrite, jret in H. injection H as <- <-. apply bool_decide_eq_true in Hd. split; [|split; [done|]].
    + exists n, sl, dl, r0. repeat (split; [done|]). by left.
    + cbn [deliveries inbox set_inbox]. rewrite Hdl. cbn [of_option]. rewrite Hdn, Hdb. cbn [require].
      rewrite jget_jset_eq. cbn [of_option]. by rewrite bool_decide_eq_true_2.
Qed.
End claims.

(** ** Two defects *)

(** [issueGrant] looks the previous revision up under the id as it was
    passed but stores the grant under the trimmed id: an id with white space
    around it overwrites the stored grant with revision 1, whatever revision
    that grant had reached. *)
Theorem padded_grant_id_restarts_revision {zod : Zod} {laws : ZodLaws zod} {src : SlotSource} sc input now s s' g e :
  issueGrant sc input now s = (s', Ok (g, e)) -> jget (gi_grant_id input) (grants s) = None ->
  grant_revision g = 1 /\ jget (trim (gi_grant_id input)) (grants s') = Some g.
Proof.
  unfold issueGrant. intros H Hnone. inv_ok. unfold record_grant in *. inv_ok.
  rewrite Hnone in *. unfold d_text in *. repeat (case_match; inv_ok).
  match goal with H : spatialPrimaryAgentGrantSchema _ = Some g |- _ => unfold spatialPrimaryAgentGrantSchema in H; rename H into Hg end.
  cbn [grant_id grant_revision] in Hg. inv_some. cbn [grant_id grant_revision grants add_grant_event set_grantSequences set_grants].
  repeat match goal with H : idSchema _ = Some _ |- _ => apply idSchema_spec in H as [-> _] end.
  match goal with H : revisionSchema _ = Some _ |- _ => apply z_nonneg_sound in H as [-> _] end.
  split; [done|]. rewrite trim_idem. apply jget_jset_eq.
Qed.

(** A slot source with one CONNECTED slot per Node. *)
Definition ws_src : SlotSource := fun sc =>
  Ok (Slot ("slot-" +:+ scope_node_id sc) (scope_node_id sc) (Some "b-1") CONNECTED 1 None None None
        (Some "g-1") None None None None).
Definition ws_scope (node : string) : scope := Scope "hv-1" node.
Definition ws_event (node id : string) (seq : Z) : inbox_event :=
  InboxEvent id node "task.failed" None (Some SEV_WARNING) seq
    (JObj [("Token", JStr "s3cret"); ("items", JArr [JObj [("password", JNum 4); ("note", JStr "kept")]])]) (Some 100).
Definition ws_publish (node id : string) (seq : Z) (s : service) : service * result delivery_error public_record :=
  publish (zod := zod_ref) (src := ws_src) (ws_scope node) (ws_event node id seq) (Some 100) s.

(** The event index joins Node and event id with a colon, and ids may
    contain colons: event "b:c" of Node "a" and event "c" of Node "a:b" share
    one entry, so publishing the second one on its own Node returns the record
    of the other Node and stores nothing. *)
Theorem event_index_confuses_nodes :
  exists s1 r1 r2,
    ws_publish "a" "b:c" 1 (new_service None) = (s1, Ok r1) /\
    ws_publish "a:b" "c" 2 s1 = (s1, Ok r2) /\ pub_node_id r2 = "a" /\ pub_event_id r2 = "b:c".
Proof. do 3 eexists. split; [|split; [|split]]; by vm_compute. Qed.

(** ** Witnesses *)

Definition ws_grant : grant_input := GrantInput "g-1" "b-1" [cap_read; cap_read] ["tool"; "tool"] None "operator" None.
Definition ws_s1 : service :=
  fst (issueGrant (zod := zod_ref) (src := ws_src) (ws_scope "n") ws_grant (Some 10) (new_service None)).
Definition ws_s2 : service :=
  fst (subscribe (zod := zod_ref) (src := ws_src) (ws_scope "n") "sub-1" "b-1" None None (Some 20) ws_s1).
Definition ws_s3 : service := fst (ws_publish "n" "e-2" 7 ws_s2).
Definition ws_s4 : service := fst (ws_publish "n" "e-1" 3 ws_s3).
Definition ws_read (s : service) : service * result delivery_error (list delivery) :=
  readInbox (zod := zod_ref) (src := ws_src) (ws_scope "n") " b-1 " 50 (Some 200) s.
Definition ws_s5 : service := fst (ws_read ws_s4).
Definition ws_list (r : result delivery_error (list delivery)) : list delivery :=
  match r with Ok l => l | Err _ => [] end.

Lemma ws_steps4 : rtc (dstep (zod := zod_ref)) (new_service None) ws_s4.
Proof.
  eapply rtc_l. { by apply (d_issue ws_src (ws_scope "n") ws_grant (Some 10) _ ws_s1 _ (surjective_pairing _)). }
  eapply rtc_l. { by apply (d_subscribe ws_src (ws_scope "n") "sub-1" "b-1" None None (Some 20) _ ws_s2 _ (surjective_pairing _)). }
  eapply rtc_l. { by apply (d_publish ws_src (ws_scope "n") (ws_event "n" "e-2" 7) (Some 100) _ ws_s3 _ (surjective_pairing _)). }
  apply rtc_once. by apply (d_publish ws_src (ws_scope "n") (ws_event "n" "e-1" 3) (Some 100) _ ws_s4 _ (surjective_pairing _)).
Defined.

Lemma ws_steps5 : rtc (dstep (zod := zod_ref)) (new_service None) ws_s5.
Proof.
  etransitivity; [exact ws_steps4|]. apply rtc_once.
  by apply (d_read ws_src (ws_scope "n") " b-1 " 50 (Some 200) ws_s4 ws_s5 _ (surjective_pairing _)).
Defined.

Definition ws_record : inbox_record :=
  default (InboxRecord "" "" "" "" None "" None SEV_NONE 0 PENDING 0 0 None None JNull) (jget "slot-n:inbox:e-1" (inbox ws_s5)).

Lemma inbox_invariant_witness :
  0 <= attempts ws_record <= 3 /\ rec_state ws_record = DELIVERED /\
  last_delivery_id ws_record = Some "slot-n:inbox:e-1:delivery:1".
Proof.
  destruct (inbox_invariant (zod := zod_ref) None ws_s5 "slot-n:inbox:e-1" ws_record ws_steps5) as (H1 & H2 & _); [by vm_compute|].
  split; [exact H1|]. split; [by vm_compute|]. apply H2. left. by vm_compute.
Defined.

Lemma readInbox_delivers_witness :
  map del_event_id (ws_list (snd (ws_read ws_s4))) = ["e-1"; "e-2"] /\
  exists n, d_scope (zod := zod_ref) (ws_scope "n") = Ok n /\ Z.of_nat (length (ws_list (snd (ws_read ws_s4)))) <= 50.
Proof.
  split; [by vm_compute|].
  destruct (readInbox_delivers (zod := zod_ref) (src := ws_src) (ws_scope "n") " b-1 " 50 (Some 200) None ws_s4 ws_s5
              (ws_list (snd (ws_read ws_s4))) ws_steps4)
    as (n & sl & g & sub & rs & Hn & _ & _ & _ & _ & _ & _ & _ & _ & _ & _ & _ & _ & _ & Hl); [by vm_compute|].
  exists n. by split.
Defined.

Lemma publish_idempotent_witness :
  exists r', publish (zod := zod_ref) (src := ws_src) (ws_scope "n") (ws_event "n" " e-1 " 99) (Some 900) ws_s5 = (ws_s5, Ok r').
Proof.
  pose (r := match snd (ws_publish "n" "e-1" 3 ws_s3) with Ok r => r | Err _ => publicRecord ws_record end).
  apply (publish_idempotent (zod := zod_ref) (src := ws_src) (src' := ws_src) (ws_scope "n") (ws_event "n" "e-1" 3) (Some 100) ws_s3 ws_s4
           r (Scope "hv-1" "n") ws_s5
           (ws_scope "n") (ws_event "n" " e-1 " 99) (Some 900)
           (match ws_src (Scope "hv-1" "n") with Ok s => s | Err _ => w_slot_of w_repo0 end));
    [by vm_compute | by vm_compute | | by vm_compute | by vm_compute | done | done | done].
  apply rtc_once. by apply (d_read ws_src (ws_scope "n") " b-1 " 50 (Some 200) ws_s4 ws_s5 _ (surjective_pairing _)).
Defined.

Lemma revoked_binding_reads_nothing_witness :
  let s' := fst (onBindingRevoked "b-1" (Some 300) ws_s4) in
  exists e, readInbox (zod := zod_ref) (src := ws_src) (ws_scope "n") "b-1" 50 (Some 400) s' = (s', Err e).
Proof.
  intros s'. apply (revoked_binding_reads_nothing (zod := zod_ref) "b-1" (Some 300) None ws_s4 s' ws_steps4). by vm_compute.
Defined.

Lemma revoked_grant_reads_nothing_witness :
  let s' := fst (revokeGrant (zod := zod_ref) (ws_scope "n") "g-1" "operator" (Some 300) ws_s4) in
  exists e, readInbox (zod := zod_ref) (src := ws_src) (ws_scope "n") "b-1" 50 (Some 400) s' = (s', Err e).
Proof.
  intros s'.
  pose (g := match snd (revokeGrant (zod := zod_ref) (ws_scope "n") "g-1" "operator" (Some 300) ws_s4) with
             | Ok g => g | Err _ => Grant "" "" "" 0 [] [] None G_ACTIVE 0 "" None end).
  apply (revoked_grant_reads_nothing (zod := zod_ref) (src := ws_src) (ws_scope "n") "g-1" "operator" (Some 300) ws_s4 s' g
           (ws_scope "n") "b-1" 50 (Some 400) (Scope "hv-1" "n")
           (match ws_src (Scope "hv-1" "n") with Ok s => s | Err _ => w_slot_of w_repo0 end)); by vm_compute.
Defined.

Lemma acknowledge_once_witness :
  let p := acknowledge (zod := zod_ref) (src := ws_src) (ws_scope "n") "b-1" "slot-n:inbox:e-1:delivery:1" ws_s5 in
  exists r, snd p = Ok r /\ pub_state r = ACKED.
Proof.
  intros p. pose (r := match snd p with Ok r => r | Err _ => publicRecord ws_record end). exists r. split; [by vm_compute|].
  apply (acknowledge_once (zod := zod_ref) (src := ws_src) (ws_scope "n") "b-1" "slot-n:inbox:e-1:delivery:1" ws_s5 (fst p) r).
  by vm_compute.
Defined.

Lemma padded_grant_id_restarts_revision_witness :
  let p := issueGrant (zod := zod_ref) (src := ws_src) (ws_scope "n")
             (GrantInput " g-1" "b-1" [] [] None "operator" None) (Some 10)
             (fst (issueGrant (zod := zod_ref) (src := ws_src) (ws_scope "n") ws_grant (Some 10) ws_s1)) in
  exists g e, snd p = Ok (g, e) /\ grant_revision g = 1 /\ jget "g-1" (grants (fst p)) = Some g.
Proof.
  intros p.
  pose (ge := match snd p with Ok ge => ge | Err _ =>
    (Grant "" "" "" 0 [] [] None G_ACTIVE 0 "" None, GrantEvent "" "" 0 0 0 (Grant "" "" "" 0 [] [] None G_ACTIVE 0 "" None)) end).
  exists (fst ge), (snd ge). split; [by vm_compute|].
  apply (padded_grant_id_restarts_revision (zod := zod_ref) (src := ws_src) (ws_scope "n")
           (GrantInput " g-1" "b-1" [] [] None "operator" None) (Some 10)
           (fst (issueGrant (zod := zod_ref) (src := ws_src) (ws_scope "n") ws_grant (Some 10) ws_s1)) (fst p) (fst ge) (snd ge));
    by vm_compute.
Defined.

Lemma redaction_complete_witness :
  let v := redactValue default_profile "" (ie_payload (ws_event "n" "e" 1)) in
  reaches v [Key "items"; Index 0; Key "password"] (JStr "[REDACTED]") /\ JStr "[REDACTED]" = profile_replacement default_profile.
Proof.
  intros v.
  assert (Hr : reaches v [Key "items"; Index 0; Key "password"] (JStr "[REDACTED]")).
  { eapply reaches_key; [right; left|]. eapply reaches_index; [done|]. eapply reaches_key; [left|]. constructor. }
  split; [exact Hr|].
  apply (redaction_complete default_profile "" (ie_payload (ws_event "n" "e" 1)) [Key "items"; Index 0] (Key "password"));
    [exact Hr | by vm_compute].
Defined.

Lemma redaction_precise_witness :
  reaches (redactValue default_profile "" (ie_payload (ws_event "n" "e" 1))) [Key "items"; Index 0; Key "note"] (JStr "kept").
Proof.
  apply (redaction_precise default_profile "" (ie_payload (ws_event "n" "e" 1)) [Key "items"; Index 0; Key "note"] (JStr "kept")).
  - eapply reaches_key; [right; left|]. eapply reaches_index; [done|]. eapply reaches_key; [right; left|]. constructor.
  - done.
  - by vm_compute.
  - intros [|s0 [|s1 [|s2 pre]]] s post Heq; injection Heq; intros; subst;
      [by vm_compute | by vm_compute | by vm_compute | by destruct pre].
Defined.
