(* ===== verification/AgentState.v ===== *)
(** * Operational state of the Primary Agent (data/primary-agent-state.ts)

    [aggregatePrimaryAgentState] reduces the independent inputs (lifecycle,
    connectivity, health, work in flight, attention) to one operational state
    by a fixed precedence; [PrimaryAgentStateAggregator] keeps the current
    record of one Node, numbered by revision. *)

From S2P Require Import Prelude Json Contracts Slot SlotProps.
From stdpp Require Import pretty.

#[local] Open Scope Z_scope.

(** ** Inputs *)

Inductive connectivity : Type := conn_connected | conn_degraded | conn_disconnected | conn_unknown.
#[export] Instance connectivity_eq_dec : EqDecision connectivity.
Proof. solve_decision. Defined.

Inductive node_health : Type := NH_ONLINE | NH_DEGRADED | NH_OFFLINE | NH_UNKNOWN | NH_STALE | NH_DISCONNECTED.
#[export] Instance node_health_eq_dec : EqDecision node_health.
Proof. solve_decision. Defined.

Inductive freshness : Type := FRESH | STALE | PARTIAL | UNKNOWN | UNAVAILABLE.
#[export] Instance freshness_eq_dec : EqDecision freshness.
Proof. solve_decision. Defined.

(** [PrimaryAgentStateInputs]. [in_observed_at]: absent, or the result of
    [Date.parse] on the string ([Some None] when it does not parse). The
    attention severity is the raw string. *)
Record state_inputs : Type := StateInputs {
  si_lifecycle : lifecycle;
  si_binding_id : option string;
  si_connectivity : option connectivity;
  si_node_health : option node_health;
  si_freshness : option freshness;
  si_observed_at : option date;
  si_max_age_ms : option Z;
  si_request : bool;
  si_tool : bool;
  si_work : bool;
  si_severity : option string;
  si_source : option string;
  si_last_successful : option iso;
  si_last_failed : option iso;
}.

Definition ATTENTION_SEVERITIES : list (string * attention_severity) :=
  [("NONE", SEV_NONE); ("INFO", SEV_INFO); ("WARNING", SEV_WARNING); ("CRITICAL", SEV_CRITICAL)].

Definition attentionRank (s : attention_severity) : Z :=
  match s with SEV_NONE => 0 | SEV_INFO => 1 | SEV_WARNING => 2 | SEV_CRITICAL => 3 end.

Definition severity (value : option string) : result error attention_severity :=
  match value with
  | Some v => if truthy (Some v) then of_option (jget v ATTENTION_SEVERITIES) (Conflict VALIDATION)
              else Ok SEV_NONE
  | None => Ok SEV_NONE
  end.

(** A comparison with an invalid clock is false. *)
Definition healthIsStale (i : state_inputs) (now : date) : bool :=
  if bool_decide (si_freshness i ∈ [Some STALE; Some UNKNOWN; Some UNAVAILABLE]) then true
  else if bool_decide (si_node_health i ∈ [Some NH_UNKNOWN; Some NH_STALE]) then true
  else match si_observed_at i with
       | None => false
       | Some None => true
       | Some (Some observed) =>
           match si_max_age_ms i, now with
           | Some max, Some t => bool_decide (Z.max 1 max < t - observed)
           | _, _ => false
           end
       end.

Definition is_offline (i : state_inputs) (now : date) : bool :=
  negb (truthy (si_binding_id i))
  || bool_decide (si_lifecycle i = UNASSIGNED)
  || bool_decide (si_lifecycle i = REVOKED)
  || bool_decide (si_lifecycle i = DISCONNECTED)
  || bool_decide (si_connectivity i = Some conn_disconnected)
  || bool_decide (si_node_health i = Some NH_OFFLINE)
  || bool_decide (si_node_health i = Some NH_DISCONNECTED)
  || healthIsStale i now.

Definition aggregatePrimaryAgentState (i : state_inputs) (now : date) : result error operational_state :=
  let? attention := severity (si_severity i) in
  Ok (if bool_decide (attention = SEV_CRITICAL) then CRITICAL
      else if is_offline i now then OFFLINE
      else if bool_decide (0 < attentionRank attention) then ATTENTION
      else if si_tool i then ACTING
      else if si_request i then THINKING
      else if si_work i || bool_decide (si_lifecycle i = BINDING) then WORKING
      else if bool_decide (si_connectivity i = Some conn_degraded)
              || bool_decide (si_node_health i = Some NH_DEGRADED) then LISTENING
      else READY).

(** ** The aggregator *)

Record aggregator : Type := Aggregator {
  agg_scope : scope;
  agg_current : option agent_state;
}.

Record transition : Type := Transition {
  tr_record : agent_state;
  tr_previous_state : option operational_state;
  tr_changed : bool;
}.

Record state_event : Type := StateEvent {
  se_event_id : string;
  se_node_id : string;
  se_sequence : Z;
  se_revision : Z;
  se_occurred_at : iso;
  se_correlation_id : string;
  se_payload : agent_state;
}.

Section aggregator.
Context {zod : Zod}.

Definition zid (s : string) : result error string := of_option (idSchema s) ZodError.

Definition createPrimaryAgentStateRecord (sc : scope) (s : slot) (i : state_inputs) (revision : option Z) (now : date)
  : result error agent_state :=
  let? n := scope_of sc in
  require (str_eqb (slot_node_id s) (scope_node_id n)) (Conflict NODE_MISMATCH) ;?
  let? observedAt := nowIso now in
  let? sid := zid (slot_id s) in
  let? state := aggregatePrimaryAgentState i now in
  let? sev := severity (si_severity i) in
  let? source := zid (default "primary-agent-state-aggregator" (si_source i)) in
  let? rev := of_option (revisionSchema (default 1 revision)) ZodError in
  of_option (spatialPrimaryAgentStateSchema
    (AgentState (scope_node_id n) sid (current_binding_id s) state sev source rev observedAt
       (si_last_successful i) (si_last_failed i))) (Conflict VALIDATION).

Definition new_aggregator (sc : scope) (initial : option agent_state) : result error aggregator :=
  let? n := scope_of sc in
  match initial with
  | None => Ok (Aggregator n None)
  | Some st =>
      let? parsed := of_option (spatialPrimaryAgentStateSchema st) (Conflict VALIDATION) in
      require (str_eqb (st_node_id parsed) (scope_node_id n)) (Conflict NODE_MISMATCH) ;?
      Ok (Aggregator n (Some parsed))
  end.

Definition update (s : slot) (i : state_inputs) (now : date) : method aggregator error transition :=
  let! nextState := jlift (aggregatePrimaryAgentState i now) in
  let! a := jread in
  let previous := agg_current a in
  let! next := jlift (createPrimaryAgentStateRecord (agg_scope a) s i
                 (Some (default 0 (st_revision <$> previous) + 1)) now) in
  jwrite (Aggregator (agg_scope a) (Some next)) ;!
  jret (Transition next (st_state <$> previous)
          (negb (bool_decide (st_state <$> previous = Some nextState))
           || negb (bool_decide (st_severity <$> previous = Some (st_severity next))))).

Definition ingest (record : agent_state) : method aggregator error agent_state :=
  let! parsed := jlift (of_option (spatialPrimaryAgentStateSchema record) (Conflict VALIDATION)) in
  let! a := jread in
  jlift (require (str_eqb (st_node_id parsed) (scope_node_id (agg_scope a))) (Conflict NODE_MISMATCH)) ;!
  jlift (require (match agg_current a with
                  | Some cur => bool_decide (st_revision cur <= st_revision parsed)
                  | None => true
                  end) (Conflict STALE_REVISION)) ;!
  jwrite (Aggregator (agg_scope a) (Some parsed)) ;!
  jret parsed.

Definition snapshot (a : aggregator) : option agent_state := agg_current a.

Definition event (record : agent_state) (sequence : option Z) : state_event :=
  StateEvent (st_slot_id record +:+ ":state:" +:+ pretty (st_revision record)) (st_node_id record)
    (default (st_revision record) sequence) (st_revision record) (st_observed_at record)
    (st_slot_id record) record.

Inductive agg_step : aggregator -> aggregator -> Prop :=
| ag_update s i now a a' res : update s i now a = (a', res) -> agg_step a a'
| ag_ingest r a a' res : ingest r a = (a', res) -> agg_step a a'.
End aggregator.

(** ** Theorems *)

(** Precedence of the operational state. CRITICAL is shown exactly for
    critical attention, also offline. Otherwise OFFLINE is shown exactly when
    the agent is unbound, its slot unassigned, revoked or disconnected, its
    connection or Node down, or its health stale. Only then come attention,
    tool action, request, work (or binding), degradation; READY is left for a
    bound agent on a live slot with none of these. *)
Theorem state_precedence i now st att :
  severity (si_severity i) = Ok att -> aggregatePrimaryAgentState i now = Ok st ->
  (st = CRITICAL <-> att = SEV_CRITICAL) /\
  (st = OFFLINE <-> att <> SEV_CRITICAL /\ is_offline i now = true) /\
  (st = ATTENTION <-> (att = SEV_INFO \/ att = SEV_WARNING) /\ is_offline i now = false) /\
  (st = READY <-> att = SEV_NONE /\ is_offline i now = false /\
     si_tool i = false /\ si_request i = false /\ si_work i = false /\
     (si_lifecycle i = CONNECTED \/ si_lifecycle i = DEGRADED) /\
     si_connectivity i <> Some conn_degraded /\ si_node_health i <> Some NH_DEGRADED).
Proof.
  intros Hatt H. unfold aggregatePrimaryAgentState in H. rewrite Hatt in H. injection H as <-.
  assert (Hlive : is_offline i now = false -> si_lifecycle i <> UNASSIGNED /\ si_lifecycle i <> REVOKED /\ si_lifecycle i <> DISCONNECTED).
  { unfold is_offline. rewrite !orb_false_iff, !bool_decide_eq_false. tauto. }
  destruct (is_offline i now); [destruct att; naive_solver|]. specialize (Hlive eq_refl) as (H1 & H2 & H3).
  destruct (si_tool i), (si_request i), (si_work i); destruct att; simpl; try naive_solver.
  destruct (si_lifecycle i); simpl; repeat case_bool_decide; naive_solver.
Qed.

Section aggregator_laws.
Context {zod : Zod} {laws : ZodLaws zod}.

(** The record kept is contract-valid and of the aggregator's Node. *)
Definition agg_ok (a : aggregator) : Prop :=
  scope_of (agg_scope a) = Ok (agg_scope a) /\
  match agg_current a with
  | Some cur => spatialPrimaryAgentStateSchema cur = Some cur /\ st_node_id cur = scope_node_id (agg_scope a)
  | None => True
  end.

Lemma createRecord_ok sc s i rev now st n :
  scope_of sc = Ok n -> createPrimaryAgentStateRecord sc s i (Some rev) now = Ok st ->
  spatialPrimaryAgentStateSchema st = Some st /\ st_node_id st = scope_node_id n /\ st_revision st = rev /\
  Ok (st_state st) = aggregatePrimaryAgentState i now.
Proof using laws.
  intros Hn H. unfold createPrimaryAgentStateRecord in H. rewrite Hn in H. cbn [rbind] in H. inv_ok.
  match goal with H : spatialPrimaryAgentStateSchema _ = Some st |- _ => rename H into Hp end.
  split; [by eapply stateSchema_idem|].
  unfold spatialPrimaryAgentStateSchema in Hp. simpl in *. inv_some. cbn [st_node_id st_revision st_state].
  assert (Htrim : trim (scope_node_id n) = scope_node_id n).
  { unfold scope_of, normalizeSpatialNodeScope in Hn. rewrite of_option_ok in Hn. inv_some. cbn [scope_node_id].
    by repeat match goal with H : idSchema _ = Some _ |- _ => apply idSchema_spec in H as [-> _] end; rewrite trim_idem. }
  repeat match goal with H : revisionSchema _ = Some _ |- _ => apply z_nonneg_sound in H as [-> _] end.
  repeat match goal with H : idSchema _ = Some _ |- _ => apply idSchema_spec in H as [-> _] end.
  by rewrite Htrim.
Qed.

Lemma update_ok s i now a a' res : update s i now a = (a', res) -> scope_of (agg_scope a) = Ok (agg_scope a) ->
  match res with
  | Err _ => a' = a
  | Ok tr => exists st, a' = Aggregator (agg_scope a) (Some st) /\ tr_record tr = st /\
      spatialPrimaryAgentStateSchema st = Some st /\ st_node_id st = scope_node_id (agg_scope a) /\
      st_revision st = default 0 (st_revision <$> agg_current a) + 1 /\
      Ok (st_state st) = aggregatePrimaryAgentState i now
  end.
Proof using laws.
  intros H Hsc. unfold update, jbind, jlift, jread, jwrite, jret in H.
  destruct (aggregatePrimaryAgentState i now) as [st0|e] eqn:Hagg; [|by injection H as <- <-].
  destruct (createPrimaryAgentStateRecord _ _ _ _ _) as [st|e] eqn:Hc; [|by injection H as <- <-].
  injection H as <- <-. exists st. apply (createRecord_ok _ _ _ _ _ _ _ Hsc) in Hc as (? & ? & ? & ?).
  by rewrite <-Hagg.
Qed.

Lemma ingest_ok r a a' res : ingest r a = (a', res) ->
  match res with
  | Err _ => a' = a
  | Ok st => a' = Aggregator (agg_scope a) (Some st) /\ spatialPrimaryAgentStateSchema st = Some st /\
      st_node_id st = scope_node_id (agg_scope a) /\
      (forall cur, agg_current a = Some cur -> st_revision cur <= st_revision st)
  end.
Proof using laws.
  intros H. unfold ingest, jbind, jlift, jread, jwrite, jret in H.
  destruct (spatialPrimaryAgentStateSchema r) as [st|] eqn:Hp; cbn [of_option] in H; [|by injection H as <- <-].
  destruct (str_eqb _ _) eqn:Hn; cbn [require] in H; [|by injection H as <- <-].
  destruct (match agg_current a with Some _ => _ | None => _ end) eqn:Hrev; cbn [require] in H; [|by injection H as <- <-].
  injection H as <- <-. split; [done|]. split; [by eapply stateSchema_idem|]. split; [by apply str_eqb_eq|].
  intros cur Hcur. rewrite Hcur in Hrev. by apply bool_decide_eq_true in Hrev.
Qed.

Lemma agg_step_ok a a' : agg_step a a' -> agg_ok a -> agg_ok a' /\ agg_scope a' = agg_scope a /\
  (forall cur, agg_current a = Some cur -> exists cur', agg_current a' = Some cur' /\ st_revision cur <= st_revision cur').
Proof using laws.
  intros Hs [Hsc Hcur]. destruct Hs as [s i now a a' res H|r a a' res H].
  - apply update_ok in H; [|done]. destruct res as [tr|e]; [|subst a'; split; [by split|]; split; [done|]; intros cur Hc; exists cur; split; [done|lia]].
    destruct H as (st & -> & _ & Hp & Hn & Hr & _). split; [done|]. split; [done|].
    intros cur Hc. exists st. split; [done|]. rewrite Hr, Hc. simpl. lia.
  - apply ingest_ok in H. destruct res as [st|e]; [|subst a'; split; [by split|]; split; [done|]; intros cur Hc; exists cur; split; [done|lia]].
    destruct H as (-> & Hp & Hn & Hr). split; [done|]. split; [done|]. eauto.
Qed.

(** Over any sequence of updates and ingested events, failed ones
    included, the aggregator stays on its Node, the record it holds is
    contract-valid and of that Node, and its revision never goes back. *)
Theorem state_revision_monotone sc initial a a' cur :
  new_aggregator sc initial = Ok a -> rtc agg_step a a' -> agg_current a = Some cur ->
  exists cur', agg_current a' = Some cur' /\ st_revision cur <= st_revision cur' /\
    spatialPrimaryAgentStateSchema cur' = Some cur' /\ st_node_id cur' = scope_node_id (agg_scope a) /\
    agg_scope a' = agg_scope a.
Proof using laws.
  intros Hnew Hsteps Hcur.
  assert (Hok : agg_ok a).
  { unfold new_aggregator in Hnew. inv_ok. destruct initial as [st|]; inv_ok.
    - split; [by eapply scope_of_idem|]. split; [by eapply stateSchema_idem | by apply str_eqb_eq].
    - split; [by eapply scope_of_idem | done]. }
  assert (Hinv : agg_ok a' /\ agg_scope a' = agg_scope a /\
                 exists cur', agg_current a' = Some cur' /\ st_revision cur <= st_revision cur').
  { clear Hnew. induction Hsteps as [a|a a1 a2 Hs Hsteps IH] in cur, Hcur, Hok |- *; [eauto with lia|].
    apply agg_step_ok in Hs as (Hok1 & Hsc1 & Hmono); [|done].
    destruct (Hmono _ Hcur) as (c1 & Hc1 & Hle1). destruct (IH _ Hc1 Hok1) as (Hok2 & Hsc2 & c2 & Hc2 & Hle2).
    split; [done|]. split; [congruence|]. exists c2. split; [done | lia]. }
  destruct Hinv as ([_ Hc] & Hsc & cur' & Hcur' & Hle). rewrite Hcur' in Hc. exists cur'. rewrite <-Hsc. naive_solver.
Qed.

(** A successful [update] numbers the record one above the previous
    one, gives it the aggregated state, and reports a change exactly when
    there was no previous record or its state or severity differs; a failed
    one leaves the aggregator as it was. *)
Theorem update_effect s i now a a' res :
  scope_of (agg_scope a) = Ok (agg_scope a) -> update s i now a = (a', res) ->
  match res with
  | Err _ => a' = a
  | Ok tr => agg_current a' = Some (tr_record tr) /\
      st_revision (tr_record tr) = default 0 (st_revision <$> agg_current a) + 1 /\
      Ok (st_state (tr_record tr)) = aggregatePrimaryAgentState i now /\
      (tr_changed tr = false <-> exists cur, agg_current a = Some cur /\
         st_state cur = st_state (tr_record tr) /\ st_severity cur = st_severity (tr_record tr))
  end.
Proof using laws.
  intros Hsc H. pose proof (update_ok _ _ _ _ _ _ H Hsc) as Hok. destruct res as [tr|e]; [|done].
  destruct Hok as (st & -> & <- & _ & _ & Hr & Hagg). split; [done|]. split; [done|]. split; [done|].
  unfold update, jbind, jlift, jread, jwrite, jret in H. rewrite <-Hagg in H.
  destruct (createPrimaryAgentStateRecord _ _ _ _ _) as [st|e]; [|done]. injection H as Hst Htr.
  apply (f_equal tr_changed) in Htr as <-. cbn [tr_changed]. rewrite Hst, orb_false_iff, !negb_false_iff, !bool_decide_eq_true.
  destruct (agg_current a) as [c|]; simpl; split.
  - intros [[= H1] [= H2]]. by exists c.
  - intros (cur & [= <-] & H1 & H2). by rewrite H1, H2.
  - by intros [? _].
  - by intros (? & ? & _).
Qed.
End aggregator_laws.

(** ** Witnesses *)

Definition wst_inputs : state_inputs :=
  StateInputs CONNECTED (Some "b-1") (Some conn_connected) (Some NH_ONLINE) (Some FRESH) (Some (Some 900)) (Some 200)
    true false false None None None None.
Definition wst_initial : agent_state :=
  AgentState "node-1" "slot" (Some "b-1") READY SEV_NONE "src" 4 800 None None.
Definition wst_agg : aggregator := Aggregator (Scope "hv-1" "node-1") (Some wst_initial).
Definition wst_slot : slot :=
  Slot "slot" "node-1" (Some "b-1") CONNECTED 3 None None None None None None None None.
Definition wst_run (i : state_inputs) : aggregator * result error transition :=
  update (zod := zod_ref) wst_slot i (Some 1000) wst_agg.

Lemma state_precedence_witness :
  aggregatePrimaryAgentState wst_inputs (Some 1000) = Ok THINKING /\ THINKING <> READY /\
  aggregatePrimaryAgentState wst_inputs (Some 1101) = Ok OFFLINE.
Proof.
  split; [done|]. split; [|done].
  destruct (state_precedence wst_inputs (Some 1000) THINKING SEV_NONE eq_refl eq_refl) as (_ & _ & _ & H).
  intros Hr. apply H in Hr as (_ & _ & _ & Hr & _). done.
Defined.

Lemma state_revision_monotone_witness :
  exists cur', agg_current (fst (wst_run wst_inputs)) = Some cur' /\ 4 <= st_revision cur'.
Proof.
  destruct (state_revision_monotone (zod := zod_ref) (Scope "hv-1" "node-1") (Some wst_initial) wst_agg
              (fst (wst_run wst_inputs)) wst_initial) as (cur' & Hc & Hle & _).
  - by vm_compute.
  - apply rtc_once. by apply (ag_update wst_slot wst_inputs (Some 1000) wst_agg _ (snd (wst_run wst_inputs))).
  - done.
  - by exists cur'.
Defined.

Lemma update_effect_witness :
  match snd (wst_run wst_inputs) with
  | Ok tr => st_revision (tr_record tr) = 5 /\ tr_changed tr = true
  | Err _ => False
  end.
Proof.
  pose proof (update_effect (zod := zod_ref) wst_slot wst_inputs (Some 1000) wst_agg (fst (wst_run wst_inputs))
                (snd (wst_run wst_inputs)) eq_refl eq_refl) as H.
  revert H. vm_compute. by intros (_ & H & _).
Defined.
