(* ===== verification/Numbers.v ===== *)
(** * JavaScript numbers that need not be integers

    A number is a rational, an infinity or NaN: the comparisons the sources
    make, [Number.isFinite], [Math.min] and [Math.max], and the number contract
    [z.number().finite().nonnegative().max(m)] of contracts/index.ts. *)

From Stdlib Require Import QArith Qround Qabs.
From S2P Require Import Prelude.
From S2P Require Import Contracts.

Inductive jsnum : Type := Finite (q : Q) | PosInf | NegInf | NaN.

(** [a < b]: false as soon as one side is NaN. *)
Definition num_lt (a b : jsnum) : bool :=
  match a, b with
  | NaN, _ | _, NaN => false
  | Finite p, Finite q => negb (Qle_bool q p)
  | NegInf, NegInf | PosInf, _ | _, NegInf => false
  | NegInf, _ | _, PosInf => true
  end.

Definition isFinite (a : jsnum) : bool := match a with Finite _ => true | _ => false end.

(** [Number.isInteger]. *)
Definition isInteger (a : jsnum) : bool :=
  match a with Finite q => bool_decide (Qden (Qred q) = 1%positive) | _ => false end.

Definition num (z : Z) : jsnum := Finite (inject_Z z).

(** [Math.min], [Math.max] and addition. *)
Definition num_min (a b : jsnum) : jsnum :=
  match a, b with NaN, _ | _, NaN => NaN | _, _ => if num_lt b a then b else a end.
Definition num_max (a b : jsnum) : jsnum :=
  match a, b with NaN, _ | _, NaN => NaN | _, _ => if num_lt a b then b else a end.
Definition num_add (a b : jsnum) : jsnum :=
  match a, b with
  | Finite p, Finite q => Finite (p + q)
  | NaN, _ | _, NaN | PosInf, NegInf | NegInf, PosInf => NaN
  | PosInf, _ | _, PosInf => PosInf
  | NegInf, _ | _, NegInf => NegInf
  end.

(** [Math.ceil(a / d)] for a positive [d]. *)
Definition num_ceil_div (a : jsnum) (d : positive) : jsnum :=
  match a with Finite q => num (Qceiling (q / inject_Z (Zpos d))) | _ => a end.

(** [a <= b], [a >= b] the other way round. *)
Definition num_le (a b : jsnum) : bool :=
  match a, b with NaN, _ | _, NaN => false | _, _ => negb (num_lt b a) end.

Definition num_opp (a : jsnum) : jsnum :=
  match a with Finite q => Finite (- q) | PosInf => NegInf | NegInf => PosInf | NaN => NaN end.
Definition num_sub (a b : jsnum) : jsnum := num_add a (num_opp b).

(** The sign of a number, 0 for NaN. *)
Definition num_sgn (a : jsnum) : Z :=
  match a with Finite q => Z.sgn (Qnum q) | PosInf => 1 | NegInf => -1 | NaN => 0 end.
Definition num_mul (a b : jsnum) : jsnum :=
  match a, b with
  | Finite p, Finite q => Finite (p * q)
  | NaN, _ | _, NaN => NaN
  | _, _ => match num_sgn a * num_sgn b with Zpos _ => PosInf | Zneg _ => NegInf | Z0 => NaN end
  end%Z.

(** [Math.floor], and the integer part towards zero. *)
Definition num_floor (a : jsnum) : jsnum := match a with Finite q => num (Qfloor q) | _ => a end.
Definition Qtrunc (q : Q) : Z := Z.quot (Qnum q) (Zpos (Qden q)).

(** [Number(a.toFixed(n))]: the nearest multiple of [10 ^ -n], away from zero
    when there are two. *)
Definition toFixed (n : nat) (a : jsnum) : jsnum :=
  match a with
  | Finite q =>
      let s := Pos.pow 10 (Pos.of_succ_nat n) in
      let t := (Qfloor (Qabs q * inject_Z (10 ^ Z.of_nat n) + (1 # 2)))%Z in
      Finite (Z.sgn (Qnum q) * t * 10 # s)
  | _ => a
  end%Z.

(** The trigonometry and square root of the host; [Math.PI], as a double. *)
Class HostMath : Type := { host_cos : Q -> Q; host_sin : Q -> Q; host_sqrt : Q -> Q }.
Definition MATH_PI : Q := 884279719003555 # 281474976710656.

(** The double nearest to a rational, ties to the even significand, for what
    is neither subnormal nor too large. *)
Definition round_even (q : Q) : Z :=
  let f := Qfloor q in
  match (q - inject_Z f ?= 1 # 2)%Q with
  | Lt => f
  | Gt => f + 1
  | Eq => if Z.even f then f else f + 1
  end%Z.

Definition two_to (e : Z) : Q := if bool_decide (0 <= e)%Z then inject_Z (2 ^ e) else / inject_Z (2 ^ (- e)).

Definition to_double (q : Q) : Q :=
  let n := Z.abs (Qnum q) in
  if bool_decide (n = 0)%Z then 0
  else
    let e0 := (Z.log2 n - Z.log2 (Zpos (Qden q)) - 52)%Z in
    let e := if negb (Qle_bool (inject_Z (2 ^ 52) * two_to e0) (n # Qden q)) then (e0 - 1)%Z else e0 in
    (inject_Z (Z.sgn (Qnum q) * round_even ((n # Qden q) / two_to e)) * two_to e).

(** Comparisons of finite numbers and of integers. *)
Lemma num_lt_finite p q : num_lt (Finite p) (Finite q) = true <-> (p < q)%Q.
Proof. cbn [num_lt]. rewrite negb_true_iff, <-not_true_iff_false, Qle_bool_iff. split; [apply Qnot_le_lt | apply Qlt_not_le]. Qed.

Lemma num_le_finite p q : num_le (Finite p) (Finite q) = true <-> (p <= q)%Q.
Proof. cbn [num_le num_lt]. rewrite negb_involutive. apply Qle_bool_iff. Qed.

Lemma num_le_num a b : num_le (num a) (num b) = bool_decide (a <= b)%Z.
Proof.
  unfold num. cbn [num_le num_lt]. rewrite negb_involutive. apply eq_true_iff_eq.
  rewrite Qle_bool_iff, bool_decide_eq_true. by rewrite <-Zle_Qle.
Qed.

Lemma num_lt_num a b : num_lt (num a) (num b) = bool_decide (a < b)%Z.
Proof.
  assert (H : num_lt (num a) (num b) = negb (num_le (num b) (num a))) by (cbn [num num_le]; by rewrite negb_involutive).
  rewrite H, num_le_num. repeat case_bool_decide; try done; lia.
Qed.

(** [z.number().finite()]. *)
Definition finiteNumber (a : jsnum) : option jsnum := if isFinite a then Some a else None.

(** [z.number().finite().nonnegative().max(m)]. *)
Definition boundedSchema (m : Z) (a : jsnum) : option jsnum :=
  if isFinite a && negb (num_lt a (num 0)) && negb (num_lt (num m) a) then Some a else None.

(** [z.number().int().nonnegative().max(m)]. *)
Definition boundedIntSchema (m : Z) (a : jsnum) : option jsnum := if isInteger a then boundedSchema m a else None.

(** A position, and its contract. *)
Record position : Type := Position { po_x : jsnum; po_y : jsnum; po_z : jsnum }.

Definition spatialPositionSchema (p : position) : option position :=
  x ← finiteNumber (po_x p);
  y ← finiteNumber (po_y p);
  z ← finiteNumber (po_z p);
  Some (Position x y z).

(** [nullableNumber(m)]. *)
Definition nullableNumber (m : Z) : option jsnum -> option (option jsnum) := nullable (boundedSchema m).

Lemma boundedSchema_spec m a b : boundedSchema m a = Some b ->
  b = a /\ exists q, a = Finite q /\ (0 <= q /\ q <= inject_Z m)%Q.
Proof.
  unfold boundedSchema, num. destruct a as [q| | |]; [|done..]. cbn [isFinite num_lt andb]. rewrite !negb_involutive.
  destruct (Qle_bool (inject_Z 0) q) eqn:H0; cbn [andb]; [|done].
  destruct (Qle_bool q (inject_Z m)) eqn:H1; [|done].
  intros [= <-]. split; [done|]. exists q. split; [done|]. by split; apply Qle_bool_iff.
Qed.

#[export] Instance boundedSchema_idem m : Idempotent (boundedSchema m).
Proof. intros a b H. pose proof (boundedSchema_spec _ _ _ H) as [-> _]. done. Qed.
