(* ===== verification/Text.v ===== *)
(** * Text replacement and sorting

    [String.prototype.replace] with a global pattern, as a scan with a matcher
    that returns what follows its match; the parsers the patterns of the sources
    are made of; prefixes and suffixes of strings; and a stable
    [Array.prototype.sort]. *)

From Stdlib Require Import Sorted.
From stdpp Require Import sorting.
From S2P Require Import Prelude.
From S2P Require Import Json.

(** ** Parsers *)

(** A matcher returns the text after its match. *)
Definition matcher : Type := string -> option string.

(** One character of a class. *)
Definition eat (P : ascii -> bool) : matcher := fun s =>
  match s with
  | EmptyString => None
  | String c s => if P c then Some s else None
  end.

(** A greedy [*] of a class that what follows excludes. *)
Fixpoint skip (P : ascii -> bool) (s : string) : string :=
  match s with
  | EmptyString => EmptyString
  | String c s' => if P c then skip P s' else s
  end.

Definition ascii_lower (c : ascii) : ascii := ascii_map_range 65 90 (fun n => n + 32)%N c.

(** A word, whatever its case. *)
Fixpoint word (w : string) : matcher := fun s =>
  match w with
  | EmptyString => Some s
  | String c w => s' ← eat (fun d => bool_decide (ascii_lower d = c)) s; word w s'
  end.

(** Classes of characters. *)
Definition is_alpha (c : ascii) : bool := let n := N_of_ascii (ascii_lower c) in bool_decide (97 <= n <= 122)%N.
Definition is_digit (c : ascii) : bool := let n := N_of_ascii c in bool_decide (48 <= n <= 57)%N.
Definition one_of (l : string) (c : ascii) : bool := existsb (Ascii.eqb c) (String.list_ascii_of_string l).

Definition first_of (l : list matcher) : matcher := fun s =>
  foldr (fun m acc => match m s with Some r => Some r | None => acc end) None l.
Definition in_order (l : list matcher) : matcher := fun s => foldl (fun o m => o ≫= m) (Some s) l.
(** [m?], [P*], [P{n,}] and [\b] after a word character. *)
Definition maybe (m : matcher) : matcher := fun s => match m s with Some r => Some r | None => Some s end.
Definition many (P : ascii -> bool) : matcher := fun s => Some (skip P s).
Definition at_least (n : nat) (P : ascii -> bool) : matcher := fun s =>
  let r := skip P s in if bool_decide (n + String.length r <= String.length s)%nat then Some r else None.
Definition is_word_char (c : ascii) : bool := is_alpha c || is_digit c || one_of "_" c.
Definition word_end : matcher := fun s =>
  match s with String c _ => if is_word_char c then None else Some s | EmptyString => Some s end.

(** [pattern.test(s)]: the pattern matches somewhere. *)
Fixpoint test (m : matcher) (s : string) : bool :=
  bool_decide (is_Some (m s)) || match s with EmptyString => false | String _ s => test m s end.

(** [String.prototype.includes]. *)
Fixpoint includes (sub s : string) : bool :=
  String.prefix sub s || match s with EmptyString => false | String _ s => includes sub s end.

(** The names [Object.prototype] answers for: functions and an object. *)
Definition inherited : list string :=
  ["constructor"; "__defineGetter__"; "__defineSetter__"; "hasOwnProperty"; "__lookupGetter__"; "__lookupSetter__";
   "isPrototypeOf"; "propertyIsEnumerable"; "toString"; "valueOf"; "__proto__"; "toLocaleString"].

(** ** Global replacement *)

Fixpoint replace_go (m : matcher) (lit : string) (n : nat) (s : string) : string :=
  match s with
  | EmptyString => EmptyString
  | String c s' =>
      match n with
      | S n => replace_go m lit n s'
      | O =>
          match m s with
          | Some rest => lit +:+ replace_go m lit (String.length s' - String.length rest) s'
          | None => String c (replace_go m lit 0 s')
          end
      end
  end.

(** [s.replace(/m/g, lit)], for a matcher that consumes at least a character
    and a [lit] without group references. *)
Definition replace (m : matcher) (lit : string) (s : string) : string := replace_go m lit 0 s.

(** [s.slice(0, n)]. *)
Fixpoint slice (n : nat) (s : string) : string :=
  match n, s with
  | S n, String c s => String c (slice n s)
  | _, _ => EmptyString
  end.

(** ** Prefixes and suffixes *)

Definition is_suffix (t s : string) : Prop := exists p, s = p +:+ t.
Definition is_prefix (t s : string) : Prop := exists p, s = t +:+ p.

Lemma is_suffix_refl s : is_suffix s s.
Proof. by exists "". Qed.
Lemma is_suffix_cons c t s : is_suffix t s -> is_suffix t (String c s).
Proof. intros [p ->]. by exists (String c p). Qed.
Lemma is_suffix_trans a b c : is_suffix a b -> is_suffix b c -> is_suffix a c.
Proof. intros [p ->] [q ->]. exists (q +:+ p). by rewrite sapp_assoc. Qed.
Lemma is_suffix_inv t c s : is_suffix t (String c s) -> t = String c s \/ is_suffix t s.
Proof. intros [[|d p] H]; [by left|]. right. rewrite sapp_cons in H. injection H as <- H. by exists p. Qed.
Lemma is_suffix_empty t : is_suffix t "" -> t = "".
Proof. intros [[|c p] H]; done. Qed.

(** A suffix of a concatenation starts in one of the two parts. *)
Lemma is_suffix_app t a b : is_suffix t (a +:+ b) -> is_suffix t b \/ exists a', is_suffix a' a /\ t = a' +:+ b.
Proof.
  induction a as [|c a IH]; [by left|]. rewrite sapp_cons. intros [->|H]%is_suffix_inv.
  - right. exists (String c a). split; [apply is_suffix_refl | by rewrite sapp_cons].
  - destruct (IH H) as [?|(a' & Ha & ->)]; [by left|]. right. exists a'. split; [by apply is_suffix_cons | done].
Qed.

(** A suffix of a prefix is a prefix of a suffix. *)
Lemma suffix_of_prefix t a s : is_suffix t a -> is_prefix a s -> exists b, is_suffix b s /\ is_prefix t b.
Proof. intros [p ->] [q ->]. exists (t +:+ q). split; [by exists p; rewrite sapp_assoc | by exists q]. Qed.

Lemma slice_prefix n s : is_prefix (slice n s) s.
Proof.
  revert s. induction n as [|n IH]; intros s; [by exists s|]. destruct s as [|c s]; [by exists ""|].
  destruct (IH s) as [p Hp]. exists p. cbn [slice]. rewrite sapp_cons. by rewrite <-Hp.
Qed.

Lemma slice_length n s : (String.length (slice n s) <= n)%nat.
Proof. revert s. induction n as [|n IH]; intros [|c s]; simpl; try lia. specialize (IH s). lia. Qed.

Lemma trim_start_suffix s : is_suffix (trim_start s) s.
Proof.
  induction s as [|c s IH]; [apply is_suffix_refl|]. simpl. destruct (is_js_space c); [by apply is_suffix_cons | apply is_suffix_refl].
Qed.

Lemma trim_end_prefix s : is_prefix (trim_end s) s.
Proof.
  induction s as [|c s [p IH]]; [by exists ""|]. simpl. destruct (trim_end s) as [|d s'] eqn:Ht.
  - destruct (is_js_space c); [by exists (String c s)|]. exists s. done.
  - exists p. rewrite IH at 1. by rewrite !sapp_cons.
Qed.

Lemma skip_suffix P s : is_suffix (skip P s) s.
Proof. induction s as [|c s IH]; [apply is_suffix_refl|]. simpl. destruct (P c); [by apply is_suffix_cons | apply is_suffix_refl]. Qed.

(** What a parser leaves is a suffix of what it was given. *)
Definition consumes (m : matcher) : Prop := forall s r, m s = Some r -> is_suffix r s.

Lemma eat_consumes P : consumes (eat P).
Proof. intros [|c s] r; simpl; [done|]. destruct (P c); [|done]. intros [= <-]. apply is_suffix_cons, is_suffix_refl. Qed.

Lemma word_consumes w : consumes (word w).
Proof.
  induction w as [|c w IH]; intros s r H; cbn [word] in H; [injection H as <-; apply is_suffix_refl|].
  apply bind_Some in H as (s' & H1 & H2). eapply is_suffix_trans; [by apply IH | by eapply eat_consumes].
Qed.

Lemma first_of_consumes l : Forall consumes l -> consumes (first_of l).
Proof.
  intros Hl s r. unfold first_of. induction Hl as [|m l Hm _ IH]; simpl; [done|].
  destruct (m s) eqn:E; [|done]. intros [= <-]. by apply Hm.
Qed.

Lemma in_order_consumes l : Forall consumes l -> consumes (in_order l).
Proof.
  intros Hl s r. unfold in_order. intros H. cut (forall o, foldl (fun o m => o ≫= m) o l = Some r -> exists t, o = Some t /\ is_suffix r t).
  { intros Hcut. apply Hcut in H as (t & [= <-] & ?). done. }
  clear H. induction Hl as [|m l Hm _ IH]; simpl; intros o H; [exists r; split; [done | apply is_suffix_refl]|].
  apply IH in H as (t & Ht & Hs). apply bind_Some in Ht as (u & -> & Hu). exists u. split; [done|].
  eapply is_suffix_trans; [done | by apply Hm].
Qed.

Lemma maybe_consumes m : consumes m -> consumes (maybe m).
Proof. intros Hm s r. unfold maybe. destruct (m s) eqn:E; intros [= <-]; [by apply Hm | apply is_suffix_refl]. Qed.

Lemma many_consumes P : consumes (many P).
Proof. intros s r [= <-]. apply skip_suffix. Qed.

Lemma at_least_consumes n P : consumes (at_least n P).
Proof. intros s r. unfold at_least. case_bool_decide; [|done]. intros [= <-]. apply skip_suffix. Qed.

(** A word that is not empty reads the first character. *)
Lemma word_first c0 w c s r : word (String c0 w) (String c s) = Some r -> ascii_lower c = c0 /\ is_suffix r s.
Proof.
  cbn [word eat]. case_bool_decide as Hc; cbn; [|done]. intros H. split; [done|]. by eapply word_consumes.
Qed.

(** ** Replacement, unfolded *)

Section replace.
Context (m : matcher) (lit : string).
Context (Hm : forall c s r, m (String c s) = Some r -> is_suffix r s).

Lemma replace_go_skip p s : replace_go m lit (String.length p) (p +:+ s) = replace_go m lit 0 s.
Proof. induction p as [|c p IH]; [done|]. rewrite sapp_cons. apply IH. Qed.

Lemma replace_hit c s r : m (String c s) = Some r -> replace m lit (String c s) = lit +:+ replace m lit r.
Proof using Hm.
  intros H. unfold replace. cbn [replace_go]. rewrite H. f_equal. destruct (Hm _ _ _ H) as [p ->].
  rewrite <-(replace_go_skip p r). f_equal. rewrite slength_app. lia.
Qed.

Lemma replace_miss c s : m (String c s) = None -> replace m lit (String c s) = String c (replace m lit s).
Proof. intros H. unfold replace. cbn [replace_go]. by rewrite H. Qed.
End replace.

(** ** Parsers on prefixes *)

(** A parser that accepts a text accepts it with more text behind. *)
Definition extends (m : matcher) : Prop := forall s r u, m s = Some r -> m (s +:+ u) = Some (r +:+ u).

Lemma eat_extends P : extends (eat P).
Proof. intros [|c s] r u H; [done|]. rewrite sapp_cons. cbn [eat] in *. destruct (P c); [|done]. by injection H as <-. Qed.

Lemma word_extends w : extends (word w).
Proof.
  induction w as [|c w IH]; intros s r u H; cbn [word] in *; [by injection H as <-|].
  apply bind_Some in H as (s' & H1 & H2). erewrite eat_extends by done. cbn. by apply IH.
Qed.

Lemma skip_app P s u : skip P s <> "" -> skip P (s +:+ u) = skip P s +:+ u.
Proof.
  induction s as [|c s IH]; [done|]. rewrite sapp_cons. cbn [skip]. destruct (P c); [done|]. by rewrite sapp_cons.
Qed.

(** ** Sorting *)

Lemma sorted_impl {A} (R R' : A -> A -> Prop) l :
  (forall a b, R a b -> R' a b) -> StronglySorted R l -> StronglySorted R' l.
Proof. intros HR. induction 1 as [|x l _ IH Hf]; constructor; [done|]. eapply Forall_impl; [done|]. apply HR. Qed.

Section sort.
Context {A : Type} (le : A -> A -> bool).

Fixpoint insert_by (x : A) (l : list A) : list A :=
  match l with
  | [] => [x]
  | y :: l => if le x y then x :: y :: l else y :: insert_by x l
  end.

(** [l.sort(compare)], with [le x y] for [compare(x, y) <= 0]; equal elements
    keep their order. *)
Fixpoint sort_by (l : list A) : list A :=
  match l with
  | [] => []
  | x :: l => insert_by x (sort_by l)
  end.

Lemma insert_by_perm x l : insert_by x l ≡ₚ x :: l.
Proof. induction l as [|y l IH]; [done|]. simpl. destruct (le x y); [done|]. rewrite IH. constructor. Qed.

Lemma sort_by_perm l : sort_by l ≡ₚ l.
Proof. induction l as [|x l IH]; [done|]. simpl. by rewrite insert_by_perm, IH. Qed.

Context (Htotal : forall x y, le x y = false -> le y x = true).

(** An order that is transitive on the elements sorted. *)
Lemma sort_by_sorted_on (P : A -> Prop) l :
  (forall x y z, P x -> P y -> P z -> le x y = true -> le y z = true -> le x z = true) ->
  Forall P l -> StronglySorted (fun x y => le x y = true) (sort_by l).
Proof using Htotal.
  intros Htrans. induction 1 as [|x l Hx Hl IH]; [constructor|]. simpl.
  assert (HP : Forall P (sort_by l)) by (by rewrite sort_by_perm).
  induction IH as [|y l' Hs IHl Hf]; simpl; [by repeat constructor|]. apply Forall_cons in HP as [Hy HP].
  destruct (le x y) eqn:Hxy.
  - constructor; [by constructor|]. constructor; [done|]. rewrite Forall_forall in HP, Hf. apply Forall_forall. intros z Hz.
    apply (Htrans x y z); auto.
  - constructor; [by apply IHl|]. apply Forall_forall. intros z Hz. rewrite insert_by_perm in Hz.
    apply elem_of_cons in Hz as [->|Hz]; [by apply Htotal|]. rewrite Forall_forall in Hf. by apply Hf.
Qed.

Context (Htrans : forall x y z, le x y = true -> le y z = true -> le x z = true).

Lemma sort_by_sorted l : StronglySorted (fun x y => le x y = true) (sort_by l).
Proof using Htotal Htrans. apply (sort_by_sorted_on (fun _ => True)); [by eauto | by apply Forall_true]. Qed.
End sort.

(** ** Collation *)

(** A collation orders strings: any two compare, and it is transitive. *)
Class CollationLaws (col : Collation) : Prop := {
  collation_total : forall a b, localeCompare a b <= 0 \/ localeCompare b a <= 0;
  collation_trans : forall a b c, localeCompare a b <= 0 -> localeCompare b c <= 0 -> localeCompare a c <= 0;
}.

(** The order of character codes is one. *)
Fixpoint code_compare (a b : string) : Z :=
  match a, b with
  | EmptyString, EmptyString => 0
  | EmptyString, _ => -1
  | _, EmptyString => 1
  | String c a, String d b =>
      if bool_decide (N_of_ascii c = N_of_ascii d) then code_compare a b
      else if bool_decide (N_of_ascii c < N_of_ascii d)%N then -1 else 1
  end.

Lemma code_compare_laws : CollationLaws code_compare.
Proof.
  split; unfold localeCompare.
  - induction a as [|c a IH]; intros [|d b]; simpl; try lia. specialize (IH b). repeat case_bool_decide; lia.
  - induction a as [|c a IH]; intros [|d b] [|e c']; simpl; try lia. specialize (IH b c'). repeat case_bool_decide; lia.
Qed.

(** ** Patterns and what surrounds a match *)

(** A pattern that still matches when more follows. *)
Definition stretches (m : matcher) : Prop := forall s t, is_Some (m s) -> is_Some (m (s +:+ t)).

Lemma word_stretches w : stretches (word w).
Proof.
  induction w as [|c w IH]; intros s t; cbn [word]; [by eauto|]. destruct s as [|d s]; cbn [eat]; [by intros [? ?]|].
  rewrite sapp_cons. cbn [eat]. case_bool_decide; cbn; [apply IH|by intros [? ?]].
Qed.

Lemma first_of_stretches l : Forall stretches l -> stretches (first_of l).
Proof.
  intros H s t. unfold first_of. induction H as [|m l Hm _ IH]; cbn [foldr]; [by intros [? ?]|].
  pose proof (Hm s t) as Hst. destruct (m s) as [r|].
  - intros _. destruct Hst as [r' ->]; [done|]. by eexists.
  - intros Hl. destruct (m (s +:+ t)); [by eexists|]. by apply IH.
Qed.

Lemma test_inside m a s b : stretches m -> test m s = true -> test m (a +:+ s +:+ b) = true.
Proof.
  intros Hm H. induction a as [|c a IH].
  - rewrite sapp_nil. induction s as [|c s IH]; cbn [test] in H; [|rewrite sapp_cons]; apply orb_true_iff in H as [H|H].
    + apply bool_decide_eq_true in H. pose proof (Hm _ b H) as H'. rewrite sapp_nil in *. destruct b; cbn [test]; rewrite bool_decide_eq_true_2; done.
    + done.
    + apply bool_decide_eq_true in H. pose proof (Hm _ b H) as H'. rewrite sapp_cons in H'. cbn [test]. by rewrite bool_decide_eq_true_2.
    + cbn [test]. apply orb_true_iff. right. by apply IH.
  - rewrite sapp_cons. cbn [test]. apply orb_true_iff. by right.
Qed.

Lemma trim_inside s : exists a b, s = a +:+ trim s +:+ b.
Proof.
  assert (Hs : forall s, exists a, s = a +:+ trim_start s).
  { intros u. induction u as [|c u [a IH]]; cbn [trim_start]; [by exists ""%string|].
    destruct (is_js_space c); [|by exists ""%string]. exists (String c a). by rewrite sapp_cons, <-IH. }
  assert (He : forall s, exists b, s = trim_end s +:+ b).
  { intros u. induction u as [|c u [b IH]]; cbn [trim_end]; [by exists ""%string|].
    destruct (trim_end u) as [|d v] eqn:Ht; [destruct (is_js_space c); [by exists (String c u)|]|].
    - exists u. by rewrite sapp_cons, sapp_nil.
    - exists b. by rewrite sapp_cons, <-IH. }
  destruct (Hs s) as [a Ha], (He (trim_start s)) as [b Hb]. exists a, b. unfold trim. by rewrite <-Hb.
Qed.

Lemma test_trim m s : stretches m -> test m s = false -> test m (trim s) = false.
Proof.
  intros Hm H. apply not_true_iff_false. intros Ht. apply not_true_iff_false in H. apply H.
  destruct (trim_inside s) as (a & b & Hs). rewrite Hs. by apply test_inside.
Qed.
