(* ===== verification/MultiDevice.v ===== *)
(** * The multi-device workspace (multidevice/service.ts)

    One semantic world is shared by the devices of a Workspace; each device
    has its own viewport and offline queue. [workspace] is the state of
    [SpatialMultiDeviceWorkspaceService]. The file models the projection of a
    snapshot into a world, the contracts of world, mutation, result, viewport
    and share view, every public method and the private [applyOperation] and
    [resultFor]. Coordinates are kept as integers, [None] standing for a
    number that is not finite: the code copies them and checks them, and
    computes with none. *)

From S2P Require Import Prelude Json Contracts.
From stdpp Require Import pretty.

#[local] Open Scope Z_scope.

(** ** Data *)

Inductive device_profile : Type := DESKTOP | TABLET | MOBILE.
#[export] Instance device_profile_eq_dec : EqDecision device_profile.
Proof. solve_decision. Defined.

Inductive quality_profile : Type := Q_LOW | Q_MOBILE | Q_DESKTOP | Q_HIGH.
Inductive gesture_state : Type :=
| IDLE | PANNING | PINCHING | LONG_PRESS_PENDING | SEED_READY | CANCELLED.

Inductive mutation_op : Type :=
| MOVE_ANCHOR | PIN | UNPIN | CREATE_BRANCH | EDIT_CLUSTER | UPSERT_RELATION | REMOVE_ENTITY.
#[export] Instance mutation_op_eq_dec : EqDecision mutation_op.
Proof. solve_decision. Defined.

(** [SPATIAL_WORKSPACE_MUTATION_OPERATIONS]. *)
Definition MUTATION_OPERATIONS : list (string * mutation_op) :=
  [("MOVE_ANCHOR", MOVE_ANCHOR); ("PIN", PIN); ("UNPIN", UNPIN); ("CREATE_BRANCH", CREATE_BRANCH);
   ("EDIT_CLUSTER", EDIT_CLUSTER); ("UPSERT_RELATION", UPSERT_RELATION); ("REMOVE_ENTITY", REMOVE_ENTITY)].

Inductive conflict_category : Type :=
| C_NONE | C_STALE_REVISION | C_TOPOLOGY_CONFLICT | C_AUTHORIZATION | C_REMOVED_ENTITY
| C_INVALID_TARGET | C_VIEWPORT_NOT_SHARED.

Inductive result_state : Type := APPLIED | REJECTED | CONFLICT | IDEMPOTENT.
#[export] Instance result_state_eq_dec : EqDecision result_state.
Proof. solve_decision. Defined.

Inductive queue_connectivity : Type := QC_ONLINE | QC_OFFLINE | QC_RECONNECTING.
Inductive entry_state : Type := E_PENDING | E_REBASED | E_CONFLICT | E_REJECTED | E_DISCARDED.
#[export] Instance entry_state_eq_dec : EqDecision entry_state.
Proof. solve_decision. Defined.

Inductive share_state : Type := SH_PENDING | SH_ACCEPTED | SH_DECLINED | SH_LEFT | SH_EXPIRED.
#[export] Instance share_state_eq_dec : EqDecision share_state.
Proof. solve_decision. Defined.

Record position : Type := Position { pos_x : option Z; pos_y : option Z; pos_z : option Z }.
#[export] Instance position_eq_dec : EqDecision position.
Proof. solve_decision. Defined.

Record world_object : Type := WorldObject {
  wo_ref : string;
  wo_anchor : position;
  wo_region : string;
  wo_manual : bool;
  wo_pinned : bool;
  wo_revision : Z;
  wo_available : bool;
}.

Record world_relation : Type := WorldRelation {
  wr_ref : string;
  wr_source : string;
  wr_target : string;
  wr_revision : Z;
  wr_active : bool;
}.

Record world_cluster : Type := WorldCluster {
  wc_ref : string;
  wc_members : list string;
  wc_revision : Z;
  wc_collapsed : bool;
}.

Record world : Type := World {
  workspace_id : string;
  world_node_id : string;
  workspace_revision : Z;
  world_revision : Z;
  primary_agent_ref : option string;
  semantic_objects : list world_object;
  relations : list world_relation;
  clusters : list world_cluster;
  session_refs : list string;
  pins : list string;
  world_updated_at : iso;
}.

Record camera : Type := Camera {
  cam_x : option Z;
  cam_y : option Z;
  cam_zoom : option Z;
  cam_orientation : position;
  cam_focus_ref : option string;
}.

Record viewport : Type := Viewport {
  vp_workspace_id : string;
  vp_node_id : string;
  vp_device_id : string;
  vp_profile : device_profile;
  vp_camera : camera;
  vp_focus_region : string;
  vp_focus_anchor : option string;
  vp_selection : list string;
  vp_expanded : list string;
  vp_opened : list string;
  vp_quality : quality_profile;
  vp_gesture : gesture_state;
  vp_layout_revision : Z;
  vp_updated_at : iso;
}.

(** [SpatialWorkspaceMutation]; the payload is an object. *)
Record ws_mutation : Type := WsMutation {
  wm_event_id : string;
  wm_operation_id : string;
  wm_idempotency_key : string;
  wm_workspace_id : string;
  wm_node_id : string;
  wm_device_id : string;
  wm_actor_ref : string;
  wm_base_revision : Z;
  wm_operation : string;
  wm_target_refs : list string;
  wm_category : conflict_category;
  wm_payload : list (string * json);
  wm_logical_clock : Z;
  wm_created_at : iso;
}.

Record ws_result : Type := WsResult {
  res_event_id : string;
  res_operation_id : string;
  res_workspace_id : string;
  res_node_id : string;
  res_state : result_state;
  res_category : conflict_category;
  res_revision : Z;
  res_evidence_revision : Z;
  res_target_refs : list string;
  res_winning : option string;
  res_reason : option string;
  res_world : world;
  res_audit_ref : string;
  res_resolved_at : iso;
}.

Record history_record : Type := HistoryRecord {
  hr_operation_id : string;
  hr_base_revision : Z;
  hr_targets : list string;
}.

Record queue_entry : Type := QueueEntry {
  qe_mutation : ws_mutation;
  qe_queued_at : iso;
  qe_attempts : Z;
  qe_state : entry_state;
  qe_reason : option string;
}.

Record offline_queue : Type := OfflineQueue {
  oq_workspace_id : string;
  oq_node_id : string;
  oq_device_id : string;
  oq_connectivity : queue_connectivity;
  oq_last_consistent : Z;
  oq_pending : list queue_entry;
  oq_updated_at : iso;
}.

Record share : Type := Share {
  share_id : string;
  sh_workspace_id : string;
  sh_node_id : string;
  sh_owner : string;
  sh_audience : list string;
  sh_target : option string;
  sh_state : share_state;
  sh_focus_authorized : bool;
  sh_expires_at : iso;
  sh_created_at : iso;
  sh_updated_at : iso;
}.

Inductive md_code : Type :=
| MD_VALIDATION | MD_UNAUTHORIZED | MD_STALE_REVISION | MD_INVALID_TARGET | MD_VIEWPORT_NOT_SHARED | MD_EXPIRED_SHARE.

(** [SpatialMultiDeviceServiceError] by its code, or the RangeError of
    [toISOString] on an invalid date. *)
Inductive md_error : Type := MdError (c : md_code) | MdRangeError.

Record workspace : Type := Workspace {
  ws_world : world;
  ws_viewports : jsmap viewport;
  ws_operations : jsmap ws_result;
  ws_history : list history_record;
  ws_queues : jsmap offline_queue;
  ws_shares : jsmap share;
}.

Definition set_world (w : world) (s : workspace) : workspace :=
  Workspace w (ws_viewports s) (ws_operations s) (ws_history s) (ws_queues s) (ws_shares s).
Definition set_viewports (m : jsmap viewport) (s : workspace) : workspace :=
  Workspace (ws_world s) m (ws_operations s) (ws_history s) (ws_queues s) (ws_shares s).
Definition set_results (m : jsmap ws_result) (s : workspace) : workspace :=
  Workspace (ws_world s) (ws_viewports s) m (ws_history s) (ws_queues s) (ws_shares s).
Definition set_history (l : list history_record) (s : workspace) : workspace :=
  Workspace (ws_world s) (ws_viewports s) (ws_operations s) l (ws_queues s) (ws_shares s).
Definition set_queues (m : jsmap offline_queue) (s : workspace) : workspace :=
  Workspace (ws_world s) (ws_viewports s) (ws_operations s) (ws_history s) m (ws_shares s).
Definition set_shares (m : jsmap share) (s : workspace) : workspace :=
  Workspace (ws_world s) (ws_viewports s) (ws_operations s) (ws_history s) (ws_queues s) m.

(** ** Contracts *)

Section md_contracts.
Context {zod : Zod}.


Definition finiteSchema (n : option Z) : option (option Z) := z ← n; Some (Some z).
Definition positiveSchema (n : option Z) : option (option Z) :=
  z ← n; if bool_decide (0 < z) then Some (Some z) else None.

Definition spatialPositionSchema (p : position) : option position :=
  x ← finiteSchema (pos_x p);
  y ← finiteSchema (pos_y p);
  z ← finiteSchema (pos_z p);
  Some (Position x y z).

Definition spatialWorldObjectSchema (o : world_object) : option world_object :=
  r ← idSchema (wo_ref o);
  a ← spatialPositionSchema (wo_anchor o);
  g ← stateSchema (wo_region o);
  v ← revisionSchema (wo_revision o);
  Some (WorldObject r a g (wo_manual o) (wo_pinned o) v (wo_available o)).

Definition spatialWorldRelationSchema (r : world_relation) : option world_relation :=
  i ← idSchema (wr_ref r);
  s ← idSchema (wr_source r);
  t ← idSchema (wr_target r);
  v ← revisionSchema (wr_revision r);
  Some (WorldRelation i s t v (wr_active r)).

Definition spatialWorldClusterSchema (c : world_cluster) : option world_cluster :=
  i ← idSchema (wc_ref c);
  m ← z_array idSchema 10000 (wc_members c);
  v ← revisionSchema (wc_revision c);
  Some (WorldCluster i m v (wc_collapsed c)).

Definition spatialWorkspaceWorldSchema (w : world) : option world :=
  i ← idSchema (workspace_id w);
  n ← idSchema (world_node_id w);
  v ← revisionSchema (workspace_revision w);
  v' ← revisionSchema (world_revision w);
  p ← nullable idSchema (primary_agent_ref w);
  os ← z_array spatialWorldObjectSchema 10000 (semantic_objects w);
  rs ← z_array spatialWorldRelationSchema 20000 (relations w);
  cs ← z_array spatialWorldClusterSchema 10000 (clusters w);
  ss ← z_array idSchema 10000 (session_refs w);
  ps ← z_array idSchema 10000 (pins w);
  t ← timestampSchema (world_updated_at w);
  Some (World i n v v' p os rs cs ss ps t).

Definition spatialDeviceCameraSchema (c : camera) : option camera :=
  x ← finiteSchema (cam_x c);
  y ← finiteSchema (cam_y c);
  z ← positiveSchema (cam_zoom c);
  o ← spatialPositionSchema (cam_orientation c);
  f ← nullable idSchema (cam_focus_ref c);
  Some (Camera x y z o f).

Definition spatialDeviceViewportSchema (v : viewport) : option viewport :=
  w ← idSchema (vp_workspace_id v);
  n ← idSchema (vp_node_id v);
  d ← idSchema (vp_device_id v);
  c ← spatialDeviceCameraSchema (vp_camera v);
  g ← stateSchema (vp_focus_region v);
  a ← nullable idSchema (vp_focus_anchor v);
  s ← z_array idSchema 256 (vp_selection v);
  e ← z_array idSchema 256 (vp_expanded v);
  o ← z_array idSchema 256 (vp_opened v);
  r ← revisionSchema (vp_layout_revision v);
  t ← timestampSchema (vp_updated_at v);
  Some (Viewport w n d (vp_profile v) c g a s e o (vp_quality v) (vp_gesture v) r t).

(** The [operation] field: upper-cased, one of the seven. *)
Definition mutationOperationSchema (s : string) : option string :=
  let v := to_upper (trim s) in
  if bool_decide (is_Some (jget v MUTATION_OPERATIONS)) then Some v else None.

Definition spatialWorkspaceMutationSchema (m : ws_mutation) : option ws_mutation :=
  e ← idSchema (wm_event_id m);
  o ← idSchema (wm_operation_id m);
  k ← idSchema (wm_idempotency_key m);
  w ← idSchema (wm_workspace_id m);
  n ← idSchema (wm_node_id m);
  d ← idSchema (wm_device_id m);
  a ← idSchema (wm_actor_ref m);
  b ← revisionSchema (wm_base_revision m);
  op ← mutationOperationSchema (wm_operation m);
  ts ← z_array idSchema 256 (wm_target_refs m);
  l ← revisionSchema (wm_logical_clock m);
  t ← timestampSchema (wm_created_at m);
  Some (WsMutation e o k w n d a b op ts (wm_category m) (wm_payload m) l t).

Definition spatialWorkspaceMutationResultSchema (r : ws_result) : option ws_result :=
  e ← idSchema (res_event_id r);
  o ← idSchema (res_operation_id r);
  w ← idSchema (res_workspace_id r);
  n ← idSchema (res_node_id r);
  v ← revisionSchema (res_revision r);
  ev ← revisionSchema (res_evidence_revision r);
  ts ← z_array idSchema 256 (res_target_refs r);
  win ← nullable idSchema (res_winning r);
  why ← nullable labelSchema (res_reason r);
  wd ← spatialWorkspaceWorldSchema (res_world r);
  a ← idSchema (res_audit_ref r);
  t ← timestampSchema (res_resolved_at r);
  Some (WsResult e o w n (res_state r) (res_category r) v ev ts win why wd a t).

Definition spatialShareViewSchema (s : share) : option share :=
  i ← idSchema (share_id s);
  w ← idSchema (sh_workspace_id s);
  n ← idSchema (sh_node_id s);
  o ← idSchema (sh_owner s);
  a ← z_array idSchema 256 (sh_audience s);
  t ← nullable idSchema (sh_target s);
  e ← timestampSchema (sh_expires_at s);
  c ← timestampSchema (sh_created_at s);
  u ← timestampSchema (sh_updated_at s);
  Some (Share i w n o a t (sh_state s) (sh_focus_authorized s) e c u).
End md_contracts.

(** ** Values of a payload *)

(** [Number(s)] for a string that spells an integer; the empty string is 0.
    Other spellings have no integer value and count as not finite. *)
Fixpoint digits_value (acc : Z) (s : string) : option Z :=
  match s with
  | EmptyString => Some acc
  | String c s =>
      let n := Z.of_N (N_of_ascii c) in
      if bool_decide (48 <= n <= 57) then digits_value (10 * acc + (n - 48)) s else None
  end.

Definition number_of_string (s : string) : option Z :=
  match trim s with
  | EmptyString => Some 0
  | String c r =>
      if bool_decide (c = "-"%char) && negb (str_eqb r "") then v ← digits_value 0 r; Some (- v)
      else if bool_decide (c = "+"%char) && negb (str_eqb r "") then digits_value 0 r
      else digits_value 0 (String c r)
  end.

(** [Number(value)]; [None] is NaN or another number that is not finite. An
    array of one element converts through that element's text. *)
Definition js_Number (v : json) : option Z :=
  match v with
  | JNull => Some 0
  | JBool b => Some (if b then 1 else 0)
  | JNum z => Some z
  | JStr s => number_of_string s
  | JArr [] => Some 0
  | JArr [JNull] => Some 0
  | JArr [JNum z] => Some z
  | JArr [JStr s] => number_of_string s
  | _ => None
  end.

(** [Number(record.k ?? 0)]. *)
Definition coordinate (k : string) (l : list (string * json)) : option Z :=
  js_Number (default (JNum 0) (jget k l)).

(** [typeof value === 'number' && Number.isFinite(value)]. *)
Definition finite_number (v : option json) : option Z :=
  match v with Some (JNum z) => Some z | _ => None end.

Definition json_string (v : option json) : option string :=
  match v with Some (JStr s) => Some s | _ => None end.

(** ** Pure helpers *)

(** Replace the first element that satisfies [p]: [find] and an assignment
    to what it found. *)
Fixpoint update_first {A} (p : A -> bool) (f : A -> A) (l : list A) : option (list A) :=
  match l with
  | [] => None
  | x :: l => if p x then Some (f x :: l) else l' ← update_first p f l; Some (x :: l')
  end.

Definition sameTargets (left right : list string) : bool :=
  existsb (fun ref => bool_decide (ref ∈ right)) left.

Definition md_now (now : date) : result md_error iso := of_option now (MdError MD_VALIDATION).

Definition set_objects (os : list world_object) (w : world) : world :=
  World (workspace_id w) (world_node_id w) (workspace_revision w) (world_revision w) (primary_agent_ref w)
    os (relations w) (clusters w) (session_refs w) (pins w) (world_updated_at w).
Definition set_relations (rs : list world_relation) (w : world) : world :=
  World (workspace_id w) (world_node_id w) (workspace_revision w) (world_revision w) (primary_agent_ref w)
    (semantic_objects w) rs (clusters w) (session_refs w) (pins w) (world_updated_at w).
Definition set_clusters (cs : list world_cluster) (w : world) : world :=
  World (workspace_id w) (world_node_id w) (workspace_revision w) (world_revision w) (primary_agent_ref w)
    (semantic_objects w) (relations w) cs (session_refs w) (pins w) (world_updated_at w).
Definition set_pins (ps : list string) (w : world) : world :=
  World (workspace_id w) (world_node_id w) (workspace_revision w) (world_revision w) (primary_agent_ref w)
    (semantic_objects w) (relations w) (clusters w) (session_refs w) ps (world_updated_at w).
Definition set_revision (r : Z) (t : iso) (w : world) : world :=
  World (workspace_id w) (world_node_id w) r r (primary_agent_ref w)
    (semantic_objects w) (relations w) (clusters w) (session_refs w) (pins w) t.

Definition without (ref : string) (l : list string) : list string := filter (fun r => r <> ref) l.

(** ** [applyOperation]: [None] is its [false] *)

(** [target_is w ref o]: [o] is the available object [ref]. *)
Definition available_target (ref : option string) (o : world_object) : bool :=
  bool_decide (Some (wo_ref o) = ref) && wo_available o.

Definition create_branch (targets : list string) (payload : list (string * json)) (w : world) : option world :=
  ref ← match json_string (jget "canonical_ref" payload) with
        | Some s => Some s
        | None => head targets
        end;
  if str_eqb ref "" || existsb (fun o => str_eqb (wo_ref o) ref) (semantic_objects w) then None
  else
    let anchor := match jget "semantic_anchor" payload with
                  | Some (JObj l) => Position (coordinate "x" l) (coordinate "y" l) (coordinate "z" l)
                  | _ => Position (Some 0) (Some 0) (Some 0)
                  end in
    Some (set_objects (semantic_objects w ++
            [WorldObject ref anchor "BRANCH" true false (workspace_revision w + 1) true]) w).

Definition move_anchor (targets : list string) (payload : list (string * json)) (w : world) : option world :=
  match jget "semantic_anchor" payload with
  | Some (JObj l) =>
      x ← finite_number (jget "x" l);
      y ← finite_number (jget "y" l);
      z ← finite_number (jget "z" l);
      os ← update_first (available_target (head targets))
             (fun o => WorldObject (wo_ref o) (Position (Some x) (Some y) (Some z)) (wo_region o) true
                         (wo_pinned o) (wo_revision o + 1) (wo_available o)) (semantic_objects w);
      Some (set_objects os w)
  | _ => None
  end.

Definition set_pin (pin : bool) (targets : list string) (w : world) : option world :=
  ref ← head targets;
  os ← update_first (available_target (Some ref))
         (fun o => WorldObject (wo_ref o) (wo_anchor o) (wo_region o) (wo_manual o) pin
                     (wo_revision o + 1) (wo_available o)) (semantic_objects w);
  Some (set_pins (if pin then unique (pins w ++ [ref]) else without ref (pins w)) (set_objects os w)).

Definition json_strings (l : list json) : list string :=
  omap (fun v => json_string (Some v)) l.

Definition edit_cluster (targets : list string) (payload : list (string * json)) (w : world) : option world :=
  ref ← head targets;
  cs ← update_first (fun c => str_eqb (wc_ref c) ref)
         (fun c => WorldCluster (wc_ref c)
                     (match jget "member_refs" payload with
                      | Some (JArr l) => unique (json_strings l)
                      | _ => wc_members c
                      end) (wc_revision c + 1)
                     (match jget "collapsed" payload with Some (JBool b) => b | _ => wc_collapsed c end))
         (clusters w);
  Some (set_clusters cs w).

Definition upsert_relation (payload : list (string * json)) (w : world) : option world :=
  match jget "relation" payload with
  | Some (JObj l) =>
      ref ← json_string (jget "relation_ref" l);
      source ← json_string (jget "source_ref" l);
      target ← json_string (jget "target_ref" l);
      let active := match jget "active" l with Some (JBool false) => false | _ => true end in
      let next := WorldRelation ref source target (workspace_revision w + 1) active in
      Some (set_relations (match update_first (fun r => str_eqb (wr_ref r) ref) (fun _ => next) (relations w) with
                           | Some rs => rs
                           | None => relations w ++ [next]
                           end) w)
  | _ => None
  end.

Definition remove_entity (targets : list string) (w : world) : option world :=
  ref ← head targets;
  os ← update_first (fun o => str_eqb (wo_ref o) ref)
         (fun o => WorldObject (wo_ref o) (wo_anchor o) (wo_region o) (wo_manual o) false
                     (wo_revision o + 1) false) (semantic_objects w);
  Some (set_pins (without ref (pins w)) (set_objects os w)).

Definition applyOperation (w : world) (m : ws_mutation) : option world :=
  let targets := unique (wm_target_refs m) in
  match jget (wm_operation m) MUTATION_OPERATIONS with
  | Some CREATE_BRANCH => create_branch targets (wm_payload m) w
  | Some MOVE_ANCHOR => move_anchor targets (wm_payload m) w
  | Some PIN => set_pin true targets w
  | Some UNPIN => set_pin false targets w
  | Some EDIT_CLUSTER => edit_cluster targets (wm_payload m) w
  | Some UPSERT_RELATION => upsert_relation (wm_payload m) w
  | Some REMOVE_ENTITY => remove_entity targets w
  | None => None
  end.

(** ** Snapshot projection *)

Record snapshot_entity : Type := SnapshotEntity {
  sne_ref : string;
  sne_kind : string;
  sne_revision : Z;
  sne_availability : string;
  sne_state : string;
}.
Record snapshot_anchor : Type := SnapshotAnchor {
  sna_ref : string;
  sna_position : position;
  sna_region : string;
  sna_cluster : option string;
}.
Record snapshot_relation : Type := SnapshotRelation {
  snr_id : string;
  snr_source : string;
  snr_target : string;
  snr_revision : Z;
  snr_state : string;
}.
Record workspace_snapshot : Type := WorkspaceSnapshot {
  sn_workspace_id : string;
  sn_node_id : string;
  sn_revision : Z;
  sn_entities : list snapshot_entity;
  sn_anchors : list snapshot_anchor;
  sn_relations : list snapshot_relation;
  sn_membership : list (string * string);
  sn_primary_agent : option string;
}.

Definition object_of_entity (anchorByRef : jsmap snapshot_anchor) (e : snapshot_entity) : world_object :=
  let anchor := jget (sne_ref e) anchorByRef in
  WorldObject (sne_ref e)
    (default (Position (Some 0) (Some 0) (Some 0)) (sna_position <$> anchor))
    (default (sne_kind e) (sna_region <$> anchor))
    (truthy (a ← anchor; sna_cluster a)) false (sne_revision e)
    (negb (str_eqb (sne_availability e) "UNAVAILABLE") && negb (str_eqb (sne_state e) "ARCHIVED")).

(** Members grouped by cluster, in the order of [Object.entries]. *)
Definition group_members (membership : list (string * string)) : jsmap (list string) :=
  foldl (fun acc e => jset e.2 (default [] (jget e.2 acc) ++ [e.1]) acc) [] membership.

Section service.
Context {zod : Zod}.

Definition createWorkspaceWorldFromSnapshot (s : workspace_snapshot) (now : date) : result md_error world :=
  let? timestamp := of_option now MdRangeError in
  let anchorByRef := foldl (fun m a => jset (sna_ref a) a m) [] (sn_anchors s) in
  of_option (spatialWorkspaceWorldSchema
    (World (sn_workspace_id s) (sn_node_id s) (sn_revision s) (sn_revision s) (sn_primary_agent s)
       (map (object_of_entity anchorByRef) (sn_entities s))
       (map (fun r => WorldRelation (snr_id r) (snr_source r) (snr_target r) (snr_revision r)
                        (str_eqb (snr_state r) "ACTIVE")) (sn_relations s))
       (map (fun c => WorldCluster c.1 c.2 (sn_revision s) false) (group_members (sn_membership s)))
       (map sne_ref (filter (fun e => sne_kind e = "session") (sn_entities s)))
       [] timestamp)) (MdError MD_VALIDATION).

Definition defaultViewport (w : world) (deviceId : string) (profile : device_profile) (now : iso)
  : result md_error viewport :=
  of_option (spatialDeviceViewportSchema
    (Viewport (workspace_id w) (world_node_id w) deviceId profile
       (Camera (Some 0) (Some 0) (Some 1) (Position (Some 0) (Some 0) (Some 0)) None) "HOME"
       (primary_agent_ref w) [] [] []
       (match profile with MOBILE => Q_MOBILE | TABLET => Q_LOW | DESKTOP => Q_DESKTOP end)
       IDLE 0 now)) (MdError MD_VALIDATION).

(** The constructor. *)
Definition new_workspace (w : world) : result md_error workspace :=
  let? parsed := of_option (spatialWorkspaceWorldSchema w) (MdError MD_VALIDATION) in
  Ok (Workspace parsed [] [] [] [] []).

(** ** Viewports *)

Definition registerDevice (deviceId : string) (profile : device_profile) (now : date)
  : method workspace md_error viewport :=
  jlift (require (negb (str_eqb (trim deviceId) "")) (MdError MD_VALIDATION)) ;!
  let! s := jread in
  match jget deviceId (ws_viewports s) with
  | Some existing => jret existing
  | None =>
      let! t := jlift (md_now now) in
      let! v := jlift (defaultViewport (ws_world s) deviceId profile t) in
      jwrite (set_viewports (jset deviceId v (ws_viewports s)) s) ;!
      jret v
  end.

(** [this.viewports.get(deviceId) ?? this.registerDevice(deviceId)]. *)
Definition getViewport (deviceId : string) (now : date) : method workspace md_error viewport :=
  let! s := jread in
  match jget deviceId (ws_viewports s) with
  | Some v => jret v
  | None => registerDevice deviceId DESKTOP now
  end.

(** [ViewportPatch]; a camera in a patch carries every camera field. *)
Record viewport_patch : Type := ViewportPatch {
  vpp_profile : option device_profile;
  vpp_camera : option camera;
  vpp_focus_region : option string;
  vpp_focus_anchor : option (option string);
  vpp_selection : option (list string);
  vpp_expanded : option (list string);
  vpp_opened : option (list string);
  vpp_quality : option quality_profile;
  vpp_gesture : option gesture_state;
}.

Definition updateViewport (deviceId : string) (p : viewport_patch) (now : date)
  : method workspace md_error viewport :=
  let! cur := getViewport deviceId now in
  let! t := jlift (md_now now) in
  let next := Viewport (vp_workspace_id cur) (vp_node_id cur) (vp_device_id cur)
                (default (vp_profile cur) (vpp_profile p)) (default (vp_camera cur) (vpp_camera p))
                (default (vp_focus_region cur) (vpp_focus_region p))
                (default (vp_focus_anchor cur) (vpp_focus_anchor p))
                (default (vp_selection cur) (unique <$> vpp_selection p))
                (default (vp_expanded cur) (unique <$> vpp_expanded p))
                (default (vp_opened cur) (unique <$> vpp_opened p))
                (default (vp_quality cur) (vpp_quality p)) (default (vp_gesture cur) (vpp_gesture p))
                (vp_layout_revision cur + 1) t in
  let! v := jlift (of_option (spatialDeviceViewportSchema next) (MdError MD_VALIDATION)) in
  let! s := jread in
  jwrite (set_viewports (jset deviceId v (ws_viewports s)) s) ;!
  jret v.

(** ** Mutations *)

(** [resultFor], on the world of the service at the time of the call. *)
Definition resultFor (w : world) (m : ws_mutation) (st : result_state) (cat : conflict_category)
    (reason winning : option string) (now : date) : result md_error ws_result :=
  let? t := md_now now in
  of_option (spatialWorkspaceMutationResultSchema
    (WsResult (wm_event_id m) (wm_operation_id m) (workspace_id w) (world_node_id w) st cat
       (workspace_revision w) (workspace_revision w) (unique (wm_target_refs m)) winning reason w
       ("audit:" +:+ wm_operation_id m) t)) (MdError MD_VALIDATION).

Definition with_state (st : result_state) (r : ws_result) : ws_result :=
  WsResult (res_event_id r) (res_operation_id r) (res_workspace_id r) (res_node_id r) st (res_category r)
    (res_revision r) (res_evidence_revision r) (res_target_refs r) (res_winning r) (res_reason r)
    (res_world r) (res_audit_ref r) (res_resolved_at r).

(** [authorizeMutation] of the options. *)
Definition md_authorizer : Type := option (ws_mutation -> bool).

Definition related (m : ws_mutation) (history : list history_record) : list history_record :=
  filter (fun r => wm_base_revision m <= hr_base_revision r /\
                   sameTargets (hr_targets r) (unique (wm_target_refs m)) = true) history.

Definition applyMutation (auth : md_authorizer) (input : ws_mutation) (now : date)
  : method workspace md_error ws_result :=
  let! m := jlift (of_option (spatialWorkspaceMutationSchema input) (MdError MD_VALIDATION)) in
  let! s := jread in
  let w := ws_world s in
  jlift (require (str_eqb (wm_workspace_id m) (workspace_id w) && str_eqb (wm_node_id m) (world_node_id w))
           (MdError MD_INVALID_TARGET)) ;!
  jlift (require (bool_decide (is_Some (jget (wm_operation m) MUTATION_OPERATIONS))) (MdError MD_VALIDATION)) ;!
  match jget (wm_idempotency_key m) (ws_operations s) with
  | Some prior =>
      jlift (of_option (spatialWorkspaceMutationResultSchema (with_state IDEMPOTENT prior)) (MdError MD_VALIDATION))
  | None =>
      if match auth with Some f => negb (f m) | None => false end then
        jlift (resultFor w m REJECTED C_AUTHORIZATION
                 (Some "Actor is not authorized; device identity does not grant authority.") None now)
      else
      let targets := unique (wm_target_refs m) in
      let rel := related m (ws_history s) in
      if bool_decide (workspace_revision w < wm_base_revision m) then
        jlift (resultFor w m REJECTED C_STALE_REVISION
                 (Some "Mutation base revision is ahead of the current Workspace revision.") None now)
      else if bool_decide (wm_base_revision m < workspace_revision w) && bool_decide (rel <> []) then
        jlift (resultFor w m CONFLICT C_TOPOLOGY_CONFLICT
                 (Some "A concurrent mutation touched the same semantic target.")
                 (hr_operation_id <$> last rel) now)
      else if bool_decide (targets = []) && negb (bool_decide (jget (wm_operation m) MUTATION_OPERATIONS = Some CREATE_BRANCH)) then
        jlift (resultFor w m REJECTED C_INVALID_TARGET
                 (Some "Semantic mutations require at least one target reference.") None now)
      else match applyOperation w m with
      | None => jlift (resultFor w m REJECTED C_INVALID_TARGET
                         (Some "Mutation target is unavailable or malformed.") None now)
      | Some next =>
          let! t := jlift (md_now now) in
          let! w' := jlift (of_option (spatialWorkspaceWorldSchema (set_revision (workspace_revision w + 1) t next))
                              (MdError MD_VALIDATION)) in
          jwrite (set_world w' s) ;!
          let! res := jlift (resultFor w' m APPLIED C_NONE None None now) in
          let! s' := jread in
          jwrite (set_history (ws_history s' ++ [HistoryRecord (wm_operation_id m) (wm_base_revision m) targets])
                    (set_results (jset (wm_idempotency_key m) res (ws_operations s')) s')) ;!
          jret res
      end
  end.

(** ** Offline queues *)

Definition getOfflineQueue (deviceId : string) (now : date) : method workspace md_error offline_queue :=
  let! s := jread in
  match jget deviceId (ws_queues s) with
  | Some q => jret q
  | None =>
      let! t := jlift (md_now now) in
      let q := OfflineQueue (workspace_id (ws_world s)) (world_node_id (ws_world s)) deviceId QC_ONLINE
                 (workspace_revision (ws_world s)) [] t in
      jwrite (set_queues (jset deviceId q (ws_queues s)) s) ;!
      jret q
  end.

Definition store_queue (deviceId : string) (q : offline_queue) : method workspace md_error offline_queue :=
  let! s := jread in
  jwrite (set_queues (jset deviceId q (ws_queues s)) s) ;!
  jret q.

Definition set_queue (q : offline_queue) (c : queue_connectivity) (last : Z) (p : list queue_entry) (t : iso)
  : offline_queue :=
  OfflineQueue (oq_workspace_id q) (oq_node_id q) (oq_device_id q) c last p t.

Definition setConnectivity (deviceId : string) (c : queue_connectivity) (now : date)
  : method workspace md_error offline_queue :=
  let! q := getOfflineQueue deviceId now in
  let! t := jlift (md_now now) in
  store_queue deviceId (set_queue q c (oq_last_consistent q) (oq_pending q) t).

Definition queueOfflineMutation (input : ws_mutation) (now : date) : method workspace md_error offline_queue :=
  let! m := jlift (of_option (spatialWorkspaceMutationSchema input) (MdError MD_VALIDATION)) in
  let! q := getOfflineQueue (wm_device_id m) now in
  if existsb (fun e => str_eqb (wm_idempotency_key (qe_mutation e)) (wm_idempotency_key m)) (oq_pending q)
  then jret q
  else
    let! t := jlift (md_now now) in
    store_queue (wm_device_id m)
      (set_queue q QC_OFFLINE (oq_last_consistent q) (oq_pending q ++ [QueueEntry m t 0 E_PENDING None]) t).

(** [discardOfflineMutation]. *)
Definition discardOfflineMutation (deviceId key : string) (now : date) : method workspace md_error offline_queue :=
  let! q := getOfflineQueue deviceId now in
  let marked := map (fun e => if str_eqb (wm_idempotency_key (qe_mutation e)) key
                              then QueueEntry (qe_mutation e) (qe_queued_at e) (qe_attempts e) E_DISCARDED (qe_reason e)
                              else e) (oq_pending q) in
  let! t := jlift (md_now now) in
  store_queue deviceId
    (set_queue q (oq_connectivity q) (oq_last_consistent q) (filter (fun e => qe_state e <> E_DISCARDED) marked) t).
End service.

Section replay.
Context {zod : Zod} {coll : Collation}.

(** The comparison of [replayOffline] on entries with their index in the
    queue: ISO timestamps compare as their instants. *)
Definition entry_le (a b : nat * queue_entry) : bool :=
  if bool_decide (qe_queued_at a.2 = qe_queued_at b.2)
  then bool_decide (localeCompare (wm_operation_id (qe_mutation a.2)) (wm_operation_id (qe_mutation b.2)) <= 0)
  else bool_decide (qe_queued_at a.2 < qe_queued_at b.2).

Fixpoint insert_entry (e : nat * queue_entry) (l : list (nat * queue_entry)) : list (nat * queue_entry) :=
  match l with
  | [] => [e]
  | e' :: l' => if entry_le e e' then e :: l else e' :: insert_entry e l'
  end.
Fixpoint sort_entries (l : list (nat * queue_entry)) : list (nat * queue_entry) :=
  match l with
  | [] => []
  | e :: l => insert_entry e (sort_entries l)
  end.

(** One entry after its mutation was answered with [r]. *)
Definition answered (e : queue_entry) (r : ws_result) : queue_entry :=
  let set st reason := QueueEntry (qe_mutation e) (qe_queued_at e) (qe_attempts e + 1) st reason in
  match res_state r with
  | APPLIED | IDEMPOTENT => set E_REBASED (qe_reason e)
  | CONFLICT => set E_CONFLICT (res_reason r)
  | REJECTED => set E_REJECTED (res_reason r)
  end.

(** The loop of [replayOffline] on the queue's copy. *)
Fixpoint replay_loop (auth : md_authorizer) (now : date) (l : list (nat * queue_entry)) (q : offline_queue)
    (out : list ws_result) : method workspace md_error (offline_queue * list ws_result) :=
  match l with
  | [] => jret (q, out)
  | (i, e) :: l =>
      if bool_decide (qe_state e = E_DISCARDED) || bool_decide (qe_state e = E_REJECTED)
      then replay_loop auth now l q out
      else
        let! r := applyMutation auth (qe_mutation e) now in
        let last := match res_state r with APPLIED | IDEMPOTENT => res_revision r | _ => oq_last_consistent q end in
        replay_loop auth now l
          (set_queue q (oq_connectivity q) last (<[i := answered e r]> (oq_pending q)) (oq_updated_at q))
          (out ++ [r])
  end.

Definition replayOffline (auth : md_authorizer) (deviceId : string) (now : date)
  : method workspace md_error (list ws_result) :=
  let! q := getOfflineQueue deviceId now in
  let! p := replay_loop auth now (sort_entries (zip (seq 0 (length (oq_pending q))) (oq_pending q))) q [] in
  let! t := jlift (md_now now) in
  store_queue deviceId (set_queue p.1 QC_ONLINE (oq_last_consistent p.1) (oq_pending p.1) t) ;!
  jret p.2.
End replay.

(** ** Share views *)

Section shares.
Context {zod : Zod}.

Definition set_share (sh : share) (st : share_state) (t : iso) : share :=
  Share (share_id sh) (sh_workspace_id sh) (sh_node_id sh) (sh_owner sh) (sh_audience sh) (sh_target sh) st
    (sh_focus_authorized sh) (sh_expires_at sh) (sh_created_at sh) t.

Record share_options : Type := ShareOptions {
  so_audience : list string;
  so_target : option string;
  so_ttl : option Z;
  so_focus : option bool;
}.

Definition createShareView (owner : string) (o : share_options) (now : date) : method workspace md_error share :=
  getViewport owner now ;!
  let! created := jlift (md_now now) in
  let! s := jread in
  let id := "share:" +:+ owner +:+ ":" +:+ pretty (length (ws_shares s) + 1)%nat in
  let candidate := Share id (workspace_id (ws_world s)) (world_node_id (ws_world s)) owner (unique (so_audience o))
                     (so_target o) SH_PENDING (default false (so_focus o))
                     (created + Z.max 1 (default 60000 (so_ttl o))) created created in
  let! sh := jlift (of_option (spatialShareViewSchema candidate) (MdError MD_VALIDATION)) in
  jwrite (set_shares (jset id sh (ws_shares s)) s) ;!
  jret sh.

Definition getShareView (id : string) (s : workspace) : option share := jget id (ws_shares s).

Definition requireShare (id : string) : method workspace md_error share :=
  let! s := jread in
  jlift (of_option (jget id (ws_shares s)) (MdError MD_INVALID_TARGET)).

(** Assignment to a share that lives in the map under [id]. *)
Definition write_share (id : string) (sh : share) : method workspace md_error unit :=
  let! s := jread in
  jwrite (set_shares (jset id sh (ws_shares s)) s).

(** [share.state = st; share.updated_at = nowIso(); this.shares.set(id, share)]:
    the state is assigned before the clock is read. *)
Definition assign_state (id : string) (sh : share) (st : share_state) (now : date) : method workspace md_error share :=
  write_share id (set_share sh st (sh_updated_at sh)) ;!
  let! t := jlift (md_now now) in
  write_share id (set_share sh st t) ;!
  jret (set_share sh st t).

(** [assertShareLive]: an expired share is marked, then refused. *)
Definition assertShareLive (id : string) (sh : share) (now : date) : method workspace md_error unit :=
  if match now with Some t => bool_decide (sh_expires_at sh <= t) | None => false end then
    assign_state id sh SH_EXPIRED now ;! jthrow (MdError MD_EXPIRED_SHARE)
  else jret tt.

Definition acceptShareView (id deviceId : string) (now : date) : method workspace md_error share :=
  let! sh := requireShare id in
  assertShareLive id sh now ;!
  jlift (require (bool_decide (deviceId ∈ sh_audience sh)) (MdError MD_UNAUTHORIZED)) ;!
  assign_state id sh SH_ACCEPTED now.

Definition declineShareView (id deviceId : string) (now : date) : method workspace md_error share :=
  let! sh := requireShare id in
  jlift (require (bool_decide (deviceId ∈ sh_audience sh)) (MdError MD_UNAUTHORIZED)) ;!
  assign_state id sh SH_DECLINED now.

Definition leaveShareView (id deviceId : string) (now : date) : method workspace md_error share :=
  let! sh := requireShare id in
  jlift (require (str_eqb deviceId (sh_owner sh) || bool_decide (deviceId ∈ sh_audience sh)) (MdError MD_UNAUTHORIZED)) ;!
  assign_state id sh SH_LEFT now.

Definition is_due (sh : share) (now : date) : bool :=
  (bool_decide (sh_state sh = SH_PENDING) || bool_decide (sh_state sh = SH_ACCEPTED))
  && match now with Some t => bool_decide (sh_expires_at sh <= t) | None => false end.

(** [expireShareViews] walks the map; the expired shares are the result. *)
Fixpoint expire_loop (now : date) (l : list (string * share)) (out : list share)
  : method workspace md_error (list share) :=
  match l with
  | [] => jret out
  | (id, sh) :: l =>
      if is_due sh now then
        let! sh' := assign_state id sh SH_EXPIRED now in
        expire_loop now l (out ++ [sh'])
      else expire_loop now l out
  end.
Definition expireShareViews (now : date) : method workspace md_error (list share) :=
  let! s := jread in
  expire_loop now (ws_shares s) [].

Definition applySharedFocus (id deviceId targetRef : string) (now : date) : method workspace md_error viewport :=
  let! sh := requireShare id in
  assertShareLive id sh now ;!
  jlift (require (bool_decide (sh_state sh = SH_ACCEPTED) && sh_focus_authorized sh
                  && bool_decide (deviceId ∈ sh_audience sh)) (MdError MD_VIEWPORT_NOT_SHARED)) ;!
  jlift (require (negb (truthy (sh_target sh)) || bool_decide (sh_target sh = Some targetRef))
           (MdError MD_INVALID_TARGET)) ;!
  let! s := jread in
  jlift (require (existsb (fun o => str_eqb (wo_ref o) targetRef && wo_available o) (semantic_objects (ws_world s)))
           (MdError MD_INVALID_TARGET)) ;!
  let! v := getViewport deviceId now in
  let c := vp_camera v in
  updateViewport deviceId
    (ViewportPatch None (Some (Camera (cam_x c) (cam_y c) (cam_zoom c) (cam_orientation c) (Some targetRef)))
       None (Some (Some targetRef)) (Some [targetRef]) None None None None) now.
End shares.
