(* ===== verification/MultiDeviceProps.v ===== *)
(** * The multi-device workspace: theorems

    What a mutation does on every outcome, idempotency keys, conflict
    detection, validity of the shared world and consistency of its pins,
    offline replay, separation of devices, and the guard of shared focus;
    and the defects the model shows. *)

From S2P Require Import Prelude Json Contracts Slot MultiDevice.
From stdpp Require Import pretty.

#[local] Open Scope Z_scope.

(** ** Validation is idempotent *)

Section contract_laws.
Context {zod : Zod} {laws : ZodLaws zod}.

#[export] Instance finiteSchema_idem : Idempotent finiteSchema.
Proof. intros [z|] b H; [|done]. by injection H as <-. Qed.

#[export] Instance positionSchema_idem : Idempotent spatialPositionSchema.
Proof. intros a b H. unfold spatialPositionSchema in *. solve_idem. Qed.
#[export] Instance objectSchema_idem : Idempotent spatialWorldObjectSchema.
Proof using laws. intros a b H. unfold spatialWorldObjectSchema in *. solve_idem. Qed.
#[export] Instance relationSchema_idem : Idempotent spatialWorldRelationSchema.
Proof using laws. intros a b H. unfold spatialWorldRelationSchema in *. solve_idem. Qed.
#[export] Instance clusterSchema_idem : Idempotent spatialWorldClusterSchema.
Proof using laws. intros a b H. unfold spatialWorldClusterSchema in *. solve_idem. Qed.
#[export] Instance worldSchema_idem : Idempotent spatialWorkspaceWorldSchema.
Proof using laws. intros a b H. unfold spatialWorkspaceWorldSchema in *. solve_idem. Qed.
#[export] Instance mutationResultSchema_idem : Idempotent spatialWorkspaceMutationResultSchema.
Proof using laws. intros a b H. unfold spatialWorkspaceMutationResultSchema in *. solve_idem. Qed.
End contract_laws.

(** ** One mutation *)

Section mutation.
Context {zod : Zod} {laws : ZodLaws zod}.

Lemma resultFor_ok w m st cat reason win now r :
  resultFor w m st cat reason win now = Ok r ->
  spatialWorkspaceMutationResultSchema r = Some r /\ res_state r = st /\ res_revision r = workspace_revision w.
Proof using laws.
  unfold resultFor. intros H. inv_ok.
  match goal with H : spatialWorkspaceMutationResultSchema _ = Some r |- _ => rename H into Hp end.
  split; [by eapply mutationResultSchema_idem|].
  unfold spatialWorkspaceMutationResultSchema in Hp.
  repeat match goal with H : base.mbind _ _ = Some _ |- _ => apply bind_Some in H as (? & ? & ?) end.
  match goal with H : Some _ = Some _ |- _ => injection H as <- end. cbn [res_state res_revision] in *.
  split; [done|]. by repeat match goal with H : revisionSchema _ = Some _ |- _ => apply z_nonneg_sound in H as [-> _] end.
Qed.

(** The checks that come before a mutation is looked at. *)
Definition addressed (s : workspace) (input m : ws_mutation) : Prop :=
  spatialWorkspaceMutationSchema input = Some m /\
  wm_workspace_id m = workspace_id (ws_world s) /\ wm_node_id m = world_node_id (ws_world s) /\
  is_Some (jget (wm_operation m) MUTATION_OPERATIONS).

(** The mutation is not ahead of the world, does not meet a recorded change
    of its targets, and names a target where one is needed. *)
Definition admissible (s : workspace) (m : ws_mutation) : Prop :=
  wm_base_revision m <= workspace_revision (ws_world s) /\
  (wm_base_revision m = workspace_revision (ws_world s) \/ related m (ws_history s) = []).

Definition applied_state (s : workspace) (m : ws_mutation) (w : world) (r : ws_result) : workspace :=
  set_history (ws_history s ++ [HistoryRecord (wm_operation_id m) (wm_base_revision m) (unique (wm_target_refs m))])
    (set_results (jset (wm_idempotency_key m) r (ws_operations s)) (set_world w s)).

(** What an answer that changed nothing says. *)
Definition refused (s : workspace) (input : ws_mutation) (res : result md_error ws_result) : Prop :=
  forall r, res = Ok r -> exists m, addressed s input m /\
    ((res_state r = IDEMPOTENT /\ is_Some (jget (wm_idempotency_key m) (ws_operations s))) \/
     (jget (wm_idempotency_key m) (ws_operations s) = None /\
      (res_state r = REJECTED \/
       res_state r = CONFLICT /\ wm_base_revision m < workspace_revision (ws_world s) /\ related m (ws_history s) <> []))).

Lemma refused_err s input e : refused s input (Err e).
Proof. by intros r. Qed.

Lemma refused_idempotent s input m prior :
  addressed s input m -> jget (wm_idempotency_key m) (ws_operations s) = Some prior ->
  refused s input (of_option (spatialWorkspaceMutationResultSchema (with_state IDEMPOTENT prior)) (MdError MD_VALIDATION)).
Proof.
  intros Hadd Hk r Hr. exists m. split; [done|]. left. rewrite of_option_ok in Hr. split; [|by rewrite Hk].
  unfold spatialWorkspaceMutationResultSchema in Hr.
  repeat match goal with H : base.mbind _ _ = Some _ |- _ => apply bind_Some in H as (? & ? & ?) end.
  match goal with H : Some _ = Some r |- _ => by injection H as <- end.
Qed.

Lemma refused_resultFor s input m w st cat reason win now :
  addressed s input m -> jget (wm_idempotency_key m) (ws_operations s) = None ->
  (st = REJECTED \/ st = CONFLICT /\ wm_base_revision m < workspace_revision (ws_world s) /\
     related m (ws_history s) <> []) ->
  refused s input (resultFor w m st cat reason win now).
Proof using laws.
  intros Hadd Hk Hst r Hr. exists m. split; [done|]. right. apply resultFor_ok in Hr as (_ & -> & _). by split.
Qed.

(** Every outcome of [applyMutation]. *)
Lemma applyMutation_cases auth input now s s' res :
  applyMutation auth input now s = (s', res) ->
  (s' = s /\ refused s input res) \/
  (exists m next t w', addressed s input m /\ jget (wm_idempotency_key m) (ws_operations s) = None /\
     match auth with Some f => f m = true | None => True end /\
     admissible s m /\ applyOperation (ws_world s) m = Some next /\ now = Some t /\
     spatialWorkspaceWorldSchema (set_revision (workspace_revision (ws_world s) + 1) t next) = Some w' /\
     match resultFor w' m APPLIED C_NONE None None now with
     | Ok r => res = Ok r /\ s' = applied_state s m w' r
     | Err e => res = Err e /\ s' = set_world w' s
     end).
Proof using laws.
  unfold applyMutation. intros H. unfold jbind at 1, jlift at 1 in H.
  destruct (spatialWorkspaceMutationSchema input) as [m|] eqn:Hp; cbn [of_option] in H;
    [|injection H as <- <-; by left].
  unfold jbind at 1, jread at 1 in H. unfold jbind at 1, jlift at 1 in H.
  destruct (_ && _) eqn:Hid; cbn [require] in H; [|injection H as <- <-; by left].
  unfold jbind at 1, jlift at 1 in H.
  destruct (bool_decide (is_Some _)) eqn:Hop; cbn [require] in H; [|injection H as <- <-; by left].
  assert (Hadd : addressed s input m).
  { apply andb_true_iff in Hid as [H1%str_eqb_eq H2%str_eqb_eq]. by apply bool_decide_eq_true in Hop. }
  destruct (jget (wm_idempotency_key m) (ws_operations s)) as [prior|] eqn:Hk.
  { left. unfold jlift in H. injection H as <- <-. split; [done|]. by eapply refused_idempotent. }
  destruct (match auth with Some f => negb (f m) | None => false end) eqn:Hauth;
    [left; injection H as <- <-; split; [done|]; eapply refused_resultFor; auto|].
  case_bool_decide as Hahead; [left; injection H as <- <-; split; [done|]; eapply refused_resultFor; auto|].
  destruct (bool_decide (wm_base_revision m < _) && _) eqn:Hconf.
  { apply andb_true_iff in Hconf as [H1%bool_decide_eq_true H2%bool_decide_eq_true].
    left; injection H as <- <-; split; [done|]; eapply refused_resultFor; auto. }
  destruct (bool_decide (unique _ = []) && _); [left; injection H as <- <-; split; [done|]; eapply refused_resultFor; auto|].
  destruct (applyOperation (ws_world s) m) as [next|] eqn:Happ; [|left; injection H as <- <-; split; [done|]; eapply refused_resultFor; auto].
  unfold jbind at 1, jlift at 1 in H. destruct now as [t|] eqn:Hnow; cbn [md_now of_option] in H;
    [|injection H as <- <-; by left].
  unfold jbind at 1, jlift at 1 in H.
  destruct (spatialWorkspaceWorldSchema _) as [w'|] eqn:Hw; cbn [of_option] in H; [|injection H as <- <-; by left].
  right. exists m, next, t, w'. split; [done|]. split; [done|].
  split; [by destruct auth as [f|]; [destruct (f m)|]|].
  split.
  { split; [lia|]. rewrite andb_false_iff, !bool_decide_eq_false in Hconf.
    destruct Hconf as [Hc|Hc]; [left; lia|right; by apply dec_stable]. }
  do 3 (split; [done|]). unfold jbind, jwrite, jlift, jread, jret in H.
  destruct (resultFor w' m APPLIED C_NONE None None (Some t)) as [r|e]; by injection H as <- <-.
Qed.
End mutation.

Section outcome.
Context {zod : Zod} {laws : ZodLaws zod}.

Lemma worldSchema_revision w w' : spatialWorkspaceWorldSchema w = Some w' ->
  workspace_revision w' = workspace_revision w /\ world_revision w' = world_revision w.
Proof using laws.
  intros H. unfold spatialWorkspaceWorldSchema in H.
  repeat match goal with H : base.mbind _ _ = Some _ |- _ => apply bind_Some in H as (? & ? & ?) end.
  match goal with H : Some _ = Some _ |- _ => injection H as <- end. cbn [workspace_revision world_revision].
  repeat match goal with H : revisionSchema _ = Some _ |- _ => apply z_nonneg_sound in H as [-> _] end. done.
Qed.

(** C6. A mutation that is answered is either applied, once and
    completely: the world moves to the next revision, the answer reports
    that revision and is stored under the idempotency key, and the change is
    added to the history, or it is REJECTED, CONFLICT or IDEMPOTENT and
    nothing changes. Viewports, queues and shares are never touched. *)
Theorem mutation_outcome auth input now s s' r :
  applyMutation auth input now s = (s', Ok r) ->
  ws_viewports s' = ws_viewports s /\ ws_queues s' = ws_queues s /\ ws_shares s' = ws_shares s /\
  ((s' = s /\ res_state r <> APPLIED) \/
   (res_state r = APPLIED /\ exists m, addressed s input m /\ admissible s m /\
      workspace_revision (ws_world s') = workspace_revision (ws_world s) + 1 /\
      world_revision (ws_world s') = workspace_revision (ws_world s) + 1 /\
      res_revision r = workspace_revision (ws_world s') /\
      jget (wm_idempotency_key m) (ws_operations s) = None /\
      ws_operations s' = jset (wm_idempotency_key m) r (ws_operations s) /\
      ws_history s' = ws_history s ++
        [HistoryRecord (wm_operation_id m) (wm_base_revision m) (unique (wm_target_refs m))])).
Proof using laws.
  intros [[-> Href]|(m & next & t & w' & Hadd & Hk & _ & Hadm & _ & Hnow & Hw & Hres)]%applyMutation_cases.
  - do 3 (split; [done|]). left. split; [done|]. intros Ha.
    destruct (Href r eq_refl) as (m & _ & [[Hs _]|[_ [Hs|[Hs _]]]]); congruence.
  - destruct (resultFor w' m APPLIED C_NONE None None now) as [r'|e] eqn:Hr; [|by destruct Hres].
    destruct Hres as [[= <-] ->]. do 3 (split; [done|]). right. apply resultFor_ok in Hr as (_ & Hst & Hrev).
    split; [done|]. exists m. apply worldSchema_revision in Hw as [Hw1 Hw2]. do 2 (split; [done|]).
    cbn [applied_state set_history set_results set_world ws_world]. rewrite Hw1, Hw2.
    do 2 (split; [done|]). split; [by rewrite Hrev, Hw1|]. done.
Qed.

(** A mutation based on an older revision that names a target which a
    recorded change with the same or a later base revision also named is
    answered CONFLICT (or with an error), and changes nothing. *)
Theorem conflict_detected auth input now s m rec s' res :
  addressed s input m -> jget (wm_idempotency_key m) (ws_operations s) = None ->
  match auth with Some f => f m = true | None => True end ->
  wm_base_revision m < workspace_revision (ws_world s) ->
  rec ∈ ws_history s -> wm_base_revision m <= hr_base_revision rec ->
  (exists ref, ref ∈ hr_targets rec /\ ref ∈ wm_target_refs m) ->
  applyMutation auth input now s = (s', res) ->
  s' = s /\ (forall r, res = Ok r -> res_state r = CONFLICT).
Proof using laws.
  intros (Hp & Hwid & Hnid & Hop) Hk Hauth Hbase Hrec Hle (ref & Hr1 & Hr2) Hrun.
  assert (Hrel : related m (ws_history s) <> []).
  { intros Hnil. assert (Hin : rec ∈ related m (ws_history s)); [|rewrite Hnil in Hin; set_solver].
    apply list_elem_of_filter. split; [|done]. split; [done|]. apply existsb_exists. exists ref.
    split; [by apply list_elem_of_In|]. apply bool_decide_eq_true. by apply elem_of_unique. }
  unfold applyMutation in Hrun. rewrite Hp in Hrun. unfold jbind, jlift, jread in Hrun. cbn [of_option] in Hrun.
  rewrite Hwid, Hnid, !str_eqb_refl in Hrun. cbn [andb require] in Hrun.
  rewrite (bool_decide_eq_true_2 _ Hop) in Hrun. cbn [require] in Hrun. rewrite Hk in Hrun.
  assert (match auth with Some f => negb (f m) | None => false end = false) as Ha by (by destruct auth as [f|]; [rewrite Hauth|]).
  rewrite Ha in Hrun. rewrite bool_decide_eq_false_2 in Hrun by lia.
  rewrite (bool_decide_eq_true_2 _ Hbase), (bool_decide_eq_true_2 _ Hrel) in Hrun. cbn [andb] in Hrun.
  injection Hrun as <- <-. split; [done|]. intros r Hr. by apply resultFor_ok in Hr as (_ & -> & _).
Qed.

(** ** Any sequence of calls *)

Definition mut_step (s s' : workspace) : Prop :=
  exists auth input now res, applyMutation auth input now s = (s', res).

Context {coll : Collation}.

(** One call of any method of the service. *)
Inductive md_step : workspace -> workspace -> Prop :=
| md_register d p now s s' res : registerDevice d p now s = (s', res) -> md_step s s'
| md_viewport d p now s s' res : updateViewport d p now s = (s', res) -> md_step s s'
| md_mutation auth input now s s' res : applyMutation auth input now s = (s', res) -> md_step s s'
| md_connectivity d c now s s' res : setConnectivity d c now s = (s', res) -> md_step s s'
| md_queue input now s s' res : queueOfflineMutation input now s = (s', res) -> md_step s s'
| md_discard d k now s s' res : discardOfflineMutation d k now s = (s', res) -> md_step s s'
| md_replay auth d now s s' res : replayOffline auth d now s = (s', res) -> md_step s s'
| md_share d o now s s' res : createShareView d o now s = (s', res) -> md_step s s'
| md_accept i d now s s' res : acceptShareView i d now s = (s', res) -> md_step s s'
| md_decline i d now s s' res : declineShareView i d now s = (s', res) -> md_step s s'
| md_leave i d now s s' res : leaveShareView i d now s = (s', res) -> md_step s s'
| md_expire now s s' res : expireShareViews now s = (s', res) -> md_step s s'
| md_focus i d r now s s' res : applySharedFocus i d r now s = (s', res) -> md_step s s'.

(** The shared part of the state: what mutations work on. *)
Definition same_sem (s s' : workspace) : Prop :=
  ws_world s' = ws_world s /\ ws_operations s' = ws_operations s /\ ws_history s' = ws_history s.

#[export] Instance same_sem_equiv : Equivalence same_sem.
Proof.
  split; [done| |].
  - intros s s' (? & ? & ?). by repeat split.
  - intros s1 s2 s3 (? & ? & ?) (? & ? & ?). repeat split; congruence.
Qed.

(** A method that leaves the shared part alone. *)
Definition local {A} (m : method workspace md_error A) : Prop := forall s, same_sem s (fst (m s)).

Lemma local_ret {A} (a : A) : local (jret a).
Proof. by intros s. Qed.
Lemma local_lift {A} (r : result md_error A) : local (jlift r).
Proof. by intros s. Qed.
Lemma local_throw {A} e : local (@jthrow workspace md_error A e).
Proof. by intros s. Qed.
Lemma local_read : local jread.
Proof. by intros s. Qed.
Lemma local_bind {A B} (m : method workspace md_error A) (f : A -> method workspace md_error B) :
  local m -> (forall a, local (f a)) -> local (jbind m f).
Proof.
  intros Hm Hf s. unfold jbind. specialize (Hm s). destruct (m s) as [s1 [a|e]]; simpl in *; [|done].
  etransitivity; [exact Hm | apply Hf].
Qed.
(** Reading the state and writing a part of it that is not shared. *)
Lemma local_read_write {A} (g : workspace -> method workspace md_error A) :
  (forall s, same_sem s (fst (g s s))) -> local (jbind jread g).
Proof. intros Hg s. unfold jbind, jread. apply Hg. Qed.
End outcome.

#[export] Hint Resolve local_ret local_lift local_throw local_read : js.

(** ** Device-local calls leave the shared world alone *)

Ltac run_local :=
  intros s; unfold jbind, jlift, jread, jret, jwrite, jthrow;
  repeat (case_match; simplify_eq/=); by repeat split.

Section locality.
Context {zod : Zod} {laws : ZodLaws zod}.

Lemma local_register d p now : local (registerDevice d p now).
Proof. unfold registerDevice. run_local. Qed.

Lemma local_getViewport d now : local (getViewport d now).
Proof. intros s. unfold getViewport, jbind, jread. case_match; [done|]. apply local_register. Qed.

Lemma local_updateViewport d p now : local (updateViewport d p now).
Proof.
  apply local_bind; [apply local_getViewport|]. intros cur.
  apply local_bind; [auto with js|]. intros t. apply local_bind; [auto with js|]. intros v. run_local.
Qed.

Lemma local_getQueue d now : local (getOfflineQueue d now).
Proof. unfold getOfflineQueue. run_local. Qed.

Lemma local_store d q : local (store_queue d q).
Proof. unfold store_queue. run_local. Qed.

Lemma local_connectivity d c now : local (setConnectivity d c now).
Proof.
  apply local_bind; [apply local_getQueue|]. intros q. apply local_bind; [auto with js|]. intros t. apply local_store.
Qed.

Lemma local_discard d k now : local (discardOfflineMutation d k now).
Proof.
  apply local_bind; [apply local_getQueue|]. intros q. apply local_bind; [auto with js|]. intros t. apply local_store.
Qed.

Lemma local_queue input now : local (queueOfflineMutation input now).
Proof.
  apply local_bind; [auto with js|]. intros m. apply local_bind; [apply local_getQueue|]. intros q.
  destruct (existsb _ _); [auto with js|]. apply local_bind; [auto with js|]. intros t. apply local_store.
Qed.

Lemma local_write_share i sh : local (write_share i sh).
Proof. unfold write_share. run_local. Qed.

Lemma local_assign i sh st now : local (assign_state i sh st now).
Proof.
  apply local_bind; [apply local_write_share|]. intros _. apply local_bind; [auto with js|]. intros t.
  apply local_bind; [apply local_write_share|]. auto with js.
Qed.

Lemma local_live i sh now : local (assertShareLive i sh now).
Proof.
  unfold assertShareLive. destruct (match now with Some _ => _ | None => _ end); [|auto with js].
  apply local_bind; [apply local_assign | auto with js].
Qed.

Lemma local_require i : local (requireShare i).
Proof. unfold requireShare. run_local. Qed.

Lemma local_share d o now : local (createShareView d o now).
Proof.
  apply local_bind; [apply local_getViewport|]. intros v. apply local_bind; [auto with js|]. intros t. run_local.
Qed.

Lemma local_accept i d now : local (acceptShareView i d now).
Proof.
  apply local_bind; [apply local_require|]. intros sh. apply local_bind; [apply local_live|]. intros _.
  apply local_bind; [auto with js|]. intros _. apply local_assign.
Qed.

Lemma local_decline i d now : local (declineShareView i d now).
Proof.
  apply local_bind; [apply local_require|]. intros sh. apply local_bind; [auto with js|]. intros _. apply local_assign.
Qed.

Lemma local_leave i d now : local (leaveShareView i d now).
Proof.
  apply local_bind; [apply local_require|]. intros sh. apply local_bind; [auto with js|]. intros _. apply local_assign.
Qed.

Lemma local_expire_loop now l out : local (expire_loop now l out).
Proof.
  revert out. induction l as [|[i sh] l IH]; intros out; simpl; [auto with js|].
  destruct (is_due sh now); [|apply IH]. apply local_bind; [apply local_assign|]. auto.
Qed.

Lemma local_focus i d r now : local (applySharedFocus i d r now).
Proof.
  apply local_bind; [apply local_require|]. intros sh. apply local_bind; [apply local_live|]. intros _.
  do 2 (apply local_bind; [auto with js|]; intros _). apply local_bind; [auto with js|]. intros s.
  apply local_bind; [auto with js|]. intros _. apply local_bind; [apply local_getViewport|]. intros v.
  apply local_updateViewport.
Qed.

Context {coll : Collation}.

Lemma replay_loop_steps auth now l q out s s' res :
  replay_loop auth now l q out s = (s', res) -> rtc mut_step s s'.
Proof.
  revert q out s. induction l as [|[i e] l IH]; intros q out s H; [by injection H as <- <-|].
  cbn [replay_loop] in H. destruct (_ || _); [by eapply IH|]. unfold jbind in H.
  destruct (applyMutation auth (qe_mutation e) now s) as [s1 [r|er]] eqn:Ha.
  - eapply rtc_l; [|by eapply IH]. by eexists _, _, _, _.
  - injection H as <- <-. apply rtc_once. by eexists _, _, _, _.
Qed.

(** Every call is, for the shared part, a sequence of mutations. *)
Lemma md_step_sem s s' : md_step s s' ->
  exists s0 s1, same_sem s s0 /\ rtc mut_step s0 s1 /\ same_sem s1 s'.
Proof.
  assert (Hloc : forall A (m : method workspace md_error A) s s' res, local m -> m s = (s', res) ->
            exists s0 s1, same_sem s s0 /\ rtc mut_step s0 s1 /\ same_sem s1 s').
  { intros A m t t' res Hm Hrun. specialize (Hm t). rewrite Hrun in Hm. exists t, t. done. }
  intros Hstep. destruct Hstep as [? ? ? ? ? ? H|? ? ? ? ? ? H|? ? ? ? ? ? H|? ? ? ? ? ? H|? ? ? ? ? H|? ? ? ? ? ? H
    |auth d now s s' res H|? ? ? ? ? ? H|? ? ? ? ? ? H|? ? ? ? ? ? H|? ? ? ? ? ? H|? ? ? ? H|? ? ? ? ? ? ? H].
  - eapply Hloc, H. apply local_register.
  - eapply Hloc, H. apply local_updateViewport.
  - eexists _, _. split; [reflexivity|]. split; [|reflexivity]. apply rtc_once. by eexists _, _, _, _.
  - eapply Hloc, H. apply local_connectivity.
  - eapply Hloc, H. apply local_queue.
  - eapply Hloc, H. apply local_discard.
  - unfold replayOffline in H. unfold jbind at 1 in H. pose proof (local_getQueue d now s) as Hq.
    destruct (getOfflineQueue d now s) as [s0 [q|e]]; [|injection H as <- <-; by exists s0, s0].
    unfold jbind at 1 in H. destruct (replay_loop _ _ _ _ _ s0) as [s1 rl] eqn:Hl.
    apply replay_loop_steps in Hl. exists s0, s1. split; [done|]. split; [done|].
    destruct rl as [p|e]; [|by injection H as <- <-]. unfold jbind at 1, jlift at 1 in H.
    destruct (md_now now) as [t|e]; [|by injection H as <- <-]. unfold jbind, jret in H.
    match type of H with match store_queue d ?q s1 with _ => _ end = _ => pose proof (local_store d q s1) as Hs; destruct (store_queue d q s1) as [s2 [|]] end;
      by injection H as <- <-.
  - eapply Hloc, H. apply local_share.
  - eapply Hloc, H. apply local_accept.
  - eapply Hloc, H. apply local_decline.
  - eapply Hloc, H. apply local_leave.
  - eapply Hloc, H. intros t. apply local_expire_loop.
  - eapply Hloc, H. apply local_focus.
Qed.

(** An invariant of the shared part that mutations keep holds for ever. *)
Lemma sem_invariant (P : workspace -> Prop) s s' :
  (forall s s', same_sem s s' -> P s -> P s') -> (forall s s', mut_step s s' -> P s -> P s') ->
  rtc md_step s s' -> P s -> P s'.
Proof.
  intros Hsem Hmut Hsteps HP. induction Hsteps as [s|s s1 s2 Hs Hsteps IH]; [done|]. apply IH.
  apply md_step_sem in Hs as (a & b & Ha & Hab & Hb). apply (Hsem b s1 Hb).
  assert (Pa : P a) by (by apply (Hsem s)). clear -Hmut Hab Pa. induction Hab; eauto.
Qed.
End locality.

(** ** Invariants of the shared world *)

Section reachable.
Context {zod : Zod} {laws : ZodLaws zod} {coll : Collation}.

Definition world_ok (rev : Z) (s : workspace) : Prop :=
  spatialWorkspaceWorldSchema (ws_world s) = Some (ws_world s) /\ rev <= workspace_revision (ws_world s).

Lemma world_ok_mutation rev s s' : mut_step s s' -> world_ok rev s -> world_ok rev s'.
Proof using laws.
  intros (auth & input & now & res & H) [Hv Hr].
  apply applyMutation_cases in H as [[-> _]|(m & next & t & w' & _ & _ & _ & _ & _ & _ & Hw & Hres)]; [done|].
  assert (Hok : ws_world s' = w' \/ s' = s).
  { destruct (resultFor _ _ _ _ _ _ _); destruct Hres as [_ ->]; by left. }
  destruct Hok as [Heq| ->]; [|done]. unfold world_ok. rewrite Heq.
  split; [by eapply worldSchema_idem|]. apply worldSchema_revision in Hw as [-> _]. simpl. lia.
Qed.

(** C21. From the moment the service is created, through any sequence of
    calls, failed ones included, the shared world satisfies its contract and
    its revision never goes back. *)
Theorem world_always_valid w s0 s s' :
  new_workspace w = Ok s0 -> rtc md_step s0 s -> rtc md_step s s' ->
  spatialWorkspaceWorldSchema (ws_world s') = Some (ws_world s') /\
  workspace_revision (ws_world s) <= workspace_revision (ws_world s').
Proof using laws.
  intros Hnew H0 H1.
  assert (Hsem : forall rev t t', same_sem t t' -> world_ok rev t -> world_ok rev t').
  { intros rev t t' (Hw & _) [Hv Hr]. unfold world_ok. by rewrite Hw. }
  assert (Hs : world_ok (workspace_revision (ws_world s0)) s).
  { eapply sem_invariant; [apply Hsem|apply world_ok_mutation|exact H0|]. split; [|lia].
    unfold new_workspace in Hnew. inv_ok. by eapply worldSchema_idem. }
  eapply (sem_invariant (world_ok (workspace_revision (ws_world s)))); [apply Hsem|apply world_ok_mutation|exact H1|].
  split; [apply Hs | lia].
Qed.

Lemma resultSchema_with_state st r r' :
  spatialWorkspaceMutationResultSchema r = Some r' ->
  spatialWorkspaceMutationResultSchema (with_state st r) = Some (with_state st r').
Proof.
  intros H. unfold spatialWorkspaceMutationResultSchema in *.
  repeat match goal with H : base.mbind _ _ = Some _ |- _ => apply bind_Some in H as (? & ? & ?) end.
  match goal with H : Some _ = Some _ |- _ => injection H as <- end. cbn.
  repeat (match goal with H : _ = Some _ |- _ => rewrite H; clear H; cbn end).
  match goal with H : timestampSchema _ = Some _ |- _ => by injection H as <- end.
Qed.

Definition recorded (k : string) (r : ws_result) (s : workspace) : Prop :=
  jget k (ws_operations s) = Some r.

Lemma recorded_mutation k r s s' : mut_step s s' -> recorded k r s -> recorded k r s'.
Proof using laws.
  intros (auth & input & now & res & H) Hk. unfold recorded in *.
  apply applyMutation_cases in H as [[-> _]|(m & next & t & w' & _ & Hfree & _ & _ & _ & _ & _ & Hres)]; [done|].
  destruct (resultFor _ _ _ _ _ _ _); destruct Hres as [_ ->]; [|done].
  cbn [applied_state set_history set_results ws_operations set_world]. rewrite jget_jset_ne; [done|]. congruence.
Qed.

(** An applied mutation is never applied again: in every later state,
    any mutation with its idempotency key is answered IDEMPOTENT with the
    stored result, whoever sends it, and changes nothing. *)
Theorem mutation_applied_once auth input now s s1 r m s2 auth' input' now' m' :
  applyMutation auth input now s = (s1, Ok r) -> res_state r = APPLIED ->
  spatialWorkspaceMutationSchema input = Some m -> rtc md_step s1 s2 ->
  addressed s2 input' m' -> wm_idempotency_key m' = wm_idempotency_key m ->
  applyMutation auth' input' now' s2 = (s2, Ok (with_state IDEMPOTENT r)).
Proof using laws.
  intros [[-> Href]|(m0 & next & t & w' & (Hm0 & _) & _ & _ & _ & _ & _ & _ & Hres)]%applyMutation_cases Hst Hm Hsteps Hadd Hkey.
  { destruct (Href r eq_refl) as (? & _ & [[Hs _]|[_ [Hs|[Hs _]]]]); congruence. }
  rewrite Hm in Hm0. injection Hm0 as <-.
  destruct (resultFor w' m _ _ _ _ now) as [r'|e] eqn:Hr; destruct Hres as [[= <-] ->].
  apply resultFor_ok in Hr as (Hvalid & _ & _).
  assert (Hrec : recorded (wm_idempotency_key m) r s2).
  { eapply sem_invariant; [| |exact Hsteps|].
    - intros t0 t1 (_ & Ho & _) H. unfold recorded. by rewrite Ho.
    - apply recorded_mutation.
    - unfold recorded. cbn [applied_state set_history set_results ws_operations set_world]. apply jget_jset_eq. }
  destruct Hadd as (Hp & Hwid & Hnid & Hop). unfold applyMutation, jbind, jlift, jread. rewrite Hp. cbn [of_option].
  rewrite Hwid, Hnid, !str_eqb_refl. cbn [andb require]. rewrite (bool_decide_eq_true_2 _ Hop). cbn [require].
  rewrite Hkey, Hrec. by rewrite (resultSchema_with_state _ _ _ Hvalid).
Qed.
End reachable.

(** Invert the success of an operation on the world. *)
Ltac inv_op :=
  repeat match goal with
  | H : base.mbind _ _ = Some _ |- _ => apply bind_Some in H as (? & ? & ?)
  | H : Some _ = Some _ |- _ => injection H as H; subst
  | H : None = Some _ |- _ => discriminate H
  | H : (if ?b then _ else _) = Some _ |- _ => destruct b eqn:?
  | H : match ?x with _ => _ end = Some _ |- _ => destruct x eqn:?
  end.

(** ** Offline replay *)

Section replay_twice.
Context {zod : Zod} {laws : ZodLaws zod} {coll : Collation}.

Definition valid_world (s : workspace) : Prop :=
  spatialWorkspaceWorldSchema (ws_world s) = Some (ws_world s).

Definition skipped (e : queue_entry) : Prop := qe_state e = E_DISCARDED \/ qe_state e = E_REJECTED.

(** The mutation of [e] is recorded, or meets a recorded change. *)
Definition decided (e : queue_entry) (s : workspace) : Prop :=
  exists m, addressed s (qe_mutation e) m /\
    (is_Some (jget (wm_idempotency_key m) (ws_operations s)) \/
     (wm_base_revision m < workspace_revision (ws_world s) /\ related m (ws_history s) <> [])).

Definition settled (e : queue_entry) (s : workspace) : Prop := skipped e \/ decided e s.

Lemma decided_noop e s auth now s' res :
  decided e s -> applyMutation auth (qe_mutation e) now s = (s', res) -> s' = s.
Proof using laws.
  intros (m & (Hp & _) & Hd) [[-> _]|(m' & next & t & w' & (Hp' & _) & Hk & _ & [Hle Hadm] & _)]%applyMutation_cases; [done|].
  rewrite Hp in Hp'. injection Hp' as <-. destruct Hd as [[r Hr]|[Hlt Hne]]; [congruence|].
  destruct Hadm; [lia | done].
Qed.

Lemma applyOperation_ids w m next : applyOperation w m = Some next ->
  workspace_id next = workspace_id w /\ world_node_id next = world_node_id w.
Proof.
  unfold applyOperation, create_branch, move_anchor, set_pin, edit_cluster, upsert_relation, remove_entity.
  intros H. inv_op; done.
Qed.

Lemma worldSchema_ids w w' : spatialWorkspaceWorldSchema w = Some w' ->
  workspace_id w' = trim (workspace_id w) /\ world_node_id w' = trim (world_node_id w).
Proof using laws.
  intros H. unfold spatialWorkspaceWorldSchema in H.
  repeat match goal with H : base.mbind _ _ = Some _ |- _ => apply bind_Some in H as (? & ? & ?) end.
  match goal with H : Some _ = Some _ |- _ => injection H as <- end. cbn [workspace_id world_node_id].
  by repeat match goal with H : idSchema _ = Some _ |- _ => apply idSchema_spec in H as [-> _] end.
Qed.

(** What a mutation keeps and what it only adds to. *)
Lemma mut_step_grows s s' : mut_step s s' -> valid_world s ->
  valid_world s' /\ workspace_id (ws_world s') = workspace_id (ws_world s) /\
  world_node_id (ws_world s') = world_node_id (ws_world s) /\
  workspace_revision (ws_world s) <= workspace_revision (ws_world s') /\
  (forall k, is_Some (jget k (ws_operations s)) -> is_Some (jget k (ws_operations s'))) /\
  exists l, ws_history s' = ws_history s ++ l.
Proof using laws.
  intros (auth & input & now & res & H) Hv.
  apply applyMutation_cases in H
    as [[-> _]|(m & next & t & w' & _ & _ & _ & _ & Happ%applyOperation_ids & _ & Hw & Hres)].
  { do 3 (split; [done|]). split; [lia|]. split; [done|]. exists []. by rewrite app_nil_r. }
  assert (Hv' : spatialWorkspaceWorldSchema w' = Some w') by (by eapply worldSchema_idem).
  destruct (worldSchema_ids _ _ Hw) as [Hi1 Hi2]. destruct (worldSchema_ids _ _ Hv) as [Ht1 Ht2].
  apply worldSchema_revision in Hw as [Hrev _]. simpl in Hi1, Hi2, Hrev. destruct Happ as [Ha1 Ha2].
  assert (Hw' : ws_world s' = w') by (by destruct (resultFor _ _ _ _ _ _ _); destruct Hres as [_ ->]).
  unfold valid_world. rewrite Hw'. split; [done|]. split; [congruence|]. split; [congruence|]. split; [lia|].
  destruct (resultFor _ _ _ _ _ _ _); destruct Hres as [_ ->].
  - split; [|by eexists]. intros k. apply jget_jset_is_Some.
  - split; [done|]. exists []. by rewrite app_nil_r.
Qed.

Lemma decided_mono e s s' : mut_step s s' -> valid_world s -> decided e s -> decided e s'.
Proof using laws.
  intros Hs Hv (m & (Hp & Hw & Hn & Hop) & Hd).
  apply mut_step_grows in Hs as (_ & Hi1 & Hi2 & Hrev & Hops & l & Hl); [|done].
  exists m. split; [unfold addressed; by rewrite Hi1, Hi2|].
  destruct Hd as [Hr|[Hlt Hne]]; [left; auto|right]. split; [lia|]. rewrite Hl. unfold related in *.
  rewrite filter_app. intros Hnil. apply Hne. by apply app_eq_nil in Hnil as [Hnil _].
Qed.

Lemma settled_mono e s s' : mut_step s s' -> valid_world s -> settled e s -> settled e s'.
Proof using laws. intros Hs Hv [H|H]; [by left | right; by eapply decided_mono]. Qed.

Lemma settled_steps e s s' : rtc mut_step s s' -> valid_world s -> settled e s -> settled e s'.
Proof using laws.
  induction 1 as [|s s1 s2 Hs Hsteps IH]; intros Hv He; [done|].
  apply IH; [by eapply mut_step_grows | by eapply settled_mono].
Qed.

(** An answered entry is settled. *)
Lemma answered_settled e r auth now s s' :
  applyMutation auth (qe_mutation e) now s = (s', Ok r) -> valid_world s -> settled (answered e r) s'.
Proof using laws.
  intros H Hv. pose proof H as Hcases.
  apply applyMutation_cases in Hcases
    as [[-> Href]|(m & next & t & w' & Hadd & _ & _ & _ & Happ & _ & Hw & Hres)].
  - destruct (Href r eq_refl) as (m & Hadd & Hr). unfold answered.
    destruct Hr as [[-> Hk]|[_ [->|[-> Hc]]]].
    + right. exists m. by split; [|left].
    + left. by right.
    + right. exists m. by split; [|right].
  - destruct (resultFor w' m _ _ _ _ now) as [r'|er] eqn:Hr; destruct Hres as [[= <-] Hs'].
    apply resultFor_ok in Hr as (_ & Hst & _). unfold answered. rewrite Hst. right.
    assert (Hstep : mut_step s s') by (by eexists _, _, _, _).
    apply mut_step_grows in Hstep as (_ & Hi1 & Hi2 & _); [|done].
    destruct Hadd as (Hp & Hwid & Hnid & Hop). exists m. split; [unfold addressed; by rewrite Hi1, Hi2|].
    left. rewrite Hs'. cbn [applied_state set_history set_results ws_operations set_world].
    by rewrite jget_jset_eq.
Qed.

Lemma replay_loop_settles auth now l q out s s' q' out' :
  replay_loop auth now l q out s = (s', Ok (q', out')) -> valid_world s -> NoDup (map fst l) ->
  (forall i e, (i, e) ∈ l -> oq_pending q !! i = Some e) ->
  (forall i e, (i, e) ∈ l -> exists e', oq_pending q' !! i = Some e' /\ settled e' s') /\
  (forall i, i ∉ map fst l -> oq_pending q' !! i = oq_pending q !! i) /\
  length (oq_pending q') = length (oq_pending q).
Proof using laws.
  revert q out s. induction l as [|[i e] l IH]; intros q out s H Hv Hnd Hl.
  { injection H as -> -> ->. split; [set_solver|]. done. }
  simpl in Hnd. apply NoDup_cons in Hnd as [Hfresh Hnd]. cbn [replay_loop] in H.
  assert (Hi : oq_pending q !! i = Some e) by (apply Hl; left).
  destruct (_ || _) eqn:Hskip.
  - apply IH in H as (H1 & H2 & H3); [|done|done|intros j f Hj; apply Hl; by right]. split; [|split; [|done]].
    + intros j f [[= -> ->]|Hj]%elem_of_cons; [|by eapply H1]. exists e. rewrite H2 by done. split; [done|].
      apply orb_true_iff in Hskip. rewrite !bool_decide_eq_true in Hskip. by left.
    + intros j Hj. simpl in Hj. apply H2. set_solver.
  - unfold jbind in H. destruct (applyMutation auth (qe_mutation e) now s) as [s1 [r|er]] eqn:Ha; [|done].
    assert (Hstep : mut_step s s1) by (by eexists _, _, _, _).
    destruct (mut_step_grows _ _ Hstep Hv) as (Hv1 & _).
    pose proof (replay_loop_steps _ _ _ _ _ _ _ _ H) as Hsteps.
    apply IH in H as (H1 & H2 & H3); [|done|done|].
    + cbn [set_queue oq_pending] in *. rewrite length_insert in H3. split; [|split; [|done]].
      * intros j f [[= -> ->]|Hj]%elem_of_cons; [|by eapply H1]. exists (answered e r). rewrite H2 by done.
        split; [by apply list_lookup_insert_eq; apply lookup_lt_Some in Hi|].
        eapply settled_steps; [exact Hsteps|done|]. by eapply answered_settled.
      * intros j Hj. simpl in Hj. rewrite H2 by set_solver. rewrite list_lookup_insert_ne; [done|set_solver].
    + intros j f Hj. cbn [set_queue oq_pending]. rewrite list_lookup_insert_ne; [apply Hl; by right|].
      intros ->. apply Hfresh. apply list_elem_of_fmap. by exists (j, f).
Qed.

Lemma replay_loop_noop auth now l q out s s' res :
  Forall (fun e : nat * queue_entry => settled e.2 s) l ->
  replay_loop auth now l q out s = (s', res) -> s' = s.
Proof using laws.
  intros Hl. revert q out. induction Hl as [|[i e] l He Hl IH]; intros q out H; [by injection H as <- <-|].
  cbn [replay_loop] in H. destruct (_ || _) eqn:Hskip; [by eapply IH|].
  destruct He as [Hs|Hd].
  { rewrite orb_false_iff, !bool_decide_eq_false in Hskip. by destruct Hs, Hskip. }
  unfold jbind in H. destruct (applyMutation auth (qe_mutation e) now s) as [s1 [r|er]] eqn:Ha;
    apply decided_noop in Ha as ->; [by eapply IH|done|by injection H as <- <-|done].
Qed.

Lemma sort_entries_perm l : sort_entries l ≡ₚ l.
Proof.
  assert (Hins : forall e l, insert_entry e l ≡ₚ e :: l).
  { intros e k. induction k as [|e' k IH]; simpl; [done|]. case_match; [done|]. rewrite IH. apply Permutation_swap. }
  induction l as [|e l IH]; simpl; [done|]. by rewrite Hins, IH.
Qed.

(** The entries the loop walks are the queue's, each under its own index. *)
Lemma sorted_entries (p : list queue_entry) :
  NoDup (map fst (sort_entries (zip (seq 0 (length p)) p))) /\
  forall i e, (i, e) ∈ sort_entries (zip (seq 0 (length p)) p) <-> p !! i = Some e.
Proof.
  split.
  - rewrite sort_entries_perm. fold (fmap fst (zip (seq 0 (length p)) p)).
    rewrite fst_zip by (by rewrite length_seq). apply NoDup_seq.
  - intros i e. rewrite sort_entries_perm, list_elem_of_lookup. setoid_rewrite lookup_zip_with_Some.
    split.
    + intros (j & x & y & [= -> ->] & Hx & Hy). apply lookup_seq in Hx as [-> _]. done.
    + intros Hi. exists i, i, e. split; [done|]. split; [|done]. apply lookup_seq. split; [done|].
      by apply lookup_lt_Some in Hi.
Qed.

Lemma getQueue_ok d now s s0 q :
  getOfflineQueue d now s = (s0, Ok q) -> jget d (ws_queues s0) = Some q /\ same_sem s s0.
Proof.
  intros H. pose proof (local_getQueue d now s) as Hl. rewrite H in Hl. split; [|done].
  unfold getOfflineQueue in H. run_method H. apply jget_jset_eq.
Qed.

(** Replaying a device's offline queue twice does nothing the second
    time: after a replay returned, another replay, at any time and with any
    authorization, leaves the shared world, the operation record and the
    history exactly as they are. *)
Theorem replay_offline_twice w s0 s auth auth' d now now' s1 rs s2 res :
  new_workspace w = Ok s0 -> rtc md_step s0 s ->
  replayOffline auth d now s = (s1, Ok rs) -> replayOffline auth' d now' s1 = (s2, res) ->
  ws_world s2 = ws_world s1 /\ ws_operations s2 = ws_operations s1 /\ ws_history s2 = ws_history s1.
Proof using laws.
  intros Hnew Hreach H1 H2.
  assert (Hv : valid_world s).
  { eapply (sem_invariant valid_world); [| |exact Hreach|].
    - intros t t' (Hw & _). unfold valid_world. by rewrite Hw.
    - intros t t' Hst Ht. by eapply mut_step_grows.
    - unfold new_workspace in Hnew. inv_ok. by eapply worldSchema_idem. }
  unfold replayOffline in H1. apply jbind_ok in H1 as (sa & q & Hq & H1).
  apply getQueue_ok in Hq as [_ (Hwa & _)]. apply jbind_ok in H1 as (sb & [q' out] & Hl & H1).
  apply replay_loop_settles in Hl as (Hset & _ & Hlen); [|by unfold valid_world; rewrite Hwa|apply sorted_entries|by intros i e ?%sorted_entries].
  apply jbind_ok in H1 as (sc & t & Ht & H1). unfold jlift in Ht. injection Ht as <- Ht.
  unfold store_queue, jbind, jread, jwrite, jret in H1. injection H1 as <- _. cbn [fst snd] in H2.
  unfold replayOffline in H2. unfold jbind at 1 in H2. unfold getOfflineQueue at 1 in H2.
  unfold jbind at 1, jread at 1 in H2. cbn [set_queues ws_queues] in H2. rewrite jget_jset_eq in H2. unfold jret at 1 in H2.
  unfold jbind at 1 in H2. cbn [set_queue oq_pending] in H2.
  destruct (replay_loop auth' now' _ _ _ _) as [sd rl] eqn:Hl2.
  apply replay_loop_noop in Hl2; cycle 1.
  { apply Forall_forall. intros [i e] Hin. apply sorted_entries in Hin.
    destruct (lookup_lt_is_Some_2 (oq_pending q) i) as [e0 He0].
    { rewrite <-Hlen. by eapply lookup_lt_Some. }
    destruct (Hset i e0) as (e' & He' & Hs); [by apply sorted_entries|].
    rewrite Hin in He'. injection He' as <-. by destruct Hs as [Hs|Hs]; [left|right]. }
  subst sd.
  destruct rl as [p|e]; [|by injection H2 as <- <-]. unfold jbind at 1, jlift at 1 in H2.
  destruct (md_now now') as [t'|e]; [|by injection H2 as <- <-].
  unfold store_queue, jbind, jread, jwrite, jret in H2. by injection H2 as <- <-.
Qed.
End replay_twice.

(** ** Pins *)

Section pins.
Context {zod : Zod} {laws : ZodLaws zod}.

(** Reference, pinned, available. *)
Definition shape (o : world_object) : string * bool * bool := (wo_ref o, wo_pinned o, wo_available o).

(** Distinct references; the pins are exactly the pinned objects, and these
    are available. *)
Record pins_ok (l : list (string * bool * bool)) (ps : list string) : Prop := PinsOk {
  po_nodup : NoDup (map (fun x => x.1.1) l);
  po_pinned : Forall (fun x => (x.1.2 = true <-> x.1.1 ∈ ps) /\ (x.1.2 = true -> x.2 = true)) l;
  po_known : forall r, r ∈ ps -> r ∈ map (fun x => x.1.1) l;
}.

Definition world_pins_ok (w : world) : Prop := pins_ok (map shape (semantic_objects w)) (pins w).

Definition trimmed (w : world) : Prop :=
  Forall (fun o => trim (wo_ref o) = wo_ref o) (semantic_objects w) /\ Forall (fun r => trim r = r) (pins w).

Lemma pins_ok_mid l1 l2 r p a p' a' ps ps' :
  pins_ok (l1 ++ (r, p, a) :: l2) ps ->
  (p' = true <-> r ∈ ps') -> (p' = true -> a' = true) -> (forall r', r' <> r -> r' ∈ ps' <-> r' ∈ ps) ->
  pins_ok (l1 ++ (r, p', a') :: l2) ps'.
Proof.
  intros [Hnd Hp Hk] Hr Ha Hps. rewrite map_app in Hnd, Hk. simpl in *.
  apply NoDup_app in Hnd as (Hn1 & Hn12 & [Hr2 Hn2]%NoDup_cons).
  assert (Hr1 : r ∉ map (fun x => x.1.1) l1). { intros Hin. apply (Hn12 r Hin). left. }
  apply Forall_app in Hp as [Hp1 [_ Hp2]%Forall_cons].
  assert (Hkeep : forall l, r ∉ map (fun x : string * bool * bool => x.1.1) l ->
    Forall (fun x => (x.1.2 = true <-> x.1.1 ∈ ps) /\ (x.1.2 = true -> x.2 = true)) l ->
    Forall (fun x => (x.1.2 = true <-> x.1.1 ∈ ps') /\ (x.1.2 = true -> x.2 = true)) l).
  { intros l Hl. rewrite !Forall_forall. intros Hx x Hin. rewrite Hps; [by apply Hx|].
    intros Heq. apply Hl, list_elem_of_fmap. by exists x. }
  split.
  - rewrite map_app. simpl. apply NoDup_app. split; [done|]. split; [done|]. by apply NoDup_cons.
  - apply Forall_app. split; [by apply Hkeep|]. constructor; [done|]. by apply Hkeep.
  - intros r' Hin. rewrite map_app. simpl. destruct (decide (r' = r)) as [->|Hne]; [set_solver|].
    apply Hk. by apply Hps.
Qed.

Lemma update_first_spec {A} (p : A -> bool) f (l l' : list A) :
  update_first p f l = Some l' -> exists l1 x l2, l = l1 ++ x :: l2 /\ p x = true /\ l' = l1 ++ f x :: l2.
Proof.
  revert l'. induction l as [|x l IH]; intros l' H; simpl in H; [done|].
  destruct (p x) eqn:Hx; [injection H as <-; by exists [], x, l|].
  apply bind_Some in H as (k & Hk & [= <-]). apply IH in Hk as (l1 & y & l2 & -> & Hy & ->).
  by exists (x :: l1), y, l2.
Qed.

Lemma elem_of_without r x l : x ∈ without r l <-> x ∈ l /\ x <> r.
Proof. unfold without. rewrite list_elem_of_filter. tauto. Qed.

Lemma pin_added r l : true = true <-> r ∈ unique (l ++ [r]).
Proof. rewrite elem_of_unique. set_solver. Qed.

Lemma pin_removed r l : false = true <-> r ∈ without r l.
Proof. rewrite elem_of_without. naive_solver. Qed.

(** The targets of a parsed mutation are trimmed. *)
Definition clean (m : ws_mutation) : Prop :=
  Forall (fun r => trim r = r) (wm_target_refs m) /\
  forall ref, json_string (jget "canonical_ref" (wm_payload m)) = Some ref -> trim ref = ref.

Lemma head_target m ref : head (unique (wm_target_refs m)) = Some ref -> ref ∈ wm_target_refs m.
Proof.
  intros H. apply elem_of_unique. destruct (unique (wm_target_refs m)) as [|x l]; [done|]. injection H as ->. left.
Qed.

Lemma set_pin_ok pin m w next :
  set_pin pin (unique (wm_target_refs m)) w = Some next -> world_pins_ok w -> world_pins_ok next.
Proof.
  unfold set_pin, world_pins_ok. intros H Hok. inv_op. simpl.
  match goal with H : update_first _ _ _ = Some _ |- _ => apply update_first_spec in H as (l1 & o & l2 & Hl & Hx & ->) end.
  unfold available_target in Hx. apply andb_true_iff in Hx as [Hx%bool_decide_eq_true Hav]. injection Hx as <-.
  rewrite Hl, map_app in Hok. rewrite map_app. unfold shape in *. simpl in *. rewrite Hav in Hok |- *.
  eapply pins_ok_mid; [exact Hok|by destruct pin; [apply pin_added | apply pin_removed]|done|].
  intros r' Hne. destruct pin; [rewrite elem_of_unique; set_solver | rewrite elem_of_without; tauto].
Qed.

Lemma remove_ok m w next :
  remove_entity (unique (wm_target_refs m)) w = Some next -> world_pins_ok w -> world_pins_ok next.
Proof.
  unfold remove_entity, world_pins_ok. intros H Hok. inv_op. simpl.
  match goal with H : update_first _ _ _ = Some _ |- _ => apply update_first_spec in H as (l1 & o & l2 & Hl & <-%str_eqb_eq & ->) end.
  rewrite Hl, map_app in Hok. rewrite map_app. unfold shape in *. simpl in *.
  eapply pins_ok_mid; [exact Hok|apply pin_removed|done|]. intros r' Hne. rewrite elem_of_without. tauto.
Qed.

Lemma create_ok targets payload w next :
  create_branch targets payload w = Some next -> world_pins_ok w -> world_pins_ok next.
Proof.
  unfold create_branch, world_pins_ok. intros H [Hnd Hp Hk]. apply bind_Some in H as (ref & _ & H).
  destruct (_ || _) eqn:Hc; [done|]. injection H as <-. apply orb_false_iff in Hc as [_ Hc].
  assert (Hfresh : ref ∉ map (fun x => x.1.1) (map shape (semantic_objects w))).
  { rewrite map_map. simpl. intros (o & Heq & Hin)%list_elem_of_fmap.
    assert (Ht : existsb (fun o => str_eqb (wo_ref o) ref) (semantic_objects w) = true); [|congruence].
    apply existsb_exists. exists o. split; [by apply list_elem_of_In | by apply str_eqb_eq]. }
  simpl. rewrite map_app. simpl. split.
  - rewrite map_app. apply NoDup_app. split; [done|]. split; [|apply NoDup_singleton].
    intros x Hx Hin. simpl in Hin. apply elem_of_cons in Hin as [->|Hin]; [done | by apply not_elem_of_nil in Hin].
  - apply Forall_app. split; [done|]. constructor; [|constructor]. simpl. split; [|done]. split; [done|]. by intros ?%Hk.
  - intros r Hr. rewrite map_app. apply elem_of_app. left. by apply Hk.
Qed.

Lemma applyOperation_pins w m next : applyOperation w m = Some next -> world_pins_ok w -> world_pins_ok next.
Proof.
  unfold applyOperation. destruct (jget (wm_operation m) MUTATION_OPERATIONS) as [[]|]; [..|done]; intros H Hok.
  - unfold move_anchor in H. inv_op.
    match goal with H : update_first _ _ _ = Some _ |- _ => apply update_first_spec in H as (l1 & o & l2 & Hl & Hx & ->) end.
    unfold world_pins_ok in *. simpl. rewrite Hl, !map_app in *. done.
  - by eapply set_pin_ok.
  - by eapply set_pin_ok.
  - by eapply create_ok.
  - unfold edit_cluster in H. inv_op. done.
  - unfold upsert_relation in H. inv_op; done.
  - by eapply remove_ok.
Qed.

(** Validation of a world trims references and pins, and nothing else that
    the pin invariant looks at. *)
Lemma worldSchema_shape w w' : spatialWorkspaceWorldSchema w = Some w' ->
  map shape (semantic_objects w') = map (fun o => (trim (wo_ref o), wo_pinned o, wo_available o)) (semantic_objects w) /\
  pins w' = map trim (pins w).
Proof using laws.
  intros H. unfold spatialWorkspaceWorldSchema in H.
  repeat match goal with H : base.mbind _ _ = Some _ |- _ => apply bind_Some in H as (? & ? & ?) end.
  match goal with H : Some _ = Some _ |- _ => injection H as <- end. cbn [semantic_objects pins].
  match goal with Ho : z_array spatialWorldObjectSchema _ _ = Some _, Hs : z_array idSchema _ (pins w) = Some ?l |- _ =>
    rename Ho into Hos, Hs into Hps, l into ps end.
  split.
  - eapply z_array_map, Hos. intros a b Hb. unfold spatialWorldObjectSchema in Hb. inv_op. unfold shape. simpl.
    by match goal with H : idSchema _ = Some _ |- _ => apply idSchema_spec in H as [-> _] end.
  - transitivity (map (fun r => r) ps); [by rewrite map_id|]. eapply z_array_map, Hps.
    intros a b Hb. by apply idSchema_spec in Hb as [-> _].
Qed.

Lemma map_fix {A} (f : A -> A) l : Forall (fun x => f x = x) l <-> map f l = l.
Proof.
  split; [induction 1 as [|x l Hx H IH]; simpl; [done|]; by f_equal|].
  induction l as [|x l IH]; simpl; [done|]. intros [= Hx Hl]. constructor; auto.
Qed.

Lemma trimmed_shape w : trimmed w <->
  map (fun o => (trim (wo_ref o), wo_pinned o, wo_available o)) (semantic_objects w) = map shape (semantic_objects w) /\
  map trim (pins w) = pins w.
Proof.
  unfold trimmed. rewrite map_fix. split; intros [H1 H2]; (split; [|done]); clear H2.
  - induction H1 as [|o l Ho H IH]; simpl; [done|]. unfold shape at 1. by rewrite Ho, IH.
  - revert H1. induction (semantic_objects w) as [|o l IH]; simpl; [constructor|]. intros H.
    injection H as Ho Hl. constructor; auto.
Qed.

Lemma valid_trimmed w : spatialWorkspaceWorldSchema w = Some w -> trimmed w.
Proof using laws. intros [H1 H2]%worldSchema_shape. by apply trimmed_shape. Qed.

Lemma applyOperation_trimmed w m next :
  applyOperation w m = Some next -> trimmed w -> clean m -> trimmed next.
Proof.
  intros H [Ho Hp] [Ht Hc]. unfold applyOperation in H.
  assert (Hupd : forall p f os, (forall o, wo_ref (f o) = wo_ref o) -> update_first p f (semantic_objects w) = Some os ->
            Forall (fun o => trim (wo_ref o) = wo_ref o) os).
  { intros p f os Hf (l1 & x & l2 & Hl & _ & ->)%update_first_spec. rewrite Hl in Ho.
    rewrite Forall_app, Forall_cons in Ho |- *. by rewrite Hf. }
  assert (Hwo : forall r, Forall (fun r => trim r = r) (without r (pins w))).
  { intros r. apply Forall_forall. intros x [Hx _]%elem_of_without. rewrite Forall_forall in Hp. by apply Hp. }
  destruct (jget (wm_operation m) MUTATION_OPERATIONS) as [[]|]; [..|done];
    unfold move_anchor, set_pin, create_branch, edit_cluster, upsert_relation, remove_entity in H; inv_op;
    split; simpl; try done; try (by eapply Hupd; [|done]).
  - apply Forall_forall. intros r Hr. rewrite elem_of_unique, elem_of_app in Hr.
    rewrite Forall_forall in Hp, Ht. destruct Hr as [Hr|[->|[]%not_elem_of_nil]%elem_of_cons]; [by apply Hp|].
    apply Ht. by apply head_target.
  - apply Forall_app. split; [done|]. constructor; [|done]. simpl. by apply Hc.
  - apply Forall_app. split; [done|]. constructor; [|done]. simpl. rewrite Forall_forall in Ht.
    apply Ht. by apply head_target.
Qed.

Lemma parsed_targets input m : spatialWorkspaceMutationSchema input = Some m -> Forall (fun r => trim r = r) (wm_target_refs m).
Proof using laws.
  intros H. unfold spatialWorkspaceMutationSchema in H.
  repeat match goal with H : base.mbind _ _ = Some _ |- _ => apply bind_Some in H as (? & ? & ?) end.
  match goal with H : Some _ = Some _ |- _ => injection H as <- end. cbn [wm_target_refs].
  match goal with H : z_array idSchema _ _ = Some _ |- _ =>
    apply (z_array_map idSchema (fun r => r) trim) in H as Hl end.
  - rewrite map_id in Hl. rewrite Hl. apply Forall_fmap. apply Forall_true. intros r. apply trim_idem.
  - intros a b Hb. by apply idSchema_spec in Hb as [-> _].
Qed.

(** Mutations keep the pins of the shared world consistent: if the
    object references are distinct, the pin list is exactly the set of pinned
    objects and pinned objects are available, then so they are after any
    call of [applyMutation], successful or not, provided a new branch is
    named without white space around its reference. *)
Theorem mutation_keeps_pins auth input now s s' res :
  spatialWorkspaceWorldSchema (ws_world s) = Some (ws_world s) -> world_pins_ok (ws_world s) ->
  (forall ref, json_string (jget "canonical_ref" (wm_payload input)) = Some ref -> trim ref = ref) ->
  applyMutation auth input now s = (s', res) -> world_pins_ok (ws_world s').
Proof using laws.
  intros Hv Hok Hclean
    [[-> _]|(m & next & t & w' & (Hm & _) & _ & _ & _ & Happ & _ & Hw & Hres)]%applyMutation_cases; [done|].
  assert (Hpay : wm_payload m = wm_payload input).
  { unfold spatialWorkspaceMutationSchema in Hm. inv_op. done. }
  assert (Hnext : trimmed next).
  { eapply applyOperation_trimmed; [done|by apply valid_trimmed|]. split; [by eapply parsed_targets|]. by rewrite Hpay. }
  assert (Hw' : ws_world s' = w') by (by destruct (resultFor _ _ _ _ _ _ _); destruct Hres as [_ ->]).
  rewrite Hw'. apply worldSchema_shape in Hw as [Hs Hp]. apply trimmed_shape in Hnext as [Hn1 Hn2].
  unfold world_pins_ok. rewrite Hs, Hp. simpl. rewrite Hn1, Hn2. by eapply applyOperation_pins.
Qed.
End pins.

(** ** Shared focus *)

Section focus.
Context {zod : Zod}.

(** Only the viewport of [d] may differ. *)
Definition only_viewport (d : string) (s s' : workspace) : Prop :=
  same_sem s s' /\ ws_queues s' = ws_queues s /\ ws_shares s' = ws_shares s /\
  forall d', d' <> d -> jget d' (ws_viewports s') = jget d' (ws_viewports s).

Lemma only_viewport_refl d s : only_viewport d s s.
Proof. by repeat split. Qed.

Lemma only_viewport_set d v s : only_viewport d s (set_viewports (jset d v (ws_viewports s)) s).
Proof. repeat split. intros d' Hne. simpl. by rewrite jget_jset_ne. Qed.

Lemma only_viewport_trans d s1 s2 s3 : only_viewport d s1 s2 -> only_viewport d s2 s3 -> only_viewport d s1 s3.
Proof.
  intros (H1 & Hq1 & Hs1 & Hv1) (H2 & Hq2 & Hs2 & Hv2). split; [by etransitivity|].
  split; [congruence|]. split; [congruence|]. intros d' Hne. by rewrite Hv2, Hv1.
Qed.

Lemma registerDevice_only d p now s s' res : registerDevice d p now s = (s', res) -> only_viewport d s s'.
Proof.
  unfold registerDevice. intros H. run_method H; eauto using only_viewport_refl, only_viewport_set.
Qed.

Lemma getViewport_only d now s s' res : getViewport d now s = (s', res) -> only_viewport d s s'.
Proof.
  unfold getViewport, jbind, jread. intros H. destruct (jget d (ws_viewports s));
    [injection H as <- <-; apply only_viewport_refl | by eapply registerDevice_only].
Qed.

Lemma updateViewport_only d p now s s' res : updateViewport d p now s = (s', res) -> only_viewport d s s'.
Proof.
  unfold updateViewport. unfold jbind at 1. intros H.
  destruct (getViewport d now s) as [s1 [cur|e]] eqn:Hg; apply getViewport_only in Hg; [|by injection H as <- <-].
  eapply only_viewport_trans; [exact Hg|]. unfold jbind at 1, jlift at 1 in H.
  destruct (md_now now); [|injection H as <- <-; apply only_viewport_refl].
  unfold jbind, jlift, jread, jwrite, jret in H.
  destruct (of_option _ _); injection H as <- <-; [apply only_viewport_set | apply only_viewport_refl].
Qed.

(** Shared focus moves a viewport only with authority: the share is
    ACCEPTED, unexpired, grants focus, lists the device in its audience and
    is for this target (or for any), and the target is an available object
    of the world. Nothing but that device's own viewport changes. *)
Theorem shared_focus_guarded i d r now s s' v :
  applySharedFocus i d r now s = (s', Ok v) ->
  (exists sh, jget i (ws_shares s) = Some sh /\ sh_state sh = SH_ACCEPTED /\ sh_focus_authorized sh = true /\
     d ∈ sh_audience sh /\ (forall t, now = Some t -> t < sh_expires_at sh) /\
     (truthy (sh_target sh) = true -> sh_target sh = Some r)) /\
  (exists o, o ∈ semantic_objects (ws_world s) /\ wo_ref o = r /\ wo_available o = true) /\
  only_viewport d s s'.
Proof.
  unfold applySharedFocus, requireShare. intros H.
  apply jbind_ok in H as (s1 & sh & H1 & H). unfold jbind, jread, jlift in H1. injection H1 as <- Hsh.
  apply of_option_ok in Hsh. apply jbind_ok in H as (s2 & u & H2 & H).
  unfold assertShareLive in H2.
  destruct (match now with Some t => bool_decide (sh_expires_at sh <= t) | None => false end) eqn:Hlive.
  { apply jbind_ok in H2 as (? & ? & _ & H2). done. }
  injection H2 as <- <-. apply jbind_ok in H as (s3 & u3 & H3 & H). unfold jlift in H3. injection H3 as <- H3.
  apply require_ok in H3. apply andb_true_iff in H3 as [[Hst%bool_decide_eq_true Hf]%andb_true_iff Hd%bool_decide_eq_true].
  apply jbind_ok in H as (s4 & u4 & H4 & H). unfold jlift in H4. injection H4 as <- H4. apply require_ok in H4.
  apply jbind_ok in H as (s5 & sr & H5 & H). unfold jread in H5. injection H5 as <- <-.
  apply jbind_ok in H as (s6 & u6 & H6 & H). unfold jlift in H6. injection H6 as <- H6. apply require_ok in H6.
  apply existsb_exists in H6 as (o & Ho & [Hor%str_eqb_eq Hoa]%andb_true_iff).
  apply jbind_ok in H as (s7 & v7 & H7 & H).
  apply getViewport_only in H7. apply updateViewport_only in H. split; [|split].
  - exists sh. do 4 (split; [done|]). split.
    + intros t ->. apply bool_decide_eq_false in Hlive. lia.
    + intros Ht. rewrite Ht in H4. by apply bool_decide_eq_true in H4.
  - exists o. by split; [apply list_elem_of_In|].
  - by eapply only_viewport_trans.
Qed.
End focus.

(** ** Defects *)

Definition answer {E A} (r : result E A) : option A :=
  match r with Ok a => Some a | Err _ => None end.

Definition wm_obj (ref : string) : world_object :=
  WorldObject ref (Position (Some 0) (Some 0) (Some 0)) "AGENT" false false 1 true.
Definition wm_world : world := World "ws" "node" 0 0 None [wm_obj "a"; wm_obj "b"] [] [] [] [] 0.
Definition wm_s0 : workspace := Workspace wm_world [] [] [] [] [].
Definition wm_mut (id : string) (base : Z) (op : string) (targets : list string) (payload : list (string * json)) : ws_mutation :=
  WsMutation ("ev-" +:+ id) id ("key-" +:+ id) "ws" "node" "dev" "actor" base op targets C_NONE payload 0 0.
Definition wm_apply (m : ws_mutation) (s : workspace) : workspace * result md_error ws_result :=
  applyMutation (zod := zod_ref) None m (Some 1000) s.
Definition wm_state_of (p : workspace * result md_error ws_result) : option result_state :=
  match p.2 with Ok r => Some (res_state r) | Err _ => None end.

(** Conflict detection compares base revisions, not the revisions the
    changes produced: m1 changes "a" (revision 1), m2, still based on revision
    0, changes "b" (revision 2), and m3, based on revision 1, changes "b" too.
    m3 never saw m2, but m2's base revision 0 is below 1, so m3 is applied
    without a conflict and overwrites m2. *)
Theorem concurrent_change_missed :
  let m1 := wm_mut "m1" 0 "PIN" ["a"] [] in
  let m2 := wm_mut "m2" 0 "PIN" ["b"] [] in
  let m3 := wm_mut "m3" 1 "UNPIN" ["b"] [] in
  let p1 := wm_apply m1 wm_s0 in
  let p2 := wm_apply m2 p1.1 in
  let p3 := wm_apply m3 p2.1 in
  wm_state_of p1 = Some APPLIED /\ wm_state_of p2 = Some APPLIED /\ workspace_revision (ws_world p2.1) = 2 /\
  pins (ws_world p2.1) = ["a"; "b"] /\ wm_state_of p3 = Some APPLIED /\ pins (ws_world p3.1) = ["a"].
Proof. cbv zeta. repeat split; by vm_compute. Qed.

(** An operation id of 251 to 256 characters passes the mutation
    contract, but the audit reference built from it does not pass the result
    contract: [applyMutation] throws after the world was replaced and before
    the operation is recorded, so the same mutation is applied again each time
    it is sent. *)
Theorem long_operation_id_applied_twice :
  let p1 := wm_apply (WsMutation "ev" (repeat_char "x" 252) "key" "ws" "node" "dev" "actor" 0 "PIN" ["a"] C_NONE [] 0 0) wm_s0 in
  let p2 := wm_apply (WsMutation "ev" (repeat_char "x" 252) "key" "ws" "node" "dev" "actor" 0 "PIN" ["a"] C_NONE [] 0 0) p1.1 in
  p1.2 = Err (MdError MD_VALIDATION) /\ workspace_revision (ws_world p1.1) = 1 /\
  ws_operations p1.1 = [] /\ ws_history p1.1 = [] /\
  p2.2 = Err (MdError MD_VALIDATION) /\ workspace_revision (ws_world p2.1) = 2.
Proof. cbv zeta. repeat split; by vm_compute. Qed.

(** [CREATE_BRANCH] looks for an existing object under the reference as
    it was sent, while the world contract trims it: a reference with white
    space around it makes a second object with an existing reference. *)
Theorem padded_branch_duplicates_reference :
  let p := wm_apply (wm_mut "m1" 0 "CREATE_BRANCH" [] [("canonical_ref", JStr " a ")]) wm_s0 in
  wm_state_of p = Some APPLIED /\ map wo_ref (semantic_objects (ws_world p.1)) = ["a"; "b"; "a"].
Proof. cbv zeta. repeat split; by vm_compute. Qed.

Definition wm_options : share_options := ShareOptions ["guest"] (Some "a") (Some 5000) (Some true).
Definition wm_shared : workspace := fst (createShareView (zod := zod_ref) "owner" wm_options (Some 0) wm_s0).

(** A share view its owner has left is not closed: until it expires, a
    device of the audience can accept it again and move focus with it. *)
Theorem left_share_accepted_again :
  let p1 := leaveShareView "share:owner:1" "owner" (Some 10) wm_shared in
  let p2 := acceptShareView "share:owner:1" "guest" (Some 20) p1.1 in
  let p3 := applySharedFocus (zod := zod_ref) "share:owner:1" "guest" "a" (Some 30) p2.1 in
  sh_state <$> answer p1.2 = Some SH_LEFT /\ sh_state <$> answer p2.2 = Some SH_ACCEPTED /\
  vp_focus_anchor <$> answer p3.2 = Some (Some "a").
Proof. cbv zeta. repeat split; by vm_compute. Qed.

(** ** Witnesses *)

#[local] Instance wm_collation : Collation := fun a b => if str_eqb a b then 0 else if String.leb a b then -1 else 1.

Definition wm_pin : ws_mutation := wm_mut "m1" 0 "pin" ["a"; " a "] [].
Definition wm_result (p : workspace * result md_error ws_result) : ws_result :=
  match p.2 with
  | Ok r => r
  | Err _ => WsResult "" "" "" "" REJECTED C_NONE 0 0 [] None None wm_world "" 0
  end.
Definition wm_s1 : workspace := fst (wm_apply wm_pin wm_s0).
Definition wm_parsed (m : ws_mutation) : ws_mutation := default m (spatialWorkspaceMutationSchema (zod := zod_ref) m).

Lemma mutation_outcome_witness : workspace_revision (ws_world wm_s1) = workspace_revision (ws_world wm_s0) + 1.
Proof.
  destruct (mutation_outcome (zod := zod_ref) None wm_pin (Some 1000) wm_s0 wm_s1 (wm_result (wm_apply wm_pin wm_s0)))
    as (_ & _ & _ & [[_ H]|[_ (m & _ & _ & H & _)]]); [by vm_compute| |exact H].
  exfalso. apply H. by vm_compute.
Defined.

Lemma conflict_detected_witness :
  let m := wm_mut "m2" 0 "UNPIN" ["a"] [] in
  fst (wm_apply m wm_s1) = wm_s1 /\ wm_state_of (wm_apply m wm_s1) = Some CONFLICT.
Proof.
  intros m.
  destruct (conflict_detected (zod := zod_ref) None m (Some 1000) wm_s1 (wm_parsed m)
              (HistoryRecord "m1" 0 ["a"]) (fst (wm_apply m wm_s1)) (snd (wm_apply m wm_s1))) as [H1 H2].
  - split; [by vm_compute|]. split; [by vm_compute|]. split; [by vm_compute|]. eexists. by vm_compute.
  - by vm_compute.
  - done.
  - by vm_compute.
  - assert (ws_history wm_s1 = [HistoryRecord "m1" 0 ["a"]]) as -> by (by vm_compute). left.
  - by vm_compute.
  - exists "a". assert (wm_target_refs (wm_parsed m) = ["a"]) as -> by (by vm_compute). split; left.
  - by vm_compute.
  - split; [exact H1|]. unfold wm_state_of. specialize (H2 (wm_result (wm_apply m wm_s1))).
    rewrite <-H2; by vm_compute.
Defined.

Lemma world_always_valid_witness :
  spatialWorkspaceWorldSchema (zod := zod_ref) (ws_world wm_s1) = Some (ws_world wm_s1) /\
  workspace_revision (ws_world wm_s0) <= workspace_revision (ws_world wm_s1).
Proof.
  apply (world_always_valid (zod := zod_ref) wm_world wm_s0 wm_s0 wm_s1); [by vm_compute | apply rtc_refl |].
  apply rtc_once. by apply (md_mutation None wm_pin (Some 1000) wm_s0 wm_s1 (snd (wm_apply wm_pin wm_s0)) (surjective_pairing _)).
Defined.

Lemma mutation_applied_once_witness :
  let m := wm_mut "m1" 7 "REMOVE_ENTITY" ["b"] [] in
  wm_apply m wm_s1 = (wm_s1, Ok (with_state IDEMPOTENT (wm_result (wm_apply wm_pin wm_s0)))).
Proof.
  intros m.
  apply (mutation_applied_once (zod := zod_ref) None wm_pin (Some 1000) wm_s0 wm_s1 (wm_result (wm_apply wm_pin wm_s0))
           (wm_parsed wm_pin) wm_s1 None m (Some 1000) (wm_parsed m));
    [by vm_compute | by vm_compute | by vm_compute | apply rtc_refl | | by vm_compute].
  split; [by vm_compute|]. split; [by vm_compute|]. split; [by vm_compute|]. eexists. by vm_compute.
Defined.

Definition wm_queued : workspace := fst (queueOfflineMutation (zod := zod_ref) wm_pin (Some 5) wm_s0).
Definition wm_replay (s : workspace) : workspace * result md_error (list ws_result) :=
  replayOffline (zod := zod_ref) None "dev" (Some 1000) s.

Lemma replay_offline_twice_witness :
  let s1 := fst (wm_replay wm_queued) in
  workspace_revision (ws_world s1) = 1 /\ ws_world (fst (wm_replay s1)) = ws_world s1.
Proof.
  intros s1. split; [by vm_compute|].
  apply (replay_offline_twice (zod := zod_ref) wm_world wm_s0 wm_queued None None "dev" (Some 1000) (Some 1000) s1
           (match snd (wm_replay wm_queued) with Ok l => l | Err _ => [] end) (fst (wm_replay s1)) (snd (wm_replay s1)));
    [by vm_compute | | by vm_compute | by vm_compute].
  apply rtc_once. by apply (md_queue wm_pin (Some 5) wm_s0 wm_queued _ (surjective_pairing _)).
Defined.

Lemma mutation_keeps_pins_witness : world_pins_ok (ws_world wm_s1) /\ pins (ws_world wm_s1) = ["a"].
Proof.
  split; [|by vm_compute].
  apply (mutation_keeps_pins (zod := zod_ref) None wm_pin (Some 1000) wm_s0 wm_s1 (snd (wm_apply wm_pin wm_s0)));
    [by vm_compute | | done | by vm_compute].
  split; simpl; [repeat constructor; set_solver | repeat constructor; simpl; set_solver | set_solver].
Defined.

Lemma shared_focus_guarded_witness :
  let s := fst (acceptShareView "share:owner:1" "guest" (Some 20) wm_shared) in
  let p := applySharedFocus (zod := zod_ref) "share:owner:1" "guest" "a" (Some 30) s in
  only_viewport "guest" s (fst p) /\ is_ok (snd p) = true.
Proof.
  intros s p. split; [|by vm_compute].
  pose (v := match snd p with Ok v => v | Err _ => Viewport "" "" "" DESKTOP (Camera None None None (Position None None None) None) "" None [] [] [] Q_LOW IDLE 0 0 end).
  apply (shared_focus_guarded (zod := zod_ref) "share:owner:1" "guest" "a" (Some 30) s (fst p) v). by vm_compute.
Defined.
