(* ===== verification/Events.v ===== *)
(** * Spatial events (data/events.ts)

    The event envelope and its dispatch to the payload contracts, the
    [SpatialEventGateway] that lets each event through at most once and in
    order, and the reconnecting stream adapter as a state machine. The payload
    parsers are arguments: the gateway uses only their verdict and their data.
    Calls of the gateway's callbacks are recorded in logs. *)

From S2P Require Import Prelude Json Contracts Slot.
From stdpp Require Import pretty.

#[local] Open Scope Z_scope.

(** ** Event types and payload contracts *)

(** The payload contract an event type is parsed with. *)
Inductive contract : Type :=
| P_Workspace | P_Entity | P_Relation | P_NodeStatus | P_RecoveryCommand
| P_RecoveryResult | P_EndpointProvenance | P_RemoteContextManifest | P_RemoteRequest | P_RemoteResult
| P_EndpointTestFrame | P_ResourceAccounting | P_PrimaryAgentSlot | P_PrimaryAgentGrant | P_PrimaryAgentState
| P_IntentEnvelope | P_WorkspaceSession | P_ContextNode | P_ConversationTurn | P_GeneratedObject
| P_Artifact | P_PresentationIntent | P_PresentationResult | P_CanonicalReference | P_EndpointDetails
| P_DiscoveryResult | P_SemanticRelation | P_SubagentLifecycle | P_InteractionProvenance | P_AttentionItem
| P_AttentionMarker | P_AttentionFocus | P_MemoryLayout | P_MemoryProjection | P_MemoryCluster
| P_MemoryFocus | P_MemorySearch | P_MemoryVirtualization | P_WorkspaceWorld | P_DeviceViewport
| P_PresentationGeometry | P_WorkspaceMutation | P_WorkspaceMutationResult | P_OfflineQueue | P_ShareView
| P_ChangeIntent | P_ResultModel | P_ComponentFrame | P_ResourceSummary | P_ActionFeedback.
Definition payload_contracts_core : list (string * contract) :=
  [("spatial.workspace.updated.v1", P_Workspace);
   ("spatial.entity.upserted.v1", P_Entity);
   ("spatial.entity.archived.v1", P_Entity);
   ("spatial.relation.upserted.v1", P_Relation);
   ("spatial.node-status.changed.v1", P_NodeStatus);
   ("spatial.recovery.command-planned.v1", P_RecoveryCommand);
   ("spatial.recovery.resulted.v1", P_RecoveryResult);
   ("spatial.endpoint-provenance.updated.v1", P_EndpointProvenance);
   ("spatial.remote.context-manifest.updated.v1", P_RemoteContextManifest);
   ("spatial.remote.requested.v1", P_RemoteRequest);
   ("spatial.remote.resulted.v1", P_RemoteResult);
   ("spatial.endpoint-test-frame.updated.v1", P_EndpointTestFrame);
   ("spatial.resource-accounting.updated.v1", P_ResourceAccounting);
   ("spatial.primary-agent.binding-changed.v1", P_PrimaryAgentSlot);
   ("spatial.primary-agent.grant-changed.v1", P_PrimaryAgentGrant);
   ("spatial.primary-agent.state-changed.v1", P_PrimaryAgentState);
   ("spatial.intent.accepted.v1", P_IntentEnvelope);
   ("spatial.session.updated.v1", P_WorkspaceSession);
   ("spatial.context.updated.v1", P_ContextNode);
   ("spatial.conversation.turn-updated.v1", P_ConversationTurn)].
Definition payload_contracts_interaction : list (string * contract) :=
  [("spatial.generated-object.updated.v1", P_GeneratedObject);
   ("spatial.artifact.created.v1", P_Artifact);
   ("spatial.presentation.requested.v1", P_PresentationIntent);
   ("spatial.presentation.resolved.v1", P_PresentationResult);
   ("spatial.canonical-reference.upserted.v1", P_CanonicalReference);
   ("spatial.endpoint-details.updated.v1", P_EndpointDetails);
   ("spatial.discovery.updated.v1", P_DiscoveryResult);
   ("spatial.semantic-relation.updated.v1", P_SemanticRelation);
   ("spatial.subagent.lifecycle-updated.v1", P_SubagentLifecycle);
   ("spatial.interaction.provenance-recorded.v1", P_InteractionProvenance);
   ("spatial.attention.raised.v1", P_AttentionItem);
   ("spatial.attention.resolved.v1", P_AttentionItem);
   ("spatial.attention.item-updated.v1", P_AttentionItem);
   ("spatial.attention.marker-updated.v1", P_AttentionMarker);
   ("spatial.attention.focus-updated.v1", P_AttentionFocus);
   ("spatial.memory.layout-updated.v1", P_MemoryLayout);
   ("spatial.memory.projection-updated.v1", P_MemoryProjection);
   ("spatial.memory.cluster-updated.v1", P_MemoryCluster);
   ("spatial.memory.focus-updated.v1", P_MemoryFocus);
   ("spatial.memory.search-completed.v1", P_MemorySearch)].
Definition payload_contracts_workspace : list (string * contract) :=
  [("spatial.memory.virtualization-updated.v1", P_MemoryVirtualization);
   ("spatial.workspace-world.updated.v1", P_WorkspaceWorld);
   ("spatial.device-viewport.updated.v1", P_DeviceViewport);
   ("spatial.presentation-geometry.updated.v1", P_PresentationGeometry);
   ("spatial.workspace-mutation.requested.v1", P_WorkspaceMutation);
   ("spatial.workspace-mutation.resolved.v1", P_WorkspaceMutationResult);
   ("spatial.offline-queue.updated.v1", P_OfflineQueue);
   ("spatial.share-view.updated.v1", P_ShareView);
   ("spatial.change-intent.created.v1", P_ChangeIntent);
   ("spatial.change-intent.resolved.v1", P_ChangeIntent);
   ("spatial.result-model.updated.v1", P_ResultModel);
   ("spatial.component-frame.updated.v1", P_ComponentFrame);
   ("spatial.resource-summary.updated.v1", P_ResourceSummary);
   ("spatial.action-feedback.updated.v1", P_ActionFeedback)].
Definition SPATIAL_EVENT_TYPES : list string :=
  ["spatial.workspace.updated.v1";
   "spatial.entity.upserted.v1";
   "spatial.entity.archived.v1";
   "spatial.relation.upserted.v1";
   "spatial.node-status.changed.v1";
   "spatial.recovery.command-planned.v1";
   "spatial.recovery.resulted.v1";
   "spatial.endpoint-provenance.updated.v1";
   "spatial.remote.context-manifest.updated.v1";
   "spatial.remote.requested.v1";
   "spatial.remote.resulted.v1";
   "spatial.endpoint-test-frame.updated.v1";
   "spatial.resource-accounting.updated.v1";
   "spatial.primary-agent.binding-changed.v1";
   "spatial.primary-agent.grant-changed.v1";
   "spatial.primary-agent.state-changed.v1";
   "spatial.intent.accepted.v1";
   "spatial.session.updated.v1";
   "spatial.context.updated.v1";
   "spatial.conversation.turn-updated.v1";
   "spatial.generated-object.updated.v1";
   "spatial.artifact.created.v1";
   "spatial.presentation.requested.v1";
   "spatial.presentation.resolved.v1";
   "spatial.canonical-reference.upserted.v1";
   "spatial.endpoint-details.updated.v1";
   "spatial.discovery.updated.v1";
   "spatial.semantic-relation.updated.v1";
   "spatial.subagent.lifecycle-updated.v1";
   "spatial.interaction.provenance-recorded.v1";
   "spatial.attention.raised.v1";
   "spatial.attention.resolved.v1";
   "spatial.attention.item-updated.v1";
   "spatial.attention.marker-updated.v1";
   "spatial.attention.focus-updated.v1";
   "spatial.memory.layout-updated.v1";
   "spatial.memory.projection-updated.v1";
   "spatial.memory.cluster-updated.v1";
   "spatial.memory.focus-updated.v1";
   "spatial.memory.search-completed.v1";
   "spatial.memory.virtualization-updated.v1";
   "spatial.workspace-world.updated.v1";
   "spatial.device-viewport.updated.v1";
   "spatial.presentation-geometry.updated.v1";
   "spatial.workspace-mutation.requested.v1";
   "spatial.workspace-mutation.resolved.v1";
   "spatial.offline-queue.updated.v1";
   "spatial.share-view.updated.v1";
   "spatial.change-intent.created.v1";
   "spatial.change-intent.resolved.v1";
   "spatial.result-model.updated.v1";
   "spatial.component-frame.updated.v1";
   "spatial.resource-summary.updated.v1";
   "spatial.action-feedback.updated.v1"].

#[export] Instance contract_eq_dec : EqDecision contract.
Proof. solve_decision. Defined.

(** The [switch] of [parsePayload]. *)
Definition contract_of (event_type : string) : option contract :=
  jget event_type (payload_contracts_core ++ payload_contracts_interaction ++ payload_contracts_workspace).

(** ** Envelopes *)

Record envelope : Type := Envelope {
  ev_event_id : string;
  ev_event_type : string;
  ev_schema_version : string;
  ev_node_id : string;
  ev_sequence : Z;
  ev_revision : Z;
  ev_occurred_at : iso;
  ev_correlation_id : option string;
  ev_causation_id : option string;
  ev_payload : json;
}.

Inductive diagnostic_code : Type := MALFORMED_EVENT | UNKNOWN_EVENT | STALE_EVENT | DUPLICATE_EVENT.
#[export] Instance diagnostic_code_eq_dec : EqDecision diagnostic_code.
Proof. solve_decision. Defined.

Record diagnostic : Type := Diagnostic {
  dg_code : diagnostic_code;
  dg_event_id : option string;
  dg_event_type : option string;
  dg_node_id : option string;
  dg_path : option string;
}.

(** A family of payload parsers: the parsed data, or the path of the first
    issue. *)
Class PayloadParsers : Type := parse_payload : contract -> json -> result string json.

Section parse.
Context {zod : Zod} {parsers : PayloadParsers}.

(** [spatialEventEnvelopeSchema.safeParse] on a value with the envelope's
    fields; the error is the field of the first issue. *)
Definition spatialEventEnvelopeSchema (e : envelope) : result string envelope :=
  let? id := of_option (idSchema (ev_event_id e)) "event_id" in
  let? ty := of_option (z_string 1 160 (ev_event_type e)) "event_type" in
  let? ver := of_option (z_string 1 160 (ev_schema_version e)) "schema_version" in
  let? node := of_option (idSchema (ev_node_id e)) "node_id" in
  let? seq := of_option (revisionSchema (ev_sequence e)) "sequence" in
  let? rev := of_option (revisionSchema (ev_revision e)) "revision" in
  let? at_ := of_option (timestampSchema (ev_occurred_at e)) "occurred_at" in
  let? corr := of_option (nullable idSchema (ev_correlation_id e)) "correlation_id" in
  let? caus := of_option (nullable idSchema (ev_causation_id e)) "causation_id" in
  Ok (Envelope id ty ver node seq rev at_ corr caus (ev_payload e)).

Definition parsePayload (e : envelope) : result diagnostic envelope :=
  let diag code path := Diagnostic code (Some (ev_event_id e)) (Some (ev_event_type e)) (Some (ev_node_id e)) path in
  match contract_of (ev_event_type e) with
  | None => Err (diag UNKNOWN_EVENT None)
  | Some c =>
      match parse_payload c (ev_payload e) with
      | Err path => Err (diag MALFORMED_EVENT (Some path))
      | Ok data =>
          Ok (Envelope (ev_event_id e) (ev_event_type e) (ev_schema_version e) (ev_node_id e) (ev_sequence e)
                (ev_revision e) (ev_occurred_at e) (ev_correlation_id e) (ev_causation_id e) data)
      end
  end.

(** [None]: the value does not have the fields of an envelope. *)
Definition parseSpatialEventEnvelope (payload : option envelope) : result diagnostic envelope :=
  match payload with
  | None => Err (Diagnostic MALFORMED_EVENT None None None (Some "<root>"))
  | Some e =>
      match spatialEventEnvelopeSchema e with
      | Err path => Err (Diagnostic MALFORMED_EVENT None None None (Some path))
      | Ok e => parsePayload e
      end
  end.
End parse.

(** ** The resource an event is about *)

(** Interpolation of a payload field into a key. *)
Fixpoint text_of (v : json) : string :=
  match v with
  | JStr s => s
  | JNum z => pretty z
  | JBool b => if b then "true" else "false"
  | JNull => "null"
  | JArr l => Json.join (map text_of l)
  | JObj _ => "[object Object]"
  end.

(** The own properties of a payload. *)
Definition fields (v : json) : list (string * json) :=
  match v with JObj l => l | _ => [] end.

(** The chain of [in] tests: field, prefix, and the event type the test is
    restricted to. *)
Definition RESOURCE_FIELDS : list (string * string * option string) :=
  [("discovery_id", "discovery:", None); ("attention_id", "attention:", None); ("marker_id", "marker:", None);
   ("focus_id", "focus:", None); ("projection_id", "memory-projection:", None); ("cluster_id", "memory-cluster:", None);
   ("search_id", "memory-search:", None); ("record_id", "provenance:", None); ("result_id", "remote-result:", None);
   ("request_id", "remote-request:", None);
   ("frame_id", "endpoint-test-frame:", Some "spatial.endpoint-test-frame.updated.v1");
   ("manifest_id", "context-manifest:", None); ("provenance_id", "endpoint-provenance:", None);
   ("subagent_ref", "subagent:", None); ("relation_id", "relation:", None); ("canonical_ref", "entity:", None);
   ("slot_id", "primary-agent-slot:", None); ("grant_id", "primary-agent-grant:", None); ("share_id", "share-view:", None);
   ("intent_id", "change-intent:", None); ("summary_id", "resource-summary:", None);
   ("feedback_id", "action-feedback:", None); ("frame_id", "component-frame:", None);
   ("operation_id", "workspace-operation:", None); ("device_id", "device-viewport:", None);
   ("workspace_id", "workspace:", None); ("command_id", "recovery:", None)].

Fixpoint resource_key (tests : list (string * string * option string)) (event_type : string)
    (l : list (string * json)) : option string :=
  match tests with
  | [] => None
  | (field, prefix, only) :: tests =>
      match jget field l with
      | Some v => if match only with Some t => str_eqb t event_type | None => true end
                  then Some (prefix +:+ text_of v) else resource_key tests event_type l
      | None => resource_key tests event_type l
      end
  end.

Definition eventResourceKey (e : envelope) : string :=
  default ("node-status:" +:+ ev_node_id e)
    (resource_key RESOURCE_FIELDS (ev_event_type e) (fields (ev_payload e))).

Definition json_text (v : json) : option string :=
  match v with JStr s => Some s | _ => None end.

(** [payloadNodeId]: the payload's own Node, when it names one. *)
Definition payloadNodeId (v : json) : option string :=
  match jget "node_id" (fields v) with
  | Some n => json_text n
  | None =>
      match jget "local_node_id" (fields v) with
      | Some n => json_text n
      | None =>
          match jget "provenance" (fields v) with
          | Some p => p' ← jget "node_id" (fields p); json_text p'
          | None => None
          end
      end
  end.

Definition assertScope (sc : scope) (node_id : string) : bool := str_eqb (scope_node_id sc) node_id.

(** ** The gateway *)

Record gateway : Type := Gateway {
  gw_scope : scope;
  seenEventIds : jsmap unit;
  resourceRevisions : jsmap Z;
  lastSequence : Z;
  resumeCursor : option string;
  gw_updates : list envelope;
  gw_notifications : list envelope;
  gw_diagnostics : list diagnostic;
}.

Inductive ingest_result : Type :=
| I_applied (e : envelope)
| I_duplicate (d : diagnostic)
| I_stale (d : diagnostic)
| I_unknown (d : diagnostic)
| I_malformed (d : diagnostic).

Definition new_gateway (sc : scope) : gateway := Gateway sc [] [] 0 None [] [] [].

(** [this.onDiagnostic?.(diagnostic)]. *)
Definition report (d : diagnostic) (g : gateway) : gateway :=
  Gateway (gw_scope g) (seenEventIds g) (resourceRevisions g) (lastSequence g) (resumeCursor g)
    (gw_updates g) (gw_notifications g) (gw_diagnostics g ++ [d]).

Section gateway.
Context {zod : Zod} {parsers : PayloadParsers}.

Definition gw_ingest (payload : option envelope) (g : gateway) : gateway * ingest_result :=
  match parseSpatialEventEnvelope payload with
  | Err d => (report d g, if bool_decide (dg_code d = UNKNOWN_EVENT) then I_unknown d else I_malformed d)
  | Ok e =>
      let diag code path := Diagnostic code (Some (ev_event_id e)) (Some (ev_event_type e)) (Some (ev_node_id e)) path in
      if negb (assertScope (gw_scope g) (ev_node_id e)) then
        let d := diag STALE_EVENT (Some "node_id") in (report d g, I_stale d)
      else if negb (bool_decide (payloadNodeId (ev_payload e) = Some (ev_node_id e))) then
        let d := diag STALE_EVENT (Some "payload.node_id") in (report d g, I_stale d)
      else if jhas (ev_event_id e) (seenEventIds g) then
        let d := diag DUPLICATE_EVENT None in (report d g, I_duplicate d)
      else
        let k := eventResourceKey e in
        let currentRevision := default (-1) (jget k (resourceRevisions g)) in
        if bool_decide (ev_revision e < currentRevision) || bool_decide (ev_sequence e < lastSequence g) then
          let d := diag STALE_EVENT (Some "revision") in (report d g, I_stale d)
        else
          (Gateway (gw_scope g) (jset (ev_event_id e) tt (seenEventIds g))
             (jset k (Z.max currentRevision (ev_revision e)) (resourceRevisions g))
             (Z.max (lastSequence g) (ev_sequence e)) (Some (pretty (ev_sequence e)))
             (gw_updates g ++ [e]) (gw_notifications g ++ [e]) (gw_diagnostics g), I_applied e)
  end.

Fixpoint gw_replay (retained : list (option envelope)) (g : gateway) : gateway * list ingest_result :=
  match retained with
  | [] => (g, [])
  | p :: retained =>
      let '(g1, r) := gw_ingest p g in
      let '(g2, rs) := gw_replay retained g1 in
      (g2, r :: rs)
  end.

Definition getResumeCursor (g : gateway) : option string := resumeCursor g.
End gateway.

(** ** Reconnecting *)

Definition SPATIAL_RECONNECT_BACKOFF_MS : list Z := [250; 500; 1000; 2000; 4000; 8000].

Definition spatialReconnectDelay (attempt : Z) : Z :=
  let index := Z.max 0 (Z.min (Z.of_nat (length SPATIAL_RECONNECT_BACKOFF_MS) - 1) attempt) in
  default 0 (SPATIAL_RECONNECT_BACKOFF_MS !! Z.to_nat index).

(** The variables of one [connect] of the reconnecting adapter. [rc_timer] is
    the pending delay; [rc_opens] lists the resume cursors the transport was
    opened with and [rc_messages] counts what was passed on. *)
Record reconnector : Type := Reconnector {
  rc_closed : bool;
  rc_attempts : Z;
  rc_cursor : option string;
  rc_timer : option Z;
  rc_active : bool;
  rc_opens : list (option string);
  rc_messages : list (option envelope);
}.

Section reconnect.
Context {zod : Zod} (maxAttempts : option Z).

(** [attempts >= Math.max(0, options.maxAttempts ?? Infinity)]. *)
Definition exhausted (attempts : Z) : bool :=
  match maxAttempts with Some m => bool_decide (Z.max 0 m <= attempts) | None => false end.

Definition rc_connect (r : reconnector) : reconnector :=
  if rc_closed r then r
  else Reconnector false (rc_attempts r) (rc_cursor r) (rc_timer r) true (rc_opens r ++ [rc_cursor r]) (rc_messages r).

Definition scheduleReconnect (r : reconnector) : reconnector :=
  if rc_closed r || bool_decide (is_Some (rc_timer r)) || exhausted (rc_attempts r) then r
  else Reconnector (rc_closed r) (rc_attempts r + 1) (rc_cursor r) (Some (spatialReconnectDelay (rc_attempts r)))
         (rc_active r) (rc_opens r) (rc_messages r).

(** The scheduled callback. *)
Definition timer_fires (r : reconnector) : reconnector :=
  rc_connect (Reconnector (rc_closed r) (rc_attempts r) (rc_cursor r) None (rc_active r) (rc_opens r) (rc_messages r)).

Definition onMessage (payload : option envelope) (r : reconnector) : reconnector :=
  let cursor := match payload with
                | Some e => match spatialEventEnvelopeSchema e with
                            | Ok e' => Some (pretty (ev_sequence e'))
                            | Err _ => rc_cursor r
                            end
                | None => rc_cursor r
                end in
  Reconnector (rc_closed r) (rc_attempts r) cursor (rc_timer r) (rc_active r) (rc_opens r) (rc_messages r ++ [payload]).

Definition rc_close (r : reconnector) : reconnector :=
  Reconnector true (rc_attempts r) (rc_cursor r) None false (rc_opens r) (rc_messages r).

(** [connect(connectOptions)]: the variables and the first connection. *)
Definition rc_start (cursor : option string) : reconnector :=
  rc_connect (Reconnector false 0 cursor None false [] []).

(** What can happen to a connection. A timer fires only while it is set. *)
Inductive rstep : reconnector -> reconnector -> Prop :=
| rs_message p r : rstep r (onMessage p r)
| rs_transport_closed r : rstep r (scheduleReconnect r)
| rs_timer d r : rc_timer r = Some d -> rstep r (timer_fires r)
| rs_close r : rstep r (rc_close r).
End reconnect.
