(* ===== verification/EventsProps.v ===== *)
(** * Spatial events: theorems

    Every declared event type has a contract; the gateway delivers each event
    at most once, in sequence order and with revisions that never go back; an
    event ingested once is never applied later; the reconnecting adapter keeps
    its bounds and stays closed; and two defects of cursor and revision
    bookkeeping. *)

From S2P Require Import Prelude Json Contracts Slot Events.
From stdpp Require Import pretty.

#[local] Open Scope Z_scope.

Definition all_contracts : jsmap contract :=
  payload_contracts_core ++ payload_contracts_interaction ++ payload_contracts_workspace.

(** The declared event types are exactly those [parsePayload] has a
    case for: no declared type falls through to UNKNOWN_EVENT and no case is
    for an undeclared type. *)
Theorem event_types_exhaustive t : is_Some (contract_of t) <-> t ∈ SPATIAL_EVENT_TYPES.
Proof.
  assert (H1 : Forall (fun k => k ∈ SPATIAL_EVENT_TYPES) (jkeys all_contracts)).
  { apply (bool_decide_eq_true_1 _). by vm_compute. }
  assert (H2 : Forall (fun k => k ∈ jkeys all_contracts) SPATIAL_EVENT_TYPES).
  { apply (bool_decide_eq_true_1 _). by vm_compute. }
  rewrite Forall_forall in H1, H2.
  assert (H3 : is_Some (contract_of t) <-> t ∈ jkeys all_contracts).
  { unfold contract_of. fold all_contracts. rewrite <-not_eq_None_Some, jget_None.
    split; [intros Hn; by apply dec_stable | tauto]. }
  rewrite H3. split; auto.
Qed.

(** ** The gateway *)

Section gateway_laws.
Context {zod : Zod} {parsers : PayloadParsers}.

(** What the gateway has delivered so far. *)
Record gw_ok (g : gateway) : Prop := GwOk {
  ok_ids : NoDup (map ev_event_id (gw_updates g));
  ok_seen : forall e, e ∈ gw_updates g -> is_Some (jget (ev_event_id e) (seenEventIds g));
  ok_order : StronglySorted (fun a b => ev_sequence a <= ev_sequence b) (gw_updates g);
  ok_last : Forall (fun e => ev_sequence e <= lastSequence g) (gw_updates g);
  ok_revisions : forall k,
    StronglySorted (fun a b => ev_revision a <= ev_revision b) (filter (fun e => eventResourceKey e = k) (gw_updates g));
  ok_current : Forall (fun e => ev_revision e <= default (-1) (jget (eventResourceKey e) (resourceRevisions g))) (gw_updates g);
  ok_scope : Forall (fun e => ev_node_id e = scope_node_id (gw_scope g) /\
                              payloadNodeId (ev_payload e) = Some (ev_node_id e)) (gw_updates g);
  ok_cursor : resumeCursor g = (pretty ∘ ev_sequence) <$> last (gw_updates g);
  ok_notified : gw_notifications g = gw_updates g;
}.

Lemma new_gateway_ok sc : gw_ok (new_gateway sc).
Proof. split; try constructor; try done. set_solver. Qed.

(** An event that is not applied only adds a diagnostic. *)
Definition applied_gateway (e : envelope) (g : gateway) : gateway :=
  Gateway (gw_scope g) (jset (ev_event_id e) tt (seenEventIds g))
    (jset (eventResourceKey e) (Z.max (default (-1) (jget (eventResourceKey e) (resourceRevisions g))) (ev_revision e))
       (resourceRevisions g))
    (Z.max (lastSequence g) (ev_sequence e)) (Some (pretty (ev_sequence e)))
    (gw_updates g ++ [e]) (gw_notifications g ++ [e]) (gw_diagnostics g).

(** The tests an event must pass. *)
Record accepts (e : envelope) (g : gateway) : Prop := Accepts {
  acc_scope : ev_node_id e = scope_node_id (gw_scope g);
  acc_payload : payloadNodeId (ev_payload e) = Some (ev_node_id e);
  acc_fresh : jget (ev_event_id e) (seenEventIds g) = None;
  acc_revision : default (-1) (jget (eventResourceKey e) (resourceRevisions g)) <= ev_revision e;
  acc_sequence : lastSequence g <= ev_sequence e;
}.

Lemma gw_ingest_cases p g g' r : gw_ingest p g = (g', r) ->
  (exists e, parseSpatialEventEnvelope p = Ok e /\ accepts e g /\ g' = applied_gateway e g /\ r = I_applied e) \/
  ((forall e, parseSpatialEventEnvelope p = Ok e -> ~ accepts e g) /\ (forall e, r <> I_applied e) /\
   exists d, g' = report d g).
Proof.
  unfold gw_ingest. destruct (parseSpatialEventEnvelope p) as [e|d] eqn:Hp.
  2:{ intros H. right. split; [done|]. case_bool_decide; injection H as <- <-; split; by try eexists. }
  unfold assertScope, str_eqb. case_bool_decide as Hs; cbn [negb].
  2:{ intros [= <- <-]. right. split; [intros e' [= <-] []; congruence|]. split; [done | by eexists]. }
  case_bool_decide as Hn; cbn [negb].
  2:{ intros [= <- <-]. right. split; [intros e' [= <-] []; congruence|]. split; [done | by eexists]. }
  unfold jhas. case_bool_decide as Hseen.
  { intros [= <- <-]. right. split; [|split; [done | by eexists]]. intros e' [= <-] [].
    destruct Hseen. congruence. }
  destruct (_ || _) eqn:Hst.
  - intros [= <- <-]. right. split; [|split; [done | by eexists]]. intros e' [= <-] [].
    apply orb_true_iff in Hst as [H%bool_decide_eq_true|H%bool_decide_eq_true]; lia.
  - intros [= <- <-]. left. exists e. split; [done|]. split; [|done].
    rewrite orb_false_iff, !bool_decide_eq_false in Hst. split; [done|done| |lia|lia].
    by apply eq_None_not_Some.
Qed.

Lemma sorted_snoc {A} (R : A -> A -> Prop) l x :
  StronglySorted R l -> Forall (fun y => R y x) l -> StronglySorted R (l ++ [x]).
Proof.
  induction 1 as [|y l Hs IH Hy]; intros Hx; simpl; [by repeat constructor|].
  apply Forall_cons in Hx as [Hyx Hx]. constructor; [auto|]. apply Forall_app. by repeat constructor.
Qed.

Lemma gw_ok_applied e g : gw_ok g -> accepts e g -> gw_ok (applied_gateway e g).
Proof.
  intros [Hids Hseen Hord Hlast Hrev Hcur Hsc Hcu Hno] [Ha1 Ha2 Ha3 Ha4 Ha5].
  split; cbn [applied_gateway gw_updates seenEventIds lastSequence resourceRevisions gw_scope resumeCursor gw_notifications].
  - rewrite map_app. apply NoDup_app. split; [done|]. split; [|apply NoDup_singleton].
    intros i (e' & -> & Hin)%list_elem_of_fmap Hi. apply elem_of_cons in Hi as [Hi|Hi]; [|by apply not_elem_of_nil in Hi].
    destruct (Hseen e' Hin). simpl in Hi. congruence.
  - intros e' Hin. apply elem_of_app in Hin as [Hin|Hin].
    + by apply jget_jset_is_Some, Hseen.
    + apply elem_of_cons in Hin as [->|Hin]; [|by apply not_elem_of_nil in Hin]. by rewrite jget_jset_eq.
  - apply sorted_snoc; [done|]. eapply Forall_impl; [exact Hlast|]. simpl. lia.
  - apply Forall_app. split; [|constructor; [lia | done]]. eapply Forall_impl; [exact Hlast|]. simpl. lia.
  - intros k. rewrite filter_app, filter_cons, filter_nil. case_decide as Hk; [|rewrite app_nil_r; apply Hrev].
    apply sorted_snoc; [apply Hrev|]. apply Forall_forall. intros e' [Hk' Hin]%list_elem_of_filter.
    rewrite Forall_forall in Hcur. specialize (Hcur e' Hin). simpl in Hcur. rewrite Hk', <-Hk in Hcur. lia.
  - apply Forall_app. split.
    + eapply Forall_impl; [exact Hcur|]. intros e' He'. simpl in *. rewrite jget_jset. unfold str_eqb.
      case_bool_decide as Hk; [|done]. rewrite <-Hk in He'. simpl. lia.
    + constructor; [|done]. rewrite jget_jset_eq. simpl. lia.
  - apply Forall_app. split; [done|]. by repeat constructor.
  - by rewrite last_snoc.
  - by rewrite Hno.
Qed.

Lemma gw_ok_report d g : gw_ok g -> gw_ok (report d g).
Proof. intros []. by split. Qed.

Lemma gw_ok_replay l g g' rs : gw_replay l g = (g', rs) -> gw_ok g -> gw_ok g'.
Proof.
  revert g rs. induction l as [|p l IH]; intros g rs H Hok; simpl in H; [by injection H as <- <-|].
  destruct (gw_ingest p g) as [g1 r] eqn:Hi. destruct (gw_replay l g1) as [g2 rs2] eqn:Hr. injection H as <- <-.
  eapply IH; [done|].
  apply gw_ingest_cases in Hi as [(e & _ & Ha & -> & _)|(_ & _ & d & ->)]; [by apply gw_ok_applied | by apply gw_ok_report].
Qed.

(** C5. Whatever the stream delivers, in whatever order and however often
    (retained replays included), the updates the gateway passes on have
    distinct event ids, non-decreasing sequence numbers, non-decreasing
    revisions for each resource, and belong to its Node in envelope and
    payload; every update is also a notification, and the resume cursor is
    the sequence of the last one. *)
Theorem gateway_delivers_in_order sc l g rs :
  gw_replay l (new_gateway sc) = (g, rs) ->
  NoDup (map ev_event_id (gw_updates g)) /\
  StronglySorted (fun a b => ev_sequence a <= ev_sequence b) (gw_updates g) /\
  (forall k, StronglySorted (fun a b => ev_revision a <= ev_revision b)
               (filter (fun e => eventResourceKey e = k) (gw_updates g))) /\
  Forall (fun e => ev_node_id e = scope_node_id (gw_scope g) /\ payloadNodeId (ev_payload e) = Some (ev_node_id e))
    (gw_updates g) /\
  gw_notifications g = gw_updates g /\
  getResumeCursor g = (pretty ∘ ev_sequence) <$> last (gw_updates g).
Proof. intros H. pose proof (gw_ok_replay _ _ _ _ H (new_gateway_ok sc)) as []. done. Qed.

(** ** At most once *)

(** What only grows. *)
Record later (g g' : gateway) : Prop := Later {
  lt_scope : gw_scope g' = gw_scope g;
  lt_seen : forall i, is_Some (jget i (seenEventIds g)) -> is_Some (jget i (seenEventIds g'));
  lt_revision : forall k, default (-1) (jget k (resourceRevisions g)) <= default (-1) (jget k (resourceRevisions g'));
  lt_sequence : lastSequence g <= lastSequence g';
}.

#[export] Instance later_preorder : PreOrder later.
Proof.
  split.
  - intros g. split; try done; lia.
  - intros g1 g2 g3 [] []. split; [congruence|auto|..]; intros; etransitivity; eauto.
Qed.

Lemma later_ingest p g g' r : gw_ingest p g = (g', r) -> later g g'.
Proof.
  intros [(e & _ & _ & -> & _)|(_ & _ & d & ->)]%gw_ingest_cases; [|by split].
  split; simpl; [done| | |lia].
  - intros i. apply jget_jset_is_Some.
  - intros k. rewrite jget_jset. unfold str_eqb. case_bool_decide; subst; simpl; lia.
Qed.

Lemma later_replay l g g' rs : gw_replay l g = (g', rs) -> later g g'.
Proof.
  revert g rs. induction l as [|p l IH]; intros g rs H; simpl in H; [by injection H as <- <-|].
  destruct (gw_ingest p g) as [g1 r] eqn:Hi. destruct (gw_replay l g1) as [g2 rs2] eqn:Hr. injection H as <- <-.
  etransitivity; [by eapply later_ingest | by eapply IH].
Qed.

Lemma accepts_back e g g' : later g g' -> accepts e g' -> accepts e g.
Proof.
  intros [Hsc Hseen Hrev Hseq] [H1 H2 H3 H4 H5]. split; [congruence|done| | |lia].
  - apply eq_None_not_Some. intros Hs%Hseen. apply eq_None_not_Some in H3. done.
  - specialize (Hrev (eventResourceKey e)). lia.
Qed.

(** An event is applied at most once, whatever its first outcome:
    after a value was ingested, ingesting it again, after any further
    events, is never applied and changes nothing but the diagnostics. *)
Theorem ingest_at_most_once p g g1 r l g2 rs g3 r' :
  gw_ingest p g = (g1, r) -> gw_replay l g1 = (g2, rs) -> gw_ingest p g2 = (g3, r') ->
  (forall e, r' <> I_applied e) /\ exists d, g3 = report d g2.
Proof.
  intros H1 Hl%later_replay [(e & Hp & Hacc & _ & _)|(_ & Hr & Hd)]%gw_ingest_cases; [|done]. exfalso.
  pose proof (later_ingest _ _ _ _ H1) as Hl1.
  apply gw_ingest_cases in H1 as [(e' & Hp' & _ & -> & _)|(Hno & _)].
  - rewrite Hp in Hp'. injection Hp' as <-. apply (acc_fresh e g2) in Hacc.
    destruct (lt_seen _ _ Hl (ev_event_id e)) as [u Hu]; [|congruence]. simpl. by rewrite jget_jset_eq.
  - apply (Hno e Hp). eapply accepts_back; [|exact Hacc]. by etransitivity.
Qed.
End gateway_laws.

(** ** One revision counter for two resources *)

Definition json_time (t : option iso) : json :=
  match t with Some t => JStr (toISOString t) | None => JNull end.

(** The payloads of binding-changed and state-changed events. *)
Definition slot_json (s : slot) : json :=
  JObj ([("schema_version", JStr "spatial.primary-agent-slot.v1"); ("slot_id", JStr (slot_id s));
         ("node_id", JStr (slot_node_id s)); ("current_binding_id", json_nullable (current_binding_id s));
         ("lifecycle_state", JStr (lifecycle_name (lifecycle_state s))); ("revision", JNum (slot_revision s));
         ("assigned_at", json_time (assigned_at s)); ("assigned_by", json_nullable (assigned_by s));
         ("last_seen_at", json_time (last_seen_at s)); ("capability_grant_ref", json_nullable (slot_grant_ref s));
         ("hook_subscription_ref", json_nullable (hook_subscription_ref s));
         ("durable_inbox_ref", json_nullable (durable_inbox_ref s))]
        ++ opt_field "changed_at" ((JStr ∘ toISOString) <$> changed_at s)
        ++ opt_field "provenance"
             ((fun p => JObj [("actor_ref", JStr (prov_actor_ref p)); ("operation_id", JStr (prov_operation_id p));
                              ("recorded_at", JStr (toISOString (prov_recorded_at p)))]) <$> slot_provenance s)).

Definition operational_name (s : operational_state) : string :=
  match s with
  | READY => "READY" | LISTENING => "LISTENING" | THINKING => "THINKING" | ACTING => "ACTING"
  | WORKING => "WORKING" | ATTENTION => "ATTENTION" | CRITICAL => "CRITICAL" | OFFLINE => "OFFLINE"
  end.
Definition severity_name (s : attention_severity) : string :=
  match s with SEV_NONE => "NONE" | SEV_INFO => "INFO" | SEV_WARNING => "WARNING" | SEV_CRITICAL => "CRITICAL" end.

Definition state_json (s : agent_state) : json :=
  JObj [("schema_version", JStr "spatial.primary-agent-state.v1"); ("node_id", JStr (st_node_id s));
        ("slot_id", JStr (st_slot_id s)); ("binding_id", json_nullable (st_binding_id s));
        ("state", JStr (operational_name (st_state s))); ("attention_severity", JStr (severity_name (st_severity s)));
        ("source", JStr (st_source s)); ("revision", JNum (st_revision s));
        ("observed_at", JStr (toISOString (st_observed_at s)));
        ("last_successful_response_at", json_time (st_last_successful s));
        ("last_failed_response_at", json_time (st_last_failed s))].

Lemma slot_event_key e s : ev_payload e = slot_json s -> eventResourceKey e = "primary-agent-slot:" +:+ slot_id s.
Proof.
  intros H. unfold eventResourceKey. rewrite H. unfold slot_json, fields.
  by destruct (changed_at s), (slot_provenance s).
Qed.

Lemma state_event_key e s : ev_payload e = state_json s -> eventResourceKey e = "primary-agent-slot:" +:+ st_slot_id s.
Proof. intros H. unfold eventResourceKey. by rewrite H. Qed.

Section shared_counter.
Context {zod : Zod} {parsers : PayloadParsers}.

(** Slot and operational state of an agent share one revision
    counter in the gateway, because both payloads carry the slot id that
    [eventResourceKey] looks at: once a binding-changed event of a slot was
    applied, every state-changed event of that slot with a lower revision of
    its own is dropped, for good, whatever its sequence number. *)
Theorem slot_revision_hides_state p1 e1 s g g1 l g2 rs p2 e2 st g3 r :
  parseSpatialEventEnvelope p1 = Ok e1 -> ev_payload e1 = slot_json s -> gw_ingest p1 g = (g1, I_applied e1) ->
  gw_replay l g1 = (g2, rs) ->
  parseSpatialEventEnvelope p2 = Ok e2 -> ev_payload e2 = state_json st -> st_slot_id st = slot_id s ->
  ev_revision e2 < ev_revision e1 -> gw_ingest p2 g2 = (g3, r) ->
  forall e, r <> I_applied e.
Proof.
  intros Hp1 Hs H1 Hl%later_replay Hp2 Hst Hid Hlt H2.
  apply gw_ingest_cases in H2 as [(e' & Hp' & Hacc & _ & _)|(_ & Hr & _)]; [|done].
  rewrite Hp2 in Hp'. injection Hp' as <-.
  apply gw_ingest_cases in H1 as [(e0 & Hp0 & _ & -> & _)|(_ & Hno & _)]; [|by destruct (Hno e1)].
  rewrite Hp1 in Hp0. injection Hp0 as <-.
  pose proof (lt_revision _ _ Hl (eventResourceKey e1)) as Hrev. simpl in Hrev. rewrite jget_jset_eq in Hrev. simpl in Hrev.
  apply (acc_revision e2 g2) in Hacc. rewrite (state_event_key _ _ Hst), Hid, <-(slot_event_key _ _ Hs) in Hacc.
  intros e. lia.
Qed.
End shared_counter.

(** ** Reconnecting *)

(** The reconnect delay of attempt k is 250 ms doubled k times, capped
    at 8 seconds. *)
Theorem reconnect_backoff k : 0 <= k -> spatialReconnectDelay k = Z.min (250 * 2 ^ k) 8000.
Proof.
  intros Hk. destruct (decide (k < 5)) as [Hlt|Hge].
  - assert (k = 0 \/ k = 1 \/ k = 2 \/ k = 3 \/ k = 4) as Hc by lia. by destruct Hc as [->|[->|[->|[->| ->]]]].
  - assert (250 * 2 ^ 5 <= 250 * 2 ^ k) by (apply Z.mul_le_mono_nonneg_l; [lia|]; apply Z.pow_le_mono_r; lia).
    rewrite Z.min_r by lia. unfold spatialReconnectDelay.
    replace (Z.max 0 (Z.min (Z.of_nat (length SPATIAL_RECONNECT_BACKOFF_MS) - 1) k)) with 5; [done|].
    change (Z.of_nat (length SPATIAL_RECONNECT_BACKOFF_MS)) with 6. lia.
Qed.

Section reconnect_laws.
Context {zod : Zod} (max : option Z).

Record rc_ok (r : reconnector) : Prop := RcOk {
  rc_nonneg : 0 <= rc_attempts r;
  rc_bound : forall m, max = Some m -> rc_attempts r <= Z.max 0 m;
  rc_closed_quiet : rc_closed r = true -> rc_timer r = None /\ rc_active r = false;
  rc_count : Z.of_nat (length (rc_opens r)) + (if rc_timer r then 1 else 0) <= rc_attempts r + 1;
  rc_delay : forall d, rc_timer r = Some d -> d = spatialReconnectDelay (rc_attempts r - 1);
}.

Lemma rc_ok_start c : rc_ok (rc_start c).
Proof. split; simpl; try done; lia. Qed.

Lemma rc_ok_step r r' : rstep max r r' -> rc_ok r -> rc_ok r'.
Proof.
  intros Hs [Hn Hb Hc Hcount Hd]. destruct Hs as [p r|r|d r Ht|r].
  - by split.
  - unfold scheduleReconnect. destruct (_ || _) eqn:Hg; [by split|].
    rewrite !orb_false_iff, bool_decide_eq_false in Hg. destruct Hg as [[Hcl Ht] Hex].
    apply eq_None_not_Some in Ht. rewrite Ht in Hcount. split; simpl; [lia| | |lia|].
    + intros m Hm. unfold exhausted in Hex. rewrite Hm in Hex. apply bool_decide_eq_false in Hex. lia.
    + intros H. congruence.
    + intros d [= <-]. f_equal. lia.
  - rewrite Ht in Hcount. unfold timer_fires, rc_connect. simpl. destruct (rc_closed r) eqn:Hcl.
    + destruct (Hc eq_refl). congruence.
    + split; simpl; try done. rewrite length_app. simpl. lia.
  - split; simpl; try done. destruct (rc_timer r); lia.
Qed.

Lemma rc_closed_step r r' : rstep max r r' -> rc_closed r = true -> rc_timer r = None ->
  rc_closed r' = true /\ rc_timer r' = None /\ rc_opens r' = rc_opens r.
Proof.
  intros Hs Hcl Ht. destruct Hs as [p r|r|d r Ht'|r]; [done| | |done].
  - unfold scheduleReconnect. by rewrite Hcl.
  - congruence.
Qed.

(** The reconnecting adapter keeps its bounds under every order of
    messages, transport closes, timer callbacks and the caller's close: it
    never starts more than [maxAttempts] reconnects, opens the transport at
    most once per attempt (plus the first time), waits the back-off delay of
    the attempt, and once closed never opens the transport again. *)
Theorem reconnect_bounded cursor r :
  rtc (rstep max) (rc_start cursor) r ->
  (forall m, max = Some m -> rc_attempts r <= Z.max 0 m) /\
  Z.of_nat (length (rc_opens r)) <= rc_attempts r + 1 /\
  (forall d, rc_timer r = Some d -> d = spatialReconnectDelay (rc_attempts r - 1)) /\
  (rc_closed r = true -> forall r', rtc (rstep max) r r' -> rc_opens r' = rc_opens r /\ rc_timer r' = None).
Proof.
  intros Hsteps. assert (Hok : rc_ok r).
  { eapply (rtc_ind_r rc_ok (rc_start cursor)); [apply rc_ok_start| |done]. intros ? ? _ Hs. by apply rc_ok_step. }
  destruct Hok as [_ Hb Hc Hcount Hd]. split; [done|]. split; [destruct (rc_timer r); lia|]. split; [done|].
  intros Hcl r' Hr. destruct (Hc Hcl) as [Ht _]. clear -Hcl Ht Hr.
  induction Hr as [r|r r1 r2 Hs Hr IH]; [done|].
  destruct (rc_closed_step _ _ Hs Hcl Ht) as (Hcl1 & Ht1 & Ho1). destruct (IH Hcl1 Ht1) as [Ho Ht2].
  split; [congruence | done].
Qed.
End reconnect_laws.

(** ** Concrete streams *)

(** Parsers that accept what is already in contract form. *)
#[local] Instance we_parsers : PayloadParsers := fun _ v => Ok v.

Definition we_scope : scope := Scope "hv" "node".
Definition we_event (id ty : string) (seq rev : Z) (payload : json) : option envelope :=
  Some (Envelope id ty "v1" "node" seq rev 0 None None payload).
Definition we_slot : slot := Slot "slot" "node" None UNASSIGNED 7 None None None None None None None None.
Definition we_state : agent_state := AgentState "node" "slot" None OFFLINE SEV_NONE "src" 2 0 None None.
Definition we_binding_changed : option envelope :=
  we_event "e1" "spatial.primary-agent.binding-changed.v1" 9 7 (slot_json we_slot).
Definition we_state_changed : option envelope :=
  we_event "e2" "spatial.primary-agent.state-changed.v1" 10 2 (state_json we_state).
Definition we_late : option envelope :=
  we_event "e3" "spatial.primary-agent.state-changed.v1" 3 8 (state_json we_state).
Definition we_run (l : list (option envelope)) : gateway * list ingest_result :=
  gw_replay (zod := zod_ref) l (new_gateway we_scope).
Definition we_env (p : option envelope) : envelope :=
  default (Envelope "" "" "" "" 0 0 0 None None JNull) p.

(** The reconnecting adapter moves its cursor for every well-formed
    envelope, accepted by the gateway or not, although its documentation says
    a reconnect resumes after the last accepted sequence: here the gateway
    accepts sequence 9 and drops a late event with sequence 3, and the
    transport is then reopened with cursor 3 instead of 9. *)
Theorem reconnect_cursor_goes_back :
  let g := (we_run [we_binding_changed; we_late]).1 in
  let r := onMessage (zod := zod_ref) we_late (onMessage (zod := zod_ref) we_binding_changed (rc_start None)) in
  let r' := timer_fires (scheduleReconnect None r) in
  getResumeCursor g = Some "9" /\ map ev_event_id (gw_updates g) = ["e1"] /\
  rc_opens r' = [None; Some "3"].
Proof. cbv zeta. repeat split; by vm_compute. Qed.

Lemma gateway_delivers_in_order_witness :
  let g := (we_run [we_binding_changed; we_state_changed; we_late; we_binding_changed]).1 in
  map ev_event_id (gw_updates g) = ["e1"] /\ getResumeCursor g = (pretty ∘ ev_sequence) <$> last (gw_updates g).
Proof.
  intros g. split; [by vm_compute|].
  destruct (gateway_delivers_in_order (zod := zod_ref) we_scope [we_binding_changed; we_state_changed; we_late; we_binding_changed]
              g (we_run [we_binding_changed; we_state_changed; we_late; we_binding_changed]).2) as (_ & _ & _ & _ & _ & H);
    [by vm_compute | exact H].
Defined.

Lemma ingest_at_most_once_witness :
  let g1 := (gw_ingest (zod := zod_ref) we_late (we_run [we_binding_changed]).1).1 in
  let g2 := (gw_replay (zod := zod_ref) [we_state_changed] g1).1 in
  exists d, (gw_ingest (zod := zod_ref) we_late g2).1 = report d g2.
Proof.
  intros g1 g2.
  apply (ingest_at_most_once (zod := zod_ref) we_late (we_run [we_binding_changed]).1 g1
           (gw_ingest (zod := zod_ref) we_late (we_run [we_binding_changed]).1).2 [we_state_changed] g2
           (gw_replay (zod := zod_ref) [we_state_changed] g1).2 _ (gw_ingest (zod := zod_ref) we_late g2).2);
    by apply surjective_pairing.
Defined.

Lemma slot_revision_hides_state_witness :
  let g1 := (we_run [we_binding_changed]).1 in
  (gw_ingest (zod := zod_ref) we_state_changed g1).2 <> I_applied (we_env we_state_changed) /\
  ev_sequence (we_env we_binding_changed) < ev_sequence (we_env we_state_changed).
Proof.
  intros g1. split; [|reflexivity].
  apply (slot_revision_hides_state (zod := zod_ref) we_binding_changed (we_env we_binding_changed) we_slot (new_gateway we_scope) g1 [] g1 []
           we_state_changed (we_env we_state_changed) we_state (gw_ingest (zod := zod_ref) we_state_changed g1).1);
    by vm_compute.
Defined.

Lemma reconnect_backoff_witness : map spatialReconnectDelay [0; 3; 9] = [250; 2000; 8000].
Proof. simpl. rewrite !reconnect_backoff by lia. done. Defined.

Lemma reconnect_bounded_witness :
  let r := timer_fires (scheduleReconnect (Some 2) (rc_start None)) in
  rc_attempts r <= 2 /\ Z.of_nat (length (rc_opens r)) <= rc_attempts r + 1.
Proof.
  intros r. destruct (reconnect_bounded (zod := zod_ref) (Some 2) None r) as (H1 & H2 & _).
  - eapply rtc_l; [apply rs_transport_closed|]. apply rtc_once. by eapply rs_timer.
  - split; [exact (H1 2 eq_refl) | exact H2].
Defined.
