(* ===== verification/SessionGraph.v ===== *)
(** * The workspace session graph

    src/web/operator-dashboard/src/spatial/interaction/session-graph.ts: the
    sessions of a workspace, the context node each of them is rooted at, and
    the typed relations between them. The [Map] of sessions holds references:
    [appendTurn] mutates the stored object and may file it under a second key,
    so the sessions live in a heap and the map holds their addresses. Context
    nodes and relations are replaced, never mutated. Revision arguments are
    integers; the clock is read once per call. *)

From S2P Require Import Prelude.
From S2P Require Import Json.
From S2P Require Import Contracts.
From stdpp Require Import relations.

#[local] Open Scope Z_scope.

(** ** Data *)

Inductive session_state : Type :=
| S_SEED | S_COMPOSING | S_SUBMITTING | S_ACTIVE | S_FAILED | S_CANCELLED | S_COLLAPSED | S_ARCHIVED.
#[export] Instance session_state_eq_dec : EqDecision session_state.
Proof. solve_decision. Defined.

Inductive context_kind : Type := K_ROOT | K_BRANCH | K_TURN | K_ARTIFACT.
#[export] Instance context_kind_eq_dec : EqDecision context_kind.
Proof. solve_decision. Defined.

Inductive relation_type : Type :=
| CONTINUES_FROM | USES_CONTEXT | PRODUCED | DELEGATED_TO | USED_ENDPOINT | RELATED_PROTOCOL_SESSION.
#[export] Instance relation_type_eq_dec : EqDecision relation_type.
Proof. solve_decision. Defined.

(** [SpatialWorkspaceSession]. *)
Record session : Type := Session {
  session_id : string;
  session_workspace : string;
  session_node : string;
  session_revision : Z;
  session_status : session_state;
  root_intent_id : string;
  parent_session_id : option string;
  structural_parent_ref : option string;
  semantic_anchor : string;
  session_title : string;
  session_summary : string;
  turn_refs : list string;
  object_refs : list string;
  context_root_ref : string;
  artifact_ref : option string;
  session_created_at : iso;
  session_updated_at : iso;
}.
#[export] Instance session_eq_dec : EqDecision session.
Proof. solve_decision. Defined.

(** [SpatialContextNode]. *)
Record context_node : Type := ContextNode {
  context_node_id : string;
  cn_session : string;
  cn_workspace : string;
  cn_node : string;
  cn_revision : Z;
  cn_kind : context_kind;
  cn_parent : option string;
  cn_refs : list string;
  cn_source : option string;
  cn_target_revisions : list (string * Z);
  cn_created_at : iso;
  cn_updated_at : iso;
}.
#[export] Instance context_node_eq_dec : EqDecision context_node.
Proof. solve_decision. Defined.

(** What the context map holds: a node, or the two fields [appendTurn] writes
    when it spreads a node that is not there. *)
Inductive stored_context : Type :=
| Whole (c : context_node)
| Stub (revision : Z) (updated_at : iso).

(** [SpatialContextRelation]. *)
Record relation : Type := Relation {
  relation_id : string;
  rel_type : relation_type;
  rel_workspace : string;
  rel_node : string;
  source_ref : string;
  target_ref : string;
  source_revision : Z;
  target_revision : Z;
  actor_ref : string;
  rel_created_at : iso;
}.
#[export] Instance relation_eq_dec : EqDecision relation.
Proof. solve_decision. Defined.

(** [SessionGraphErrorCode], and the RangeError of an invalid clock. *)
Inductive sg_error : Type :=
| SESSION_NOT_FOUND | WRONG_WORKSPACE | WRONG_NODE | PARENT_ALREADY_SET | CYCLE_DETECTED
| UNAUTHORIZED_REFERENCE | STALE_REFERENCE | PROTOCOL_SESSION_NOT_CHAT | INVALID_GRAPH_RECORD | SG_RANGE_ERROR.
#[export] Instance sg_error_eq_dec : EqDecision sg_error.
Proof. solve_decision. Defined.

(** [CreateWorkspaceSessionInput]; [None] is an absent or null field. *)
Record session_input : Type := SessionInput {
  si_session_id : option string;
  si_root_intent : string;
  si_actor : string;
  si_title : option string;
  si_summary : option string;
  si_anchor : option string;
  si_parent : option string;
  si_structural : option string;
  si_context_refs : list string;
  si_revision : option Z;
}.

(** The argument of [addRelation]. *)
Record relation_input : Type := RelationInput {
  ri_id : option string;
  ri_type : relation_type;
  ri_source : string;
  ri_target : string;
  ri_source_revision : Z;
  ri_target_revision : Z;
  ri_actor : string;
}.

(** The patch of [updateSession]. *)
Record session_patch : Type := SessionPatch {
  sp_state : option session_state;
  sp_title : option string;
  sp_summary : option string;
  sp_artifact : option (option string);
}.

(** [WorkspaceSessionGraphOptions]; [og_id prefix n] is what the [n]-th call of
    [idFactory] returns. *)
Record graph_options : Type := GraphOptions {
  og_workspace : string;
  og_node : string;
  og_authorize : option (string -> string -> string -> relation_type -> bool);
  og_id : string -> nat -> string;
}.

Record graph : Type := Graph {
  g_heap : list session;
  g_sessions : jsmap nat;
  g_contexts : jsmap stored_context;
  g_relations : jsmap relation;
  g_ids : nat;
}.

Definition set_heap (h : list session) (g : graph) : graph :=
  Graph h (g_sessions g) (g_contexts g) (g_relations g) (g_ids g).
Definition set_session_map (m : jsmap nat) (g : graph) : graph :=
  Graph (g_heap g) m (g_contexts g) (g_relations g) (g_ids g).
Definition set_contexts (m : jsmap stored_context) (g : graph) : graph :=
  Graph (g_heap g) (g_sessions g) m (g_relations g) (g_ids g).
Definition set_graph_relations (m : jsmap relation) (g : graph) : graph :=
  Graph (g_heap g) (g_sessions g) (g_contexts g) m (g_ids g).
Definition next_id (g : graph) : graph :=
  Graph (g_heap g) (g_sessions g) (g_contexts g) (g_relations g) (S (g_ids g)).

Definition new_graph : graph := Graph [] [] [] [] 0.

(** [WorkspaceSessionGraphSnapshot]. *)
Record graph_snapshot : Type := GraphSnapshot {
  snap_sessions : list session;
  snap_contexts : list stored_context;
  snap_relations : list relation;
}.

(** ** Contract schemas *)

Section schemas.
Context {zod : Zod}.

Definition spatialWorkspaceSessionSchema (s : session) : option session :=
  id ← idSchema (session_id s);
  ws ← idSchema (session_workspace s);
  node ← idSchema (session_node s);
  rev ← revisionSchema (session_revision s);
  intent ← idSchema (root_intent_id s);
  parent ← nullable idSchema (parent_session_id s);
  struct ← nullable idSchema (structural_parent_ref s);
  anchor ← z_string 1 256 (trim (semantic_anchor s));
  title ← z_string 1 240 (trim (session_title s));
  summary ← z_string 0 2000 (trim (session_summary s));
  turns ← z_array idSchema 10000 (turn_refs s);
  objects ← z_array idSchema 10000 (object_refs s);
  root ← idSchema (context_root_ref s);
  art ← nullable idSchema (artifact_ref s);
  created ← timestampSchema (session_created_at s);
  updated ← timestampSchema (session_updated_at s);
  Some (Session id ws node rev (session_status s) intent parent struct anchor title summary turns objects
          root art created updated).

(** [z.record(idSchema, revisionSchema)]. *)
Definition revision_record (l : list (string * Z)) : option (list (string * Z)) :=
  mapM (fun kv => k ← idSchema kv.1; r ← revisionSchema kv.2; Some (k, r)) l.

Definition spatialContextNodeSchema (c : context_node) : option context_node :=
  id ← idSchema (context_node_id c);
  sess ← idSchema (cn_session c);
  ws ← idSchema (cn_workspace c);
  node ← idSchema (cn_node c);
  rev ← revisionSchema (cn_revision c);
  parent ← nullable idSchema (cn_parent c);
  refs ← z_array idSchema 256 (cn_refs c);
  src ← nullable idSchema (cn_source c);
  revs ← revision_record (cn_target_revisions c);
  created ← timestampSchema (cn_created_at c);
  updated ← timestampSchema (cn_updated_at c);
  Some (ContextNode id sess ws node rev (cn_kind c) parent refs src revs created updated).
End schemas.

(** ** Reading the graph *)

Definition session_at (g : graph) (k : string) : option session :=
  i ← jget k (g_sessions g); g_heap g !! i.

Definition getSession (k : string) (g : graph) : option session := session_at g k.

Definition listSessions (g : graph) : list session :=
  omap (fun i => g_heap g !! i) (jvalues (g_sessions g)).
Definition getContextNode (k : string) (g : graph) : option stored_context := jget k (g_contexts g).
Definition listContextNodes (g : graph) : list stored_context := jvalues (g_contexts g).
Definition listRelations (g : graph) : list relation := jvalues (g_relations g).

(** [relationsFor]. *)
Definition relationsFor (rels : list relation) (t : relation_type) (source : string) : list relation :=
  filter (fun r => rel_type r = t /\ source_ref r = source) rels.

(** The callback of [reachable], applied along the relations until one call
    finds the target: [Array.prototype.some], the visited set threaded. *)
Fixpoint some_relation (visit : string -> list string -> option (bool * list string)) (l : list relation)
    (visited : list string) : option (bool * list string) :=
  match l with
  | [] => Some (false, visited)
  | r :: l =>
      match visit (target_ref r) visited with
      | Some (false, visited) => some_relation visit l visited
      | found_or_spent => found_or_spent
      end
  end.

(** [reachable(startRef, targetRef, visited)]: depth first, the visited set
    shared by the whole search; [None] when the fuel is spent. *)
Fixpoint search (fuel : nat) (rels : list relation) (target start : string) (visited : list string)
  : option (bool * list string) :=
  match fuel with
  | O => None
  | S fuel =>
      if str_eqb start target then Some (true, visited)
      else if bool_decide (start ∈ visited) then Some (false, visited)
      else some_relation (search fuel rels target) (relationsFor rels CONTINUES_FROM start) (start :: visited)
  end.

(** A search visits a node at most once, and every node but the first is the
    target of a relation. *)
Definition search_fuel (rels : list relation) : nat := S (S (length rels)).

Definition reachable (rels : list relation) (start target : string) : bool :=
  match search (search_fuel rels) rels target start [] with
  | Some (found, _) => found
  | None => false
  end.

(** ** Operations *)

Section operations.
Context {zod : Zod} (opts : graph_options).

Definition sg_iso (now : date) : result sg_error iso := of_option now SG_RANGE_ERROR.

Definition idFactory (prefix : string) : method graph sg_error string :=
  fun g => (next_id g, Ok (og_id opts prefix (g_ids g))).

(** [value ?? this.idFactory(prefix)]. *)
Definition id_or (o : option string) (prefix : string) : method graph sg_error string :=
  match o with Some id => jret id | None => idFactory prefix end.

Definition sg_assertScope (workspaceId nodeId : string) : result sg_error unit :=
  require (str_eqb workspaceId (og_workspace opts)) WRONG_WORKSPACE ;?
  require (str_eqb nodeId (og_node opts)) WRONG_NODE.

Definition sg_authorized (input : relation_input) : bool :=
  match og_authorize opts with
  | Some f => f (ri_actor input) (ri_source input) (ri_target input) (ri_type input)
  | None => true
  end.

(** The checks of [addRelation] on a relation that is not there yet. *)
Definition relation_checks (input : relation_input) (g : graph) : result sg_error unit :=
  let source := session_at g (ri_source input) in
  let target := session_at g (ri_target input) in
  let continues := bool_decide (ri_type input = CONTINUES_FROM) in
  require (negb (str_eqb (ri_source input) (ri_target input))) CYCLE_DETECTED ;?
  require (negb (bool_decide (ri_type input = RELATED_PROTOCOL_SESSION) &&
                 bool_decide (source = None) && bool_decide (target = None))) SESSION_NOT_FOUND ;?
  require (negb (continues && (bool_decide (source = None) || bool_decide (target = None)))) SESSION_NOT_FOUND ;?
  match source, target with
  | Some s, Some t =>
      let rels := listRelations g in
      require (negb (continues &&
        bool_decide (0 < length (relationsFor rels CONTINUES_FROM (ri_source input)))%nat)) PARENT_ALREADY_SET ;?
      require (negb (continues && reachable rels (ri_target input) (ri_source input))) CYCLE_DETECTED ;?
      require (negb (bool_decide (ri_source_revision input < session_revision s) ||
                     bool_decide (ri_target_revision input < session_revision t))) STALE_REFERENCE
  | _, _ => Ok tt
  end ;?
  require (sg_authorized input) UNAUTHORIZED_REFERENCE.

(** The relation a given [relationId] already names. *)
Definition known_relation (input : relation_input) (g : graph) : option relation :=
  if truthy (ri_id input) then id ← ri_id input; jget id (g_relations g) else None.

Definition addRelation (input : relation_input) (now : date) : method graph sg_error relation :=
  let! g := jread in
  match known_relation input g with
  | Some existing => jret existing
  | None =>
      jlift (relation_checks input g) ;!
      let! id := id_or (ri_id input) "relation" in
      let! t := jlift (sg_iso now) in
      let relation := Relation id (ri_type input) (og_workspace opts) (og_node opts) (ri_source input)
                        (ri_target input) (Z.max 0 (ri_source_revision input))
                        (Z.max 0 (ri_target_revision input)) (ri_actor input) t in
      let! g := jread in
      jwrite (set_graph_relations (jset id relation (g_relations g)) g) ;!
      jret relation
  end.

(** [value?.trim() || fallback]. *)
Definition trimmed_or_default (o : option string) (fallback : string) : string :=
  let t := default "" (trim <$> o) in if str_eqb t "" then fallback else t.

(** The session and the context root [createSession] builds. *)
Definition fresh_session (input : session_input) (id root : string) (t : iso) : session :=
  Session id (og_workspace opts) (og_node opts) (Z.max 0 (default 0 (si_revision input))) S_ACTIVE
    (si_root_intent input) (si_parent input) (si_structural input)
    (default ("session:" +:+ default "new" (si_session_id input)) (si_anchor input))
    (trimmed_or_default (si_title input) "New interaction") (trimmed_or_default (si_summary input) "")
    [] [] root None t t.

Definition fresh_context (input : session_input) (id root : string) (t : iso) : context_node :=
  ContextNode root id (og_workspace opts) (og_node opts) (Z.max 0 (default 0 (si_revision input))) K_ROOT
    None (si_context_refs input) (Some (si_root_intent input)) [] t t.

(** A new object, filed under a key. *)
Definition store_session (k : string) (s : session) (g : graph) : graph :=
  set_session_map (jset k (length (g_heap g)) (g_sessions g)) (set_heap (g_heap g ++ [s]) g).

(** The session [input.sessionId] already names. *)
Definition known_session (input : session_input) (g : graph) : option session :=
  if truthy (si_session_id input) then id ← si_session_id input; session_at g id else None.

(** The context relations, then the parent relation. *)
Definition link_session (input : session_input) (id : string) (now : date) : method graph sg_error unit :=
  let revision := Z.max 0 (default 0 (si_revision input)) in
  jforeach (fun ref =>
    addRelation (RelationInput None USES_CONTEXT id ref revision 0 (si_actor input)) now ;! jret tt)
    (si_context_refs input) ;!
  let! g := jread in
  if truthy (si_parent input) then
    let parent := default "" (si_parent input) in
    addRelation (RelationInput None CONTINUES_FROM id parent revision
                   (default 0 (session_revision <$> session_at g parent)) (si_actor input)) now ;! jret tt
  else jret tt.

Definition createSession (input : session_input) (now : date) : method graph sg_error session :=
  let! g := jread in
  match known_session input g with
  | Some existing => jret existing
  | None =>
      let! t := jlift (sg_iso now) in
      let! id := id_or (si_session_id input) "session" in
      let! root := idFactory "context" in
      match spatialWorkspaceSessionSchema (fresh_session input id root t),
            spatialContextNodeSchema (fresh_context input id root t) with
      | Some parsedSession, Some parsedContext =>
          let! g := jread in
          jwrite (set_contexts (jset root (Whole parsedContext) (g_contexts g))
                    (store_session id parsedSession g)) ;!
          link_session input id now ;!
          jret parsedSession
      | _, _ => jthrow INVALID_GRAPH_RECORD
      end
  end.

Definition branchSession (parent : string) (input : session_input) (now : date) : method graph sg_error session :=
  let! g := jread in
  jlift (require (jhas parent (g_sessions g)) SESSION_NOT_FOUND) ;!
  createSession (SessionInput (si_session_id input) (si_root_intent input) (si_actor input) (si_title input)
                   (si_summary input) (si_anchor input) (Some parent)
                   (Some (default parent (si_structural input))) (si_context_refs input) (si_revision input)) now.

(** [requireSession], with the address of the object. *)
Definition requireSession (k : string) (g : graph) : result sg_error (nat * session) :=
  of_option (i ← jget k (g_sessions g); s ← g_heap g !! i; Some (i, s)) SESSION_NOT_FOUND.

(** [if (!list.includes(ref)) list.push(ref)]. *)
Definition push_new (ref : string) (l : list string) : list string :=
  if bool_decide (ref ∈ l) then l else l ++ [ref].

Definition bump (s : session) (turns objects : list string) (revision : Z) (t : iso) : session :=
  Session (session_id s) (session_workspace s) (session_node s) revision (session_status s)
    (root_intent_id s) (parent_session_id s) (structural_parent_ref s) (semantic_anchor s)
    (session_title s) (session_summary s) turns objects (context_root_ref s) (artifact_ref s)
    (session_created_at s) t.

(** [{ ...node, revision, updated_at }]. *)
Definition touch_context (o : option stored_context) (revision : Z) (t : iso) : stored_context :=
  match o with
  | Some (Whole c) =>
      Whole (ContextNode (context_node_id c) (cn_session c) (cn_workspace c) (cn_node c) revision (cn_kind c)
               (cn_parent c) (cn_refs c) (cn_source c) (cn_target_revisions c) (cn_created_at c) t)
  | _ => Stub revision t
  end.

(** The mutated object: the turns and the revision are written before the
    clock is read. *)
Definition mutate (i : nat) (s : session) (turns objects : list string) (revision : Z) (now : date)
  : method graph sg_error session :=
  let! g := jread in
  jwrite (set_heap (<[i := bump s turns objects revision (session_updated_at s)]> (g_heap g)) g) ;!
  let! t := jlift (sg_iso now) in
  let s' := bump s turns objects revision t in
  let! g := jread in
  jwrite (set_session_map (jset (session_id s) i (g_sessions g)) (set_heap (<[i := s']> (g_heap g)) g)) ;!
  jret s'.

Definition appendTurn (k turnRef actor : string) (revision : option Z) (now : date)
  : method graph sg_error session :=
  let! g := jread in
  let! found := jlift (requireSession k g) in
  let '(i, s) := found in
  let revision' := Z.max (session_revision s + 1) (default 0 revision) in
  let! s' := mutate i s (push_new turnRef (turn_refs s)) (object_refs s) revision' now in
  let! g := jread in
  jwrite (set_contexts (jset (context_root_ref s')
            (touch_context (jget (context_root_ref s') (g_contexts g)) revision' (session_updated_at s'))
            (g_contexts g)) g) ;!
  addRelation (RelationInput None PRODUCED k turnRef revision' (default 0 revision) actor) now ;!
  jret s'.

Definition appendObject (k objectRef actor : string) (revision : option Z) (now : date)
  : method graph sg_error session :=
  let! g := jread in
  let! found := jlift (requireSession k g) in
  let '(i, s) := found in
  let revision' := Z.max (session_revision s + 1) (default 0 revision) in
  let! s' := mutate i s (turn_refs s) (push_new objectRef (object_refs s)) revision' now in
  addRelation (RelationInput None PRODUCED k objectRef revision' (default 0 revision) actor) now ;!
  jret s'.

(** [Object.assign(session, patch)]. *)
Definition assign_patch (p : session_patch) (s : session) (revision : Z) (t : iso) : session :=
  Session (session_id s) (session_workspace s) (session_node s) revision
    (default (session_status s) (sp_state p)) (root_intent_id s) (parent_session_id s)
    (structural_parent_ref s) (semantic_anchor s) (default (session_title s) (sp_title p))
    (default (session_summary s) (sp_summary p)) (turn_refs s) (object_refs s) (context_root_ref s)
    (default (artifact_ref s) (sp_artifact p)) (session_created_at s) t.

Definition updateSession (k : string) (p : session_patch) (expected : option Z) (now : date)
  : method graph sg_error session :=
  let! g := jread in
  let! found := jlift (requireSession k g) in
  let '(i, s) := found in
  jlift (require (match expected with
                  | Some e => bool_decide (e = session_revision s)
                  | None => true
                  end) STALE_REFERENCE) ;!
  jwrite (set_heap (<[i := assign_patch p s (session_revision s + 1) (session_updated_at s)]> (g_heap g)) g) ;!
  let! t := jlift (sg_iso now) in
  let s' := assign_patch p s (session_revision s + 1) t in
  jwrite (set_session_map (jset k i (g_sessions g)) (set_heap (<[i := s']> (g_heap g)) g)) ;!
  jret s'.

(** ** Snapshot and restore *)

Definition graph_snapshot_of (g : graph) : graph_snapshot :=
  GraphSnapshot (listSessions g) (listContextNodes g) (listRelations g).

Definition restore_session (s : session) : method graph sg_error unit :=
  let! p := jlift (of_option (spatialWorkspaceSessionSchema s) INVALID_GRAPH_RECORD) in
  jlift (sg_assertScope (session_workspace p) (session_node p)) ;!
  let! g := jread in
  jwrite (store_session (session_id p) p g).

(** A stub lacks every required field. *)
Definition restore_context (c : stored_context) : method graph sg_error unit :=
  let! p := jlift (of_option (match c with
                              | Whole c => spatialContextNodeSchema c
                              | Stub _ _ => None
                              end) INVALID_GRAPH_RECORD) in
  jlift (sg_assertScope (cn_workspace p) (cn_node p)) ;!
  let! g := jread in
  jwrite (set_contexts (jset (context_node_id p) (Whole p) (g_contexts g)) g).

Definition restore_relation (r : relation) : method graph sg_error unit :=
  let! g := jread in
  jwrite (set_graph_relations (jset (relation_id r) r (g_relations g)) g).

(** The maps are cleared before the snapshot is validated. *)
Definition restore (s : graph_snapshot) : method graph sg_error unit :=
  let! g := jread in
  jwrite (Graph (g_heap g) [] [] [] (g_ids g)) ;!
  jforeach restore_session (snap_sessions s) ;!
  jforeach restore_context (snap_contexts s) ;!
  jforeach restore_relation (snap_relations s).

(** ** Histories *)

(** One call on the graph other than [restore], whether it returns or throws. *)
Inductive sg_step (g : graph) : graph -> Prop :=
| step_create input now g' r : createSession input now g = (g', r) -> sg_step g g'
| step_branch parent input now g' r : branchSession parent input now g = (g', r) -> sg_step g g'
| step_relate input now g' r : addRelation input now g = (g', r) -> sg_step g g'
| step_turn k ref actor rev now g' r : appendTurn k ref actor rev now g = (g', r) -> sg_step g g'
| step_object k ref actor rev now g' r : appendObject k ref actor rev now g = (g', r) -> sg_step g g'
| step_update k p expected now g' r : updateSession k p expected now g = (g', r) -> sg_step g g'.
End operations.

(** The history of a graph: calls on it, and snapshots put back. The snapshot
    put back may be an older one, or one taken by another graph with other
    options, and its sessions and context nodes may be anything: only its
    relations are those of some graph with a history of its own. [restore] does
    not check the relations, so a snapshot written by hand is outside (see
    [forged_snapshot_is_a_cycle] in SessionGraphProps). *)
Inductive sg_history {zod : Zod} : graph_options -> graph -> Prop :=
| sg_new o : sg_history o new_graph
| sg_call o g g' : sg_history o g -> sg_step o g g' -> sg_history o g'
| sg_put_back o o0 g g0 s g' r :
    sg_history o g -> sg_history o0 g0 -> snap_relations s = listRelations g0 ->
    restore o s g = (g', r) -> sg_history o g'.
