(* ===== verification/SessionGraphProps.v ===== *)
(** * Properties of the workspace session graph

    The cycle search of [reachable] terminates and decides the ancestor
    relation; the [CONTINUES_FROM] relations form a forest in every history;
    revisions only grow; and two ways in which a failed call leaves its work
    behind. *)

From stdpp Require Import relations.
From S2P Require Import Prelude.
From S2P Require Import Json.
From S2P Require Import Contracts.
From S2P Require Import SessionGraph.

#[local] Open Scope Z_scope.

(** ** The search *)

(** [a] continues from [b]. *)
Definition link (rels : list relation) (a b : string) : Prop :=
  exists r, r ∈ rels /\ rel_type r = CONTINUES_FROM /\ source_ref r = a /\ target_ref r = b.

Lemma elem_relationsFor rels t s r :
  r ∈ relationsFor rels t s <-> r ∈ rels /\ rel_type r = t /\ source_ref r = s.
Proof. unfold relationsFor. rewrite list_elem_of_filter. naive_solver. Qed.

Section search.
Context (rels : list relation) (target : string).

Lemma some_relation_true visit l v v' :
  some_relation visit l v = Some (true, v') ->
  exists r w w', r ∈ l /\ visit (target_ref r) w = Some (true, w').
Proof.
  revert v. induction l as [|r l IH]; intros v H; simpl in H; [done|].
  destruct (visit (target_ref r) v) as [[[] w]|] eqn:Hv; simplify_eq.
  - exists r, v, v'. split; [left | done].
  - destruct (IH _ H) as (r' & w1 & w2 & ? & ?). exists r', w1, w2. split; [by right | done].
Qed.

Lemma search_sound fuel start v v' :
  search fuel rels target start v = Some (true, v') -> rtc (link rels) start target.
Proof.
  revert start v v'. induction fuel as [|fuel IH]; intros start v v' H; simpl in H; [done|].
  unfold str_eqb in H. case_bool_decide; [by subst|]. case_bool_decide; [done|].
  apply some_relation_true in H as (r & w & w' & Hr & Hs).
  apply elem_relationsFor in Hr as (? & ? & ?).
  eapply rtc_l; [|eapply IH, Hs]. by exists r.
Qed.

(** The nodes of [v'] beyond [v] are expanded, and none is the target. *)
Definition expanded (v v' : list string) : Prop :=
  v ⊆ v' /\ forall x, x ∈ v' -> x ∈ v \/ (x <> target /\ forall y, link rels x y -> y ∈ v').

Lemma expanded_trans v1 v2 v3 : expanded v1 v2 -> expanded v2 v3 -> expanded v1 v3.
Proof.
  intros [H1 E1] [H2 E2]. split; [set_solver|]. intros x Hx.
  destruct (E2 x Hx) as [Hx2|?]; [|by right]. destruct (E1 x Hx2) as [?|[? Hy]]; [by left|].
  right. split; [done|]. intros y ?%Hy. set_solver.
Qed.

Lemma some_relation_false visit l v v' :
  (forall s w w', visit s w = Some (false, w') -> expanded w w' /\ s ∈ w') ->
  some_relation visit l v = Some (false, v') ->
  expanded v v' /\ forall r, r ∈ l -> target_ref r ∈ v'.
Proof.
  intros Hvisit. revert v. induction l as [|r l IH]; intros v H; simpl in H.
  - simplify_eq. split; [split; [done | by left] | set_solver].
  - destruct (visit (target_ref r) v) as [[[] w]|] eqn:Hv; [done| |done].
    apply Hvisit in Hv as [Hw Hin]. destruct (IH _ H) as [Hw' Hl].
    split; [by eapply expanded_trans|]. intros r' [->|?]%elem_of_cons; [|by apply Hl].
    by apply Hw'.
Qed.

Lemma search_false fuel start v v' :
  search fuel rels target start v = Some (false, v') -> expanded v v' /\ start ∈ v'.
Proof.
  revert start v v'. induction fuel as [|fuel IH]; intros start v v' H; simpl in H; [done|].
  unfold str_eqb in H. case_bool_decide as Hne; [done|]. case_bool_decide as Hin.
  { simplify_eq. split; [split; [done | by left] | done]. }
  apply some_relation_false in H as [[Hsub Hex] Hl]; [|exact IH].
  split; [|set_solver]. split; [set_solver|].
  intros x Hx. destruct (Hex x Hx) as [[->|?]%elem_of_cons|?]; [right|by left|by right].
  split; [done|]. intros y (r & ? & ? & ? & <-). apply Hl, elem_relationsFor. done.
Qed.

Lemma search_complete fuel start v' :
  search fuel rels target start [] = Some (false, v') -> ~ rtc (link rels) start target.
Proof.
  intros H Hpath. apply search_false in H as [[_ Hex] Hin].
  assert (forall x y, rtc (link rels) x y -> x ∈ v' -> y ∈ v') as Hclosed.
  { intros x y Hxy. induction Hxy as [|x y z Hl ? IH]; [done|]. intros Hx.
    destruct (Hex x Hx) as [?|[_ Hy]]; [set_solver|]. by apply IH, Hy. }
  destruct (Hex _ (Hclosed _ _ Hpath Hin)) as [?|[? _]]; [set_solver | done].
Qed.

(** Nodes not yet visited. *)
Definition unseen (nodes v : list string) : nat := length (filter (fun x => x ∉ v) nodes).

Lemma unseen_sub nodes v v' : v ⊆ v' -> (unseen nodes v' <= unseen nodes v)%nat.
Proof.
  intros Hsub. unfold unseen. induction nodes as [|x l IH]; [done|]. rewrite !filter_cons.
  repeat case_decide; simpl; [lia| set_solver |lia|lia].
Qed.

Lemma unseen_visit nodes v x : x ∈ nodes -> x ∉ v -> (unseen nodes (x :: v) < unseen nodes v)%nat.
Proof.
  intros Hin Hx. induction nodes as [|y l IH]; [set_solver|].
  assert (unseen l (x :: v) <= unseen l v)%nat by (apply unseen_sub; set_solver).
  unfold unseen in *. rewrite !filter_cons. destruct (decide (x = y)) as [->|Hne].
  - rewrite decide_False, decide_True by set_solver. simpl. lia.
  - assert (x ∈ l) by set_solver. repeat case_decide; simpl; [|set_solver|set_solver|]; naive_solver lia.
Qed.

Lemma some_relation_total visit l v (n : nat) nodes :
  (forall s w, s ∈ nodes -> (unseen nodes w < n)%nat -> is_Some (visit s w)) ->
  (forall s w w', visit s w = Some (false, w') -> w ⊆ w') ->
  (forall r, r ∈ l -> target_ref r ∈ nodes) -> (unseen nodes v < n)%nat ->
  is_Some (some_relation visit l v).
Proof.
  intros Htotal Hgrow. revert v. induction l as [|r l IH]; intros v Hl Hv; simpl; [done|].
  destruct (Htotal (target_ref r) v) as [[[] w] Hw]; [apply Hl; left | done | |]; rewrite Hw; [done|].
  apply IH; [intros; apply Hl; by right|]. eapply Nat.le_lt_trans; [apply unseen_sub|done].
  by eapply Hgrow.
Qed.

Lemma search_total fuel nodes start v :
  start ∈ nodes -> (forall r, r ∈ rels -> target_ref r ∈ nodes) -> (unseen nodes v < fuel)%nat ->
  is_Some (search fuel rels target start v).
Proof.
  intros Hstart Hnodes. revert start v Hstart.
  induction fuel as [|fuel IH]; intros start v Hstart Hv; [lia|]. simpl.
  unfold str_eqb. case_bool_decide; [done|]. case_bool_decide; [done|].
  apply some_relation_total with fuel nodes.
  - intros. by apply IH.
  - intros s w w' Hw%search_false. apply Hw.
  - intros r (? & _)%elem_relationsFor. by apply Hnodes.
  - pose proof (unseen_visit nodes v start). naive_solver lia.
Qed.
End search.

Lemma search_fuel_enough rels start target :
  is_Some (search (search_fuel rels) rels target start []).
Proof.
  apply search_total with (start :: map target_ref rels); [left | |].
  - intros r Hr. right. apply list_elem_of_fmap. by exists r.
  - unfold unseen, search_fuel. pose proof (length_filter (fun x => x ∉ @nil string) (start :: map target_ref rels)).
    simpl in *. rewrite length_map in *. lia.
Qed.

Lemma reachable_iff rels start target :
  reachable rels start target = true <-> rtc (link rels) start target.
Proof.
  unfold reachable. destruct (search_fuel_enough rels start target) as [[b v] Hs]. rewrite Hs.
  split; [intros ->; by eapply search_sound|]. intros Hp. destruct b; [done|].
  by apply search_complete in Hs.
Qed.

(** C20. [reachable] terminates and is exact: from any start the depth-first
    search with its shared visited set finishes within [search_fuel] nested
    calls (two more than there are relations), and it answers [true] precisely
    when the target is the start itself or one of its [CONTINUES_FROM]
    ancestors, cyclic relation tables included. *)
Theorem reachable_correct rels start target :
  (exists found visited, search (search_fuel rels) rels target start [] = Some (found, visited) /\
    (found = true <-> rtc (link rels) start target)) /\
  (reachable rels start target = true <-> rtc (link rels) start target).
Proof.
  split; [|apply reachable_iff]. pose proof (reachable_iff rels start target) as Hr.
  unfold reachable in Hr. destruct (search_fuel_enough rels start target) as [[b v] Hs].
  rewrite Hs in Hr. by exists b, v.
Qed.

(** ** The forest *)

(** The structural relations form a forest: one parent at most, no cycle; and
    every relation is filed under its own id. *)
Definition lineage (m : jsmap relation) : Prop :=
  (forall s, length (relationsFor (jvalues m) CONTINUES_FROM s) <= 1)%nat /\
  (forall a, ~ tc (link (jvalues m)) a a) /\
  NoDup (jkeys m) /\
  (forall k r, (k, r) ∈ m -> relation_id r = k).

Lemma link_jset m id rel a b :
  link (jvalues (jset id rel m)) a b ->
  link (jvalues m) a b \/ (rel_type rel = CONTINUES_FROM /\ a = source_ref rel /\ b = target_ref rel).
Proof.
  intros (r & [k Hr]%elem_jvalues & Ht & <- & <-). apply elem_jset_inv in Hr as [[-> ->]|Hr]; [by right|].
  left. exists r. split; [|done]. apply elem_jvalues. by exists k.
Qed.

(** A path through an added link runs to its source and on from its target. *)
Lemma tc_added_link (R R' : string -> string -> Prop) s t a b :
  (forall x y, R' x y -> R x y \/ (x = s /\ y = t)) ->
  tc R' a b -> tc R a b \/ (rtc R a s /\ rtc R t b).
Proof.
  intros HR Hab. induction Hab as [a b Hab|a c b Hac Hcb IH].
  - destruct (HR _ _ Hab) as [?|[-> ->]]; [left; by apply tc_once | by right].
  - destruct (HR _ _ Hac) as [Hr|[-> ->]].
    + destruct IH as [?|[? ?]]; [left; by eapply tc_l | right; split; [by eapply rtc_l | done]].
    + right. split; [done|]. destruct IH as [?|[_ ?]]; [by apply tc_rtc | done].
Qed.

Lemma filter_jset_length (P : relation -> Prop) `{!forall r, Decision (P r)} m id rel :
  (length (filter P (jvalues (jset id rel m))) <=
   length (filter P (jvalues m)) + if decide (P rel) then 1 else 0)%nat.
Proof.
  induction m as [|[k r] m IH]; simpl.
  - rewrite filter_cons. case_decide; simpl; lia.
  - unfold str_eqb. case_bool_decide; simpl; rewrite !filter_cons; repeat case_decide; simpl in *; lia.
Qed.

Lemma lineage_jset m id rel :
  lineage m -> relation_id rel = id ->
  (rel_type rel = CONTINUES_FROM ->
   relationsFor (jvalues m) CONTINUES_FROM (source_ref rel) = [] /\
   ~ rtc (link (jvalues m)) (target_ref rel) (source_ref rel)) ->
  lineage (jset id rel m).
Proof.
  intros (Hone & Hac & Hnd & Hid) Hrid Hnew. repeat split.
  - intros s. unfold relationsFor at 1. etrans; [apply filter_jset_length|]. specialize (Hone s).
    case_decide as Hd; [|unfold relationsFor in Hone; lia].
    destruct Hd as [Ht <-]. destruct (Hnew Ht) as [He _]. unfold relationsFor in He. rewrite He. simpl. lia.
  - intros a Hcyc. destruct (decide (rel_type rel = CONTINUES_FROM)) as [Ht|Ht].
    + destruct (Hnew Ht) as [_ Hno].
      eapply (tc_added_link (link (jvalues m)) _ (source_ref rel) (target_ref rel)) in Hcyc as [?|[? ?]].
      * by eapply Hac.
      * destruct Hno. by etrans.
      * intros x y [?|(_ & -> & ->)]%link_jset; [by left | by right].
    + eapply (Hac a), (tc_congruence (fun x => x)), Hcyc. intros x y [?|(? & _)]%link_jset; done.
  - by apply NoDup_jset.
  - intros k r [[-> ->]|?]%elem_jset_inv; [done | by apply Hid].
Qed.

Lemma lineage_nil : lineage [].
Proof.
  repeat split; [intros; simpl; lia | | constructor | set_solver].
  intros a H. assert (forall x y, tc (link (jvalues [])) x y -> False) as Hno; [|by eapply Hno].
  intros x y Hxy. induction Hxy as [? ? (r & Hr & _)|? ? ? (r & Hr & _) ? ?]; by apply elem_of_nil in Hr.
Qed.

Section forest.
Context {zod : Zod} (opts : graph_options).

(** What a call of [addRelation] does to the graph. *)
Lemma addRelation_effect input now g g' r :
  addRelation opts input now g = (g', r) ->
  g_heap g' = g_heap g /\ g_sessions g' = g_sessions g /\ g_contexts g' = g_contexts g /\
  (g_relations g' = g_relations g \/
   exists rel, g_relations g' = jset (relation_id rel) rel (g_relations g) /\ r = Ok rel /\
     relation_checks opts input g = Ok tt /\
     rel_type rel = ri_type input /\ source_ref rel = ri_source input /\ target_ref rel = ri_target input).
Proof.
  unfold addRelation, id_or, idFactory, sg_iso. intros H. run_method H; repeat split; eauto;
    (right; eexists; split; [|split; [reflexivity | by destruct_all unit]]; done).
Qed.

Lemma relation_checks_forest input g :
  relation_checks opts input g = Ok tt -> ri_type input = CONTINUES_FROM ->
  relationsFor (listRelations g) CONTINUES_FROM (ri_source input) = [] /\
  ~ rtc (link (listRelations g)) (ri_target input) (ri_source input).
Proof.
  unfold relation_checks. intros H Ht. rewrite !bool_decide_eq_true_2 with (P := ri_type input = CONTINUES_FROM) in H by done.
  destruct (session_at g (ri_source input)) eqn:Hs; [|by inv_ok].
  destruct (session_at g (ri_target input)) eqn:Htg; [|by inv_ok].
  inv_ok. simpl in *. repeat match goal with H : negb _ = true |- _ => apply negb_true_iff in H end.
  split.
  - match goal with H : bool_decide (0 < _)%nat = false |- _ => apply bool_decide_eq_false in H; rename H into Hl end.
    destruct (relationsFor _ _ _); [done | simpl in Hl; lia].
  - rewrite <- reachable_iff. congruence.
Qed.

Lemma addRelation_lineage input now g g' r :
  lineage (g_relations g) -> addRelation opts input now g = (g', r) -> lineage (g_relations g').
Proof.
  intros Hl H. apply addRelation_effect in H as (_ & _ & _ & [->|(rel & -> & _ & Hc & Ht & Hs & Htg)]); [done|].
  apply lineage_jset; [done|done|]. rewrite Ht, Hs, Htg. by apply relation_checks_forest.
Qed.

Lemma mutate_relations i s turns objects rev now g g' r :
  mutate i s turns objects rev now g = (g', r) -> g_relations g' = g_relations g.
Proof. unfold mutate, sg_iso. intros H. by run_method H. Qed.

Lemma link_session_lineage input id now g g' r :
  lineage (g_relations g) -> link_session opts input id now g = (g', r) -> lineage (g_relations g').
Proof.
  intros Hl. unfold link_session, jbind at 1. destruct (jforeach _ _ g) as [g1 r1] eqn:Hloop. intros H.
  assert (lineage (g_relations g1)) as Hl1.
  { eapply (jforeach_preserves (fun g => lineage (g_relations g))); [|exact Hl|exact Hloop].
    intros ref s s' res _ Hs Hrun. unfold jbind, jret in Hrun. destruct (addRelation _ _ _ s) as [s1 r2] eqn:Ha.
    apply addRelation_lineage in Ha; [|done]. by destruct r2; simplify_eq/=. }
  destruct r1; simplify_eq/=; [|done]. unfold jread, jbind, jret in H. destruct (truthy _); [|by simplify_eq].
  destruct (addRelation _ _ _ g1) as [g2 r2] eqn:Ha. apply addRelation_lineage in Ha; [|done].
  by destruct r2; simplify_eq/=.
Qed.

Lemma createSession_lineage input now g g' r :
  lineage (g_relations g) -> createSession opts input now g = (g', r) -> lineage (g_relations g').
Proof.
  intros Hl H. unfold createSession, id_or, idFactory, sg_iso, jthrow in H. run_method H;
    repeat match goal with Hk : link_session _ _ _ _ _ = _ |- _ => apply link_session_lineage in Hk; [|done] end; done.
Qed.

Lemma append_lineage k ref actor rev now g g' r :
  lineage (g_relations g) ->
  appendTurn opts k ref actor rev now g = (g', r) \/ appendObject opts k ref actor rev now g = (g', r) ->
  lineage (g_relations g').
Proof.
  intros Hl [H|H]; unfold appendTurn, appendObject in H; run_method H;
    repeat match goal with
    | Hm : mutate _ _ _ _ _ _ _ = _ |- _ => apply mutate_relations in Hm
    | Ha : addRelation _ _ _ _ = _ |- _ => apply addRelation_lineage in Ha; [|simpl; congruence]
    end; simpl in *; congruence.
Qed.

Lemma updateSession_relations k p expected now g g' r :
  updateSession k p expected now g = (g', r) -> g_relations g' = g_relations g.
Proof. unfold updateSession, sg_iso. intros H. by run_method H. Qed.

(** Relations put back one by one, behind those already there. *)
Lemma restore_relations m g g' r :
  jforeach restore_relation (jvalues m) g = (g', r) ->
  NoDup (jkeys (g_relations g ++ m)) -> (forall k rel, (k, rel) ∈ m -> relation_id rel = k) ->
  g_relations g' = g_relations g ++ m.
Proof.
  revert g. induction m as [|[k rel] m IH]; intros g H Hnd Hid; simpl in H.
  - injection H as <- _. by rewrite app_nil_r.
  - unfold restore_relation, jbind, jread, jwrite in H. simpl in H. rewrite (Hid k rel) in H by left.
    assert (jget k (g_relations g) = None) as Hk.
    { apply jget_None. unfold jkeys in *. rewrite map_app in Hnd. apply NoDup_app in Hnd as (_ & Hd & _).
      intros Hin. apply (Hd k Hin). left. }
    apply IH in H.
    + rewrite H. simpl. by rewrite jset_fresh, <- app_assoc by done.
    + simpl. by rewrite jset_fresh, <- app_assoc by done.
    + intros k' rel' ?. apply Hid. by right.
Qed.

Lemma restore_session_relations s g g' r : restore_session opts s g = (g', r) -> g_relations g' = g_relations g.
Proof. unfold restore_session. intros H. by run_method H. Qed.

Lemma restore_context_relations c g g' r : restore_context opts c g = (g', r) -> g_relations g' = g_relations g.
Proof. unfold restore_context. intros H. by run_method H. Qed.

(** A restore gives all the relations back, or none. *)
Lemma restore_lineage s m g g' r :
  snap_relations s = jvalues m -> lineage m ->
  restore opts s g = (g', r) -> g_relations g' = m \/ g_relations g' = [].
Proof.
  intros Hs (_ & _ & Hnd & Hid) H. unfold restore in H. rewrite Hs in H. unfold jbind, jread, jwrite in H.
  destruct (jforeach (restore_session opts) _ _) as [g1 r1] eqn:H1.
  assert (g_relations g1 = []) as E1.
  { eapply (jforeach_preserves (fun g => g_relations g = [])) in H1; [exact H1| |reflexivity].
    intros ? ? ? ? _ Hr Hrun. apply restore_session_relations in Hrun. congruence. }
  destruct r1; [|simplify_eq; by right].
  destruct (jforeach (restore_context opts) _ _) as [g2 r2] eqn:H2.
  assert (g_relations g2 = []) as E2.
  { eapply (jforeach_preserves (fun g => g_relations g = [])); [|exact E1|exact H2].
    intros ? ? ? ? _ Hr Hrun. apply restore_context_relations in Hrun. congruence. }
  destruct r2; [|simplify_eq; by right].
  left. apply restore_relations in H; [|by rewrite E2|done]. by rewrite E2 in H.
Qed.

Lemma sg_step_lineage g g' : lineage (g_relations g) -> sg_step opts g g' -> lineage (g_relations g').
Proof.
  intros Hl Hstep. destruct Hstep as [input now g' r H|parent input now g' r H|input now g' r H
    |k ref actor rev now g' r H|k ref actor rev now g' r H|k p expected now g' r H].
  - by eapply createSession_lineage.
  - unfold branchSession in H. unfold jbind, jread, jlift in H. destruct (require _ _).
    + by eapply createSession_lineage.
    + by simplify_eq.
  - by eapply addRelation_lineage.
  - eapply append_lineage; eauto.
  - eapply append_lineage; eauto.
  - apply updateSession_relations in H. by rewrite H.
Qed.

End forest.

Lemma history_lineage {zod : Zod} o g : sg_history o g -> lineage (g_relations g).
Proof.
  intros H. induction H as [o|o g g' _ IH Hstep|o o0 g g0 s g' r _ _ _ IH Hs H].
  - apply lineage_nil.
  - by eapply sg_step_lineage.
  - apply (restore_lineage o s (g_relations g0)) in H as [->| ->]; [done|apply lineage_nil|done|done].
Qed.

(** C4. The session lineage is a forest in every history of a graph: from an
    empty graph, after any sequence of calls (returning or throwing, whatever
    ids the factory hands out) and of snapshots put back whose relations are
    those of any graph with such a history (this one now or earlier, or another
    graph with other options), a session has at most one [CONTINUES_FROM]
    relation and no session is its own ancestor. *)
Theorem lineage_is_a_forest {zod : Zod} o g :
  sg_history o g ->
  (forall s, length (relationsFor (listRelations g) CONTINUES_FROM s) <= 1)%nat /\
  (forall a, ~ tc (link (listRelations g)) a a).
Proof. intros H. by apply history_lineage in H as (? & ? & _). Qed.

(** ** A concrete graph *)

Definition wg_opts : graph_options :=
  GraphOptions "ws-1" "node-1" None (fun prefix n => prefix +:+ "_" +:+ pretty.pretty (N.of_nat n)).
Definition wg_input (id : string) (parent : option string) (context : list string) : session_input :=
  SessionInput (Some id) "intent-1" "operator" None None None parent None context None.
Definition wg_now : date := Some 1700000000000.

(** Two sessions, the second continuing the first. *)
Definition wg_two : graph :=
  ((createSession (zod := zod_ref) wg_opts (wg_input "a" None []) wg_now ;!
    createSession (zod := zod_ref) wg_opts (wg_input "b" (Some "a") []) wg_now) new_graph).1.

Lemma wg_two_history : sg_history (zod := zod_ref) wg_opts wg_two.
Proof.
  eapply sg_call; [eapply sg_call; [apply sg_new|]|].
  - eapply step_create with (input := wg_input "a" None []) (now := wg_now); vm_compute; reflexivity.
  - eapply step_create with (input := wg_input "b" (Some "a") []) (now := wg_now); vm_compute; reflexivity.
Defined.

(** Another graph, in the same scope: a session of its own, then the snapshot
    of [wg_two] put back. *)
Definition wg_one : graph :=
  (createSession (zod := zod_ref) wg_opts (wg_input "c" None []) wg_now new_graph).1.
Definition wg_back : graph := (restore (zod := zod_ref) wg_opts (graph_snapshot_of wg_two) wg_one).1.

Lemma lineage_is_a_forest_witness :
  length (relationsFor (listRelations wg_back) CONTINUES_FROM "b") = 1%nat /\
  ~ tc (link (listRelations wg_back)) "b" "b".
Proof.
  split; [reflexivity|]. apply (lineage_is_a_forest (zod := zod_ref) wg_opts wg_back).
  eapply (sg_put_back _ wg_opts wg_one wg_two (graph_snapshot_of wg_two)); [|exact wg_two_history| |].
  - eapply sg_call; [apply sg_new|].
    eapply step_create with (input := wg_input "c" None []) (now := wg_now); vm_compute; reflexivity.
  - reflexivity.
  - vm_compute. reflexivity.
Defined.

(** ** Sessions only grow *)

(** Every key names a session with that id. *)
Definition keyed (g : graph) : Prop :=
  forall k i, jget k (g_sessions g) = Some i -> exists s, g_heap g !! i = Some s /\ session_id s = k.

(** The later version of a session: the revision is not lower, and no turn or
    object is gone. *)
Definition later (s s' : session) : Prop :=
  session_id s' = session_id s /\ session_revision s <= session_revision s' /\
  turn_refs s ⊆ turn_refs s' /\ object_refs s ⊆ object_refs s'.

Definition grows (g g' : graph) : Prop :=
  forall k s, session_at g k = Some s -> exists s', session_at g' k = Some s' /\ later s s'.

Lemma later_refl s : later s s.
Proof. repeat split; [lia | set_solver | set_solver]. Qed.

Lemma grows_refl g : grows g g.
Proof. intros k s H. exists s. split; [done | apply later_refl]. Qed.

Lemma grows_trans g1 g2 g3 : grows g1 g2 -> grows g2 g3 -> grows g1 g3.
Proof.
  intros H12 H23 k s H. destruct (H12 k s H) as (s2 & E2 & ? & ? & ? & ?).
  destruct (H23 k s2 E2) as (s3 & E3 & ? & ? & ? & ?). exists s3. split; [done|].
  repeat split; [congruence | lia | set_solver | set_solver].
Qed.

(** The invariant and the order together, as one relation of a call. *)
Definition sound_call (g g' : graph) : Prop := keyed g' /\ grows g g'.

Lemma sound_same g g' :
  keyed g -> g_heap g' = g_heap g -> g_sessions g' = g_sessions g -> sound_call g g'.
Proof.
  intros Hk Hh Hs. split; [unfold keyed; by rewrite Hh, Hs|].
  intros k s H. exists s. split; [|apply later_refl]. unfold session_at in *. by rewrite Hh, Hs.
Qed.

Lemma sound_trans g1 g2 g3 : sound_call g1 g2 -> sound_call g2 g3 -> sound_call g1 g3.
Proof. intros [_ ?] [? ?]. split; [done | by eapply grows_trans]. Qed.

(** A session mutated in place. *)
Lemma sound_update g g' i k s s' :
  keyed g -> jget k (g_sessions g) = Some i -> g_heap g !! i = Some s -> later s s' ->
  g_heap g' = <[i := s']> (g_heap g) -> g_sessions g' = g_sessions g -> sound_call g g'.
Proof.
  intros Hk Hi Hs Hlater Hh Hm. assert (i < length (g_heap g))%nat by by eapply lookup_lt_Some. split.
  - intros k' j Hj. rewrite Hm in Hj. destruct (Hk k' j Hj) as (t & Ht & <-). rewrite Hh.
    destruct (decide (i = j)) as [<-|].
    + rewrite list_lookup_insert_eq by done. exists s'. split; [done|]. destruct Hlater as [-> _]. congruence.
    + rewrite list_lookup_insert_ne by done. by exists t.
  - intros k' t Ht. unfold session_at in *. rewrite Hh, Hm. apply bind_Some in Ht as (j & Hj & Ht).
    rewrite Hj. simpl. destruct (decide (i = j)) as [<-|].
    + rewrite list_lookup_insert_eq by done. simplify_eq. by exists s'.
    + rewrite list_lookup_insert_ne by done. exists t. split; [done | apply later_refl].
Qed.

(** A new session filed under a fresh key. *)
Lemma sound_store g k s :
  keyed g -> jget k (g_sessions g) = None -> session_id s = k -> sound_call g (store_session k s g).
Proof.
  intros Hk Hfresh Hid. split.
  - intros k' j. simpl. rewrite jget_jset. unfold str_eqb. case_bool_decide as He.
    + intros [= <-]. subst. exists s. split; [|done]. by apply list_lookup_middle.
    + intros Hj. destruct (Hk k' j Hj) as (t & Ht & ?). exists t. split; [|done]. by apply lookup_app_l_Some.
  - intros k' t Ht. exists t. split; [|apply later_refl]. unfold session_at in *. simpl.
    apply bind_Some in Ht as (j & Hj & Ht). rewrite jget_jset_ne by congruence. rewrite Hj. simpl.
    by apply lookup_app_l_Some.
Qed.

Section growth.
Context {zod : Zod} {laws : ZodLaws zod} (opts : graph_options).

Lemma addRelation_sound input now g g' r :
  keyed g -> addRelation opts input now g = (g', r) -> sound_call g g'.
Proof. intros Hk (Hh & Hs & _)%addRelation_effect. by apply sound_same. Qed.

Lemma mutate_sound i k s turns objects rev now g g' r :
  keyed g -> jget k (g_sessions g) = Some i -> g_heap g !! i = Some s ->
  session_revision s <= rev -> turn_refs s ⊆ turns -> object_refs s ⊆ objects ->
  mutate i s turns objects rev now g = (g', r) -> sound_call g g'.
Proof.
  intros Hk Hi Hs Hrev Ht Ho H. destruct (Hk k i Hi) as (s0 & Hs0 & Hid). simplify_eq.
  assert (forall t, later s (bump s turns objects rev t)) as Hl by done.
  unfold mutate, sg_iso in H. run_method H.
  - eapply (sound_update _ _ i _ s (bump s turns objects rev _)); [done..| |]; simpl.
    + by rewrite list_insert_insert_eq.
    + by apply jset_same.
  - by eapply (sound_update _ _ i _ s (bump s turns objects rev (session_updated_at s))).
Qed.

Lemma push_new_sub ref l : l ⊆ push_new ref l.
Proof. unfold push_new. case_bool_decide; set_solver. Qed.

Lemma requireSession_ok k g i s :
  requireSession k g = Ok (i, s) -> jget k (g_sessions g) = Some i /\ g_heap g !! i = Some s.
Proof. unfold requireSession. intros H. inv_ok. inv_some. by simplify_eq. Qed.

Lemma append_sound k ref actor rev now g g' r :
  keyed g ->
  appendTurn opts k ref actor rev now g = (g', r) \/ appendObject opts k ref actor rev now g = (g', r) ->
  sound_call g g'.
Proof.
  intros Hk H.
  destruct (requireSession k g) as [[i s]|e] eqn:Hreq.
  2:{ assert (g' = g) as ->; [|by apply sound_same].
      destruct H as [H|H]; unfold appendTurn, appendObject, jbind, jread, jlift in H; rewrite Hreq in H; by simplify_eq. }
  apply requireSession_ok in Hreq as HH. destruct HH as [Hi Hs].
  destruct H as [H|H]; unfold appendTurn, appendObject, jbind, jread, jlift, jwrite, jret in H; rewrite Hreq in H;
    destruct (mutate _ _ _ _ _ _ _) as [g1 r1] eqn:Hm; eapply mutate_sound in Hm as [Hk1 Hg1];
    eauto using push_new_sub; try lia; (destruct r1 as [s1|]; [|by simplify_eq]).
  - destruct (addRelation _ _ _ _) as [g2 r2] eqn:Ha.
    apply addRelation_sound in Ha as [? ?]; [|done]. assert (g' = g2) as -> by (destruct r2; congruence).
    split; [done|]. by eapply grows_trans.
  - destruct (addRelation _ _ _ _) as [g2 r2] eqn:Ha.
    apply addRelation_sound in Ha as [? ?]; [|done]. assert (g' = g2) as -> by (destruct r2; congruence).
    split; [done|]. by eapply grows_trans.
Qed.

Lemma updateSession_sound k p expected now g g' r :
  keyed g -> updateSession k p expected now g = (g', r) -> sound_call g g'.
Proof.
  intros Hk H. unfold updateSession, jbind, jread, jlift in H.
  destruct (requireSession k g) as [[i s]|e] eqn:Hreq; [|simplify_eq; by apply sound_same].
  apply requireSession_ok in Hreq as [Hi Hs].
  destruct (require _ _); [|simplify_eq; by apply sound_same]. unfold jwrite, sg_iso, jret in H.
  assert (forall t, later s (assign_patch p s (session_revision s + 1) t)) as Hl.
  { intros t. repeat split; simpl; [lia | set_solver | set_solver]. }
  destruct now; simplify_eq/=.
  - eapply (sound_update _ _ i k s (assign_patch p s (session_revision s + 1) _)); [done..|]. by apply jset_same.
  - by eapply (sound_update _ _ i k s (assign_patch p s (session_revision s + 1) _)).
Qed.

(** The id of a new session: given without surrounding spaces, or handed out by
    the factory so and not in use. *)
Definition tidy (input : session_input) (g : graph) : Prop :=
  match si_session_id input with
  | Some id => trim id = id
  | None => let id := og_id opts "session" (g_ids g) in trim id = id /\ jget id (g_sessions g) = None
  end.

Lemma idSchema_ok s t : idSchema s = Some t -> t = trim s /\ t <> "".
Proof.
  unfold idSchema. intros H. apply z_string_sound in H as [-> Hl]. split; [done|].
  intros He. rewrite He in Hl. simpl in Hl. lia.
Qed.

Lemma sessionSchema_id s t : spatialWorkspaceSessionSchema s = Some t -> idSchema (session_id s) = Some (session_id t).
Proof. unfold spatialWorkspaceSessionSchema. intros H. inv_some. done. Qed.

Lemma link_session_sound input id now g g' r :
  keyed g -> link_session opts input id now g = (g', r) -> sound_call g g'.
Proof.
  intros Hk. unfold link_session, jbind at 1. destruct (jforeach _ _ g) as [g1 r1] eqn:Hloop. intros H.
  assert (sound_call g g1) as Hs1.
  { eapply (jforeach_preserves (fun h => sound_call g h)) in Hloop; [exact Hloop| |by apply sound_same].
    intros ref s s' res _ [Hks Hg] Hrun. unfold jbind, jret in Hrun.
    destruct (addRelation _ _ _ s) as [s1 r2] eqn:Ha. apply addRelation_sound in Ha as Hs; [|done].
    assert (s' = s1) as -> by (destruct r2; congruence). by eapply sound_trans. }
  destruct r1; simplify_eq/=; [|done]. unfold jread, jbind, jret in H. destruct (truthy _); [|by simplify_eq].
  destruct (addRelation _ _ _ g1) as [g2 r2] eqn:Ha. apply addRelation_sound in Ha; [|by destruct Hs1].
  assert (g' = g2) as -> by (destruct r2; congruence). by eapply sound_trans.
Qed.

(** The id that is not known already is fresh. *)
Lemma tidy_fresh input g g1 id s t root :
  keyed g -> tidy input g -> known_session input g = None ->
  id_or opts (si_session_id input) "session" g = (g1, Ok id) ->
  spatialWorkspaceSessionSchema (fresh_session opts input id root t) = Some s ->
  session_id s = id /\ jget id (g_sessions g) = None /\ g_heap g1 = g_heap g /\ g_sessions g1 = g_sessions g.
Proof.
  intros Hk Htidy Hknown Hid [Hs Hne]%sessionSchema_id%idSchema_ok. simpl in Hs.
  unfold tidy, known_session, id_or, idFactory, jret in *. destruct (si_session_id input) as [id0|]; injection Hid as <- <-; simpl in *.
  - split; [congruence|]. split; [|done]. unfold str_eqb in Hknown.
    rewrite bool_decide_eq_false_2 in Hknown by congruence. simpl in Hknown.
    destruct (jget id0 (g_sessions g)) as [i|] eqn:Hj; [|done]. destruct (Hk id0 i Hj) as (s0 & Hs0 & _).
    unfold session_at in Hknown. rewrite Hj in Hknown. simpl in Hknown. congruence.
  - destruct Htidy as [Ht Hf]. split; [congruence | done].
Qed.

Lemma createSession_sound input now g g' r :
  keyed g -> tidy input g -> createSession opts input now g = (g', r) -> sound_call g g'.
Proof.
  intros Hk Ht H. unfold createSession, jbind at 1, jread at 1 in H.
  destruct (known_session input g) eqn:Hknown; [unfold jret in H; simplify_eq; by apply sound_same|].
  unfold jbind at 1, jlift, sg_iso in H. destruct now as [t|]; simpl in H; [|simplify_eq; by apply sound_same].
  unfold jbind at 1 in H. destruct (id_or _ _ _ g) as [g1 [id|e]] eqn:Hid.
  2:{ unfold id_or, idFactory, jret in Hid. by destruct (si_session_id input). }
  unfold jbind at 1, idFactory in H.
  assert (g_heap g1 = g_heap g /\ g_sessions g1 = g_sessions g) as [Hh Hm].
  { unfold id_or, idFactory, jret in Hid. by destruct (si_session_id input); simplify_eq. }
  destruct (spatialWorkspaceSessionSchema _) as [s|] eqn:Hs;
    [|unfold jthrow in H; simplify_eq; by apply sound_same].
  destruct (spatialContextNodeSchema _) as [c|]; [|unfold jthrow in H; simplify_eq; by apply sound_same].
  eapply tidy_fresh in Hs as (Hsid & Hfresh & _); [|done..].
  unfold jbind, jread, jwrite, jret in H. destruct (link_session _ _ _ _ _) as [g2 r2] eqn:Hlink.
  assert (g' = g2) as -> by (destruct r2; congruence).
  assert (sound_call (next_id g1) (store_session id s (next_id g1))) as [Hk1 Hg1].
  { apply sound_store; [by apply (sound_same g)|simpl; congruence|done]. }
  apply link_session_sound in Hlink; [|exact Hk1].
  eapply sound_trans; [apply (sound_same g (next_id g1)); done|].
  eapply sound_trans; [|exact Hlink]. split; [exact Hk1 | exact Hg1].
Qed.

(** One call of the session API; ids of new sessions are [tidy]. *)
Inductive sg_call (g : graph) : graph -> Prop :=
| call_create input now g' r : tidy input g -> createSession opts input now g = (g', r) -> sg_call g g'
| call_branch parent input now g' r : tidy input g -> branchSession opts parent input now g = (g', r) -> sg_call g g'
| call_relate input now g' r : addRelation opts input now g = (g', r) -> sg_call g g'
| call_turn k ref actor rev now g' r : appendTurn opts k ref actor rev now g = (g', r) -> sg_call g g'
| call_object k ref actor rev now g' r : appendObject opts k ref actor rev now g = (g', r) -> sg_call g g'
| call_update k p expected now g' r : updateSession k p expected now g = (g', r) -> sg_call g g'.

Lemma sg_call_sound g g' : keyed g -> sg_call g g' -> sound_call g g'.
Proof.
  intros Hk Hc. destruct Hc as [input now g' r Ht H|parent input now g' r Ht H|input now g' r H
    |k ref actor rev now g' r H|k ref actor rev now g' r H|k p expected now g' r H].
  - by eapply createSession_sound.
  - unfold branchSession, jbind, jread, jlift in H. destruct (require _ _).
    + by eapply createSession_sound in H.
    + simplify_eq. by apply sound_same.
  - by eapply addRelation_sound.
  - eapply append_sound; eauto.
  - eapply append_sound; eauto.
  - by eapply updateSession_sound.
Qed.

Lemma sg_calls_sound g g' : keyed g -> rtc sg_call g g' -> sound_call g g'.
Proof.
  intros Hk H. induction H as [|g1 g2 g3 Hc _ IH]; [by apply sound_same|].
  apply sg_call_sound in Hc as Hs; [|done]. eapply sound_trans; [done|]. apply IH, Hs.
Qed.

(** Sessions only grow: along any history of calls (failed ones included)
    in which new session ids carry no surrounding spaces and factory ids are
    not in use yet, a session that is in the graph stays there under its key
    and id, its revision never goes down and none of its turns or objects is
    lost. *)
Theorem sessions_only_grow g g' k s :
  rtc sg_call new_graph g -> rtc sg_call g g' -> getSession k g = Some s ->
  exists s', getSession k g' = Some s' /\ session_id s' = session_id s /\
    session_revision s <= session_revision s' /\
    turn_refs s ⊆ turn_refs s' /\ object_refs s ⊆ object_refs s'.
Proof.
  intros H1 H2 Hs. assert (keyed new_graph) as Hnew by by intros ? ? ?.
  destruct (sg_calls_sound _ _ Hnew H1) as [Hk _]. destruct (sg_calls_sound _ _ Hk H2) as [_ Hg].
  by apply Hg.
Qed.
End growth.

Definition wg_turn : graph :=
  (appendTurn wg_opts "a" "turn-1" "operator" None wg_now wg_two).1.

Lemma sessions_only_grow_witness :
  exists s', getSession "a" wg_turn = Some s' /\ session_revision s' = 1 /\ turn_refs s' = ["turn-1"] /\
    session_id s' = "a" /\ 0 <= session_revision s'.
Proof.
  destruct (sessions_only_grow (zod := zod_ref) wg_opts wg_two wg_turn "a"
              (default (fresh_session wg_opts (wg_input "" None []) "" "" 0) (getSession "a" wg_two)))
    as (s' & Hs & Hid & Hrev & _).
  - eapply rtc_l; [eapply call_create with (input := wg_input "a" None []) (now := wg_now); vm_compute; reflexivity|].
    eapply rtc_l; [eapply call_create with (input := wg_input "b" (Some "a") []) (now := wg_now); vm_compute; reflexivity|].
    vm_compute. apply rtc_refl.
  - apply rtc_once. eapply call_turn with (k := "a") (ref := "turn-1") (actor := "operator") (rev := None) (now := wg_now).
    vm_compute. reflexivity.
  - reflexivity.
  - exists s'. split; [done|]. vm_compute in Hs. injection Hs as <-. repeat split. vm_compute. discriminate.
Defined.

(** ** What a failed call leaves behind *)

(** Session "a" with one turn. *)
Definition wg_turned : graph :=
  ((createSession (zod := zod_ref) wg_opts (wg_input "a" None []) wg_now ;!
    appendTurn wg_opts "a" "turn-1" "operator" None wg_now) new_graph).1.

(** A refused session is created all the same: a session whose context is
    another session that already has a turn is refused as stale (the context
    relation is always asked for at revision 0), but the session is in the
    graph by then, and the same call again returns it without the relation. *)
Theorem refused_session_is_stored :
  let create := createSession (zod := zod_ref) wg_opts (wg_input "b" None ["a"]) wg_now in
  let g1 := (create wg_turned).1 in
  (create wg_turned).2 = Err STALE_REFERENCE /\
  is_Some (getSession "b" g1) /\ is_ok (create g1).2 = true /\
  relationsFor (listRelations (create g1).1) USES_CONTEXT "b" = [].
Proof. vm_compute. eauto. Qed.

(** A padded id takes over another session: a session created as " a " is
    filed under that key with the id "a", and its first turn files it under "a"
    too, in place of the session that was there, whose turns are gone. *)
Theorem padded_session_takes_over :
  let g := ((createSession (zod := zod_ref) wg_opts (wg_input " a " None []) wg_now ;!
             appendTurn wg_opts " a " "turn-2" "operator" None wg_now) wg_turned).1 in
  (turn_refs <$> getSession "a" wg_turned) = Some ["turn-1"] /\
  (turn_refs <$> getSession "a" g) = Some ["turn-2"].
Proof. vm_compute. done. Qed.

(** An unvalidated patch costs the graph: [updateSession] stores an empty
    title, which the contract refuses; restoring the snapshot then clears the
    graph, fails at that session and leaves the graph empty. *)
Theorem unvalidated_patch_loses_graph :
  let update := updateSession "a" (SessionPatch None (Some "") None None) None wg_now wg_two in
  let restored := restore (zod := zod_ref) wg_opts (graph_snapshot_of update.1) update.1 in
  is_ok update.2 = true /\ length (listSessions update.1) = 2%nat /\
  restored.2 = Err INVALID_GRAPH_RECORD /\
  listSessions restored.1 = [] /\ listRelations restored.1 = [].
Proof. vm_compute. done. Qed.

(** [restore] does not check the relations: a snapshot whose relations make
    two sessions each other's parent is put back as it is. *)
Theorem forged_snapshot_is_a_cycle :
  let back r := Relation r CONTINUES_FROM "ws-1" "node-1" in
  let forged := [back "r1" "a" "b" 0 0 "x" 0; back "r2" "b" "a" 0 0 "x" 0] in
  let restored := restore (zod := zod_ref) wg_opts (GraphSnapshot [] [] forged) wg_two in
  restored.2 = Ok tt /\ tc (link (listRelations restored.1)) "a" "a".
Proof.
  split; [reflexivity|]. apply tc_l with "b"; [|apply tc_once].
  - exists (Relation "r1" CONTINUES_FROM "ws-1" "node-1" "a" "b" 0 0 "x" 0). repeat split. vm_compute. left.
  - exists (Relation "r2" CONTINUES_FROM "ws-1" "node-1" "b" "a" 0 0 "x" 0). repeat split. vm_compute. right. left.
Qed.
