(* ===== verification/Authorization.v ===== *)
(** * Authorization decisions, redaction and the audit trail

    src/web/operator-dashboard/src/spatial/hardening/authorization.ts:
    [SpatialAuthorizationService], [redactSensitiveKeys] and
    [SpatialAuditService]. Revisions are integers, on which [Math.trunc] is the
    identity; the random id factory is a parameter that may return anything. *)

From stdpp Require Import pretty.
From S2P Require Import Prelude.
From S2P Require Import Json.
From S2P Require Import Contracts.
From S2P Require Import Text.

#[local] Open Scope Z_scope.

(** ** Data *)

Inductive decision : Type := ALLOW | DENY | STALE_DECISION | REDACTED.
#[export] Instance decision_eq_dec : EqDecision decision.
Proof. solve_decision. Defined.

Inductive audit_result : Type :=
| A_ACCEPTED | A_REJECTED | A_APPLIED | A_FAILED | A_PARTIAL | A_ROLLED_BACK.
#[export] Instance audit_result_eq_dec : EqDecision audit_result.
Proof. solve_decision. Defined.

(** A [string | Date] argument: a date, or a text with what [Date.parse] makes
    of it. *)
Inductive instant : Type := InDate (d : date) | InText (parsed : option Z).

(** [SpatialAuthorizationRequest]. *)
Record request : Type := Request {
  rq_workspace : string;
  rq_node : string;
  rq_actor : string;
  rq_target : string;
  rq_action : string;
  required_capabilities : list string;
  granted_capabilities : list string;
  rq_target_revision : Z;
  rq_current_revision : option Z;
  rq_correlation : option string;
  rq_now : option instant;
}.

(** [SpatialAuthorizationDecisionRecord]. *)
Record decision_record : Type := DecisionRecord {
  decision_id : string;
  dr_workspace : string;
  dr_node : string;
  dr_actor : string;
  dr_target : string;
  dr_action : string;
  dr_required : list string;
  dr_granted : list string;
  dr_decision : decision;
  reason_code : string;
  dr_target_revision : Z;
  dr_current_revision : Z;
  dr_correlation : option string;
  dr_created_at : iso;
}.

(** [SpatialAuditRecord]. *)
Record audit_record : Type := AuditRecord {
  audit_id : string;
  au_workspace : string;
  au_node : string;
  au_actor : string;
  au_target : string;
  au_target_type : string;
  au_action : string;
  au_decision : decision;
  au_result : audit_result;
  au_target_revision : option Z;
  au_resulting_revision : option Z;
  idempotency_key : string;
  au_correlation : option string;
  redacted_fields : list string;
  evidence_refs : list string;
  occurred_at : iso;
}.
#[export] Instance audit_record_eq_dec : EqDecision audit_record.
Proof. solve_decision. Defined.

(** [SpatialAuditInput]. *)
Record audit_input : Type := AuditInput {
  ai_audit_id : option string;
  ai_workspace : string;
  ai_node : string;
  ai_actor : string;
  ai_target : string;
  ai_target_type : string;
  ai_action : string;
  ai_decision : decision;
  ai_result : audit_result;
  ai_target_revision : option Z;
  ai_resulting_revision : option Z;
  ai_key : string;
  ai_correlation : option string;
  ai_redacted : list string;
  ai_evidence : list string;
  ai_occurred_at : option instant;
}.

Inductive auth_error : Type := INVALID_RECORD | AUTH_RANGE_ERROR.

(** ** Contract schemas *)

Section schemas.
Context {zod : Zod}.

Definition spatialAuthorizationDecisionSchema (d : decision_record) : option decision_record :=
  id ← idSchema (decision_id d);
  ws ← idSchema (dr_workspace d);
  node ← idSchema (dr_node d);
  actor ← idSchema (dr_actor d);
  target ← idSchema (dr_target d);
  action ← idSchema (dr_action d);
  required ← z_array idSchema 128 (dr_required d);
  granted ← z_array idSchema 128 (dr_granted d);
  reason ← idSchema (reason_code d);
  trev ← revisionSchema (dr_target_revision d);
  crev ← revisionSchema (dr_current_revision d);
  corr ← nullable idSchema (dr_correlation d);
  created ← timestampSchema (dr_created_at d);
  Some (DecisionRecord id ws node actor target action required granted (dr_decision d) reason trev crev
          corr created).

Definition spatialAuditRecordSchema (a : audit_record) : option audit_record :=
  id ← idSchema (audit_id a);
  ws ← idSchema (au_workspace a);
  node ← idSchema (au_node a);
  actor ← idSchema (au_actor a);
  target ← idSchema (au_target a);
  type ← idSchema (au_target_type a);
  action ← idSchema (au_action a);
  trev ← nullable revisionSchema (au_target_revision a);
  rrev ← nullable revisionSchema (au_resulting_revision a);
  key ← idSchema (idempotency_key a);
  corr ← nullable idSchema (au_correlation a);
  red ← z_array idSchema 256 (redacted_fields a);
  ev ← z_array idSchema 256 (evidence_refs a);
  t ← timestampSchema (occurred_at a);
  Some (AuditRecord id ws node actor target type action (au_decision a) (au_result a) trev rrev key corr
          red ev t).
End schemas.

(** ** Authorization *)

(** [isoNow(value)]; [wall] is the host clock it falls back to. *)
Definition isoNow (v : instant) (wall : iso) : result auth_error iso :=
  match v with
  | InDate d => of_option d AUTH_RANGE_ERROR
  | InText parsed => Ok (default wall parsed)
  end.

(** [unique(values)]: trimmed, the empty ones dropped, first occurrences. *)
Definition unique_trimmed (values : list string) : list string :=
  unique (filter (fun v => v <> "") (map trim values)).

Lemma elem_unique_trimmed c l : c ∈ unique_trimmed l <-> c <> "" /\ exists x, x ∈ l /\ c = trim x.
Proof.
  unfold unique_trimmed. rewrite elem_of_unique, list_elem_of_filter, list_elem_of_fmap. naive_solver.
Qed.

(** The revoked capabilities, per actor. *)
Definition revocations : Type := jsmap (list string).

Definition add_capability (set : list string) (c : string) : list string :=
  if bool_decide (c ∈ set) then set else set ++ [c].

Definition new_revocations (initial : list (string * list string)) : revocations :=
  foldl (fun m kv => jset kv.1 (unique_trimmed kv.2) m) [] initial.

Definition revoked_of (actor : string) (m : revocations) : list string := default [] (jget actor m).

Definition revoke (actor : string) (capabilities : list string) (m : revocations) : revocations :=
  jset actor (foldl add_capability (revoked_of actor m) (map trim capabilities)) m.

Definition clearRevocation (actor : string) (capabilities : list string) (m : revocations) : revocations :=
  match capabilities with
  | [] => jdelete actor m
  | _ =>
      match jget actor m with
      | None => m
      | Some revoked =>
          let left := filter (fun c => c ∉ map trim capabilities) revoked in
          match left with
          | [] => jdelete actor m
          | _ => jset actor left m
          end
      end
  end.

(** The service: its scope, its own current revision, what it has revoked. *)
Record auth_service : Type := AuthService {
  as_workspace : string;
  as_node : string;
  as_revision : option Z;
  as_revoked : revocations;
}.

(** The verdict of [authorize], with its reason. *)
Definition verdict (s : auth_service) (rq : request) (targetRevision currentRevision : Z)
    (required granted : list string) : decision * string :=
  let revoked := revoked_of (rq_actor rq) (as_revoked s) in
  let missing := filter (fun c => c ∉ granted) required in
  let scopeMismatch := negb (str_eqb (rq_workspace rq) (as_workspace s)) || negb (str_eqb (rq_node rq) (as_node s)) in
  if scopeMismatch then (DENY, "SCOPE_MISMATCH")
  else if negb (bool_decide (targetRevision = currentRevision)) then (STALE_DECISION, "STALE_REVISION")
  else match missing with
       | [] => (ALLOW, "CAPABILITIES_GRANTED")
       | _ => (DENY, if existsb (fun c => bool_decide (c ∈ revoked)) required
                     then "CAPABILITY_REVOKED" else "MISSING_CAPABILITY")
       end.

Section authorize.
Context {zod : Zod}.

(** [authorize(request)]; [fresh] is the id the factory hands out, [clock] what
    the service's own [now()] returns. *)
Definition authorize (s : auth_service) (rq : request) (fresh : string) (clock : instant) (wall : iso)
  : result auth_error (decision_record * bool) :=
  let targetRevision := Z.max 0 (rq_target_revision rq) in
  let currentRevision :=
    Z.max 0 (default (default targetRevision (as_revision s)) (rq_current_revision rq)) in
  let required := unique_trimmed (required_capabilities rq) in
  let revoked := revoked_of (rq_actor rq) (as_revoked s) in
  let granted := filter (fun c => c ∉ revoked) (unique_trimmed (granted_capabilities rq)) in
  let '(d, reason) := verdict s rq targetRevision currentRevision required (unique_trimmed granted) in
  let? t := isoNow (default clock (rq_now rq)) wall in
  let? parsed := of_option (spatialAuthorizationDecisionSchema
    (DecisionRecord fresh (rq_workspace rq) (rq_node rq) (rq_actor rq) (rq_target rq) (rq_action rq) required
       granted d reason targetRevision currentRevision (rq_correlation rq) t)) INVALID_RECORD in
  Ok (parsed, bool_decide (dr_decision parsed = ALLOW)).
End authorize.

(** ** Redaction of audit payloads *)

Definition SENSITIVE_AUDIT_KEYS : list string :=
  ["secret"; "token"; "password"; "credential"; "private_key"; "prompt"; "transcript"; "content"].

(** [key.toLowerCase().replace(/[-\s]/g, '_')]. *)
Definition normalized_key (key : string) : string :=
  string_map (fun c => if is_js_space c || bool_decide (c = "-"%char) then "_"%char else c) (to_lower key).

Definition isSensitiveKey (key : string) : bool :=
  existsb (fun candidate => includes candidate (normalized_key key)) SENSITIVE_AUDIT_KEYS.

(** [`${path}.${key}`], or the key alone at the root. *)
Definition member_path (path key : string) : string :=
  if str_eqb path "" then key else path +:+ "." +:+ key.

(** The inner [visit]: the redacted value and the paths pushed, in order. *)
Fixpoint visit (path : string) (v : json) : json * list string :=
  match v with
  | JArr l =>
      let items := map_index (fun index item => visit (path +:+ "[" +:+ pretty index +:+ "]") item) 0%N l in
      (JArr (map fst items), concat (map snd items))
  | JObj l =>
      let members := map (fun kv =>
        let childPath := member_path path kv.1 in
        if isSensitiveKey kv.1 then ((kv.1, JStr "[REDACTED]"), [childPath])
        else let child := visit childPath kv.2 in ((kv.1, child.1), child.2)) l in
      (JObj (map fst members), concat (map snd members))
  | v => (v, [])
  end.

Definition redactSensitiveKeys (v : json) (path : string) : json * list string := visit path v.

(** [assertNoSensitivePayload]: [false] when it throws. *)
Definition assertNoSensitivePayload (v : json) : bool :=
  match (redactSensitiveKeys v "").2 with [] => true | _ => false end.

(** ** The audit trail *)

Record trail : Type := Trail {
  au_records : jsmap audit_record;
  au_idempotency : jsmap string;
}.

Section audit.
Context {zod : Zod}.

(** [timestampSchema] on a [string | Date]. *)
Definition instant_time (v : instant) : option iso :=
  match v with InDate d => d | InText parsed => parsed end.

(** [append(input)]; [fresh] and [clock] as above. The answer is [None] when the
    index names a record that is gone. *)
Definition append (input : audit_input) (fresh : string) (clock : instant)
  : method trail auth_error (option audit_record) :=
  let! st := jread in
  match jget (ai_key input) (au_idempotency st) with
  | Some existing => jret (jget existing (au_records st))
  | None =>
      let! parsed := jlift (of_option
        (t ← instant_time (default clock (ai_occurred_at input));
         spatialAuditRecordSchema
           (AuditRecord (default fresh (ai_audit_id input)) (ai_workspace input) (ai_node input)
              (ai_actor input) (ai_target input) (ai_target_type input) (ai_action input)
              (ai_decision input) (ai_result input) (ai_target_revision input)
              (ai_resulting_revision input) (ai_key input) (ai_correlation input)
              (unique_trimmed (ai_redacted input)) (unique_trimmed (ai_evidence input)) t)) INVALID_RECORD) in
      jwrite (Trail (jset (audit_id parsed) parsed (au_records st))
                (jset (idempotency_key parsed) (audit_id parsed) (au_idempotency st))) ;!
      jret (Some parsed)
  end.

(** [recordDecision(decision, result, options)] with its defaults. *)
Definition recordDecision (d : decision_record) (res : option audit_result) (key : option string)
    (targetType : option string) (evidence : list string) (resulting : option Z) (fresh : string)
    (clock : instant) : method trail auth_error (option audit_record) :=
  append (AuditInput None (dr_workspace d) (dr_node d) (dr_actor d) (dr_target d)
            (default "resource" targetType) (dr_action d) (dr_decision d)
            (default (if bool_decide (dr_decision d = ALLOW) then A_ACCEPTED else A_REJECTED) res)
            (Some (dr_target_revision d)) resulting (default (decision_id d) key) (dr_correlation d) []
            evidence None) fresh clock.

(** The sort of [list()]: by the printed timestamp, stable. *)
Fixpoint insert_audit `{Collation} (r : audit_record) (l : list audit_record) : list audit_record :=
  match l with
  | [] => [r]
  | r' :: l' =>
      if bool_decide (localeCompare (toISOString (occurred_at r)) (toISOString (occurred_at r')) <= 0)
      then r :: l else r' :: insert_audit r l'
  end.

Definition audit_list `{Collation} (st : trail) : list audit_record :=
  foldr insert_audit [] (jvalues (au_records st)).

(** One record of the loop of [purgeExpired]. *)
Definition purge_one (cutoff : option Z) (st : trail) (id : string) (r : audit_record) : trail * Z :=
  match cutoff with
  | Some c =>
      if bool_decide (occurred_at r < c)
      then (Trail (jdelete id (au_records st)) (jdelete (idempotency_key r) (au_idempotency st)), 1)
      else (st, 0)
  | None => (st, 0)
  end.

Fixpoint purge_loop (cutoff : option Z) (l : list (string * audit_record)) (st : trail) (removed : Z)
  : trail * Z :=
  match l with
  | [] => (st, removed)
  | (id, r) :: l =>
      let '(st', n) := purge_one cutoff st id r in purge_loop cutoff l st' (removed + n)
  end.

(** [purgeExpired(now)]; a [now] that does not parse removes nothing. *)
Definition purgeExpired (retentionMs : Z) (now : option Z) (st : trail) : trail * Z :=
  purge_loop (n ← now; Some (n - Z.max 0 retentionMs)) (au_records st) st 0.
End audit.
