(* ===== verification/AuthorizationProps.v ===== *)
(** * Properties of authorization, redaction and the audit trail

    A request is allowed exactly when its scope, its revision and every
    capability it needs hold; a revocation stands until it is lifted; redaction
    clears the sensitive keys and nothing else; the audit index and the audit
    records agree in every history. *)

From stdpp Require Import relations pretty.
From S2P Require Import Prelude.
From S2P Require Import Json.
From S2P Require Import Contracts.
From S2P Require Import Authorization.

#[local] Open Scope Z_scope.

(** ** Decisions *)

Lemma unique_trimmed_granted c l (P : string -> Prop) `{!forall x, Decision (P x)} :
  c ∈ unique_trimmed (filter P (unique_trimmed l)) <-> P c /\ c ∈ unique_trimmed l.
Proof.
  rewrite elem_unique_trimmed. split.
  - intros (Hne & x & [Hp Hx]%list_elem_of_filter & ->). pose proof Hx as Hx2.
    apply elem_unique_trimmed in Hx2 as (_ & y & _ & ->). by rewrite trim_idem in *.
  - intros [Hp Hc]. split; [by apply elem_unique_trimmed in Hc as [? _]|]. exists c.
    rewrite list_elem_of_filter. split; [done|]. apply elem_unique_trimmed in Hc as (_ & y & _ & ->). by rewrite trim_idem.
Qed.

(** The requirement [c] of a request is met: granted, and not revoked. *)
Definition capability_held (s : auth_service) (rq : request) (c : string) : Prop :=
  (exists x, x ∈ granted_capabilities rq /\ trim x = c) /\ c ∉ revoked_of (rq_actor rq) (as_revoked s).

Section decisions.
Context {zod : Zod}.

Lemma decisionSchema_decision d d' :
  spatialAuthorizationDecisionSchema d = Some d' -> dr_decision d' = dr_decision d.
Proof. unfold spatialAuthorizationDecisionSchema. intros H. inv_some. done. Qed.

Lemma verdict_allow s rq t c required granted :
  (verdict s rq t c required granted).1 = ALLOW <->
  rq_workspace rq = as_workspace s /\ rq_node rq = as_node s /\ t = c /\ forall x, x ∈ required -> x ∈ granted.
Proof.
  unfold verdict, str_eqb. repeat case_bool_decide; simpl; try naive_solver.
  assert (forall x, x ∈ filter (fun c => c ∉ granted) required <-> x ∈ required /\ x ∉ granted) as Hm.
  { intros x. rewrite list_elem_of_filter. naive_solver. }
  destruct (filter _ required) as [|y l]; simpl; split; try naive_solver.
  - intros _. repeat split; try done. intros x Hx. destruct (decide (x ∈ granted)); [done|]. set_solver.
  - intros (_ & _ & _ & Hall). specialize (Hm y). set_solver.
Qed.

Lemma authorize_allowed s rq fresh clock wall d allowed :
  authorize s rq fresh clock wall = Ok (d, allowed) ->
  (allowed = true <->
   rq_workspace rq = as_workspace s /\ rq_node rq = as_node s /\
   Z.max 0 (rq_target_revision rq) =
     Z.max 0 (default (default (Z.max 0 (rq_target_revision rq)) (as_revision s)) (rq_current_revision rq)) /\
   forall c, c ∈ required_capabilities rq -> trim c <> "" -> capability_held s rq (trim c)).
Proof.
  unfold authorize. intros H. destruct (verdict _ _ _ _ _ _) as [dec reason] eqn:Hv. inv_ok.
  rewrite bool_decide_eq_true. erewrite decisionSchema_decision by done. simpl.
  change dec with (dec, reason).1. rewrite <- Hv, verdict_allow.
  enough ((forall x, x ∈ unique_trimmed (required_capabilities rq) ->
             x ∈ unique_trimmed (filter (fun c => c ∉ revoked_of (rq_actor rq) (as_revoked s))
                   (unique_trimmed (granted_capabilities rq)))) <->
          (forall c, c ∈ required_capabilities rq -> trim c <> "" -> capability_held s rq (trim c))) by tauto.
  setoid_rewrite unique_trimmed_granted. setoid_rewrite elem_unique_trimmed. unfold capability_held. split.
  - intros Hall c Hc Hne. destruct (Hall (trim c)) as (Hr & _ & z & Hz & He); [by eauto|]. split; [by exists z | done].
  - intros Hall z (Hne & c & Hc & ->). destruct (Hall c Hc Hne) as ((y & Hy & He) & Hr). naive_solver.
Qed.

(** C8. A decision is exact: when [authorize] returns, the request is allowed
    if and only if it names the service's workspace and Node, its target
    revision is the current one, and every required capability (blank ones
    apart) is among the granted ones and not revoked for the actor. *)
Theorem authorize_exact s rq fresh clock wall d allowed :
  authorize s rq fresh clock wall = Ok (d, allowed) ->
  (allowed = true <->
   rq_workspace rq = as_workspace s /\ rq_node rq = as_node s /\
   Z.max 0 (rq_target_revision rq) =
     Z.max 0 (default (default (Z.max 0 (rq_target_revision rq)) (as_revision s)) (rq_current_revision rq)) /\
   forall c, c ∈ required_capabilities rq -> trim c <> "" -> capability_held s rq (trim c)).
Proof. apply authorize_allowed. Qed.

(** ** Revocation *)

(** Later changes of the revocations that do not lift [c] for [actor]. *)
Inductive keeps_revoked (actor c : string) (m : revocations) : revocations -> Prop :=
| keep_revoke a cs : keeps_revoked actor c m (revoke a cs m)
| keep_clear a cs : a <> actor \/ (cs <> [] /\ c ∉ map trim cs) ->
    keeps_revoked actor c m (clearRevocation a cs m).

Lemma elem_add_capabilities c l set : c ∈ foldl add_capability set l <-> c ∈ set \/ c ∈ l.
Proof.
  revert set. induction l as [|x l IH]; intros set; simpl; [set_solver|]. rewrite IH.
  unfold add_capability. case_bool_decide; set_solver.
Qed.

Lemma revoked_revoke c actor a cs m :
  c ∈ revoked_of actor (revoke a cs m) <-> c ∈ revoked_of actor m \/ (a = actor /\ c ∈ map trim cs).
Proof.
  unfold revoke. unfold revoked_of at 1. rewrite jget_jset. unfold str_eqb. case_bool_decide as Ha; simpl.
  - subst. rewrite elem_add_capabilities. naive_solver.
  - unfold revoked_of. naive_solver.
Qed.

Lemma keeps_revoked_step actor c m m' :
  c ∈ revoked_of actor m -> keeps_revoked actor c m m' -> c ∈ revoked_of actor m'.
Proof.
  intros Hc [a cs|a cs Hk]; [apply revoked_revoke; by left|]. unfold clearRevocation, revoked_of in *.
  destruct (decide (a = actor)) as [->|Hne].
  - destruct Hk as [?|[Hcs Hn]]; [done|]. destruct cs as [|y cs]; [done|].
    destruct (jget actor m) as [revoked|] eqn:Hj; [|by rewrite Hj]. simpl in Hc.
    assert (c ∈ filter (fun c => c ∉ map trim (y :: cs)) revoked) as Hin by by rewrite list_elem_of_filter.
    destruct (filter _ revoked) as [|z l]; [set_solver|]. by rewrite jget_jset_eq.
  - destruct cs as [|y cs].
    + rewrite jget_jdelete. unfold str_eqb. by rewrite bool_decide_eq_false_2.
    + destruct (jget a m); [|done]. destruct (filter _ _).
      * rewrite jget_jdelete. unfold str_eqb. by rewrite bool_decide_eq_false_2.
      * by rewrite jget_jset_ne.
Qed.

(** A revocation stands: once a capability is revoked for an actor, no
    request of that actor that requires it is allowed, whatever it is granted
    and whatever is revoked or lifted in between, until that capability of that
    actor (or all of them) is lifted. *)
Theorem revocation_holds s rq fresh clock wall d allowed actor c cs m m' :
  c ∈ cs -> trim c <> "" -> rtc (keeps_revoked actor (trim c)) (revoke actor cs m) m' ->
  as_revoked s = m' -> rq_actor rq = actor ->
  (exists x, x ∈ required_capabilities rq /\ trim x = trim c) ->
  authorize s rq fresh clock wall = Ok (d, allowed) -> allowed = false.
Proof.
  intros Hc Hne Hrun Hs Hactor (x & Hx & Htrim) Hauth.
  assert (trim c ∈ revoked_of actor m') as Hrev.
  { assert (trim c ∈ revoked_of actor (revoke actor cs m)) as H0.
    { apply revoked_revoke. right. split; [done|]. apply list_elem_of_fmap. by exists c. }
    revert H0. induction Hrun as [|m1 m2 m3 Hstep _ IH]; [done|]. intros H0. by eapply IH, keeps_revoked_step. }
  apply authorize_allowed in Hauth. destruct allowed; [|done]. exfalso.
  destruct (proj1 Hauth eq_refl) as (_ & _ & _ & Hall). destruct (Hall x Hx) as [_ Hno]; [congruence|].
  apply Hno. by rewrite Htrim, Hactor, Hs.
Qed.
End decisions.

(** ** Concrete services *)

Definition wa_service (m : revocations) : auth_service := AuthService "ws-1" "node-1" None m.
Definition wa_request (actor : string) : request :=
  Request "ws-1" "node-1" actor "object-1" "move" ["workspace:mutate"] ["workspace:mutate"; "workspace:read"]
    3 (Some 3) None None.
Definition wa_run (m : revocations) (actor : string) : result auth_error (decision_record * bool) :=
  authorize (zod := zod_ref) (wa_service m) (wa_request actor) "decision:1" (InText (Some 0)) 0.
Definition wa_empty : decision_record := DecisionRecord "" "" "" "" "" "" [] [] DENY "" 0 0 None 0.
Definition wa_decision (r : result auth_error (decision_record * bool)) : decision_record :=
  match r with Ok (d, _) => d | Err _ => wa_empty end.

Lemma authorize_exact_witness :
  wa_run [] "agent-1" = Ok (wa_decision (wa_run [] "agent-1"), true) /\
  capability_held (wa_service []) (wa_request "agent-1") "workspace:mutate".
Proof.
  split; [reflexivity|].
  destruct (authorize_exact (zod := zod_ref) (wa_service []) (wa_request "agent-1") "decision:1" (InText (Some 0)) 0
              (wa_decision (wa_run [] "agent-1")) true) as [Hallowed _]; [reflexivity|].
  destruct (Hallowed eq_refl) as (_ & _ & _ & Hall). apply (Hall "workspace:mutate"); [left | discriminate].
Defined.

Definition wa_revoked : revocations :=
  clearRevocation "agent-2" [] (revoke "agent-1" ["workspace:mutate"] []).

Lemma revocation_holds_witness :
  exists b, wa_run wa_revoked "agent-1" = Ok (wa_decision (wa_run wa_revoked "agent-1"), b) /\ b = false.
Proof.
  eexists. split; [reflexivity|].
  eapply (revocation_holds (zod := zod_ref) (wa_service wa_revoked) (wa_request "agent-1") "decision:1" (InText (Some 0)) 0
           (wa_decision (wa_run wa_revoked "agent-1")) _ "agent-1" "workspace:mutate" ["workspace:mutate"] [] wa_revoked);
    [left|discriminate| |reflexivity|reflexivity| |reflexivity].
  - apply rtc_once, keep_clear. left. discriminate.
  - exists "workspace:mutate". split; [left | reflexivity].
Defined.

(** A padded actor evades a revocation: the revocations are looked up with
    the actor reference as given, but the decision is recorded for the trimmed
    one; the request of " agent-1 " is allowed, in the name of "agent-1", with
    the capability that is revoked for "agent-1". *)
Theorem padded_actor_evades_revocation :
  let m := revoke "agent-1" ["workspace:mutate"] [] in
  (exists d, wa_run m "agent-1" = Ok (d, false)) /\
  (exists d, wa_run m " agent-1 " = Ok (d, true) /\ dr_actor d = "agent-1").
Proof. vm_compute. split; eauto. Qed.

(** ** Redaction *)

(** A step that a redaction leaves alone. *)
Definition plain_step (s : segment) : Prop :=
  match s with Key k => isSensitiveKey k = false | Index _ => True end.

(** One step into a redacted value: a sensitive key holds the mark, any other
    step leads to the redacted value of the same step. *)
Lemma visit_step path v s ss x :
  reaches (visit path v).1 (s :: ss) x ->
  exists w, reaches w ss x /\
    (w = JStr "[REDACTED]" \/ (plain_step s /\ exists path' v', w = (visit path' v').1)).
Proof.
  intros H. destruct v as [| | | |l|l]; simpl in H; inversion H as [|? k w ? ? Hin Hr|? i w ? ? Hin Hr]; subst.
  - exists w. split; [done|]. right. split; [done|].
    rewrite list_lookup_fmap, lookup_map_index in Hin.
    destruct (l !! i) as [v'|]; simplify_eq/=. eauto.
  - exists w. split; [done|]. rewrite map_map in Hin. apply list_elem_of_fmap in Hin as ([k' v'] & Heq & _).
    simpl in Heq. destruct (isSensitiveKey k') eqn:Hs; simplify_eq/=; [by left|]. right. split; [done | eauto].
Qed.

Lemma mark_stuck s ss x : ~ reaches (JStr "[REDACTED]") (s :: ss) x.
Proof. by inversion 1. Qed.

Lemma visit_clears path v ss k x :
  reaches (visit path v).1 (ss ++ [Key k]) x -> isSensitiveKey k = true -> x = JStr "[REDACTED]".
Proof.
  revert path v. induction ss as [|s ss IH]; intros path v H Hk; simpl in H.
  - apply visit_step in H as (w & Hr & [->|[Hp _]]); [by inversion Hr | simpl in Hp; congruence].
  - apply visit_step in H as (w & Hr & [->|[_ (path' & v' & ->)]]); [|by eapply IH].
    destruct ss; simpl in Hr; by apply mark_stuck in Hr.
Qed.

Lemma visit_keeps path v ss x :
  reaches v ss x -> is_leaf x = true -> Forall plain_step ss -> reaches (visit path v).1 ss x.
Proof.
  intros H Hleaf. revert path. induction H as [v|l k w ss x Hin Hr IH|l i w ss x Hin Hr IH]; intros path Hp.
  - destruct v; simpl in *; try done; constructor.
  - inversion_clear Hp as [|? ? Hk Hss]. simpl in *. rewrite map_map.
    apply (reaches_key _ k (visit (member_path path k) w).1); [|by apply IH].
    apply list_elem_of_fmap. exists (k, w). split; [|done]. simpl. by rewrite Hk.
  - inversion_clear Hp as [|? ? _ Hss]. simpl.
    eapply reaches_index; [|by apply IH]. rewrite list_lookup_fmap, lookup_map_index, Hin. done.
Qed.

Lemma concat_nil {A} (l : list (list A)) : concat l = [] <-> forall x, x ∈ l -> x = [].
Proof.
  induction l as [|y l IH]; simpl; [set_solver|]. split.
  - intros [-> Hl]%app_nil x [->|Hx]%elem_of_cons; [done | by apply IH].
  - intros H. rewrite (H y) by left. apply IH. intros x Hx. apply H. by right.
Qed.

(** No sensitive key anywhere. *)
Definition free_of_sensitive (v : json) : Prop :=
  forall ss k x, reaches v (ss ++ [Key k]) x -> isSensitiveKey k = false.

Lemma visit_fields_free path v : (visit path v).2 = [] -> free_of_sensitive v.
Proof.
  intros Hv ss. revert path v Hv. induction ss as [|s ss IH]; intros path v Hv k x H;
    inversion H as [|l k0 w ? ? Hin Hr|l i w ? ? Hin Hr]; subst; simpl in Hv;
    rewrite concat_nil in Hv.
  - rewrite map_map in Hv. destruct (isSensitiveKey k) eqn:Hk; [|done]. exfalso.
    assert ([member_path path k] = []) as Hbad; [|discriminate Hbad]. apply Hv, list_elem_of_fmap.
    exists (k, w). simpl. by rewrite Hk.
  - rewrite map_map in Hv. destruct (isSensitiveKey k0) eqn:Hk0.
    + exfalso. assert ([member_path path k0] = []) as Hbad; [|discriminate Hbad]. apply Hv, list_elem_of_fmap.
      exists (k0, w). simpl. by rewrite Hk0.
    + eapply (IH (member_path path k0) w); [|done]. apply Hv, list_elem_of_fmap. exists (k0, w). simpl. by rewrite Hk0.
  - eapply (IH (path +:+ "[" +:+ pretty (0 + N.of_nat i)%N +:+ "]") w); [|done].
    apply Hv, list_elem_of_fmap. eexists. split; [reflexivity|].
    apply list_elem_of_lookup. exists i. by rewrite lookup_map_index, Hin.
Qed.

Lemma free_member l k w : free_of_sensitive (JObj l) -> (k, w) ∈ l -> isSensitiveKey k = false /\ free_of_sensitive w.
Proof.
  intros H Hin. split.
  - eapply (H []). eapply reaches_key; [done | constructor].
  - intros ss k' x Hr. eapply (H (Key k :: ss)). by eapply reaches_key.
Qed.

Lemma free_item l i w : free_of_sensitive (JArr l) -> l !! i = Some w -> free_of_sensitive w.
Proof. intros H Hin ss k' x Hr. eapply (H (Index i :: ss)). by eapply reaches_index. Qed.

Lemma visit_free path v : free_of_sensitive v -> (visit path v).2 = [].
Proof.
  revert path. induction v as [| | | |l IH|l IH] using json_ind'; intros path Hfree; simpl; try done;
    apply concat_nil; intros fs Hfs.
  - apply list_elem_of_fmap in Hfs as (p & -> & Hp). apply list_elem_of_lookup in Hp as [i Hi].
    rewrite lookup_map_index in Hi. destruct (l !! i) as [w|] eqn:Hw; simplify_eq/=.
    rewrite Forall_lookup in IH. by eapply IH, free_item.
  - rewrite map_map in Hfs. apply list_elem_of_fmap in Hfs as ([k w] & -> & Hin). simpl.
    destruct (free_member _ _ _ Hfree Hin) as [-> Hw]. rewrite Forall_forall in IH.
    by apply (IH (k, w)).
Qed.

(** Audit redaction is exact, at any depth and from any start path: in the
    result whatever sits under a sensitive key (compared without case, with
    dashes and spaces as underscores, as a substring) is the mark; every leaf
    that no sensitive key leads to is kept in its place; and the list of
    redacted fields is empty, as [assertNoSensitivePayload] asks, exactly when
    the value has no sensitive key. *)
Theorem audit_redaction_exact v path :
  (forall ss k x, reaches (redactSensitiveKeys v path).1 (ss ++ [Key k]) x ->
     isSensitiveKey k = true -> x = JStr "[REDACTED]") /\
  (forall ss x, reaches v ss x -> is_leaf x = true -> Forall plain_step ss ->
     reaches (redactSensitiveKeys v path).1 ss x) /\
  ((redactSensitiveKeys v path).2 = [] <-> free_of_sensitive v) /\
  (assertNoSensitivePayload v = true <-> free_of_sensitive v).
Proof.
  unfold assertNoSensitivePayload, redactSensitiveKeys. split; [|split; [|split]].
  - intros ss k x. apply visit_clears.
  - intros ss x. apply visit_keeps.
  - split; [apply visit_fields_free | apply visit_free].
  - split.
    + destruct (visit "" v).2 eqn:Hv; [|done]. intros _. by eapply visit_fields_free.
    + intros Hf. by rewrite visit_free.
Qed.

(** ** The audit trail *)

(** The index and the records agree, both ways. *)
Definition trail_ok (st : trail) : Prop :=
  NoDup (jkeys (au_records st)) /\
  (forall key id, jget key (au_idempotency st) = Some id ->
     exists r, jget id (au_records st) = Some r /\ idempotency_key r = key) /\
  (forall id r, jget id (au_records st) = Some r ->
     audit_id r = id /\ jget (idempotency_key r) (au_idempotency st) = Some id).

Lemma trail_ok_new : trail_ok (Trail [] []).
Proof. repeat split; [constructor | done..]. Qed.

Lemma trail_ok_add st r :
  trail_ok st -> jget (audit_id r) (au_records st) = None -> jget (idempotency_key r) (au_idempotency st) = None ->
  trail_ok (Trail (jset (audit_id r) r (au_records st)) (jset (idempotency_key r) (audit_id r) (au_idempotency st))).
Proof.
  intros (Hnd & Hix & Hrec) Hid Hkey. split; [by apply NoDup_jset|]. split; simpl.
  - intros key id. rewrite jget_jset. unfold str_eqb. case_bool_decide as Hk.
    + intros [= <-]. exists r. by rewrite jget_jset_eq.
    + intros (r' & Hr' & ?)%Hix. exists r'. rewrite jget_jset_ne by congruence. done.
  - intros id r'. rewrite jget_jset. unfold str_eqb. case_bool_decide as Hk.
    + intros [= <-]. rewrite jget_jset_eq. by subst id.
    + intros [? Hi]%Hrec. split; [done|]. rewrite jget_jset_ne by congruence. done.
Qed.

Lemma trail_ok_remove st id r :
  trail_ok st -> jget id (au_records st) = Some r ->
  trail_ok (Trail (jdelete id (au_records st)) (jdelete (idempotency_key r) (au_idempotency st))).
Proof.
  intros (Hnd & Hix & Hrec) Hid. pose proof (Hrec id r Hid) as [_ Hkey].
  split; [by apply NoDup_jdelete|]. split; simpl.
  - intros key id'. rewrite jget_jdelete. unfold str_eqb. case_bool_decide as Hk; [done|].
    intros (r' & Hr' & He)%Hix. exists r'. rewrite jget_jdelete. unfold str_eqb.
    rewrite bool_decide_eq_false_2 by congruence. done.
  - intros id' r'. rewrite jget_jdelete. unfold str_eqb. case_bool_decide as Hk; [done|].
    intros [? Hi]%Hrec. split; [done|]. rewrite jget_jdelete. unfold str_eqb.
    rewrite bool_decide_eq_false_2 by congruence. done.
Qed.

(** The records a purge at [cutoff] removes. *)
Definition expired (cutoff : option Z) (r : audit_record) : bool :=
  match cutoff with Some c => bool_decide (occurred_at r < c) | None => false end.

Definition count_expired (cutoff : option Z) (l : list (string * audit_record)) : Z :=
  Z.of_nat (length (filter (fun kr => expired cutoff kr.2 = true) l)).

Lemma purge_loop_spec cutoff (l : list (string * audit_record)) st n :
  trail_ok st -> NoDup (jkeys l) -> (forall id r, (id, r) ∈ l -> jget id (au_records st) = Some r) ->
  let '(st', n') := purge_loop cutoff l st n in
  trail_ok st' /\ n' = n + count_expired cutoff l /\
  forall id r, jget id (au_records st') = Some r <->
    jget id (au_records st) = Some r /\ ~ ((id, r) ∈ l /\ expired cutoff r = true).
Proof.
  revert st n. induction l as [|[id r] l IH]; intros st n Hok Hnd Hl; simpl.
  { split; [done|]. split; [unfold count_expired; simpl; lia|]. set_solver. }
  apply NoDup_cons in Hnd as [Hfresh Hnd].
  assert (forall r', (id, r') ∉ l) as Hnot.
  { intros r' Hin. apply Hfresh, list_elem_of_fmap. by exists (id, r'). }
  pose proof (Hl id r ltac:(left)) as Hid. unfold purge_one.
  assert (count_expired cutoff ((id, r) :: l) = count_expired cutoff l + if expired cutoff r then 1 else 0) as ->.
  { unfold count_expired. rewrite filter_cons. simpl. destruct (expired cutoff r); simpl; lia. }
  assert (expired cutoff r = match cutoff with Some c => bool_decide (occurred_at r < c) | None => false end) as He by done.
  destruct (expired cutoff r) eqn:Hexp.
  - destruct cutoff as [c|]; [|done]. rewrite <- He.
    specialize (IH (Trail (jdelete id (au_records st)) (jdelete (idempotency_key r) (au_idempotency st))) (n + 1)).
    destruct (purge_loop _ _ _ _) as [st' n']. destruct IH as (Hok' & -> & Hspec).
    + by apply trail_ok_remove.
    + done.
    + intros id' r' Hin. simpl. rewrite jget_jdelete. unfold str_eqb.
      rewrite bool_decide_eq_false_2 by (intros ->; by eapply Hnot). apply Hl. by right.
    + split; [done|]. split; [simpl; lia|]. intros id' r'. rewrite Hspec. simpl. rewrite jget_jdelete.
      unfold str_eqb. destruct (decide (id = id')) as [<-|Hi];
        [rewrite bool_decide_eq_true_2 by done | rewrite bool_decide_eq_false_2 by done];
        rewrite elem_of_cons; [|naive_solver].
      split; [naive_solver|]. intros [Hr Hno]. rewrite Hid in Hr. injection Hr as <-. destruct Hno. split; [by left | done].
  - replace (match cutoff with Some c => _ | None => _ end) with (st, 0) by (destruct cutoff; [by rewrite <- He | done]).
    specialize (IH st (n + 0)). destruct (purge_loop _ _ _ _) as [st' n']. destruct IH as (Hok' & -> & Hspec); [done..| |].
    + intros. apply Hl. by right.
    + split; [done|]. split; [lia|]. intros id' r'. rewrite Hspec. split; intros [Hr Hno]; (split; [done|]).
      * intros [[[= -> ->]|Hin]%elem_of_cons He2]; [congruence | by apply Hno].
      * intros [Hin He2]. apply Hno. split; [by right | done].
Qed.

Section audit_claims.
Context {zod : Zod} {laws : ZodLaws zod}.

Lemma auditSchema_ids a b :
  spatialAuditRecordSchema a = Some b ->
  audit_id b = trim (audit_id a) /\ idempotency_key b = trim (idempotency_key a).
Proof using laws.
  assert (forall s t, idSchema s = Some t -> t = trim s) as Hid.
  { unfold idSchema. intros s t H. by apply z_string_sound in H as [-> _]. }
  unfold spatialAuditRecordSchema. intros H. inv_some. simpl. split; by apply Hid.
Qed.

(** An append with an unpadded key and an audit id not in use. *)
Definition tidy_append (input : audit_input) (fresh : string) (st : trail) : Prop :=
  trim (ai_key input) = ai_key input /\
  jget (trim (default fresh (ai_audit_id input))) (au_records st) = None.

Lemma append_ok input fresh clock st st' res :
  trail_ok st -> tidy_append input fresh st -> append input fresh clock st = (st', res) ->
  trail_ok st' /\ (forall id r, jget id (au_records st) = Some r -> jget id (au_records st') = Some r).
Proof using laws.
  intros Hok [Hkey Hfresh] H. unfold append in H. unfold jbind, jread, jlift, jwrite, jret in H.
  destruct (jget (ai_key input) (au_idempotency st)) as [id|] eqn:Hix; [by simplify_eq|].
  destruct (of_option _ _) as [parsed|] eqn:Hp; [|by simplify_eq].
  apply of_option_ok, bind_Some in Hp as (t & _ & [Hid Hk]%auditSchema_ids). simpl in *. rewrite Hkey in Hk.
  simplify_eq. split.
  - apply trail_ok_add; [done|by rewrite Hid | by rewrite Hk].
  - intros id r Hr. simpl. rewrite jget_jset_ne; [done|]. rewrite Hid. congruence.
Qed.

(** One call on the audit trail. *)
Inductive trail_step (st : trail) : trail -> Prop :=
| trail_append input fresh clock st' res :
    tidy_append input fresh st -> append input fresh clock st = (st', res) -> trail_step st st'
| trail_purge retention now st' n : purgeExpired retention now st = (st', n) -> trail_step st st'.

Lemma purge_ok retention now st st' n :
  trail_ok st -> purgeExpired retention now st = (st', n) ->
  trail_ok st' /\
  n = count_expired (t ← now; Some (t - Z.max 0 retention)) (au_records st) /\
  forall id r, jget id (au_records st') = Some r <->
    jget id (au_records st) = Some r /\ expired (t ← now; Some (t - Z.max 0 retention)) r = false.
Proof.
  intros Hok H. unfold purgeExpired in H.
  pose proof (purge_loop_spec (t ← now; Some (t - Z.max 0 retention)) (au_records st) st 0 Hok (proj1 Hok)) as Hspec.
  rewrite H in Hspec. destruct Hspec as (Hok' & Hn & Hspec).
  { intros id r Hin. apply elem_jget; [apply Hok | done]. }
  split; [done|]. split; [rewrite Hn; lia|]. intros id r. rewrite Hspec. split; intros [Hr He]; split; try done.
  - destruct (expired _ r); [|done]. destruct He. split; [by apply jget_elem | done].
  - rewrite He. by intros [_ ?].
Qed.

Lemma trail_steps_ok st : rtc trail_step (Trail [] []) st -> trail_ok st.
Proof using laws.
  intros H. eapply (rtc_ind_r trail_ok (Trail [] [])); [apply trail_ok_new| |done].
  intros st1 st2 _ [input fresh clock st' res Ht Ha|retention now st' n Hp] Hok.
  - by eapply append_ok.
  - by eapply purge_ok.
Qed.

(** The audit trail is consistent in every history of appends (keys
    unpadded, audit ids not reused) and purges: each record is filed under its
    own id and found by its idempotency key, each key of the index leads to the
    record that carries it, so a repeated append never answers without a
    record; and an append keeps every record there was. *)
Theorem audit_trail_consistent st input fresh clock st' res :
  rtc trail_step (Trail [] []) st -> tidy_append input fresh st -> append input fresh clock st = (st', res) ->
  (forall id r, jget id (au_records st) = Some r ->
     audit_id r = id /\ jget (idempotency_key r) (au_idempotency st) = Some id /\
     jget id (au_records st') = Some r) /\
  match res with
  | Ok answer => exists r, answer = Some r /\ idempotency_key r = ai_key input /\
                   jget (audit_id r) (au_records st') = Some r
  | Err _ => st' = st
  end.
Proof.
  intros Hrun Ht H. pose proof (trail_steps_ok st Hrun) as Hok.
  destruct (append_ok _ _ _ _ _ _ Hok Ht H) as [_ Hkeep]. destruct Hok as (_ & Hix & Hrec). split.
  { intros id r Hr. destruct (Hrec id r Hr) as [? ?]. eauto. }
  destruct Ht as [Hkey _]. unfold append, jbind, jread, jlift, jwrite, jret in H.
  destruct (jget (ai_key input) (au_idempotency st)) as [id|] eqn:Hi.
  - simplify_eq. destruct (Hix _ _ Hi) as (r & Hr & He). exists r. destruct (Hrec _ _ Hr) as [-> _]. done.
  - destruct (of_option _ _) as [parsed|e] eqn:Hp; simplify_eq; [|done].
    apply of_option_ok, bind_Some in Hp as (t & _ & [_ Hk]%auditSchema_ids). exists parsed. simpl in *.
    rewrite jget_jset_eq. split; [done|]. split; [congruence | done].
Qed.

(** A purge removes exactly the expired records: it returns how many
    there were, keeps every record at or after the cutoff unchanged, and frees
    the idempotency keys of the removed ones; a [now] that is no date removes
    nothing. *)
Theorem purge_exact st retention now st' n :
  rtc trail_step (Trail [] []) st -> purgeExpired retention now st = (st', n) ->
  let cutoff := (t ← now; Some (t - Z.max 0 retention)) in
  n = count_expired cutoff (au_records st) /\
  (forall id r, jget id (au_records st') = Some r <-> jget id (au_records st) = Some r /\ expired cutoff r = false) /\
  (forall id r, jget id (au_records st) = Some r -> expired cutoff r = true ->
     jget (idempotency_key r) (au_idempotency st') = None).
Proof.
  intros Hrun H cutoff. pose proof (trail_steps_ok st Hrun) as Hok.
  destruct (purge_ok _ _ _ _ _ Hok H) as (Hok' & Hn & Hspec). split; [done|]. split; [done|].
  intros id r Hr He. destruct (jget _ (au_idempotency st')) as [id'|] eqn:Hi; [|done]. exfalso.
  destruct Hok' as (_ & Hix' & _). destruct (Hix' _ _ Hi) as (r' & Hr' & Hk).
  apply Hspec in Hr' as [Hr' He']. destruct Hok as (_ & _ & Hrec).
  destruct (Hrec _ _ Hr') as [_ H1]. destruct (Hrec _ _ Hr) as [_ H2].
  assert (id = id') as -> by congruence. assert (r = r') as -> by congruence. unfold cutoff in He. congruence.
Qed.

Lemma append_again_same input input' fresh fresh' clock clock' st st' r :
  trim (ai_key input) = ai_key input -> ai_key input' = ai_key input ->
  append input fresh clock st = (st', Ok (Some r)) ->
  append input' fresh' clock' st' = (st', Ok (Some r)).
Proof using laws.
  intros Hkey Hsame H. unfold append, jbind, jread, jlift, jwrite, jret in *. rewrite Hsame.
  destruct (jget (ai_key input) (au_idempotency st)) as [id|] eqn:Hi; simplify_eq/=.
  - rewrite Hi. by match goal with H : jget _ _ = Some _ |- _ => rewrite H end.
  - destruct (of_option _ _) as [parsed|e] eqn:Hp; simplify_eq/=.
    apply of_option_ok, bind_Some in Hp as (t & _ & [_ Hk]%auditSchema_ids). simpl in Hk.
    rewrite Hk, Hkey, jget_jset_eq. by rewrite jget_jset_eq.
Qed.

(** Appending is idempotent: once a record is stored or found under an
    unpadded idempotency key, any append with the same key, whatever else it
    says, returns that record and leaves the trail as it is. *)
Theorem append_idempotent input input' fresh fresh' clock clock' st st' r :
  trim (ai_key input) = ai_key input -> ai_key input' = ai_key input ->
  append input fresh clock st = (st', Ok (Some r)) ->
  append input' fresh' clock' st' = (st', Ok (Some r)).
Proof. apply append_again_same. Qed.
End audit_claims.

(** A record of an accepted move, under an idempotency key. *)
Definition wa_input (id key : string) (at_ : Z) : audit_input :=
  AuditInput (Some id) "ws-1" "node-1" "agent-1" "object-1" "resource" "move" ALLOW A_ACCEPTED (Some 3) None key
    None [] [] (Some (InText (Some at_))).
Definition wa_append (id key : string) (at_ : Z) (st : trail) : trail * result auth_error (option audit_record) :=
  append (zod := zod_ref) (wa_input id key at_) "audit:1" (InText (Some 0)) st.
Definition wa_trail : trail := (wa_append "a-2" "k-2" 2000 (wa_append "a-1" "k-1" 1000 (Trail [] [])).1).1.

Lemma wa_trail_steps : rtc (trail_step (zod := zod_ref)) (Trail [] []) wa_trail.
Proof.
  eapply rtc_l; [eapply trail_append with (input := wa_input "a-1" "k-1" 1000) (fresh := "audit:1") (clock := InText (Some 0));
                 [split; reflexivity | reflexivity]|].
  eapply rtc_l; [eapply trail_append with (input := wa_input "a-2" "k-2" 2000) (fresh := "audit:1") (clock := InText (Some 0));
                 [split; reflexivity | reflexivity]|].
  apply rtc_refl.
Defined.

Lemma audit_trail_consistent_witness :
  exists r, (wa_append "a-3" "k-1" 3000 wa_trail).2 = Ok (Some r) /\ idempotency_key r = "k-1".
Proof.
  pose proof (audit_trail_consistent (zod := zod_ref) wa_trail (wa_input "a-3" "k-1" 3000) "audit:1" (InText (Some 0))
                (wa_append "a-3" "k-1" 3000 wa_trail).1 (wa_append "a-3" "k-1" 3000 wa_trail).2 wa_trail_steps) as H.
  destruct H as [_ (r & Hr & Hk & _)]; [split; reflexivity | reflexivity |].
  exists r. split; [|exact Hk]. vm_compute. vm_compute in Hr. by rewrite <- Hr.
Defined.

Lemma purge_exact_witness :
  (purgeExpired 500 (Some 2000) wa_trail).2 = 1 /\ jget "a-1" (au_records (purgeExpired 500 (Some 2000) wa_trail).1) = None.
Proof.
  destruct (purge_exact (zod := zod_ref) wa_trail 500 (Some 2000) (purgeExpired 500 (Some 2000) wa_trail).1
              (purgeExpired 500 (Some 2000) wa_trail).2 wa_trail_steps) as (Hn & _ & _); [reflexivity|].
  split; [rewrite Hn; reflexivity | reflexivity].
Defined.

Lemma append_idempotent_witness :
  wa_append "a-9" "k-2" 9000 wa_trail = (wa_trail, Ok (jget "a-2" (au_records wa_trail))).
Proof.
  apply (append_idempotent (zod := zod_ref) (wa_input "a-2" "k-2" 2000) (wa_input "a-9" "k-2" 9000) "audit:1" "audit:1"
           (InText (Some 0)) (InText (Some 0)) (wa_append "a-1" "k-1" 1000 (Trail [] [])).1); reflexivity.
Defined.

(** The trail is not append-only for a reused audit id: a second record
    with the id of the first replaces it, and the first key then answers with
    the second record. *)
Theorem reused_audit_id_overwrites :
  let st := (wa_append "a-1" "k-2" 2000 (wa_append "a-1" "k-1" 1000 (Trail [] [])).1).1 in
  length (au_records st) = 1%nat /\
  (idempotency_key <$> jget "a-1" (au_records st)) = Some "k-2" /\
  exists r, (wa_append "a-3" "k-1" 3000 st).2 = Ok (Some r) /\ idempotency_key r = "k-2".
Proof. vm_compute. eauto. Qed.
