(* ===== verification/Reliability.v ===== *)
(** * Reliability incidents

    src/web/operator-dashboard/src/spatial/hardening/reliability.ts: the
    controller of fault incidents. An invariant record always has the seven
    names of [RELIABILITY_INVARIANTS] (the type of its inputs allows no other),
    so it is a function of the name and a patch is a list of assignments. *)

From stdpp Require Import relations.
From S2P Require Import Prelude.
From S2P Require Import Json.
From S2P Require Import Contracts.
From S2P Require Import Authorization.

#[local] Open Scope Z_scope.

(** ** Data *)

Inductive fault : Type :=
| EVENT_DISCONNECT | EVENT_REORDER | EVENT_DUPLICATE | API_PARTIAL_OUTAGE | AGENT_FAILURE | AGENT_REPLACED
| HOOK_DEAD_LETTER | WORKSPACE_CONFLICT | CORRUPT_PRESENTATION | STALE_STATUS | ENDPOINT_TIMEOUT
| MALICIOUS_REMOTE_OUTPUT | BROWSER_SLEEP | NODE_SWITCH | RENDERER_CONTEXT_LOSS.
#[export] Instance fault_eq_dec : EqDecision fault.
Proof. solve_decision. Defined.

Inductive incident_state : Type := OPEN | CONTAINED | RECOVERED | ESCALATED.
#[export] Instance incident_state_eq_dec : EqDecision incident_state.
Proof. solve_decision. Defined.

Inductive invariant : Type :=
| no_silent_data_loss | no_incorrect_green_status | no_duplicate_action | no_duplicate_charge
| recovery_visible | classic_fallback_available | renderer_rebuilds_from_canonical.
#[export] Instance invariant_eq_dec : EqDecision invariant.
Proof. solve_decision. Defined.

Inductive verdict_result : Type := PASS | FAIL | UNKNOWN_RESULT.
#[export] Instance verdict_result_eq_dec : EqDecision verdict_result.
Proof. solve_decision. Defined.

(** [RELIABILITY_RECOVERY_ACTIONS]. *)
Definition RELIABILITY_RECOVERY_ACTIONS (f : fault) : string :=
  match f with
  | EVENT_DISCONNECT => "pause-stream-and-reconnect"
  | EVENT_REORDER => "replay-from-last-revision"
  | EVENT_DUPLICATE => "dedupe-by-event-id"
  | API_PARTIAL_OUTAGE => "degrade-to-cached-read"
  | AGENT_FAILURE => "mark-agent-offline-and-retry-safe"
  | AGENT_REPLACED => "invalidate-grant-and-rebind"
  | HOOK_DEAD_LETTER => "hold-for-explicit-retry"
  | WORKSPACE_CONFLICT => "request-fresh-revision"
  | CORRUPT_PRESENTATION => "rebuild-from-canonical"
  | STALE_STATUS => "show-stale-and-refresh"
  | ENDPOINT_TIMEOUT => "cancel-without-duplicate-charge"
  | MALICIOUS_REMOTE_OUTPUT => "quarantine-remote-result"
  | BROWSER_SLEEP => "pause-and-reconcile-on-wake"
  | NODE_SWITCH => "invalidate-node-cache-and-reload"
  | RENDERER_CONTEXT_LOSS => "rebuild-renderer-from-canonical"
  end.

Definition RELIABILITY_INVARIANTS : list invariant :=
  [no_silent_data_loss; no_incorrect_green_status; no_duplicate_action; no_duplicate_charge;
   recovery_visible; classic_fallback_available; renderer_rebuilds_from_canonical].

Definition invariant_results : Type := invariant -> verdict_result.
Definition results_patch : Type := list (invariant * verdict_result).

Definition DEFAULT_INVARIANTS : invariant_results := fun _ => UNKNOWN_RESULT.

(** [{ ...record, ...patch }]: the last assignment of a name counts. *)
Definition merge (record : invariant_results) (patch : results_patch) : invariant_results :=
  foldl (fun r kv => fun i => if decide (i = kv.1) then kv.2 else r i) record patch.

(** [SpatialReliabilityIncident]. *)
Record incident : Type := Incident {
  incident_id : string;
  in_workspace : string;
  in_node : string;
  in_fault : fault;
  in_state : incident_state;
  recovery_action : string;
  in_results : invariant_results;
  in_source_revision : option Z;
  in_correlation : option string;
  opened_at : iso;
  updated_at : iso;
}.

(** [ReliabilityFaultInput]. *)
Record fault_input : Type := FaultInput {
  fi_workspace : string;
  fi_node : string;
  fi_correlation : option string;
  fi_source_revision : option Z;
  fi_now : option instant;
  fi_results : results_patch;
}.

Inductive rel_error : Type := UNKNOWN_INCIDENT | INVALID_INCIDENT | ACTION_MISMATCH | REL_RANGE_ERROR.
#[export] Instance rel_error_eq_dec : EqDecision rel_error.
Proof. solve_decision. Defined.

Record controller : Type := Controller {
  incidents : jsmap incident;
  actionKeys : list string;
}.

Definition new_controller : controller := Controller [] [].

Section controller.
Context {zod : Zod}.

(** [spatialReliabilityIncidentSchema]; the names of the invariant record are
    valid ids as they are. *)
Definition spatialReliabilityIncidentSchema (i : incident) : option incident :=
  id ← idSchema (incident_id i);
  ws ← idSchema (in_workspace i);
  node ← idSchema (in_node i);
  action ← idSchema (recovery_action i);
  rev ← nullable revisionSchema (in_source_revision i);
  corr ← nullable idSchema (in_correlation i);
  opened ← timestampSchema (opened_at i);
  updated ← timestampSchema (updated_at i);
  Some (Incident id ws node (in_fault i) (in_state i) action (in_results i) rev corr opened updated).

(** [isoNow(value, this.now)]: [clock] is the parsed text [this.now()] returns;
    when it does not parse the contract refuses it. *)
Definition rel_isoNow (v : option instant) (clock : option Z) : result rel_error iso :=
  match v with
  | Some (InDate d) => of_option d REL_RANGE_ERROR
  | Some (InText (Some t)) => Ok t
  | _ => of_option clock INVALID_INCIDENT
  end.

(** [parse, then incidents.set]. *)
Definition store_incident (i : incident) : method controller rel_error incident :=
  let! parsed := jlift (of_option (spatialReliabilityIncidentSchema i) INVALID_INCIDENT) in
  let! c := jread in
  jwrite (Controller (jset (incident_id parsed) parsed (incidents c)) (actionKeys c)) ;!
  jret parsed.

Definition open_incident (f : fault) (input : fault_input) (fresh : string) (clock : option Z)
  : method controller rel_error incident :=
  let! openedAt := jlift (rel_isoNow (fi_now input) clock) in
  store_incident (Incident fresh (fi_workspace input) (fi_node input) f OPEN (RELIABILITY_RECOVERY_ACTIONS f)
                    (merge DEFAULT_INVARIANTS (fi_results input)) (fi_source_revision input)
                    (fi_correlation input) openedAt openedAt).

Definition require_incident (id : string) (c : controller) : result rel_error incident :=
  of_option (jget id (incidents c)) UNKNOWN_INCIDENT.

Definition update_incident (i : incident) (st : incident_state) (patch : results_patch) (clock : option Z)
  : method controller rel_error incident :=
  let! t := jlift (of_option clock INVALID_INCIDENT) in
  store_incident (Incident (incident_id i) (in_workspace i) (in_node i) (in_fault i) st (recovery_action i)
                    (merge (in_results i) patch) (in_source_revision i) (in_correlation i) (opened_at i) t).

Definition all_pass (r : invariant_results) : bool :=
  forallb (fun name => bool_decide (r name = PASS)) RELIABILITY_INVARIANTS.

Definition contain (id : string) (patch : results_patch) (clock : option Z)
  : method controller rel_error incident :=
  let! c := jread in
  let! i := jlift (require_incident id c) in
  if decide (in_state i = RECOVERED) then jret i else update_incident i CONTAINED patch clock.

Definition recover (id : string) (patch : results_patch) (clock : option Z)
  : method controller rel_error incident :=
  let! c := jread in
  let! i := jlift (require_incident id c) in
  if all_pass (merge (in_results i) patch) then update_incident i RECOVERED patch clock
  else update_incident i ESCALATED patch clock.

(** The action key is spent before the incident is updated. *)
Definition executeRecovery (id actionKey : string) (clock : option Z) : method controller rel_error incident :=
  let! c := jread in
  let! i := jlift (require_incident id c) in
  if decide (in_state i = RECOVERED) then jret i
  else
    let key := id +:+ ":" +:+ actionKey in
    if decide (key ∈ actionKeys c) then jret i
    else
      jlift (require (str_eqb actionKey (recovery_action i)) ACTION_MISMATCH) ;!
      jwrite (Controller (incidents c) (actionKeys c ++ [key])) ;!
      update_incident i CONTAINED [(recovery_visible, PASS)] clock.

Definition get_incident (id : string) (c : controller) : option incident := jget id (incidents c).
Definition list_incidents (c : controller) : list incident := jvalues (incidents c).

Definition isSafeForGreen (id : string) (c : controller) : result rel_error bool :=
  let? i := require_incident id c in
  Ok (bool_decide (in_state i = RECOVERED) && all_pass (in_results i)).

Definition requireClassicFallback (id : string) (c : controller) : result rel_error bool :=
  let? i := require_incident id c in
  Ok (negb (bool_decide (in_state i = RECOVERED)) ||
      negb (bool_decide (in_results i classic_fallback_available = PASS))).

(** One call, returning or throwing. *)
Inductive rel_step (c : controller) : controller -> Prop :=
| rel_open f input fresh clock c' r : open_incident f input fresh clock c = (c', r) -> rel_step c c'
| rel_contain id patch clock c' r : contain id patch clock c = (c', r) -> rel_step c c'
| rel_recover id patch clock c' r : recover id patch clock c = (c', r) -> rel_step c c'
| rel_execute id action clock c' r : executeRecovery id action clock c = (c', r) -> rel_step c c'.

(** ** Properties *)

(** A recovered incident passes every invariant. *)
Definition green (i : incident) : Prop := in_state i = RECOVERED -> all_pass (in_results i) = true.
Definition all_green (c : controller) : Prop := jall (fun _ => green) (incidents c).

Lemma incidentSchema_keeps i j :
  spatialReliabilityIncidentSchema i = Some j -> in_state j = in_state i /\ in_results j = in_results i.
Proof. unfold spatialReliabilityIncidentSchema. intros H. inv_some. done. Qed.

Lemma store_incident_green i c c' r :
  green i -> all_green c -> store_incident i c = (c', r) -> all_green c' /\ incl (actionKeys c) (actionKeys c').
Proof.
  intros Hi Hc H. unfold store_incident in H. run_method H; (split; [|apply incl_refl]); [|done].
  apply jall_jset; [|done]. match goal with H : of_option _ _ = Ok _ |- _ => apply of_option_ok in H end.
  match goal with H : spatialReliabilityIncidentSchema _ = _ |- _ => apply incidentSchema_keeps in H as [Hs Hr] end.
  unfold green. by rewrite Hs, Hr.
Qed.

Lemma update_incident_green i st patch clock c c' r :
  (st = RECOVERED -> all_pass (merge (in_results i) patch) = true) -> all_green c ->
  update_incident i st patch clock c = (c', r) -> all_green c' /\ incl (actionKeys c) (actionKeys c').
Proof.
  intros Hi Hc H. unfold update_incident, jbind, jlift in H. destruct (of_option clock _).
  - by eapply store_incident_green in H.
  - simplify_eq. split; [done | apply incl_refl].
Qed.

Lemma rel_step_green c c' : all_green c -> rel_step c c' -> all_green c' /\ incl (actionKeys c) (actionKeys c').
Proof.
  intros Hc Hstep. destruct Hstep as [f input fresh clock c' r H|id patch clock c' r H|id patch clock c' r H
    |id action clock c' r H].
  - unfold open_incident, jbind, jlift in H. destruct (rel_isoNow _ _).
    + by eapply store_incident_green in H.
    + simplify_eq. split; [done | apply incl_refl].
  - unfold contain in H. run_method H; try (split; [done | apply incl_refl]).
    by apply update_incident_green in H.
  - unfold recover in H. run_method H; try (split; [done | apply incl_refl]); by apply update_incident_green in H.
  - unfold executeRecovery in H. run_method H; try (split; [done | apply incl_refl]).
    apply update_incident_green in H as [? Hk]; [|done|done]. split; [done|]. simpl in Hk.
    intros x Hx. apply Hk, in_or_app. by left.
Qed.

Lemma rel_steps_green c c' : all_green c -> rtc rel_step c c' -> all_green c' /\ incl (actionKeys c) (actionKeys c').
Proof.
  intros Hc H. induction H as [|c1 c2 c3 Hs _ IH]; [split; [done | apply incl_refl]|].
  destruct (rel_step_green _ _ Hc Hs) as [Hc2 Hk]. destruct (IH Hc2) as [? ?]. split; [done|]. by eapply incl_tran.
Qed.

(** Action keys are never forgotten. *)
Lemma store_incident_keys i c c' r : store_incident i c = (c', r) -> actionKeys c' = actionKeys c.
Proof. unfold store_incident. intros H. by run_method H. Qed.

Lemma update_incident_keys i st patch clock c c' r :
  update_incident i st patch clock c = (c', r) -> incl (actionKeys c) (actionKeys c').
Proof.
  unfold update_incident, jbind, jlift. intros H. destruct (of_option clock _).
  - apply store_incident_keys in H as ->. apply incl_refl.
  - simplify_eq. apply incl_refl.
Qed.

Lemma rel_step_keys c c' : rel_step c c' -> incl (actionKeys c) (actionKeys c').
Proof.
  intros [f input fresh clock c1 r H|id patch clock c1 r H|id patch clock c1 r H|id action clock c1 r H].
  - unfold open_incident in H. run_method H; try apply incl_refl. apply store_incident_keys in H as ->. apply incl_refl.
  - unfold contain in H. run_method H; try apply incl_refl. by apply update_incident_keys in H.
  - unfold recover in H. run_method H; try apply incl_refl; by apply update_incident_keys in H.
  - unfold executeRecovery in H. run_method H; try apply incl_refl. apply update_incident_keys in H. simpl in H.
    eapply incl_tran; [|exact H]. apply incl_appl, incl_refl.
Qed.

(** The update of a valid incident. *)
Lemma update_incident_ok i st patch t c :
  spatialReliabilityIncidentSchema i = Some i ->
  let i' := Incident (incident_id i) (in_workspace i) (in_node i) (in_fault i) st (recovery_action i)
              (merge (in_results i) patch) (in_source_revision i) (in_correlation i) (opened_at i) t in
  update_incident i st patch (Some t) c = (Controller (jset (incident_id i) i' (incidents c)) (actionKeys c), Ok i').
Proof.
  intros Hv. unfold update_incident, store_incident, jbind, jlift, jread, jwrite, jret, of_option.
  destruct i as [id ws node f st0 action results rev corr opened updated]. simpl.
  unfold spatialReliabilityIncidentSchema in *. simpl in *. inv_some. simplify_eq.
  repeat match goal with H : _ = Some _ |- _ => rewrite H; clear H; simpl end. done.
Qed.
End controller.
