(* ===== verification/ReliabilityProps.v ===== *)
(** * Properties of the reliability controller

    An incident is green only when all seven invariants pass; a recovery action
    runs at most once per incident id; what the call of the right action does;
    and a failed call that still spends the action. *)

From stdpp Require Import relations.
From S2P Require Import Prelude.
From S2P Require Import Json.
From S2P Require Import Contracts.
From S2P Require Import Authorization.
From S2P Require Import Reliability.

#[local] Open Scope Z_scope.

Lemma all_pass_iff r : all_pass r = true <-> forall name, r name = PASS.
Proof.
  unfold all_pass. rewrite List.forallb_forall. split.
  - intros H name. apply (bool_decide_eq_true (r name = PASS)), H. destruct name; simpl; tauto.
  - intros H name _. by apply bool_decide_eq_true.
Qed.

Section claims.
Context {zod : Zod}.

(** C9. No incident is green too early: in every state the controller can
    reach, by any sequence of calls (failed ones included), an incident that is
    RECOVERED has PASS on all seven safety invariants; so [isSafeForGreen]
    answers yes exactly for the recovered incidents, and those need no classic
    fallback. *)
Theorem green_only_when_recovered c id i :
  rtc rel_step new_controller c -> get_incident id c = Some i ->
  (in_state i = RECOVERED -> forall name, in_results i name = PASS) /\
  (isSafeForGreen id c = Ok true <-> in_state i = RECOVERED) /\
  (in_state i = RECOVERED -> requireClassicFallback id c = Ok false).
Proof.
  intros Hrun Hi. unfold get_incident in Hi.
  assert (green i) as Hg.
  { destruct (rel_steps_green new_controller c) as [H _]; [done|done|]. by eapply H. }
  unfold isSafeForGreen, requireClassicFallback, require_incident. rewrite Hi. simpl. split; [|split].
  - intros Hs. apply all_pass_iff, Hg, Hs.
  - split; [intros [= H]; by apply andb_true_iff in H as [?%bool_decide_eq_true _]|].
    intros Hs. by rewrite bool_decide_eq_true_2, Hg.
  - intros Hs. rewrite (proj1 (all_pass_iff _) (Hg Hs)). by rewrite !bool_decide_eq_true_2.
Qed.

(** A recovery action runs at most once: after [executeRecovery] has
    returned for an incident that was not recovered yet, and whatever calls
    follow, calling it again with the same incident and action returns the
    incident as it is and changes nothing. *)
Theorem recovery_runs_once id action clock clock' c c1 c2 i i1 i2 :
  get_incident id c = Some i -> in_state i <> RECOVERED ->
  executeRecovery id action clock c = (c1, Ok i1) ->
  rtc rel_step c1 c2 -> get_incident id c2 = Some i2 ->
  executeRecovery id action clock' c2 = (c2, Ok i2).
Proof.
  intros Hi Hs Hexec Hrun Hi2. unfold get_incident in *.
  assert (forall c c', rtc rel_step c c' -> incl (actionKeys c) (actionKeys c')) as Hkeys.
  { intros x y Hxy. induction Hxy as [|x y z Hstep _ IH]; [apply incl_refl|]. eapply incl_tran; [|exact IH].
    by eapply rel_step_keys. }
  assert ((id +:+ ":" +:+ action) ∈ actionKeys c1) as Hin.
  { unfold executeRecovery, require_incident, jbind, jread, jlift, jwrite, jret in Hexec. rewrite Hi in Hexec.
    simpl in Hexec. rewrite decide_False in Hexec by done. case_decide; [by simplify_eq|].
    destruct (require _ _); [|done]. apply update_incident_keys in Hexec. simpl in Hexec.
    apply list_elem_of_In, Hexec, list_elem_of_In. set_solver. }
  unfold executeRecovery, require_incident, jbind, jread, jlift, jret. rewrite Hi2. simpl.
  case_decide; [done|]. rewrite decide_True; [done|]. apply list_elem_of_In, (Hkeys _ _ Hrun), list_elem_of_In. done.
Qed.

(** The right action contains the incident: for an incident that is
    neither recovered nor acted on, [executeRecovery] with a valid clock
    refuses every action but the one of its record without any change; with
    that action it marks the incident CONTAINED and its recovery visible, and
    leaves every other invariant result and every other incident alone. *)
Theorem recovery_contains id action t c i :
  get_incident id c = Some i -> spatialReliabilityIncidentSchema i = Some i -> incident_id i = id ->
  in_state i <> RECOVERED -> (id +:+ ":" +:+ action) ∉ actionKeys c ->
  (action <> recovery_action i -> executeRecovery id action (Some t) c = (c, Err ACTION_MISMATCH)) /\
  (action = recovery_action i -> exists c' i',
     executeRecovery id action (Some t) c = (c', Ok i') /\ get_incident id c' = Some i' /\
     in_state i' = CONTAINED /\ in_results i' recovery_visible = PASS /\ updated_at i' = t /\
     (forall name, name <> recovery_visible -> in_results i' name = in_results i name) /\
     (forall id', id' <> id -> get_incident id' c' = get_incident id' c)).
Proof.
  intros Hi Hv Hid Hs Hk. unfold get_incident in *. unfold executeRecovery, require_incident.
  unfold jbind, jread, jlift, jwrite. rewrite Hi. simpl. rewrite !decide_False by done. unfold str_eqb. split.
  - intros Ha. by rewrite bool_decide_eq_false_2.
  - intros ->. rewrite bool_decide_eq_true_2 by done. simpl.
    rewrite (update_incident_ok i) by done. eexists _, _. split; [reflexivity|]. simpl. rewrite Hid. repeat split.
    + by rewrite jget_jset_eq.
    + intros name Hn. by rewrite decide_False.
    + intros id' Hn. by rewrite jget_jset_ne.
Qed.
End claims.

(** ** A concrete incident *)

Definition wr_input : fault_input := FaultInput "ws-1" "node-1" None (Some 4) None [].
Definition wr_open : controller := (open_incident (zod := zod_ref) EVENT_REORDER wr_input "incident:1" (Some 100) new_controller).1.
Definition wr_incident : incident :=
  Incident "incident:1" "ws-1" "node-1" EVENT_REORDER OPEN "replay-from-last-revision" (merge DEFAULT_INVARIANTS [])
    (Some 4) None 100 100.
Definition wr_patch : results_patch := map (fun name => (name, PASS)) RELIABILITY_INVARIANTS.
Definition wr_recovered : controller := (recover (zod := zod_ref) "incident:1" wr_patch (Some 200) wr_open).1.

Lemma green_only_when_recovered_witness : isSafeForGreen "incident:1" wr_recovered = Ok true.
Proof.
  pose (i := default wr_incident (get_incident "incident:1" wr_recovered)).
  destruct (green_only_when_recovered (zod := zod_ref) wr_recovered "incident:1" i) as (_ & [_ Hsafe] & _).
  - eapply rtc_l; [eapply (rel_open _ EVENT_REORDER wr_input "incident:1" (Some 100)); reflexivity|].
    eapply rtc_l; [eapply (rel_recover _ "incident:1" wr_patch (Some 200)); reflexivity|]. apply rtc_refl.
  - reflexivity.
  - apply Hsafe. reflexivity.
Defined.

Definition wr_executed : controller * result rel_error incident :=
  executeRecovery (zod := zod_ref) "incident:1" "replay-from-last-revision" (Some 150) wr_open.
Definition wr_executed_incident : incident := default wr_incident (get_incident "incident:1" wr_executed.1).

Lemma recovery_runs_once_witness :
  executeRecovery (zod := zod_ref) "incident:1" "replay-from-last-revision" (Some 300) wr_executed.1 =
  (wr_executed.1, Ok wr_executed_incident).
Proof.
  apply (recovery_runs_once (zod := zod_ref) "incident:1" "replay-from-last-revision" (Some 150) (Some 300) wr_open
           wr_executed.1 wr_executed.1 wr_incident wr_executed_incident wr_executed_incident);
    [reflexivity | discriminate | reflexivity | apply rtc_refl | reflexivity].
Defined.

Lemma recovery_contains_witness :
  exists i', wr_executed.2 = Ok i' /\ in_state i' = CONTAINED /\ in_results i' recovery_visible = PASS.
Proof.
  destruct (recovery_contains (zod := zod_ref) "incident:1" "replay-from-last-revision" 150 wr_open wr_incident)
    as [_ Hright]; [reflexivity | reflexivity | reflexivity | discriminate | | ].
  - change (actionKeys wr_open) with (@nil string). apply not_elem_of_nil.
  - destruct (Hright eq_refl) as (c' & i' & Hrun & _ & Hs & Hv & _). exists i'.
    split; [unfold wr_executed; by rewrite Hrun | done].
Defined.

(** A failed recovery is spent: when the clock returns no date the call
    throws after the action key is recorded, the incident stays OPEN, and the
    same call with a good clock then returns the open incident as if it had been
    acted on. *)
Theorem failed_recovery_is_spent :
  let execute := executeRecovery (zod := zod_ref) "incident:1" "replay-from-last-revision" in
  let failed := execute None wr_open in
  failed.2 = Err INVALID_INCIDENT /\
  (execute (Some 300) failed.1).1 = failed.1 /\
  exists i, (execute (Some 300) failed.1).2 = Ok i /\ in_state i = OPEN /\ in_results i recovery_visible = UNKNOWN_RESULT.
Proof. split; [reflexivity|]. split; [reflexivity|]. eexists. split; [reflexivity|]. split; reflexivity. Qed.
