(* ===== verification/Registry.v ===== *)
(** * The canonical reference registry

    src/web/operator-dashboard/src/spatial/topology/reference-registry.ts: the
    identities of a workspace, the history of their revisions and the lookup
    telemetry, with the properties of the registry. *)

From stdpp Require Import relations pretty.
From S2P Require Import Prelude.
From S2P Require Import Json.
From S2P Require Import Contracts.

#[local] Open Scope Z_scope.

(** ** Data *)

Inductive entity_kind : Type := ek_agent | ek_endpoint | ek_service | ek_session | ek_artifact | ek_attention.
#[export] Instance entity_kind_eq_dec : EqDecision entity_kind.
Proof. solve_decision. Defined.

Inductive projection_kind : Type := PRIMARY | CONTEXT | SUMMARY | FOCUS.
#[export] Instance projection_kind_eq_dec : EqDecision projection_kind.
Proof. solve_decision. Defined.

Inductive reference_state : Type := R_AVAILABLE | R_UNAVAILABLE | R_TOMBSTONE.
#[export] Instance reference_state_eq_dec : EqDecision reference_state.
Proof. solve_decision. Defined.

(** [SpatialCanonicalReference]. *)
Record reference : Type := Reference {
  rf_workspace : string;
  rf_node : string;
  canonical_ref : string;
  entity_id : string;
  rf_kind : entity_kind;
  rf_revision : Z;
  rf_projection : projection_kind;
  rf_state : reference_state;
  first_seen_at : iso;
  rf_last_seen_at : iso;
  rf_provenance : option string;
}.
#[export] Instance reference_eq_dec : EqDecision reference.
Proof. solve_decision. Defined.

(** [CanonicalReferenceInput]. *)
Record reference_input : Type := ReferenceInput {
  ref_canonical : string;
  ref_entity : string;
  ref_kind : entity_kind;
  ref_revision : number;
  ref_projection : option projection_kind;
  ref_state : option reference_state;
  ref_provenance : option string;
}.

(** [CanonicalRegistryTelemetry]. *)
Record telemetry : Type := Telemetry {
  discoveries : Z;
  duplicateDiscoveries : Z;
  staleDiscoveries : Z;
  projectionDeletes : Z;
  crossWorkspaceLookups : Z;
}.

Inductive registry_error : Type := SCOPE_MISMATCH | INVALID_REFERENCE | UNKNOWN_REFERENCE | REG_RANGE_ERROR.
#[export] Instance registry_error_eq_dec : EqDecision registry_error.
Proof. solve_decision. Defined.

(** The inner [Map<number, ...>] of the history. *)
Definition revision_map : Type := list (Z * reference).

Fixpoint rget (k : Z) (m : revision_map) : option reference :=
  match m with
  | [] => None
  | (k', v) :: m => if bool_decide (k' = k) then Some v else rget k m
  end.

Fixpoint rset (k : Z) (v : reference) (m : revision_map) : revision_map :=
  match m with
  | [] => [(k, v)]
  | (k', v') :: m => if bool_decide (k' = k) then (k', v) :: m else (k', v') :: rset k v m
  end.

Lemma rget_rset k k' v m : rget k' (rset k v m) = if bool_decide (k = k') then Some v else rget k' m.
Proof.
  induction m as [|[k0 v0] m IH]; simpl; [done|].
  destruct (bool_decide (k0 = k)) eqn:H0; simpl; rewrite ?IH;
    [apply bool_decide_eq_true in H0 | apply bool_decide_eq_false in H0]; repeat case_bool_decide; subst; done.
Qed.

Record registry : Type := Registry {
  rg_workspace : string;
  rg_node : string;
  rg_records : jsmap reference;
  rg_history : jsmap revision_map;
  rg_telemetry : telemetry;
}.

Definition set_telemetry (t : telemetry) (g : registry) : registry :=
  Registry (rg_workspace g) (rg_node g) (rg_records g) (rg_history g) t.
Definition set_rg_history (h : jsmap revision_map) (g : registry) : registry :=
  Registry (rg_workspace g) (rg_node g) (rg_records g) h (rg_telemetry g).
Definition set_rg_records (m : jsmap reference) (g : registry) : registry :=
  Registry (rg_workspace g) (rg_node g) m (rg_history g) (rg_telemetry g).

Definition new_registry (workspaceId nodeId : string) : result registry_error registry :=
  require (negb (str_eqb (trim workspaceId) "") && negb (str_eqb (trim nodeId) "")) SCOPE_MISMATCH ;?
  Ok (Registry (trim workspaceId) (trim nodeId) [] [] (Telemetry 0 0 0 0 0)).

(** [recordKey]. *)
Definition recordKey (g : registry) (ref : string) : string := rg_workspace g +:+ ":" +:+ ref.

Section registry.
Context {zod : Zod}.

Definition spatialCanonicalReferenceSchema (r : reference) : option reference :=
  ws ← idSchema (rf_workspace r);
  node ← idSchema (rf_node r);
  ref ← idSchema (canonical_ref r);
  entity ← idSchema (entity_id r);
  rev ← revisionSchema (rf_revision r);
  first ← timestampSchema (first_seen_at r);
  last ← timestampSchema (rf_last_seen_at r);
  prov ← nullable idSchema (rf_provenance r);
  Some (Reference ws node ref entity (rf_kind r) rev (rf_projection r) (rf_state r) first last prov).

Definition count_discovery (duplicate stale : bool) (t : telemetry) : telemetry :=
  Telemetry (discoveries t + 1) (duplicateDiscoveries t + if duplicate then 1 else 0)
    (staleDiscoveries t + if stale then 1 else 0) (projectionDeletes t) (crossWorkspaceLookups t).

(** [{ ...current, revision, last_seen_at }]. *)
Definition seen_again (r : reference) (revision : Z) (t : iso) : reference :=
  Reference (rf_workspace r) (rf_node r) (canonical_ref r) (entity_id r) (rf_kind r) revision (rf_projection r)
    (rf_state r) (first_seen_at r) t (rf_provenance r).

(** The branch of a revision older than the current one. *)
Definition discover_stale (key : string) (current : reference) (revision : Z) (t : iso) (g : registry) : registry :=
  match jget key (rg_history g) with
  | Some m => set_rg_history (jset key (rset revision (seen_again current revision t) m) (rg_history g)) g
  | None => g
  end.

Definition store_reference (key : string) (r : reference) (g : registry) : registry :=
  set_rg_history (jset key (rset (rf_revision r) r (default [] (jget key (rg_history g)))) (rg_history g))
    (set_rg_records (jset key r (rg_records g)) g).

Definition nonneg_int (n : number) : option Z :=
  match n with NInt z => if bool_decide (0 <= z) then Some z else None | NOther => None end.

(** [discover(input)], also [register]. *)
Definition discover (input : reference_input) (now : date) : method registry registry_error reference :=
  let ref := trim (ref_canonical input) in
  let entity := trim (ref_entity input) in
  jlift (require (negb (str_eqb ref "") && negb (str_eqb entity "")) INVALID_REFERENCE) ;!
  let! revision := jlift (of_option (nonneg_int (ref_revision input)) INVALID_REFERENCE) in
  let! t := jlift (of_option now REG_RANGE_ERROR) in
  let! g := jread in
  let key := recordKey g ref in
  let current := jget key (rg_records g) in
  let stale := match current with Some c => bool_decide (revision < rf_revision c) | None => false end in
  jwrite (set_telemetry (count_discovery (bool_decide (is_Some current)) stale (rg_telemetry g)) g) ;!
  let! g := jread in
  match current, stale with
  | Some c, true => jwrite (discover_stale key c revision t g) ;! jret c
  | _, _ =>
      let! parsed := jlift (of_option (spatialCanonicalReferenceSchema
        (Reference (rg_workspace g) (rg_node g) ref entity (ref_kind input) revision
           (default (default PRIMARY (rf_projection <$> current)) (ref_projection input))
           (default (default R_AVAILABLE (rf_state <$> current)) (ref_state input))
           (default t (first_seen_at <$> current)) t
           (match ref_provenance input with Some p => Some p | None => c ← current; rf_provenance c end)))
        INVALID_REFERENCE) in
      jwrite (store_reference key parsed g) ;!
      jret parsed
  end.

Definition with_projection (p : projection_kind) (r : reference) : reference :=
  Reference (rf_workspace r) (rf_node r) (canonical_ref r) (entity_id r) (rf_kind r) (rf_revision r) p
    (rf_state r) (first_seen_at r) (rf_last_seen_at r) (rf_provenance r).

(** [resolve(canonicalRef, projectionKind)]; [primaryPresence] is the default. *)
Definition resolve (ref : string) (p : projection_kind) (g : registry) : result registry_error reference :=
  let? r := of_option (jget (recordKey g (trim ref)) (rg_records g)) UNKNOWN_REFERENCE in
  Ok (with_projection p r).

Definition resolveInScope (workspaceId nodeId ref : string) : method registry registry_error (option reference) :=
  let! g := jread in
  if str_eqb workspaceId (rg_workspace g) && str_eqb nodeId (rg_node g) then
    match jget (recordKey g (trim ref)) (rg_records g) with
    | Some _ => let! r := jlift (resolve ref PRIMARY g) in jret (Some r)
    | None => jret None
    end
  else
    let t := rg_telemetry g in
    jwrite (set_telemetry (Telemetry (discoveries t) (duplicateDiscoveries t) (staleDiscoveries t)
                             (projectionDeletes t) (crossWorkspaceLookups t + 1)) g) ;!
    jret None.

Definition inspectRevision (ref : string) (revision : Z) (g : registry) : result registry_error reference :=
  of_option (m ← jget (recordKey g (trim ref)) (rg_history g); rget revision m) UNKNOWN_REFERENCE.

(** [tombstone(canonicalRef, revision)], for an integer revision. *)
Definition tombstone (ref : string) (revision : Z) (now : date) : method registry registry_error reference :=
  let! g := jread in
  let! current := jlift (resolve ref PRIMARY g) in
  discover (ReferenceInput (canonical_ref current) (entity_id current) (rf_kind current)
              (NInt (Z.max revision (rf_revision current))) None (Some R_TOMBSTONE) (rf_provenance current)) now.

(** [deletePresentation]: the canonical record stays. *)
Definition deletePresentation (ref : string) : method registry registry_error reference :=
  let! g := jread in
  let t := rg_telemetry g in
  jwrite (set_telemetry (Telemetry (discoveries t) (duplicateDiscoveries t) (staleDiscoveries t)
                           (projectionDeletes t + 1) (crossWorkspaceLookups t)) g) ;!
  let! g := jread in
  jlift (resolve ref PRIMARY g).

Definition registry_list (g : registry) : list reference := jvalues (rg_records g).

(** One call, returning or throwing. *)
Inductive registry_step (g : registry) : registry -> Prop :=
| reg_discover input now g' r : discover input now g = (g', r) -> registry_step g g'
| reg_tombstone ref rev now g' r : tombstone ref rev now g = (g', r) -> registry_step g g'
| reg_delete ref g' r : deletePresentation ref g = (g', r) -> registry_step g g'
| reg_scope ws node ref g' r : resolveInScope ws node ref g = (g', r) -> registry_step g g'.

(** ** Properties *)

(** Each record is the entry of the history at its revision. *)
Definition history_ok (g : registry) : Prop :=
  forall key r, jget key (rg_records g) = Some r ->
    exists m, jget key (rg_history g) = Some m /\ rget (rf_revision r) m = Some r.

(** What later calls do to a record. *)
Definition reference_later (r r' : reference) : Prop :=
  rf_revision r <= rf_revision r' /\ first_seen_at r' = first_seen_at r.

Definition registry_grows (g g' : registry) : Prop :=
  rg_workspace g' = rg_workspace g /\
  forall key r, jget key (rg_records g) = Some r ->
    exists r', jget key (rg_records g') = Some r' /\ reference_later r r'.

Lemma reference_later_refl r : reference_later r r.
Proof. split; [lia | done]. Qed.

Lemma registry_grows_same g g' :
  rg_workspace g' = rg_workspace g -> rg_records g' = rg_records g -> registry_grows g g'.
Proof. intros Hw Hr. split; [done|]. intros key r H. exists r. rewrite Hr. split; [done | apply reference_later_refl]. Qed.

Lemma registry_grows_trans g1 g2 g3 : registry_grows g1 g2 -> registry_grows g2 g3 -> registry_grows g1 g3.
Proof.
  intros [Hw1 H1] [Hw2 H2]. split; [congruence|]. intros key r Hr.
  destruct (H1 key r Hr) as (r2 & Hr2 & ? & ?). destruct (H2 key r2 Hr2) as (r3 & Hr3 & ? & ?).
  exists r3. split; [done|]. split; [lia | congruence].
Qed.

Lemma discover_stale_ok key c revision t g :
  history_ok g -> jget key (rg_records g) = Some c -> revision < rf_revision c ->
  history_ok (discover_stale key c revision t g) /\ registry_grows g (discover_stale key c revision t g).
Proof.
  intros Hok Hc Hlt. unfold discover_stale. destruct (jget key (rg_history g)) as [m|] eqn:Hm.
  2:{ split; [done | by apply registry_grows_same]. }
  split; [|by apply registry_grows_same]. intros k r Hr. simpl in *.
  destruct (Hok k r Hr) as (m' & Hm' & Hget). rewrite jget_jset. unfold str_eqb. case_bool_decide as Hk.
  - subst k. eexists. split; [done|]. rewrite rget_rset. simplify_eq. rewrite bool_decide_eq_false_2 by lia. done.
  - by exists m'.
Qed.

Lemma store_reference_ok key r g :
  history_ok g ->
  (forall c, jget key (rg_records g) = Some c -> reference_later c r) ->
  history_ok (store_reference key r g) /\ registry_grows g (store_reference key r g).
Proof.
  intros Hok Hlater. unfold store_reference. split.
  - intros k c. simpl. rewrite !jget_jset. unfold str_eqb. case_bool_decide as Hk.
    + intros [= <-]. eexists. split; [done|]. rewrite rget_rset. by rewrite bool_decide_eq_true_2.
    + intros Hc. destruct (Hok k c Hc) as (m & Hm & Hget). by exists m.
  - split; [done|]. intros k c Hc. simpl. rewrite jget_jset. unfold str_eqb. case_bool_decide as Hk.
    + subst k. exists r. split; [done | by apply Hlater].
    + exists c. split; [done | apply reference_later_refl].
Qed.

Lemma referenceSchema_keeps (laws : ZodLaws zod) r r' :
  spatialCanonicalReferenceSchema r = Some r' ->
  rf_revision r' = rf_revision r /\ first_seen_at r' = first_seen_at r /\ rf_state r' = rf_state r.
Proof.
  unfold spatialCanonicalReferenceSchema, timestampSchema, revisionSchema. intros H. inv_some. simpl.
  match goal with H : z_nonneg _ = Some _ |- _ => apply z_nonneg_sound in H as [-> _] end. by simplify_eq.
Qed.

Lemma referenceSchema_fields (laws : ZodLaws zod) r r' :
  spatialCanonicalReferenceSchema r = Some r' ->
  rf_revision r' = rf_revision r /\ rf_kind r' = rf_kind r /\ entity_id r' = trim (entity_id r).
Proof.
  unfold spatialCanonicalReferenceSchema, timestampSchema, revisionSchema. intros H. inv_some. simpl.
  match goal with H : z_nonneg _ = Some _ |- _ => apply z_nonneg_sound in H as [-> _] end.
  match goal with H : idSchema (entity_id _) = Some _ |- _ => apply idSchema_spec in H as [-> _] end. done.
Qed.

Lemma discover_ok (laws : ZodLaws zod) input now g g' r :
  history_ok g -> discover input now g = (g', r) -> history_ok g' /\ registry_grows g g'.
Proof.
  intros Hok H. unfold discover in H. unfold jbind, jlift, jread, jwrite, jret in H.
  destruct (require _ _); [|simplify_eq; split; [done | by apply registry_grows_same]].
  destruct (nonneg_int (ref_revision input)) as [rev|]; simpl in H;
    [|simplify_eq; split; [done | by apply registry_grows_same]].
  destruct now as [t|]; simpl in H; [|simplify_eq; split; [done | by apply registry_grows_same]].
  set (g1 := set_telemetry _ g) in H. set (key := recordKey g _) in H.
  assert (history_ok g1 /\ registry_grows g g1) as [Hok1 Hg1] by (split; [done | by apply registry_grows_same]).
  destruct (jget key (rg_records g)) as [c|] eqn:Hc; simpl in H.
  - case_bool_decide as Hlt.
    + simplify_eq. destruct (discover_stale_ok key c rev t g1 Hok1 Hc Hlt) as [? ?].
      split; [done | apply (registry_grows_trans _ g1 _ Hg1); assumption].
    + destruct (spatialCanonicalReferenceSchema _) as [p|] eqn:Hp; simpl in H; simplify_eq; [|by split].
      apply referenceSchema_keeps in Hp as (Hrev & Hf & _); [|done]. simpl in Hrev, Hf.
      destruct (store_reference_ok key p g1 Hok1) as [? ?].
      { intros c' Hc'. change (jget key (rg_records g) = Some c') in Hc'. simplify_eq. split; [lia | done]. }
      split; [done | apply (registry_grows_trans _ g1 _ Hg1); assumption].
  - destruct (spatialCanonicalReferenceSchema _) as [p|] eqn:Hp; simpl in H; simplify_eq; [|by split].
    destruct (store_reference_ok key p g1 Hok1) as [? ?].
    { intros c' Hc'. change (jget key (rg_records g) = Some c') in Hc'. congruence. }
    split; [done | apply (registry_grows_trans _ g1 _ Hg1); assumption].
Qed.

Lemma discover_workspace input now g g' r : discover input now g = (g', r) -> rg_workspace g' = rg_workspace g.
Proof.
  unfold discover, jbind, jlift, jread, jwrite, jret. destruct (require _ _); [|by intros [= <- _]].
  destruct (nonneg_int _); cbn; [|by intros [= <- _]]. destruct now; cbn; [|by intros [= <- _]].
  destruct (jget _ (rg_records g)); cbn; [case_bool_decide; cbn; [unfold discover_stale; destruct (jget _ _); by intros [= <- _]|]|];
    destruct (spatialCanonicalReferenceSchema _); by intros [= <- _].
Qed.

(** A discovery writes at most the record of its reference, and never goes back
    a revision. *)
Lemma discover_writes (laws : ZodLaws zod) input now g g' r :
  discover input now g = (g', r) ->
  let key := recordKey g (trim (ref_canonical input)) in
  (rg_records g' = rg_records g /\
     forall x, r = Ok x -> exists rev, ref_revision input = NInt rev /\ jget key (rg_records g) = Some x /\ rev < rf_revision x) \/
  exists x, r = Ok x /\ rg_records g' = jset key x (rg_records g) /\ ref_revision input = NInt (rf_revision x) /\
    rf_kind x = ref_kind input /\ entity_id x = trim (ref_entity input) /\
    forall c, jget key (rg_records g) = Some c -> rf_revision c <= rf_revision x.
Proof.
  intros H key. unfold discover in H. unfold jbind, jlift, jread, jwrite, jret in H.
  destruct (require _ _); [|simplify_eq; by left].
  unfold nonneg_int in H. destruct (ref_revision input) as [rev|]; [case_bool_decide|]; simpl in H; [|simplify_eq; by left..].
  destruct now as [t|]; simpl in H; [|simplify_eq; by left]. fold key in H.
  destruct (jget key (rg_records g)) as [c|] eqn:Hc; simpl in H; [case_bool_decide as Hlt|].
  - injection H as <- <-. left. split; [unfold discover_stale; by destruct (jget key (rg_history _))|]. intros x [= <-]. by exists rev.
  - destruct (spatialCanonicalReferenceSchema _) as [p|] eqn:Hp; simpl in H; simplify_eq; [|by left].
    right. exists p. apply referenceSchema_fields in Hp; [|done]. simpl in Hp. destruct Hp as (-> & -> & ->).
    split_and!; try done; [by rewrite trim_idem|]. intros c' [= <-]. lia.
  - destruct (spatialCanonicalReferenceSchema _) as [p|] eqn:Hp; simpl in H; simplify_eq; [|by left].
    right. exists p. apply referenceSchema_fields in Hp; [|done]. simpl in Hp. destruct Hp as (-> & -> & ->).
    split_and!; try done; by rewrite trim_idem.
Qed.

Lemma registry_step_ok (laws : ZodLaws zod) g g' :
  history_ok g -> registry_step g g' -> history_ok g' /\ registry_grows g g'.
Proof.
  intros Hok [input now g1 r H|ref rev now g1 r H|ref g1 r H|ws node ref g1 r H].
  - by eapply discover_ok.
  - unfold tombstone, jbind, jread, jlift in H. destruct (resolve _ _ _).
    + by eapply discover_ok in H.
    + simplify_eq. split; [done | by apply registry_grows_same].
  - unfold deletePresentation, jbind, jread, jlift, jwrite in H. simplify_eq. split; [done | by apply registry_grows_same].
  - unfold resolveInScope in H. run_method H; (split; [done | by apply registry_grows_same]).
Qed.

Lemma registry_steps_ok (laws : ZodLaws zod) g g' :
  history_ok g -> rtc registry_step g g' -> history_ok g' /\ registry_grows g g'.
Proof.
  intros Hok H. induction H as [|g1 g2 g3 Hs _ IH]; [split; [done | by apply registry_grows_same]|].
  destruct (registry_step_ok laws _ _ Hok Hs) as [Hok2 Hg2]. destruct (IH Hok2) as [? ?].
  split; [done | apply (registry_grows_trans _ g2 _ Hg2); assumption].
Qed.

(** Identities are durable: in every history of calls on a registry, a
    reference once discovered stays resolvable, presentation deletions and
    tombstones included; its revision never goes down, it keeps the time it was
    first seen, and the history returns the current record at the current
    revision. *)
Theorem references_are_durable (laws : ZodLaws zod) workspaceId nodeId g0 g g' ref r :
  new_registry workspaceId nodeId = Ok g0 -> rtc registry_step g0 g -> rtc registry_step g g' ->
  resolve ref PRIMARY g = Ok r ->
  exists r', resolve ref PRIMARY g' = Ok r' /\
    rf_revision r <= rf_revision r' /\ first_seen_at r' = first_seen_at r /\
    (with_projection PRIMARY <$> match inspectRevision ref (rf_revision r') g' with Ok x => Some x | Err _ => None end)
      = Some r'.
Proof.
  intros Hnew H1 H2 Hr. unfold new_registry in Hnew. inv_ok.
  assert (history_ok g) as Hok by (refine (proj1 (registry_steps_ok laws _ _ _ H1)); intros ? ? [=]).
  destruct (registry_steps_ok laws _ _ Hok H2) as [Hok' [Hw Hg]].
  unfold resolve, recordKey in *. inv_ok. rename x into c. match goal with H : jget _ _ = Some c |- _ => rename H into Hc end.
  destruct (Hg _ _ Hc) as (c' & Hc' & Hrev & Hf). exists (with_projection PRIMARY c'). rewrite Hw, Hc'. simpl.
  split; [done|]. split; [done|]. split; [done|]. unfold inspectRevision, recordKey. rewrite Hw.
  destruct (Hok' _ _ Hc') as (m & Hm & Hget). rewrite Hm. simpl. by rewrite Hget.
Qed.
End registry.

Module RegistryWitness.
Definition found (entity : string) (revision : Z) : reference_input :=
  ReferenceInput "ref-1" entity ek_session (NInt revision) None None None.
Definition empty_registry : registry := Registry "w" "n" [] [] (Telemetry 0 0 0 0 0).
Definition found_once : registry := (discover (zod := zod_ref) (found "e1" 1) (Some 10) empty_registry).1.
Definition found_twice : registry := (discover (zod := zod_ref) (found "e2" 2) (Some 20) found_once).1.
Definition hidden : registry := (deletePresentation "ref-1" found_twice).1.
Definition buried : registry := (tombstone (zod := zod_ref) "ref-1" 3 (Some 30) hidden).1.

Lemma buried_reached : rtc (registry_step (zod := zod_ref)) found_once buried.
Proof.
  apply (rtc_l _ found_once found_twice); [exact (reg_discover _ (found "e2" 2) (Some 20) _ _ (surjective_pairing _))|].
  apply (rtc_l _ found_twice hidden); [exact (reg_delete _ "ref-1" _ _ (surjective_pairing _))|].
  apply (rtc_l _ hidden buried); [exact (reg_tombstone _ "ref-1" 3 (Some 30) _ _ (surjective_pairing _))|]. apply rtc_refl.
Defined.

Definition the_ref : reference :=
  Reference "w" "n" "ref-1" "e1" ek_session 1 PRIMARY R_AVAILABLE 10 10 None.

Lemma references_are_durable_witness :
  exists r', resolve "ref-1" PRIMARY buried = Ok r' /\
    1 <= rf_revision r' /\ first_seen_at r' = 10 /\
    (with_projection PRIMARY <$> match inspectRevision "ref-1" (rf_revision r') buried with Ok x => Some x | Err _ => None end)
      = Some r'.
Proof.
  apply (references_are_durable (zod := zod_ref) _ "w" "n" empty_registry found_once buried "ref-1" the_ref).
  - reflexivity.
  - eapply rtc_l; [eapply (reg_discover _ (found "e1" 1) (Some 10)); apply surjective_pairing|]. apply rtc_refl.
  - apply buried_reached.
  - vm_compute. reflexivity.
Defined.

(** A discovery older than the current revision replaces the entry of its
    revision in the history by the current record: revision 1 named entity e1
    before the call and names e2 after it. *)
Theorem stale_discovery_rewrites_history :
  (entity_id <$> rget 1 (default [] (jget "w:ref-1" (rg_history found_twice)))) = Some "e1"%string /\
  let g := (discover (zod := zod_ref) (found "e1" 1) (Some 30) found_twice).1 in
  (entity_id <$> rget 1 (default [] (jget "w:ref-1" (rg_history g)))) = Some "e2"%string /\
  first_seen_at <$> rget 1 (default [] (jget "w:ref-1" (rg_history g))) = Some 10.
Proof. vm_compute. done. Qed.
End RegistryWitness.
