(* ===== verification/Recovery.v ===== *)
(** * Recovery commands and the Status to Workspace bridge

    src/web/operator-dashboard/src/spatial/status/recovery.ts: recovery plans,
    their application around the awaited handler, the audit, and the bridge
    that turns a Status entry into a viewport request on the reference
    registry. A revision prints as its decimal digits. *)

From stdpp Require Import relations pretty.
From S2P Require Import Prelude.
From S2P Require Import Json.
From S2P Require Import Contracts.
From S2P Require Import Binding.
From S2P Require Import Registry.

#[local] Open Scope Z_scope.

(** ** Data *)

Inductive action : Type :=
| RESTART_SERVICE | STOP_UNSAFE_RUNTIME | SUSPEND_AGENT_BINDING | REVOKE_BINDING_CREDENTIALS
| DISABLE_HOOK | RETRY_HOOK_DEAD_LETTER | BLOCK_REMOTE_ENDPOINT | RETURN_TO_CLASSIC.
#[export] Instance action_eq_dec : EqDecision action.
Proof. solve_decision. Defined.

Definition action_name (a : action) : string :=
  match a with
  | RESTART_SERVICE => "RESTART_SERVICE"
  | STOP_UNSAFE_RUNTIME => "STOP_UNSAFE_RUNTIME"
  | SUSPEND_AGENT_BINDING => "SUSPEND_AGENT_BINDING"
  | REVOKE_BINDING_CREDENTIALS => "REVOKE_BINDING_CREDENTIALS"
  | DISABLE_HOOK => "DISABLE_HOOK"
  | RETRY_HOOK_DEAD_LETTER => "RETRY_HOOK_DEAD_LETTER"
  | BLOCK_REMOTE_ENDPOINT => "BLOCK_REMOTE_ENDPOINT"
  | RETURN_TO_CLASSIC => "RETURN_TO_CLASSIC"
  end.

Inductive result_state : Type := RS_PLANNED | RS_APPLIED | RS_NOOP | RS_REJECTED | RS_FAILED.
#[export] Instance result_state_eq_dec : EqDecision result_state.
Proof. solve_decision. Defined.

(** [SpatialRecoveryCommand]. *)
Record command : Type := Command {
  command_id : string;
  cm_node : string;
  target_ref : string;
  cm_action : action;
  requested_revision : Z;
  plan_hash : string;
  cm_actor : string;
  capability : string;
  consequence : string;
  requires_confirmation : bool;
  confirmation : option bool;
  cm_created_at : iso;
  cm_key : string;
}.

(** [SpatialRecoveryResult]. *)
Record recovery_result : Type := RecoveryResult {
  rr_command : string;
  rr_node : string;
  rr_target : string;
  rr_action : action;
  rr_state : result_state;
  rr_plan_hash : string;
  rr_revision : Z;
  rr_observed_at : iso;
  rr_audit_ref : string;
  rr_error_code : option string;
  rr_message : option string;
}.

(** [RecoveryPlanInput]. *)
Record plan_input : Type := PlanInput {
  pi_node : string;
  pi_target : string;
  pi_action : action;
  pi_revision : number;
  pi_actor : option string;
  pi_key : option string;
}.

(** [RecoveryApplyInput]. *)
Record apply_input : Type := ApplyInput {
  ap_plan : command;
  ap_revision : Z;
  ap_capabilities : list string;
  ap_confirmed : bool;
  ap_actor : option string;
}.

(** [RecoveryAuditRecord]. *)
Record recovery_audit : Type := RecoveryAudit {
  ra_audit_ref : string;
  ra_command : string;
  ra_actor : string;
  ra_action : action;
  ra_target : string;
  ra_state : result_state;
  ra_observed_at : iso;
}.

Inductive recovery_error : Type :=
| INVALID_PLAN | STALE_PLAN | CAPABILITY_DENIED | CONFIRMATION_REQUIRED | DUPLICATE_PLAN | HANDLER_FAILED.
#[export] Instance recovery_error_eq_dec : EqDecision recovery_error.
Proof. solve_decision. Defined.

(** ** The table of actions *)

Record row : Type := Row { row_capability : string; row_consequence : string; requiresConfirmation : bool }.

Definition CONSEQUENCES (a : action) : row :=
  match a with
  | RESTART_SERVICE => Row "recovery.restart-service" "Restart a permitted Node service." true
  | STOP_UNSAFE_RUNTIME => Row "recovery.stop-unsafe-runtime" "Stop a runtime marked unsafe." true
  | SUSPEND_AGENT_BINDING => Row "recovery.suspend-agent-binding"
      "Suspend the Primary Agent binding without deleting Workspace state." true
  | REVOKE_BINDING_CREDENTIALS => Row "recovery.revoke-binding-credentials"
      "Revoke binding credentials; future delivery is blocked." true
  | DISABLE_HOOK => Row "recovery.disable-hook" "Disable one Hook subscription." true
  | RETRY_HOOK_DEAD_LETTER => Row "recovery.retry-hook-dead-letter" "Retry one bounded Hook dead-letter item." false
  | BLOCK_REMOTE_ENDPOINT => Row "recovery.block-remote-endpoint" "Block a remote Endpoint through Node policy." true
  | RETURN_TO_CLASSIC => Row "recovery.return-to-classic" "Return the operator to the Classic advanced surface." false
  end.

(** ** Hashes and normalisation *)

(** The loop of [stableHash] over the two hashes and the index. *)
Fixpoint stableHash_loop (first second index : Z) (value : string) : Z * Z :=
  match value with
  | EmptyString => (first, second)
  | String c rest =>
      stableHash_loop (imul (bit_xor first (charCode c)) 16777619)
        (imul (bit_xor second (charCode c + index)) 3266489917) (index + 1) rest
  end.

Definition hex8 (n : Z) : string := padStart 8 "0" (toString16 8 (to_uint32 n)).

Definition stableHash (value : string) : string :=
  let '(first, second) := stableHash_loop 2166136261 2246822519 0 value in hex8 first +:+ hex8 second.

Definition hash_id (prefix value : string) : string := prefix +:+ "-" +:+ stableHash value.

(** [nowIso(value)]. *)
Definition nowIso (now : date) : result recovery_error iso := of_option now INVALID_PLAN.

Definition normalizeCapabilities (capabilities : list string) : list string :=
  filter (fun c => c <> ""%string) (map (fun c => to_lower (trim c)) capabilities).

(** ** Contracts *)

Section contracts.
Context {zod : Zod}.

(** [z.literal(true).optional()]. *)
Definition literal_true (o : option bool) : option (option bool) :=
  if bool_decide (o = Some false) then None else Some o.

Definition spatialRecoveryCommandSchema (c : command) : option command :=
  id ← idSchema (command_id c);
  node ← idSchema (cm_node c);
  target ← idSchema (target_ref c);
  rev ← revisionSchema (requested_revision c);
  hash ← idSchema (plan_hash c);
  actor ← idSchema (cm_actor c);
  cap ← idSchema (capability c);
  cons ← labelSchema (consequence c);
  conf ← literal_true (confirmation c);
  created ← timestampSchema (cm_created_at c);
  key ← idSchema (cm_key c);
  Some (Command id node target (cm_action c) rev hash actor cap cons (requires_confirmation c) conf created key).

Definition spatialRecoveryResultSchema (r : recovery_result) : option recovery_result :=
  id ← idSchema (rr_command r);
  node ← idSchema (rr_node r);
  target ← idSchema (rr_target r);
  hash ← idSchema (rr_plan_hash r);
  rev ← revisionSchema (rr_revision r);
  observed ← timestampSchema (rr_observed_at r);
  audit ← idSchema (rr_audit_ref r);
  code ← nullable idSchema (rr_error_code r);
  message ← nullable labelSchema (rr_message r);
  Some (RecoveryResult id node target (rr_action r) (rr_state r) hash rev observed audit code message).

(** ** The service *)

(** The service; [handled] is the log of handler calls. *)
Record service : Type := Service {
  handlers : list action;
  applied : jsmap recovery_result;
  audit : list recovery_audit;
  handled : list command;
}.

Definition new_service (hs : list action) : service := Service hs [] [] [].

Definition separated (sep : string) (l : list string) : string :=
  match l with [] => ""%string | x :: l => foldl (fun acc y => acc +:+ sep +:+ y) x l end.

(** [plan(input)]. *)
Definition plan (input : plan_input) (now : date) : result recovery_error command :=
  let nodeId := trim (pi_node input) in
  let targetRef := trim (pi_target input) in
  let actorRef := trim (default "operator-dashboard"%string (pi_actor input)) in
  require (negb (str_eqb nodeId "") && negb (str_eqb targetRef "") && negb (str_eqb actorRef "")) INVALID_PLAN ;?
  let? revision := of_option (nonneg_int (pi_revision input)) INVALID_PLAN in
  let row := CONSEQUENCES (pi_action input) in
  let? createdAt := nowIso now in
  let name := action_name (pi_action input) in
  let supplied := trim (default ""%string (pi_key input)) in
  let key := if str_eqb supplied "" then
      hash_id "idem" (separated ":" [nodeId; targetRef; name; pretty revision])
    else supplied in
  let commandId := hash_id "recovery" (separated ":" [nodeId; targetRef; name; pretty revision; key]) in
  let planHash := hash_id "plan"
    (separated "|" [nodeId; targetRef; name; pretty revision; actorRef; row_capability row]) in
  of_option (spatialRecoveryCommandSchema
    (Command commandId nodeId targetRef (pi_action input) revision planHash actorRef (row_capability row)
       (row_consequence row) (requiresConfirmation row) None createdAt key)) INVALID_PLAN.

Definition replayed (r : recovery_result) : recovery_result :=
  RecoveryResult (rr_command r) (rr_node r) (rr_target r) (rr_action r) RS_NOOP (rr_plan_hash r) (rr_revision r)
    (rr_observed_at r) (rr_audit_ref r) (rr_error_code r)
    (Some "Idempotent replay; the prior result is authoritative."%string).

(** What an application awaiting its handler still holds. *)
Record pending : Type := Pending {
  pd_plan : command;
  pd_revision : Z;
  pd_actor : option string;
  pd_observed_at : iso;
}.

(** [apply(input)] up to the [await] of the handler: the replay of a prior
    result, or the call of the handler. *)
Definition apply_begin (input : apply_input) (now : date) : method service recovery_error (recovery_result + pending) :=
  let! plan := jlift (of_option (spatialRecoveryCommandSchema (ap_plan input)) INVALID_PLAN) in
  let! s := jread in
  match jget (cm_key plan) (applied s) with
  | Some prior => jret (inl (replayed prior))
  | None =>
      jlift (require (bool_decide (requested_revision plan = ap_revision input)) STALE_PLAN) ;!
      jlift (require (bool_decide (to_lower (capability plan) ∈ normalizeCapabilities (ap_capabilities input)))
               CAPABILITY_DENIED) ;!
      jlift (require (negb (requires_confirmation plan) || ap_confirmed input) CONFIRMATION_REQUIRED) ;!
      let! observedAt := jlift (nowIso now) in
      jwrite (Service (handlers s) (applied s) (audit s)
                (if bool_decide (cm_action plan ∈ handlers s) then handled s ++ [plan] else handled s)) ;!
      jret (inr (Pending plan (ap_revision input) (ap_actor input) observedAt))
  end.

Definition result_of (p : pending) (failed : bool) : recovery_result :=
  let plan := pd_plan p in
  RecoveryResult (command_id plan) (cm_node plan) (target_ref plan) (cm_action plan)
    (if failed then RS_FAILED else RS_APPLIED) (plan_hash plan) (pd_revision p) (pd_observed_at p)
    (hash_id "audit" (command_id plan +:+ ":" +:+ plan_hash plan))
    (if failed then Some "RECOVERY_HANDLER_FAILED"%string else None)
    (Some (if failed then "Recovery action failed; inspect the bounded evidence in Status."
           else "Recovery action applied through the canonical command path.")%string).

(** [apply] after the [await]; [threw] says the handler, if any, threw. *)
Definition apply_finish (p : pending) (threw : bool) : method service recovery_error recovery_result :=
  let plan := pd_plan p in
  let! s := jread in
  let failed := threw && bool_decide (cm_action plan ∈ handlers s) in
  let! parsed := jlift (of_option (spatialRecoveryResultSchema (result_of p failed)) HANDLER_FAILED) in
  let entry := RecoveryAudit (rr_audit_ref parsed) (command_id plan) (default (cm_actor plan) (pd_actor p))
                 (cm_action plan) (target_ref plan) (rr_state parsed) (rr_observed_at parsed) in
  jwrite (Service (handlers s) (jset (cm_key plan) parsed (applied s)) (audit s ++ [entry]) (handled s)) ;!
  jret parsed.

(** [apply] with nothing in between. *)
Definition apply (input : apply_input) (threw : bool) (now : date) : method service recovery_error recovery_result :=
  let! started := apply_begin input now in
  match started with
  | inl r => jret r
  | inr p => apply_finish p threw
  end.

Definition auditRecords (s : service) : list recovery_audit := audit s.

(** ** The bridge *)

Inductive bridge_result : Type :=
| FOCUS_EXISTING (canonical : string)
| DETAILS_ONLY (canonical : string) (reason : string)
| REJECTED (reason : string).

Definition showInWorkspace (workspaceId nodeId ref : string) (hasSpatialRepresentation stale : option bool)
  : method registry registry_error bridge_result :=
  let! g := jread in
  if str_eqb workspaceId (rg_workspace g) && str_eqb nodeId (rg_node g) then
    let! found := resolveInScope workspaceId nodeId ref in
    jret (match found with
    | None => REJECTED "UNKNOWN_REFERENCE"
    | Some r =>
        if default false stale then DETAILS_ONLY (canonical_ref r) "STALE_REFERENCE"
        else if bool_decide (rf_state r <> R_AVAILABLE) then DETAILS_ONLY (canonical_ref r) "UNAVAILABLE"
        else if bool_decide (hasSpatialRepresentation = Some false)
        then DETAILS_ONLY (canonical_ref r) "NO_SPATIAL_REPRESENTATION"
        else FOCUS_EXISTING (canonical_ref r)
    end)
  else jret (REJECTED "WRONG_WORKSPACE").
End contracts.
