(* ===== verification/RecoveryProps.v ===== *)
(** * Properties of the recovery commands

    Applying a planned recovery does exactly what the table of actions says,
    a handler runs once per idempotency key, the bridge reads the registry
    without changing it; and two behaviours of [apply] the comments do not
    promise: overlapping applications run a handler twice, and a plan that was
    not made by [plan] brings its own capability. *)

From stdpp Require Import relations pretty.
From S2P Require Import Prelude.
From S2P Require Import Json.
From S2P Require Import Contracts.
From S2P Require Import Binding.
From S2P Require Import BindingProps.
From S2P Require Import Registry.
From S2P Require Import Recovery.

#[local] Open Scope Z_scope.

(** ** Identifiers made from hashes *)

Lemma hex8_fixed n : hex8 n = hex_fixed 8 (to_uint32 n).
Proof. unfold hex8, to_uint32. apply padStart_toString16; [|lia]. pose proof (Z.mod_pos_bound n (2 ^ 32)). lia. Qed.

(** 16 hexadecimal digits after the prefix, nothing to trim. *)
Lemma hash_id_shape c prefix value : is_js_space c = false ->
  trim (hash_id (String c prefix) value) = hash_id (String c prefix) value /\
  String.length (hash_id (String c prefix) value) = (String.length prefix + 18)%nat.
Proof.
  intros Hc. unfold hash_id, stableHash. destruct (stableHash_loop _ _ _ _) as [a b]. rewrite !hex8_fixed. split.
  - unfold trim. rewrite sapp_cons. cbn [trim_start]. rewrite Hc. cbn [hex_fixed].
    rewrite <-!sapp_assoc. rewrite <-!sapp_cons. apply trim_end_last, hex_digit_nonspace, Z.mod_pos_bound. lia.
  - rewrite sapp_cons. cbn [String.length]. rewrite !slength_app, !hex_fixed_length. cbn [String.length]. lia.
Qed.

Section recovery.
Context {zod : Zod} {laws : ZodLaws zod}.

Lemma idSchema_hash_id c prefix value : is_js_space c = false -> (String.length prefix <= 200)%nat ->
  idSchema (hash_id (String c prefix) value) = Some (hash_id (String c prefix) value).
Proof using laws.
  intros Hc Hp. destruct (hash_id_shape c prefix value Hc) as [Ht Hl]. unfold idSchema. rewrite Ht.
  apply z_string_complete. lia.
Qed.

#[local] Instance literal_true_idem : Idempotent literal_true.
Proof. intros o o' H. unfold literal_true in *. case_bool_decide; [done|]. injection H as <-. by rewrite bool_decide_eq_false_2. Qed.

#[export] Instance commandSchema_idem : Idempotent spatialRecoveryCommandSchema.
Proof using laws.
  intros a b H. unfold spatialRecoveryCommandSchema in *. inv_some. simpl in *.
  by repeat (erewrite idem by done; simpl).
Qed.

(** What a planned command says, in terms of the request. *)
Lemma plan_fields input now p : plan input now = Ok p ->
  spatialRecoveryCommandSchema p = Some p /\ cm_action p = pi_action input /\
  nonneg_int (pi_revision input) = Some (requested_revision p) /\
  capability p = row_capability (CONSEQUENCES (pi_action input)) /\
  requires_confirmation p = requiresConfirmation (CONSEQUENCES (pi_action input)).
Proof using laws.
  unfold plan, nowIso. intros H. inv_ok. split; [by eapply idem|].
  match goal with H : spatialRecoveryCommandSchema _ = Some p |- _ => rename H into Hp end.
  unfold spatialRecoveryCommandSchema, revisionSchema in Hp. inv_some. simpl in *.
  match goal with H : z_nonneg _ = Some _ |- _ => apply z_nonneg_sound in H as [-> _] end.
  split; [done|]. split; [done|]. split; [|done].
  match goal with H : idSchema (row_capability _) = Some _ |- _ => apply idSchema_spec in H as [-> _] end.
  by destruct (pi_action input).
Qed.

(** The result contract accepts what [apply] builds. *)
Lemma result_of_accepted p failed :
  spatialRecoveryCommandSchema (pd_plan p) = Some (pd_plan p) -> requested_revision (pd_plan p) = pd_revision p ->
  spatialRecoveryResultSchema (result_of p failed) = Some (result_of p failed).
Proof using laws.
  destruct p as [c rev actor t]. simpl. intros Hc <-.
  pose proof (idSchema_hash_id "a" "udit" (command_id c +:+ ":" +:+ plan_hash c) eq_refl ltac:(simpl; lia)) as Ha.
  unfold spatialRecoveryCommandSchema in Hc. inv_some.
  match goal with H : _ = c |- _ => rewrite <-H in *; clear H end. simpl in *.
  unfold spatialRecoveryResultSchema, result_of. simpl.
  repeat (match goal with H : ?f ?x = Some ?x |- context [?f ?x] => rewrite H end; cbn [mbind option_bind]).
  unfold nullable, idSchema, labelSchema.
  destruct failed; cbn [fmap option_fmap option_map mbind option_bind]; by rewrite !z_string_complete by (vm_compute; lia).
Qed.

(** ** What applying a planned recovery does *)

Definition may_run (a : action) (capabilities : list string) : bool :=
  existsb (fun c => str_eqb (to_lower (trim c)) (row_capability (CONSEQUENCES a))) capabilities.

Lemma may_run_normalized a capabilities :
  bool_decide (to_lower (row_capability (CONSEQUENCES a)) ∈ normalizeCapabilities capabilities) = may_run a capabilities.
Proof.
  replace (to_lower (row_capability (CONSEQUENCES a))) with (row_capability (CONSEQUENCES a)) by (by destruct a).
  apply eq_true_iff_eq. unfold may_run, normalizeCapabilities, str_eqb.
  rewrite bool_decide_eq_true, list_elem_of_filter, list_elem_of_fmap, existsb_exists.
  split.
  - intros (_ & c & -> & Hc%list_elem_of_In). exists c. by rewrite bool_decide_eq_true.
  - intros (c & Hc%list_elem_of_In & Heq%bool_decide_eq_true). split; [by destruct a | by exists c].
Qed.

(** What the service holds after a handler of the planned command [p] ran. *)
Definition recovered (p : command) (r : recovery_result) (actor : option string) (s : service) : service :=
  Service (handlers s) (jset (cm_key p) r (applied s))
    (audit s ++ [RecoveryAudit (rr_audit_ref r) (command_id p) (default (cm_actor p) actor) (cm_action p)
                   (target_ref p) (rr_state r) (rr_observed_at r)])
    (if bool_decide (cm_action p ∈ handlers s) then handled s ++ [p] else handled s).

(** C11. Applying a recovery that [plan] made does what the table of actions
    says of the action the operator asked for, and nothing else: a key that was
    applied answers the prior result as a no-op, a revision other than the
    planned one is stale, the row's capability must be held and the row's
    confirmation given; then the handler of that action runs once, and its
    outcome, failure included, is returned, recorded under the key and audited
    once. No refused application changes the service, and the result contract
    refuses none. *)
Theorem planned_recovery input now0 p rev capabilities confirmed actor threw t s :
  plan input now0 = Ok p ->
  apply (ApplyInput p rev capabilities confirmed actor) threw (Some t) s =
    match jget (cm_key p) (applied s) with
    | Some prior => (s, Ok (replayed prior))
    | None =>
        if bool_decide (nonneg_int (pi_revision input) <> Some rev) then (s, Err STALE_PLAN)
        else if negb (may_run (pi_action input) capabilities) then (s, Err CAPABILITY_DENIED)
        else if requiresConfirmation (CONSEQUENCES (pi_action input)) && negb confirmed
        then (s, Err CONFIRMATION_REQUIRED)
        else
          let r := result_of (Pending p rev actor t) (threw && bool_decide (pi_action input ∈ handlers s)) in
          (recovered p r actor s, Ok r)
    end.
Proof using laws.
  intros Hp. destruct (plan_fields _ _ _ Hp) as (Hfix & Hact & Hrev & Hcap & Hconf).
  unfold apply, apply_begin, jbind, jlift, jread, jret, jwrite. cbn [ap_plan ap_revision ap_capabilities ap_confirmed ap_actor].
  rewrite Hfix. cbn [of_option]. destruct (jget (cm_key p) (applied s)) as [prior|] eqn:Hkey; [done|].
  rewrite Hrev, <-Hact. unfold require. case_bool_decide as Hr.
  2:{ rewrite bool_decide_eq_true_2 by congruence. done. }
  rewrite (bool_decide_eq_false_2 (Some _ <> _)) by (intros Hne; apply Hne; congruence).
  rewrite Hcap, may_run_normalized, Hact. destruct (may_run _ _); [|done]. cbn [negb].
  rewrite Hconf. destruct (requiresConfirmation _), confirmed; cbn [negb andb orb]; try done;
    unfold apply_finish, jbind, jlift, jread, jret, jwrite; cbn [pd_plan nowIso of_option handlers];
    rewrite result_of_accepted by done; unfold recovered; cbn [of_option]; rewrite !Hact; done.
Qed.

(** ** A handler runs once per key *)

Inductive apply_step (s : service) : service -> Prop :=
| step_apply input threw now s' r : apply input threw now s = (s', r) -> apply_step s s'.

Definition once_inv (s : service) : Prop :=
  NoDup (map cm_key (handled s)) /\ forall p, p ∈ handled s -> is_Some (jget (cm_key p) (applied s)).

Lemma apply_once input threw now s s' r : once_inv s -> apply input threw now s = (s', r) -> once_inv s'.
Proof using laws.
  intros [Hnd Hin] H. unfold apply, apply_begin, jbind, jlift, jread, jret, jwrite in H.
  destruct (spatialRecoveryCommandSchema (ap_plan input)) as [p|] eqn:Hp; simpl in H; [|by simplify_eq].
  assert (Hfix : spatialRecoveryCommandSchema p = Some p) by (by eapply idem).
  destruct (jget (cm_key p) (applied s)) eqn:Hkey; [by simplify_eq|].
  unfold require in H. case_bool_decide as Hrev; [|by simplify_eq].
  case_bool_decide; [|by simplify_eq]. destruct (_ || _); [|by simplify_eq].
  destruct now as [t|]; simpl in H; [|by simplify_eq].
  unfold apply_finish, jbind, jlift, jread, jret, jwrite in H. cbn [pd_plan handlers] in H.
  rewrite result_of_accepted in H by done. cbn [of_option] in H. simplify_eq.
  assert (Hfresh : cm_key p ∉ map cm_key (handled s)).
  { intros (q & Heq & Hq)%list_elem_of_fmap. destruct (Hin q Hq) as [? Hq']. rewrite <-Heq in Hq'. congruence. }
  split; cbn [handled applied].
  - case_bool_decide; [|done]. rewrite map_app. apply NoDup_app. split; [done|]. split; [|apply NoDup_singleton].
    intros k Hk Hk'%list_elem_of_singleton. by subst k.
  - intros q Hq. destruct (decide (cm_key p = cm_key q)) as [Heq|Hne]; [rewrite Heq; rewrite jget_jset_eq; by eexists|].
    rewrite jget_jset_ne by done. apply Hin. case_bool_decide; [|done]. apply elem_of_app in Hq as [?|Hq]; [done|].
    apply list_elem_of_singleton in Hq. congruence.
Qed.

(** In every history of applications that complete before the next one
    starts, whatever plans are applied, no two handler calls share an
    idempotency key; failed handlers are not run again either. *)
Theorem recovery_handler_once hs s :
  rtc apply_step (new_service hs) s -> NoDup (map cm_key (handled s)).
Proof using laws.
  intros H. enough (once_inv s) as [? _] by done.
  assert (Hi : once_inv (new_service hs)) by (split; [constructor | intros p Hp; by apply elem_of_nil in Hp]).
  revert Hi. induction H as [|s1 s2 s3 [input threw now s' r Hs] _ IH]; [done|].
  intros Hi. apply IH. by eapply apply_once.
Qed.
End recovery.

(** ** The bridge *)

(** Showing a Status entry in the Workspace never changes the registry,
    not even its telemetry; it focuses exactly the references of its own scope
    that are known, available, not reported stale and not reported without a
    spatial representation, under the canonical name the registry has. *)
Theorem bridge_only_reads workspaceId nodeId ref has stale g : exists r,
  showInWorkspace workspaceId nodeId ref has stale g = (g, Ok r) /\
  forall name, r = FOCUS_EXISTING name <->
    workspaceId = rg_workspace g /\ nodeId = rg_node g /\ stale <> Some true /\ has <> Some false /\
    exists c, resolve ref PRIMARY g = Ok c /\ canonical_ref c = name /\ rf_state c = R_AVAILABLE.
Proof.
  unfold showInWorkspace, resolveInScope, jbind, jread, jret, jlift, str_eqb.
  case_bool_decide as Hw; cbn [andb]; [|eexists; split; [done|]; naive_solver].
  case_bool_decide as Hn; cbn [andb]; [|eexists; split; [done|]; naive_solver].
  cbv beta iota. rewrite (bool_decide_eq_true_2 _ Hw), (bool_decide_eq_true_2 _ Hn). cbn [andb].
  unfold resolve. destruct (jget (recordKey g (trim ref)) (rg_records g)) as [c|] eqn:Hc; cbn [of_option rbind].
  2:{ eexists. split; [done|]. intros name. split; [done|]. naive_solver. }
  eexists. split; [done|]. intros name. split.
  - intros H. destruct stale as [[]|]; cbn [default] in H; [done|..];
      (case_bool_decide as Hs; [done|]; case_bool_decide as Hh; [done|]; injection H as <-; cbn in Hs;
       split_and!; [done..|]; eexists; split_and!; done).
  - intros (_ & _ & Hst & Hh & c' & [= <-] & <- & Hav). cbn in Hav |- *. destruct stale as [[]|]; [done|..];
      cbn; rewrite (bool_decide_eq_false_2 (_ <> R_AVAILABLE)) by (intros Hne; by apply Hne); by rewrite bool_decide_eq_false_2.
Qed.

(** ** Witnesses and two behaviours of [apply] *)

Module RecoveryWitness.
Definition request : plan_input := PlanInput "n" "svc" RESTART_SERVICE (NInt 4) None None.
Definition planned : command :=
  match plan (zod := zod_ref) request (Some 10) with
  | Ok p => p
  | Err _ => Command "" "" "" RESTART_SERVICE 0 "" "" "" "" false None 0 ""
  end.
Definition start : service := new_service [RESTART_SERVICE; REVOKE_BINDING_CREDENTIALS].
Definition go (confirmed : bool) : apply_input :=
  ApplyInput planned 4 [" Recovery.Restart-Service "%string] confirmed None.

Lemma planned_recovery_witness :
  (exists s, apply (zod := zod_ref) (go true) false (Some 20) start
     = (s, Ok (result_of (Pending planned 4 None 20) false)) /\ map cm_action (handled s) = [RESTART_SERVICE]) /\
  apply (zod := zod_ref) (go false) false (Some 20) start = (start, Err CONFIRMATION_REQUIRED).
Proof.
  split; [eexists; split|].
  - unfold go. rewrite (planned_recovery (zod := zod_ref) request (Some 10) planned) by reflexivity.
    vm_compute. reflexivity.
  - reflexivity.
  - unfold go. rewrite (planned_recovery (zod := zod_ref) request (Some 10) planned) by reflexivity. reflexivity.
Defined.

Lemma recovery_handler_once_witness :
  NoDup (map cm_key (handled (apply (zod := zod_ref) (go true) true (Some 20) start).1)).
Proof.
  apply (recovery_handler_once (zod := zod_ref) [RESTART_SERVICE; REVOKE_BINDING_CREDENTIALS]).
  eapply rtc_l; [eapply (step_apply _ (go true) true (Some 20)); apply surjective_pairing|]. apply rtc_refl.
Defined.

(** Two applications of one plan that overlap, the second starting while the
    first awaits its handler, both call the handler: the prior result is looked
    up before the call and stored after it. *)
Theorem overlapping_applications_run_twice :
  let '(s1, r1) := apply_begin (zod := zod_ref) (go true) (Some 20) start in
  let '(s2, r2) := apply_begin (zod := zod_ref) (go true) (Some 21) s1 in
  match r1, r2 with
  | Ok (inr p1), Ok (inr p2) =>
      let s4 := (apply_finish (zod := zod_ref) p2 false (apply_finish (zod := zod_ref) p1 false s2).1).1 in
      handled s4 = [planned; planned] /\ length (audit s4) = 2%nat /\ length (applied s4) = 1%nat
  | _, _ => False
  end.
Proof. vm_compute. split_and!; reflexivity. Qed.

(** A command [plan] never made: the action of the request with a capability
    of the caller's choice and no confirmation. *)
Definition forged : command :=
  Command "c" "n" "binding-1" REVOKE_BINDING_CREDENTIALS 4 "h" "a" "view" "Look." false None 0 "k".

(** [apply] reads the capability and the need for a confirmation from the
    command it is given, and checks neither against the table of actions nor the
    plan hash: the forged command revokes credentials with the capability
    "view", unconfirmed. *)
Theorem forged_command_applied :
  row_capability (CONSEQUENCES REVOKE_BINDING_CREDENTIALS) <> capability forged /\
  requiresConfirmation (CONSEQUENCES REVOKE_BINDING_CREDENTIALS) = true /\
  let '(s, r) := apply (zod := zod_ref) (ApplyInput forged 4 ["view"%string] false None) false (Some 20) start in
  is_ok r = true /\ map cm_action (handled s) = [REVOKE_BINDING_CREDENTIALS].
Proof. vm_compute. split_and!; done. Qed.
End RecoveryWitness.
