(* ===== verification/Rollout.v ===== *)
(** * Staged rollout

    src/web/operator-dashboard/src/spatial/hardening/rollout.ts: the gate of a
    stage, the controller that moves through the stages, and the property that
    it climbs them one at a time, each with its gates. An error budget is a
    JavaScript number: a rational, an infinity or NaN. *)

From Stdlib Require Import QArith.
From stdpp Require Import relations.
From S2P Require Import Prelude.
From S2P Require Import Contracts.
From S2P Require Import Numbers.

#[local] Open Scope Z_scope.

(** ** Data *)

Inductive stage : Type :=
| DEVELOPER | LOCAL_FIXTURE | TEST_NODE | LAN_NODES | OPT_IN_PREVIEW | DEFAULT_ON | ROLLED_BACK.
#[export] Instance stage_eq_dec : EqDecision stage.
Proof. solve_decision. Defined.

Inductive compatibility : Type := COMPATIBLE | REBUILD_REQUIRED | BLOCKED.
#[export] Instance compatibility_eq_dec : EqDecision compatibility.
Proof. solve_decision. Defined.

Inductive surface : Type := SPATIAL | CLASSIC.
#[export] Instance surface_eq_dec : EqDecision surface.
Proof. solve_decision. Defined.

(** [SpatialRolloutGateInput]. *)
Record gates : Type := Gates {
  errorBudgetPercent : jsnum;
  g_compatibility : compatibility;
  rollbackVerified : bool;
  migrationReversible : bool;
  generatedAssetsAtomic : bool;
  securitySignedOff : bool;
  reliabilitySignedOff : bool;
  accessibilitySignedOff : bool;
  performanceSignedOff : bool;
}.

(** [SpatialRolloutDecision]. *)
Record decision : Type := Decided { allowed : bool; reason : string; fallback : surface }.

(** [SpatialRolloutStageRecord]. *)
Record rollout : Type := Rollout {
  rollout_id : string;
  ro_workspace : string;
  ro_node : string;
  ro_flag : string;
  ro_stage : stage;
  enabled : bool;
  rollback_stage : option stage;
  compatibility_state : compatibility;
  error_budget_percent : jsnum;
  evidence_refs : list string;
  ro_updated_at : iso;
}.

(** ** Stages and gates *)

Definition SPATIAL_ROLLOUT_ORDER : list stage :=
  [DEVELOPER; LOCAL_FIXTURE; TEST_NODE; LAN_NODES; OPT_IN_PREVIEW; DEFAULT_ON].

(** [Array.prototype.indexOf]. *)
Fixpoint position (s : stage) (l : list stage) (i : Z) : Z :=
  match l with
  | [] => -1
  | x :: l => if decide (x = s) then i else position s l (i + 1)
  end.

Definition indexOf (s : stage) : Z := position s SPATIAL_ROLLOUT_ORDER 0.

Definition refused (why : string) : decision := Decided false why CLASSIC.

Definition evaluateSpatialRolloutGate (s : stage) (g : gates) : decision :=
  if num_lt (errorBudgetPercent g) (num 0) || num_lt (num 100) (errorBudgetPercent g) then refused "INVALID_ERROR_BUDGET"
  else if bool_decide (g_compatibility g = BLOCKED) then refused "COMPATIBILITY_BLOCKED"
  else if bool_decide (g_compatibility g = REBUILD_REQUIRED) && negb (migrationReversible g)
  then refused "MIGRATION_NOT_REVERSIBLE"
  else if negb (rollbackVerified g) then refused "ROLLBACK_NOT_VERIFIED"
  else if negb (generatedAssetsAtomic g) then refused "GENERATED_ASSETS_NOT_ATOMIC"
  else if bool_decide (s = DEFAULT_ON) &&
          (negb (securitySignedOff g) || negb (reliabilitySignedOff g) || negb (accessibilitySignedOff g)
           || negb (performanceSignedOff g)) then refused "SIGN_OFF_MISSING"
  else Decided true "GATES_PASSED" SPATIAL.

(** ** The controller *)

Section controller.
Context {zod : Zod}.

Definition spatialRolloutStageSchema (r : rollout) : option rollout :=
  id ← idSchema (rollout_id r);
  ws ← idSchema (ro_workspace r);
  node ← idSchema (ro_node r);
  flag ← idSchema (ro_flag r);
  budget ← boundedSchema 100 (error_budget_percent r);
  evidence ← z_array idSchema 128 (evidence_refs r);
  t ← timestampSchema (ro_updated_at r);
  Some (Rollout id ws node flag (ro_stage r) (enabled r) (rollback_stage r) (compatibility_state r) budget evidence t).

(** The constructor; [id] is what the id factory returned. *)
Definition new_rollout (workspaceId nodeId flag id : string) (t : iso) : result unit rollout :=
  of_option (spatialRolloutStageSchema
    (Rollout id workspaceId nodeId flag DEVELOPER false None COMPATIBLE (Finite 100) [] t)) tt.

Definition rollback (evidenceRefs : list string) (t : iso) : method rollout unit decision :=
  let! r := jread in
  let! parsed := jlift (of_option (spatialRolloutStageSchema
    (Rollout (rollout_id r) (ro_workspace r) (ro_node r) (ro_flag r) ROLLED_BACK false (Some (ro_stage r)) COMPATIBLE
       (error_budget_percent r) (unique evidenceRefs) t)) tt) in
  jwrite parsed ;!
  jret (Decided true "ROLLED_BACK_TO_CLASSIC" CLASSIC).

Definition advance (nextStage : stage) (g : gates) (evidenceRefs : list string) (t : iso)
  : method rollout unit decision :=
  let! r := jread in
  if bool_decide (nextStage = ROLLED_BACK) then rollback evidenceRefs t
  else if bool_decide (indexOf nextStage <> indexOf (ro_stage r) + 1) then jret (refused "STAGE_ORDER_VIOLATION")
  else
    let decision := evaluateSpatialRolloutGate nextStage g in
    if negb (allowed decision) then jret decision
    else
      let! parsed := jlift (of_option (spatialRolloutStageSchema
        (Rollout (rollout_id r) (ro_workspace r) (ro_node r) (ro_flag r) nextStage
           (bool_decide (nextStage <> DEVELOPER)) (Some (ro_stage r)) (g_compatibility g) (errorBudgetPercent g)
           (unique evidenceRefs) t)) tt) in
      jwrite parsed ;!
      jret (Decided true "STAGE_ADVANCED" SPATIAL).

Definition presentation (r : rollout) : surface :=
  if enabled r && bool_decide (ro_stage r <> ROLLED_BACK) then SPATIAL else CLASSIC.

(** ** Histories *)

Inductive call : Type :=
| Advance (next : stage) (g : gates) (evidence : list string) (t : iso)
| Rollback (evidence : list string) (t : iso).

Definition run_call (c : call) : method rollout unit decision :=
  match c with
  | Advance next g evidence t => advance next g evidence t
  | Rollback evidence t => rollback evidence t
  end.

(** The controller after a list of calls. *)
Definition after (r : rollout) (cs : list call) : rollout := foldl (fun r c => (run_call c r).1) r cs.

(** The advances the controller reported since the last rollback, oldest first. *)
Definition climb_step (acc : rollout * list (stage * gates)) (c : call) : rollout * list (stage * gates) :=
  let '(r', res) := run_call c acc.1 in
  (r', match c, res with
       | Advance next g _ _, Ok d => if str_eqb (reason d) "STAGE_ADVANCED" then acc.2 ++ [(next, g)]
                                     else if str_eqb (reason d) "ROLLED_BACK_TO_CLASSIC" then [] else acc.2
       | Rollback _ _, Ok _ => []
       | _, Err _ => acc.2
       end).

Definition climbed (r : rollout) (cs : list call) : list (stage * gates) := (foldl climb_step (r, []) cs).2.

(** ** Properties *)

Definition signed_off (g : gates) : Prop :=
  securitySignedOff g = true /\ reliabilitySignedOff g = true /\
  accessibilitySignedOff g = true /\ performanceSignedOff g = true.

(** What the gate of a stage demands. *)
Definition gate_ok (s : stage) (g : gates) : Prop :=
  (exists q, errorBudgetPercent g = Finite q /\ (0 <= q /\ q <= 100)%Q) /\
  g_compatibility g <> BLOCKED /\
  (g_compatibility g = REBUILD_REQUIRED -> migrationReversible g = true) /\
  rollbackVerified g = true /\ generatedAssetsAtomic g = true /\
  (s = DEFAULT_ON -> signed_off g).

Lemma gate_allowed s g b : allowed (evaluateSpatialRolloutGate s g) = true ->
  boundedSchema 100 (errorBudgetPercent g) = Some b -> gate_ok s g.
Proof.
  unfold evaluateSpatialRolloutGate, gate_ok, signed_off. intros H Hb.
  split; [by apply boundedSchema_spec in Hb as [_ ?]|]. destruct (_ || _); [done|].
  destruct (g_compatibility g) eqn:?, (migrationReversible g), (rollbackVerified g), (generatedAssetsAtomic g);
    simpl in H; try done; (split_and!; try done; intros ->; simpl in H;
    destruct (securitySignedOff g), (reliabilitySignedOff g), (accessibilitySignedOff g), (performanceSignedOff g); done).
Qed.

(** The stages up to and including [s], in order. *)
Definition up_to (s : stage) : list stage := take (S (Z.to_nat (indexOf s))) SPATIAL_ROLLOUT_ORDER.

(** The stages climbed since the start, or since the last rollback, which comes
    before the first stage. *)
Definition path_ok (s : stage) (path : list stage) : Prop :=
  match s with
  | ROLLED_BACK => path = []
  | _ => path = tail (up_to s) \/ path = up_to s
  end.

Definition climb_inv (acc : rollout * list (stage * gates)) : Prop :=
  Forall (fun sg => gate_ok sg.1 sg.2) acc.2 /\ path_ok (ro_stage acc.1) (map fst acc.2) /\
  enabled acc.1 = bool_decide (0 < indexOf (ro_stage acc.1)).

Lemma stageSchema_keeps r r' : spatialRolloutStageSchema r = Some r' ->
  ro_stage r' = ro_stage r /\ enabled r' = enabled r /\ exists b, boundedSchema 100 (error_budget_percent r) = Some b.
Proof. unfold spatialRolloutStageSchema. intros H. inv_some. simpl. split_and!; [done..|]. by eexists. Qed.

Lemma path_ok_next s next path :
  next <> ROLLED_BACK -> indexOf next = indexOf s + 1 -> path_ok s path -> path_ok next (path ++ [next]).
Proof.
  intros Hr Hi Hp. destruct s, next; try done; simpl in Hp; try (subst path; by right);
    (destruct Hp as [-> | ->]; [by left | by right]).
Qed.

Lemma rollback_step evidence t r path :
  climb_inv (r, path) -> (exists r', rollback evidence t r = (r', Ok (Decided true "ROLLED_BACK_TO_CLASSIC" CLASSIC)) /\ climb_inv (r', []))
  \/ rollback evidence t r = (r, Err tt).
Proof.
  intros Hi. unfold rollback, jbind, jread, jlift, jwrite, jret.
  destruct (spatialRolloutStageSchema _) as [p|] eqn:Hp; [left|by right]. eexists. split; [done|].
  apply stageSchema_keeps in Hp as (Hs & He & _). unfold climb_inv. simpl in *. rewrite Hs, He. by split_and!.
Qed.

Lemma climb_step_inv acc c : climb_inv acc -> climb_inv (climb_step acc c).
Proof.
  destruct acc as [r path]. intros Hi. unfold climb_step. destruct c as [next g evidence t|evidence t]; simpl.
  2:{ destruct (rollback_step evidence t r path Hi) as [(r' & -> & Hi') | ->]; done. }
  unfold advance, jbind at 1, jread. case_bool_decide as Hr.
  { destruct (rollback_step evidence t r path Hi) as [(r' & -> & Hi') | ->]; done. }
  case_bool_decide as Ho; [by cbn|].
  destruct (allowed (evaluateSpatialRolloutGate next g)) eqn:Ha; cbn [negb].
  2:{ cbn. unfold evaluateSpatialRolloutGate in *. repeat (case_match; cbn in *; try done). }
  unfold jbind, jlift, jwrite, jret. destruct (spatialRolloutStageSchema _) as [p|] eqn:Hp; [|done].
  apply stageSchema_keeps in Hp as (Hs & He & b & Hb). simpl in *. destruct Hi as (Hf & Hpath & Hen).
  unfold climb_inv. simpl in *. rewrite Hs, He. split_and!.
  - apply Forall_app. split; [done|]. constructor; [|constructor]. by eapply gate_allowed.
  - rewrite map_app. by eapply path_ok_next.
  - by destruct next.
Qed.

Lemma climbed_after r cs acc : acc.1 = r -> (foldl climb_step acc cs).1 = after r cs.
Proof.
  revert r acc. induction cs as [|c cs IH]; intros r acc Hr; [done|]. simpl. apply IH.
  unfold climb_step. rewrite Hr. by destruct (run_call c r).
Qed.

(** A rollout climbs its stages one at a time, each through its gate: in
    every history of calls, the advances the controller reported since the start
    or the last rollback are, in order and without a gap, the stages up to the
    current one (after a rollback the first stage too), each with gates that
    meet that stage's conditions, the four sign-offs for DEFAULT_ON included;
    none is left after a rollback. The Spatial surface is shown exactly above the
    first stage, the Classic one after a rollback. *)
Theorem rollout_climbs workspaceId nodeId flag id t r0 cs :
  new_rollout workspaceId nodeId flag id t = Ok r0 ->
  Forall (fun sg => gate_ok sg.1 sg.2) (climbed r0 cs) /\
  path_ok (ro_stage (after r0 cs)) (map fst (climbed r0 cs)) /\
  (presentation (after r0 cs) = SPATIAL <-> 0 < indexOf (ro_stage (after r0 cs))).
Proof.
  unfold new_rollout. intros H. inv_ok.
  match goal with H : spatialRolloutStageSchema _ = Some _ |- _ => apply stageSchema_keeps in H as (Hs & He & _) end.
  assert (Hi : climb_inv (foldl climb_step (r0, []) cs)).
  { assert (H0 : climb_inv (r0, [])).
    { unfold climb_inv. simpl in *. rewrite Hs, He. split_and!; [constructor|by left|done]. }
    revert H0. generalize (r0, @nil (stage * gates)). induction cs as [|c cs IH]; intros acc H0; [done|].
    simpl. by apply IH, climb_step_inv. }
  unfold climb_inv in Hi. rewrite (climbed_after r0 cs (r0, []) eq_refl) in Hi. fold (climbed r0 cs) in Hi.
  destruct Hi as (Hf & Hp & Hen). split_and!; [done..|]. unfold presentation. rewrite Hen.
  split; [by destruct (ro_stage (after r0 cs)) | intros Hlt; by destruct (ro_stage (after r0 cs))].
Qed.
End controller.

Module RolloutWitness.
Definition pass : gates := Gates (Finite 50) REBUILD_REQUIRED true true true true true true true.
Definition unsigned : gates := Gates (Finite 50) COMPATIBLE true true true true true true false.
Definition calls : list call :=
  [Advance LOCAL_FIXTURE unsigned [] 1; Advance LAN_NODES pass [] 2; Advance TEST_NODE pass ["e"%string; "e"%string] 3;
   Rollback [] 4; Advance DEVELOPER unsigned [] 5; Advance LOCAL_FIXTURE pass [] 6].
Definition start : rollout := Rollout "r" "w" "n" "f" DEVELOPER false None COMPATIBLE (Finite 100) [] 0.

Lemma rollout_climbs_witness :
  new_rollout (zod := zod_ref) "w" "n" "f" "r" 0 = Ok start /\
  map fst (climbed (zod := zod_ref) start calls) = [DEVELOPER; LOCAL_FIXTURE] /\
  Forall (fun sg => gate_ok sg.1 sg.2) (climbed (zod := zod_ref) start calls).
Proof.
  assert (H : new_rollout (zod := zod_ref) "w" "n" "f" "r" 0 = Ok start) by (vm_compute; reflexivity).
  split; [exact H|]. split; [vm_compute; reflexivity|].
  exact (proj1 (rollout_climbs (zod := zod_ref) "w" "n" "f" "r" 0 start calls H)).
Defined.
End RolloutWitness.
