(* ===== verification/Interactions.v ===== *)
(** * Interaction provenance and endpoint experience

    src/web/operator-dashboard/src/spatial/topology/provenance.ts: the records
    of interactions with endpoints, the counters kept per endpoint, and the
    theorem that the counters are what the records say. The trust threshold is
    an integer. *)

From Stdlib Require Import QArith.
From stdpp Require Import relations.
From S2P Require Import Prelude.
From S2P Require Import Contracts.
From S2P Require Import Numbers.
From S2P Require Import Registry.

#[local] Open Scope Z_scope.

(** ** Data *)

Inductive outcome : Type := O_SUCCESS | O_FAILURE | O_CANCELLED | O_TIMEOUT.
#[export] Instance outcome_eq_dec : EqDecision outcome.
Proof. solve_decision. Defined.

Inductive familiarity : Type := NEVER_USED | USED | TRUSTED_BY_HISTORY.
#[export] Instance familiarity_eq_dec : EqDecision familiarity.
Proof. solve_decision. Defined.

(** [SpatialInteractionProvenance]. *)
Record interaction : Type := Interaction {
  record_id : string;
  ix_request : string;
  endpoint_ref : string;
  endpoint_revision : Z;
  ix_result : option string;
  ix_outcome : outcome;
  latency_ms : option jsnum;
  usage_ref : option string;
  ix_key : string;
  ix_node : string;
  ix_workspace : string;
  ix_agent : string;
  ix_revision : Z;
  ix_observed_at : iso;
}.

(** [RecordInteractionInput]. *)
Record interaction_input : Type := InteractionInput {
  ii_request : string;
  ii_endpoint : string;
  ii_endpoint_revision : number;
  ii_result : option string;
  ii_outcome : outcome;
  ii_latency : option jsnum;
  ii_usage : option string;
  ii_key : string;
}.

(** [EndpointExperience]. *)
Record experience : Type := Experience {
  ex_endpoint : string;
  ex_revision : Z;
  interactionCount : Z;
  successfulCount : Z;
  failedCount : Z;
  cancelledCount : Z;
  timeoutCount : Z;
  lastUsedAt : option iso;
  lastSuccessAt : option iso;
  lastFailureAt : option iso;
  ex_familiarity : familiarity;
}.

Inductive interaction_error : Type := INVALID_INTERACTION | IX_RANGE_ERROR.
#[export] Instance interaction_error_eq_dec : EqDecision interaction_error.
Proof. solve_decision. Defined.

(** The service: its options and its five maps. *)
Record interactions : Type := Interactions {
  op_workspace : string;
  op_node : string;
  op_agent : string;
  op_threshold : option Z;
  ix_records : jsmap interaction;
  ix_revisions : jsmap (list interaction);
  ix_experience : jsmap experience;
  globalReputation : jsmap jsnum;
  unresolvedFailures : jsmap bool;
}.

Definition new_interactions (ws node agent : string) (threshold : option Z) : interactions :=
  Interactions ws node agent threshold [] [] [] [] [].

(** ** Operations *)

(** [getExperience]. *)
Definition getExperience (ref : string) (s : interactions) : experience :=
  default (Experience ref 0 0 0 0 0 0 None None None NEVER_USED) (jget ref (ix_experience s)).

Definition bump (b : bool) : Z := if b then 1 else 0.

(** [updateExperience]. *)
Definition updateExperience (r : interaction) (s : interactions) : interactions :=
  let ref := endpoint_ref r in
  let current := getExperience ref s in
  let success := bool_decide (ix_outcome r = O_SUCCESS) in
  let failure := bool_decide (ix_outcome r = O_FAILURE) || bool_decide (ix_outcome r = O_TIMEOUT) in
  let successes := successfulCount current + bump success in
  let threshold := Z.max 1 (default 3 (op_threshold s)) in
  let unresolved := if failure then jset ref true (unresolvedFailures s) else unresolvedFailures s in
  let unresolved := if success then jset ref false unresolved else unresolved in
  let noFreshFailure := negb (default false (jget ref unresolved)) in
  let next := Experience ref (endpoint_revision r) (interactionCount current + 1) successes
    (failedCount current + bump (bool_decide (ix_outcome r = O_FAILURE)))
    (cancelledCount current + bump (bool_decide (ix_outcome r = O_CANCELLED)))
    (timeoutCount current + bump (bool_decide (ix_outcome r = O_TIMEOUT)))
    (Some (ix_observed_at r))
    (if success then Some (ix_observed_at r) else lastSuccessAt current)
    (if failure then Some (ix_observed_at r) else lastFailureAt current)
    (if bool_decide (threshold <= successes) && noFreshFailure then TRUSTED_BY_HISTORY else USED) in
  Interactions (op_workspace s) (op_node s) (op_agent s) (op_threshold s) (ix_records s) (ix_revisions s)
    (jset ref next (ix_experience s)) (globalReputation s) unresolved.

Section service.
Context {zod : Zod}.

Definition spatialInteractionProvenanceSchema (r : interaction) : option interaction :=
  id ← idSchema (record_id r);
  request ← idSchema (ix_request r);
  endpoint ← idSchema (endpoint_ref r);
  erev ← revisionSchema (endpoint_revision r);
  result ← nullable idSchema (ix_result r);
  latency ← nullableNumber 86400000 (latency_ms r);
  usage ← nullable idSchema (usage_ref r);
  key ← idSchema (ix_key r);
  node ← idSchema (ix_node r);
  ws ← idSchema (ix_workspace r);
  agent ← idSchema (ix_agent r);
  rev ← revisionSchema (ix_revision r);
  t ← timestampSchema (ix_observed_at r);
  Some (Interaction id request endpoint erev result (ix_outcome r) latency usage key node ws agent rev t).

Definition store_interaction (key ref : string) (r : interaction) (s : interactions) : interactions :=
  Interactions (op_workspace s) (op_node s) (op_agent s) (op_threshold s) (jset key r (ix_records s))
    (jset ref (default [] (jget ref (ix_revisions s)) ++ [r]) (ix_revisions s))
    (ix_experience s) (globalReputation s) (unresolvedFailures s).

(** [record(input)]; the boolean is [duplicate]. *)
Definition record (input : interaction_input) (now : date) : method interactions interaction_error (interaction * bool) :=
  let key := trim (ii_key input) in
  let! s := jread in
  match jget key (ix_records s) with
  | Some existing => jret (existing, true)
  | None =>
      jlift (require (negb (str_eqb (trim (ii_request input)) "") && negb (str_eqb (trim (ii_endpoint input)) "")
                      && negb (str_eqb key "")) INVALID_INTERACTION) ;!
      let! erev := jlift (of_option (nonneg_int (ii_endpoint_revision input)) INVALID_INTERACTION) in
      let! t := jlift (of_option now IX_RANGE_ERROR) in
      let! r := jlift (of_option (spatialInteractionProvenanceSchema
        (Interaction ("provenance:" +:+ key) (ii_request input) (ii_endpoint input) erev (ii_result input)
           (ii_outcome input) (ii_latency input) (ii_usage input) key (op_node s) (op_workspace s) (op_agent s) 0 t))
        INVALID_INTERACTION) in
      jwrite (updateExperience r (store_interaction key (ii_endpoint input) r s)) ;!
      jret (r, false)
  end.

Definition inspectHistory (ref : string) (s : interactions) : list interaction :=
  default [] (jget ref (ix_revisions s)).

Definition setGlobalReputation (ref : string) (score : jsnum) : method interactions interaction_error unit :=
  jlift (require (isFinite score && negb (num_lt score (num 0)) && negb (num_lt (num 1) score)) INVALID_INTERACTION) ;!
  let! s := jread in
  jwrite (Interactions (op_workspace s) (op_node s) (op_agent s) (op_threshold s) (ix_records s) (ix_revisions s)
            (ix_experience s) (jset ref score (globalReputation s)) (unresolvedFailures s)).

Definition getGlobalReputation (ref : string) (s : interactions) : option jsnum := jget ref (globalReputation s).

Definition list_interactions (s : interactions) : list interaction := jvalues (ix_records s).

(** One call, returning or throwing. *)
Inductive interaction_step (s : interactions) : interactions -> Prop :=
| ix_record input now s' r : record input now s = (s', r) -> interaction_step s s'
| ix_reputation ref score s' r : setGlobalReputation ref score s = (s', r) -> interaction_step s s'.

(** ** The experience a list of records stands for *)

Definition with_outcome (P : outcome -> bool) (rs : list interaction) : list interaction :=
  filter (fun r => P (ix_outcome r) = true) rs.
Definition count_outcome (o : outcome) (rs : list interaction) : Z :=
  Z.of_nat (length (with_outcome (fun o' => bool_decide (o' = o)) rs)).
Definition is_failure (o : outcome) : bool := bool_decide (o = O_FAILURE) || bool_decide (o = O_TIMEOUT).

(** The last record that was not cancelled, if any, succeeded. *)
Definition settled (rs : list interaction) : bool :=
  match last (with_outcome (fun o => negb (bool_decide (o = O_CANCELLED))) rs) with
  | Some r => bool_decide (ix_outcome r = O_SUCCESS)
  | None => true
  end.

Definition experience_of (threshold : option Z) (ref : string) (all : list interaction) : experience :=
  let rs := filter (fun r => endpoint_ref r = ref) all in
  Experience ref (default 0 (endpoint_revision <$> last rs)) (Z.of_nat (length rs))
    (count_outcome O_SUCCESS rs) (count_outcome O_FAILURE rs) (count_outcome O_CANCELLED rs)
    (count_outcome O_TIMEOUT rs)
    (ix_observed_at <$> last rs)
    (ix_observed_at <$> last (with_outcome (fun o => bool_decide (o = O_SUCCESS)) rs))
    (ix_observed_at <$> last (with_outcome is_failure rs))
    (if bool_decide (rs = []) then NEVER_USED
     else if bool_decide (Z.max 1 (default 3 threshold) <= count_outcome O_SUCCESS rs) && settled rs
     then TRUSTED_BY_HISTORY else USED).

Definition counted (s : interactions) : Prop :=
  (forall ref, getExperience ref s = experience_of (op_threshold s) ref (list_interactions s)) /\
  (forall ref, default false (jget ref (unresolvedFailures s))
     = negb (settled (filter (fun r => endpoint_ref r = ref) (list_interactions s)))).

Lemma with_outcome_snoc P rs r :
  with_outcome P (rs ++ [r]) = with_outcome P rs ++ (if P (ix_outcome r) then [r] else []).
Proof.
  unfold with_outcome. rewrite filter_app. f_equal. destruct (P (ix_outcome r)) eqn:HP.
  - by rewrite filter_cons_True.
  - by rewrite filter_cons_False by (by rewrite HP).
Qed.

Lemma count_outcome_snoc o rs r :
  count_outcome o (rs ++ [r]) = count_outcome o rs + bump (bool_decide (ix_outcome r = o)).
Proof.
  unfold count_outcome. rewrite with_outcome_snoc, length_app. case_bool_decide; simpl; lia.
Qed.

Lemma settled_snoc rs r :
  settled (rs ++ [r]) = match ix_outcome r with O_SUCCESS => true | O_CANCELLED => settled rs | _ => false end.
Proof.
  unfold settled. rewrite with_outcome_snoc. destruct (ix_outcome r) eqn:Ho; simpl; rewrite ?last_snoc, ?Ho, ?app_nil_r; done.
Qed.

Lemma unresolved_update ref r s :
  counted s -> endpoint_ref r = ref ->
  default false (jget ref (unresolvedFailures (updateExperience r s)))
    = negb (settled (filter (fun r => endpoint_ref r = ref) (list_interactions s) ++ [r])).
Proof.
  intros [_ Hu] <-. rewrite settled_snoc. unfold updateExperience. cbn [unresolvedFailures].
  destruct (ix_outcome r) eqn:Ho; simpl; rewrite ?jget_jset_eq; simpl; [done..| |done]. apply Hu.
Qed.

(** The counters after one more record. *)
Lemma experience_update r s :
  counted s ->
  getExperience (endpoint_ref r) (updateExperience r s)
    = experience_of (op_threshold s) (endpoint_ref r) (list_interactions s ++ [r]).
Proof.
  intros Hc. pose proof (unresolved_update _ r s Hc eq_refl) as Hu. destruct Hc as [He _].
  unfold getExperience at 1. unfold updateExperience at 1. cbn [ix_experience]. rewrite jget_jset_eq. cbn [default].
  change (default false (jget (endpoint_ref r) _))
    with (default false (jget (endpoint_ref r) (unresolvedFailures (updateExperience r s)))). rewrite Hu, negb_involutive.
  rewrite He. unfold experience_of. cbn [interactionCount successfulCount failedCount cancelledCount timeoutCount
    lastSuccessAt lastFailureAt]. rewrite filter_app, (filter_cons_True _ r) by done. rewrite filter_nil.
  set (rs := filter _ (list_interactions s)). rewrite !count_outcome_snoc, !last_snoc, !with_outcome_snoc, length_app.
  rewrite (bool_decide_eq_false_2 (rs ++ [r] = [])) by (by destruct rs).
  unfold id. f_equal; [cbn [length]; lia|..]; unfold is_failure; destruct (ix_outcome r) eqn:Ho; simpl; rewrite ?last_snoc, ?app_nil_r; done.
Qed.

Lemma experience_other ref r s : endpoint_ref r <> ref ->
  getExperience ref (updateExperience r s) = getExperience ref s /\
  jget ref (unresolvedFailures (updateExperience r s)) = jget ref (unresolvedFailures s).
Proof.
  intros Hne. unfold getExperience, updateExperience. cbn [ix_experience unresolvedFailures].
  rewrite jget_jset_ne by done. split; [done|].
  destruct (ix_outcome r); simpl; rewrite ?jget_jset_ne by done; done.
Qed.

Lemma filter_endpoint_other ref r rs : endpoint_ref r <> ref ->
  filter (fun r => endpoint_ref r = ref) (rs ++ [r]) = filter (fun r => endpoint_ref r = ref) rs.
Proof. intros Hne. rewrite filter_app, filter_cons_False, filter_nil by done. apply app_nil_r. Qed.

Lemma counted_record key ref r s :
  counted s -> jget key (ix_records s) = None -> counted (updateExperience r (store_interaction key ref r s)).
Proof.
  intros Hc Hk. set (s1 := store_interaction key ref r s).
  assert (Hl : list_interactions (updateExperience r s1) = list_interactions s ++ [r]).
  { unfold list_interactions. simpl. rewrite jset_fresh by done. unfold jvalues. by rewrite map_app. }
  assert (Hu : forall ref', getExperience ref' (updateExperience r s1) = getExperience ref' (updateExperience r s) /\
               unresolvedFailures (updateExperience r s1) = unresolvedFailures (updateExperience r s)) by done.
  split; intros ref'; rewrite Hl; destruct (Hu ref') as [Hu1 Hu2]; rewrite ?Hu1, ?Hu2;
    (destruct (decide (endpoint_ref r = ref')) as [Heq|Hne]; [subst ref'|]).
  - change (op_threshold (updateExperience r s1)) with (op_threshold s). by apply experience_update.
  - change (op_threshold (updateExperience r s1)) with (op_threshold s). destruct (experience_other ref' r s Hne) as [-> _]. destruct Hc as [-> _].
    unfold experience_of. by rewrite filter_endpoint_other.
  - rewrite filter_app, filter_cons_True, filter_nil by done. by apply unresolved_update.
  - destruct (experience_other ref' r s Hne) as [_ ->]. destruct Hc as [_ ->]. by rewrite filter_endpoint_other.
Qed.

Lemma counted_step s s' : counted s -> interaction_step s s' -> counted s'.
Proof.
  intros Hc [input now s1 r H|ref score s1 r H].
  - unfold record, jbind, jread, jlift, jwrite, jret in H. destruct (jget _ (ix_records s)) eqn:Hk; [by simplify_eq|].
    destruct (require _ _); [|by simplify_eq]. destruct (nonneg_int _); simpl in H; [|by simplify_eq].
    destruct now; simpl in H; [|by simplify_eq].
    destruct (spatialInteractionProvenanceSchema _); simpl in H; simplify_eq; [|done]. by apply counted_record.
  - unfold setGlobalReputation, jbind, jread, jlift, jwrite in H. destruct (require _ _); by simplify_eq.
Qed.

(** The counters the service keeps per endpoint are exactly what its
    records say: after every history of calls, refused ones and duplicates
    included, the experience of an endpoint equals the one recomputed from the
    stored records of that endpoint in their order, with the number of records
    of each outcome, the times of the last use, success and failure, and trust
    exactly when enough records succeeded and no failure or timeout is the latest
    settled outcome. *)
Theorem experience_is_recomputed ws node agent threshold s ref :
  rtc interaction_step (new_interactions ws node agent threshold) s ->
  getExperience ref s = experience_of threshold ref (list_interactions s).
Proof.
  intros H. enough (counted s /\ op_threshold s = threshold) as [[Hc _] <-] by apply Hc.
  assert (H0 : counted (new_interactions ws node agent threshold)) by done.
  assert (Ht : op_threshold (new_interactions ws node agent threshold) = threshold) by done.
  revert H0 Ht. induction H as [|s1 s2 s3 Hs _ IH]; [done|]. intros Hc Ht.
  apply IH; [by eapply counted_step|]. rewrite <-Ht. destruct Hs as [input now s' r H|x score s' r H].
  - unfold record in H. run_method H; done.
  - unfold setGlobalReputation in H. run_method H; done.
Qed.
End service.

Module InteractionsWitness.
Definition used (endpoint key : string) (o : outcome) : interaction_input :=
  InteractionInput "req" endpoint (NInt 1) None o None None key.
Definition s0 : interactions := new_interactions "w" "n" "agent" (Some 2).
Definition s1 : interactions := (record (zod := zod_ref) (used "e" "k1" O_SUCCESS) (Some 10) s0).1.
Definition s2 : interactions := (record (zod := zod_ref) (used "e" "k2" O_TIMEOUT) (Some 20) s1).1.
Definition s3 : interactions := (record (zod := zod_ref) (used "e" " k2 " O_SUCCESS) (Some 25) s2).1.
Definition s4 : interactions := (record (zod := zod_ref) (used "e" "k3" O_SUCCESS) (Some 30) s3).1.

Lemma experience_is_recomputed_witness :
  getExperience "e" s4 = experience_of (Some 2) "e" (list_interactions s4) /\
  getExperience "e" s4 = Experience "e" 1 3 2 0 0 1 (Some 30) (Some 30) (Some 20) TRUSTED_BY_HISTORY.
Proof.
  split; [|vm_compute; reflexivity].
  apply (experience_is_recomputed (zod := zod_ref) "w" "n" "agent" (Some 2) s4 "e").
  apply (rtc_l _ s0 s1); [exact (ix_record s0 _ _ s1 _ (surjective_pairing _))|].
  apply (rtc_l _ s1 s2); [exact (ix_record s1 _ _ s2 _ (surjective_pairing _))|].
  apply (rtc_l _ s2 s3); [exact (ix_record s2 _ _ s3 _ (surjective_pairing _))|].
  apply (rtc_l _ s3 s4); [exact (ix_record s3 _ _ s4 _ (surjective_pairing _))|]. apply rtc_refl.
Defined.

(** An endpoint reference with spaces around it: the counters are kept under
    the trimmed reference and the history under the one given, so the history of
    the endpoint misses the record its counters have. *)
Theorem padded_endpoint_splits_history :
  let s := (record (zod := zod_ref) (used " e" "k4" O_FAILURE) (Some 40) s4).1 in
  interactionCount (getExperience "e" s) = 4 /\ length (inspectHistory "e" s) = 3%nat.
Proof. vm_compute. done. Qed.
End InteractionsWitness.
