(* ===== verification/Attention.v ===== *)
(** * The attention queue, its markers and its focus

    src/web/operator-dashboard/src/spatial/topology/attention.ts. Timestamps
    with four-digit years compare as the instants they denote, which is how the
    queue sorts them. The phase of an orbital marker is a function of the index
    it was first drawn at; the model keeps that index. *)

From Stdlib Require Import QArith.
From S2P Require Import Prelude.
From S2P Require Import Json.
From S2P Require Import Contracts.
From S2P Require Import Text.

#[local] Open Scope Z_scope.

(** ** Data *)

Inductive severity : Type := INFORMATION | COMPLETED | ATTENTION | ACTION_REQUIRED | CRITICAL.
#[export] Instance severity_eq_dec : EqDecision severity.
Proof. solve_decision. Defined.

Inductive attention_state : Type :=
| UNREAD | SEEN | ACKNOWLEDGED | RESOLVED | ARCHIVED | DISMISSED | AGGREGATED.
#[export] Instance attention_state_eq_dec : EqDecision attention_state.
Proof. solve_decision. Defined.

Inductive attention_type : Type :=
| AUTONOMOUS_EVENT | ENDPOINT_FAILURE | TASK_COMPLETE | APPROVAL | FRESHNESS | SECURITY.
#[export] Instance attention_type_eq_dec : EqDecision attention_type.
Proof. solve_decision. Defined.

(** [SpatialAttentionItem]. *)
Record item : Type := Item {
  attention_id : string;
  source_event_ref : string;
  subject_ref : string;
  it_node : string;
  it_workspace : string;
  target_agent_ref : string;
  it_type : attention_type;
  it_severity : severity;
  it_state : attention_state;
  summary : string;
  it_created_at : iso;
  acknowledged_at : option iso;
  redaction_profile_ref : option string;
  grouping_key : string;
  session_ref : option string;
  required_action : option string;
  it_provenance : option string;
}.
#[export] Instance item_eq_dec : EqDecision item.
Proof. solve_decision. Defined.

(** [RaiseAttentionInput]. *)
Record raise_input : Type := RaiseInput {
  ri_source : string;
  ri_subject : string;
  ri_severity : severity;
  ri_type : option attention_type;
  ri_summary : string;
  ri_grouping : string;
  ri_redaction : option string;
  ri_session : option string;
  ri_required : option string;
  ri_provenance : option string;
}.

Inductive queue_error : Type := INVALID_ITEM | UNKNOWN_ITEM | INVALID_TRANSITION | SCOPE_MISMATCH | AQ_RANGE_ERROR.
#[export] Instance queue_error_eq_dec : EqDecision queue_error.
Proof. solve_decision. Defined.

Definition severityRank (s : severity) : Z :=
  match s with INFORMATION => 1 | COMPLETED => 2 | ATTENTION => 3 | ACTION_REQUIRED => 4 | CRITICAL => 5 end.

(** ** The summary *)

Definition is_char (c : ascii) : ascii -> bool := fun d => bool_decide (d = c).
Definition nonspace (c : ascii) : bool := negb (is_js_space c).

(** [/<[^>]+>/]. *)
Definition tag : matcher := fun s =>
  s ← eat (is_char "<") s;
  s ← eat (fun c => negb (is_char ">" c)) s;
  eat (is_char ">") (skip (fun c => negb (is_char ">" c)) s).

(** [api[_ -]?key]. *)
Definition api_key : matcher := fun s =>
  s ← word "api" s;
  word "key" (default s (eat (fun c => is_char "_" c || is_char " " c || is_char "-" c) s)).

(** [token|secret|password|api[_ -]?key]. *)
Definition secret_name : matcher := fun s =>
  match word "token" s with
  | Some r => Some r
  | None =>
      match word "secret" s with
      | Some r => Some r
      | None => match word "password" s with Some r => Some r | None => api_key s end
      end
  end.

(** [/(?:token|secret|password|api[_ -]?key)\s*[:=]\s*\S+/i]. *)
Definition secret_assignment : matcher := fun s =>
  s ← secret_name s;
  s ← eat (fun c => is_char ":" c || is_char "=" c) (skip is_js_space s);
  s ← eat nonspace (skip is_js_space s);
  Some (skip nonspace s).

(** The pattern has no group, so [$1] stands for itself in the replacement. *)
Definition redactSummary (s : string) : string :=
  slice 240 (trim (replace secret_assignment "$1: [redacted]" (replace tag "" s))).

(** ** The queue *)

Record queue : Type := Queue {
  q_workspace : string;
  q_node : string;
  q_agent : string;
  maxItems : Z;
  items : jsmap item;
  sourceIndex : jsmap string;
  connected : bool;
}.

Definition set_items (m : jsmap item) (q : queue) : queue :=
  Queue (q_workspace q) (q_node q) (q_agent q) (maxItems q) m (sourceIndex q) (connected q).
Definition set_maps (m : jsmap item) (i : jsmap string) (q : queue) : queue :=
  Queue (q_workspace q) (q_node q) (q_agent q) (maxItems q) m i (connected q).

Definition new_queue (ws node agent : string) (max : option Z) : queue :=
  Queue ws node agent (Z.max 1 (Z.min 100000 (default 10000 max))) [] [] true.

Definition removable (it : item) : bool :=
  bool_decide (it_severity it <> CRITICAL) && bool_decide (it_state it <> UNREAD).

Definition older (a b : item) : bool := bool_decide (it_created_at a <= it_created_at b).

(** The loop of [trim]. *)
Fixpoint trim_loop (l : list item) (q : queue) : queue :=
  match l with
  | [] => q
  | it :: l =>
      if bool_decide (maxItems q < Z.of_nat (length (items q))) then
        trim_loop l (set_maps (jdelete (attention_id it) (items q)) (jdelete (source_event_ref it) (sourceIndex q)) q)
      else q
  end.

(** [trim()]. *)
Definition trim_queue (q : queue) : queue :=
  if bool_decide (Z.of_nat (length (items q)) <= maxItems q) then q
  else trim_loop (sort_by older (filter (fun it => removable it = true) (jvalues (items q)))) q.

Definition get (id : string) (q : queue) : result queue_error item := of_option (jget id (items q)) UNKNOWN_ITEM.

Definition closed (s : attention_state) : bool :=
  match s with RESOLVED | ARCHIVED | DISMISSED => true | _ => false end.

(** [compare(left, right) <= 0] in [list]. *)
Definition more_urgent (l r : item) : bool :=
  let d := severityRank (it_severity r) - severityRank (it_severity l) in
  if bool_decide (d = 0) then bool_decide (it_created_at r <= it_created_at l) else bool_decide (d < 0).

Definition list_items (includeResolved : bool) (q : queue) : list item :=
  sort_by more_urgent (filter (fun it => includeResolved || negb (closed (it_state it)) = true) (jvalues (items q))).

(** The table [allowed] of [transition]. *)
Definition allowed (s : attention_state) : list attention_state :=
  match s with
  | UNREAD => [SEEN; DISMISSED; AGGREGATED; ARCHIVED]
  | SEEN => [ACKNOWLEDGED; DISMISSED; AGGREGATED; ARCHIVED]
  | ACKNOWLEDGED => [RESOLVED; DISMISSED; ARCHIVED]
  | AGGREGATED => [SEEN; ACKNOWLEDGED; DISMISSED; ARCHIVED]
  | RESOLVED => [ARCHIVED]
  | DISMISSED => [ARCHIVED]
  | ARCHIVED => []
  end.

Definition with_state (s : attention_state) (ack : option iso) (it : item) : item :=
  Item (attention_id it) (source_event_ref it) (subject_ref it) (it_node it) (it_workspace it) (target_agent_ref it)
    (it_type it) (it_severity it) s (summary it) (it_created_at it) ack (redaction_profile_ref it) (grouping_key it)
    (session_ref it) (required_action it) (it_provenance it).

(** [transition(attentionId, state)]. *)
Definition transition (id : string) (s : attention_state) (now : date) : method queue queue_error item :=
  let! q := jread in
  let! current := jlift (get id q) in
  jlift (require (bool_decide (it_state current = s) || bool_decide (s ∈ allowed (it_state current)))
           INVALID_TRANSITION) ;!
  let! ack := if bool_decide (s = ACKNOWLEDGED) && bool_decide (acknowledged_at current = None)
              then let! t := jlift (of_option now AQ_RANGE_ERROR) in jret (Some t)
              else jret (acknowledged_at current) in
  let next := with_state s ack current in
  jwrite (set_items (jset id next (items q)) q) ;!
  jret next.

Definition markSeen (id : string) := transition id SEEN.
Definition acknowledge (id : string) := transition id ACKNOWLEDGED.
Definition resolve_item (id : string) := transition id RESOLVED.
Definition dismiss (id : string) := transition id DISMISSED.
Definition archive (id : string) := transition id ARCHIVED.

Fixpoint markAggregated (ids : list string) (now : date) : method queue queue_error (list item) :=
  match ids with
  | [] => jret []
  | id :: ids =>
      let! x := transition id AGGREGATED now in
      let! xs := markAggregated ids now in
      jret (x :: xs)
  end.

Definition setConnected (b : bool) (q : queue) : queue :=
  Queue (q_workspace q) (q_node q) (q_agent q) (maxItems q) (items q) (sourceIndex q) b.

Definition reconnect (q : queue) : queue * list item := let q := setConnected true q in (q, list_items false q).

Definition snapshot (q : queue) : list item * bool := (jvalues (items q), connected q).

Section contracts.
Context {zod : Zod}.

Definition spatialAttentionItemSchema (it : item) : option item :=
  id ← idSchema (attention_id it);
  source ← idSchema (source_event_ref it);
  subject ← idSchema (subject_ref it);
  node ← idSchema (it_node it);
  ws ← idSchema (it_workspace it);
  agent ← idSchema (target_agent_ref it);
  text ← labelSchema (summary it);
  created ← timestampSchema (it_created_at it);
  acked ← nullable timestampSchema (acknowledged_at it);
  redaction ← nullable idSchema (redaction_profile_ref it);
  grouping ← idSchema (grouping_key it);
  session ← nullable idSchema (session_ref it);
  required ← nullable idSchema (required_action it);
  prov ← nullable idSchema (it_provenance it);
  Some (Item id source subject node ws agent (it_type it) (it_severity it) (it_state it) text created acked redaction
          grouping session required prov).

Definition store_item (it : item) (q : queue) : queue :=
  set_maps (jset (attention_id it) it (items q)) (jset (source_event_ref it) (attention_id it) (sourceIndex q)) q.

(** The item [raise] builds. *)
Definition raised (input : raise_input) (t : iso) (q : queue) : item :=
  Item ("attention:" +:+ ri_source input) (ri_source input) (ri_subject input) (q_node q) (q_workspace q) (q_agent q)
    (default AUTONOMOUS_EVENT (ri_type input)) (ri_severity input) UNREAD (redactSummary (ri_summary input)) t None
    (ri_redaction input) (ri_grouping input) (ri_session input) (ri_required input) (ri_provenance input).

(** [raise(input)]; the boolean is [duplicate]. *)
Definition raise (input : raise_input) (now : date) : method queue queue_error (item * bool) :=
  let! q := jread in
  if truthy (jget (ri_source input) (sourceIndex q)) then
    let! it := jlift (get (default ""%string (jget (ri_source input) (sourceIndex q))) q) in
    jret (it, true)
  else
    jlift (require (negb (str_eqb (trim (ri_source input)) "") && negb (str_eqb (trim (ri_subject input)) "")
                    && negb (str_eqb (trim (ri_summary input)) "")) INVALID_ITEM) ;!
    let! t := jlift (of_option now AQ_RANGE_ERROR) in
    let! it := jlift (of_option (spatialAttentionItemSchema (raised input t q)) INVALID_ITEM) in
    jwrite (trim_queue (store_item it q)) ;!
    jret (it, false).

(** One item of a snapshot. *)
Definition restore_item (it : item) : method queue queue_error unit :=
  let! parsed := jlift (of_option (spatialAttentionItemSchema it) INVALID_ITEM) in
  let! q := jread in
  jlift (require (str_eqb (it_workspace parsed) (q_workspace q) && str_eqb (it_node parsed) (q_node q)
                  && str_eqb (target_agent_ref parsed) (q_agent q)) SCOPE_MISMATCH) ;!
  jwrite (store_item parsed q).

(** [restore(snapshot)]. *)
Definition restore (its : list item) (conn : option bool) : method queue queue_error unit :=
  let! q := jread in
  jwrite (set_maps [] [] q) ;!
  jforeach restore_item its ;!
  let! q := jread in
  jwrite (trim_queue (setConnected (default true conn) q)).

(** ** Markers *)

Inductive lane : Type := INNER | MIDDLE | OUTER.
#[export] Instance lane_eq_dec : EqDecision lane.
Proof. solve_decision. Defined.

Inductive presentation_state : Type := ORBITING_UNREAD | PS_AGGREGATED | SELECTED.
#[export] Instance presentation_state_eq_dec : EqDecision presentation_state.
Proof. solve_decision. Defined.

(** [SpatialAttentionMarker]; [phase_index] is the index its phase comes from. *)
Record marker : Type := Marker {
  marker_id : string;
  attention_ref : string;
  mk_workspace : string;
  mk_node : string;
  orbit_lane : lane;
  radius : Q;
  phase_index : Z;
  angular_velocity : Q;
  mk_severity : severity;
  mk_type : attention_type;
  unread : bool;
  mk_state : presentation_state;
  aggregation_count : Z;
  reduced_motion : bool;
  mk_updated_at : iso;
}.

Record markers : Type := Markers {
  m_workspace : string;
  m_node : string;
  m_maxVisible : option Z;
  m_reducedMotion : option bool;
  slots : jsmap (lane * Z);
  hidden : list string;
}.

Definition is_urgent (s : severity) : bool := bool_decide (s = CRITICAL) || bool_decide (s = ACTION_REQUIRED).

Definition lane_of (s : severity) : lane :=
  if is_urgent s then INNER else if bool_decide (s = COMPLETED) then MIDDLE else OUTER.
Definition radius_of (l : lane) : Q := match l with INNER => 18 # 10 | MIDDLE => 25 # 10 | OUTER => 32 # 10 end.
Definition velocity_of (l : lane) : Q := match l with INNER => 18 # 1000 | MIDDLE => 12 # 1000 | OUTER => 8 # 1000 end.

(** [spatialAttentionMarkerSchema]: the numbers are constants or counts it
    accepts, [aggregation_count] must be positive. *)
Definition spatialAttentionMarkerSchema (k : marker) : option marker :=
  id ← idSchema (marker_id k);
  ref ← idSchema (attention_ref k);
  ws ← idSchema (mk_workspace k);
  node ← idSchema (mk_node k);
  count ← if bool_decide (0 < aggregation_count k) then Some (aggregation_count k) else None;
  t ← timestampSchema (mk_updated_at k);
  Some (Marker id ref ws node (orbit_lane k) (radius k) (phase_index k) (angular_velocity k) (mk_severity k) (mk_type k)
          (unread k) (mk_state k) count (reduced_motion k) t).

(** [markerFor(item, index, aggregationCount, grouped)]. *)
Definition markerFor (it : item) (index count : Z) (grouped : bool) (now : date) : method markers queue_error marker :=
  let! m := jread in
  let l := lane_of (it_severity it) in
  let phase := default index (snd <$> jget (attention_id it) (slots m)) in
  jwrite (Markers (m_workspace m) (m_node m) (m_maxVisible m) (m_reducedMotion m)
            (jset (attention_id it) (l, phase) (slots m)) (hidden m)) ;!
  let! t := jlift (of_option now AQ_RANGE_ERROR) in
  let still := default false (m_reducedMotion m) in
  jlift (of_option (spatialAttentionMarkerSchema
    (Marker ("marker:" +:+ attention_id it) (attention_id it) (m_workspace m) (m_node m) l (radius_of l) phase
       (if still then 0 else velocity_of l) (it_severity it) (it_type it) (bool_decide (it_state it = UNREAD))
       (if grouped then PS_AGGREGATED else if bool_decide (it_state it = UNREAD) then ORBITING_UNREAD else SELECTED)
       count still t)) INVALID_ITEM).

Definition severity_name (s : severity) : string :=
  match s with
  | INFORMATION => "INFORMATION" | COMPLETED => "COMPLETED" | ATTENTION => "ATTENTION"
  | ACTION_REQUIRED => "ACTION_REQUIRED" | CRITICAL => "CRITICAL"
  end.

Definition group_key (it : item) : string := grouping_key it +:+ ":" +:+ severity_name (it_severity it).

(** The groups, in the order of their first items. *)
Definition group_items (l : list item) : jsmap (list item) :=
  foldl (fun gs it => jset (group_key it) (default [] (jget (group_key it) gs) ++ [it]) gs) [] l.

Record entry : Type := Entry { en_item : item; en_count : Z; en_grouped : bool }.

Definition group_entry (g : list item) : option entry :=
  it ← head g; Some (Entry it (Z.of_nat (length g)) (bool_decide (1 < length g)%nat)).

(** The entries [project] draws. *)
Definition project_entries (its : list item) (m : markers) : list entry :=
  let maxVisible := Z.max 1 (Z.min 32 (default 8 (m_maxVisible m))) in
  let active := filter (fun it => closed (it_state it) = false /\ attention_id it ∉ hidden m) its in
  let critical := filter (fun it => is_urgent (it_severity it) = true) active in
  let regular := filter (fun it => is_urgent (it_severity it) = false) active in
  let grouped := sort_by (fun a b => more_urgent (en_item a) (en_item b))
                   (omap group_entry (jvalues (group_items regular))) in
  let regularSlots := Z.max 0 (maxVisible - Z.of_nat (length critical)) in
  map (fun it => Entry it 1 false) critical ++ take (Z.to_nat regularSlots) grouped.

Fixpoint draw (index : Z) (es : list entry) (now : date) : method markers queue_error (list marker) :=
  match es with
  | [] => jret []
  | e :: es =>
      let! k := markerFor (en_item e) index (en_count e) (en_grouped e) now in
      let! ks := draw (index + 1) es now in
      jret (k :: ks)
  end.

Definition project (its : list item) (now : date) : method markers queue_error (list marker) :=
  let! m := jread in
  draw 0 (project_entries its m) now.

Definition hide (id : string) (m : markers) : markers :=
  Markers (m_workspace m) (m_node m) (m_maxVisible m) (m_reducedMotion m) (slots m)
    (if decide (id ∈ hidden m) then hidden m else hidden m ++ [id]).
Definition show (id : string) (m : markers) : markers :=
  Markers (m_workspace m) (m_node m) (m_maxVisible m) (m_reducedMotion m) (slots m) (filter (fun h => h <> id) (hidden m)).
Definition isHidden (id : string) (m : markers) : bool := bool_decide (id ∈ hidden m).

(** ** Focus *)

Inductive focus_state : Type := INSPECTING | FOCUSED | RETURNED | SOURCE_UNAVAILABLE.
#[export] Instance focus_state_eq_dec : EqDecision focus_state.
Proof. solve_decision. Defined.

Inductive attention_action : Type :=
| INSPECT | ACKNOWLEDGE | DISMISS | ARCHIVE | OPEN_SOURCE | PROPOSE_ACTION | SHOW_IN_WORKSPACE | RETURN_VIEWPORT.

(** [SpatialAttentionFocus]; [world_position_preserved] is always true. *)
Record focus : Type := Focus {
  focus_id : string;
  fc_attention : string;
  fc_workspace : string;
  fc_node : string;
  fc_state : focus_state;
  previous_viewport : option string;
  source_available : bool;
  fc_created_at : iso;
  fc_updated_at : iso;
}.

Inductive focus_error : Type := F_QUEUE (e : queue_error) | F_SOURCE_UNAVAILABLE | F_INVALID_ACTION.

Definition set_focus_state (s : focus_state) (f : focus) : focus :=
  Focus (focus_id f) (fc_attention f) (fc_workspace f) (fc_node f) s (previous_viewport f) (source_available f)
    (fc_created_at f) (fc_updated_at f).

Definition spatialAttentionFocusSchema (f : focus) : option focus :=
  id ← idSchema (focus_id f);
  att ← idSchema (fc_attention f);
  ws ← idSchema (fc_workspace f);
  node ← idSchema (fc_node f);
  prev ← nullable idSchema (previous_viewport f);
  created ← timestampSchema (fc_created_at f);
  updated ← timestampSchema (fc_updated_at f);
  Some (Focus id att ws node (fc_state f) prev (source_available f) created updated).

(** The controller: its scope, the queue it shares, the current focus. *)
Record controller : Type := Controller {
  c_workspace : string;
  c_node : string;
  c_queue : queue;
  current_focus : option focus;
}.

Definition set_current (f : focus) (c : controller) : controller :=
  Controller (c_workspace c) (c_node c) (c_queue c) (Some f).

(** Run a queue method on the shared queue. *)
Definition on_queue {A} (m : method queue queue_error A) : method controller focus_error A :=
  fun c =>
    let '(q, r) := m (c_queue c) in
    (Controller (c_workspace c) (c_node c) q (current_focus c),
     match r with Ok a => Ok a | Err e => Err (F_QUEUE e) end).

(** [available] is [sourceAvailable], constantly true when absent; [propose]
    is [onProposeAction], [None] when absent or not accepted. *)
Context (available : string -> bool) (propose : item -> option (option string)).

(** [focus(attentionId, previousViewportRef)]. *)
Definition focus_on (id : string) (previous : option string) (now : date) : method controller focus_error focus :=
  let! it := on_queue (fun q => (q, get id q)) in
  let av := available (subject_ref it) in
  let! t := jlift (of_option now (F_QUEUE AQ_RANGE_ERROR)) in
  let! c := jread in
  let! parsed := jlift (of_option (spatialAttentionFocusSchema
    (Focus ("focus:" +:+ id) id (c_workspace c) (c_node c) (if av then FOCUSED else SOURCE_UNAVAILABLE) previous av t t))
    F_INVALID_ACTION) in
  jwrite (set_current parsed c) ;!
  (if bool_decide (it_state it = UNREAD) then on_queue (markSeen id now) ;! jret tt else jret tt) ;!
  jret parsed.

Definition current_or_focus (id : string) (now : date) : method controller focus_error focus :=
  let! c := jread in
  match current_focus c with
  | Some f => if str_eqb (fc_attention f) id then jret f else focus_on id None now
  | None => focus_on id None now
  end.

Definition inspecting (f : focus) : focus :=
  if bool_decide (fc_state f = SOURCE_UNAVAILABLE) then f else set_focus_state INSPECTING f.

Definition inspect (id : string) (now : date) : method controller focus_error focus :=
  let! f := current_or_focus id now in jret (inspecting f).

Definition returnFromFocus (now : date) : method controller focus_error focus :=
  let! c := jread in
  let! f := jlift (of_option (current_focus c) F_INVALID_ACTION) in
  let! t := jlift (of_option now (F_QUEUE AQ_RANGE_ERROR)) in
  let f' := Focus (focus_id f) (fc_attention f) (fc_workspace f) (fc_node f) RETURNED (previous_viewport f)
              (source_available f) (fc_created_at f) t in
  jwrite (set_current f' c) ;!
  jret f'.

(** [execute(action, attentionId)]: the focus and the plan reference. *)
Definition execute (a : attention_action) (id : string) (now : date)
  : method controller focus_error (focus * option string) :=
  let! f := current_or_focus id now in
  let! it := on_queue (fun q => (q, get id q)) in
  match a with
  | INSPECT => jret (inspecting f, None)
  | ACKNOWLEDGE => on_queue (acknowledge id now) ;! jret (f, None)
  | DISMISS => on_queue (dismiss id now) ;! jret (f, None)
  | ARCHIVE => on_queue (archive id now) ;! jret (f, None)
  | OPEN_SOURCE => jlift (require (source_available f) F_SOURCE_UNAVAILABLE) ;! jret (f, None)
  | SHOW_IN_WORKSPACE => jret (f, None)
  | PROPOSE_ACTION =>
      let! plan := jlift (of_option (propose it) F_INVALID_ACTION) in jret (f, plan)
  | RETURN_VIEWPORT => let! f' := returnFromFocus now in jret (f', None)
  end.

Definition getCurrent (c : controller) : option focus := current_focus c.
End contracts.
