(* ===== verification/AttentionProps.v ===== *)
(** * Properties of the attention queue

    No secret assignment survives in a summary; what one call does to an item;
    critical and unread items are never trimmed; the list is the open items in
    order of urgency; snapshots restore; urgent items always have a marker of
    their own. Every theorem about histories is about the step relations
    [queue_step] and [clean_step] below. *)

From Stdlib Require Import Sorted.
From stdpp Require Import relations.
From S2P Require Import Prelude.
From S2P Require Import Json.
From S2P Require Import Contracts.
From S2P Require Import Text.
From S2P Require Import Attention.

#[local] Open Scope Z_scope.

(** ** The summary *)

(** The parsers of the pattern on a redacted text: where they accept it, they
    accept the original. *)
Definition redact : string -> string := replace secret_assignment "$1: [redacted]".

Definition tracks (m : matcher) : Prop :=
  forall s r', m (redact s) = Some r' -> exists r, m s = Some r /\ r' = redact r.

(** A name reads its first letter. *)
Lemma secret_name_first c s r :
  secret_name (String c s) = Some r -> ascii_lower c ∈ ["t"; "s"; "p"; "a"]%char /\ is_suffix r s.
Proof.
  unfold secret_name. destruct (word "token" _) eqn:H1; [intros [= <-]; apply word_first in H1 as [-> ?]; set_solver|].
  destruct (word "secret" _) eqn:H2; [intros [= <-]; apply word_first in H2 as [-> ?]; set_solver|].
  destruct (word "password" _) eqn:H3; [intros [= <-]; apply word_first in H3 as [-> ?]; set_solver|].
  unfold api_key. intros (s1 & Ha & Hk)%bind_Some. apply word_first in Ha as [-> Ha]. split; [set_solver|].
  eapply is_suffix_trans; [by eapply word_consumes|]. eapply is_suffix_trans; [|exact Ha].
  destruct (eat _ s1) eqn:He; simpl; [by eapply eat_consumes | apply is_suffix_refl].
Qed.

Lemma first_letter_nonspace c : ascii_lower c ∈ ["t"; "s"; "p"; "a"]%char -> is_js_space c = false.
Proof.
  intros H. rewrite !elem_of_cons, elem_of_nil in H.
  destruct c as [[] [] [] [] [] [] [] []]; vm_compute in H |- *; naive_solver.
Qed.

Lemma secret_assignment_first c s r :
  secret_assignment (String c s) = Some r -> is_js_space c = false /\ is_suffix r s.
Proof.
  intros (x & Hx & (y & Hy & (z & Hz & [= <-])%bind_Some)%bind_Some)%bind_Some.
  apply secret_name_first in Hx as [Hc Hx]. split; [by apply first_letter_nonspace|].
  eapply is_suffix_trans; [apply skip_suffix|]. eapply is_suffix_trans; [by eapply eat_consumes|].
  eapply is_suffix_trans; [apply skip_suffix|]. eapply is_suffix_trans; [by eapply eat_consumes|].
  eapply is_suffix_trans; [apply skip_suffix|]. done.
Qed.

(** A redacted text starts with the mark, or with the first character of the
    text. *)
Lemma redact_cases s :
  s = "" \/
  (exists c s' r, s = String c s' /\ is_js_space c = false /\ redact s = "$1: [redacted]" +:+ redact r) \/
  (exists c s', s = String c s' /\ redact s = String c (redact s')).
Proof.
  destruct s as [|c s]; [by left|]. right. unfold redact. destruct (secret_assignment (String c s)) as [r|] eqn:H.
  - left. exists c, s, r. split; [done|]. split; [by eapply secret_assignment_first|].
    apply replace_hit; [|done]. intros c' s' r' H'. by eapply secret_assignment_first.
  - right. exists c, s. split; [done|]. by apply replace_miss.
Qed.

Lemma eat_tracks P : P "$"%char = false -> tracks (eat P).
Proof.
  intros HP s r'. destruct (redact_cases s) as [->|[(c & s' & r & -> & _ & ->)|(c & s' & -> & ->)]]; cbn [eat]; [done| |].
  - rewrite sapp_cons. cbn [eat]. by rewrite HP.
  - destruct (P c); [|done]. intros [= <-]. by exists s'.
Qed.

Lemma skip_space_tracks s : skip is_js_space (redact s) = redact (skip is_js_space s).
Proof.
  induction s as [|c s IH]; [done|].
  destruct (redact_cases (String c s)) as [|[(c' & s' & r & [= <- <-] & Hc & Hr)|(c' & s' & [= <- <-] & Hr)]]; [done| |].
  - cbn [skip]. rewrite Hc, Hr. by rewrite sapp_cons.
  - rewrite Hr. cbn [skip]. destruct (is_js_space c); [done|]. by rewrite Hr.
Qed.

Lemma word_tracks w : (forall c, In c (String.list_ascii_of_string w) -> ascii_lower "$" <> c) -> tracks (word w).
Proof.
  induction w as [|c w IH]; intros Hw s r' H; cbn [word] in *; [injection H as <-; by exists s|].
  apply bind_Some in H as (x & Hx & Hr). apply eat_tracks in Hx as (y & Hy & ->).
  2:{ rewrite bool_decide_eq_false. intros Heq. apply (Hw c); [by left | done]. }
  destruct (IH (fun d Hd => Hw d (or_intror Hd)) y r' Hr) as (r & Hr1 & ->). exists r. by rewrite Hy.
Qed.

Lemma word_clash c w c' w' s r : c <> c' -> word (String c w) s = Some r -> word (String c' w') s = None.
Proof.
  intros Hne. destruct s as [|d s]; [done|]. intros [<- _]%word_first. cbn [word eat].
  by rewrite bool_decide_eq_false_2.
Qed.

Ltac no_dollar := let c := fresh in let H := fresh in intros c H; repeat destruct H as [<-|H]; [done..|destruct H].

Lemma api_key_tracks : tracks api_key.
Proof.
  intros s r' (x & Hx & Hk)%bind_Some. apply word_tracks in Hx as (y & Hy & ->); [|no_dollar].
  unfold api_key. rewrite Hy. cbn [mbind option_bind].
  destruct (eat _ (redact y)) as [z'|] eqn:He; cbn [default from_option] in Hk; unfold id in Hk.
  - apply eat_tracks in He as (z & -> & ->); [|done]. cbn [default from_option]. unfold id. apply word_tracks in Hk as (r & Hr & ->); [|no_dollar]. by exists r.
  - apply word_tracks in Hk as (r & Hr & ->); [|no_dollar]. destruct (eat _ y) as [z|] eqn:Hz; [|by exists r].
    exfalso. destruct y as [|c y]; [done|]. apply word_first in Hr as [Hl _]. cbn [eat] in Hz.
    destruct (redact_cases (String c y)) as [|[(c' & y' & q & [= <- <-] & Hc & _)|(c' & y' & [= <- <-] & Hq)]]; [done| |].
    + unfold is_char in Hz. repeat case_bool_decide; simplify_eq; done.
    + rewrite Hq in He. cbn [eat] in He. by destruct (_ || _).
Qed.

Lemma secret_name_tracks : tracks secret_name.
Proof.
  intros s r' H. unfold secret_name in H.
  destruct (word "token" (redact s)) eqn:H1.
  { injection H as <-. apply word_tracks in H1 as (r & Hr & ->); [|no_dollar]. exists r. unfold secret_name. by rewrite Hr. }
  destruct (word "secret" (redact s)) eqn:H2.
  { injection H as <-. apply word_tracks in H2 as (r & Hr & ->); [|no_dollar]. exists r. unfold secret_name.
    erewrite (word_clash "s"%char) by done. by rewrite Hr. }
  destruct (word "password" (redact s)) eqn:H3.
  { injection H as <-. apply word_tracks in H3 as (r & Hr & ->); [|no_dollar]. exists r. unfold secret_name.
    do 2 (erewrite (word_clash "p"%char) by done). by rewrite Hr. }
  apply api_key_tracks in H as (r & Hr & ->). exists r. split; [|done]. unfold secret_name. rewrite Hr.
  apply bind_Some in Hr as (x & Hx & _). by do 3 (erewrite (word_clash "a"%char) by done).
Qed.

(** A redacted text does not start with a secret assignment. *)
Lemma redact_clean_start s : secret_assignment (redact s) = None.
Proof.
  destruct (secret_assignment (redact s)) as [r'|] eqn:H; [exfalso|done].
  assert (Hs : is_Some (secret_assignment s)).
  { apply bind_Some in H as (x & Hx & (y & Hy & (z & Hz & _)%bind_Some)%bind_Some).
    apply secret_name_tracks in Hx as (x1 & Hx1 & ->). rewrite skip_space_tracks in Hy.
    apply eat_tracks in Hy as (y1 & Hy1 & ->); [|done]. rewrite skip_space_tracks in Hz.
    unfold secret_assignment. rewrite Hx1. cbn. rewrite Hy1. cbn.
    destruct (skip is_js_space y1) as [|d w] eqn:Hsk; [done|]. cbn [eat].
    assert (Hd : nonspace d = true).
    { clear -Hsk. induction y1 as [|e y1 IH]; [done|]. cbn [skip] in Hsk. destruct (is_js_space e) eqn:He; [by apply IH|].
      injection Hsk as <- _. unfold nonspace. by rewrite He. }
    rewrite Hd. by eexists. }
  destruct s as [|c s]; [done|]. destruct Hs as [r Hr]. unfold redact in H. rewrite (replace_hit _ _) with (r := r) in H; try done.
  intros c' s' q Hq. by eapply secret_assignment_first.
Qed.

(** The mark starts no secret assignment either. *)
Lemma mark_clean t u : is_suffix t "$1: [redacted]" -> t <> "" -> secret_assignment (t +:+ u) = None.
Proof.
  intros H Hne. unfold secret_assignment. enough (secret_name (t +:+ u) = None) as -> by done.
  repeat (apply is_suffix_inv in H as [->|H]; [reflexivity|]). apply is_suffix_empty in H. done.
Qed.

Lemma redact_clean s t : is_suffix t (redact s) -> secret_assignment t = None.
Proof.
  revert t. remember (String.length s) as n eqn:Hn. revert s Hn. induction (lt_wf n) as [n _ IH]. intros s -> t Ht.
  destruct (redact_cases s) as [->|[(c & s' & r & Hs & _ & _)|(c & s' & -> & Heq)]].
  - apply is_suffix_empty in Ht. by subst t.
  - subst s. unfold redact in Ht. destruct (secret_assignment (String c s')) as [r'|] eqn:Hr.
    + rewrite (replace_hit _ _) with (r := r') in Ht; [| |done].
      2:{ intros c' s0 q Hq. by eapply secret_assignment_first. }
      apply is_suffix_app in Ht as [Ht|(a & Ha & ->)].
      * apply secret_assignment_first in Hr as [_ [p ->]]. eapply (IH (String.length r')); [|done..].
        simpl. rewrite slength_app. lia.
      * destruct a as [|d a]; [apply redact_clean_start | by apply mark_clean].
    + rewrite replace_miss in Ht by done. apply is_suffix_inv in Ht as [->|Ht].
      * rewrite <-(replace_miss _ _ _ _ Hr). apply redact_clean_start.
      * eapply (IH (String.length s')); [simpl; lia|done..].
  - rewrite Heq in Ht. apply is_suffix_inv in Ht as [->|Ht]; [rewrite <-Heq; apply redact_clean_start|].
    eapply (IH (String.length s')); [simpl; lia|done..].
Qed.

Lemma api_key_extends : extends api_key.
Proof.
  intros s r u (x & Hx & Hk)%bind_Some. unfold api_key. erewrite word_extends by done. cbn [mbind option_bind].
  destruct x as [|c x]; [done|]. rewrite sapp_cons. cbn [eat] in *. destruct (_ || _); cbn [default from_option] in *; unfold id in *.
  - by apply word_extends.
  - rewrite <-sapp_cons. by apply word_extends.
Qed.

Lemma secret_name_extends : extends secret_name.
Proof.
  intros s r u H. unfold secret_name in *.
  destruct (word "token" s) eqn:H1; [injection H as <-; by erewrite word_extends by done|].
  destruct (word "secret" s) eqn:H2.
  { injection H as <-. apply (word_extends _ _ _ u) in H2. erewrite (word_clash "s"%char) by done. by rewrite H2. }
  destruct (word "password" s) eqn:H3.
  { injection H as <-. apply (word_extends _ _ _ u) in H3. do 2 (erewrite (word_clash "p"%char) by done). by rewrite H3. }
  apply (api_key_extends _ _ u) in H. rewrite H. apply bind_Some in H as (x & Hx & _).
  by do 3 (erewrite (word_clash "a"%char) by done).
Qed.

Lemma secret_assignment_extends s u : is_Some (secret_assignment s) -> is_Some (secret_assignment (s +:+ u)).
Proof.
  intros (r & (x & Hx & (y & Hy & (z & Hz & _)%bind_Some)%bind_Some)%bind_Some).
  unfold secret_assignment. erewrite secret_name_extends by done. cbn.
  rewrite skip_app by (by intros Hn; rewrite Hn in Hy). erewrite eat_extends by done. cbn.
  rewrite skip_app by (by intros Hn; rewrite Hn in Hz). erewrite eat_extends by done. cbn. by eexists.
Qed.

Definition secret_free (s : string) : Prop := forall t, is_suffix t s -> secret_assignment t = None.

Lemma secret_free_suffix s t : is_suffix t s -> secret_free s -> secret_free t.
Proof. intros Ht Hs x Hx. apply Hs. by eapply is_suffix_trans. Qed.

Lemma secret_free_prefix s t : is_prefix t s -> secret_free s -> secret_free t.
Proof.
  intros Ht Hs x Hx. destruct (suffix_of_prefix x t s Hx Ht) as (b & Hb & [u ->]).
  destruct (secret_assignment x) eqn:E; [exfalso|done].
  destruct (secret_assignment_extends x u) as [r Hr]; [by eexists|]. by rewrite (Hs _ Hb) in Hr.
Qed.

Lemma secret_free_trim s : secret_free s -> secret_free (trim s).
Proof.
  intros H. eapply secret_free_prefix; [apply trim_end_prefix|]. eapply secret_free_suffix; [apply trim_start_suffix|done].
Qed.

Lemma redactSummary_free s : secret_free (redactSummary s).
Proof.
  unfold redactSummary. eapply secret_free_prefix; [apply slice_prefix|]. apply secret_free_trim.
  intros t Ht. by eapply redact_clean.
Qed.

Section queue.
Context {zod : Zod} {laws : ZodLaws zod}.

Lemma itemSchema_spec it it' : spatialAttentionItemSchema it = Some it' ->
  it' = Item (trim (attention_id it)) (trim (source_event_ref it)) (trim (subject_ref it)) (trim (it_node it))
          (trim (it_workspace it)) (trim (target_agent_ref it)) (it_type it) (it_severity it) (it_state it)
          (trim (summary it)) (it_created_at it) (acknowledged_at it) (redaction_profile_ref it') (trim (grouping_key it))
          (session_ref it') (required_action it') (it_provenance it') /\
  source_event_ref it' <> "" /\ attention_id it' <> "" /\ (String.length (summary it') <= 240)%nat.
Proof using laws.
  unfold spatialAttentionItemSchema, labelSchema. intros H. inv_some. simpl in *.
  repeat match goal with H : idSchema _ = Some _ |- _ => apply idSchema_spec in H as [-> ?] end.
  match goal with H : z_string 1 240 _ = Some _ |- _ => apply z_string_sound in H as [-> ?] end.
  match goal with H : timestampSchema _ = Some _ |- _ => injection H as <- end.
  match goal with H : nullable timestampSchema ?a = Some ?b |- _ => assert (b = a) as -> by (destruct a; by injection H as <-) end.
  split_and!; [done..|lia].
Qed.

#[export] Instance itemSchema_idem : Idempotent spatialAttentionItemSchema.
Proof using laws.
  intros a b H. unfold spatialAttentionItemSchema in *. inv_some. simpl in *.
  by repeat (erewrite idem by done; simpl).
Qed.

Lemma raise_inv input now q q' res : raise input now q = (q', res) ->
  (q' = q /\ forall it, res <> Ok (it, false)) \/
  exists t it, spatialAttentionItemSchema (raised input t q) = Some it /\ res = Ok (it, false) /\
    truthy (jget (ri_source input) (sourceIndex q)) = false /\ q' = trim_queue (store_item it q).
Proof.
  unfold raise, jbind, jread, jlift, jret, jwrite, require. intros H.
  destruct (truthy _) eqn:Ht; [destruct (get _ q); simplify_eq; by left|].
  destruct (_ && _); [|simplify_eq; by left]. destruct now as [t|]; simpl in H; [|simplify_eq; by left].
  destruct (spatialAttentionItemSchema _) as [it|] eqn:Hi; simpl in H; simplify_eq; [|by left].
  right. by exists t, it.
Qed.

(** No secret reaches an attention item: whatever the summary given to
    [raise], no place of the stored summary reads as a secret assignment (token,
    secret, password or api key, a colon or an equals sign, and a value), even
    where removed markup or a cut at 240 characters joins or ends the text. *)
Theorem summary_carries_no_secret input now q q' it :
  raise input now q = (q', Ok (it, false)) ->
  (forall t, is_suffix t (summary it) -> secret_assignment t = None) /\ (String.length (summary it) <= 240)%nat.
Proof using laws.
  intros [(_ & H)|(t & it' & Hs & [= ->] & _ & _)]%raise_inv; [by destruct (H it)|].
  apply itemSchema_spec in Hs as (Heq & _ & _ & Hl). split; [|done]. rewrite Heq. simpl.
  apply (secret_free_trim (redactSummary _)), redactSummary_free.
Qed.

(** ** Trimming *)

(** Items are filed under their id and satisfy their contract. *)
Definition queue_wf (q : queue) : Prop :=
  NoDup (jkeys (items q)) /\
  jall (fun k it => attention_id it = k /\ spatialAttentionItemSchema it = Some it) (items q).

(** What the loop of [trim] does, on items [l] that are stored. *)
Lemma trim_loop_spec l q :
  NoDup (jkeys (items q)) ->
  let q' := trim_loop l q in
  NoDup (jkeys (items q')) /\ maxItems q' = maxItems q /\
  (forall k x, jget k (items q') = Some x -> jget k (items q) = Some x) /\
  (forall k x, jget k (items q) = Some x -> jget k (items q') = None ->
     (exists y, y ∈ l /\ attention_id y = k) /\ maxItems q < Z.of_nat (length (items q))) /\
  (Z.of_nat (length (items q')) <= maxItems q \/ forall y, y ∈ l -> jget (attention_id y) (items q') = None).
Proof.
  revert q. induction l as [|y l IH]; intros q Hnd; cbn [trim_loop]; cbv zeta.
  { split_and!; [done..|congruence|]. right. intros y Hy. by apply elem_of_nil in Hy. }
  case_bool_decide as Hlt; [|split_and!; [done..|congruence|left; lia]].
  destruct (IH (set_maps (jdelete (attention_id y) (items q)) (jdelete (source_event_ref y) (sourceIndex q)) q))
    as (Hnd' & Hmax & Hsub & Hgone & Hend); [by apply NoDup_jdelete|]. cbn [items maxItems set_maps] in *.
  split_and!; [done..| | |].
  - intros k x Hk. apply Hsub in Hk. rewrite jget_jdelete in Hk. by destruct (str_eqb _ _).
  - intros k x Hk Hn. split; [|done]. destruct (decide (attention_id y = k)) as [Heq|Hne]; [exists y; set_solver|].
    destruct (Hgone k x) as [(z & Hz & Hzk) _]; [|done|exists z; set_solver].
    rewrite jget_jdelete. unfold str_eqb. by rewrite bool_decide_eq_false_2.
  - destruct Hend as [?|Hend]; [by left|]. right. intros z Hz. apply elem_of_cons in Hz as [->|Hz]; [|by apply Hend].
    destruct (jget (attention_id y) (items (trim_loop _ _))) as [x|] eqn:Hx; [exfalso|done].
    apply Hsub in Hx. rewrite jget_jdelete in Hx. unfold str_eqb in Hx. by rewrite bool_decide_eq_true_2 in Hx.
Qed.

Lemma elem_removable it q :
  it ∈ sort_by older (filter (fun it => removable it = true) (jvalues (items q))) <->
  removable it = true /\ it ∈ jvalues (items q).
Proof. rewrite sort_by_perm, list_elem_of_filter. done. Qed.

Lemma elem_items q it : queue_wf q -> it ∈ jvalues (items q) <-> jget (attention_id it) (items q) = Some it.
Proof.
  intros [Hnd Hall]. unfold jvalues. rewrite list_elem_of_fmap. split.
  - intros ([k x] & -> & Hx). simpl. apply elem_jget in Hx; [|done]. by destruct (Hall k x Hx) as [-> _].
  - intros H%jget_elem. by exists (attention_id it, it).
Qed.

(** Trimming removes only removable items, only when there are too many, and
    stops when there are not or when none is left. *)
Lemma trim_queue_spec q :
  queue_wf q ->
  let q' := trim_queue q in
  queue_wf q' /\ maxItems q' = maxItems q /\
  (forall k x, jget k (items q') = Some x -> jget k (items q) = Some x) /\
  (forall k x, jget k (items q) = Some x -> jget k (items q') = None ->
     removable x = true /\ maxItems q < Z.of_nat (length (items q))) /\
  (Z.of_nat (length (items q')) <= maxItems q \/ forall k x, jget k (items q') = Some x -> removable x = false).
Proof.
  intros Hwf. pose proof Hwf as [Hnd Hall]. unfold trim_queue. case_bool_decide as Hle.
  { cbv zeta. split_and!; [done..|congruence|by left]. }
  edestruct (trim_loop_spec (sort_by older (filter (fun it => removable it = true) (jvalues (items q)))) q Hnd)
    as (Hnd' & Hmax & Hsub & Hgone & Hend). cbv zeta.
  split_and!; [split; [done|]; intros k x Hk; by apply Hall, Hsub | done | done | |].
  - intros k x Hk Hn. destruct (Hgone k x Hk Hn) as [(y & Hy & Hyk) Hlt]. split; [|done].
    apply elem_removable in Hy as [Hr Hy]. apply elem_items in Hy; [|done]. rewrite Hyk in Hy. by simplify_eq.
  - destruct Hend as [?|Hend]; [by left|]. right. intros k x Hk. destruct (removable x) eqn:Hr; [exfalso|done].
    pose proof (Hsub k x Hk) as Hk0. destruct (Hall k x Hk0) as [Hid _]. rewrite <-Hid in Hk.
    rewrite Hend in Hk; [done|]. apply elem_removable. split; [done|]. apply elem_items; [done|]. by rewrite Hid.
Qed.

Lemma store_item_wf it q : queue_wf q -> spatialAttentionItemSchema it = Some it -> queue_wf (store_item it q).
Proof. intros [Hnd Hall] Hi. split; [by apply NoDup_jset|]. by apply jall_jset. Qed.

(** ** Steps *)

(** What one call other than a removal does to an item: it keeps its state or
    takes an allowed transition, and the time of acknowledgement is set once. *)
Definition moved (x x' : item) : Prop :=
  exists s ack, x' = with_state s ack x /\ (s = it_state x \/ s ∈ allowed (it_state x)) /\
    (ack = acknowledged_at x \/ acknowledged_at x = None /\ s = ACKNOWLEDGED).

Lemma moved_refl x : moved x x.
Proof. exists (it_state x), (acknowledged_at x). split_and!; [by destruct x | by left | by left]. Qed.

Lemma transition_inv id s now q q' r : transition id s now q = (q', r) ->
  q' = q \/ exists x x', jget id (items q) = Some x /\ moved x x' /\ it_state x' = s /\
    (s <> ACKNOWLEDGED -> acknowledged_at x' = acknowledged_at x) /\ q' = set_items (jset id x' (items q)) q.
Proof.
  unfold transition, jbind, jread, jlift, jret, jwrite, get, require. intros H.
  destruct (jget id (items q)) as [x|] eqn:Hx; simpl in H; [|simplify_eq; by left].
  destruct (_ || _) eqn:Hok; [|simplify_eq; by left]. apply orb_true_iff in Hok. rewrite !bool_decide_eq_true in Hok.
  assert (Hs : s = it_state x \/ s ∈ allowed (it_state x)) by naive_solver.
  destruct (_ && _) eqn:Hack.
  - apply andb_true_iff in Hack as [->%bool_decide_eq_true Hnone%bool_decide_eq_true].
    destruct now as [t|]; simpl in H; simplify_eq; [|by left]. right.
    exists x, (with_state ACKNOWLEDGED (Some t) x). split_and!; [done| |done..].
    exists ACKNOWLEDGED, (Some t). split_and!; [done|done|by right].
  - simplify_eq. right. exists x, (with_state s (acknowledged_at x) x). split_and!; [done| |done..].
    exists s, (acknowledged_at x). split_and!; [done|done|by left].
Qed.

(** A call that changes items by [R] and nothing else. *)
Definition moves (R : item -> item -> Prop) (q q' : queue) : Prop :=
  sourceIndex q' = sourceIndex q /\ maxItems q' = maxItems q /\ jkeys (items q') = jkeys (items q) /\
  forall k, match jget k (items q), jget k (items q') with
       | Some x, Some x' => R x x'
       | None, None => True
       | _, _ => False
       end.

Lemma moves_refl (R : item -> item -> Prop) q : (forall x, R x x) -> moves R q q.
Proof. intros HR. split_and!; [done..|]. intros k. by destruct (jget k (items q)). Qed.

Lemma moves_jset (R : item -> item -> Prop) id x x' q :
  (forall x, R x x) -> jget id (items q) = Some x -> R x x' -> moves R q (set_items (jset id x' (items q)) q).
Proof.
  intros HR Hx Hm. split_and!; [done..| |].
  - simpl. rewrite jkeys_jset. unfold jhas. by rewrite bool_decide_eq_true_2 by (by eexists).
  - intros k. simpl. rewrite jget_jset. unfold str_eqb. case_bool_decide as Hk; [by subst k; rewrite Hx|].
    by destruct (jget k (items q)).
Qed.

Lemma moves_trans (R : item -> item -> Prop) q1 q2 q3 :
  (forall x y z, R x y -> R y z -> R x z) -> moves R q1 q2 -> moves R q2 q3 -> moves R q1 q3.
Proof.
  intros HR (Hi1 & Hm1 & Hk1 & H1) (Hi2 & Hm2 & Hk2 & H2). split_and!; [congruence..|]. intros k.
  specialize (H1 k). specialize (H2 k). destruct (jget k (items q1)), (jget k (items q2)), (jget k (items q3)); naive_solver.
Qed.

Lemma moves_impl (R R' : item -> item -> Prop) q q' : (forall x y, R x y -> R' x y) -> moves R q q' -> moves R' q q'.
Proof.
  intros HR (Hi & Hm & Hk & H). split_and!; [done..|]. intros k. specialize (H k).
  destruct (jget k (items q)), (jget k (items q')); naive_solver.
Qed.

Lemma transition_moves id s now q q' r : transition id s now q = (q', r) -> moves moved q q'.
Proof.
  intros [->|(x & x' & Hx & Hm & _ & _ & ->)]%transition_inv; [apply moves_refl, moved_refl|].
  eapply moves_jset; [apply moved_refl|done..].
Qed.

Definition aggregated (x x' : item) : Prop :=
  x' = x \/ x' = with_state AGGREGATED (acknowledged_at x) x /\
             (it_state x = AGGREGATED \/ AGGREGATED ∈ allowed (it_state x)).

Lemma aggregated_trans x y z : aggregated x y -> aggregated y z -> aggregated x z.
Proof. intros [->|[-> H1]] [->|[-> H2]]; unfold aggregated; naive_solver. Qed.

Lemma aggregated_moved x y : aggregated x y -> moved x y.
Proof.
  intros [->|[-> H]]; [apply moved_refl|]. exists AGGREGATED, (acknowledged_at x). split_and!; [done| |by left]. naive_solver.
Qed.

Lemma markAggregated_moves ids now q q' r : markAggregated ids now q = (q', r) -> moves moved q q'.
Proof.
  intros H. eapply moves_impl; [apply aggregated_moved|]. revert q q' r H.
  induction ids as [|id ids IH]; intros q q' r H; cbn [markAggregated] in H; unfold jbind, jret in H.
  { simplify_eq. apply moves_refl. by left. }
  destruct (transition id AGGREGATED now q) as [q1 r1] eqn:Ht.
  assert (H1 : moves aggregated q q1).
  { apply transition_inv in Ht as [->|(x & x' & Hx & (s & ack & -> & Hs & _) & Hst & Hack & ->)].
    { apply moves_refl. by left. }
    simpl in Hst. subst s. eapply moves_jset; [by left|done|]. right. simpl in Hack. rewrite Hack by done. naive_solver. }
  destruct r1 as [x|e]; [|by simplify_eq]. destruct (markAggregated ids now q1) as [q2 r2] eqn:Hm.
  eapply moves_trans; [apply aggregated_trans|done|]. destruct r2; simplify_eq; by eapply IH.
Qed.

(** One call on a queue, returning or throwing. *)
Inductive queue_step (q : queue) : queue -> Prop :=
| aq_raise input now q' r : raise input now q = (q', r) -> queue_step q q'
| aq_transition id s now q' r : transition id s now q = (q', r) -> queue_step q q'
| aq_aggregate ids now q' r : markAggregated ids now q = (q', r) -> queue_step q q'
| aq_connected b : queue_step q (setConnected b q)
| aq_restore its conn q' r : restore its conn q = (q', r) -> queue_step q q'.

Lemma moved_schema x x' : moved x x' -> spatialAttentionItemSchema x = Some x ->
  attention_id x' = attention_id x /\ spatialAttentionItemSchema x' = Some x'.
Proof using laws.
  intros (s & ack & -> & _) H. split; [done|]. unfold spatialAttentionItemSchema in *. inv_some.
  match goal with H : _ = x |- _ => rewrite <-H in * end. simpl in *.
  repeat (match goal with H : ?f ?a = Some ?a |- context [?f ?a] => rewrite H end; cbn [mbind option_bind]).
  by destruct ack.
Qed.

Lemma moves_wf q q' : moves moved q q' -> queue_wf q -> queue_wf q'.
Proof using laws.
  intros (_ & _ & Hk & H) [Hnd Hall]. split; [by rewrite Hk|]. intros k x' Hx'. specialize (H k). rewrite Hx' in H.
  destruct (jget k (items q)) as [x|] eqn:Hx; [|done]. destruct (Hall k x Hx) as [<- Hs].
  by destruct (moved_schema x x' H Hs) as [? ?].
Qed.

Lemma restore_loop_wf its q q' r : queue_wf q -> jforeach restore_item its q = (q', r) -> queue_wf q'.
Proof using laws.
  intros Hwf. apply jforeach_preserves; [|done]. clear Hwf. intros it q1 q2 r1 _ Hwf H. unfold restore_item in H.
  run_method H. inv_ok. apply store_item_wf; [done|]. by eapply idem.
Qed.

Lemma queue_step_wf q q' : queue_wf q -> queue_step q q' -> queue_wf q'.
Proof using laws.
  intros Hwf [input now q1 r H|id s now q1 r H|ids now q1 r H|b|its conn q1 r H].
  - apply raise_inv in H as [[-> _]|(t & it & Hs & _ & _ & ->)]; [done|].
    apply trim_queue_spec, store_item_wf; [done|]. by eapply idem.
  - eapply moves_wf; [by eapply transition_moves|done].
  - eapply moves_wf; [by eapply markAggregated_moves|done].
  - done.
  - unfold restore, jbind, jread, jwrite in H. destruct (jforeach restore_item its _) as [q2 r2] eqn:Hl.
    assert (queue_wf q2) as Hwf2.
    { eapply restore_loop_wf; [|done]. split; [constructor|]. by intros k x. }
    destruct r2; simplify_eq; [|done]. by apply trim_queue_spec.
Qed.

Lemma queue_steps_wf ws node agent max q : rtc queue_step (new_queue ws node agent max) q -> queue_wf q.
Proof using laws.
  intros H. assert (H0 : queue_wf (new_queue ws node agent max)) by (split; [constructor | by intros k x]).
  revert H0. induction H as [|q1 q2 q3 Hs _ IH]; [done|]. intros H0. by eapply IH, queue_step_wf.
Qed.

(** In every history of calls, restored snapshots included, raising an
    item keeps it and every other item that is critical or still unread, as it
    was; nothing is removed while the queue is within its bound, and after the
    call it is within its bound or nothing in it may be removed. *)
Theorem raise_keeps_urgent ws node agent max q input now q' it :
  rtc queue_step (new_queue ws node agent max) q ->
  raise input now q = (q', Ok (it, false)) ->
  jget (attention_id it) (items q') = Some it /\
  (forall k x, jget k (items q) = Some x -> k <> attention_id it ->
     it_severity x = CRITICAL \/ it_state x = UNREAD \/ Z.of_nat (length (items q)) < maxItems q ->
     jget k (items q') = Some x) /\
  (Z.of_nat (length (items q')) <= maxItems q \/
   forall k x, jget k (items q') = Some x -> it_severity x = CRITICAL \/ it_state x = UNREAD).
Proof using laws.
  intros Hr H. apply queue_steps_wf in Hr as Hwf.
  apply raise_inv in H as [[_ H]|(t & it' & Hs & [= ->] & _ & ->)]; [by destruct (H it)|].
  assert (Hwf1 : queue_wf (store_item it' q)) by (apply store_item_wf; [done | by eapply idem]).
  destruct (trim_queue_spec _ Hwf1) as (_ & _ & Hsub & Hgone & Hend).
  assert (Hrem : forall x, removable x = false <-> it_severity x = CRITICAL \/ it_state x = UNREAD).
  { intros x. unfold removable. rewrite andb_false_iff, !bool_decide_eq_false. split; intros [?|?]; [left|right|left|right];
      try (by apply dec_stable); naive_solver. }
  assert (Hkeep : forall k x, jget k (items (store_item it' q)) = Some x ->
            removable x = false \/ Z.of_nat (length (items (store_item it' q))) <= maxItems q ->
            jget k (items (trim_queue (store_item it' q))) = Some x).
  { intros k x Hx Hor. destruct (jget k (items (trim_queue _))) as [y|] eqn:Hy; [apply Hsub in Hy; congruence|].
    destruct (Hgone k x Hx Hy) as [? Hlt]. simpl in Hlt. destruct Hor; [congruence|simpl in *; lia]. }
  split_and!.
  - apply Hkeep; [apply jget_jset_eq|]. left. apply Hrem. right. apply itemSchema_spec in Hs as [-> _]. done.
  - intros k x Hx Hne Hor. apply Hkeep; [simpl; by rewrite jget_jset_ne|].
    rewrite Hrem. simpl. rewrite length_jset. destruct (jhas _ _); naive_solver lia.
  - destruct Hend as [?|Hend]; [by left|]. right. intros k x Hx. apply Hrem. by eapply Hend.
Qed.

(** ** Histories whose source references have no spaces around them *)

Inductive clean_step (q : queue) : queue -> Prop :=
| cl_raise input now q' r : trim (ri_source input) = ri_source input -> raise input now q = (q', r) -> clean_step q q'
| cl_transition id s now q' r : transition id s now q = (q', r) -> clean_step q q'
| cl_aggregate ids now q' r : markAggregated ids now q = (q', r) -> clean_step q q'
| cl_connected b : clean_step q (setConnected b q).

Lemma clean_queue_step q q' : clean_step q q' -> queue_step q q'.
Proof. intros []; [by eapply aq_raise | by eapply aq_transition | by eapply aq_aggregate | apply aq_connected]. Qed.

(** The id of the item of a source. *)
Definition id_of (src : string) : string := "attention:" +:+ src.

Lemma id_of_inj a b : id_of a = id_of b -> a = b.
Proof. unfold id_of. intros H. by repeat (injection H as H). Qed.

(** The index holds exactly the sources of the items. *)
Definition index_ok (q : queue) : Prop :=
  (forall k x, jget k (items q) = Some x -> k = id_of (source_event_ref x) /\ jget (source_event_ref x) (sourceIndex q) = Some k) /\
  (forall src k, jget src (sourceIndex q) = Some k -> exists x, jget k (items q) = Some x /\ source_event_ref x = src).

Lemma index_ok_store it q :
  index_ok q -> attention_id it = id_of (source_event_ref it) -> jget (source_event_ref it) (sourceIndex q) = None ->
  index_ok (store_item it q) /\ jget (attention_id it) (items q) = None.
Proof.
  intros [H1 H2] Hid Hfresh.
  assert (Hnew : jget (attention_id it) (items q) = None).
  { destruct (jget (attention_id it) (items q)) as [x|] eqn:Hx; [exfalso|done]. destruct (H1 _ _ Hx) as [Heq Hi].
    rewrite Hid in Heq. apply id_of_inj in Heq. rewrite <-Heq in Hi. congruence. }
  split; [|done]. split; simpl.
  - intros k x. rewrite jget_jset. unfold str_eqb. case_bool_decide as Hk.
    + intros [= <-]. subst k. by rewrite jget_jset_eq.
    + intros Hx. destruct (H1 k x Hx) as [Hk' Hi]. split; [done|]. rewrite jget_jset_ne; [done|]. congruence.
  - intros src k. rewrite jget_jset. unfold str_eqb. case_bool_decide as Hs.
    + intros [= <-]. exists it. by rewrite jget_jset_eq.
    + intros Hk. destruct (H2 src k Hk) as (x & Hx & Hxs). exists x. split; [|done]. rewrite jget_jset_ne; [done|]. congruence.
Qed.

Lemma index_ok_trim_loop l q :
  (forall y, y ∈ l -> attention_id y = id_of (source_event_ref y)) -> index_ok q -> index_ok (trim_loop l q).
Proof.
  revert q. induction l as [|y l IH]; intros q Hl Hok; cbn [trim_loop]; [done|]. case_bool_decide; [|done].
  apply IH; [intros z Hz; apply Hl; set_solver|]. pose proof (Hl y ltac:(set_solver)) as Hy. destruct Hok as [H1 H2].
  split; simpl.
  - intros k x. rewrite jget_jdelete. unfold str_eqb. case_bool_decide as Hk; [done|]. intros Hx.
    destruct (H1 k x Hx) as [Hk' Hi]. split; [done|]. rewrite jget_jdelete. unfold str_eqb.
    rewrite bool_decide_eq_false_2; [done|]. congruence.
  - intros src k. rewrite jget_jdelete. unfold str_eqb. case_bool_decide as Hs; [done|]. intros Hk.
    destruct (H2 src k Hk) as (x & Hx & Hxs). exists x. split; [|done]. rewrite jget_jdelete. unfold str_eqb.
    rewrite bool_decide_eq_false_2; [done|]. destruct (H1 k x Hx) as [-> _]. rewrite Hy. intros Heq%id_of_inj. congruence.
Qed.

Lemma index_ok_trim q : queue_wf q -> index_ok q -> index_ok (trim_queue q).
Proof.
  intros Hwf Hok. unfold trim_queue. case_bool_decide; [done|]. apply index_ok_trim_loop; [|done].
  intros y [_ Hy]%elem_removable. apply elem_items in Hy; [|done]. by destruct Hok as [Hok _]; destruct (Hok _ _ Hy) as [-> _].
Qed.

Lemma moves_index q q' : moves moved q q' -> index_ok q -> index_ok q'.
Proof.
  intros (Hi & _ & _ & H) [H1 H2]. split; rewrite Hi.
  - intros k x' Hx'. specialize (H k). rewrite Hx' in H. destruct (jget k (items q)) as [x|] eqn:Hx; [|done].
    destruct H as (s & ack & -> & _). simpl. by apply H1.
  - intros src k Hk. destruct (H2 src k Hk) as (x & Hx & Hs). specialize (H k). rewrite Hx in H.
    destruct (jget k (items q')) as [x'|]; [|done]. exists x'. split; [done|]. by destruct H as (s & ack & -> & _).
Qed.

Lemma trim_end_app p src : trim_end src = src -> src <> "" -> trim_end (p +:+ src) = p +:+ src.
Proof.
  intros Hend Hne. induction p as [|c p IH]; [done|]. rewrite sapp_cons. cbn [trim_end]. rewrite IH.
  destruct p as [|d p]; [|done]. by destruct src.
Qed.

Lemma trim_id_of src : trim src = src -> src <> "" -> trim (id_of src) = id_of src.
Proof.
  intros Ht Hne. unfold trim. change (trim_start (id_of src)) with (id_of src). apply trim_end_app; [|done].
  rewrite <-Ht. unfold trim. apply trim_end_idem.
Qed.

(** What a clean history keeps. *)
Definition clean_inv (ws node agent : string) (q : queue) : Prop :=
  queue_wf q /\ index_ok q /\ q_workspace q = ws /\ q_node q = node /\ q_agent q = agent /\
  jall (fun _ it => it_workspace it = trim ws /\ it_node it = trim node /\ target_agent_ref it = trim agent) (items q).

Lemma trim_loop_options l q :
  q_workspace (trim_loop l q) = q_workspace q /\ q_node (trim_loop l q) = q_node q /\ q_agent (trim_loop l q) = q_agent q /\
  connected (trim_loop l q) = connected q.
Proof. revert q. induction l as [|y l IH]; intros q; cbn [trim_loop]; [done|]. case_bool_decide; [|done]. apply (IH (set_maps _ _ q)). Qed.

Lemma trim_queue_options q :
  q_workspace (trim_queue q) = q_workspace q /\ q_node (trim_queue q) = q_node q /\ q_agent (trim_queue q) = q_agent q /\
  connected (trim_queue q) = connected q.
Proof. unfold trim_queue. case_bool_decide; [done|]. apply trim_loop_options. Qed.

Lemma raise_clean ws node agent input now q q' r :
  clean_inv ws node agent q -> trim (ri_source input) = ri_source input -> raise input now q = (q', r) ->
  q' = q \/ exists it, q' = trim_queue (store_item it q) /\ clean_inv ws node agent (store_item it q) /\
    jget (attention_id it) (items q) = None.
Proof using laws.
  intros (Hwf & Hok & Hws & Hn & Ha & Hsc) Ht H.
  apply raise_inv in H as [[-> _]|(t & it & Hs & _ & Hidx & ->)]; [by left|]. right. exists it.
  pose proof (itemSchema_spec _ _ Hs) as (Heq & Hne & _). assert (Hsrc : source_event_ref it = ri_source input).
  { by rewrite Heq. }
  assert (Hid : attention_id it = id_of (source_event_ref it)).
  { rewrite Hsrc, Heq. simpl. apply trim_id_of; [done|]. congruence. }
  assert (Hfresh : jget (source_event_ref it) (sourceIndex q) = None).
  { rewrite Hsrc. destruct (jget (ri_source input) (sourceIndex q)) as [k|] eqn:Hk; [exfalso|done].
    destruct Hok as [H1 H2]. destruct (H2 _ _ Hk) as (x & Hx & _). destruct (H1 _ _ Hx) as [-> _]. done. }
  destruct (index_ok_store it q Hok Hid Hfresh) as [Hok1 Hnew].
  split_and!; [done| |done]. split_and!; try done.
  - apply store_item_wf; [done | by eapply idem].
  - apply jall_jset; [|done]. rewrite Heq. simpl. by rewrite Hws, Hn, Ha.
Qed.

Lemma moves_scope ws node agent q q' :
  moves moved q q' ->
  jall (fun _ it => it_workspace it = trim ws /\ it_node it = trim node /\ target_agent_ref it = trim agent) (items q) ->
  jall (fun _ it => it_workspace it = trim ws /\ it_node it = trim node /\ target_agent_ref it = trim agent) (items q').
Proof.
  intros (_ & _ & _ & H) Hall k x' Hx'. specialize (H k). rewrite Hx' in H.
  destruct (jget k (items q)) as [x|] eqn:Hx; [|done]. destruct H as (s & ack & -> & _). simpl. by eapply Hall.
Qed.

Lemma transition_options id s now q q' r : transition id s now q = (q', r) ->
  q_workspace q' = q_workspace q /\ q_node q' = q_node q /\ q_agent q' = q_agent q.
Proof. intros [->|(x & x' & _ & _ & _ & _ & ->)]%transition_inv; done. Qed.

Lemma markAggregated_options ids now q q' r : markAggregated ids now q = (q', r) ->
  q_workspace q' = q_workspace q /\ q_node q' = q_node q /\ q_agent q' = q_agent q.
Proof.
  revert q q' r. induction ids as [|id ids IH]; intros q q' r H; cbn [markAggregated] in H; unfold jbind, jret in H; [by simplify_eq|].
  destruct (transition id AGGREGATED now q) as [q1 r1] eqn:Ht. apply transition_options in Ht as (? & ? & ?).
  destruct r1; [|simplify_eq; done]. destruct (markAggregated ids now q1) as [q2 r2] eqn:Hm.
  apply IH in Hm as (? & ? & ?). destruct r2; simplify_eq; split_and!; congruence.
Qed.

Lemma clean_step_inv ws node agent q q' : clean_inv ws node agent q -> clean_step q q' -> clean_inv ws node agent q'.
Proof using laws.
  intros Hi Hs. pose proof (queue_step_wf q q' (proj1 Hi) (clean_queue_step _ _ Hs)) as Hwf'.
  destruct Hs as [input now q1 r Ht H|id s now q1 r H|ids now q1 r H|b].
  - destruct (raise_clean _ _ _ _ _ _ _ _ Hi Ht H) as [->|(it & -> & (Hwf & Hok & Hws & Hn & Ha & Hsc) & _)]; [done|].
    destruct (trim_queue_options (store_item it q)) as (Ho1 & Ho2 & Ho3 & _). unfold clean_inv. rewrite Ho1, Ho2, Ho3.
    split_and!; [done|by apply index_ok_trim|done..|]. intros k x Hx. eapply Hsc. by apply (trim_queue_spec _ Hwf).
  - destruct Hi as (Hwf & Hok & Hws & Hn & Ha & Hsc). destruct (transition_options _ _ _ _ _ _ H) as (? & ? & ?).
    apply transition_moves in H. split_and!; [done|by eapply moves_index|congruence..|by eapply moves_scope].
  - destruct Hi as (Hwf & Hok & Hws & Hn & Ha & Hsc). destruct (markAggregated_options _ _ _ _ _ H) as (? & ? & ?).
    apply markAggregated_moves in H. split_and!; [done|by eapply moves_index|congruence..|by eapply moves_scope].
  - done.
Qed.

Lemma clean_steps_inv ws node agent max q :
  rtc clean_step (new_queue ws node agent max) q -> clean_inv ws node agent q.
Proof using laws.
  intros H. assert (H0 : clean_inv ws node agent (new_queue ws node agent max)).
  { unfold clean_inv, queue_wf. split_and!; [apply NoDup_nil_2 | by intros ? ? | by split | done.. | by intros ? ?]. }
  revert H0. induction H as [|q1 q2 q3 Hs _ IH]; [done|]. intros H0. by eapply IH, clean_step_inv.
Qed.

(** What one call can do to an item, in every history whose source
    references have no spaces around them: the item leaves the queue, which needs
    it neither critical nor unread; or it stays with its content, in its state or
    one the transition table allows from it, and with its time of acknowledgement
    unchanged once it is set. In particular an archived item never changes its
    state again, a resolved or dismissed one can only be archived, and no raise
    replaces an item. *)
Theorem item_life ws node agent max q q' k x :
  rtc clean_step (new_queue ws node agent max) q -> clean_step q q' -> jget k (items q) = Some x ->
  (jget k (items q') = None /\ it_severity x <> CRITICAL /\ it_state x <> UNREAD) \/
  exists x', jget k (items q') = Some x' /\ moved x x'.
Proof using laws.
  intros Hr Hs Hx. apply clean_steps_inv in Hr.
  assert (Hmoves : moves moved q q' -> exists x', jget k (items q') = Some x' /\ moved x x').
  { intros (_ & _ & _ & H). specialize (H k). rewrite Hx in H. destruct (jget k (items q')) as [x'|]; [by exists x' | done]. }
  destruct Hs as [input now q1 r Ht H|id s now q1 r H|ids now q1 r H|b].
  - destruct (raise_clean _ _ _ _ _ _ _ _ Hr Ht H) as [->|(it & -> & (Hwf & _) & Hnew)].
    { right. exists x. split; [done | apply moved_refl]. }
    assert (Hx1 : jget k (items (store_item it q)) = Some x) by (simpl; rewrite jget_jset_ne; [done | congruence]).
    destruct (trim_queue_spec _ Hwf) as (_ & _ & Hsub & Hgone & _).
    destruct (jget k (items (trim_queue _))) as [y|] eqn:Hy.
    + right. exists y. split; [done|]. apply Hsub in Hy. simplify_eq. apply moved_refl.
    + left. destruct (Hgone k x Hx1 Hy) as [Hrem _]. unfold removable in Hrem.
      apply andb_true_iff in Hrem as [?%bool_decide_eq_true ?%bool_decide_eq_true]. done.
  - right. by eapply Hmoves, transition_moves.
  - right. by eapply Hmoves, markAggregated_moves.
  - right. exists x. split; [done | apply moved_refl].
Qed.

(** ** Snapshots *)

Lemma restore_loop ws node agent l q0 :
  trim ws = ws -> trim node = node -> trim agent = agent -> clean_inv ws node agent q0 ->
  Forall (fun it => spatialAttentionItemSchema it = Some it /\ attention_id it = id_of (source_event_ref it) /\
            it_workspace it = ws /\ it_node it = node /\ target_agent_ref it = agent) l ->
  NoDup (map attention_id l) -> (forall it, it ∈ l -> jget (attention_id it) (items q0) = None) ->
  exists q1, jforeach restore_item l q0 = (q1, Ok tt) /\ clean_inv ws node agent q1 /\
    items q1 = items q0 ++ map (fun it => (attention_id it, it)) l /\ maxItems q1 = maxItems q0 /\ connected q1 = connected q0.
Proof.
  intros Hw Hn Ha. revert q0. induction l as [|it l IH]; intros q0 Hi Hl Hnd Hnew.
  { exists q0. split_and!; try done. simpl. by rewrite app_nil_r. }
  apply Forall_cons in Hl as [(Hs & Hid & Hiw & Hin & Hia) Hl]. cbn [map] in Hnd. apply NoDup_cons in Hnd as [Hit Hnd].
  destruct Hi as (Hwf & Hok & Hqw & Hqn & Hqa & Hsc).
  assert (Hfresh : jget (source_event_ref it) (sourceIndex q0) = None).
  { destruct (jget (source_event_ref it) (sourceIndex q0)) as [k|] eqn:Hk; [exfalso|done]. destruct Hok as [H1 H2].
    destruct (H2 _ _ Hk) as (x & Hx & Hxs). destruct (H1 _ _ Hx) as [-> _].
    rewrite Hxs, <-Hid in Hx. rewrite Hnew in Hx by set_solver. done. }
  destruct (index_ok_store it q0 Hok Hid Hfresh) as [Hok1 Hnone].
  destruct (IH (store_item it q0)) as (q1 & Hrun & Hi1 & Hitems & Hmax & Hconn); [| done..| |].
  { split_and!; try done; [by apply store_item_wf|]. apply jall_jset; [|done]. by rewrite Hw, Hn, Ha. }
  { intros y Hy. simpl. rewrite jget_jset_ne; [apply Hnew; set_solver|]. intros Heq. apply Hit.
    apply list_elem_of_fmap. by exists y. }
  exists q1. split_and!; [|done| |done..].
  - cbn [jforeach]. unfold restore_item at 1. unfold jbind, jlift, jread, jwrite. rewrite Hs. cbn [of_option].
    unfold str_eqb. rewrite Hiw, Hin, Hia, Hqw, Hqn, Hqa. rewrite !bool_decide_eq_true_2 by done. cbn [andb require]. exact Hrun.
  - rewrite Hitems. simpl. rewrite jset_fresh by done. by rewrite <-app_assoc.
Qed.

Lemma items_of_values q : queue_wf q -> items q = map (fun it => (attention_id it, it)) (jvalues (items q)).
Proof. intros [Hnd Hall]. apply jmap_of_values; [done|]. intros k x Hx. by destruct (Hall k x Hx) as [-> _]. Qed.

Lemma trim_loop_items l q1 q2 :
  items q1 = items q2 -> maxItems q1 = maxItems q2 -> items (trim_loop l q1) = items (trim_loop l q2).
Proof.
  revert q1 q2. induction l as [|y l IH]; intros q1 q2 Hi Hm; cbn [trim_loop]; [done|]. rewrite Hi, Hm.
  case_bool_decide; [|done]. by apply IH.
Qed.

Lemma trim_queue_items q1 q2 :
  items q1 = items q2 -> maxItems q1 = maxItems q2 -> items (trim_queue q1) = items (trim_queue q2).
Proof. intros Hi Hm. unfold trim_queue. rewrite Hi, Hm. case_bool_decide; [done|]. by apply trim_loop_items. Qed.

Lemma index_ok_agree q1 q2 src :
  index_ok q1 -> index_ok q2 -> items q1 = items q2 -> jget src (sourceIndex q1) = jget src (sourceIndex q2).
Proof.
  intros [A1 B1] [A2 B2] Hi. destruct (jget src (sourceIndex q1)) as [k|] eqn:H1.
  - destruct (B1 _ _ H1) as (x & Hx & <-). rewrite Hi in Hx. by destruct (A2 _ _ Hx) as [_ ->].
  - destruct (jget src (sourceIndex q2)) as [k|] eqn:H2; [exfalso|done].
    destruct (B2 _ _ H2) as (x & Hx & <-). rewrite <-Hi in Hx. destruct (A1 _ _ Hx) as [_ H]. congruence.
Qed.

Lemma maxItems_step q q' : clean_step q q' -> maxItems q' = maxItems q.
Proof.
  intros [input now q1 r Ht H|id s now q1 r H|ids now q1 r H|b]; [..|done].
  - apply raise_inv in H as [[-> _]|(t & it & _ & _ & _ & ->)]; [done|]. unfold trim_queue. case_bool_decide; [done|].
    generalize (sort_by older (filter (fun it => removable it = true) (jvalues (items (store_item it q))))). intros l.
    change (maxItems q) with (maxItems (store_item it q)). generalize (store_item it q).
    induction l as [|y l IH]; intros q0; cbn [trim_loop]; [done|]. case_bool_decide; [|done].
    by rewrite (IH (set_maps _ _ q0)).
  - by apply transition_moves in H as (_ & ? & _).
  - by apply markAggregated_moves in H as (_ & ? & _).
Qed.

(** A queue survives a restart: after every history whose source
    references have no spaces around them, restoring its snapshot into a new
    queue of the same scope and bound succeeds and gives the same items in the
    same order, less what trimming to the bound removes, the same connection
    state, and an index that answers every source as the old one did, so that
    events raised again are still duplicates. *)
Theorem snapshot_restores ws node agent max q :
  trim ws = ws -> trim node = node -> trim agent = agent ->
  rtc clean_step (new_queue ws node agent max) q ->
  exists q', restore (fst (snapshot q)) (Some (snd (snapshot q))) (new_queue ws node agent max) = (q', Ok tt) /\
    items q' = items (trim_queue q) /\ connected q' = connected q /\
    forall src, jget src (sourceIndex q') = jget src (sourceIndex (trim_queue q)).
Proof using laws.
  intros Hw Hn Ha Hr. pose proof (clean_steps_inv _ _ _ _ _ Hr) as Hi. destruct Hi as (Hwf & Hok & Hqw & Hqn & Hqa & Hsc).
  assert (Hmax : maxItems q = maxItems (new_queue ws node agent max)).
  { clear -Hr. induction Hr as [|q1 q2 q3 Hs _ IH]; [done|]. rewrite IH. by apply maxItems_step. }
  destruct (restore_loop ws node agent (jvalues (items q)) (new_queue ws node agent max) Hw Hn Ha)
    as (q1 & Hrun & (Hwf1 & Hok1 & _) & Hit1 & Hmax1 & _).
  { apply (clean_steps_inv ws node agent max). apply rtc_refl. }
  { apply Forall_forall. intros it Hit. apply elem_items in Hit; [|done]. destruct (proj2 Hwf _ _ Hit) as [_ Hs].
    destruct (Hsc _ _ Hit) as (? & ? & ?). destruct (proj1 Hok _ _ Hit) as [? _]. split_and!; congruence. }
  { pose proof (items_of_values q Hwf) as He. destruct Hwf as [Hnd _]. rewrite He in Hnd. unfold jkeys in Hnd. by rewrite map_map in Hnd. }
  { done. }
  simpl in Hit1. rewrite <-(items_of_values q Hwf) in Hit1.
  exists (trim_queue (setConnected (connected q) q1)). split_and!.
  - unfold restore, jbind, jread, jwrite. change (set_maps [] [] (new_queue ws node agent max)) with (new_queue ws node agent max).
    unfold snapshot. cbn [fst snd]. by rewrite Hrun.
  - apply trim_queue_items; [done|]. simpl. congruence.
  - by destruct (trim_queue_options (setConnected (connected q) q1)) as (_ & _ & _ & ->).
  - intros src. apply index_ok_agree; [by apply index_ok_trim..|]. apply trim_queue_items; [done|]. simpl. congruence.
Qed.

(** ** The list *)

Lemma more_urgent_iff a b : more_urgent a b = true <->
  severityRank (it_severity b) < severityRank (it_severity a) \/
  severityRank (it_severity b) = severityRank (it_severity a) /\ it_created_at b <= it_created_at a.
Proof. unfold more_urgent. repeat case_bool_decide; split; intros; try done; lia. Qed.

Lemma more_urgent_total a b : more_urgent a b = false -> more_urgent b a = true.
Proof. rewrite <-not_true_iff_false, !more_urgent_iff. lia. Qed.

Lemma more_urgent_trans a b c : more_urgent a b = true -> more_urgent b c = true -> more_urgent a c = true.
Proof. rewrite !more_urgent_iff. lia. Qed.

(** The list of a queue is its open items, the severest first and among equals
    the most recent first. *)
Theorem list_items_sorted q :
  list_items false q ≡ₚ filter (fun it => closed (it_state it) = false) (jvalues (items q)) /\
  StronglySorted (fun a b => severityRank (it_severity b) < severityRank (it_severity a) \/
    severityRank (it_severity b) = severityRank (it_severity a) /\ it_created_at b <= it_created_at a) (list_items false q).
Proof.
  unfold list_items. split.
  - rewrite sort_by_perm. apply reflexive_eq, list_filter_iff. intros it. simpl. by rewrite negb_true_iff.
  - eapply sorted_impl; [|apply (sort_by_sorted more_urgent); [apply more_urgent_total | apply more_urgent_trans]].
    intros a b. by rewrite more_urgent_iff.
Qed.
End queue.

(** ** Witnesses and surprises *)

Module AttentionWitness.
Definition event (src : string) (sev : severity) (text : string) : raise_input :=
  RaiseInput src "subject" sev None text "group" None None None None.
Definition q0 : queue := new_queue "w" "n" "agent" (Some 2).
Definition up (i : raise_input) (t : Z) (q : queue) : queue := (raise (zod := zod_ref) i (Some t) q).1.
Definition to (id : string) (s : attention_state) (q : queue) : queue := (transition id s (Some 50) q).1.
Definition q1 : queue := up (event "x" CRITICAL "a <b>pass</b>word = hunter2 leaked") 10 q0.
Definition q2 : queue := to "attention:y" SEEN (up (event "y" INFORMATION "done") 20 q1).
Definition q3 : queue := up (event "z" ATTENTION "look") 30 q2.

Definition item_x : item :=
  Item "attention:x" "x" "subject" "n" "w" "agent" AUTONOMOUS_EVENT CRITICAL UNREAD "a $1: [redacted] leaked" 10 None None
    "group" None None None.
Definition item_z : item :=
  Item "attention:z" "z" "subject" "n" "w" "agent" AUTONOMOUS_EVENT ATTENTION UNREAD "look" 30 None None "group" None None None.

Lemma summary_carries_no_secret_witness :
  (forall t, is_suffix t (summary item_x) -> secret_assignment t = None) /\ (String.length (summary item_x) <= 240)%nat.
Proof.
  apply (summary_carries_no_secret (zod := zod_ref) (event "x" CRITICAL "a <b>pass</b>word = hunter2 leaked") (Some 10) q0 q1 item_x).
  vm_compute. reflexivity.
Defined.

Lemma q2_reached : rtc (clean_step (zod := zod_ref)) q0 q2.
Proof.
  eapply rtc_l; [eapply (cl_raise _ (event "x" CRITICAL _) (Some 10)); [done | apply surjective_pairing]|].
  eapply rtc_l; [eapply (cl_raise _ (event "y" INFORMATION "done") (Some 20)); [done | apply surjective_pairing]|].
  eapply rtc_l; [eapply (cl_transition _ "attention:y" SEEN (Some 50)); apply surjective_pairing|]. apply rtc_refl.
Defined.

Lemma q3_step : clean_step (zod := zod_ref) q2 q3.
Proof. eapply (cl_raise _ (event "z" ATTENTION "look") (Some 30)); [done | apply surjective_pairing]. Defined.

Lemma raise_keeps_urgent_witness :
  jget "attention:z" (items q3) = Some item_z /\ jget "attention:x" (items q3) = Some item_x /\
  jget "attention:y" (items q3) = None.
Proof.
  assert (Hr : rtc (queue_step (zod := zod_ref)) q0 q2).
  { eapply rtc_subrel; [|exact q2_reached]. intros a b. apply clean_queue_step. }
  assert (Hz : raise (zod := zod_ref) (event "z" ATTENTION "look") (Some 30) q2 = (q3, Ok (item_z, false))).
  { vm_compute. reflexivity. }
  pose proof (raise_keeps_urgent (zod := zod_ref) "w" "n" "agent" (Some 2) q2 _ _ q3 item_z Hr Hz) as (H1 & H2 & _).
  split; [exact H1|]. split; [|vm_compute; reflexivity].
  apply (H2 "attention:x"%string item_x); [vm_compute; reflexivity | done | by left].
Defined.

Lemma item_life_witness :
  (jget "attention:y" (items q3) = None) /\
  exists x', jget "attention:x" (items q3) = Some x' /\ moved item_x x'.
Proof.
  split; [vm_compute; reflexivity|].
  destruct (item_life (zod := zod_ref) "w" "n" "agent" (Some 2) q2 q3 "attention:x" item_x q2_reached q3_step)
    as [[H _]|H]; [vm_compute; reflexivity | vm_compute in H; discriminate H | exact H].
Defined.

Lemma snapshot_restores_witness : exists q',
  restore (zod := zod_ref) (fst (snapshot q2)) (Some (snd (snapshot q2))) q0 = (q', Ok tt) /\
  items q' = items (trim_queue q2) /\ connected q' = connected q2 /\
  forall src, jget src (sourceIndex q') = jget src (sourceIndex (trim_queue q2)).
Proof. apply (snapshot_restores (zod := zod_ref) "w" "n" "agent" (Some 2) q2); [done..|exact q2_reached]. Defined.

(** The replacement text of the summary refers to a group the pattern does not
    have: operators read [$1] where the name of the secret was meant. *)
Theorem redacted_summary_shows_dollar :
  redactSummary "login with Token: abc123 failed" = "login with $1: [redacted] failed"%string.
Proof. vm_compute. reflexivity. Qed.

(** A source reference with a space in front: the same event is raised twice,
    the index points at the second item, and once that one is trimmed the event
    raised a third time overwrites the first item, acknowledged in the meantime,
    by a new unread one. *)
Theorem padded_source_reopens_item :
  let q := to "attention: x" SEEN (up (event " x" INFORMATION "again") 20 q1) in
  let q := to "attention:x" ACKNOWLEDGED (to "attention:x" SEEN q) in
  length (items q) = 2%nat /\
  (it_state <$> jget "attention:x" (items q)) = Some ACKNOWLEDGED /\
  let q := up (event "x" CRITICAL "third") 40 (up (event "z" ATTENTION "look") 30 q) in
  (it_state <$> jget "attention:x" (items q)) = Some UNREAD /\ (it_created_at <$> jget "attention:x" (items q)) = Some 40.
Proof. vm_compute. split_and!; reflexivity. Qed.

(** A queue whose scope has spaces around it refuses its own snapshot, after
    having emptied itself: items carry the trimmed scope. *)
Theorem padded_scope_refuses_snapshot :
  let q := up (event "x" CRITICAL "text") 10 (new_queue " w" "n" "agent" None) in
  length (items q) = 1%nat /\
  restore (zod := zod_ref) (fst (snapshot q)) None q = (set_maps [] [] q, Err SCOPE_MISMATCH).
Proof. vm_compute. split; reflexivity. Qed.
End AttentionWitness.
