(* ===== verification/MarkerProps.v ===== *)
(** * Properties of the attention markers and the focus

    Urgent items always have a marker of their own and the rest is grouped by
    key; a marker keeps its phase; an action through the focus controller
    touches the queue only at its item. *)

From stdpp Require Import relations.
From S2P Require Import Prelude.
From S2P Require Import Json.
From S2P Require Import Contracts.
From S2P Require Import Text.
From S2P Require Import Attention.
From S2P Require Import AttentionProps.

#[local] Open Scope Z_scope.

(** ** Groups *)

Lemma group_items_snoc l it :
  group_items (l ++ [it]) =
    jset (group_key it) (default [] (jget (group_key it) (group_items l)) ++ [it]) (group_items l).
Proof. unfold group_items. by rewrite foldl_app. Qed.

(** A group is the items of its key, in order, and none is empty. *)
Lemma group_items_spec l key :
  jget key (group_items l) =
    match filter (fun it => group_key it = key) l with [] => None | g => Some g end.
Proof.
  induction l as [|it l IH] using rev_ind; [done|]. rewrite group_items_snoc, jget_jset, filter_app.
  unfold str_eqb. case_bool_decide as Hk.
  - subst key. rewrite IH. rewrite filter_cons_True, filter_nil by done.
    by destruct (filter (fun x => group_key x = group_key it) l).
  - rewrite filter_cons_False, filter_nil, app_nil_r by done. apply IH.
Qed.

Lemma group_items_NoDup l : NoDup (jkeys (group_items l)).
Proof. induction l as [|it l IH] using rev_ind; [apply NoDup_nil_2|]. rewrite group_items_snoc. by apply NoDup_jset. Qed.

(** The entry of a group, and which group it is of. *)
Definition entry_of (regular : list item) (e : entry) : Prop :=
  en_item e ∈ regular /\
  en_count e = Z.of_nat (length (filter (fun it => group_key it = group_key (en_item e)) regular)) /\
  (en_grouped e = true <-> 1 < en_count e).

Lemma group_entry_of regular key g e :
  jget key (group_items regular) = Some g -> group_entry g = Some e -> group_key (en_item e) = key /\ entry_of regular e.
Proof.
  rewrite group_items_spec. destruct (filter _ regular) as [|it g'] eqn:Hf; [done|]. intros [= <-] [= <-]. simpl.
  assert (Hin : it ∈ filter (fun it => group_key it = key) regular) by (rewrite Hf; set_solver).
  apply list_elem_of_filter in Hin as [<- Hin]. split; [done|]. unfold entry_of. simpl. rewrite Hf.
  split_and!; [done|done|]. rewrite bool_decide_eq_true. simpl. lia.
Qed.

Lemma group_entries_spec regular :
  (forall e, e ∈ omap group_entry (jvalues (group_items regular)) -> entry_of regular e) /\
  NoDup (map (fun e => group_key (en_item e)) (omap group_entry (jvalues (group_items regular)))) /\
  (forall it, it ∈ regular ->
     exists e, e ∈ omap group_entry (jvalues (group_items regular)) /\ group_key (en_item e) = group_key it).
Proof.
  pose proof (group_items_NoDup regular) as Hnd.
  assert (Hkeys : forall m : jsmap (list item), (forall k g, (k, g) ∈ m -> jget k (group_items regular) = Some g) ->
            map (fun e => group_key (en_item e)) (omap group_entry (jvalues m)) = jkeys m).
  { intros m. induction m as [|[k g] m IH]; intros Hm; [done|]. pose proof (Hm k g ltac:(set_solver)) as Hg.
    cbn [jvalues map]. pose proof Hg as Hg'. rewrite group_items_spec in Hg'.
    destruct (filter _ regular) as [|it g'] eqn:Hf; [done|]. injection Hg' as <-.
    destruct (group_entry (it :: g')) as [e|] eqn:He; [|done]. cbn [omap list_omap snd]. rewrite He.
    destruct (group_entry_of regular k _ e Hg He) as [<- _]. cbn [map jkeys fst]. f_equal. apply IH. set_solver. }
  assert (Hall : forall k g, (k, g) ∈ group_items regular -> jget k (group_items regular) = Some g) by (intros; by apply elem_jget).
  split_and!.
  - intros e (g & Hg & He)%list_elem_of_omap. unfold jvalues in Hg. apply list_elem_of_fmap in Hg as ([k g'] & -> & Hg).
    by eapply (group_entry_of regular k g' e); [apply Hall|].
  - by rewrite (Hkeys (group_items regular) Hall).
  - intros it Hit. assert (Hk : group_key it ∈ jkeys (group_items regular)).
    { destruct (decide (group_key it ∈ jkeys (group_items regular))) as [|Hn]; [done|]. exfalso.
      apply jget_None in Hn. rewrite group_items_spec in Hn.
      destruct (filter (fun x => group_key x = group_key it) regular) as [|y l] eqn:Hf; [|done].
      assert (Hin : it ∈ filter (fun x => group_key x = group_key it) regular) by (by apply list_elem_of_filter).
      rewrite Hf in Hin. by apply elem_of_nil in Hin. }
    rewrite <-(Hkeys _ Hall) in Hk. apply list_elem_of_fmap in Hk as (e & -> & He). by exists e.
Qed.

(** ** What is drawn *)

Definition active (its : list item) (m : markers) : list item :=
  filter (fun it => closed (it_state it) = false /\ attention_id it ∉ hidden m) its.
Definition urgent_items (its : list item) (m : markers) : list item :=
  filter (fun it => is_urgent (it_severity it) = true) (active its m).
Definition regular_items (its : list item) (m : markers) : list item :=
  filter (fun it => is_urgent (it_severity it) = false) (active its m).
Definition visible_bound (m : markers) : Z := Z.max 1 (Z.min 32 (default 8 (m_maxVisible m))).

(** Every open urgent item that is not hidden has a marker of its own,
    never aggregated, however many there are. The other markers fill what the
    bound on visible markers leaves; each stands for a different group, shows
    one of its items and counts exactly the open, shown, not urgent items with
    its grouping key and severity; and when the groups fit, each such item is
    counted by one of them. *)
Theorem urgent_items_keep_their_marker its m :
  exists rest,
    project_entries its m = map (fun it => Entry it 1 false) (urgent_items its m) ++ rest /\
    Z.of_nat (length rest) <= Z.max 0 (visible_bound m - Z.of_nat (length (urgent_items its m))) /\
    (forall e, e ∈ rest -> entry_of (regular_items its m) e) /\
    NoDup (map (fun e => group_key (en_item e)) rest) /\
    (Z.of_nat (length (group_items (regular_items its m))) <= visible_bound m - Z.of_nat (length (urgent_items its m)) ->
     forall it, it ∈ regular_items its m -> exists e, e ∈ rest /\ group_key (en_item e) = group_key it).
Proof.
  destruct (group_entries_spec (regular_items its m)) as (Hof & Hnd & Hall).
  set (gs := omap group_entry (jvalues (group_items (regular_items its m)))) in *.
  set (sorted := sort_by (fun a b => more_urgent (en_item a) (en_item b)) gs).
  assert (Hperm : sorted ≡ₚ gs) by apply sort_by_perm.
  set (n := Z.to_nat (Z.max 0 (visible_bound m - Z.of_nat (length (urgent_items its m))))).
  exists (take n sorted). split_and!; [done| | | |].
  - rewrite length_take. subst n. lia.
  - intros e He. apply Hof. rewrite <-Hperm. by eapply subseteq_take.
  - rewrite <-firstn_map. eapply sublist_NoDup; [|apply sublist_take]. by rewrite Hperm.
  - intros Hfit it Hit. destruct (Hall it Hit) as (e & He & Hk). exists e. split; [|done].
    rewrite take_ge; [by rewrite Hperm|]. rewrite Hperm.
    assert (Hlen : (length gs <= length (group_items (regular_items its m)))%nat).
    { subst gs. generalize (group_items (regular_items its m)). intros g. induction g as [|[k x] g IH]; [done|].
      cbn [jvalues map]. cbn [omap list_omap snd]. destruct (group_entry x); simpl in *; unfold jvalues in *; lia. }
    subst n. lia.
Qed.

(** A marker keeps the index its phase was first computed from. *)
Theorem phase_is_stable {zod : Zod} es index now m m' res id l p :
  draw index es now m = (m', res) -> jget id (slots m) = Some (l, p) -> exists l', jget id (slots m') = Some (l', p).
Proof.
  revert index m res l. induction es as [|e es IH]; intros index m res l H Hp; cbn [draw] in H; unfold jbind, jret in H.
  { simplify_eq. by exists l. }
  destruct (markerFor (en_item e) index (en_count e) (en_grouped e) now m) as [m1 r1] eqn:Hm.
  assert (H1 : exists l1, jget id (slots m1) = Some (l1, p)).
  { assert (slots m1 = jset (attention_id (en_item e))
        (lane_of (it_severity (en_item e)), default index (snd <$> jget (attention_id (en_item e)) (slots m))) (slots m)) as ->.
    { unfold markerFor, jbind, jread, jwrite, jlift in Hm. destruct now; simpl in Hm; [|by simplify_eq]. by simplify_eq. }
    rewrite jget_jset. unfold str_eqb. case_bool_decide as Hk; [subst id; rewrite Hp; by eexists | by exists l]. }
  destruct H1 as [l1 H1]. destruct r1; [|simplify_eq; by exists l1].
  destruct (draw (index + 1) es now m1) as [m2 r2] eqn:Hd. destruct r2; simplify_eq; by eapply IH.
Qed.

(** ** Actions through the focus *)

Section focus.
Context {zod : Zod} (available : string -> bool) (propose : item -> option (option string)).

(** The queue changes at [id] only, by moves of that item. *)
Definition touches (id : string) (q q' : queue) : Prop :=
  sourceIndex q' = sourceIndex q /\ connected q' = connected q /\
  (forall k, k <> id -> jget k (items q') = jget k (items q)) /\
  match jget id (items q), jget id (items q') with
  | Some x, Some x' => rtc moved x x'
  | None, None => True
  | _, _ => False
  end.

Lemma touches_refl id q : touches id q q.
Proof. split_and!; [done..|]. by destruct (jget id (items q)). Qed.

Lemma touches_trans id q1 q2 q3 : touches id q1 q2 -> touches id q2 q3 -> touches id q1 q3.
Proof.
  intros (A1 & B1 & C1 & D1) (A2 & B2 & C2 & D2). split_and!; [congruence..| |].
  - intros k Hk. rewrite C2 by done. by apply C1.
  - destruct (jget id (items q1)), (jget id (items q2)), (jget id (items q3)); try done. by etrans.
Qed.

Lemma transition_touches id s now q q' r : transition id s now q = (q', r) -> touches id q q'.
Proof.
  intros [->|(x & x' & Hx & Hm & _ & _ & ->)]%transition_inv; [apply touches_refl|].
  split_and!; [done..| |]; simpl.
  - intros k Hk. by rewrite jget_jset_ne.
  - rewrite Hx, jget_jset_eq. by apply rtc_once.
Qed.

Lemma on_queue_touches {A} id (m : method queue queue_error A) c c' r :
  (forall q q' res, m q = (q', res) -> touches id q q') -> on_queue m c = (c', r) -> touches id (c_queue c) (c_queue c').
Proof. intros Hm H. unfold on_queue in H. destruct (m (c_queue c)) as [q res] eqn:Hq. simplify_eq. by eapply Hm. Qed.

Lemma read_touches {A} id (f : queue -> result queue_error A) q q' res :
  (q, f q) = (q', res) -> touches id q q'.
Proof. intros [= <- <-]. apply touches_refl. Qed.

Lemma on_queue_inv {A} (m : method queue queue_error A) c c' r : on_queue m c = (c', r) ->
  exists q res, m (c_queue c) = (q, res) /\ c_queue c' = q /\ current_focus c' = current_focus c /\
    r = match res with Ok a => Ok a | Err e => Err (F_QUEUE e) end.
Proof. unfold on_queue. destruct (m (c_queue c)) as [q res]. intros [= <- <-]. by exists q, res. Qed.

Lemma focus_on_touches id previous now c c' r :
  focus_on available id previous now c = (c', r) -> touches id (c_queue c) (c_queue c').
Proof.
  unfold focus_on, jbind, jlift, jread, jwrite, jret, on_queue at 1. intros H.
  destruct (get id (c_queue c)) as [it|e]; [|simplify_eq; apply touches_refl].
  destruct now as [t|]; simpl in H; [|simplify_eq; apply touches_refl].
  destruct (spatialAttentionFocusSchema _) as [f|]; simpl in H; [|simplify_eq; apply touches_refl].
  case_bool_decide; [|simplify_eq; apply touches_refl].
  destruct (on_queue _ _) as [c1 r1] eqn:Hq. apply on_queue_inv in Hq as (q & res & Hq & Hc1 & _ & _). simpl in Hq.
  apply transition_touches in Hq. destruct r1; simplify_eq; done.
Qed.

Lemma current_or_focus_touches id now c c' r :
  current_or_focus available id now c = (c', r) -> touches id (c_queue c) (c_queue c').
Proof.
  unfold current_or_focus, jbind, jread, jret. intros H. destruct (current_focus c) as [f|]; [|by eapply focus_on_touches].
  destruct (str_eqb _ _); [simplify_eq; apply touches_refl | by eapply focus_on_touches].
Qed.

Lemma returnFromFocus_touches id now c c' r : returnFromFocus now c = (c', r) -> touches id (c_queue c) (c_queue c').
Proof.
  unfold returnFromFocus, jbind, jlift, jread, jwrite, jret. intros H.
  destruct (current_focus c); simpl in H; [|simplify_eq; apply touches_refl].
  destruct now; simpl in H; simplify_eq; apply touches_refl.
Qed.

Lemma act_touches {A} id s now (k : method controller focus_error A) c c' r :
  (forall c c' r, k c = (c', r) -> c' = c) ->
  (on_queue (transition id s now) ;! k)%js c = (c', r) -> touches id (c_queue c) (c_queue c').
Proof.
  intros Hk H. unfold jbind in H. destruct (on_queue _ c) as [c1 r1] eqn:Hq.
  apply on_queue_inv in Hq as (q & res & Hq & <- & _ & _). apply transition_touches in Hq.
  destruct r1; [apply Hk in H; by subst c' | by simplify_eq].
Qed.

(** An action on an attention item through the focus controller,
    focusing it first if need be, changes the queue at that item only: every
    other item, the source index and the connection state are untouched, the
    item is neither created nor removed, and its state changes along the
    transition table. *)
Theorem execute_touches_its_item a id now c c' r :
  execute available propose a id now c = (c', r) -> touches id (c_queue c) (c_queue c').
Proof.
  unfold execute, jbind at 1. intros H. destruct (current_or_focus available id now c) as [c1 r1] eqn:Hf.
  apply current_or_focus_touches in Hf. destruct r1 as [f|e]; [|by simplify_eq].
  eapply touches_trans; [done|]. unfold jbind at 1, on_queue at 1 in H.
  destruct (get id (c_queue c1)) as [it|e]; [|simplify_eq; apply touches_refl].
  replace (Controller _ _ (c_queue c1) _) with c1 in H by (by destruct c1).
  assert (Hret : forall (x : focus * option string) c c' r, @jret controller focus_error _ x c = (c', r) -> c' = c) by (by intros ? ? ? ? [= <- <-]).
  destruct a; [| by eapply act_touches; [apply Hret|] .. | | | |].
  all: unfold jbind, jlift, jret in H.
  - simplify_eq. apply touches_refl.
  - destruct (require _ _); simplify_eq; apply touches_refl.
  - destruct (propose it); simpl in H; simplify_eq; apply touches_refl.
  - simplify_eq. apply touches_refl.
  - destruct (returnFromFocus now c1) as [c2 r2] eqn:Hr. apply (returnFromFocus_touches id) in Hr. destruct r2; by simplify_eq.
Qed.
End focus.

Module MarkerWitness.
Import AttentionWitness.
Definition always (_ : string) : bool := true.
Definition never (_ : item) : option (option string) := None.
Definition c0 : controller := Controller "w" "n" q1 None.
Definition c1 : controller := (execute (zod := zod_ref) always never ACKNOWLEDGE "attention:x" (Some 60) c0).1.

Lemma execute_touches_its_item_witness :
  touches "attention:x" (c_queue c0) (c_queue c1) /\
  (it_state <$> jget "attention:x" (items (c_queue c1))) = Some ACKNOWLEDGED.
Proof.
  split; [|vm_compute; reflexivity].
  eapply (execute_touches_its_item (zod := zod_ref) always never ACKNOWLEDGE "attention:x" (Some 60) c0 c1).
  apply surjective_pairing.
Defined.

(** 240 characters. *)
Definition long_source : string := repeat_char "s" 240.
Definition shown : markers := Markers "w" "n" None None [] [].

(** An event reference of 240 characters makes an item the queue accepts and a
    marker id longer than an id may be: drawing the markers then fails for every
    item. *)
Theorem long_source_stops_markers :
  let q := up (event long_source INFORMATION "late") 20 q1 in
  length (items q) = 2%nat /\
  (project (zod := zod_ref) (list_items false q) (Some 70) shown).2 = Err INVALID_ITEM.
Proof. vm_compute. split; reflexivity. Qed.
End MarkerWitness.
