(* ===== verification/Intent.v ===== *)
(** * The intent gateway

    src/web/operator-dashboard/src/spatial/interaction/intent-gateway.ts: the
    boundary every operator interaction passes, with its properties. An object
    of facts is a list of keys and JSON values. The id factory is a function
    [fresh], one value per call: the intent id first, then one per attachment. *)

From stdpp Require Import relations.
From S2P Require Import Prelude.
From S2P Require Import Json.
From S2P Require Import Contracts.
From S2P Require Import Authorization.
From S2P Require Import Registry.

#[local] Open Scope Z_scope.

(** ** Data *)

Inductive modality : Type := mod_text | mod_voice | mod_form | mod_spatial.
#[export] Instance modality_eq_dec : EqDecision modality.
Proof. solve_decision. Defined.

Inductive intent_kind : Type := k_message | k_interaction | k_command | k_change | k_presentation.
#[export] Instance intent_kind_eq_dec : EqDecision intent_kind.
Proof. solve_decision. Defined.

Inductive attachment_kind : Type := att_file | att_image | att_audio.
#[export] Instance attachment_kind_eq_dec : EqDecision attachment_kind.
Proof. solve_decision. Defined.

(** [SpatialAttachmentManifest]. *)
Record attachment : Type := Attachment {
  attachment_id : string;
  at_kind : attachment_kind;
  at_ref : string;
  mime_type : option string;
  size_bytes : option Z;
  checksum : option string;
}.

(** [SpatialIntentEnvelope]. *)
Record envelope : Type := Envelope {
  intent_id : string;
  en_workspace : string;
  en_node : string;
  en_actor : string;
  en_modality : modality;
  en_kind : intent_kind;
  en_text : option string;
  operation : option (list (string * json));
  target_refs : list string;
  parent_ref : option string;
  context_refs : list string;
  attachments_manifest : list attachment;
  en_revision : Z;
  en_key : string;
  en_created_at : iso;
}.

(** [SpatialIntentDraft]. *)
Record draft : Type := Draft {
  d_intent_id : option string;
  d_workspace : option string;
  d_node : option string;
  d_actor : string;
  d_modality : modality;
  d_kind : option intent_kind;
  d_text : option string;
  d_operation : option (list (string * json));
  d_targets : option (list string);
  d_parent : option string;
  d_context : option (list string);
  d_attachments : option (list attachment);
  d_revision : option number;
  d_key : string;
  d_created_at : option instant;
}.

Inductive intent_outcome : Type := accepted | duplicate.
#[export] Instance intent_outcome_eq_dec : EqDecision intent_outcome.
Proof. solve_decision. Defined.

(** [IntentGatewayAuditEntry]. *)
Record intent_audit : Type := IntentAudit {
  ia_intent : string;
  ia_workspace : string;
  ia_node : string;
  ia_actor : string;
  ia_modality : modality;
  ia_kind : intent_kind;
  target_count : nat;
  attachment_count : nat;
  ia_revision : Z;
  ia_created_at : iso;
  ia_outcome : intent_outcome;
}.

(** [IntentSubmission]; [duplicate] is [status = 'duplicate']. *)
Record submission : Type := Submission {
  sb_status : intent_outcome;
  sb_envelope : envelope;
  sb_audit : intent_audit;
}.

Inductive intent_error : Type :=
| EMPTY_INTENT | OVERSIZED_INTENT | WRONG_WORKSPACE | WRONG_NODE | STALE_TARGET | UNAUTHORIZED
| MALFORMED_ATTACHMENT | MALFORMED_INTENT | IG_RANGE_ERROR.
#[export] Instance intent_error_eq_dec : EqDecision intent_error.
Proof. solve_decision. Defined.

Record gateway : Type := Gateway {
  ig_workspace : string;
  ig_node : string;
  currentRevision : Z;
  maxTextLength : Z;
  byIdempotency : jsmap submission;
  audits : list intent_audit;
}.

Definition new_gateway (ws node : string) (revision max : option Z) : gateway :=
  Gateway ws node (Z.max 0 (default 0 revision)) (Z.max 1 (default 32000 max)) [] [].

Definition safeAudit (e : envelope) (o : intent_outcome) : intent_audit :=
  IntentAudit (intent_id e) (en_workspace e) (en_node e) (en_actor e) (en_modality e) (en_kind e)
    (length (target_refs e)) (length (attachments_manifest e)) (en_revision e) (en_created_at e) o.

(** [toIsoTimestamp(value, now)]. *)
Definition toIsoTimestamp (v : option instant) (now : date) : result intent_error iso :=
  match v with
  | Some (InDate d) => of_option d IG_RANGE_ERROR
  | Some (InText (Some t)) => Ok t
  | Some (InText None) | None => of_option now IG_RANGE_ERROR
  end.

(** The key of a submission. *)
Definition submission_key (actor key : string) : string := actor +:+ ":" +:+ key.

Definition push_audit (a : intent_audit) (g : gateway) : gateway :=
  Gateway (ig_workspace g) (ig_node g) (currentRevision g) (maxTextLength g) (byIdempotency g) (audits g ++ [a]).

Section gateway.
Context {zod : Zod}.

(** [z.string().max(n).nullable()] after trimming. *)
Definition boundedText (n : nat) : option string -> option (option string) :=
  nullable (fun s => z_string 0 n (trim s)).

Definition sizeSchema (n : Z) : option Z := n ← z_nonneg n; if bool_decide (n <= 1073741824) then Some n else None.

#[export] Instance size_idem (laws : ZodLaws zod) : Idempotent sizeSchema.
Proof.
  intros a b H. unfold sizeSchema in *. apply bind_Some in H as (x & Hx & H). case_bool_decide; [|done]. injection H as <-.
  pose proof (z_nonneg_sound _ _ Hx) as [-> _]. rewrite Hx. cbn. by rewrite bool_decide_eq_true_2.
Qed.

Definition spatialAttachmentManifestSchema (a : attachment) : option attachment :=
  id ← idSchema (attachment_id a);
  ref ← idSchema (at_ref a);
  mime ← boundedText 160 (mime_type a);
  size ← nullable sizeSchema (size_bytes a);
  sum ← boundedText 256 (checksum a);
  Some (Attachment id (at_kind a) ref mime size sum).

(** [structuredOperationSchema]: the keys have 1 to 128 characters. *)
Definition structuredOperationSchema (o : option (list (string * json))) : option (option (list (string * json))) :=
  nullable (mapM (fun kv => k ← z_string 1 128 kv.1; Some (k, kv.2))) o.

Definition spatialIntentEnvelopeSchema (e : envelope) : option envelope :=
  id ← idSchema (intent_id e);
  ws ← idSchema (en_workspace e);
  node ← idSchema (en_node e);
  actor ← idSchema (en_actor e);
  text ← boundedText (N.to_nat 32000) (en_text e);
  op ← structuredOperationSchema (operation e);
  targets ← z_array idSchema 256 (target_refs e);
  parent ← nullable idSchema (parent_ref e);
  context ← z_array idSchema 256 (context_refs e);
  atts ← z_array spatialAttachmentManifestSchema 64 (attachments_manifest e);
  rev ← revisionSchema (en_revision e);
  key ← idSchema (en_key e);
  t ← timestampSchema (en_created_at e);
  if negb (str_eqb (trim (default ""%string text)) "") || bool_decide (is_Some op)
  then Some (Envelope id ws node actor (en_modality e) (en_kind e) text op targets parent context atts rev key t)
  else None.

#[export] Instance boundedText_idem (laws : ZodLaws zod) n : Idempotent (boundedText n).
Proof.
  apply nullable_idem. intros s t H. apply z_string_sound in H as [-> Hl]. rewrite trim_idem. by apply z_string_complete.
Qed.

#[export] Instance attachmentSchema_idem (laws : ZodLaws zod) : Idempotent spatialAttachmentManifestSchema.
Proof.
  intros a b H. unfold spatialAttachmentManifestSchema in *.
  repeat match goal with H : base.mbind _ _ = Some _ |- _ => apply bind_Some in H as (? & ? & H) end. injection H as <-.
  cbn [attachment_id at_kind at_ref mime_type size_bytes checksum].
  by repeat (erewrite idem by done; cbn [mbind option_bind]).
Qed.

(** [normalizeAttachment(attachment, idFactory)]. *)
Definition normalizeAttachment (a : attachment) (fresh : string) : result intent_error attachment :=
  of_option (spatialAttachmentManifestSchema
    (Attachment (if str_eqb (attachment_id a) "" then fresh else attachment_id a) (at_kind a) (at_ref a) (mime_type a)
       (size_bytes a) (checksum a))) MALFORMED_ATTACHMENT.

Fixpoint normalizeAttachments (i : nat) (l : list attachment) (fresh : nat -> string) : result intent_error (list attachment) :=
  match l with
  | [] => Ok []
  | a :: l =>
      let? a' := normalizeAttachment a (fresh i) in
      let? l' := normalizeAttachments (S i) l fresh in
      Ok (a' :: l')
  end.

(** [submit(draft)]; [authorize] is the option of the same name, [wall] the
    clock. *)
Definition submit (authorize : option (envelope -> bool)) (d : draft) (fresh : nat -> string) (wall : date)
  : method gateway intent_error submission :=
  let key := trim (d_key d) in
  jlift (require (negb (str_eqb key "")) MALFORMED_INTENT) ;!
  let! g := jread in
  jlift (require (str_eqb (default (ig_workspace g) (d_workspace d)) (ig_workspace g)) WRONG_WORKSPACE) ;!
  jlift (require (str_eqb (default (ig_node g) (d_node d)) (ig_node g)) WRONG_NODE) ;!
  match jget (submission_key (d_actor d) key) (byIdempotency g) with
  | Some s =>
      let a := safeAudit (sb_envelope s) duplicate in
      jwrite (push_audit a g) ;!
      jret (Submission duplicate (sb_envelope s) a)
  | None =>
      let text := trim <$> d_text d in
      jlift (require (negb (str_eqb (default ""%string text) "") || bool_decide (is_Some (d_operation d))) EMPTY_INTENT) ;!
      jlift (require (bool_decide (Z.of_nat (String.length (default ""%string text)) <= maxTextLength g)) OVERSIZED_INTENT) ;!
      let! revision := jlift (of_option (nonneg_int (default (NInt (currentRevision g)) (d_revision d))) STALE_TARGET) in
      jlift (require (bool_decide (currentRevision g <= revision)) STALE_TARGET) ;!
      let! atts := jlift (normalizeAttachments 1 (default [] (d_attachments d)) fresh) in
      let! t := jlift (toIsoTimestamp (d_created_at d) wall) in
      let! e := jlift (of_option (spatialIntentEnvelopeSchema
        (Envelope (default (fresh 0%nat) (d_intent_id d)) (ig_workspace g) (ig_node g) (d_actor d) (d_modality d)
           (default k_message (d_kind d)) text (d_operation d) (default [] (d_targets d)) (d_parent d)
           (default [] (d_context d)) atts revision key t)) MALFORMED_INTENT) in
      jlift (require (match authorize with Some f => f e | None => true end) UNAUTHORIZED) ;!
      let a := safeAudit e accepted in
      let s := Submission accepted e a in
      jwrite (Gateway (ig_workspace g) (ig_node g) (currentRevision g) (maxTextLength g)
                (jset (submission_key (en_actor e) (en_key e)) s (byIdempotency g)) (audits g ++ [a])) ;!
      jret s
  end.

Definition setCurrentRevision (n : number) : method gateway intent_error unit :=
  let! r := jlift (of_option (nonneg_int n) IG_RANGE_ERROR) in
  let! g := jread in
  jwrite (Gateway (ig_workspace g) (ig_node g) r (maxTextLength g) (byIdempotency g) (audits g)).

Definition hasIdempotencyKey (actor key : string) (g : gateway) : bool := jhas (submission_key actor key) (byIdempotency g).
Definition getAudit (g : gateway) : list intent_audit := audits g.
Definition clear (g : gateway) : gateway :=
  Gateway (ig_workspace g) (ig_node g) (currentRevision g) (maxTextLength g) [] [].

(** [createTextIntentDraft]. *)
Definition createTextIntentDraft (actor text key : string) (ws node : option string) (targets context : option (list string))
    (parent : option string) (revision : option number) : draft :=
  Draft None ws node actor mod_text (Some k_message) (Some text) None targets parent context None revision key None.

(** ** Properties *)

Section histories.
Context {laws : ZodLaws zod} (authorize : option (envelope -> bool)).

(** One call, returning or throwing. *)
Inductive gateway_step (g : gateway) : gateway -> Prop :=
| ig_submit d fresh wall g' r : submit authorize d fresh wall g = (g', r) -> gateway_step g g'
| ig_revision n g' r : setCurrentRevision n g = (g', r) -> gateway_step g g'
| ig_clear : gateway_step g (clear g).

Lemma envelopeSchema_spec e e' : spatialIntentEnvelopeSchema e = Some e' ->
  en_workspace e' = trim (en_workspace e) /\ en_node e' = trim (en_node e) /\ en_actor e' = trim (en_actor e) /\
  en_key e' = trim (en_key e) /\ en_revision e' = en_revision e /\
  ((exists t, en_text e' = Some t /\ trim t <> "") \/ is_Some (operation e')).
Proof using laws.
  unfold spatialIntentEnvelopeSchema, revisionSchema. intros H.
  repeat match goal with H : base.mbind _ _ = Some _ |- _ => apply bind_Some in H as (? & ? & H) end.
  repeat match goal with H : idSchema _ = Some _ |- _ => apply idSchema_spec in H as [-> ?] end.
  match goal with H : z_nonneg _ = Some _ |- _ => apply z_nonneg_sound in H as [-> _] end.
  destruct (_ || _) eqn:Hor; [|done]. injection H as <-. simpl. split_and!; [done..|].
  apply orb_true_iff in Hor as [Ht|Ho%bool_decide_eq_true]; [left|by right].
  match goal with |- exists t, ?o = Some t /\ _ => destruct o as [t|] end; [|done].
  exists t. split; [done|]. unfold str_eqb in Ht. apply negb_true_iff, bool_decide_eq_false in Ht. done.
Qed.

(** What a call of [submit] that changes the gateway did. *)
Lemma submit_inv d fresh wall g g' r : submit authorize d fresh wall g = (g', r) ->
  (g' = g /\ forall s, r <> Ok s) \/
  (exists s, jget (submission_key (d_actor d) (trim (d_key d))) (byIdempotency g) = Some s /\
     g' = push_audit (safeAudit (sb_envelope s) duplicate) g /\
     r = Ok (Submission duplicate (sb_envelope s) (safeAudit (sb_envelope s) duplicate))) \/
  (exists e, jget (submission_key (d_actor d) (trim (d_key d))) (byIdempotency g) = None /\
     match authorize with Some f => f e | None => true end = true /\
     en_workspace e = trim (ig_workspace g) /\ en_node e = trim (ig_node g) /\
     en_actor e = trim (d_actor d) /\ en_key e = trim (d_key d) /\ trim (d_key d) <> "" /\
     currentRevision g <= en_revision e /\
     ((exists t, en_text e = Some t /\ trim t <> "") \/ is_Some (operation e)) /\
     r = Ok (Submission accepted e (safeAudit e accepted)) /\
     g' = Gateway (ig_workspace g) (ig_node g) (currentRevision g) (maxTextLength g)
            (jset (submission_key (en_actor e) (en_key e)) (Submission accepted e (safeAudit e accepted)) (byIdempotency g))
            (audits g ++ [safeAudit e accepted])).
Proof using laws.
  unfold submit, jbind, jlift, jread, jret, jwrite. intros H.
  unfold require in H at 1. destruct (str_eqb (trim (d_key d)) "") eqn:Hempty; simpl in H; [simplify_eq; by left|].
  unfold str_eqb in Hempty. apply bool_decide_eq_false in Hempty.
  destruct (require _ WRONG_WORKSPACE); [|simplify_eq; by left]. destruct (require _ WRONG_NODE); [|simplify_eq; by left].
  destruct (jget _ (byIdempotency g)) as [s|] eqn:Hk; [simplify_eq; right; left; by exists s|].
  destruct (require _ EMPTY_INTENT); [|simplify_eq; by left]. destruct (require _ OVERSIZED_INTENT); [|simplify_eq; by left].
  destruct (nonneg_int _) as [rev|]; simpl in H; [|simplify_eq; by left].
  unfold require in H at 1. case_bool_decide as Hrev; [|simplify_eq; by left].
  destruct (normalizeAttachments _ _ _); [|simplify_eq; by left]. destruct (toIsoTimestamp _ _); [|simplify_eq; by left].
  destruct (spatialIntentEnvelopeSchema _) as [e|] eqn:He; simpl in H; [|simplify_eq; by left].
  unfold require in H. destruct (match authorize with Some f => f e | None => true end) eqn:Ha; [|simplify_eq; by left].
  simplify_eq. right. right. exists e. apply envelopeSchema_spec in He as (Hw & Hn & Hact & Hkey & Hr & Ht). simpl in *.
  split_and!; try done; [by rewrite Hkey, trim_idem | lia].
Qed.

(** The envelope a call accepts: the contract's reading of the draft. *)
Lemma submit_accepts d fresh wall g g' e a : submit authorize d fresh wall g = (g', Ok (Submission accepted e a)) ->
  jget (submission_key (d_actor d) (trim (d_key d))) (byIdempotency g) = None ->
  exists atts rev t, normalizeAttachments 1 (default [] (d_attachments d)) fresh = Ok atts /\
    default (NInt (currentRevision g)) (d_revision d) = NInt rev /\
    spatialIntentEnvelopeSchema
      (Envelope (default (fresh 0%nat) (d_intent_id d)) (ig_workspace g) (ig_node g) (d_actor d) (d_modality d)
         (default k_message (d_kind d)) (trim <$> d_text d) (d_operation d) (default [] (d_targets d)) (d_parent d)
         (default [] (d_context d)) atts rev (trim (d_key d)) t) = Some e.
Proof using.
  unfold submit, jbind, jlift, jread, jret, jwrite. intros H Hk.
  destruct (require _ MALFORMED_INTENT); [|done]. destruct (require _ WRONG_WORKSPACE); [|done]. destruct (require _ WRONG_NODE); [|done].
  rewrite Hk in H. destruct (require _ EMPTY_INTENT); [|done]. destruct (require _ OVERSIZED_INTENT); [|done].
  destruct (nonneg_int _) as [rev|] eqn:Hrev; cbn [of_option] in H; [|done]. destruct (require _ STALE_TARGET); [|done].
  destruct (normalizeAttachments _ _ _) as [atts|]; [|done]. destruct (toIsoTimestamp _ _) as [t|]; [|done].
  destruct (spatialIntentEnvelopeSchema _) as [e'|] eqn:He; cbn [of_option] in H; [|done].
  destruct (require _ UNAUTHORIZED); [|done]. injection H as _ <- _. exists atts, rev, t. split; [done|]. split; [|done].
  unfold nonneg_int in Hrev. destruct (default _ _); [|done]. case_bool_decide; [|done]. by injection Hrev as ->.
Qed.

(** What the contract keeps of an envelope. *)
Lemma envelopeSchema_content e e' : spatialIntentEnvelopeSchema e = Some e' ->
  en_text e' = trim <$> en_text e /\ operation e' = operation e /\ target_refs e' = map trim (target_refs e) /\
  parent_ref e' = trim <$> parent_ref e /\ context_refs e' = map trim (context_refs e) /\
  Forall2 (fun a a' => spatialAttachmentManifestSchema a = Some a') (attachments_manifest e) (attachments_manifest e') /\
  en_modality e' = en_modality e /\ en_kind e' = en_kind e /\ intent_id e' = trim (intent_id e).
Proof using laws.
  unfold spatialIntentEnvelopeSchema. intros H.
  repeat match goal with H : base.mbind _ _ = Some _ |- _ => apply bind_Some in H as (? & ? & H) end.
  destruct (_ || _); [|done]. injection H as <-. cbn [en_text operation target_refs parent_ref context_refs attachments_manifest en_modality en_kind intent_id].
  repeat match goal with H : idSchema _ = Some _ |- _ => apply idSchema_spec in H as [-> _] end.
  repeat match goal with H : z_array idSchema _ _ = Some _ |- _ => apply z_array_ids in H as -> end.
  match goal with H : z_array _ _ _ = Some _ |- _ => apply z_array_forall2 in H end.
  split_and!; try done.
  - match goal with H : boundedText _ _ = Some _ |- _ => revert H end. unfold boundedText, nullable.
    destruct (en_text e) as [t|]; cbn; [|by intros [= <-]]. intros (u & [-> _]%z_string_sound & ->)%fmap_Some. done.
  - match goal with H : structuredOperationSchema _ = Some _ |- _ => revert H end. unfold structuredOperationSchema, nullable.
    destruct (operation e) as [l|]; cbn; [|by intros [= <-]]. intros (l' & Hl & ->)%fmap_Some. f_equal.
    apply mapM_Some in Hl. induction Hl as [|[k v] [k' v'] l l' Hx _ IH]; [done|]. rewrite IH. f_equal.
    apply bind_Some in Hx as (k2 & [-> _]%z_string_sound & [= <- <-]). done.
  - match goal with H : nullable idSchema _ = Some _ |- _ => revert H end. unfold nullable.
    destruct (parent_ref e) as [t|]; cbn; [|by intros [= <-]]. by intros (u & [-> _]%idSchema_spec & ->)%fmap_Some.
Qed.

(** Every stored submission is in scope, says something, was authorised, and
    its audit entry is in the log. *)
Definition gateway_inv (ws node : string) (g : gateway) : Prop :=
  ig_workspace g = ws /\ ig_node g = node /\
  jall (fun k s => k = submission_key (en_actor (sb_envelope s)) (en_key (sb_envelope s)) /\
    en_workspace (sb_envelope s) = trim ws /\ en_node (sb_envelope s) = trim node /\
    ((exists t, en_text (sb_envelope s) = Some t /\ trim t <> "") \/ is_Some (operation (sb_envelope s))) /\
    match authorize with Some f => f (sb_envelope s) | None => true end = true /\
    safeAudit (sb_envelope s) accepted ∈ audits g) (byIdempotency g).

Lemma gateway_step_inv ws node g g' : gateway_inv ws node g -> gateway_step g g' -> gateway_inv ws node g'.
Proof using laws.
  intros (Hw & Hn & Hall) [d fresh wall g1 r H|n g1 r H|].
  - apply submit_inv in H as [[-> _]|[(s & _ & -> & _)|(e & _ & Ha & Hew & Hen & _ & _ & _ & _ & Ht & _ & ->)]]; [done|..].
    + split_and!; [done..|]. intros k x Hx. destruct (Hall k x Hx) as (? & ? & ? & ? & ? & ?).
      split_and!; try done. apply elem_of_app. by left.
    + split_and!; [done..|]. apply jall_jset.
      * simpl. split_and!; try done; [congruence..|set_solver].
      * intros k x Hx. destruct (Hall k x Hx) as (? & ? & ? & ? & ? & ?). split_and!; try done. apply elem_of_app. by left.
  - unfold setCurrentRevision in H. by run_method H.
  - split_and!; [done..|]. by intros k x.
Qed.

(** The gateway admits only what it should: in every history of calls,
    every submission it holds is filed under its actor and key, belongs to the
    gateway's own workspace and node, carries text or an operation, was accepted
    by the authorisation callback, and has its audit entry, which has counts and
    references but no text, in the log. *)
Theorem gateway_admits ws node revision max g k s :
  rtc gateway_step (new_gateway ws node revision max) g -> jget k (byIdempotency g) = Some s ->
  k = submission_key (en_actor (sb_envelope s)) (en_key (sb_envelope s)) /\
  en_workspace (sb_envelope s) = trim ws /\ en_node (sb_envelope s) = trim node /\
  ((exists t, en_text (sb_envelope s) = Some t /\ trim t <> "") \/ is_Some (operation (sb_envelope s))) /\
  match authorize with Some f => f (sb_envelope s) | None => true end = true /\
  safeAudit (sb_envelope s) accepted ∈ audits g.
Proof using laws.
  intros H Hk. enough (gateway_inv ws node g) as (_ & _ & Hall) by (by apply Hall).
  assert (H0 : gateway_inv ws node (new_gateway ws node revision max)) by (split_and!; [done..|]; by intros ? ?).
  clear Hk. revert H0. induction H as [|g1 g2 g3 Hs _ IH]; [done|]. intros H0. by eapply IH, gateway_step_inv.
Qed.

(** Calls by actors without spaces around their reference, and no [clear]. *)
Inductive clean_call (g : gateway) : gateway -> Prop :=
| cc_submit d fresh wall g' r : trim (d_actor d) = d_actor d -> submit authorize d fresh wall g = (g', r) -> clean_call g g'
| cc_revision n g' r : setCurrentRevision n g = (g', r) -> clean_call g g'.

Lemma clean_call_keeps k s g g' :
  clean_call g g' -> jget k (byIdempotency g) = Some s ->
  jget k (byIdempotency g') = Some s /\ ig_workspace g' = ig_workspace g /\ ig_node g' = ig_node g.
Proof using laws.
  intros [d fresh wall g1 r Ht H|n g1 r H] Hk.
  - apply submit_inv in H as [[-> _]|[(x & _ & -> & _)|(e & Hnone & _ & _ & _ & Hact & Hkey & _ & _ & _ & _ & ->)]]; [done..|].
    split_and!; [|done..]. simpl. rewrite jget_jset_ne; [done|]. rewrite Hact, Ht, Hkey. congruence.
  - unfold setCurrentRevision in H. by run_method H.
Qed.

(** An intent is accepted once: after it was, however many calls by
    actors without spaces around their reference follow, another draft in scope
    with the same actor and key, whatever else it says and however late its
    target revision is, returns the accepted envelope as a duplicate, adds one
    audit entry marked so and changes nothing else. *)
Theorem resubmission_is_duplicate d fresh wall g g1 e a g2 d' fresh' wall' :
  submit authorize d fresh wall g = (g1, Ok (Submission accepted e a)) ->
  trim (d_actor d) = d_actor d ->
  rtc clean_call g1 g2 ->
  d_actor d' = d_actor d -> trim (d_key d') = trim (d_key d) ->
  d_workspace d' = None \/ d_workspace d' = Some (ig_workspace g) ->
  d_node d' = None \/ d_node d' = Some (ig_node g) ->
  submit authorize d' fresh' wall' g2 =
    (push_audit (safeAudit e duplicate) g2, Ok (Submission duplicate e (safeAudit e duplicate))).
Proof using laws.
  intros H Ht Hr Hact Hkey Hw Hn.
  apply submit_inv in H as [[_ H]|[(s & _ & _ & [=])|(x & _ & _ & _ & _ & Hea & Hek & Hne & _ & _ & [= <- ->] & ->)]];
    [by destruct (H (Submission accepted e a))|].
  assert (Hstored : jget (submission_key (d_actor d) (trim (d_key d))) (byIdempotency g2)
            = Some (Submission accepted e (safeAudit e accepted)) /\
          ig_workspace g2 = ig_workspace g /\ ig_node g2 = ig_node g).
  { match type of Hr with rtc _ ?g0 _ => assert (H0 : jget (submission_key (d_actor d) (trim (d_key d))) (byIdempotency g0)
      = Some (Submission accepted e (safeAudit e accepted)) /\ ig_workspace g0 = ig_workspace g /\ ig_node g0 = ig_node g) end.
    { split_and!; [|done..]. simpl. rewrite Hea, Ht, Hek. apply jget_jset_eq. }
    revert H0. induction Hr as [|h1 h2 h3 Hs _ IH]; [done|]. intros (Hk & Hw1 & Hn1). apply IH.
    destruct (clean_call_keeps _ _ _ _ Hs Hk) as (? & ? & ?). split_and!; congruence. }
  destruct Hstored as (Hk & Hw2 & Hn2). unfold submit, jbind, jlift, jread, jret, jwrite, str_eqb.
  rewrite Hkey, Hact. rewrite (bool_decide_eq_false_2 (trim (d_key d) = "")) by done. cbn [negb require].
  replace (default (ig_workspace g2) (d_workspace d')) with (ig_workspace g2) by (destruct Hw as [-> | ->]; done).
  replace (default (ig_node g2) (d_node d')) with (ig_node g2) by (destruct Hn as [-> | ->]; done).
  rewrite !bool_decide_eq_true_2 by done. cbn [require]. by rewrite Hk.
Qed.
End histories.
End gateway.

Module IntentWitness.
Definition allow (e : envelope) : bool := negb (str_eqb (en_actor e) "mallory").
Definition fresh (n : nat) : string := match n with O => "intent-1" | _ => "att-1" end.
Definition say (actor text key : string) : draft := createTextIntentDraft actor text key None (Some "n"%string) None None None None.
Definition g0 : gateway := new_gateway "w" "n" (Some 3) None.
Definition run (d : draft) (g : gateway) : gateway * result intent_error submission :=
  submit (zod := zod_ref) (Some allow) d fresh (Some 100) g.
Definition g1 : gateway := (run (say "ann" "hello" "k1") g0).1.
Definition e1 : envelope :=
  Envelope "intent-1" "w" "n" "ann" mod_text k_message (Some "hello"%string) None [] None [] [] 3 "k1" 100.
Definition g2 : gateway := (run (say "bob" "hi" "k1") g1).1.

Lemma gateway_admits_witness :
  "ann:k1"%string = submission_key (en_actor e1) (en_key e1) /\ allow e1 = true /\ safeAudit e1 accepted ∈ audits g2.
Proof.
  destruct (gateway_admits (zod := zod_ref) (Some allow) "w" "n" (Some 3) None g2 "ann:k1"
              (Submission accepted e1 (safeAudit e1 accepted))) as (Hk & _ & _ & _ & Ha & Hin).
  - do 2 (eapply rtc_l; [eapply ig_submit; apply surjective_pairing|]). apply rtc_refl.
  - vm_compute. reflexivity.
  - exact (conj Hk (conj Ha Hin)).
Defined.

Lemma resubmission_is_duplicate_witness :
  run (say "ann" "something else" " k1 ") g2 =
    (push_audit (safeAudit e1 duplicate) g2, Ok (Submission duplicate e1 (safeAudit e1 duplicate))).
Proof.
  apply (resubmission_is_duplicate (zod := zod_ref) (Some allow) (say "ann" "hello" "k1") fresh (Some 100) g0 g1 e1
           (safeAudit e1 accepted)).
  - vm_compute. reflexivity.
  - reflexivity.
  - apply (rtc_l _ g1 g2); [eapply (cc_submit _ _ (say "bob" "hi" "k1")); [reflexivity | exact (surjective_pairing _)]|]. apply rtc_refl.
  - reflexivity.
  - reflexivity.
  - left. reflexivity.
  - right. reflexivity.
Defined.

(** An actor reference with a space in front: submissions are looked up under
    the reference as given and stored under the trimmed one, so the same draft is
    accepted again, and the second submission replaces the first. *)
Theorem padded_actor_submits_twice :
  let '(g, r) := run (say " ann" "hello again" "k1") g1 in
  match r with Ok s => sb_status s = accepted /\ en_actor (sb_envelope s) = "ann"%string | Err _ => False end /\
  length (byIdempotency g) = 1%nat /\ length (audits g) = 2%nat.
Proof. vm_compute. split_and!; reflexivity. Qed.

(** The key "actor:key" does not separate its parts: the draft of an actor the
    callback refuses is answered, before it is asked, with the envelope of
    another actor. *)
Theorem submission_key_confuses_actors :
  let g := (run (say "mallory:x" "secret plan" "k") g0).1 in
  is_ok (run (say "mallory" "give me that" "other") g).2 = false /\
  match (run (say "mallory" "give me that" "x:k") g).2 with
  | Ok s => en_actor (sb_envelope s) = "mallory:x"%string /\ en_text (sb_envelope s) = Some "secret plan"%string
  | Err _ => False
  end.
Proof. vm_compute. split_and!; reflexivity. Qed.
End IntentWitness.
