(* ===== verification/Status.v ===== *)
(** * Node status aggregation

    src/web/operator-dashboard/src/spatial/status/aggregator.ts: the reducer of
    probe observations into a Node status snapshot, with its contract. A probe
    that settled is its observation or a failure; the awaited probes change no
    state of the aggregator, so a refresh is the call of [build] with what they
    returned. *)

From Stdlib Require Import QArith.
From S2P Require Import Prelude.
From S2P Require Import Json.
From S2P Require Import Contracts.
From S2P Require Import Numbers.
From S2P Require Import Text.
From S2P Require Import Authorization.
From S2P Require Import Recovery.

#[local] Open Scope Z_scope.

(** ** Data *)

Inductive node_state : Type :=
| ONLINE | READY | RUNNING | STARTING | STOPPING | RESTARTING | DEGRADED | OFFLINE | DISCONNECTED | BLOCKED
| UNKNOWN | STALE.
#[export] Instance node_state_eq_dec : EqDecision node_state.
Proof. solve_decision. Defined.

Inductive component_kind : Type :=
| ck_node | ck_hypervisor | ck_primary_agent | ck_mcp | ck_hooks | ck_network | ck_consensus | ck_wallet | ck_sessions
| ck_tasks | ck_endpoints | ck_providers | ck_runtimes | ck_resources | ck_renderer | ck_other.
#[export] Instance component_kind_eq_dec : EqDecision component_kind.
Proof. solve_decision. Defined.

Definition kind_name (k : component_kind) : string :=
  match k with
  | ck_node => "node" | ck_hypervisor => "hypervisor" | ck_primary_agent => "primary-agent" | ck_mcp => "mcp"
  | ck_hooks => "hooks" | ck_network => "network" | ck_consensus => "consensus" | ck_wallet => "wallet"
  | ck_sessions => "sessions" | ck_tasks => "tasks" | ck_endpoints => "endpoints" | ck_providers => "providers"
  | ck_runtimes => "runtimes" | ck_resources => "resources" | ck_renderer => "renderer" | ck_other => "other"
  end.

Inductive freshness_state : Type := F_FRESH | F_STALE | F_PARTIAL | F_UNKNOWN | F_UNAVAILABLE.
#[export] Instance freshness_state_eq_dec : EqDecision freshness_state.
Proof. solve_decision. Defined.

Inductive authorization_state : Type := A_AUTHORIZED | A_REDACTED | A_UNAVAILABLE.

(** [SpatialFreshnessWire]. *)
Record freshness : Type := Freshness {
  fr_state : freshness_state;
  fr_observed_at : iso;
  stale_after_seconds : jsnum;
  fr_source : string;
}.

(** [SpatialStatusEvidenceRef]. *)
Record evidence : Type := Evidence {
  ev_ref : string;
  ev_kind : option string;
  ev_label : option string;
  ev_observed_at : option iso;
  ev_authorized : bool;
  ev_redacted : bool;
}.

Record status_event : Type := StatusEvent {
  se_id : string;
  se_occurred_at : iso;
  se_state : string;
  se_message : option string;
}.

(** [SpatialStatusDetails]. *)
Record details : Type := Details {
  dt_identity : option string;
  dt_runtime : option string;
  dt_connection : option string;
  last_events : list status_event;
  safe_raw_evidence : list string;
  dt_authorization : authorization_state;
}.

(** [StatusProbeObservation]. *)
Record observation : Type := Observation {
  ob_id : string;
  ob_type : string;
  ob_kind : option component_kind;
  ob_state : node_state;
  ob_observed_at : option instant;
  ob_stale_after : option jsnum;
  ob_source : string;
  ob_revision : option Z;
  ob_evidence : option (list evidence);
  ob_issue : option string;
  ob_actions : option (list action);
  ob_spatial_ref : option string;
  ob_authorization : option authorization_state;
  ob_details : option details;
}.

(** [SpatialStatusComponent], without the fields the aggregator leaves unset. *)
Record component : Type := Component {
  component_id : string;
  component_type : string;
  co_kind : component_kind;
  co_state : node_state;
  co_observed_at : iso;
  co_freshness : freshness;
  co_source : string;
  co_revision : option Z;
  co_evidence : list evidence;
  issue_code : option string;
  available_actions : list action;
  spatial_ref : option string;
  co_authorization : authorization_state;
  co_details : option details;
}.

(** [SpatialNodeStatus]. *)
Record status : Type := Status {
  st_node : string;
  st_revision : Z;
  st_state : node_state;
  st_observed_at : iso;
  st_freshness : freshness;
  components : list component;
  generated_at : option iso;
  node_revision : option Z;
  overall_state : option node_state;
  partial : bool;
  cached : bool;
  last_known_at : option iso;
  active_sessions : Z;
  running_tasks : Z;
  active_endpoints : Z;
  warning_count : Z;
  st_evidence : list evidence;
  st_provenance : option (string * Z * string);
}.

Inductive status_error : Type := INVALID_NODE | INVALID_SNAPSHOT | STALE_REVISION.
#[export] Instance status_error_eq_dec : EqDecision status_error.
Proof. solve_decision. Defined.

(** ** Reduction *)

(** [asDate(value, fallback)]. *)
Definition asDate (v : option instant) (fallback : iso) : result status_error iso :=
  match v with
  | None => Ok fallback
  | Some (InDate d) | Some (InText d) => of_option d INVALID_SNAPSHOT
  end.

(** Milliseconds as seconds. *)
Definition seconds (ms : Z) : jsnum := Finite (Qmake ms 1000).

Definition freshnessState (cs : list component) (part : bool) (now : iso) : freshness_state :=
  if part then F_PARTIAL
  else if existsb (fun c => bool_decide (fr_state (co_freshness c) = F_UNKNOWN)
                            || bool_decide (fr_state (co_freshness c) = F_UNAVAILABLE)) cs then F_UNKNOWN
  else if existsb (fun c => bool_decide (fr_state (co_freshness c) = F_STALE)) cs then F_STALE
  else if existsb (fun c => num_lt (stale_after_seconds (co_freshness c)) (seconds (now - co_observed_at c))) cs
  then F_STALE else F_FRESH.

Definition stateRank (s : node_state) : Z :=
  match s with
  | ONLINE | READY | RUNNING => 1
  | STARTING | STOPPING | RESTARTING => 2
  | DEGRADED => 3
  | STALE => 4
  | BLOCKED | DISCONNECTED => 5
  | OFFLINE => 6
  | UNKNOWN => 7
  end.

(** The [reduce] of [aggregateState]. *)
Definition worst_of (cs : list component) : node_state :=
  foldl (fun current c => if bool_decide (stateRank current < stateRank (co_state c)) then co_state c else current) ONLINE cs.

Definition is_green (s : node_state) : bool := match s with ONLINE | READY | RUNNING => true | _ => false end.

Definition aggregateState (cs : list component) (part : bool) : node_state :=
  match cs with
  | [] => UNKNOWN
  | _ =>
      if part && forallb (fun c => bool_decide (co_state c = UNKNOWN)) cs then UNKNOWN
      else if part then DEGRADED
      else
        let worst := worst_of cs in
        if bool_decide (worst = OFFLINE)
           && existsb (fun c => bool_decide (co_kind c = ck_node) && bool_decide (co_state c = OFFLINE)) cs then OFFLINE
        else if is_green worst then ONLINE
        else worst
  end.

(** [safeText(value, max)] of a string: no control characters. *)
Definition printable (c : ascii) : bool :=
  bool_decide (31 < N_of_ascii c)%N && negb (bool_decide (N_of_ascii c = 127)%N).

Fixpoint string_filter (P : ascii -> bool) (s : string) : string :=
  match s with
  | EmptyString => EmptyString
  | String c s => if P c then String c (string_filter P s) else string_filter P s
  end.

Definition safeText (max : nat) (s : string) : option string :=
  let normalized := string_filter printable (trim s) in
  if str_eqb normalized "" then None else Some (slice max normalized).

Definition redactEvidence (refs : option (list evidence)) : list evidence :=
  map (fun r => Evidence (default "redacted-evidence"%string (safeText 256 (ev_ref r))) (ev_kind r ≫= safeText 64)
                  (ev_label r ≫= safeText 240) (ev_observed_at r) (ev_authorized r)
                  (ev_redacted r || negb (ev_authorized r)))
    (take 32 (default [] refs)).

Definition redactDetails (d : details) : details :=
  Details (dt_identity d ≫= safeText 240) (dt_runtime d ≫= safeText 240) (dt_connection d ≫= safeText 240)
    (map (fun e => StatusEvent (default "event"%string (safeText 256 (se_id e))) (se_occurred_at e)
                     (default "UNKNOWN"%string (safeText 96 (se_state e))) (se_message e ≫= safeText 240))
       (take 20 (last_events d)))
    (omap (safeText 512) (take 20 (safe_raw_evidence d)))
    (dt_authorization d).

Definition aggregator_source : string := "node-status-aggregator".

(** [componentFromObservation(observation, now, staleAfterSeconds)]. *)
Definition componentFromObservation (o : observation) (now : iso) (ttl0 : jsnum) : result status_error component :=
  let? observedAt := asDate (ob_observed_at o) now in
  let given := default NaN (ob_stale_after o) in
  let ttl := if isFinite given && negb (num_lt given (num 0)) then given else ttl0 in
  let age := seconds (Z.max 0 (now - observedAt)) in
  let fresh := if num_lt ttl age then F_STALE
               else if bool_decide (ob_state o = UNKNOWN) then F_UNKNOWN else F_FRESH in
  let source := default aggregator_source (safeText 128 (ob_source o)) in
  Ok (Component (default "unknown-component"%string (safeText 256 (ob_id o)))
        (default "Unknown component"%string (safeText 240 (ob_type o))) (default ck_other (ob_kind o)) (ob_state o)
        observedAt (Freshness fresh observedAt ttl source) source (ob_revision o) (redactEvidence (ob_evidence o))
        (ob_issue o ≫= safeText 96) (default [] (ob_actions o)) (ob_spatial_ref o)
        (default A_AUTHORIZED (ob_authorization o)) (redactDetails <$> ob_details o)).

(** ** Contract *)

Section contract.
Context {zod : Zod}.

Definition sourceSchema (s : string) : option string := z_string 1 128 (trim s).
Definition optional {A} (p : A -> option A) := nullable p.
(** A code of at most [n] characters, upper-cased or lower-cased by [f]. *)
Definition codeSchema (f : string -> string) (n : nat) (s : string) : option string := z_string 1 n (f (trim s)).
Definition max_string (n : nat) (s : string) : option string := z_string 0 n s.

#[export] Instance max_string_idem (laws : ZodLaws zod) n : Idempotent (max_string n).
Proof. intros s t H. unfold max_string in *. pose proof (z_string_sound _ _ _ _ H) as [-> _]. done. Qed.

Definition spatialFreshnessSchema (f : freshness) : option freshness :=
  t ← timestampSchema (fr_observed_at f);
  ttl ← boundedIntSchema 31536000 (stale_after_seconds f);
  src ← sourceSchema (fr_source f);
  Some (Freshness (fr_state f) t ttl src).

Definition statusEvidenceRefSchema (e : evidence) : option evidence :=
  ref ← idSchema (ev_ref e);
  kind ← optional (codeSchema to_lower 64) (ev_kind e);
  label ← optional labelSchema (ev_label e);
  t ← optional timestampSchema (ev_observed_at e);
  Some (Evidence ref kind label t (ev_authorized e) (ev_redacted e)).

Definition statusEventSchema (e : status_event) : option status_event :=
  id ← idSchema (se_id e);
  t ← timestampSchema (se_occurred_at e);
  st ← codeSchema to_upper 96 (se_state e);
  msg ← optional (max_string 240) (se_message e);
  Some (StatusEvent id t st msg).

Definition statusDetailsSchema (d : details) : option details :=
  i ← optional (max_string 240) (dt_identity d);
  r ← optional (max_string 240) (dt_runtime d);
  c ← optional (max_string 240) (dt_connection d);
  evs ← z_array statusEventSchema 20 (last_events d);
  raw ← z_array (max_string 512) 20 (safe_raw_evidence d);
  Some (Details i r c evs raw (dt_authorization d)).

Definition statusComponentSchema (c : component) : option component :=
  id ← idSchema (component_id c);
  ty ← labelSchema (component_type c);
  t ← timestampSchema (co_observed_at c);
  fr ← spatialFreshnessSchema (co_freshness c);
  src ← sourceSchema (co_source c);
  rev ← optional revisionSchema (co_revision c);
  evs ← z_array statusEvidenceRefSchema 32 (co_evidence c);
  issue ← optional (codeSchema to_upper 96) (issue_code c);
  acts ← z_array Some 16 (available_actions c);
  ref ← optional idSchema (spatial_ref c);
  dt ← optional statusDetailsSchema (co_details c);
  Some (Component id ty (co_kind c) (co_state c) t fr src rev evs issue acts ref (co_authorization c) dt).

Definition statusProvenanceSchema (p : string * Z * string) : option (string * Z * string) :=
  ref ← idSchema p.1.1;
  rev ← revisionSchema p.1.2;
  src ← sourceSchema p.2;
  Some (ref, rev, src).

Definition spatialNodeStatusSchema (s : status) : option status :=
  node ← idSchema (st_node s);
  rev ← revisionSchema (st_revision s);
  t ← timestampSchema (st_observed_at s);
  fr ← spatialFreshnessSchema (st_freshness s);
  cs ← z_array statusComponentSchema 256 (components s);
  gen ← optional timestampSchema (generated_at s);
  nrev ← optional revisionSchema (node_revision s);
  known ← optional timestampSchema (last_known_at s);
  a ← z_nonneg (active_sessions s);
  b ← z_nonneg (running_tasks s);
  c ← z_nonneg (active_endpoints s);
  w ← z_nonneg (warning_count s);
  evs ← z_array statusEvidenceRefSchema 64 (st_evidence s);
  prov ← optional statusProvenanceSchema (st_provenance s);
  Some (Status node rev (st_state s) t fr cs gen nrev (overall_state s) (partial s) (cached s) known a b c w evs prov).

(** ** The aggregator *)

Record aggregator : Type := Aggregator {
  ag_node : string;
  staleAfterSeconds : jsnum;
  ag_revision : Z;
  ag_current : option status;
}.

Definition set_snapshot (s : status) (a : aggregator) : aggregator :=
  Aggregator (ag_node a) (staleAfterSeconds a) (st_revision s) (Some s).

(** [ingest(snapshot)]. *)
Definition ingest (s : status) : method aggregator status_error status :=
  let! a := jread in
  jlift (require (str_eqb (st_node s) (ag_node a)) INVALID_NODE) ;!
  jlift (require (match ag_current a with Some c => bool_decide (st_revision c <= st_revision s) | None => true end)
           STALE_REVISION) ;!
  let! parsed := jlift (of_option (spatialNodeStatusSchema s) INVALID_SNAPSHOT) in
  jwrite (set_snapshot parsed a) ;!
  jret parsed.

(** The constructor. *)
Definition new_aggregator (nodeId : string) (stale : option jsnum) (revision : option Z) (cachedSnapshot : option status)
  : result status_error aggregator :=
  require (negb (str_eqb (trim nodeId) "")) INVALID_NODE ;?
  let ttl := default (num 900) stale in
  let ttl := if num_lt ttl (num 0) then num 0 else ttl in
  let rev := Z.max 0 (match revision with Some r => r | None => default 0 (st_revision <$> cachedSnapshot) end) in
  let a := Aggregator (trim nodeId) ttl rev None in
  match cachedSnapshot with
  | None => Ok a
  | Some s => let '(a', r) := ingest s a in let? _ := r in Ok a'
  end.

Record context : Type := ContextCounts { activeSessions : option Z; runningTasks : option Z; activeEndpoints : option Z }.

(** The snapshot [build] parses. *)
Definition candidate (cs : list component) (failed : bool) (ctx : context) (now : iso) (a : aggregator) : status :=
  let state := aggregateState cs failed in
  let revision := foldl Z.max (ag_revision a + 1) (map (fun c => default 0 (co_revision c)) cs) in
  Status (ag_node a) revision state now
    (Freshness (freshnessState cs failed now) now (staleAfterSeconds a) aggregator_source) cs (Some now) (Some revision)
    (Some state) failed false (ag_current a ≫= last_known_at)
    (Z.max 0 (default 0 (activeSessions ctx))) (Z.max 0 (default 0 (runningTasks ctx)))
    (Z.max 0 (default 0 (activeEndpoints ctx)))
    (Z.of_nat (length (filter (fun c => is_green (co_state c) = false) cs)))
    (take 64 (concat (map co_evidence cs)))
    (Some ("node:" +:+ ag_node a, revision, aggregator_source)%string).

(** [build(observations, failed, context)]. *)
Definition build (obs : list observation) (failed : list string) (ctx : context) (now : date)
  : method aggregator status_error status :=
  let! t := jlift (of_option now INVALID_SNAPSHOT) in
  let! a := jread in
  let! cs := jlift (rmap (fun o => componentFromObservation o t (staleAfterSeconds a)) obs) in
  let! parsed := jlift (of_option (spatialNodeStatusSchema
    (candidate cs (bool_decide (failed <> [])) ctx t a)) INVALID_SNAPSHOT) in
  jwrite (set_snapshot parsed a) ;!
  jret parsed.

(** A probe and how it settled: [None] when it failed. *)
Record probe : Type := Probe { pr_id : string; pr_type : string; pr_kind : component_kind; pr_result : option observation }.

Definition settled_observation (p : probe) : observation :=
  match pr_result p with
  | Some o => Observation (pr_id p) (pr_type p) (Some (pr_kind p)) (ob_state o) (ob_observed_at o) (ob_stale_after o)
                (ob_source o) (ob_revision o) (ob_evidence o) (ob_issue o) (ob_actions o) (ob_spatial_ref o)
                (ob_authorization o) (ob_details o)
  | None => Observation (pr_id p) (pr_type p) (Some (pr_kind p)) UNKNOWN None None ("probe." +:+ kind_name (pr_kind p)) None
              None (Some "PROBE_UNAVAILABLE"%string) (Some []) None None None
  end.

Definition failed_probes (ps : list probe) : list string :=
  omap (fun p => match pr_result p with Some _ => None | None => Some (pr_id p) end) ps.

(** [refresh(probes, context)] once the probes settled. *)
Definition refresh (ps : list probe) (ctx : context) (now : date)
  : method aggregator status_error (status * list string) :=
  let! s := build (map settled_observation ps) (failed_probes ps) ctx now in
  jret (s, failed_probes ps).

(** [readCached()]. *)
Definition unfresh (f : freshness) (t : iso) : freshness := Freshness F_STALE t (stale_after_seconds f) (fr_source f).
Definition demote (s : node_state) : node_state := if is_green s then STALE else s.

Definition stale_component (c : component) : component :=
  Component (component_id c) (component_type c) (co_kind c) (demote (co_state c)) (co_observed_at c)
    (unfresh (co_freshness c) (fr_observed_at (co_freshness c))) (co_source c) (co_revision c) (co_evidence c) (issue_code c)
    (available_actions c) (spatial_ref c) (co_authorization c) (co_details c).

Definition readCached (now : date) (a : aggregator) : result status_error (option status) :=
  match ag_current a with
  | None => Ok None
  | Some s =>
      let? t := of_option now INVALID_SNAPSHOT in
      Ok (Some (Status (st_node s) (st_revision s) (demote (st_state s)) t
            (unfresh (st_freshness s) (st_observed_at s)) (map stale_component (components s)) (Some t) (node_revision s)
            (demote <$> overall_state s) (partial s) true (Some (st_observed_at s)) (active_sessions s) (running_tasks s)
            (active_endpoints s) (warning_count s) (st_evidence s) (st_provenance s)))
  end.
End contract.
