(* ===== verification/StatusProps.v ===== *)
(** * Properties of the Node status

    A snapshot has one component per probe and is green only when every probe
    answered green; its state is the worst of its components; revisions only go
    up; a cached snapshot is never green. *)

From Stdlib Require Import QArith.
From stdpp Require Import relations.
From S2P Require Import Prelude.
From S2P Require Import Json.
From S2P Require Import Contracts.
From S2P Require Import Numbers.
From S2P Require Import Text.
From S2P Require Import Authorization.
From S2P Require Import Recovery.
From S2P Require Import Status.

#[local] Open Scope Z_scope.

(** ** The worst state *)

Definition worse (a b : node_state) : node_state := if bool_decide (stateRank a < stateRank b) then b else a.

Lemma worst_fold s cs :
  let w := foldl (fun current c => worse current (co_state c)) s cs in
  (w = s \/ exists c, c ∈ cs /\ co_state c = w) /\ stateRank s <= stateRank w /\
  forall c, c ∈ cs -> stateRank (co_state c) <= stateRank w.
Proof.
  revert s. induction cs as [|c cs IH]; intros s; simpl.
  { split_and!; [by left|lia|]. intros c Hc. by apply elem_of_nil in Hc. }
  destruct (IH (worse s (co_state c))) as (Hw & Hle & Hall).
  assert (Hs : stateRank s <= stateRank (worse s (co_state c)) /\ stateRank (co_state c) <= stateRank (worse s (co_state c)))
    by (unfold worse; case_bool_decide; lia).
  split_and!; [|lia|].
  - destruct Hw as [Hw|(d & Hd & Hw)]; [|right; exists d; set_solver]. rewrite Hw. unfold worse.
    case_bool_decide; [right; exists c; set_solver | by left].
  - intros d Hd. apply elem_of_cons in Hd as [->|Hd]; [lia | by apply Hall].
Qed.

Lemma rank_green s : is_green s = true <-> stateRank s = 1.
Proof. by destruct s. Qed.

Lemma rank_pos s : 1 <= stateRank s.
Proof. by destruct s. Qed.

(** The aggregated state when no probe failed: green exactly when all
    components are, otherwise the state of a worst component. *)
Lemma aggregateState_spec cs : cs <> [] ->
  (aggregateState cs false = ONLINE <-> Forall (fun c => is_green (co_state c) = true) cs) /\
  (aggregateState cs false = ONLINE \/ exists c, c ∈ cs /\ co_state c = aggregateState cs false) /\
  forall c, c ∈ cs -> stateRank (co_state c) <= stateRank (aggregateState cs false).
Proof.
  intros Hne. destruct (worst_fold ONLINE cs) as (Hw & _ & Hall).
  assert (Heq : aggregateState cs false = if is_green (worst_of cs) then ONLINE else worst_of cs).
  { unfold aggregateState. destruct cs as [|c cs]; [done|]. cbn [andb].
    destruct (bool_decide (worst_of (c :: cs) = OFFLINE)) eqn:Ho; cbn [andb]; [|done].
    apply bool_decide_eq_true in Ho. destruct (existsb _ _); by rewrite Ho. }
  rewrite Heq. fold (worst_of cs) in Hw, Hall. change (foldl _ ONLINE cs) with (worst_of cs) in *.
  destruct (is_green (worst_of cs)) eqn:Hg.
  - apply rank_green in Hg. split_and!; [|by left|].
    + split; [|done]. intros _. apply Forall_forall. intros c Hc. apply rank_green. pose proof (rank_pos (co_state c)).
      specialize (Hall c Hc). lia.
    + intros c Hc. specialize (Hall c Hc). simpl. lia.
  - split_and!; [| |done].
    + split; [intros Ho; by rewrite Ho in Hg|]. intros Hf. exfalso. destruct Hw as [Hw|(c & Hc & Hw)]; [by rewrite Hw in Hg|].
      rewrite Forall_forall in Hf. specialize (Hf c Hc). simpl in Hf. by rewrite Hw, Hg in Hf.
    + destruct Hw as [Hw|(c & Hc & Hw)]; [by rewrite Hw in Hg|]. right. by exists c.
Qed.

Section status.
Context {zod : Zod} {laws : ZodLaws zod}.

Lemma freshnessSchema_keeps f f' : spatialFreshnessSchema f = Some f' ->
  fr_state f' = fr_state f /\ stale_after_seconds f' = stale_after_seconds f.
Proof.
  unfold spatialFreshnessSchema, boundedIntSchema. intros H. inv_some. simpl. split; [done|].
  match goal with H : (if isInteger _ then _ else _) = Some _ |- _ => destruct (isInteger _); [|done];
    apply boundedSchema_spec in H as [-> _] end. done.
Qed.

Lemma componentSchema_keeps c c' : statusComponentSchema c = Some c' ->
  co_state c' = co_state c /\ co_kind c' = co_kind c /\ co_observed_at c' = co_observed_at c /\
  fr_state (co_freshness c') = fr_state (co_freshness c) /\
  stale_after_seconds (co_freshness c') = stale_after_seconds (co_freshness c).
Proof.
  unfold statusComponentSchema. intros H. inv_some. simpl.
  match goal with H : spatialFreshnessSchema _ = Some _ |- _ => apply freshnessSchema_keeps in H as [? ?] end.
  match goal with H : timestampSchema _ = Some _ |- _ => injection H as <- end. done.
Qed.

Lemma statusSchema_keeps s s' : spatialNodeStatusSchema s = Some s' ->
  st_state s' = st_state s /\ partial s' = partial s /\ st_revision s' = st_revision s /\
  fr_state (st_freshness s') = fr_state (st_freshness s) /\ overall_state s' = overall_state s /\
  Forall2 (fun c c' => statusComponentSchema c = Some c') (components s) (components s').
Proof using laws.
  unfold spatialNodeStatusSchema, revisionSchema. intros H. inv_some. simpl.
  match goal with H : spatialFreshnessSchema _ = Some _ |- _ => apply freshnessSchema_keeps in H as [? ?] end.
  match goal with H : z_nonneg (st_revision _) = Some _ |- _ => apply z_nonneg_sound in H as [-> _] end.
  match goal with H : z_array statusComponentSchema _ _ = Some _ |- _ => apply z_array_forall2 in H end. done.
Qed.

(** The component of a probe. *)
Definition answers (p : probe) (c : component) : Prop :=
  co_kind c = pr_kind p /\ co_state c = match pr_result p with Some o => ob_state o | None => UNKNOWN end.

Lemma component_answers p t ttl c : componentFromObservation (settled_observation p) t ttl = Ok c -> answers p c.
Proof. unfold componentFromObservation. intros H. inv_ok. unfold answers, settled_observation. by destruct (pr_result p). Qed.

(** What a refresh that returns computed. *)
Lemma refresh_inv ps ctx now a a' s failed : refresh ps ctx now a = (a', Ok (s, failed)) ->
  exists t cs, now = Some t /\ failed = failed_probes ps /\ a' = set_snapshot s a /\ Forall2 answers ps cs /\
    spatialNodeStatusSchema (candidate cs (bool_decide (failed <> [])) ctx t a) = Some s.
Proof.
  unfold refresh, build, jbind, jlift, jread, jwrite, jret. intros H.
  destruct now as [t|]; simpl in H; [|done]. destruct (rmap _ _) as [cs|] eqn:Hcs; [|done].
  destruct (spatialNodeStatusSchema _) as [s'|] eqn:Hs; simpl in H; [|done]. simplify_eq.
  exists t, cs. split_and!; try done. apply rmap_ok_forall2 in Hcs. rewrite Forall2_fmap_l in Hcs.
  eapply Forall2_impl; [done|]. intros p c. apply component_answers.
Qed.

Lemma failed_nil ps : failed_probes ps = [] <-> Forall (fun p => is_Some (pr_result p)) ps.
Proof.
  unfold failed_probes. induction ps as [|p ps IH]; [done|]. rewrite Forall_cons, <-IH. cbn [omap list_omap].
  destruct (pr_result p) as [o|].
  - split; [intros H; by split; [eexists|] | by intros [_ H]].
  - split; [done|]. by intros [[? [=]] _].
Qed.

Lemma failed_some ps : failed_probes ps <> [] <-> exists p, p ∈ ps /\ pr_result p = None.
Proof.
  unfold failed_probes. induction ps as [|p ps IH]; [split; [done|]; intros (p & Hp & _); by apply elem_of_nil in Hp|].
  cbn [omap list_omap]. destruct (pr_result p) as [o|] eqn:Ho.
  - rewrite IH. split; intros (q & Hq & Hn); exists q; set_solver.
  - split; [intros _; exists p; set_solver | done].
Qed.

Lemma answers_parsed ps cs cs' :
  Forall2 answers ps cs -> Forall2 (fun c c' => statusComponentSchema c = Some c') cs cs' -> Forall2 answers ps cs'.
Proof.
  intros H. revert cs'. induction H as [|p c ps cs Hp _ IH]; intros cs' Hc; inversion Hc; subst; constructor; [|by apply IH].
  match goal with H : statusComponentSchema c = Some _ |- _ => apply componentSchema_keeps in H as (Hst & Hk & _) end.
  unfold answers in *. by rewrite Hst, Hk.
Qed.

(** Green components are green answers. *)
Lemma answers_green ps cs : Forall2 answers ps cs ->
  Forall (fun c => is_green (co_state c) = true) cs <->
  Forall (fun p => exists o, pr_result p = Some o /\ is_green (ob_state o) = true) ps.
Proof.
  induction 1 as [|p c ps cs [_ Hst] _ IH]; [done|]. rewrite !Forall_cons, IH. apply and_iff_compat_r. rewrite Hst.
  destruct (pr_result p) as [o|]; split; [intros H; by exists o | by intros (o' & [= <-] & H) | done | by intros (o' & [=] & _)].
Qed.

Lemma freshnessState_fresh cs part now : freshnessState cs part now = F_FRESH ->
  part = false /\ Forall (fun c => num_lt (stale_after_seconds (co_freshness c)) (seconds (now - co_observed_at c)) = false) cs.
Proof.
  unfold freshnessState. destruct part; [done|]. do 2 (destruct (existsb _ cs); [done|]).
  destruct (existsb _ cs) eqn:He; [done|]. intros _. split; [done|]. apply Forall_forall. intros c Hc.
  apply not_true_iff_false. intros Ht. rewrite <-not_true_iff_false, existsb_exists in He. apply He. exists c.
  by rewrite <-list_elem_of_In.
Qed.

(** C10. A refresh reports what its probes said: the snapshot has one
    component per probe, in order, with the state the probe observed and UNKNOWN
    for one that failed; it is partial exactly when a probe failed, and ONLINE
    exactly when there are probes and each answered ONLINE, READY or RUNNING; when
    none failed its state is at least as bad as each component's; and it is FRESH
    only when no probe failed and no observation is older than its time to live. *)
Theorem refresh_reports_truthfully ps ctx now a a' s failed :
  refresh ps ctx now a = (a', Ok (s, failed)) ->
  Forall2 answers ps (components s) /\
  (partial s = true <-> exists p, p ∈ ps /\ pr_result p = None) /\
  (st_state s = ONLINE <->
     ps <> [] /\ Forall (fun p => exists o, pr_result p = Some o /\ is_green (ob_state o) = true) ps) /\
  (partial s = false -> forall c, c ∈ components s -> stateRank (co_state c) <= stateRank (st_state s)) /\
  (fr_state (st_freshness s) = F_FRESH -> partial s = false /\ exists t, now = Some t /\
     Forall (fun c => num_lt (stale_after_seconds (co_freshness c)) (seconds (t - co_observed_at c)) = false) (components s)).
Proof using laws.
  intros (t & cs & -> & -> & _ & Hans & Hs)%refresh_inv.
  apply statusSchema_keeps in Hs as (Hst & Hpart & _ & Hfr & _ & Hcs). simpl in *.
  assert (Hans' : Forall2 answers ps (components s)) by (by eapply answers_parsed).
  assert (Hlen : cs = [] <-> ps = []) by (inversion Hans; done).
  assert (Hfail : bool_decide (failed_probes ps <> []) = true <-> exists p, p ∈ ps /\ pr_result p = None).
  { rewrite bool_decide_eq_true. apply failed_some. }
  rewrite Hst, Hpart, Hfr. split_and!; [done|done| | |].
  - case_bool_decide as Hf.
    + split; [|intros [_ Hall]].
      * unfold aggregateState. destruct cs; [done|]. cbn [andb]. by destruct (forallb _ _).
      * exfalso. apply Hf. apply failed_nil. eapply Forall_impl; [done|]. intros p (o & -> & _). by eexists.
    + destruct (decide (cs = [])) as [->|Hne]; [split; [done|]; intros [H _]; by destruct H; apply Hlen|].
      destruct (aggregateState_spec cs Hne) as (Hon & _ & _). rewrite Hon, (answers_green ps cs Hans).
      split; [intros H; split; [by rewrite <-Hlen | done] | by intros [_ H]].
  - intros Hf c Hc. rewrite Hf. destruct (decide (cs = [])) as [->|Hne].
    { inversion Hcs; subst. match goal with H : [] = components s |- _ => rewrite <-H in Hc end. by apply elem_of_nil in Hc. }
    destruct (aggregateState_spec cs Hne) as (_ & _ & Hall).
    apply list_elem_of_lookup in Hc as [i Hi]. destruct (Forall2_lookup_r _ _ _ _ _ Hcs Hi) as (c0 & Hi0 & Hc0).
    apply componentSchema_keeps in Hc0 as (-> & _). apply Hall. by eapply list_elem_of_lookup_2.
  - intros [Hf Hall]%freshnessState_fresh. split; [done|]. exists t. split; [done|]. apply Forall_forall.
    intros c Hc. apply list_elem_of_lookup in Hc as [i Hi]. destruct (Forall2_lookup_r _ _ _ _ _ Hcs Hi) as (c0 & Hi0 & Hc0).
    apply componentSchema_keeps in Hc0 as (_ & _ & -> & _ & ->). rewrite Forall_forall in Hall. apply Hall.
    by eapply list_elem_of_lookup_2.
Qed.

(** ** Revisions *)

(** One call that may change the aggregator. *)
Inductive status_step (a : aggregator) : aggregator -> Prop :=
| ss_refresh ps ctx now a' r : refresh ps ctx now a = (a', r) -> status_step a a'
| ss_ingest s a' r : ingest s a = (a', r) -> status_step a a'.

(** The revision of the aggregator is that of its snapshot. *)
Definition status_inv (a : aggregator) : Prop := forall c, ag_current a = Some c -> ag_revision a = st_revision c.

Lemma foldl_max_le n l : n <= foldl Z.max n l.
Proof. revert n. induction l as [|m l IH]; intros n; simpl; [lia|]. specialize (IH (Z.max n m)). lia. Qed.

Lemma refresh_cases ps ctx now a a' r : refresh ps ctx now a = (a', r) ->
  (a' = a /\ forall x, r <> Ok x) \/
  exists s, r = Ok (s, failed_probes ps) /\ a' = set_snapshot s a /\ ag_revision a < st_revision s.
Proof using laws.
  intros H. destruct r as [[s failed]|e].
  - right. exists s. apply refresh_inv in H as (t & cs & _ & -> & -> & _ & Hs). split_and!; [done..|].
    apply statusSchema_keeps in Hs as (_ & _ & -> & _). simpl.
    pose proof (foldl_max_le (ag_revision a + 1) (map (fun c => default 0 (co_revision c)) cs)). lia.
  - left. split; [|done]. unfold refresh, build, jbind, jlift, jread, jwrite, jret in H. destruct now; simpl in H; [|by simplify_eq].
    destruct (rmap _ _); [|by simplify_eq]. destruct (spatialNodeStatusSchema _); simpl in H; by simplify_eq.
Qed.

Lemma status_step_inv a a' : status_inv a -> status_step a a' ->
  status_inv a' /\ forall c, ag_current a = Some c -> exists c', ag_current a' = Some c' /\ st_revision c <= st_revision c'.
Proof using laws.
  intros Hi [ps ctx now a1 r H|s a1 r H].
  - apply refresh_cases in H as [[-> _]|(s & _ & -> & Hlt)]; [split; [done|]; intros c Hc; by exists c|].
    split; [intros c [= <-]; done|]. intros c Hc. exists s. split; [done|]. rewrite <-(Hi c Hc). lia.
  - unfold ingest, jbind, jread, jlift, jwrite, jret, require in H.
    destruct (str_eqb _ _); [|simplify_eq; split; [done|]; intros c Hc; by exists c].
    destruct (match ag_current a with Some _ => _ | None => _ end) eqn:Hrev;
      [|simplify_eq; split; [done|]; intros c Hc; by exists c].
    destruct (spatialNodeStatusSchema s) as [s'|] eqn:Hs; simpl in H; simplify_eq; [|split; [done|]; intros c Hc; by exists c].
    split; [intros c [= <-]; done|]. intros c Hc. exists s'. split; [done|]. rewrite Hc in Hrev. apply bool_decide_eq_true in Hrev.
    apply statusSchema_keeps in Hs as (_ & _ & -> & _). done.
Qed.

(** The revision of the Node status only goes up: in every history of
    refreshes and ingested snapshots, failed ones included, a snapshot is never
    lost nor replaced by one of a lower revision, and every refresh that returns
    has a revision above the snapshot it replaces. *)
Theorem status_revision_grows nodeId stale revision cachedSnapshot a0 a1 a2 c :
  new_aggregator nodeId stale revision cachedSnapshot = Ok a0 ->
  rtc status_step a0 a1 -> rtc status_step a1 a2 -> ag_current a1 = Some c ->
  (exists c', ag_current a2 = Some c' /\ st_revision c <= st_revision c') /\
  (forall ps ctx now a3 s failed, refresh ps ctx now a2 = (a3, Ok (s, failed)) -> st_revision c < st_revision s).
Proof using laws.
  intros Hnew H1 H2 Hc.
  assert (Hi0 : status_inv a0).
  { unfold new_aggregator in Hnew. inv_ok. destruct cachedSnapshot as [s|]; [|by simplify_eq].
    destruct (ingest s _) as [a' r] eqn:Hin. inv_ok.
    eapply (status_step_inv (Aggregator _ _ _ None)); [by intros ? [=] | by eapply ss_ingest]. }
  assert (Hi1 : status_inv a1).
  { clear -H1 Hi0 laws. induction H1 as [|x y z Hs _ IH]; [done|]. apply IH. by apply (status_step_inv x y). }
  assert (H : status_inv a2 /\ exists c', ag_current a2 = Some c' /\ st_revision c <= st_revision c').
  { clear -H2 Hi1 Hc laws. revert c Hc. induction H2 as [x|x y z Hs _ IH]; intros c Hc; [split; [done|]; by exists c|].
    destruct (status_step_inv x y Hi1 Hs) as [Hi2 Hg]. destruct (Hg c Hc) as (c' & Hc' & Hle).
    destruct (IH Hi2 c' Hc') as (Hi3 & c'' & Hc'' & Hle'). split; [done|]. exists c''. split; [done | lia]. }
  destruct H as (Hi2 & c' & Hc' & Hle). split; [by exists c'|]. intros ps ctx now a3 s failed Hr.
  apply refresh_cases in Hr as [[_ Hr]|(s' & [= <- _] & _ & Hlt)]; [by destruct (Hr (s, failed))|].
  rewrite <-(Hi2 c' Hc') in Hle. lia.
Qed.

(** ** The cached snapshot *)

Lemma demote_not_green s : is_green (demote s) = false.
Proof. by destruct s. Qed.

(** A snapshot read from the cache never looks healthy: no state in it,
    its own, the overall one or a component's, is ONLINE, READY or RUNNING, every
    freshness is STALE, and it is marked cached with the time it was observed;
    otherwise it is the stored snapshot, with the same revision, components and
    states that were not healthy. *)
Theorem cached_is_never_green now a s' :
  readCached now a = Ok (Some s') -> exists s, ag_current a = Some s /\
  is_green (st_state s') = false /\ (is_green <$> overall_state s') <> Some true /\
  Forall (fun c => is_green (co_state c) = false /\ fr_state (co_freshness c) = F_STALE) (components s') /\
  fr_state (st_freshness s') = F_STALE /\ cached s' = true /\ last_known_at s' = Some (st_observed_at s) /\
  st_revision s' = st_revision s /\
  Forall2 (fun c c' => component_id c' = component_id c /\ (is_green (co_state c) = false -> co_state c' = co_state c))
    (components s) (components s').
Proof.
  unfold readCached. destruct (ag_current a) as [s|]; [|done]. destruct now as [t|]; [|done]. cbn. intros [= <-].
  exists s. simpl. split_and!; try done.
  - apply demote_not_green.
  - destruct (overall_state s) as [st|]; simpl; [rewrite demote_not_green|]; done.
  - apply Forall_fmap, Forall_forall. intros c _. simpl. by rewrite demote_not_green.
  - apply Forall2_fmap_r, Forall_Forall2_diag, Forall_forall. intros c _. simpl. split; [done|]. unfold demote. by intros ->.
Qed.
End status.

Module StatusWitness.
Definition seen (st : node_state) (at_ : iso) : observation :=
  Observation "" "" None st (Some (InDate (Some at_))) None "probe" None None None None None None None.
Definition probe_of (id : string) (r : option observation) : probe := Probe id "Service" ck_hypervisor r.
Definition none : context := ContextCounts None None None.
Definition a0 : aggregator := Aggregator "n" (num 900) 7 None.
Definition run (ps : list probe) (a : aggregator) := refresh (zod := zod_ref) ps none (Some 2000000) a.
Definition s1 : option status :=
  match run [probe_of "a" (Some (seen RUNNING 1999000)); probe_of "b" (Some (seen READY 1500000))] a0 with
  | (_, Ok (s, _)) => Some s
  | _ => None
  end.
Definition a1 : aggregator := (run [probe_of "a" (Some (seen RUNNING 1999000)); probe_of "b" (Some (seen READY 1500000))] a0).1.
Definition a2 : aggregator := (run [probe_of "a" None] a1).1.

Lemma refresh_reports_truthfully_witness : exists s, s1 = Some s /\ st_state s = ONLINE /\ fr_state (st_freshness s) = F_FRESH.
Proof.
  destruct s1 as [s|] eqn:Hs; [|vm_compute in Hs; discriminate Hs]. exists s. split; [reflexivity|].
  assert (Hr : run [probe_of "a" (Some (seen RUNNING 1999000)); probe_of "b" (Some (seen READY 1500000))] a0 = (a1, Ok (s, []))).
  { vm_compute in Hs |- *. injection Hs as <-. reflexivity. }
  split; [|vm_compute in Hs; injection Hs as <-; reflexivity].
  apply (refresh_reports_truthfully (zod := zod_ref) _ _ _ _ _ _ _ Hr). split; [discriminate|].
  constructor; [eexists; split; reflexivity|]. constructor; [eexists; split; reflexivity | constructor].
Defined.

Lemma status_revision_grows_witness : exists c c', ag_current a1 = Some c /\ ag_current a2 = Some c' /\ st_revision c <= st_revision c'.
Proof.
  destruct (ag_current a1) as [c|] eqn:Hc; [|vm_compute in Hc; discriminate Hc].
  destruct (status_revision_grows (zod := zod_ref) "n" None (Some 7) None a0 a1 a2 c) as [(c' & Hc' & Hle) _].
  - vm_compute. reflexivity.
  - eapply rtc_l; [eapply ss_refresh; apply surjective_pairing | apply rtc_refl].
  - eapply rtc_l; [eapply ss_refresh; apply surjective_pairing | apply rtc_refl].
  - exact Hc.
  - exists c, c'. exact (conj eq_refl (conj Hc' Hle)).
Defined.

Lemma cached_is_never_green_witness : exists s', readCached (Some 5) a1 = Ok (Some s') /\ is_green (st_state s') = false.
Proof.
  destruct (readCached (Some 5) a1) as [[s'|]|e] eqn:Hr; [|vm_compute in Hr; discriminate Hr..].
  exists s'. split; [reflexivity|].
  destruct (cached_is_never_green (Some 5) a1 s' Hr) as (s & _ & H & _). exact H.
Defined.

(** A probe that answers with a fractional time to live, finite and not
    negative as [componentFromObservation] asks, makes the whole refresh throw:
    the snapshot contract wants an integer. *)
Theorem fractional_ttl_stops_refresh :
  (run [probe_of "a" (Some (seen RUNNING 1999000));
        probe_of "b" (Some (Observation "" "" None READY None (Some (Finite (Qmake 1 2))) "probe" None None None None None None None))] a0)
  = (a0, Err INVALID_SNAPSHOT).
Proof. vm_compute. reflexivity. Qed.
End StatusWitness.
