(* ===== verification/Voice.v ===== *)
(** * Voice interaction

    src/web/operator-dashboard/src/spatial/interaction/voice.ts: the voice
    adapter as a state machine. A call that awaits the speech and capture hooks
    is split there: its first half runs at once, its second when the hooks have
    resolved, with any other calls in between; a hook that rejects ends the call.
    [world] is the adapter with the calls under way. The gateway is the one of
    [Intent]; [fresh] is what the id factory returns. *)

From Stdlib Require Import QArith.
From stdpp Require Import relations.
From S2P Require Import Prelude.
From S2P Require Import Contracts.
From S2P Require Import Numbers.
From S2P Require Import Intent.

#[local] Open Scope Z_scope.

(** ** Data *)

Inductive permission_state : Type := prompt | granted | denied | unavailable.
#[export] Instance permission_state_eq_dec : EqDecision permission_state.
Proof. solve_decision. Defined.

Inductive capture_state : Type := VC_IDLE | REQUESTING_PERMISSION | VC_READY | RECORDING | REVIEW | VC_SUBMITTING | VC_FAILED.
#[export] Instance capture_state_eq_dec : EqDecision capture_state.
Proof. solve_decision. Defined.

(** [VoiceTranscript]. *)
Record transcript : Type := Transcript {
  tr_text : string;
  is_final : bool;
  confidence : option jsnum;
  tr_updated : iso;
}.

(** The codes of [VoiceInteractionError], an error of the gateway, a
    [RangeError] and a rejection by a hook. *)
Inductive voice_error : Type :=
| PERMISSION_DENIED | UNAVAILABLE | NOT_RECORDING | EMPTY_TRANSCRIPT | INVALID_AUDIO_REF
| VC_GATEWAY (e : intent_error) | VC_RANGE_ERROR | VC_HOOK_ERROR.
#[export] Instance voice_error_eq_dec : EqDecision voice_error.
Proof. solve_decision. Defined.

(** [VoiceAdapterOptions], as the constructor keeps them. *)
Record voice_options : Type := VoiceOptions {
  vo_actor : string;
  vo_workspace : string;
  vo_node : string;
  maxTranscriptChars : jsnum;
}.
Definition voice_options_of (actor ws node : string) (max : option jsnum) : voice_options :=
  VoiceOptions actor ws node (num_max (num 1) (default (num 32000) max)).

(** [VoiceInteractionAdapter], with the gateway it shares. *)
Record voice : Type := Voice {
  permission : permission_state;
  vc_state : capture_state;
  vc_transcript : transcript;
  audioRef : option attachment;
  vc_key : option string;
  vc_gateway : gateway;
}.

Definition set_capture (p : permission_state) (st : capture_state) (v : voice) : voice :=
  Voice p st (vc_transcript v) (audioRef v) (vc_key v) (vc_gateway v).
Definition set_state (st : capture_state) (v : voice) : voice := set_capture (permission v) st v.
Definition set_transcript (t : transcript) (v : voice) : voice :=
  Voice (permission v) (vc_state v) t (audioRef v) (vc_key v) (vc_gateway v).
Definition set_audio (a : option attachment) (v : voice) : voice :=
  Voice (permission v) (vc_state v) (vc_transcript v) a (vc_key v) (vc_gateway v).
Definition set_key (k : option string) (v : voice) : voice :=
  Voice (permission v) (vc_state v) (vc_transcript v) (audioRef v) k (vc_gateway v).
Definition set_voice_gateway (g : gateway) (v : voice) : voice :=
  Voice (permission v) (vc_state v) (vc_transcript v) (audioRef v) (vc_key v) g.

(** The argument of [stop]. *)
Record audio_input : Type := AudioInput {
  au_id : option string;
  au_ref : string;
  au_mime : option string;
  au_size : option Z;
  au_checksum : option string;
}.

(** [s.slice(0, max)]. *)
Definition slice_to (max : jsnum) (s : string) : string :=
  match max with
  | Finite q => if bool_decide (0 <= Qtrunc q) then String.substring 0 (Z.to_nat (Qtrunc q)) s
                else String.substring 0 (String.length s - Z.to_nat (- Qtrunc q)) s
  | PosInf => s
  | _ => ""
  end.

(** ** The adapter *)

Section voice.
Context {zod : Zod} (authorize : option (envelope -> bool)) (opts : voice_options).

Definition vc_iso (now : date) : result voice_error iso := of_option now VC_RANGE_ERROR.

Definition update (f : voice -> voice) : method voice voice_error unit := let! v := jread in jwrite (f v).

(** The constructor. *)
Definition new_voice (p : option permission_state) (g : gateway) (now : date) : result voice_error voice :=
  let? t := vc_iso now in
  Ok (Voice (default prompt p) VC_IDLE (Transcript "" false None t) None None g).

Definition setPermission (p : permission_state) (v : voice) : voice :=
  set_capture p (if decide (p = granted) then VC_READY else VC_IDLE) v.

(** [requestPermission]: whether the requester is called, and what its answer,
    [None] when it threw, does. *)
Definition request_begin : method voice voice_error bool :=
  let! v := jread in
  if decide (permission v = unavailable) then jret false else update (set_state REQUESTING_PERMISSION) ;! jret true.
Definition request_finish (answer : option bool) : method voice voice_error permission_state :=
  let granted' := bool_decide (answer = Some true) in
  update (set_capture (if granted' then granted else denied) (if granted' then VC_READY else VC_IDLE)) ;!
  let! v := jread in jret (permission v).

(** [start()] up to its awaits; nothing follows them. *)
Definition start (fresh : string) (now : date) : method voice voice_error unit :=
  let! v := jread in
  jlift (require (negb (bool_decide (permission v = unavailable))) UNAVAILABLE) ;!
  jlift (require (bool_decide (permission v = granted)) PERMISSION_DENIED) ;!
  update (set_state RECORDING) ;!
  let! t := jlift (vc_iso now) in
  update (fun v => set_key (Some fresh) (set_audio None (set_transcript (Transcript "" false None t) v))).

Definition pushTranscript (text : string) (isFinal : option bool) (conf : option jsnum) (now : date)
  : method voice voice_error transcript :=
  let! v := jread in
  jlift (require (bool_decide (vc_state v = RECORDING) || bool_decide (vc_state v = REVIEW)) NOT_RECORDING) ;!
  let! t := jlift (vc_iso now) in
  let x := Transcript (slice_to (maxTranscriptChars opts) text) (default false isFinal) conf t in
  update (set_transcript x) ;!
  jret x.

(** [stop(audioRef)]: its guard, and what follows its awaits. *)
Definition stop_begin : method voice voice_error unit :=
  let! v := jread in jlift (require (bool_decide (vc_state v = RECORDING)) NOT_RECORDING).

Definition audio_of (a : audio_input) (fresh : string) : attachment :=
  Attachment (if truthy (au_id a) then default "" (au_id a) else fresh) att_audio (au_ref a)
    (Some (default "audio/webm" (au_mime a))) (au_size a) (au_checksum a).

Definition stop_finish (audio : option audio_input) (fresh : string) (now : date) : method voice voice_error transcript :=
  update (set_state REVIEW) ;!
  let! v := jread in
  let x := vc_transcript v in
  update (set_transcript (Transcript (tr_text x) true (confidence x) (tr_updated x))) ;!
  let! t := jlift (vc_iso now) in
  update (set_transcript (Transcript (tr_text x) true (confidence x) t)) ;!
  match audio with
  | Some a => jlift (require (negb (str_eqb (au_ref a) "")) INVALID_AUDIO_REF) ;! update (set_audio (Some (audio_of a fresh)))
  | None => jret tt
  end ;!
  let! v := jread in jret (vc_transcript v).

(** What follows the awaits of [cancel()]. *)
Definition cancel_finish (now : date) : method voice voice_error unit :=
  update (fun v => set_state (if decide (permission v = granted) then VC_READY else VC_IDLE) v) ;!
  let! t := jlift (vc_iso now) in
  update (fun v => set_key None (set_audio None (set_transcript (Transcript "" false None t) v))).

Definition editTranscript (text : string) (now : date) : method voice voice_error transcript :=
  let! v := jread in
  jlift (require (bool_decide (vc_state v = REVIEW)) NOT_RECORDING) ;!
  pushTranscript text (Some true) (confidence (vc_transcript v)) now.

(** The draft of [submit]. *)
Definition voice_draft (v : voice) (rev : option number) (fresh : string) : draft :=
  Draft None (Some (vo_workspace opts)) (Some (vo_node opts)) (vo_actor opts) mod_voice (Some k_message)
    (Some (tr_text (vc_transcript v))) None None None None (Some (match audioRef v with Some a => [a] | None => [] end)) rev
    (default fresh (vc_key v)) None.

Definition submit (rev : option number) (fresh : string) (ids : nat -> string) (wall : date) : method voice voice_error submission :=
  let! v := jread in
  jlift (require (bool_decide (vc_state v = REVIEW)) NOT_RECORDING) ;!
  jlift (require (negb (str_eqb (trim (tr_text (vc_transcript v))) "")) EMPTY_TRANSCRIPT) ;!
  update (set_state VC_SUBMITTING) ;!
  jcatch
    (let! sb := jzoom vc_gateway set_voice_gateway VC_GATEWAY (Intent.submit authorize (voice_draft v rev fresh) ids wall) in
     update (set_state VC_READY) ;!
     jret sb)
    (fun e => update (set_state VC_FAILED) ;! jthrow e).

Definition getFallbackMode (v : voice) : bool := bool_decide (permission v = granted).

(** ** Calls under way *)

Inductive pending : Type := P_request | P_stop (audio : option audio_input) | P_cancel.

Record world : Type := World { w_voice : voice; w_pending : list pending }.

(** One step: a call, or the end of the wait of one of those under way. *)
Inductive voice_step (w : world) : world -> Prop :=
| vs_permission p : voice_step w (World (setPermission p (w_voice w)) (w_pending w))
| vs_request v b : request_begin (w_voice w) = (v, Ok b) ->
    voice_step w (World v (if b then P_request :: w_pending w else w_pending w))
| vs_request_end l1 l2 answer v r : w_pending w = l1 ++ P_request :: l2 -> request_finish answer (w_voice w) = (v, r) ->
    voice_step w (World v (l1 ++ l2))
| vs_start fresh now v r : start fresh now (w_voice w) = (v, r) -> voice_step w (World v (w_pending w))
| vs_push text fin conf now v r : pushTranscript text fin conf now (w_voice w) = (v, r) -> voice_step w (World v (w_pending w))
| vs_edit text now v r : editTranscript text now (w_voice w) = (v, r) -> voice_step w (World v (w_pending w))
| vs_stop audio : stop_begin (w_voice w) = (w_voice w, Ok tt) -> voice_step w (World (w_voice w) (P_stop audio :: w_pending w))
| vs_stop_end l1 l2 audio fresh now v r : w_pending w = l1 ++ P_stop audio :: l2 -> stop_finish audio fresh now (w_voice w) = (v, r) ->
    voice_step w (World v (l1 ++ l2))
| vs_cancel : voice_step w (World (w_voice w) (P_cancel :: w_pending w))
| vs_cancel_end l1 l2 now v r : w_pending w = l1 ++ P_cancel :: l2 -> cancel_finish now (w_voice w) = (v, r) ->
    voice_step w (World v (l1 ++ l2))
| vs_rejected l1 l2 p : w_pending w = l1 ++ p :: l2 -> p <> P_request -> voice_step w (World (w_voice w) (l1 ++ l2))
| vs_submit rev fresh ids wall v r : submit rev fresh ids wall (w_voice w) = (v, r) -> voice_step w (World v (w_pending w))
| vs_gateway g : gateway_step authorize (vc_gateway (w_voice w)) g ->
    voice_step w (World (set_voice_gateway g (w_voice w)) (w_pending w)).
End voice.

(** ** Properties *)

Section properties.
Context {zod : Zod} {laws : ZodLaws zod} (authorize : option (envelope -> bool)) (opts : voice_options).
Notation step := (voice_step authorize opts).

Definition text_fits (n : nat) (v : voice) : Prop := (String.length (tr_text (vc_transcript v)) <= n)%nat.

Lemma length_substring n s : (String.length (String.substring 0 n s) <= n)%nat.
Proof using. revert s. induction n as [|n IH]; intros [|c s]; cbn; try lia. specialize (IH s). lia. Qed.

Lemma slice_to_fits (n : nat) s : (String.length (slice_to (num (Z.of_nat n)) s) <= n)%nat.
Proof using.
  unfold slice_to, num, Qtrunc. cbn [QArith_base.Qnum QArith_base.Qden QArith_base.inject_Z]. rewrite Z.quot_1_r. rewrite bool_decide_eq_true_2 by lia.
  rewrite Nat2Z.id. apply length_substring.
Qed.

(** What a step may do to permission, state, transcript and the calls to [stop]
    under way. *)
Definition stopping (w : world) : Prop := exists a, P_stop a ∈ w_pending w.
Definition live (w : world) : Prop := vc_state (w_voice w) = RECORDING \/ vc_state (w_voice w) = REVIEW \/ stopping w.

Lemma start_inv fresh now v v' r : start fresh now v = (v', r) ->
  v' = v \/ permission v = granted /\ permission v' = granted /\ vc_state v' = RECORDING /\
             (vc_transcript v' = vc_transcript v \/ tr_text (vc_transcript v') = ""%string).
Proof using.
  unfold start, update, vc_iso, jbind, jread, jlift, jwrite. destruct (require (negb _) UNAVAILABLE); [|intros [= <- _]; by left].
  destruct (require _ PERMISSION_DENIED) as [[]|] eqn:Hp; [|intros [= <- _]; by left]. apply require_ok, bool_decide_eq_true in Hp.
  destruct now as [t|]; cbn [of_option]; intros [= <- _]; right; (split; [done|]); (split; [done|]); (split; [done|]); auto.
Qed.

Lemma push_inv text fin conf now v v' r : pushTranscript opts text fin conf now v = (v', r) ->
  v' = v \/ (vc_state v = RECORDING \/ vc_state v = REVIEW) /\ permission v' = permission v /\ vc_state v' = vc_state v /\
             tr_text (vc_transcript v') = slice_to (maxTranscriptChars opts) text.
Proof using.
  unfold pushTranscript, update, vc_iso, jbind, jread, jlift, jwrite, jret.
  destruct (require _ NOT_RECORDING) as [[]|] eqn:Hs; [|intros [= <- _]; by left]. apply require_ok, orb_true_iff in Hs.
  destruct now as [t|]; cbn [of_option]; intros [= <- _]; [|by left]. right.
  destruct Hs as [Hs%bool_decide_eq_true|Hs%bool_decide_eq_true]; auto.
Qed.

Lemma edit_push text now v v' r : editTranscript opts text now v = (v', r) ->
  v' = v \/ exists r', pushTranscript opts text (Some true) (confidence (vc_transcript v)) now v = (v', r').
Proof using.
  unfold editTranscript, jbind at 1, jread at 1. unfold jbind at 1, jlift at 1. destruct (require _ _); [|intros [= <- _]; by left]. by eauto.
Qed.

Lemma stop_finish_inv audio fresh now v v' r : stop_finish audio fresh now v = (v', r) ->
  permission v' = permission v /\ vc_state v' = REVIEW /\ tr_text (vc_transcript v') = tr_text (vc_transcript v).
Proof using.
  unfold stop_finish, update, vc_iso, jbind, jread, jlift, jwrite, jret. destruct now as [t|]; cbn [of_option]; [|by intros [= <- _]].
  destruct audio as [a|]; [|by intros [= <- _]]. destruct (require _ INVALID_AUDIO_REF); by intros [= <- _].
Qed.

Lemma cancel_finish_inv now v v' r : cancel_finish now v = (v', r) ->
  permission v' = permission v /\ (vc_state v' = VC_READY \/ vc_state v' = VC_IDLE) /\
  (vc_transcript v' = vc_transcript v \/ tr_text (vc_transcript v') = ""%string).
Proof using.
  unfold cancel_finish, update, vc_iso, jbind, jread, jlift, jwrite, jret.
  destruct now as [t|]; cbn [of_option]; intros [= <- _]; cbn; destruct (decide _); auto.
Qed.

(** The outcome of a submission. *)
Lemma voice_submit_inv rev fresh ids wall v v' r : submit authorize opts rev fresh ids wall v = (v', r) ->
  (v' = v /\ (r = Err NOT_RECORDING \/ r = Err EMPTY_TRANSCRIPT)) \/
  vc_state v = REVIEW /\ trim (tr_text (vc_transcript v)) <> ""%string /\
  permission v' = permission v /\ vc_transcript v' = vc_transcript v /\
  exists g res, Intent.submit authorize (voice_draft opts v rev fresh) ids wall (vc_gateway v) = (g, res) /\ vc_gateway v' = g /\
    match res with
    | Ok sb => r = Ok sb /\ vc_state v' = VC_READY
    | Err e => r = Err (VC_GATEWAY e) /\ vc_state v' = VC_FAILED
    end.
Proof using.
  unfold submit, jbind at 1, jread at 1. unfold jbind at 1, jlift at 1.
  destruct (require _ NOT_RECORDING) as [[]|e] eqn:Hs; [|unfold require in Hs; destruct (bool_decide _); [done|injection Hs as <-]; intros [= <- <-]; by left; auto].
  unfold jbind at 1, jlift at 1.
  destruct (require _ EMPTY_TRANSCRIPT) as [[]|e] eqn:Ht; [|unfold require in Ht; destruct (negb _); [done|injection Ht as <-]; intros [= <- <-]; left; auto].
  apply require_ok, bool_decide_eq_true in Hs. apply require_ok, negb_true_iff in Ht.
  unfold update, jcatch, jzoom, jbind, jread, jwrite, jret, jthrow. intros H. right. split; [done|]. split.
  { intros E. rewrite E in Ht. done. }
  change (voice_draft opts (set_state VC_SUBMITTING v) rev fresh) with (voice_draft opts v rev fresh) in H.
  change (vc_gateway (set_state VC_SUBMITTING v)) with (vc_gateway v) in H.
  destruct (Intent.submit _ _ _ _ _) as [g [sb|e]]; injection H as <- <-; (split; [done|]); (split; [done|]); by exists g; eexists.
Qed.
(** What is recorded or reviewed, or about to be. *)
Record voice_ok (n : nat) (w : world) : Prop := {
  ok_recording : vc_state (w_voice w) = RECORDING -> permission (w_voice w) = granted;
  ok_length : text_fits n (w_voice w);
}.

Lemma stopping_app l1 l2 p v v' : stopping (World v (l1 ++ l2)) -> stopping (World v' (l1 ++ p :: l2)).
Proof using. intros [a Ha]. exists a. cbn [w_pending] in *. rewrite elem_of_app, elem_of_cons. apply elem_of_app in Ha as [?|?]; auto. Qed.

(** A step keeps the adapter well formed, and a recording or a review is begun by
    a step that finds the permission granted. *)
Lemma voice_step_ok n w w' : maxTranscriptChars opts = num (Z.of_nat n) -> step w w' -> voice_ok n w ->
  voice_ok n w' /\ (live w' -> live w \/ permission (w_voice w) = granted).
Proof using.
  intros Hmax Hs [Hr Hl]. unfold text_fits in *.
  assert (Hpush : forall text fin conf now v r, pushTranscript opts text fin conf now (w_voice w) = (v, r) ->
    voice_ok n (World v (w_pending w)) /\ (live (World v (w_pending w)) -> live w \/ permission (w_voice w) = granted)).
  { intros text fin conf now v r [-> |(Hst & Hp & Hst' & Ht)]%push_inv; [by split; [|left]|]. split.
    - split; cbn [w_voice]; [by rewrite Hp, Hst'|]. unfold text_fits. rewrite Ht, Hmax. apply slice_to_fits.
    - intros _. left. destruct Hst; [by left|by right; left]. }
  assert (Hsame : forall g ps, (forall a, P_stop a ∈ ps -> P_stop a ∈ w_pending w) ->
    voice_ok n (World (set_voice_gateway g (w_voice w)) ps) /\ (live (World (set_voice_gateway g (w_voice w)) ps) -> live w \/ permission (w_voice w) = granted)).
  { intros g ps Hps. split; [by split|]. intros [H|[H|[a H]]]; left; [by left|by right; left|right; right; exists a; by apply Hps]. }
  destruct Hs as [p|v b H|l1 l2 answer v r Hw H|fresh now v r H|text fin conf now v r H|text now v r H|audio H|l1 l2 audio fresh now v r Hw H
                 | |l1 l2 now v r Hw H|l1 l2 p Hw Hp|rev fresh ids wall v r H|g H].
  - split; [split; cbn [w_voice setPermission set_capture permission vc_state]; [by destruct (decide _)|done]|].
    intros [H|[H|H]]; cbn [w_voice setPermission set_capture vc_state] in H; [by destruct (decide _)..|]. left. by right; right.
  - revert H. unfold request_begin, update, jbind, jread, jwrite, jret.
    destruct (decide _); intros [= <- <-]; [by split; [|left]|]. split; [by split|].
    intros [H|[H|[a H]]]; [done..|]. left. right; right. exists a. by apply elem_of_cons in H as [?|?].
  - revert H. unfold request_finish, update, jbind, jread, jwrite, jret. intros [= <- _].
    split; [split; cbn [w_voice set_capture permission vc_state]; [by destruct (bool_decide _)|done]|].
    intros [H|[H|H]]; cbn [w_voice set_capture vc_state] in H; [by destruct (bool_decide _)..|]. left. right; right.
    destruct H as [a H]. exists a. rewrite Hw. cbn [w_pending] in H. rewrite elem_of_app, elem_of_cons. apply elem_of_app in H as [?|?]; auto.
  - apply start_inv in H as [-> |(Hp & Hp' & Hst & Ht)]; [by split; [|left]|]. split; [|by right].
    split; cbn [w_voice]; [done|]. unfold text_fits. destruct Ht as [-> | ->]; [done|]. cbn. lia.
  - by eapply Hpush.
  - apply edit_push in H as [-> |[r' H]]; [by split; [|left]|by eapply Hpush].
  - split; [by split|]. intros _. left. left. unfold stop_begin, jbind, jread, jlift in H. injection H as H.
    by apply require_ok, bool_decide_eq_true in H.
  - apply stop_finish_inv in H as (Hp & Hst & Ht). split; [split; cbn [w_voice]; [by rewrite Hst|]; unfold text_fits; by rewrite Ht|].
    intros _. left. right; right. exists audio. rewrite Hw. rewrite elem_of_app, elem_of_cons. auto.
  - split; [by split|]. intros [H|[H|[a H]]]; left; [by left|by right; left|]. right; right. exists a. by apply elem_of_cons in H as [?|?].
  - apply cancel_finish_inv in H as (Hp & Hst & Ht). split.
    + split; cbn [w_voice]; [by destruct Hst as [-> | ->]|]. unfold text_fits. destruct Ht as [-> | ->]; [done|]. cbn. lia.
    + intros [H|[H|[a H]]]; cbn [w_voice] in H; [destruct Hst as [E|E]; by rewrite E in H..|]. left. right; right. exists a.
      rewrite Hw. cbn [w_pending] in H. rewrite elem_of_app, elem_of_cons. apply elem_of_app in H as [?|?]; auto.
  - split; [by split|]. intros [H'|[H'|[a H']]]; left; [by left|by right; left|]. right; right. exists a. rewrite Hw.
    cbn [w_pending] in H'. rewrite elem_of_app, elem_of_cons. apply elem_of_app in H' as [?|?]; auto.
  - apply voice_submit_inv in H as [[-> _]|(Hst & _ & Hp & Ht & g & res & _ & _ & Hres)]; [by split; [|left]|].
    assert (Hst' : vc_state v = VC_READY \/ vc_state v = VC_FAILED) by (destruct res; destruct Hres; auto). split.
    + split; cbn [w_voice]; [by destruct Hst' as [-> | ->]|]. unfold text_fits. by rewrite Ht.
    + intros _. left. right; left. exact Hst.
  - by apply (Hsame g (w_pending w)).
Qed.
Lemma voice_steps_ok n w0 w : maxTranscriptChars opts = num (Z.of_nat n) -> rtc step w0 w -> voice_ok n w0 -> ~ live w0 ->
  voice_ok n w /\
  (live w -> exists w1, rtc step w0 w1 /\ permission (w_voice w1) = granted /\ rtc step w1 w).
Proof using.
  intros Hmax H H0 Hl0. revert w H. apply rtc_ind_r; [by split; [|intros ?]|]. intros w1 w2 H Hs [Hok IH]. destruct (voice_step_ok n _ _ Hmax Hs Hok) as [Hok2 Hlive]. split; [done|].
  intros [Hl|Hp]%Hlive.
  - destruct (IH Hl) as (w & Hw & Hg & Hw'). exists w. split; [done|]. split; [done|]. by eapply rtc_r.
  - exists w1. split; [done|]. split; [done|]. by apply rtc_once.
Qed.

(** C28. Only what was recorded with permission and reviewed is submitted:
    over any calls, with the waits of [stop], [cancel] and [requestPermission]
    ending in any order, a recording runs only while the microphone is permitted,
    and when a submission succeeds the permission was granted at some moment
    before, the adapter was in review, its transcript is not blank and within the
    bound, and a new intent the gateway accepted is a voice message that carries
    the transcript, no operation, and no attachment unless there is an audio
    reference. *)
Theorem voice_submits_what_was_reviewed n p g now v0 w rev fresh ids wall v sb :
  maxTranscriptChars opts = num (Z.of_nat n) -> new_voice p g now = Ok v0 -> rtc step (World v0 []) w ->
  submit authorize opts rev fresh ids wall (w_voice w) = (v, Ok sb) ->
  let x := w_voice w in
  let text := tr_text (vc_transcript x) in
  (exists w1, rtc step (World v0 []) w1 /\ permission (w_voice w1) = granted /\ rtc step w1 w) /\
  (forall w', rtc step (World v0 []) w' -> vc_state (w_voice w') = RECORDING -> permission (w_voice w') = granted) /\
  vc_state x = REVIEW /\ vc_state v = VC_READY /\ trim text <> ""%string /\ (String.length text <= n)%nat /\
  forall e a, sb = Submission accepted e a ->
    jget (submission_key (vo_actor opts) (trim (default fresh (vc_key x)))) (byIdempotency (vc_gateway x)) = None ->
    en_text e = Some (trim text) /\ en_modality e = mod_voice /\ en_kind e = k_message /\ operation e = None /\ target_refs e = [] /\
    (audioRef x = None -> attachments_manifest e = []).
Proof using laws.
  intros Hmax Hnew Hw H. cbv zeta.
  assert (H0 : voice_ok n (World v0 []) /\ ~ live (World v0 [])).
  { unfold new_voice, vc_iso in Hnew. destruct now as [t|]; [|done]. injection Hnew as <-.
    split; [split; [done|unfold text_fits; cbn; lia]|]. intros [?|[?|[a Ha]]]; [done..|by apply not_elem_of_nil in Ha]. }
  destruct H0 as [H0 Hl0]. destruct (voice_steps_ok n _ _ Hmax Hw H0 Hl0) as [[_ Hlen] Hgr].
  apply voice_submit_inv in H as [[_ [?|?]]|(Hst & Ht & _ & _ & g' & res & Hsub & _ & Hres)]; [done..|].
  destruct res as [sb'|]; [|by destruct Hres]. destruct Hres as [[= <-] Hst']. split_and!; try done.
  - apply Hgr. right; by left.
  - intros w' Hw' Hr. destruct (voice_steps_ok n _ _ Hmax Hw' H0 Hl0) as [[Hrec _] _]. by apply Hrec.
  - intros e a -> Hk. apply submit_accepts in Hsub as (atts & r' & t & Hatts & _ & He); [|exact Hk].
    apply envelopeSchema_content in He as (Htext & Hop & Htg & _ & _ & Hat & Hmod & Hkind & _).
    cbn [en_text operation target_refs attachments_manifest en_modality en_kind voice_draft d_text d_operation d_targets d_modality d_kind
      d_attachments default] in *. cbn in Htext. rewrite trim_idem in Htext. split_and!; try done.
    intros Hnone. rewrite Hnone in Hatts. injection Hatts as <-. by apply Forall2_nil_inv_l in Hat.
Qed.
End properties.

Module VoiceWitness.
#[local] Existing Instance zod_ref.
Definition opts : voice_options := voice_options_of "ann" "w" "n" (Some (num 16)).
Definition anyone : option (envelope -> bool) := None.
Definition ids (n : nat) : string := match n with O => "intent" | _ => "other" end.
Definition v0 : voice :=
  match new_voice None (new_gateway "w" "n" None None) (Some 1) with
  | Ok v => v
  | Err _ => Voice denied VC_IDLE (Transcript "" false None 0) None None (new_gateway "w" "n" None None)
  end.
Definition v1 : voice := setPermission granted v0.
Definition v2 : voice := (start "voice-1" (Some 2) v1).1.
Definition v3 : voice := (pushTranscript opts " hello " None None (Some 3) v2).1.
Definition v4 : voice := (stop_finish None "audio-1" (Some 4) v3).1.
Definition sent : voice * result voice_error submission := submit anyone opts None "voice-2" ids (Some 5) v4.

Lemma reviewed : rtc (voice_step anyone opts) (World v0 []) (World v4 []).
Proof.
  apply (rtc_l _ _ (World v1 [])); [exact (vs_permission _ _ (World v0 []) granted)|].
  apply (rtc_l _ _ (World v2 [])); [exact (vs_start _ _ (World v1 []) "voice-1" (Some 2) _ _ (surjective_pairing _))|].
  apply (rtc_l _ _ (World v3 [])); [exact (vs_push _ _ (World v2 []) " hello " None None (Some 3) _ _ (surjective_pairing _))|].
  apply (rtc_l _ _ (World v3 [P_stop None])); [exact (vs_stop _ _ (World v3 []) None eq_refl)|].
  apply rtc_once. exact (vs_stop_end _ _ (World v3 [P_stop None]) [] [] None "audio-1" (Some 4) _ _ eq_refl (surjective_pairing _)).
Defined.

Lemma voice_submits_what_was_reviewed_witness : exists sb, sent.2 = Ok sb /\ vc_state sent.1 = VC_READY /\
  (exists w1, rtc (voice_step anyone opts) (World v0 []) w1 /\ permission (w_voice w1) = granted).
Proof.
  destruct sent as [v [sb|e]] eqn:Hs; [|vm_compute in Hs; discriminate Hs].
  exists sb. split; [reflexivity|].
  destruct (voice_submits_what_was_reviewed (laws := zod_ref_laws) anyone opts 16 None (new_gateway "w" "n" None None) (Some 1) v0
              (World v4 []) None "voice-2" ids (Some 5) v sb) as ((w1 & Hw1 & Hg & _) & _ & _ & Hst & _).
  - reflexivity.
  - reflexivity.
  - exact reviewed.
  - exact Hs.
  - split; [exact Hst|]. exists w1. exact (conj Hw1 Hg).
Defined.

Example sends_the_transcript :
  match sent.2 with
  | Ok sb => en_text (sb_envelope sb) = Some "hello"%string /\ attachments_manifest (sb_envelope sb) = [] /\ sb_status sb = accepted
  | Err _ => False
  end.
Proof. vm_compute. done. Qed.

Example voice_refusals :
  (start "k" (Some 2) v0).2 = Err PERMISSION_DENIED /\ (submit anyone opts None "k" ids (Some 5) v3).2 = Err NOT_RECORDING /\
  (submit anyone opts None "k" ids (Some 5) (stop_finish None "a" (Some 4) v2).1).2 = Err EMPTY_TRANSCRIPT.
Proof. vm_compute. done. Qed.

(** A late result of the speech service, pushed in review, replaces the text the
    operator edited, and is submitted. *)
Theorem late_result_replaces_the_edit :
  let v := (editTranscript opts "open the door" (Some 5) v4).1 in
  let v := (pushTranscript opts "open the store" None None (Some 6) v).1 in
  match (submit anyone opts None "k" ids (Some 7) v).2 with
  | Ok sb => en_text (sb_envelope sb) = Some "open the store"%string
  | Err _ => False
  end.
Proof. vm_compute. done. Qed.

(** Cancelling while [stop] waits does not end the interaction: when the wait is
    over the adapter is in review again, with the transcript and the key gone. *)
Theorem cancelled_stop_reviews :
  let v := (cancel_finish (Some 5) v3).1 in
  let v := (stop_finish None "audio-1" (Some 6) v).1 in
  vc_state v = REVIEW /\ tr_text (vc_transcript v) = ""%string /\ vc_key v = None.
Proof. vm_compute. done. Qed.

(** A permission that is withdrawn while recording leaves the capture hooks
    running: [stop] is refused from then on, and only [cancel] reaches them. *)
Theorem withdrawn_permission_cannot_stop :
  let v := setPermission denied v3 in vc_state v = VC_IDLE /\ (stop_begin v).2 = Err NOT_RECORDING.
Proof. vm_compute. done. Qed.

(** A submission the gateway refuses cannot be edited or sent again: the
    transcript is out of reach. *)
Theorem refused_submission_is_stuck :
  let strict := Some (fun _ : envelope => false) in
  let r := submit strict opts None "k" ids (Some 5) v4 in
  r.2 = Err (VC_GATEWAY UNAUTHORIZED) /\ vc_state r.1 = VC_FAILED /\ tr_text (vc_transcript r.1) = " hello "%string /\
  (editTranscript opts "hello" (Some 6) r.1).2 = Err NOT_RECORDING /\ (submit strict opts None "k" ids (Some 7) r.1).2 = Err NOT_RECORDING.
Proof. vm_compute. done. Qed.

(** An audio reference that is refused has ended the recording all the same. *)
Theorem refused_audio_is_reviewed :
  let r := stop_finish (Some (AudioInput None "" None None None)) "audio-1" (Some 4) v3 in
  r.2 = Err INVALID_AUDIO_REF /\ vc_state r.1 = REVIEW /\ audioRef r.1 = None.
Proof. vm_compute. done. Qed.
End VoiceWitness.
