(* ===== verification/Relations.v ===== *)
(** * Semantic relations

    src/web/operator-dashboard/src/spatial/topology/semantic-relations.ts: the
    relations between references of the registry, the counts of their stream
    chunks, and the property that a stored relation can always be inspected. The
    service holds the registry; the registry's own calls interleave with it. *)

From Stdlib Require Import QArith Sorted.
From stdpp Require Import relations.
From S2P Require Import Prelude.
From S2P Require Import Json.
From S2P Require Import Contracts.
From S2P Require Import Numbers.
From S2P Require Import Text.
From S2P Require Import Registry.

#[local] Open Scope Z_scope.

(** ** Data *)

Inductive relation_type : Type := REQUEST | RESPONSE | STREAMING | PRODUCED | DELEGATED | USES | SETTLEMENT | FAILURE.
#[export] Instance relation_type_eq_dec : EqDecision relation_type.
Proof. solve_decision. Defined.

Inductive relation_state : Type := RL_ACTIVE | RL_IDLE | RL_ARCHIVED | RL_STALE | RL_UNAVAILABLE.
#[export] Instance relation_state_eq_dec : EqDecision relation_state.
Proof. solve_decision. Defined.

Record anchor : Type := Anchor { ax : jsnum; ay : jsnum; az : jsnum }.

(** [SpatialSemanticRelation]. *)
Record relation : Type := Relation {
  relation_id : string;
  rl_workspace : string;
  rl_node : string;
  rl_revision : Z;
  rl_type : relation_type;
  source_ref : string;
  target_ref : string;
  source_revision : Z;
  target_revision : Z;
  rl_state : relation_state;
  rl_label : string;
  pulse_count : Z;
  offscreen_anchor : option anchor;
  aggregation_key : option string;
  rl_created_at : iso;
  rl_updated_at : iso;
}.

(** [SemanticRelationInput]. *)
Record relation_input : Type := RelationInput {
  ri_id : string;
  ri_type : relation_type;
  ri_source : string;
  ri_target : string;
  ri_source_revision : Z;
  ri_target_revision : Z;
  ri_label : option string;
  ri_aggregation : option string;
  ri_state : option relation_state;
  ri_pulse : option Z;
  ri_anchor : option anchor;
}.

(** [SemanticRelationInspection]. *)
Record inspection : Type := Inspection {
  in_relation : relation;
  sourceLabel : string;
  targetLabel : string;
  directionLabel : string;
  chunkCount : Z;
}.

Inductive relation_error : Type := RL_UNKNOWN_REFERENCE | INVALID_RELATION | RL_RANGE_ERROR | RL_REGISTRY (e : registry_error).

(** The service, with the registry it shares. *)
Record relation_service : Type := RelationService {
  rs_workspace : string;
  rs_node : string;
  rs_max : option Z;
  rs_registry : registry;
  rs_relations : jsmap relation;
  streamChunks : jsmap Z;
}.

Definition set_registry (g : registry) (s : relation_service) : relation_service :=
  RelationService (rs_workspace s) (rs_node s) (rs_max s) g (rs_relations s) (streamChunks s).
Definition set_relations (m : jsmap relation) (s : relation_service) : relation_service :=
  RelationService (rs_workspace s) (rs_node s) (rs_max s) (rs_registry s) m (streamChunks s).
Definition set_chunks (m : jsmap Z) (s : relation_service) : relation_service :=
  RelationService (rs_workspace s) (rs_node s) (rs_max s) (rs_registry s) (rs_relations s) m.

(** [relationLabel]. *)
Definition relationLabel (t : relation_type) : string :=
  match t with
  | REQUEST => "request" | RESPONSE => "response" | STREAMING => "streaming" | PRODUCED => "produced"
  | DELEGATED => "delegated" | USES => "uses" | SETTLEMENT => "settlement" | FAILURE => "failure"
  end.

(** Run a registry method on the shared registry. *)
Definition on_registry {A} (m : method registry registry_error A) : method relation_service relation_error A :=
  jzoom rs_registry set_registry RL_REGISTRY m.

Section service.
Context {zod : Zod}.

(** [z.object({ x, y, z })] of finite numbers. *)
Definition anchorSchema (a : anchor) : option anchor :=
  if isFinite (ax a) && isFinite (ay a) && isFinite (az a) then Some a else None.

Definition spatialSemanticRelationSchema (r : relation) : option relation :=
  id ← idSchema (relation_id r);
  ws ← idSchema (rl_workspace r);
  node ← idSchema (rl_node r);
  rev ← revisionSchema (rl_revision r);
  src ← idSchema (source_ref r);
  tgt ← idSchema (target_ref r);
  srev ← revisionSchema (source_revision r);
  trev ← revisionSchema (target_revision r);
  label ← labelSchema (rl_label r);
  pulse ← z_nonneg (pulse_count r);
  anchor ← nullable anchorSchema (offscreen_anchor r);
  agg ← nullable idSchema (aggregation_key r);
  created ← timestampSchema (rl_created_at r);
  updated ← timestampSchema (rl_updated_at r);
  Some (Relation id ws node rev (rl_type r) src tgt srev trev (rl_state r) label pulse anchor agg created updated).

(** [upsert(input)]. *)
Definition upsert (input : relation_input) (now : date) : method relation_service relation_error relation :=
  jlift (require (negb (str_eqb (trim (ri_id input)) "") && negb (str_eqb (trim (ri_source input)) "")
                  && negb (str_eqb (trim (ri_target input)) "") && negb (str_eqb (ri_source input) (ri_target input)))
           INVALID_RELATION) ;!
  let! s := jread in
  let! source := on_registry (resolveInScope (rs_workspace s) (rs_node s) (ri_source input)) in
  let! target := on_registry (resolveInScope (rs_workspace s) (rs_node s) (ri_target input)) in
  jlift (require (bool_decide (is_Some source) && bool_decide (is_Some target)) RL_UNKNOWN_REFERENCE) ;!
  let! t := jlift (of_option now RL_RANGE_ERROR) in
  let! s := jread in
  let current := jget (ri_id input) (rs_relations s) in
  let label := trim (default ""%string (ri_label input)) in
  let! parsed := jlift (of_option (spatialSemanticRelationSchema
    (Relation (ri_id input) (rs_workspace s) (rs_node s) (default 0 (rl_revision <$> current) + 1) (ri_type input)
       (ri_source input) (ri_target input) (ri_source_revision input) (ri_target_revision input)
       (default (default RL_ACTIVE (rl_state <$> current)) (ri_state input))
       (if str_eqb label "" then relationLabel (ri_type input) else label)
       (default (default 0 (pulse_count <$> current)) (ri_pulse input))
       (match ri_anchor input with Some a => Some a | None => c ← current; offscreen_anchor c end)
       (match ri_aggregation input with Some k => Some k | None => c ← current; aggregation_key c end)
       (default t (rl_created_at <$> current)) t)) INVALID_RELATION) in
  jwrite (set_relations (jset (relation_id parsed) parsed (rs_relations s)) s) ;!
  jret parsed.

(** [inspect(relationId, chunkCount)]. *)
Definition inspect_relation (id : string) (count : option Z) : method relation_service relation_error inspection :=
  let! s := jread in
  let! r := jlift (of_option (jget id (rs_relations s)) INVALID_RELATION) in
  let! source := on_registry (fun g => (g, resolve (source_ref r) PRIMARY g)) in
  let! target := on_registry (fun g => (g, resolve (target_ref r) PRIMARY g)) in
  jret (Inspection r (entity_id source) (entity_id target)
          (rl_label r +:+ ": " +:+ entity_id source +:+ " → " +:+ entity_id target)
          (default (default 0 (jget id (streamChunks s))) count)).

Definition with_pulse (input : relation_input) (key : string) (count : Z) : relation_input :=
  RelationInput (ri_id input) (ri_type input) (ri_source input) (ri_target input) (ri_source_revision input)
    (ri_target_revision input) (ri_label input) (Some (default key (ri_aggregation input))) (ri_state input) (Some count)
    (ri_anchor input).

(** [aggregateStreamChunk(input)], with the type defaulted to STREAMING by the
    caller's record. *)
Definition aggregateStreamChunk (input : relation_input) (streamKey : option string) (now : date)
  : method relation_service relation_error inspection :=
  let key := default (ri_id input) streamKey in
  let! s := jread in
  let count := default 0 (jget key (streamChunks s)) + 1 in
  jwrite (set_chunks (jset key count (streamChunks s)) s) ;!
  let! r := upsert (with_pulse input key count) now in
  inspect_relation (relation_id r) (Some count).

(** The input [pulse] and [setState] build from a stored relation. *)
Definition again (id : string) (r : relation) (st : relation_state) (pulse : Z) : relation_input :=
  RelationInput id (rl_type r) (source_ref r) (target_ref r) (source_revision r) (target_revision r) (Some (rl_label r))
    (aggregation_key r) (Some st) (Some pulse) (offscreen_anchor r).

Definition pulse (id : string) (now : date) : method relation_service relation_error inspection :=
  let! s := jread in
  let! r := jlift (of_option (jget id (rs_relations s)) INVALID_RELATION) in
  let key := default id (aggregation_key r) in
  let count := default 0 (jget key (streamChunks s)) + 1 in
  jwrite (set_chunks (jset key count (streamChunks s)) s) ;!
  upsert (again id r (rl_state r) count) now ;!
  inspect_relation id (Some count).

Definition setState (id : string) (st : relation_state) (now : date) : method relation_service relation_error relation :=
  let! s := jread in
  let! r := jlift (of_option (jget id (rs_relations s)) INVALID_RELATION) in
  upsert (again id r st (pulse_count r)) now.

(** [visualPath]: the two points and the anchor. *)
Definition origin_fallback : anchor := Anchor (num 0) (num 0) (num (-4)).

Definition visualPath (id : string) (source target : option anchor) (s : relation_service)
  : result relation_error ((anchor * anchor) * option anchor) :=
  let? r := of_option (jget id (rs_relations s)) INVALID_RELATION in
  let fallback := default origin_fallback (offscreen_anchor r) in
  Ok ((default fallback source, default fallback target),
      match source, target with Some _, Some _ => offscreen_anchor r | _, _ => Some fallback end).

Definition list_relations (s : relation_service) : list relation := jvalues (rs_relations s).

(** [compare(left, right) <= 0] in [visibleRelations]. *)
Definition shown_before (l r : relation) : bool :=
  let active x := bool_decide (rl_state x = RL_ACTIVE) in
  if Bool.eqb (active l) (active r) then bool_decide (rl_updated_at r <= rl_updated_at l) else active l.

Definition visibleRelations (max : option Z) (s : relation_service) : list relation :=
  let bounded := Z.max 1 (Z.min 10000 (default (default 256 (rs_max s)) max)) in
  take (Z.to_nat bounded)
    (sort_by shown_before (filter (fun r => rl_state r <> RL_ARCHIVED /\ rl_state r <> RL_UNAVAILABLE) (list_relations s))).

(** ** Histories *)

(** One call of the service, or of the registry it shares. *)
Inductive relation_step (s : relation_service) : relation_service -> Prop :=
| rl_upsert input now s' r : upsert input now s = (s', r) -> relation_step s s'
| rl_chunk input key now s' r : aggregateStreamChunk input key now s = (s', r) -> relation_step s s'
| rl_pulse id now s' r : pulse id now s = (s', r) -> relation_step s s'
| rl_set id st now s' r : setState id st now s = (s', r) -> relation_step s s'
| rl_inspect id count s' r : inspect_relation id count s = (s', r) -> relation_step s s'
| rl_registry g : registry_step (rs_registry s) g -> relation_step s (set_registry g s).

(** Relations are filed under their id, in the scope, between references the
    registry resolves. *)
Definition resolvable (ref : string) (g : registry) : Prop := exists r, resolve ref PRIMARY g = Ok r.

Definition relations_ok (s : relation_service) : Prop :=
  history_ok (rs_registry s) /\
  jall (fun k r => relation_id r = k /\ resolvable (source_ref r) (rs_registry s) /\ resolvable (target_ref r) (rs_registry s))
    (rs_relations s).

Lemma resolve_grows ref g g' : registry_grows g g' -> resolvable ref g -> resolvable ref g'.
Proof.
  intros [Hw Hg] [r Hr]. unfold resolvable, resolve, recordKey in *. rewrite Hw.
  destruct (jget _ (rg_records g)) as [c|] eqn:Hc; [|done]. destruct (Hg _ _ Hc) as (c' & -> & _). by eexists.
Qed.

Lemma relations_ok_registry (laws : ZodLaws zod) s g :
  relations_ok s -> history_ok g -> registry_grows (rs_registry s) g -> relations_ok (set_registry g s).
Proof.
  intros [_ Hall] Hok Hg. split; [done|]. intros k r Hr. destruct (Hall k r Hr) as (? & ? & ?).
  split_and!; [done | by eapply resolve_grows..].
Qed.

Lemma resolveInScope_inv ws node ref g g' r : resolveInScope ws node ref g = (g', r) ->
  rg_records g' = rg_records g /\ rg_history g' = rg_history g /\ rg_workspace g' = rg_workspace g /\
  (forall x, r = Ok (Some x) -> resolvable ref g').
Proof.
  unfold resolveInScope, jbind, jread, jlift, jret, jwrite. intros H. destruct (_ && _); [|by simplify_eq].
  destruct (jget _ (rg_records g)) as [c|] eqn:Hc; [|by simplify_eq].
  destruct (resolve ref PRIMARY g) as [x|] eqn:Hr; simplify_eq; split_and!; try done. intros y [= <-]. by exists x.
Qed.

Lemma resolvable_trim ref g : resolvable ref g -> resolvable (trim ref) g.
Proof. unfold resolvable, resolve, recordKey. by rewrite trim_idem. Qed.

Lemma relationSchema_spec (laws : ZodLaws zod) r r' : spatialSemanticRelationSchema r = Some r' ->
  relation_id r' = trim (relation_id r) /\ source_ref r' = trim (source_ref r) /\ target_ref r' = trim (target_ref r) /\
  rl_revision r' = rl_revision r /\ pulse_count r' = pulse_count r /\ rl_state r' = rl_state r.
Proof.
  unfold spatialSemanticRelationSchema, revisionSchema. intros H. inv_some. simpl.
  repeat match goal with H : idSchema _ = Some _ |- _ => apply idSchema_spec in H as [-> _] end.
  repeat match goal with H : z_nonneg _ = Some _ |- _ => apply z_nonneg_sound in H as [-> _] end. done.
Qed.

(** Reading through the registry keeps everything; a reference it returns
    resolves. *)
Lemma lookup_ok (laws : ZodLaws zod) ws node ref s s' r :
  relations_ok s -> on_registry (resolveInScope ws node ref) s = (s', r) ->
  relations_ok s' /\ rs_relations s' = rs_relations s /\ registry_grows (rs_registry s) (rs_registry s') /\
  (forall x, r = Ok (Some x) -> resolvable ref (rs_registry s')).
Proof.
  intros Hok (g & res & H & -> & ->)%jzoom_inv. apply resolveInScope_inv in H as (Hr & Hh & Hw & Hx).
  assert (Hg : registry_grows (rs_registry s) g) by (by apply registry_grows_same).
  split_and!; [|done|done|].
  - apply relations_ok_registry; [done|done| |done]. intros k x Hk. rewrite Hr in Hk. rewrite Hh. by apply Hok.
  - intros x Heq. eapply Hx. destruct res; [|done]. by injection Heq as <-.
Qed.

Lemma upsert_ok (laws : ZodLaws zod) input now s s' r : relations_ok s -> upsert input now s = (s', r) -> relations_ok s'.
Proof.
  intros Hok H. unfold upsert, jbind, jlift, jread, jwrite, jret in H.
  destruct (require _ INVALID_RELATION); [|by simplify_eq].
  destruct (on_registry _ s) as [s1 r1] eqn:H1. destruct (lookup_ok laws _ _ _ _ _ _ Hok H1) as (Hok1 & _ & _ & Hsrc).
  destruct r1 as [source|]; [|by simplify_eq].
  destruct (on_registry _ s1) as [s2 r2] eqn:H2. destruct (lookup_ok laws _ _ _ _ _ _ Hok1 H2) as (Hok2 & _ & Hg & Htgt).
  destruct r2 as [target|]; [|by simplify_eq]. unfold require in H.
  destruct (_ && _) eqn:Hboth; [|by simplify_eq]. apply andb_true_iff in Hboth as [[x ->]%bool_decide_eq_true [y ->]%bool_decide_eq_true].
  destruct now as [t|]; simpl in H; [|by simplify_eq].
  destruct (spatialSemanticRelationSchema _) as [p|] eqn:Hp; simpl in H; simplify_eq; [|done].
  apply relationSchema_spec in Hp as (_ & Hs & Ht & _); [|done]. simpl in Hs, Ht. destruct Hok2 as [Hh Hall]. split; [done|].
  apply jall_jset; [|done]. rewrite Hs, Ht. split_and!; [done|..]; apply resolvable_trim; simpl.
  - eapply resolve_grows; [exact Hg | by eapply Hsrc].
  - by eapply Htgt.
Qed.

Lemma inspect_ok id count s s' r : inspect_relation id count s = (s', r) -> s' = s.
Proof.
  unfold inspect_relation, jbind, jlift, jread, jret. intros H. destruct (jget id _); simpl in H; [|by simplify_eq].
  unfold on_registry, jzoom in H. destruct s as [ws node mx g rels chunks]; simpl in *. unfold set_registry in H; simpl in H.
  destruct (resolve _ _ g); simpl in H; [|by simplify_eq]. destruct (resolve _ _ g); by simplify_eq.
Qed.

Lemma relation_step_ok (laws : ZodLaws zod) s s' : relations_ok s -> relation_step s s' -> relations_ok s'.
Proof.
  intros Hok [input now s1 r H|input key now s1 r H|id now s1 r H|id st now s1 r H|id count s1 r H|g H].
  - by eapply upsert_ok.
  - unfold aggregateStreamChunk, jbind, jread, jwrite in H. destruct (upsert _ _ _) as [s2 r2] eqn:H2.
    apply upsert_ok in H2; [|done|done]. destruct r2; [|by simplify_eq]. apply inspect_ok in H. by subst.
  - unfold pulse, jbind, jread, jlift, jwrite in H. destruct (jget id _); simpl in H; [|by simplify_eq].
    destruct (upsert _ _ _) as [s2 r2] eqn:H2. apply upsert_ok in H2; [|done|done].
    destruct r2; [|by simplify_eq]. apply inspect_ok in H. by subst.
  - unfold setState, jbind, jread, jlift in H. destruct (jget id _); simpl in H; [|by simplify_eq]. by eapply upsert_ok.
  - apply inspect_ok in H. by subst.
  - destruct (registry_step_ok laws _ _ (proj1 Hok) H) as [? ?]. by apply relations_ok_registry.
Qed.

(** A stored relation can always be inspected: in every history of calls
    on the relation service and on the registry it shares, tombstones, deleted
    presentations and refused calls included, every stored relation is filed
    under its id, both its ends resolve, and [inspect] returns it with the
    registry's entities and leaves everything as it was. *)
Theorem relations_stay_inspectable (laws : ZodLaws zod) workspaceId nodeId g0 max s k r count :
  new_registry workspaceId nodeId = Ok g0 ->
  rtc relation_step (RelationService workspaceId nodeId max g0 [] []) s ->
  jget k (rs_relations s) = Some r ->
  relation_id r = k /\ exists a b i,
    resolve (source_ref r) PRIMARY (rs_registry s) = Ok a /\ resolve (target_ref r) PRIMARY (rs_registry s) = Ok b /\
    inspect_relation k count s = (s, Ok i) /\ in_relation i = r /\ sourceLabel i = entity_id a /\ targetLabel i = entity_id b.
Proof.
  intros Hnew Hr Hk.
  assert (Hok : relations_ok s).
  { assert (H0 : relations_ok (RelationService workspaceId nodeId max g0 [] [])).
    { unfold new_registry in Hnew. inv_ok. split; [by intros ? ? [=] | by intros ? ?]. }
    clear Hk. revert H0. induction Hr as [|s1 s2 s3 Hs _ IH]; [done|]. intros H0. by eapply IH, relation_step_ok. }
  destruct (proj2 Hok k r Hk) as (Hid & [a Ha] & [b Hb]). split; [done|].
  destruct (inspect_relation k count s) as [s' i] eqn:Hi. pose proof (inspect_ok _ _ _ _ _ Hi) as ->.
  unfold inspect_relation, jbind, jlift, jread, jret in Hi. rewrite Hk in Hi. simpl in Hi. unfold on_registry, jzoom in Hi.
  rewrite Ha in Hi. simpl in Hi. rewrite Hb in Hi. injection Hi as _ <-. exists a, b. eexists. split_and!; done.
Qed.

(** ** What is shown *)

Lemma shown_before_total a b : shown_before a b = false -> shown_before b a = true.
Proof.
  unfold shown_before. destruct (bool_decide (rl_state a = RL_ACTIVE)), (bool_decide (rl_state b = RL_ACTIVE)); simpl; try done;
    repeat case_bool_decide; intros; try done; lia.
Qed.

Lemma shown_before_trans a b c : shown_before a b = true -> shown_before b c = true -> shown_before a c = true.
Proof.
  unfold shown_before. destruct (bool_decide (rl_state a = RL_ACTIVE)), (bool_decide (rl_state b = RL_ACTIVE)),
    (bool_decide (rl_state c = RL_ACTIVE)); simpl; try done; repeat case_bool_decide; intros; try done; lia.
Qed.

(** The relations shown are at most the bound, active ones first and then the
    most recent, and none that could be shown comes before one that is. *)
Theorem visible_relations_first max s :
  let l := visibleRelations max s in
  Z.of_nat (length l) <= 10000 /\ StronglySorted (fun a b => shown_before a b = true) l /\
  exists rest, l ++ rest ≡ₚ filter (fun r => rl_state r <> RL_ARCHIVED /\ rl_state r <> RL_UNAVAILABLE) (list_relations s) /\
    Forall (fun a => Forall (fun b => shown_before a b = true) rest) l.
Proof.
  cbv zeta. unfold visibleRelations. set (n := Z.to_nat _). set (all := filter _ (list_relations s)).
  pose proof (sort_by_sorted shown_before shown_before_total shown_before_trans all) as Hs.
  pose proof (sort_by_perm shown_before all) as Hp. set (l := sort_by shown_before all) in *.
  rewrite <-(take_drop n l) in Hs. apply StronglySorted_app in Hs as (H3 & H1 & H2). split_and!.
  - rewrite length_take. subst n. lia.
  - done.
  - exists (drop n l). rewrite take_drop. split; [done|]. apply Forall_forall. intros a Ha. apply Forall_forall. intros b Hb. by apply H3.
Qed.
End service.

Module RelationWitness.
Definition ref_in (ref entity : string) : reference_input := ReferenceInput ref entity ek_agent (NInt 0) None None None.
Definition g0 : registry := Registry "w" "n" [] [] (Telemetry 0 0 0 0 0).
Definition g1 : registry := (discover (zod := zod_ref) (ref_in "a" "Ann") (Some 1) g0).1.
Definition g2 : registry := (discover (zod := zod_ref) (ref_in "b" "Bob") (Some 2) g1).1.
Definition s0 : relation_service := RelationService "w" "n" None g0 [] [].
Definition s1 : relation_service := set_registry g2 (set_registry g1 s0).
Definition uses (id source target : string) : relation_input :=
  RelationInput id USES source target 0 0 None None None None None.
Definition s2 : relation_service := (upsert (zod := zod_ref) (uses "r1" "a" "b") (Some 3) s1).1.
Definition s3 : relation_service :=
  set_registry (tombstone (zod := zod_ref) "a" 1 (Some 4) (rs_registry s2)).1 s2.
Definition r1 : relation :=
  Relation "r1" "w" "n" 1 USES "a" "b" 0 0 RL_ACTIVE "uses" 0 None None 3 3.

Lemma relations_stay_inspectable_witness : exists i,
  inspect_relation "r1" None s3 = (s3, Ok i) /\ sourceLabel i = "Ann"%string /\ targetLabel i = "Bob"%string.
Proof.
  destruct (relations_stay_inspectable (zod := zod_ref) _ "w" "n" g0 None s3 "r1" r1 None)
    as (_ & a & b & i & Ha & Hb & Hi & _ & Hs & Ht).
  - vm_compute. reflexivity.
  - eapply rtc_l; [eapply (rl_registry s0 g1), (reg_discover _ (ref_in "a" "Ann") (Some 1)); apply surjective_pairing|].
    eapply rtc_l; [eapply (rl_registry _ g2), (reg_discover _ (ref_in "b" "Bob") (Some 2)); apply surjective_pairing|].
    eapply rtc_l; [eapply (rl_upsert _ (uses "r1" "a" "b") (Some 3)); apply surjective_pairing|].
    eapply rtc_l; [eapply (rl_registry _), (reg_tombstone _ "a" 1 (Some 4)); apply surjective_pairing|]. apply rtc_refl.
  - vm_compute. reflexivity.
  - exists i. vm_compute in Ha, Hb. injection Ha as <-. injection Hb as <-. exact (conj Hi (conj Hs Ht)).
Defined.

(** The two references of a relation are compared before they are trimmed: a
    space makes a relation of a reference with itself. *)
Theorem padded_target_makes_self_relation :
  match upsert (zod := zod_ref) (uses "r2" "a" "a ") (Some 3) s1 with
  | (_, Ok r) => source_ref r = target_ref r
  | _ => False
  end.
Proof. vm_compute. reflexivity. Qed.

(** A stream chunk is counted before its relation is accepted: the pulse count
    of the first chunk that gets through includes the refused ones. *)
Theorem refused_chunk_is_counted :
  let s := (aggregateStreamChunk (zod := zod_ref) (uses "r3" "a" "missing") None (Some 3) s1).1 in
  jget "r3" (rs_relations s) = None /\
  (pulse_count <$> jget "r3" (rs_relations (aggregateStreamChunk (zod := zod_ref) (uses "r3" "a" "b") None (Some 4) s).1)) = Some 2.
Proof. vm_compute. split; reflexivity. Qed.

(** Chunks are counted under the stream key, and [inspect] without a count looks
    it up under the relation id: it reports none. *)
Theorem inspected_count_is_lost :
  let s := (aggregateStreamChunk (zod := zod_ref) (uses "r4" "a" "b") (Some "stream"%string) (Some 3) s1).1 in
  (pulse_count <$> jget "r4" (rs_relations s)) = Some 1 /\
  match inspect_relation "r4" None s with (_, Ok i) => chunkCount i = 0 | _ => False end.
Proof. vm_compute. split; reflexivity. Qed.
End RelationWitness.
