(* ===== verification/Subagents.v ===== *)
(** * Local subagents

    src/web/operator-dashboard/src/spatial/topology/subagent-lifecycle.ts: the
    subagents the Primary Agent delegates to, on the registry and the relation
    service, with the properties of their lifecycle and lineage. *)

From Stdlib Require Import QArith.
From stdpp Require Import relations.
From S2P Require Import Prelude.
From S2P Require Import Json.
From S2P Require Import Contracts.
From S2P Require Import Registry.
From S2P Require Import Relations.

#[local] Open Scope Z_scope.

(** ** Data *)

Inductive subagent_state : Type := SPAWNED | SA_WORKING | SA_COMPLETED | SA_FAILED | SA_CANCELLED | SA_ARCHIVED.
#[export] Instance subagent_state_eq_dec : EqDecision subagent_state.
Proof. solve_decision. Defined.

(** [SpatialSubagentLifecycle]. *)
Record subagent : Type := Subagent {
  subagent_ref : string;
  sa_workspace : string;
  sa_node : string;
  primary_agent_ref : string;
  sa_parent : option string;
  sa_revision : Z;
  sa_state : subagent_state;
  capability_grant_scope : list string;
  delegation_relation_ref : option string;
  result_ref : option string;
  error_summary : option string;
  sa_created_at : iso;
  sa_updated_at : iso;
}.

Inductive subagent_error : Type :=
| INVALID_STATE | UNKNOWN_SUBAGENT | ORPHANED_SUBAGENT | REMOTE_ACCESS_DENIED | SA_RANGE_ERROR | SA_RELATION (e : relation_error).

(** The table [TRANSITIONS]. *)
Definition TRANSITIONS (s : subagent_state) : list subagent_state :=
  match s with
  | SPAWNED => [SA_WORKING; SA_CANCELLED; SA_FAILED; SA_ARCHIVED]
  | SA_WORKING => [SA_COMPLETED; SA_FAILED; SA_CANCELLED]
  | SA_COMPLETED => [SA_ARCHIVED]
  | SA_FAILED => [SA_ARCHIVED; SA_WORKING]
  | SA_CANCELLED => [SA_ARCHIVED]
  | SA_ARCHIVED => []
  end.

(** The service, with the relation service (and through it the registry) it
    shares. *)
Record subagent_service : Type := SubagentService {
  ss_workspace : string;
  ss_node : string;
  ss_primary : string;
  ss_relations : relation_service;
  subagents : jsmap subagent;
}.

Definition set_relation_service (r : relation_service) (s : subagent_service) : subagent_service :=
  SubagentService (ss_workspace s) (ss_node s) (ss_primary s) r (subagents s).
Definition set_subagents (m : jsmap subagent) (s : subagent_service) : subagent_service :=
  SubagentService (ss_workspace s) (ss_node s) (ss_primary s) (ss_relations s) m.

(** Run a method of the relation service. *)
Definition on_relations {A} (m : method relation_service relation_error A) : method subagent_service subagent_error A :=
  fun s =>
    let '(r, res) := m (ss_relations s) in
    (set_relation_service r s, match res with Ok a => Ok a | Err e => Err (SA_RELATION e) end).

Section service.
Context {zod : Zod}.

Definition spatialSubagentLifecycleSchema (a : subagent) : option subagent :=
  ref ← idSchema (subagent_ref a);
  ws ← idSchema (sa_workspace a);
  node ← idSchema (sa_node a);
  primary ← idSchema (primary_agent_ref a);
  parent ← nullable idSchema (sa_parent a);
  rev ← revisionSchema (sa_revision a);
  caps ← z_array idSchema 128 (capability_grant_scope a);
  deleg ← nullable idSchema (delegation_relation_ref a);
  result ← nullable idSchema (result_ref a);
  err ← nullable (z_string 0 512) (error_summary a);
  created ← timestampSchema (sa_created_at a);
  updated ← timestampSchema (sa_updated_at a);
  Some (Subagent ref ws node primary parent rev (sa_state a) caps deleg result err created updated).

(** The delegation [spawn] records, when the Primary Agent is registered. *)
Definition delegate (a : subagent) (ref : string) (now : date) : method subagent_service subagent_error unit :=
  let! s := jread in
  let! primary := on_relations (on_registry (resolveInScope (ss_workspace s) (ss_node s) (ss_primary s))) in
  match primary with
  | None => jret tt
  | Some _ =>
      on_relations (upsert (RelationInput (default ("delegation:" +:+ ref)%string (delegation_relation_ref a)) DELEGATED
        (ss_primary s) ref 0 0 (Some "delegated to local subagent"%string) None None None None) now) ;!
      jret tt
  end.

(** [spawn(input)]; [now1] and [now2] are the registry's clock and the relation
    service's. *)
Definition spawn (ref : string) (parent : option string) (caps : option (list string)) (now now1 now2 : date)
  : method subagent_service subagent_error subagent :=
  let! s := jread in
  match jget ref (subagents s) with
  | Some existing => jret existing
  | None =>
      jlift (require (match parent with
                      | Some p => str_eqb p "" || jhas p (subagents s) || str_eqb p (ss_primary s)
                      | None => true
                      end) ORPHANED_SUBAGENT) ;!
      let! t := jlift (of_option now SA_RANGE_ERROR) in
      let! a := jlift (of_option (spatialSubagentLifecycleSchema
        (Subagent ref (ss_workspace s) (ss_node s) (ss_primary s) parent 0 SPAWNED (default [] caps)
           (Some ("delegation:" +:+ ss_primary s +:+ ":" +:+ ref)%string) None None t t)) INVALID_STATE) in
      jwrite (set_subagents (jset (subagent_ref a) a (subagents s)) s) ;!
      on_relations (on_registry (discover (ReferenceInput ref ref ek_agent (NInt 0) None None (Some (ss_primary s))) now1)) ;!
      delegate a ref now2 ;!
      jret a
  end.

(** [{ ...current, ... }] of [transition]; the details are [None] when undefined. *)
Definition advance (a : subagent) (st : subagent_state) (result error : option (option string)) (t : iso) : subagent :=
  Subagent (subagent_ref a) (sa_workspace a) (sa_node a) (primary_agent_ref a) (sa_parent a)
    (sa_revision a + if bool_decide (sa_state a = st) then 0 else 1) st (capability_grant_scope a)
    (delegation_relation_ref a) (default (result_ref a) result) (default (error_summary a) error) (sa_created_at a) t.

Definition sa_transition (ref : string) (st : subagent_state) (result error : option (option string)) (now : date)
  : method subagent_service subagent_error subagent :=
  let! s := jread in
  let! current := jlift (of_option (jget ref (subagents s)) UNKNOWN_SUBAGENT) in
  jlift (require (bool_decide (sa_state current = st) || bool_decide (st ∈ TRANSITIONS (sa_state current))) INVALID_STATE) ;!
  let! t := jlift (of_option now SA_RANGE_ERROR) in
  let next := advance current st result error t in
  jwrite (set_subagents (jset ref next (subagents s)) s) ;!
  jret next.

Definition sa_complete (ref result : string) := sa_transition ref SA_COMPLETED (Some (Some result)) None.
Definition sa_fail (ref error : string) := sa_transition ref SA_FAILED None (Some (Some error)).

(** The filter of [recoverOrphans]. *)
Definition orphan (s : subagent_service) (a : subagent) : bool :=
  match sa_parent a with
  | Some p => negb (jhas p (subagents s)) && negb (str_eqb p (ss_primary s))
  | None => false
  end.

Definition recoverOrphans (s : subagent_service) : list subagent :=
  filter (fun a => orphan s a = true) (jvalues (subagents s)).

(** [requestRemoteAccess]; [authorize] is [authorizeRemoteAccess], [None] when absent. *)
Definition requestRemoteAccess (authorize : option (string -> string -> string -> bool)) (ref endpoint cap : string)
    (s : subagent_service) : result subagent_error (string * string * string) :=
  let? a := of_option (jget ref (subagents s)) UNKNOWN_SUBAGENT in
  require (bool_decide (sa_state a <> SA_ARCHIVED /\ sa_state a <> SA_CANCELLED)) UNKNOWN_SUBAGENT ;?
  require (bool_decide (cap ∈ capability_grant_scope a)
           && match authorize with Some f => f ref endpoint cap | None => false end) REMOTE_ACCESS_DENIED ;?
  Ok (ref, endpoint, cap).

Definition list_subagents (s : subagent_service) : list subagent := jvalues (subagents s).
Definition get_subagent (ref : string) (s : subagent_service) : result subagent_error subagent :=
  of_option (jget ref (subagents s)) UNKNOWN_SUBAGENT.

(** One call, returning or throwing; [clean] says that spawned references carry
    no surrounding space. *)
Inductive subagent_step (clean : Prop) (s : subagent_service) : subagent_service -> Prop :=
| sa_spawn ref parent caps now now1 now2 s' r :
    spawn ref parent caps now now1 now2 s = (s', r) -> (clean -> trim ref = ref) -> subagent_step clean s s'
| sa_move ref st result error now s' r : sa_transition ref st result error now s = (s', r) -> subagent_step clean s s'.

(** ** Properties *)

(** Each subagent is filed under its reference and has a parent that was there
    before it, the Primary Agent, or none. *)
Fixpoint lineage_ok (primary : string) (before : list string) (m : list (string * subagent)) : Prop :=
  match m with
  | [] => True
  | (k, a) :: m =>
      subagent_ref a = k /\
      match sa_parent a with Some p => p ∈ before \/ p = primary | None => True end /\
      lineage_ok primary (before ++ [k]) m
  end.

Lemma lineage_ok_app primary before m1 m2 :
  lineage_ok primary before (m1 ++ m2) <-> lineage_ok primary before m1 /\ lineage_ok primary (before ++ map fst m1) m2.
Proof.
  revert before. induction m1 as [|[k a] m1 IH]; intros before; simpl; [rewrite app_nil_r; tauto|].
  rewrite IH, <-app_assoc. simpl. tauto.
Qed.

(** Replacing a subagent by one with the same reference and parent. *)
Lemma lineage_ok_jset primary before ref a a' m :
  jget ref m = Some a -> subagent_ref a' = subagent_ref a -> sa_parent a' = sa_parent a ->
  lineage_ok primary before m -> lineage_ok primary before (jset ref a' m).
Proof.
  intros Hget Hr Hp. revert before Hget. induction m as [|[k b] m IH]; intros before Hget H; [done|].
  cbn [jget jset] in *. destruct H as (Hk & Hpar & Hm). unfold str_eqb in *. destruct (bool_decide (k = ref)) eqn:E.
  - injection Hget as ->. simpl. rewrite Hr, Hp. by split_and!.
  - simpl. split_and!; [done..|]. by apply IH.
Qed.

Lemma on_relations_inv {A} (m : method relation_service relation_error A) s s' r : on_relations m s = (s', r) ->
  subagents s' = subagents s /\ ss_primary s' = ss_primary s.
Proof. unfold on_relations. destruct (m (ss_relations s)). by intros [= <- <-]. Qed.

Lemma delegate_inv a ref now s s' r : delegate a ref now s = (s', r) ->
  subagents s' = subagents s /\ ss_primary s' = ss_primary s.
Proof.
  unfold delegate, jbind, jread, jret. intros H. destruct (on_relations _ s) as [s1 r1] eqn:H1.
  apply on_relations_inv in H1 as [He Hp]. destruct r1 as [[x|]|]; [|by simplify_eq..].
  destruct (on_relations _ s1) as [s2 r2] eqn:H2. apply on_relations_inv in H2 as [He2 Hp2].
  destruct r2; simplify_eq; split; congruence.
Qed.

(** What [spawn] did to the subagents, however it ended. *)
Lemma spawn_inv ref parent caps now now1 now2 s s' r : spawn ref parent caps now now1 now2 s = (s', r) ->
  ss_primary s' = ss_primary s /\
  (subagents s' = subagents s \/
   exists a t, jget ref (subagents s) = None /\ spatialSubagentLifecycleSchema
     (Subagent ref (ss_workspace s) (ss_node s) (ss_primary s) parent 0 SPAWNED (default [] caps)
        (Some ("delegation:" +:+ ss_primary s +:+ ":" +:+ ref)%string) None None t t) = Some a /\
     match parent with Some p => p = ""%string \/ jhas p (subagents s) = true \/ p = ss_primary s | None => True end /\
     subagents s' = jset (subagent_ref a) a (subagents s)).
Proof.
  unfold spawn, jbind, jread, jlift, jwrite, jret. intros H.
  destruct (jget ref (subagents s)) eqn:Hget; [simplify_eq; split; [done | by left]|].
  destruct (require _ ORPHANED_SUBAGENT) as [[]|] eqn:Hreq; [|simplify_eq; split; [done | by left]].
  destruct now as [t|]; simpl in H; [|simplify_eq; split; [done | by left]].
  destruct (spatialSubagentLifecycleSchema _) as [a|] eqn:Ha; simpl in H; [|simplify_eq; split; [done | by left]].
  destruct (on_relations _ _) as [s1 r1] eqn:H1. apply on_relations_inv in H1 as [He Hp]. simpl in He, Hp.
  assert (Hs' : subagents s' = subagents s1 /\ ss_primary s' = ss_primary s1).
  { destruct r1; [|by simplify_eq]. destruct (delegate _ _ _ s1) as [s2 r2] eqn:H2. apply delegate_inv in H2 as [? ?].
    destruct r2; by simplify_eq. }
  destruct Hs' as [Hs' Hp']. split; [congruence|]. right. exists a, t. split_and!; [done..| |congruence].
  apply require_ok in Hreq. destruct parent as [p|]; [|done]. unfold str_eqb in Hreq.
  rewrite !orb_true_iff, !bool_decide_eq_true in Hreq. naive_solver.
Qed.

Lemma subagentSchema_spec (laws : ZodLaws zod) a a' : spatialSubagentLifecycleSchema a = Some a' ->
  subagent_ref a' = trim (subagent_ref a) /\ sa_parent a' = trim <$> sa_parent a /\ sa_parent a' <> Some ""%string /\
  sa_state a' = sa_state a /\ sa_revision a' = sa_revision a.
Proof.
  unfold spatialSubagentLifecycleSchema, revisionSchema. intros H. inv_some. simpl.
  match goal with H : z_nonneg _ = Some _ |- _ => apply z_nonneg_sound in H as [-> _] end.
  match goal with H : nullable idSchema (sa_parent a) = Some ?p |- _ =>
    assert (p = trim <$> sa_parent a /\ p <> Some ""%string) as [? ?] end.
  { destruct (sa_parent a) as [p|]; simpl in *; [|by simplify_eq].
    match goal with H : _ <$> idSchema p = Some _ |- _ => apply fmap_Some in H as (q & Hq & ->) end.
    apply idSchema_spec in Hq as [-> Hne]. split; [done|]. congruence. }
  match goal with H : idSchema (subagent_ref a) = Some _ |- _ => apply idSchema_spec in H as [-> _] end. done.
Qed.

(** What [transition] did. *)
Lemma sa_transition_inv ref st result error now s s' r : sa_transition ref st result error now s = (s', r) ->
  (s' = s /\ exists e, r = Err e) \/ exists a t, jget ref (subagents s) = Some a /\ (sa_state a = st \/ st ∈ TRANSITIONS (sa_state a)) /\
    r = Ok (advance a st result error t) /\ s' = set_subagents (jset ref (advance a st result error t) (subagents s)) s.
Proof.
  unfold sa_transition, jbind, jread, jlift, jwrite, jret. intros H.
  destruct (jget ref (subagents s)) as [a|] eqn:Ha; simpl in H; [|simplify_eq; left; eauto].
  destruct (require _ INVALID_STATE) as [[]|] eqn:Hreq; [|simplify_eq; left; eauto].
  destruct now as [t|]; simpl in H; simplify_eq; [|left; eauto]. right. exists a, t.
  apply require_ok in Hreq. rewrite orb_true_iff, !bool_decide_eq_true in Hreq. done.
Qed.

(** Subagents are filed under their trimmed reference; a parent is one of them
    or the Primary Agent. *)
Definition known (s : subagent_service) (p : string) : Prop := jhas p (subagents s) = true \/ p = trim (ss_primary s).

Definition family_ok (s : subagent_service) : Prop :=
  NoDup (jkeys (subagents s)) /\
  jall (fun k a => subagent_ref a = k /\ trim k = k /\ forall p, sa_parent a = Some p -> known s p) (subagents s).

Lemma known_trim s p : family_ok s -> p = ""%string \/ jhas p (subagents s) = true \/ p = ss_primary s ->
  trim p <> ""%string -> known s (trim p).
Proof.
  intros [_ Hall] [->|[Hp| ->]] Hne; [done| |by right].
  pose proof Hp as [a Ha]%bool_decide_eq_true. destruct (Hall p a Ha) as (_ & -> & _). by left.
Qed.

Lemma family_ok_set s ref a : family_ok s -> subagent_ref a = ref -> trim ref = ref ->
  (forall p, sa_parent a = Some p -> known s p) -> family_ok (set_subagents (jset ref a (subagents s)) s).
Proof.
  intros [Hnd Hall] Hr Ht Hp.
  assert (Hk : forall p, known s p -> known (set_subagents (jset ref a (subagents s)) s) p).
  { intros p [H|H]; [left; by apply jhas_jset | by right]. }
  split; simpl; [by apply NoDup_jset|]. apply jall_jset.
  - split_and!; [done..|]. intros p H. by apply Hk, Hp.
  - intros k b Hb. destruct (Hall k b Hb) as (? & ? & H). split_and!; [done..|]. intros p Hpp. by apply Hk, H.
Qed.

(** Only the subagents and the Primary Agent matter. *)
Lemma family_ok_ext s s' : subagents s' = subagents s -> ss_primary s' = ss_primary s -> family_ok s -> family_ok s'.
Proof. unfold family_ok, known. by intros -> ->. Qed.

Lemma family_step (laws : ZodLaws zod) clean s s' : family_ok s -> subagent_step clean s s' ->
  family_ok s' /\ ss_primary s' = ss_primary s.
Proof.
  intros Hok [ref parent caps now now1 now2 s1 r H _|ref st result error now s1 r H].
  - apply spawn_inv in H as [Hp [Hs|(a & t & _ & Ha & Hpar & Hs)]]; (split; [|done]).
    { by eapply family_ok_ext. }
    apply subagentSchema_spec in Ha as (Hr & Hpa & Hne & _ & _); [|done]. simpl in Hr, Hpa.
    eapply (family_ok_ext (set_subagents (jset (subagent_ref a) a (subagents s)) s)); [done..|].
    apply family_ok_set; [done|done|by rewrite Hr, trim_idem|]. intros p Hpp. rewrite Hpa in Hpp, Hne.
    destruct parent as [q|]; simplify_eq/=. apply known_trim; [done..|]. congruence.
  - apply sa_transition_inv in H as [[-> _]|(a & t & Ha & _ & _ & ->)]; [done|]. split; [|done].
    destruct (proj2 Hok ref a Ha) as (? & ? & ?). by apply family_ok_set.
Qed.

(** Unpadded references extend the lineage and never overwrite it. *)
Lemma lineage_step (laws : ZodLaws zod) clean s s' : clean -> family_ok s -> trim (ss_primary s) = ss_primary s ->
  lineage_ok (ss_primary s) [] (subagents s) -> subagent_step clean s s' -> lineage_ok (ss_primary s) [] (subagents s').
Proof.
  intros Hclean Hok Hprim Hlin [ref parent caps now now1 now2 s1 r H Hc|ref st result error now s1 r H].
  - specialize (Hc Hclean). apply spawn_inv in H as [Hp [->|(a & t & Hget & Ha & Hpar & ->)]]; [done|].
    apply subagentSchema_spec in Ha as (Hr & Hpa & Hne & _ & _); [|done]. simpl in Hr, Hpa. rewrite Hc in Hr. subst ref.
    rewrite jset_fresh by done. apply lineage_ok_app. split; [done|]. simpl. split_and!; [done| |done].
    destruct (sa_parent a) as [p|]; [|done]. destruct parent as [q|]; simplify_eq/=.
    destruct (known_trim s q Hok Hpar) as [Hk|Hk]; [congruence| |right; congruence].
    left. apply bool_decide_eq_true in Hk. destruct (decide (trim q ∈ jkeys (subagents s))) as [|Hn]; [done|].
    apply jget_None in Hn. rewrite Hn in Hk. by destruct Hk.
  - apply sa_transition_inv in H as [[-> _]|(a & t & Ha & _ & _ & ->)]; [done|]. by eapply lineage_ok_jset.
Qed.

Lemma family_rtc (laws : ZodLaws zod) clean s s' : family_ok s -> rtc (subagent_step clean) s s' ->
  family_ok s' /\ ss_primary s' = ss_primary s.
Proof.
  intros Hok Hr. induction Hr as [|s1 s2 s3 H _ IH]; [done|]. destruct (family_step laws _ _ _ Hok H) as [Hok2 Hp].
  destruct (IH Hok2) as [? ?]. split; congruence.
Qed.

(** C12. The family of the Primary Agent stays together, in every history of
    [spawn] and [transition] calls, refused ones included. When the Primary
    Agent's reference carries no surrounding space, [recoverOrphans] finds
    nothing: every parent reference is the Primary Agent's or a subagent's; and
    when no spawned reference carries surrounding space either, the parent of a
    subagent was spawned before it, so that the lineage has no cycle. Whatever
    the references, a transition that succeeds leaves its subagent in its state
    and at its revision, or moves it along the table and raises the revision by
    one. *)
Theorem no_orphans (laws : ZodLaws zod) clean workspaceId nodeId primary rel s :
  rtc (subagent_step clean) (SubagentService workspaceId nodeId primary rel []) s ->
  (trim primary = primary -> recoverOrphans s = []) /\
  (trim primary = primary -> clean -> lineage_ok primary [] (subagents s)) /\
  forall ref st result error now s' a', sa_transition ref st result error now s = (s', Ok a') ->
    exists a, jget ref (subagents s) = Some a /\ jget ref (subagents s') = Some a' /\ subagent_ref a' = ref /\
      sa_parent a' = sa_parent a /\ sa_state a' = st /\
      (sa_state a = st /\ sa_revision a' = sa_revision a \/
       st ∈ TRANSITIONS (sa_state a) /\ sa_revision a' = sa_revision a + 1).
Proof.
  intros Hr.
  assert (H0 : family_ok (SubagentService workspaceId nodeId primary rel [])) by (split; [constructor | by intros ? ?]).
  destruct (family_rtc laws _ _ _ H0 Hr) as [Hok Hp]. simpl in Hp. split_and!.
  - intros Hprim. unfold recoverOrphans. apply elem_of_nil_inv. intros a [Ho ([k b] & -> & Hin)%list_elem_of_fmap]%list_elem_of_filter. simpl in Ho.
    apply elem_jget in Hin; [|apply Hok]. destruct (proj2 Hok k b Hin) as (_ & _ & H). unfold orphan in Ho.
    destruct (sa_parent b) as [p|]; [|done]. apply andb_true_iff in Ho as [Hh Hs].
    destruct (H p eq_refl) as [Hk|Hk]; [by rewrite Hk in Hh|]. rewrite Hk, Hp, Hprim in Hs.
    unfold str_eqb in Hs. by rewrite bool_decide_eq_true_2 in Hs.
  - intros Hprim Hclean. assert (Hl : lineage_ok primary [] (subagents (SubagentService workspaceId nodeId primary rel []))) by done.
    assert (Hpr : ss_primary (SubagentService workspaceId nodeId primary rel []) = primary) by done.
    clear Hok Hp. revert H0 Hl Hpr. induction Hr as [|s1 s2 s3 H _ IH]; [done|]. intros H0 Hl Hpr.
    destruct (family_step laws _ _ _ H0 H) as [Hok2 Hp2]. apply IH; [done| |congruence].
    pose proof (lineage_step laws clean s1 s2 Hclean H0) as Hstep. rewrite Hpr in Hstep. by apply Hstep.
  - intros ref st result error now s' a' [[_ [e [=]]]|(a & t & Ha & Hst & [= ->] & ->)]%sa_transition_inv.
    exists a. simpl. rewrite jget_jset_eq. split_and!; try done; [by apply (proj2 Hok) in Ha as [? _]|].
    destruct (decide (sa_state a = st)) as [Heq|Hne].
    + left. rewrite bool_decide_eq_true_2 by done. split; [done | lia].
    + right. rewrite bool_decide_eq_false_2 by done. split; [by destruct Hst | lia].
Qed.
End service.

Module SubagentWitness.
Definition g0 : registry := Registry "w" "n" [] [] (Telemetry 0 0 0 0 0).
Definition r0 : relation_service := RelationService "w" "n" None g0 [] [].
Definition s0 : subagent_service := SubagentService "w" "n" "chief" r0 [].
Definition run (ref : string) (parent : option string) (s : subagent_service) : subagent_service :=
  (spawn (zod := zod_ref) ref parent None (Some 1) (Some 1) (Some 1) s).1.
Definition s1 : subagent_service := run "scout" (Some "chief"%string) s0.
Definition s2 : subagent_service := run "helper" (Some "scout"%string) s1.
Definition s3 : subagent_service := (sa_transition "scout" SA_WORKING None None (Some 2) s2).1.

Lemma no_orphans_witness : recoverOrphans s3 = [] /\ lineage_ok "chief" [] (subagents s3) /\
  exists s', sa_transition "scout" SA_FAILED None None (Some 3) s3 = (s', Ok (advance
    (advance (Subagent "scout" "w" "n" "chief" (Some "chief"%string) 0 SPAWNED [] (Some "delegation:chief:scout"%string) None None 1 1)
       SA_WORKING None None 2) SA_FAILED None None 3)) /\ SA_FAILED ∈ TRANSITIONS SA_WORKING.
Proof.
  destruct (no_orphans (zod := zod_ref) _ True "w" "n" "chief" r0 s3) as (Ho & Hl & Ht).
  - eapply rtc_l; [eapply (sa_spawn _ s0 "scout" (Some "chief"%string)); [apply surjective_pairing | done]|].
    eapply rtc_l; [eapply (sa_spawn _ s1 "helper" (Some "scout"%string)); [apply surjective_pairing | done]|].
    eapply rtc_l; [eapply (sa_move _ s2 "scout" SA_WORKING); apply surjective_pairing|]. apply rtc_refl.
  - split; [exact (Ho eq_refl)|]. split; [exact (Hl eq_refl I)|]. exists (sa_transition "scout" SA_FAILED None None (Some 3) s3).1.
    split; [vm_compute; reflexivity|].
    destruct (Ht "scout"%string SA_FAILED None None (Some 3) _ _ (surjective_pairing _)) as (a & Ha & _ & _ & _ & _ & H).
    + vm_compute in Ha. injection Ha as <-. destruct H as [[H _]|[H _]]; [discriminate H | exact H].
Defined.

(** References are looked up as given and stored trimmed: a padded reference
    overwrites the subagent it names, whatever its state, and can make two
    subagents each other's parents. *)
Theorem padded_subagent_makes_cycle :
  let s := run "scout " (Some "helper"%string) s3 in
  (sa_parent <$> jget "scout" (subagents s)) = Some (Some "helper"%string) /\
  (sa_parent <$> jget "helper" (subagents s)) = Some (Some "scout"%string) /\
  (sa_state <$> jget "scout" (subagents s)) = Some SPAWNED.
Proof. vm_compute. split_and!; reflexivity. Qed.

(** The Primary Agent's reference is trimmed when a child is stored and compared
    as given: with a padded one, the child it has just spawned is an orphan. *)
Theorem padded_primary_has_orphans :
  let s := run "scout" (Some " chief "%string) (SubagentService "w" "n" " chief " r0 []) in
  subagent_ref <$> recoverOrphans s = ["scout"%string] /\
  (sa_state <$> jget "scout" (subagents s)) = Some SPAWNED.
Proof. vm_compute. split; reflexivity. Qed.

(** A subagent is stored before its delegation is accepted: spawning the Primary
    Agent's own reference throws and leaves a subagent of that name. *)
Theorem refused_spawn_is_stored :
  match spawn (zod := zod_ref) "chief" None None (Some 1) (Some 1) (Some 1) s0 with
  | (s, Err (SA_RELATION INVALID_RELATION)) => jhas "chief" (subagents s) = true
  | _ => False
  end.
Proof. vm_compute. reflexivity. Qed.
End SubagentWitness.
