(* ===== verification/RemoteContracts.v ===== *)
(** * The contracts of the remote mediation boundary

    The records and schemas of contracts/index.ts that cross the mediation
    boundary: endpoint details, provenance, context manifests, requests,
    results, test frames and accounting records. The literal fields
    ([schema_version], [source_zone], [untrusted], [authoritative_source]) have
    one value and are left out. A context field is a string, a boolean or an
    integer, kept as a [json] value; the names of fields are not those of
    [Object.prototype], and not integers, which JavaScript would move to the
    front. *)

From Stdlib Require Import QArith.
From S2P Require Import Prelude.
From S2P Require Import Json.
From S2P Require Import Contracts.
From S2P Require Import Numbers.
From S2P Require Import Text.
From S2P Require Import Status.

#[local] Open Scope Z_scope.

(** ** Endpoints *)

Inductive availability : Type := AV_AVAILABLE | AV_DEGRADED | AV_UNAVAILABLE | AV_UNKNOWN.
#[export] Instance availability_eq_dec : EqDecision availability.
Proof. solve_decision. Defined.

Inductive surface_state : Type :=
| SF_READY | SF_LOADING | SF_PARTIAL | SF_STALE | SF_UNAVAILABLE | SF_UNAUTHORIZED | SF_INCOMPATIBLE.
#[export] Instance surface_state_eq_dec : EqDecision surface_state.
Proof. solve_decision. Defined.

Record latency : Type := Latency {
  p50_ms : option jsnum;
  p95_ms : option jsnum;
  measured_at : option iso;
  window : option string;
}.

Record cost : Type := Cost {
  ct_currency : option string;
  unit_price : option jsnum;
  billing_dimension : option string;
  minimum_charge : option jsnum;
}.

Record deposit : Type := Deposit {
  dp_minimum : option jsnum;
  dp_recommended : option jsnum;
  dp_currency : option string;
  dp_escrow : option bool;
}.

Record limits : Type := Limits {
  context_tokens : option jsnum;
  payload_bytes : option jsnum;
  timeout_ms : option jsnum;
  lm_streaming : option bool;
}.

(** [SpatialEndpointDetails]. *)
Record endpoint : Type := Endpoint {
  ed_workspace : string;
  ed_node : string;
  ed_ref : string;
  endpoint_id : string;
  ed_revision : Z;
  display_name : string;
  ed_capability : string;
  endpoint_type : string;
  supported_modalities : list string;
  ed_availability : availability;
  ed_surface : surface_state;
  ed_freshness : freshness;
  ed_latency : latency;
  ed_load : option jsnum;
  ed_capacity : option jsnum;
  ed_cost : cost;
  ed_deposit : deposit;
  provider_ref : option string;
  remote_agent_ref : option string;
  validation_refs : list string;
  input_formats : list string;
  output_formats : list string;
  ed_limits : limits;
  ed_privacy : option string;
  trust_summary : option string;
  ed_description : option string;
  allowed_actions : list string;
}.

(** ** Requests and their results *)

Inductive provenance_state : Type := PV_UNVERIFIED | PV_VERIFIED | PV_STALE | PV_REVOKED.
#[export] Instance provenance_state_eq_dec : EqDecision provenance_state.
Proof. solve_decision. Defined.

(** [SpatialEndpointProvenance]. *)
Record provenance : Type := Provenance {
  provenance_id : string;
  pv_workspace : string;
  pv_node : string;
  pv_endpoint : string;
  pv_endpoint_revision : Z;
  pv_capability : string;
  pv_provider : option string;
  remote_node_ref : option string;
  validation_state : provenance_state;
  pv_request : option string;
  pv_correlation : string;
  pv_observed_at : iso;
}.

Inductive retention : Type := RT_EPHEMERAL | RT_SESSION | RT_PERSISTED.

(** [SpatialRemoteContextManifest]. *)
Record manifest : Type := Manifest {
  manifest_id : string;
  mf_request : string;
  mf_workspace : string;
  mf_node : string;
  mf_session : string;
  mf_purpose : string;
  capability_ref : string;
  allowed_fields : list string;
  mf_fields : jsmap json;
  attachment_refs : list string;
  media_types : list string;
  size_limit_bytes : jsnum;
  redactions : list string;
  forbidden_fields : list string;
  mf_retention : retention;
  consent_required : bool;
  consent_granted : bool;
  mf_policy_revision : Z;
  manifest_hash : string;
  mf_created_at : iso;
}.

Inductive billing_policy : Type := FREE | METERED | BP_UNKNOWN.
#[export] Instance billing_policy_eq_dec : EqDecision billing_policy.
Proof. solve_decision. Defined.

Inductive request_state : Type :=
| RQ_READY | RQ_VALIDATING | RQ_SUBMITTING | RQ_STREAMING | RQ_COMPLETE | RQ_CANCELLED | RQ_TIMEOUT | RQ_UNAVAILABLE
| RQ_REJECTED | RQ_INVALID_RESULT | RQ_INSUFFICIENT_DEPOSIT.
#[export] Instance request_state_eq_dec : EqDecision request_state.
Proof. solve_decision. Defined.

Record budget : Type := Budget {
  bg_policy : billing_policy;
  bg_estimate : option jsnum;
  bg_max : option jsnum;
}.

(** [SpatialRemoteRequest]; its authorization is always [AUTHORIZED]. *)
Record request : Type := Request {
  request_id : string;
  local_node_id : string;
  local_primary_agent_ref : string;
  local_session_ref : string;
  rq_endpoint : string;
  rq_endpoint_revision : Z;
  rq_capability : string;
  input_refs : list string;
  context_manifest : manifest;
  rq_grant : option string;
  rq_policy_revision : Z;
  resource_budget : budget;
  adapter_id : string;
  rq_timeout_ms : jsnum;
  request_bytes : jsnum;
  rq_state : request_state;
  idempotency_key : string;
  correlation_id : string;
  rq_created_at : iso;
  rq_provenance : provenance;
}.

Inductive validation_status : Type := VS_UNVERIFIED | VALID | VS_PARTIAL | SANITIZED | QUARANTINED | INVALID.
#[export] Instance validation_status_eq_dec : EqDecision validation_status.
Proof. solve_decision. Defined.

Inductive classification : Type :=
| CL_NONE | PROMPT_INJECTION | SCRIPT | UNSAFE_HTML | SECRET_PATTERN | MIME_MISMATCH | OVERSIZED.
#[export] Instance classification_eq_dec : EqDecision classification.
Proof. solve_decision. Defined.

(** [SpatialRemoteResult]. *)
Record remote_result : Type := RemoteResult {
  result_id : string;
  rs_request : string;
  rs_endpoint : string;
  rs_endpoint_revision : Z;
  rs_content_type : string;
  rs_status : validation_status;
  rs_classification : classification;
  rs_schema : option string;
  rs_size : jsnum;
  safe_text : option string;
  payload_ref : option string;
  rs_provenance : provenance;
  received_at : iso;
  rs_correlation : string;
}.

(** [SpatialEndpointTestFrameState]. *)
Inductive frame_state : Type :=
| FS_READY | FS_VALIDATING | FS_SUBMITTING | FS_STREAMING | FS_COMPLETE | FS_CANCELLED | FS_TIMEOUT | FS_UNAVAILABLE
| FS_INVALID_RESULT | FS_INSUFFICIENT_DEPOSIT | FS_REJECTED.
#[export] Instance frame_state_eq_dec : EqDecision frame_state.
Proof. solve_decision. Defined.

(** [SpatialEndpointTestFrame]. *)
Record frame : Type := Frame {
  frame_id : string;
  fm_workspace : string;
  fm_node : string;
  fm_endpoint : string;
  fm_capability : string;
  input_schema : list string * list string;
  input_value_ref : option string;
  submit_intent_ref : option string;
  response_ref : option string;
  accounting_ref : option string;
  fm_state : frame_state;
  source_revision : Z;
  provenance_ref : option string;
  fm_created_at : iso;
  fm_updated_at : iso;
}.

Inductive charge_policy : Type := NO_CHARGE | CHARGE_ON_ACCEPTED_RESULT | CHARGE_ON_ATTEMPT | CP_UNKNOWN.
#[export] Instance charge_policy_eq_dec : EqDecision charge_policy.
Proof. solve_decision. Defined.

Inductive accounting_state : Type := AC_PENDING | SETTLED | AC_FAILED | AC_CANCELLED.
#[export] Instance accounting_state_eq_dec : EqDecision accounting_state.
Proof. solve_decision. Defined.

(** [SpatialResourceAccounting]. *)
Record accounting : Type := Accounting {
  record_id : string;
  ac_request : string;
  ac_node : string;
  ac_session : string;
  protocol_session_ref : option string;
  ac_endpoint : string;
  rate_card_revision : Z;
  ac_billing : billing_policy;
  input_units : jsnum;
  output_units : jsnum;
  estimate_units : option jsnum;
  measured_units : option jsnum;
  settlement_ref : option string;
  ac_charge : charge_policy;
  ac_state : accounting_state;
  ac_created_at : iso;
  ac_updated_at : iso;
}.

(** ** Patterns *)


(** [a-f0-9], without the [i] flag. *)
Definition is_hex (c : ascii) : bool := is_digit c || one_of "abcdef" c.

(** [a-z0-9!#$&^_.+-] with the [i] flag. *)
Definition is_mime_char (c : ascii) : bool := is_alpha c || is_digit c || one_of "!#$&^_.+-" c.

(** [/^sha256:[a-f0-9]{16,128}$/]. *)
Definition is_sha256 (s : string) : bool :=
  if String.prefix "sha256:" s then
    let h := String.substring 7 (String.length s) s in
    forallb is_hex (String.list_ascii_of_string h) &&
    bool_decide (16 <= Z.of_nat (String.length h) <= 128)
  else false.

(** [/^[token]+\/[token]+$/i]. *)
Definition is_mime (s : string) : bool :=
  match skip is_mime_char s with
  | String c rest =>
      Ascii.eqb c "/" && negb (String.eqb (skip is_mime_char s) s) &&
      negb (String.eqb rest "") && String.eqb (skip is_mime_char rest) ""
  | EmptyString => false
  end.

(** ** Schemas *)

Definition MAX_SAFE_INTEGER : Z := 2 ^ 53 - 1.

Definition guard (b : bool) {A} (a : A) : option A := if b then Some a else None.

(** [z.string().max(n)] with a bound too large to write in unary. *)
Definition textSchema (n : N) (s : string) : option string := guard (bool_decide (N.of_nat (String.length s) <= n)%N) s.

(** [z.number().int().positive().max(m)]. *)
Definition positiveIntSchema (m : Z) (a : jsnum) : option jsnum :=
  if num_lt (num 0) a then boundedIntSchema m a else None.

(** [z.number().finite().nonnegative()]. *)
Definition finiteSchema (a : jsnum) : option jsnum := guard (isFinite a && negb (num_lt a (num 0))) a.

Section schemas.
Context {zod : Zod}.

Definition latencySchema (l : latency) : option latency :=
  a ← nullableNumber 86400000 (p50_ms l);
  b ← nullableNumber 86400000 (p95_ms l);
  t ← nullable timestampSchema (measured_at l);
  w ← nullable (max_string 128) (window l);
  Some (Latency a b t w).

Definition costSchema (c : cost) : option cost :=
  cur ← nullable idSchema (ct_currency c);
  p ← nullableNumber MAX_SAFE_INTEGER (unit_price c);
  b ← nullable idSchema (billing_dimension c);
  m ← nullableNumber MAX_SAFE_INTEGER (minimum_charge c);
  Some (Cost cur p b m).

Definition depositSchema (d : deposit) : option deposit :=
  a ← nullableNumber MAX_SAFE_INTEGER (dp_minimum d);
  b ← nullableNumber MAX_SAFE_INTEGER (dp_recommended d);
  c ← nullable idSchema (dp_currency d);
  Some (Deposit a b c (dp_escrow d)).

Definition limitsSchema (l : limits) : option limits :=
  a ← nullableNumber MAX_SAFE_INTEGER (context_tokens l);
  b ← nullableNumber MAX_SAFE_INTEGER (payload_bytes l);
  c ← nullableNumber 86400000 (timeout_ms l);
  Some (Limits a b c (lm_streaming l)).

Definition spatialEndpointDetailsSchema (e : endpoint) : option endpoint :=
  ws ← idSchema (ed_workspace e);
  node ← idSchema (ed_node e);
  ref ← idSchema (ed_ref e);
  id ← idSchema (endpoint_id e);
  rev ← revisionSchema (ed_revision e);
  name ← labelSchema (display_name e);
  cap ← labelSchema (ed_capability e);
  ty ← labelSchema (endpoint_type e);
  mods ← z_array idSchema 64 (supported_modalities e);
  fr ← spatialFreshnessSchema (ed_freshness e);
  lat ← latencySchema (ed_latency e);
  load ← nullableNumber 1 (ed_load e);
  capacity ← nullableNumber MAX_SAFE_INTEGER (ed_capacity e);
  co ← costSchema (ed_cost e);
  de ← depositSchema (ed_deposit e);
  prov ← nullable idSchema (provider_ref e);
  agent ← nullable idSchema (remote_agent_ref e);
  vals ← z_array idSchema 128 (validation_refs e);
  ins ← z_array idSchema 128 (input_formats e);
  outs ← z_array idSchema 128 (output_formats e);
  lim ← limitsSchema (ed_limits e);
  priv ← nullable (max_string 256) (ed_privacy e);
  trust ← nullable (max_string 256) (trust_summary e);
  desc ← nullable (max_string 2000) (ed_description e);
  acts ← z_array idSchema 64 (allowed_actions e);
  Some (Endpoint ws node ref id rev name cap ty mods (ed_availability e) (ed_surface e) fr lat load capacity co de
          prov agent vals ins outs lim priv trust desc acts).

Definition spatialEndpointProvenanceSchema (p : provenance) : option provenance :=
  id ← idSchema (provenance_id p);
  ws ← idSchema (pv_workspace p);
  node ← idSchema (pv_node p);
  ep ← idSchema (pv_endpoint p);
  rev ← revisionSchema (pv_endpoint_revision p);
  cap ← labelSchema (pv_capability p);
  prov ← nullable idSchema (pv_provider p);
  rn ← nullable idSchema (remote_node_ref p);
  rq ← nullable idSchema (pv_request p);
  corr ← idSchema (pv_correlation p);
  t ← timestampSchema (pv_observed_at p);
  Some (Provenance id ws node ep rev cap prov rn (validation_state p) rq corr t).

Definition safeKeySchema (s : string) : option string := z_string 1 96 (trim s).

(** [safeValueSchema]: a string, a finite number or a boolean. *)
Definition safeValueSchema (v : json) : option json :=
  match v with
  | JStr s => JStr <$> max_string 512 s
  | JNum _ | JBool _ => Some v
  | _ => None
  end.

(** [z.record(keys, values)]. *)
Fixpoint z_record_go {A} (pk : string -> option string) (pv : A -> option A) (m acc : jsmap A) : option (jsmap A) :=
  match m with
  | [] => Some acc
  | (k, v) :: m => k ← pk k; v ← pv v; z_record_go pk pv m (jset k v acc)
  end.
Definition z_record {A} (pk : string -> option string) (pv : A -> option A) (m : jsmap A) : option (jsmap A) :=
  z_record_go pk pv m [].

Definition sha256Schema (s : string) : option string := guard (is_sha256 s) s.
Definition mimeSchema (s : string) : option string := guard (is_mime s) s.

Definition spatialRemoteContextManifestSchema (m : manifest) : option manifest :=
  id ← idSchema (manifest_id m);
  rq ← idSchema (mf_request m);
  ws ← idSchema (mf_workspace m);
  node ← idSchema (mf_node m);
  sess ← idSchema (mf_session m);
  purpose ← labelSchema (mf_purpose m);
  cap ← idSchema (capability_ref m);
  allowed ← z_array safeKeySchema 64 (allowed_fields m);
  fields ← z_record safeKeySchema safeValueSchema (mf_fields m);
  atts ← z_array sha256Schema 32 (attachment_refs m);
  media ← z_array mimeSchema 16 (media_types m);
  size ← positiveIntSchema 50000000 (size_limit_bytes m);
  red ← z_array safeKeySchema 64 (redactions m);
  forb ← z_array safeKeySchema 64 (forbidden_fields m);
  rev ← revisionSchema (mf_policy_revision m);
  hash ← sha256Schema (manifest_hash m);
  t ← timestampSchema (mf_created_at m);
  Some (Manifest id rq ws node sess purpose cap allowed fields atts media size red forb (mf_retention m)
          (consent_required m) (consent_granted m) rev hash t).

Definition budgetSchema (b : budget) : option budget :=
  e ← nullableNumber MAX_SAFE_INTEGER (bg_estimate b);
  m ← nullableNumber MAX_SAFE_INTEGER (bg_max b);
  Some (Budget (bg_policy b) e m).

Definition spatialRemoteRequestSchema (r : request) : option request :=
  id ← idSchema (request_id r);
  node ← idSchema (local_node_id r);
  agent ← idSchema (local_primary_agent_ref r);
  sess ← idSchema (local_session_ref r);
  ep ← idSchema (rq_endpoint r);
  rev ← revisionSchema (rq_endpoint_revision r);
  cap ← labelSchema (rq_capability r);
  ins ← z_array idSchema 32 (input_refs r);
  mf ← spatialRemoteContextManifestSchema (context_manifest r);
  gr ← nullable idSchema (rq_grant r);
  pol ← revisionSchema (rq_policy_revision r);
  bud ← budgetSchema (resource_budget r);
  ad ← idSchema (adapter_id r);
  tm ← positiveIntSchema 86400000 (rq_timeout_ms r);
  bytes ← boundedIntSchema 50000000 (request_bytes r);
  key ← idSchema (idempotency_key r);
  corr ← idSchema (correlation_id r);
  t ← timestampSchema (rq_created_at r);
  prov ← spatialEndpointProvenanceSchema (rq_provenance r);
  Some (Request id node agent sess ep rev cap ins mf gr pol bud ad tm bytes (rq_state r) key corr t prov).

Definition spatialRemoteResultSchema (r : remote_result) : option remote_result :=
  id ← idSchema (result_id r);
  rq ← idSchema (rs_request r);
  ep ← idSchema (rs_endpoint r);
  rev ← revisionSchema (rs_endpoint_revision r);
  ty ← mimeSchema (rs_content_type r);
  sch ← nullable idSchema (rs_schema r);
  size ← boundedIntSchema 50000000 (rs_size r);
  text ← nullable (textSchema 1000000) (safe_text r);
  ref ← nullable idSchema (payload_ref r);
  prov ← spatialEndpointProvenanceSchema (rs_provenance r);
  t ← timestampSchema (received_at r);
  corr ← idSchema (rs_correlation r);
  Some (RemoteResult id rq ep rev ty (rs_status r) (rs_classification r) sch size text ref prov t corr).

Definition spatialEndpointTestFrameSchema (f : frame) : option frame :=
  id ← idSchema (frame_id f);
  ws ← idSchema (fm_workspace f);
  node ← idSchema (fm_node f);
  ep ← idSchema (fm_endpoint f);
  cap ← labelSchema (fm_capability f);
  fields ← z_array safeKeySchema 64 (input_schema f).1;
  media ← z_array (max_string 128) 16 (input_schema f).2;
  val ← nullable idSchema (input_value_ref f);
  sub ← nullable idSchema (submit_intent_ref f);
  resp ← nullable idSchema (response_ref f);
  acc ← nullable idSchema (accounting_ref f);
  rev ← revisionSchema (source_revision f);
  prov ← nullable idSchema (provenance_ref f);
  t ← timestampSchema (fm_created_at f);
  t' ← timestampSchema (fm_updated_at f);
  Some (Frame id ws node ep cap (fields, media) val sub resp acc (fm_state f) rev prov t t').

Definition spatialResourceAccountingSchema (a : accounting) : option accounting :=
  id ← idSchema (record_id a);
  rq ← idSchema (ac_request a);
  node ← idSchema (ac_node a);
  sess ← idSchema (ac_session a);
  proto ← nullable idSchema (protocol_session_ref a);
  ep ← idSchema (ac_endpoint a);
  rev ← revisionSchema (rate_card_revision a);
  i ← finiteSchema (input_units a);
  o ← finiteSchema (output_units a);
  e ← nullable finiteSchema (estimate_units a);
  m ← nullable finiteSchema (measured_units a);
  s ← nullable idSchema (settlement_ref a);
  t ← timestampSchema (ac_created_at a);
  t' ← timestampSchema (ac_updated_at a);
  Some (Accounting id rq node sess proto ep rev (ac_billing a) i o e m s (ac_charge a) (ac_state a) t t').
End schemas.
