(* ===== verification/Remote.v ===== *)
(** * Remote mediation

    src/web/operator-dashboard/src/spatial/remote/mediation.ts: the local
    service every request to a remote endpoint passes. A submission suspends
    while the transport adapter sends; [submit_begin] is the code before that
    await and [submit_settle] the code after it, for each way the race between
    the adapter and the timer can end. Abort controllers are identities, and the
    service keeps those that were aborted. [mo_id prefix n] is what the [n]-th
    call of the id factory returns. *)

From Stdlib Require Import QArith.
From stdpp Require Import relations pretty.
From S2P Require Import Prelude.
From S2P Require Import Json.
From S2P Require Import Contracts.
From S2P Require Import Numbers.
From S2P Require Import Text.
From S2P Require Import Binding.
From S2P Require Import Registry.
From S2P Require Import Status.
From S2P Require Import RemoteContracts.

#[local] Open Scope Z_scope.

(** ** Data *)

(** [MediationErrorCode]. *)
Inductive code : Type :=
| ENDPOINT_NOT_REGISTERED | ENDPOINT_NOT_ALLOWED | ENDPOINT_UNAVAILABLE | CAPABILITY_MISMATCH | STALE_ENDPOINT
| CONTEXT_FORBIDDEN | CONTEXT_TOO_LARGE | CONSENT_REQUIRED | UNAUTHORIZED | TRANSPORT_UNAVAILABLE
| TRANSPORT_ERROR | TIMEOUT | CANCELLED | INVALID_RESULT | DUPLICATE_SUBMIT.
#[export] Instance code_eq_dec : EqDecision code.
Proof. solve_decision. Defined.

(** What the service throws: its own errors, the registry's, the [RangeError]
    of [nowIso], the [TypeError] of [JSON.stringify], or whatever else an
    adapter rejected with. *)
Inductive med_error : Type :=
| Med (c : code) | MedRegistry (e : registry_error) | MedRangeError | MedTypeError | MedOther.
#[export] Instance med_error_eq_dec : EqDecision med_error.
Proof. solve_decision. Defined.

Record adapter : Type := Adapter { ad_id : string; ad_can_send : bool }.

(** A response payload: a string; a value, with what [JSON.stringify] prints of
    it, the own keys it leaves out and whether it is a stream; [undefined]; or a
    value [JSON.stringify] throws on. *)
Inductive payload : Type :=
| P_text (s : string)
| P_data (v : json) (hidden : list string) (stream : bool)
| P_undefined
| P_cyclic.

(** [RemoteTransportResponse]. *)
Record response : Type := Response {
  rp_content_type : string;
  rp_payload : payload;
  rp_size : option jsnum;
}.

(** [RemoteAuthorization]. *)
Record authorization : Type := Authorization {
  au_allowed : bool;
  au_grant : option string;
  au_policy : option Z;
}.

(** [CreateManifestInput]. *)
Record manifest_input : Type := ManifestInput {
  mi_request : string;
  mi_endpoint : string;
  mi_capability : string;
  mi_session : string;
  mi_purpose : string;
  mi_fields : option (jsmap json);
  mi_allowed : option (list string);
  mi_attachments : option (list string);
  mi_media : option (list string);
  mi_size : option jsnum;
  mi_retention : option retention;
  mi_consent_required : option bool;
  mi_consent_granted : option bool;
  mi_policy : option Z;
}.

(** [SubmitEndpointTestInput]. *)
Record submit_input : Type := SubmitInput {
  si_frame : string;
  si_key : option string;
  si_fields : option (jsmap json);
  si_allowed : option (list string);
  si_attachments : option (list string);
  si_media : option (list string);
  si_session : option string;
  si_consent : option bool;
  si_purpose : option string;
}.

(** [RemoteMediationServiceOptions], apart from the registry and the adapters. *)
Record options : Type := Options {
  mo_workspace : string;
  mo_node : string;
  mo_agent : string;
  mo_session : option string;
  mo_adapter : option string;
  maxRequestBytes : option jsnum;
  maxResponseBytes : option jsnum;
  defaultTimeoutMs : option jsnum;
  mo_id : option (string -> Z -> string);
  mo_authorize : option (endpoint -> string -> string -> string -> authorization);
}.

Inductive event_type : Type := EV_MANIFEST | EV_REQUEST | EV_RESULT | EV_FRAME | EV_ACCOUNTING | EV_PROVENANCE.

(** [RemoteMediationEvent]. *)
Record med_event : Type := MedEvent {
  me_type : event_type;
  me_id : string;
  me_request : option string;
  me_at : iso;
}.

(** [RemoteSubmitResult], without [duplicate]. *)
Record submitted : Type := Submitted {
  sb_request : request;
  sb_result : remote_result;
  sb_accounting : accounting;
  sb_frame : frame;
}.

(** The maps of [LocalRemoteMediationService]; [md_controllers] holds the
    identities of abort controllers, [md_aborted] those that were aborted and
    [md_made] how many were made. *)
Record mediation : Type := Mediation {
  md_registry : registry;
  endpoints : jsmap endpoint;
  allowedEndpoints : jsmap unit;
  adapters : jsmap adapter;
  frames : jsmap frame;
  requests : jsmap request;
  results : jsmap remote_result;
  md_accounting : jsmap accounting;
  idempotent : jsmap submitted;
  md_controllers : jsmap Z;
  md_aborted : list Z;
  md_made : Z;
  cancelledRequests : jsmap unit;
  eventLog : list med_event;
  counter : Z;
}.

Definition set_registry r s :=
  Mediation r (endpoints s) (allowedEndpoints s) (adapters s) (frames s) (requests s) (results s)
    (md_accounting s) (idempotent s) (md_controllers s) (md_aborted s) (md_made s) (cancelledRequests s)
    (eventLog s) (counter s).
Definition set_endpoints m a s :=
  Mediation (md_registry s) m a (adapters s) (frames s) (requests s) (results s) (md_accounting s)
    (idempotent s) (md_controllers s) (md_aborted s) (md_made s) (cancelledRequests s) (eventLog s)
    (counter s).
Definition set_adapters m s :=
  Mediation (md_registry s) (endpoints s) (allowedEndpoints s) m (frames s) (requests s) (results s)
    (md_accounting s) (idempotent s) (md_controllers s) (md_aborted s) (md_made s) (cancelledRequests s)
    (eventLog s) (counter s).
Definition set_frames m s :=
  Mediation (md_registry s) (endpoints s) (allowedEndpoints s) (adapters s) m (requests s) (results s)
    (md_accounting s) (idempotent s) (md_controllers s) (md_aborted s) (md_made s) (cancelledRequests s)
    (eventLog s) (counter s).
Definition set_requests m s :=
  Mediation (md_registry s) (endpoints s) (allowedEndpoints s) (adapters s) (frames s) m (results s)
    (md_accounting s) (idempotent s) (md_controllers s) (md_aborted s) (md_made s) (cancelledRequests s)
    (eventLog s) (counter s).
Definition set_results m s :=
  Mediation (md_registry s) (endpoints s) (allowedEndpoints s) (adapters s) (frames s) (requests s) m
    (md_accounting s) (idempotent s) (md_controllers s) (md_aborted s) (md_made s) (cancelledRequests s)
    (eventLog s) (counter s).
Definition set_accounting m s :=
  Mediation (md_registry s) (endpoints s) (allowedEndpoints s) (adapters s) (frames s) (requests s)
    (results s) m (idempotent s) (md_controllers s) (md_aborted s) (md_made s) (cancelledRequests s)
    (eventLog s) (counter s).
Definition set_idempotent m s :=
  Mediation (md_registry s) (endpoints s) (allowedEndpoints s) (adapters s) (frames s) (requests s)
    (results s) (md_accounting s) m (md_controllers s) (md_aborted s) (md_made s) (cancelledRequests s)
    (eventLog s) (counter s).
Definition set_controllers c a n x s :=
  Mediation (md_registry s) (endpoints s) (allowedEndpoints s) (adapters s) (frames s) (requests s)
    (results s) (md_accounting s) (idempotent s) c a n x (eventLog s) (counter s).
Definition set_events l s :=
  Mediation (md_registry s) (endpoints s) (allowedEndpoints s) (adapters s) (frames s) (requests s)
    (results s) (md_accounting s) (idempotent s) (md_controllers s) (md_aborted s) (md_made s)
    (cancelledRequests s) l (counter s).
Definition set_counter n s :=
  Mediation (md_registry s) (endpoints s) (allowedEndpoints s) (adapters s) (frames s) (requests s)
    (results s) (md_accounting s) (idempotent s) (md_controllers s) (md_aborted s) (md_made s)
    (cancelledRequests s) (eventLog s) n.

(** ** Patterns *)

Definition sep : matcher := maybe (eat (one_of "_-")).
Definition spaces1 : matcher := at_least 1 is_js_space.

Definition SECRET_KEY : matcher := first_of
  [in_order [word "system"; sep; word "prompt"]; word "conversation"; word "history"; word "wallet";
   in_order [word "private"; sep; word "key"]; word "secret"; word "token"; word "credential"; word "cookie";
   word "authorization"; in_order [word "browser"; sep; word "state"]; in_order [word "other"; sep; word "workspace"];
   word "password"].

Definition is_gt (c : ascii) : bool := Ascii.eqb c ">".

Definition SCRIPT_OR_HTML : matcher := first_of
  [in_order [eat (Ascii.eqb "<"); maybe (eat (Ascii.eqb "/"));
     first_of [word "script"; word "iframe"; word "object"; word "embed"; word "form"; word "button";
               in_order [word "a"; word_end]];
     many (fun c => negb (is_gt c)); eat is_gt];
   in_order [word "javascript"; many is_js_space; eat (Ascii.eqb ":")]].

Definition PROMPT_INJECTION_TEXT : matcher := first_of
  [in_order [first_of [word "ignore"; word "disregard"; word "override"]; spaces1; maybe (in_order [word "all"; spaces1]);
     first_of [word "previous"; word "prior"; word "system"]; spaces1; word "instructions"];
   in_order [word "reveal"; spaces1; maybe (in_order [word "the"; spaces1]); word "system"; spaces1; word "prompt"];
   in_order [word "you"; spaces1; word "are"; spaces1; word "now"; spaces1]].

(** [-----BEGIN [A-Z ]+ KEY-----]: the run of letters and spaces ends in [ KEY]. *)
Definition key_block : matcher := fun s =>
  s' ← word "-----begin " s;
  let r := skip (fun c => is_alpha c || Ascii.eqb c " ") s' in
  let n := (String.length s' - String.length r)%nat in
  r' ← word "-----" r;
  if bool_decide (5 <= n)%nat && String.eqb (to_lower (String.substring (n - 4) 4 s')) " key" then Some r' else None.

Definition SECRET_VALUE : matcher := first_of
  [in_order [word "sk-"; at_least 12 (fun c => is_alpha c || is_digit c || one_of "_-" c)];
   key_block;
   in_order [word "bearer"; spaces1; at_least 12 (fun c => is_alpha c || is_digit c || one_of "._-" c)];
   in_order [first_of [word "password"; word "secret"; word "token"; in_order [word "api"; sep; word "key"]];
     many is_js_space; eat (one_of ":="); many is_js_space; at_least 1 (fun c => negb (is_js_space c))]].

(** [s.replace(pattern, lit)] without the [g] flag: the first match only. *)
Fixpoint replace_first (m : matcher) (lit s : string) : string :=
  match m s, s with
  | Some r, _ => lit +:+ r
  | None, String c s => String c (replace_first m lit s)
  | None, EmptyString => EmptyString
  end.

(** [/<[^>]*>/g], the character 0 and [slice(0, n)] for a large [n]. *)
Definition tag : matcher := in_order [eat (Ascii.eqb "<"); many (fun c => negb (is_gt c)); eat is_gt].

Fixpoint drop_char (d : ascii) (s : string) : string :=
  match s with
  | EmptyString => EmptyString
  | String c s => if Ascii.eqb c d then drop_char d s else String c (drop_char d s)
  end.

Fixpoint slice_Z (n : Z) (s : string) : string :=
  match s with
  | EmptyString => EmptyString
  | String c s => if bool_decide (n <= 0) then EmptyString else String c (slice_Z (n - 1) s)
  end.

(** [s.split(';', 1)[0]]. *)
Definition before_semicolon (s : string) : string :=
  let r := skip (fun c => negb (Ascii.eqb c ";")) s in String.substring 0 (String.length s - String.length r) s.

Definition is_url (s : string) : bool :=
  bool_decide (is_Some (in_order [eat is_alpha; many (fun c => is_alpha c || is_digit c || one_of "+.-" c); word "://"] s))
  || String.prefix "//" s.

(** ** Helpers *)

Definition DEFAULT_MAX_REQUEST_BYTES : jsnum := num 256000.
Definition DEFAULT_MAX_RESPONSE_BYTES : jsnum := num 1000000.
Definition DEFAULT_TIMEOUT_MS : jsnum := num 30000.

(** The UTF-8 length of a string whose characters are below 256. *)
Fixpoint byteLength (s : string) : Z :=
  match s with
  | EmptyString => 0
  | String c s => (if bool_decide (charCode c < 128) then 1 else 2) + byteLength s
  end.

Definition stableHash (s : string) : string := "sha256:" +:+ fnv1a s +:+ padStart 24 "0" "".

Definition med_now (d : date) : result med_error iso := of_option d MedRangeError.

(** [normalizedFields]: trimmed names, the last of equal ones, none empty. *)
Definition normalizedFields (fields : option (jsmap json)) : jsmap json :=
  foldl (fun m kv => jset kv.1 kv.2 m) []
    (filter (fun kv : string * json => negb (str_eqb kv.1 "") = true)
       (map (fun kv : string * json => (trim kv.1, kv.2)) (default [] fields))).

(** The text of a payload; [JSON.stringify] may throw. *)
Definition rawText (p : payload) : result med_error string :=
  match p with
  | P_text s => Ok s
  | P_data v _ _ => Ok (stringify v)
  | P_undefined => Ok "undefined"
  | P_cyclic => Err MedTypeError
  end.

Definition sanitize (s : string) : string := slice_Z 1000000 (drop_char "000" (replace tag "" s)).

Definition sanitizedText (p : payload) : result med_error string := let? s := rawText p in Ok (sanitize s).

Definition UI_KEYS : list string := ["component"; "component_registry"; "action"; "callback"; "script"; "html"].

Definition hasRemoteUiPayload (p : payload) : bool :=
  match p with
  | P_data (JArr _) _ _ => false
  | P_data v hidden _ =>
      let keys := match v with JObj l => map fst l | _ => [] end ++ hidden in
      existsb (fun k => bool_decide (to_lower k ∈ UI_KEYS)) keys
  | _ => false
  end.

Definition hasUnboundedStream (p : payload) : bool := match p with P_data _ _ b => b | _ => false end.

Definition ends_with_star (s : string) : bool := String.eqb (String.substring (String.length s - 2) 2 s) "/*".

Definition matchesMime (contentType : string) (formats : list string) : bool :=
  bool_decide (formats = []) ||
  let normalized := to_lower (trim (before_semicolon contentType)) in
  existsb (fun format =>
    let candidate := to_lower format in
    String.eqb candidate normalized || String.eqb candidate "*" ||
    ends_with_star candidate && String.prefix (String.substring 0 (String.length candidate - 1) candidate) normalized)
    formats.

Definition inputSchemaForEndpoint (e : endpoint) : list string * list string :=
  let fields := if negb (bool_decide (input_formats e = [])) then input_formats e
                else if negb (bool_decide (supported_modalities e = [])) then supported_modalities e else ["text/plain"] in
  (take 64 fields, take 16 (input_formats e)).

(** The code names the error classes with [toLowerCase]. *)
Definition classification_name (c : classification) : string :=
  match c with
  | CL_NONE => "none" | PROMPT_INJECTION => "prompt_injection" | SCRIPT => "script" | UNSAFE_HTML => "unsafe_html"
  | SECRET_PATTERN => "secret_pattern" | MIME_MISMATCH => "mime_mismatch" | OVERSIZED => "oversized"
  end.

(** ** The service *)

Section service.
Context {zod : Zod} (opts : options).

Definition safeId (name : string) : method mediation med_error string := fun s =>
  let n := counter s + 1 in
  (set_counter n s, Ok (match mo_id opts with Some f => f name n | None => name +:+ ":" +:+ pretty n end)).

Definition recordEvent (ty : event_type) (id : string) (rq : option string) (now : date)
  : method mediation med_error unit :=
  let! t := jlift (med_now now) in
  let! s := jread in
  jwrite (set_events (eventLog s ++ [MedEvent ty id rq t]) s).

Definition registerAdapter (a : adapter) : method mediation med_error unit :=
  jlift (require (negb (str_eqb (trim (ad_id a)) "") && ad_can_send a) (Med TRANSPORT_UNAVAILABLE)) ;!
  let! s := jread in
  jwrite (set_adapters (jset (ad_id a) a (adapters s)) s).

(** The constructor, on the registry it shares or creates. *)
Definition new_mediation (g : registry) (ads : list adapter) : mediation * result med_error unit :=
  let s0 := Mediation g [] [] [] [] [] [] [] [] [] [] 0 [] [] 0 in
  if str_eqb (trim (mo_agent opts)) "" then (s0, Err (Med UNAUTHORIZED)) else jforeach registerAdapter ads s0.

(** A call of the registry the service holds. *)
Definition on_registry {A} (m : method registry registry_error A) : method mediation med_error A :=
  jzoom md_registry set_registry MedRegistry m.

Definition registerEndpoint (details : endpoint) (allowed : bool) (now : date) : method mediation med_error endpoint :=
  let! e := jlift (of_option (spatialEndpointDetailsSchema details) (Med ENDPOINT_NOT_REGISTERED)) in
  jlift (require (str_eqb (ed_workspace e) (mo_workspace opts) && str_eqb (ed_node e) (mo_node opts))
           (Med ENDPOINT_NOT_REGISTERED)) ;!
  jlift (require (negb (is_url (ed_ref e))) (Med ENDPOINT_NOT_REGISTERED)) ;!
  let! s := jread in
  jlift (require (match jget (ed_ref e) (endpoints s) with
                  | Some existing => bool_decide (ed_revision existing <= ed_revision e)
                  | None => true
                  end) (Med STALE_ENDPOINT)) ;!
  on_registry (discover (ReferenceInput (ed_ref e) (endpoint_id e) ek_endpoint (NInt (ed_revision e)) None None
                           (provider_ref e)) now) ;!
  let! s := jread in
  jwrite (set_endpoints (jset (ed_ref e) e (endpoints s))
            (if allowed then jset (ed_ref e) tt (allowedEndpoints s) else jdelete (ed_ref e) (allowedEndpoints s)) s) ;!
  jret e.

Definition revokeEndpoint (ref : string) (s : mediation) : mediation :=
  set_endpoints (endpoints s) (jdelete (trim ref) (allowedEndpoints s)) s.

Definition getEndpoint (ref : string) : method mediation med_error endpoint :=
  let! s := jread in
  jlift (of_option (jget (trim ref) (endpoints s)) (Med ENDPOINT_NOT_REGISTERED)).

Definition createProvenance (ref : string) (rq : option string) (correlation : string) (now : date)
  : method mediation med_error provenance :=
  let! e := getEndpoint ref in
  let! id := safeId "provenance" in
  let! t := jlift (med_now now) in
  let! p := jlift (of_option (spatialEndpointProvenanceSchema
    (Provenance id (mo_workspace opts) (mo_node opts) (ed_ref e) (ed_revision e) (ed_capability e) (provider_ref e) None
       PV_UNVERIFIED rq correlation t)) (Med ENDPOINT_NOT_REGISTERED)) in
  recordEvent EV_PROVENANCE (provenance_id p) rq now ;!
  jret p.

(** The fields of a manifest: those allowed whose name is not secret. *)
Definition is_secret_key (k : string) : bool := test SECRET_KEY k.

Definition requestedFields (fields : jsmap json) (allowed : option (list string)) : list string :=
  match allowed with
  | Some l => filter (fun f => negb (str_eqb f "") = true) (map trim l)
  | None => jkeys fields
  end.

Definition minimize (fields : jsmap json) (allowed : list string) : jsmap json :=
  foldl (fun m k => match jget k fields with Some v => jset k v m | None => m end) [] allowed.

Definition redactions_of (fields : jsmap json) (allowed : list string) : list string :=
  unique (filter (fun k => (negb (bool_decide (k ∈ allowed)) || is_secret_key k) = true) (jkeys fields)).

Definition manifestBody (e : endpoint) (i : manifest_input) (fields : jsmap json) : string :=
  stringify (JObj [("endpoint", JStr (ed_ref e)); ("capability", JStr (mi_capability i)); ("fields", JObj fields);
                   ("attachments", JArr (map JStr (default [] (mi_attachments i)))); ("purpose", JStr (mi_purpose i))]).

Definition size_limit (e : endpoint) (i : manifest_input) : jsnum :=
  let most := default DEFAULT_MAX_REQUEST_BYTES (maxRequestBytes opts) in
  num_min (num_max (num 1) (default (default most (payload_bytes (ed_limits e))) (mi_size i))) most.

Definition createContextManifest (i : manifest_input) (now : date) : method mediation med_error manifest :=
  let! e := getEndpoint (mi_endpoint i) in
  jlift (require (str_eqb (ed_capability e) (mi_capability i)) (Med CAPABILITY_MISMATCH)) ;!
  jlift (require (negb (String.prefix "workspace-" (mi_session i) &&
                        negb (String.prefix (mo_workspace opts +:+ ":") (mi_session i)))) (Med UNAUTHORIZED)) ;!
  let fields := normalizedFields (mi_fields i) in
  let requested := requestedFields fields (mi_allowed i) in
  let allowed := filter (fun k => negb (is_secret_key k) = true) requested in
  let forbidden := filter (fun k => is_secret_key k = true) requested in
  let minimized := minimize fields allowed in
  let media := take 16 (default (input_formats e) (mi_media i)) in
  jlift (require (negb (negb (bool_decide (input_formats e = [])) &&
                        existsb (fun m => negb (matchesMime m (input_formats e))) media)) (Med CONTEXT_FORBIDDEN)) ;!
  let body := manifestBody e i minimized in
  jlift (require (negb (num_lt (size_limit e i) (num (byteLength body)))) (Med CONTEXT_TOO_LARGE)) ;!
  let! id := safeId "manifest" in
  let! t := jlift (med_now now) in
  let m := Manifest id (mi_request i) (mo_workspace opts) (mo_node opts) (mi_session i) (slice 240 (mi_purpose i))
             (ed_capability e) allowed minimized (default [] (mi_attachments i)) media (size_limit e i)
             (redactions_of fields allowed) forbidden (default RT_EPHEMERAL (mi_retention i))
             (default false (mi_consent_required i)) (default false (mi_consent_granted i)) (default 0 (mi_policy i))
             (stableHash body) t in
  jlift (require (negb (consent_required m && negb (consent_granted m))) (Med CONSENT_REQUIRED)) ;!
  let! parsed := jlift (of_option (spatialRemoteContextManifestSchema m) (Med CONTEXT_FORBIDDEN)) in
  recordEvent EV_MANIFEST (manifest_id parsed) (Some (mi_request i)) now ;!
  jret parsed.

Definition createEndpointTestFrame (id : option string) (ref : string) (revision : option Z) (now : date)
  : method mediation med_error frame :=
  let! e := getEndpoint ref in
  jlift (require (match revision with Some r => bool_decide (r = ed_revision e) | None => true end) (Med STALE_ENDPOINT)) ;!
  let! t := jlift (med_now now) in
  let! fid := match id with Some id => jret id | None => safeId "endpoint-test-frame" end in
  let! f := jlift (of_option (spatialEndpointTestFrameSchema
    (Frame fid (mo_workspace opts) (mo_node opts) (ed_ref e) (ed_capability e) (inputSchemaForEndpoint e) None None None
       None FS_READY (ed_revision e) None t t)) (Med ENDPOINT_NOT_REGISTERED)) in
  let! s := jread in
  jwrite (set_frames (jset (frame_id f) f (frames s)) s) ;!
  recordEvent EV_FRAME (frame_id f) None now ;!
  jret f.

Definition getFrame (id : string) : method mediation med_error frame :=
  let! s := jread in
  jlift (of_option (jget (trim id) (frames s)) (Med ENDPOINT_NOT_REGISTERED)).

Definition listFrames (s : mediation) : list frame := jvalues (frames s).
Definition getRequest (id : string) (s : mediation) : option request := jget (trim id) (requests s).
Definition getResult (id : string) (s : mediation) : option remote_result := jget (trim id) (results s).
Definition getAccounting (id : string) (s : mediation) : option accounting := jget (trim id) (md_accounting s).

(** [updateFrame(frameId, patch)]: stored under the name it was called with. *)
Definition updateFrame (id : string) (patch : frame -> frame) (now : date) : method mediation med_error frame :=
  let! current := getFrame id in
  let! t := jlift (med_now now) in
  let f := patch current in
  let! parsed := jlift (of_option (spatialEndpointTestFrameSchema
    (Frame (frame_id f) (fm_workspace f) (fm_node f) (fm_endpoint f) (fm_capability f) (input_schema f) (input_value_ref f)
       (submit_intent_ref f) (response_ref f) (accounting_ref f) (fm_state f) (source_revision f) (provenance_ref f)
       (fm_created_at f) t)) (Med ENDPOINT_NOT_REGISTERED)) in
  let! s := jread in
  jwrite (set_frames (jset id parsed (frames s)) s) ;!
  recordEvent EV_FRAME id (submit_intent_ref parsed) now ;!
  jret parsed.

(** The patches of the submission. *)
Definition with_refs (st : frame_state) (submit response account prov : option string) (f : frame) : frame :=
  let or o d := match o with Some _ => o | None => d end in
  Frame (frame_id f) (fm_workspace f) (fm_node f) (fm_endpoint f) (fm_capability f) (input_schema f) (input_value_ref f)
    (or submit (submit_intent_ref f)) (or response (response_ref f)) (or account (accounting_ref f)) st
    (source_revision f) (or prov (provenance_ref f)) (fm_created_at f) (fm_updated_at f).

Definition budgetForEndpoint (e : endpoint) (bytes : jsnum) : budget :=
  match unit_price (ed_cost e) with
  | Some _ => Budget METERED (Some (num_max (num 1) (num_ceil_div bytes 1024))) (ed_capacity e)
  | None => Budget FREE (Some (num 0)) (ed_capacity e)
  end.

Definition settleAccounting (rq : request) (e : endpoint) (outputBytes : jsnum) (st : accounting_state) (now : date)
  : method mediation med_error accounting :=
  let inputUnits := num_max (num 0) (num_ceil_div (request_bytes rq) 1024) in
  let outputUnits := num_max (num 0) (num_ceil_div outputBytes 1024) in
  let metered := bool_decide (bg_policy (resource_budget rq) = METERED) in
  let! t := jlift (med_now now) in
  let! id := safeId "accounting" in
  jret (Accounting id (request_id rq) (mo_node opts) (local_session_ref rq) None (ed_ref e) (ed_revision e)
          (if metered then METERED else FREE) (if metered then inputUnits else num 0)
          (if metered then outputUnits else num 0) (bg_estimate (resource_budget rq))
          (Some (if metered then num_add inputUnits outputUnits else num 0)) None
          (if metered then CHARGE_ON_ACCEPTED_RESULT else NO_CHARGE) st t t).

(** The verdict on a response: the size, the type, and the text before and
    after its sanitation. *)
Definition classify (e : endpoint) (r : response) (contentType raw text : string) (size : jsnum)
  : classification * validation_status :=
  if num_lt (default DEFAULT_MAX_RESPONSE_BYTES (maxResponseBytes opts)) size then (OVERSIZED, QUARANTINED)
  else if negb (matchesMime contentType (output_formats e)) then (MIME_MISMATCH, INVALID)
  else if hasUnboundedStream (rp_payload r) then (OVERSIZED, QUARANTINED)
  else if hasRemoteUiPayload (rp_payload r) then (UNSAFE_HTML, QUARANTINED)
  else if test SCRIPT_OR_HTML raw then
    (if test (word "<script") raw || test (in_order [word "javascript"; many is_js_space; eat (Ascii.eqb ":")]) raw
     then SCRIPT else UNSAFE_HTML, QUARANTINED)
  else if test SECRET_VALUE text then (SECRET_PATTERN, QUARANTINED)
  else if test PROMPT_INJECTION_TEXT text then (PROMPT_INJECTION, QUARANTINED)
  else (CL_NONE, VALID).

Definition response_size (r : response) (text : string) : jsnum := default (num (byteLength text)) (rp_size r).

Definition safe_text_of (v : classification * validation_status) (text : string) : string :=
  match v.2 with
  | QUARANTINED =>
      let preview := if bool_decide (v.1 = SECRET_PATTERN) then replace_first SECRET_VALUE "[redacted-secret]" text else text in
      "Remote output quarantined (" +:+ classification_name v.1 +:+ "). " +:+ slice 512 preview
  | INVALID => "Remote output rejected by the local validator."
  | _ => text
  end.

Definition validateRemoteResult (rq : request) (e : endpoint) (r : response) (now : date)
  : method mediation med_error remote_result :=
  let contentType := before_semicolon (to_lower (trim (rp_content_type r))) in
  let! raw := jlift (rawText (rp_payload r)) in
  let text := sanitize raw in
  let size := response_size r text in
  let v := classify e r contentType raw text size in
  let! t := jlift (med_now now) in
  let p := rq_provenance rq in
  let prov := Provenance (provenance_id p) (pv_workspace p) (pv_node p) (pv_endpoint p) (pv_endpoint_revision p)
    (pv_capability p) (pv_provider p) (remote_node_ref p)
    (if bool_decide (v.2 = VALID) then PV_VERIFIED else PV_UNVERIFIED) (Some (request_id rq)) (pv_correlation p) t in
  let! id := safeId "remote-result" in
  jlift (of_option (spatialRemoteResultSchema
    (RemoteResult id (request_id rq) (rq_endpoint rq) (rq_endpoint_revision rq)
       (if str_eqb contentType "" then "text/plain" else contentType) v.2 v.1 None size (Some (safe_text_of v text)) None
       prov t (correlation_id rq))) (Med INVALID_RESULT)).

(** ** Submission *)

(** A submission whose adapter is sending. *)
Record pending : Type := Pending {
  pd_id : string;
  pd_request : request;
  pd_frame : string;
  pd_endpoint : endpoint;
  pd_key : string;
  pd_controller : Z;
}.

(** How the race ends: a response, a rejection (of the service's own kind when
    it carries a code), or the timer. *)
Inductive outcome : Type := Resolved (r : response) | Rejected (c : option code) | TimedOut.

Definition in_flight (st : frame_state) : bool := bool_decide (st = FS_SUBMITTING) || bool_decide (st = FS_STREAMING).

Definition key_of (i : submit_input) (f : frame) : string :=
  trim (default (frame_id f +:+ ":" +:+ stringify (JObj (default [] (si_fields i)))) (si_key i)).

Definition session_of (i : submit_input) : string :=
  default (default (mo_workspace opts +:+ ":session:manual") (mo_session opts)) (si_session i).

Definition authorization_of (e : endpoint) (capability session : string) : authorization :=
  match mo_authorize opts with
  | Some f => f e capability session (mo_agent opts)
  | None => Authorization true None (Some 0)
  end.

Definition manifest_input_of (i : submit_input) (f : frame) (e : endpoint) (rid : string) (a : authorization)
  : manifest_input :=
  ManifestInput rid (ed_ref e) (fm_capability f) (session_of i) (default "operator-endpoint-test" (si_purpose i))
    (si_fields i) (si_allowed i) (si_attachments i) (si_media i) (payload_bytes (ed_limits e)) None (Some false)
    (Some (default false (si_consent i))) (Some (default 0 (au_policy a))).

Definition body_bytes (m : manifest) : jsnum :=
  num (byteLength (stringify (JObj [("fields", JObj (mf_fields m)); ("attachments", JArr (map JStr (attachment_refs m)))]))).

Definition timeout_of (e : endpoint) : jsnum :=
  let most := default DEFAULT_TIMEOUT_MS (defaultTimeoutMs opts) in num_min (default most (timeout_ms (ed_limits e))) most.

Definition adapter_of (e : endpoint) (s : mediation) : option adapter :=
  jget (default (default "node-mediated" (provider_ref e)) (mo_adapter opts)) (adapters s).

(** The guards before the request gets its id. *)
Definition submit_guards (f : frame) (e : endpoint) (s : mediation) : result med_error unit :=
  require (negb (in_flight (fm_state f))) (Med DUPLICATE_SUBMIT) ;?
  require (jhas (ed_ref e) (allowedEndpoints s)) (Med ENDPOINT_NOT_ALLOWED) ;?
  require (negb (bool_decide (ed_availability e = AV_UNAVAILABLE) || bool_decide (ed_surface e = SF_UNAVAILABLE)))
    (Med ENDPOINT_UNAVAILABLE) ;?
  require (bool_decide (source_revision f = ed_revision e)) (Med STALE_ENDPOINT).

(** Everything after the guards and before the adapter is called. *)
Definition submit_request (i : submit_input) (f : frame) (e : endpoint) (key : string) (now : date)
  : method mediation med_error pending :=
  let session := session_of i in
  let! rid := safeId "remote-request" in
  let a := authorization_of e (fm_capability f) session in
  jlift (require (au_allowed a) (Med UNAUTHORIZED)) ;!
  let! m := createContextManifest (manifest_input_of i f e rid a) now in
  let! s := jread in
  let! ad := jlift (of_option (adapter_of e s) (Med TRANSPORT_UNAVAILABLE)) in
  let! correlation := safeId "correlation" in
  let! prov := createProvenance (ed_ref e) (Some rid) correlation now in
  let! t := jlift (med_now now) in
  let! rq := jlift (of_option (spatialRemoteRequestSchema
    (Request rid (mo_node opts) (mo_agent opts) session (ed_ref e) (ed_revision e) (fm_capability f) (attachment_refs m) m
       (au_grant a) (default 0 (au_policy a)) (budgetForEndpoint e (body_bytes m)) (ad_id ad) (timeout_of e) (body_bytes m)
       RQ_SUBMITTING key correlation t prov)) (Med UNAUTHORIZED)) in
  let! s := jread in
  jwrite (set_requests (jset rid rq (requests s)) s) ;!
  updateFrame (frame_id f) (with_refs FS_SUBMITTING (Some rid) None None (Some (provenance_id prov))) now ;!
  recordEvent EV_REQUEST rid (Some rid) now ;!
  let! s := jread in
  let controller := md_made s + 1 in
  jwrite (set_controllers (jset rid controller (md_controllers s)) (md_aborted s) controller (cancelledRequests s) s) ;!
  jret (Pending rid rq (frame_id f) e key controller).

(** [submitEndpointTest(input)], up to its await: a recorded submission
    ([duplicate: true]) or a suspended one. *)
Definition submit_begin (i : submit_input) (now : date) : method mediation med_error (submitted + pending) :=
  let! f := getFrame (si_frame i) in
  let! e := getEndpoint (fm_endpoint f) in
  let! s := jread in
  match jget (key_of i f) (idempotent s) with
  | Some previous => jret (inl previous)
  | None =>
      jlift (submit_guards f e s) ;!
      let! p := submit_request i f e (key_of i f) now in
      jret (inr p)
  end.

(** [controller.abort()] and [controller.signal.aborted]. *)
Definition abort (c : Z) (s : mediation) : mediation :=
  set_controllers (md_controllers s) (c :: md_aborted s) (md_made s) (cancelledRequests s) s.
Definition aborted (c : Z) (s : mediation) : bool := bool_decide (c ∈ md_aborted s).

(** The [try] block once the race has ended. *)
Definition settle_body (p : pending) (out : outcome) (now : date) : method mediation med_error submitted :=
  match out with
  | TimedOut => let! s := jread in jwrite (abort (pd_controller p) s) ;! jthrow (Med TIMEOUT)
  | Rejected (Some c) => jthrow (Med c)
  | Rejected None => jthrow MedOther
  | Resolved r =>
      let! s := jread in
      jlift (require (negb (aborted (pd_controller p) s)) (Med TIMEOUT)) ;!
      let! res := validateRemoteResult (pd_request p) (pd_endpoint p) r now in
      let! s := jread in
      jwrite (set_results (jset (result_id res) res (results s)) s) ;!
      recordEvent EV_RESULT (result_id res) (Some (pd_id p)) now ;!
      let! text := jlift (sanitizedText (rp_payload r)) in
      let good := bool_decide (rs_status res = VALID) || bool_decide (rs_status res = SANITIZED) in
      let! a := settleAccounting (pd_request p) (pd_endpoint p) (response_size r text)
                  (if good then SETTLED else AC_FAILED) now in
      let! ac := jlift (of_option (spatialResourceAccountingSchema a) (Med INVALID_RESULT)) in
      let! s := jread in
      jwrite (set_accounting (jset (pd_id p) ac (md_accounting s)) s) ;!
      recordEvent EV_ACCOUNTING (record_id ac) (Some (pd_id p)) now ;!
      let st := if bool_decide (rs_status res = QUARANTINED) || bool_decide (rs_status res = INVALID)
                then FS_INVALID_RESULT else FS_COMPLETE in
      let! f := updateFrame (pd_frame p) (with_refs st None (Some (result_id res)) (Some (record_id ac)) None) now in
      let sb := Submitted (pd_request p) res ac f in
      let! s := jread in
      jwrite (set_idempotent (jset (pd_key p) sb (idempotent s)) s) ;!
      jret sb
  end.

(** The error the [catch] block throws in place of the one it caught. *)
Definition mediation_error (p : pending) (e : med_error) (s : mediation) : code :=
  if jhas (pd_id p) (cancelledRequests s) then CANCELLED
  else match e with
       | Med c => c
       | _ => if aborted (pd_controller p) s then TIMEOUT else TRANSPORT_ERROR
       end.

Definition failed_state (c : code) : frame_state :=
  match c with TIMEOUT => FS_TIMEOUT | CANCELLED => FS_CANCELLED | ENDPOINT_UNAVAILABLE => FS_UNAVAILABLE | _ => FS_REJECTED end.

Definition settle_catch (p : pending) (now : date) (e : med_error) : method mediation med_error submitted :=
  let! s := jread in
  let c := mediation_error p e s in
  updateFrame (pd_frame p) (with_refs (failed_state c) None None None None) now ;!
  jthrow (Med c).

Definition settle_finally (p : pending) (s : mediation) : mediation :=
  set_controllers (jdelete (pd_id p) (md_controllers s)) (md_aborted s) (md_made s)
    (jdelete (pd_id p) (cancelledRequests s)) s.

(** [submitEndpointTest(input)], after its await. *)
Definition submit_settle (p : pending) (out : outcome) (now : date) : method mediation med_error submitted :=
  jfinally (jcatch (settle_body p out now) (settle_catch p now)) (settle_finally p).

(** [cancelEndpointTest(frameId)]. *)
Definition cancelEndpointTest (id : string) (now : date) : method mediation med_error frame :=
  let! f := getFrame id in
  match submit_intent_ref f with
  | Some rid =>
      if str_eqb rid "" then jret tt
      else
        let! s := jread in
        jwrite (set_controllers (md_controllers s)
                  (match jget rid (md_controllers s) with Some c => c :: md_aborted s | None => md_aborted s end)
                  (md_made s) (jset rid tt (cancelledRequests s)) s)
  | None => jret tt
  end ;!
  updateFrame id (with_refs FS_CANCELLED None None None None) now.
End service.
