(* ===== verification/RemoteProps.v ===== *)
(** * Properties of the remote mediation service

    A request leaves only with every approval and with no more context than was
    allowed; remote text carries no tag, and accepted text nothing the validator
    looks for; recorded submissions agree with themselves and charge a free
    endpoint nothing; every submission ends; with what the code does on the
    edges. *)

From Stdlib Require Import QArith.
From stdpp Require Import relations pretty.
From S2P Require Import Prelude.
From S2P Require Import Json.
From S2P Require Import Contracts.
From S2P Require Import Numbers.
From S2P Require Import Text.
From S2P Require Import Registry.
From S2P Require Import Status.
From S2P Require Import RemoteContracts.
From S2P Require Import Remote.

#[local] Open Scope Z_scope.

(** ** Texts without tags *)

Fixpoint has_char (d : ascii) (s : string) : bool :=
  match s with EmptyString => false | String c s => Ascii.eqb c d || has_char d s end.

(** No [<] with a [>] after it. *)
Fixpoint no_tag (s : string) : Prop :=
  match s with
  | EmptyString => True
  | String c s => (c = "<"%char -> has_char ">" s = false) /\ no_tag s
  end.

(** [t] is [s] less some characters. *)
Inductive sub : string -> string -> Prop :=
| sub_nil : sub "" ""
| sub_keep c t s : sub t s -> sub (String c t) (String c s)
| sub_drop c t s : sub t s -> sub t (String c s).

Lemma sub_empty s : sub "" s.
Proof. induction s; by constructor. Qed.

Lemma sub_refl s : sub s s.
Proof. induction s; by constructor. Qed.

Lemma sub_has d t s : sub t s -> has_char d s = false -> has_char d t = false.
Proof.
  induction 1; simpl; [done| |].
  - intros [-> ?]%orb_false_iff. rewrite orb_false_l. auto.
  - intros [_ ?]%orb_false_iff. auto.
Qed.

Lemma sub_no_tag t s : sub t s -> no_tag s -> no_tag t.
Proof.
  induction 1 as [|c t s Hs IH|c t s Hs IH]; simpl; [done| |intros [_ ?]; auto].
  intros [Hc ?]. split; [|auto]. intros ->. eapply sub_has; [done|]. auto.
Qed.

Lemma drop_char_sub d s : sub (drop_char d s) s.
Proof. induction s as [|c s IH]; simpl; [constructor|]. destruct (Ascii.eqb c d); by constructor. Qed.

Lemma slice_Z_sub n s : sub (slice_Z n s) s.
Proof. revert n. induction s as [|c s IH]; intros n; simpl; [constructor|]. case_bool_decide; [apply sub_empty | constructor; apply IH]. Qed.

Lemma slice_sub n s : sub (slice n s) s.
Proof. revert s. induction n as [|n IH]; intros [|c s]; try apply sub_empty. simpl. constructor. apply IH. Qed.

Lemma erase_sub m n s : sub (replace_go m "" n s) s.
Proof.
  revert n. induction s as [|c s IH]; intros n; simpl; [constructor|]. destruct n; [|constructor; apply IH].
  destruct (m (String c s)); constructor; apply IH.
Qed.

Lemma has_app d a b : has_char d (a +:+ b) = has_char d a || has_char d b.
Proof. induction a as [|c a IH]; [done|]. rewrite sapp_cons. simpl. by rewrite IH, orb_assoc. Qed.

Lemma no_tag_app a b : has_char "<" a = false -> no_tag b -> no_tag (a +:+ b).
Proof.
  induction a as [|c a IH]; [done|]. rewrite sapp_cons. simpl. intros [Hc Ha]%orb_false_iff Hb.
  split; [|by apply IH]. intros ->. done.
Qed.

Lemma skip_none s : has_char ">" s = false <-> skip (fun c => negb (is_gt c)) s = "".
Proof.
  induction s as [|c s IH]; [done|]. simpl. unfold is_gt in *. destruct (Ascii.eqb c ">"); simpl; [done | apply IH].
Qed.

Lemma tag_none s : tag (String "<" s) = None -> has_char ">" s = false.
Proof.
  unfold tag, in_order, many. cbn. intros H. apply skip_none.
  destruct (skip (fun c => negb (is_gt c)) s) as [|c r] eqn:Hs; [done|]. exfalso. cbn in H.
  assert (is_gt c = true) as Hc; [|by rewrite Hc in H].
  clear H. revert Hs. induction s as [|d s IH]; [done|]. simpl. destruct (is_gt d) eqn:Hd; simpl; [|done]. by intros [= <- _].
Qed.

Lemma replace_tag_plain s : forall n, no_tag (replace_go tag "" n s).
Proof.
  induction s as [|c s IH]; intros n; [done|]. cbn [replace_go]. destruct n; [|apply IH].
  destruct (tag (String c s)) eqn:Ht; [apply IH|]. split; [|apply IH]. intros ->.
  eapply sub_has; [apply erase_sub | by apply tag_none].
Qed.

Lemma sanitize_plain s : no_tag (sanitize s).
Proof.
  unfold sanitize. eapply sub_no_tag; [apply slice_Z_sub|]. eapply sub_no_tag; [apply drop_char_sub|]. apply replace_tag_plain.
Qed.

(** ** What the patterns leave *)

Lemma key_block_consumes : consumes key_block.
Proof.
  intros s r. unfold key_block. intros (u & Hu & H)%bind_Some. apply bind_Some in H as (v & Hv & H).
  case_match; [|done]. injection H as <-. eapply is_suffix_trans; [by eapply word_consumes|].
  eapply is_suffix_trans; [apply skip_suffix | by eapply word_consumes].
Qed.

Create HintDb pattern discriminated.
#[local] Hint Resolve first_of_consumes in_order_consumes maybe_consumes many_consumes at_least_consumes key_block_consumes
  eat_consumes word_consumes : pattern.

Ltac consuming := repeat first [apply Forall_nil_2 | apply Forall_cons_2 | solve [auto with pattern] |
  apply first_of_consumes | apply in_order_consumes | apply maybe_consumes].

Lemma secret_value_consumes : consumes SECRET_VALUE.
Proof. unfold SECRET_VALUE, spaces1, sep. consuming. Qed.

Lemma suffix_has d t s : is_suffix t s -> has_char d s = false -> has_char d t = false.
Proof. intros [p ->]. rewrite has_app. by intros [_ ?]%orb_false_iff. Qed.

Lemma suffix_no_tag t s : is_suffix t s -> no_tag s -> no_tag t.
Proof. intros [p ->]. induction p as [|c p IH]; [done|]. rewrite sapp_cons. intros [_ ?]. auto. Qed.

Section replace_first.
Context (m : matcher) (lit : string) (Hm : consumes m).
Context (Hlit : has_char "<" lit = false) (Hlit' : has_char ">" lit = false).

Lemma replace_first_has s : has_char ">" s = false -> has_char ">" (replace_first m lit s) = false.
Proof using Hm Hlit'.
  induction s as [|c s IH]; intros Hs; cbn [replace_first].
  - destruct (m "") eqn:E; [|done]. rewrite has_app, Hlit'. eapply suffix_has; [by apply Hm | done].
  - destruct (m (String c s)) eqn:E.
    + rewrite has_app, Hlit'. eapply suffix_has; [by apply Hm | done].
    + cbn in *. apply orb_false_iff in Hs as [-> Hs]. auto.
Qed.

Lemma replace_first_plain s : no_tag s -> no_tag (replace_first m lit s).
Proof using Hm Hlit Hlit'.
  induction s as [|c s IH]; intros Hs; cbn [replace_first].
  - destruct (m "") eqn:E; [|done]. apply no_tag_app; [done|]. eapply suffix_no_tag; [by apply Hm | done].
  - destruct (m (String c s)) eqn:E.
    + apply no_tag_app; [done|]. eapply suffix_no_tag; [by apply Hm | done].
    + destruct Hs as [Hc Hs]. split; [|auto]. intros ->. apply replace_first_has. auto.
Qed.
End replace_first.

Lemma safe_text_plain v s : no_tag (safe_text_of v (sanitize s)).
Proof.
  unfold safe_text_of. destruct (v.2); try apply sanitize_plain; [|vm_compute; repeat split; discriminate].
  apply no_tag_app; [done|]. apply no_tag_app; [by destruct (v.1)|]. apply no_tag_app; [done|].
  eapply sub_no_tag; [apply slice_sub|]. case_bool_decide; [|apply sanitize_plain].
  apply replace_first_plain; [apply secret_value_consumes | done..|apply sanitize_plain].
Qed.

(** ** Contracts, field by field *)

Lemma guard_some {A} b (a x : A) : guard b a = Some x -> b = true /\ x = a.
Proof. destruct b; [by intros [= ->] | done]. Qed.

Lemma positiveInt_spec m a b : positiveIntSchema m a = Some b ->
  b = a /\ num_lt (num 0) a = true /\ exists q, a = Finite q /\ (q <= inject_Z m)%Q.
Proof.
  unfold positiveIntSchema, boundedIntSchema. destruct (num_lt (num 0) a) eqn:H0; [|done].
  destruct (isInteger a); [|done]. intros (-> & q & -> & _ & Hq)%boundedSchema_spec. split; [done|]. split; [done|]. by exists q.
Qed.

Lemma nullable_some {A} (p : A -> option A) o o' : nullable p o = Some o' ->
  match o, o' with None, None => True | Some a, Some b => p a = Some b | _, _ => False end.
Proof. destruct o as [a|]; simpl; [|by intros [= <-]]. intros (b & Hb & ->)%fmap_Some. done. Qed.

Section contracts.
Context {zod : Zod} {laws : ZodLaws zod}.

#[export] Instance safeKeySchema_idem : Idempotent safeKeySchema.
Proof using laws.
  intros s t H. unfold safeKeySchema in *. apply z_string_sound in H as [-> Hl]. rewrite trim_idem. by apply z_string_complete.
Qed.

Lemma safeKey_spec k k' : safeKeySchema k = Some k' -> k' = trim k.
Proof using laws. by intros [-> _]%z_string_sound. Qed.

#[export] Instance frameSchema_idem : Idempotent spatialEndpointTestFrameSchema.
Proof using laws.
  intros f g H. unfold spatialEndpointTestFrameSchema in *. inv_some. cbn in *. by repeat (erewrite idem by done; cbn).
Qed.

Lemma safeValue_spec v v' : safeValueSchema v = Some v' -> v' = v.
Proof using laws.
  destruct v; simpl; try done; try (by intros [= <-]).
  intros (t & Ht & ->)%fmap_Some. by apply z_string_sound in Ht as [-> _].
Qed.

(** A record whose names are trimmed and distinct parses to itself. *)
Lemma z_record_go_fixed m acc m' : Forall (fun kv => trim kv.1 = kv.1) m -> NoDup (jkeys (acc ++ m)) ->
  z_record_go safeKeySchema safeValueSchema m acc = Some m' -> m' = acc ++ m.
Proof using laws.
  revert acc. induction m as [|[k v] m IH]; cbn [z_record_go]; intros acc Hf Hd H; [injection H as <-; by rewrite app_nil_r|].
  apply Forall_cons in Hf as [Hk Hf]. change (trim k = k) in Hk.
  apply bind_Some in H as (k' & ->%safeKey_spec & H). apply bind_Some in H as (v' & ->%safeValue_spec & H). rewrite Hk in H.
  assert (jget k acc = None) as Hn.
  { apply jget_None. intros Hin. unfold jkeys in Hd. rewrite map_app in Hd. apply NoDup_app in Hd as (_ & Hd & _).
    apply (Hd k); [done|]. simpl. left. }
  rewrite jset_fresh in H by done. apply IH in H; [by rewrite <-app_assoc in H | done|]. by rewrite <-app_assoc.
Qed.

Lemma manifest_fields m m' : Forall (fun kv => trim kv.1 = kv.1) (mf_fields m) -> NoDup (jkeys (mf_fields m)) ->
  spatialRemoteContextManifestSchema m = Some m' -> mf_fields m' = mf_fields m.
Proof using laws.
  intros Hf Hd H. unfold spatialRemoteContextManifestSchema in H. inv_some. cbn.
  by match goal with Hr : z_record _ _ _ = Some _ |- _ => apply z_record_go_fixed in Hr end.
Qed.

Lemma provenance_fields p p' : spatialEndpointProvenanceSchema p = Some p' ->
  idSchema (provenance_id p') = Some (provenance_id p') /\ pv_request p' = trim <$> pv_request p /\
  validation_state p' = validation_state p.
Proof using laws.
  intros H. unfold spatialEndpointProvenanceSchema in H. inv_some. cbn. split; [by eapply idem|]. split; [|done].
  match goal with Hn : nullable idSchema (pv_request p) = Some _ |- _ => apply nullable_some in Hn end.
  repeat case_match; try done. simpl. by match goal with Hi : idSchema _ = Some ?x |- context [?x] => apply idSchema_spec in Hi as [-> _] end.
Qed.

(** What the request contract keeps of a request. *)
Lemma request_fields r r' : spatialRemoteRequestSchema r = Some r' ->
  idSchema (request_id r) = Some (request_id r') /\
  spatialRemoteContextManifestSchema (context_manifest r) = Some (context_manifest r') /\
  budgetSchema (resource_budget r) = Some (resource_budget r') /\
  (num_lt (num 0) (rq_timeout_ms r') = true /\ exists q, rq_timeout_ms r' = Finite q /\ (q <= inject_Z 86400000)%Q) /\
  rq_endpoint r' = trim (rq_endpoint r) /\ rq_endpoint_revision r' = rq_endpoint_revision r /\
  adapter_id r' = trim (adapter_id r) /\ rq_state r' = rq_state r.
Proof using laws.
  intros H. unfold spatialRemoteRequestSchema in H. inv_some. cbn. split_and!; try done.
  - match goal with Hp : positiveIntSchema _ _ = Some _ |- _ => by apply positiveInt_spec in Hp as (-> & ? & _) end.
  - match goal with Hp : positiveIntSchema _ _ = Some _ |- _ => by apply positiveInt_spec in Hp as (-> & _ & ?) end.
  - by match goal with Hi : idSchema (rq_endpoint r) = Some _ |- _ => apply idSchema_spec in Hi as [-> _] end.
  - match goal with Hi : revisionSchema (rq_endpoint_revision r) = Some _ |- _ => by apply z_nonneg_sound in Hi as [-> _] end.
  - by match goal with Hi : idSchema (adapter_id r) = Some _ |- _ => apply idSchema_spec in Hi as [-> _] end.
Qed.

Lemma result_fields r r' : spatialRemoteResultSchema r = Some r' ->
  idSchema (result_id r) = Some (result_id r') /\ rs_request r' = trim (rs_request r) /\
  rs_status r' = rs_status r /\ rs_classification r' = rs_classification r /\ safe_text r' = safe_text r /\
  spatialEndpointProvenanceSchema (rs_provenance r) = Some (rs_provenance r').
Proof using laws.
  intros H. unfold spatialRemoteResultSchema in H. inv_some. cbn. split_and!; try done.
  - by match goal with Hi : idSchema (rs_request r) = Some _ |- _ => apply idSchema_spec in Hi as [-> _] end.
  - match goal with Hn : nullable (textSchema _) _ = Some _ |- _ => apply nullable_some in Hn end.
    repeat case_match; try done.
    by match goal with Hg : textSchema _ _ = Some _ |- _ => apply guard_some in Hg as [_ ->] end.
Qed.

Lemma accounting_fields a a' : spatialResourceAccountingSchema a = Some a' ->
  idSchema (record_id a) = Some (record_id a') /\ ac_request a' = trim (ac_request a) /\
  ac_billing a' = ac_billing a /\ ac_charge a' = ac_charge a /\ ac_state a' = ac_state a /\
  input_units a' = input_units a /\ output_units a' = output_units a /\ measured_units a' = measured_units a.
Proof using laws.
  intros H. unfold spatialResourceAccountingSchema in H. inv_some. cbn. split_and!; try done.
  - by match goal with Hi : idSchema (ac_request a) = Some _ |- _ => apply idSchema_spec in Hi as [-> _] end.
  - by match goal with Hi : finiteSchema (input_units a) = Some _ |- _ => apply guard_some in Hi as [_ ->] end.
  - by match goal with Hi : finiteSchema (output_units a) = Some _ |- _ => apply guard_some in Hi as [_ ->] end.
  - match goal with Hn : nullable finiteSchema (measured_units a) = Some _ |- _ => apply nullable_some in Hn end.
    repeat case_match; try done.
    by match goal with Hg : finiteSchema _ = Some _ |- _ => apply guard_some in Hg as [_ ->] end.
Qed.
End contracts.

(** ** Minimal context *)

Lemma jkeys_trimmed {V} k (v : V) m : trim k = k -> Forall (fun kv : string * V => trim kv.1 = kv.1) m ->
  Forall (fun kv : string * V => trim kv.1 = kv.1) (jset k v m).
Proof.
  intros Hk Hm. apply Forall_forall. intros [k' v'] Hin. apply elem_jset_inv in Hin as [[-> ->]|Hin]; [done|].
  rewrite Forall_forall in Hm. by apply (Hm (k', v')).
Qed.

Lemma normalized_ok fields : Forall (fun kv => trim kv.1 = kv.1) (normalizedFields fields) /\ NoDup (jkeys (normalizedFields fields)).
Proof.
  unfold normalizedFields. set (l := filter _ _).
  assert (Forall (fun kv : string * json => trim kv.1 = kv.1) l) as Hl.
  { apply Forall_forall. intros kv [_ (kv' & -> & _)%list_elem_of_fmap]%list_elem_of_filter. apply trim_idem. }
  clearbody l. cut (forall m, Forall (fun kv : string * json => trim kv.1 = kv.1) m -> NoDup (jkeys m) ->
    Forall (fun kv => trim kv.1 = kv.1) (foldl (fun m kv => jset kv.1 kv.2 m) m l) /\
    NoDup (jkeys (foldl (fun m kv => jset kv.1 kv.2 m) m l))); [intros H; apply H; constructor|].
  induction Hl as [|[k v] l Hk Hl IH]; intros m Hm Hd; [done|]. cbn [foldl]. apply IH; [by apply jkeys_trimmed | by apply NoDup_jset].
Qed.

Lemma minimize_go (fields m : jsmap json) allowed k :
  jget k (foldl (fun m k => match jget k fields with Some v => jset k v m | None => m end) m allowed) =
  if bool_decide (k ∈ allowed) && bool_decide (is_Some (jget k fields)) then jget k fields else jget k m.
Proof.
  revert m. induction allowed as [|k0 allowed IH]; intros m; [done|]. cbn [foldl]. rewrite IH. clear IH.
  destruct (decide (k = k0)) as [->|Hk].
  - rewrite (bool_decide_eq_true_2 (k0 ∈ k0 :: allowed)) by set_solver. destruct (jget k0 fields) as [v|] eqn:Hv; cbn.
    + rewrite jget_jset_eq. by repeat case_match.
    + rewrite andb_false_r. done.
  - rewrite (bool_decide_ext (k ∈ k0 :: allowed) (k ∈ allowed)) by set_solver. case_match; [done|].
    destruct (jget k0 fields); [|done]. rewrite jget_jset. unfold str_eqb. by rewrite bool_decide_eq_false_2 by done.
Qed.

Lemma minimize_spec fields allowed k v : jget k (minimize fields allowed) = Some v <-> k ∈ allowed /\ jget k fields = Some v.
Proof.
  unfold minimize. rewrite minimize_go. cbn [jget]. destruct (jget k fields) as [w|] eqn:Hw; cbn; [|rewrite andb_false_r; naive_solver].
  rewrite andb_true_r. case_bool_decide; naive_solver.
Qed.

Lemma minimize_ok fields allowed : Forall (fun k => trim k = k) allowed ->
  Forall (fun kv => trim kv.1 = kv.1) (minimize fields allowed) /\ NoDup (jkeys (minimize fields allowed)).
Proof.
  unfold minimize. intros Hl. cut (forall m, Forall (fun kv : string * json => trim kv.1 = kv.1) m -> NoDup (jkeys m) ->
    let m' := foldl (fun m k => match jget k fields with Some v => jset k v m | None => m end) m allowed in
    Forall (fun kv => trim kv.1 = kv.1) m' /\ NoDup (jkeys m')); [intros H; apply H; constructor|].
  induction Hl as [|k l Hk Hl IH]; intros m Hm Hd; [done|]. cbn [foldl]. destruct (jget k fields); [|by apply IH].
  apply IH; [by apply jkeys_trimmed | by apply NoDup_jset].
Qed.

Lemma requested_trimmed fields l : Forall (fun k => trim k = k) (requestedFields (normalizedFields fields) l).
Proof.
  apply Forall_forall. intros k. destruct l as [l|]; simpl.
  - intros [_ (k' & -> & _)%list_elem_of_fmap]%list_elem_of_filter. apply trim_idem.
  - unfold jkeys. intros (kv & -> & Hin)%list_elem_of_fmap. pose proof (normalized_ok fields) as [H _].
    rewrite Forall_forall in H. by apply H.
Qed.

(** Which fields may cross: not secret, given, and allowed when a list of
    allowed fields is. *)
Definition may_cross (i : submit_input) (k : string) (v : json) : Prop :=
  is_secret_key k = false /\ jget k (normalizedFields (si_fields i)) = Some v /\
  (forall l, si_allowed i = Some l -> k <> "" /\ k ∈ map trim l).

Lemma minimized_fields i k v :
  jget k (minimize (normalizedFields (si_fields i))
            (filter (fun k => negb (is_secret_key k) = true) (requestedFields (normalizedFields (si_fields i)) (si_allowed i))))
    = Some v <-> may_cross i k v.
Proof.
  rewrite minimize_spec, list_elem_of_filter, negb_true_iff. unfold may_cross, requestedFields. destruct (si_allowed i) as [l|].
  - rewrite list_elem_of_filter, negb_true_iff. unfold str_eqb. rewrite bool_decide_eq_false. naive_solver.
  - split; [naive_solver|]. intros (? & Hv & _). split; [split; [done|]|done].
    unfold jkeys. apply list_elem_of_fmap. exists (k, v). split; [done|]. by apply jget_elem.
Qed.

(** ** Methods that only number and log *)

(** [s'] differs from [s] in its counter and its event log. *)
Definition quiet (s s' : mediation) : Prop := s' = set_events (eventLog s') (set_counter (counter s') s).

Lemma quiet_refl s : quiet s s.
Proof. by destruct s. Qed.

Lemma quiet_trans s1 s2 s3 : quiet s1 s2 -> quiet s2 s3 -> quiet s1 s3.
Proof. unfold quiet. intros -> ->. by destruct s1. Qed.

Definition Quiet {A} (m : method mediation med_error A) : Prop := forall s s' r, m s = (s', r) -> quiet s s'.

Lemma quiet_bind {A B} (m : method mediation med_error A) (f : A -> method mediation med_error B) :
  Quiet m -> (forall a, Quiet (f a)) -> Quiet (jbind m f).
Proof.
  intros Hm Hf s s' r H. unfold jbind in H. destruct (m s) as [s1 [a|e]] eqn:E.
  - eapply quiet_trans; [by eapply Hm | by eapply Hf].
  - injection H as <- <-. by eapply Hm.
Qed.

Lemma quiet_lift {A} (r : result med_error A) : Quiet (jlift r).
Proof. intros s s' r' [= <- _]. apply quiet_refl. Qed.
Lemma quiet_read : Quiet jread.
Proof. intros s s' r' [= <- _]. apply quiet_refl. Qed.
Lemma quiet_ret {A} (a : A) : Quiet (jret a).
Proof. intros s s' r' [= <- _]. apply quiet_refl. Qed.
Lemma quiet_safeId o n : Quiet (safeId o n).
Proof. intros s s' r [= <- _]. by destruct s. Qed.
Lemma quiet_event ty id rq now : Quiet (recordEvent ty id rq now).
Proof. intros s s' r H. unfold recordEvent in H. destruct now; injection H as <- _; [by destruct s | apply quiet_refl]. Qed.

#[local] Hint Resolve quiet_lift quiet_read quiet_ret quiet_safeId quiet_event : quiet.

Ltac quietly := repeat first [solve [auto with quiet] | apply quiet_bind | intros ? | case_match].

Section quiet.
Context {zod : Zod} (opts : options).

Lemma quiet_endpoint ref : Quiet (getEndpoint ref).
Proof. unfold getEndpoint. quietly. Qed.
Lemma quiet_frame id : Quiet (getFrame id).
Proof. unfold getFrame. quietly. Qed.
#[local] Hint Resolve quiet_endpoint quiet_frame : quiet.

Lemma quiet_provenance ref rq c now : Quiet (createProvenance opts ref rq c now).
Proof. unfold createProvenance. quietly. Qed.
Lemma quiet_manifest i now : Quiet (createContextManifest opts i now).
Proof. unfold createContextManifest. cbv zeta. quietly. Qed.
Lemma quiet_validate rq e r now : Quiet (validateRemoteResult opts rq e r now).
Proof. unfold validateRemoteResult. cbv zeta. quietly. Qed.
Lemma quiet_settle rq e n st now : Quiet (settleAccounting opts rq e n st now).
Proof. unfold settleAccounting. cbv zeta. quietly. Qed.
End quiet.
#[local] Hint Resolve quiet_endpoint quiet_frame quiet_provenance quiet_manifest quiet_validate quiet_settle : quiet.

(** ** The invariant of the service *)

Section service.
Context {zod : Zod} {laws : ZodLaws zod} (opts : options).

(** A recorded submission agrees with itself. *)
Record agrees (sb : submitted) : Prop := Agrees {
  ag_result : rs_request (sb_result sb) = request_id (sb_request sb);
  ag_account : ac_request (sb_accounting sb) = request_id (sb_request sb);
  ag_response : response_ref (sb_frame sb) = Some (result_id (sb_result sb));
  ag_accounting : accounting_ref (sb_frame sb) = Some (record_id (sb_accounting sb));
  ag_status : rs_status (sb_result sb) = VALID \/ rs_status (sb_result sb) = QUARANTINED \/ rs_status (sb_result sb) = INVALID;
  ag_complete : fm_state (sb_frame sb) = (if bool_decide (rs_status (sb_result sb) = VALID) then FS_COMPLETE else FS_INVALID_RESULT);
  ag_settled : ac_state (sb_accounting sb) = (if bool_decide (rs_status (sb_result sb) = VALID) then SETTLED else AC_FAILED);
  ag_text : exists t, safe_text (sb_result sb) = Some t /\ no_tag t;
  ag_free : bg_policy (resource_budget (sb_request sb)) <> METERED ->
    ac_charge (sb_accounting sb) = NO_CHARGE /\ ac_billing (sb_accounting sb) = FREE /\
    measured_units (sb_accounting sb) = Some (num 0) /\
    input_units (sb_accounting sb) = num 0 /\ output_units (sb_accounting sb) = num 0;
}.

Definition frame_ok (m : jsmap frame) (k : string) (f : frame) : Prop :=
  spatialEndpointTestFrameSchema f = Some f /\ frame_id f = trim k /\ is_Some (jget (trim k) m).

Record med_wf (s : mediation) : Prop := MedWf {
  wf_endpoints : jall (fun k e => ed_ref e = k /\ trim k = k) (endpoints s);
  wf_frames : jall (frame_ok (frames s)) (frames s);
  wf_submitted : jall (fun _ => agrees) (idempotent s);
}.

(** A suspended submission whose frame is there. *)
Record pending_ok (s : mediation) (p : pending) : Prop := PendingOk {
  po_request : idSchema (request_id (pd_request p)) = Some (request_id (pd_request p));
  po_key : trim (pd_frame p) = pd_frame p;
  po_frame : is_Some (jget (pd_frame p) (frames s));
  po_timer : num_lt (num 0) (rq_timeout_ms (pd_request p)) = true /\
    exists q, rq_timeout_ms (pd_request p) = Finite q /\ (q <= inject_Z 86400000)%Q;
}.

(** A method keeps the invariant and loses no frame. *)
Definition keeps (s s' : mediation) : Prop :=
  med_wf s -> med_wf s' /\ forall k, is_Some (jget k (frames s)) -> is_Some (jget k (frames s')).

Lemma keeps_trans s1 s2 s3 : keeps s1 s2 -> keeps s2 s3 -> keeps s1 s3.
Proof. intros H1 H2 Hw. destruct (H1 Hw) as [Hw2 Hf]. destruct (H2 Hw2) as [Hw3 Hf']. split; auto. Qed.

Lemma keeps_quiet s s' : quiet s s' -> keeps s s'.
Proof. intros ->. intros [He Hf Hs]. split; [by split|]. auto. Qed.

Lemma keeps_pending s s' p : med_wf s -> keeps s s' -> pending_ok s p -> pending_ok s' p.
Proof. intros Hw Hk [H1 H2 H3 H4]. destruct (Hk Hw) as [_ Hf]. split; auto. Qed.

(** [m] keeps the invariant and what it returns satisfies [P]. *)
Definition Spec {A} (m : method mediation med_error A) (P : A -> Prop) : Prop :=
  forall s s' r, m s = (s', r) -> keeps s s' /\ forall a, r = Ok a -> P a.

Lemma spec_bind {A B} (m : method mediation med_error A) (f : A -> method mediation med_error B) P Q :
  Spec m P -> (forall a, P a -> Spec (f a) Q) -> Spec (jbind m f) Q.
Proof.
  intros Hm Hf s s' r H. unfold jbind in H. destruct (m s) as [s1 [a|e]] eqn:E.
  - destruct (Hm _ _ _ E) as [Hk Ha]. destruct (Hf a (Ha a eq_refl) _ _ _ H) as [Hk' Hb]. split; [by eapply keeps_trans | done].
  - injection H as <- <-. destruct (Hm _ _ _ E) as [Hk _]. by split.
Qed.

Lemma spec_quiet {A} (m : method mediation med_error A) P : Quiet m -> (forall s s' a, m s = (s', Ok a) -> P a) -> Spec m P.
Proof. intros Hm Hp s s' r H. split; [by eapply keeps_quiet, Hm|]. intros a ->. by eapply Hp. Qed.

Lemma spec_weaken {A} (m : method mediation med_error A) (P Q : A -> Prop) : Spec m P -> (forall a, P a -> Q a) -> Spec m Q.
Proof. intros Hm HPQ s s' r H. destruct (Hm _ _ _ H) as [Hk Ha]. split; [done|]. auto. Qed.

Lemma spec_quiet_any {A} (m : method mediation med_error A) : Quiet m -> Spec m (fun _ => True).
Proof. intros Hm. by apply spec_quiet. Qed.

Lemma spec_lift {A} (r : result med_error A) : Spec (jlift r) (fun a => r = Ok a).
Proof. apply spec_quiet; [apply quiet_lift|]. by intros s s' a [= _ ->]. Qed.

Lemma spec_ret {A} (a : A) (P : A -> Prop) : P a -> Spec (jret a) P.
Proof. intros Ha. apply spec_quiet; [apply quiet_ret|]. by intros s s' b [= _ <-]. Qed.

(** A read followed by a write of the state it read. *)
Lemma spec_write {B} (f : mediation -> mediation) (k : method mediation med_error B) P :
  (forall s, keeps s (f s)) -> Spec k P -> Spec (let! s := jread in jwrite (f s) ;! k) P.
Proof.
  intros Hf Hk s s' r H. unfold jbind, jread, jwrite in H. destruct (Hk _ _ _ H) as [H1 H2]. split; [|done].
  eapply keeps_trans; [apply Hf | done].
Qed.

(** A write that leaves endpoints, frames and recorded submissions alone. *)
Lemma keeps_others s s' : endpoints s' = endpoints s -> frames s' = frames s -> idempotent s' = idempotent s -> keeps s s'.
Proof. intros E1 E2 E3 [He Hr Hs]. split; [split|]; rewrite ?E1, ?E2, ?E3; auto. Qed.

Lemma keeps_submitted k sb s : agrees sb -> keeps s (set_idempotent (jset k sb (idempotent s)) s).
Proof. intros Ha [He Hf Hs]. split; [|auto]. split; [done..|]. by apply jall_jset. Qed.

Lemma keeps_frame k f s : spatialEndpointTestFrameSchema f = Some f -> frame_id f = trim k ->
  is_Some (jget (trim k) (jset k f (frames s))) -> keeps s (set_frames (jset k f (frames s)) s).
Proof.
  intros Hf Hid Hk [He Hr Hs]. split; [|intros k' Hk'; by apply jget_jset_is_Some]. split; [done| |done].
  apply jall_jset; [done|]. intros k' f' Hf'. destruct (Hr _ _ Hf') as (? & ? & ?). split; [done|]. split; [done|].
  by apply jget_jset_is_Some.
Qed.

(** ** Each method *)

Lemma frame_fields f g : spatialEndpointTestFrameSchema f = Some g ->
  frame_id g = trim (frame_id f) /\ fm_state g = fm_state f /\
  nullable idSchema (response_ref f) = Some (response_ref g) /\ nullable idSchema (accounting_ref f) = Some (accounting_ref g) /\
  nullable idSchema (submit_intent_ref f) = Some (submit_intent_ref g).
Proof using laws.
  intros H. unfold spatialEndpointTestFrameSchema in H. inv_some. cbn. split_and!; try done.
  by match goal with Hi : idSchema (frame_id f) = Some _ |- _ => apply idSchema_spec in Hi as [-> _] end.
Qed.

(** What [updateFrame] stores is the patch of a frame, parsed. *)
Lemma spec_update id patch now : (forall f, frame_id (patch f) = frame_id f) ->
  Spec (updateFrame id patch now) (fun g => exists f, frame_id g = trim (frame_id f) /\ fm_state g = fm_state (patch f) /\
    nullable idSchema (response_ref (patch f)) = Some (response_ref g) /\
    nullable idSchema (accounting_ref (patch f)) = Some (accounting_ref g) /\
    nullable idSchema (submit_intent_ref (patch f)) = Some (submit_intent_ref g)).
Proof using laws.
  intros Hp s s' r H. unfold updateFrame in H. unfold jbind at 1 in H. unfold getFrame, jbind, jread, jlift, of_option in H.
  destruct (jget (trim id) (frames s)) as [f|] eqn:Hget; [|injection H as <- <-; split; [by apply keeps_quiet, quiet_refl | done]].
  unfold med_now, of_option in H. destruct now as [t|]; [|injection H as <- <-; split; [by apply keeps_quiet, quiet_refl | done]].
  destruct (spatialEndpointTestFrameSchema _) as [g|] eqn:Hg in H; [|injection H as <- <-; split; [by apply keeps_quiet, quiet_refl | done]].
  injection H as <- <-. pose proof (frame_fields _ _ Hg) as (Hid & Hst & Hr & Ha & Hs).
  cbn [frame_id fm_state response_ref accounting_ref submit_intent_ref] in Hid, Hst, Hr, Ha, Hs.
  split; [|intros a [= <-]; exists f; rewrite Hid, Hp; done].
  intros Hw. destruct (wf_frames _ Hw _ _ Hget) as (_ & Hfid & _).
  eapply keeps_trans; [apply (keeps_frame id g s)|apply keeps_others|exact Hw]; try done.
  - by eapply idem.
  - by rewrite Hid, Hp, Hfid, !trim_idem.
  - apply jget_jset_is_Some. by exists f.
Qed.

(** What the validator hands on, and the verdict it is based on. *)
Lemma validate_ok rq e r now s s' res : validateRemoteResult opts rq e r now s = (s', Ok res) ->
  exists raw, rawText (rp_payload r) = Ok raw /\
    let v := classify opts e r (before_semicolon (to_lower (trim (rp_content_type r)))) raw (sanitize raw)
               (response_size r (sanitize raw)) in
    rs_status res = v.2 /\ rs_classification res = v.1 /\ safe_text res = Some (safe_text_of v (sanitize raw)) /\
    rs_request res = trim (request_id rq) /\ idSchema (result_id res) = Some (result_id res).
Proof using laws.
  unfold validateRemoteResult. intros H. cbv zeta in H.
  apply jbind_ok in H as (s1 & raw & [= <- Hraw] & H). exists raw. split; [done|].
  apply jbind_ok in H as (s2 & t & _ & H). apply jbind_ok in H as (s3 & id & _ & H).
  injection H as _ H. apply of_option_ok, result_fields in H as (Hid & Hrq & Hst & Hcl & Htx & _).
  cbn [rs_request rs_status rs_classification safe_text result_id] in *. split_and!; try done. by eapply idem.
Qed.

Definition verdicts (st : validation_status) : Prop := st = VALID \/ st = QUARANTINED \/ st = INVALID.

Lemma classify_verdicts e r ct raw text size : verdicts (classify opts e r ct raw text size).2.
Proof. unfold classify, verdicts. repeat case_match; simpl; auto. Qed.

Lemma spec_validate rq e r now : Spec (validateRemoteResult opts rq e r now) (fun res =>
  rs_request res = trim (request_id rq) /\ idSchema (result_id res) = Some (result_id res) /\ verdicts (rs_status res) /\
  exists t, safe_text res = Some t /\ no_tag t).
Proof using laws.
  apply spec_quiet; [apply quiet_validate|]. intros s s' res H.
  apply validate_ok in H as (raw & _ & Hst & _ & Htx & Hrq & Hid). rewrite Hst, Htx. split_and!; try done.
  - apply classify_verdicts.
  - eexists. split; [done | apply safe_text_plain].
Qed.

(** A free request is charged nothing. *)
Definition charged (rq : request) (a : accounting) : Prop :=
  bg_policy (resource_budget rq) <> METERED ->
  ac_charge a = NO_CHARGE /\ ac_billing a = FREE /\ measured_units a = Some (num 0) /\ input_units a = num 0 /\ output_units a = num 0.

Lemma spec_settle rq e n st now : Spec (settleAccounting opts rq e n st now) (fun a =>
  ac_request a = request_id rq /\ ac_state a = st /\ charged rq a).
Proof.
  apply spec_quiet; [apply quiet_settle|]. intros s s' a H. unfold settleAccounting in H. cbv zeta in H.
  apply jbind_ok in H as (s1 & t & _ & H). apply jbind_ok in H as (s2 & id & _ & H). injection H as _ <-.
  split_and!; [done..|]. intros Hp. cbn. rewrite bool_decide_eq_false_2 by done. done.
Qed.

Lemma charged_parsed rq a a' : charged rq a -> spatialResourceAccountingSchema a = Some a' -> charged rq a'.
Proof using laws.
  intros Ha H Hp. apply accounting_fields in H as (_ & _ & -> & -> & _ & -> & -> & ->). destruct (Ha Hp) as (? & ? & ? & ? & ?). done.
Qed.

Lemma spec_event ty id rq now : Spec (recordEvent ty id rq now) (fun _ => True).
Proof. apply spec_quiet_any, quiet_event. Qed.

Lemma frame_id_refs st a b c d f : frame_id (with_refs st a b c d f) = frame_id f.
Proof. done. Qed.

Lemma spec_body p out now : idSchema (request_id (pd_request p)) = Some (request_id (pd_request p)) ->
  Spec (settle_body opts p out now) agrees.
Proof using laws.
  intros Hreq. destruct out as [r|[c|]|]; cbn [settle_body].
  - eapply spec_bind; [apply spec_quiet_any, quiet_read|]. intros s0 _.
    eapply spec_bind; [apply spec_lift|]. intros [] _.
    eapply spec_bind; [apply spec_validate|]. intros res (Hrq & Hid & Hv & Htx).
    apply spec_write; [intros s; by apply keeps_others|].
    eapply spec_bind; [apply spec_event|]. intros _ _.
    eapply spec_bind; [apply spec_lift|]. intros text _. cbv zeta.
    eapply spec_bind; [apply spec_settle|]. intros a (Hac & Hst & Hch).
    eapply spec_bind; [apply spec_lift|]. intros ac Hacc%of_option_ok.
    pose proof (accounting_fields _ _ Hacc) as (Hid' & Hac' & _ & _ & Hst' & _).
    apply spec_write; [intros s; by apply keeps_others|].
    eapply spec_bind; [apply spec_event|]. intros _ _.
    eapply spec_bind; [apply spec_update; intros; apply frame_id_refs|]. intros g (f & Hg & Hgst & Hgr & Hga & _).
    assert (agrees (Submitted (pd_request p) res ac g)) as Hag.
    { pose proof (idSchema_spec _ _ Hreq) as [Htrim _].
      cbn [with_refs response_ref accounting_ref fm_state nullable] in *. rewrite Hid in Hgr. simpl in Hgr.
      rewrite (idem (p := idSchema) _ _ Hid') in Hga. simpl in Hga.
      split; cbn [sb_request sb_result sb_accounting sb_frame]; try congruence; [done| | |].
      - rewrite Hgst. by destruct Hv as [-> | [-> | ->]].
      - rewrite Hst', Hst. by destruct Hv as [-> | [-> | ->]].
      - by apply (charged_parsed _ a). }
    apply spec_write; [intros s; by apply keeps_submitted | by apply spec_ret].
  - apply spec_quiet; [apply quiet_lift|]. done.
  - apply spec_quiet; [apply quiet_lift|]. done.
  - apply spec_write; [intros s; by apply keeps_others | by apply spec_quiet; [apply quiet_lift|]].
Qed.

Lemma spec_settle_all p out now : idSchema (request_id (pd_request p)) = Some (request_id (pd_request p)) ->
  Spec (submit_settle opts p out now) agrees.
Proof using laws.
  intros Hreq s s' r H. unfold submit_settle, jfinally, jcatch in H.
  destruct (settle_body opts p out now s) as [s1 r1] eqn:Hb. destruct (spec_body p out now Hreq _ _ _ Hb) as [Hk Ha].
  assert (forall x, keeps x (settle_finally p x)) as Hfin by (intros x; by apply keeps_others).
  destruct r1 as [sb|e].
  - injection H as <- <-. split; [by eapply keeps_trans|]. intros a [= <-]. by apply Ha.
  - destruct (settle_catch p now e s1) as [s2 r2] eqn:Hc. injection H as <- <-.
    assert (Spec (settle_catch p now e) agrees) as Hsc.
    { unfold settle_catch. eapply spec_bind; [apply spec_quiet_any, quiet_read|]. intros x _. cbv zeta.
      eapply spec_bind; [apply spec_update; intros; apply frame_id_refs|]. intros _ _. apply spec_quiet; [apply quiet_lift | done]. }
    destruct (Hsc _ _ _ Hc) as [Hk2 Ha2]. split; [|done]. eapply keeps_trans; [exact Hk|]. by eapply keeps_trans.
Qed.

Lemma spec_frame id ref rev now : Spec (createEndpointTestFrame opts id ref rev now) (fun _ => True).
Proof using laws.
  unfold createEndpointTestFrame.
  eapply spec_bind; [apply spec_quiet_any, quiet_endpoint|]. intros e _.
  eapply spec_bind; [apply spec_lift|]. intros [] _. eapply spec_bind; [apply spec_lift|]. intros t _.
  eapply spec_bind; [apply spec_quiet_any; destruct id; quietly|]. intros fid _.
  eapply spec_bind; [apply spec_lift|]. intros f Hf%of_option_ok.
  pose proof (frame_fields _ _ Hf) as (Hid & _). cbn [frame_id] in Hid.
  apply spec_write; [|eapply spec_bind; [apply spec_event|]; intros _ _; by apply spec_ret].
  intros s. apply keeps_frame; [by eapply idem | by rewrite Hid, trim_idem|].
  rewrite Hid, trim_idem, jget_jset_eq. by eexists.
Qed.

Lemma spec_register d allowed now : Spec (registerEndpoint opts d allowed now) (fun _ => True).
Proof using laws.
  unfold registerEndpoint.
  eapply spec_bind; [apply spec_lift|]. intros e He%of_option_ok.
  eapply spec_bind; [apply spec_lift|]. intros [] _. eapply spec_bind; [apply spec_lift|]. intros [] _.
  eapply spec_bind; [apply spec_quiet_any, quiet_read|]. intros s0 _. eapply spec_bind; [apply spec_lift|]. intros [] _.
  eapply (spec_bind _ _ (fun _ => True)).
  { intros s s' r H. apply jzoom_inv in H as (g & [a|err] & _ & -> & ->);
      (split; [by apply keeps_others | done]). }
  intros _ _. apply spec_write; [|by apply spec_ret].
  intros s [He' Hf Hs]. split; [|by auto]. split; [|done..]. apply jall_jset; [|done].
  unfold spatialEndpointDetailsSchema in He. inv_some. cbn [ed_ref]. split; [done|].
  match goal with Hi : idSchema (ed_ref d) = Some _ |- _ => apply idSchema_spec in Hi as [-> _] end. apply trim_idem.
Qed.

Lemma spec_cancel id now : Spec (cancelEndpointTest id now) (fun _ => True).
Proof using laws.
  unfold cancelEndpointTest. eapply spec_bind; [apply spec_quiet_any, quiet_frame|]. intros f _.
  eapply (spec_bind _ _ (fun _ => True)).
  - destruct (submit_intent_ref f) as [rid|]; [|by apply spec_ret]. destruct (str_eqb rid ""); [by apply spec_ret|].
    intros s s' r [= <- _]. split; [by apply keeps_others | done].
  - intros _ _. eapply spec_weaken; [apply spec_update; intros; apply frame_id_refs | done].
Qed.

(** A suspended submission is well formed where it starts. *)
Lemma spec_begin i now s s' r : submit_begin opts i now s = (s', r) ->
  keeps s s' /\ forall p, med_wf s -> r = Ok (inr p) -> pending_ok s' p.
Proof using laws.
  unfold submit_begin. intros H. unfold jbind at 1 in H.
  destruct (getFrame (si_frame i) s) as [s1 [f|e]] eqn:Hf; [|injection H as <- <-; split; [eapply keeps_quiet, quiet_frame; exact Hf | done]].
  unfold getFrame, jbind, jread, jlift in Hf. injection Hf as <- Hf%of_option_ok.
  unfold jbind at 1 in H. destruct (getEndpoint (fm_endpoint f) s) as [s1 [e|e]] eqn:He;
    [|injection H as <- <-; split; [eapply keeps_quiet, quiet_endpoint; exact He | done]].
  unfold getEndpoint, jbind, jread, jlift in He. injection He as <- He%of_option_ok.
  unfold jbind at 1, jread in H. destruct (jget (key_of i f) (idempotent s)); [injection H as <- <-; split; [apply keeps_quiet, quiet_refl | done]|].
  assert (Spec (submit_request opts i f e (key_of i f) now) (fun p =>
    idSchema (request_id (pd_request p)) = Some (request_id (pd_request p)) /\ pd_frame p = frame_id f /\
    (num_lt (num 0) (rq_timeout_ms (pd_request p)) = true /\
     exists q, rq_timeout_ms (pd_request p) = Finite q /\ (q <= inject_Z 86400000)%Q))) as Hsub.
  { unfold submit_request. cbv zeta. eapply spec_bind; [apply spec_quiet_any, quiet_safeId|]. intros rid _.
    eapply spec_bind; [apply spec_lift|]. intros [] _. eapply spec_bind; [apply spec_quiet_any, quiet_manifest|]. intros m _.
    eapply spec_bind; [apply spec_quiet_any, quiet_read|]. intros sx _. eapply spec_bind; [apply spec_lift|]. intros ad _.
    eapply spec_bind; [apply spec_quiet_any, quiet_safeId|]. intros c _.
    eapply spec_bind; [apply spec_quiet_any, quiet_provenance|]. intros prov _.
    eapply spec_bind; [apply spec_lift|]. intros t _. eapply spec_bind; [apply spec_lift|]. intros rq Hrq%of_option_ok.
    apply request_fields in Hrq as (Hid & _ & _ & Htm & _).
    apply spec_write; [intros x; by apply keeps_others|].
    eapply spec_bind; [apply spec_update; intros; apply frame_id_refs|]. intros _ _.
    eapply spec_bind; [apply spec_event|]. intros _ _ x x' rx [= <- <-]. split; [by apply keeps_others|].
    intros a [= <-]. split; [by eapply idem|]. done. }
  unfold jbind at 1, jlift in H. destruct (submit_guards f e s) as [[]|err]; [|injection H as <- <-; split; [apply keeps_quiet, quiet_refl | done]].
  unfold jbind at 1 in H. destruct (submit_request opts i f e (key_of i f) now s) as [s2 [p|err]] eqn:Hp.
  - injection H as <- <-. destruct (Hsub _ _ _ Hp) as [Hk Hpp]. split; [done|]. intros p' Hw [= <-].
    destruct (Hpp p eq_refl) as (Hreq & Hfr & Htm). destruct (wf_frames _ Hw _ _ Hf) as (_ & Hfid & Hex).
    destruct (Hk Hw) as [_ Hmono]. split; [done| | |done]; rewrite Hfr, Hfid; [apply trim_idem | by apply Hmono].
  - injection H as <- <-. destruct (Hsub _ _ _ Hp) as [Hk _]. by split.
Qed.

(** ** Histories *)

(** A service with its suspended submissions: the calls of its clients, the
    calls of others on the registry it shares, and the races that end. *)
Inductive med_step : mediation * list pending -> mediation * list pending -> Prop :=
| ms_adapter a s s' r ps : registerAdapter a s = (s', r) -> med_step (s, ps) (s', ps)
| ms_register d allowed now s s' r ps : registerEndpoint opts d allowed now s = (s', r) -> med_step (s, ps) (s', ps)
| ms_registry g s ps : med_step (s, ps) (set_registry g s, ps)
| ms_revoke ref s ps : med_step (s, ps) (revokeEndpoint ref s, ps)
| ms_provenance ref rq c now s s' r ps : createProvenance opts ref rq c now s = (s', r) -> med_step (s, ps) (s', ps)
| ms_manifest i now s s' r ps : createContextManifest opts i now s = (s', r) -> med_step (s, ps) (s', ps)
| ms_frame id ref rev now s s' r ps : createEndpointTestFrame opts id ref rev now s = (s', r) -> med_step (s, ps) (s', ps)
| ms_validate rq e resp now s s' r ps : validateRemoteResult opts rq e resp now s = (s', r) -> med_step (s, ps) (s', ps)
| ms_cancel id now s s' r ps : cancelEndpointTest id now s = (s', r) -> med_step (s, ps) (s', ps)
| ms_begin i now s s' r ps : submit_begin opts i now s = (s', r) ->
    med_step (s, ps) (s', match r with Ok (inr p) => p :: ps | _ => ps end)
| ms_settle p out now s s' r ps ps' : submit_settle opts p out now s = (s', r) -> med_step (s, ps ++ p :: ps') (s', ps ++ ps').

Definition med_init (s : mediation) : Prop := exists g ads, new_mediation opts g ads = (s, Ok tt).

Definition med_inv (c : mediation * list pending) : Prop := med_wf c.1 /\ Forall (pending_ok c.1) c.2.

Lemma spec_adapter a : Spec (registerAdapter a) (fun _ => True).
Proof.
  unfold registerAdapter. eapply spec_bind; [apply spec_lift|]. intros [] _ s s' r [= <- _]. split; [by apply keeps_others | done].
Qed.

Lemma med_init_inv s : med_init s -> med_inv (s, []).
Proof.
  intros (g & ads & H). unfold new_mediation in H. destruct (str_eqb _ _); [done|].
  assert (forall l x x' r, med_wf x -> jforeach registerAdapter l x = (x', r) -> med_wf x') as Hall.
  { induction l as [|a l IH]; intros x x' r Hx Hr; cbn [jforeach] in Hr; [by injection Hr as <- _|].
    unfold jbind in Hr. destruct (registerAdapter a x) as [y [[]|err]] eqn:Ha;
      destruct (spec_adapter _ _ _ _ Ha) as [Hk _]; destruct (Hk Hx) as [Hy _]; [by eapply IH | by injection Hr as <- _]. }
  split; [eapply Hall; [|exact H] | constructor]. by split.
Qed.

Lemma inv_keeps s s' ps : med_inv (s, ps) -> keeps s s' -> med_inv (s', ps).
Proof.
  intros [Hw Hp] Hk. destruct (Hk Hw) as [Hw' _]. split; [done|]. eapply Forall_impl; [exact Hp|]. intros p. by apply keeps_pending.
Qed.

Lemma med_inv_step c c' : med_step c c' -> med_inv c -> med_inv c'.
Proof using laws.
  intros Hst Hinv. destruct Hst.
  1-9: (eapply inv_keeps; [exact Hinv|]).
  - by eapply spec_adapter.
  - by eapply spec_register.
  - by apply keeps_others.
  - intros [He Hf Hs]. split; [by split | done].
  - by eapply keeps_quiet, quiet_provenance.
  - by eapply keeps_quiet, quiet_manifest.
  - by eapply spec_frame.
  - by eapply keeps_quiet, quiet_validate.
  - by eapply spec_cancel.
  - destruct (spec_begin _ _ _ _ _ H) as [Hk Hp]. pose proof (inv_keeps _ _ _ Hinv Hk) as [Hw' Hps].
    destruct r as [[?|p]|]; split; try done. constructor; [|done]. apply Hp; [apply Hinv | done].
  - destruct Hinv as [Hw Hps]. apply Forall_app in Hps as [H1 [Hp H2]%Forall_cons].
    destruct (spec_settle_all p out now (po_request _ _ Hp) _ _ _ H) as [Hk _].
    eapply inv_keeps; [|exact Hk]. split; [done|]. apply Forall_app. by split.
Qed.

Lemma med_inv_reachable s0 c : med_init s0 -> rtc med_step (s0, []) c -> med_inv c.
Proof using laws.
  intros H0 Hs. apply med_init_inv in H0. induction Hs; [done|]. by eapply IHHs, med_inv_step.
Qed.

(** ** The theorems *)

(** Every recorded submission agrees with itself, in every history: its
    result, accounting record and frame name each other, the frame is complete
    and the account settled exactly when the result is valid, the text carries no
    tag, and a submission that is not metered is charged nothing. *)
Theorem submissions_agree s0 s ps k sb :
  med_init s0 -> rtc med_step (s0, []) (s, ps) -> jget k (idempotent s) = Some sb -> agrees sb.
Proof using laws. intros H0 Hs Hk. apply (wf_submitted _ (proj1 (med_inv_reachable _ _ H0 Hs)) _ _ Hk). Qed.

Lemma update_stores id patch now s s' g : updateFrame id patch now s = (s', Ok g) -> jget id (frames s') = Some g.
Proof.
  unfold updateFrame. intros H. apply jbind_ok in H as (s1 & f & _ & H). apply jbind_ok in H as (s2 & t & _ & H). cbv zeta in H.
  apply jbind_ok in H as (s3 & g' & _ & H). apply jbind_ok in H as (s4 & s5 & [= <- <-] & H).
  apply jbind_ok in H as (s5 & [] & [= <-] & H). apply jbind_ok in H as (s6 & [] & Hev & [= <- <-]).
  pose proof (quiet_event _ _ _ _ _ _ _ Hev) as ->. apply jget_jset_eq.
Qed.

(** Changing the state of a stored frame is always accepted. *)
Lemma state_patch_parses f st t : spatialEndpointTestFrameSchema f = Some f ->
  is_Some (spatialEndpointTestFrameSchema (Frame (frame_id f) (fm_workspace f) (fm_node f) (fm_endpoint f) (fm_capability f)
    (input_schema f) (input_value_ref f) (submit_intent_ref f) (response_ref f) (accounting_ref f) st (source_revision f)
    (provenance_ref f) (fm_created_at f) t)).
Proof.
  intros H. unfold spatialEndpointTestFrameSchema, timestampSchema in *.
  cbn [frame_id fm_workspace fm_node fm_endpoint fm_capability input_schema input_value_ref submit_intent_ref response_ref
    accounting_ref fm_state source_revision provenance_ref fm_created_at fm_updated_at].
  repeat match goal with
  | H : base.mbind _ _ = Some _ |- _ =>
      let E := fresh "E" in apply bind_Some in H as (? & E & H); rewrite ?E; cbn [mbind option_bind]
  end. by eexists.
Qed.

(** The frame [updateFrame] stores, before it is parsed. *)
Definition touched (f : frame) (t : iso) : frame :=
  Frame (frame_id f) (fm_workspace f) (fm_node f) (fm_endpoint f) (fm_capability f) (input_schema f) (input_value_ref f)
    (submit_intent_ref f) (response_ref f) (accounting_ref f) (fm_state f) (source_revision f) (provenance_ref f)
    (fm_created_at f) t.

Lemma update_runs s id patch t f g :
  jget (trim id) (frames s) = Some f -> spatialEndpointTestFrameSchema (touched (patch f) t) = Some g ->
  updateFrame id patch (Some t) s =
    (set_events (eventLog s ++ [MedEvent EV_FRAME id (submit_intent_ref g) t]) (set_frames (jset id g (frames s)) s), Ok g).
Proof.
  intros Hf Hg. unfold updateFrame, getFrame, recordEvent, jbind, jread, jlift, jwrite, jret. rewrite Hf.
  cbn [of_option med_now]. unfold touched in Hg. by rewrite Hg.
Qed.

Lemma update_succeeds s id st t : med_wf s -> trim id = id -> is_Some (jget id (frames s)) ->
  exists s' g, updateFrame id (with_refs st None None None None) (Some t) s = (s', Ok g) /\
    jget id (frames s') = Some g /\ fm_state g = st /\ md_controllers s' = md_controllers s.
Proof using laws.
  intros Hw Hid [f Hf]. destruct (wf_frames _ Hw _ _ Hf) as (Hp & _ & _). apply (state_patch_parses f st t) in Hp as [g Hg].
  assert (spatialEndpointTestFrameSchema (touched (with_refs st None None None None f) t) = Some g) as Hg' by exact Hg.
  rewrite <-Hid in Hf. do 2 eexists. split; [by apply (update_runs _ _ _ _ _ _ Hf Hg')|].
  split; [apply jget_jset_eq|]. split; [|done]. by apply frame_fields in Hg as (_ & -> & _).
Qed.

Lemma body_stores p r now s s' sb : settle_body opts p (Resolved r) now s = (s', Ok sb) ->
  jget (pd_frame p) (frames s') = Some (sb_frame sb).
Proof.
  cbn [settle_body]. intros H. do 12 (apply jbind_ok in H as (? & ? & _ & H); cbv zeta in H).
  apply jbind_ok in H as (y & g & Hu & H). apply jbind_ok in H as (y' & z & [= <- <-] & H).
  apply jbind_ok in H as (y' & [] & [= <-] & [= <- <-]). by apply update_stores in Hu.
Qed.

Definition ended (s : mediation) (p : pending) : Prop :=
  jget (pd_id p) (md_controllers s) = None /\
  exists f, jget (pd_frame p) (frames s) = Some f /\ in_flight (fm_state f) = false.

(** C14. Every suspended submission ends: its timer is set to a positive time of
    at most a day, and whatever ends the race, the response, a rejection or the
    timer, the submission leaves no controller and its frame is no longer in
    flight. *)
Theorem every_submission_ends s0 s ps p out t s' r :
  med_init s0 -> rtc med_step (s0, []) (s, ps) -> p ∈ ps -> submit_settle opts p out (Some t) s = (s', r) ->
  (num_lt (num 0) (rq_timeout_ms (pd_request p)) = true /\
   exists q, rq_timeout_ms (pd_request p) = Finite q /\ (q <= inject_Z 86400000)%Q) /\ ended s' p.
Proof using laws.
  intros H0 Hs Hp H. pose proof (med_inv_reachable _ _ H0 Hs) as [Hw Hps]. cbn [fst snd] in *.
  rewrite Forall_forall in Hps. destruct (Hps _ Hp) as [Hreq Hkey Hfr Htm]. split; [done|].
  unfold submit_settle, jfinally, jcatch in H. destruct (settle_body opts p out (Some t) s) as [s1 r1] eqn:Hb.
  destruct (spec_body p out (Some t) Hreq _ _ _ Hb) as [Hk Ha]. destruct (Hk Hw) as [Hw1 Hf1].
  assert (forall x, jget (pd_id p) (md_controllers (settle_finally p x)) = None) as Hgone.
  { intros x. cbn. rewrite jget_jdelete. unfold str_eqb. by rewrite bool_decide_eq_true_2. }
  destruct r1 as [sb|e].
  - injection H as <- <-. split; [done|]. exists (sb_frame sb). split.
    + destruct out as [resp|[]|]; [by apply body_stores in Hb | done..].
    + rewrite (ag_complete _ (Ha _ eq_refl)). by case_bool_decide.
  - unfold settle_catch in H. unfold jbind at 1, jread in H. cbv zeta in H.
    destruct (update_succeeds s1 (pd_frame p) (failed_state (mediation_error p e s1)) t Hw1 Hkey (Hf1 _ Hfr))
      as (s2 & g & Hu & Hg & Hst & _).
    unfold jbind at 1 in H. rewrite Hu in H. injection H as <- <-. split; [done|]. exists g. split; [done|]. rewrite Hst.
    by destruct (mediation_error p e s1).
Qed.

(** What the validator accepts. *)
Record accepted (e : endpoint) (r : response) (raw : string) : Prop := Accepted {
  acc_size : num_lt (default DEFAULT_MAX_RESPONSE_BYTES (maxResponseBytes opts)) (response_size r (sanitize raw)) = false;
  acc_type : matchesMime (before_semicolon (to_lower (trim (rp_content_type r)))) (output_formats e) = true;
  acc_stream : hasUnboundedStream (rp_payload r) = false;
  acc_ui : hasRemoteUiPayload (rp_payload r) = false;
  acc_script : test SCRIPT_OR_HTML raw = false;
  acc_secret : test SECRET_VALUE (sanitize raw) = false;
  acc_injection : test PROMPT_INJECTION_TEXT (sanitize raw) = false;
}.

Lemma classify_valid e r raw :
  (classify opts e r (before_semicolon (to_lower (trim (rp_content_type r)))) raw (sanitize raw)
     (response_size r (sanitize raw))).2 = VALID <-> accepted e r raw.
Proof.
  unfold classify. split.
  - repeat case_match; try done. intros _. split; try done. by apply negb_false_iff.
  - intros [-> -> -> -> -> -> ->]. done.
Qed.

(** Remote output is contained: whatever a response holds, the text handed
    on carries no tag; the result is valid exactly when the size, the content
    type, the kind of the payload and the three pattern checks all pass, and then
    the text is the sanitized payload; a quarantined result shows at most 512
    characters of it and an invalid one none. *)
Theorem remote_output_is_contained rq e r now s s' res :
  validateRemoteResult opts rq e r now s = (s', Ok res) ->
  exists raw text, rawText (rp_payload r) = Ok raw /\ safe_text res = Some text /\ no_tag text /\
    (rs_status res = VALID <-> accepted e r raw) /\
    (rs_status res = VALID -> text = sanitize raw) /\
    (rs_status res = QUARANTINED -> (String.length text <= 46 + 512)%nat) /\
    (rs_status res = INVALID -> text = "Remote output rejected by the local validator.").
Proof using laws.
  intros (raw & Hraw & Hst & _ & Htx & _)%validate_ok. exists raw. eexists. split; [exact Hraw|]. split; [exact Htx|].
  split; [apply safe_text_plain|]. rewrite Hst, <-classify_valid. set (v := classify _ _ _ _ _ _ _).
  split; [done|]. unfold safe_text_of. split; [by intros ->|]. split; [|by intros ->].
  intros ->. rewrite !slength_app.
  match goal with |- context [slice 512 ?t] => pose proof (slice_length 512 t) end.
  assert (String.length (classification_name v.1) <= 16)%nat by (destruct (v.1); simpl; lia).
  change (String.length "Remote output quarantined (") with 27%nat. change (String.length "). ") with 3%nat. lia.
Qed.

(** ** What a submission leaves with *)

Lemma unsecret_trimmed fields l : Forall (fun k => trim k = k)
  (filter (fun k => negb (is_secret_key k) = true) (requestedFields (normalizedFields fields) l)).
Proof.
  apply Forall_forall. intros k [_ Hk]%list_elem_of_filter. pose proof (requested_trimmed fields l) as H.
  rewrite Forall_forall in H. by apply H.
Qed.

Lemma manifest_ok i now s s' m : createContextManifest opts i now s = (s', Ok m) ->
  exists e, jget (trim (mi_endpoint i)) (endpoints s) = Some e /\ ed_capability e = mi_capability i /\
    let fields := normalizedFields (mi_fields i) in
    mf_fields m = minimize fields (filter (fun k => negb (is_secret_key k) = true) (requestedFields fields (mi_allowed i))) /\
    num_lt (size_limit opts e i) (num (byteLength (manifestBody e i (mf_fields m)))) = false.
Proof using laws.
  unfold createContextManifest. intros H. cbv zeta in H.
  apply jbind_ok in H as (s1 & e & He & H). unfold getEndpoint, jbind, jread, jlift in He. injection He as <- He%of_option_ok.
  exists e. split; [done|].
  apply jbind_ok in H as (s2 & [] & [= <- Hcap%require_ok] & H). apply bool_decide_eq_true in Hcap. split; [done|].
  do 2 (apply jbind_ok in H as (? & [] & [= <- _] & H)). apply jbind_ok in H as (? & [] & [= <- Hsize%require_ok] & H).
  apply jbind_ok in H as (s3 & id & _ & H). apply jbind_ok in H as (s4 & t & _ & H).
  apply jbind_ok in H as (s5 & [] & _ & H). apply jbind_ok in H as (s6 & parsed & [= _ Hparse%of_option_ok] & H).
  apply jbind_ok in H as (s7 & [] & _ & [= _ <-]). cbv zeta.
  set (fields := normalizedFields (mi_fields i)) in *. set (allowed := filter _ _) in *.
  assert (Forall (fun k => trim k = k) allowed) as Hall by apply unsecret_trimmed.
  apply negb_true_iff in Hsize. destruct (minimize_ok fields allowed Hall) as [Hf Hd].
  apply manifest_fields in Hparse; [|done..]. cbn [mf_fields] in Hparse. by rewrite Hparse.
Qed.

(** Everything a suspended submission had to pass, in the state it began in. *)
Record approved (s : mediation) (i : submit_input) (p : pending) (f : frame) : Prop := Approved {
  ap_frame : jget (trim (si_frame i)) (frames s) = Some f;
  ap_idle : in_flight (fm_state f) = false;
  ap_endpoint : jget (trim (fm_endpoint f)) (endpoints s) = Some (pd_endpoint p);
  ap_allowed : jhas (ed_ref (pd_endpoint p)) (allowedEndpoints s) = true;
  ap_available : ed_availability (pd_endpoint p) <> AV_UNAVAILABLE /\ ed_surface (pd_endpoint p) <> SF_UNAVAILABLE;
  ap_revision : source_revision f = ed_revision (pd_endpoint p);
  ap_authorized : au_allowed (authorization_of opts (pd_endpoint p) (fm_capability f) (session_of opts i)) = true;
  ap_capability : ed_capability (pd_endpoint p) = fm_capability f;
  ap_adapter : exists ad, adapter_of opts (pd_endpoint p) s = Some ad /\ adapter_id (pd_request p) = trim (ad_id ad);
  ap_target : rq_endpoint (pd_request p) = ed_ref (pd_endpoint p) /\
    rq_endpoint_revision (pd_request p) = ed_revision (pd_endpoint p);
  ap_context : forall k v, jget k (mf_fields (context_manifest (pd_request p))) = Some v <-> may_cross i k v;
  ap_size : exists rid a, let mi := manifest_input_of opts i f (pd_endpoint p) rid a in
    num_lt (size_limit opts (pd_endpoint p) mi)
      (num (byteLength (manifestBody (pd_endpoint p) mi (mf_fields (context_manifest (pd_request p)))))) = false;
}.

Lemma guards_ok f e s : submit_guards f e s = Ok tt ->
  in_flight (fm_state f) = false /\ jhas (ed_ref e) (allowedEndpoints s) = true /\
  (ed_availability e <> AV_UNAVAILABLE /\ ed_surface e <> SF_UNAVAILABLE) /\ source_revision f = ed_revision e.
Proof.
  unfold submit_guards. intros H. inv_ok.
  repeat match goal with H : negb _ = true |- _ => apply negb_true_iff in H | H : _ || _ = false |- _ => apply orb_false_iff in H as [? ?]
    | H : bool_decide _ = _ |- _ => first [apply bool_decide_eq_true in H | apply bool_decide_eq_false in H] end.
  split_and!; done.
Qed.

(** Numbering and logging change nothing a guard reads. *)
Lemma quiet_reads s s' : quiet s s' -> endpoints s' = endpoints s /\ adapters s' = adapters s /\ frames s' = frames s.
Proof. by intros ->. Qed.

(** C13. Nothing leaves unapproved: a submission suspends on its adapter only
    when its frame is not already in flight, its endpoint is registered, allowed,
    available and of the revision the frame shows, the local authorization accepts
    it and an adapter is registered; its request addresses that endpoint, carries
    exactly the fields that may cross, within the size limit, and its frame is
    then in flight. *)
Theorem nothing_leaves_unapproved s0 s ps i now s' p :
  med_init s0 -> rtc med_step (s0, []) (s, ps) -> submit_begin opts i now s = (s', Ok (inr p)) ->
  exists f f', approved s i p f /\ jget (frame_id f) (frames s') = Some f' /\ fm_state f' = FS_SUBMITTING.
Proof using laws.
  intros H0 Hs H. pose proof (med_inv_reachable _ _ H0 Hs) as [Hw _]. cbn [fst] in Hw. clear H0 Hs.
  unfold submit_begin in H. apply jbind_ok in H as (s1 & f & Hf & H).
  unfold getFrame, jbind, jread, jlift in Hf. injection Hf as <- Hf%of_option_ok.
  apply jbind_ok in H as (s1 & e & He & H). unfold getEndpoint, jbind, jread, jlift in He. injection He as <- He%of_option_ok.
  apply jbind_ok in H as (s1 & s2 & [= <- <-] & H). destruct (jget (key_of i f) (idempotent s)); [done|].
  apply jbind_ok in H as (s1 & [] & [= <- Hg%guards_ok] & H). destruct Hg as (Hidle & Hall & Hav & Hrev).
  apply jbind_ok in H as (s1 & p' & H & [= <- <-]).
  unfold submit_request in H. cbv zeta in H. apply jbind_ok in H as (s2 & rid & Hrid%quiet_safeId & H).
  apply jbind_ok in H as (s3 & [] & [= <- Hau%require_ok] & H). apply jbind_ok in H as (s4 & m & Hm & H).
  pose proof (quiet_trans _ _ _ Hrid (quiet_manifest _ _ _ _ _ _ Hm)) as (_ & Had4 & _)%quiet_reads.
  apply quiet_reads in Hrid as (He2 & _ & _). apply manifest_ok in Hm as (e' & He' & Hcap & Hfields & Hsize).
  destruct (wf_endpoints _ Hw _ _ He) as [Href Htrim].
  assert (e' = e) as ->. { rewrite He2 in He'. cbn [manifest_input_of mi_endpoint] in He'. rewrite Href, trim_idem in He'. congruence. }
  apply jbind_ok in H as (s5 & x & [= <- <-] & H). apply jbind_ok in H as (s5 & ad & [= <- Had%of_option_ok] & H).
  apply jbind_ok in H as (s6 & c & _ & H). apply jbind_ok in H as (s7 & prov & _ & H). apply jbind_ok in H as (s8 & t & _ & H).
  apply jbind_ok in H as (s9 & rq & [= _ Hrq%of_option_ok] & H). apply jbind_ok in H as (s10 & x & _ & H).
  apply jbind_ok in H as (s11 & [] & _ & H). apply jbind_ok in H as (s12 & g & Hu & H).
  apply jbind_ok in H as (s13 & [] & Hev & H). apply jbind_ok in H as (s14 & x' & [= <- <-] & H).
  apply jbind_ok in H as (s14 & [] & [= <-] & [= <- <-]).
  apply request_fields in Hrq as (_ & Hmf & _ & _ & Hep & Hepr & Hadid & _).
  cbn [context_manifest rq_endpoint rq_endpoint_revision adapter_id] in Hmf, Hep, Hepr, Hadid.
  assert (mf_fields (context_manifest rq) = mf_fields m) as Hmm.
  { apply manifest_fields in Hmf; [done|..]; rewrite Hfields; apply minimize_ok, unsecret_trimmed. }
  cbn [manifest_input_of mi_fields mi_allowed] in Hfields.
  exists f, g. split; [|split].
  - split; cbn [pd_endpoint pd_request]; try done.
    + exists ad. split; [|done]. unfold adapter_of in *. by rewrite <-Had4.
    + split; [|done]. by rewrite Hep, Href, trim_idem.
    + intros k v. rewrite Hmm, Hfields. apply minimized_fields.
    + do 2 eexists. cbv zeta. rewrite Hmm. exact Hsize.
  - cbn [set_controllers frames]. rewrite (proj2 (proj2 (quiet_reads _ _ (quiet_event _ _ _ _ _ _ _ Hev)))). by apply update_stores in Hu.
  - assert (forall f, frame_id (with_refs FS_SUBMITTING (Some rid) None None (Some (provenance_id prov)) f) = frame_id f) as Hfr by done.
    destruct (spec_update _ _ _ Hfr _ _ _ Hu) as [_ Hsp]. destruct (Hsp g eq_refl) as (h & _ & Hst' & _). by rewrite Hst'.
Qed.
End service.

(** ** A concrete service *)

Module RemoteWitness.
#[local] Existing Instance zod_ref.
#[local] Existing Instance zod_ref_laws.

Definition ex_opts : options := Options "w" "n" "agent" None (Some "ad") None None None None None.

Definition ex_endpoint : endpoint :=
  Endpoint "w" "n" "ep" "ep-1" 3 "Fixture" "text" "mediated" ["text"] AV_AVAILABLE SF_READY
    (Freshness F_FRESH 0 (num 300) "probe") (Latency None None None None) None None (Cost None None None None)
    (Deposit None None None None) (Some "ad") None [] ["text/plain"] ["text/plain"]
    (Limits None (Some (num 20000)) (Some (num 100)) None) None None None ["inspect"].

Definition ex_registry : registry := Registry "w" "n" [] [] (Telemetry 0 0 0 0 0).
Definition ex_init : mediation := (new_mediation ex_opts ex_registry [Adapter "ad" true]).1.
Definition ex_open : mediation :=
  (createEndpointTestFrame ex_opts (Some "f") "ep" None (Some 1) (registerEndpoint ex_opts ex_endpoint true (Some 0) ex_init).1).1.

Definition ex_submit (id : string) (fields : jsmap json) (key : option string) : submit_input :=
  SubmitInput id key (Some fields) None None None None None None.
Definition ex_input : submit_input := ex_submit "f" [("text", JStr "hello"); ("api_token", JStr "t")] None.

Definition ex_begun : mediation * result med_error (submitted + pending) := submit_begin ex_opts ex_input (Some 2) ex_open.
Definition ex_none : pending :=
  Pending "" (Request "" "" "" "" "" 0 "" [] (Manifest "" "" "" "" "" "" "" [] [] [] [] NaN [] [] RT_SESSION false false 0 "" 0)
    None 0 (Budget FREE None None) "" NaN NaN RQ_READY "" "" 0 (Provenance "" "" "" "" 0 "" None None PV_STALE None "" 0))
    "" ex_endpoint "" 0.
Definition ex_pending : pending := match ex_begun.2 with Ok (inr p) => p | _ => ex_none end.

Definition ex_reply (text : string) : outcome := Resolved (Response "text/plain" (P_text text) None).
Definition ex_settled : mediation * result med_error submitted :=
  submit_settle ex_opts ex_pending (ex_reply "a <b>bold</b> answer") (Some 3) ex_begun.1.

Lemma ex_is_init : med_init ex_opts ex_init.
Proof. exists ex_registry, [Adapter "ad" true]. vm_compute. reflexivity. Defined.

Lemma ex_reaches : rtc (med_step ex_opts) (ex_init, []) (ex_open, []).
Proof.
  apply (rtc_l _ _ ((registerEndpoint ex_opts ex_endpoint true (Some 0) ex_init).1, [])); [exact (ms_register _ _ _ _ _ _ _ _ (surjective_pairing _))|].
  apply (rtc_l _ _ (ex_open, [])); [exact (ms_frame _ _ _ _ _ _ _ _ _ (surjective_pairing _))|]. apply rtc_refl.
Defined.

Lemma ex_suspends : submit_begin ex_opts ex_input (Some 2) ex_open = (ex_begun.1, Ok (inr ex_pending)).
Proof. vm_compute. reflexivity. Defined.

Lemma ex_reaches_begun : rtc (med_step ex_opts) (ex_init, []) (ex_begun.1, [ex_pending]).
Proof. eapply rtc_r; [apply ex_reaches|]. exact (ms_begin _ _ _ _ _ _ _ ex_suspends). Defined.

Lemma ex_settles : submit_settle ex_opts ex_pending (ex_reply "a <b>bold</b> answer") (Some 3) ex_begun.1
  = (ex_settled.1, ex_settled.2).
Proof. exact (surjective_pairing _). Defined.

Lemma nothing_leaves_unapproved_witness : exists f f',
  approved ex_opts ex_open ex_input ex_pending f /\ jget (frame_id f) (frames ex_begun.1) = Some f' /\ fm_state f' = FS_SUBMITTING.
Proof. exact (nothing_leaves_unapproved ex_opts _ _ _ _ _ _ _ ex_is_init ex_reaches ex_suspends). Defined.

Lemma every_submission_ends_witness :
  (num_lt (num 0) (rq_timeout_ms (pd_request ex_pending)) = true /\
   exists q, rq_timeout_ms (pd_request ex_pending) = Finite q /\ (q <= inject_Z 86400000)%Q) /\ ended ex_settled.1 ex_pending.
Proof.
  exact (every_submission_ends ex_opts _ _ _ _ _ _ _ _ ex_is_init ex_reaches_begun (list_elem_of_here _ _) ex_settles).
Defined.

Definition ex_sb : option submitted := jget (pd_key ex_pending) (idempotent ex_settled.1).

Lemma submissions_agree_witness : exists sb, ex_sb = Some sb /\ agrees sb.
Proof.
  destruct ex_sb as [sb|] eqn:Hsb; [|exfalso; revert Hsb; vm_compute; discriminate]. exists sb. split; [reflexivity|].
  refine (submissions_agree ex_opts _ _ _ _ _ ex_is_init _ Hsb). eapply rtc_r; [apply ex_reaches_begun|].
  exact (ms_settle _ _ _ _ _ _ _ [] [] ex_settles).
Defined.

Definition ex_validated (text : string) : mediation * result med_error remote_result :=
  validateRemoteResult ex_opts (pd_request ex_pending) ex_endpoint (Response "text/plain" (P_text text) None) (Some 3) ex_open.

Lemma remote_output_is_contained_witness : exists res raw text, (ex_validated "a <b>bold</b> answer").2 = Ok res /\
  safe_text res = Some text /\ no_tag text /\ (rs_status res = VALID -> text = sanitize raw).
Proof.
  destruct (ex_validated "a <b>bold</b> answer") as [s [res|e]] eqn:H; [|exfalso; revert H; vm_compute; discriminate].
  pose proof (remote_output_is_contained ex_opts _ _ _ _ _ _ _ H) as (raw & text & _ & Htx & Hp & _ & Hv & _).
  exists res, raw, text. split; [reflexivity|]. split; [exact Htx|]. split; [exact Hp | exact Hv].
Defined.

(** ** On the edges *)

(** Only the first secret is replaced: a quarantined result shows the second. *)
Theorem second_secret_survives :
  match (ex_validated "password=one password=two").2 with
  | Ok res => rs_classification res = SECRET_PATTERN /\ test SECRET_VALUE <$> safe_text res = Some true
  | Err _ => False
  end.
Proof. by vm_compute. Qed.

(** A legal space before the parameters of a content type is matched and then
    refused: the response is lost. *)
Theorem spaced_content_type_is_refused :
  matchesMime "text/plain ; charset=utf-8" (output_formats ex_endpoint) = true /\
  (validateRemoteResult ex_opts (pd_request ex_pending) ex_endpoint
     (Response "text/plain ; charset=utf-8" (P_text "ok") None) (Some 3) ex_open).2 = Err (Med INVALID_RESULT).
Proof. by vm_compute. Qed.

(** A response of more than fifty million bytes is not quarantined but refused. *)
Theorem huge_response_is_not_quarantined :
  (validateRemoteResult ex_opts (pd_request ex_pending) ex_endpoint
     (Response "text/plain" (P_text "ok") (Some (num 50000001))) (Some 3) ex_open).2 = Err (Med INVALID_RESULT) /\
  match (validateRemoteResult ex_opts (pd_request ex_pending) ex_endpoint
     (Response "text/plain" (P_text "ok") (Some (num 50000000))) (Some 3) ex_open).2 with
  | Ok res => rs_status res = QUARANTINED
  | Err _ => False
  end.
Proof. by vm_compute. Qed.

(** A submission is suspended on its adapter. *)
Definition suspends (r : result med_error (submitted + pending)) : bool := match r with Ok (inr _) => true | _ => false end.

Definition long_text : string := String.concat "" (repeat "0123456789" 30).

(** Without a key of its own, a submission of more than some 250 characters is
    refused as unauthorized: the key made of its fields is no id. *)
Theorem long_fields_need_a_key :
  (submit_begin ex_opts (ex_submit "f" [("text", JStr long_text)] None) (Some 2) ex_open).2 = Err (Med UNAUTHORIZED) /\
  suspends (submit_begin ex_opts (ex_submit "f" [("text", JStr long_text)] (Some "key")) (Some 2) ex_open).2 = true.
Proof. by vm_compute. Qed.

(** Cancelling under a padded id files a second frame and leaves the first in
    flight. *)
Theorem padded_cancel_files_a_copy :
  let s := (cancelEndpointTest " f" (Some 3) ex_begun.1).1 in
  map (fun f => (frame_id f, fm_state f)) (listFrames s) = [("f", FS_SUBMITTING); ("f", FS_CANCELLED)].
Proof. by vm_compute. Qed.

Definition ex_cancelled : mediation := (cancelEndpointTest "f" (Some 3) ex_begun.1).1.
Definition ex_again : mediation * result med_error (submitted + pending) := submit_begin ex_opts ex_input (Some 4) ex_cancelled.

(** A cancelled frame can be submitted again while the first request is still
    under way; when that ends, the frame of the second is marked cancelled and a
    third submission is admitted beside it. *)
Theorem late_rejection_frees_the_frame :
  match ex_again.2 with
  | Ok (inr p2) =>
      let s := (submit_settle ex_opts ex_pending (Rejected None) (Some 5) ex_again.1).1 in
      jhas (pd_id p2) (md_controllers s) = true /\ suspends (submit_begin ex_opts ex_input (Some 6) s).2 = true
  | _ => False
  end.
Proof. by vm_compute. Qed.

(** An endpoint with a wildcard input format accepts no context by default. *)
Theorem wildcard_format_blocks_context :
  let e := Endpoint "w" "n" "ep" "ep-1" 3 "Fixture" "text" "mediated" ["text"] AV_AVAILABLE SF_READY
    (Freshness F_FRESH 0 (num 300) "probe") (Latency None None None None) None None (Cost None None None None)
    (Deposit None None None None) (Some "ad") None [] ["text/*"] ["text/plain"]
    (Limits None (Some (num 20000)) (Some (num 100)) None) None None None ["inspect"] in
  let s := (createEndpointTestFrame ex_opts (Some "f") "ep" None (Some 1) (registerEndpoint ex_opts e true (Some 0) ex_init).1).1 in
  (submit_begin ex_opts ex_input (Some 2) s).2 = Err (Med CONTEXT_FORBIDDEN).
Proof. by vm_compute. Qed.
End RemoteWitness.
