(* ===== verification/Topology.v ===== *)
(** * Endpoint topology

    src/web/operator-dashboard/src/spatial/topology/endpoint-topology.ts: the
    energy object an endpoint is drawn as, the details surface, and
    [EndpointDiscoveryService], which ranks endpoints into temporary candidates
    and writes the registry it shares only when one is selected. What is read
    back is [cloneResult] of what is stored; a caller that writes into the
    arrays the clone still shares is outside the model. *)

From Stdlib Require Import QArith Qround.
From stdpp Require Import pretty.
From S2P Require Import Prelude.
From S2P Require Import Json.
From S2P Require Import Contracts.
From S2P Require Import Numbers.
From S2P Require Import Text.
From S2P Require Import Registry.
From S2P Require Import Status.
From S2P Require Import RemoteContracts.

#[local] Open Scope Z_scope.

(** ** The energy object *)

Inductive familiarity : Type := NEVER_USED | USED | TRUSTED_BY_HISTORY.
#[export] Instance familiarity_eq_dec : EqDecision familiarity.
Proof. solve_decision. Defined.

Inductive energy : Type := EN_HEALTHY | EN_BUSY | EN_DEGRADED | EN_OFFLINE | EN_UNKNOWN.
#[export] Instance energy_eq_dec : EqDecision energy.
Proof. solve_decision. Defined.

(** [EndpointEnergyObject]. *)
Record energy_object : Type := EnergyObject {
  eo_ref : string;
  eo_endpoint : string;
  eo_availability : energy;
  eo_familiarity : familiarity;
  eo_active : bool;
  coreIntensity : jsnum;
  haloIntensity : jsnum;
  particleRate : option jsnum;
  eo_collapsed : bool;
  unknownMetrics : list string;
}.

Definition availabilityFor (d : endpoint) : energy :=
  if bool_decide (ed_availability d = AV_UNAVAILABLE) then EN_OFFLINE
  else if bool_decide (ed_availability d = AV_UNKNOWN) || bool_decide (fr_state (ed_freshness d) = F_UNKNOWN)
          || bool_decide (fr_state (ed_freshness d) = F_UNAVAILABLE) then EN_UNKNOWN
  else if bool_decide (ed_availability d = AV_DEGRADED) || bool_decide (fr_state (ed_freshness d) = F_STALE)
          || bool_decide (fr_state (ed_freshness d) = F_PARTIAL) then EN_DEGRADED
  else match ed_load d with
       | Some load => if num_le (Finite (8 # 10)) load then EN_BUSY else EN_HEALTHY
       | None => EN_HEALTHY
       end.

(** The unavailable, degraded, busy, unknown and healthy intensities. *)
Definition base_intensity (a : energy) : jsnum :=
  Finite (match a with
          | EN_OFFLINE => 14 # 100 | EN_DEGRADED => 42 # 100 | EN_BUSY => 68 # 100 | EN_UNKNOWN => 28 # 100
          | EN_HEALTHY => 58 # 100
          end).

Definition halo (f : familiarity) (active : bool) : jsnum :=
  Finite (if active then 8 # 10
          else match f with TRUSTED_BY_HISTORY => 36 # 100 | USED => 18 # 100 | NEVER_USED => 8 # 100 end).

Definition unknown_metrics (d : endpoint) : list string :=
  let missing {A} (o : option A) (name : string) := match o with None => [name] | Some _ => [] end in
  missing (p95_ms (ed_latency d)) "latency" ++ missing (ed_load d) "load" ++ missing (ed_capacity d) "capacity"
    ++ missing (unit_price (ed_cost d)) "cost".

Definition toEndpointEnergyObject (d : endpoint) (f : familiarity) (active : bool) : energy_object :=
  let availability := availabilityFor d in
  let base := base_intensity availability in
  EnergyObject (ed_ref d) (endpoint_id d) availability f active
    (toFixed 3 (if active then num_min (num 1) (num_add base (Finite (2 # 10))) else base))
    (toFixed 3 (halo f active))
    ((fun load => toFixed 3 (num_max (Finite (1 # 10)) (num_min (num 1) load))) <$> ed_load d)
    (bool_decide (availability = EN_OFFLINE))
    (unknown_metrics d).

(** ** Discovery results *)

Inductive discovery_state : Type := DS_EMPTY | DS_READY | DS_STALE | DS_DISMISSED.
#[export] Instance discovery_state_eq_dec : EqDecision discovery_state.
Proof. solve_decision. Defined.

Inductive candidate_state : Type := CN_CANDIDATE | CN_SELECTED | CN_DISMISSED | CN_STALE.
#[export] Instance candidate_state_eq_dec : EqDecision candidate_state.
Proof. solve_decision. Defined.

(** [SpatialDiscoveryCandidate]. *)
Record candidate : Type := Candidate {
  candidate_id : string;
  cn_ref : string;
  cn_endpoint : string;
  endpoint_revision : Z;
  rank : Z;
  relevance : jsnum;
  explanation : string;
  cn_state : candidate_state;
  cn_pinned : bool;
  cn_details : endpoint;
}.

(** [SpatialDiscoveryResult]. *)
Record discovery : Type := Discovery {
  discovery_id : string;
  request_id : string;
  dc_workspace : string;
  dc_node : string;
  dc_revision : Z;
  dc_state : discovery_state;
  candidates : list candidate;
  dc_created : iso;
  dc_updated : iso;
}.

(** [EndpointDiscoveryRequest]. *)
Record discovery_request : Type := DiscoveryRequest {
  requestId : string;
  dq_endpoints : list endpoint;
  dq_relevance : option (jsmap jsnum);
}.

(** The codes of [EndpointTopologyError], an error of the registry that is
    called, and the [RangeError] of a clock that does not show a date. *)
Inductive topology_error : Type :=
| INVALID_ENDPOINT | UNKNOWN_DISCOVERY | UNKNOWN_CANDIDATE | STALE_CANDIDATE
| TP_REGISTRY (e : registry_error) | TP_RANGE_ERROR.
#[export] Instance topology_error_eq_dec : EqDecision topology_error.
Proof. solve_decision. Defined.

(** [EndpointDiscoveryService], with the registry it shares. *)
Record service : Type := Service {
  sv_workspace : string;
  sv_node : string;
  sv_max : jsnum;
  sv_registry : registry;
  results : jsmap discovery;
}.

Definition set_sv_registry (g : registry) (s : service) : service :=
  Service (sv_workspace s) (sv_node s) (sv_max s) g (results s).
Definition set_results (m : jsmap discovery) (s : service) : service :=
  Service (sv_workspace s) (sv_node s) (sv_max s) (sv_registry s) m.

(** The constructor: a registry of its own when none is given, and between one
    and a thousand candidates. *)
Definition new_service (workspaceId nodeId : string) (shared : option registry) (max : option jsnum)
  : result registry_error service :=
  let? g := match shared with Some g => Ok g | None => new_registry workspaceId nodeId end in
  Ok (Service workspaceId nodeId (num_max (num 1) (num_min (num 1000) (default (num 100) max))) g []).

(** [list.slice(0, n)] for a positive or undefined [n]. *)
Definition slice_count (n : jsnum) : nat :=
  match n with Finite q => Z.to_nat (Qtrunc q) | _ => 0 end.

(** [request.relevance?.[ref] ?? 0.5], clamped. *)
Definition relevance_of (q : discovery_request) (ref : string) : jsnum :=
  let raw := match dq_relevance q with
             | Some m => match jget ref m with
                         | Some x => x
                         | None => if bool_decide (ref ∈ inherited) then NaN else Finite (1 # 2)
                         end
             | None => Finite (1 # 2)
             end in
  num_max (num 0) (num_min (num 1) raw).

(** [`${(relevance * 100).toFixed(0)}`], the product rounded to a double. *)
Definition percent (x : jsnum) : string :=
  match x with
  | Finite q => pretty (Qfloor (to_double (to_double q * 100) + (1 # 2)))
  | NaN => "NaN" | PosInf => "Infinity" | NegInf => "-Infinity"
  end.

(** The middle dot of the explanation. *)
Definition middle_dot : string := String (ascii_of_N 183) EmptyString.

Section topology.
Context {zod : Zod} {col : Collation}.

(** [createEndpointDetailsSurface(details)]. *)
Definition createEndpointDetailsSurface (d : endpoint) : result topology_error endpoint :=
  of_option (spatialEndpointDetailsSchema d) INVALID_ENDPOINT.

Definition discoveryCandidateSchema (c : candidate) : option candidate :=
  id ← idSchema (candidate_id c);
  ref ← idSchema (cn_ref c);
  ep ← idSchema (cn_endpoint c);
  rev ← revisionSchema (endpoint_revision c);
  rk ← guard (bool_decide (0 < rank c)) (rank c);
  rel ← boundedSchema 1 (relevance c);
  ex ← max_string 512 (explanation c);
  d ← spatialEndpointDetailsSchema (cn_details c);
  Some (Candidate id ref ep rev rk rel ex (cn_state c) (cn_pinned c) d).

Definition spatialDiscoveryResultSchema (r : discovery) : option discovery :=
  id ← idSchema (discovery_id r);
  req ← idSchema (request_id r);
  ws ← idSchema (dc_workspace r);
  node ← idSchema (dc_node r);
  rev ← revisionSchema (dc_revision r);
  cs ← z_array discoveryCandidateSchema 1000 (candidates r);
  created ← timestampSchema (dc_created r);
  updated ← timestampSchema (dc_updated r);
  Some (Discovery id req ws node rev (dc_state r) cs created updated).

(** ** Ranking *)

(** The first loop of [discover]: per reference the last of the greatest
    revision, at the place of the first. *)
Fixpoint unique_endpoints (raws : list endpoint) (m : jsmap endpoint) : result topology_error (jsmap endpoint) :=
  match raws with
  | [] => Ok m
  | raw :: raws =>
      let? d := of_option (spatialEndpointDetailsSchema raw) INVALID_ENDPOINT in
      unique_endpoints raws
        (match jget (ed_ref d) m with
         | Some current => if bool_decide (ed_revision current <= ed_revision d) then jset (ed_ref d) d m else m
         | None => jset (ed_ref d) d m
         end)
  end.

(** [compare(left, right) <= 0]: a difference that is NaN counts as none. *)
Definition ranked_before (l r : endpoint * jsnum) : bool :=
  if num_lt r.2 l.2 then true
  else if num_lt l.2 r.2 then false
  else bool_decide (localeCompare (endpoint_id l.1) (endpoint_id r.1) <= 0).

Definition entries (q : discovery_request) (m : jsmap endpoint) : list (endpoint * jsnum) :=
  map (fun d => (d, relevance_of q (ed_ref d))) (jvalues m).

Definition candidate_of (q : discovery_request) (index : N) (e : endpoint * jsnum) : candidate :=
  Candidate (requestId q +:+ ":candidate:" +:+ pretty (Z.of_N index + 1)) (ed_ref e.1) (endpoint_id e.1) (ed_revision e.1)
    (Z.of_N index + 1) (toFixed 4 e.2)
    ("Capability match " +:+ percent e.2 +:+ "% " +:+ middle_dot +:+ " " +:+ ed_capability e.1)
    CN_CANDIDATE false e.1.

Definition discoveryState (count : nat) : discovery_state := match count with O => DS_EMPTY | S _ => DS_READY end.

Definition ranked (q : discovery_request) (m : jsmap endpoint) (max : jsnum) : list candidate :=
  map_index (candidate_of q) 0 (take (slice_count max) (sort_by ranked_before (entries q m))).

Definition discover (q : discovery_request) (now : date) : method service topology_error discovery :=
  let! t := jlift (of_option now TP_RANGE_ERROR) in
  let! m := jlift (unique_endpoints (dq_endpoints q) []) in
  let! s := jread in
  let cs := ranked q m (sv_max s) in
  let! parsed := jlift (of_option (spatialDiscoveryResultSchema
    (Discovery (requestId q +:+ ":discovery") (requestId q) (sv_workspace s) (sv_node s) 0 (discoveryState (length cs))
       cs t t)) INVALID_ENDPOINT) in
  jwrite (set_results (jset (discovery_id parsed) parsed (results s)) s) ;!
  jret parsed.

(** ** Reading and writing results *)

Definition get (id : string) : method service topology_error discovery :=
  let! s := jread in
  jlift (of_option (jget id (results s)) UNKNOWN_DISCOVERY).

(** [{ ...result, revision: result.revision + 1, state, candidates, updated_at }],
    stored under [id]. *)
Definition revise (id : string) (r : discovery) (st : discovery_state) (f : candidate -> candidate) (now : date)
  : method service topology_error discovery :=
  let! t := jlift (of_option now TP_RANGE_ERROR) in
  let updated := Discovery (discovery_id r) (request_id r) (dc_workspace r) (dc_node r) (dc_revision r + 1) st
                   (map f (candidates r)) (dc_created r) t in
  let! s := jread in
  jwrite (set_results (jset id updated (results s)) s) ;!
  jret updated.

Definition with_state (st : candidate_state) (c : candidate) : candidate :=
  Candidate (candidate_id c) (cn_ref c) (cn_endpoint c) (endpoint_revision c) (rank c) (relevance c) (explanation c) st
    (cn_pinned c) (cn_details c).
Definition with_pin (c : candidate) : candidate :=
  Candidate (candidate_id c) (cn_ref c) (cn_endpoint c) (endpoint_revision c) (rank c) (relevance c) (explanation c)
    (cn_state c) true (cn_details c).

Definition find_candidate (id : string) (r : discovery) : option candidate :=
  list_find (fun c => candidate_id c = id) (candidates r) ≫= fun p => Some p.2.

(** [select(discoveryId, candidateId)]; the registry reads its clock first. *)
Definition select (id cid : string) (registry_now now : date) : method service topology_error discovery :=
  let! r := get id in
  let! c := jlift (of_option (find_candidate cid r) UNKNOWN_CANDIDATE) in
  let! s := jread in
  let! current := jzoom sv_registry set_sv_registry TP_REGISTRY (resolveInScope (sv_workspace s) (sv_node s) (cn_ref c)) in
  jlift (require (match current with
                  | Some x => negb (bool_decide (endpoint_revision c < rf_revision x))
                  | None => true
                  end) STALE_CANDIDATE) ;!
  jzoom sv_registry set_sv_registry TP_REGISTRY
    (Registry.discover (ReferenceInput (cn_ref c) (cn_endpoint c) ek_endpoint (NInt (endpoint_revision c)) (Some PRIMARY)
                          None None) registry_now) ;!
  revise id r DS_READY (fun x => if str_eqb (candidate_id x) cid then with_state CN_SELECTED x else x) now.

Definition promote (id cid : string) (registry_now now : date) : method service topology_error discovery :=
  select id cid registry_now now.

Definition dismiss (id : string) (now : date) : method service topology_error discovery :=
  let! r := get id in
  revise id r DS_DISMISSED (with_state CN_DISMISSED) now.

Definition pin (id cid : string) (now : date) : method service topology_error discovery :=
  let! r := get id in
  jlift (of_option (find_candidate cid r) UNKNOWN_CANDIDATE) ;!
  revise id r (dc_state r) (fun x => if str_eqb (candidate_id x) cid then with_pin x else x) now.

Definition markStale (id ref : string) (now : date) : method service topology_error discovery :=
  let! r := get id in
  jlift (require (existsb (fun c => str_eqb (cn_ref c) ref) (candidates r)) UNKNOWN_CANDIDATE) ;!
  revise id r DS_STALE (fun x => if str_eqb (cn_ref x) ref then with_state CN_STALE x else x) now.

(** ** Histories *)

(** A call of the service that does not select. *)
Inductive browse_step (s : service) : service -> Prop :=
| tp_discover q now s' r : discover q now s = (s', r) -> browse_step s s'
| tp_get id s' r : get id s = (s', r) -> browse_step s s'
| tp_dismiss id now s' r : dismiss id now s = (s', r) -> browse_step s s'
| tp_pin id cid now s' r : pin id cid now s = (s', r) -> browse_step s s'
| tp_stale id ref now s' r : markStale id ref now s = (s', r) -> browse_step s s'.

(** Any call of the service. *)
Inductive own_step (s : service) : service -> Prop :=
| tp_browse s' : browse_step s s' -> own_step s s'
| tp_select id cid t1 t2 s' r : select id cid t1 t2 s = (s', r) -> own_step s s'
| tp_promote id cid t1 t2 s' r : promote id cid t1 t2 s = (s', r) -> own_step s s'.
End topology.
