(* ===== verification/TopologyProps.v ===== *)
(** * Properties of endpoint topology

    What a discovery ranks, that only a selection writes the registry, what a
    selection leaves behind, and that candidates stay what they were. *)

From Stdlib Require Import QArith Qround Qabs Sorted.
From stdpp Require Import relations pretty.
From S2P Require Import Prelude.
From S2P Require Import Json.
From S2P Require Import Contracts.
From S2P Require Import Numbers.
From S2P Require Import Text.
From S2P Require Import Registry.
From S2P Require Import Status.
From S2P Require Import RemoteContracts.
From S2P Require Import Topology.

#[local] Open Scope Z_scope.

(** ** Numbers *)

Lemma toFixed_mono n p q : (0 <= p)%Q -> (p <= q)%Q -> num_le (toFixed n (Finite p)) (toFixed n (Finite q)) = true.
Proof.
  intros Hp Hpq. apply num_le_finite. unfold toFixed. set (s := inject_Z (10 ^ Z.of_nat n)).
  assert (Hs : (0 <= s)%Q) by (pose proof (Z.pow_nonneg 10 (Z.of_nat n)); unfold s, Qle; cbn [Qnum Qden inject_Z]; lia).
  assert (H0 : forall x, (0 <= x)%Q -> Z.sgn (Qnum x) * Qfloor (Qabs x * s + (1 # 2)) = Qfloor (x * s + (1 # 2))).
  { intros [a d] Hx. unfold Qle in Hx. cbn in Hx. destruct (Z.eq_dec a 0) as [->|Ha].
    - assert (Hd : (0 # d == 0)%Q) by (unfold Qeq; cbn; lia).
      cbn [Qnum Z.sgn]. rewrite Z.mul_0_l, (Qfloor_comp _ (1 # 2)); [done|]. rewrite Hd. ring.
    - rewrite (Qfloor_comp (Qabs (a # d) * s + (1 # 2)) ((a # d) * s + (1 # 2))).
      + cbn [Qnum]. rewrite Z.sgn_pos; lia.
      + rewrite Qabs_pos; [reflexivity | unfold Qle; cbn; lia]. }
  rewrite (H0 p), (H0 q) by (try done; exact (Qle_trans _ _ _ Hp Hpq)).
  assert (Qfloor (p * s + (1 # 2)) <= Qfloor (q * s + (1 # 2))).
  { apply Qfloor_resp_le. apply Qplus_le_l. by apply Qmult_le_compat_r. }
  unfold Qle. cbn [Qnum Qden]. apply Z.mul_le_mono_nonneg_r; lia.
Qed.

(** The relevance of a reference is between 0 and 1, unless it is no number. *)
Lemma relevance_range q ref : relevance_of q ref <> NaN -> exists x, relevance_of q ref = Finite x /\ (0 <= x <= 1)%Q.
Proof.
  unfold relevance_of. generalize (match dq_relevance q with Some m => match jget ref m with Some x => x | None => if bool_decide (ref ∈ inherited) then NaN else Finite (1 # 2) end | None => Finite (1 # 2) end).
  intros [x| | |] H; cbn in *; try done.
  - destruct (Qle_bool (inject_Z 1) x) eqn:H1; cbn.
    + exists 1%Q. split; [done|]. split; unfold Qle; cbn; lia.
    + apply not_true_iff_false in H1. rewrite Qle_bool_iff in H1. apply Qnot_le_lt in H1.
      destruct (Qle_bool x (inject_Z 0)) eqn:H0; cbn.
      * exists 0%Q. split; [done|]. split; unfold Qle; cbn; lia.
      * apply not_true_iff_false in H0. rewrite Qle_bool_iff in H0. apply Qnot_le_lt in H0.
        exists x. split; [done|]. split; by apply Qlt_le_weak.
  - exists 1%Q. split; [done|]. split; unfold Qle; cbn; lia.
  - exists 0%Q. split; [done|]. split; unfold Qle; cbn; lia.
Qed.

Section topology.
Context {zod : Zod} {laws : ZodLaws zod} {col : Collation}.

(** ** Contracts *)

#[export] Instance freshnessSchema_idem : Idempotent spatialFreshnessSchema.
Proof using laws.
  intros f g H. unfold spatialFreshnessSchema, sourceSchema, boundedIntSchema in *. inv_some. cbn [fr_state fr_observed_at stale_after_seconds fr_source].
  erewrite (idem (fr_observed_at f)) by done. cbn [mbind option_bind].
  repeat match goal with H : (if ?b then _ else _) = Some _ |- _ => destruct b eqn:?; [|done] end.
  match goal with H : boundedSchema _ _ = Some _ |- _ => pose proof (boundedSchema_spec _ _ _ H) as [-> _] end.
  match goal with H : isInteger _ = true |- _ => rewrite H end.
  match goal with H : boundedSchema _ _ = Some _ |- _ => rewrite H end. cbn [mbind option_bind].
  match goal with H : z_string 1 _ _ = Some _ |- _ => apply z_string_sound in H as [-> Hl] end.
  rewrite trim_idem, z_string_complete by done. done.
Qed.

#[export] Instance latencySchema_idem : Idempotent latencySchema.
Proof using laws. intros a b H. unfold latencySchema, nullableNumber in *. solve_idem. Qed.
#[export] Instance costSchema_idem : Idempotent costSchema.
Proof using laws. intros a b H. unfold costSchema, nullableNumber in *. solve_idem. Qed.
#[export] Instance depositSchema_idem : Idempotent depositSchema.
Proof using laws. intros a b H. unfold depositSchema, nullableNumber in *. solve_idem. Qed.
#[export] Instance limitsSchema_idem : Idempotent limitsSchema.
Proof using laws. intros a b H. unfold limitsSchema, nullableNumber in *. solve_idem. Qed.

#[export] Instance endpointSchema_idem : Idempotent spatialEndpointDetailsSchema.
Proof using laws. intros a b H. unfold spatialEndpointDetailsSchema, nullableNumber in *. solve_idem. Qed.

Lemma endpointSchema_keys d d' : spatialEndpointDetailsSchema d = Some d' ->
  ed_ref d' = trim (ed_ref d) /\ trim (ed_ref d') = ed_ref d' /\ trim (endpoint_id d') = endpoint_id d' /\ 0 <= ed_revision d'.
Proof using laws.
  unfold spatialEndpointDetailsSchema, revisionSchema. intros H. inv_some. cbn [ed_ref endpoint_id ed_revision].
  repeat match goal with H : idSchema _ = Some _ |- _ => apply idSchema_spec in H as [-> _] end.
  match goal with H : z_nonneg _ = Some _ |- _ => apply z_nonneg_sound in H as [-> ?] end. by rewrite !trim_idem.
Qed.

(** A candidate as the service made it, whatever its identifier was trimmed to. *)
Record shows (q : discovery_request) (d : endpoint) (c : candidate) : Prop := {
  shows_details : cn_details c = d;
  shows_ref : cn_ref c = ed_ref d;
  shows_endpoint : cn_endpoint c = endpoint_id d;
  shows_revision : endpoint_revision c = ed_revision d;
  shows_relevance : relevance c = toFixed 4 (relevance_of q (ed_ref d));
  shows_state : cn_state c = CN_CANDIDATE /\ cn_pinned c = false;
}.

Lemma candidate_parsed q i raw d c : spatialEndpointDetailsSchema raw = Some d ->
  discoveryCandidateSchema (candidate_of q i (d, relevance_of q (ed_ref d))) = Some c ->
  shows q d c /\ rank c = Z.of_N i + 1.
Proof using laws.
  intros Hd H. pose proof (endpointSchema_keys _ _ Hd) as (_ & Ht & He & _). apply idem in Hd.
  unfold discoveryCandidateSchema, candidate_of, revisionSchema, guard in H.
  cbn [candidate_id cn_ref cn_endpoint endpoint_revision rank relevance explanation cn_state cn_pinned cn_details fst snd] in H.
  rewrite Hd in H. inv_some.
  case_bool_decide; [|done].
  repeat match goal with
  | H : idSchema _ = Some _ |- _ => apply idSchema_spec in H as [-> _]
  | H : z_nonneg _ = Some _ |- _ => apply z_nonneg_sound in H as [-> ?]
  | H : boundedSchema _ _ = Some _ |- _ => apply boundedSchema_spec in H as [-> _]
  end.
  match goal with H : Some _ = Some ?x |- context [rank] => injection H as <- end.
  split; [split|]; cbn; try done; by rewrite ?Ht, ?He.
Qed.

(** ** One endpoint per reference *)

Lemma unique_spec raws m m' : NoDup (jkeys m) -> jall (fun k d => ed_ref d = k) m ->
  unique_endpoints raws m = Ok m' ->
  NoDup (jkeys m') /\ jall (fun k d => ed_ref d = k) m' /\
  (forall k d, jget k m' = Some d -> jget k m = Some d \/ exists raw, raw ∈ raws /\ spatialEndpointDetailsSchema raw = Some d) /\
  (forall k d, jget k m = Some d -> exists d', jget k m' = Some d' /\ ed_revision d <= ed_revision d') /\
  (forall raw, raw ∈ raws -> exists d d', spatialEndpointDetailsSchema raw = Some d /\ jget (ed_ref d) m' = Some d' /\
     ed_revision d <= ed_revision d').
Proof using.
  revert m. induction raws as [|raw raws IH]; intros m Hn Hk H; cbn [unique_endpoints] in H.
  { injection H as <-. split_and!; [done|done|by left|intros k d Hd; by exists d|by intros ? []%not_elem_of_nil]. }
  apply rbind_ok in H as (d & Hd%of_option_ok & H).
  set (m1 := match jget (ed_ref d) m with Some _ => _ | None => _ end) in H.
  assert (Hm1 : NoDup (jkeys m1) /\ jall (fun k d => ed_ref d = k) m1 /\
    (forall k x, jget k m1 = Some x -> jget k m = Some x \/ x = d) /\
    (forall k x, jget k m = Some x -> exists x', jget k m1 = Some x' /\ ed_revision x <= ed_revision x') /\
    exists d', jget (ed_ref d) m1 = Some d' /\ ed_revision d <= ed_revision d').
  { assert (Hset : forall x, jget (ed_ref d) (jset (ed_ref d) x m) = Some x) by (intros; apply jget_jset_eq).
    assert (Hset' : forall k x, jget k (jset (ed_ref d) d m) = Some x -> jget k m = Some x \/ x = d).
    { intros k x. rewrite jget_jset. destruct (str_eqb _ _); [intros [= <-]; by right | by left]. }
    subst m1. destruct (jget (ed_ref d) m) as [c|] eqn:Hc; [case_bool_decide as Hle|].
    - split_and!; [by apply NoDup_jset | by apply jall_jset | done | | by exists d].
      intros k x Hx. rewrite jget_jset. destruct (str_eqb _ _) eqn:He; [|by exists x].
      apply str_eqb_eq in He as <-. exists d. split; [done|]. congruence.
    - split_and!; [done|done|by left|intros k x Hx; by exists x|]. exists c. split; [done|lia].
    - split_and!; [by apply NoDup_jset | by apply jall_jset | done | | by exists d].
      intros k x Hx. exists x. rewrite jget_jset_ne by (intros He; congruence). by split. }
  destruct Hm1 as (Hn1 & Hk1 & Hin & Hup & Hnew). apply IH in H as (Hn' & Hk' & Hin' & Hup' & Hnew'); [|done..].
  split_and!; [done|done| | |].
  - intros k x [Hx|(r & Hr & Hs)]%Hin'; [apply Hin in Hx as [Hx| ->]; [by left|]|].
    + right. exists raw. split; [left | done].
    + right. exists r. split; [by right | done].
  - intros k x (x1 & Hx1 & Hle)%Hup. apply Hup' in Hx1 as (x2 & Hx2 & ?). exists x2. split; [done|lia].
  - intros r [->|Hr]%elem_of_cons; [|by apply Hnew'].
    destruct Hnew as (d1 & Hd1 & Hle). apply Hup' in Hd1 as (d2 & Hd2 & ?). exists d, d2. split_and!; [done|done|lia].
Qed.

(** ** The order *)

Definition counted (e : endpoint * jsnum) : Prop := exists x, e.2 = Finite x /\ (0 <= x)%Q.

Lemma ranked_total (cl : CollationLaws col) x y : ranked_before x y = false -> ranked_before y x = true.
Proof using.
  unfold ranked_before. destruct (num_lt y.2 x.2) eqn:H1; [done|]. destruct (num_lt x.2 y.2); [done|].
  intros H%bool_decide_eq_false. apply bool_decide_eq_true. destruct (collation_total (endpoint_id x.1) (endpoint_id y.1)); [done|done].
Qed.

Lemma ranked_before_finite x y p q : x.2 = Finite p -> y.2 = Finite q ->
  (ranked_before x y = true <-> (q < p)%Q \/ (p == q)%Q /\ localeCompare (endpoint_id x.1) (endpoint_id y.1) <= 0).
Proof using.
  intros Hx Hy. unfold ranked_before. rewrite Hx, Hy.
  destruct (num_lt (Finite q) (Finite p)) eqn:H1; [apply num_lt_finite in H1; naive_solver|].
  apply not_true_iff_false in H1. rewrite num_lt_finite in H1. apply Qnot_lt_le in H1.
  destruct (num_lt (Finite p) (Finite q)) eqn:H2.
  - apply num_lt_finite in H2. split; [done|]. intros [H|[H _]]; exfalso.
    + by apply (Qlt_not_le _ _ H).
    + rewrite H in H2. by apply (Qlt_irrefl q).
  - apply not_true_iff_false in H2. rewrite num_lt_finite in H2. apply Qnot_lt_le in H2. rewrite bool_decide_eq_true.
    split; [intros H; right; split; [by apply Qle_antisym | done]|]. intros [H|[_ H]]; [|done]. exfalso. by apply (Qlt_not_le _ _ H).
Qed.

Lemma ranked_trans (cl : CollationLaws col) x y z : counted x -> counted y -> counted z ->
  ranked_before x y = true -> ranked_before y z = true -> ranked_before x z = true.
Proof using.
  intros (p & Hp & _) (q & Hq & _) (r & Hr & _). rewrite (ranked_before_finite x y p q), (ranked_before_finite y z q r), (ranked_before_finite x z p r) by done.
  intros [H1|[H1 C1]] [H2|[H2 C2]].
  - left. by eapply Qlt_trans.
  - left. by rewrite <-H2.
  - left. by rewrite H1.
  - right. split; [by rewrite H1 | by eapply collation_trans].
Qed.

Lemma ranked_relevance x y : counted x -> counted y -> ranked_before x y = true ->
  num_le (toFixed 4 y.2) (toFixed 4 x.2) = true.
Proof using.
  intros (p & Hp & _) (q & Hq & H0) H. apply (ranked_before_finite x y p q Hp Hq) in H. rewrite Hp, Hq.
  apply toFixed_mono; [done|]. destruct H as [H|[H _]]; [by apply Qlt_le_weak | by rewrite H; apply Qle_refl].
Qed.

(** ** Discovery *)

(** A parsed endpoint of the request that no other one of its reference is
    newer than. *)
Definition newest (q : discovery_request) (d : endpoint) : Prop :=
  (exists raw, raw ∈ dq_endpoints q /\ spatialEndpointDetailsSchema raw = Some d) /\
  forall raw d', raw ∈ dq_endpoints q -> spatialEndpointDetailsSchema raw = Some d' -> ed_ref d' = ed_ref d ->
    ed_revision d' <= ed_revision d.

(** The entries that are shown, and how the contract returns them. *)
Definition shown (q : discovery_request) (m : jsmap endpoint) (max : jsnum) : list (endpoint * jsnum) :=
  take (slice_count max) (sort_by ranked_before (entries q m)).

Lemma discover_inv q now s s' r : discover q now s = (s', Ok r) ->
  exists m, unique_endpoints (dq_endpoints q) [] = Ok m /\ dc_revision r = 0 /\
    dc_state r = discoveryState (length (shown q m (sv_max s))) /\
    s' = set_results (jset (discovery_id r) r (results s)) s /\
    Forall2 (fun c c' => discoveryCandidateSchema c = Some c') (map_index (candidate_of q) 0 (shown q m (sv_max s))) (candidates r).
Proof using laws.
  unfold discover. intros H. inv_ok. subst.
  match goal with H : unique_endpoints _ _ = Ok ?m |- _ => exists m; split; [done|] end.
  match goal with H : spatialDiscoveryResultSchema _ = Some _ |- _ => unfold spatialDiscoveryResultSchema, revisionSchema in H end.
  inv_some. cbn [discovery_id request_id dc_workspace dc_node dc_revision dc_state candidates dc_created dc_updated] in *.
  match goal with H : z_nonneg _ = Some _ |- _ => apply z_nonneg_sound in H as [-> ?] end.
  match goal with H : z_array _ _ _ = Some _ |- _ => apply z_array_forall2 in H end.
  split_and!; try done. unfold ranked, shown. by rewrite length_map_index.
Qed.

Lemma map_forall2 {A B C} (R : A -> B -> Prop) (f : A -> C) (g : B -> C) l k :
  Forall2 R l k -> (forall x y, R x y -> f x = g y) -> map g k = map f l.
Proof. intros H HR. induction H as [|x y l k Hx _ IH]; [done|]. cbn [map]. by rewrite IH, (HR _ _ Hx). Qed.

Lemma sorted_forall2 {A B} (R : A -> B -> Prop) (S : A -> A -> Prop) (T : B -> B -> Prop) l k :
  Forall2 R l k -> StronglySorted S l ->
  (forall a a' b b', a ∈ l -> a' ∈ l -> R a b -> R a' b' -> S a a' -> T b b') -> StronglySorted T k.
Proof.
  intros H. induction H as [|x y l k Hx Hl IH]; intros Hs HT; [constructor|]. apply StronglySorted_inv in Hs as [Hs Hf].
  constructor; [apply IH; [done|]; intros a a' b b' Ha Ha'; apply HT; by right|].
  apply Forall_forall. intros b Hb. apply list_elem_of_lookup in Hb as [i Hi]. destruct (Forall2_lookup_r _ _ _ _ _ Hl Hi) as (a & Ha & Hab).
  rewrite Forall_forall in Hf. apply list_elem_of_lookup_2 in Ha. apply (HT x a); [left|by right|done|done|by apply Hf].
Qed.

Section shown.
Context (cl : CollationLaws col).
Context (q : discovery_request) (m : jsmap endpoint) (max : jsnum).
Context (Hm : unique_endpoints (dq_endpoints q) [] = Ok m).
Context (Hq : forall raw, raw ∈ dq_endpoints q -> relevance_of q (trim (ed_ref raw)) <> NaN).

Lemma unique_facts : NoDup (jkeys m) /\ jall (fun k d => ed_ref d = k) m /\ jall (fun _ d => newest q d) m /\
  (forall raw, raw ∈ dq_endpoints q -> exists d d', spatialEndpointDetailsSchema raw = Some d /\ jget (ed_ref d) m = Some d').
Proof using Hm.
  destruct (unique_spec (dq_endpoints q) [] m) as (Hn & Hk & Hin & _ & Hnew); [constructor|by intros ? ?|done|].
  split_and!; [done|done| |].
  - intros k d Hd. split; [destruct (Hin k d Hd) as [[=]|H]; done|]. intros raw d' Hraw Hs He.
    destruct (Hnew raw Hraw) as (x & y & Hx & Hy & Hle). simplify_eq. rewrite He, (Hk _ _ Hd), Hd in Hy. by simplify_eq.
  - intros raw Hraw. destruct (Hnew raw Hraw) as (x & y & Hx & Hy & Hle). by exists x, y.
Qed.

Lemma elem_entries e : e ∈ entries q m <-> exists d, jget (ed_ref d) m = Some d /\ e = (d, relevance_of q (ed_ref d)).
Proof using Hm.
  destruct unique_facts as (Hn & Hk & _). unfold entries. rewrite list_elem_of_fmap. split.
  - intros (d & -> & [k Hd]%elem_jvalues). apply elem_jget in Hd; [|done]. assert (He : ed_ref d = k) by exact (Hk _ _ Hd). subst k. by exists d.
  - intros (d & Hd & ->). exists d. split; [done|]. apply elem_jvalues. exists (ed_ref d). by apply jget_elem.
Qed.

Lemma entries_counted : Forall counted (entries q m).
Proof using Hm Hq laws.
  destruct unique_facts as (_ & _ & Hnew & _). apply Forall_forall. intros e (d & Hd & ->)%elem_entries.
  destruct (Hnew _ _ Hd) as [(raw & Hraw & Hs) _]. pose proof (endpointSchema_keys _ _ Hs) as (He & _).
  destruct (relevance_range q (ed_ref d)) as (x & Hx & H0 & _); [rewrite He; by apply Hq|]. by exists x.
Qed.

Lemma shown_sorted : StronglySorted (fun x y => ranked_before x y = true) (sort_by ranked_before (entries q m)).
Proof using Hm Hq cl laws.
  apply (sort_by_sorted_on _ (ranked_total cl) counted); [|apply entries_counted]. intros x y z. by apply ranked_trans.
Qed.

Lemma shown_entries e : e ∈ shown q m max -> e ∈ entries q m.
Proof using.
  unfold shown. intros H. apply elem_of_take in H as (i & H%list_elem_of_lookup_2 & _). by rewrite sort_by_perm in H.
Qed.

Lemma shown_distinct : NoDup (map (fun e => ed_ref e.1) (shown q m max)).
Proof using Hm.
  destruct unique_facts as (Hn & Hk & _). eapply sublist_NoDup; [|apply fmap_sublist, sublist_take].
  change (NoDup ((fun e => ed_ref e.1) <$> sort_by ranked_before (entries q m))). rewrite sort_by_perm.
  unfold entries. rewrite <-list_fmap_compose. change (NoDup (map ed_ref (jvalues m))). by rewrite (jvalues_keys ed_ref).
Qed.

(** The candidates of the result, one per shown entry. *)
Lemma shown_view cs :
  Forall2 (fun c c' => discoveryCandidateSchema c = Some c') (map_index (candidate_of q) 0 (shown q m max)) cs ->
  Forall2 (fun e c => (exists d, jget (ed_ref d) m = Some d /\ e = (d, relevance_of q (ed_ref d))) /\ shows q e.1 c)
    (shown q m max) cs /\
  forall i c, cs !! i = Some c -> rank c = Z.of_nat i + 1.
Proof using Hm laws.
  intros Hcs. destruct unique_facts as (_ & _ & Hnew & _).
  assert (Hall : forall i c, cs !! i = Some c -> exists d, shown q m max !! i = Some (d, relevance_of q (ed_ref d)) /\
    jget (ed_ref d) m = Some d /\ shows q d c /\ rank c = Z.of_nat i + 1).
  { intros i c Hc. destruct (Forall2_lookup_r _ _ _ _ _ Hcs Hc) as (x & Hx & Hs). rewrite lookup_map_index in Hx.
    apply fmap_Some in Hx as (e & He & ->). pose proof (list_elem_of_lookup_2 _ _ _ He) as Hin.
    apply shown_entries, elem_entries in Hin as (d & Hd & ->). destruct (Hnew _ _ Hd) as [(raw & _ & Hraw) _].
    destruct (candidate_parsed _ _ _ _ _ Hraw Hs) as [Hshow Hrank]. exists d. split_and!; [done|done|done|]. rewrite Hrank. lia. }
  split.
  - apply Forall2_same_length_lookup_2; [apply Forall2_length in Hcs; by rewrite length_map_index in Hcs|].
    intros i e c He Hc. destruct (Hall i c Hc) as (d & Hd & Hj & Hs & _). simplify_eq. split; [by exists d | done].
  - intros i c Hc. by destruct (Hall i c Hc) as (d & _ & _ & _ & ?).
Qed.

(** What is not shown is no more relevant than what is. *)
Lemma hidden_after e a : e ∈ entries q m -> e ∉ shown q m max -> a ∈ shown q m max ->
  length (shown q m max) = slice_count max /\ num_le (toFixed 4 e.2) (toFixed 4 a.2) = true.
Proof using Hm Hq cl laws.
  intros He Hn Ha. pose proof shown_sorted as Hs. pose proof entries_counted as Hc. rewrite Forall_forall in Hc.
  assert (Hd : e ∈ drop (slice_count max) (sort_by ranked_before (entries q m))).
  { rewrite <-(sort_by_perm ranked_before), <-(take_drop (slice_count max) (sort_by _ _)) in He.
    apply elem_of_app in He as [He|He]; done. }
  unfold shown in *. split.
  - rewrite length_take. apply list_elem_of_lookup in Hd as [i Hi]. rewrite lookup_drop in Hi. apply lookup_lt_Some in Hi. lia.
  - rewrite <-(take_drop (slice_count max) (sort_by _ _)) in Hs. apply StronglySorted_app in Hs as (Hs & _ & _).
    apply ranked_relevance; [apply Hc; by apply shown_entries | by apply Hc | by apply Hs].
Qed.
End shown.

(** C23. What a discovery shows, when no endpoint of the request has a relevance
    that is NaN (one that does upsets the sort, see
    [nan_relevance_upsets_the_ranking]) and [localeCompare] is a total preorder
    on the identifiers. Every candidate is an endpoint of the request,
    in the newest of the revisions given for its reference, described by its own
    details and neither selected nor pinned; no reference is shown twice; the
    ranks count from one, in falling relevance; an endpoint that is not shown is
    left out only because the limit is reached, and is, to the four digits that are
    kept, no more relevant than any that is shown. The registry is untouched and the result is filed under its
    identifier. *)
Theorem discovery_ranks_the_newest (cl : CollationLaws col) q now s s' r :
  (forall raw, raw ∈ dq_endpoints q -> relevance_of q (trim (ed_ref raw)) <> NaN) ->
  discover q now s = (s', Ok r) ->
  let cs := candidates r in
  s' = set_results (jset (discovery_id r) r (results s)) s /\
  (dc_state r = DS_EMPTY <-> cs = []) /\
  Forall (fun c => newest q (cn_details c) /\ shows q (cn_details c) c) cs /\
  NoDup (map cn_ref cs) /\
  (forall i c, cs !! i = Some c -> rank c = Z.of_nat i + 1) /\
  StronglySorted (fun a b => num_le (relevance b) (relevance a) = true) cs /\
  (forall raw d, raw ∈ dq_endpoints q -> spatialEndpointDetailsSchema raw = Some d -> ed_ref d ∉ map cn_ref cs ->
     forall c, c ∈ cs -> length cs = slice_count (sv_max s) /\
       num_le (toFixed 4 (relevance_of q (ed_ref d))) (relevance c) = true).
Proof using laws.
  intros Hq H cs. apply discover_inv in H as (m & Hm & _ & Hst & Hs' & Hcs). fold cs in Hcs.
  pose proof (shown_view q m (sv_max s) Hm cs Hcs) as [Hview Hrank]. set (sh := shown q m (sv_max s)) in *.
  destruct (unique_facts q m Hm) as (_ & Hk & Hnew & Hall).
  assert (Hlen : length cs = length sh) by (symmetry; by eapply Forall2_length).
  assert (Hrefs : map cn_ref cs = map (fun e => ed_ref e.1) sh).
  { apply (map_forall2 _ _ _ _ _ Hview). by intros x y [_ [_ ->]]. }
  split_and!; [done| | | |done| |].
  - rewrite Hst. fold sh. rewrite <-Hlen. by destruct cs.
  - apply Forall_forall. intros c [i Hi]%list_elem_of_lookup. destruct (Forall2_lookup_r _ _ _ _ _ Hview Hi) as (e & He & (d & Hd & ->) & Hc).
    rewrite (shows_details _ _ _ Hc). split; [by apply (Hnew (ed_ref d)) | done].
  - rewrite Hrefs. by apply shown_distinct.
  - pose proof (shown_sorted cl q m Hm Hq) as Hs. rewrite <-(take_drop (slice_count (sv_max s)) (sort_by _ _)) in Hs.
    apply StronglySorted_app in Hs as (_ & Hs & _). apply (sorted_forall2 _ _ _ _ _ Hview Hs).
    pose proof (entries_counted q m Hm Hq) as Hc. rewrite Forall_forall in Hc.
    intros a a' b b' Ha%shown_entries Ha'%shown_entries [(d & _ & ->) Hb] [(d' & _ & ->) Hb'] Hbefore.
    rewrite (shows_relevance _ _ _ Hb), (shows_relevance _ _ _ Hb').
    apply (ranked_relevance (d, _) (d', _)); [by apply Hc..|done].
  - intros raw d Hraw Hd Hnot c [i Hi]%list_elem_of_lookup. rewrite Hrefs in Hnot. rewrite Hlen.
    destruct (Hall raw Hraw) as (x & d' & Hx & Hd'). assert (x = d) as -> by congruence.
    assert (Href : ed_ref d' = ed_ref d) by exact (Hk _ _ Hd').
    destruct (Forall2_lookup_r _ _ _ _ _ Hview Hi) as (e & He%list_elem_of_lookup_2 & (d0 & _ & ->) & Hc).
    rewrite (shows_relevance _ _ _ Hc), <-Href.
    apply (hidden_after cl q m (sv_max s) Hm Hq (d', relevance_of q (ed_ref d')) (d0, relevance_of q (ed_ref d0))); [| |done].
    + apply elem_entries; [done|]. exists d'. by rewrite Href.
    + intros Hin. apply Hnot. rewrite list_elem_of_fmap. by exists (d', relevance_of q (ed_ref d')).
Qed.

(** ** Selection *)

(** The candidate a call names in the results of the service. *)
Definition names (s : service) (id cid : string) (d : discovery) (c : candidate) : Prop :=
  jget id (results s) = Some d /\ find_candidate cid d = Some c.

Lemma revise_spec id d st f now s s' r : revise id d st f now s = (s', r) ->
  (now = None /\ s' = s /\ r = Err TP_RANGE_ERROR) \/
  exists t, now = Some t /\
    let d' := Discovery (discovery_id d) (request_id d) (dc_workspace d) (dc_node d) (dc_revision d + 1) st
                (map f (candidates d)) (dc_created d) t in
    s' = set_results (jset id d' (results s)) s /\ r = Ok d'.
Proof using.
  unfold revise, jbind, jlift, jread, jwrite, jret. destruct now as [t|]; cbn; intros [= <- <-]; [|by left]. right. by exists t.
Qed.

Lemma revise_registry id d st f now s s' r : revise id d st f now s = (s', r) -> sv_registry s' = sv_registry s.
Proof using. by intros [(_ & -> & _)|(t & _ & -> & _)]%revise_spec. Qed.

(** The scope of the registry, and looking a reference up in it. *)
Definition same_scope (s : service) : Prop :=
  sv_workspace s = rg_workspace (sv_registry s) /\ sv_node s = rg_node (sv_registry s).

Lemma lookup_spec ws node ref g g' r : resolveInScope ws node ref g = (g', r) ->
  rg_workspace g' = rg_workspace g /\ rg_node g' = rg_node g /\ rg_records g' = rg_records g /\ rg_history g' = rg_history g /\
  (ws = rg_workspace g -> node = rg_node g -> g' = g) /\
  exists o, r = Ok o /\ (ws = rg_workspace g -> node = rg_node g ->
    o = with_projection PRIMARY <$> jget (recordKey g (trim ref)) (rg_records g)).
Proof using.
  unfold resolveInScope, resolve, jbind, jlift, jread, jwrite, jret.
  destruct (str_eqb ws _ && str_eqb node _) eqn:Hs.
  - destruct (jget _ _) as [x|]; cbn; intros [= <- <-]; split_and!; try done; by eexists.
  - cbn. intros [= <- <-]. split_and!; try done.
    + intros -> ->. by rewrite !str_eqb_refl in Hs.
    + eexists. split; [done|]. intros -> ->. by rewrite !str_eqb_refl in Hs.
Qed.

Lemma find_selected cid d c revision t : find_candidate cid d = Some c ->
  find_candidate cid (Discovery (discovery_id d) (request_id d) (dc_workspace d) (dc_node d) revision DS_READY
    (map (fun x => if str_eqb (candidate_id x) cid then with_state CN_SELECTED x else x) (candidates d)) (dc_created d) t)
  = Some (with_state CN_SELECTED c).
Proof using.
  unfold find_candidate. cbn [candidates]. induction (candidates d) as [|x l IH]; [done|]. cbn [map list_find].
  unfold str_eqb. case_bool_decide as Hx.
  - rewrite !decide_True by done. cbn. by intros [= ->].
  - rewrite !decide_False by done. destruct (list_find _ l) as [[i y]|], (list_find _ (map _ l)) as [[j z]|]; cbn; done || exact IH.
Qed.

(** One selection, up to the result it files: the registry it writes. *)
Lemma select_spec id cid t1 t2 s s' r : select id cid t1 t2 s = (s', r) ->
  (s' = s /\ ((r = Err UNKNOWN_DISCOVERY /\ jget id (results s) = None) \/
      r = Err UNKNOWN_CANDIDATE /\ exists d, jget id (results s) = Some d /\ find_candidate cid d = None)) \/
  exists d c g1 o, names s id cid d c /\
    resolveInScope (sv_workspace s) (sv_node s) (cn_ref c) (sv_registry s) = (g1, Ok o) /\
    let stale := match o with Some x => bool_decide (endpoint_revision c < rf_revision x) | None => false end in
    ((stale = true /\ s' = set_sv_registry g1 s /\ r = Err STALE_CANDIDATE) \/
     stale = false /\ exists g2 res,
       Registry.discover (ReferenceInput (cn_ref c) (cn_endpoint c) ek_endpoint (NInt (endpoint_revision c)) (Some PRIMARY)
                            None None) t1 g1 = (g2, res) /\
       match res with
       | Err e => s' = set_sv_registry g2 s /\ r = Err (TP_REGISTRY e)
       | Ok _ => revise id d DS_READY (fun x => if str_eqb (candidate_id x) cid then with_state CN_SELECTED x else x) t2
                   (set_sv_registry g2 s) = (s', r)
       end).
Proof using.
  unfold select, get, jbind, jlift, jread. destruct (jget id (results s)) as [d|] eqn:Hd; cbn [of_option];
    [|intros [= <- <-]; left; by auto].
  destruct (find_candidate cid d) as [c|] eqn:Hc; cbn [of_option]; [|intros [= <- <-]; left; eauto 6].
  destruct (jzoom _ _ _ (resolveInScope _ _ _) s) as [s1 r1] eqn:H1. apply jzoom_inv in H1 as (g1 & res & H1 & -> & ->).
  pose proof (lookup_spec _ _ _ _ _ _ H1) as (_ & _ & _ & _ & _ & o & -> & _). intros H. right. exists d, c, g1, o.
  split; [done|]. split; [done|]. cbv zeta. destruct o as [x|]; [destruct (bool_decide (_ < _)) eqn:Hs|]; cbn [negb require] in H.
  1: { injection H as <- <-. by left. }
  all: right; split; [done|]; destruct (jzoom _ _ _ (Registry.discover _ _) _) as [s2 r2] eqn:H2;
    apply jzoom_inv in H2 as (g2 & res & H2 & -> & ->); cbn [sv_registry set_sv_registry] in H2; exists g2, res;
    (split; [done|]); destruct res; [exact H | by injection H as <- <-].
Qed.

Lemma find_candidate_spec cid d c : find_candidate cid d = Some c -> c ∈ candidates d /\ candidate_id c = cid.
Proof using.
  unfold find_candidate. intros (p & Hp & [= <-])%bind_Some. destruct p as [i x]. apply list_find_Some in Hp as (Hx & Hid & _).
  split; [by eapply list_elem_of_lookup_2 | done].
Qed.

Lemma browse_registry s s' : browse_step s s' -> sv_registry s' = sv_registry s.
Proof using.
  intros [q now s1 r H|id s1 r H|id now s1 r H|id cid now s1 r H|id ref now s1 r H].
  - unfold discover in H. run_method H; done.
  - unfold get, jbind, jread, jlift in H. by injection H as <- _.
  - unfold dismiss, get, jbind, jread, jlift in H. destruct (jget _ _); cbn [of_option require] in H; [by apply revise_registry in H | by simplify_eq].
  - unfold pin, get, jbind, jread, jlift in H. destruct (jget _ _); cbn [of_option require] in H; [|by simplify_eq].
    destruct (find_candidate _ _); cbn [of_option require] in H; [by apply revise_registry in H | by simplify_eq].
  - unfold markStale, get, jbind, jread, jlift in H. destruct (jget _ _); cbn [of_option require] in H; [|by simplify_eq].
    destruct (existsb _ _); cbn [of_option require] in H; [by apply revise_registry in H | by simplify_eq].
Qed.

(** What a selection does to the records of the registry. *)
Lemma select_writes id cid t1 t2 s s' r : select id cid t1 t2 s = (s', r) ->
  rg_workspace (sv_registry s') = rg_workspace (sv_registry s) /\
  (rg_records (sv_registry s') = rg_records (sv_registry s) \/
   exists d c x, names s id cid d c /\
     rg_records (sv_registry s') = jset (recordKey (sv_registry s) (trim (cn_ref c))) x (rg_records (sv_registry s)) /\
     rf_revision x = endpoint_revision c /\ rf_kind x = ek_endpoint /\ entity_id x = trim (cn_endpoint c) /\
     forall old, jget (recordKey (sv_registry s) (trim (cn_ref c))) (rg_records (sv_registry s)) = Some old ->
       rf_revision old <= rf_revision x).
Proof using laws.
  intros [(-> & _)|(d & c & g1 & o & Hn & Hl & H)]%select_spec; [by auto|].
  apply lookup_spec in Hl as (Hw & _ & Hr & _). cbv zeta in H.
  assert (Hk : forall ref, recordKey g1 ref = recordKey (sv_registry s) ref) by (intros; unfold recordKey; by rewrite Hw).
  destruct H as [(_ & -> & _)|(_ & g2 & res & H2 & H)]; [by auto|].
  assert (Hreg : sv_registry s' = g2).
  { destruct res; [by apply revise_registry in H | by destruct H as [-> _]]. }
  rewrite Hreg. pose proof (discover_workspace _ _ _ _ _ H2) as Hw2. split; [by rewrite Hw2|].
  apply (discover_writes laws) in H2. cbn [ref_canonical ref_entity ref_kind ref_revision] in H2. rewrite !Hk, Hr in H2.
  destruct H2 as [[H2 _]|(x & _ & Hrec & Hrev & Hkind & He & Hold)]; [by left|]. right. exists d, c, x. by injection Hrev as Hrev.
Qed.

Lemma own_workspace s s' : own_step s s' -> rg_workspace (sv_registry s') = rg_workspace (sv_registry s).
Proof using laws. by intros [s1 ->%browse_registry|id cid t1 t2 s1 r [H _]%select_writes|id cid t1 t2 s1 r [H _]%select_writes]. Qed.

Lemma own_writes s s' key : own_step s s' ->
  jget key (rg_records (sv_registry s')) <> jget key (rg_records (sv_registry s)) ->
  exists id cid t1 t2 r d c x, select id cid t1 t2 s = (s', r) /\ names s id cid d c /\
    key = recordKey (sv_registry s) (trim (cn_ref c)) /\ jget key (rg_records (sv_registry s')) = Some x /\
    rf_revision x = endpoint_revision c /\ rf_kind x = ek_endpoint /\ entity_id x = trim (cn_endpoint c) /\
    forall old, jget key (rg_records (sv_registry s)) = Some old -> rf_revision old <= rf_revision x.
Proof using laws.
  assert (Hsel : forall id cid t1 t2 s1 r, select id cid t1 t2 s = (s1, r) ->
    jget key (rg_records (sv_registry s1)) <> jget key (rg_records (sv_registry s)) -> exists d c x, names s id cid d c /\
    key = recordKey (sv_registry s) (trim (cn_ref c)) /\ jget key (rg_records (sv_registry s1)) = Some x /\
    rf_revision x = endpoint_revision c /\ rf_kind x = ek_endpoint /\ entity_id x = trim (cn_endpoint c) /\
    forall old, jget key (rg_records (sv_registry s)) = Some old -> rf_revision old <= rf_revision x).
  { intros id cid t1 t2 s1 r (_ & [->|(d & c & x & Hn & Hr & Hrev & Hkind & He & Hold)])%select_writes Hne; [done|].
    exists d, c, x. rewrite Hr, jget_jset in Hne |- *. destruct (str_eqb _ key) eqn:Hkey; [|done].
    apply str_eqb_eq in Hkey as <-. done. }
  intros [s1 Hb%browse_registry|id cid t1 t2 s1 r H|id cid t1 t2 s1 r H] Hne; [by rewrite Hb in Hne| |];
    exists id, cid, t1, t2, r; destruct (Hsel _ _ _ _ _ _ H Hne) as (d & c & x & ?); by exists d, c, x.
Qed.

(** Selection is the only promotion path: over any calls of the service,
    whenever the registry's record of a reference ends up different, one of the
    calls was a selection of a candidate of a known result with that reference,
    and it left the candidate's endpoint at the candidate's revision, no older
    than what was there. Discovering, reading, pinning, dismissing and marking
    stale register nothing. *)
Theorem only_selection_registers s s' key :
  rtc own_step s s' ->
  jget key (rg_records (sv_registry s')) <> jget key (rg_records (sv_registry s)) ->
  exists s1 s2 id cid t1 t2 r d c x,
    rtc own_step s s1 /\ select id cid t1 t2 s1 = (s2, r) /\ rtc own_step s2 s' /\
    names s1 id cid d c /\ key = recordKey (sv_registry s) (trim (cn_ref c)) /\
    jget key (rg_records (sv_registry s2)) = Some x /\ rf_revision x = endpoint_revision c /\ rf_kind x = ek_endpoint /\
    entity_id x = trim (cn_endpoint c) /\
    forall old, jget key (rg_records (sv_registry s1)) = Some old -> rf_revision old <= rf_revision x.
Proof using laws.
  intros H. induction H as [|s s1 s2 Hs Hr IH]; [done|]. intros Hne.
  destruct (decide (jget key (rg_records (sv_registry s2)) = jget key (rg_records (sv_registry s1)))) as [He|He].
  - rewrite He in Hne. destruct (own_writes _ _ _ Hs Hne) as (id & cid & t1 & t2 & r & d & c & x & H & Hn & Hk & ?).
    exists s, s1, id, cid, t1, t2, r, d, c, x. by split; [apply rtc_refl|].
  - destruct (IH He) as (a & b & id & cid & t1 & t2 & r & d & c & x & Ha & Hsel & Hb & Hn & Hk & ?).
    exists a, b, id, cid, t1, t2, r, d, c, x. split; [by eapply rtc_l|]. split; [done|]. split; [done|]. split; [done|].
    split; [|done]. unfold recordKey in *. by rewrite <-(own_workspace _ _ Hs).
Qed.

(** A selection in the scope of the registry: what it leaves and how it fails. *)
Theorem selection_outcome id cid t1 t2 s s' r :
  same_scope s -> select id cid t1 t2 s = (s', r) ->
  match r with
  | Ok d' => exists d c x, names s id cid d c /\ jget id (results s') = Some d' /\
      dc_revision d' = dc_revision d + 1 /\ dc_state d' = DS_READY /\
      map candidate_id (candidates d') = map candidate_id (candidates d) /\
      find_candidate cid d' = Some (with_state CN_SELECTED c) /\
      jget (recordKey (sv_registry s) (trim (cn_ref c))) (rg_records (sv_registry s')) = Some x /\
      rf_revision x = endpoint_revision c /\ entity_id x = trim (cn_endpoint c)
  | Err UNKNOWN_DISCOVERY => s' = s /\ jget id (results s) = None
  | Err UNKNOWN_CANDIDATE => s' = s /\ exists d, jget id (results s) = Some d /\ find_candidate cid d = None
  | Err STALE_CANDIDATE => s' = s /\ exists d c x, names s id cid d c /\
      jget (recordKey (sv_registry s) (trim (cn_ref c))) (rg_records (sv_registry s)) = Some x /\
      endpoint_revision c < rf_revision x
  | Err INVALID_ENDPOINT => False
  | Err (TP_REGISTRY _) | Err TP_RANGE_ERROR => results s' = results s
  end.
Proof using laws.
  intros [Hws Hnode] [(-> & [(-> & ?)|(-> & d & ?)])|(d & c & g1 & o & Hn & Hl & H)]%select_spec; [done|by eauto|].
  apply lookup_spec in Hl as (_ & _ & _ & _ & Hsame & o' & [= <-] & Ho). specialize (Hsame Hws Hnode). specialize (Ho Hws Hnode). subst g1.
  cbv zeta in H. destruct H as [(Hst & -> & ->)|(Hst & g2 & res & H2 & H)].
  { split; [by destruct s|]. subst o. destruct (jget _ _) as [x|] eqn:Hx in Hst; [|done]. apply bool_decide_eq_true in Hst.
    by exists d, c, x. }
  destruct res as [y|e]; [|by destruct H as [-> ->]].
  apply (discover_writes laws) in H2. cbn [ref_canonical ref_entity ref_kind ref_revision] in H2.
  apply revise_spec in H as [(_ & -> & ->)|(t & _ & -> & ->)]; [done|]. cbn [results set_results dc_revision dc_state candidates].
  destruct H2 as [[_ H2]|(x & [= <-] & Hrec & Hrev & _ & He & _)].
  { destruct (H2 y eq_refl) as (rev & [= <-] & Hy & Hlt). exfalso. subst o. rewrite Hy in Hst. cbn in Hst.
    apply bool_decide_eq_false in Hst. lia. }
  exists d, c, y. split; [done|]. split; [apply jget_jset_eq|]. split; [done|]. split; [done|]. split; [|split].
  - rewrite map_map. apply map_ext. intros a. by destruct (str_eqb _ _).
  - apply find_selected. exact (proj2 Hn).
  - cbn. rewrite Hrec, jget_jset_eq. injection Hrev as ->. by rewrite He.
Qed.
End topology.

Module TopologyWitness.
#[local] Existing Instance zod_ref.
#[local] Instance w_collation : Collation := code_compare.

Definition an_endpoint (id : string) (revision : Z) (load : option jsnum) : endpoint :=
  Endpoint "w" "n" ("endpoint:" +:+ id) id revision id "search" "model" [] AV_AVAILABLE SF_READY
    (Freshness F_FRESH 0 (num 60) "probe") (Latency None None None None) load None (Cost None None None None)
    (Deposit None None None None) None None [] [] [] (Limits None None None None) None None None [].

(** Three references, one of them twice, for two places. *)
Definition a_request : discovery_request :=
  DiscoveryRequest "r" [an_endpoint "a" 1 None; an_endpoint "b" 1 None; an_endpoint "a" 3 None; an_endpoint "c" 1 None]
    (Some [("endpoint:a", Finite (4 # 10)); ("endpoint:b", Finite (9 # 10)); ("endpoint:c", Finite (1 # 10))]).

Definition g0 : registry := Registry "w" "n" [] [] (Telemetry 0 0 0 0 0).
Definition s0 : service := Service "w" "n" (num 2) g0 [].
Definition s1 : service := (discover a_request (Some 5) s0).1.
Definition found : discovery := match (discover a_request (Some 5) s0).2 with Ok r => r | Err _ => Discovery "" "" "" "" 0 DS_EMPTY [] 0 0 end.

Lemma discovery_ranks_the_newest_witness :
  map cn_endpoint (candidates found) = ["b"; "a"]%string /\ map endpoint_revision (candidates found) = [1; 3] /\
  NoDup (map cn_ref (candidates found)) /\
  forall raw d, raw ∈ dq_endpoints a_request -> spatialEndpointDetailsSchema raw = Some d ->
    ed_ref d ∉ map cn_ref (candidates found) -> forall c, c ∈ candidates found ->
    length (candidates found) = 2%nat /\ num_le (toFixed 4 (relevance_of a_request (ed_ref d))) (relevance c) = true.
Proof.
  split; [vm_compute; reflexivity|]. split; [vm_compute; reflexivity|].
  edestruct (discovery_ranks_the_newest (laws := zod_ref_laws) code_compare_laws a_request (Some 5) s0 s1 found)
    as (_ & _ & _ & Hn & _ & _ & Hh).
  - intros raw Hraw. repeat (apply elem_of_cons in Hraw as [->|Hraw]; [vm_compute; discriminate|]). by apply elem_of_nil in Hraw.
  - vm_compute. reflexivity.
  - split; [exact Hn|]. intros raw d Hraw Hd Hnot c Hc. exact (Hh raw d Hraw Hd Hnot c Hc).
Defined.

Definition s2 : service := (pin "r:discovery" "r:candidate:2" (Some 6) s1).1.
Definition s3 : service := (select "r:discovery" "r:candidate:2" (Some 7) (Some 7) s2).1.

Lemma only_selection_registers_witness :
  exists t1 t2 id cid u1 u2 r d c x,
    rtc own_step s0 t1 /\ select id cid u1 u2 t1 = (t2, r) /\ rtc own_step t2 s3 /\
    names t1 id cid d c /\ "w:endpoint:a"%string = recordKey g0 (trim (cn_ref c)) /\
    jget "w:endpoint:a" (rg_records (sv_registry t2)) = Some x /\ rf_revision x = endpoint_revision c /\ rf_kind x = ek_endpoint /\
    entity_id x = trim (cn_endpoint c) /\
    forall old, jget "w:endpoint:a" (rg_records (sv_registry t1)) = Some old -> rf_revision old <= rf_revision x.
Proof.
  apply (only_selection_registers (laws := zod_ref_laws) s0 s3 "w:endpoint:a").
  - apply (rtc_l _ s0 s1); [exact (tp_browse _ _ (tp_discover _ a_request (Some 5) _ _ (surjective_pairing _)))|].
    apply (rtc_l _ s1 s2); [exact (tp_browse _ _ (tp_pin _ "r:discovery" "r:candidate:2" (Some 6) _ _ (surjective_pairing _)))|].
    apply rtc_once. exact (tp_select _ "r:discovery" "r:candidate:2" (Some 7) (Some 7) _ _ (surjective_pairing _)).
  - vm_compute. discriminate.
Defined.

Definition states (id : string) (s : service) : list candidate_state :=
  match jget id (results s) with Some d => map cn_state (candidates d) | None => [] end.
Definition revision_of (s : service) : option Z := rf_revision <$> jget "w:endpoint:a" (rg_records (sv_registry s)).

(** A relevance that is NaN is compared with its neighbours by identifier only,
    which hides from the sort how they compare: with room for one, 0.1 is shown
    and 0.9 hidden. *)
Theorem nan_relevance_upsets_the_ranking :
  let q := DiscoveryRequest "r" [an_endpoint "a" 1 None; an_endpoint "b" 1 None; an_endpoint "c" 1 None]
    (Some [("endpoint:a", Finite (1 # 10)); ("endpoint:b", NaN); ("endpoint:c", Finite (9 # 10))]) in
  match (discover q (Some 5) (Service "w" "n" (num 1) g0 [])).2 with
  | Ok r => map (fun c => (cn_endpoint c, relevance c)) (candidates r) = [("a"%string, toFixed 4 (Finite (1 # 10)))]
  | Err _ => False
  end.
Proof. vm_compute. reflexivity. Qed.

(** A dismissed result is selected from all the same, and is ready again; both
    its candidates can be selected. *)
Theorem dismissed_candidates_are_selected :
  let d := (dismiss "r:discovery" (Some 6) s1).1 in
  let a := (select "r:discovery" "r:candidate:2" (Some 7) (Some 7) d).1 in
  let b := (select "r:discovery" "r:candidate:1" (Some 8) (Some 8) a).1 in
  states "r:discovery" d = [CN_DISMISSED; CN_DISMISSED] /\
  states "r:discovery" a = [CN_DISMISSED; CN_SELECTED] /\ (dc_state <$> jget "r:discovery" (results a)) = Some DS_READY /\
  states "r:discovery" b = [CN_SELECTED; CN_SELECTED].
Proof. vm_compute. done. Qed.

(** A candidate marked stale is promoted. *)
Theorem stale_candidates_are_promoted :
  let d := (markStale "r:discovery" "endpoint:a" (Some 6) s1).1 in
  states "r:discovery" d = [CN_CANDIDATE; CN_STALE] /\
  revision_of (promote "r:discovery" "r:candidate:2" (Some 7) (Some 7) d).1 = Some 3.
Proof. vm_compute. done. Qed.

(** A service whose workspace is padded does not see the records of the registry
    it shares: a candidate older than the record is selected, while the registry
    keeps its revision. *)
Theorem padded_scope_skips_the_stale_check :
  let newer := (Registry.discover (ReferenceInput "endpoint:a" "a" ek_endpoint (NInt 9) None None None) (Some 1) g0).1 in
  let s := (discover a_request (Some 5) (Service "w " "n" (num 2) newer [])).1 in
  let '(s', r) := select "r:discovery" "r:candidate:2" (Some 7) (Some 7) s in
  states "r:discovery" s' = [CN_CANDIDATE; CN_SELECTED] /\ revision_of s' = Some 9 /\
  (select "r:discovery" "r:candidate:2" (Some 7) (Some 7)
     (discover a_request (Some 5) (Service "w" "n" (num 2) newer [])).1).2 = Err STALE_CANDIDATE.
Proof. vm_compute. done. Qed.

(** Asking again under the same identifier forgets a selection and starts the
    revisions over. *)
Theorem rediscovery_forgets_the_selection :
  (dc_revision <$> jget "r:discovery" (results s3)) = Some 2 /\ states "r:discovery" s3 = [CN_CANDIDATE; CN_SELECTED] /\
  let s := (discover a_request (Some 9) s3).1 in
  (dc_revision <$> jget "r:discovery" (results s)) = Some 0 /\ states "r:discovery" s = [CN_CANDIDATE; CN_CANDIDATE].
Proof. vm_compute. done. Qed.

(** A reference that names a member of [Object.prototype] fails the discovery
    when relevances are given, and ranks in the middle when they are not. *)
Theorem inherited_names_fail_the_discovery :
  let e := Endpoint "w" "n" "constructor" "a" 1 "a" "search" "model" [] AV_AVAILABLE SF_READY
    (Freshness F_FRESH 0 (num 60) "probe") (Latency None None None None) None None (Cost None None None None)
    (Deposit None None None None) None None [] [] [] (Limits None None None None) None None None [] in
  (discover (DiscoveryRequest "r" [e] (Some [])) (Some 5) s0).2 = Err INVALID_ENDPOINT /\
  match (discover (DiscoveryRequest "r" [e] None) (Some 5) s0).2 with
  | Ok r => map relevance (candidates r) = [Finite (50000 # 100000)]
  | Err _ => False
  end.
Proof. vm_compute. done. Qed.

(** A healthy endpoint under load, drawn active. *)
Example busy_endpoint :
  let o := toEndpointEnergyObject (an_endpoint "a" 1 (Some (Finite (9 # 10)))) USED true in
  eo_availability o = EN_BUSY /\ unknownMetrics o = ["latency"; "capacity"; "cost"]%string /\ eo_collapsed o = false /\
  coreIntensity o = Finite (8800 # 10000).
Proof. vm_compute. done. Qed.
End TopologyWitness.
