(* ===== verification/ChangeIntent.v ===== *)
(** * Change intents

    src/web/operator-dashboard/src/spatial/components/change-intent.ts: the
    boundary every change of an endpoint, bundle, provider, runtime or resource
    passes, with its properties. A value is a string, an integer, a boolean or
    null, kept as a [json] value. The calls of [applyCanonical] are recorded in
    [cs_calls], each with whether it returned. *)

From Stdlib Require Import Sorted.
From stdpp Require Import relations.
From S2P Require Import Prelude.
From S2P Require Import Json.
From S2P Require Import Contracts.
From S2P Require Import Numbers.
From S2P Require Import RemoteContracts.

#[local] Open Scope Z_scope.

(** ** Data *)

Inductive source : Type := S_FORM | S_VOICE | S_SPATIAL.
Inductive state : Type :=
| PROPOSED | CI_VALID | NEEDS_CLARIFICATION | CI_STALE | OCCUPIED | UNAUTHORIZED_FIELD | AGENT_OFFLINE | APPLIED | CI_REJECTED.
#[export] Instance state_eq_dec : EqDecision state.
Proof. solve_decision. Defined.
Inductive field_type : Type := FT_STRING | FT_INTEGER | FT_NUMBER | FT_BOOLEAN | FT_ENUM.
Inductive target_type : Type := T_ENDPOINT | T_BUNDLE | T_PROVIDER | T_RUNTIME | T_RESOURCE.

Definition target_name (t : target_type) : string :=
  match t with
  | T_ENDPOINT => "endpoint" | T_BUNDLE => "bundle" | T_PROVIDER => "provider" | T_RUNTIME => "runtime"
  | T_RESOURCE => "resource"
  end.

(** [ChangeIntentField], with the defaults [create] fills in. *)
Record field : Type := Field {
  cf_path : string;
  cf_type : field_type;
  editable : bool;
  required : bool;
  cf_unit : option string;
  cf_minimum : option jsnum;
  cf_maximum : option jsnum;
  allowed_values : list json;
}.

Record target : Type := Target {
  tg_type : target_type;
  tg_id : string;
  tg_revision : Z;
}.

(** An entry of the diff: path, from, to. *)
Record change : Type := Change { ch_path : string; ch_from : json; ch_to : json }.

(** [SpatialChangeIntent]. *)
Record intent : Type := Intent {
  intent_id : string;
  in_workspace : string;
  in_node : string;
  in_target : target;
  in_current : jsmap json;
  in_proposed : jsmap json;
  field_schema : list field;
  diff : list change;
  in_state : state;
  in_actor : string;
  in_key : string;
  in_revision : Z;
  in_source : source;
  in_session : option string;
  in_summary : option string;
  source_ref : option string;
  in_correlation : option string;
  captured_at : iso;
  in_created_at : iso;
  in_updated_at : iso;
}.

(** [ChangeIntentInput]. *)
Record input : Type := Input {
  ip_workspace : string;
  ip_node : string;
  ip_intent : option string;
  ip_target : target;
  ip_current : jsmap json;
  ip_proposed : jsmap json;
  ip_fields : list field;
  ip_actor : string;
  ip_key : string;
  ip_revision : Z;
  ip_source : source;
  ip_session : option string;
  ip_summary : option string;
  ip_source_ref : option string;
  ip_correlation : option string;
}.

(** [ChangeIntentValidation]. *)
Record validation : Type := Validation {
  vl_state : state;
  vl_intent : intent;
  vl_changed : list string;
  alternatives : list string;
}.

(** The options of [validate]. *)
Record checks : Type := Checks {
  ck_revision : Z;
  agentOnline : option bool;
  capabilities : option (list string);
  occupied : option (string -> json -> bool);
}.

(** [ChangeIntentApplyResult]. *)
Record applied : Type := Applied {
  ap_duplicate : bool;
  ap_intent : intent;
  ap_revision : Z;
  ap_result_ref : string;
}.

(** The codes of [ChangeIntentError], a [RangeError] of [toISOString], and what
    [applyCanonical] throws. *)
Inductive ci_error : Type := CI_INVALID | NOT_EXPLICIT | CI_RANGE_ERROR | CI_CANONICAL.
#[export] Instance ci_error_eq_dec : EqDecision ci_error.
Proof. solve_decision. Defined.

Record service : Type := Service {
  byIdempotency : jsmap applied;
  cs_calls : list (intent * bool);
}.

(** ** Differences *)

(** [left === right] on values. *)
Definition sameValue (a b : json) : bool :=
  match a, b with
  | JNull, JNull => true
  | JBool x, JBool y => Bool.eqb x y
  | JNum x, JNum y => bool_decide (x = y)
  | JStr x, JStr y => str_eqb x y
  | _, _ => false
  end.

(** [record[path] ?? null]. *)
Definition value_at (m : jsmap json) (path : string) : json := default JNull (jget path m).

(** [values.sort()], by code units. *)
Definition sort_strings (l : list string) : list string := map fst (sort_keys (map (fun k => (k, tt)) l)).

Definition changedPaths (current proposed : jsmap json) : list string :=
  sort_strings (unique (filter (fun p => negb (sameValue (value_at current p) (value_at proposed p)) = true)
                          (jkeys current ++ jkeys proposed))).

Definition diff_of (current proposed : jsmap json) : list change :=
  map (fun p => Change p (value_at current p) (value_at proposed p)) (changedPaths current proposed).

(** [new Map(fields.map((field) => [field.path, field]))]. *)
Definition fieldByPath (fields : list field) : jsmap field := foldl (fun m f => jset (cf_path f) f m) [] fields.

(** ** Contract *)

Section contract.
Context {zod : Zod}.

Definition pathSchema (s : string) : option string := z_string 1 128 s.

Definition changeIntentValueSchema (v : json) : option json :=
  match v with
  | JStr s => JStr <$> z_string 0 4000 s
  | JNum _ | JBool _ | JNull => Some v
  | _ => None
  end.

Definition changeIntentRecordSchema : jsmap json -> option (jsmap json) := z_record pathSchema changeIntentValueSchema.

Definition fieldSchema (f : field) : option field :=
  p ← pathSchema (cf_path f);
  u ← nullable idSchema (cf_unit f);
  lo ← nullable finiteNumber (cf_minimum f);
  hi ← nullable finiteNumber (cf_maximum f);
  vals ← z_array changeIntentValueSchema 128 (allowed_values f);
  Some (Field p (cf_type f) (editable f) (required f) u lo hi vals).

Definition changeSchema (c : change) : option change :=
  p ← pathSchema (ch_path c);
  a ← changeIntentValueSchema (ch_from c);
  b ← changeIntentValueSchema (ch_to c);
  Some (Change p a b).

Definition targetSchema (t : target) : option target :=
  id ← idSchema (tg_id t);
  rev ← revisionSchema (tg_revision t);
  Some (Target (tg_type t) id rev).

Definition spatialChangeIntentSchema (i : intent) : option intent :=
  id ← idSchema (intent_id i);
  ws ← idSchema (in_workspace i);
  node ← idSchema (in_node i);
  tg ← targetSchema (in_target i);
  cur ← changeIntentRecordSchema (in_current i);
  prop ← changeIntentRecordSchema (in_proposed i);
  fields ← z_array fieldSchema 256 (field_schema i);
  d ← z_array changeSchema 256 (diff i);
  actor ← idSchema (in_actor i);
  key ← idSchema (in_key i);
  rev ← revisionSchema (in_revision i);
  sess ← nullable idSchema (in_session i);
  sum ← nullable (z_string 0 2000) (in_summary i);
  src ← nullable idSchema (source_ref i);
  corr ← nullable idSchema (in_correlation i);
  t0 ← timestampSchema (captured_at i);
  t1 ← timestampSchema (in_created_at i);
  t2 ← timestampSchema (in_updated_at i);
  Some (Intent id ws node tg cur prop fields d (in_state i) actor key rev (in_source i) sess sum src corr t0 t1 t2).

(** ** The service *)

(** The loop over the changed paths. *)
Fixpoint check_paths (fields : jsmap field) (proposed : jsmap json) (paths : list string) : result ci_error unit :=
  match paths with
  | [] => Ok tt
  | p :: paths =>
      let? f := of_option (jget p fields) CI_INVALID in
      require (editable f) CI_INVALID ;?
      require (negb (required f && match jget p proposed with Some JNull => true | _ => false end)) CI_INVALID ;?
      check_paths fields proposed paths
  end.

(** [create(input)]; [fresh] is what the id factory returns. *)
Definition create (i : input) (fresh : string) (now : date) : result ci_error intent :=
  let? t := of_option now CI_RANGE_ERROR in
  check_paths (fieldByPath (ip_fields i)) (ip_proposed i) (changedPaths (ip_current i) (ip_proposed i)) ;?
  of_option (spatialChangeIntentSchema
    (Intent (default fresh (ip_intent i)) (ip_workspace i) (ip_node i) (ip_target i) (ip_current i) (ip_proposed i)
       (ip_fields i) (diff_of (ip_current i) (ip_proposed i)) PROPOSED (ip_actor i) (ip_key i) (ip_revision i) (ip_source i)
       (ip_session i) (ip_summary i) (ip_source_ref i) (ip_correlation i) t t t)) CI_INVALID.

Definition with_intent_state (st : state) (t : iso) (i : intent) : intent :=
  Intent (intent_id i) (in_workspace i) (in_node i) (in_target i) (in_current i) (in_proposed i) (field_schema i) (diff i)
    st (in_actor i) (in_key i) (in_revision i) (in_source i) (in_session i) (in_summary i) (source_ref i) (in_correlation i)
    (captured_at i) (in_created_at i) t.

(** A capability for one path or for every path of the target's type. *)
Definition may_change (i : intent) (caps : list string) (path : string) : bool :=
  let name := target_name (tg_type (in_target i)) in
  bool_decide (name +:+ ":change:" +:+ path ∈ caps) || bool_decide (name +:+ ":change" ∈ caps).

Definition verdict (i : intent) (o : checks) : state * list string :=
  if negb (default false (agentOnline o)) then (AGENT_OFFLINE, [])
  else if bool_decide (in_revision i < ck_revision o) || bool_decide (tg_revision (in_target i) < ck_revision o) then
    (CI_STALE, ["Refresh " +:+ target_name (tg_type (in_target i)) +:+ " " +:+ tg_id (in_target i) +:+
                " and review the proposed values."])
  else if existsb (fun c => negb (may_change i (default [] (capabilities o)) (ch_path c))) (diff i) then
    (UNAUTHORIZED_FIELD, ["Use a field exposed by the current capability grant or open Advanced controls."])
  else if existsb (fun c => match occupied o with Some f => f (ch_path c) (ch_to c) | None => false end) (diff i) then
    (OCCUPIED, ["Choose an unused value and validate again."])
  else (CI_VALID, []).

(** [validate(intent, options)]. *)
Definition validate (i : intent) (o : checks) (now : date) : result ci_error validation :=
  let v := verdict i o in
  let? t := of_option now CI_RANGE_ERROR in
  let? parsed := of_option (spatialChangeIntentSchema (with_intent_state v.1 t i)) CI_INVALID in
  Ok (Validation v.1 parsed (map ch_path (diff i)) v.2).

Definition apply_key (actor key : string) : string := actor +:+ ":" +:+ key.

(** [apply(intent, options)]; [canonical] is what [applyCanonical] returns, if
    it does. *)
Definition apply (i : intent) (confirm : bool) (v : validation) (canonical : intent -> option (Z * string))
  : method service ci_error applied :=
  jlift (require confirm NOT_EXPLICIT) ;!
  jlift (require (bool_decide (vl_state v = CI_VALID)) CI_INVALID) ;!
  let key := apply_key (in_actor i) (in_key i) in
  let! s := jread in
  match jget key (byIdempotency s) with
  | Some d => jret (Applied true (ap_intent d) (ap_revision d) (ap_result_ref d))
  | None =>
      jwrite (Service (byIdempotency s) (cs_calls s ++ [(i, bool_decide (is_Some (canonical i)))])) ;!
      let! r := jlift (of_option (canonical i) CI_CANONICAL) in
      let res := Applied false (with_intent_state APPLIED (in_updated_at i) i) r.1 r.2 in
      let! s := jread in
      jwrite (Service (jset key res (byIdempotency s)) (cs_calls s)) ;!
      jret res
  end.

Definition hasIdempotencyKey (actor key : string) (s : service) : bool := jhas (apply_key actor key) (byIdempotency s).
End contract.

(** ** Sorting *)

Lemma sort_strings_perm l : sort_strings l ≡ₚ l.
Proof. unfold sort_strings. rewrite sort_keys_perm, map_map. simpl. by rewrite map_id. Qed.

Lemma sort_strings_sorted l : StronglySorted String.le (sort_strings l).
Proof.
  unfold sort_strings. induction (sort_keys_sorted (map (fun k => (k, tt)) l)) as [|kv m Hs IH Hf]; simpl; [constructor|].
  constructor; [done|]. apply Forall_fmap. eapply Forall_impl; [exact Hf|]. by intros.
Qed.

Lemma elem_changedPaths cur prop p :
  p ∈ changedPaths cur prop <-> sameValue (value_at cur p) (value_at prop p) = false.
Proof.
  unfold changedPaths. rewrite sort_strings_perm, elem_of_unique, list_elem_of_filter, negb_true_iff.
  split; [by intros [? _]|]. intros H. split; [done|]. rewrite elem_of_app.
  destruct (jget p cur) as [v|] eqn:Hc; [left|destruct (jget p prop) as [v|] eqn:Hp; [right|]].
  - apply jget_elem in Hc. unfold jkeys. apply list_elem_of_fmap. by exists (p, v).
  - apply jget_elem in Hp. unfold jkeys. apply list_elem_of_fmap. by exists (p, v).
  - unfold value_at in H. by rewrite Hc, Hp in H.
Qed.

Lemma NoDup_changedPaths cur prop : NoDup (changedPaths cur prop).
Proof. unfold changedPaths. rewrite sort_strings_perm. apply NoDup_unique. Qed.

(** ** Properties *)

Section properties.
Context {zod : Zod} {laws : ZodLaws zod}.

Lemma value_parsed v v' : changeIntentValueSchema v = Some v' -> v' = v.
Proof using laws.
  destruct v; simpl; try done; try (by intros [= <-]).
  intros (t & Ht & ->)%fmap_Some. by apply z_string_sound in Ht as [-> _].
Qed.

Lemma change_parsed c c' : changeSchema c = Some c' -> c' = c.
Proof using laws.
  intros H. unfold changeSchema in H. inv_some.
  repeat match goal with H : changeIntentValueSchema _ = Some _ |- _ => apply value_parsed in H as -> end.
  match goal with H : pathSchema _ = Some _ |- _ => apply z_string_sound in H as [-> _] end. by destruct c.
Qed.

Lemma diff_parsed n l l' : z_array changeSchema n l = Some l' -> l' = l.
Proof using laws.
  intros H%z_array_forall2. induction H as [|x y l l' Hx H IH]; [done|]. apply change_parsed in Hx. by subst.
Qed.

Lemma field_parsed f f' : fieldSchema f = Some f' -> cf_path f' = cf_path f /\ editable f' = editable f /\ required f' = required f.
Proof using laws.
  intros H. unfold fieldSchema in H. inv_some. cbn. split; [|done].
  by match goal with H : pathSchema _ = Some _ |- _ => apply z_string_sound in H as [-> _] end.
Qed.

Lemma intent_parsed i i' : spatialChangeIntentSchema i = Some i' ->
  diff i' = diff i /\ in_state i' = in_state i /\
  Forall2 (fun f f' => cf_path f' = cf_path f /\ editable f' = editable f) (field_schema i) (field_schema i').
Proof using laws.
  intros H. unfold spatialChangeIntentSchema in H. inv_some. cbn.
  match goal with H : z_array changeSchema _ _ = Some _ |- _ => apply diff_parsed in H as -> end.
  split; [done|]. split; [done|].
  match goal with H : z_array fieldSchema _ _ = Some _ |- _ => apply z_array_forall2 in H; eapply Forall2_impl; [exact H|] end.
  intros f f' Hf. apply field_parsed in Hf. naive_solver.
Qed.

Lemma fieldByPath_elem fields p f : jget p (fieldByPath fields) = Some f -> f ∈ fields /\ cf_path f = p.
Proof.
  unfold fieldByPath. cut (forall m, (forall q g, jget q m = Some g -> g ∈ fields /\ cf_path g = q) ->
    forall l, (forall g, g ∈ l -> g ∈ fields) -> jget p (foldl (fun m f => jset (cf_path f) f m) m l) = Some f ->
    f ∈ fields /\ cf_path f = p); [intros H; by apply H|].
  intros m Hm l. revert m Hm. induction l as [|g l IH]; intros m Hm Hl; [apply Hm|]. cbn [foldl]. apply IH; [|set_solver].
  intros q h. rewrite jget_jset. unfold str_eqb. case_bool_decide as Hq; [|apply Hm]. intros [= <-]. split; [|done].
  apply Hl. left.
Qed.

Lemma check_paths_ok fields prop paths : check_paths fields prop paths = Ok tt ->
  forall p, p ∈ paths -> exists f, jget p fields = Some f /\ editable f = true.
Proof.
  induction paths as [|q paths IH]; cbn [check_paths]; intros H p Hp; [by apply elem_of_nil in Hp|].
  apply rbind_ok in H as (f & Hf%of_option_ok & H). apply rbind_ok in H as ([] & He%require_ok & H).
  apply rbind_ok in H as ([] & _ & H). apply elem_of_cons in Hp as [->|Hp]; [by exists f | by apply IH].
Qed.

(** A created intent is exactly what changes: its diff lists, once each and
    in order, the paths whose current and proposed values differ, with both
    values, and each of them is a declared, editable field. *)
Theorem created_diff_is_exact i fresh now c : create i fresh now = Ok c ->
  in_state c = PROPOSED /\ StronglySorted String.le (map ch_path (diff c)) /\ NoDup (map ch_path (diff c)) /\
  (forall p, p ∈ map ch_path (diff c) <-> sameValue (value_at (ip_current i) p) (value_at (ip_proposed i) p) = false) /\
  forall ch, ch ∈ diff c ->
    ch_from ch = value_at (ip_current i) (ch_path ch) /\ ch_to ch = value_at (ip_proposed i) (ch_path ch) /\
    exists f, f ∈ field_schema c /\ cf_path f = ch_path ch /\ editable f = true.
Proof using laws.
  unfold create. intros H. apply rbind_ok in H as (t & _ & H). apply rbind_ok in H as ([] & Hchk & Hp%of_option_ok).
  apply intent_parsed in Hp as (Hd & Hst & Hf). cbn [diff in_state field_schema] in *.
  assert (map ch_path (diff c) = changedPaths (ip_current i) (ip_proposed i)) as Hpaths.
  { rewrite Hd. unfold diff_of. rewrite map_map. simpl. apply map_id. }
  split; [done|]. rewrite Hpaths. split; [apply sort_strings_sorted|]. split; [apply NoDup_changedPaths|].
  split; [apply elem_changedPaths|]. intros ch Hch. rewrite Hd in Hch. apply list_elem_of_fmap in Hch as (p & -> & Hp).
  split; [done|]. split; [done|]. cbn [ch_path]. apply (check_paths_ok _ _ _ Hchk) in Hp as (f & Hget & He).
  apply fieldByPath_elem in Hget as (Hin & Hfp). apply list_elem_of_lookup in Hin as (n & Hn).
  destruct (Forall2_lookup_l _ _ _ _ _ Hf Hn) as (f' & Hn' & Hfp' & He'). exists f'. split; [|by rewrite Hfp', He'].
  apply list_elem_of_lookup. by exists n.
Qed.

(** An intent is valid for the checks exactly when the agent is online, nothing
    is stale, every path is covered by a capability and no value is occupied. *)
Theorem valid_iff i o : (verdict i o).1 = CI_VALID <->
  agentOnline o = Some true /\ ck_revision o <= in_revision i /\ ck_revision o <= tg_revision (in_target i) /\
  forall c, c ∈ diff i -> may_change i (default [] (capabilities o)) (ch_path c) = true /\
    forall f, occupied o = Some f -> f (ch_path c) (ch_to c) = false.
Proof.
  unfold verdict. destruct (agentOnline o) as [[]|]; simpl; [|split; [done | naive_solver]..].
  destruct (bool_decide (in_revision i < ck_revision o)) eqn:E1; simpl; [apply bool_decide_eq_true in E1; split; [done|]; intros; lia|].
  destruct (bool_decide (tg_revision (in_target i) < ck_revision o)) eqn:E2; simpl; [apply bool_decide_eq_true in E2; split; [done|]; intros; lia|].
  apply bool_decide_eq_false in E1, E2. case_match eqn:E3; simpl.
  { split; [done|]. intros (_ & _ & _ & Hall). apply existsb_exists in E3 as (c & Hc%list_elem_of_In & Hn%negb_true_iff).
    destruct (Hall _ Hc) as [H _]. congruence. }
  case_match eqn:E4; simpl.
  { split; [done|]. intros (_ & _ & _ & Hall). apply existsb_exists in E4 as (c & Hc%list_elem_of_In & Hn).
    destruct (Hall _ Hc) as [_ H']. destruct (occupied o) as [f|]; [|done]. rewrite (H' f eq_refl) in Hn. done. }
  split; [|done]. intros _. split; [done|]. split; [lia|]. split; [lia|]. intros c Hc. split.
  - apply negb_false_iff. rewrite <-not_true_iff_false. intros Hn. rewrite <-not_true_iff_false in E3. apply E3, existsb_exists.
    exists c. split; [by apply list_elem_of_In | done].
  - intros f Hf. rewrite <-not_true_iff_false. intros Hn. rewrite <-not_true_iff_false in E4. apply E4, existsb_exists.
    exists c. split; [by apply list_elem_of_In|]. by rewrite Hf.
Qed.

(** ** Histories *)

(** A call of [apply], whatever its options. *)
Definition ci_step (s s' : service) : Prop :=
  exists i confirm v canonical r, apply i confirm v canonical s = (s', r).

Definition call_key (c : intent * bool) : string := apply_key (in_actor c.1) (in_key c.1).

Definition calls_ok (s : service) : Prop :=
  jkeys (byIdempotency s) = map call_key (filter (fun c => c.2 = true) (cs_calls s)) /\ NoDup (jkeys (byIdempotency s)).

Lemma calls_ok_step s s' : ci_step s s' -> calls_ok s -> calls_ok s'.
Proof.
  intros (i & confirm & v & canonical & r & H) [Hk Hd]. unfold apply in H. run_method H; try done.
  - unfold calls_ok. cbn [byIdempotency cs_calls].
    match goal with Hc : of_option (canonical i) _ = Ok _ |- _ => apply of_option_ok in Hc; rewrite Hc end.
    rewrite jset_fresh by done. unfold jkeys. rewrite map_app, filter_app, map_app, bool_decide_eq_true_2 by by eexists.
    rewrite (filter_cons_True _ (i, true)) by done. cbn. unfold jkeys in Hk, Hd. rewrite Hk. split; [done|].
    rewrite <-Hk. apply NoDup_app. split; [done|]. split; [|apply NoDup_singleton].
    intros k Hin Hk'%list_elem_of_singleton. subst. match goal with Hn : jget _ _ = None |- _ => by apply jget_None in Hn end.
  - unfold calls_ok. cbn [byIdempotency cs_calls].
    destruct (canonical i); [done|].
    rewrite filter_app, map_app, bool_decide_eq_false_2 by (intros [? ?]; done).
    rewrite (filter_cons_False _ (i, false)) by done. cbn. by rewrite app_nil_r.
Qed.

(** A change is applied at most once: over every history of calls, with
    whatever confirmations and validations, the canonical update of one actor and
    idempotency key returns at most once, and the keys that count as used are
    exactly those it returned for. *)
Theorem change_applied_once s : rtc ci_step (Service [] []) s ->
  NoDup (map call_key (filter (fun c => c.2 = true) (cs_calls s))) /\
  forall actor key, hasIdempotencyKey actor key s = true <->
    exists c, c ∈ cs_calls s /\ c.2 = true /\ call_key c = apply_key actor key.
Proof.
  intros Hs. assert (calls_ok s) as [Hk Hd].
  { remember (Service [] []) as s0 eqn:E. assert (calls_ok s0) as H0 by (subst; split; [done | constructor]). clear E.
    induction Hs; [done|]. by eapply IHHs, calls_ok_step. }
  rewrite <-Hk. split; [done|]. intros actor key. unfold hasIdempotencyKey, jhas. rewrite bool_decide_eq_true.
  rewrite <-not_eq_None_Some, jget_None. split.
  - intros Hin%dec_stable. rewrite Hk in Hin. apply list_elem_of_fmap in Hin as (c & Hc & [? ?]%list_elem_of_filter). by exists c.
  - intros (c & Hc & Ht & He) Hn. apply Hn. rewrite Hk, <-He. apply list_elem_of_fmap. exists c. split; [done|].
    by apply list_elem_of_filter.
Qed.
End properties.

(** ** A concrete service *)

Module ChangeWitness.
#[local] Existing Instance zod_ref.
#[local] Existing Instance zod_ref_laws.

Definition ex_field (path : string) : field := Field path FT_STRING true true None None None [].
Definition ex_input : input :=
  Input "w" "n" None (Target T_ENDPOINT "ep" 3) [("price", JNum 1); ("name", JStr "old")] [("name", JStr "new"); ("price", JNum 1)]
    [ex_field "name"; ex_field "price"] "actor" "key" 3 S_FORM None None None None.
Definition ex_created : result ci_error intent := create ex_input "change-1" (Some 0).
Definition ex_dummy : intent :=
  Intent "" "" "" (Target T_ENDPOINT "" 0) [] [] [] [] CI_STALE "" "" 0 S_FORM None None None None 0 0 0.
Definition ex_intent : intent := match ex_created with Ok i => i | Err _ => ex_dummy end.
Definition ex_checks : checks := Checks 3 (Some true) (Some ["endpoint:change:name"]) None.
Definition ex_validation : validation :=
  match validate ex_intent ex_checks (Some 1) with Ok v => v | Err _ => Validation CI_STALE ex_dummy [] [] end.
Definition ex_canonical (i : intent) : option (Z * string) := Some (4, "result").
Definition ex_apply (s : service) : service * result ci_error applied := apply ex_intent true ex_validation ex_canonical s.

Lemma created_diff_is_exact_witness : ex_created = Ok ex_intent /\ diff ex_intent = [Change "name" (JStr "old") (JStr "new")] /\
  NoDup (map ch_path (diff ex_intent)).
Proof.
  assert (ex_created = Ok ex_intent) as H by (vm_compute; reflexivity). split; [exact H|]. split; [vm_compute; reflexivity|].
  exact (proj1 (proj2 (proj2 (created_diff_is_exact _ _ _ _ H)))).
Defined.

Lemma change_applied_once_witness : let s := (ex_apply (ex_apply (Service [] [])).1).1 in
  NoDup (map call_key (filter (fun c => c.2 = true) (cs_calls s))) /\ length (cs_calls s) = 1%nat.
Proof.
  intros s. split; [|vm_compute; reflexivity]. refine (proj1 (change_applied_once s _)).
  apply (rtc_l _ _ (ex_apply (Service [] [])).1); [do 5 eexists; exact (surjective_pairing _)|].
  apply (rtc_l _ _ s); [do 5 eexists; exact (surjective_pairing _)|]. apply rtc_refl.
Defined.

(** ** On the edges *)

(** Leaving a required field out of the proposed values is not noticed. *)
Theorem required_field_can_be_dropped :
  match create (Input "w" "n" None (Target T_ENDPOINT "ep" 3) [("name", JStr "old")] [] [ex_field "name"] "actor" "key" 3 S_FORM
                  None None None None) "change-1" (Some 0) with
  | Ok i => diff i = [Change "name" (JStr "old") JNull]
  | Err _ => False
  end.
Proof. by vm_compute. Qed.

Definition ex_other : intent :=
  match create (Input "w" "n" None (Target T_ENDPOINT "other" 1) [] [("name", JStr "x")] [ex_field "name"] "actor" "other" 1 S_VOICE
                  None None None None) "change-2" (Some 0) with Ok i => i | Err _ => ex_dummy end.

(** The validation of one intent lets another one be applied, which its own
    validation refuses. *)
Theorem validation_of_another_intent_applies :
  (verdict ex_other ex_checks).1 = CI_STALE /\
  match (apply ex_other true ex_validation ex_canonical (Service [] [])).2 with
  | Ok r => ap_duplicate r = false /\ tg_id (in_target (ap_intent r)) = "other"
  | Err _ => False
  end.
Proof. by vm_compute. Qed.

Definition ex_named (actor key : string) : intent :=
  match create (Input "w" "n" None (Target T_ENDPOINT "ep" 3) [] [("name", JStr actor)] [ex_field "name"] actor key 3 S_FORM
                  None None None None) "change-1" (Some 0) with Ok i => i | Err _ => ex_dummy end.

(** The key of an application does not tell its two parts apart: the change of one
    actor is answered with the change of another. *)
Theorem application_key_confuses_actors :
  let s := (apply (ex_named "a:b" "c") true ex_validation ex_canonical (Service [] [])).1 in
  match (apply (ex_named "a" "b:c") true ex_validation ex_canonical s).2 with
  | Ok r => ap_duplicate r = true /\ in_actor (ap_intent r) = "a:b"
  | Err _ => False
  end.
Proof. by vm_compute. Qed.
End ChangeWitness.
