(* ===== verification/WorkspaceRepo.v ===== *)
(** * The workspace repository

    src/web/operator-dashboard/src/spatial/workspace/model.ts and repository.ts:
    the semantic snapshot of a workspace, the operations on it with their change
    log, and the presentation each device keeps beside it. The methods are
    [async] without an await, so each is one step. A payload is an entity or a
    relation with its fields under their own names (the aliases [entity_ref],
    [object_ref] and the like are left out), or anything else with its
    [canonical_ref], if that is a string. *)

From Stdlib Require Import QArith.
From stdpp Require Import relations pretty.
From S2P Require Import Prelude.
From S2P Require Import Json.
From S2P Require Import Contracts.
From S2P Require Import Numbers.
From S2P Require Import Status.
From S2P Require Import RemoteContracts.

#[local] Open Scope Z_scope.

(** ** Entities *)

Inductive role : Type := RL_PRIMARY | RL_SUBAGENT | RL_AGENT.
Inductive session_type : Type := ST_WORKSPACE | ST_PROTOCOL | ST_SESSION.
Inductive severity : Type := SV_INFO | SV_NOTICE | SV_WARNING | SV_CRITICAL.

(** The fields of one kind. *)
Inductive entity_data : Type :=
| D_agent (r : role) (binding : option string) (capabilities : list string)
| D_endpoint (type : string) (capabilities : list string) (provider owner : option string)
| D_service (type : string) (component : option string)
| D_session (type : session_type) (protocol : option string) (actors : list string)
| D_artifact (type provenance : string) (revision : Z)
| D_attention (s : severity) (requires : bool) (expires : option iso).

(** [provenanceSchema]: reference, revision and source. *)
Record ent_provenance : Type := EntProvenance { ep_ref : string; ep_revision : Z; ep_source : string }.

(** [SpatialCanonicalEntity]. *)
Record entity : Type := Entity {
  en_id : string;
  en_ref : string;
  en_node : string;
  en_revision : Z;
  en_label : string;
  en_state : string;
  en_availability : availability;
  en_freshness : freshness;
  en_created : iso;
  en_updated : iso;
  en_provenance : option ent_provenance;
  en_data : entity_data;
}.

Inductive relation_state : Type := RS_ACTIVE | RS_ARCHIVED | RS_UNKNOWN | RS_STALE | RS_UNAVAILABLE.

(** [SpatialRelationContract]. *)
Record relation : Type := Relation {
  re_id : string;
  re_node : string;
  re_revision : Z;
  re_type : string;
  re_source : string;
  re_target : string;
  re_state : relation_state;
  re_freshness : freshness;
  re_created : iso;
  re_updated : iso;
}.

(** [SpatialSemanticAnchor]. *)
Record anchor : Type := Anchor {
  an_ref : string;
  an_position : position;
  an_region : string;
  an_cluster : option string;
}.

(** [SpatialWorkspaceSnapshot]. *)
Record snapshot : Type := Snapshot {
  sn_workspace : string;
  sn_node : string;
  sn_revision : Z;
  semantic_revision : Z;
  sn_created : iso;
  sn_updated : iso;
  entities : list entity;
  relations : list relation;
  semantic_anchors : list anchor;
  cluster_membership : jsmap string;
  sn_primary : option string;
}.

Record camera : Type := Camera { ca_x : jsnum; ca_y : jsnum; ca_zoom : jsnum; focus_id : option string }.

Inductive quality : Type := Q_LOW | Q_MOBILE | Q_DESKTOP | Q_HIGH.

(** [SpatialViewportSnapshot]. *)
Record viewport : Type := Viewport {
  vp_workspace : string;
  vp_node : string;
  vp_device : string;
  presentation_revision : Z;
  vp_camera : camera;
  selection_ref : option string;
  opened_frame_refs : list string;
  temporary_focus_ref : option string;
  transient_discovery_refs : list string;
  quality_profile : quality;
  vp_updated : iso;
}.

(** ** Contracts *)

Section contracts.
Context {zod : Zod}.

Definition entityDataSchema (d : entity_data) : option entity_data :=
  match d with
  | D_agent r b caps => b ← nullable idSchema b; caps ← z_array idSchema 128 caps; Some (D_agent r b caps)
  | D_endpoint ty caps p o =>
      ty ← labelSchema ty; caps ← z_array idSchema 128 caps; p ← nullable idSchema p; o ← nullable idSchema o;
      Some (D_endpoint ty caps p o)
  | D_service ty c => ty ← labelSchema ty; c ← nullable idSchema c; Some (D_service ty c)
  | D_session ty p actors => p ← nullable idSchema p; actors ← z_array idSchema 128 actors; Some (D_session ty p actors)
  | D_artifact ty p rev => ty ← labelSchema ty; p ← idSchema p; rev ← revisionSchema rev; Some (D_artifact ty p rev)
  | D_attention s r e => e ← nullable timestampSchema e; Some (D_attention s r e)
  end.

Definition entProvenanceSchema (p : ent_provenance) : option ent_provenance :=
  r ← idSchema (ep_ref p);
  v ← revisionSchema (ep_revision p);
  s ← sourceSchema (ep_source p);
  Some (EntProvenance r v s).

Definition spatialEntitySchema (e : entity) : option entity :=
  id ← idSchema (en_id e);
  ref ← idSchema (en_ref e);
  node ← idSchema (en_node e);
  rev ← revisionSchema (en_revision e);
  label ← labelSchema (en_label e);
  st ← stateSchema (en_state e);
  fr ← spatialFreshnessSchema (en_freshness e);
  t ← timestampSchema (en_created e);
  t' ← timestampSchema (en_updated e);
  p ← nullable entProvenanceSchema (en_provenance e);
  d ← entityDataSchema (en_data e);
  Some (Entity id ref node rev label st (en_availability e) fr t t' p d).

Definition spatialRelationSchema (r : relation) : option relation :=
  id ← idSchema (re_id r);
  node ← idSchema (re_node r);
  rev ← revisionSchema (re_revision r);
  ty ← stateSchema (re_type r);
  src ← idSchema (re_source r);
  tgt ← idSchema (re_target r);
  fr ← spatialFreshnessSchema (re_freshness r);
  t ← timestampSchema (re_created r);
  t' ← timestampSchema (re_updated r);
  Some (Relation id node rev ty src tgt (re_state r) fr t t').

Definition semanticAnchorSchema (a : anchor) : option anchor :=
  ref ← idSchema (an_ref a);
  p ← spatialPositionSchema (an_position a);
  region ← stateSchema (an_region a);
  c ← nullable idSchema (an_cluster a);
  Some (Anchor ref p region c).

Definition spatialWorkspaceSchema (s : snapshot) : option snapshot :=
  ws ← idSchema (sn_workspace s);
  node ← idSchema (sn_node s);
  rev ← revisionSchema (sn_revision s);
  sem ← revisionSchema (semantic_revision s);
  t ← timestampSchema (sn_created s);
  t' ← timestampSchema (sn_updated s);
  es ← z_array spatialEntitySchema 10000 (entities s);
  rs ← z_array spatialRelationSchema 20000 (relations s);
  ans ← z_array semanticAnchorSchema 10000 (semantic_anchors s);
  cl ← z_record idSchema idSchema (cluster_membership s);
  p ← nullable idSchema (sn_primary s);
  Some (Snapshot ws node rev sem t t' es rs ans cl p).

Definition cameraSchema (c : camera) : option camera :=
  x ← finiteNumber (ca_x c);
  y ← finiteNumber (ca_y c);
  z ← finiteNumber (ca_zoom c);
  z ← guard (num_lt (num 0) z) z;
  f ← nullable idSchema (focus_id c);
  Some (Camera x y z f).

Definition spatialViewportSchema (v : viewport) : option viewport :=
  ws ← idSchema (vp_workspace v);
  node ← idSchema (vp_node v);
  dev ← idSchema (vp_device v);
  rev ← revisionSchema (presentation_revision v);
  cam ← cameraSchema (vp_camera v);
  sel ← nullable idSchema (selection_ref v);
  opened ← z_array idSchema 256 (opened_frame_refs v);
  focus ← nullable idSchema (temporary_focus_ref v);
  trans ← z_array idSchema 256 (transient_discovery_refs v);
  t ← timestampSchema (vp_updated v);
  Some (Viewport ws node dev rev cam sel opened focus trans (quality_profile v) t).

(** ** The model (workspace/model.ts) *)

Inductive conflict : Type :=
| NODE_MISMATCH | STALE_REVISION | CORRUPT_PRESENTATION | UNAUTHORIZED | AGENT_REPLACED | PARTIAL_PERSISTENCE | VALIDATION.

(** [SpatialWorkspaceConflict], the [SpatialApiError] of the scope check, the
    [ZodError] of a [parse] and the exception of an invalid date. *)
Inductive ws_error : Type := Ws (c : conflict) | WsScope | WsZod.

Definition assertWorkspaceOwnership (s : snapshot) (sc : scope) : result ws_error unit :=
  require (str_eqb (sn_node s) (scope_node_id sc)) (Ws NODE_MISMATCH).

Definition assertPresentationOwnership (v : viewport) (sc : scope) : result ws_error unit :=
  require (str_eqb (vp_node v) (scope_node_id sc)) (Ws NODE_MISMATCH).

Definition HOME_CAMERA : camera := Camera (num 0) (Finite (Qmake 1 2)) (num 1) None.

Definition createSpatialPresentationSnapshot (s : snapshot) (device : string) (q : quality) (now : date)
  : result ws_error viewport :=
  let? t := of_option now WsZod in
  Ok (Viewport (sn_workspace s) (sn_node s) device 0 HOME_CAMERA None [] None [] q t).

Definition resetSpatialPresentation (v : viewport) (now : date) : result ws_error viewport :=
  let? t := of_option now WsZod in
  Ok (Viewport (vp_workspace v) (vp_node v) (vp_device v) (presentation_revision v + 1) HOME_CAMERA None [] None []
        (quality_profile v) t).

Definition createSpatialWorkspaceModel (s : snapshot) (v : viewport) (sc : scope) : result ws_error (snapshot * viewport) :=
  let? s := of_option (spatialWorkspaceSchema s) (Ws NODE_MISMATCH) in
  let? v := of_option (spatialViewportSchema v) (Ws CORRUPT_PRESENTATION) in
  assertWorkspaceOwnership s sc ;?
  assertPresentationOwnership v sc ;?
  require (str_eqb (vp_workspace v) (sn_workspace s)) (Ws NODE_MISMATCH) ;?
  Ok (s, v).

Definition applySpatialSemanticSnapshot (current next : snapshot) (sc : scope) : result ws_error snapshot :=
  let? n := of_option (spatialWorkspaceSchema next) (Ws STALE_REVISION) in
  assertWorkspaceOwnership n sc ;?
  require (str_eqb (sn_workspace n) (sn_workspace current)) (Ws NODE_MISMATCH) ;?
  require (bool_decide (semantic_revision current <= semantic_revision n)) (Ws STALE_REVISION) ;?
  Ok n.

(** [assertSpatialScope] of data/transport.ts. *)
Definition assertSpatialScope (sc : scope) (node : string) : result ws_error unit :=
  let? sc := of_option (normalizeSpatialNodeScope sc) WsZod in
  let? node := of_option (idSchema node) WsZod in
  require (str_eqb (scope_node_id sc) node) WsScope.

(** ** The repository (workspace/repository.ts) *)

Inductive op_kind : Type := UPSERT_ENTITY | UPSERT_RELATION | ARCHIVE_ENTITY.
#[export] Instance op_kind_eq_dec : EqDecision op_kind.
Proof. solve_decision. Defined.

Inductive payload : Type :=
| P_entity (e : entity)
| P_relation (r : relation)
| P_other (canonical_ref : option string).

(** [SpatialSemanticOperation]. *)
Record operation : Type := Operation {
  op_id : string;
  op_key : string;
  op_actor : string;
  op_expected : number;
  op_kind_of : op_kind;
  op_payload : payload;
  op_binding_revision : option Z;
}.

(** [SpatialWorkspaceChange]. *)
Record ws_change : Type := WsChange {
  wc_id : string;
  wc_workspace : string;
  wc_node : string;
  wc_revision : Z;
  wc_operation : string;
  wc_actor : string;
  wc_kind : op_kind;
  wc_occurred : iso;
}.

(** [SpatialSemanticMutationResult]. *)
Record mutation_result : Type := MutationResult { mr_snapshot : snapshot; mr_change : ws_change }.

Record repository : Type := Repository {
  rp_snapshot : snapshot;
  presentations : jsmap viewport;
  rp_changes : list ws_change;
  rp_operations : jsmap mutation_result;
  failNextPersistence : bool;
  agentBindingRevision : Z;
}.

Definition set_presentations (m : jsmap viewport) (r : repository) : repository :=
  Repository (rp_snapshot r) m (rp_changes r) (rp_operations r) (failNextPersistence r) (agentBindingRevision r).
Definition set_fail (b : bool) (r : repository) : repository :=
  Repository (rp_snapshot r) (presentations r) (rp_changes r) (rp_operations r) b (agentBindingRevision r).
Definition setAgentBindingRevision (n : Z) (r : repository) : repository :=
  Repository (rp_snapshot r) (presentations r) (rp_changes r) (rp_operations r) (failNextPersistence r) n.
Definition failNextWrite (r : repository) : repository := set_fail true r.

(** The constructor; the options with their defaults. *)
Definition new_repository (s : snapshot) (fail : option bool) (binding : option Z) : result ws_error repository :=
  let? s := of_option (spatialWorkspaceSchema s) (Ws CORRUPT_PRESENTATION) in
  Ok (Repository s [] [] [] (default false fail) (default 0 binding)).

Definition getSnapshot (sc : scope) (r : repository) : result ws_error snapshot :=
  assertWorkspaceOwnership (rp_snapshot r) sc ;? Ok (rp_snapshot r).

Definition getChanges (sc : scope) (after : number) (r : repository) : result ws_error (list ws_change) :=
  assertWorkspaceOwnership (rp_snapshot r) sc ;?
  require (is_nonneg_integer after) (Ws VALIDATION) ;?
  Ok (filter (fun c => match after with NInt n => bool_decide (n < wc_revision c) | NOther => false end = true) (rp_changes r)).

(** The next snapshot: both revisions one up, and the entities or relations
    replaced. *)
Definition next_snapshot (s : snapshot) (t : iso) (es : list entity) (rs : list relation) : snapshot :=
  Snapshot (sn_workspace s) (sn_node s) (sn_revision s + 1) (semantic_revision s + 1) (sn_created s) t es rs
    (semantic_anchors s) (cluster_membership s) (sn_primary s).

Definition archived (now : iso) (e : entity) : entity :=
  Entity (en_id e) (en_ref e) (en_node e) (en_revision e) (en_label e) "ARCHIVED" AV_UNAVAILABLE (en_freshness e)
    (en_created e) now (en_provenance e) (en_data e).

Definition find_entity (ref : string) (es : list entity) : option entity :=
  head (filter (fun e => str_eqb (en_ref e) ref = true) es).
Definition find_relation (id : string) (rs : list relation) : option relation :=
  head (filter (fun r => str_eqb (re_id r) id = true) rs).

(** [payload?.canonical_ref], if it is a string. *)
Definition payload_ref (p : payload) : option string :=
  match p with P_entity e => Some (en_ref e) | P_relation _ => None | P_other r => r end.

Definition upsert_entity (e : entity) (s : snapshot) : snapshot :=
  next_snapshot s (en_updated e) (filter (fun x => str_eqb (en_ref x) (en_ref e) = false) (entities s) ++ [e]) (relations s).
Definition upsert_relation (r : relation) (s : snapshot) : snapshot :=
  next_snapshot s (re_updated r) (entities s) (filter (fun x => str_eqb (re_id x) (re_id r) = false) (relations s) ++ [r]).
Definition archive_entity (ref : string) (now : iso) (s : snapshot) : snapshot :=
  next_snapshot s now (map (fun e => if str_eqb (en_ref e) ref then archived now e else e) (entities s)) (relations s).

(** The snapshot an operation leads to. *)
Definition effect (sc : scope) (o : operation) (now : date) (s : snapshot) : result ws_error snapshot :=
  match op_kind_of o with
  | UPSERT_ENTITY =>
      let? e := of_option (match op_payload o with P_entity e => spatialEntitySchema e | _ => None end) (Ws PARTIAL_PERSISTENCE) in
      assertSpatialScope sc (en_node e) ;?
      Ok (upsert_entity e s)
  | UPSERT_RELATION =>
      let? r := of_option (match op_payload o with P_relation r => spatialRelationSchema r | _ => None end) (Ws PARTIAL_PERSISTENCE) in
      assertSpatialScope sc (re_node r) ;?
      Ok (upsert_relation r s)
  | ARCHIVE_ENTITY =>
      let? ref := of_option (payload_ref (op_payload o)) (Ws PARTIAL_PERSISTENCE) in
      require (negb (str_eqb ref "")) (Ws PARTIAL_PERSISTENCE) ;?
      require (bool_decide (is_Some (find_entity ref (entities s)))) (Ws PARTIAL_PERSISTENCE) ;?
      let? t := of_option now WsZod in
      Ok (archive_entity ref t s)
  end.

Definition change_of (o : operation) (s : snapshot) : ws_change :=
  WsChange ("change-" +:+ pretty (semantic_revision s)) (sn_workspace s) (sn_node s) (semantic_revision s) (op_id o) (op_actor o)
    (op_kind_of o) (sn_updated s).

Definition nonblank (s : string) : bool := negb (str_eqb (trim s) "").

(** [applySemanticOperation(scope, operation)]. *)
Definition applySemanticOperation (authorize : option (scope -> operation -> bool)) (sc : scope) (o : operation) (now : date)
  : method repository ws_error mutation_result :=
  let! r := jread in
  jlift (assertWorkspaceOwnership (rp_snapshot r) sc) ;!
  jlift (require (nonblank (op_id o) && nonblank (op_key o) && nonblank (op_actor o)) (Ws VALIDATION)) ;!
  jlift (require (is_nonneg_integer (op_expected o)) (Ws VALIDATION)) ;!
  match jget (op_key o) (rp_operations r) with
  | Some existing => jret existing
  | None =>
      jlift (require (match authorize with Some f => f sc o | None => true end) (Ws UNAUTHORIZED)) ;!
      jlift (require (bool_decide (op_expected o = NInt (semantic_revision (rp_snapshot r)))) (Ws STALE_REVISION)) ;!
      let! next := jlift (effect sc o now (rp_snapshot r)) in
      jlift (require (match op_binding_revision o with
                      | Some n => bool_decide (agentBindingRevision r = n)
                      | None => true
                      end) (Ws AGENT_REPLACED)) ;!
      if failNextPersistence r then jwrite (set_fail false r) ;! jthrow (Ws PARTIAL_PERSISTENCE)
      else
        let res := MutationResult next (change_of o next) in
        jwrite (Repository next (presentations r) (rp_changes r ++ [mr_change res])
                  (jset (op_key o) res (rp_operations r)) (failNextPersistence r) (agentBindingRevision r)) ;!
        jret res
  end.

Definition putPresentation (sc : scope) (v : viewport) : method repository ws_error viewport :=
  let! p := jlift (of_option (spatialViewportSchema v) (Ws CORRUPT_PRESENTATION)) in
  let! r := jread in
  jlift (assertWorkspaceOwnership (rp_snapshot r) sc) ;!
  jlift (require (str_eqb (vp_node p) (scope_node_id sc) && str_eqb (vp_workspace p) (sn_workspace (rp_snapshot r)))
           (Ws NODE_MISMATCH)) ;!
  jwrite (set_presentations (jset (vp_device p) p (presentations r)) r) ;!
  jret p.

(** [resetPresentation(scope, deviceId)]: the presentation and [recovered]. *)
Definition resetPresentation (sc : scope) (device : string) (now : date) : method repository ws_error (viewport * bool) :=
  let! r := jread in
  jlift (assertWorkspaceOwnership (rp_snapshot r) sc) ;!
  let! fallback := jlift (createSpatialPresentationSnapshot (rp_snapshot r) device Q_DESKTOP now) in
  match jget device (presentations r) ≫= spatialViewportSchema with
  | None => jwrite (set_presentations (jset device fallback (presentations r)) r) ;! jret (fallback, true)
  | Some v =>
      let! reset := jlift (resetSpatialPresentation v now) in
      jwrite (set_presentations (jset device reset (presentations r)) r) ;!
      jret (reset, false)
  end.

Definition getEntity (sc : scope) (ref : string) (r : repository) : result ws_error (option entity) :=
  assertWorkspaceOwnership (rp_snapshot r) sc ;? Ok (find_entity ref (entities (rp_snapshot r))).

Definition getRelation (sc : scope) (id : string) (r : repository) : result ws_error (option relation) :=
  assertWorkspaceOwnership (rp_snapshot r) sc ;? Ok (find_relation id (relations (rp_snapshot r))).
End contracts.
