(* ===== verification/WorkspaceRepoProps.v ===== *)
(** * The workspace repository is a pair of maps with a numbered log

    An abstract store (finite maps from canonical references to entities and
    from relation ids to relations), which the repository of WorkspaceRepo.v
    refines call for call, and the invariants of its change log, its recorded
    answers and its presentations. *)

From stdpp Require Import relations pretty.
From S2P Require Import Prelude.
From S2P Require Import Json.
From S2P Require Import Contracts.
From S2P Require Import Slot.
From S2P Require Import Numbers.
From S2P Require Import Status.
From S2P Require Import RemoteContracts.
From S2P Require Import WorkspaceRepo.

#[local] Open Scope Z_scope.

(** ** Calls *)

(** One call of a method of the repository. *)
Inductive call : Type :=
| C_apply (sc : scope) (o : operation) (now : date)
| C_put (sc : scope) (v : viewport)
| C_reset (sc : scope) (device : string) (now : date)
| C_snapshot (sc : scope)
| C_changes (sc : scope) (after : number)
| C_entity (sc : scope) (ref : string)
| C_relation (sc : scope) (id : string)
| C_binding (n : Z)
| C_fail.

(** What a call returns; [W] is what stands for a snapshot. *)
Inductive answer (W : Type) : Type :=
| A_mutation (w : W) (c : ws_change)
| A_presentation (v : viewport) (recovered : bool)
| A_snapshot (w : W)
| A_changes (cs : list ws_change)
| A_entity (e : option entity)
| A_relation (r : option relation)
| A_none.
Arguments A_mutation {W} w c.
Arguments A_presentation {W} v recovered.
Arguments A_snapshot {W} w.
Arguments A_changes {W} cs.
Arguments A_entity {W} e.
Arguments A_relation {W} r.
Arguments A_none {W}.

Definition answer_map {V W} (f : V -> W) (a : answer V) : answer W :=
  match a with
  | A_mutation w c => A_mutation (f w) c
  | A_presentation v b => A_presentation v b
  | A_snapshot w => A_snapshot (f w)
  | A_changes cs => A_changes cs
  | A_entity e => A_entity e
  | A_relation r => A_relation r
  | A_none => A_none
  end.

Definition result_map {X Y} (f : X -> Y) (r : result ws_error X) : result ws_error Y :=
  match r with Ok x => Ok (f x) | Err e => Err e end.

(** The results of a sequence of calls, in order. *)
Fixpoint trace {S A} (exec : call -> S -> S * A) (cs : list call) (s : S) : list A :=
  match cs with
  | [] => []
  | c :: cs => let p := exec c s in p.2 :: trace exec cs p.1
  end.

(** The finite map of a list under the keys of its elements: the first element
    with a key counts. *)
Section keyed.
Context {V : Type} (k : V -> string).

Fixpoint keyed (l : list V) : gmap string V :=
  match l with
  | [] => ∅
  | x :: l => <[k x := x]> (keyed l)
  end.

Lemma lookup_keyed i l : keyed l !! i = head (filter (fun x => str_eqb (k x) i = true) l).
Proof.
  induction l as [|x l IH]; [done|]. cbn [keyed]. rewrite lookup_insert, filter_cons.
  destruct (decide (k x = i)) as [<-|Hne]; [by rewrite str_eqb_refl|].
  rewrite decide_False; [done|]. by rewrite str_eqb_eq.
Qed.

Lemma keyed_app l1 l2 : keyed (l1 ++ l2) = keyed l1 ∪ keyed l2.
Proof. induction l1 as [|x l1 IH]; cbn [app keyed]; [by rewrite (left_id_L ∅ (∪))|]. by rewrite IH, insert_union_l. Qed.

(** Filtering a key out and appending an element with it is an insertion. *)
Lemma keyed_replace l x : keyed (filter (fun y => str_eqb (k y) (k x) = false) l ++ [x]) = <[k x := x]> (keyed l).
Proof.
  rewrite keyed_app. cbn [keyed]. induction l as [|y l IH]; [apply (left_id_L ∅ (∪))|]. cbn [keyed]. rewrite filter_cons.
  destruct (decide (k y = k x)) as [Heq|Hne].
  - rewrite decide_False by (rewrite Heq, str_eqb_refl; done). by rewrite IH, Heq, insert_insert_eq.
  - rewrite decide_True by by apply bool_decide_eq_false_2. cbn [keyed]. by rewrite <-insert_union_l, IH, insert_insert_ne.
Qed.

Lemma keyed_map (g : V -> V) l : (forall y, k (g y) = k y) -> keyed (map g l) = g <$> keyed l.
Proof. intros Hk. induction l as [|y l IH]; cbn [map keyed]; [by rewrite fmap_empty|]. by rewrite fmap_insert, Hk, IH. Qed.

Lemma keyed_key i l x : keyed l !! i = Some x -> k x = i.
Proof.
  rewrite lookup_keyed. intros H%head_Some_elem_of. rewrite list_elem_of_filter, str_eqb_eq in H. by destruct H.
Qed.

(** Changing every element with a key, the key apart, is an update. *)
Lemma keyed_update (f : V -> V) i x l : (forall y, k (f y) = k y) -> keyed l !! i = Some x ->
  keyed (map (fun y => if str_eqb (k y) i then f y else y) l) = <[i := f x]> (keyed l).
Proof.
  intros Hk Hx. rewrite keyed_map by (intros y; by destruct (str_eqb (k y) i)).
  apply map_eq. intros j. rewrite lookup_fmap, lookup_insert. case_decide as Hij; [subst j; rewrite Hx|].
  - cbn [fmap option_fmap option_map]. by rewrite (keyed_key _ _ _ Hx), str_eqb_refl.
  - destruct (keyed l !! j) as [y|] eqn:Hy; [|done]. cbn [fmap option_fmap option_map].
    rewrite (keyed_key _ _ _ Hy). unfold str_eqb. by rewrite bool_decide_eq_false_2 by congruence.
Qed.
End keyed.

(** ** The specification *)

(** A workspace: its entities and relations as finite maps. *)
Record world : Type := World {
  wd_workspace : string;
  wd_node : string;
  wd_revision : Z;
  wd_updated : iso;
  wd_entities : gmap string entity;
  wd_relations : gmap string relation;
}.

(** The store: the current workspace, one viewport per device, the log, and
    the answer given to each idempotency key. *)
Record store : Type := Store {
  st_world : world;
  st_viewports : gmap string viewport;
  st_log : list ws_change;
  st_answers : gmap string (world * ws_change);
  st_failing : bool;
  st_binding : Z;
}.

Section spec.
Context {zod : Zod}.
Variable authorize : option (scope -> operation -> bool).

(** The workspace after an operation: an insertion or an update at one key. *)
Definition spec_effect (sc : scope) (o : operation) (now : date) (w : world) : result ws_error world :=
  match op_kind_of o, op_payload o with
  | UPSERT_ENTITY, P_entity e =>
      let? e := of_option (spatialEntitySchema e) (Ws PARTIAL_PERSISTENCE) in
      assertSpatialScope sc (en_node e) ;?
      Ok (World (wd_workspace w) (wd_node w) (wd_revision w + 1) (en_updated e) (<[en_ref e := e]> (wd_entities w)) (wd_relations w))
  | UPSERT_RELATION, P_relation r =>
      let? r := of_option (spatialRelationSchema r) (Ws PARTIAL_PERSISTENCE) in
      assertSpatialScope sc (re_node r) ;?
      Ok (World (wd_workspace w) (wd_node w) (wd_revision w + 1) (re_updated r) (wd_entities w) (<[re_id r := r]> (wd_relations w)))
  | ARCHIVE_ENTITY, p =>
      match payload_ref p with
      | None => Err (Ws PARTIAL_PERSISTENCE)
      | Some ref =>
          match wd_entities w !! ref with
          | Some e =>
              if str_eqb ref "" then Err (Ws PARTIAL_PERSISTENCE) else
              let? t := of_option now WsZod in
              Ok (World (wd_workspace w) (wd_node w) (wd_revision w + 1) t (<[ref := archived t e]> (wd_entities w)) (wd_relations w))
          | None => Err (Ws PARTIAL_PERSISTENCE)
          end
      end
  | _, _ => Err (Ws PARTIAL_PERSISTENCE)
  end.

Definition owned (w : world) (sc : scope) : result ws_error unit :=
  require (str_eqb (wd_node w) (scope_node_id sc)) (Ws NODE_MISMATCH).

Definition entry (o : operation) (w : world) : ws_change :=
  WsChange ("change-" +:+ pretty (wd_revision w)) (wd_workspace w) (wd_node w) (wd_revision w) (op_id o) (op_actor o)
    (op_kind_of o) (wd_updated w).

(** An operation is refused, answered as before, or checked and committed. *)
Definition spec_apply (sc : scope) (o : operation) (now : date) (s : store) : store * result ws_error (answer world) :=
  let w := st_world s in
  match owned w sc with Err e => (s, Err e) | Ok _ =>
  if negb (nonblank (op_id o) && nonblank (op_key o) && nonblank (op_actor o) && is_nonneg_integer (op_expected o))
  then (s, Err (Ws VALIDATION)) else
  match st_answers s !! op_key o with
  | Some (w', c) => (s, Ok (A_mutation w' c))
  | None =>
      if negb (match authorize with Some f => f sc o | None => true end) then (s, Err (Ws UNAUTHORIZED)) else
      if negb (bool_decide (op_expected o = NInt (wd_revision w))) then (s, Err (Ws STALE_REVISION)) else
      match spec_effect sc o now w with
      | Err e => (s, Err e)
      | Ok w' =>
          if match op_binding_revision o with Some n => negb (bool_decide (st_binding s = n)) | None => false end
          then (s, Err (Ws AGENT_REPLACED)) else
          if st_failing s
          then (Store w (st_viewports s) (st_log s) (st_answers s) false (st_binding s), Err (Ws PARTIAL_PERSISTENCE))
          else (Store w' (st_viewports s) (st_log s ++ [entry o w']) (<[op_key o := (w', entry o w')]> (st_answers s)) false
                  (st_binding s), Ok (A_mutation w' (entry o w')))
      end
  end end.

Definition see (v : viewport) (s : store) : store :=
  Store (st_world s) (<[vp_device v := v]> (st_viewports s)) (st_log s) (st_answers s) (st_failing s) (st_binding s).

Definition spec_put (sc : scope) (v : viewport) (s : store) : store * result ws_error (answer world) :=
  match spatialViewportSchema v with
  | None => (s, Err (Ws CORRUPT_PRESENTATION))
  | Some v =>
      if str_eqb (wd_node (st_world s)) (scope_node_id sc) && str_eqb (vp_node v) (scope_node_id sc)
         && str_eqb (vp_workspace v) (wd_workspace (st_world s))
      then (see v s, Ok (A_presentation v false)) else (s, Err (Ws NODE_MISMATCH))
  end.

(** A stored viewport that still parses starts again one revision later, any
    other as a new one. *)
Definition spec_reset (sc : scope) (device : string) (now : date) (s : store) : store * result ws_error (answer world) :=
  match owned (st_world s) sc, now with
  | Err e, _ => (s, Err e)
  | _, None => (s, Err WsZod)
  | _, Some t =>
      let '(old, rev, q) := match st_viewports s !! device ≫= spatialViewportSchema with
                            | Some v => (Some v, presentation_revision v + 1, quality_profile v)
                            | None => (None, 0, Q_DESKTOP)
                            end in
      let v := Viewport (from_option vp_workspace (wd_workspace (st_world s)) old) (from_option vp_node (wd_node (st_world s)) old)
                 (from_option vp_device device old) rev HOME_CAMERA None [] None [] q t in
      (Store (st_world s) (<[device := v]> (st_viewports s)) (st_log s) (st_answers s) (st_failing s) (st_binding s),
       Ok (A_presentation v (negb (bool_decide (is_Some old)))))
  end.

Definition spec_exec (c : call) (s : store) : store * result ws_error (answer world) :=
  let w := st_world s in
  match c with
  | C_apply sc o now => spec_apply sc o now s
  | C_put sc v => spec_put sc v s
  | C_reset sc device now => spec_reset sc device now s
  | C_snapshot sc => (s, owned w sc ;? Ok (A_snapshot w))
  | C_changes sc after =>
      (s, owned w sc ;?
          match after with
          | NInt n => if bool_decide (0 <= n) then Ok (A_changes (filter (fun c => n < wc_revision c) (st_log s))) else Err (Ws VALIDATION)
          | NOther => Err (Ws VALIDATION)
          end)
  | C_entity sc ref => (s, owned w sc ;? Ok (A_entity (wd_entities w !! ref)))
  | C_relation sc id => (s, owned w sc ;? Ok (A_relation (wd_relations w !! id)))
  | C_binding n => (Store w (st_viewports s) (st_log s) (st_answers s) (st_failing s) n, Ok A_none)
  | C_fail => (Store w (st_viewports s) (st_log s) (st_answers s) true (st_binding s), Ok A_none)
  end.

(** ** The repository, call by call *)

Definition answers {A B} (f : A -> answer B) (p : repository * result ws_error A) : repository * result ws_error (answer B) :=
  (p.1, result_map f p.2).

Definition exec (c : call) (r : repository) : repository * result ws_error (answer snapshot) :=
  match c with
  | C_apply sc o now => answers (fun m => A_mutation (mr_snapshot m) (mr_change m)) (applySemanticOperation authorize sc o now r)
  | C_put sc v => answers (fun v => A_presentation v false) (putPresentation sc v r)
  | C_reset sc device now => answers (fun p => A_presentation p.1 p.2) (resetPresentation sc device now r)
  | C_snapshot sc => answers A_snapshot (r, getSnapshot sc r)
  | C_changes sc after => answers A_changes (r, getChanges sc after r)
  | C_entity sc ref => answers A_entity (r, getEntity sc ref r)
  | C_relation sc id => answers A_relation (r, getRelation sc id r)
  | C_binding n => (setAgentBindingRevision n r, Ok A_none)
  | C_fail => (failNextWrite r, Ok A_none)
  end.

(** ** Abstraction *)

Definition world_of (s : snapshot) : world :=
  World (sn_workspace s) (sn_node s) (semantic_revision s) (sn_updated s) (keyed en_ref (entities s)) (keyed re_id (relations s)).

Definition store_of (r : repository) : store :=
  Store (world_of (rp_snapshot r)) (to_gmap (presentations r)) (rp_changes r)
    ((fun m => (world_of (mr_snapshot m), mr_change m)) <$> to_gmap (rp_operations r))
    (failNextPersistence r) (agentBindingRevision r).
End spec.


(** ** Refinement *)

Section refinement.
Context {zod : Zod}.
Variable authorize : option (scope -> operation -> bool).

Lemma find_entity_keyed ref es : find_entity ref es = keyed en_ref es !! ref.
Proof. by rewrite lookup_keyed. Qed.

Lemma find_relation_keyed id rs : find_relation id rs = keyed re_id rs !! id.
Proof. by rewrite lookup_keyed. Qed.

(** Archiving through the list and through the map. *)
Lemma archive_refines ref now s :
  result_map world_of
    (require (negb (str_eqb ref "")) (Ws PARTIAL_PERSISTENCE) ;?
     require (bool_decide (is_Some (find_entity ref (entities s)))) (Ws PARTIAL_PERSISTENCE) ;?
     let? t := of_option now WsZod in Ok (archive_entity ref t s)) =
  match wd_entities (world_of s) !! ref with
  | Some e =>
      if str_eqb ref "" then Err (Ws PARTIAL_PERSISTENCE) else
      let? t := of_option now WsZod in
      Ok (World (sn_workspace s) (sn_node s) (semantic_revision s + 1) t
            (<[ref := archived t e]> (wd_entities (world_of s))) (wd_relations (world_of s)))
  | None => Err (Ws PARTIAL_PERSISTENCE)
  end.
Proof.
  rewrite find_entity_keyed. cbn [world_of wd_entities wd_relations].
  destruct (keyed en_ref (entities s) !! ref) as [e|] eqn:He; [|by destruct (str_eqb ref "")].
  destruct (str_eqb ref ""); [done|]. rewrite bool_decide_eq_true_2 by done. cbn [require negb rbind].
  destruct now as [t|]; [|done]. cbn. unfold world_of. cbn. by rewrite (keyed_update en_ref (archived t) _ e).
Qed.

Lemma effect_refines sc o now s : result_map world_of (effect sc o now s) = spec_effect sc o now (world_of s).
Proof.
  unfold effect, spec_effect.
  destruct (op_kind_of o), (op_payload o) as [e|r|[ref|]]; cbn [of_option rbind payload_ref]; try done; try apply archive_refines.
  - destruct (spatialEntitySchema e) as [e'|]; [|done]. cbn [of_option rbind].
    destruct (assertSpatialScope sc (en_node e')); [|done]. cbn. unfold world_of. cbn. by rewrite keyed_replace.
  - destruct (spatialRelationSchema r) as [r'|]; [|done]. cbn [of_option rbind].
    destruct (assertSpatialScope sc (re_node r')); [|done]. cbn. unfold world_of. cbn. by rewrite keyed_replace.
Qed.

(** One call: the same answer, and the stores stay related. *)
Definition simulates (c : call) (r : repository) : Prop :=
  store_of (exec authorize c r).1 = (spec_exec authorize c (store_of r)).1 /\
  result_map (answer_map world_of) (exec authorize c r).2 = (spec_exec authorize c (store_of r)).2.

Lemma apply_simulates sc o now r : simulates (C_apply sc o now) r.
Proof.
  unfold simulates. cbn [exec spec_exec]. unfold applySemanticOperation, spec_apply, owned, assertWorkspaceOwnership, answers.
  cbn [store_of st_world st_answers st_failing st_binding world_of wd_node wd_revision].
  unfold jbind, jread, jlift, jret, jthrow, jwrite.
  destruct (str_eqb (sn_node (rp_snapshot r)) (scope_node_id sc)); [|done]. cbn [require].
  destruct (nonblank (op_id o) && nonblank (op_key o) && nonblank (op_actor o)); [|done]. cbn [require andb].
  destruct (is_nonneg_integer (op_expected o)); [|done]. cbn [require negb].
  rewrite lookup_fmap, lookup_to_gmap. destruct (jget (op_key o) (rp_operations r)) as [m|]; [done|]. cbn [fmap option_fmap option_map].
  destruct (match authorize with Some f => f sc o | None => true end); [|done]. cbn [require negb].
  case_bool_decide; [|done]. cbn [require negb].
  pose proof (effect_refines sc o now (rp_snapshot r)) as He. rewrite <-He. clear He.
  destruct (effect sc o now (rp_snapshot r)) as [n|e]; [|done]. cbn [result_map].
  assert (Hb : match op_binding_revision o with Some n => negb (bool_decide (agentBindingRevision r = n)) | None => false end =
    negb match op_binding_revision o with Some n => bool_decide (agentBindingRevision r = n) | None => true end)
    by by destruct (op_binding_revision o).
  rewrite Hb. clear Hb.
  destruct (match op_binding_revision o with Some n => bool_decide (agentBindingRevision r = n) | None => true end); [|done].
  cbn [require negb].
  destruct (failNextPersistence r) eqn:Hf; [done|]. split; [|done].
  cbn [answers fst]. unfold store_of at 1. cbn [rp_operations]. by rewrite to_gmap_jset, fmap_insert.
Qed.

Lemma store_of_see d v r :
  store_of (set_presentations (jset d v (presentations r)) r) =
  Store (world_of (rp_snapshot r)) (<[d := v]> (to_gmap (presentations r))) (rp_changes r)
    ((fun m => (world_of (mr_snapshot m), mr_change m)) <$> to_gmap (rp_operations r))
    (failNextPersistence r) (agentBindingRevision r).
Proof. unfold store_of. cbn [set_presentations presentations rp_snapshot rp_changes rp_operations]. by rewrite to_gmap_jset. Qed.

Lemma put_simulates sc v r : simulates (C_put sc v) r.
Proof.
  unfold simulates. cbn [exec spec_exec]. unfold putPresentation, spec_put, assertWorkspaceOwnership, answers.
  unfold jbind, jread, jlift, jret, jwrite. destruct (spatialViewportSchema v) as [p|]; [|done].
  cbn [store_of st_world world_of wd_node wd_workspace of_option].
  destruct (str_eqb (sn_node (rp_snapshot r)) (scope_node_id sc)); [|done]. cbn [require andb].
  destruct (str_eqb (vp_node p) (scope_node_id sc) && _); [|done]. cbn. split; [|done].
  cbn [fst]. apply store_of_see.
Qed.

Lemma reset_simulates sc device now r : simulates (C_reset sc device now) r.
Proof.
  unfold simulates. cbn [exec spec_exec]. unfold resetPresentation, spec_reset, owned, assertWorkspaceOwnership, answers.
  unfold jbind, jread, jlift, jret, jwrite. cbn [store_of st_world st_viewports world_of wd_node wd_workspace].
  destruct (str_eqb (sn_node (rp_snapshot r)) (scope_node_id sc)); [|done].
  unfold createSpatialPresentationSnapshot, resetSpatialPresentation.
  destruct now as [t|]; [|done]. cbn [require of_option rbind]. rewrite lookup_to_gmap.
  destruct (jget device (presentations r) ≫= spatialViewportSchema) as [p|]; cbn; (split; [|done]); apply store_of_see.
Qed.

Lemma exec_simulates c r : simulates c r.
Proof.
  destruct c as [sc o now|sc v|sc device now|sc|sc after|sc ref|sc id|n|];
    [apply apply_simulates | apply put_simulates | apply reset_simulates | | | | | done | done];
    (split; [done|]); cbn [exec spec_exec answers]; unfold getSnapshot, getChanges, getEntity, getRelation, owned, assertWorkspaceOwnership;
    cbn [store_of st_world st_log world_of wd_node wd_entities wd_relations snd];
    (destruct (str_eqb (sn_node (rp_snapshot r)) (scope_node_id sc)); [|done]); cbn [require rbind]; try done.
  - destruct after as [n|]; [|done]. cbn [is_nonneg_integer]. case_bool_decide; [|done]. cbn. do 2 f_equal.
    apply list_filter_iff. intros c. by rewrite bool_decide_eq_true.
  - cbn. by rewrite find_entity_keyed.
  - cbn. by rewrite find_relation_keyed.
Qed.

(** C15. The repository refines a store of finite maps: for every sequence of
    calls, its answers and its errors are those of a specification that keeps
    entities and relations in maps by canonical reference and by id, inserts
    or updates at one key per accepted operation, numbers and logs it, and
    answers a known idempotency key as it did before; a lookup returns what the
    map has at the reference, whatever duplicates the first snapshot held. *)
Theorem workspace_is_a_map cs r :
  map (result_map (answer_map world_of)) (trace (exec authorize) cs r) = trace (spec_exec authorize) cs (store_of r).
Proof.
  revert r. induction cs as [|c cs IH]; intros r; [done|]. destruct (exec_simulates c r) as [Hs Ha].
  cbn [trace map]. by rewrite Ha, IH, Hs.
Qed.
End refinement.

(** ** History *)

Section history.
Context {zod : Zod} {laws : ZodLaws zod}.
Variable authorize : option (scope -> operation -> bool).

(** Any call, whatever it answers. *)
Inductive ws_step : repository -> repository -> Prop :=
| ws_call c r : ws_step r (exec authorize c r).1.

(** What only the presentations of a repository, or its two switches, may
    change. *)
Definition same_workspace (r r' : repository) : Prop :=
  rp_snapshot r' = rp_snapshot r /\ rp_changes r' = rp_changes r /\ rp_operations r' = rp_operations r.

Definition owned_viewport (s : snapshot) (device : string) (v : viewport) : Prop :=
  trim (vp_device v) = trim device /\ vp_node v = sn_node s /\ vp_workspace v = sn_workspace s.

(** Everything but the revisions, the time, the entities and the relations. *)
Definition frame_of (s : snapshot) := (sn_workspace s, sn_node s, sn_created s, semantic_anchors s, cluster_membership s, sn_primary s).

(** Every entity and relation is of the node. *)
Definition on_node (node : string) (s : snapshot) : Prop :=
  Forall (fun e => en_node e = node) (entities s) /\ Forall (fun r => re_node r = node) (relations s).

(** The history since the snapshot [s0]: one change per revision, the recorded
    answers are the changes in order under distinct keys, a frame no operation
    touches, viewports of this workspace under their device (but for
    the padding of its id), and entities of no
    other node. *)
Record history (s0 : snapshot) (r : repository) : Prop := History {
  hi_numbered : map wc_revision (rp_changes r) = seqZ (semantic_revision s0 + 1) (Z.of_nat (length (rp_changes r)));
  hi_revision : semantic_revision (rp_snapshot r) = semantic_revision s0 + Z.of_nat (length (rp_changes r));
  hi_sn_revision : sn_revision (rp_snapshot r) - semantic_revision (rp_snapshot r) = sn_revision s0 - semantic_revision s0;
  hi_frame : frame_of (rp_snapshot r) = frame_of s0;
  hi_answers : map mr_change (jvalues (rp_operations r)) = rp_changes r;
  hi_snapshots : Forall (fun m => semantic_revision (mr_snapshot m) = wc_revision (mr_change m)) (jvalues (rp_operations r));
  hi_keys : NoDup (jkeys (rp_operations r));
  hi_viewports : jall (owned_viewport s0) (presentations r);
  hi_nodes : on_node (sn_node s0) s0 -> on_node (sn_node s0) (rp_snapshot r);
}.

Lemma effect_frame sc o now s n : effect sc o now s = Ok n ->
  frame_of n = frame_of s /\ semantic_revision n = semantic_revision s + 1 /\ sn_revision n = sn_revision s + 1.
Proof. unfold effect. intros H. destruct (op_kind_of o); inv_ok; done. Qed.

(** An operation: refused, answered as before, or committed. *)
Lemma apply_cases sc o now r r' res : applySemanticOperation authorize sc o now r = (r', res) ->
  (same_workspace r r' /\ presentations r' = presentations r) \/
  exists n, effect sc o now (rp_snapshot r) = Ok n /\ jget (op_key o) (rp_operations r) = None /\
    res = Ok (MutationResult n (change_of o n)) /\ match authorize with Some f => f sc o = true | None => True end /\
    op_expected o = NInt (semantic_revision (rp_snapshot r)) /\ sn_node (rp_snapshot r) = scope_node_id sc /\
    r' = Repository n (presentations r) (rp_changes r ++ [change_of o n])
           (jset (op_key o) (MutationResult n (change_of o n)) (rp_operations r)) false (agentBindingRevision r).
Proof.
  unfold applySemanticOperation, jbind, jread, jlift, jret, jthrow, jwrite. intros H.
  destruct (assertWorkspaceOwnership _ _) eqn:Hn in H; [|by left; simplify_eq].
  destruct (require (nonblank _ && _ && _) _); [|by left; simplify_eq].
  destruct (require (is_nonneg_integer _) _); [|by left; simplify_eq].
  destruct (jget (op_key o) (rp_operations r)) as [m|] eqn:Hk; [by left; simplify_eq|].
  destruct (require _ (Ws UNAUTHORIZED)) eqn:Ha in H; [|by left; simplify_eq].
  destruct (require _ (Ws STALE_REVISION)) eqn:Hx in H; [|by left; simplify_eq].
  destruct (effect sc o now (rp_snapshot r)) as [n|e]; [|by left; simplify_eq].
  destruct (require _ (Ws AGENT_REPLACED)) in H; [|by left; simplify_eq].
  destruct (failNextPersistence r) eqn:Hf; [by left; simplify_eq|]. simplify_eq.
  apply require_ok in Ha, Hx, Hn. apply bool_decide_eq_true in Hx. apply str_eqb_eq in Hn.
  right. exists n. repeat split; try done. by destruct authorize.
Qed.

(** What the scope check of an upsert means for the node of the payload. *)
Lemma scope_check sc node : trim (scope_node_id sc) = scope_node_id sc -> trim node = node ->
  assertSpatialScope sc node = Ok tt -> node = scope_node_id sc.
Proof using laws.
  unfold assertSpatialScope, normalizeSpatialNodeScope. intros Hs Hn H. inv_ok. inv_some. cbn [scope_node_id] in *.
  repeat match goal with H : idSchema _ = Some _ |- _ => apply idSchema_spec in H as [-> _] end.
  match goal with H : str_eqb _ _ = true |- _ => apply str_eqb_eq in H end. congruence.
Qed.

Lemma entity_node_trimmed e e' : spatialEntitySchema e = Some e' -> trim (en_node e') = en_node e'.
Proof using laws.
  unfold spatialEntitySchema. intros H. inv_some. cbn [en_node].
  repeat match goal with H : idSchema _ = Some _ |- _ => apply idSchema_spec in H as [-> _] end. apply trim_idem.
Qed.

Lemma relation_node_trimmed r r' : spatialRelationSchema r = Some r' -> trim (re_node r') = re_node r'.
Proof using laws.
  unfold spatialRelationSchema. intros H. inv_some. cbn [re_node].
  repeat match goal with H : idSchema _ = Some _ |- _ => apply idSchema_spec in H as [-> _] end. apply trim_idem.
Qed.

Lemma Forall_filter {X} (P Q : X -> Prop) `{!forall x, Decision (Q x)} l : Forall P l -> Forall P (filter Q l).
Proof. rewrite !Forall_forall. intros HP x [_ Hx]%list_elem_of_filter. by apply HP. Qed.

Lemma effect_on_node sc o now s n : trim (scope_node_id sc) = scope_node_id sc -> effect sc o now s = Ok n ->
  on_node (scope_node_id sc) s -> on_node (scope_node_id sc) n.
Proof using laws.
  unfold effect, on_node. intros Ht H [He Hr]. destruct (op_kind_of o).
  - destruct (op_payload o) as [e|r|ref]; try done. inv_ok. cbn [upsert_entity next_snapshot entities relations].
    split; [|done]. apply Forall_app. split; [by apply Forall_filter|]. apply Forall_singleton.
    eapply scope_check; eauto using entity_node_trimmed.
  - destruct (op_payload o) as [e|r|ref]; try done. inv_ok. cbn [upsert_relation next_snapshot entities relations].
    split; [done|]. apply Forall_app. split; [by apply Forall_filter|]. apply Forall_singleton.
    eapply scope_check; eauto using relation_node_trimmed.
  - inv_ok. cbn [archive_entity next_snapshot entities relations]. split; [|done].
    apply Forall_map. apply (Forall_impl _ _ _ He). intros e Hn. unfold compose. by destruct (str_eqb (en_ref e) _).
Qed.

Lemma put_cases sc v r r' res : putPresentation sc v r = (r', res) ->
  r' = r \/ exists p, r' = set_presentations (jset (vp_device p) p (presentations r)) r /\
    vp_node p = sn_node (rp_snapshot r) /\ vp_workspace p = sn_workspace (rp_snapshot r).
Proof.
  unfold putPresentation, jbind, jread, jlift, jret, jwrite. intros H.
  destruct (of_option _ _) as [p|]; [|by left; simplify_eq].
  destruct (assertWorkspaceOwnership _ _) eqn:Ho in H; [|by left; simplify_eq].
  destruct (require _ _) eqn:Hn in H; [|by left; simplify_eq]. simplify_eq.
  apply require_ok in Ho, Hn. rewrite andb_true_iff, !str_eqb_eq in Hn. apply str_eqb_eq in Ho.
  right. exists p. destruct Hn. repeat split; congruence.
Qed.

Lemma viewport_parse_owned s device v v' : trim (sn_node s) = sn_node s -> trim (sn_workspace s) = sn_workspace s ->
  spatialViewportSchema v = Some v' -> owned_viewport s device v -> owned_viewport s device v'.
Proof using laws.
  unfold spatialViewportSchema, owned_viewport. intros Hn Hw H (Hd & Hvn & Hvw). inv_some. cbn [vp_device vp_node vp_workspace].
  repeat match goal with H : idSchema _ = Some _ |- _ => apply idSchema_spec in H as [-> _] end.
  rewrite trim_idem, Hvn, Hvw. done.
Qed.

Lemma reset_cases sc device now r r' res : resetPresentation sc device now r = (r', res) ->
  trim (sn_node (rp_snapshot r)) = sn_node (rp_snapshot r) -> trim (sn_workspace (rp_snapshot r)) = sn_workspace (rp_snapshot r) ->
  jall (owned_viewport (rp_snapshot r)) (presentations r) ->
  r' = r \/ exists p, r' = set_presentations (jset device p (presentations r)) r /\ owned_viewport (rp_snapshot r) device p.
Proof using laws.
  unfold resetPresentation, jbind, jread, jlift, jret, jwrite. intros H Hn Hw Hall.
  destruct (assertWorkspaceOwnership _ _) in H; [|by left; simplify_eq].
  unfold createSpatialPresentationSnapshot, resetSpatialPresentation in H.
  destruct now as [t|]; cbn [of_option rbind] in H; [|by left; simplify_eq]. right.
  destruct (jget device (presentations r)) as [v|] eqn:Hv; cbn in H; [|simplify_eq; by eexists].
  destruct (spatialViewportSchema v) as [p|] eqn:Hp; simplify_eq; (eexists; split; [done|]); [|done].
  by destruct (viewport_parse_owned _ _ _ _ Hn Hw Hp (Hall _ _ Hv)) as (? & ? & ?).
Qed.

Definition trimmed_scope (s : snapshot) : Prop := trim (sn_node s) = sn_node s /\ trim (sn_workspace s) = sn_workspace s.

Lemma history_put s0 r d p : history s0 r -> owned_viewport s0 d p -> history s0 (set_presentations (jset d p (presentations r)) r).
Proof. intros [] Hp. split; try done. cbn [set_presentations presentations]. by apply jall_jset. Qed.

Lemma history_commit s0 sc o now r n : history s0 r -> trimmed_scope s0 ->
  sn_node (rp_snapshot r) = scope_node_id sc -> jget (op_key o) (rp_operations r) = None ->
  effect sc o now (rp_snapshot r) = Ok n ->
  history s0 (Repository n (presentations r) (rp_changes r ++ [change_of o n])
    (jset (op_key o) (MutationResult n (change_of o n)) (rp_operations r)) false (agentBindingRevision r)).
Proof using laws.
  intros [Hnum Hrev Hsn Hfr Hans Hsnaps Hkeys Hvp Hon] [Hn Hw] Hsc Hk He.
  pose proof (effect_frame _ _ _ _ _ He) as (Hf & Hr & Hs).
  assert (Hnode : sn_node s0 = scope_node_id sc) by (unfold frame_of in Hfr; congruence).
  split; cbn [rp_snapshot presentations rp_changes rp_operations]; rewrite ?length_app; cbn [length].
  - rewrite map_app, Hnum. replace (Z.of_nat (length (rp_changes r) + 1)) with (Z.of_nat (length (rp_changes r)) + 1) by lia.
    rewrite seqZ_app by lia. f_equal. cbn [map]. rewrite seqZ_cons by lia. cbn [change_of wc_revision]. rewrite Hr, Hrev. f_equal. lia.
  - lia.
  - lia.
  - congruence.
  - rewrite jset_fresh by done. unfold jvalues in *. by rewrite !map_app, Hans.
  - rewrite jset_fresh by done. unfold jvalues in *. rewrite map_app. apply Forall_app. split; [done | by repeat constructor].
  - by apply NoDup_jset.
  - done.
  - intros H0. rewrite Hnode in *. apply (effect_on_node sc o now (rp_snapshot r)); auto.
Qed.

Lemma history_step s0 r r' : trimmed_scope s0 -> ws_step r r' -> history s0 r -> history s0 r'.
Proof using laws.
  intros Ht [c r1] H. destruct c as [sc o now|sc v|sc device now|sc|sc after|sc ref|sc id|n|]; cbn [exec answers fst]; try done.
  - destruct (applySemanticOperation authorize sc o now r1) as [r2 res] eqn:Hr. cbn [fst].
    apply apply_cases in Hr as [[(Hs & Hc & Ho) Hp] | (n & He & Hk & _ & _ & _ & Hn & ->)]; [|by eapply history_commit].
    destruct H. by split; rewrite ?Hs, ?Hc, ?Ho, ?Hp.
  - destruct (putPresentation sc v r1) as [r2 res] eqn:Hr. cbn [fst].
    apply put_cases in Hr as [->|(p & -> & Hn & Hw)]; [done|]. apply history_put; [done|].
    pose proof (hi_frame _ _ H) as Hf. unfold frame_of in Hf. unfold owned_viewport. repeat split; congruence.
  - destruct (resetPresentation sc device now r1) as [r2 res] eqn:Hr. cbn [fst].
    pose proof (hi_frame _ _ H) as Hf. unfold frame_of in Hf. destruct Ht as [Htn Htw].
    assert (Hov : forall d p, owned_viewport (rp_snapshot r1) d p <-> owned_viewport s0 d p)
      by (intros d p; unfold owned_viewport; by replace (sn_node s0) with (sn_node (rp_snapshot r1)) by congruence;
          replace (sn_workspace s0) with (sn_workspace (rp_snapshot r1)) by congruence).
    apply reset_cases in Hr as [->|(p & -> & Hp)]; [done | apply history_put, Hov; done | congruence | congruence |].
    intros d p Hd. apply Hov. by apply (hi_viewports _ _ H).
  - by destruct H.
  - by destruct H.
Qed.

Lemma seqZ_filter_gt (cs : list ws_change) base n : map wc_revision cs = seqZ (base + 1) (Z.of_nat (length cs)) ->
  filter (fun c => n < wc_revision c) cs = drop (Z.to_nat (n - base)) cs.
Proof.
  revert base. induction cs as [|c cs IH]; intros base H; [by destruct (Z.to_nat _)|].
  cbn [length map] in H. rewrite seqZ_cons in H by lia. injection H as Hc Hcs.
  rewrite filter_cons, Hc. rewrite (IH (base + 1)) by (rewrite Hcs; f_equal; lia). case_decide.
  - by replace (Z.to_nat (n - base)) with 0%nat by lia; replace (Z.to_nat (n - (base + 1))) with 0%nat by lia.
  - by replace (Z.to_nat (n - base)) with (S (Z.to_nat (n - (base + 1)))) by lia.
Qed.

(** A workspace has one numbered history: whatever is called, since the
    snapshot it was made with there is exactly one change per semantic
    revision, consecutive and without a gap; the recorded answers are those
    changes in order, under distinct idempotency keys, each with the snapshot
    of its revision; both revisions advance together; nothing but revisions,
    time, entities and relations changes, no entity of another Node enters, and
    no viewport of another Node or Workspace is kept. Reading the changes after
    a revision gives the log less those the reader has. *)
Theorem workspace_history_numbered s fail binding r0 r : new_repository s fail binding = Ok r0 -> rtc ws_step r0 r ->
  history (rp_snapshot r0) r /\
  forall sc n, sn_node (rp_snapshot r) = scope_node_id sc -> 0 <= n ->
    getChanges sc (NInt n) r = Ok (drop (Z.to_nat (n - semantic_revision (rp_snapshot r0))) (rp_changes r)).
Proof using laws.
  intros Hnew Hsteps. unfold new_repository in Hnew. inv_ok.
  match goal with H : spatialWorkspaceSchema _ = Some ?s1 |- _ => rename H into Hs; rename s1 into s0 end.
  cbn [rp_snapshot] in *.
  assert (Ht : trimmed_scope s0).
  { unfold spatialWorkspaceSchema in Hs. inv_some. unfold trimmed_scope. cbn [sn_node sn_workspace].
    repeat match goal with H : idSchema _ = Some _ |- _ => apply idSchema_spec in H as [-> _] end. by rewrite !trim_idem. }
  assert (Hh : history s0 r).
  { assert (H0 : history s0 (Repository s0 [] [] [] (default false fail) (default 0 binding))).
    { split; cbn; [done | lia | lia | done | done | constructor | constructor | by intros d v | done]. }
    revert H0. clear Hs. induction Hsteps as [|r1 r2 r3 Hst _ IH]; [done|]. intros H. apply IH. by eapply history_step. }
  split; [done|]. intros sc n Hn H0. unfold getChanges, assertWorkspaceOwnership.
  rewrite (proj2 (str_eqb_eq _ _)) by done. cbn [require rbind is_nonneg_integer]. rewrite bool_decide_eq_true_2 by done. cbn [require rbind].
  f_equal. rewrite <-(seqZ_filter_gt _ _ _ (hi_numbered _ _ Hh)).
  apply list_filter_iff. intros c. by rewrite bool_decide_eq_true.
Qed.
End history.

(** ** Edges *)

Section edges.
Context {zod : Zod} {laws : ZodLaws zod}.

(** Findings. An answered idempotency key is answered again before anything
    else of the operation is looked at: whoever asks, whatever for. *)
Lemma reused_key_skips_authorization authorize sc o now r m :
  jget (op_key o) (rp_operations r) = Some m -> sn_node (rp_snapshot r) = scope_node_id sc ->
  nonblank (op_id o) && nonblank (op_key o) && nonblank (op_actor o) = true -> is_nonneg_integer (op_expected o) = true ->
  applySemanticOperation authorize sc o now r = (r, Ok m).
Proof.
  intros Hk Hn Hb Hx. unfold applySemanticOperation, assertWorkspaceOwnership, jbind, jread, jlift, jret.
  by rewrite (proj2 (str_eqb_eq _ _) Hn), Hb, Hx, Hk.
Qed.

(** Nothing bounds the entities an operation adds, the contract of the snapshot
    does: one more than 10,000 and no client can parse the workspace. *)
Lemma upsert_outgrows_contract e s : N.of_nat (length (entities s)) = 10000%N -> find_entity (en_ref e) (entities s) = None ->
  spatialWorkspaceSchema (upsert_entity e s) = None.
Proof.
  intros Hlen Hnone.
  assert (Hall : filter (fun x => str_eqb (en_ref x) (en_ref e) = false) (entities s) = entities s).
  { unfold find_entity in Hnone. apply head_None in Hnone. clear Hlen.
    induction (entities s) as [|x l IH]; [done|]. rewrite filter_cons in *. destruct (str_eqb (en_ref x) (en_ref e)); [done|].
    rewrite decide_True by done. f_equal. by apply IH. }
  unfold spatialWorkspaceSchema, upsert_entity, next_snapshot.
  cbn [sn_workspace sn_node sn_revision semantic_revision sn_created sn_updated entities relations semantic_anchors cluster_membership sn_primary].
  rewrite Hall. assert (Hz : z_array spatialEntitySchema 10000 (entities s ++ [e]) = None)
    by (unfold z_array; rewrite bool_decide_eq_false_2; [done | rewrite length_app; cbn [length]; lia]).
  rewrite Hz. clear.
  repeat (match goal with |- context [?o ≫= _] => destruct o end; [cbn|done]). done.
Qed.
End edges.

(** ** Examples *)

Module WorkspaceWitness.
#[local] Instance w_zod : Zod := zod_ref.

Definition w_fresh : freshness := Freshness F_FRESH 100 (num 60) "probe".
Definition w_entity (ref label node : string) (t : iso) : entity :=
  Entity ref ref node 1 label "ACTIVE" AV_AVAILABLE w_fresh 100 t None (D_service "svc" None).
Definition w_relation : relation := Relation "r-1" "node-1" 1 "USES" "a" "b" RS_ACTIVE w_fresh 100 150.
Definition w_snapshot : snapshot :=
  Snapshot "ws-1" "node-1" 9 4 100 100 [w_entity "a" "first" "node-1" 100; w_entity "a" "twin" "node-1" 100] [] [] [] None.
Definition w_scope : scope := Scope "hv-1" "node-1".
Definition w_repo : repository := Repository w_snapshot [] [] [] false 0.

Definition w_op (key : string) (rev : Z) (k : op_kind) (p : payload) : operation := Operation "op" key "actor" (NInt rev) k p None.
Definition w_upsert : operation := w_op "k1" 4 UPSERT_ENTITY (P_entity (w_entity "b" "new" "node-1" 50)).
Definition w_archive : operation := w_op "k2" 5 ARCHIVE_ENTITY (P_other (Some "a")).
Definition w_relate : operation := w_op "k3" 6 UPSERT_RELATION (P_relation w_relation).
Definition w_calls : list call :=
  [C_apply w_scope w_upsert (Some 200); C_apply w_scope w_archive (Some 300); C_reset w_scope " tab " (Some 310);
   C_apply w_scope w_relate (Some 400)].

Fixpoint w_run (cs : list call) (r : repository) : repository :=
  match cs with [] => r | c :: cs => w_run cs (exec None c r).1 end.

Lemma w_run_steps cs r : rtc (ws_step None) r (w_run cs r).
Proof. revert r. induction cs as [|c cs IH]; intros r; [constructor|]. eapply rtc_l; [apply ws_call | apply IH]. Qed.

(** Three accepted operations and a reset: revisions 5, 6 and 7, and a reader
    of revision 5 gets the last two. *)
Lemma workspace_history_numbered_witness :
  new_repository w_snapshot None None = Ok w_repo /\ rtc (ws_step None) w_repo (w_run w_calls w_repo) /\
  history w_snapshot (w_run w_calls w_repo) /\
  map wc_revision (rp_changes (w_run w_calls w_repo)) = [5; 6; 7] /\
  (match getChanges w_scope (NInt 5) (w_run w_calls w_repo) with Ok cs => map wc_revision cs | Err _ => [] end) = [6; 7].
Proof.
  split; [by vm_compute|]. split; [apply w_run_steps|].
  split; [|split; by vm_compute].
  exact (proj1 (workspace_history_numbered (laws := zod_ref_laws) None w_snapshot None None w_repo (w_run w_calls w_repo)
    eq_refl (w_run_steps w_calls w_repo))).
Defined.

(** Archiving "a" archives both entities with that reference, and a lookup
    finds the first. *)
Example both_twins_archived :
  map en_state (entities (rp_snapshot (w_run w_calls w_repo))) = ["ARCHIVED"; "ARCHIVED"; "ACTIVE"] /\
  match getEntity w_scope "a" (w_run w_calls w_repo) with Ok (Some e) => en_label e = "first" | _ => False end.
Proof. by vm_compute. Qed.

(** The time of a workspace is that of the last payload: it moves back. *)
Example updated_at_moves_back :
  sn_updated w_snapshot = 100 /\ sn_updated (rp_snapshot (w_run [C_apply w_scope w_upsert (Some 200)] w_repo)) = 50.
Proof. by vm_compute. Qed.

(** The same idempotency key for another operation of another actor: the answer
    is that of the first, the archive never happens. *)
Example reused_key_answers_another_operation :
  let o := Operation "op-2" "k1" "intruder" (NInt 99) ARCHIVE_ENTITY (P_other (Some "a")) None in
  let r := w_run [C_apply w_scope w_upsert (Some 200)] w_repo in
  match applySemanticOperation (Some (fun _ o => str_eqb (op_actor o) "actor")) w_scope o (Some 300) r with
  | (r', Ok m) => r' = r /\ wc_kind (mr_change m) = UPSERT_ENTITY /\ wc_actor (mr_change m) = "actor"
  | _ => False
  end.
Proof. by vm_compute. Qed.

(** The reference of an upserted entity is trimmed, the one of an archive is
    not: the padded reference that created an entity cannot archive it. *)
Example padded_reference_cannot_archive :
  let up := w_op "k1" 4 UPSERT_ENTITY (P_entity (w_entity " b " "new" "node-1" 150)) in
  let r := w_run [C_apply w_scope up (Some 200)] w_repo in
  match getEntity w_scope "b" r with Ok (Some _) => True | _ => False end /\
  (applySemanticOperation None w_scope (w_op "k2" 5 ARCHIVE_ENTITY (P_other (Some " b "))) (Some 300) r).2 =
    Err (Ws PARTIAL_PERSISTENCE).
Proof. by vm_compute. Qed.

(** A device id is not trimmed when its first presentation is made, but is when
    that is parsed: the second reset answers for another device than it is
    stored under. *)
Example padded_device_changes_its_name :
  let r := w_run [C_reset w_scope " tab " (Some 1); C_reset w_scope " tab " (Some 2)] w_repo in
  match jget " tab " (presentations r) with Some v => vp_device v = "tab" /\ presentation_revision v = 1 | None => False end /\
  jget "tab" (presentations r) = None.
Proof. by vm_compute. Qed.
End WorkspaceWitness.
