(* ===== verification/Memory.v ===== *)
(** * The spatial memory engine

    src/web/operator-dashboard/src/spatial/memory/engine.ts: the records of a
    workspace, aged into levels, gathered into clusters and laid out in regions,
    with a focus, a search and a plan of what is drawn. [Math.cos], [Math.sin]
    and [Math.sqrt] are the host's ([HostMath]); coordinates and scores are
    computed exactly where the code rounds to doubles, and distances are compared
    by their squares. Every call reads the clock once, [now]. Metadata numbers
    are integers. *)

From Stdlib Require Import QArith Qround.
From stdpp Require Import relations pretty.
From S2P Require Import Prelude.
From S2P Require Import Json.
From S2P Require Import Contracts.
From S2P Require Import Binding.
From S2P Require Import Numbers.
From S2P Require Import Text.
From S2P Require Import Status.
From S2P Require Import RemoteContracts.

#[local] Open Scope Z_scope.

(** ** Data *)

Inductive region : Type := ACTIVE_WORK | AGENT_SPACE | RECENT_MEMORY | CLUSTER_MEMORY | ENDPOINT_ARC | DEEP_MEMORY.
#[export] Instance region_eq_dec : EqDecision region.
Proof. solve_decision. Defined.

Inductive level : Type := L_ACTIVE | L_RECENT | L_OLDER | L_CLUSTERED | L_PERIPHERAL | L_VIRTUALIZED.
#[export] Instance level_eq_dec : EqDecision level.
Proof. solve_decision. Defined.

(** [projectionLevelRank]: the index in [LEVEL_ORDER]. *)
Definition projectionLevelRank (l : level) : Z :=
  match l with L_ACTIVE => 0 | L_RECENT => 1 | L_OLDER => 2 | L_CLUSTERED => 3 | L_PERIPHERAL => 4 | L_VIRTUALIZED => 5 end.

Inductive criterion : Type :=
| STRUCTURAL_PARENT | PROJECT | TOPIC | C_ENDPOINT | C_AGENT | SUBSYSTEM | SIMILARITY | MANUAL.
#[export] Instance criterion_eq_dec : EqDecision criterion.
Proof. solve_decision. Defined.

Definition criterion_name (c : criterion) : string :=
  match c with
  | STRUCTURAL_PARENT => "STRUCTURAL_PARENT" | PROJECT => "PROJECT" | TOPIC => "TOPIC" | C_ENDPOINT => "ENDPOINT"
  | C_AGENT => "AGENT" | SUBSYSTEM => "SUBSYSTEM" | SIMILARITY => "SIMILARITY" | MANUAL => "MANUAL"
  end.

Inductive render_state : Type := R_MATERIALIZED | R_SUMMARIZED | R_VIRTUALIZED | R_UNAVAILABLE.
#[export] Instance render_state_eq_dec : EqDecision render_state.
Proof. solve_decision. Defined.

(** [SpatialMemoryRecord]. A date that does not parse is [None], an absent reuse
    too. *)
Record memory : Type := Memory {
  semanticRef : string;
  objectType : string;
  m_label : string;
  m_summary : option string;
  workspaceId : option string;
  sessionRef : option string;
  createdAt : date;
  lastActiveAt : date;
  lastReusedAt : option date;
  relevanceScore : option jsnum;
  pinWeight : option jsnum;
  m_pinned : option bool;
  m_unresolved : option bool;
  m_active : option bool;
  branchDescendantRefs : list string;
  structuralParentRef : option string;
  metadata : jsmap json;
  worldPosition : option position;
  sourceRevision : option Z;
  provenanceRef : option string;
  m_authorized : option bool;
  m_available : option bool;
  m_stale : option bool;
  unavailableReason : option string;
}.

(** A semantic reference: canonical reference, object type and revision. *)
Record semantic_ref : Type := SemanticRef { sr_ref : string; sr_type : string; sr_revision : Z }.

(** [SpatialMemoryProjection]. *)
Record projection : Type := Projection {
  projection_id : string;
  pj_workspace : string;
  pj_ref : semantic_ref;
  pj_session : option string;
  zone : region;
  memory_level : level;
  pj_created : iso;
  last_active : iso;
  last_reused : option iso;
  relevance : jsnum;
  pin_weight : jsnum;
  cluster_ref : option string;
  lod : Z;
  render : render_state;
  world_position : position;
  manual_override : bool;
  pj_pinned : bool;
  pj_unresolved : bool;
  pj_authorized : bool;
  pj_unavailable : option string;
  pj_revision : Z;
  pj_provenance : string * Z;
  pj_label : string;
  pj_summary : string;
  pj_type : string;
  pj_stale : bool;
  pj_metadata : jsmap json;
}.

(** [SpatialMemoryCluster]. *)
Record cluster : Type := Cluster {
  cluster_id : string;
  cl_workspace : string;
  cl_title : string;
  cl_criterion : criterion;
  criterion_revision : Z;
  cl_evidence : list string;
  member_refs : list semantic_ref;
  stale_member_refs : list semantic_ref;
  summary_ref : string;
  collapsed : bool;
  cl_pinned : bool;
  cl_revision : Z;
  cl_provenance : string * Z;
  memberLabels : list string;
}.

(** [SpatialMemoryManualGroup]. *)
Record manual_group : Type := ManualGroup { mg_id : string; mg_title : string; mg_members : list string }.

Record mcamera : Type := MCamera { mc_x : jsnum; mc_y : jsnum; mc_zoom : jsnum; mc_focus : option string }.

Inductive focus_state : Type := REQUESTED | MATERIALIZING | FOCUSED | RETURNING | PINNED | CANCELLED | F_UNAVAILABLE_REF.
#[export] Instance focus_state_eq_dec : EqDecision focus_state.
Proof. solve_decision. Defined.

Inductive focus_source : Type := FS_POINTER | FS_KEYBOARD | FS_GESTURE | FS_RELATION | FS_SEARCH | FS_AGENT.

(** [SpatialMemoryFocus]. *)
Record focus : Type := Focus {
  focus_ref_id : string;
  fo_workspace : string;
  target_ref : semantic_ref;
  fo_state : focus_state;
  target_revision : Z;
  fo_position : position;
  temporary_position : option position;
  previous_camera : mcamera;
  restore_camera : mcamera;
  fo_source : focus_source;
  reduced_motion : bool;
  fo_unavailable : option string;
  fo_created : iso;
  fo_updated : iso;
  targetLabel : string;
}.

Record lod_counts : Type := LodCounts { lod0 : Z; lod1 : Z; lod2 : Z; lod3 : Z }.

Record telemetry : Type := Telemetry {
  totalCount : Z;
  visibleCount : Z;
  materializedCount : Z;
  virtualizedCount : Z;
  lodCounts : lod_counts;
  tl_budget : jsnum;
  latency : jsnum;
  memoryReleased : bool;
}.

(** The options as the constructor stores them. *)
Record options : Type := Options {
  op_workspace : string;
  primaryAgentRef : option string;
  policyRevision : string;
  seed : string;
  visibleRecentBudget : jsnum;
  renderBudget : jsnum;
  cullRadius : jsnum;
  vw_width : option jsnum;
  vw_height : option jsnum;
  vw_mobile : bool;
}.

Record engine : Type := Engine {
  eg_options : options;
  records : jsmap memory;
  manualPositions : jsmap position;
  manualGroups : jsmap manual_group;
  clusterExclusions : jsmap (list string);
  projectionsByRef : jsmap projection;
  clustersById : jsmap cluster;
  layoutRevision : Z;
  focusState : option focus;
  eg_telemetry : telemetry;
}.

(** The sites of the code that throw. *)
Inductive mem_error : Type :=
| REF_REQUIRED | LABEL_REQUIRED | OTHER_WORKSPACE | POSITION_NOT_FINITE | UNKNOWN_REF | CLUSTER_INCOMPLETE
| CLUSTER_UNRESOLVED | QUERY_REQUIRED | MEM_ZOD.

(** ** Arithmetic *)

Definition clamp (v lo hi : jsnum) : jsnum := num_min hi (num_max lo v).

Definition dec (n : Z) (d : positive) : jsnum := Finite (n # d).

(** [distance], squared. *)
Definition distance2 (a b : position) : jsnum :=
  let sq x := num_mul x x in
  num_add (num_add (sq (num_sub (po_x a) (po_x b))) (sq (num_sub (po_y a) (po_y b)))) (sq (num_sub (po_z a) (po_z b))).

(** [d <= r] and [d > r] for the distance [d] with the square [d2]. *)
Definition within (d2 r : jsnum) : bool := num_le (num 0) r && num_le d2 (num_mul r r).
Definition beyond (d2 r : jsnum) : bool :=
  match d2 with NaN => false | _ => num_lt r (num 0) || num_lt (num_mul r r) d2 end.

Definition stableHash (value : string) : Z := to_uint32 (fnv1a_loop 2166136261 value).
Definition unitHash (value : string) : Q := stableHash value # 4294967295.

Definition word_char (c : ascii) : bool :=
  let n := nat_of_ascii c in
  (97 <=? n)%nat && (n <=? 122)%nat || (48 <=? n)%nat && (n <=? 57)%nat || (n =? 58)%nat || (n =? 95)%nat || (n =? 45)%nat.

(** [split(/[^a-z0-9:_-]+/)]: the runs between other characters. *)
Fixpoint words_from (cur s : string) : list string :=
  match s with
  | EmptyString => [cur]
  | String c s => if word_char c then words_from (cur +:+ String c "") s else cur :: words_from "" s
  end.

Definition toLowerWords (value : string) : list string := filter (fun w => w <> "") (words_from "" (to_lower value)).

(** ** Records *)

Definition nonempty_or (s : option string) (d : string) : string :=
  match s with Some s => if str_eqb s "" then d else s | None => d end.

Definition createSpatialMemoryRecord (i : memory) : result mem_error memory :=
  require (negb (str_eqb (trim (semanticRef i)) "")) REF_REQUIRED ;?
  require (negb (str_eqb (trim (m_label i)) "")) LABEL_REQUIRED ;?
  Ok (Memory (trim (semanticRef i)) (objectType i) (trim (m_label i))
        (Some (nonempty_or (trim <$> m_summary i) (trim (m_label i))))
        (workspaceId i) (sessionRef i) (createdAt i) (lastActiveAt i) (lastReusedAt i)
        (Some (clamp (default (dec 1 2) (relevanceScore i)) (num 0) (num 1)))
        (Some (clamp (default (num (if default false (m_pinned i) then 1 else 0)) (pinWeight i)) (num 0) (num 1)))
        (Some (default false (m_pinned i))) (Some (default false (m_unresolved i))) (Some (default false (m_active i)))
        (branchDescendantRefs i) (structuralParentRef i) (metadata i) (worldPosition i) (sourceRevision i) (provenanceRef i)
        (Some (default true (m_authorized i))) (Some (default true (m_available i))) (Some (default false (m_stale i)))
        (unavailableReason i)).

(** What the flags of a stored record say. *)
Definition is_false (b : option bool) : bool := match b with Some false => true | _ => false end.
Definition is_true (b : option bool) : bool := default false b.
Definition unavailable (m : memory) : bool := is_false (m_authorized m) || is_false (m_available m).
Definition active_at (now : iso) (m : memory) : iso := default now (lastActiveAt m).

Definition member_of (m : memory) : semantic_ref := SemanticRef (semanticRef m) (objectType m) (default 0 (sourceRevision m)).

(** ** Levels and zones *)

Definition DAY_MS : Z := 86400000.

(** [inactivityDays < d], the days since the last activity or reuse, as
    milliseconds: [d] is a number of half days. *)
Definition inactivity (now : iso) (m : memory) : Z :=
  let reuse := match lastReusedAt m with Some d => default now d | None => 0 end in
  Z.max 0 (now - Z.max (active_at now m) reuse).
Definition half_days (n : Z) : Z := n * 43200000.

Definition pinned_for_age (m : memory) : bool :=
  is_true (m_pinned m) || num_le (dec 8 10) (default (num 0) (pinWeight m)) || is_true (m_unresolved m).

(** The level by age alone, and then against the level before. *)
Definition level_by_age (x : Z) : level :=
  if x <? half_days 2 then L_RECENT else if x <? half_days 14 then L_OLDER
  else if x <? half_days 60 then L_PERIPHERAL else L_VIRTUALIZED.

Definition is_level (o : option level) (l : level) : bool := bool_decide (o = Some l).

Definition settle_level (previous : option level) (x : Z) (pinned : bool) : level :=
  let c := level_by_age x in
  let c := if pinned && (projectionLevelRank L_RECENT <? projectionLevelRank c) then L_RECENT else c in
  let c := if is_level previous L_RECENT && bool_decide (c = L_OLDER) && (x <? half_days 3) then L_RECENT else c in
  let c := if is_level previous L_OLDER && bool_decide (c = L_RECENT) && (half_days 1 <? x) then L_OLDER else c in
  let c := if is_level previous L_PERIPHERAL && bool_decide (c = L_VIRTUALIZED) && (x <? half_days 70) then L_PERIPHERAL else c in
  if is_level previous L_VIRTUALIZED && bool_decide (c = L_PERIPHERAL) && (half_days 50 <? x) then L_VIRTUALIZED else c.

Definition classify (now : iso) (m : memory) (previous : option level) (clusterRef : option string) : level :=
  if is_true (m_active m) then L_ACTIVE
  else if truthy clusterRef then L_CLUSTERED
  else settle_level previous (inactivity now m) (pinned_for_age m).

Definition zoneFor (m : memory) (l : level) (clusterRef : option string) : region :=
  if is_true (m_active m) || is_true (m_unresolved m) && str_eqb (objectType m) "attention" then ACTIVE_WORK
  else if str_eqb (objectType m) "agent" then AGENT_SPACE
  else if str_eqb (objectType m) "endpoint" || str_eqb (objectType m) "service" then ENDPOINT_ARC
  else if truthy clusterRef || bool_decide (l = L_CLUSTERED) then CLUSTER_MEMORY
  else if bool_decide (l = L_PERIPHERAL) || bool_decide (l = L_VIRTUALIZED) then DEEP_MEMORY
  else RECENT_MEMORY.

(** ** Clusters *)

(** A group being filled. *)
Record group : Type := Group {
  g_criterion : criterion;
  g_key : string;
  g_members : list memory;
  g_title : string;
  g_evidence : list string;
  manualId : option string;
}.

Definition group_key (c : criterion) (key : string) (manual : option string) : string :=
  match manual with Some id => id | None => "auto:" +:+ criterion_name c +:+ ":" +:+ key end.

Definition addGroup (c : criterion) (key : string) (m : memory) (title evidence : string) (manual : option string)
  (gs : jsmap group) : jsmap group :=
  if str_eqb key "" then gs
  else
    let k := group_key c key manual in
    let g := default (Group c key [] title [evidence] manual) (jget k gs) in
    jset k (Group (g_criterion g) (g_key g) (g_members g ++ [m]) (g_title g) (g_evidence g) (manualId g)) gs.

Definition add_manual (rs : jsmap memory) (exclusions : jsmap (list string)) (gs : jsmap group) (mg : manual_group) : jsmap group :=
  foldl (fun gs ref =>
    match jget ref rs with
    | Some m =>
        if bool_decide (ref ∈ default [] (jget (mg_id mg) exclusions)) then gs
        else addGroup MANUAL (mg_id mg) m (mg_title mg) ("manual group " +:+ mg_id mg) (Some (mg_id mg)) gs
    | None => gs
    end) gs (mg_members mg).

(** A string in the metadata that is not empty. *)
Definition meta_string (m : memory) (k : string) : option string :=
  match jget k (metadata m) with Some (JStr s) => if str_eqb s "" then None else Some s | _ => None end.

Definition orelse {A} (a b : option A) : option A := match a with Some _ => a | None => b end.

(** The first grouping signal of a record: criterion, key, title, evidence. *)
Definition signal (m : memory) : option (criterion * string * string * string) :=
  let by_meta k c title evidence := (fun key => (c, key, title, evidence)) <$> meta_string m k in
  orelse (match structuralParentRef m with
          | Some p => if str_eqb p "" then None else Some (STRUCTURAL_PARENT, p, "Context branch", "shared structural parent")
          | None => None
          end)
    (orelse (by_meta "project" PROJECT "Project memory" "shared project")
    (orelse (by_meta "topic" TOPIC "Topic memory" "shared topic")
    (orelse (by_meta "endpointRef" C_ENDPOINT "Endpoint memory" "shared Endpoint")
    (orelse (by_meta "agentRef" C_AGENT "Agent memory" "shared Agent")
    (orelse (by_meta "subsystem" SUBSYSTEM "Subsystem memory" "shared Node subsystem")
            (by_meta "similarityKey" SIMILARITY "Related memory" "semantic similarity signal")))))).

Definition add_automatic (gs : jsmap group) (m : memory) : jsmap group :=
  match signal m with
  | Some (c, key, title, evidence) => addGroup c key m title evidence None gs
  | None => gs
  end.

Definition groups_of (e : engine) : jsmap group :=
  foldl add_automatic (foldl (add_manual (records e) (clusterExclusions e)) [] (jvalues (manualGroups e))) (jvalues (records e)).

Definition cluster_id_of (e : engine) (g : group) : string :=
  match manualId g with
  | Some id => id
  | None => "cluster:" +:+ pretty (stableHash (op_workspace (eg_options e) +:+ ":" +:+ criterion_name (g_criterion g) +:+ ":" +:+ g_key g))
  end.

Definition stale_member (m : memory) : bool := is_true (m_stale m) || unavailable m.

Definition cluster_of (e : engine) (g : group) : cluster :=
  let id := cluster_id_of e g in
  let revs := map (fun m => default 0 (sourceRevision m)) (g_members g) in
  let top := match revs with [] => 0 | r :: revs => foldl Z.max r revs end in
  Cluster id (op_workspace (eg_options e)) (g_title g) (g_criterion g) (Z.max top (Z.of_nat (length (g_members g))))
    (g_evidence g) (map member_of (g_members g)) (map member_of (filter (fun m => stale_member m = true) (g_members g)))
    (id +:+ ":summary") false false (layoutRevision e) (id, top) (map m_label (g_members g)).

Definition kept_group (g : group) : bool :=
  negb (bool_decide (length (g_members g) < 2)%nat && negb (bool_decide (g_criterion g = MANUAL))).

Definition buildClusters (e : engine) : jsmap cluster :=
  foldl (fun cs g => if kept_group g then let c := cluster_of e g in jset (cluster_id c) c cs else cs) [] (jvalues (groups_of e)).

(** The cluster each reference is in; the last one counts. *)
Definition cluster_by_member (cs : jsmap cluster) : jsmap string :=
  foldl (fun m c => foldl (fun m r => jset (sr_ref r) (cluster_id c) m) m (member_refs c)) [] (jvalues cs).

(** ** Layout *)

Section engine.
Context {zod : Zod} {math : HostMath} {col : Collation}.

Definition REGION_ANCHORS (r : region) : position :=
  match r with
  | ACTIVE_WORK => Position (num 0) (num 0) (num 0)
  | AGENT_SPACE => Position (num (-4)) (dec 25 10) (dec (-15) 10)
  | RECENT_MEMORY => Position (num 0) (num (-3)) (dec (-12) 10)
  | CLUSTER_MEMORY => Position (dec 38 10) (dec 23 10) (dec (-24) 10)
  | ENDPOINT_ARC => Position (num 0) (dec (-52) 10) (dec (-28) 10)
  | DEEP_MEMORY => Position (dec 52 10) (dec (-36) 10) (dec (-42) 10)
  end.

Definition layoutScale (o : options) : jsnum :=
  let w := default (num 1024) (vw_width o) in
  let h := default (num 720) (vw_height o) in
  num_mul (clamp (num_mul (num_min w h) (dec 1 720)) (dec 72 100) (dec 135 100)) (if vw_mobile o then dec 82 100 else num 1).

Definition regionAnchor (o : options) (r : region) : position :=
  let s := layoutScale o in
  let b := REGION_ANCHORS r in
  Position (toFixed 4 (num_mul (po_x b) s)) (toFixed 4 (num_mul (po_y b) s)) (toFixed 4 (num_mul (po_z b) s)).

Definition positionForIndex (anchor : position) (index : nat) (sd : string) (scale : jsnum) : position :=
  let i := inject_Z (Z.of_nat index) in
  let angle := (i * (2399963229728653 # 1000000000000000) + unitHash (sd +:+ ":angle") * MATH_PI * 2)%Q in
  let radius := ((72 # 100) + host_sqrt i * (48 # 100))%Q in
  Position
    (toFixed 4 (num_add (po_x anchor) (num_mul (Finite (host_cos angle * radius)) scale)))
    (toFixed 4 (num_add (po_y anchor) (num_mul (Finite (host_sin angle * radius * (62 # 100))) scale)))
    (toFixed 4 (num_sub (po_z anchor) (dec (Z.of_nat index mod 7 * 16) 100))).

Definition apart (p : position) (nearby : list position) : bool :=
  forallb (fun q => num_le (dec 1764 10000) (distance2 p q)) nearby.

Definition offset (candidate : position) (attempt : Z) : position :=
  Position (num_add (po_x candidate) (dec (attempt mod 5 * 36) 100))
    (num_add (po_y candidate) (dec (attempt / 5 * 32) 100))
    (num_add (po_z candidate) (dec (- (attempt mod 3 * 12)) 100)).

Definition placeWithoutCollision (candidate : position) (occupied : list position) : position :=
  if (512 <? Z.of_nat (length occupied)) then candidate
  else
    let nearby := if 128 <? Z.of_nat (length occupied) then drop (length occupied - 128) occupied else occupied in
    if apart candidate nearby then candidate
    else default candidate (head (filter (fun p => apart p nearby = true) (map (offset candidate) (seqZ 1 31)))).

(** ** [rebuild] *)

(** The most recent first; [localeCompare] on the references breaks ties. *)
Definition more_recent (now : iso) (a b : memory) : bool :=
  let d := active_at now b - active_at now a in
  if bool_decide (d = 0) then bool_decide (localeCompare (semanticRef a) (semanticRef b) <= 0) else bool_decide (d < 0).

Definition bump (r : region) (idx : region -> nat) : region -> nat :=
  fun r' => if bool_decide (r = r') then S (idx r') else idx r'.

Definition projection_of (e : engine) (now : iso) (clusterRef : option string) (index : nat) (occupied : list position)
  (previous : option projection) (m : memory) : projection :=
  let o := eg_options e in
  let l := classify now m (memory_level <$> previous) clusterRef in
  let z := zoneFor m l clusterRef in
  let manual := jget (semanticRef m) (manualPositions e) in
  let generated := placeWithoutCollision (positionForIndex (regionAnchor o z) index (seed o +:+ ":" +:+ semanticRef m) (layoutScale o)) occupied in
  Projection ("memory:" +:+ pretty (stableHash (op_workspace o +:+ ":" +:+ semanticRef m))) (op_workspace o)
    (member_of m) (sessionRef m) z l (default now (createdAt m)) (active_at now m)
    (default now <$> lastReusedAt m)
    (default (dec 1 2) (relevanceScore m)) (default (num 0) (pinWeight m)) clusterRef
    (from_option lod 2 previous)
    (if unavailable m then R_UNAVAILABLE else from_option render R_MATERIALIZED previous)
    (default (default generated (worldPosition m)) manual)
    (bool_decide (is_Some manual) || bool_decide (is_Some (worldPosition m)))
    (is_true (m_pinned m)) (is_true (m_unresolved m)) (negb (is_false (m_authorized m)))
    (if unavailable m then Some (default "Reference is unavailable." (unavailableReason m)) else None)
    (from_option pj_revision 0 previous + 1)
    (default (semanticRef m) (provenanceRef m), default 0 (sourceRevision m))
    (m_label m) (default (m_label m) (m_summary m)) (objectType m) (is_true (m_stale m)) (metadata m).

Fixpoint project_all (e : engine) (now : iso) (byMember : jsmap string) (ms : list memory) (occupied : list position)
  (idx : region -> nat) (next : jsmap projection) : jsmap projection :=
  match ms with
  | [] => next
  | m :: ms =>
      let previous := jget (semanticRef m) (projectionsByRef e) in
      let clusterRef := jget (semanticRef m) byMember in
      let z := zoneFor m (classify now m (memory_level <$> previous) clusterRef) clusterRef in
      let p := projection_of e now clusterRef (idx z) occupied previous m in
      project_all e now byMember ms (occupied ++ [world_position p]) (bump z idx) (jset (semanticRef m) p next)
  end.

Definition set_render (r : render_state) (l : Z) (p : projection) : projection :=
  Projection (projection_id p) (pj_workspace p) (pj_ref p) (pj_session p) (zone p) (memory_level p) (pj_created p) (last_active p)
    (last_reused p) (relevance p) (pin_weight p) (cluster_ref p) l r (world_position p) (manual_override p) (pj_pinned p)
    (pj_unresolved p) (pj_authorized p) (pj_unavailable p) (pj_revision p) (pj_provenance p) (pj_label p) (pj_summary p) (pj_type p)
    (pj_stale p) (pj_metadata p).
Definition bump_revision (p : projection) : projection :=
  Projection (projection_id p) (pj_workspace p) (pj_ref p) (pj_session p) (zone p) (memory_level p) (pj_created p) (last_active p)
    (last_reused p) (relevance p) (pin_weight p) (cluster_ref p) (lod p) (render p) (world_position p) (manual_override p) (pj_pinned p)
    (pj_unresolved p) (pj_authorized p) (pj_unavailable p) (pj_revision p + 1) (pj_provenance p) (pj_label p) (pj_summary p) (pj_type p)
    (pj_stale p) (pj_metadata p).

Definition pref (p : projection) : string := sr_ref (pj_ref p).

Definition later_active (a b : projection) : bool :=
  let d := last_active b - last_active a in
  if bool_decide (d = 0) then bool_decide (localeCompare (pref a) (pref b) <= 0) else bool_decide (d < 0).

Definition recent_candidates (ps : list projection) : list projection :=
  sort_by later_active (filter (fun p => zone p = RECENT_MEMORY) ps).

(** The unpinned references within the budget, after [n] of them. *)
Fixpoint within_budget (budget : jsnum) (n : Z) (ps : list projection) : list string :=
  match ps with
  | [] => []
  | p :: ps =>
      if pj_pinned p then within_budget budget n ps
      else if num_lt (num n) budget then pref p :: within_budget budget (n + 1) ps
      else within_budget budget n ps
  end.

Definition visible_refs (budget : jsnum) (cs : list projection) : list string :=
  map pref (filter (fun p => pj_pinned p = true) cs) ++ within_budget budget 0 cs.

(** The objects in the map change in place, so under whatever key they are. *)
Definition applyRecentBudget (o : options) (ps : jsmap projection) : jsmap projection :=
  let visible := visible_refs (visibleRecentBudget o) (recent_candidates (jvalues ps)) in
  map (fun kp : string * projection =>
    let p := kp.2 in
    if bool_decide (zone p = RECENT_MEMORY) && negb (bool_decide (pref p ∈ visible)) && negb (pj_pinned p)
    then (kp.1, set_render R_VIRTUALIZED 0 p) else kp) ps.

Definition rebuild (now : iso) (e : engine) : engine :=
  let e := Engine (eg_options e) (records e) (manualPositions e) (manualGroups e) (clusterExclusions e) (projectionsByRef e)
             (clustersById e) (layoutRevision e + 1) (focusState e) (eg_telemetry e) in
  let cs := buildClusters e in
  let ps := project_all e now (cluster_by_member cs) (sort_by (more_recent now) (jvalues (records e))) [] (fun _ => 0%nat) [] in
  Engine (eg_options e) (records e) (manualPositions e) (manualGroups e) (clusterExclusions e)
    (applyRecentBudget (eg_options e) ps) cs (layoutRevision e) (focusState e) (eg_telemetry e).

(** ** Construction and records *)

Definition set_records (rs : jsmap memory) (e : engine) : engine :=
  Engine (eg_options e) rs (manualPositions e) (manualGroups e) (clusterExclusions e) (projectionsByRef e) (clustersById e)
    (layoutRevision e) (focusState e) (eg_telemetry e).
Definition set_positions (ps : jsmap position) (e : engine) : engine :=
  Engine (eg_options e) (records e) ps (manualGroups e) (clusterExclusions e) (projectionsByRef e) (clustersById e)
    (layoutRevision e) (focusState e) (eg_telemetry e).
Definition set_groups (gs : jsmap manual_group) (e : engine) : engine :=
  Engine (eg_options e) (records e) (manualPositions e) gs (clusterExclusions e) (projectionsByRef e) (clustersById e)
    (layoutRevision e) (focusState e) (eg_telemetry e).
Definition set_exclusions (xs : jsmap (list string)) (e : engine) : engine :=
  Engine (eg_options e) (records e) (manualPositions e) (manualGroups e) xs (projectionsByRef e) (clustersById e)
    (layoutRevision e) (focusState e) (eg_telemetry e).
Definition set_projections (ps : jsmap projection) (e : engine) : engine :=
  Engine (eg_options e) (records e) (manualPositions e) (manualGroups e) (clusterExclusions e) ps (clustersById e)
    (layoutRevision e) (focusState e) (eg_telemetry e).
Definition set_clusters (cs : jsmap cluster) (e : engine) : engine :=
  Engine (eg_options e) (records e) (manualPositions e) (manualGroups e) (clusterExclusions e) (projectionsByRef e) cs
    (layoutRevision e) (focusState e) (eg_telemetry e).
Definition set_focus (f : option focus) (e : engine) : engine :=
  Engine (eg_options e) (records e) (manualPositions e) (manualGroups e) (clusterExclusions e) (projectionsByRef e) (clustersById e)
    (layoutRevision e) f (eg_telemetry e).
Definition set_telemetry (t : telemetry) (e : engine) : engine :=
  Engine (eg_options e) (records e) (manualPositions e) (manualGroups e) (clusterExclusions e) (projectionsByRef e) (clustersById e)
    (layoutRevision e) (focusState e) t.

(** [records.set(record.semanticRef, createSpatialMemoryRecord(record))]: the key
    is the reference as given, the stored record has it trimmed. *)
Definition store_record (m : memory) : method engine mem_error unit :=
  let! r := jlift (createSpatialMemoryRecord m) in
  let! e := jread in
  jwrite (set_records (jset (semanticRef m) r (records e)) e).

Definition jrebuild (now : iso) : method engine mem_error unit :=
  let! e := jread in jwrite (rebuild now e).

(** [projection(semanticRef)], as a copy. *)
Definition get_projection (ref : string) (e : engine) : option projection :=
  if str_eqb ref "" then None else jget ref (projectionsByRef e).

(** [this.projection(ref)!]. *)
Definition jprojection (ref : string) : method engine mem_error (option projection) :=
  let! e := jread in jret (get_projection ref e).

(** The constructor: [now] is the first reading of the clock. *)
Definition empty_engine (workspace : string) (agent policy sd : option string) (recent budget cull width height : option jsnum)
  (mobile : bool) (groups : list manual_group) : engine :=
  Engine (Options workspace agent (default "m8-policy-1" policy) (default workspace sd)
            (num_max (num 1) (num_floor (default (num 8) recent))) (num_max (num 1) (num_floor (default (num 30) budget)))
            (num_max (num 1) (default (num 12) cull)) width height mobile)
    [] [] (foldl (fun m g => jset (mg_id g) g m) [] groups) [] [] [] 0 None
    (Telemetry 0 0 0 0 (LodCounts 0 0 0 0) (num 30) (num 0) false).

Definition upsertMany (ms : list memory) (now : iso) : method engine mem_error unit :=
  jforeach store_record ms ;! jrebuild now.

(** [new SpatialMemoryEngine(options, records)] is the empty engine with the
    records stored and one [rebuild]. *)
Definition new_engine (e0 : engine) (ms : list memory) (now : iso) : result mem_error engine :=
  match upsertMany ms now e0 with (e, Ok _) => Ok e | (_, Err x) => Err x end.

Definition upsert (m : memory) (now : iso) : method engine mem_error (option projection) :=
  let! r := jlift (createSpatialMemoryRecord m) in
  let! e := jread in
  jlift (require (match workspaceId r with
                  | Some w => str_eqb w "" || str_eqb w (op_workspace (eg_options e))
                  | None => true
                  end) OTHER_WORKSPACE) ;!
  jwrite (set_records (jset (semanticRef r) r (records e)) e) ;!
  jrebuild now ;!
  jprojection (semanticRef r).

Definition finite_position (p : position) : bool := isFinite (po_x p) && isFinite (po_y p) && isFinite (po_z p).

Definition move (ref : string) (p : position) (now : iso) : method engine mem_error (option projection) :=
  jlift (require (finite_position p) POSITION_NOT_FINITE) ;!
  let! e := jread in
  jlift (require (jhas ref (records e)) UNKNOWN_REF) ;!
  jwrite (set_positions (jset ref p (manualPositions e)) e) ;!
  jrebuild now ;!
  jprojection ref.

Definition with_pin (b : bool) (m : memory) : memory :=
  Memory (semanticRef m) (objectType m) (m_label m) (m_summary m) (workspaceId m) (sessionRef m) (createdAt m) (lastActiveAt m)
    (lastReusedAt m) (relevanceScore m) (if b then Some (num 1) else pinWeight m) (Some b) (m_unresolved m) (m_active m)
    (branchDescendantRefs m) (structuralParentRef m) (metadata m) (worldPosition m) (sourceRevision m) (provenanceRef m)
    (m_authorized m) (m_available m) (m_stale m) (unavailableReason m).

Definition with_reuse (at_ : date) (m : memory) : memory :=
  Memory (semanticRef m) (objectType m) (m_label m) (m_summary m) (workspaceId m) (sessionRef m) (createdAt m) at_
    (Some at_) (relevanceScore m) (pinWeight m) (m_pinned m) (m_unresolved m) (m_active m)
    (branchDescendantRefs m) (structuralParentRef m) (metadata m) (worldPosition m) (sourceRevision m) (provenanceRef m)
    (m_authorized m) (m_available m) (m_stale m) (unavailableReason m).

(** Replace the record under [ref] and rebuild. *)
Definition update_record (ref : string) (f : memory -> memory) (now : iso) : method engine mem_error (option projection) :=
  let! e := jread in
  let! current := jlift (of_option (jget ref (records e)) UNKNOWN_REF) in
  let! r := jlift (createSpatialMemoryRecord (f current)) in
  jwrite (set_records (jset ref r (records e)) e) ;!
  jrebuild now ;!
  jprojection ref.

Definition setPinned (ref : string) (pinned : bool) (now : iso) : method engine mem_error (option projection) :=
  update_record ref (with_pin pinned) now.

Definition reuse (ref : string) (at_ : option date) (now : iso) : method engine mem_error (option projection) :=
  update_record ref (with_reuse (default (Some now) at_)) now.

(** [sort((left, right) => left.localeCompare(right))] under a key. *)
Definition by_text {A} (key : A -> string) (a b : A) : bool := bool_decide (localeCompare (key a) (key b) <= 0).

Definition projections (e : engine) : list projection := sort_by (by_text pref) (jvalues (projectionsByRef e)).
Definition clusters (e : engine) : list cluster := sort_by (by_text cluster_id) (jvalues (clustersById e)).

Definition visibleRecent (e : engine) : list projection :=
  filter (fun p => pj_pinned p || negb (bool_decide (render p = R_VIRTUALIZED)) = true)
    (sort_by later_active
       (filter (fun p => bool_decide (zone p = RECENT_MEMORY) && pj_authorized p = true) (projections e))).

(** ** Manual clusters *)

Definition createManualCluster (g : manual_group) (now : iso) : method engine mem_error cluster :=
  jlift (require (negb (str_eqb (trim (mg_id g)) "") && negb (bool_decide (mg_members g = []))) CLUSTER_INCOMPLETE) ;!
  let! e := jread in
  jwrite (set_groups (jset (mg_id g) (ManualGroup (mg_id g) (mg_title g) (unique (mg_members g))) (manualGroups e)) e) ;!
  jrebuild now ;!
  let! e := jread in
  jlift (of_option (jget (mg_id g) (clustersById e)) CLUSTER_UNRESOLVED).

Definition removeClusterMember (id ref : string) (now : iso) : method engine mem_error (option cluster) :=
  let! e := jread in
  let xs := default [] (jget id (clusterExclusions e)) in
  jwrite (set_exclusions (jset id (if bool_decide (ref ∈ xs) then xs else xs ++ [ref]) (clusterExclusions e)) e) ;!
  jrebuild now ;!
  let! e := jread in jret (jget id (clustersById e)).

Definition with_collapsed (b : bool) (c : cluster) : cluster :=
  Cluster (cluster_id c) (cl_workspace c) (cl_title c) (cl_criterion c) (criterion_revision c) (cl_evidence c) (member_refs c)
    (stale_member_refs c) (summary_ref c) b (cl_pinned c) (cl_revision c + 1) (cl_provenance c) (memberLabels c).

Definition setClusterCollapsed (id : string) (b : bool) : method engine mem_error (option cluster) :=
  let! e := jread in
  match jget id (clustersById e) with
  | None => jret None
  | Some c => jwrite (set_clusters (jset id (with_collapsed b c) (clustersById e)) e) ;! jret (Some (with_collapsed b c))
  end.

(** ** Relations *)

(** [SpatialMemoryRelation]; [revision] and [state] are carried along. *)
Record mrelation : Type := MRelation { mr_id : string; sourceRef : string; targetRef : string; mr_type : string; mr_label : option string }.

Record revealed : Type := Revealed {
  rv_relation : mrelation;
  rv_label : string;
  sourceLabel : string;
  rv_target_label : string;
  directionLabel : string;
  sourceOffscreen : bool;
  targetOffscreen : bool;
  accessibleText : string;
}.

(** [slice(0, n)] *)
Definition take_num {A} (n : jsnum) (l : list A) : list A :=
  match n with
  | Finite q => let k := Qtrunc q in if 0 <=? k then take (Z.to_nat k) l else take (Z.to_nat (Z.of_nat (length l) + k)) l
  | PosInf => l
  | NegInf | NaN => []
  end.

Definition string_map_char (c d : ascii) (s : string) : string := string_map (fun x => if bool_decide (x = c) then d else x) s.

Definition revealRelations (focusRef : string) (rs : list mrelation) (max : option jsnum) (e : engine) : list revealed :=
  let fp := get_projection focusRef e in
  let c := head (filter (fun c => focusRef ∈ map sr_ref (member_refs c)) (clusters e)) in
  let refs := focusRef :: from_option (fun c => map sr_ref (member_refs c)) [] c in
  let off p := match p, fp with Some p, Some f => beyond (distance2 (world_position p) (world_position f)) (num 8) | _, _ => false end in
  map (fun r =>
    let s := get_projection (sourceRef r) e in
    let t := get_projection (targetRef r) e in
    let sl := from_option pj_label (sourceRef r) s in
    let tl := from_option pj_label (targetRef r) t in
    let l := default (to_lower (string_map_char "_" " " (mr_type r))) (mr_label r) in
    Revealed r l sl tl (sl +:+ " → " +:+ tl) (off s) (off t) (l +:+ ": " +:+ sl +:+ " to " +:+ tl))
    (take_num (num_max (num 1) (default (num 24) max))
       (sort_by (by_text mr_id) (filter (fun r => sourceRef r ∈ refs \/ targetRef r ∈ refs) rs))).

(** ** Contracts *)

Definition lowerCodeSchema (s : string) : option string := z_string 1 64 (to_lower (trim s)).

Definition semanticRefSchema (r : semantic_ref) : option semantic_ref :=
  c ← idSchema (sr_ref r);
  t ← lowerCodeSchema (sr_type r);
  v ← revisionSchema (sr_revision r);
  Some (SemanticRef c t v).

Definition memoryCameraSchema (c : mcamera) : option mcamera :=
  x ← finiteNumber (mc_x c);
  y ← finiteNumber (mc_y c);
  z ← finiteNumber (mc_zoom c);
  z ← guard (num_lt (num 0) z) z;
  f ← nullable idSchema (mc_focus c);
  Some (MCamera x y z f).

Definition spatialMemoryFocusSchema (f : focus) : option focus :=
  id ← idSchema (focus_ref_id f);
  ws ← idSchema (fo_workspace f);
  t ← semanticRefSchema (target_ref f);
  rev ← revisionSchema (target_revision f);
  p ← spatialPositionSchema (fo_position f);
  tp ← nullable spatialPositionSchema (temporary_position f);
  c ← memoryCameraSchema (previous_camera f);
  c' ← memoryCameraSchema (restore_camera f);
  u ← nullable labelSchema (fo_unavailable f);
  t1 ← timestampSchema (fo_created f);
  t2 ← timestampSchema (fo_updated f);
  Some (Focus id ws t (fo_state f) rev p tp c c' (fo_source f) (reduced_motion f) u t1 t2 (targetLabel f)).

(** ** Focus *)

(** [SpatialMemoryFocusOptions] but for its clock. *)
Record focus_options : Type := FocusOptions { fx_camera : mcamera; fx_source : option focus_source; fx_reduced : option bool }.

Definition focus_id_of (o : options) (ref : string) (t : iso) : string :=
  "focus:" +:+ pretty (stableHash (op_workspace o +:+ ":" +:+ ref +:+ ":" +:+ toISOString t)).

Definition ORIGIN : position := Position (num 0) (num 0) (num 0).

Definition requestFocus (ref : string) (x : focus_options) (now : iso) : method engine mem_error focus :=
  let! e := jread in
  let p := get_projection ref e in
  let m := jget ref (records e) in
  let rev := default (from_option (fun p => sr_revision (pj_ref p)) 0 p) (m ≫= sourceRevision) in
  let target := SemanticRef ref (from_option objectType "unknown" m) rev in
  let make st pos reason lbl :=
    Focus (focus_id_of (eg_options e) ref now) (op_workspace (eg_options e)) target st rev pos None (fx_camera x) (fx_camera x)
      (default FS_POINTER (fx_source x)) (default false (fx_reduced x)) reason now now lbl in
  let f :=
    match p, m with
    | Some p, Some m =>
        if unavailable m
        then make F_UNAVAILABLE_REF (world_position p)
               (Some (default "Reference is unavailable or unauthorized." (unavailableReason m))) (m_label m)
        else make REQUESTED (world_position p) None (pj_label p)
    | _, _ => make F_UNAVAILABLE_REF (from_option world_position ORIGIN p)
                (Some (default "Reference is unavailable or unauthorized." (m ≫= unavailableReason))) (from_option m_label ref m)
    end in
  let! f := jlift (of_option (spatialMemoryFocusSchema f) MEM_ZOD) in
  jwrite (set_focus (Some f) e) ;!
  jret f.

Definition with_state (st : focus_state) (now : iso) (f : focus) : focus :=
  Focus (focus_ref_id f) (fo_workspace f) (target_ref f) st (target_revision f) (fo_position f) (temporary_position f)
    (previous_camera f) (restore_camera f) (fo_source f) (reduced_motion f) (fo_unavailable f) (fo_created f) now (targetLabel f).
Definition with_temporary (p : position) (f : focus) : focus :=
  Focus (focus_ref_id f) (fo_workspace f) (target_ref f) (fo_state f) (target_revision f) (fo_position f) (Some p)
    (previous_camera f) (restore_camera f) (fo_source f) (reduced_motion f) (fo_unavailable f) (fo_created f) (fo_updated f) (targetLabel f).

Definition is_state (f : focus) (st : focus_state) : bool := bool_decide (fo_state f = st).

(** The projection it raises is the copy [this.projection] returns: nothing of
    the engine but the focus changes. *)
Definition materializeFocus (now : iso) : method engine mem_error (option focus) :=
  let! e := jread in
  match focusState e with
  | None => jret None
  | Some f =>
      if is_state f F_UNAVAILABLE_REF || is_state f CANCELLED then jret (Some f)
      else match get_projection (sr_ref (target_ref f)) e with
           | None => jret (Some f)
           | Some _ =>
               let! g := jlift (of_option (spatialMemoryFocusSchema
                                  (with_state MATERIALIZING now (with_temporary (Position (num 0) (num 0) (dec (-16) 10)) f))) MEM_ZOD) in
               jwrite (set_focus (Some g) e) ;!
               jret (Some g)
           end
  end.

(** Write the focus in another state. *)
Definition move_focus (st : focus_state) (now : iso) (f : focus) : method engine mem_error (option focus) :=
  let! e := jread in
  jwrite (set_focus (Some (with_state st now f)) e) ;!
  jret (Some (with_state st now f)).

Definition completeFocus (now : iso) : method engine mem_error (option focus) :=
  let! e := jread in
  match focusState e with
  | None => jret None
  | Some f =>
      (if is_state f REQUESTED then materializeFocus now ;! jret tt else jret tt) ;!
      let! e := jread in
      match focusState e with
      | Some f => if is_state f MATERIALIZING then move_focus FOCUSED now f else jret (Some f)
      | None => jret None
      end
  end.

Definition pinFocus (now : iso) : method engine mem_error (option focus) :=
  let! e := jread in
  match focusState e with
  | None => jret None
  | Some f =>
      if is_state f F_UNAVAILABLE_REF then jret (Some f)
      else setPinned (sr_ref (target_ref f)) true now ;! move_focus PINNED now f
  end.

Definition returnFromFocus (now : iso) : method engine mem_error (option focus) :=
  let! e := jread in
  match focusState e with
  | None => jret None
  | Some f => if is_state f F_UNAVAILABLE_REF then jret (Some f) else move_focus RETURNING now f
  end.

Definition cancelFocus (now : iso) : method engine mem_error (option focus) :=
  let! e := jread in
  match focusState e with
  | None => jret None
  | Some f => move_focus CANCELLED now f
  end.

(** ** Search *)

Inductive result_state : Type := SR_AVAILABLE | SR_STALE | SR_UNAVAILABLE.
#[export] Instance result_state_eq_dec : EqDecision result_state.
Proof. solve_decision. Defined.

Record search_result : Type := SearchResult {
  result_ref : semantic_ref;
  sr_relevance : jsnum;
  sr_evidence : list string;
  sr_state : result_state;
  sr_label : string;
}.

Record search : Type := Search {
  search_id : string;
  se_workspace : string;
  query : string;
  se_policy : string;
  results : list search_result;
  performed_at : iso;
}.

(** [SpatialMemorySearchOptions] but for its clock. *)
Record search_options : Type := SearchOptions {
  limit : option jsnum;
  authorizedRefs : option (list string);
  includeUnavailable : option bool;
}.

(** [String(value ?? '')]. *)
Definition meta_text (v : json) : string :=
  match v with
  | JStr s => s
  | JNum z => pretty z
  | JBool b => if b then "true" else "false"
  | _ => ""
  end.

Definition join_space (l : list string) : string := match l with [] => "" | x :: l => foldl (fun a b => a +:+ " " +:+ b) x l end.

Definition search_fields (m : memory) : list (string * string) :=
  [("label", m_label m); ("summary", default "" (m_summary m)); ("semantic reference", semanticRef m);
   ("metadata", join_space (map (fun kv : string * json => kv.1 +:+ " " +:+ meta_text kv.2) (metadata m)))].

Definition field_matches (tokens : list string) (value : string) : bool :=
  existsb (fun t => existsb (includes t) (toLowerWords value)) tokens.

Definition evidence_of (tokens : list string) (m : memory) : list string :=
  map (fun f => "matched " +:+ f.1) (filter (fun f : string * string => field_matches tokens f.2 = true) (search_fields m)).

Definition score_of (q : string) (tokens : list string) (m : memory) : jsnum :=
  let ev := Z.of_nat (length (evidence_of tokens m)) in
  let exact := includes (to_lower q) (to_lower (m_label m)) in
  clamp (num_add (num_add (num_mul (dec ev 4) (dec 65 100)) (if exact then dec 35 100 else num 0))
           (num_mul (default NaN (relevanceScore m)) (dec 1 10))) (num 0) (num 1).

(** Highest score first; a difference of NaN does not count. *)
Definition better (q : string) (tokens : list string) (a b : memory) : bool :=
  let sa := score_of q tokens a in
  let sb := score_of q tokens b in
  if num_lt sb sa then true else if num_lt sa sb then false
  else bool_decide (localeCompare (semanticRef a) (semanticRef b) <= 0).

Definition allowed (x : search_options) (m : memory) : bool :=
  negb (is_false (m_authorized m)) &&
  match authorizedRefs x with Some refs => bool_decide (semanticRef m ∈ refs) | None => true end.

Definition found_of (e : engine) (q : string) (tokens : list string) (x : search_options) (m : memory) : option search_result :=
  let p := get_projection (semanticRef m) e in
  let st := if unavailable m then SR_UNAVAILABLE
            else if is_true (m_stale m) || bool_decide (memory_level <$> p = Some L_VIRTUALIZED) then SR_STALE else SR_AVAILABLE in
  if bool_decide (st = SR_UNAVAILABLE) && negb (default false (includeUnavailable x)) then None
  else Some (SearchResult
               (SemanticRef (semanticRef m) (objectType m) (default (from_option (fun p => sr_revision (pj_ref p)) 0 p) (sourceRevision m)))
               (toFixed 4 (score_of q tokens m)) (evidence_of tokens m) st (m_label m)).

Definition search_hits (e : engine) (q : string) (tokens : list string) (x : search_options) : list memory :=
  take_num (num_max (num 1) (default (num 50) (limit x)))
    (sort_by (better q tokens)
       (filter (fun m => negb (bool_decide (evidence_of tokens m = [])) = true)
          (filter (fun m => allowed x m = true) (jvalues (records e))))).

Definition unitSchema (n : jsnum) : option jsnum := boundedSchema 1 n.

Definition searchResultSchema (r : search_result) : option search_result :=
  ref ← semanticRefSchema (result_ref r);
  n ← unitSchema (sr_relevance r);
  ev ← z_array labelSchema 12 (sr_evidence r);
  Some (SearchResult ref n ev (sr_state r) (sr_label r)).

Definition spatialMemorySearchSchema (s : search) : option search :=
  id ← idSchema (search_id s);
  ws ← idSchema (se_workspace s);
  q ← z_string 1 240 (trim (query s));
  pol ← idSchema (se_policy s);
  rs ← z_array searchResultSchema 10000 (results s);
  t ← timestampSchema (performed_at s);
  Some (Search id ws q pol rs t).

Definition engine_search (q : string) (x : search_options) (now : iso) (e : engine) : result mem_error search :=
  let q := trim q in
  let tokens := toLowerWords q in
  require (negb (bool_decide (tokens = []))) QUERY_REQUIRED ;?
  let o := eg_options e in
  of_option (spatialMemorySearchSchema
    (Search ("search:" +:+ pretty (stableHash (op_workspace o +:+ ":" +:+ q +:+ ":" +:+ toISOString now))) (op_workspace o) q
       (policyRevision o) (omap (found_of e q tokens x) (search_hits e q tokens x)) now)) MEM_ZOD.

(** ** What is drawn *)

Record mviewport : Type := MViewport { mv_x : jsnum; mv_y : jsnum; mv_z : option jsnum; mv_radius : jsnum; mv_revision : option Z }.

(** [SpatialMemoryVirtualization]. *)
Record virtualization : Type := Virtualization {
  vz_workspace : string;
  viewport_revision : Z;
  vz_counts : telemetry;
  measured_at : iso;
}.

Definition importance (p : projection) : jsnum :=
  num_add (num_add (num_add (relevance p) (pin_weight p)) (if pj_unresolved p then dec 4 10 else num 0))
    (if bool_decide (memory_level p = L_ACTIVE) then dec 3 10 else num 0).

(** [sort] by importance, then distance, then reference. *)
Definition drawn_before (a b : projection * jsnum) : bool :=
  let ia := importance a.1 in
  let ib := importance b.1 in
  if num_lt ib ia then true else if num_lt ia ib then false
  else if num_lt a.2 b.2 then true else if num_lt b.2 a.2 then false
  else by_text pref a.1 b.1.

Definition at_distance (v : mviewport) (p : projection) : projection * jsnum :=
  (p, distance2 (world_position p) (Position (mv_x v) (mv_y v) (default (num 0) (mv_z v)))).

Definition candidates_of (v : mviewport) (e : engine) : list (projection * jsnum) :=
  sort_by drawn_before (map (at_distance v) (projections e)).

Definition in_view (v : mviewport) (cs : list (projection * jsnum)) : list (projection * jsnum) :=
  filter (fun c => within c.2 (mv_radius v) = true) cs.

(** The projection as it is drawn: 3, 2, 1 or 0 by the distance. *)
Definition drawn (o : options) (materialized : list string) (c : projection * jsnum) : projection :=
  let '(p, d2) := c in
  let near n := within d2 (num n) in
  if negb (pj_authorized p) || bool_decide (render p = R_UNAVAILABLE) then set_render R_UNAVAILABLE 0 p
  else if beyond d2 (cullRadius o) then set_render R_VIRTUALIZED 0 p
  else if bool_decide (pref p ∈ materialized)
       then set_render R_MATERIALIZED (if near 2 then 3 else if near 5 then 2 else if near 9 then 1 else 0) p
       else set_render R_SUMMARIZED (if near 9 then 1 else 0) p.

Definition count_lod (n : Z) (l : lod_counts) : lod_counts :=
  if bool_decide (n = 0) then LodCounts (lod0 l + 1) (lod1 l) (lod2 l) (lod3 l)
  else if bool_decide (n = 1) then LodCounts (lod0 l) (lod1 l + 1) (lod2 l) (lod3 l)
  else if bool_decide (n = 2) then LodCounts (lod0 l) (lod1 l) (lod2 l + 1) (lod3 l)
  else LodCounts (lod0 l) (lod1 l) (lod2 l) (lod3 l + 1).

(** The loop over the candidates: what is drawn is counted, by branch and by
    level of detail. *)
Record plan_state : Type := PlanState {
  ps_projections : jsmap projection;
  ps_counts : lod_counts;
  ps_materialized : Z;
  ps_virtualized : Z;
}.

Definition plan_one (o : options) (materialized : list string) (s : plan_state) (c : projection * jsnum) : plan_state :=
  match jget (pref c.1) (ps_projections s) with
  | None => s
  | Some p =>
      let p := drawn o materialized (p, c.2) in
      PlanState (jset (pref p) p (ps_projections s)) (count_lod (lod p) (ps_counts s))
        (ps_materialized s + if bool_decide (render p = R_MATERIALIZED) then 1 else 0)
        (ps_virtualized s + if bool_decide (render p = R_VIRTUALIZED) then 1 else 0)
  end.

(** [z.number().int().nonnegative()] and [positive()]. *)
Definition countSchema (n : Z) : option Z := z_nonneg n.
Definition positiveBudget (n : jsnum) : option jsnum := guard (isInteger n && num_lt (num 0) n) n.
Definition latencyNumber (n : jsnum) : option jsnum := guard (num_le (num 0) n) n.

Definition telemetrySchema (t : telemetry) : option telemetry :=
  a ← countSchema (totalCount t);
  b ← countSchema (visibleCount t);
  c ← countSchema (materializedCount t);
  d ← countSchema (virtualizedCount t);
  l0 ← countSchema (lod0 (lodCounts t));
  l1 ← countSchema (lod1 (lodCounts t));
  l2 ← countSchema (lod2 (lodCounts t));
  l3 ← countSchema (lod3 (lodCounts t));
  r ← positiveBudget (tl_budget t);
  y ← latencyNumber (latency t);
  Some (Telemetry a b c d (LodCounts l0 l1 l2 l3) r y (memoryReleased t)).

Definition spatialMemoryVirtualizationSchema (v : virtualization) : option virtualization :=
  ws ← idSchema (vz_workspace v);
  rev ← revisionSchema (viewport_revision v);
  t ← telemetrySchema (vz_counts v);
  m ← timestampSchema (measured_at v);
  Some (Virtualization ws rev t m).

(** [planVirtualization(viewport)]; [elapsed] is what [performance.now] measured. *)
Definition planVirtualization (v : option mviewport) (elapsed : jsnum) (now : iso) : method engine mem_error virtualization :=
  let! e := jread in
  let o := eg_options e in
  let v := default (MViewport (num 0) (num 0) None (cullRadius o) (Some 0)) v in
  let cs := candidates_of v e in
  let visible := in_view v cs in
  let materialized := map (fun c => pref c.1) (take_num (renderBudget o) visible) in
  let s := foldl (plan_one o materialized) (PlanState (projectionsByRef e) (LodCounts 0 0 0 0) 0 0) cs in
  let t := Telemetry (Z.of_nat (length (projections e))) (Z.of_nat (length visible)) (ps_materialized s) (ps_virtualized s) (ps_counts s)
             (renderBudget o) (toFixed 3 (num_max (num 0) elapsed)) (memoryReleased (eg_telemetry e)) in
  jwrite (set_telemetry t (set_projections (ps_projections s) e)) ;!
  jlift (of_option (spatialMemoryVirtualizationSchema (Virtualization (op_workspace o) (default 0 (mv_revision v)) t now)) MEM_ZOD).

Definition with_released (b : bool) (t : telemetry) : telemetry :=
  Telemetry (totalCount t) (visibleCount t) (materializedCount t) (virtualizedCount t) (lodCounts t) (tl_budget t) (latency t) b.

(** Draw one projection whatever the plan: [materialize] and
    [releaseMaterialization]. *)
Definition draw_one (ref : string) (r : render_state) (n : Z) (released : bool) : method engine mem_error (option projection) :=
  let! e := jread in
  let! p := jlift (of_option (jget ref (projectionsByRef e)) UNKNOWN_REF) in
  jwrite (set_telemetry (with_released released (eg_telemetry e))
            (set_projections (jset ref (bump_revision (set_render r n p)) (projectionsByRef e)) e)) ;!
  jprojection ref.

Definition materialize (ref : string) (n : Z) : method engine mem_error (option projection) :=
  draw_one ref R_MATERIALIZED (Z.min 3 (Z.max 0 n)) false.

Definition releaseMaterialization (ref : string) : method engine mem_error (option projection) :=
  draw_one ref R_VIRTUALIZED 0 true.

(** ** Layout and snapshot *)

Definition REGION_ORDER : list region := [ACTIVE_WORK; AGENT_SPACE; RECENT_MEMORY; CLUSTER_MEMORY; ENDPOINT_ARC; DEEP_MEMORY].

Definition region_name (r : region) : string :=
  match r with
  | ACTIVE_WORK => "ACTIVE_WORK" | AGENT_SPACE => "AGENT_SPACE" | RECENT_MEMORY => "RECENT_MEMORY"
  | CLUSTER_MEMORY => "CLUSTER_MEMORY" | ENDPOINT_ARC => "ENDPOINT_ARC" | DEEP_MEMORY => "DEEP_MEMORY"
  end.

Record manchor : Type := MAnchor { ma_ref : string; ma_region : region; ma_position : position; ma_pinned : bool }.

(** [SpatialMemoryLayout]. *)
Record layout : Type := Layout {
  ly_workspace : string;
  ly_policy : string;
  ly_seed : string;
  ly_agent : option string;
  anchors : list manchor;
  ly_revision : Z;
  ly_updated : iso;
}.

Definition anchorSchema (a : manchor) : option manchor :=
  r ← idSchema (ma_ref a);
  p ← spatialPositionSchema (ma_position a);
  Some (MAnchor r (ma_region a) p (ma_pinned a)).

Definition spatialMemoryLayoutSchema (l : layout) : option layout :=
  ws ← idSchema (ly_workspace l);
  pol ← idSchema (ly_policy l);
  sd ← idSchema (ly_seed l);
  ag ← nullable idSchema (ly_agent l);
  an ← z_array anchorSchema 64 (anchors l);
  rev ← revisionSchema (ly_revision l);
  t ← timestampSchema (ly_updated l);
  Some (Layout ws pol sd ag an rev t).

Definition layout_anchors (o : options) : list manchor :=
  map (fun r => MAnchor ("region:" +:+ to_lower (region_name r)) r (regionAnchor o r) (bool_decide (r = ACTIVE_WORK))) REGION_ORDER.

Definition engine_layout (now : iso) (e : engine) : result mem_error layout :=
  let o := eg_options e in
  of_option (spatialMemoryLayoutSchema
    (Layout (op_workspace o) (policyRevision o) (seed o) (primaryAgentRef o) (layout_anchors o) (layoutRevision e) now)) MEM_ZOD.

Definition without_override (p : projection) : projection :=
  Projection (projection_id p) (pj_workspace p) (pj_ref p) (pj_session p) (zone p) (memory_level p) (pj_created p) (last_active p)
    (last_reused p) (relevance p) (pin_weight p) (cluster_ref p) (lod p) (render p) (world_position p) false (pj_pinned p)
    (pj_unresolved p) (pj_authorized p) (pj_unavailable p) (pj_revision p) (pj_provenance p) (pj_label p) (pj_summary p) (pj_type p)
    (pj_stale p) (pj_metadata p).

Definition resetLayout (now : iso) : method engine mem_error layout :=
  let! e := jread in
  jwrite (set_projections (map (fun kp : string * projection => (kp.1, without_override kp.2)) (projectionsByRef e)) (set_positions [] e)) ;!
  jrebuild now ;!
  let! e := jread in jlift (engine_layout now e).

Definition memProvenanceSchema (p : string * Z) : option (string * Z) :=
  r ← idSchema p.1;
  v ← revisionSchema p.2;
  Some (r, v).

Definition lodSchema (n : Z) : option Z := guard (bool_decide (0 <= n <= 3)) n.

(** [contractProjection]: the contract fields checked, the others dropped (kept
    here as they are). *)
Definition contractProjection (p : projection) : option projection :=
  id ← idSchema (projection_id p);
  ws ← idSchema (pj_workspace p);
  r ← semanticRefSchema (pj_ref p);
  s ← nullable idSchema (pj_session p);
  t1 ← timestampSchema (pj_created p);
  t2 ← timestampSchema (last_active p);
  t3 ← nullable timestampSchema (last_reused p);
  rel ← unitSchema (relevance p);
  pw ← unitSchema (pin_weight p);
  c ← nullable idSchema (cluster_ref p);
  n ← lodSchema (lod p);
  w ← spatialPositionSchema (world_position p);
  u ← nullable labelSchema (pj_unavailable p);
  rev ← revisionSchema (pj_revision p);
  pr ← memProvenanceSchema (pj_provenance p);
  Some (Projection id ws r s (zone p) (memory_level p) t1 t2 t3 rel pw c n (render p) w (manual_override p) (pj_pinned p) (pj_unresolved p)
    (pj_authorized p) u rev pr (pj_label p) (pj_summary p) (pj_type p) (pj_stale p) (pj_metadata p)).

Definition contractCluster (c : cluster) : option cluster :=
  id ← idSchema (cluster_id c);
  ws ← idSchema (cl_workspace c);
  t ← labelSchema (cl_title c);
  crev ← revisionSchema (criterion_revision c);
  ev ← z_array labelSchema 16 (cl_evidence c);
  ms ← z_array semanticRefSchema 10000 (member_refs c);
  st ← z_array semanticRefSchema 10000 (stale_member_refs c);
  s ← idSchema (summary_ref c);
  rev ← revisionSchema (cl_revision c);
  pr ← memProvenanceSchema (cl_provenance c);
  Some (Cluster id ws t (cl_criterion c) crev ev ms st s (collapsed c) (cl_pinned c) rev pr (memberLabels c)).

Record contract_snapshot : Type := ContractSnapshot {
  cs_layout : layout;
  cs_projections : list projection;
  cs_clusters : list cluster;
  cs_focus : option focus;
  cs_telemetry : virtualization;
}.

Definition contractSnapshot (now : iso) (e : engine) : result mem_error contract_snapshot :=
  let? l := engine_layout now e in
  let? ps := of_option (mapM contractProjection (projections e)) MEM_ZOD in
  let? cs := of_option (mapM contractCluster (clusters e)) MEM_ZOD in
  let? f := match focusState e with
            | Some f => let? g := of_option (spatialMemoryFocusSchema f) MEM_ZOD in Ok (Some g)
            | None => Ok None
            end in
  let? t := of_option (spatialMemoryVirtualizationSchema
              (Virtualization (op_workspace (eg_options e)) (totalCount (eg_telemetry e)) (eg_telemetry e) now)) MEM_ZOD in
  Ok (ContractSnapshot l ps cs f t).
End engine.
