(* ===== verification/MemoryProps.v ===== *)
(** * Properties of the spatial memory engine

    Clusters are the groups of records that share a signal; levels have
    hysteresis; the recent region keeps to its budget and a plan to the render
    budget; a focus keeps its way back; a search finds only what may be found. *)

From Stdlib Require Import QArith Qround.
From stdpp Require Import relations pretty.
From S2P Require Import Prelude.
From S2P Require Import Json.
From S2P Require Import Contracts.
From S2P Require Import Slot.
From S2P Require Import Binding.
From S2P Require Import Numbers.
From S2P Require Import Text.
From S2P Require Import Status.
From S2P Require Import RemoteContracts.
From S2P Require Import Memory.

#[local] Open Scope Z_scope.

(** ** Clusters *)

(** The criterion and the key a record is grouped by. *)
Definition signal_key (m : memory) : option (criterion * string) :=
  (fun s : criterion * string * string * string => (s.1.1.1, s.1.1.2)) <$> signal m.

(** The records that share a signal, in the order of the store. *)
Definition sharing (c : criterion) (key : string) (e : engine) : list memory :=
  filter (fun m => signal_key m = Some (c, key)) (jvalues (records e)).

Definition members_at (k : string) (gs : jsmap group) : list memory := from_option g_members [] (jget k gs).

Lemma meta_string_nonempty m k s : meta_string m k = Some s -> s <> "".
Proof.
  unfold meta_string. destruct (jget k (metadata m)) as [[]|]; try done.
  destruct (str_eqb s0 "") eqn:H; [done|]. intros [= <-] ->. by rewrite str_eqb_refl in H.
Qed.

Lemma orelse_some {A} (a b : option A) x : orelse a b = Some x -> a = Some x \/ b = Some x.
Proof. destruct a; cbn; auto. Qed.

Lemma signal_nonempty m c key t ev : signal m = Some (c, key, t, ev) -> key <> "" /\ c <> MANUAL.
Proof.
  unfold signal. intros H.
  apply orelse_some in H as [H|H].
  - destruct (structuralParentRef m) as [p|]; [|done]. destruct (str_eqb p "") eqn:Hp; [done|]. injection H as <- <- <- <-.
    split; [|done]. intros ->. by rewrite str_eqb_refl in Hp.
  - repeat (apply orelse_some in H as [H|H]; [by apply fmap_Some in H as (? & ?%meta_string_nonempty & [= -> -> -> ->])|]).
    by apply fmap_Some in H as (? & ?%meta_string_nonempty & [= -> -> -> ->]).
Qed.

Lemma signal_key_spec m c key : signal_key m = Some (c, key) <-> exists t ev, signal m = Some (c, key, t, ev).
Proof.
  unfold signal_key. split.
  - destruct (signal m) as [[[[c' k'] t] ev]|]; [|done]. cbn. intros [= <- <-]. eauto.
  - intros (t & ev & ->). done.
Qed.

Lemma app_inv_prefix (a b c : string) : a +:+ b = a +:+ c -> b = c.
Proof. induction a as [|x a IH]; cbn; [done|]. intros [= H]. by apply IH. Qed.

Lemma auto_key_inj c k c' k' : group_key c k None = group_key c' k' None -> c = c' /\ k = k'.
Proof. unfold group_key. intros H%app_inv_prefix. destruct c, c'; cbn in H; try discriminate H; by simplify_eq. Qed.

Lemma auto_prefix c k : String.prefix "auto:" (group_key c k None) = true.
Proof. unfold group_key. generalize (criterion_name c +:+ ":" +:+ k). by intros []. Qed.

(** Adding a member: to its group, and to no other. *)
Lemma addGroup_members k c key m t ev man gs : key <> "" ->
  members_at k (addGroup c key m t ev man gs) =
    members_at k gs ++ (if decide (group_key c key man = k) then [m] else []).
Proof.
  intros Hk. unfold addGroup, members_at. unfold str_eqb at 1. rewrite bool_decide_eq_false_2 by done.
  rewrite jget_jset. case_decide as Hd.
  - subst k. rewrite str_eqb_refl. cbn. by destruct (jget _ gs).
  - unfold str_eqb. rewrite bool_decide_eq_false_2 by done. by rewrite app_nil_r.
Qed.

(** What is filed under a key has it; the manual groups are the ones with an id. *)
Definition group_filed (k : string) (g : group) : Prop :=
  k = group_key (g_criterion g) (g_key g) (manualId g) /\ (g_criterion g = MANUAL <-> is_Some (manualId g)).

Lemma addGroup_filed c key m t ev man gs : (c = MANUAL <-> is_Some man) ->
  (forall g, jget (group_key c key man) gs = Some g -> g_criterion g = c) ->
  jall group_filed gs -> jall group_filed (addGroup c key m t ev man gs).
Proof.
  intros Hm Hc Hall. unfold addGroup. destruct (str_eqb key ""); [done|]. apply jall_jset; [|done].
  destruct (jget (group_key c key man) gs) as [g|] eqn:Hg; [|done]. destruct (Hall _ _ Hg) as [Hk Hi]. done.
Qed.

(** No manual group has an id like the key of an automatic one. *)
Definition no_auto_ids (e : engine) : Prop :=
  forall g, g ∈ jvalues (manualGroups e) -> String.prefix "auto:" (mg_id g) = false.

(** The groups after the manual ones: all manual, none under an automatic key. *)
Definition only_manual (gs : jsmap group) : Prop :=
  jall group_filed gs /\ (forall k g, jget k gs = Some g -> g_criterion g = MANUAL /\ String.prefix "auto:" k = false).

Lemma add_manual_only rs xs gs mg : String.prefix "auto:" (mg_id mg) = false -> only_manual gs -> only_manual (add_manual rs xs gs mg).
Proof.
  intros Hid. unfold add_manual. revert gs. induction (mg_members mg) as [|ref refs IH]; intros gs Hgs; [done|]. cbn [foldl].
  apply IH. destruct (jget ref rs) as [m|]; [|done]. case_bool_decide; [done|]. destruct Hgs as [Hf Ho]. split.
  - apply addGroup_filed; [done | | done]. intros g Hg. by apply Ho in Hg as [? _].
  - intros k g. unfold addGroup. destruct (str_eqb (mg_id mg) ""); [apply Ho|]. rewrite jget_jset. unfold group_key.
    destruct (str_eqb (mg_id mg) k) eqn:Hk; [|apply Ho]. intros [= <-]. apply str_eqb_eq in Hk as <-. split; [|done].
    destruct (jget (mg_id mg) gs) as [g|] eqn:Hg; [|done]. by apply Ho in Hg as [? _].
Qed.

Lemma manual_groups_only e : no_auto_ids e ->
  only_manual (foldl (add_manual (records e) (clusterExclusions e)) [] (jvalues (manualGroups e))).
Proof.
  intros Hno. unfold no_auto_ids in Hno.
  assert (H0 : only_manual []) by (by split). revert H0. generalize (@nil (string * group)).
  induction (jvalues (manualGroups e)) as [|mg l IH]; intros gs Hgs; [done|]. cbn [foldl].
  apply IH; [|apply add_manual_only; [|done]]; [intros g Hg|]; apply Hno; set_solver.
Qed.

(** After the automatic pass, each automatic group holds what shares its signal. *)
Lemma add_automatic_members c key ms gs :
  members_at (group_key c key None) (foldl add_automatic gs ms) =
    members_at (group_key c key None) gs ++ filter (fun m => signal_key m = Some (c, key)) ms.
Proof.
  revert gs. induction ms as [|m ms IH]; intros gs; cbn [foldl]; [by rewrite app_nil_r|]. rewrite IH, filter_cons. clear IH.
  unfold add_automatic. destruct (signal m) as [[[[c' k'] t] ev]|] eqn:Hs.
  - rewrite addGroup_members by by eapply signal_nonempty in Hs as [? _].
    assert (signal_key m = Some (c', k')) as -> by (apply signal_key_spec; eauto).
    rewrite <-app_assoc. f_equal. destruct (decide (group_key c' k' None = group_key c key None)) as [He|He].
    + apply auto_key_inj in He as [-> ->]. by rewrite decide_True.
    + rewrite decide_False; [done|]. intros [= -> ->]. done.
  - unfold signal_key. rewrite Hs. by case_decide.
Qed.

Lemma add_automatic_filed ms gs : jall group_filed gs ->
  (forall k g, jget k gs = Some g -> g_criterion g = MANUAL -> String.prefix "auto:" k = false) ->
  let gs' := foldl add_automatic gs ms in
  jall group_filed gs' /\ (forall k g, jget k gs' = Some g -> g_criterion g = MANUAL -> String.prefix "auto:" k = false).
Proof.
  revert gs. induction ms as [|m ms IH]; intros gs Hf Hm; cbn [foldl]; [done|]. apply IH.
  all: unfold add_automatic; destruct (signal m) as [[[[c k] t] ev]|] eqn:Hs; try done.
  all: apply signal_nonempty in Hs as [Hk Hc].
  - apply addGroup_filed; [split; [done | by intros [? [=]]] | | done]. intros g Hg. destruct (Hf _ _ Hg) as [Heq Hi].
    destruct (manualId g) as [id|] eqn:Hid; [|by apply auto_key_inj in Heq as [-> _]].
    assert (g_criterion g = MANUAL) as Hman by (apply Hi; eauto). pose proof (Hm _ _ Hg Hman) as Hp. by rewrite auto_prefix in Hp.
  - intros k' g. unfold addGroup. destruct (str_eqb k ""); [apply Hm|]. rewrite jget_jset.
    destruct (str_eqb (group_key c k None) k') eqn:He; [|apply Hm]. intros [= <-] Hman. cbn [g_criterion] in Hman. exfalso.
    apply str_eqb_eq in He as <-.
    assert (Hd : forall o, jget (group_key c k None) gs = o -> g_criterion (default (Group c k [] t [ev] None) o) <> MANUAL).
    { intros [g|] Hg; [|done]. cbn. intros Hg'. pose proof (Hm _ _ Hg Hg') as Hp. by rewrite auto_prefix in Hp. }
    by apply (Hd _ eq_refl).
Qed.

Lemma groups_exact e k g : no_auto_ids e -> jget k (groups_of e) = Some g -> g_criterion g <> MANUAL ->
  manualId g = None /\ g_members g = sharing (g_criterion g) (g_key g) e.
Proof.
  intros Hno Hg Hc. pose proof (manual_groups_only e Hno) as [Hf Ho]. unfold groups_of in Hg.
  pose proof (add_automatic_filed (jvalues (records e)) _ Hf (fun k g Hk _ => proj2 (Ho k g Hk))) as [Hf' _].
  destruct (Hf' _ _ Hg) as [Hk Hi]. destruct (manualId g) as [id|] eqn:Hid; [destruct Hc; apply Hi; eauto|]. split; [done|].
  pose proof (add_automatic_members (g_criterion g) (g_key g) (jvalues (records e))
    (foldl (add_manual (records e) (clusterExclusions e)) [] (jvalues (manualGroups e)))) as Hm.
  rewrite <-Hk in Hm. unfold members_at in Hm at 1. rewrite Hg in Hm. cbn in Hm. rewrite Hm. unfold members_at.
  destruct (jget k (foldl (add_manual _ _) _ _)) as [g'|] eqn:Hg'; [|done]. apply Ho in Hg' as [_ Hp]. by rewrite Hk, auto_prefix in Hp.
Qed.

Lemma groups_NoDup e : NoDup (jkeys (groups_of e)).
Proof.
  assert (Hadd : forall c key m t ev man gs, NoDup (jkeys gs) -> NoDup (jkeys (addGroup c key m t ev man gs)))
    by (intros c key m t ev man gs H; unfold addGroup; destruct (str_eqb key ""); [done | by apply NoDup_jset]).
  unfold groups_of. apply foldl_invariant.
  - intros gs m _ H. unfold add_automatic. destruct (signal m) as [[[[c k] t] ev]|]; [by apply Hadd | done].
  - apply foldl_invariant; [|constructor]. intros gs mg _ H. unfold add_manual. apply foldl_invariant; [|done].
    intros gs' ref _ H'. destruct (jget ref (records e)); [|done]. case_bool_decide; [done | by apply Hadd].
Qed.

(** The clusters are the kept groups, the last of those with one id. *)
Lemma clusters_sound e id cl : jget id (buildClusters e) = Some cl ->
  exists k g, jget k (groups_of e) = Some g /\ kept_group g = true /\ cl = cluster_of e g /\ id = cluster_id cl.
Proof.
  revert id cl. unfold buildClusters.
  apply (foldl_invariant (fun cs => forall id cl, jget id cs = Some cl ->
    exists k g, jget k (groups_of e) = Some g /\ kept_group g = true /\ cl = cluster_of e g /\ id = cluster_id cl)); [|done].
  intros cs g [k Hg]%elem_jvalues Hcs id cl. destruct (kept_group g) eqn:Hk; [|apply Hcs]. rewrite jget_jset.
  destruct (str_eqb _ id) eqn:He; [|apply Hcs]. intros [= <-]. apply str_eqb_eq in He as <-.
  exists k, g. split; [|done]. apply elem_jget; [apply groups_NoDup | done].
Qed.

(** No two kept groups hash to one cluster. *)
Definition distinct_ids (e : engine) : Prop := NoDup (map (cluster_id_of e) (filter (fun g => kept_group g = true) (jvalues (groups_of e)))).

Lemma clusters_complete e g : distinct_ids e -> g ∈ jvalues (groups_of e) -> kept_group g = true ->
  jget (cluster_id_of e g) (buildClusters e) = Some (cluster_of e g).
Proof.
  unfold distinct_ids, buildClusters. generalize (@nil (string * cluster)).
  induction (jvalues (groups_of e)) as [|g' gs IH]; intros cs Hnd Hin Hk; [by apply elem_of_nil in Hin|].
  cbn [foldl]. rewrite filter_cons in Hnd. apply elem_of_cons in Hin as [<-|Hin].
  - rewrite Hk. rewrite decide_True in Hnd by done. cbn [map] in Hnd. apply NoDup_cons in Hnd as [Hni _]. clear IH.
    apply (foldl_invariant (fun cs => jget (cluster_id_of e g) cs = Some (cluster_of e g))); [|apply jget_jset_eq].
    intros cs' g'' Hg'' Hcs. destruct (kept_group g'') eqn:Hk''; [|done]. rewrite jget_jset_ne; [done|]. intros Heq. apply Hni.
    change (cluster_id (cluster_of e g'')) with (cluster_id_of e g'') in Heq. rewrite <-Heq. apply (list_elem_of_fmap_2 (cluster_id_of e)).
    by apply list_elem_of_filter.
  - apply IH; [|done|done]. destruct (kept_group g'); [|by rewrite decide_False in Hnd].
    rewrite decide_True in Hnd by done. by apply NoDup_cons in Hnd as [_ Hnd].
Qed.

(** C16. Automatic clusters are exact, as long as no manual group has an
    identifier that starts with "auto:", like the keys of the automatic groups
    (one that does takes the automatic group over, see
    [auto_named_group_swallows_a_cluster]): each automatic cluster gathers, in the order of the
    store, precisely the records that share its criterion and key, of which
    there are at least two, and lists precisely those of them that are stale,
    unavailable or unauthorized as stale; and as long as no two groups hash to
    one identifier, every signal that two records share has its cluster. *)
Theorem automatic_clusters_are_exact e : no_auto_ids e ->
  (forall id cl, jget id (buildClusters e) = Some cl -> cl_criterion cl <> MANUAL ->
     exists key, let ms := sharing (cl_criterion cl) key e in
       (2 <= length ms)%nat /\ member_refs cl = map member_of ms /\
       stale_member_refs cl = map member_of (filter (fun m => stale_member m = true) ms)) /\
  (distinct_ids e -> forall c key, (2 <= length (sharing c key e))%nat ->
     exists id cl, jget id (buildClusters e) = Some cl /\ cl_criterion cl = c /\ member_refs cl = map member_of (sharing c key e)).
Proof.
  intros Hno. split.
  - intros id cl Hcl Hc. apply clusters_sound in Hcl as (k & g & Hg & Hk & -> & _). cbn [cluster_of cl_criterion] in Hc.
    destruct (groups_exact e k g Hno Hg Hc) as [_ Hm]. exists (g_key g). cbn [cluster_of cl_criterion member_refs stale_member_refs].
    rewrite <-Hm. split; [|done]. unfold kept_group in Hk. rewrite (bool_decide_eq_false_2 (g_criterion g = MANUAL)) in Hk by done.
    cbn [negb] in Hk. rewrite andb_true_r, negb_true_iff, bool_decide_eq_false in Hk. lia.
  - intros Hd c key Hlen.
    pose proof (add_automatic_members c key (jvalues (records e))
      (foldl (add_manual (records e) (clusterExclusions e)) [] (jvalues (manualGroups e)))) as Hm.
    fold (groups_of e) (sharing c key e) in Hm. unfold members_at in Hm at 1.
    destruct (jget (group_key c key None) (groups_of e)) as [g|] eqn:Hg; cycle 1.
    { cbn in Hm. symmetry in Hm. apply app_eq_nil in Hm as [_ Hm]. rewrite Hm in Hlen. cbn in Hlen. lia. }
    pose proof (manual_groups_only e Hno) as [Hf Ho].
    pose proof (add_automatic_filed (jvalues (records e)) _ Hf (fun k g Hk _ => proj2 (Ho k g Hk))) as [Hf' Hp'].
    fold (groups_of e) in Hf', Hp'.
    assert (Hc : g_criterion g <> MANUAL) by (intros Hman; pose proof (Hp' _ _ Hg Hman) as Hp; by rewrite auto_prefix in Hp).
    destruct (groups_exact e _ g Hno Hg Hc) as [Hid Hmem]. destruct (Hf' _ _ Hg) as [Hk _]. rewrite Hid in Hk.
    apply auto_key_inj in Hk as [-> ->]. rewrite <-Hmem in Hlen |- *. exists (cluster_id_of e g), (cluster_of e g). split; [|done].
    apply clusters_complete; [done | |].
    + apply elem_jvalues. eexists. by apply jget_elem.
    + unfold kept_group. rewrite (bool_decide_eq_false_2 (length _ < 2)%nat) by lia. done.
Qed.

(** ** Levels *)

(** Split an age at the limits it is compared with. *)
Ltac by_age :=
  cbn in *; unfold half_days, DAY_MS in *;
  repeat match goal with
  | |- context [?a <? ?b] => destruct (Z.ltb_spec a b); try (exfalso; lia)
  | H : context [?a <? ?b] |- _ => destruct (Z.ltb_spec a b); try (exfalso; lia)
  end; cbn in *; try done; try lia.

Lemma level_by_age_cases x :
  (level_by_age x = L_RECENT /\ x < half_days 2) \/ (level_by_age x = L_OLDER /\ half_days 2 <= x < half_days 14) \/
  (level_by_age x = L_PERIPHERAL /\ half_days 14 <= x < half_days 60) \/ (level_by_age x = L_VIRTUALIZED /\ half_days 60 <= x).
Proof. unfold level_by_age. repeat case_match; rewrite ?Z.ltb_lt, ?Z.ltb_ge in *; auto 10. Qed.

(** The level for each level before, by age. *)
Definition level_table (previous : option level) (pinned : bool) (x : Z) : level :=
  let upto a b c := if x <? a then L_RECENT else if x <? b then L_OLDER else if x <? c then L_PERIPHERAL else L_VIRTUALIZED in
  match previous, pinned with
  | Some L_OLDER, true => if half_days 1 <? x then L_OLDER else L_RECENT
  | _, true => L_RECENT
  | Some L_RECENT, false => upto (half_days 3) (half_days 14) (half_days 60)
  | Some L_OLDER, false => upto (half_days 1 + 1) (half_days 14) (half_days 60)
  | Some L_PERIPHERAL, false => upto (half_days 2) (half_days 14) (half_days 70)
  | Some L_VIRTUALIZED, false => upto (half_days 2) (half_days 14) (half_days 50 + 1)
  | _, false => upto (half_days 2) (half_days 14) (half_days 60)
  end.

Lemma settle_level_table previous x pinned : settle_level previous x pinned = level_table previous pinned x.
Proof.
  unfold settle_level. destruct (level_by_age_cases x) as [[-> Hx]|[[-> Hx]|[[-> Hx]|[-> Hx]]]];
    destruct previous as [[]|], pinned; by_age.
Qed.

(** A level has settled: deciding it again at the same age changes nothing. *)
Lemma settle_level_idem previous x pinned :
  settle_level (Some (settle_level previous x pinned)) x pinned = settle_level previous x pinned.
Proof. rewrite !settle_level_table. destruct previous as [[]|], pinned; by_age. Qed.

(** Levels have hysteresis: going on to the next level and coming back takes a
    day between recent and older, and ten days between peripheral and
    virtualized; an age in between leaves the level as it is. *)
Theorem levels_have_hysteresis x y :
  (settle_level (Some L_RECENT) x false = L_OLDER -> settle_level (Some L_OLDER) y false = L_RECENT -> y + DAY_MS <= x) /\
  (settle_level (Some L_PERIPHERAL) x false = L_VIRTUALIZED -> settle_level (Some L_VIRTUALIZED) y false = L_PERIPHERAL ->
     y + 10 * DAY_MS <= x).
Proof. rewrite !settle_level_table. split; intros Hx Hy; by_age. Qed.

(** ** The recent region *)

Section sorting.
Context {A : Type} (le : A -> A -> bool).

Lemma sort_by_map (f : A -> A) l : (forall x y, le (f x) (f y) = le x y) -> sort_by le (map f l) = map f (sort_by le l).
Proof.
  intros Hf. induction l as [|x l IH]; [done|]. cbn [map sort_by]. rewrite IH. generalize (sort_by le l). clear l IH.
  intros l. induction l as [|y l IH]; [done|]. cbn [map insert_by]. rewrite Hf. destruct (le x y); [done|]. cbn [map]. by rewrite IH.
Qed.
End sorting.

Section engine.
Context {zod : Zod} {laws : ZodLaws zod} {math : HostMath} {col : Collation}.

Lemma within_budget_take b n ps : 0 <= n ->
  within_budget (num b) n ps = map pref (take (Z.to_nat (b - n)) (filter (fun p => pj_pinned p = false) ps)).
Proof.
  revert n. induction ps as [|p ps IH]; intros n Hn; [by destruct (Z.to_nat _)|]. cbn [within_budget]. rewrite filter_cons.
  destruct (pj_pinned p); [by apply IH|]. rewrite decide_True by done. cbn [num_lt num].
  destruct (Qle_bool (inject_Z b) (inject_Z n)) eqn:Hb; cbn [negb].
  - apply Qle_bool_iff in Hb. rewrite <-Zle_Qle in Hb. rewrite IH by done. by replace (Z.to_nat (b - n)) with 0%nat by lia.
  - assert (~ b <= n) by (rewrite Zle_Qle, <-Qle_bool_iff; by rewrite Hb).
    rewrite IH by lia. replace (Z.to_nat (b - n)) with (S (Z.to_nat (b - (n + 1)))) by lia. done.
Qed.

Lemma NoDup_map_inj {A B} (f : A -> B) l x y : NoDup (map f l) -> x ∈ l -> y ∈ l -> f x = f y -> x = y.
Proof.
  induction l as [|z l IH]; cbn [map]; [by intros _ ?%elem_of_nil|]. rewrite NoDup_cons. intros [Hz Hl] Hx Hy Heq.
  apply elem_of_cons in Hx as [->|Hx], Hy as [->|Hy]; [done | | |by apply IH]; exfalso; apply Hz;
    [rewrite Heq | rewrite <-Heq]; by apply (list_elem_of_fmap_2 f).
Qed.

Lemma NoDup_map_NoDup {A B} (f : A -> B) l : NoDup (map f l) -> NoDup l.
Proof. apply NoDup_fmap_1. Qed.

Lemma filter_length_mono {A} (P Q : A -> Prop) `{!forall x, Decision (P x), !forall x, Decision (Q x)} l :
  (forall x, P x -> Q x) -> (length (filter P l) <= length (filter Q l))%nat.
Proof.
  intros Himp. induction l as [|x l IH]; [done|]. rewrite !filter_cons. repeat case_decide; cbn [length]; try lia. exfalso; auto.
Qed.

(** Every projection is filed under its reference. *)
Definition filed (ps : jsmap projection) : Prop := jall (fun k p => pref p = k) ps /\ NoDup (jkeys ps).

Lemma project_all_filed e now bm ms occ idx next : filed next -> filed (project_all e now bm ms occ idx next).
Proof.
  revert occ idx next. induction ms as [|m ms IH]; intros occ idx next [Hk Hn]; [done|]. cbn [project_all]. apply IH.
  split; [by apply jall_jset | by apply NoDup_jset].
Qed.

Lemma filed_prefs ps : filed ps -> map pref (jvalues ps) = jkeys ps.
Proof. intros [Hk Hn]. by apply jvalues_keys. Qed.

(** The projections before the budget is applied, and what it does to one. *)
Definition projected (now : iso) (e : engine) : jsmap projection :=
  let e := Engine (eg_options e) (records e) (manualPositions e) (manualGroups e) (clusterExclusions e) (projectionsByRef e)
             (clustersById e) (layoutRevision e + 1) (focusState e) (eg_telemetry e) in
  project_all e now (cluster_by_member (buildClusters e)) (sort_by (more_recent now) (jvalues (records e))) [] (fun _ => 0%nat) [].

Definition budgeted (visible : list string) (p : projection) : projection :=
  if bool_decide (zone p = RECENT_MEMORY) && negb (bool_decide (pref p ∈ visible)) && negb (pj_pinned p)
  then set_render R_VIRTUALIZED 0 p else p.

Lemma rebuild_values now e : jvalues (projectionsByRef (rebuild now e)) =
  map (budgeted (visible_refs (visibleRecentBudget (eg_options e)) (recent_candidates (jvalues (projected now e))))) (jvalues (projected now e)).
Proof.
  unfold rebuild. cbn [projectionsByRef]. fold (projected now e). unfold applyRecentBudget, jvalues. rewrite !map_map.
  apply map_ext. intros [k p]. unfold budgeted. cbn [fst snd]. by destruct (_ && negb (pj_pinned p)).
Qed.

Lemma budgeted_fields v p : pref (budgeted v p) = pref p /\ zone (budgeted v p) = zone p /\ pj_pinned (budgeted v p) = pj_pinned p /\
  last_active (budgeted v p) = last_active p.
Proof. unfold budgeted. by case_match. Qed.

Lemma filter_map {A} (P : A -> Prop) `{!forall x, Decision (P x)} (f : A -> A) l : (forall x, P (f x) <-> P x) ->
  filter P (map f l) = map f (filter P l).
Proof. intros Hf. induction l as [|x l IH]; [done|]. cbn [map]. rewrite !filter_cons, IH. by repeat case_decide; try (exfalso; naive_solver). Qed.

Lemma recent_candidates_budgeted v ps : recent_candidates (map (budgeted v) ps) = map (budgeted v) (recent_candidates ps).
Proof.
  unfold recent_candidates. rewrite filter_map by (intros p; by rewrite (proj1 (proj2 (budgeted_fields v p)))).
  apply sort_by_map. intros p q. unfold later_active.
  destruct (budgeted_fields v p) as (-> & _ & _ & ->), (budgeted_fields v q) as (-> & _ & _ & ->). done.
Qed.

Lemma recent_candidates_perm ps : recent_candidates ps ≡ₚ filter (fun p => zone p = RECENT_MEMORY) ps.
Proof. apply sort_by_perm. Qed.

(** Beyond the budget an unpinned projection is virtualized. *)
Lemma budget_virtualizes ps b p : NoDup (map pref ps) -> 0 <= b ->
  let rc := recent_candidates ps in
  p ∈ drop (Z.to_nat b) (filter (fun p => pj_pinned p = false) rc) -> render (budgeted (visible_refs (num b) rc) p) = R_VIRTUALIZED.
Proof.
  intros Hnd Hb rc Hp. set (U := filter (fun p => pj_pinned p = false) rc) in *.
  assert (HpU : p ∈ U) by (rewrite <-(take_drop (Z.to_nat b) U); apply elem_of_app; by right).
  assert (HU : forall q, q ∈ rc -> q ∈ ps /\ zone q = RECENT_MEMORY)
    by (intros q Hq; unfold rc in Hq; rewrite recent_candidates_perm in Hq; apply list_elem_of_filter in Hq as [? ?]; done).
  pose proof HpU as HpU'. apply list_elem_of_filter in HpU' as [Hun Hrc]. destruct (HU _ Hrc) as [Hps Hz].
  assert (Hni : pref p ∉ visible_refs (num b) rc).
  { unfold visible_refs. rewrite within_budget_take by done. rewrite Z.sub_0_r. fold U. intros [Hin|Hin]%elem_of_app.
    - apply list_elem_of_fmap in Hin as (q & Heq & Hq). apply list_elem_of_filter in Hq as [Hq Hqrc].
      apply (NoDup_map_inj _ _ _ _ Hnd Hps) in Heq as ->; [congruence | by apply HU].
    - apply list_elem_of_fmap in Hin as (q & Heq & Hq).
      assert (q = p) as ->.
      { symmetry. apply (NoDup_map_inj _ _ _ _ Hnd Hps); [|done]. apply HU.
        assert (q ∈ U) as [_ ?]%list_elem_of_filter; [|done]. rewrite <-(take_drop (Z.to_nat b) U). apply elem_of_app; by left. }
      assert (NoDup U) as HndU.
      { apply NoDup_filter. unfold rc. rewrite recent_candidates_perm. apply NoDup_filter. by eapply NoDup_map_NoDup. }
      rewrite <-(take_drop (Z.to_nat b) U) in HndU. apply NoDup_app in HndU as (_ & Hd & _). by apply (Hd p). }
  unfold budgeted. rewrite Hun, (bool_decide_eq_true_2 _ Hz), (bool_decide_eq_false_2 _ Hni). done.
Qed.

(** What a call shows of the recent region: everything that is not virtualized. *)
Definition shown (p : projection) : Prop := pj_pinned p = false /\ render p <> R_VIRTUALIZED.

(** The recent region keeps to its budget: after every rebuild, of the
    unpinned projections of the recent region, the most recently active first,
    those beyond the budget are virtualized, so no more than the budget are
    shown among the visible recent ones, whatever was materialized before. *)
Theorem recent_region_keeps_its_budget now e b : visibleRecentBudget (eg_options e) = num b -> 0 <= b ->
  let e' := rebuild now e in
  let unpinned := filter (fun p => pj_pinned p = false) (recent_candidates (jvalues (projectionsByRef e'))) in
  Forall (fun p => render p = R_VIRTUALIZED) (drop (Z.to_nat b) unpinned) /\
  Z.of_nat (length (filter shown (visibleRecent e'))) <= b.
Proof.
  intros Hbud Hb e' unpinned.
  assert (Hfiled : filed (projected now e)) by (apply project_all_filed; split; [by intros ? ? ? | constructor]).
  assert (Hnd : NoDup (map pref (jvalues (projected now e)))) by (rewrite filed_prefs by done; apply Hfiled).
  assert (Hd : Forall (fun p => render p = R_VIRTUALIZED) (drop (Z.to_nat b) unpinned)).
  { unfold unpinned, e'. rewrite rebuild_values, recent_candidates_budgeted, Hbud.
    rewrite filter_map by (intros p; by rewrite (proj1 (proj2 (proj2 (budgeted_fields _ p))))).
    rewrite <-fmap_drop. apply Forall_fmap, Forall_forall. intros p Hp. by apply budget_virtualizes. }
  split; [done|].
  assert (Hlen : (length (filter shown (recent_candidates (jvalues (projectionsByRef e')))) <= Z.to_nat b)%nat).
  { assert (Heq : filter shown (recent_candidates (jvalues (projectionsByRef e'))) = filter (fun p => render p <> R_VIRTUALIZED) unpinned).
    { unfold unpinned. rewrite list_filter_filter. apply list_filter_iff. intros p. unfold shown. tauto. }
    rewrite Heq, <-(take_drop (Z.to_nat b) unpinned), filter_app, length_app.
    assert (filter (fun p => render p <> R_VIRTUALIZED) (drop (Z.to_nat b) unpinned) = []) as ->.
    { clear Heq. induction Hd as [|p l Hp _ IH]; [done|]. rewrite filter_cons, decide_False; [done|]. intros Hn. by apply Hn. }
    cbn [length]. rewrite Nat.add_0_r. etrans; [apply length_filter|]. rewrite length_take. lia. }
  rewrite recent_candidates_perm in Hlen. unfold visibleRecent, projections. rewrite list_filter_filter, sort_by_perm, list_filter_filter, sort_by_perm.
  rewrite list_filter_filter in Hlen. apply Nat2Z.inj_le in Hlen. rewrite Z2Nat.id in Hlen by done.
  etrans; [|exact Hlen]. apply Nat2Z.inj_le, filter_length_mono.
  intros p. unfold shown. rewrite andb_true_iff, bool_decide_eq_true. tauto.
Qed.

(** ** Focus *)

(** The mutating calls of the engine, but for [requestFocus]. *)
Inductive mcall : Type :=
| MC_upsert (m : memory) (now : iso)
| MC_upsertMany (ms : list memory) (now : iso)
| MC_move (ref : string) (p : position) (now : iso)
| MC_setPinned (ref : string) (b : bool) (now : iso)
| MC_resetLayout (now : iso)
| MC_reuse (ref : string) (at_ : option date) (now : iso)
| MC_cluster (g : manual_group) (now : iso)
| MC_exclude (id ref : string) (now : iso)
| MC_collapse (id : string) (b : bool)
| MC_plan (v : option mviewport) (elapsed : jsnum) (now : iso)
| MC_materialize (ref : string) (n : Z)
| MC_release (ref : string)
| MC_focus_materialize (now : iso)
| MC_focus_complete (now : iso)
| MC_focus_pin (now : iso)
| MC_focus_return (now : iso)
| MC_focus_cancel (now : iso).

(** The engine a call leaves, whether it throws or not. *)
Definition mexec (c : mcall) (e : engine) : engine :=
  match c with
  | MC_upsert m now => (upsert m now e).1
  | MC_upsertMany ms now => (upsertMany ms now e).1
  | MC_move ref p now => (move ref p now e).1
  | MC_setPinned ref b now => (setPinned ref b now e).1
  | MC_resetLayout now => (resetLayout now e).1
  | MC_reuse ref at_ now => (reuse ref at_ now e).1
  | MC_cluster g now => (createManualCluster g now e).1
  | MC_exclude id ref now => (removeClusterMember id ref now e).1
  | MC_collapse id b => (setClusterCollapsed id b e).1
  | MC_plan v elapsed now => (planVirtualization v elapsed now e).1
  | MC_materialize ref n => (materialize ref n e).1
  | MC_release ref => (releaseMaterialization ref e).1
  | MC_focus_materialize now => (materializeFocus now e).1
  | MC_focus_complete now => (completeFocus now e).1
  | MC_focus_pin now => (pinFocus now e).1
  | MC_focus_return now => (returnFromFocus now e).1
  | MC_focus_cancel now => (cancelFocus now e).1
  end.

Definition mem_step (e e' : engine) : Prop := exists c, e' = mexec c e.

(** A method that leaves the focus alone. *)
Definition quiet {A} (m : method engine mem_error A) : Prop := forall e, focusState (m e).1 = focusState e.

Lemma rebuild_focus now e : focusState (rebuild now e) = focusState e.
Proof. done. Qed.

Ltac solve_quiet :=
  intros ?; unfold jbind, jread, jlift, jret, jwrite, jrebuild, jprojection in *;
  repeat (case_match; simplify_eq; try done).

Lemma quiet_store m : quiet (store_record m).
Proof. unfold store_record. solve_quiet. Qed.

Lemma quiet_upsert m now : quiet (upsert m now).
Proof. unfold upsert. solve_quiet. Qed.

Lemma quiet_upsertMany ms now : quiet (upsertMany ms now).
Proof.
  intros e. unfold upsertMany, jbind at 1. destruct (jforeach store_record ms e) as [e1 [u|x]] eqn:H.
  - apply (jforeach_preserves (fun e1 => focusState e1 = focusState e)) in H; [done | | done].
    intros m e2 e3 res _ <- Hm. pose proof (quiet_store m e2) as Hq. by rewrite Hm in Hq.
  - apply (jforeach_preserves (fun e1 => focusState e1 = focusState e)) in H; [done | | done].
    intros m e2 e3 res _ <- Hm. pose proof (quiet_store m e2) as Hq. by rewrite Hm in Hq.
Qed.

Lemma quiet_update ref f now : quiet (update_record ref f now).
Proof. unfold update_record. solve_quiet. Qed.

Lemma quiet_calls :
  (forall ref p now, quiet (move ref p now)) /\ (forall now, quiet (resetLayout now)) /\
  (forall g now, quiet (createManualCluster g now)) /\ (forall id ref now, quiet (removeClusterMember id ref now)) /\
  (forall id b, quiet (setClusterCollapsed id b)) /\ (forall v elapsed now, quiet (planVirtualization v elapsed now)) /\
  (forall ref r n b, quiet (draw_one ref r n b)).
Proof.
  repeat split; intros; unfold move, resetLayout, createManualCluster, removeClusterMember, setClusterCollapsed, planVirtualization, draw_one;
    solve_quiet.
Qed.

(** The moves of the focus. *)
Inductive focus_move : focus_state -> focus_state -> Prop :=
| fm_materialize s : s <> F_UNAVAILABLE_REF -> s <> CANCELLED -> focus_move s MATERIALIZING
| fm_focus : focus_move MATERIALIZING FOCUSED
| fm_pin s : s <> F_UNAVAILABLE_REF -> focus_move s PINNED
| fm_return s : s <> F_UNAVAILABLE_REF -> focus_move s RETURNING
| fm_cancel s : focus_move s CANCELLED.

(** Everything of a focus but its state, its time and the temporary position. *)
Definition way_back (f : focus) := (target_ref f, fo_position f, previous_camera f, restore_camera f, fo_created f, targetLabel f).

(** A focus that is its own parse. *)
Definition parsed (f : focus) : Prop := spatialMemoryFocusSchema f = Some f.

#[local] Instance semanticRefSchema_idem : Idempotent semanticRefSchema.
Proof using laws.
  intros r s H. unfold semanticRefSchema, lowerCodeSchema in *. inv_some. cbn [sr_ref sr_type sr_revision].
  repeat (erewrite idem by done). cbn [mbind option_bind].
  match goal with H : z_string _ _ _ = Some _ |- _ => apply z_string_sound in H as [-> Hl] end.
  rewrite trim_lower_idem, z_string_complete by done. cbn [mbind option_bind]. by erewrite idem by done.
Qed.

#[local] Instance finiteNumber_idem : Idempotent finiteNumber.
Proof. intros a b H. unfold finiteNumber in *. destruct (isFinite a) eqn:Ha; [|done]. injection H as <-. by rewrite Ha. Qed.

#[local] Instance position_idem : Idempotent spatialPositionSchema.
Proof. intros p q H. unfold spatialPositionSchema in *. solve_idem. Qed.

#[local] Instance memoryCamera_idem : Idempotent memoryCameraSchema.
Proof using laws.
  intros c d H. unfold memoryCameraSchema, guard in *. inv_some. cbn [mc_x mc_y mc_zoom mc_focus].
  destruct (num_lt (num 0) _) eqn:Hz in *; [|done]. simplify_eq.
  repeat match goal with H : finiteNumber _ = Some _ |- _ => apply finiteNumber_idem in H; rewrite H; cbn [mbind option_bind]; clear H end.
  rewrite Hz. cbn [mbind option_bind].
  match goal with H : nullable _ _ = Some _ |- _ => apply (nullable_idem idSchema _) in H; by rewrite H end.
Qed.

#[local] Instance focus_idem : Idempotent spatialMemoryFocusSchema.
Proof using laws. intros f g H. unfold spatialMemoryFocusSchema in *. solve_idem. Qed.

Lemma with_state_parsed st now f : parsed f -> parsed (with_state st now f).
Proof.
  unfold parsed, spatialMemoryFocusSchema. destruct f. intros H. cbn in H. inv_some. simplify_eq. cbn.
  by repeat match goal with H : _ = Some _ |- _ => rewrite H; cbn; clear H end.
Qed.

Lemma with_temporary_parsed p f : spatialPositionSchema p = Some p -> parsed f -> parsed (with_temporary p f).
Proof.
  unfold parsed, spatialMemoryFocusSchema. destruct f. intros Hp H. cbn in H. inv_some. simplify_eq. cbn. rewrite Hp. cbn.
  by repeat match goal with H : _ = Some _ |- _ => rewrite H; cbn; clear H end.
Qed.

(** The focus after a call, given the one before. *)
Definition went (f f' : focus) : Prop := parsed f' /\ way_back f' = way_back f /\ rtc focus_move (fo_state f) (fo_state f').

Lemma went_refl f : parsed f -> went f f.
Proof. intros Hf. repeat split; [done | apply rtc_refl]. Qed.

Lemma went_move st now f : parsed f -> focus_move (fo_state f) st -> went f (with_state st now f).
Proof. intros Hf Hm. split; [by apply with_state_parsed | split; [done|]]. by apply rtc_once. Qed.

Lemma went_trans f g h : went f g -> went g h -> went f h.
Proof. intros (_ & Hb & Hr) (Hp & Hb' & Hr'). split; [done|]. split; [congruence|]. by etrans. Qed.

Definition goes (e e' : engine) : Prop := forall f, focusState e = Some f -> parsed f -> exists f', focusState e' = Some f' /\ went f f'.

Lemma goes_quiet e e' : focusState e' = focusState e -> goes e e'.
Proof. intros Heq f Hf Hp. exists f. split; [congruence | by apply went_refl]. Qed.

Lemma goes_trans e1 e2 e3 : goes e1 e2 -> goes e2 e3 -> goes e1 e3.
Proof.
  intros H1 H2 f Hf Hp. destruct (H1 f Hf Hp) as (g & Hg & Hw). destruct (H2 g Hg (proj1 Hw)) as (h & Hh & Hw').
  exists h. split; [done|]. by eapply went_trans.
Qed.

Lemma is_state_false f st : is_state f st = false <-> fo_state f <> st.
Proof. apply bool_decide_eq_false. Qed.

Lemma goes_materialize now e : goes e (materializeFocus now e).1.
Proof.
  intros f Hf Hp. unfold materializeFocus, jbind, jread, jlift, jret, jwrite. rewrite Hf.
  destruct (is_state f F_UNAVAILABLE_REF || is_state f CANCELLED) eqn:Hs; [exists f; split; [done | by apply went_refl]|].
  destruct (get_projection _ _); [|exists f; split; [done | by apply went_refl]].
  apply orb_false_iff in Hs as [Hs1%is_state_false Hs2%is_state_false].
  set (tp := Position _ _ _). assert (parsed (with_state MATERIALIZING now (with_temporary tp f))) as Hg
    by (apply with_state_parsed, with_temporary_parsed; done).
  rewrite Hg. cbn [of_option fst]. eexists. split; [done|]. split; [done|]. split; [done|]. apply rtc_once. by constructor.
Qed.

Lemma goes_move st now f e : focusState e = Some f -> focus_move (fo_state f) st -> goes e (move_focus st now f e).1.
Proof. intros Hf Hm g Hg Hp. assert (g = f) as -> by congruence. exists (with_state st now f). split; [done | by apply went_move]. Qed.

Lemma goes_complete now e : goes e (completeFocus now e).1.
Proof.
  unfold completeFocus, jbind at 1, jread at 1. destruct (focusState e) as [f|] eqn:Hf; [|by apply goes_quiet].
  assert (Hm : goes e ((if is_state f REQUESTED then materializeFocus now ;! jret tt else jret tt) e).1).
  { destruct (is_state f REQUESTED); [|by apply goes_quiet]. unfold jbind. pose proof (goes_materialize now e) as Hm.
    by destruct (materializeFocus now e) as [e1 [o|x]]. }
  revert Hm. generalize (if is_state f REQUESTED then materializeFocus now ;! jret tt else jret tt). intros m Hm.
  unfold jbind at 1. destruct (m e) as [e1 [u|x]]; [|done]. cbn [fst] in Hm.
  eapply goes_trans; [exact Hm|]. unfold jbind, jread. destruct (focusState e1) as [g|] eqn:Hg; [|by apply goes_quiet].
  destruct (is_state g MATERIALIZING) eqn:Hs; [|by apply goes_quiet]. apply goes_move; [done|].
  apply bool_decide_eq_true in Hs. rewrite Hs. constructor.
Qed.

Lemma goes_pin now e : goes e (pinFocus now e).1.
Proof.
  unfold pinFocus, jbind at 1, jread at 1. destruct (focusState e) as [f|] eqn:Hf; [|by apply goes_quiet].
  destruct (is_state f F_UNAVAILABLE_REF) eqn:Hs; [by apply goes_quiet|]. apply is_state_false in Hs. unfold jbind.
  pose proof (quiet_update (sr_ref (target_ref f)) (with_pin true) now e) as Hq. fold (setPinned (sr_ref (target_ref f)) true now) in Hq.
  destruct (setPinned _ true now e) as [e1 [o|x]]; cbn [fst] in Hq; [|by apply goes_quiet].
  eapply goes_trans; [by apply goes_quiet|]. apply goes_move; [congruence | by constructor].
Qed.

Lemma goes_step e e' : mem_step e e' -> goes e e'.
Proof.
  destruct quiet_calls as (Qmove & Qreset & Qcluster & Qexcl & Qcoll & Qplan & Qdraw).
  intros [c ->]. destruct c; cbn [mexec]; try (apply goes_quiet; first
    [apply quiet_upsert | apply quiet_upsertMany | apply quiet_update | apply Qmove | apply Qreset | apply Qcluster | apply Qexcl
    | apply Qcoll | apply Qplan | apply Qdraw]).
  - apply goes_materialize.
  - apply goes_complete.
  - apply goes_pin.
  - unfold returnFromFocus, jbind, jread. destruct (focusState e) as [f|] eqn:Hf; [|by apply goes_quiet].
    destruct (is_state f F_UNAVAILABLE_REF) eqn:Hs; [by apply goes_quiet|]. apply is_state_false in Hs.
    apply goes_move; [done | by constructor].
  - unfold cancelFocus, jbind, jread. destruct (focusState e) as [f|] eqn:Hf; [|by apply goes_quiet].
    apply goes_move; [done | constructor].
Qed.

(** What a request that returns has written. *)
Lemma request_granted ref x now e e1 f : requestFocus ref x now e = (e1, Ok f) ->
  exists f0, spatialMemoryFocusSchema f0 = Some f /\ restore_camera f0 = fx_camera x /\ previous_camera f0 = fx_camera x /\
    (fo_state f0 = REQUESTED <-> exists m, jget ref (records e) = Some m /\ unavailable m = false /\ is_Some (get_projection ref e)) /\
    (fo_state f0 = REQUESTED \/ fo_state f0 = F_UNAVAILABLE_REF) /\ focusState e1 = Some f.
Proof.
  unfold requestFocus, jbind, jread, jlift, jret, jwrite. intros H.
  match type of H with context [of_option (spatialMemoryFocusSchema ?f0) _] => exists f0; destruct (spatialMemoryFocusSchema f0) eqn:Hs end;
    [|done]. cbn [of_option] in H. injection H as <- <-. split; [done|].
  clear. destruct (get_projection ref e) as [p|], (jget ref (records e)) as [m|]; cbn; [destruct (unavailable m) eqn:Hu| | |]; cbn;
    (split; [done|]; split; [done|]; split; [|auto]); (split; [try discriminate | intros (m' & [=] & Hm & [? [=]]); congruence]).
  intros _. by exists m.
Qed.

(** A focus keeps its way back: once a focus is granted, whatever is
    called until the next request, it is still there with the same target, the
    same world position and the cameras to restore, which are the valid camera
    of the request; its state follows the moves of the focus, so it is focused
    only through materializing. A request for a reference that is unknown,
    unavailable or unauthorized is answered as unavailable, and only a
    cancellation takes it out of that state. *)
Theorem focus_keeps_the_way_back ref x now e e1 f e2 : requestFocus ref x now e = (e1, Ok f) -> rtc mem_step e1 e2 ->
  exists f2, focusState e2 = Some f2 /\ way_back f2 = way_back f /\ rtc focus_move (fo_state f) (fo_state f2) /\
    memoryCameraSchema (fx_camera x) = Some (restore_camera f2) /\ previous_camera f2 = restore_camera f2 /\
    (fo_state f = REQUESTED <-> exists m, jget ref (records e) = Some m /\ unavailable m = false /\ is_Some (get_projection ref e)) /\
    (fo_state f = REQUESTED \/ fo_state f = F_UNAVAILABLE_REF).
Proof using laws.
  intros Hreq Hsteps. apply request_granted in Hreq as (f0 & Hparse & Hcam & Hprev & Hst & Hst' & Hf1).
  assert (Hgo : goes e1 e2).
  { clear Hf1. induction Hsteps as [|a b c Hs _ IH]; [by apply goes_quiet|]. eapply goes_trans; [by apply goes_step | done]. }
  pose proof (focus_idem _ _ Hparse) as Hp. destruct (Hgo f Hf1 Hp) as (f2 & Hf2 & _ & Hb & Hr). exists f2.
  unfold way_back in Hb. unfold spatialMemoryFocusSchema in Hparse. inv_some. cbn [fo_state restore_camera previous_camera] in *.
  repeat split; try done; try congruence; naive_solver congruence.
Qed.

(** ** Search *)

(** The record matches a word of the query in one of its fields. *)
Definition matches (tokens : list string) (m : memory) : Prop :=
  exists f text, (f, text) ∈ search_fields m /\ field_matches tokens text = true.

Lemma evidence_matches tokens m : evidence_of tokens m <> [] <-> matches tokens m.
Proof.
  unfold evidence_of, matches. destruct (filter _ _) as [|[f t] l] eqn:Hf.
  - split; [done|]. intros (f & t & Hin & Hm). exfalso.
    assert ((f, t) ∈ filter (fun f : string * string => field_matches tokens f.2 = true) (search_fields m)) as H
      by by apply list_elem_of_filter. rewrite Hf in H. by apply elem_of_nil in H.
  - split; [|done]. intros _. exists f, t.
    assert ((f, t) ∈ filter (fun f : string * string => field_matches tokens f.2 = true) (search_fields m)) as [? ?]%list_elem_of_filter
      by (rewrite Hf; left). done.
Qed.

(** What a search may show of a record. *)
Definition may_show (x : search_options) (m : memory) : Prop := unavailable m = true -> includeUnavailable x = Some true.

(** The result is that of the record. *)
Definition result_for (r : search_result) (m : memory) : Prop :=
  sr_ref (result_ref r) = trim (semanticRef m) /\ sr_label r = m_label m /\ (sr_state r = SR_UNAVAILABLE <-> unavailable m = true).

Lemma found_of_some e q tokens x m r : found_of e q tokens x m = Some r ->
  may_show x m /\ sr_ref (result_ref r) = semanticRef m /\ sr_label r = m_label m /\ (sr_state r = SR_UNAVAILABLE <-> unavailable m = true).
Proof.
  unfold found_of, may_show. set (st := if unavailable m then SR_UNAVAILABLE else _).
  assert (Hst : st = SR_UNAVAILABLE <-> unavailable m = true) by (unfold st; destruct (unavailable m); [done|]; by case_match).
  clearbody st. case_match eqn:Hc; [done|]. intros [= <-]. cbn. split; [|done]. intros Hu. apply Hst in Hu as ->.
  by destruct (includeUnavailable x) as [[]|].
Qed.

Lemma found_of_is_some e q tokens x m : may_show x m -> is_Some (found_of e q tokens x m).
Proof.
  unfold found_of, may_show. intros Hs. destruct (unavailable m) eqn:Hu.
  - rewrite Hs by done. cbn. eauto.
  - destruct (is_true (m_stale m) || _); cbn; eauto.
Qed.

Lemma result_parsed r s m : searchResultSchema r = Some s ->
  sr_ref (result_ref r) = semanticRef m -> sr_label r = m_label m -> (sr_state r = SR_UNAVAILABLE <-> unavailable m = true) -> result_for s m.
Proof using laws.
  unfold searchResultSchema, semanticRefSchema, result_for. intros H Hr Hl Hs. inv_some. cbn. rewrite <-Hr.
  match goal with H : idSchema _ = Some _ |- _ => apply idSchema_spec in H as [-> _] end. done.
Qed.

Lemma take_num_incl {A} n (l : list A) x : x ∈ take_num n l -> x ∈ l.
Proof.
  unfold take_num. intros H. destruct n; [case_match| | |]; try done; try by apply elem_of_nil in H.
  all: by apply elem_of_take in H as (i & Hi%list_elem_of_lookup_2 & _).
Qed.

Lemma take_num_Z {A} k (l : list A) : 0 <= k -> take_num (num k) l = take (Z.to_nat k) l.
Proof.
  intros Hk. unfold take_num, num, Qtrunc. cbn [inject_Z Qnum Qden]. rewrite Z.quot_1_r. by rewrite (proj2 (Z.leb_le _ _)).
Qed.

Lemma num_max_Z a b : num_max (num a) (num b) = num (Z.max a b).
Proof.
  unfold num_max, num_lt, num. destruct (Qle_bool (inject_Z b) (inject_Z a)) eqn:H; cbn.
  - apply Qle_bool_iff in H. rewrite <-Zle_Qle in H. by rewrite Z.max_l.
  - assert (~ b <= a) by (rewrite Zle_Qle, <-Qle_bool_iff; by rewrite H). by rewrite Z.max_r by lia.
Qed.

Lemma omap_elem {A B} (f : A -> option B) (l : list A) (y : B) : y ∈ omap f l <-> exists x, x ∈ l /\ f x = Some y.
Proof. apply list_elem_of_omap. Qed.

Lemma length_omap_le {A B} (f : A -> option B) (l : list A) : (length (omap f l) <= length l)%nat.
Proof. induction l as [|x l IH]; [done|]. cbn. destruct (f x); cbn; lia. Qed.

(** The records a query is about. *)
Definition relevant (x : search_options) (tokens : list string) (e : engine) : list memory :=
  filter (fun m => negb (bool_decide (evidence_of tokens m = [])) = true) (filter (fun m => allowed x m = true) (jvalues (records e))).

Lemma elem_relevant x tokens e m : m ∈ relevant x tokens e <-> m ∈ jvalues (records e) /\ allowed x m = true /\ matches tokens m.
Proof.
  unfold relevant. rewrite !list_elem_of_filter, negb_true_iff, bool_decide_eq_false, <-evidence_matches. tauto.
Qed.

(** A search shows what it may and finds what it can: every result is that
    of a stored record which is authorized, among the references the caller may
    see, matches a word of the query in a field, and is available unless
    unavailable ones were asked for; there are no more results than the limit;
    and when the relevant records fit the limit, each of them that may be shown
    is found. *)
Theorem search_shows_what_it_may q x now e s k : limit x = Some (num k) -> engine_search q x now e = Ok s ->
  let tokens := toLowerWords (trim q) in
  (forall r, r ∈ results s -> exists m, m ∈ jvalues (records e) /\ allowed x m = true /\ matches tokens m /\ may_show x m /\ result_for r m) /\
  Z.of_nat (length (results s)) <= Z.max 1 k /\
  (Z.of_nat (length (relevant x tokens e)) <= k ->
     forall m, m ∈ relevant x tokens e -> may_show x m -> exists r, r ∈ results s /\ result_for r m).
Proof using laws.
  intros Hlim H tokens. unfold engine_search in H. fold tokens in H. apply rbind_ok in H as ([] & _ & H%of_option_ok).
  set (hits := search_hits e (trim q) tokens x) in *.
  assert (Hhits : hits = take (Z.to_nat (Z.max 1 k)) (sort_by (better (trim q) tokens) (relevant x tokens e)))
    by (unfold hits, search_hits; rewrite Hlim; cbn [default from_option id]; rewrite num_max_Z, take_num_Z by lia; done).
  assert (Hres : exists rs, results s = rs /\ Forall2 (fun r r' => searchResultSchema r = Some r') (omap (found_of e (trim q) tokens x) hits) rs).
  { unfold spatialMemorySearchSchema in H. inv_some. cbn [results] in *. eexists. split; [done|]. by eapply z_array_forall2. }
  destruct Hres as (rs & -> & Hf2). clear H. split; [|split].
  - intros r Hr. apply list_elem_of_lookup_1 in Hr as [i Hi]. eapply Forall2_lookup_r in Hf2 as (r0 & Hr0 & Hparse); [|exact Hi].
    apply list_elem_of_lookup_2, omap_elem in Hr0 as (m & Hm & Hfound). apply found_of_some in Hfound as (Hshow & Href & Hlbl & Hst).
    rewrite Hhits in Hm. apply elem_of_take in Hm as (? & Hm%list_elem_of_lookup_2 & _). rewrite sort_by_perm, elem_relevant in Hm.
    destruct Hm as (? & ? & ?). exists m. repeat split; try done; by eapply result_parsed.
  - rewrite <-(Forall2_length _ _ _ Hf2). etrans; [apply Nat2Z.inj_le, length_omap_le|]. rewrite Hhits, length_take. lia.
  - intros Hlen m Hm Hshow. destruct (found_of_is_some e (trim q) tokens x m Hshow) as [r0 Hfound].
    assert (Hin : m ∈ hits).
    { rewrite Hhits, take_ge; [by rewrite sort_by_perm|]. rewrite (Permutation_length (sort_by_perm _ _)). lia. }
    assert (r0 ∈ omap (found_of e (trim q) tokens x) hits) as Hr0 by (apply omap_elem; eauto).
    apply list_elem_of_lookup_1 in Hr0 as [i Hi]. eapply Forall2_lookup_l in Hf2 as (r & Hr & Hparse); [|exact Hi].
    exists r. split; [by eapply list_elem_of_lookup_2|]. apply found_of_some in Hfound as (_ & Href & Hlbl & Hst). by eapply result_parsed.
Qed.

(** ** What is drawn *)

(** Every engine there is. *)
Definition engine_step (e e' : engine) : Prop := mem_step e e' \/ exists ref x now, e' = (requestFocus ref x now e).1.

Lemma filed_forall ps : filed ps <-> NoDup (jkeys ps) /\ Forall (fun kp => pref kp.2 = kp.1) ps.
Proof.
  split.
  - intros [Hk Hn]. split; [done|]. apply Forall_forall. intros [k p] Hin. apply Hk. by apply elem_jget.
  - intros [Hn Hf]. split; [|done]. intros k p Hp%jget_elem. rewrite Forall_forall in Hf. by apply (Hf (k, p)).
Qed.

Lemma filed_map (f : string * projection -> string * projection) ps :
  (forall kp, (f kp).1 = kp.1 /\ pref (f kp).2 = pref kp.2) -> filed ps -> filed (map f ps).
Proof.
  intros Hf. rewrite !filed_forall. intros [Hn Ha]. split.
  - unfold jkeys in *. rewrite map_map. erewrite map_ext; [exact Hn|]. intros kp. apply Hf.
  - apply Forall_fmap. apply (Forall_impl _ _ _ Ha). intros kp H. unfold compose. destruct (Hf kp) as [-> ->]. done.
Qed.

Lemma filed_jset p ps : filed ps -> filed (jset (pref p) p ps).
Proof. intros [Hk Hn]. split; [by apply jall_jset | by apply NoDup_jset]. Qed.

Lemma rebuild_filed now e : filed (projectionsByRef (rebuild now e)).
Proof.
  unfold rebuild. cbn [projectionsByRef]. fold (projected now e). apply filed_map; [|].
  - intros [k p]. cbn [fst snd]. by case_match.
  - apply project_all_filed. split; [intros ? ? [=] | constructor].
Qed.

Definition efiled (e : engine) : Prop := filed (projectionsByRef e).

(** A method that keeps the projections filed. *)
Definition keeps_filed {A} (m : method engine mem_error A) : Prop := forall e, efiled e -> efiled (m e).1.

Ltac solve_filed :=
  intros ? ?; unfold jrebuild, jprojection, jbind, jread, jlift, jret, jwrite in *;
  repeat (case_match; simplify_eq; try done); try apply rebuild_filed.

Lemma filed_store m : keeps_filed (store_record m).
Proof. unfold store_record. solve_filed. Qed.

Lemma filed_upsertMany ms now : keeps_filed (upsertMany ms now).
Proof.
  intros e He. unfold upsertMany, jbind. destruct (jforeach store_record ms e) as [e1 [u|x]] eqn:H; cbn; [apply rebuild_filed|].
  apply (jforeach_preserves efiled) in H; [done | | done].
  intros m e2 e3 res _ H2 Hm. pose proof (filed_store m e2 H2) as Hq. by rewrite Hm in Hq.
Qed.

Lemma filed_draw ref r n b : keeps_filed (draw_one ref r n b).
Proof.
  intros e He. unfold draw_one, jbind, jread, jlift, jwrite. destruct (jget ref (projectionsByRef e)) as [p|] eqn:Hp; [|done].
  cbn. unfold efiled. cbn. pose proof (proj1 He _ _ Hp) as <-. by apply (filed_jset (bump_revision (set_render r n p))).
Qed.

Lemma filed_plan_one o ms s c : filed (ps_projections s) -> filed (ps_projections (plan_one o ms s c)).
Proof. intros Hs. unfold plan_one. destruct (jget _ _); [|done]. cbn. by apply filed_jset. Qed.

Lemma filed_plan v elapsed now : keeps_filed (planVirtualization v elapsed now).
Proof.
  intros e He. unfold planVirtualization, jbind, jread, jlift, jwrite. cbn [fst]. unfold efiled. cbn [projectionsByRef set_telemetry set_projections].
  apply (foldl_invariant (fun s => filed (ps_projections s))); [|done]. intros s c _ Hs. by apply filed_plan_one.
Qed.

Lemma filed_step e e' : engine_step e e' -> efiled e -> efiled e'.
Proof.
  intros [[c ->]|(ref & x & now & ->)] He.
  - destruct c; cbn [mexec]; try (apply filed_draw; done); try (by apply filed_plan); try (by apply filed_upsertMany); revert e He.
    + unfold upsert. solve_filed.
    + unfold move. solve_filed.
    + unfold setPinned, update_record. solve_filed.
    + intros e He. apply rebuild_filed.
    + unfold reuse, update_record. solve_filed.
    + unfold createManualCluster. solve_filed.
    + unfold removeClusterMember. solve_filed.
    + unfold setClusterCollapsed. solve_filed.
    + unfold materializeFocus. solve_filed.
    + unfold completeFocus, materializeFocus, move_focus. solve_filed.
    + unfold pinFocus, setPinned, update_record, move_focus. solve_filed.
    + unfold returnFromFocus, move_focus. solve_filed.
    + unfold cancelFocus, move_focus. solve_filed.
  - revert e He. unfold requestFocus. solve_filed.
Qed.

Definition lod_sum (l : lod_counts) : Z := lod0 l + lod1 l + lod2 l + lod3 l.

Lemma lod_sum_count n l : lod_sum (count_lod n l) = lod_sum l + 1.
Proof. unfold count_lod, lod_sum. repeat case_bool_decide; cbn; lia. Qed.

Lemma drawn_pref o ms c : pref (drawn o ms c) = pref c.1.
Proof. destruct c as [p d]. unfold drawn. by repeat case_match. Qed.

(** The loop of a plan: every candidate is drawn where it is filed, and counted. *)
Lemma plan_loop o ms cs s : NoDup (map (fun c => pref c.1) cs) ->
  (forall c, c ∈ cs -> jget (pref c.1) (ps_projections s) = Some c.1) ->
  let s' := foldl (plan_one o ms) s cs in
  (forall c, c ∈ cs -> jget (pref c.1) (ps_projections s') = Some (drawn o ms c)) /\
  (forall k, k ∉ map (fun c => pref c.1) cs -> jget k (ps_projections s') = jget k (ps_projections s)) /\
  lod_sum (ps_counts s') = lod_sum (ps_counts s) + Z.of_nat (length cs) /\
  ps_materialized s' = ps_materialized s + Z.of_nat (length (filter (fun c => render (drawn o ms c) = R_MATERIALIZED) cs)).
Proof.
  revert s. induction cs as [|c cs IH]; intros s Hnd Hget; [split; [by intros ? ?%elem_of_nil|]; cbn; split; [done|]; lia|].
  cbn [map] in Hnd. apply NoDup_cons in Hnd as [Hni Hnd]. cbn [foldl].
  assert (Hc : plan_one o ms s c = PlanState (jset (pref c.1) (drawn o ms c) (ps_projections s)) (count_lod (lod (drawn o ms c)) (ps_counts s))
    (ps_materialized s + if bool_decide (render (drawn o ms c) = R_MATERIALIZED) then 1 else 0)
    (ps_virtualized s + if bool_decide (render (drawn o ms c) = R_VIRTUALIZED) then 1 else 0)).
  { unfold plan_one. rewrite (Hget c) by left. by rewrite <-surjective_pairing, drawn_pref. }
  assert (Hother : forall c', c' ∈ cs -> jget (pref c'.1) (ps_projections (plan_one o ms s c)) = Some c'.1).
  { intros c' Hc'. rewrite Hc. cbn [ps_projections]. rewrite jget_jset_ne; [apply Hget; by right|].
    intros Heq. apply Hni. rewrite Heq. by apply (list_elem_of_fmap_2 (fun c => pref c.1)). }
  destruct (IH (plan_one o ms s c) Hnd Hother) as (H1 & H2 & H3 & H4). split; [|split; [|split]].
  - intros c' [->|Hc']%elem_of_cons; [|by apply H1]. rewrite H2 by done. rewrite Hc. apply jget_jset_eq.
  - intros k Hk. cbn [map] in Hk. apply not_elem_of_cons in Hk as [Hk1 Hk2]. rewrite H2 by done. rewrite Hc. by apply jget_jset_ne.
  - rewrite H3, Hc. cbn [ps_counts length]. rewrite lod_sum_count. lia.
  - rewrite H4, Hc. cbn [ps_materialized]. rewrite filter_cons. case_bool_decide; [rewrite decide_True by done | rewrite decide_False by done]; cbn [length]; lia.
Qed.

Lemma drawn_materialized o ms c : render (drawn o ms c) = R_MATERIALIZED ->
  pj_authorized c.1 = true /\ render c.1 <> R_UNAVAILABLE /\ beyond c.2 (cullRadius o) = false /\ pref c.1 ∈ ms /\
  pj_authorized (drawn o ms c) = true.
Proof.
  destruct c as [p d]. unfold drawn. cbn [fst snd]. destruct (pj_authorized p) eqn:Ha; [|done]. cbn [negb orb].
  case_bool_decide as Hr; [done|]. destruct (beyond d (cullRadius o)); [done|]. case_bool_decide as Hm; [|done]. intros _. done.
Qed.

Lemma new_engine_filed e0 recs t0 e1 : new_engine e0 recs t0 = Ok e1 -> efiled e1.
Proof.
  unfold new_engine, upsertMany, jbind. destruct (jforeach store_record recs e0) as [e [u|x]]; cbn; [|done].
  intros [= <-]. apply rebuild_filed.
Qed.

Lemma candidate_elem v e c : c ∈ candidates_of v e -> c.1 ∈ jvalues (projectionsByRef e) /\ c = at_distance v c.1.
Proof.
  unfold candidates_of, projections. rewrite sort_by_perm, list_elem_of_fmap. intros (p & -> & Hp). rewrite sort_by_perm in Hp. done.
Qed.

Lemma candidates_prefs v e : map (fun c => pref c.1) (candidates_of v e) ≡ₚ map pref (jvalues (projectionsByRef e)).
Proof. unfold candidates_of, projections. by rewrite sort_by_perm, map_map, sort_by_perm. Qed.

Lemma candidates_NoDup v e : efiled e -> NoDup (map (fun c => pref c.1) (candidates_of v e)).
Proof. intros He. rewrite candidates_prefs, filed_prefs by done. apply He. Qed.

Lemma NoDup_map_filter {A B} (f : A -> B) (P : A -> Prop) `{!forall x, Decision (P x)} l : NoDup (map f l) -> NoDup (map f (filter P l)).
Proof.
  intros Hn. induction l as [|x l IH]; [done|]. cbn [map] in Hn. apply NoDup_cons in Hn as [Hx Hn]. rewrite filter_cons.
  case_decide; [|by apply IH]. cbn [map]. apply NoDup_cons. split; [|by apply IH].
  intros (y & Hy & [_ Hin]%list_elem_of_filter)%list_elem_of_fmap. apply Hx. rewrite Hy. by apply (list_elem_of_fmap_2 f).
Qed.

Lemma filter_map_comp {A B} (f : A -> B) (P : B -> Prop) `{!forall x, Decision (P x)} l :
  filter P (map f l) = map f (filter (fun x => P (f x)) l).
Proof. induction l as [|x l IH]; [done|]. cbn [map]. rewrite !filter_cons, IH. by case_decide. Qed.

(** What a plan leaves: its candidates as drawn, and their counts. *)
Lemma plan_draws v elapsed now e e' res : efiled e -> planVirtualization (Some v) elapsed now e = (e', res) ->
  exists ms, ms = map (fun c => pref c.1) (take_num (renderBudget (eg_options e)) (in_view v (candidates_of v e))) /\
    jvalues (projectionsByRef e') ≡ₚ map (drawn (eg_options e) ms) (candidates_of v e) /\
    materializedCount (eg_telemetry e') =
      Z.of_nat (length (filter (fun c => render (drawn (eg_options e) ms c) = R_MATERIALIZED) (candidates_of v e))) /\
    lod_sum (lodCounts (eg_telemetry e')) = totalCount (eg_telemetry e').
Proof.
  intros He Hplan. set (cs := candidates_of v e).
  exists (map (fun c => pref c.1) (take_num (renderBudget (eg_options e)) (in_view v cs))). split; [done|].
  set (ms := map _ (take_num _ _)). pose proof (candidates_NoDup v e He) as Hnd. fold cs in Hnd.
  assert (Hget : forall c, c ∈ cs -> jget (pref c.1) (projectionsByRef e) = Some c.1).
  { intros c Hc. apply candidate_elem in Hc as [Hc _]. apply elem_jvalues in Hc as [k Hk]. pose proof He as [Hk' Hn].
    apply (elem_jget k c.1) in Hk; [|done]. by rewrite (Hk' _ _ Hk). }
  destruct (plan_loop (eg_options e) ms cs (PlanState (projectionsByRef e) (LodCounts 0 0 0 0) 0 0) Hnd Hget) as (H1 & H2 & H3 & H4).
  set (s' := foldl _ _ cs) in *. cbn [ps_projections ps_counts ps_materialized] in *.
  assert (He' : projectionsByRef e' = ps_projections s' /\ eg_telemetry e' =
    Telemetry (Z.of_nat (length (projections e))) (Z.of_nat (length (in_view v cs))) (ps_materialized s') (ps_virtualized s') (ps_counts s')
      (renderBudget (eg_options e)) (toFixed 3 (num_max (num 0) elapsed)) (memoryReleased (eg_telemetry e))).
  { unfold planVirtualization, jbind, jread, jwrite, jlift in Hplan. cbn [default from_option id] in Hplan. injection Hplan as <- _. done. }
  destruct He' as [-> ->]. cbn [materializedCount lodCounts totalCount].
  split; [|split; [done|]].
  - assert (Hf : filed (ps_projections s')) by (apply (foldl_invariant (fun s => filed (ps_projections s)));
      [intros s c _ Hs; by apply filed_plan_one | done]).
    apply NoDup_Permutation.
    + eapply NoDup_map_NoDup. rewrite filed_prefs by done. apply Hf.
    + apply (NoDup_map_NoDup pref). rewrite map_map. erewrite map_ext; [exact Hnd|]. intros c. apply drawn_pref.
    + intros p. rewrite list_elem_of_fmap. split.
      * intros [k Hk]%elem_jvalues. destruct Hf as [Hk' Hn]. apply elem_jget in Hk; [|done].
        destruct (decide (k ∈ map (fun c => pref c.1) cs)) as [(c & -> & Hc)%list_elem_of_fmap|Hni].
        -- exists c. split; [|done]. rewrite H1 in Hk by done. congruence.
        -- exfalso. apply Hni. rewrite H2 in Hk by done. unfold cs. rewrite candidates_prefs, filed_prefs by done.
           apply jget_elem in Hk. by apply (list_elem_of_fmap_2 fst) in Hk.
      * intros (c & -> & Hc). apply elem_jvalues. exists (pref c.1). by apply jget_elem, H1.
  - rewrite H3. cbn. unfold cs, candidates_of. by rewrite (Permutation_length (sort_by_perm _ _)), length_map.
Qed.

(** C17. A plan stays within the render budget: in every engine the calls lead
    to, after planning for a viewport, whether or not the plan passes its
    contract, no more projections than the budget are materialized, the count
    that is reported is the number of them, each is authorized, inside the
    viewport and not beyond the cull radius, and the levels of detail of all
    projections add up to the total. *)
Theorem plan_stays_within_its_budget e0 recs t0 e1 e v elapsed now e' res b :
  new_engine e0 recs t0 = Ok e1 -> rtc engine_step e1 e ->
  renderBudget (eg_options e) = num b -> 0 <= b -> planVirtualization (Some v) elapsed now e = (e', res) ->
  let shown := filter (fun p => render p = R_MATERIALIZED) (jvalues (projectionsByRef e')) in
  Z.of_nat (length shown) <= b /\ materializedCount (eg_telemetry e') = Z.of_nat (length shown) /\
  lod_sum (lodCounts (eg_telemetry e')) = totalCount (eg_telemetry e') /\
  Forall (fun p => pj_authorized p = true /\ exists q, q ∈ jvalues (projectionsByRef e) /\ pref q = pref p /\ render q <> R_UNAVAILABLE /\
    within (at_distance v q).2 (mv_radius v) = true /\ beyond (at_distance v q).2 (cullRadius (eg_options e)) = false) shown.
Proof.
  intros Hnew Hsteps Hbud Hb Hplan shown.
  assert (He : efiled e).
  { assert (He1 : efiled e1) by by eapply new_engine_filed. clear Hnew Hplan. induction Hsteps; [done|]. by eauto using filed_step. }
  pose proof (plan_draws v elapsed now e e' res He Hplan) as (ms & Hms & Hperm & Hmat & Hlod).
  assert (Hshown : shown ≡ₚ map (drawn (eg_options e) ms) (filter (fun c => render (drawn (eg_options e) ms c) = R_MATERIALIZED) (candidates_of v e))).
  { unfold shown. rewrite Hperm. by rewrite filter_map_comp. }
  assert (Hnd : NoDup (map (fun c => pref c.1) (candidates_of v e))) by by apply candidates_NoDup.
  split; [|split; [by rewrite Hmat, Hshown, length_map | split; [done|]]].
  - rewrite Hshown, length_map. rewrite <-(length_map (fun c => pref c.1)).
    assert (Hle : (length ms <= Z.to_nat b)%nat).
    { rewrite Hms, Hbud, take_num_Z, length_map, length_take by done. lia. }
    enough (length (map (fun c : projection * jsnum => pref c.1)
      (filter (fun c => render (drawn (eg_options e) ms c) = R_MATERIALIZED) (candidates_of v e))) <= length ms)%nat by lia.
    apply submseteq_length, NoDup_submseteq; [by apply NoDup_map_filter|].
    intros k (c & -> & Hc)%list_elem_of_fmap. apply list_elem_of_filter in Hc as [Hc _]. by apply drawn_materialized in Hc as (_ & _ & _ & Hin & _).
  - apply Forall_forall. intros p Hp. rewrite Hshown in Hp. apply list_elem_of_fmap in Hp as (c & -> & Hc).
    apply list_elem_of_filter in Hc as [Hr Hc]. apply drawn_materialized in Hr as (_ & Hun & Hbey & Hin & Hau). split; [done|].
    destruct (candidate_elem v e c Hc) as [Hq Hcd]. exists c.1. rewrite drawn_pref. repeat split; try done; try by rewrite <-Hcd.
    rewrite Hms in Hin. apply list_elem_of_fmap in Hin as (c' & Heq & Hc'%take_num_incl). apply list_elem_of_filter in Hc' as [Hw Hc'].
    apply (NoDup_map_inj _ _ _ _ Hnd Hc Hc') in Heq as ->. by rewrite <-Hcd.
Qed.
End engine.

(** ** Examples *)

Module MemoryWitness.
#[local] Existing Instance zod_ref.
#[local] Existing Instance zod_ref_laws.

(** A host that draws every angle to the right. *)
#[local] Instance w_math : HostMath := {|
  host_cos _ := 1; host_sin _ := 0;
  host_sqrt q := Z.sqrt (Qfloor (q * inject_Z (10 ^ 8))) # 10000
|}%Q.

(** Strings compared by their first character. *)
#[local] Instance w_collation : Collation := fun a b =>
  match a, b with
  | EmptyString, EmptyString => 0
  | EmptyString, _ => -1
  | _, EmptyString => 1
  | String c _, String d _ => Z.of_N (N_of_ascii c) - Z.of_N (N_of_ascii d)
  end.

Definition day (n : Z) : Z := n * DAY_MS.
Definition NOW : iso := day 100.

Definition w_memory (ref : string) (age : Z) (meta : jsmap json) (refused : bool) : memory :=
  Memory ref "artifact" ("Label " +:+ ref) None None None (Some 0) (Some (NOW - age)) None None None None None None [] None meta None (Some 1)
    None (if refused then Some false else None) None None None.

Definition w_records : list memory :=
  [w_memory "a" (day 0) [] false; w_memory "b" 1000 [] false; w_memory "c" 2000 [] false;
   w_memory "d" (day 3) [("topic", JStr "maps")] false; w_memory "e" (day 4) [("topic", JStr "maps")] true;
   w_memory "f" (day 40) [] false].

Definition w_empty : engine := empty_engine "ws-1" None None None (Some (num 2)) (Some (num 2)) (Some (num 50)) None None false [].
Definition w_engine : engine := match new_engine w_empty w_records NOW with Ok e => e | Err _ => w_empty end.

Definition summary (e : engine) : list (string * level * region * render_state) :=
  map (fun p => (pref p, memory_level p, zone p, render p)) (projections e).

Example w_summary : summary w_engine =
  [("a", L_RECENT, RECENT_MEMORY, R_MATERIALIZED); ("b", L_RECENT, RECENT_MEMORY, R_MATERIALIZED);
   ("c", L_RECENT, RECENT_MEMORY, R_VIRTUALIZED); ("d", L_CLUSTERED, CLUSTER_MEMORY, R_MATERIALIZED);
   ("e", L_CLUSTERED, CLUSTER_MEMORY, R_UNAVAILABLE); ("f", L_VIRTUALIZED, DEEP_MEMORY, R_MATERIALIZED)].
Proof. by vm_compute. Qed.

Lemma w_no_auto : no_auto_ids w_engine.
Proof. intros g H. by apply elem_of_nil in H. Qed.

Lemma automatic_clusters_are_exact_witness : no_auto_ids w_engine /\ distinct_ids w_engine /\
  map semanticRef (sharing TOPIC "maps" w_engine) = ["d"; "e"] /\
  exists id cl, jget id (buildClusters w_engine) = Some cl /\ cl_criterion cl = TOPIC /\
    member_refs cl = map member_of (sharing TOPIC "maps" w_engine).
Proof.
  assert (Hd : distinct_ids w_engine) by (apply (bool_decide_unpack _); vm_compute; exact I).
  split; [exact w_no_auto|]. split; [exact Hd|]. split; [by vm_compute|].
  apply (proj2 (automatic_clusters_are_exact w_engine w_no_auto) Hd TOPIC "maps"). apply (bool_decide_unpack _). vm_compute. exact I.
Defined.

Lemma recent_region_keeps_its_budget_witness : visibleRecentBudget (eg_options w_engine) = num 2 /\
  Z.of_nat (length (filter shown (visibleRecent (rebuild NOW w_engine)))) <= 2 /\
  map pref (visibleRecent (rebuild NOW w_engine)) = ["a"; "b"].
Proof.
  split; [by vm_compute|]. split; [|by vm_compute].
  refine (proj2 (recent_region_keeps_its_budget NOW w_engine 2 _ _)); [by vm_compute | lia].
Defined.

Definition w_camera : mcamera := MCamera (num 1) (num 2) (num 3) None.
Definition w_request (ref : string) (e : engine) : engine * result mem_error focus := requestFocus ref (FocusOptions w_camera None None) NOW e.
Definition w_focused : engine := (completeFocus NOW (w_request "a" w_engine).1).1.

Definition w_no_focus : focus :=
  Focus "" "" (SemanticRef "" "" 0) CANCELLED 0 ORIGIN None w_camera w_camera FS_AGENT false None 0 0 "".
Definition w_granted : focus := match (w_request "a" w_engine).2 with Ok f => f | Err _ => w_no_focus end.

Lemma focus_keeps_the_way_back_witness : w_request "a" w_engine = ((w_request "a" w_engine).1, Ok w_granted) /\
  (fo_state <$> focusState w_focused) = Some FOCUSED /\
  exists f2, focusState w_focused = Some f2 /\ way_back f2 = way_back w_granted.
Proof.
  split; [vm_compute; reflexivity|]. split; [vm_compute; reflexivity|].
  destruct (focus_keeps_the_way_back "a" (FocusOptions w_camera None None) NOW w_engine (w_request "a" w_engine).1 w_granted w_focused)
    as (f2 & H & Hw & _); [vm_compute; reflexivity | | exists f2; split; [exact H | exact Hw]].
  apply rtc_once. exists (MC_focus_complete NOW). unfold w_focused. cbn [mexec]. reflexivity.
Defined.

Definition w_options : search_options := SearchOptions (Some (num 10)) None None.
Definition w_search : search := match engine_search "Maps" w_options NOW w_engine with Ok s => s | Err _ => Search "" "" "" "" [] 0 end.

(** "e" matches too, but is not authorized. *)
Lemma search_shows_what_it_may_witness : engine_search "Maps" w_options NOW w_engine = Ok w_search /\
  map sr_label (results w_search) = ["Label d"] /\ Z.of_nat (length (results w_search)) <= Z.max 1 10.
Proof.
  assert (H : engine_search "Maps" w_options NOW w_engine = Ok w_search) by (vm_compute; reflexivity).
  split; [exact H|]. split; [by vm_compute|].
  exact (proj1 (proj2 (search_shows_what_it_may "Maps" w_options NOW w_engine w_search 10 eq_refl H))).
Defined.

Definition w_view : mviewport := MViewport (num 0) (num 0) None (num 20) None.
Definition w_planned : engine := (planVirtualization (Some w_view) (num 1) NOW w_engine).1.

Lemma plan_stays_within_its_budget_witness : new_engine w_empty w_records NOW = Ok w_engine /\
  map pref (filter (fun p => render p = R_MATERIALIZED) (jvalues (projectionsByRef w_planned))) = ["a"; "b"] /\
  lod_sum (lodCounts (eg_telemetry w_planned)) = 6 /\
  Z.of_nat (length (filter (fun p => render p = R_MATERIALIZED) (jvalues (projectionsByRef w_planned)))) <= 2.
Proof.
  assert (H : new_engine w_empty w_records NOW = Ok w_engine) by (vm_compute; reflexivity).
  split; [exact H|]. split; [by vm_compute|]. split; [by vm_compute|].
  refine (proj1 (plan_stays_within_its_budget w_empty w_records NOW w_engine w_engine w_view (num 1) NOW w_planned _ 2 H (rtc_refl _ _) _ _
    (surjective_pairing _))); [by vm_compute | lia].
Defined.
(** ** Edges *)

Definition w_after {A} (m : method engine mem_error A) (e : engine) : engine := (m e).1.
Definition w_look (ref : string) (e : engine) : option (level * region * render_state) :=
  (fun p => (memory_level p, zone p, render p)) <$> get_projection ref e.

(** Findings. A record that is available again stays drawn as unavailable: a
    rebuild takes the render state over from the projection before, and a plan
    skips what is unavailable. *)
Example unavailable_sticks :
  let e := w_after (upsert (w_memory "e" (day 4) [("topic", JStr "maps")] false) NOW) w_engine in
  let e := w_after (planVirtualization (Some w_view) (num 1) NOW) e in
  match get_projection "e" e with Some p => pj_authorized p = true /\ render p = R_UNAVAILABLE | None => False end.
Proof. by vm_compute. Qed.

(** Unpinning leaves the weight of the pin: the record still counts as pinned. *)
Example unpinned_stays_recent :
  let e := w_after (setPinned "f" true NOW) w_engine in
  let e := w_after (setPinned "f" false NOW) e in
  w_look "f" w_engine = Some (L_VIRTUALIZED, DEEP_MEMORY, R_MATERIALIZED) /\
  w_look "f" e = Some (L_RECENT, RECENT_MEMORY, R_VIRTUALIZED).
Proof. by vm_compute. Qed.

(** A pin brings back what is peripheral, but not what is merely older. *)
Example pin_does_not_bring_back_older :
  let e := w_after (upsert (w_memory "f" (day 2) [] false) NOW) w_engine in
  w_look "f" e = Some (L_OLDER, RECENT_MEMORY, R_VIRTUALIZED) /\
  w_look "f" (w_after (setPinned "f" true NOW) e) = Some (L_OLDER, RECENT_MEMORY, R_VIRTUALIZED).
Proof. by vm_compute. Qed.

(** A reference that was refused can be pinned after a cancellation. *)
Example refused_focus_is_pinned :
  let e := (w_request "e" w_engine).1 in
  (fo_state <$> focusState e) = Some F_UNAVAILABLE_REF /\
  (fo_state <$> focusState (w_after (pinFocus NOW) e)) = Some F_UNAVAILABLE_REF /\
  (fo_state <$> focusState (w_after (pinFocus NOW) (w_after (cancelFocus NOW) e))) = Some PINNED.
Proof. by vm_compute. Qed.

(** [materialize] draws what is not authorized. *)
Example materialize_ignores_authorization :
  match get_projection "e" (w_after (materialize "e" 3) w_engine) with
  | Some p => pj_authorized p = false /\ render p = R_MATERIALIZED
  | None => False
  end.
Proof. by vm_compute. Qed.

Definition w_foreign : memory :=
  Memory "x" "artifact" "Foreign" None (Some "ws-2") None None (Some NOW) None None None None None None [] None [] None None None None None None None.

(** One record of another workspace is refused, a list of them is not. *)
Example foreign_records_enter_in_bulk :
  (upsert w_foreign NOW w_engine).2 = Err OTHER_WORKSPACE /\
  is_Some (get_projection "x" (w_after (upsertMany [w_foreign] NOW) w_engine)).
Proof. split; [by vm_compute|]. vm_compute. eauto. Qed.

(** A padded reference given in bulk is filed under its padding: its projection
    is there, the record is not. *)
Example padded_reference_is_lost :
  let e := w_after (upsertMany [w_memory " p " 0 [] false] NOW) w_engine in
  is_Some (get_projection "p" e) /\ (setPinned "p" true NOW e).2 = Err UNKNOWN_REF.
Proof. split; [vm_compute; eauto | by vm_compute]. Qed.

(** A collapsed cluster is open again after the next change of any record. *)
Example collapse_is_forgotten :
  let id := from_option cluster_id "" (head (clusters w_engine)) in
  let e := w_after (setClusterCollapsed id true) w_engine in
  collapsed <$> jget id (clustersById e) = Some true /\
  collapsed <$> jget id (clustersById (w_after (reuse "a" None NOW) e)) = Some false.
Proof. by vm_compute. Qed.

(** A plan materializes past the budget of the recent region. *)
Example plan_exceeds_the_recent_budget :
  let e := Engine (Options "ws-1" None "p" "s" (num 1) (num 30) (num 50) None None false) (records w_engine) [] [] [] [] [] 0 None
             (eg_telemetry w_engine) in
  let e := rebuild NOW e in
  length (visibleRecent e) = 1%nat /\
  length (visibleRecent (w_after (planVirtualization (Some w_view) (num 1) NOW) e)) = 3%nat.
Proof. by vm_compute. Qed.

(** Unavailable hits count towards the limit and are dropped afterwards. *)
Example unavailable_hits_fill_the_limit :
  let gone := Memory "d" "artifact" "Maps" None None None None (Some NOW) None None None None None None [] None [] None None None None (Some false) None None in
  let e := w_after (upsertMany [gone; w_memory "g" 0 [("topic", JStr "maps")] false] NOW) w_engine in
  match engine_search "Maps" (SearchOptions (Some (num 1)) None None) NOW e with Ok s => results s = [] | Err _ => False end /\
  match engine_search "Maps" (SearchOptions (Some (num 2)) None None) NOW e with Ok s => length (results s) = 1%nat | Err _ => False end.
Proof. by vm_compute. Qed.
(** Two topics whose cluster identifiers collide under the 32-bit hash: one of
    the two clusters is lost. *)
Example colliding_topics_lose_a_cluster :
  let rec ref topic := w_memory ref 0 [("topic", JStr topic)] false in
  match new_engine w_empty [rec "a" "slepyyv"; rec "b" "slepyyv"; rec "c" "ookkyep"; rec "d" "ookkyep"] NOW with
  | Ok e => map (fun c => map sr_ref (member_refs c)) (jvalues (buildClusters e)) = [["c"; "d"]] /\
      length (sharing TOPIC "slepyyv" e) = 2%nat
  | Err _ => False
  end.
Proof. by vm_compute. Qed.
(** The groups of a rebuild share one table: a manual group named like an
    automatic one swallows it, and the cluster is gone. *)
Theorem auto_named_group_swallows_a_cluster :
  let e := (createManualCluster (ManualGroup "auto:TOPIC:maps" "Mine" ["a"]) NOW w_engine).1 in
  map semanticRef (sharing TOPIC "maps" e) = ["d"; "e"] /\
  map (fun cl => (cl_criterion cl, map sr_ref (member_refs cl))) (jvalues (buildClusters e)) = [(MANUAL, ["a"; "d"; "e"])].
Proof. vm_compute. split; reflexivity. Qed.
End MemoryWitness.

(** Materializing a focus draws nothing: the projection it raises is a copy. *)
Lemma materializing_draws_nothing {zod : Zod} now e : projectionsByRef (materializeFocus now e).1 = projectionsByRef e.
Proof.
  unfold materializeFocus, jbind, jread, jlift, jret, jwrite. destruct (focusState e) as [f|]; [|done].
  destruct (_ || _); [done|]. destruct (get_projection _ e); [|done]. by destruct (of_option _ _).
Qed.
