(* ===== verification/Seed.v ===== *)
(** * The interaction seed

    src/web/operator-dashboard/src/spatial/interaction/interaction-seed.ts: the
    state machine in front of the intent gateway, with its properties. A call
    mutates the seed in place and returns a copy of it; the copy shares what is
    nested in an operation, which is not modelled. [submit] reads the clock
    before and after the gateway and in its handler, [now1], [now2] and [now3];
    the gateway reads its own, [wall]. *)

From stdpp Require Import relations.
From S2P Require Import Prelude.
From S2P Require Import Json.
From S2P Require Import Contracts.
From S2P Require Import Numbers.
From S2P Require Import Intent.

#[local] Open Scope Z_scope.

(** ** Data *)

Inductive seed_state : Type := SD_SEED | SD_COMPOSING | SD_SUBMITTING | SD_ACTIVE | SD_FAILED | SD_CANCELLED.
#[export] Instance seed_state_eq_dec : EqDecision seed_state.
Proof. solve_decision. Defined.

(** [InteractionSeed]. *)
Record seed : Type := Seed {
  seed_id : string;
  sd_workspace : string;
  sd_node : string;
  sd_actor : string;
  sd_state : seed_state;
  semantic_anchor : string;
  sd_text : string;
  sd_operation : option (list (string * json));
  sd_attachments : list attachment;
  continue_from : option string;
  sd_context : list string;
  idempotency_key : string;
  sd_intent : option string;
  error_code : option intent_error;
  sd_created : iso;
  sd_updated : iso;
}.

(** The plain [Error]s, the [ZodError], the errors of the gateway and the
    [RangeError] of the clock. *)
Inductive seed_error : Type :=
| SD_CLOSED | SD_INVALID_CONTEXT | SD_ZOD_ERROR | SD_GATEWAY (e : intent_error) | SD_RANGE_ERROR.
#[export] Instance seed_error_eq_dec : EqDecision seed_error.
Proof. solve_decision. Defined.

(** [InteractionSeedController], with the gateway it shares. *)
Record controller : Type := Controller {
  ctl_seed : seed;
  lastSubmission : option submission;
  ctl_gateway : gateway;
}.

Definition set_seed (x : seed) (c : controller) : controller := Controller x (lastSubmission c) (ctl_gateway c).
Definition set_last (sb : submission) (c : controller) : controller := Controller (ctl_seed c) (Some sb) (ctl_gateway c).
Definition set_gateway (g : gateway) (c : controller) : controller := Controller (ctl_seed c) (lastSubmission c) g.

Definition with_state (st : seed_state) (x : seed) : seed :=
  Seed (seed_id x) (sd_workspace x) (sd_node x) (sd_actor x) st (semantic_anchor x) (sd_text x) (sd_operation x)
    (sd_attachments x) (continue_from x) (sd_context x) (idempotency_key x) (sd_intent x) (error_code x) (sd_created x)
    (sd_updated x).
Definition with_error (e : option intent_error) (x : seed) : seed :=
  Seed (seed_id x) (sd_workspace x) (sd_node x) (sd_actor x) (sd_state x) (semantic_anchor x) (sd_text x) (sd_operation x)
    (sd_attachments x) (continue_from x) (sd_context x) (idempotency_key x) (sd_intent x) e (sd_created x) (sd_updated x).
Definition with_intent (i : string) (x : seed) : seed :=
  Seed (seed_id x) (sd_workspace x) (sd_node x) (sd_actor x) (sd_state x) (semantic_anchor x) (sd_text x) (sd_operation x)
    (sd_attachments x) (continue_from x) (sd_context x) (idempotency_key x) (Some i) (error_code x) (sd_created x)
    (sd_updated x).
Definition with_updated (t : iso) (x : seed) : seed :=
  Seed (seed_id x) (sd_workspace x) (sd_node x) (sd_actor x) (sd_state x) (semantic_anchor x) (sd_text x) (sd_operation x)
    (sd_attachments x) (continue_from x) (sd_context x) (idempotency_key x) (sd_intent x) (error_code x) (sd_created x) t.
(** Text, operation, attachments, continuation and context. *)
Definition with_content (text : string) (op : option (list (string * json))) (atts : list attachment)
    (cont : option string) (ctx : list string) (x : seed) : seed :=
  Seed (seed_id x) (sd_workspace x) (sd_node x) (sd_actor x) (sd_state x) (semantic_anchor x) text op atts cont ctx
    (idempotency_key x) (sd_intent x) (error_code x) (sd_created x) (sd_updated x).

(** ** Gestures *)

Inductive target_kind : Type := tk_entity | tk_control | tk_canvas | tk_empty | tk_unknown.
#[export] Instance target_kind_eq_dec : EqDecision target_kind.
Proof. solve_decision. Defined.

Definition shouldOpenInteractionSeed (kind : option target_kind) (interactive : bool) : bool :=
  if interactive then false
  else match kind with Some tk_canvas | Some tk_empty | Some tk_unknown | None => true | _ => false end.

Definition isCreateInteractionShortcut (key : string) (ctrl meta alt shift : bool) : bool :=
  str_eqb (to_lower key) "i" && (ctrl || meta) && negb alt && negb shift.

Definition isLongPressDuration (ms : jsnum) : bool := isFinite ms && num_le (num 500) ms.

(** ** The controller *)

(** The constructor; [fresh] supplies the seed id and the key. *)
Definition new_controller (ws node actor : string) (g : gateway) (anchor key : option string) (fresh : nat -> string)
    (now : date) : result seed_error controller :=
  let? t := of_option now SD_RANGE_ERROR in
  Ok (Controller
    (Seed (fresh 0%nat) ws node actor SD_SEED (default "workspace:empty" anchor) "" None [] None []
       (default (fresh 1%nat) key) None None t t) None g).

Definition update (f : seed -> seed) : method controller seed_error unit :=
  let! c := jread in jwrite (set_seed (f (ctl_seed c)) c).

Definition touch (now : date) : method controller seed_error unit :=
  let! t := jlift (of_option now SD_RANGE_ERROR) in update (with_updated t).

Definition getSnapshot : method controller seed_error seed := let! c := jread in jret (ctl_seed c).

Definition mutable (st : seed_state) : bool :=
  match st with SD_SUBMITTING | SD_ACTIVE | SD_CANCELLED => false | _ => true end.
Definition ensureMutable : method controller seed_error unit :=
  let! c := jread in jlift (require (mutable (sd_state (ctl_seed c))) SD_CLOSED).

(** [if (this.seed.state === 'SEED') this.seed.state = 'COMPOSING']. *)
Definition composing (x : seed) : seed := if decide (sd_state x = SD_SEED) then with_state SD_COMPOSING x else x.

(** A call ends with [touch] and a snapshot. *)
Definition finish (now : date) : method controller seed_error seed := touch now ;! getSnapshot.

Definition beginComposition (now : date) : method controller seed_error seed := update composing ;! finish now.

Section seed.
Context {zod : Zod}.

Definition setText (text : string) (now : date) : method controller seed_error seed :=
  ensureMutable ;!
  update (fun x => with_error None (composing
    (with_content text (sd_operation x) (sd_attachments x) (continue_from x) (sd_context x) x))) ;!
  finish now.

Definition setOperation (op : option (list (string * json))) (now : date) : method controller seed_error seed :=
  ensureMutable ;!
  update (fun x => with_error None (composing
    (with_content (sd_text x) op (sd_attachments x) (continue_from x) (sd_context x) x))) ;!
  finish now.

Definition addAttachment (a : attachment) (fresh : string) (now : date) : method controller seed_error seed :=
  ensureMutable ;!
  let! p := jlift (of_option (spatialAttachmentManifestSchema
    (Attachment (if str_eqb (attachment_id a) "" then fresh else attachment_id a) (at_kind a) (at_ref a) (mime_type a)
       (size_bytes a) (checksum a))) (SD_GATEWAY MALFORMED_ATTACHMENT)) in
  update (fun x => composing
    (with_content (sd_text x) (sd_operation x) (sd_attachments x ++ [p]) (continue_from x) (sd_context x) x)) ;!
  finish now.

(** [if (!list.includes(ref)) list.push(ref)]. *)
Definition push_new (ref : string) (l : list string) : list string := if bool_decide (ref ∈ l) then l else l ++ [ref].

Definition continueFrom (ref : option string) (now : date) : method controller seed_error seed :=
  ensureMutable ;!
  jlift (match ref with Some r => require (bool_decide (is_Some (idSchema r))) SD_ZOD_ERROR | None => Ok tt end) ;!
  update (fun x => composing
    (with_content (sd_text x) (sd_operation x) (sd_attachments x) ref
       (match ref with Some r => if str_eqb r "" then sd_context x else push_new r (sd_context x) | None => sd_context x end) x)) ;!
  finish now.

Definition addContext (ref : string) (now : date) : method controller seed_error seed :=
  ensureMutable ;!
  let! r := jlift (of_option (idSchema ref) SD_INVALID_CONTEXT) in
  update (fun x => composing
    (with_content (sd_text x) (sd_operation x) (sd_attachments x) (continue_from x) (push_new r (sd_context x)) x)) ;!
  finish now.

Definition cancel (now : date) : method controller seed_error seed :=
  update (fun x => if decide (sd_state x = SD_ACTIVE) then x else with_state SD_CANCELLED x) ;!
  finish now.

(** The options of [submit]. *)
Record submit_options : Type := SubmitOptions {
  so_revision : option number;
  so_targets : option (list string);
  so_modality : option modality;
  so_kind : option intent_kind;
}.

(** The draft handed to the gateway. *)
Definition draft_of (x : seed) (o : submit_options) : draft :=
  Draft None (Some (sd_workspace x)) (Some (sd_node x)) (sd_actor x) (default mod_text (so_modality o))
    (Some (default k_message (so_kind o))) (if str_eqb (sd_text x) "" then None else Some (sd_text x)) (sd_operation x)
    (so_targets o) (continue_from x) (Some (sd_context x)) (Some (sd_attachments x)) (so_revision o) (idempotency_key x) None.

(** [error instanceof IntentGatewayError ? error.code : 'MALFORMED_INTENT']. *)
Definition code_of (e : seed_error) : intent_error :=
  match e with SD_GATEWAY IG_RANGE_ERROR => MALFORMED_INTENT | SD_GATEWAY e => e | _ => MALFORMED_INTENT end.

Definition says_nothing (x : seed) : bool :=
  (str_eqb (sd_text x) "" || str_eqb (trim (sd_text x)) "") && bool_decide (sd_operation x = None).

Definition submit (authorize : option (envelope -> bool)) (o : submit_options) (fresh : nat -> string)
    (now1 wall now2 now3 : date) : method controller seed_error submission :=
  let! c := jread in
  match lastSubmission c with
  | Some sb => jret sb
  | None =>
      jlift (require (negb (bool_decide (sd_state (ctl_seed c) = SD_CANCELLED))) SD_CLOSED) ;!
      if says_nothing (ctl_seed c) then
        update (fun x => with_error (Some EMPTY_INTENT) (with_state SD_FAILED x)) ;!
        touch now1 ;!
        jthrow (SD_GATEWAY EMPTY_INTENT)
      else
        update (fun x => with_error None (with_state SD_SUBMITTING x)) ;!
        touch now1 ;!
        jcatch
          (let! c := jread in
           let! sb := jzoom ctl_gateway set_gateway SD_GATEWAY (Intent.submit authorize (draft_of (ctl_seed c) o) fresh wall) in
           let! c := jread in
           jwrite (set_last sb c) ;!
           update (fun x => with_intent (intent_id (sb_envelope sb)) (with_state SD_ACTIVE x)) ;!
           touch now2 ;!
           jret sb)
          (fun e =>
             update (fun x => with_error (Some (code_of e)) (with_state SD_FAILED x)) ;!
             touch now3 ;!
             jthrow e)
  end.

(** ** Histories *)

(** One call of the controller whose clocks show dates, or of the gateway it
    shares. *)
Inductive seed_step (authorize : option (envelope -> bool)) (c : controller) : controller -> Prop :=
| sd_begin t c' r : beginComposition (Some t) c = (c', r) -> seed_step authorize c c'
| sd_set_text text t c' r : setText text (Some t) c = (c', r) -> seed_step authorize c c'
| sd_set_operation op t c' r : setOperation op (Some t) c = (c', r) -> seed_step authorize c c'
| sd_attach a fresh t c' r : addAttachment a fresh (Some t) c = (c', r) -> seed_step authorize c c'
| sd_continue ref t c' r : continueFrom ref (Some t) c = (c', r) -> seed_step authorize c c'
| sd_add_context ref t c' r : addContext ref (Some t) c = (c', r) -> seed_step authorize c c'
| sd_cancel t c' r : cancel (Some t) c = (c', r) -> seed_step authorize c c'
| sd_submit o fresh t1 wall t2 t3 c' r :
    submit authorize o fresh (Some t1) wall (Some t2) (Some t3) c = (c', r) -> seed_step authorize c c'
| sd_gateway g : gateway_step authorize (ctl_gateway c) g -> seed_step authorize c (set_gateway g c).
End seed.

(** ** Properties *)

Lemma finish_now t c : finish (Some t) c = (set_seed (with_updated t (ctl_seed c)) c, Ok (with_updated t (ctl_seed c))).
Proof. done. Qed.

Lemma composing_state x : sd_state (composing x) = SD_COMPOSING \/ composing x = x /\ sd_state x <> SD_SEED.
Proof. unfold composing. destruct (decide _); [by left | by right]. Qed.

(** What the operator has put into a seed, and where it goes. *)
Definition content (x : seed) : string * option (list (string * json)) * list attachment * option string * list string :=
  (sd_text x, sd_operation x, sd_attachments x, continue_from x, sd_context x).
Definition address (x : seed) : string * string * string * string * string :=
  (sd_workspace x, sd_node x, sd_actor x, idempotency_key x, seed_id x).

(** The draft depends on nothing else. *)
Lemma draft_of_same x y o : content x = content y -> address x = address y -> draft_of x o = draft_of y o.
Proof. unfold content, address, draft_of. intros [= -> -> -> -> ->] [= -> -> -> -> _]. done. Qed.

Section properties.
Context {zod : Zod} {laws : ZodLaws zod} (authorize : option (envelope -> bool)).

(** What an edit leaves: a seed that is not fresh any more, with contents that
    parse. *)
Record edited (x y : seed) : Prop := {
  edited_mutable : mutable (sd_state x) = true;
  edited_state : sd_state y = sd_state (composing x);
  edited_intent : sd_intent y = sd_intent x /\ address y = address x;
  edited_error : error_code y = None \/ error_code y = error_code x;
  edited_context : NoDup (sd_context x) -> NoDup (sd_context y);
  edited_attachments : forall a, a ∈ sd_attachments y -> a ∈ sd_attachments x \/ spatialAttachmentManifestSchema a = Some a;
}.

Lemma push_new_NoDup ref l : NoDup l -> NoDup (push_new ref l).
Proof using.
  intros H. unfold push_new. case_bool_decide as Hin; [done|]. apply NoDup_app. split_and!; [done| |apply NoDup_singleton].
  intros x Hx ->%list_elem_of_singleton. done.
Qed.

(** An edit fails and changes nothing, or edits. *)
Definition edits (m : method controller seed_error seed) : Prop :=
  forall c c' r, m c = (c', r) -> (c' = c /\ forall x, r <> Ok x) \/ exists y, c' = set_seed y c /\ r = Ok y /\ edited (ctl_seed c) y.

Lemma edits_guarded {A} (guard : result seed_error A) (f : A -> seed -> seed) t :
  (forall a x, guard = Ok a -> mutable (sd_state x) = true -> edited x (with_updated t (f a x))) ->
  edits (ensureMutable ;! let! a := jlift guard in update (f a) ;! finish (Some t)).
Proof using.
  intros Hf c c' r H. unfold ensureMutable, jbind, jread, jlift in H. destruct (mutable (sd_state (ctl_seed c))) eqn:Hm; cbn [require] in H.
  - destruct guard as [a|e]; [|injection H as <- <-; by left]. right. injection H as <- <-.
    eexists. split; [reflexivity|]. split; [reflexivity|]. by apply Hf.
  - injection H as <- <-. by left.
Qed.

Lemma composing_fields x : sd_intent (composing x) = sd_intent x /\ address (composing x) = address x /\
  error_code (composing x) = error_code x /\ sd_context (composing x) = sd_context x /\ sd_attachments (composing x) = sd_attachments x.
Proof using. unfold composing. by destruct (decide _). Qed.

(** Contents are replaced, and the error may be cleared. *)
Lemma edited_content text op atts cont ctx (clear : bool) x t :
  mutable (sd_state x) = true -> (NoDup (sd_context x) -> NoDup ctx) ->
  (forall a, a ∈ atts -> a ∈ sd_attachments x \/ spatialAttachmentManifestSchema a = Some a) ->
  let y := composing (with_content text op atts cont ctx x) in
  edited x (with_updated t (if clear then with_error None y else y)).
Proof using.
  intros Hm Hc Ha y. destruct (composing_fields (with_content text op atts cont ctx x)) as (Hi & Had & He & Hcx & Hat). fold y in Hi, Had, He, Hcx, Hat.
  assert (Hs : sd_state y = sd_state (composing x)) by (unfold y, composing; cbn [sd_state with_content]; by destruct (decide (sd_state x = SD_SEED))).
  destruct clear; split; cbn [sd_state sd_intent address error_code sd_context sd_attachments with_updated with_error]; try done;
    rewrite ?Hcx, ?Hat; auto.
Qed.

Lemma edits_setText text t : edits (setText text (Some t)).
Proof using.
  apply (edits_guarded (Ok tt) (fun _ x => with_error None (composing _))). intros _ x _ Hm.
  by apply (edited_content _ _ _ _ _ true); [| |by left].
Qed.

Lemma edits_setOperation op t : edits (setOperation op (Some t)).
Proof using.
  apply (edits_guarded (Ok tt) (fun _ x => with_error None (composing _))). intros _ x _ Hm.
  by apply (edited_content _ _ _ _ _ true); [| |by left].
Qed.

Lemma edits_addAttachment a fresh t : edits (addAttachment a fresh (Some t)).
Proof using laws.
  apply (edits_guarded (of_option _ _) (fun p x => composing _)). intros p x Hp%of_option_ok Hm.
  apply (edited_content _ _ _ _ _ false); [done|done|]. intros b [Hb|Hb%list_elem_of_singleton]%elem_of_app; [by left|].
  subst b. right. by apply idem in Hp.
Qed.

Lemma edits_continueFrom ref t : edits (continueFrom ref (Some t)).
Proof using.
  apply (edits_guarded _ (fun _ x => composing _)). intros _ x _ Hm.
  apply (edited_content _ _ _ _ _ false); [done| |by left]. intros Hc. destruct ref as [r|]; [|done].
  destruct (str_eqb r ""); [done | by apply push_new_NoDup].
Qed.

Lemma edits_addContext ref t : edits (addContext ref (Some t)).
Proof using.
  apply (edits_guarded (of_option _ _) (fun r x => composing _)). intros r x _ Hm.
  apply (edited_content _ _ _ _ _ false); [done| |by left]. by apply push_new_NoDup.
Qed.

(** ** Submission *)

(** The outcome of a submission that is not answered from the last one. *)
Lemma submit_spec o fresh t1 wall t2 t3 c c' r :
  lastSubmission c = None -> submit authorize o fresh (Some t1) wall (Some t2) (Some t3) c = (c', r) ->
  let x := ctl_seed c in
  (sd_state x = SD_CANCELLED /\ c' = c /\ r = Err SD_CLOSED) \/
  sd_state x <> SD_CANCELLED /\
   ((says_nothing x = true /\ r = Err (SD_GATEWAY EMPTY_INTENT) /\
       c' = set_seed (with_updated t1 (with_error (Some EMPTY_INTENT) (with_state SD_FAILED x))) c) \/
    says_nothing x = false /\ exists g res, Intent.submit authorize (draft_of x o) fresh wall (ctl_gateway c) = (g, res) /\
      match res with
      | Ok sb => r = Ok sb /\ c' = Controller
          (with_updated t2 (with_intent (intent_id (sb_envelope sb)) (with_state SD_ACTIVE (with_error None x)))) (Some sb) g
      | Err e => r = Err (SD_GATEWAY e) /\ c' = Controller
          (with_updated t3 (with_error (Some (code_of (SD_GATEWAY e))) (with_state SD_FAILED x))) None g
      end).
Proof using.
  intros Hlast H. unfold submit, jbind at 1, jread at 1 in H. rewrite Hlast in H. unfold jbind at 1, jlift at 1 in H.
  destruct (decide (sd_state (ctl_seed c) = SD_CANCELLED)) as [Hc|Hc].
  { rewrite bool_decide_eq_true_2 in H by done. injection H as <- <-. by left. }
  rewrite bool_decide_eq_false_2 in H by done. cbn [negb require] in H. right. split; [done|].
  destruct (says_nothing (ctl_seed c)) eqn:Hs; [left; injection H as <- <-; done|]. right. split; [done|].
  unfold jcatch, touch, update in H. unfold jbind, jread, jlift, jwrite, jthrow, jret, jzoom in H.
  cbn [of_option ctl_seed ctl_gateway set_seed] in H.
  rewrite (draft_of_same _ (ctl_seed c)) in H by done. destruct (Intent.submit _ _ _ _ _) as [g [sb|e]].
  all: exists g; eexists; (split; [done|]); injection H as <- <-; (split; [done|]);
    destruct c as [x l g0]; cbn [lastSubmission] in Hlast; by subst l.
Qed.

(** ** Invariant *)

Record seed_wf (c : controller) : Prop := {
  wf_active : sd_state (ctl_seed c) = SD_ACTIVE <-> is_Some (lastSubmission c);
  wf_intent : forall sb, lastSubmission c = Some sb -> sd_intent (ctl_seed c) = Some (intent_id (sb_envelope sb));
  wf_rest : sd_state (ctl_seed c) <> SD_SUBMITTING;
  wf_error : is_Some (error_code (ctl_seed c)) -> sd_state (ctl_seed c) = SD_FAILED \/ sd_state (ctl_seed c) = SD_CANCELLED;
  wf_context : NoDup (sd_context (ctl_seed c));
  wf_attachments : Forall (fun a => spatialAttachmentManifestSchema a = Some a) (sd_attachments (ctl_seed c));
}.

(** A call on a seed whose intent was accepted changes no more than the time of
    its last touch, and the gateway. *)
Definition settled (c c' : controller) : Prop :=
  lastSubmission c' = lastSubmission c /\ sd_state (ctl_seed c') = sd_state (ctl_seed c) /\
  content (ctl_seed c') = content (ctl_seed c) /\ address (ctl_seed c') = address (ctl_seed c) /\
  sd_intent (ctl_seed c') = sd_intent (ctl_seed c).

Lemma edits_wf m c c' r : edits m -> m c = (c', r) -> seed_wf c ->
  seed_wf c' /\ (is_Some (lastSubmission c) -> settled c c').
Proof using.
  intros Hm H Hwf. destruct (Hm _ _ _ H) as [[-> _]|(y & -> & _ & [He Hs [Hi Ha] Herr Hctx Hatt])]; [done|].
  assert (Hnone : lastSubmission c = None).
  { destruct (lastSubmission c) eqn:Hl; [|done]. pose proof (proj2 (wf_active _ Hwf)) as Hact. rewrite Hact in He; [done|]. by rewrite Hl. }
  split; [|rewrite Hnone; by intros [? ?]].
  pose proof (composing_state (ctl_seed c)) as Hcs. pose proof (wf_rest _ Hwf) as Hrest. pose proof (wf_active _ Hwf) as Hact.
  assert (Hna : sd_state (ctl_seed c) <> SD_ACTIVE) by (intros E; rewrite E in He; done).
  assert (Hy : sd_state y = SD_COMPOSING \/ sd_state y = sd_state (ctl_seed c)) by (rewrite Hs; destruct Hcs as [-> | [-> _]]; auto).
  split; cbn [ctl_seed lastSubmission set_seed].
  - rewrite Hnone. split; [|by intros [? ?]]. destruct Hy as [->|Hy]; [done|]. by rewrite Hy.
  - intros sb. by rewrite Hnone.
  - destruct Hy as [-> | ->]; done.
  - intros Hsome. destruct Herr as [Herr|Herr]; [rewrite Herr in Hsome; by destruct Hsome|]. rewrite Herr in Hsome.
    destruct (wf_error _ Hwf Hsome) as [E|E]; [|rewrite E in He; done]. left.
    rewrite Hs. unfold composing. by rewrite decide_False, E by (by rewrite E).
  - apply Hctx, (wf_context _ Hwf).
  - pose proof (wf_attachments _ Hwf) as Hf. rewrite Forall_forall in Hf. apply Forall_forall. intros a [Hin|Hin]%Hatt; auto.
Qed.

Lemma submit_again sb o fresh t1 wall t2 t3 c : lastSubmission c = Some sb ->
  submit authorize o fresh t1 wall t2 t3 c = (c, Ok sb).
Proof using. intros H. unfold submit, jbind at 1, jread at 1. by rewrite H. Qed.

Lemma settled_refl c : settled c c.
Proof using. done. Qed.
Lemma settled_trans c1 c2 c3 : settled c1 c2 -> settled c2 c3 -> settled c1 c3.
Proof using. intros (? & ? & ? & ? & ?) (? & ? & ? & ? & ?). unfold settled. by split_and!; etrans. Qed.

(** A new seed with another state, error and time keeps what is not about them. *)
Lemma rest_wf st e t c c' : seed_wf c -> lastSubmission c' = None ->
  ctl_seed c' = with_updated t (with_error e (with_state st (ctl_seed c))) ->
  st <> SD_ACTIVE -> st <> SD_SUBMITTING -> (is_Some e -> st = SD_FAILED \/ st = SD_CANCELLED) -> lastSubmission c = None ->
  seed_wf c'.
Proof using.
  intros [Ha Hi Hr He Hc Hat] Hnone Hx H1 H2 H3 Hl. destruct c' as [x l g]. cbn in Hnone, Hx. subst.
  split; cbn [ctl_seed lastSubmission]; try done; by rewrite <-Hl.
Qed.

Lemma submit_wf o fresh t1 wall t2 t3 c c' r :
  submit authorize o fresh (Some t1) wall (Some t2) (Some t3) c = (c', r) -> seed_wf c ->
  seed_wf c' /\ (is_Some (lastSubmission c) -> settled c c').
Proof using.
  intros H Hwf. destruct (lastSubmission c) as [sb|] eqn:Hl; [rewrite (submit_again sb) in H by done; by injection H as <- _|].
  split; [|by intros [? ?]].
  destruct (submit_spec _ _ _ _ _ _ _ _ _ Hl H) as [(_ & -> & _)|(Hc & [(_ & _ & ->)|(_ & g & res & _ & Hres)])]; [done| |].
  { eapply (rest_wf SD_FAILED (Some EMPTY_INTENT)); eauto. }
  destruct res as [sb|e]; destruct Hres as [_ ->].
  - destruct Hwf as [Ha Hi Hr He Hctx Hat]. split; cbn [ctl_seed lastSubmission]; try done; [by intros sb' [= <-]|].
    by intros [? ?].
  - eapply (rest_wf SD_FAILED (Some (code_of (SD_GATEWAY e)))); eauto.
Qed.

Lemma seed_step_wf c c' : seed_step authorize c c' -> seed_wf c -> seed_wf c' /\ (is_Some (lastSubmission c) -> settled c c').
Proof using laws.
  intros [t c1 r H|text t c1 r H|op t c1 r H|a fresh t c1 r H|ref t c1 r H|ref t c1 r H|t c1 r H|o fresh t1 wall t2 t3 c1 r H|g Hg] Hwf.
  - injection H as <- _. destruct (composing_state (ctl_seed c)) as [Hc|[Hc Hn]].
    + unfold composing in *. destruct (decide (sd_state (ctl_seed c) = SD_SEED)) as [Hs|Hs]; [|pose proof (wf_rest _ Hwf)].
      * assert (Hl : lastSubmission c = None).
        { destruct (lastSubmission c) eqn:Hl; [|done]. rewrite (proj2 (wf_active _ Hwf)) in Hs; [done | by rewrite Hl]. }
        split; [|rewrite Hl; by intros [? ?]]. assert (He : error_code (ctl_seed c) = None).
        { destruct (error_code _) eqn:He; [|done]. destruct (wf_error _ Hwf) as [E|E]; [by rewrite He|congruence..]. }
        eapply (rest_wf SD_COMPOSING None t c); [done..| | | | |]; try done.
        unfold set_seed. cbn [ctl_seed]. f_equal. unfold with_error, with_state. cbn. by rewrite He.
      * split; [|done]. by destruct Hwf.
    + rewrite Hc. split; [|done]. by destruct Hwf.
  - by eapply edits_wf; [apply edits_setText| |].
  - by eapply edits_wf; [apply edits_setOperation| |].
  - by eapply edits_wf; [apply edits_addAttachment| |].
  - by eapply edits_wf; [apply edits_continueFrom| |].
  - by eapply edits_wf; [apply edits_addContext| |].
  - injection H as <- _. unfold set_seed. cbn [ctl_seed]. destruct (decide (sd_state (ctl_seed c) = SD_ACTIVE)) as [Hs|Hs].
    + split; [|done]. by destruct Hwf.
    + assert (Hl : lastSubmission c = None).
      { destruct (lastSubmission c) eqn:Hl; [|done]. rewrite (proj2 (wf_active _ Hwf)) in Hs; [done | by rewrite Hl]. }
      split; [|rewrite Hl; by intros [? ?]]. destruct Hwf as [? ? ? ? ? ?]. split; cbn; try done; rewrite ?Hl; auto.
      split; [done | by intros [? ?]].
  - by eapply submit_wf.
  - split; [|done]. by destruct Hwf.
Qed.

Lemma seed_steps_wf c c' : rtc (seed_step authorize) c c' -> seed_wf c -> seed_wf c' /\ (is_Some (lastSubmission c) -> settled c c').
Proof using laws.
  intros H. induction H as [c|c1 c2 c3 Hs _ IH]; intros Hwf; [done|]. destruct (seed_step_wf _ _ Hs Hwf) as [Hwf2 H12].
  destruct (IH Hwf2) as [Hwf3 H23]. split; [done|]. intros Hl. pose proof (H12 Hl) as S12. eapply settled_trans; [exact S12|].
  apply H23. by rewrite (proj1 S12).
Qed.

Lemma new_controller_wf ws node actor g anchor key fresh now c :
  new_controller ws node actor g anchor key fresh now = Ok c -> seed_wf c.
Proof using.
  unfold new_controller. intros H. inv_ok. subst. split; cbn; try done; constructor.
Qed.

(** C18. An intent is submitted once: whatever is called on a seed after one of
    its submissions was accepted, however the gateway is used meanwhile, the seed
    stays active with the text, operation, attachments and context it was
    submitted with, and every further submission returns the first answer and
    does not reach the gateway. *)
Theorem accepted_seed_is_final ws node actor g anchor key fresh now c0 c c' sb :
  new_controller ws node actor g anchor key fresh now = Ok c0 ->
  rtc (seed_step authorize) c0 c -> lastSubmission c = Some sb -> rtc (seed_step authorize) c c' ->
  sd_state (ctl_seed c') = SD_ACTIVE /\ sd_intent (ctl_seed c') = Some (intent_id (sb_envelope sb)) /\
  content (ctl_seed c') = content (ctl_seed c) /\ address (ctl_seed c') = address (ctl_seed c) /\
  forall o fresh t1 wall t2 t3, submit authorize o fresh t1 wall t2 t3 c' = (c', Ok sb).
Proof using laws.
  intros Hnew%new_controller_wf H0 Hl H. pose proof (proj1 (seed_steps_wf _ _ H0 Hnew)) as Hwf.
  destruct (seed_steps_wf _ _ H Hwf) as [Hwf' Hs]. destruct Hs as (Hl' & _ & Hc & Ha & _); [by rewrite Hl|]. rewrite Hl in Hl'.
  split; [by apply (wf_active _ Hwf')|]. split; [by apply (wf_intent _ Hwf')|]. split; [done|]. split; [done|].
  intros. by apply submit_again.
Qed.

Lemma says_something x : says_nothing x = false -> trim (sd_text x) <> "" \/ is_Some (sd_operation x).
Proof using.
  unfold says_nothing. intros [H|H]%andb_false_iff.
  - apply orb_false_iff in H as [_ H]. left. by apply bool_decide_eq_false in H.
  - right. apply bool_decide_eq_false in H. by destruct (sd_operation x).
Qed.

Lemma attachment_named a b : spatialAttachmentManifestSchema a = Some b -> attachment_id b <> "".
Proof using laws.
  unfold spatialAttachmentManifestSchema. intros H. inv_some. cbn.
  by match goal with H : idSchema (attachment_id a) = Some _ |- _ => apply idSchema_spec in H as [_ Hne] end.
Qed.

Lemma normalize_parsed i l fresh : Forall (fun a => spatialAttachmentManifestSchema a = Some a) l -> normalizeAttachments i l fresh = Ok l.
Proof using laws.
  intros H. revert i. induction H as [|a l Ha _ IH]; intros i; cbn [normalizeAttachments]; [done|].
  unfold normalizeAttachment. assert (Hid : str_eqb (attachment_id a) "" = false).
  { apply bool_decide_eq_false. by eapply attachment_named. }
  rewrite Hid. destruct a as [id kind ref mime size sum]. cbn in *. rewrite Ha. cbn. by rewrite IH.
Qed.

(** A submission says what the seed holds. On any seed reached from a new
    one that has not been accepted: an accepted submission's envelope carries the
    trimmed text, the operation, the attachments, the trimmed continuation and
    context of the seed, under its actor and key, and the seed becomes active
    with that envelope; a refused one leaves the gateway and the content as they
    were and the seed failed with the code of the error, unless it was
    cancelled; a seed without text and operation is never accepted. *)
Theorem submission_carries_the_seed ws node actor g anchor key fresh0 now c0 o fresh t1 wall t2 t3 c c' r :
  new_controller ws node actor g anchor key fresh0 now = Ok c0 -> rtc (seed_step authorize) c0 c ->
  lastSubmission c = None -> submit authorize o fresh (Some t1) wall (Some t2) (Some t3) c = (c', r) ->
  let x := ctl_seed c in
  content (ctl_seed c') = content x /\ address (ctl_seed c') = address x /\
  match r with
  | Ok sb =>
      sd_state (ctl_seed c') = SD_ACTIVE /\ lastSubmission c' = Some sb /\
      sd_intent (ctl_seed c') = Some (intent_id (sb_envelope sb)) /\ error_code (ctl_seed c') = None /\
      (trim (sd_text x) <> "" \/ is_Some (sd_operation x)) /\
      match jget (submission_key (sd_actor x) (trim (idempotency_key x))) (byIdempotency (ctl_gateway c)) with
      | Some old => sb_status sb = duplicate /\ sb_envelope sb = sb_envelope old
      | None =>
          let e := sb_envelope sb in
          sb_status sb = accepted /\ en_actor e = trim (sd_actor x) /\ en_key e = trim (idempotency_key x) /\
          en_workspace e = trim (ig_workspace (ctl_gateway c)) /\
          en_text e = (if str_eqb (sd_text x) "" then None else Some (trim (sd_text x))) /\ operation e = sd_operation x /\
          attachments_manifest e = sd_attachments x /\ parent_ref e = trim <$> continue_from x /\
          context_refs e = map trim (sd_context x) /\ audits (ctl_gateway c') = audits (ctl_gateway c) ++ [safeAudit e accepted]
      end
  | Err e =>
      ctl_gateway c' = ctl_gateway c /\ lastSubmission c' = None /\
      (if decide (sd_state x = SD_CANCELLED) then c' = c /\ e = SD_CLOSED
       else sd_state (ctl_seed c') = SD_FAILED /\ error_code (ctl_seed c') = Some (code_of e))
  end.
Proof using laws.
  intros Hnew%new_controller_wf H0 Hl H. pose proof (proj1 (seed_steps_wf _ _ H0 Hnew)) as Hwf. cbv zeta.
  destruct (submit_spec _ _ _ _ _ _ _ _ _ Hl H) as [(Hc & -> & ->)|(Hc & [(_ & -> & ->)|(Hsays & g' & res & Hg & Hres)])].
  { split; [done|]. split; [done|]. by rewrite decide_True. }
  { split; [done|]. split; [done|]. by rewrite decide_False. }
  destruct res as [sb|e]; destruct Hres as [-> ->]; (split; [done|]); (split; [done|]).
  - split; [done|]. split; [done|]. split; [done|]. split; [done|]. split; [by apply says_something|].
    destruct (submit_inv authorize _ _ _ _ _ _ Hg) as [[_ Hno]|[(old & Hold & _ & [= ->])|(e & Hnone & _ & Hw & _ & Ha & Hk & _ & _ & _ & [= ->] & ->)]].
    + by destruct (Hno sb).
    + cbn [d_actor d_key draft_of] in Hold. rewrite Hold. done.
    + cbn [d_actor d_key draft_of] in Hnone. rewrite Hnone. cbn [sb_envelope sb_status ctl_gateway audits].
      destruct (submit_accepts authorize _ _ _ _ _ _ _ Hg Hnone) as (atts & rev & t & Hatts & _ & He).
      cbn [d_attachments d_text d_operation d_parent d_context draft_of default] in Hatts, He.
      rewrite normalize_parsed in Hatts by apply (wf_attachments _ Hwf). injection Hatts as <-.
      apply envelopeSchema_content in He as (Htext & Hop & _ & Hpar & Hctx & Hatt & _). cbn in Htext, Hop, Hpar, Hctx, Hatt.
      split; [done|]. split; [done|]. split; [done|]. split; [done|]. split; [|split; [done|split; [|done]]].
      * rewrite Htext. destruct (str_eqb (sd_text _) ""); [done|]. cbn. by rewrite trim_idem.
      * pose proof (wf_attachments _ Hwf) as Hf. clear -Hatt Hf. induction Hatt as [|a b l k Hab _ IH]; [done|].
        apply Forall_cons in Hf as [Ha Hf]. rewrite IH by done. congruence.
  - assert (g' = ctl_gateway c) as ->.
    { by destruct (submit_inv authorize _ _ _ _ _ _ Hg) as [[-> _]|[(? & _ & _ & [=])|(? & _ & _ & _ & _ & _ & _ & _ & _ & _ & [=] & _)]]. }
    split; [done|]. split; [done|]. by rewrite decide_False.
Qed.
End properties.

Module SeedWitness.
#[local] Existing Instance zod_ref.
Definition fresh (n : nat) : string := match n with O => "id-0" | S O => "id-1" | _ => "id-2" end.
Definition g0 : gateway := new_gateway "w" "n" (Some 3) None.
Definition a_new : controller :=
  match new_controller "w" "n" "ann" g0 None (Some "key"%string) fresh (Some 1) with
  | Ok c => c
  | Err _ => Controller (Seed "" "" "" "" SD_SEED "" "" None [] None [] "" None None 0 0) None g0
  end.
Definition opts : submit_options := SubmitOptions None None None None.
Definition plain : option (envelope -> bool) := None.
Definition run (c : controller) : controller * result seed_error submission :=
  submit plain opts fresh (Some 5) (Some 5) (Some 6) (Some 6) c.

Definition said : controller := (setText " hello " (Some 2) a_new).1.
Definition linked : controller := (continueFrom (Some " a"%string) (Some 3) said).1.
Definition sent : controller := (run linked).1.
Definition the_submission : submission := match (run linked).2 with Ok sb => sb | Err _ => Submission accepted
  (Envelope "" "" "" "" mod_text k_message None None [] None [] [] 0 "" 0) (IntentAudit "" "" "" "" mod_text k_message 0 0 0 0 accepted) end.
Definition after : controller := (cancel (Some 8) (setText "other" (Some 7) sent).1).1.

Lemma linked_reached : rtc (seed_step plain) a_new linked.
Proof.
  apply (rtc_l _ a_new said); [exact (sd_set_text _ _ " hello " 2 _ _ (surjective_pairing _))|].
  apply rtc_once. exact (sd_continue _ _ (Some " a"%string) 3 _ _ (surjective_pairing _)).
Defined.

Lemma sent_reached : rtc (seed_step plain) a_new sent.
Proof.
  eapply rtc_r; [apply linked_reached|].
  exact (sd_submit _ _ opts fresh 5 (Some 5) 6 6 _ _ (surjective_pairing _)).
Defined.

Lemma accepted_seed_is_final_witness :
  sd_state (ctl_seed after) = SD_ACTIVE /\ sd_intent (ctl_seed after) = Some (intent_id (sb_envelope the_submission)) /\
  content (ctl_seed after) = content (ctl_seed sent) /\ address (ctl_seed after) = address (ctl_seed sent) /\
  forall o fresh t1 wall t2 t3, submit plain o fresh t1 wall t2 t3 after = (after, Ok the_submission).
Proof.
  apply (accepted_seed_is_final (laws := zod_ref_laws) plain "w" "n" "ann" g0 None (Some "key"%string) fresh (Some 1) a_new sent after
           the_submission).
  - vm_compute. reflexivity.
  - apply sent_reached.
  - vm_compute. reflexivity.
  - apply (rtc_l _ sent (setText "other" (Some 7) sent).1); [exact (sd_set_text _ _ "other" 7 _ _ (surjective_pairing _))|].
    apply rtc_once. exact (sd_cancel _ _ 8 _ _ (surjective_pairing _)).
Defined.

Lemma submission_carries_the_seed_witness :
  sd_state (ctl_seed sent) = SD_ACTIVE /\ sb_status the_submission = accepted /\
  en_text (sb_envelope the_submission) = Some "hello"%string /\ parent_ref (sb_envelope the_submission) = Some "a"%string /\
  context_refs (sb_envelope the_submission) = ["a"%string].
Proof.
  destruct (submission_carries_the_seed (laws := zod_ref_laws) plain "w" "n" "ann" g0 None (Some "key"%string) fresh (Some 1) a_new
              opts fresh 5 (Some 5) 6 6 linked sent (Ok the_submission))
    as (_ & _ & Hst & _ & _ & _ & _ & Hacc & _ & _ & _ & Htext & _ & _ & Hpar & Hctx & _).
  - vm_compute. reflexivity.
  - apply linked_reached.
  - vm_compute. reflexivity.
  - vm_compute. reflexivity.
  - exact (conj Hst (conj Hacc (conj Htext (conj Hpar Hctx)))).
Defined.

(** A clock that fails after the gateway accepted: the seed says it failed, can
    be written again, and still answers with the submission of its first text. *)
Theorem late_clock_failure_hides_acceptance :
  let '(c, r) := submit plain opts fresh (Some 5) (Some 5) None (Some 6) linked in
  r = Err SD_RANGE_ERROR /\ sd_state (ctl_seed c) = SD_FAILED /\ error_code (ctl_seed c) = Some MALFORMED_INTENT /\
  length (audits (ctl_gateway c)) = 1%nat /\
  let c' := (setText "other" (Some 7) c).1 in
  sd_text (ctl_seed c') = "other"%string /\
  match (run c').2 with Ok sb => en_text (sb_envelope sb) = Some "hello"%string | Err _ => False end.
Proof. vm_compute. done. Qed.

(** One that fails before it: the seed keeps submitting and refuses every edit. *)
Theorem early_clock_failure_locks_the_seed :
  let '(c, r) := submit plain opts fresh None (Some 5) (Some 6) (Some 6) linked in
  r = Err SD_RANGE_ERROR /\ sd_state (ctl_seed c) = SD_SUBMITTING /\ ctl_gateway c = g0 /\
  (setText "other" (Some 7) c).2 = Err SD_CLOSED.
Proof. vm_compute. done. Qed.

(** A seed that failed stays failed while it is written again, without a code. *)
Theorem corrected_seed_stays_failed :
  let c := (run a_new).1 in
  sd_state (ctl_seed c) = SD_FAILED /\ error_code (ctl_seed c) = Some EMPTY_INTENT /\
  let c' := (setText "hello" (Some 7) c).1 in
  sd_state (ctl_seed c') = SD_FAILED /\ error_code (ctl_seed c') = None.
Proof. vm_compute. done. Qed.

(** The continuation is kept as given and a context reference trimmed: one
    reference enters twice, and a continuation that is withdrawn stays in the
    context. *)
Theorem padded_continuation_enters_twice :
  let c := (continueFrom None (Some 5) (addContext "a" (Some 4) linked).1).1 in
  sd_context (ctl_seed c) = [" a"; "a"]%string /\ continue_from (ctl_seed c) = None /\
  match (run c).2 with Ok sb => context_refs (sb_envelope sb) = ["a"; "a"]%string | Err _ => False end.
Proof. vm_compute. done. Qed.

Example gestures :
  shouldOpenInteractionSeed (Some tk_canvas) false = true /\ shouldOpenInteractionSeed (Some tk_entity) false = false /\
  shouldOpenInteractionSeed None true = false /\ isCreateInteractionShortcut "I" true false false false = true /\
  isLongPressDuration (num 500) = true /\ isLongPressDuration PosInf = false.
Proof. done. Qed.
End SeedWitness.
