(* ===== verification/Schemas.v ===== *)
(** * Values of unknown type and the schemas that parse them

    The part of zod that interaction/component-registry.ts and
    contracts/agent-document.ts use on values of type [unknown], as functions
    from a value to what it parses to, and two properties that every schema
    built from it has: what it accepted it accepts again unchanged
    ([Idempotent]), and it adds nothing executable ([Harmless]). An own
    property called [__proto__] is only treated by [vs_record], which skips it. *)

From S2P Require Import Prelude.
From S2P Require Import Contracts.
From S2P Require Import Numbers.
From S2P Require Import Text.

#[local] Open Scope Z_scope.

(** ** Values *)

(** A value of type [unknown]; [VOpaque] is a function, a symbol or a bigint. An
    object is the list of its own properties. *)
Inductive value : Type :=
| VUndefined
| VNull
| VBool (b : bool)
| VNum (n : jsnum)
| VStr (s : string)
| VArr (l : list value)
| VObj (l : list (string * value))
| VOpaque.

Definition schema : Type := value -> option value.

(** The walk through a value that [containsUnsafeValue] and the presentation
    planner's [unsafePresentationValue] share: texts and keys are tested, at any
    depth. *)
Fixpoint scan (text key : string -> bool) (v : value) : bool :=
  match v with
  | VOpaque => true
  | VStr s => text s
  | VArr l => existsb (scan text key) l
  | VObj l => existsb (fun kv => key kv.1 || scan text key kv.2) l
  | _ => false
  end.

(** ** The combinators of zod *)

Section combinators.
Context {zod : Zod}.

Definition vs_unknown : schema := Some.
Definition vs_null : schema := fun v => match v with VNull => Some VNull | _ => None end.
Definition vs_boolean : schema := fun v => match v with VBool b => Some (VBool b) | _ => None end.

(** [z.string()] with a test, and with its bounds. *)
Definition vs_text (ok : string -> bool) : schema := fun v => match v with VStr s => if ok s then Some v else None | _ => None end.
Definition vs_nonempty : schema := vs_text (fun s => negb (str_eqb s "")).
Definition vs_string (lo hi : N) : schema :=
  fun v => match v with VStr s => VStr <$> z_string (N.to_nat lo) (N.to_nat hi) s | _ => None end.

(** [z.enum(l)]; [z.literal(s)] is the one of [s] alone. *)
Definition vs_enum (l : list string) : schema := vs_text (fun s => existsb (str_eqb s) l).

(** [z.number()], with a test of the number. *)
Definition vs_number (ok : jsnum -> bool) : schema :=
  fun v => match v with VNum n => if isFinite n && ok n then Some v else None | _ => None end.
Definition vs_finite : schema := vs_number (fun _ => true).
(** [.int().nonnegative()] and [.int().positive()], on safe integers. *)
Definition safe_from (lo : Z) (n : jsnum) : bool := isInteger n && num_le (num lo) n && num_le n (num (2 ^ 53 - 1)).
Definition vs_count : schema := vs_number (safe_from 0).
Definition vs_positive : schema := vs_number (safe_from 1).

Definition vs_optional (p : schema) : schema := fun v => match v with VUndefined => Some VUndefined | _ => p v end.
Definition vs_nullable (p : schema) : schema := fun v => match v with VNull => Some VNull | _ => p v end.
(** [.default(d)]; the default is not parsed. *)
Definition vs_default (d : value) (p : schema) : schema := fun v => match v with VUndefined => Some d | _ => p v end.

(** [z.union]: the first schema that accepts. *)
Fixpoint vs_union (ps : list schema) : schema :=
  match ps with
  | [] => fun _ => None
  | p :: ps => fun v => match p v with Some w => Some w | None => vs_union ps v end
  end.

Definition vs_array (lo hi : N) (p : schema) : schema :=
  fun v => match v with
           | VArr l => if bool_decide (lo <= N.of_nat (length l) <= hi)%N then VArr <$> mapM p l else None
           | _ => None
           end.

(** [z.record(key, value)], and [z.string()] with its bounds as a key. *)
Definition vs_key (lo hi : N) (s : string) : bool := bool_decide (is_Some (z_string (N.to_nat lo) (N.to_nat hi) s)).
Definition vs_record (key : string -> bool) (p : schema) : schema :=
  fun v => match v with
           | VObj l => VObj <$> mapM (fun kv => if key kv.1 then pair kv.1 <$> p kv.2 else None)
                                     (filter (fun kv => str_eqb kv.1 "__proto__" = false) l)
           | _ => None
           end.

(** The properties of an object: an undefined one stays away when it was away. *)
Definition vs_put (l : jsmap value) (k : string) (v : value) (rest : jsmap value) : jsmap value :=
  match v with VUndefined => if jhas k l then (k, v) :: rest else rest | _ => (k, v) :: rest end.
Fixpoint vs_fields (l : jsmap value) (shape : list (string * schema)) : option (jsmap value) :=
  match shape with
  | [] => Some []
  | (k, p) :: shape =>
      v ← p (default VUndefined (jget k l));
      rest ← vs_fields l shape;
      Some (vs_put l k v rest)
  end.

(** [z.object(shape).strip()] and [.strict()]. *)
Definition vs_object (shape : list (string * schema)) : schema :=
  fun v => match v with VObj l => VObj <$> vs_fields l shape | _ => None end.
Definition vs_strict (shape : list (string * schema)) : schema :=
  fun v => match v with
           | VObj l => if forallb (fun kv => existsb (str_eqb kv.1) (map fst shape)) l then vs_object shape v else None
           | _ => None
           end.

(** [z.discriminatedUnion(k, ...)] of strict objects, by their literals of [k]. *)
Definition vs_option (k : string) (o : string * list (string * schema)) : schema := vs_strict ((k, vs_enum [o.1]) :: o.2).
Definition vs_discriminated (k : string) (os : list (string * list (string * schema))) : schema :=
  fun v => match v with
           | VObj l => match jget k l with
                       | Some (VStr s) => o ← List.find (fun o => str_eqb o.1 s) os; vs_option k o v
                       | _ => None
                       end
           | _ => None
           end.

(** ** Agent documents *)

(** [/^[A-Za-z0-9_.:-]+$/], within its bounds. *)
Definition doc_id_char (c : ascii) : bool := is_alpha c || is_digit c || one_of "_.:-" c.
Definition doc_id (s : string) : bool :=
  vs_key 1 128 s && forallb doc_id_char (String.list_ascii_of_string s).
Definition docIdSchema : schema := vs_text doc_id.

Definition agentFieldValueSchema : schema := vs_union [vs_string 0 8000; vs_boolean; vs_finite; vs_null].

Definition agentDocumentFieldSchema : schema := vs_strict
  [("id", docIdSchema); ("label", vs_string 1 240); ("type", vs_enum ["text"; "number"; "integer"; "boolean"; "select"]%string);
   ("value", agentFieldValueSchema); ("editable", vs_boolean); ("description", vs_string 0 1000);
   ("minimum", vs_nullable vs_finite); ("maximum", vs_nullable vs_finite);
   ("options", vs_array 0 64 (vs_text (fun _ => true)))].

Definition agentDocumentSchema : schema := vs_strict
  [("schema_version", vs_enum ["agent-document.v1"%string]); ("document_id", docIdSchema); ("surface_id", docIdSchema);
   ("request_id", docIdSchema); ("title", vs_string 1 240); ("revision", vs_positive); ("updated_at", vs_text (fun _ => true));
   ("blocks", vs_array 1 16 (vs_discriminated "type"
      [("text"%string, [("text"%string, vs_string 1 8000)]);
       ("fields", [("title", vs_string 0 240); ("source_id", docIdSchema); ("source_revision", vs_string 1 128);
                   ("target_id", vs_nonempty); ("fields", vs_array 0 64 agentDocumentFieldSchema)])%string]))].

Definition agentFormChangeSchema : schema := vs_strict
  [("kind", vs_enum ["form_change"%string]); ("document_id", docIdSchema); ("document_revision", vs_positive);
   ("source_id", docIdSchema); ("source_revision", vs_string 1 128); ("current", vs_record doc_id agentFieldValueSchema);
   ("proposed", vs_record doc_id agentFieldValueSchema)].
End combinators.

(** ** What every schema has *)

Section behaviour.
Context {zod : Zod} {laws : ZodLaws zod} (text key : string -> bool).

Definition clean (v : value) : Prop := scan text key v = false.

(** A schema accepts again what it made, and adds nothing that the scan finds. *)
Record behaves (p : schema) : Prop := {
  bh_stable : Idempotent p;
  bh_harmless : forall v w, clean v -> p v = Some w -> clean w;
}.

Lemma existsb_false {A} (f : A -> bool) l : existsb f l = false <-> Forall (fun x => f x = false) l.
Proof. induction l as [|x l IH]; cbn [existsb]; [by split|]. by rewrite orb_false_iff, IH, Forall_cons. Qed.

Lemma clean_arr l : clean (VArr l) <-> Forall clean l.
Proof. apply existsb_false. Qed.

Lemma clean_obj l : clean (VObj l) <-> Forall (fun kv => key kv.1 = false /\ clean kv.2) l.
Proof.
  unfold clean. cbn [scan]. rewrite existsb_false. apply Forall_iff. intros [k v]. cbn [fst snd]. apply orb_false_iff.
Qed.

(** A schema that returns what it was given. *)
Definition checks (p : schema) : Prop := forall v w, p v = Some w -> w = v.

Lemma checks_behaves p : checks p -> behaves p.
Proof. intros H. split; [intros v w Hp; pose proof (H v w Hp) as ->; done|]. by intros v w Hv ->%H. Qed.

Lemma unknown_checks : checks vs_unknown.
Proof. by intros v w [= ->]. Qed.
Lemma null_checks : checks vs_null.
Proof. by intros [] w [= <-]. Qed.
Lemma boolean_checks : checks vs_boolean.
Proof. by intros [] w [= <-]. Qed.
Lemma text_checks ok : checks (vs_text ok).
Proof. intros [| | | |s| | |] w; cbn; try done. destruct (ok s); [by intros [= <-]|done]. Qed.
Lemma string_checks lo hi : checks (vs_string lo hi).
Proof using laws. intros [| | | |s| | |] w; cbn; try done. intros (t & [-> _]%z_string_sound & ->)%fmap_Some. done. Qed.
Lemma number_checks ok : checks (vs_number ok).
Proof. intros [| | |n| | | |] w; cbn; try done. destruct (isFinite n && ok n); [by intros [= <-]|done]. Qed.
Lemma nullable_checks p : checks p -> checks (vs_nullable p).
Proof. intros H v w. destruct v; cbn [vs_nullable]; try apply H. by intros [= <-]. Qed.
Lemma union_checks ps : Forall checks ps -> checks (vs_union ps).
Proof.
  intros Hps v w. induction Hps as [|p ps Hp Hps IH]; cbn [vs_union]; [done|].
  destruct (p v) as [x|] eqn:Hx; [|exact IH]. intros [= <-]. by apply Hp.
Qed.

Lemma optional_behaves p : behaves p -> behaves (vs_optional p).
Proof.
  intros [Hi Hh]. split.
  - intros v w Hv. destruct v; [by injection Hv as <-|..]; cbn [vs_optional] in Hv; apply Hi in Hv; by destruct w.
  - intros v w Hc Hv. destruct v; [by injection Hv as <-|..]; by eapply Hh.
Qed.

Lemma nullable_behaves p : behaves p -> behaves (vs_nullable p).
Proof.
  intros [Hi Hh]. split.
  - intros v w Hv. destruct v; cbn [vs_nullable] in Hv; try (by injection Hv as <-); apply Hi in Hv; by destruct w.
  - intros v w Hc Hv. destruct v; try (by injection Hv as <-); by eapply Hh.
Qed.

Lemma default_behaves d p : p VUndefined = None -> p d = Some d -> clean d -> behaves p -> behaves (vs_default d p).
Proof.
  intros Hu Hd Hcd [Hi Hh]. split.
  - intros v w Hv. assert (Hp : p w = Some w) by (destruct v; cbn [vs_default] in Hv; [by injection Hv as <-|by eapply Hi..]).
    destruct w; [by rewrite Hu in Hp|done..].
  - intros v w Hc Hv. destruct v; [by injection Hv as <-|..]; by eapply Hh.
Qed.

Lemma array_behaves lo hi p : behaves p -> behaves (vs_array lo hi p).
Proof.
  intros [Hi Hh]. split; intros v w.
  - destruct v as [| | | | |l| |]; cbn [vs_array]; try done. case_bool_decide as Hl; [|done].
    intros (l' & Hm & ->)%fmap_Some. cbn [vs_array]. apply mapM_Some in Hm.
    rewrite bool_decide_eq_true_2 by (by rewrite <-(Forall2_length _ _ _ Hm)).
    apply fmap_Some. exists l'. split; [|done]. apply mapM_Some. clear Hl. induction Hm; constructor; [by eapply Hi|done].
  - destruct v as [| | | | |l| |]; cbn [vs_array]; try done. case_bool_decide as Hl; [|done]. clear Hl.
    intros Hc%clean_arr (l' & Hm & ->)%fmap_Some. apply clean_arr. apply mapM_Some in Hm.
    induction Hm; [done|]. apply Forall_cons in Hc as [? ?]. constructor; [by eapply Hh|by auto].
Qed.

Lemma record_behaves ok p : behaves p -> behaves (vs_record ok p).
Proof.
  intros [Hi Hh]. split; intros v w.
  - destruct v as [| | | | | |l|]; cbn [vs_record]; try done. intros (l' & Hm & ->)%fmap_Some. cbn [vs_record].
    apply mapM_Some in Hm. apply fmap_Some. exists l'. split; [|done].
    assert (Hf : Forall (fun kv : string * value => str_eqb kv.1 "__proto__" = false) (filter (fun kv => str_eqb kv.1 "__proto__" = false) l))
      by (apply Forall_forall; by intros x [? _]%list_elem_of_filter).
    assert (H : filter (fun kv => str_eqb kv.1 "__proto__" = false) l' = l' /\
                Forall2 (fun kv kv' => (if ok kv.1 then pair kv.1 <$> p kv.2 else None) = Some kv') l' l').
    { induction Hm as [|[k v] [k' v'] l0 l1 Hkv Hm IH]; [by split; constructor|]. apply Forall_cons in Hf as [Hk Hf].
      cbn [fst snd] in *. destruct (ok k) eqn:Hok; [|done]. apply fmap_Some in Hkv as (v2 & Hv & [= -> ->]).
      destruct (IH Hf) as [IH1 IH2]. rewrite filter_cons_True by done. split; [by f_equal|]. constructor; [|done].
      cbn [fst snd]. by rewrite Hok, (Hi _ _ Hv). }
    destruct H as [-> H]. by apply mapM_Some.
  - destruct v as [| | | | | |l|]; cbn [vs_record]; try done. intros Hc%clean_obj (l' & Hm & ->)%fmap_Some. apply clean_obj.
    apply mapM_Some in Hm.
    assert (Hf : Forall (fun kv : string * value => key kv.1 = false /\ clean kv.2) (filter (fun kv => str_eqb kv.1 "__proto__" = false) l))
      by (rewrite Forall_forall in *; intros x [_ Hx]%list_elem_of_filter; by apply Hc).
    induction Hm as [|[k v] [k' v'] l0 l1 Hkv Hm IH]; [done|]. apply Forall_cons in Hf as [[Hk Hcv] Hf]. cbn [fst snd] in *.
    destruct (ok k) eqn:Hok; [|done]. apply fmap_Some in Hkv as (v2 & Hv & [= -> ->]).
    constructor; [split; [done|by eapply Hh]|by apply IH].
Qed.

(** ** Objects *)

Lemma jget_put l k v rest k' : k ∉ jkeys rest ->
  jget k' (vs_put l k v rest) =
    if str_eqb k k' then match v with VUndefined => if jhas k l then Some v else None | _ => Some v end else jget k' rest.
Proof.
  intros Hk%jget_None. destruct (str_eqb k k') eqn:He.
  - apply str_eqb_eq in He as <-. destruct v; [destruct (jhas k l) eqn:Hh|..]; cbn [vs_put jget]; rewrite ?Hh; cbn [jget]; rewrite ?str_eqb_refl; done.
  - destruct v; [destruct (jhas k l) eqn:Hh|..]; cbn [vs_put jget]; rewrite ?Hh; cbn [jget]; rewrite ?He; done.
Qed.

Lemma keys_put l k v rest : jkeys (vs_put l k v rest) ⊆ k :: jkeys rest.
Proof. destruct v; [destruct (jhas k l) eqn:Hh|..]; cbn [vs_put]; rewrite ?Hh; set_solver. Qed.

(** What is found under the properties of the shape. *)
Definition found (l : jsmap value) (v : value) (k : string) (out : jsmap value) : Prop :=
  jget k out = match v with VUndefined => if jhas k l then Some v else None | _ => Some v end.

Lemma fields_lookup l shape out : vs_fields l shape = Some out -> NoDup (map fst shape) ->
  jkeys out ⊆ map fst shape /\
  Forall (fun f => exists v, f.2 (default VUndefined (jget f.1 l)) = Some v /\ found l v f.1 out) shape.
Proof.
  revert out. induction shape as [|[k p] shape IH]; intros out; cbn [vs_fields map fst].
  { intros [= <-] _. split; [done|constructor]. }
  intros (v & Hv & (rest & Hr & [= <-])%bind_Some)%bind_Some [Hk Hn]%NoDup_cons.
  destruct (IH rest Hr Hn) as [Hsub Hall]. assert (Hkr : k ∉ jkeys rest) by set_solver.
  split; [pose proof (keys_put l k v rest); set_solver|]. constructor.
  - exists v. split; [done|]. unfold found. cbn [fst]. by rewrite jget_put, str_eqb_refl.
  - apply Forall_forall. intros [k' p'] Hf. rewrite Forall_forall in Hall. destruct (Hall _ Hf) as (w & Hw & Hg).
    cbn [fst snd] in *. exists w. split; [done|]. unfold found. rewrite jget_put by done.
    destruct (str_eqb k k') eqn:He; [|exact Hg]. apply str_eqb_eq in He as <-. destruct Hk. apply list_elem_of_fmap. by exists (k, p').
Qed.

(** An object in which the properties parse to the same parses to the same. *)
Lemma fields_agree l m shape out : vs_fields l shape = Some out ->
  Forall (fun f => exists v, f.2 (default VUndefined (jget f.1 l)) = Some v /\ f.2 (default VUndefined (jget f.1 m)) = Some v /\
    (v = VUndefined -> jhas f.1 m = jhas f.1 l)) shape ->
  vs_fields m shape = Some out.
Proof.
  revert out. induction shape as [|[k p] shape IH]; intros out; cbn [vs_fields]; [done|].
  intros (v & Hv & (rest & Hr & [= <-])%bind_Some)%bind_Some [(v' & Hl & Hm & Hh) Hall]%Forall_cons. cbn [fst snd] in *.
  rewrite Hv in Hl. injection Hl as <-. rewrite Hm, (IH rest Hr Hall). cbn. f_equal.
  destruct v; [|done..]. cbn [vs_put]. by rewrite Hh.
Qed.

Lemma fields_stable l shape out : NoDup (map fst shape) -> Forall (fun f => behaves f.2) shape ->
  vs_fields l shape = Some out -> vs_fields out shape = Some out.
Proof.
  intros Hn Hs H. destruct (fields_lookup _ _ _ H Hn) as [_ Hall]. eapply fields_agree; [exact H|].
  rewrite Forall_forall in *. intros f Hf. destruct (Hall f Hf) as (v & Hv & Hg). exists v. split; [done|]. unfold found in Hg.
  assert (Hd : default VUndefined (jget f.1 out) = v) by (rewrite Hg; destruct v; [by destruct (jhas f.1 l)|done..]).
  split; [rewrite Hd; by eapply bh_stable, Hv; apply Hs|]. intros ->. unfold jhas at 1. rewrite Hg.
  by destruct (jhas f.1 l).
Qed.

Lemma fields_clean l shape out : Forall (fun f => key f.1 = false) shape -> Forall (fun f => behaves f.2) shape ->
  Forall (fun kv => key kv.1 = false /\ clean kv.2) l ->
  vs_fields l shape = Some out -> Forall (fun kv => key kv.1 = false /\ clean kv.2) out.
Proof.
  intros Hk Hs Hl. revert out. induction shape as [|[k p] shape IH]; intros out; cbn [vs_fields]; [by intros [= <-]|].
  intros (v & Hv & (rest & Hr & [= <-])%bind_Some)%bind_Some.
  apply Forall_cons in Hk as [Hk0 Hk], Hs as [Hp Hs]. cbn [fst snd] in *. specialize (IH Hk Hs rest Hr).
  assert (Hc : clean v).
  { eapply (bh_harmless _ Hp); [|exact Hv]. destruct (jget k l) as [x|] eqn:Hx; [|done]. cbn. apply jget_elem in Hx.
    rewrite Forall_forall in Hl. by apply (Hl (k, x)). }
  destruct v; [destruct (jhas k l) eqn:Hh|..]; cbn [vs_put]; rewrite ?Hh; by repeat constructor.
Qed.

Lemma object_behaves shape : NoDup (map fst shape) -> Forall (fun f => key f.1 = false) shape ->
  Forall (fun f => behaves f.2) shape -> behaves (vs_object shape).
Proof.
  intros Hn Hk Hs. split.
  - intros [| | | | | |l|] w; cbn [vs_object]; try done. intros (out & Ho & ->)%fmap_Some. cbn [vs_object].
    by rewrite (fields_stable _ _ _ Hn Hs Ho).
  - intros [| | | | | |l|] w; cbn [vs_object]; try done. intros Hc%clean_obj (out & Ho & ->)%fmap_Some.
    apply clean_obj. by eapply fields_clean.
Qed.

Lemma strict_behaves shape : NoDup (map fst shape) -> Forall (fun f => key f.1 = false) shape ->
  Forall (fun f => behaves f.2) shape -> behaves (vs_strict shape).
Proof.
  intros Hn Hk Hs. destruct (object_behaves shape Hn Hk Hs) as [Hi Hh]. split.
  - intros [| | | | | |l|] w; cbn [vs_strict]; try done. destruct (forallb _ l); [|done]. intros Hw.
    pose proof (Hi _ _ Hw) as Hw'. cbn [vs_object] in Hw. apply fmap_Some in Hw as (out & Ho & ->).
    assert (Hall : forallb (fun kv : string * value => existsb (str_eqb kv.1) (map fst shape)) out = true); [|by cbn [vs_strict]; rewrite Hall].
    destruct (fields_lookup _ _ _ Ho Hn) as [Hsub _]. apply forallb_forall. intros kv Hin%list_elem_of_In.
    apply existsb_exists. exists kv.1. split; [|apply str_eqb_refl]. apply list_elem_of_In, Hsub, list_elem_of_fmap. by exists kv.
  - intros [| | | | | |l|] w Hc; cbn [vs_strict]; try done. destruct (forallb _ l); [|done]. by apply Hh.
Qed.

Lemma discriminated_behaves k os : Forall (fun o => NoDup (k :: map fst o.2)) os -> Forall (fun o => behaves (vs_option k o)) os ->
  behaves (vs_discriminated k os).
Proof.
  intros Hn Hs. assert (Hfind : forall s o, List.find (fun o => str_eqb o.1 s) os = Some o -> o.1 = s /\ o ∈ os).
  { intros s o [Hin He]%find_some. split; [by apply str_eqb_eq|]. by apply list_elem_of_In. }
  rewrite Forall_forall in Hn, Hs. split.
  - intros [| | | | | |l|] w; cbn [vs_discriminated]; try done. destruct (jget k l) as [[| | | |s| | |]|] eqn:Hk; try done.
    intros (o & Ho & Hw)%bind_Some. destruct (Hfind s o Ho) as [<- Hin]. pose proof (bh_stable _ (Hs o Hin) _ _ Hw) as Hw'.
    unfold vs_option, vs_strict in Hw. destruct (forallb _ l); [|done]. cbn [vs_object] in Hw. apply fmap_Some in Hw as (out & Hout & ->).
    destruct (fields_lookup _ _ _ Hout) as [_ Hall]; [exact (Hn o Hin)|].
    apply Forall_cons in Hall as [(v & Hv & Hg) _]. cbn [fst snd] in Hv, Hg. rewrite Hk in Hv. cbn in Hv. unfold found in Hg.
    rewrite str_eqb_refl in Hv. injection Hv as <-. cbn [vs_discriminated]. rewrite Hg, Ho. exact Hw'.
  - intros [| | | | | |l|] w Hc; cbn [vs_discriminated]; try done. destruct (jget k l) as [[| | | |s| | |]|]; try done.
    intros (o & Ho & Hw)%bind_Some. destruct (Hfind s o Ho) as [_ Hin]. by eapply (bh_harmless _ (Hs o Hin)).
Qed.
End behaviour.

(** ** Automation *)

(** A default is accepted by its schema: by computation, or because its text is
    as long as it may be. *)
Lemma string_accepts {zod : Zod} {laws : ZodLaws zod} lo hi s :
  (lo <=? N.of_nat (String.length s))%N && (N.of_nat (String.length s) <=? hi)%N = true -> vs_string lo hi (VStr s) = Some (VStr s).
Proof. intros [H1%N.leb_le H2%N.leb_le]%andb_true_iff. cbn. rewrite z_string_complete by lia. done. Qed.

(** The distinct names of a shape, and a schema by its outermost combinator. The
    database [schemas] has the lemmas of named schemas. *)
Create HintDb schemas.
#[export] Hint Resolve checks_behaves unknown_checks null_checks boolean_checks text_checks string_checks number_checks
  nullable_checks : schemas.

Ltac solve_names :=
  cbn [map fst snd];
  lazymatch goal with
  | |- Forall _ (_ :: _) => apply Forall_cons_2; [solve_names|solve_names]
  | |- Forall _ [] => apply Forall_nil_2
  | |- NoDup _ => apply (bool_decide_eq_true_1 _); vm_compute; reflexivity
  | |- _ = false => vm_compute; reflexivity
  end.

Ltac solve_checks := apply union_checks; repeat (apply Forall_cons_2; [solve [eauto with schemas]|]); apply Forall_nil_2.

Ltac solve_schema :=
  cbn [fst snd];
  lazymatch goal with
  | |- Forall _ (_ :: _) => apply Forall_cons_2; [solve_schema|solve_schema]
  | |- Forall _ [] => apply Forall_nil_2
  | |- behaves _ _ (vs_strict _) => apply strict_behaves; [solve_names|solve_names|solve_schema]
  | |- behaves _ _ (vs_object _) => apply object_behaves; [solve_names|solve_names|solve_schema]
  | |- behaves _ _ (vs_discriminated _ _) => apply discriminated_behaves; [solve_names|solve_schema]
  | |- behaves _ _ (vs_option _ _) => unfold vs_option; solve_schema
  | |- behaves _ _ (vs_array _ _ _) => apply array_behaves; solve_schema
  | |- behaves _ _ (vs_record _ _) => apply record_behaves; solve_schema
  | |- behaves _ _ (vs_optional _) => apply optional_behaves; solve_schema
  | |- behaves _ _ (vs_nullable _) => apply nullable_behaves; solve_schema
  | |- behaves _ _ (vs_default _ _) =>
      apply default_behaves; [reflexivity|first [reflexivity|apply string_accepts; reflexivity]|reflexivity|solve_schema]
  | |- behaves _ _ (vs_union _) => apply checks_behaves; solve_checks
  | |- _ => solve [eauto with schemas]
  end.

Section documents.
Context {zod : Zod} {laws : ZodLaws zod} (text key : string -> bool).

Lemma docId_behaves : behaves text key docIdSchema.
Proof. apply checks_behaves, text_checks. Qed.

Lemma fieldValue_behaves : behaves text key agentFieldValueSchema.
Proof using laws. unfold agentFieldValueSchema, vs_finite. solve_schema. Qed.
End documents.
#[export] Hint Resolve docId_behaves fieldValue_behaves : schemas.
#[export] Hint Unfold vs_enum vs_finite vs_count vs_positive : schemas.
