(* ===== verification/Components.v ===== *)
(** * The component registry

    src/web/operator-dashboard/src/spatial/interaction/component-registry.ts:
    the components a presentation may use, by identifier and version, with
    their variants, migrations and actions. The unions of the type that no code
    looks at are kept as their strings; a migration does not throw. *)

From stdpp Require Import relations.
From S2P Require Import Prelude.
From S2P Require Import Contracts.
From S2P Require Import Numbers.
From S2P Require Import Text.
From S2P Require Import Intent.
From S2P Require Import Schemas.

#[local] Open Scope Z_scope.

(** ** What metadata and payloads may not carry *)

Definition UNSAFE_TAG : matcher := in_order
  [eat (Ascii.eqb "<"); maybe (eat (Ascii.eqb "/"));
   first_of [word "script"; word "iframe"; word "object"; word "embed"; word "style"]; word_end].
Definition SCRIPT_URL : matcher := in_order [word "javascript"; many is_js_space; eat (Ascii.eqb ":")].

Definition unsafe_text (s : string) : bool := test UNSAFE_TAG s || test SCRIPT_URL s.

(** [/^pattern$/.test(s)], for a pattern without choices in what it consumes. *)
Definition whole (m : matcher) (s : string) : bool := bool_decide (m s = Some EmptyString).

(** [/^(?:on[a-z]+|__proto__|constructor|prototype)$/i]. *)
Definition unsafe_key (k : string) : bool :=
  whole (in_order [word "on"; at_least 1 is_alpha]) k || whole (word "__proto__") k || whole (word "constructor") k
  || whole (word "prototype") k.

(** [containsUnsafeValue(value) !== null]; the path is part of the message. *)
Definition containsUnsafeValue : value -> bool := scan unsafe_text unsafe_key.

(** ** Definitions *)

Inductive viewport : Type := MOBILE | TABLET | DESKTOP.
#[export] Instance viewport_eq_dec : EqDecision viewport.
Proof. solve_decision. Defined.

Inductive variant_name : Type := vn_compact | vn_summary | vn_detail | vn_config.
#[export] Instance variant_name_eq_dec : EqDecision variant_name.
Proof. solve_decision. Defined.

Inductive deprecation_state : Type := dp_active | dp_deprecated | dp_removed.
#[export] Instance deprecation_state_eq_dec : EqDecision deprecation_state.
Proof. solve_decision. Defined.

(** [SpatialComponentVariant]. *)
Record variant : Type := Variant {
  va_data : option schema;
  va_props : option schema;
  va_capabilities : option (list string);
  va_renderer : option string;
}.

(** [SpatialComponentMigration]. *)
Record migration : Type := Migration {
  from_version : string;
  to_version : string;
  migrate : value -> value;
}.

Record accessibility : Type := Accessibility {
  ac_role : string;
  name_required : bool;
  live_region : option string;
  keyboard_operable : bool;
}.

Record renderers : Type := Renderers {
  rn_classic : string;
  rn_spatial : string;
  rn_loading : string;
  rn_empty : string;
  rn_error : string;
}.

Record viewport_constraints : Type := ViewportConstraints {
  min_width : option jsnum;
  max_width : option jsnum;
  vc_allowed : option (list viewport);
}.

Record deprecation : Type := Deprecation {
  dp_state : deprecation_state;
  dp_replacement : option string;
  remove_after : option string;
}.

(** [SpatialComponentDefinition]. *)
Record component : Type := Component {
  component_id : string;
  version : string;
  props_schema : schema;
  data_schema : schema;
  supported_intents : list intent_kind;
  required_capabilities : list string;
  allowed_actions : list string;
  accessibility_contract : accessibility;
  material_profile : string;
  supported_viewports : list viewport;
  cp_renderers : renderers;
  category : option string;
  minimum_data_revision : option jsnum;
  mutation_intent_schema : option schema;
  capability_visibility : option (jsmap (list string));
  variants : option (list (variant_name * variant));
  stream_support : option string;
  virtualization : option (bool * option jsnum);
  cp_constraints : option viewport_constraints;
  feature_flag : option string;
  cp_deprecation : option deprecation;
  supported_states : option (list string);
  migrations : option (list migration);
  localization : option (string * option string);
  cp_provenance : option bool;
}.

(** The codes of [ComponentRegistryError], a [TypeError], and the fuel of the
    migration loop, which [migration_ends] proves sufficient. *)
Inductive component_error : Type :=
| UNKNOWN_COMPONENT | VERSION_MISMATCH | INVALID_PROPS | INVALID_DATA | UNSAFE_PAYLOAD | DUPLICATE_COMPONENT
| UNSUPPORTED_ACTION | UNSUPPORTED_VIEWPORT | DEPRECATED_COMPONENT | MISSING_CAPABILITY | MIGRATION_UNAVAILABLE
| CR_TYPE_ERROR | CR_FUEL.
#[export] Instance component_error_eq_dec : EqDecision component_error.
Proof. solve_decision. Defined.

(** The [records] of the registry. *)
Definition components : Type := jsmap component.

(** [id.trim().replace(/[A-Z]/g, c => `-${c.toLowerCase()}`).replace(/^-/, '')]. *)
Definition is_upper (c : ascii) : bool := let n := N_of_ascii c in bool_decide (65 <= n <= 90)%N.
Fixpoint kebab (s : string) : string :=
  match s with
  | EmptyString => EmptyString
  | String c s => if is_upper c then String "-" (String (ascii_lower c) (kebab s)) else String c (kebab s)
  end.
Definition normalizeComponentId (id : string) : string :=
  match kebab (trim id) with
  | String c s => if Ascii.eqb c "-" then s else String c s
  | EmptyString => EmptyString
  end.

Definition with_id (id : string) (d : component) : component :=
  Component id (version d) (props_schema d) (data_schema d) (supported_intents d) (required_capabilities d)
    (allowed_actions d) (accessibility_contract d) (material_profile d) (supported_viewports d) (cp_renderers d)
    (category d) (minimum_data_revision d) (mutation_intent_schema d) (capability_visibility d) (variants d)
    (stream_support d) (virtualization d) (cp_constraints d) (feature_flag d) (cp_deprecation d) (supported_states d)
    (migrations d) (localization d) (cp_provenance d).

(** ** The metadata that is scanned *)

Definition v_opt {A} (f : A -> value) (o : option A) : value := match o with Some a => f a | None => VUndefined end.
Definition v_strings (l : list string) : value := VArr (map VStr l).

Definition intent_name (k : intent_kind) : string :=
  match k with
  | k_message => "message" | k_interaction => "interaction" | k_command => "command" | k_change => "change"
  | k_presentation => "presentation"
  end.
Definition viewport_name (v : viewport) : string :=
  match v with MOBILE => "MOBILE" | TABLET => "TABLET" | DESKTOP => "DESKTOP" end.
Definition variant_key (v : variant_name) : string :=
  match v with vn_compact => "compact" | vn_summary => "summary" | vn_detail => "detail" | vn_config => "config" end.
Definition deprecation_name (s : deprecation_state) : string :=
  match s with dp_active => "active" | dp_deprecated => "deprecated" | dp_removed => "removed" end.

(** A variant without its schemas. *)
Definition variant_value (v : variant) : value :=
  VObj [("required_capabilities", v_opt v_strings (va_capabilities v)); ("renderer", v_opt VStr (va_renderer v))].

(** [{ ...metadata, variants, component_id }]. *)
Definition metadata (id : string) (d : component) : value :=
  let a := accessibility_contract d in
  let r := cp_renderers d in
  VObj
    [("version", VStr (version d)); ("supported_intents", v_strings (map intent_name (supported_intents d)));
     ("required_capabilities", v_strings (required_capabilities d)); ("allowed_actions", v_strings (allowed_actions d));
     ("accessibility_contract", VObj [("role", VStr (ac_role a)); ("name_required", VBool (name_required a));
        ("live_region", v_opt VStr (live_region a)); ("keyboard_operable", VBool (keyboard_operable a))]);
     ("material_profile", VStr (material_profile d));
     ("supported_viewports", v_strings (map viewport_name (supported_viewports d)));
     ("renderers", VObj [("classic", VStr (rn_classic r)); ("spatial", VStr (rn_spatial r)); ("loading", VStr (rn_loading r));
        ("empty", VStr (rn_empty r)); ("error", VStr (rn_error r))]);
     ("category", v_opt VStr (category d)); ("minimum_data_revision", v_opt VNum (minimum_data_revision d));
     ("capability_visibility", v_opt (fun m => VObj (map (fun kv => (kv.1, v_strings kv.2)) m)) (capability_visibility d));
     ("stream_support", v_opt VStr (stream_support d));
     ("virtualization", v_opt (fun v => VObj [("required", VBool v.1); ("item_budget", v_opt VNum v.2)]) (virtualization d));
     ("viewport_constraints", v_opt (fun c => VObj [("min_width", v_opt VNum (min_width c)); ("max_width", v_opt VNum (max_width c));
        ("allowed", v_opt (fun l => v_strings (map viewport_name l)) (vc_allowed c))]) (cp_constraints d));
     ("feature_flag", v_opt VStr (feature_flag d));
     ("deprecation", v_opt (fun c => VObj [("state", VStr (deprecation_name (dp_state c)));
        ("replacement", v_opt VStr (dp_replacement c)); ("remove_after", v_opt VStr (remove_after c))]) (cp_deprecation d));
     ("supported_states", v_opt v_strings (supported_states d));
     ("localization", v_opt (fun l => VObj [("label_key", VStr l.1); ("description_key", v_opt VStr l.2)]) (localization d));
     ("provenance", v_opt (fun b => VObj [("required", VBool b)]) (cp_provenance d));
     ("variants", v_opt (fun l => VObj (map (fun nv => (variant_key nv.1, variant_value nv.2)) l)) (variants d));
     ("component_id", VStr id)].

(** ** The registry *)

Definition record_key (id v : string) : string := id +:+ "@" +:+ v.

Definition register (d : component) : method components component_error component :=
  let id := normalizeComponentId (component_id d) in
  let key := record_key id (version d) in
  let! m := jread in
  jlift (require (negb (jhas key m)) DUPLICATE_COMPONENT) ;!
  jlift (require (negb (containsUnsafeValue (metadata id d))) UNSAFE_PAYLOAD) ;!
  jwrite (jset key (with_id id d) m) ;!
  jret (with_id id d).

(** The constructor. *)
Definition new_components (ds : list component) : components * result component_error unit :=
  jforeach (fun d => register d ;! jret tt) ds [].

Definition removed (d : component) : bool :=
  match cp_deprecation d with Some x => bool_decide (dp_state x = dp_removed) | None => false end.

Section registry.
Context {col : Collation}.

(** [compare(left, right) <= 0] of the candidates: the later version first. *)
Definition later_version (l r : component) : bool := bool_decide (localeCompare (version r) (version l) <= 0).

(** [resolve(componentId, version)]; an empty version is none. *)
Definition resolve (id : string) (v : option string) (m : components) : result component_error component :=
  let normalized := normalizeComponentId id in
  let candidates := map snd (filter (fun kv => String.prefix (normalized +:+ "@") kv.1 = true) m) in
  require (negb (bool_decide (candidates = []))) UNKNOWN_COMPONENT ;?
  if truthy v then
    let? exact := of_option (jget (record_key normalized (default "" v)) m) VERSION_MISMATCH in
    require (negb (removed exact)) DEPRECATED_COMPONENT ;?
    Ok exact
  else
    let? record := of_option (head (sort_by later_version candidates)) UNKNOWN_COMPONENT in
    require (negb (removed record)) DEPRECATED_COMPONENT ;?
    Ok record.

(** [resolveForViewport]: the record, and whether it is the fallback. *)
Definition resolveForViewport (id : string) (vp : viewport) (v : option string) (fallbackId : option string)
    (m : components) : result component_error (component * bool) :=
  let? record := resolve id v m in
  let allowed := default (supported_viewports record) (c ← cp_constraints record; vc_allowed c) in
  if bool_decide (vp ∈ allowed) then Ok (record, false)
  else
    let fallback := default "text-response" fallbackId in
    require (negb (str_eqb fallback "" || str_eqb fallback (component_id record))) UNSUPPORTED_VIEWPORT ;?
    let? r := resolve fallback None m in
    Ok (r, true).

(** Every required capability is granted. *)
Definition all_granted (required granted : list string) : bool := forallb (fun c => bool_decide (c ∈ granted)) required.

Definition variant_of (d : component) (n : variant_name) : option variant :=
  l ← variants d; snd <$> List.find (fun nv => bool_decide (nv.1 = n)) l.

Definition validateVariant (id : string) (v : option string) (n : variant_name) (data : value) (granted : list string)
    (m : components) : result component_error value :=
  let? record := resolve id v m in
  let? selected := of_option (variant_of record n) INVALID_DATA in
  require (all_granted (default [] (va_capabilities selected)) granted) MISSING_CAPABILITY ;?
  of_option (default (data_schema record) (va_data selected) data) INVALID_DATA.

Definition validateProps (id : string) (v : option string) (props : value) (m : components) : result component_error value :=
  let? record := resolve id v m in
  require (negb (containsUnsafeValue props)) UNSAFE_PAYLOAD ;?
  of_option (props_schema record props) INVALID_PROPS.

Definition validateData (id : string) (v : option string) (data : value) (m : components) : result component_error value :=
  let? record := resolve id v m in
  require (negb (containsUnsafeValue data)) UNSAFE_PAYLOAD ;?
  of_option (data_schema record data) INVALID_DATA.

(** The loop of [migrateData]. *)
Fixpoint migrate_loop (fuel : nat) (ms : list migration) (target : string) (visited : list string) (current : string)
    (data : value) : result component_error value :=
  match fuel with
  | O => Err CR_FUEL
  | S fuel =>
      if str_eqb current target then Ok data
      else if bool_decide (current ∈ visited) then Err MIGRATION_UNAVAILABLE
      else match List.find (fun g => str_eqb (from_version g) current) ms with
           | Some g => migrate_loop fuel ms target (current :: visited) (to_version g) (migrate g data)
           | None => Err MIGRATION_UNAVAILABLE
           end
  end.

(** One turn more than there are migrations. *)
Definition migrateData (id fromVersion toVersion : string) (data : value) (m : components) : result component_error value :=
  if str_eqb fromVersion toVersion then validateData id (Some toVersion) data m
  else
    let? record := resolve id (Some toVersion) m in
    let ms := default [] (migrations record) in
    let? data' := migrate_loop (S (length ms)) ms toVersion [] fromVersion data in
    validateData id (Some toVersion) data' m.

(** [record.capability_visibility?.[actionId] ?? record.required_capabilities]:
    what an action named like a member of [Object.prototype] finds has no
    [some]. *)
Definition action_capabilities (d : component) (action : string) : result component_error (list string) :=
  match capability_visibility d with
  | Some m => match jget action m with
              | Some l => Ok l
              | None => if bool_decide (action ∈ inherited) then Err CR_TYPE_ERROR else Ok (required_capabilities d)
              end
  | None => Ok (required_capabilities d)
  end.

Definition assertActionCapability (id : string) (v : option string) (action : string) (granted : list string)
    (m : components) : result component_error component :=
  let? record := resolve id v m in
  require (bool_decide (action ∈ allowed_actions record)) UNSUPPORTED_ACTION ;?
  let? required := action_capabilities record action in
  require (all_granted required granted) MISSING_CAPABILITY ;?
  Ok record.

(** [ComponentRegistryAction], with its operation. *)
Record component_action : Type := ComponentAction {
  ca_component : string;
  ca_version : string;
  ca_action : string;
  ca_targets : list string;
  ca_payload : list (string * value);
}.

(** The argument of [createActionIntent]. *)
Record action_input : Type := ActionInput {
  ai_component : string;
  ai_version : option string;
  ai_action : string;
  ai_targets : option (list string);
  ai_payload : option (list (string * value));
  ai_granted : option (list string);
}.

Definition createActionIntent (i : action_input) (m : components) : result component_error component_action :=
  let? record := assertActionCapability (ai_component i) (ai_version i) (ai_action i) (default [] (ai_granted i)) m in
  let payload := default [] (ai_payload i) in
  require (negb (containsUnsafeValue (VObj payload))) UNSAFE_PAYLOAD ;?
  Ok (ComponentAction (component_id record) (version record) (ai_action i) (default [] (ai_targets i)) payload).

Definition components_list (m : components) : list component := jvalues m.

Definition isSpatialIntentKindSupported (d : component) (k : intent_kind) : bool := bool_decide (k ∈ supported_intents d).
End registry.

(** ** The built-in components *)

Section builtin.
Context {zod : Zod}.

Definition texts (max len : N) : schema := vs_array 0 max (vs_string 0 len).

Definition emptyRecordSchema : schema := vs_default (VObj []) (vs_record (vs_key 1 128) vs_unknown).
Definition textResponseDataSchema : schema := vs_object
  [("text", vs_default (VStr "") (vs_string 0 32000)); ("citations", vs_default (VArr []) (texts 256 256))].
Definition conversationDataSchema : schema := vs_object
  [("session_id", vs_default (VStr "pending") vs_nonempty);
   ("turn_ids", vs_default (VArr []) (vs_array 0 10000 vs_nonempty));
   ("streaming", vs_default (VBool false) vs_boolean)].
Definition keyValueDataSchema : schema := vs_object
  [("entries", vs_default (VArr []) (vs_array 0 512 (vs_object [("key", vs_string 0 240); ("value", vs_string 0 4000)])))].
Definition statusDataSchema : schema := vs_object
  [("state", vs_default (VStr "UNKNOWN") (vs_string 0 96));
   ("label", vs_default (VStr "No status reported") (vs_string 0 240)); ("detail", vs_optional (vs_string 0 2000))].
Definition endpointDataSchema : schema := vs_object
  [("endpoint_ref", vs_default (VStr "pending") vs_nonempty);
   ("endpoint_type", vs_default (VStr "unknown") (vs_string 0 240)); ("status", vs_default (VStr "UNKNOWN") (vs_string 0 96));
   ("capabilities", vs_default (VArr []) (texts 128 128))].
Definition noticeDataSchema : schema := vs_object
  [("severity", vs_default (VStr "INFO") (vs_enum ["INFO"; "SUCCESS"; "WARNING"; "ERROR"]%string));
   ("message", vs_default (VStr "No operation notice") (vs_string 0 2000));
   ("action_ref", vs_optional (vs_nullable (vs_string 0 128)))].
Definition listDataSchema : schema := vs_object
  [("items", vs_default (VArr []) (vs_array 0 10000 (vs_record (vs_key 0 128) vs_unknown))); ("total", vs_optional vs_count)].
Definition feedbackDataSchema : schema := vs_object
  [("action_id", vs_string 0 128);
   ("state", vs_enum ["PROPOSED"; "NEEDS_CLARIFICATION"; "AWAITING_APPROVAL"; "EXECUTING"; "PARTIALLY_COMPLETED"; "COMPLETED";
                      "REJECTED"; "ROLLED_BACK"; "FINALITY_PENDING"]%string);
   ("summary", vs_string 0 2000); ("evidence_refs", vs_default (VArr []) (texts 256 256))].

(** [builtinDefinition], [live] being ['off'] by default. *)
Definition builtinDefinition (id : string) (data : schema) (material : string) (actions : list string) (role live : string)
  : component :=
  Component id "1.0.0" emptyRecordSchema data [k_message; k_interaction; k_command; k_change; k_presentation] [] actions
    (Accessibility role true (Some live) true) material [MOBILE; TABLET; DESKTOP]
    (Renderers id id (id +:+ ":loading") (id +:+ ":empty") (id +:+ ":error"))
    (Some (if str_eqb material "STATUS" then "status" else if str_eqb material "NOTICE" then "feedback" else "content")%string)
    None None None None (Some "none"%string) None None None None
    (Some ["loading"; "empty"; "ready"; "stale"; "offline"; "error"; "disabled"]%string) None None (Some true).

(** [{ ...definition, category }] and the other overrides. *)
Definition of_category (c : string) (d : component) : component :=
  Component (component_id d) (version d) (props_schema d) (data_schema d) (supported_intents d) (required_capabilities d)
    (allowed_actions d) (accessibility_contract d) (material_profile d) (supported_viewports d) (cp_renderers d)
    (Some c) (minimum_data_revision d) (mutation_intent_schema d) (capability_visibility d) (variants d)
    (stream_support d) (virtualization d) (cp_constraints d) (feature_flag d) (cp_deprecation d) (supported_states d)
    (migrations d) (localization d) (cp_provenance d).
Definition virtualized (budget : Z) (d : component) : component :=
  Component (component_id d) (version d) (props_schema d) (data_schema d) (supported_intents d) (required_capabilities d)
    (allowed_actions d) (accessibility_contract d) (material_profile d) (supported_viewports d) (cp_renderers d)
    (category d) (minimum_data_revision d) (mutation_intent_schema d) (capability_visibility d) (variants d)
    (stream_support d) (Some (true, Some (num budget))) (cp_constraints d) (feature_flag d) (cp_deprecation d)
    (supported_states d) (migrations d) (localization d) (cp_provenance d).
Definition with_variants (l : list (variant_name * variant)) (d : component) : component :=
  Component (component_id d) (version d) (props_schema d) (data_schema d) (supported_intents d) (required_capabilities d)
    (allowed_actions d) (accessibility_contract d) (material_profile d) (supported_viewports d) (cp_renderers d)
    (category d) (minimum_data_revision d) (mutation_intent_schema d) (capability_visibility d) (Some l)
    (stream_support d) (virtualization d) (cp_constraints d) (feature_flag d) (cp_deprecation d) (supported_states d)
    (migrations d) (localization d) (cp_provenance d).
Definition with_states (l : list string) (d : component) : component :=
  Component (component_id d) (version d) (props_schema d) (data_schema d) (supported_intents d) (required_capabilities d)
    (allowed_actions d) (accessibility_contract d) (material_profile d) (supported_viewports d) (cp_renderers d)
    (category d) (minimum_data_revision d) (mutation_intent_schema d) (capability_visibility d) (variants d)
    (stream_support d) (virtualization d) (cp_constraints d) (feature_flag d) (cp_deprecation d) (Some l)
    (migrations d) (localization d) (cp_provenance d).
Definition requiring (l : list string) (d : component) : component :=
  Component (component_id d) (version d) (props_schema d) (data_schema d) (supported_intents d) l
    (allowed_actions d) (accessibility_contract d) (material_profile d) (supported_viewports d) (cp_renderers d)
    (category d) (minimum_data_revision d) (mutation_intent_schema d) (capability_visibility d) (variants d)
    (stream_support d) (virtualization d) (cp_constraints d) (feature_flag d) (cp_deprecation d) (supported_states d)
    (migrations d) (localization d) (cp_provenance d).
Definition mutable_by (s : schema) (stream : string) (d : component) : component :=
  Component (component_id d) (version d) (props_schema d) (data_schema d) (supported_intents d) (required_capabilities d)
    (allowed_actions d) (accessibility_contract d) (material_profile d) (supported_viewports d) (cp_renderers d)
    (category d) (minimum_data_revision d) (Some s) (capability_visibility d) (variants d)
    (Some stream) (virtualization d) (cp_constraints d) (feature_flag d) (cp_deprecation d) (supported_states d)
    (migrations d) (localization d) (cp_provenance d).

Definition DEFAULT_SPATIAL_COMPONENTS : list component :=
  let def := builtinDefinition in
  let lists := listDataSchema in
  [mutable_by agentFormChangeSchema "replace" (of_category "configuration"
     (def "agent-document" agentDocumentSchema "GLASS" ["propose-change"; "close"] "region" "off"));
   def "text-response" textResponseDataSchema "TEXT" ["copy"; "open-source"] "article" "polite";
   def "conversation-surface" conversationDataSchema "GLASS" ["collapse"; "retry"; "cancel"; "branch"] "log" "polite";
   def "key-value-summary" keyValueDataSchema "TABLE" ["copy"] "table" "off";
   def "status-summary" statusDataSchema "STATUS" ["open-source"] "status" "off";
   def "endpoint-summary" endpointDataSchema "GLASS" ["open-endpoint"] "region" "off";
   def "operation-notice" noticeDataSchema "NOTICE" ["dismiss"; "retry"] "alert" "assertive";
   with_variants [(vn_compact, Variant (Some lists) None None None); (vn_detail, Variant (Some lists) None None None)]
     (virtualized 100 (of_category "topology" (def "endpoint-list" lists "TABLE" ["inspect"] "list" "off")));
   virtualized 50 (of_category "topology" (def "endpoint-comparison" lists "TABLE" ["inspect"] "table" "off"));
   of_category "resource" (def "node-resource-summary" lists "STATUS" ["inspect"] "region" "off");
   of_category "status" (def "agent-details" keyValueDataSchema "GLASS" ["inspect"] "region" "off");
   virtualized 100 (of_category "content" (def "session-list" lists "TABLE" ["inspect"] "list" "off"));
   of_category "feedback" (def "hook-delivery-summary" lists "TABLE" ["inspect"; "retry"] "region" "off");
   with_states ["loading"; "ready"; "error"; "approval-required"]
     (of_category "feedback" (def "action-feedback" feedbackDataSchema "NOTICE" ["dismiss"; "retry"] "status" "polite"));
   of_category "resource" (def "resource-balance" lists "STATUS" ["inspect"] "region" "off");
   of_category "resource" (def "resource-usage" lists "STATUS" ["inspect"] "region" "off");
   requiring ["resource:change"]
     (of_category "configuration" (def "resource-cost-editor" lists "GLASS" ["propose-change"] "form" "off"));
   of_category "resource" (def "resource-contribution-chart" lists "TABLE" ["inspect"] "figure" "off");
   virtualized 100 (of_category "resource" (def "settlement-history" lists "TABLE" ["inspect"] "region" "off"));
   of_category "resource" (def "deposit-status" statusDataSchema "STATUS" ["inspect"] "status" "off");
   of_category "resource" (def "usage-evidence" lists "TABLE" ["inspect"] "region" "off");
   of_category "resource" (def "dispute-status" statusDataSchema "STATUS" ["inspect"] "status" "off")].
End builtin.

(** One registration, returning or throwing. *)
Inductive components_step (m : components) : components -> Prop :=
| cs_register d m' r : register d m = (m', r) -> components_step m m'.
