(* ===== verification/ComponentsProps.v ===== *)
(** * Properties of the component registry

    The scan of unknown values, what a registry holds, which version it resolves,
    that migrations end, and when an action is granted. *)

From Stdlib Require Import Sorted.
From stdpp Require Import relations.
From S2P Require Import Prelude.
From S2P Require Import Contracts.
From S2P Require Import Numbers.
From S2P Require Import Text.
From S2P Require Import Intent.
From S2P Require Import Schemas.
From S2P Require Import Components.

#[local] Open Scope Z_scope.

(** ** The scan *)

(** A value with a text or a key that is tested positive, or with something that
    is no data, at any depth. *)
Inductive carries (text key : string -> bool) : value -> Prop :=
| carries_opaque : carries text key VOpaque
| carries_text s : text s = true -> carries text key (VStr s)
| carries_item l v : v ∈ l -> carries text key v -> carries text key (VArr l)
| carries_key l k v : (k, v) ∈ l -> key k = true -> carries text key (VObj l)
| carries_field l k v : (k, v) ∈ l -> carries text key v -> carries text key (VObj l).

Definition harmful : value -> Prop := carries unsafe_text unsafe_key.

Section value_ind.
Variable P : value -> Prop.
Hypothesis Hleaf : forall v, (forall l, v <> VArr l) -> (forall l, v <> VObj l) -> P v.
Hypothesis Harr : forall l, Forall P l -> P (VArr l).
Hypothesis Hobj : forall l, Forall (fun kv => P kv.2) l -> P (VObj l).

Fixpoint value_ind' (v : value) : P v.
Proof.
  refine (match v with
  | VArr l => Harr l ((fix go (l : list value) : Forall P l :=
                         match l with
                         | [] => Forall_nil_2 P
                         | x :: l => Forall_cons_2 P x l (value_ind' x) (go l)
                         end) l)
  | VObj l => Hobj l ((fix go (l : list (string * value)) : Forall (fun kv => P kv.2) l :=
                         match l with
                         | [] => Forall_nil_2 _
                         | kv :: l => Forall_cons_2 _ kv l (value_ind' kv.2) (go l)
                         end) l)
  | v => Hleaf v _ _
  end); done.
Defined.
End value_ind.

Lemma existsb_elem {A} (f : A -> bool) l : existsb f l = true <-> exists x, x ∈ l /\ f x = true.
Proof.
  rewrite existsb_exists. split; intros (x & Hx & Hf); exists x; (split; [|done]); by apply list_elem_of_In.
Qed.

Lemma scan_exact text key v : scan text key v = true <-> carries text key v.
Proof.
  induction v as [v Ha Ho|l IH|l IH] using value_ind'.
  - destruct v; cbn [scan]; try (split; [done | by inversion 1]); try (exfalso; by eapply Ha); try (exfalso; by eapply Ho).
    + split; [by constructor | by inversion 1].
    + split; [constructor | done].
  - cbn [scan]. rewrite Forall_forall in IH. rewrite existsb_elem. split.
    + intros (v & Hv & H). econstructor; [exact Hv | by apply IH].
    + inversion 1 as [| |l' v Hv Hh| |]; subst. exists v. split; [done | by apply IH].
  - cbn [scan]. rewrite Forall_forall in IH. rewrite existsb_elem. split.
    + intros ([k v] & Hv & [H|H]%orb_true_iff); [by apply (carries_key _ _ _ k v) | apply (carries_field _ _ _ k v); [exact Hv|]].
      by apply (IH (k, v)).
    + inversion 1 as [| | |l' k v Hv Hk|l' k v Hv Hh]; subst; exists (k, v); (split; [done|]); apply orb_true_iff; [by left|right].
      by apply (IH (k, v)).
Qed.

Lemma scan_false text key v : scan text key v = false <-> ~ carries text key v.
Proof. rewrite <-scan_exact. by destruct (scan text key v). Qed.

Lemma scan_clean v : containsUnsafeValue v = false <-> ~ harmful v.
Proof. apply scan_false. Qed.

(** ** What a registry holds *)

Definition filed (k : string) (d : component) : Prop :=
  k = record_key (component_id d) (version d) /\ (exists id, component_id d = normalizeComponentId id) /\
  ~ harmful (metadata (component_id d) d).

Lemma register_spec d m m' r : register d m = (m', r) ->
  (m' = m /\ exists e, r = Err e) \/
  let x := with_id (normalizeComponentId (component_id d)) d in
  let k := record_key (component_id x) (version x) in
  jget k m = None /\ m' = jset k x m /\ r = Ok x /\ filed k x.
Proof.
  unfold register, jbind, jread, jlift, jwrite, jret, require. set (id := normalizeComponentId _).
  destruct (jhas (record_key id (version d)) m) eqn:Hk; cbn [negb]; [intros [= <- <-]; left; eauto|].
  destruct (containsUnsafeValue (metadata id d)) eqn:Hs; cbn [negb]; [intros [= <- <-]; left; eauto|].
  intros [= <- <-]. right. unfold jhas in Hk. apply bool_decide_eq_false in Hk.
  split_and!; [by destruct (jget _ m); [destruct Hk|]|done|done|]. split; [done|]. split; [by eexists|].
  apply scan_clean in Hs. exact Hs.
Qed.

Lemma components_step_ok m m' : components_step m m' -> jall filed m ->
  jall filed m' /\ forall k d, jget k m = Some d -> jget k m' = Some d.
Proof.
  intros [d m1 r H] Hm. apply register_spec in H as [[-> _]|(Hnone & -> & _ & Hf)]; [done|].
  split; [by apply jall_jset|]. intros k x Hx. rewrite jget_jset_ne; [done|]. congruence.
Qed.

Lemma components_steps_ok m m' : rtc components_step m m' -> jall filed m ->
  jall filed m' /\ forall k d, jget k m = Some d -> jget k m' = Some d.
Proof.
  intros H. induction H as [|m1 m2 m3 Hs _ IH]; [done|]. intros Hm. destruct (components_step_ok _ _ Hs Hm) as [Hm2 H12].
  destruct (IH Hm2) as [Hm3 H23]. split; [done|]. auto.
Qed.

(** C24. A registered component is declarative and stays what it is: in every
    history of registrations, a record is filed under its own normalized
    identifier and version, no text of its metadata holds an executable tag or a
    script URL and no key of it names a handler or a prototype, at any depth, and
    later registrations neither replace nor remove it. *)
Theorem registered_components_are_safe m m' k d :
  rtc components_step [] m -> jget k m = Some d -> rtc components_step m m' ->
  jget k m' = Some d /\ k = record_key (component_id d) (version d) /\
  (exists id, component_id d = normalizeComponentId id) /\ ~ harmful (metadata (component_id d) d).
Proof.
  intros H0 Hk H. destruct (components_steps_ok _ _ H0) as [Hm _]; [by intros ? ?|].
  destruct (components_steps_ok _ _ H Hm) as [_ Hkeep]. split; [by apply Hkeep|]. exact (Hm _ _ Hk).
Qed.

(** ** Resolution *)

Section resolution.
Context {col : Collation}.

Definition named (id : string) (m : components) : list component :=
  map snd (filter (fun kv => String.prefix (normalizeComponentId id +:+ "@") kv.1 = true) m).

(** What a resolution returns, in each case. *)
Lemma resolve_spec (cl : CollationLaws col) id v m d : resolve id v m = Ok d ->
  removed d = false /\
  (if truthy v then jget (record_key (normalizeComponentId id) (default "" v)) m = Some d
   else d ∈ named id m /\ forall x, x ∈ named id m -> localeCompare (version x) (version d) <= 0).
Proof.
  unfold resolve. fold (named id m). intros H. inv_ok.
  destruct (truthy v); inv_ok; subst; (split; [by apply negb_true_iff|]); [done|].
  match goal with H : head _ = Some d |- _ => rename H into Hd end.
  assert (Hs : StronglySorted (fun a b => later_version a b = true) (sort_by later_version (named id m))).
  { apply sort_by_sorted; unfold later_version.
    - intros a b Hf%bool_decide_eq_false. apply bool_decide_eq_true. destruct (collation_total (version a) (version b)); done.
    - intros a b c Hab%bool_decide_eq_true Hbc%bool_decide_eq_true. apply bool_decide_eq_true. by eapply collation_trans. }
  pose proof (sort_by_perm later_version (named id m)) as Hp. destruct (sort_by _ _) as [|y l]; [done|]. injection Hd as ->.
  split; [rewrite <-Hp; left|]. intros x. rewrite <-Hp. intros [->|Hx]%elem_of_cons.
  - destruct (collation_total (version d) (version d)); done.
  - apply StronglySorted_inv in Hs as [_ Hf]. rewrite Forall_forall in Hf. by apply Hf, bool_decide_eq_true in Hx.
Qed.

(** ** Migrations *)

(** The migrations taken from one version to another, each the first one of its
    version. *)
Inductive route (ms : list migration) (target : string) : string -> list migration -> Prop :=
| route_end : route ms target target []
| route_step g gs :
    List.find (fun x => str_eqb (from_version x) (from_version g)) ms = Some g -> route ms target (to_version g) gs ->
    route ms target (from_version g) (g :: gs).

Lemma find_migration ms current g : List.find (fun x => str_eqb (from_version x) current) ms = Some g ->
  g ∈ ms /\ from_version g = current.
Proof. intros [H1 H2]%find_some. split; [by apply list_elem_of_In | by apply str_eqb_eq]. Qed.

Lemma migrate_loop_ends fuel ms target visited current data :
  NoDup visited -> visited ⊆ map from_version ms -> (length ms < fuel + length visited)%nat ->
  migrate_loop fuel ms target visited current data <> Err CR_FUEL /\
  forall out, migrate_loop fuel ms target visited current data = Ok out ->
    exists gs, route ms target current gs /\ NoDup (map from_version gs) /\ (forall x, x ∈ map from_version gs -> x ∉ visited) /\
      out = foldl (fun x g => migrate g x) data gs.
Proof.
  revert visited current data. induction fuel as [|fuel IH]; intros visited current data Hn Hsub Hfuel.
  { pose proof (NoDup_submseteq _ _ Hn Hsub) as Hl%submseteq_length. rewrite length_map in Hl. lia. }
  cbn [migrate_loop]. destruct (str_eqb current target) eqn:Ht.
  { apply str_eqb_eq in Ht as ->. split; [done|]. intros out [= <-]. exists []. split_and!; [constructor|constructor|by intros ? ?%not_elem_of_nil|done]. }
  case_bool_decide as Hv; [done|]. destruct (List.find _ ms) as [g|] eqn:Hg; [|done].
  pose proof (find_migration _ _ _ Hg) as [Hin Hfrom].
  destruct (IH (current :: visited) (to_version g) (migrate g data)) as [Hne Hok].
  - by constructor.
  - intros x [->|Hx]%elem_of_cons; [|by apply Hsub]. apply list_elem_of_fmap. by exists g.
  - cbn. lia.
  - split; [done|]. intros out Hout. destruct (Hok out Hout) as (gs & Hr & Hnd & Hnot & ->). exists (g :: gs). split_and!.
    + rewrite <-Hfrom. apply route_step; [by rewrite Hfrom | done].
    + cbn [map]. constructor; [|done]. rewrite Hfrom. intros Hx. apply (Hnot _ Hx). left.
    + intros x [->|Hx]%elem_of_cons; [by rewrite Hfrom|]. intros Hxv. apply (Hnot _ Hx). by right.
    + done.
Qed.

Lemma resolve_no_fuel id v m : resolve id v m <> Err CR_FUEL.
Proof.
  unfold resolve. destruct (negb _); cbn [require rbind]; [|done]. destruct (truthy v).
  - destruct (jget _ m) as [d|]; cbn; [|done]. by destruct (removed d).
  - destruct (head _) as [d|]; cbn; [|done]. by destruct (removed d).
Qed.

(** C25. A migration ends: whatever the declared migrations, with their cycles,
    missing and repeated versions, the loop stops within one turn more than there
    are migrations; and data it returns went through a route of declared
    migrations from the first version to the last, none of them twice, is clean
    when it arrives, and parses under the schema of the component. *)
Theorem migration_ends id fromVersion toVersion data m :
  migrateData id fromVersion toVersion data m <> Err CR_FUEL /\
  forall out, migrateData id fromVersion toVersion data m = Ok out ->
    exists record gs, resolve id (Some toVersion) m = Ok record /\
      route (default [] (migrations record)) toVersion fromVersion gs /\ NoDup (map from_version gs) /\
      let data' := foldl (fun x g => migrate g x) data gs in ~ harmful data' /\ data_schema record data' = Some out.
Proof.
  assert (Hval : forall x, validateData id (Some toVersion) x m <> Err CR_FUEL).
  { intros x. unfold validateData. destruct (resolve id (Some toVersion) m) as [d|e] eqn:Hr; cbn.
    - destruct (containsUnsafeValue x); cbn; [done|]. by destruct (data_schema d x).
    - intros [= ->]. by apply resolve_no_fuel in Hr. }
  assert (Hspec : forall x out, validateData id (Some toVersion) x m = Ok out -> exists record,
    resolve id (Some toVersion) m = Ok record /\ ~ harmful x /\ data_schema record x = Some out).
  { intros x out. unfold validateData. intros H. inv_ok. subst. eexists. split; [done|]. split; [|done].
    by apply scan_clean, negb_true_iff. }
  unfold migrateData. destruct (str_eqb fromVersion toVersion) eqn:Hft.
  { split; [apply Hval|]. apply str_eqb_eq in Hft as ->. intros out (record & Hr & Hh & Hd)%Hspec. exists record, [].
    split_and!; [done|constructor|constructor|done|done]. }
  destruct (resolve id (Some toVersion) m) as [record|e] eqn:Hr; cbn [rbind].
  2:{ split; [|done]. intros [= ->]. apply (Hval VNull). unfold validateData. by rewrite Hr. }
  set (ms := default [] (migrations record)).
  destruct (migrate_loop_ends (S (length ms)) ms toVersion [] fromVersion data) as [Hne Hok]; [constructor|set_solver|cbn; lia|].
  destruct (migrate_loop _ _ _ _ _ _) as [data'|e]; cbn [rbind].
  2:{ split; [|done]. intros [= ->]. done. }
  split; [apply Hval|]. intros out (record' & Hr' & Hh & Hd)%Hspec. destruct (Hok data' eq_refl) as (gs & Hg & Hn & _ & ->).
  exists record, gs. injection Hr' as <-. split_and!; done.
Qed.

(** ** Actions *)

(** An action intent is created exactly when it should be: the component
    resolves, declares the action, every capability the action needs, or the
    component when it says nothing of the action, is granted, and the payload
    carries nothing executable; the intent then names the component and version
    that were resolved, the action, the targets and the payload as given. *)
Theorem action_intent_exact i m a :
  createActionIntent i m = Ok a <->
  exists record required,
    resolve (ai_component i) (ai_version i) m = Ok record /\ ai_action i ∈ allowed_actions record /\
    action_capabilities record (ai_action i) = Ok required /\
    (forall c, c ∈ required -> c ∈ default [] (ai_granted i)) /\
    ~ harmful (VObj (default [] (ai_payload i))) /\
    a = ComponentAction (component_id record) (version record) (ai_action i) (default [] (ai_targets i)) (default [] (ai_payload i)).
Proof.
  assert (Hall : forall required granted, all_granted required granted = true <-> forall c, c ∈ required -> c ∈ granted).
  { intros required granted. unfold all_granted. rewrite forallb_forall. split.
    - intros H c Hc. apply list_elem_of_In, H, bool_decide_eq_true in Hc. done.
    - intros H c Hc. apply bool_decide_eq_true. apply H. by apply list_elem_of_In. }
  unfold createActionIntent, assertActionCapability. split.
  - intros H. inv_ok. subst. eexists. eexists. split; [done|]. split; [by eapply bool_decide_eq_true|]. split; [done|].
    split; [by apply Hall|]. split; [by apply scan_clean, negb_true_iff | done].
  - intros (record & required & -> & Ha & Hreq & Hg & Hs & ->). cbn [rbind]. rewrite bool_decide_eq_true_2 by done. cbn [require rbind].
    rewrite Hreq. cbn [rbind]. apply Hall in Hg as ->. cbn [require rbind]. apply scan_clean in Hs as ->. done.
Qed.
End resolution.

(** ** The built-in components *)

Section builtin.
Context {zod : Zod} {laws : ZodLaws zod} {col : Collation}.

Notation stable := (behaves unsafe_text unsafe_key).

Lemma builtin_schemas_stable : Forall stable
  [agentDocumentSchema; textResponseDataSchema; conversationDataSchema; keyValueDataSchema; statusDataSchema; endpointDataSchema;
   noticeDataSchema; listDataSchema; feedbackDataSchema].
Proof using laws.
  unfold agentDocumentSchema, agentDocumentFieldSchema, textResponseDataSchema, conversationDataSchema, keyValueDataSchema,
    statusDataSchema, endpointDataSchema, noticeDataSchema, listDataSchema, feedbackDataSchema, texts. solve_schema.
Qed.

Lemma emptyRecord_stable : stable emptyRecordSchema.
Proof. unfold emptyRecordSchema. solve_schema. Qed.

(** Every built-in component has one of these schemas for its data. *)
Lemma default_data_schemas : Forall (fun d => stable (data_schema d)) DEFAULT_SPATIAL_COMPONENTS.
Proof using laws.
  pose proof builtin_schemas_stable as H. repeat (apply Forall_cons in H as [? H]). repeat (apply Forall_cons_2; [assumption|]). apply Forall_nil_2.
Qed.

(** What holds of the components of a registry holds of what it resolves. *)
Lemma new_components_keep (P : component -> Prop) ds m r :
  Forall P ds -> (forall d id, P d -> P (with_id id d)) -> new_components ds = (m, r) ->
  NoDup (jkeys m) /\ jall (fun _ d => P d) m.
Proof.
  intros Hds Hid. apply (jforeach_preserves (fun m => NoDup (jkeys m) /\ jall (fun _ d => P d) m)); [|by split; [constructor|intros ? ?]].
  intros d m1 m2 r' Hd [Hn Hm] H. rewrite Forall_forall in Hds. unfold jbind, jret in H.
  destruct (register d m1) as [m3 [x|e]] eqn:Hr; injection H as <- <-;
    apply register_spec in Hr as [[-> _]|(_ & -> & _ & _)]; try done; (split; [by apply NoDup_jset|apply jall_jset; auto]).
Qed.

(** What a resolution returns is a record of the registry. *)
Lemma resolve_elem id v m d : resolve id v m = Ok d -> exists k, (k, d) ∈ m.
Proof.
  unfold resolve. intros H. inv_ok. destruct (truthy v); inv_ok; subst.
  - eexists. by eapply jget_elem.
  - match goal with H : head _ = Some d |- _ => rename H into Hd end.
    assert (Hin : d ∈ sort_by later_version (map snd (filter (fun kv => String.prefix (normalizeComponentId id +:+ "@") kv.1 = true) m))).
    { destruct (sort_by _ _) as [|x l]; [done|]. injection Hd as ->. left. }
    rewrite sort_by_perm in Hin. apply list_elem_of_fmap in Hin as ([k x] & -> & [_ Hin]%list_elem_of_filter). by exists k.
Qed.

(** Validated data is stable: what a built-in component made of its data,
    with the defaults of its schema and without what the schema strips, carries
    nothing executable and validates again to itself, so that parsing a validated
    document a second time changes nothing. *)
Theorem validated_data_is_stable id v data w :
  let m := (new_components DEFAULT_SPATIAL_COMPONENTS).1 in
  validateData id v data m = Ok w -> validateData id v w m = Ok w /\ ~ harmful w.
Proof using laws.
  intros m. destruct (new_components _) as [m' r] eqn:Hm in m. subst m. cbn [fst].
  apply (new_components_keep (fun d => stable (data_schema d))) in Hm; [|apply default_data_schemas|done].
  unfold validateData. intros H. destruct (resolve id v m') as [d|] eqn:Hd; [|done]. cbn [rbind] in *. inv_ok.
  match goal with H1 : negb _ = true |- _ => apply negb_true_iff in H1; rename H1 into Hs end.
  destruct (resolve_elem _ _ _ _ Hd) as [k Hk]. destruct Hm as [Hn Hm]. destruct (Hm k d) as [Hi Hh]; [by apply elem_jget|].
  match goal with H1 : data_schema d data = Some w |- _ => rename H1 into Hw end. pose proof (Hh _ _ Hs Hw) as Hc.
  split; [|by apply scan_clean]. cbn [rbind]. unfold containsUnsafeValue. rewrite Hc. cbn [negb require rbind].
  by rewrite (Hi _ _ Hw).
Qed.
End builtin.

(** The registry of the built-in components is built, and resolves each of them
    under its own identifier. *)
Theorem default_components_resolve {zod : Zod} :
  exists m, new_components DEFAULT_SPATIAL_COMPONENTS = (m, Ok tt) /\ length m = 22%nat /\
    Forall (fun d => resolve (col := code_compare) (component_id d) None m = Ok d) DEFAULT_SPATIAL_COMPONENTS.
Proof.
  unfold DEFAULT_SPATIAL_COMPONENTS, builtinDefinition.
  generalize emptyRecordSchema, agentFormChangeSchema, agentDocumentSchema, textResponseDataSchema, conversationDataSchema,
    keyValueDataSchema, statusDataSchema, endpointDataSchema, noticeDataSchema, listDataSchema, feedbackDataSchema. intros.
  eexists. split; [vm_compute; reflexivity|]. split; [done|]. repeat (constructor; [vm_compute; reflexivity|]). constructor.
Qed.

Module ComponentsWitness.
#[local] Existing Instance zod_ref.
#[local] Instance w_collation : Collation := code_compare.

Definition any : schema := Some.
Definition plain (id v : string) (ms : list migration) : component :=
  Component id v any any [k_message] ["read"] ["open"; "close"] (Accessibility "region" true None true) "GLASS" [DESKTOP]
    (Renderers id id id id id) None None None (Some [("close", ["write"])]) None None None None None None None (Some ms) None None.
Definition m0 : components := (register (plain "Card" "1.0.0" []) []).1.
Definition m1 : components := (register (plain "card" "1.0.0" []) m0).1.

Lemma registered_components_are_safe_witness :
  jget "card@1.0.0" m1 = Some (with_id "card" (plain "Card" "1.0.0" [])) /\
  ~ harmful (metadata "card" (plain "Card" "1.0.0" [])).
Proof.
  destruct (registered_components_are_safe m0 m1 "card@1.0.0" (with_id "card" (plain "Card" "1.0.0" []))) as (Hk & _ & _ & Hs).
  - apply rtc_once. exact (cs_register _ (plain "Card" "1.0.0" []) _ _ (surjective_pairing _)).
  - reflexivity.
  - apply rtc_once. exact (cs_register _ (plain "card" "1.0.0" []) _ _ (surjective_pairing _)).
  - exact (conj Hk Hs).
Defined.

Definition builtin : components := (new_components DEFAULT_SPATIAL_COMPONENTS).1.
Definition reply : value := VObj [("text", VStr "hello"); ("extra", VNum (num 1))].
Definition reply' : value := VObj [("text", VStr "hello"); ("citations", VArr [])].
Lemma validated_data_is_stable_witness :
  validateData "text-response" None reply builtin = Ok reply' /\ validateData "text-response" None reply' builtin = Ok reply'.
Proof.
  assert (H : validateData "text-response" None reply builtin = Ok reply') by (vm_compute; reflexivity).
  split; [exact H|]. exact (proj1 (validated_data_is_stable (laws := zod_ref_laws) "text-response" None reply reply' H)).
Defined.

(** Two migrations in a row, and a cycle that is noticed. *)
Definition step (a b : string) : migration := Migration a b (fun v => VArr [v]).
Definition migrating (ms : list migration) : components := (register (plain "card" "3" ms) []).1.
Example migrations :
  migrateData "card" "1" "3" VNull (migrating [step "1" "2"; step "2" "3"]) = Ok (VArr [VArr [VNull]]) /\
  migrateData "card" "1" "3" VNull (migrating [step "1" "2"; step "2" "1"]) = Err MIGRATION_UNAVAILABLE /\
  migrateData "card" "0" "3" VNull (migrating [step "1" "2"]) = Err MIGRATION_UNAVAILABLE.
Proof. vm_compute. done. Qed.

Example actions :
  is_ok (createActionIntent (ActionInput "card" None "open" None None (Some ["read"%string])) m1) = true /\
  createActionIntent (ActionInput "card" None "close" None None (Some ["read"%string])) m1 = Err MISSING_CAPABILITY /\
  createActionIntent (ActionInput "card" None "drop" None None None) m1 = Err UNSUPPORTED_ACTION /\
  createActionIntent (ActionInput "card" None "open" None (Some [("onClick", VNull)]) (Some ["read"%string])) m1 = Err UNSAFE_PAYLOAD.
Proof. vm_compute. done. Qed.

(** Versions are compared as texts: 1.9.0 is taken to be later than 1.10.0. *)
Theorem versions_compare_as_texts :
  let m := (register (plain "card" "1.10.0" []) (register (plain "card" "1.9.0" []) []).1).1 in
  match resolve "card" None m with Ok d => version d = "1.9.0"%string | Err _ => False end.
Proof. vm_compute. done. Qed.

(** An identifier that ends where another one's [@] is resolves to that other
    component. *)
Theorem at_sign_resolves_to_another :
  let m := (register (plain "card@mobile" "1" []) []).1 in
  match resolve "card" None m with Ok d => component_id d = "card@mobile"%string | Err _ => False end.
Proof. vm_compute. done. Qed.

(** Normalizing takes off one leading hyphen each time: what a record is called
    does not resolve to it. *)
Theorem normalized_id_does_not_resolve :
  let m := (register (plain "-Card" "1" []) []).1 in
  match resolve "-Card" None m with
  | Ok d => component_id d = "-card"%string /\ resolve (component_id d) None m = Err UNKNOWN_COMPONENT
  | Err _ => False
  end.
Proof. vm_compute. done. Qed.

(** The data of a variant is not scanned. *)
Theorem variant_data_is_not_scanned :
  let m := (register (with_variants [(vn_compact, Variant None None None None)] (plain "card" "1" [])) []).1 in
  let data := VStr "<script>alert(1)</script>" in
  validateData "card" None data m = Err UNSAFE_PAYLOAD /\ validateVariant "card" None vn_compact data [] m = Ok data.
Proof. vm_compute. done. Qed.

(** The fallback for a viewport is not asked whether it supports it. *)
Theorem fallback_ignores_the_viewport :
  let m := (register (plain "text-response" "1" []) m1).1 in
  match resolveForViewport "card" MOBILE None None m with
  | Ok (d, fallback) => fallback = true /\ supported_viewports d = [DESKTOP]
  | Err _ => False
  end.
Proof. vm_compute. done. Qed.
End ComponentsWitness.
