(* ===== verification/Planner.v ===== *)
(** * The presentation planner

    src/web/operator-dashboard/src/spatial/interaction/presentation-planner.ts:
    from a presentation intent and the facts of a result to a registered
    component, within a bound on the components shown. The registry is shared;
    [fresh] is what the id factory returns when it is called. *)

From Stdlib Require Import QArith.
From stdpp Require Import relations.
From S2P Require Import Prelude.
From S2P Require Import Json.
From S2P Require Import Contracts.
From S2P Require Import Numbers.
From S2P Require Import Text.
From S2P Require Import Intent.
From S2P Require Import Status.
From S2P Require Import Schemas.
From S2P Require Import Components.

#[local] Open Scope Z_scope.

(** ** Data *)

Inductive density : Type := COMPACT | COMFORTABLE | IMMERSIVE.
#[export] Instance density_eq_dec : EqDecision density.
Proof. solve_decision. Defined.

Inductive lifetime : Type := LT_SESSION | LT_TURN | LT_WORKSPACE.
#[export] Instance lifetime_eq_dec : EqDecision lifetime.
Proof. solve_decision. Defined.

Inductive presentation_status : Type := PS_ACCEPTED | PS_REJECTED.
#[export] Instance presentation_status_eq_dec : EqDecision presentation_status.
Proof. solve_decision. Defined.

Inductive detail : Type := summary | full_detail.
#[export] Instance detail_eq_dec : EqDecision detail.
Proof. solve_decision. Defined.

(** [presentationViewportSchema]. *)
Record presentation_viewport : Type := PresentationViewport {
  pv_width : jsnum;
  pv_height : jsnum;
  pv_density : density;
  pv_device : viewport;
}.

(** [SpatialPresentationIntent]. *)
Record presentation_intent : Type := PresentationIntent {
  pi_presentation : string;
  pi_workspace : string;
  pi_node : string;
  pi_session : option string;
  pi_turn : option string;
  pi_revision : Z;
  pi_targets : list string;
  pi_importance : jsnum;
  focus_ref : option string;
  pi_viewport : presentation_viewport;
  requested_component_id : option string;
  requested_component_version : option string;
  requested_presentation : list (string * value);
  pi_created : iso;
}.

(** [SpatialPresentationResult]. *)
Record presentation : Type := Presentation {
  presentation_id : string;
  ps_workspace : string;
  ps_node : string;
  ps_revision : Z;
  ps_status : presentation_status;
  ps_component : option string;
  ps_version : option string;
  ps_anchor : option string;
  ps_lifetime : lifetime;
  ps_density : density;
  ps_importance : jsnum;
  entity_refs : list string;
  ps_actions : list string;
  reuse_key : option string;
  ps_reason : option string;
  ps_created : iso;
}.
(** [PresentationPlannerInput]; [None] when the intent is not even an object of
    the contract's shape. *)
Record plan_input : Type := PlanInput {
  in_intent : option presentation_intent;
  in_result : value;
  in_data : value;
  in_stale : option (list string);
}.

(** [PresentationPlan]; [update] is [reuse]. *)
Record plan_output : Type := PlanOutput {
  po_result : presentation;
  po_component : string;
  po_version : string;
  reuse : bool;
  progressive_detail : detail;
  po_data : value;
}.

(** The codes of [PresentationPlannerError], an error of the registry, and a
    [RangeError]. *)
Inductive planner_error : Type :=
| INVALID_INTENT | PL_UNKNOWN_COMPONENT | PL_VERSION_MISMATCH | PL_STALE_TARGET | EXCESSIVE_COMPONENTS | UNSAFE_PRESENTATION
| WRONG_SCOPE | PL_REGISTRY (e : component_error) | PL_RANGE_ERROR.
#[export] Instance planner_error_eq_dec : EqDecision planner_error.
Proof. solve_decision. Defined.

(** The options, and the planner. *)
Record planner_options : Type := PlannerOptions {
  po_workspace : string;
  po_node : string;
  maxComponents : jsnum;
  maxDetailComponents : jsnum;
}.

Definition planner_options_of (ws node : string) (max max_detail : option jsnum) : planner_options :=
  PlannerOptions ws node (num_max (num 1) (default (num 32) max)) (num_max (num 1) (default (num 8) max_detail)).

Record planner : Type := Planner {
  pl_registry : components;
  activeByReuseKey : jsmap presentation;
  componentCount : Z;
}.

(** ** What a presentation may not carry *)

Definition EFFECT_TEXT : matcher :=
  in_order [first_of [word "shader"; word "css"; word "callback"]; many is_js_space; eat (Ascii.eqb ":")].

(** [/^(?:html|script|shader|css|callback|on[a-z]+)$/i]. *)
Definition effect_key (k : string) : bool :=
  existsb (fun w => whole (word w) k) ["html"; "script"; "shader"; "css"; "callback"]%string
  || whole (in_order [word "on"; at_least 1 is_alpha]) k.

(** [unsafePresentationValue(value) !== null]. *)
Definition unsafePresentationValue : value -> bool := scan (fun s => unsafe_text s || test EFFECT_TEXT s) effect_key.

(** ** The component and its data *)

Definition field (k : string) (v : value) : value :=
  match v with VObj l => default VUndefined (jget k l) | _ => VUndefined end.

Definition chooseComponent (i : presentation_intent) (r : value) : string :=
  if truthy (requested_component_id i) then default "" (requested_component_id i)
  else match field "component_id" r with
       | VStr s => s
       | _ => match field "kind" r with
              | VStr s => if str_eqb s "status" then "status-summary"
                          else if str_eqb s "endpoint" then "endpoint-summary" else "text-response"
              | _ => "text-response"
              end
       end.

Definition defaultData (id : string) : value :=
  if str_eqb id "text-response" then VObj [("text", VStr ""); ("citations", VArr [])]
  else if str_eqb id "conversation-surface" then
    VObj [("session_id", VStr "pending"); ("turn_ids", VArr []); ("streaming", VBool false)]
  else if str_eqb id "key-value-summary" then VObj [("entries", VArr [])]
  else if str_eqb id "status-summary" then VObj [("state", VStr "UNKNOWN"); ("label", VStr "No status reported")]
  else if str_eqb id "endpoint-summary" then
    VObj [("endpoint_ref", VStr "pending"); ("endpoint_type", VStr "unknown"); ("status", VStr "UNKNOWN"); ("capabilities", VArr [])]
  else if str_eqb id "operation-notice" then VObj [("severity", VStr "INFO"); ("message", VStr "No operation notice")]
  else VObj [].

(** [a ?? b]. *)
Definition nullish (a b : value) : value := match a with VUndefined | VNull => b | _ => a end.

(** [summarize(data)], and when a plan uses it. *)
Definition summarize (v : value) : value :=
  match v with VArr l => VArr (take 8 l) | VObj l => VObj (take 12 l) | _ => v end.
Definition is_object (v : value) : bool := match v with VArr _ | VObj _ => true | _ => false end.

Section planner.
Context {zod : Zod} {col : Collation} (opts : planner_options).

(** [z.number().int().positive().max(16_384)]. *)
Definition pixelsSchema (n : jsnum) : option jsnum := if num_lt (num 0) n then boundedIntSchema 16384 n else None.

Definition presentationViewportSchema (v : presentation_viewport) : option presentation_viewport :=
  w ← pixelsSchema (pv_width v);
  h ← pixelsSchema (pv_height v);
  Some (PresentationViewport w h (pv_density v) (pv_device v)).

Definition spatialPresentationIntentSchema (i : presentation_intent) : option presentation_intent :=
  id ← idSchema (pi_presentation i);
  ws ← idSchema (pi_workspace i);
  node ← idSchema (pi_node i);
  session ← nullable idSchema (pi_session i);
  turn ← nullable idSchema (pi_turn i);
  rev ← revisionSchema (pi_revision i);
  targets ← z_array idSchema 256 (pi_targets i);
  imp ← boundedSchema 1 (pi_importance i);
  focus ← nullable idSchema (focus_ref i);
  vp ← presentationViewportSchema (pi_viewport i);
  cid ← nullable idSchema (requested_component_id i);
  cv ← nullable (max_string 64) (requested_component_version i);
  req ← mapM (fun kv => k ← z_string 1 128 kv.1; Some (k, kv.2)) (requested_presentation i);
  t ← timestampSchema (pi_created i);
  Some (PresentationIntent id ws node session turn rev targets imp focus vp cid cv req t).

(** [sessionAnchorSchema] is the form of an identifier. *)
Definition spatialPresentationResultSchema (p : presentation) : option presentation :=
  id ← idSchema (presentation_id p);
  ws ← idSchema (ps_workspace p);
  node ← idSchema (ps_node p);
  rev ← revisionSchema (ps_revision p);
  cid ← nullable idSchema (ps_component p);
  cv ← nullable (max_string 64) (ps_version p);
  anchor ← nullable idSchema (ps_anchor p);
  imp ← boundedSchema 1 (ps_importance p);
  refs ← z_array idSchema 256 (entity_refs p);
  acts ← z_array idSchema 64 (ps_actions p);
  key ← nullable idSchema (reuse_key p);
  reason ← nullable (max_string 256) (ps_reason p);
  t ← timestampSchema (ps_created p);
  Some (Presentation id ws node rev (ps_status p) cid cv anchor (ps_lifetime p) (ps_density p) imp refs acts key reason t).

(** [`${session ?? 'workspace'}:${component}:${focus}`]. *)
Definition reuseKey (i : presentation_intent) (component : string) : string :=
  let joined := String.concat "," (pi_targets i) in
  let focusKey := match focus_ref i with Some f => f | None => if str_eqb joined "" then "none" else joined end in
  default "workspace" (pi_session i) +:+ ":" +:+ component +:+ ":" +:+ focusKey.

(** The result a plan stores, new or the next revision of an [existing] one. *)
Definition candidate_result (i : presentation_intent) (c : component) (existing : option presentation) (key fresh : string)
    (t : iso) : presentation :=
  Presentation (default fresh (presentation_id <$> existing)) (po_workspace opts) (po_node opts)
    (match existing with Some e => ps_revision e + 1 | None => 0 end) PS_ACCEPTED (Some (component_id c)) (Some (version c))
    (Some (match focus_ref i with Some f => f | None => default ("workspace:" +:+ po_workspace opts) (head (pi_targets i)) end))
    (if truthy (pi_session i) then LT_SESSION else LT_WORKSPACE)
    (if decide (pv_device (pi_viewport i) = MOBILE) then COMPACT else pv_density (pi_viewport i)) (pi_importance i)
    (pi_targets i) (allowed_actions c) (Some key) None t.

Definition detail_of (i : presentation_intent) (m : jsmap presentation) : detail :=
  let count := length (filter (fun p => ps_density p = IMMERSIVE) (jvalues m)) in
  if num_le (maxDetailComponents opts) (num (Z.of_nat count)) || num_lt (pi_importance i) (Finite (6 # 10)) then summary
  else full_detail.

(** The errors of [registry.resolve], as the planner reports them. *)
Definition resolved (r : result component_error component) : result planner_error component :=
  match r with Ok c => Ok c | Err VERSION_MISMATCH => Err PL_VERSION_MISMATCH | Err _ => Err PL_UNKNOWN_COMPONENT end.
Definition from_registry {A} (r : result component_error A) : result planner_error A :=
  match r with Ok a => Ok a | Err e => Err (PL_REGISTRY e) end.

Definition plan (input : plan_input) (fresh : string) (now : date) : method planner planner_error plan_output :=
  let! i := jlift (of_option (in_intent input ≫= spatialPresentationIntentSchema) INVALID_INTENT) in
  jlift (require (str_eqb (pi_workspace i) (po_workspace opts)) WRONG_SCOPE) ;!
  jlift (require (str_eqb (pi_node i) (po_node opts)) WRONG_SCOPE) ;!
  jlift (require (negb (existsb (fun ref => bool_decide (ref ∈ default [] (in_stale input))) (pi_targets i))) PL_STALE_TARGET) ;!
  jlift (require (negb (unsafePresentationValue (VObj (requested_presentation i)))) UNSAFE_PRESENTATION) ;!
  let! s := jread in
  let! c := jlift (resolved (resolve (chooseComponent i (in_result input)) (requested_component_version i) (pl_registry s))) in
  let data := nullish (in_data input) (nullish (in_result input) (defaultData (component_id c))) in
  let! validated := jlift (from_registry (validateData (component_id c) (Some (version c)) data (pl_registry s))) in
  let key := reuseKey i (component_id c) in
  let existing := jget key (activeByReuseKey s) in
  jlift (require (bool_decide (is_Some existing) || negb (num_le (maxComponents opts) (num (componentCount s)))) EXCESSIVE_COMPONENTS) ;!
  let d := detail_of i (activeByReuseKey s) in
  let! t := jlift (of_option now PL_RANGE_ERROR) in
  let! parsed := jlift (of_option (spatialPresentationResultSchema (candidate_result i c existing key fresh t)) INVALID_INTENT) in
  jwrite (Planner (pl_registry s) (jset key parsed (activeByReuseKey s))
            (if decide (is_Some existing) then componentCount s else componentCount s + 1)) ;!
  jret (PlanOutput parsed (component_id c) (version c) (bool_decide (is_Some existing)) d
          (if bool_decide (d = summary) && is_object data then summarize data else validated)).

Definition close (key : string) (s : planner) : planner :=
  if jhas key (activeByReuseKey s)
  then Planner (pl_registry s) (jdelete key (activeByReuseKey s)) (Z.max 0 (componentCount s - 1))
  else s.

Definition listActive (s : planner) : list presentation := jvalues (activeByReuseKey s).

Definition new_planner (registry : components) : planner := Planner registry [] 0.

(** One call of the planner, or a registration in the registry it shares. *)
Inductive planner_step (s : planner) : planner -> Prop :=
| pn_plan input fresh now s' r : plan input fresh now s = (s', r) -> planner_step s s'
| pn_close key : planner_step s (close key s)
| pn_register m : components_step (pl_registry s) m -> planner_step s (Planner m (activeByReuseKey s) (componentCount s)).
End planner.
