(* ===== verification/PlannerProps.v ===== *)
(** * Properties of the presentation planner

    The bound on what is shown, what a plan returns, and what the planner keeps
    filed. *)

From Stdlib Require Import QArith.
From stdpp Require Import relations.
From S2P Require Import Prelude.
From S2P Require Import Json.
From S2P Require Import Contracts.
From S2P Require Import Numbers.
From S2P Require Import Text.
From S2P Require Import Intent.
From S2P Require Import Status.
From S2P Require Import Schemas.
From S2P Require Import Components.
From S2P Require Import ComponentsProps.
From S2P Require Import Planner.

#[local] Open Scope Z_scope.

(** A requested presentation with something executable in it. *)
Definition executable : value -> Prop := carries (fun s => unsafe_text s || test EFFECT_TEXT s) effect_key.

Lemma jdelete_fresh {V} k (m : jsmap V) : k ∉ jkeys m -> jdelete k m = m.
Proof.
  induction m as [|[k' v] m IH]; cbn [jkeys map jdelete fst]; [done|]. intros [Hne Hm]%not_elem_of_cons.
  destruct (str_eqb k' k) eqn:He; [by apply str_eqb_eq in He|]. by rewrite (IH Hm).
Qed.

Lemma length_jdelete {V} k (m : jsmap V) : NoDup (jkeys m) -> jhas k m = true -> length m = S (length (jdelete k m)).
Proof.
  unfold jhas. intros Hn Hk%bool_decide_eq_true. revert Hn Hk. induction m as [|[k' v] m IH]; cbn [jkeys map jget jdelete fst]; [by intros _ [? ?]|].
  intros [Hnot Hn]%NoDup_cons Hk. destruct (str_eqb k' k) eqn:He.
  - apply str_eqb_eq in He as ->. by rewrite (jdelete_fresh _ _ Hnot).
  - cbn. f_equal. by apply IH.
Qed.

Section planner.
Context {zod : Zod} {laws : ZodLaws zod} {col : Collation} (opts : planner_options).

(** ** What a plan did *)

Lemma plan_inv input fresh now s s' r : plan opts input fresh now s = (s', r) ->
  (s' = s /\ exists e, r = Err e) \/
  exists i c t p,
    (in_intent input ≫= spatialPresentationIntentSchema) = Some i /\ now = Some t /\
    pi_workspace i = po_workspace opts /\ pi_node i = po_node opts /\
    (forall ref, ref ∈ pi_targets i -> ref ∉ default [] (in_stale input)) /\
    ~ executable (VObj (requested_presentation i)) /\
    resolve (chooseComponent i (in_result input)) (requested_component_version i) (pl_registry s) = Ok c /\
    let data := nullish (in_data input) (nullish (in_result input) (defaultData (component_id c))) in
    let key := reuseKey i (component_id c) in
    let existing := jget key (activeByReuseKey s) in
    (is_Some existing \/ num_le (maxComponents opts) (num (componentCount s)) = false) /\
    spatialPresentationResultSchema (candidate_result opts i c existing key fresh t) = Some p /\
    s' = Planner (pl_registry s) (jset key p (activeByReuseKey s))
           (if decide (is_Some existing) then componentCount s else componentCount s + 1) /\
    exists validated, validateData (component_id c) (Some (version c)) data (pl_registry s) = Ok validated /\
      r = Ok (PlanOutput p (component_id c) (version c) (bool_decide (is_Some existing)) (detail_of opts i (activeByReuseKey s))
                (if bool_decide (detail_of opts i (activeByReuseKey s) = summary) && is_object data then summarize data else validated)).
Proof using.
  unfold plan, jbind, jlift, jread, jwrite, jret. intros H.
  destruct (in_intent input ≫= _) as [i|]; cbn [of_option] in H; [|injection H as <- <-; left; by eauto].
  destruct (str_eqb (pi_workspace i) _) eqn:Hw; cbn [require] in H; [|injection H as <- <-; left; by eauto].
  destruct (str_eqb (pi_node i) _) eqn:Hn; cbn [require] in H; [|injection H as <- <-; left; by eauto].
  destruct (existsb _ (pi_targets i)) eqn:Hst; cbn [negb require] in H; [injection H as <- <-; left; by eauto|].
  destruct (unsafePresentationValue _) eqn:Hu; cbn [negb require] in H; [injection H as <- <-; left; by eauto|].
  destruct (resolve (chooseComponent i (in_result input)) (requested_component_version i) (pl_registry s)) as [c|e] eqn:Hr;
    [|destruct e; injection H as <- <-; left; by eauto]. cbn [resolved] in H.
  destruct (validateData _ _ _ _) as [v|e] eqn:Hv; cbn [from_registry] in H; [|injection H as <- <-; left; by eauto].
  destruct (require _ EXCESSIVE_COMPONENTS) as [[]|] eqn:Hb; [|injection H as <- <-; left; by eauto].
  destruct now as [t|]; cbn [of_option] in H; [|injection H as <- <-; left; by eauto].
  destruct (spatialPresentationResultSchema _) as [p|] eqn:Hp; cbn [of_option] in H; [|injection H as <- <-; left; by eauto].
  injection H as <- <-. right. exists i, c, t, p. split_and!; try done; [by apply str_eqb_eq|by apply str_eqb_eq| | | |].
  - intros ref Hin Hs. apply not_true_iff_false in Hst. apply Hst, existsb_elem. exists ref. split; [done|]. by apply bool_decide_eq_true.
  - by apply scan_false.
  - apply require_ok, orb_true_iff in Hb as [Hb%bool_decide_eq_true|Hb%negb_true_iff]; [by left|by right].
  - by exists v.
Qed.

Lemma nullable_id_trim o o' : nullable idSchema o = Some o' -> o' = trim <$> o.
Proof using laws. unfold nullable. destruct o as [x|]; cbn; [|by intros [= <-]]. by intros (y & [-> _]%idSchema_spec & ->)%fmap_Some. Qed.

(** What the contract keeps of a result. *)
Lemma presentation_fields x p : spatialPresentationResultSchema x = Some p ->
  presentation_id p = trim (presentation_id x) /\ ps_workspace p = trim (ps_workspace x) /\ ps_node p = trim (ps_node x) /\
  ps_revision p = ps_revision x /\ ps_component p = trim <$> ps_component x /\ entity_refs p = map trim (entity_refs x) /\
  ps_actions p = map trim (ps_actions x) /\ reuse_key p = trim <$> reuse_key x /\ ps_density p = ps_density x /\
  ps_lifetime p = ps_lifetime x.
Proof using laws.
  unfold spatialPresentationResultSchema, revisionSchema. intros H. inv_some.
  cbn [presentation_id ps_workspace ps_node ps_revision ps_component entity_refs ps_actions reuse_key ps_density ps_lifetime].
  repeat match goal with
  | H : idSchema _ = Some _ |- _ => apply idSchema_spec in H as [-> _]
  | H : nullable idSchema _ = Some _ |- _ => apply nullable_id_trim in H as ->
  | H : z_array idSchema _ _ = Some _ |- _ => apply z_array_ids in H as ->
  | H : z_nonneg _ = Some _ |- _ => apply z_nonneg_sound in H as [-> _]
  end. done.
Qed.

(** ** The bound *)

Definition filed_presentation (k : string) (p : presentation) : Prop :=
  reuse_key p = Some (trim k) /\ ps_workspace p = trim (po_workspace opts) /\ ps_node p = trim (po_node opts).

Record planner_ok (n : Z) (s : planner) : Prop := {
  ok_distinct : NoDup (jkeys (activeByReuseKey s));
  ok_count : componentCount s = Z.of_nat (length (activeByReuseKey s));
  ok_bound : componentCount s <= n;
  ok_filed : jall filed_presentation (activeByReuseKey s);
}.

Lemma planner_step_ok n s s' : maxComponents opts = num n -> planner_step opts s s' -> planner_ok n s -> planner_ok n s'.
Proof using laws.
  intros Hmax [input fresh now s1 r H|key|m Hm] [Hd Hc Hb Hf].
  - apply plan_inv in H as [[-> _]|(i & c & t & p & _ & _ & _ & _ & _ & _ & _ & H)]; [by split|]. cbv zeta in H.
    set (key := reuseKey i (component_id c)) in H. destruct H as (Hroom & Hp & -> & _).
    apply presentation_fields in Hp as (_ & Hw & Hn & _ & _ & _ & _ & Hk & _). cbn [reuse_key ps_workspace ps_node candidate_result] in Hk, Hw, Hn.
    assert (Hlen : length (jset key p (activeByReuseKey s)) = if decide (is_Some (jget key (activeByReuseKey s)))
              then length (activeByReuseKey s) else S (length (activeByReuseKey s))).
    { rewrite length_jset. unfold jhas. by destruct (decide _) as [He|He]; [rewrite bool_decide_eq_true_2|rewrite bool_decide_eq_false_2]. }
    split; cbn [activeByReuseKey componentCount].
    + by apply NoDup_jset.
    + rewrite Hlen. destruct (decide _); [done|]. lia.
    + destruct (decide _) as [He|He]; [done|]. destruct Hroom as [Hroom|Hroom]; [by destruct He|].
      rewrite Hmax, num_le_num in Hroom. apply bool_decide_eq_false in Hroom. lia.
    + apply jall_jset; [|done]. done.
  - unfold close. destruct (jhas key _) eqn:Hk; [|by split]. pose proof (length_jdelete _ _ Hd Hk) as Hlen.
    split; cbn [activeByReuseKey componentCount]; [by apply NoDup_jdelete|lia|lia|].
    intros k p. rewrite jget_jdelete. destruct (str_eqb key k); [done|]. apply Hf.
  - by split.
Qed.

Lemma planner_steps_ok n s s' : maxComponents opts = num n -> rtc (planner_step opts) s s' -> planner_ok n s -> planner_ok n s'.
Proof using laws. intros Hmax H. induction H as [|s1 s2 s3 Hs _ IH]; [done|]. intros Hok. by eapply IH, planner_step_ok. Qed.
End planner.

Section claims.
Context {zod : Zod} {laws : ZodLaws zod} {col : Collation}.

(** The planner keeps to its bound: over any plans, closings and
    registrations, refused ones included, no more presentations are active than
    the limit allows, at least one and the configured number; the count it
    decides by is their number, they are filed under distinct reuse keys, each
    under its own, and all of them are in the planner's scope. *)
Theorem planner_keeps_its_bound ws node n details registry s :
  rtc (planner_step (planner_options_of ws node (Some (num n)) details)) (new_planner registry) s ->
  Z.of_nat (length (listActive s)) <= Z.max 1 n /\ componentCount s = Z.of_nat (length (listActive s)) /\
  NoDup (jkeys (activeByReuseKey s)) /\
  forall k p, jget k (activeByReuseKey s) = Some p ->
    reuse_key p = Some (trim k) /\ ps_workspace p = trim ws /\ ps_node p = trim node.
Proof using laws.
  intros H. destruct (planner_steps_ok (planner_options_of ws node (Some (num n)) details) (Z.max 1 n) (new_planner registry) s) as [Hd Hc Hb Hf].
  - change (maxComponents _) with (if num_lt (num 1) (num n) then num n else num 1).
    rewrite num_lt_num. case_bool_decide; f_equal; lia.
  - done.
  - split; [constructor | done | cbn; lia | by intros ? ?].
  - unfold listActive, jvalues. rewrite length_map. split_and!; [lia|done|done|]. exact Hf.
Qed.

(** An excerpt carries nothing its source does not. *)
Lemma summarize_clean v : ~ harmful v -> ~ harmful (summarize v).
Proof.
  intros Hv Hs. apply Hv. destruct v; try exact Hs; inversion Hs; subst;
    match goal with H : _ ∈ take _ _ |- _ => apply subseteq_take in H end; econstructor; done.
Qed.

(** C26. What a plan shows. An accepted plan is for the scope of the planner,
    none of its targets is stale and nothing executable was requested; its
    component is the one the intent or the facts name, as the registry resolves
    it, with the actions of that component and no others; the given data has
    nothing at any depth that the scan of the registry finds, and what the plan
    shows is an excerpt of that data, which has nothing of the kind either, or
    what the component's schema makes of it, which has nothing of the kind with
    the registry of the built-in components; and it opens a new presentation at
    revision zero, or revises the active one of its reuse key. *)
Theorem plan_shows_registered_content opts input fresh now s s' out :
  plan opts input fresh now s = (s', Ok out) ->
  exists i c,
    (in_intent input ≫= spatialPresentationIntentSchema) = Some i /\
    pi_workspace i = po_workspace opts /\ pi_node i = po_node opts /\
    (forall ref, ref ∈ pi_targets i -> ref ∉ default [] (in_stale input)) /\
    ~ executable (VObj (requested_presentation i)) /\
    resolve (chooseComponent i (in_result input)) (requested_component_version i) (pl_registry s) = Ok c /\
    po_component out = component_id c /\ ps_actions (po_result out) = map trim (allowed_actions c) /\
    (pv_device (pi_viewport i) = MOBILE -> ps_density (po_result out) = COMPACT) /\
    (let data := nullish (in_data input) (nullish (in_result input) (defaultData (component_id c))) in
     ~ harmful data /\
     ((progressive_detail out = summary /\ is_object data = true /\ po_data out = summarize data /\ ~ harmful (po_data out)) \/
      exists record, resolve (component_id c) (Some (version c)) (pl_registry s) = Ok record /\ data_schema record data = Some (po_data out))) /\
    (pl_registry s = (new_components DEFAULT_SPATIAL_COMPONENTS).1 -> ~ harmful (po_data out)) /\
    (let key := reuseKey i (component_id c) in
     jget key (activeByReuseKey s') = Some (po_result out) /\
     match jget key (activeByReuseKey s) with
     | Some old => reuse out = true /\ ps_revision (po_result out) = ps_revision old + 1 /\
                   presentation_id (po_result out) = trim (presentation_id old)
     | None => reuse out = false /\ ps_revision (po_result out) = 0 /\ presentation_id (po_result out) = trim fresh
     end).
Proof using laws.
  intros [(_ & e & [=])|(i & c & t & p & Hi & _ & Hw & Hn & Hst & Hu & Hr & H)]%plan_inv. cbv zeta in H.
  destruct H as (_ & Hp & -> & v & Hv & [= ->]). exists i, c.
  apply presentation_fields in Hp as (Hid & _ & _ & Hrev & _ & _ & Ha & _ & Hden & _).
  cbn [presentation_id ps_revision ps_actions ps_density candidate_result] in Hid, Hrev, Ha, Hden.
  cbn [po_result po_component po_data progressive_detail reuse activeByReuseKey]. do 7 (split; [done|]). split; [done|]. split.
  { intros Hm. by rewrite Hden, decide_True. }
  pose proof Hv as Hv0. unfold validateData in Hv. inv_ok. subst.
  match goal with H : negb _ = true |- _ => apply negb_true_iff in H; rename H into Hscan end.
  match goal with H : data_schema ?x _ = Some v |- _ => rename H into Hschema; rename x into record end.
  pose proof (proj1 (scan_clean _) Hscan) as Hclean. split; [|split]; cbv zeta.
  - split; [done|]. destruct (bool_decide _) eqn:Hsum; cbn [andb]; [|right; by eexists].
    apply bool_decide_eq_true in Hsum. destruct (is_object _) eqn:Ho; [left; rewrite Hsum | right; by eexists].
    split_and!; [done..|by apply summarize_clean].
  - intros Hreg. destruct (_ && _); [by apply summarize_clean|]. rewrite Hreg in Hv0. by eapply validated_data_is_stable.
  - split; [apply jget_jset_eq|]. rewrite Hrev, Hid. destruct (jget (reuseKey _ _) _) as [old|]; cbn; done.
Qed.
End claims.

Module PlannerWitness.
#[local] Existing Instance zod_ref.
#[local] Instance w_collation : Collation := code_compare.

Definition components0 : components := (new_components DEFAULT_SPATIAL_COMPONENTS).1.
Definition opts : planner_options := planner_options_of "w" "n" (Some (num 1)) None.
Definition vp (d : viewport) : presentation_viewport := PresentationViewport (num 800) (num 600) IMMERSIVE d.
Definition an_intent (session : option string) (targets : list string) (importance : jsnum) : presentation_intent :=
  PresentationIntent "p" "w" "n" session None 0 targets importance None (vp DESKTOP) None None [] 5.
Definition ask (i : presentation_intent) (data : value) : plan_input := PlanInput (Some i) VUndefined data None.
Definition hello : value := VObj [("text", VStr "hello"); ("extra", VStr "kept?")].
Definition s0 : planner := new_planner components0.
Definition first : plan_input := ask (an_intent None ["a"%string] (num 1)) hello.
Definition s1 : planner := (plan opts first "id-1" (Some 7) s0).1.
Definition s2 : planner := (plan opts (ask (an_intent None ["b"%string] (num 1)) hello) "id-2" (Some 8) s1).1.

Lemma planner_keeps_its_bound_witness :
  Z.of_nat (length (listActive s2)) <= 1 /\ componentCount s2 = Z.of_nat (length (listActive s2)).
Proof.
  destruct (planner_keeps_its_bound (laws := zod_ref_laws) "w" "n" 1 None components0 s2) as (Hb & Hc & _).
  - apply (rtc_l _ s0 s1); [exact (pn_plan _ _ first "id-1" (Some 7) _ _ (surjective_pairing _))|].
    apply rtc_once. exact (pn_plan _ _ (ask (an_intent None ["b"%string] (num 1)) hello) "id-2" (Some 8) _ _ (surjective_pairing _)).
  - exact (conj Hb Hc).
Defined.

Definition shown : plan_output :=
  match (plan opts first "id-1" (Some 7) s0).2 with
  | Ok o => o
  | Err _ => PlanOutput (Presentation "" "" "" 0 PS_REJECTED None None None LT_TURN COMPACT NaN [] [] None None 0) "" "" false summary VNull
  end.

Lemma plan_shows_registered_content_witness :
  po_component shown = "text-response"%string /\ po_data shown = VObj [("text", VStr "hello"); ("citations", VArr [])] /\
  exists i c, resolve (chooseComponent i VUndefined) (requested_component_version i) components0 = Ok c /\
    po_component shown = component_id c /\ ps_actions (po_result shown) = map trim (allowed_actions c) /\
    ~ harmful (po_data shown).
Proof.
  split; [vm_compute; reflexivity|]. split; [vm_compute; reflexivity|].
  destruct (plan_shows_registered_content (laws := zod_ref_laws) opts first "id-1" (Some 7) s0 s1 shown)
    as (i & c & _ & _ & _ & _ & _ & Hr & Hc & Ha & _ & _ & Hb & _).
  - assert (H : (plan opts first "id-1" (Some 7) s0).2 = Ok shown) by (vm_compute; reflexivity).
    rewrite <-H. exact (surjective_pairing _).
  - exact (ex_intro _ i (ex_intro _ c (conj Hr (conj Hc (conj Ha (Hb eq_refl)))))).
Defined.

Example refusals :
  (plan opts (ask (an_intent None ["b"%string] (num 1)) hello) "id-2" (Some 8) s1).2 = Err EXCESSIVE_COMPONENTS /\
  (plan opts first "id-2" (Some 8) (close "workspace:text-response:a" s1)).2 <> Err EXCESSIVE_COMPONENTS /\
  (plan opts (PlanInput (Some (an_intent None ["a"%string] (num 1))) VUndefined hello (Some ["a"%string])) "x" (Some 8) s0).2
    = Err PL_STALE_TARGET /\
  (plan opts (ask (an_intent None ["a"%string] (num 1)) (VObj [("text", VStr "<SCRIPT>")])) "x" (Some 8) s0).2
    = Err (PL_REGISTRY UNSAFE_PAYLOAD).
Proof. vm_compute. done. Qed.

(** A summary is cut from the data as given, not from what the schema made of
    it: what the schema strips is shown as long as there is little room. *)
Theorem summary_shows_what_the_schema_strips :
  match (plan opts (ask (an_intent None ["a"%string] (Finite (1 # 2))) hello) "id-1" (Some 7) s0).2 with
  | Ok o => progressive_detail o = summary /\ po_data o = hello
  | Err _ => False
  end.
Proof. vm_compute. done. Qed.

(** The planner's own scan looks at the requested presentation only: what it
    refuses there is shown when it comes with the data. *)
Theorem data_escapes_the_planners_scan :
  let styled := VObj [("text", VStr "css:x"); ("script", VStr "run")] in
  unsafePresentationValue styled = true /\
  match (plan opts (ask (an_intent None ["a"%string] (Finite (1 # 2))) styled) "id-1" (Some 7) s0).2 with
  | Ok o => po_data o = styled
  | Err _ => False
  end.
Proof. vm_compute. done. Qed.

(** Reuse keys join references with commas: two targets and one target named like
    them share a presentation, and so do no session and a session called
    workspace. *)
Theorem reuse_keys_collide :
  let p i := (plan opts (ask i hello) "id-2" (Some 8) (plan opts (ask (an_intent None ["a"; "b"]%string (num 1)) hello) "id-1" (Some 7) s0).1).2 in
  match p (an_intent None ["a,b"%string] (num 1)), p (an_intent (Some "workspace"%string) ["a"; "b"]%string (num 1)) with
  | Ok x, Ok y => reuse x = true /\ presentation_id (po_result x) = "id-1"%string /\ reuse y = true
  | _, _ => False
  end.
Proof. vm_compute. done. Qed.
(** Without data of its own, a plan is filled in for every built-in component but
    the two whose schemas have a required field. *)
Theorem default_data_fits :
  map component_id (filter (fun d => data_schema d (defaultData (component_id d)) = None) DEFAULT_SPATIAL_COMPONENTS)
  = ["agent-document"; "action-feedback"]%string.
Proof. vm_compute. reflexivity. Qed.
End PlannerWitness.
