(* ===== verification/Conversation.v ===== *)
(** * The durable conversation

    src/web/operator-dashboard/src/spatial/interaction/conversation.ts: the
    exchanges an accepted intent opens, the turns they leave in the session
    graph, and the streamed responses. Turn and response texts are lists of
    UTF-16 code units, because the separator of streamed chunks is one unit.
    Turns and exchanges are mutated in place by one owner, so the model writes
    them back where the code mutates them. *)

From stdpp Require Import relations.
From S2P Require Import Prelude.
From S2P Require Import Json.
From S2P Require Import Contracts.
From S2P Require Import SessionGraph.
From S2P Require Import Intent.

#[local] Open Scope Z_scope.

(** ** Texts *)

(** UTF-16 code units. *)
Notation text := (list Z).

Definition units (s : string) : text := map (fun c => Z.of_N (N_of_ascii c)) (String.list_ascii_of_string s).

(** [STREAM_SEPARATOR]. *)
Definition SEP : Z := 9246.

(** White space of [\s] and [trim]. *)
Definition is_space_unit (c : Z) : bool :=
  (9 <=? c) && (c <=? 13) || bool_decide (c ∈ [32; 160; 5760; 8232; 8233; 8239; 8287; 12288; 65279])
  || (8192 <=? c) && (c <=? 8202).

Fixpoint trim_left (t : text) : text :=
  match t with
  | [] => []
  | c :: t' => if is_space_unit c then trim_left t' else t
  end.

Definition trim_text (t : text) : text := reverse (trim_left (reverse (trim_left t))).

(** What follows a match. *)
Definition unit_matcher : Type := text -> option text.

(** [/<\/?[^>]+>/]: the optional slash is one of the characters of the class, so
    a match is an angle bracket, one or more characters that do not close it,
    and the closing one. *)
Fixpoint until_close (t : text) : option text :=
  match t with
  | [] => None
  | c :: t => if c =? 62 then Some t else until_close t
  end.

Definition markup : unit_matcher := fun t =>
  match t with
  | 60 :: c :: t => if c =? 62 then None else until_close t
  | _ => None
  end.

Definition unit_lower (c : Z) : Z := if (65 <=? c) && (c <=? 90) then c + 32 else c.

Fixpoint unit_word (w t : text) : option text :=
  match w, t with
  | [], _ => Some t
  | d :: w, c :: t => if unit_lower c =? d then unit_word w t else None
  | _ :: _, [] => None
  end.

(** [/javascript\s*:/i]. *)
Definition script_scheme : unit_matcher := fun t =>
  r ← unit_word (units "javascript") t;
  match trim_left r with
  | 58 :: r => Some r
  | _ => None
  end.

(** [t.replace(m, '')] with a global pattern that consumes characters. *)
Fixpoint erase_go (m : unit_matcher) (n : nat) (t : text) : text :=
  match t with
  | [] => []
  | c :: t' =>
      match n with
      | S n => erase_go m n t'
      | O =>
          match m t with
          | Some rest => erase_go m (length t' - length rest) t'
          | None => c :: erase_go m 0 t'
          end
      end
  end.

Definition erase (m : unit_matcher) (t : text) : text := erase_go m 0 t.

Definition is_control (c : Z) : bool := (c <=? 8) || (c =? 11) || (c =? 12) || (14 <=? c) && (c <=? 31).

Definition safeChunk (value : text) (maxChars : Z) : text :=
  take (Z.to_nat maxChars) (filter (fun c => is_control c = false) (erase script_scheme (erase markup value))).

(** [t.split(STREAM_SEPARATOR).length] and [t.replaceAll(STREAM_SEPARATOR, '')]. *)
Definition pieces (t : text) : Z := 1 + Z.of_nat (length (filter (fun c => c = SEP) t)).
Definition joined (t : text) : text := filter (fun c => c <> SEP) t.

(** ** Data *)

Inductive turn_role : Type := operator | agent | system.
#[export] Instance turn_role_eq_dec : EqDecision turn_role.
Proof. solve_decision. Defined.

Inductive turn_state : Type := T_QUEUED | T_STREAMING | T_COMPLETED | T_FAILED | T_CANCELLED.
#[export] Instance turn_state_eq_dec : EqDecision turn_state.
Proof. solve_decision. Defined.

Inductive exchange_status : Type := X_QUEUED | X_STREAMING | X_COMPLETED | X_FAILED | X_CANCELLED | X_TIMED_OUT.
#[export] Instance exchange_status_eq_dec : EqDecision exchange_status.
Proof. solve_decision. Defined.

Inductive connection_state : Type := CONNECTED | DISCONNECTED | RECONNECTING.
#[export] Instance connection_state_eq_dec : EqDecision connection_state.
Proof. solve_decision. Defined.

(** [ConversationErrorCode]; the errors of the session graph and of the clock
    pass through. *)
Inductive conversation_error : Type :=
| EXCHANGE_NOT_FOUND | BINDING_REJECTED | CV_TIMEOUT | CV_CANCELLED | CV_DISCONNECTED | STREAM_LIMIT | INVALID_TURN
| CV_GRAPH (e : sg_error) | CV_RANGE_ERROR.
#[export] Instance conversation_error_eq_dec : EqDecision conversation_error.
Proof. solve_decision. Defined.

(** [conversationProvenanceSchema]. *)
Record turn_provenance : Type := TurnProvenance {
  tp_intent : option string;
  tp_correlation : option string;
  tp_binding : option string;
  tp_source : option string;
}.
#[export] Instance turn_provenance_eq_dec : EqDecision turn_provenance.
Proof. solve_decision. Defined.

(** [SpatialConversationTurn]. *)
Record turn : Type := Turn {
  turn_id : string;
  tn_session : string;
  tn_workspace : string;
  tn_node : string;
  tn_revision : Z;
  sequence : Z;
  tn_role : turn_role;
  tn_state : turn_state;
  tn_text : text;
  tn_intent : option string;
  tn_provenance : turn_provenance;
  citation_refs : list string;
  attachment_refs : list string;
  tn_created_at : iso;
  tn_updated_at : iso;
}.
#[export] Instance turn_eq_dec : EqDecision turn.
Proof. solve_decision. Defined.

(** [ConversationExchange]. *)
Record exchange : Type := Exchange {
  exchange_id : string;
  ex_session : string;
  correlation_id : string;
  ex_intent : string;
  operator_turn_id : string;
  response_turn_id : string;
  binding_id : option string;
  ex_status : exchange_status;
  response_text : text;
  attempt : Z;
  ex_created_at : iso;
  ex_updated_at : iso;
  error_code : option conversation_error;
}.
#[export] Instance exchange_eq_dec : EqDecision exchange.
Proof. solve_decision. Defined.

(** [DurableConversationOptions]; [co_id prefix n] is what the [n]-th call of
    [idFactory] returns. *)
Record conversation_options : Type := ConversationOptions {
  co_workspace : string;
  co_node : string;
  co_actor : string;
  co_id : string -> nat -> string;
  activeBinding : option (option string -> bool);
  co_max_chars : option Z;
  co_max_chunks : option Z;
}.

(** The service, with the session graph it shares. *)
Record conversation : Type := Conversation {
  cv_graph : graph;
  turns : jsmap turn;
  exchanges : jsmap exchange;
  queuedIntents : jsmap submission;
  connection : connection_state;
  cv_ids : nat;
}.

Definition set_graph (g : graph) (c : conversation) : conversation :=
  Conversation g (turns c) (exchanges c) (queuedIntents c) (connection c) (cv_ids c).
Definition set_turns (m : jsmap turn) (c : conversation) : conversation :=
  Conversation (cv_graph c) m (exchanges c) (queuedIntents c) (connection c) (cv_ids c).
Definition set_exchanges (m : jsmap exchange) (c : conversation) : conversation :=
  Conversation (cv_graph c) (turns c) m (queuedIntents c) (connection c) (cv_ids c).
Definition set_queued (m : jsmap submission) (c : conversation) : conversation :=
  Conversation (cv_graph c) (turns c) (exchanges c) m (connection c) (cv_ids c).
Definition setConnection (s : connection_state) (c : conversation) : conversation :=
  Conversation (cv_graph c) (turns c) (exchanges c) (queuedIntents c) s (cv_ids c).
Definition next_cv_id (c : conversation) : conversation :=
  Conversation (cv_graph c) (turns c) (exchanges c) (queuedIntents c) (connection c) (S (cv_ids c)).

Definition new_conversation (g : graph) : conversation := Conversation g [] [] [] CONNECTED 0.

Definition write_turn (k : string) (t : turn) (c : conversation) : conversation := set_turns (jset k t (turns c)) c.
Definition write_exchange (k : string) (e : exchange) (c : conversation) : conversation :=
  set_exchanges (jset k e (exchanges c)) c.

(** The fields the response handlers assign. *)
Definition with_status (s : exchange_status) (err : option conversation_error) (e : exchange) : exchange :=
  Exchange (exchange_id e) (ex_session e) (correlation_id e) (ex_intent e) (operator_turn_id e) (response_turn_id e)
    (binding_id e) s (response_text e) (attempt e) (ex_created_at e) (ex_updated_at e) err.
Definition with_response (t : text) (e : exchange) : exchange :=
  Exchange (exchange_id e) (ex_session e) (correlation_id e) (ex_intent e) (operator_turn_id e) (response_turn_id e)
    (binding_id e) (ex_status e) t (attempt e) (ex_created_at e) (ex_updated_at e) (error_code e).
Definition with_updated (t : iso) (e : exchange) : exchange :=
  Exchange (exchange_id e) (ex_session e) (correlation_id e) (ex_intent e) (operator_turn_id e) (response_turn_id e)
    (binding_id e) (ex_status e) (response_text e) (attempt e) (ex_created_at e) t (error_code e).
Definition with_turn (s : turn_state) (x : text) (t : iso) (n : turn) : turn :=
  Turn (turn_id n) (tn_session n) (tn_workspace n) (tn_node n) (tn_revision n + 1) (sequence n) (tn_role n) s x
    (tn_intent n) (tn_provenance n) (citation_refs n) (attachment_refs n) (tn_created_at n) t.

(** ** Contract *)

Section contract.
Context {zod : Zod}.

(** [z.preprocess(normalizeString, z.string().max(32_000))]. *)
Definition turnTextSchema (t : text) : option text :=
  let t := trim_text t in if Z.of_nat (length t) <=? 32000 then Some t else None.

Definition conversationProvenanceSchema (p : turn_provenance) : option turn_provenance :=
  i ← nullable idSchema (tp_intent p);
  c ← nullable idSchema (tp_correlation p);
  b ← nullable idSchema (tp_binding p);
  s ← nullable idSchema (tp_source p);
  Some (TurnProvenance i c b s).

Definition spatialConversationTurnSchema (n : turn) : option turn :=
  id ← idSchema (turn_id n);
  sess ← idSchema (tn_session n);
  ws ← idSchema (tn_workspace n);
  node ← idSchema (tn_node n);
  rev ← revisionSchema (tn_revision n);
  seq ← revisionSchema (sequence n);
  txt ← turnTextSchema (tn_text n);
  intent ← nullable idSchema (tn_intent n);
  prov ← conversationProvenanceSchema (tn_provenance n);
  cites ← z_array idSchema 256 (citation_refs n);
  atts ← z_array idSchema 256 (attachment_refs n);
  created ← timestampSchema (tn_created_at n);
  updated ← timestampSchema (tn_updated_at n);
  Some (Turn id sess ws node rev seq (tn_role n) (tn_state n) txt intent prov cites atts created updated).
End contract.

(** ** Operations *)

Section operations.
Context {zod : Zod} (gopts : graph_options) (opts : conversation_options).

Definition maxResponseChars : Z := Z.max 256 (default 32000 (co_max_chars opts)).
Definition maxStreamChunks : Z := Z.max 1 (default 256 (co_max_chunks opts)).

Definition cv_iso (now : date) : result conversation_error iso := of_option now CV_RANGE_ERROR.

Definition cv_idFactory (prefix : string) : method conversation conversation_error string :=
  fun c => (next_cv_id c, Ok (co_id opts prefix (cv_ids c))).

(** Run a method of the session graph. *)
Definition on_graph {A} (m : method graph sg_error A) : method conversation conversation_error A := fun c =>
  let '(g, r) := m (cv_graph c) in
  (set_graph g c, match r with Ok a => Ok a | Err e => Err (CV_GRAPH e) end).

(** The argument of [createTurn]. *)
Record turn_input : Type := TurnInput {
  ti_role : turn_role;
  ti_state : turn_state;
  ti_session : string;
  ti_sequence : Z;
  ti_text : text;
  ti_intent : option string;
  ti_binding : option string;
  ti_correlation : option string;
}.

Definition createTurn (input : turn_input) (now : date) : method conversation conversation_error turn :=
  let! t := jlift (cv_iso now) in
  let! id := cv_idFactory "turn" in
  jlift (of_option (spatialConversationTurnSchema
    (Turn id (ti_session input) (co_workspace opts) (co_node opts) 0 (ti_sequence input) (ti_role input) (ti_state input)
       (safeChunk (ti_text input) maxResponseChars) (ti_intent input)
       (TurnProvenance (ti_intent input) (ti_correlation input) (ti_binding input) (Some (ti_session input)))
       [] [] t t)) INVALID_TURN).

(** [createTurn], [turns.set] and [graph.appendTurn]; [gnow] is the clock of the
    graph. *)
Definition add_turn (input : turn_input) (session : string) (now gnow : date) : method conversation conversation_error turn :=
  let! n := createTurn input now in
  let! c := jread in
  jwrite (write_turn (turn_id n) n c) ;!
  on_graph (appendTurn gopts session (turn_id n) (co_actor opts) (Some (tn_revision n)) gnow) ;!
  jret n.

Definition cv_assertBinding (e : exchange) (bindingId : option string) : result conversation_error unit :=
  let provided := match bindingId with Some b => Some b | None => binding_id e end in
  require (bool_decide (binding_id e = provided)
           && match activeBinding opts with Some f => f provided | None => true end) BINDING_REJECTED.

Definition requireExchange (id : string) (c : conversation) : result conversation_error exchange :=
  of_option (jget id (exchanges c)) EXCHANGE_NOT_FOUND.
Definition requireTurn (id : string) (c : conversation) : result conversation_error turn :=
  of_option (jget id (turns c)) INVALID_TURN.

(** Assignments to the exchange filed under [id]. *)
Definition assign_exchange (id : string) (e : exchange) : method conversation conversation_error unit :=
  let! c := jread in jwrite (write_exchange id e c).

(** [saveExchange]. *)
Definition saveExchange (e : exchange) : method conversation conversation_error unit := assign_exchange (exchange_id e) e.

(** The session a submission goes to. *)
Definition conversation_session (env : envelope) (sessionId title : option string) (gnow : date)
  : method conversation conversation_error session :=
  if truthy sessionId then
    let! c := jread in
    jlift (of_option (id ← sessionId; getSession id (cv_graph c)) INVALID_TURN)
  else
    on_graph (createSession gopts (SessionInput None (intent_id env) (co_actor opts) title None
      (Some (default ("session:" +:+ intent_id env) (head (target_refs env)))) None None [] None) gnow).

Definition operator_text (env : envelope) : text :=
  match en_text env with
  | Some t => units t
  | None => units (stringify (JObj (default [] (operation env))))
  end.

Definition exchange_of (intent : string) (c : conversation) : option exchange :=
  head (filter (fun e => ex_intent e = intent) (jvalues (exchanges c))).

(** [submitIntent(submission, options)]. *)
Definition submitIntent (sub : submission) (sessionId bindingId title : option string) (now gnow : date)
  : method conversation conversation_error exchange :=
  let env := sb_envelope sub in
  jlift (require (str_eqb (en_workspace env) (co_workspace opts)) INVALID_TURN) ;!
  jlift (require (str_eqb (en_node env) (co_node opts)) INVALID_TURN) ;!
  let! c := jread in
  match exchange_of (intent_id env) c with
  | Some existing => jret existing
  | None =>
      jwrite (if bool_decide (connection c = DISCONNECTED)
              then set_queued (jset (en_key env) sub (queuedIntents c)) c else c) ;!
      let! session := conversation_session env sessionId title gnow in
      let! t := jlift (cv_iso now) in
      let sid := session_id session in
      let! op := add_turn (TurnInput operator T_COMPLETED sid (Z.of_nat (length (turn_refs session))) (operator_text env)
        (Some (intent_id env)) bindingId (Some (intent_id env))) sid now gnow in
      let! c := jread in
      let refreshed := default session (getSession sid (cv_graph c)) in
      let! resp := add_turn (TurnInput agent T_QUEUED (session_id refreshed) (Z.of_nat (length (turn_refs refreshed))) []
        (Some (intent_id env)) bindingId (Some (intent_id env))) sid now gnow in
      let! id := cv_idFactory "exchange" in
      let e := Exchange id sid (intent_id env) (intent_id env) (turn_id op) (turn_id resp) bindingId X_QUEUED [] 1 t t None in
      saveExchange e ;!
      jret e
  end.

(** [flushDisconnectedQueue()]. *)
Definition flushDisconnectedQueue (c : conversation) : conversation * list string :=
  let c' := set_queued [] c in
  (if bool_decide (connection c = DISCONNECTED) then setConnection RECONNECTING c' else c', jkeys (queuedIntents c)).

Definition is_active (e : exchange) : bool :=
  match ex_status e with X_QUEUED | X_STREAMING => true | _ => false end.

Definition reconnect (c : conversation) : conversation * (list string * list exchange) :=
  let '(c', keys) := flushDisconnectedQueue c in
  (setConnection CONNECTED c', (keys, filter (fun e => is_active e = true) (jvalues (exchanges c')))).

(** The refusals of a cancelled or timed-out exchange. *)
Definition still_open (e : exchange) : result conversation_error unit :=
  match ex_status e with
  | X_CANCELLED => Err CV_CANCELLED
  | X_TIMED_OUT => Err CV_TIMEOUT
  | _ => Ok tt
  end.

(** [appendResponseChunk(exchangeId, chunk, bindingId)]. *)
Definition appendResponseChunk (id : string) (chunk : text) (bindingId : option string) (now : date)
  : method conversation conversation_error exchange :=
  let! c := jread in
  let! e := jlift (requireExchange id c) in
  jlift (cv_assertBinding e bindingId) ;!
  jlift (still_open e) ;!
  jlift (require (negb (bool_decide (ex_status e = X_FAILED))) EXCHANGE_NOT_FOUND) ;!
  let! n := jlift (requireTurn (response_turn_id e) c) in
  let chunks := if bool_decide (tn_text n = []) then 0 else pieces (tn_text n) in
  if maxStreamChunks <=? chunks then
    saveExchange (with_status X_FAILED (Some STREAM_LIMIT) e) ;!
    jthrow STREAM_LIMIT
  else
    let remaining := maxResponseChars - Z.of_nat (length (response_text e)) in
    let safe := safeChunk chunk (Z.max 0 remaining) in
    let e := with_status X_STREAMING (error_code e) (with_response (response_text e ++ safe) e) in
    assign_exchange id e ;!
    let! t := jlift (cv_iso now) in
    let n := with_turn T_STREAMING
               (take (Z.to_nat (maxResponseChars + maxStreamChunks)) (tn_text n ++ safe ++ [SEP])) t n in
    let e := with_updated t e in
    let! c := jread in
    jwrite (write_turn (turn_id n) n c) ;!
    saveExchange e ;!
    jret e.

(** The common part of [completeResponse], [failResponse], [cancel] and
    [timeout]: the exchange is marked, the clock is read, the turn is closed. *)
Definition close_exchange (id : string) (e : exchange) (st : exchange_status) (err : option conversation_error)
    (close : turn -> text) (ts : turn_state) (now : date) : method conversation conversation_error exchange :=
  let e := with_status st err e in
  assign_exchange id e ;!
  let! t := jlift (cv_iso now) in
  let e := with_updated t e in
  assign_exchange id e ;!
  let! c := jread in
  let! n := jlift (requireTurn (response_turn_id e) c) in
  let n := with_turn ts (close n) t n in
  jwrite (write_turn (turn_id n) n c) ;!
  saveExchange e ;!
  jret e.

Definition completeResponse (id : string) (bindingId : option string) (now : date)
  : method conversation conversation_error exchange :=
  let! c := jread in
  let! e := jlift (requireExchange id c) in
  jlift (cv_assertBinding e bindingId) ;!
  jlift (still_open e) ;!
  close_exchange id e X_COMPLETED (error_code e) (fun n => joined (tn_text n)) T_COMPLETED now.

Definition failResponse (id : string) (code : option conversation_error) (bindingId : option string) (now : date)
  : method conversation conversation_error exchange :=
  let! c := jread in
  let! e := jlift (requireExchange id c) in
  jlift (cv_assertBinding e bindingId) ;!
  close_exchange id e X_FAILED (Some (default EXCHANGE_NOT_FOUND code)) tn_text T_FAILED now.

Definition cancel (id : string) (bindingId : option string) (now : date) : method conversation conversation_error exchange :=
  let! c := jread in
  let! e := jlift (requireExchange id c) in
  jlift (cv_assertBinding e bindingId) ;!
  close_exchange id e X_CANCELLED (Some CV_CANCELLED) tn_text T_CANCELLED now.

Definition timeout (id : string) (bindingId : option string) (now : date) : method conversation conversation_error exchange :=
  let! c := jread in
  let! e := jlift (requireExchange id c) in
  jlift (cv_assertBinding e bindingId) ;!
  close_exchange id e X_TIMED_OUT (Some CV_TIMEOUT) tn_text T_FAILED now.

Definition may_retry (e : exchange) : bool :=
  match ex_status e with X_FAILED | X_TIMED_OUT | X_CANCELLED => true | _ => false end.

(** [retry(exchangeId)]. *)
Definition retry (id : string) (now gnow : date) : method conversation conversation_error exchange :=
  let! c := jread in
  let! e := jlift (requireExchange id c) in
  if may_retry e then
    let! _ := jlift (requireTurn (response_turn_id e) c) in
    let! session := jlift (of_option (getSession (ex_session e) (cv_graph c)) EXCHANGE_NOT_FOUND) in
    let! resp := add_turn (TurnInput agent T_QUEUED (session_id session) (Z.of_nat (length (turn_refs session))) []
      (Some (ex_intent e)) (binding_id e) (Some (correlation_id e))) (session_id session) now gnow in
    let! id := cv_idFactory "exchange" in
    let! t := jlift (cv_iso now) in
    let e := Exchange id (ex_session e) (correlation_id e) (ex_intent e) (operator_turn_id e) (turn_id resp) (binding_id e)
               X_QUEUED [] (attempt e + 1) t t None in
    saveExchange e ;!
    jret e
  else jret e.

Definition getExchange (id : string) (c : conversation) : option exchange := jget id (exchanges c).
Definition getTurn (id : string) (c : conversation) : option turn := jget id (turns c).
Definition getConnection (c : conversation) : connection_state := connection c.

(** ** Snapshot and restore *)

(** The stable sort of [listTurns]. *)
Fixpoint insert_turn (n : turn) (l : list turn) : list turn :=
  match l with
  | [] => [n]
  | n' :: l' => if sequence n <=? sequence n' then n :: l else n' :: insert_turn n l'
  end.

Definition listTurns (session : option string) (c : conversation) : list turn :=
  foldr insert_turn [] (filter (fun n => truthy session = false \/ Some (tn_session n) = session) (jvalues (turns c))).

(** [DurableConversationSnapshot]. *)
Record conversation_snapshot : Type := ConversationSnapshot {
  cs_sessions : graph_snapshot;
  cs_turns : list turn;
  cs_exchanges : list exchange;
  cs_connection : connection_state;
}.

Definition cv_snapshot (c : conversation) : conversation_snapshot :=
  ConversationSnapshot (graph_snapshot_of (cv_graph c)) (listTurns None c) (jvalues (exchanges c)) (connection c).

Definition restore_turn (n : turn) : method conversation conversation_error unit :=
  let! p := jlift (of_option (spatialConversationTurnSchema n) INVALID_TURN) in
  let! c := jread in
  jwrite (write_turn (turn_id p) p c).

(** The maps are cleared before the snapshot is validated. *)
Definition cv_restore (s : conversation_snapshot) : method conversation conversation_error unit :=
  on_graph (SessionGraph.restore gopts (cs_sessions s)) ;!
  let! c := jread in
  jwrite (set_turns [] c) ;!
  jforeach restore_turn (cs_turns s) ;!
  let! c := jread in
  jwrite (setConnection (cs_connection s)
    (set_exchanges (foldl (fun m e => jset (exchange_id e) e m) [] (cs_exchanges s)) c)).

(** ** Histories *)

(** One call other than [cv_restore], returning or throwing, on a service whose
    own clock is valid. Other users of the session graph interleave, whatever
    they do to it. A restore is apart because it breaks what the others keep: it
    takes any exchanges, trims the texts of the turns only, and clears the turns
    before it can refuse them. *)
Inductive conversation_step (c : conversation) : conversation -> Prop :=
| cv_submit sub session binding title (t : iso) gnow c' r :
    submitIntent sub session binding title (Some t) gnow c = (c', r) -> conversation_step c c'
| cv_chunk id chunk binding (t : iso) c' r :
    appendResponseChunk id chunk binding (Some t) c = (c', r) -> conversation_step c c'
| cv_complete id binding (t : iso) c' r : completeResponse id binding (Some t) c = (c', r) -> conversation_step c c'
| cv_fail id code binding (t : iso) c' r : failResponse id code binding (Some t) c = (c', r) -> conversation_step c c'
| cv_cancel id binding (t : iso) c' r : cancel id binding (Some t) c = (c', r) -> conversation_step c c'
| cv_timeout id binding (t : iso) c' r : timeout id binding (Some t) c = (c', r) -> conversation_step c c'
| cv_retry id (t : iso) gnow c' r : retry id (Some t) gnow c = (c', r) -> conversation_step c c'
| cv_connect st : conversation_step c (setConnection st c)
| cv_flush c' keys : flushDisconnectedQueue c = (c', keys) -> conversation_step c c'
| cv_reconnect c' r : reconnect c = (c', r) -> conversation_step c c'
| cv_other g : conversation_step c (set_graph g c).
End operations.
