(* ===== verification/ConversationProps.v ===== *)
(** * The durable conversation: properties

    Every exchange agrees with the turns it names, a rejected binding writes
    nothing, a resubmitted intent opens no second exchange, and a chunk that is
    let through carries no markup; with what the code does on the edges. *)

From stdpp Require Import relations.
From S2P Require Import Prelude.
From S2P Require Import Json.
From S2P Require Import Contracts.
From S2P Require Import SessionGraph.
From S2P Require Import Intent.
From S2P Require Import Conversation.

#[local] Open Scope Z_scope.

(** ** Texts *)

Lemma joined_app a b : joined (a ++ b) = joined a ++ joined b.
Proof. apply filter_app. Qed.

Lemma joined_idem t : joined (joined t) = joined t.
Proof.
  induction t as [|c t IH]; [done|]. unfold joined in *. rewrite (filter_cons _ c t). case_decide; [|done].
  rewrite (filter_cons_True (fun c => c <> SEP)) by done. by rewrite IH.
Qed.

Lemma joined_length t : Z.of_nat (length (joined t)) = Z.of_nat (length t) - (pieces t - 1).
Proof.
  unfold pieces, joined. induction t as [|c t IH]; [done|]. rewrite !filter_cons.
  repeat case_decide; try done; cbn [length] in *; lia.
Qed.

Lemma pieces_app a b : pieces (a ++ b) = pieces a + pieces b - 1.
Proof. unfold pieces. rewrite filter_app, length_app. lia. Qed.

Lemma pieces_pos t : 1 <= pieces t.
Proof. unfold pieces. lia. Qed.

Lemma safeChunk_length t m : 0 <= m -> Z.of_nat (length (safeChunk t m)) <= m.
Proof. intros Hm. unfold safeChunk. rewrite length_take. lia. Qed.

Lemma safeChunk_nil m : safeChunk [] m = [].
Proof. unfold safeChunk. apply take_nil. Qed.

(** A text without markup: after an opening bracket comes a closing one at once,
    or none ever. *)
Fixpoint plain (t : text) : Prop :=
  match t with
  | [] => True
  | c :: t => (c = 60 -> head t = Some 62 \/ 62 ∉ t) /\ plain t
  end.

Lemma until_close_none t : until_close t = None <-> 62 ∉ t.
Proof.
  induction t as [|c t IH]; [simpl; set_solver|]. simpl. destruct (Z.eqb_spec c 62) as [->|Hc]; [set_solver|].
  rewrite IH. set_solver.
Qed.

Lemma until_close_suffix t r : until_close t = Some r -> exists p, t = p ++ r.
Proof.
  revert r. induction t as [|c t IH]; [done|]. simpl. intros r. destruct (c =? 62); [intros [= ->]; by exists [c]|].
  intros [p ->]%IH. by exists (c :: p).
Qed.

Lemma markup_cases t : match markup t with
  | Some r => exists p, t = p ++ r /\ p <> []
  | None => head t = Some 60 -> head (tl t) = Some 62 \/ 62 ∉ tl t
  end.
Proof.
  unfold markup. destruct t as [|c t]; [done|]. destruct (decide (c = 60)) as [->|Hc].
  - destruct t as [|d t]; simpl; [set_solver|]. destruct (Z.eqb_spec d 62) as [->|Hd]; [by left|].
    destruct (until_close t) as [r|] eqn:Hr.
    + apply until_close_suffix in Hr as [p ->]. by exists (60 :: d :: p).
    + intros _. right. apply until_close_none in Hr. set_solver.
  - destruct c as [|p|p]; try done; simpl. repeat (destruct p as [p|p|]; try done).
Qed.

(** Erasing from a text keeps a subsequence of it. *)
Lemma erase_go_sub m n t : sublist (erase_go m n t) t.
Proof.
  revert n. induction t as [|c t IH]; intros n; [constructor|]. simpl.
  destruct n; [|by constructor]. destruct (m (c :: t)); by constructor.
Qed.

Lemma erase_markup_plain t : forall n, plain (erase_go markup n t).
Proof.
  induction t as [|c t IH]; intros n; [done|]. cbn [erase_go]. destruct n; [|apply IH].
  pose proof (markup_cases (c :: t)) as Hm. destruct (markup (c :: t)); [apply IH|]. cbn [plain]. split; [|apply IH].
  intros ->. destruct (Hm eq_refl) as [H|H]; cbn [tl] in H.
  - left. destruct t as [|d t]; [done|]. injection H as ->. done.
  - right. intros Hin. apply H. eapply elem_of_sublist; [done | apply erase_go_sub].
Qed.

(** A text less some characters that close no bracket. *)
Inductive drops : text -> text -> Prop :=
| drops_nil : drops [] []
| drops_keep c t t' : drops t t' -> drops (c :: t) (c :: t')
| drops_skip c t t' : c <> 62 -> drops t t' -> drops (c :: t) t'.

Lemma drops_sub t t' : drops t t' -> sublist t' t.
Proof. induction 1; by constructor. Qed.

Lemma drops_head t t' : drops t t' -> head t = Some 62 -> head t' = Some 62.
Proof. destruct 1; simpl; congruence. Qed.

Lemma drops_plain t t' : drops t t' -> plain t -> plain t'.
Proof.
  induction 1 as [|c t t' Hd IH|c t t' Hc Hd IH]; [done| |intros [_ H]; by apply IH].
  intros [Hp H]. split; [|by apply IH]. intros ->. destruct (Hp eq_refl) as [Hh|Hn].
  - left. by eapply drops_head.
  - right. intros Hin. apply Hn. eapply elem_of_sublist; [done | by apply drops_sub].
Qed.

Definition script_word : text := Eval vm_compute in units "javascript".

Lemma unit_word_split w t r : Forall (fun d => 97 <= d) w -> unit_word w t = Some r -> exists p, t = p ++ r /\ 62 ∉ p.
Proof.
  revert t. induction w as [|d w IH]; intros t Hw; simpl; [intros [= ->]; exists []; split; [done | set_solver]|].
  apply Forall_cons in Hw as [Hd Hw]. destruct t as [|c t]; [done|]. destruct (Z.eqb_spec (unit_lower c) d) as [Hc|]; [|done].
  intros (p & -> & Hp)%IH; [|done]. exists (c :: p). split; [done|]. apply not_elem_of_cons. split; [|done].
  intros <-. unfold unit_lower in Hc. simpl in Hc. lia.
Qed.

Lemma trim_left_split t : exists p, t = p ++ trim_left t /\ Forall (fun c => is_space_unit c = true) p.
Proof.
  induction t as [|c t (p & Hp & Hf)]; [by exists []|]. simpl. destruct (is_space_unit c) eqn:Hc; [|by exists []].
  exists (c :: p). split; [by rewrite Hp at 1|]. by constructor.
Qed.

Lemma script_scheme_split t r : script_scheme t = Some r -> exists p, t = p ++ r /\ 62 ∉ p /\ p <> [].
Proof.
  unfold script_scheme. intros (u & Hu & Hr)%bind_Some.
  apply unit_word_split in Hu as (p & -> & Hp); [|vm_compute; repeat constructor; discriminate].
  destruct (trim_left_split u) as (q & Hq & Hf). destruct (trim_left u) as [|c v] eqn:Hv; [done|].
  assert (c = 58 /\ v = r) as [-> ->].
  { destruct c as [|x|x]; try done. repeat (destruct x as [x|x|]; try done). by injection Hr as ->. }
  exists (p ++ q ++ [58]). rewrite Hq, <-!app_assoc. simpl. split; [done|]. split.
  - rewrite !elem_of_app. intros [?|[Hin|Hin]]; [done| |set_solver]. rewrite Forall_forall in Hf. by apply Hf in Hin.
  - by destruct p, q.
Qed.

Lemma erase_script_drops t : forall n, 62 ∉ take n t -> drops t (erase_go script_scheme n t).
Proof.
  induction t as [|c t IH]; intros n Hn; [constructor|]. simpl. destruct n as [|n]; simpl in Hn.
  - destruct (script_scheme (c :: t)) as [r|] eqn:Hr; [|by constructor; apply IH; set_solver].
    apply script_scheme_split in Hr as ([|c' p] & Hp & Hn' & Hne); [done|]. injection Hp as <- ->.
    apply not_elem_of_cons in Hn' as [Hc Hn']. apply drops_skip; [congruence|]. apply IH.
    rewrite length_app. replace (length p + length r - length r)%nat with (length p) by lia. by rewrite take_app_length.
  - apply not_elem_of_cons in Hn as [Hc Hn]. apply drops_skip; [congruence|]. by apply IH.
Qed.

Lemma control_drops t : drops t (filter (fun c => is_control c = false) t).
Proof.
  induction t as [|c t IH]; [constructor|]. rewrite filter_cons. case_decide as Hc; [by constructor|].
  apply drops_skip; [|done]. by intros ->.
Qed.

Lemma plain_take n t : plain t -> plain (take n t).
Proof.
  revert n. induction t as [|c t IH]; intros [|n]; simpl; try done. intros [Hp H]. split; [|by apply IH].
  intros ->. destruct (Hp eq_refl) as [Hh|Hn].
  - destruct n, t as [|d t]; try done; simpl in *; [right; set_solver | by left].
  - right. intros Hin. apply Hn. rewrite <-(take_drop n t). set_solver.
Qed.

(** What a chunk or an operator's text contributes to the conversation is
    bounded and carries no markup: it is at most as long as asked for, contains
    no control characters, and nothing in it matches the pattern of a tag, an
    opening bracket being followed by a closing one at once or never. *)
Theorem safe_chunk_is_plain value maxChars :
  0 <= maxChars ->
  let t := safeChunk value maxChars in
  Z.of_nat (length t) <= maxChars /\ Forall (fun c => is_control c = false) t /\
  forall a b, t = a ++ b -> markup b = None.
Proof.
  intros Hm. cbv zeta. split; [by apply safeChunk_length|].
  assert (Hp : plain (safeChunk value maxChars)).
  { apply plain_take. eapply drops_plain; [apply control_drops|].
    eapply drops_plain; [apply erase_script_drops; set_solver|]. apply erase_markup_plain. }
  split; [apply Forall_take, Forall_forall; by intros c [Hc _]%list_elem_of_filter|].
  intros a b Heq. rewrite Heq in Hp. clear Heq. induction a as [|c a IH]; [|by apply IH, Hp]. simpl in Hp.
  unfold markup. destruct b as [|c b]; [done|]. destruct Hp as [Hp _].
  destruct (decide (c = 60)) as [->|Hc].
  - destruct b as [|d b]; [done|]. destruct (Hp eq_refl) as [Hh|Hn].
    + injection Hh as ->. done.
    + apply not_elem_of_cons in Hn as [Hd Hn]. destruct (Z.eqb_spec d 62); [congruence|]. by apply until_close_none.
  - destruct c as [|x|x]; try done. repeat (destruct x as [x|x|]; try done).
Qed.

(** ** Exchanges and turns *)

Lemma jset_twice {V} k (a b : V) m : jset k a (jset k b m) = jset k a m.
Proof.
  induction m as [|[k' v] m IH]; simpl; unfold str_eqb; [by rewrite bool_decide_eq_true_2|].
  destruct (bool_decide (k' = k)) eqn:E; simpl; unfold str_eqb; rewrite E; [done | by rewrite IH].
Qed.

(** The state a response turn has beside an exchange. *)
Definition turn_state_of (s : exchange_status) : turn_state :=
  match s with
  | X_QUEUED => T_QUEUED
  | X_STREAMING => T_STREAMING
  | X_COMPLETED => T_COMPLETED
  | X_FAILED | X_TIMED_OUT => T_FAILED
  | X_CANCELLED => T_CANCELLED
  end.

Section history.
Context {zod : Zod} (laws : ZodLaws zod) (gopts : graph_options) (opts : conversation_options).

(** [idFactory] never repeats an id, and its ids carry no surrounding space. *)
Record ids_ok : Prop := IdsOk {
  ids_trimmed n : trim (co_id opts "turn" n) = co_id opts "turn" n;
  ids_turn n m : co_id opts "turn" n = co_id opts "turn" m -> n = m;
  ids_exchange n m : co_id opts "exchange" n = co_id opts "exchange" m -> n = m;
}.

(** The binding is one the service listens to. *)
Definition listens (b : option string) : bool := match activeBinding opts with Some f => f b | None => true end.

Definition response_agrees (e : exchange) (n : turn) : Prop :=
  tn_role n = agent /\ joined (tn_text n) = joined (response_text e) /\
  (ex_status e = X_COMPLETED -> tn_text n = joined (response_text e)) /\
  (tn_state n = turn_state_of (ex_status e) \/ ex_status e = X_FAILED /\ error_code e = Some STREAM_LIMIT).

Definition agrees (m : jsmap turn) (e : exchange) : Prop :=
  Z.of_nat (length (response_text e)) <= maxResponseChars opts /\ 1 <= attempt e /\
  (exists n, jget (operator_turn_id e) m = Some n /\ tn_role n = operator /\ tn_state n = T_COMPLETED) /\
  exists n, jget (response_turn_id e) m = Some n /\ response_agrees e n.

Record conversation_inv (c : conversation) : Prop := ConversationInv {
  inv_turns : jall (fun k n => turn_id n = k /\ exists i, (i < cv_ids c)%nat /\ k = co_id opts "turn" i) (turns c);
  inv_exchanges : jall (fun k e => exchange_id e = k /\ (exists i, (i < cv_ids c)%nat /\ k = co_id opts "exchange" i) /\
    agrees (turns c) e) (exchanges c);
  inv_own k1 k2 e1 e2 : jget k1 (exchanges c) = Some e1 -> jget k2 (exchanges c) = Some e2 ->
    response_turn_id e1 = response_turn_id e2 -> k1 = k2;
  inv_nodup : NoDup (jkeys (exchanges c));
  inv_turns_nodup : NoDup (jkeys (turns c));
}.

(** What never changes in an exchange. *)
Definition same_exchange (e e' : exchange) : Prop :=
  exchange_id e' = exchange_id e /\ ex_intent e' = ex_intent e /\ operator_turn_id e' = operator_turn_id e /\
  response_turn_id e' = response_turn_id e /\ binding_id e' = binding_id e /\ attempt e' = attempt e.

Definition label_of (e : exchange) : string * string := (exchange_id e, ex_intent e).

(** Exchanges stay, in order; one whose binding is not listened to stays as it
    is, and so does its response turn. *)
Definition evolves (c c' : conversation) : Prop :=
  (exists l, map label_of (jvalues (exchanges c')) = map label_of (jvalues (exchanges c)) ++ l) /\
  forall k e, jget k (exchanges c) = Some e -> exists e', jget k (exchanges c') = Some e' /\ same_exchange e e' /\
    (listens (binding_id e) = false ->
     e' = e /\ jget (response_turn_id e) (turns c') = jget (response_turn_id e) (turns c)).

Lemma same_exchange_refl e : same_exchange e e.
Proof. done. Qed.

Lemma evolves_same c c' : turns c' = turns c -> exchanges c' = exchanges c -> evolves c c'.
Proof.
  intros Ht He. unfold evolves. rewrite Ht, He. split; [exists []; by rewrite app_nil_r|].
  intros k e H. by exists e.
Qed.

Lemma evolves_trans c1 c2 c3 : evolves c1 c2 -> evolves c2 c3 -> evolves c1 c3.
Proof.
  intros [[l1 H1] E1] [[l2 H2] E2]. split; [exists (l1 ++ l2); by rewrite H2, H1, app_assoc|].
  intros k e H. destruct (E1 k e H) as (e1 & Hk & (?&?&?&Hr&Hb&?) & Hf). destruct (E2 k e1 Hk) as (e2 & Hk2 & (?&?&?&?&?&?) & Hf2).
  exists e2. split; [done|]. split; [unfold same_exchange; split_and!; congruence|]. intros Hl.
  destruct (Hf Hl) as [-> Ht]. destruct (Hf2 Hl) as [-> Ht2]. split; [done | congruence].
Qed.

Lemma inv_same c c' : turns c' = turns c -> exchanges c' = exchanges c -> (cv_ids c <= cv_ids c')%nat ->
  conversation_inv c -> conversation_inv c'.
Proof.
  intros Ht He Hi [I1 I2 I3 I4 I5]. split; rewrite ?Ht, ?He; [..|exact I3|exact I4|exact I5].
  - intros k n Hk. destruct (I1 k n Hk) as (? & i & ? & ?). split; [done|]. exists i. split; [lia | done].
  - intros k e Hk. destruct (I2 k e Hk) as (? & (i & ? & ?) & ?). split_and!; [done| |done]. exists i. split; [lia | done].
Qed.

Definition step_ok (c c' : conversation) : Prop := conversation_inv c' /\ evolves c c'.

Lemma step_ok_same c c' : conversation_inv c -> turns c' = turns c -> exchanges c' = exchanges c ->
  (cv_ids c <= cv_ids c')%nat -> step_ok c c'.
Proof. intros. split; [by eapply inv_same | by apply evolves_same]. Qed.

Lemma step_ok_trans c1 c2 c3 : step_ok c1 c2 -> step_ok c2 c3 -> step_ok c1 c3.
Proof. intros [_ ?] [? ?]. split; [done | by eapply evolves_trans]. Qed.

Lemma label_jset k e e' m : jget k m = Some e -> label_of e' = label_of e ->
  map label_of (jvalues (jset k e' m)) = map label_of (jvalues m).
Proof.
  intros Hk Hl. induction m as [|[k' v] m IH]; [done|]. simpl in *. unfold str_eqb in *.
  destruct (bool_decide (k' = k)); simpl; [injection Hk as ->; by rewrite Hl | by rewrite IH].
Qed.

(** The one shape of every response handler: an exchange that is listened to and
    its response turn are written together. *)
Lemma write_ok c c' k e e' n n' : conversation_inv c -> jget k (exchanges c) = Some e ->
  jget (response_turn_id e) (turns c) = Some n -> listens (binding_id e) = true -> same_exchange e e' ->
  turn_id n' = turn_id n -> Z.of_nat (length (response_text e')) <= maxResponseChars opts -> response_agrees e' n' ->
  turns c' = jset (turn_id n) n' (turns c) -> exchanges c' = jset k e' (exchanges c) -> cv_ids c' = cv_ids c -> step_ok c c'.
Proof.
  intros [I1 I2 I3 I4 I5] Hk Hn Hl (Hid & Hint & Hop & Hr & Hb & Ha) Hn' Hlen Hag Ht He Hi.
  pose proof (I1 _ _ Hn) as (Hnk & i & Hi1 & Hi2). destruct (I2 _ _ Hk) as (Hek & Hj & _ & Hatt & (op & Hgop & Hro & Hso) & n0 & Hn0 & Hag0).
  rewrite Hn in Hn0. injection Hn0 as <-.
  assert (Hother : forall k2 e2, jget k2 (exchanges c) = Some e2 -> k2 <> k -> response_turn_id e2 <> turn_id n).
  { intros k2 e2 H2 Hne Heq. apply Hne. eapply I3; [done..|congruence]. }
  split.
  - split; rewrite ?Ht, ?He, ?Hi.
    + apply jall_jset; [|done]. rewrite Hnk. split; [congruence|]. by exists i.
    + intros k2 e2. rewrite jget_jset. unfold str_eqb. case_bool_decide as Hkk.
      * intros [= <-]. subst k2. unfold agrees. split_and!; [congruence|done|done|lia|..].
        { exists op. rewrite Hop, jget_jset_ne; [done|]. intros Heq. destruct Hag0 as [? _]. rewrite <-Heq, Hnk, Hn in Hgop. congruence. }
        exists n'. rewrite Hr, Hnk, jget_jset_eq. done.
      * intros H2. destruct (I2 _ _ H2) as (? & ? & ? & ? & (op2 & Hg2 & Hro2 & ?) & n2 & Hn2 & ?).
        assert (response_turn_id e2 <> turn_id n) by (by eapply Hother).
        unfold agrees. split_and!; [done..| |].
        { exists op2. rewrite jget_jset_ne; [done|]. intros Heq. destruct Hag0 as [? _]. rewrite <-Heq, Hnk, Hn in Hg2. congruence. }
        exists n2. by rewrite jget_jset_ne.
    + intros k1 k2 e1 e2. rewrite !jget_jset. unfold str_eqb. repeat case_bool_decide; intros; simplify_eq; try done.
      * rewrite Hr in *. by eapply I3.
      * rewrite Hr in *. by eapply I3.
      * by eapply I3.
    + by apply NoDup_jset.
    + by apply NoDup_jset.
  - split; [exists []; rewrite app_nil_r, He; apply (label_jset k e); [done|]; unfold label_of; congruence|].
    intros k2 e2 H2. rewrite He, jget_jset. unfold str_eqb. case_bool_decide as Hkk.
    + subst k2. rewrite Hk in H2. injection H2 as <-. exists e'. split; [done|]. split; [done|]. congruence.
    + exists e2. split; [done|]. split; [done|]. intros _. split; [done|]. rewrite Ht. apply jget_jset_ne. apply not_eq_sym. by eapply Hother.
Qed.

Lemma on_graph_inv {A} (m : method graph sg_error A) c c' r : on_graph m c = (c', r) ->
  turns c' = turns c /\ exchanges c' = exchanges c /\ cv_ids c' = cv_ids c.
Proof. unfold on_graph. destruct (m (cv_graph c)). by intros [= <- <-]. Qed.

Lemma turnSchema_spec n n' : spatialConversationTurnSchema n = Some n' ->
  turn_id n' = trim (turn_id n) /\ tn_role n' = tn_role n /\ tn_state n' = tn_state n /\
  turnTextSchema (tn_text n) = Some (tn_text n').
Proof.
  unfold spatialConversationTurnSchema. intros H. inv_some. simpl.
  match goal with H : idSchema (turn_id n) = Some _ |- _ => apply idSchema_spec in H as [-> _] end. done.
Qed.

(** What [createTurn] makes. *)
Definition turn_made (input : turn_input) (n : turn) : Prop :=
  tn_role n = ti_role input /\ tn_state n = ti_state input /\ (ti_text input = [] -> tn_text n = []).

(** A turn is stored under a new id; whatever the graph says, the exchanges are
    as they were and none of them uses it. *)
Lemma add_turn_ok (ids : ids_ok) input session t gnow c c' r :
  conversation_inv c -> add_turn gopts opts input session (Some t) gnow c = (c', r) ->
  step_ok c c' /\ exchanges c' = exchanges c /\
  (forall k n, jget k (turns c) = Some n -> jget k (turns c') = Some n) /\
  forall n, r = Ok n -> turn_made input n /\ jget (turn_id n) (turns c') = Some n /\ jget (turn_id n) (turns c) = None.
Proof.
  intros Hinv H. unfold add_turn, createTurn, jbind, jread, jlift, jwrite, jret, cv_idFactory, cv_iso in H. simpl in H.
  destruct (spatialConversationTurnSchema _) as [n|] eqn:Hn; simpl in H; [|simplify_eq; split_and!; [apply step_ok_same; simpl; auto with lia|done|done|done]].
  apply turnSchema_spec in Hn as (Hid & Hrole & Hstate & Htext). simpl in *. rewrite (ids_trimmed ids) in Hid.
  assert (Hfresh : jget (turn_id n) (turns c) = None).
  { destruct (jget (turn_id n) (turns c)) as [x|] eqn:Hx; [|done]. apply (inv_turns _ Hinv) in Hx as (_ & i & Hi & Heq).
    rewrite Hid in Heq. apply (ids_turn ids) in Heq. lia. }
  destruct (on_graph _ _) as [c1 r1] eqn:Hg. apply on_graph_inv in Hg as (Ht & He & Hi). simpl in Ht, He, Hi.
  assert (c' = c1 /\ (r = Ok n \/ exists e, r = Err e)) as [-> Hr] by (destruct r1; simplify_eq; eauto).
  assert (Hkeep : forall k x, jget k (turns c) = Some x -> jget k (turns c1) = Some x).
  { intros k x Hk. rewrite Ht, jget_jset_ne; [done|]. intros <-. congruence. }
  split_and!; [|done|done|].
  - split.
    + destruct Hinv as [I1 I2 I3 I4 I5]. split; rewrite ?Ht, ?He, ?Hi.
      * apply jall_jset; [split; [done|]; exists (cv_ids c); split; [lia | done]|].
        intros k x Hk. destruct (I1 _ _ Hk) as (? & i & ? & ?). split; [done|]. exists i. split; [lia | done].
      * intros k e Hk. destruct (I2 _ _ Hk) as (? & (i & ? & ?) & ? & ? & (op & Hop & ?) & m & Hm & ?).
        split; [done|]. split; [exists i; split; [lia | done]|]. rewrite Ht in Hkeep. unfold agrees. split_and!; [done..| |]; eauto.
      * exact I3.
      * exact I4.
      * by apply NoDup_jset.
    + split; [exists []; by rewrite He, app_nil_r|]. intros k e Hk. exists e. rewrite He. split; [done|]. split; [done|].
      intros _. split; [done|]. rewrite Ht, jget_jset_ne; [done|].
      destruct (inv_exchanges _ Hinv _ _ Hk) as (_ & _ & _ & _ & _ & m & Hm & _). congruence.
  - intros m Hm. destruct Hr as [->|[e ->]]; [|done]. injection Hm as <-. split_and!; [|by rewrite Ht, jget_jset_eq|done].
    split_and!; [done..|]. intros Hnil. rewrite Hnil, safeChunk_nil in Htext. by injection Htext as <-.
Qed.

(** A new exchange, on turns nothing else answers to. *)
Lemma open_ok (ids : ids_ok) c e op n : conversation_inv c ->
  exchange_id e = co_id opts "exchange" (cv_ids c) -> ex_status e = X_QUEUED -> response_text e = [] -> 1 <= attempt e ->
  jget (operator_turn_id e) (turns c) = Some op -> tn_role op = operator -> tn_state op = T_COMPLETED ->
  jget (response_turn_id e) (turns c) = Some n -> tn_role n = agent -> tn_state n = T_QUEUED -> tn_text n = [] ->
  (forall k e', jget k (exchanges c) = Some e' -> response_turn_id e' <> response_turn_id e) ->
  step_ok c (write_exchange (exchange_id e) e (next_cv_id c)).
Proof.
  intros Hinv Hid Hst Htx Ha Hop Hro Hso Hn Hrn Hsn Htn Hown. pose proof Hinv as [I1 I2 I3 I4 I5].
  assert (Hnew : jget (exchange_id e) (exchanges c) = None).
  { destruct (jget (exchange_id e) (exchanges c)) as [x|] eqn:Hx; [|done]. destruct (I2 _ _ Hx) as (_ & (i & Hi & Heq) & _).
    rewrite Hid in Heq. apply (ids_exchange ids) in Heq. lia. }
  split.
  - split; simpl.
    + intros k x Hk. destruct (I1 _ _ Hk) as (? & i & ? & ?). split; [done|]. exists i. split; [lia | done].
    + apply jall_jset.
      * split_and!; [done|exists (cv_ids c); split; [lia | done]|]. unfold agrees. rewrite Htx. simpl. split_and!; [unfold maxResponseChars; lia|done|by exists op|].
        exists n. split; [done|]. unfold response_agrees. rewrite Hst, Htx, Htn, Hsn. split_and!; [done..|by left].
      * intros k x Hk. destruct (I2 _ _ Hk) as (? & (i & ? & ?) & ?). split_and!; [done|exists i; split; [lia | done]|done].
    + intros k1 k2 e1 e2. rewrite !jget_jset. unfold str_eqb. repeat case_bool_decide; intros H1 H2 Heq; simplify_eq; try done.
      * by destruct (Hown _ _ H2).
      * by destruct (Hown _ _ H1).
      * by eapply I3.
    + by apply NoDup_jset.
    + done.
  - split; simpl.
    + exists [label_of e]. rewrite jset_fresh by done. unfold jvalues. rewrite map_app, map_app. done.
    + intros k x Hk. exists x. rewrite jget_jset_ne by congruence. done.
Qed.

Lemma unused_turn c k e n : conversation_inv c -> jget k (exchanges c) = Some e -> jget (turn_id n) (turns c) = None ->
  response_turn_id e <> turn_id n.
Proof. intros Hinv Hk Hn Heq. destruct (inv_exchanges _ Hinv _ _ Hk) as (_ & _ & _ & _ & _ & m & Hm & _). congruence. Qed.

Lemma step_ok_refl c : conversation_inv c -> step_ok c c.
Proof. intros. by apply step_ok_same. Qed.

Lemma session_inv env sessionId title gnow c c' r : conversation_session gopts opts env sessionId title gnow c = (c', r) ->
  turns c' = turns c /\ exchanges c' = exchanges c /\ cv_ids c' = cv_ids c.
Proof.
  unfold conversation_session. destruct (truthy sessionId); [|apply on_graph_inv].
  unfold jbind, jread, jlift. by intros [= <- _].
Qed.

Lemma submit_ok (ids : ids_ok) sub sessionId bindingId title t gnow c c' r : conversation_inv c ->
  submitIntent gopts opts sub sessionId bindingId title (Some t) gnow c = (c', r) -> step_ok c c'.
Proof.
  intros Hinv H. unfold submitIntent, jbind, jlift, jread, jwrite, jret in H.
  destruct (require _ INVALID_TURN); [|simplify_eq; by apply step_ok_refl].
  destruct (require _ INVALID_TURN); [|simplify_eq; by apply step_ok_refl].
  destruct (exchange_of _ _); [simplify_eq; by apply step_ok_refl|].
  set (c0 := if bool_decide _ then _ else _) in H.
  assert (H0 : step_ok c c0) by (apply step_ok_same; [done|subst c0; by case_bool_decide..|subst c0; case_bool_decide; simpl; lia]).
  destruct (conversation_session _ _ _ _ _ _ _) as [c1 r1] eqn:H1. apply session_inv in H1 as (Ht1 & He1 & Hi1).
  assert (H01 : step_ok c c1).
  { eapply step_ok_trans; [exact H0|]. apply step_ok_same; [apply H0|done|done|lia]. }
  destruct r1 as [s|]; [|by simplify_eq]. simpl in H.
  destruct (add_turn _ _ _ _ _ _ c1) as [c2 r2] eqn:H2.
  destruct (add_turn_ok ids _ _ _ _ _ _ _ (proj1 H01) H2) as (H12 & He2 & Hk2 & Hn2).
  assert (H02 : step_ok c c2) by by eapply step_ok_trans.
  destruct r2 as [op|]; [|by simplify_eq]. destruct (Hn2 op eq_refl) as ((Hro & Hso & _) & Hop & _).
  destruct (add_turn _ _ _ _ _ _ c2) as [c3 r3] eqn:H3.
  destruct (add_turn_ok ids _ _ _ _ _ _ _ (proj1 H12) H3) as (H23 & He3 & Hk3 & Hn3).
  assert (H03 : step_ok c c3) by by eapply step_ok_trans.
  destruct r3 as [n|]; [|by simplify_eq]. destruct (Hn3 n eq_refl) as ((Hrn & Hsn & Htn) & Hn & Hfresh).
  simpl in *. unfold cv_idFactory, saveExchange, assign_exchange, jbind, jread, jwrite in H. simpl in H. injection H as <- _.
  eapply step_ok_trans; [exact H03|].
  apply (open_ok ids c3 (Exchange (co_id opts "exchange" (cv_ids c3)) _ _ _ _ _ _ _ _ _ _ _ _) op n); simpl; try done;
    [apply H03|by apply Hk3|by apply Htn|].
  intros k e Hk. rewrite He3 in Hk. by eapply unused_turn; [apply H12| |].
Qed.

Lemma retry_turn_ok (ids : ids_ok) id t gnow c c' r : conversation_inv c ->
  retry gopts opts id (Some t) gnow c = (c', r) -> step_ok c c'.
Proof.
  intros Hinv H. unfold retry, jbind, jlift, jread, jret, requireExchange, requireTurn in H.
  destruct (jget id (exchanges c)) as [e|] eqn:He; simpl in H; [|simplify_eq; by apply step_ok_refl].
  destruct (may_retry e); [|simplify_eq; by apply step_ok_refl].
  destruct (jget (response_turn_id e) (turns c)); simpl in H; [|simplify_eq; by apply step_ok_refl].
  destruct (getSession _ _) as [s|]; simpl in H; [|simplify_eq; by apply step_ok_refl].
  destruct (add_turn _ _ _ _ _ _ c) as [c1 r1] eqn:H1.
  destruct (add_turn_ok ids _ _ _ _ _ _ _ Hinv H1) as (H01 & He1 & Hk1 & Hn1).
  destruct r1 as [n|]; [|by simplify_eq]. destruct (Hn1 n eq_refl) as ((Hrn & Hsn & Htn) & Hn & Hfresh).
  simpl in *. unfold cv_idFactory, saveExchange, assign_exchange, jbind, jread, jwrite in H. simpl in H. injection H as <- _.
  destruct (inv_exchanges _ Hinv _ _ He) as (_ & _ & _ & Ha & (op & Hop & Hro & Hso) & _).
  eapply step_ok_trans; [exact H01|].
  apply (open_ok ids c1 (Exchange (co_id opts "exchange" (cv_ids c1)) _ _ _ _ _ _ _ _ _ _ _ _) op n); simpl; try done;
    [apply H01|lia|by apply Hk1|by apply Htn|].
  intros k e' Hk. rewrite He1 in Hk. by eapply unused_turn.
Qed.

Lemma binding_ok e b u : cv_assertBinding opts e b = Ok u -> listens (binding_id e) = true.
Proof.
  unfold cv_assertBinding, listens. intros H%require_ok. apply andb_true_iff in H as [Hb%bool_decide_eq_true Hl]. by rewrite Hb.
Qed.

(** What [close_exchange] does. *)
Lemma close_ok id e st err close ts t c c' r n : conversation_inv c -> jget id (exchanges c) = Some e ->
  listens (binding_id e) = true -> jget (response_turn_id e) (turns c) = Some n ->
  joined (close n) = joined (tn_text n) -> (st = X_COMPLETED -> close n = joined (tn_text n)) -> ts = turn_state_of st ->
  close_exchange id e st err close ts (Some t) c = (c', r) -> step_ok c c'.
Proof.
  intros Hinv He Hl Hn Hj Hc Hts H.
  destruct (inv_exchanges _ Hinv _ _ He) as (Hid & _ & Hlen & _ & _ & n0 & Hn0 & Hr & Hjt & _).
  rewrite Hn in Hn0. injection Hn0 as <-.
  unfold close_exchange, saveExchange, assign_exchange, requireTurn, jbind, jread, jlift, jwrite, jret in H. simpl in H.
  rewrite Hn in H. simpl in H. injection H as <- _.
  eapply (write_ok c _ id e (with_updated t (with_status st err e)) n (with_turn ts (close n) t n)); simpl; try done.
  - split; [done|]. simpl. split; [congruence|]. split; [intros Hs; rewrite (Hc Hs); congruence | by left].
  - by rewrite Hid, !jset_twice.
Qed.

Lemma chunk_ok id chunk b t c c' r : conversation_inv c ->
  appendResponseChunk opts id chunk b (Some t) c = (c', r) -> step_ok c c'.
Proof.
  intros Hinv H. unfold appendResponseChunk, jbind, jlift, jread, jwrite, jret, jthrow, requireExchange, requireTurn in H.
  destruct (jget id (exchanges c)) as [e|] eqn:He; simpl in H; [|simplify_eq; by apply step_ok_refl].
  destruct (cv_assertBinding _ _ _) eqn:Hb; [|simplify_eq; by apply step_ok_refl]. apply binding_ok in Hb.
  destruct (still_open e); [|simplify_eq; by apply step_ok_refl].
  destruct (require _ EXCHANGE_NOT_FOUND); [|simplify_eq; by apply step_ok_refl].
  destruct (inv_exchanges _ Hinv _ _ He) as (Hid & _ & Hlen & _ & _ & n & Hn & Hr & Hj & _).
  destruct (inv_turns _ Hinv _ _ Hn) as [Htid _]. rewrite Hn in H. simpl in H.
  destruct (_ <=? _) eqn:Hlim in H.
  - unfold saveExchange, assign_exchange, jbind, jread, jwrite in H. injection H as <- _.
    eapply (write_ok c _ id e (with_status X_FAILED (Some STREAM_LIMIT) e) n n); simpl; try done.
    + split; [done|]. simpl. split_and!; [done|done|by right].
    + by rewrite Htid, (jset_same (response_turn_id e) n (turns c)).
    + by rewrite Hid.
  - apply Z.leb_gt in Hlim. unfold saveExchange, assign_exchange, jbind, jread, jwrite in H. simpl in H. injection H as <- _.
    set (safe := safeChunk chunk _).
    assert (Hsafe : Z.of_nat (length safe) <= Z.max 0 (maxResponseChars opts - Z.of_nat (length (response_text e))))
      by (apply safeChunk_length; lia).
    assert (Hcut : take (Z.to_nat (maxResponseChars opts + maxStreamChunks opts)) (tn_text n ++ safe ++ [SEP]) = tn_text n ++ safe ++ [SEP]).
    { apply take_ge. rewrite !length_app. simpl.
      assert (1 <= maxStreamChunks opts) by (unfold maxStreamChunks; lia).
      pose proof (joined_length (tn_text n)) as Hjl. rewrite Hj in Hjl. pose proof (joined_length (response_text e)) as Hjr.
      pose proof (pieces_pos (response_text e)). case_bool_decide as Hnil; [rewrite Hnil; simpl; lia|]. lia. }
    eapply (write_ok c _ id e
      (with_updated t (with_status X_STREAMING (error_code e) (with_response (response_text e ++ safe) e))) n
      (with_turn T_STREAMING (tn_text n ++ safe ++ [SEP]) t n)); simpl; try done.
    + rewrite length_app. lia.
    + split; [done|]. simpl. split_and!; [|done|by left]. rewrite !joined_app, Hj. simpl. by rewrite app_nil_r.
    + by rewrite Hcut.
    + by rewrite Hid, jset_twice.
Qed.

(** The prologue of the closing handlers. *)
Lemma guarded_ok id b (k : exchange -> method conversation conversation_error exchange) c c' r : conversation_inv c ->
  (forall e n, jget id (exchanges c) = Some e -> listens (binding_id e) = true -> jget (response_turn_id e) (turns c) = Some n ->
     k e c = (c', r) -> step_ok c c') ->
  (let! c := jread in let! e := jlift (requireExchange id c) in jlift (cv_assertBinding opts e b) ;! k e) c = (c', r) ->
  step_ok c c'.
Proof.
  intros Hinv Hk H. unfold jbind, jread, jlift, requireExchange in H.
  destruct (jget id (exchanges c)) as [e|] eqn:He; simpl in H; [|simplify_eq; by apply step_ok_refl].
  destruct (cv_assertBinding _ _ _) eqn:Hb; [|simplify_eq; by apply step_ok_refl]. apply binding_ok in Hb.
  destruct (inv_exchanges _ Hinv _ _ He) as (_ & _ & _ & _ & _ & n & Hn & _). by eapply Hk.
Qed.

Lemma conversation_step_ok (ids : ids_ok) c c' : conversation_inv c -> conversation_step gopts opts c c' -> step_ok c c'.
Proof.
  intros Hinv [sub session b title t gnow c1 r H|id chunk b t c1 r H|id b t c1 r H|id code b t c1 r H|id b t c1 r H|id b t c1 r H
    |id t gnow c1 r H|st|c1 keys H|c1 r H|g].
  - by eapply submit_ok.
  - by eapply chunk_ok.
  - eapply guarded_ok in H; [done|done|]. intros e n He Hl Hn Hc. unfold jbind, jlift in Hc.
    destruct (still_open e); [|simplify_eq; by apply step_ok_refl]. eapply close_ok in Hc; [done..|apply joined_idem|done|done].
  - eapply guarded_ok in H; [done|done|]. intros e n He Hl Hn Hc. by eapply close_ok in Hc.
  - eapply guarded_ok in H; [done|done|]. intros e n He Hl Hn Hc. by eapply close_ok in Hc.
  - eapply guarded_ok in H; [done|done|]. intros e n He Hl Hn Hc. by eapply close_ok in Hc.
  - by eapply retry_turn_ok.
  - by apply step_ok_same.
  - unfold flushDisconnectedQueue in H. injection H as <- _. by apply step_ok_same; try done; case_bool_decide.
  - unfold reconnect, flushDisconnectedQueue in H. injection H as <- _. by apply step_ok_same; try done; case_bool_decide.
  - by apply step_ok_same.
Qed.

Lemma conversation_steps_ok (ids : ids_ok) c c' : conversation_inv c -> rtc (conversation_step gopts opts) c c' -> step_ok c c'.
Proof.
  intros Hinv Hr. induction Hr as [|c1 c2 c3 H _ IH]; [by apply step_ok_refl|].
  apply conversation_step_ok in H; [|done|done]. eapply step_ok_trans; [exact H|]. apply IH, H.
Qed.

Lemma new_conversation_inv g : conversation_inv (new_conversation g).
Proof. split; try by intros ? ?. all: constructor. Qed.

(** ** What a restore brings back *)

Lemma insert_turn_perm n l : insert_turn n l ≡ₚ n :: l.
Proof.
  induction l as [|n' l IH]; simpl; [done|]. destruct (_ <=? _); [done|]. rewrite IH. apply Permutation_swap.
Qed.

Lemma listTurns_perm c : listTurns None c ≡ₚ jvalues (turns c).
Proof.
  unfold listTurns. assert (Hf : forall l : list turn, filter (fun n => truthy None = false \/ Some (tn_session n) = None) l = l).
  { intros l. induction l as [|n l IH]; [done|]. rewrite filter_cons, decide_True by (by left). by rewrite IH. }
  rewrite Hf. induction (jvalues (turns c)) as [|n l IH]; simpl; [done|]. by rewrite insert_turn_perm, IH.
Qed.

(** Exchanges filed anew under their ids. *)
Lemma refiled m l : NoDup (jkeys m ++ map exchange_id l) ->
  foldl (fun m e => jset (exchange_id e) e m) m l = m ++ map (fun e => (exchange_id e, e)) l.
Proof.
  revert m. induction l as [|e l IH]; intros m Hnd; simpl in *; [by rewrite app_nil_r|].
  assert (Hk : jget (exchange_id e) m = None).
  { apply jget_None. intros Hin. apply NoDup_app in Hnd as (_ & Hd & _). apply (Hd _ Hin). left. }
  rewrite jset_fresh by done. rewrite IH; [by rewrite <-app_assoc|]. unfold jkeys in *. rewrite map_app, <-app_assoc. done.
Qed.

(** Turns are put back one by one, each parsed. *)
Lemma restore_turns l c c' : NoDup (map (fun n => trim (turn_id n)) l) -> jforeach restore_turn l c = (c', Ok tt) ->
  (forall k, k ∉ map (fun n => trim (turn_id n)) l -> jget k (turns c') = jget k (turns c)) /\
  forall n, n ∈ l -> exists n', spatialConversationTurnSchema n = Some n' /\ jget (trim (turn_id n)) (turns c') = Some n'.
Proof.
  revert c. induction l as [|n l IH]; intros c Hnd H; simpl in *.
  - injection H as <-. split; [done|]. by intros n ?%elem_of_nil.
  - apply NoDup_cons in Hnd as [Hni Hnd]. unfold restore_turn, jbind, jread, jwrite, jlift in H. simpl in H.
    destruct (spatialConversationTurnSchema n) as [n'|] eqn:Hn; simpl in H; [|done].
    pose proof (turnSchema_spec _ _ Hn) as (Hid & _). apply IH in H as [Hother Hin]; [|done]. simpl in Hother. split.
    + intros k [Hne Hk]%not_elem_of_cons. rewrite Hother by done. apply jget_jset_ne. congruence.
    + intros x [->|Hx]%elem_of_cons; [|by apply Hin]. exists n'. split; [done|]. rewrite Hother by done.
      rewrite <-Hid. apply jget_jset_eq.
Qed.

(** The state [restore] leaves when it returns. *)
Lemma restore_inv s c c' : cv_restore gopts s c = (c', Ok tt) ->
  exists c1 c2, jforeach restore_turn (cs_turns s) c1 = (c2, Ok tt) /\ turns c' = turns c2 /\
    exchanges c' = foldl (fun m e => jset (exchange_id e) e m) [] (cs_exchanges s).
Proof.
  unfold cv_restore, jbind, jread, jwrite. intros H. destruct (on_graph _ _) as [c1 [u|e]]; simpl in H; [|done].
  destruct (jforeach restore_turn _ _) as [c2 [[]|e]] eqn:Ht; simpl in H; [|done]. injection H as <-. by eexists _, c2.
Qed.

Lemma restored_record c c2 c3 (ids : ids_ok) : conversation_inv c -> cv_restore gopts (cv_snapshot c) c2 = (c3, Ok tt) ->
  exchanges c3 = exchanges c /\
  forall id n, getTurn id c = Some n -> exists n', getTurn id c3 = Some n' /\
    tn_role n' = tn_role n /\ tn_state n' = tn_state n /\ tn_text n' = trim_text (tn_text n).
Proof.
  intros [I1 I2 _ I4 I5] (ca & cb & Ht & Hturns & Hex)%restore_inv. simpl in Ht, Hex. split.
  - assert (Hk : jall (fun k e => exchange_id e = k) (exchanges c)) by (by intros k e [? _]%I2).
    rewrite Hex, refiled by (simpl; by rewrite jvalues_keys). symmetry. by apply jmap_of_values.
  - assert (Hk : jall (fun k n => trim (turn_id n) = k) (turns c)).
    { intros k n (-> & i & _ & ->)%I1. apply (ids_trimmed ids). }
    apply restore_turns in Ht as [_ Ht]; [|by rewrite listTurns_perm, jvalues_keys].
    intros id n Hn. destruct (Ht n) as (n' & Hs & Hg).
    { rewrite listTurns_perm. apply elem_jvalues. exists id. by apply jget_elem. }
    rewrite (Hk _ _ Hn) in Hg. exists n'. split; [unfold getTurn; by rewrite Hturns|].
    apply turnSchema_spec in Hs as (_ & -> & -> & Hs). split_and!; [done..|].
    unfold turnTextSchema in Hs. destruct (_ <=? _) in Hs; [by injection Hs|done].
Qed.

(** C19. The durable record of a conversation is consistent, for an id factory
    that never repeats an id and whose ids carry no surrounding space, and a
    service clock that can be read. In every history of calls other than
    [restore], refused ones included and with any use of the session graph in
    between, an exchange is filed under its id, its operator turn and its
    response turn exist, the response keeps within its bound, the two texts
    agree up to stream separators, a completed turn holds the response text
    without them, the turn is in the state of the exchange unless the stream
    limit stopped it, and no two exchanges answer in the same turn. A [restore]
    of the snapshot taken at the end of such a history, on any service, brings
    back, if it returns, all these exchanges as they were and every turn with
    its role, its state and its text without surrounding space. *)
Theorem exchanges_agree_with_turns (ids : ids_ok) g c :
  rtc (conversation_step gopts opts) (new_conversation g) c ->
  (forall k e, jget k (exchanges c) = Some e ->
     exchange_id e = k /\ Z.of_nat (length (response_text e)) <= maxResponseChars opts /\ 1 <= attempt e /\
     (exists op, getTurn (operator_turn_id e) c = Some op /\ tn_role op = operator /\ tn_state op = T_COMPLETED) /\
     (exists n, getTurn (response_turn_id e) c = Some n /\ tn_role n = agent /\
        joined (tn_text n) = joined (response_text e) /\
        (ex_status e = X_COMPLETED -> tn_text n = joined (response_text e)) /\
        (tn_state n = turn_state_of (ex_status e) \/ ex_status e = X_FAILED /\ error_code e = Some STREAM_LIMIT)) /\
     forall k' e', jget k' (exchanges c) = Some e' -> response_turn_id e' = response_turn_id e -> k' = k) /\
  forall c2 c3, cv_restore gopts (cv_snapshot c) c2 = (c3, Ok tt) ->
    exchanges c3 = exchanges c /\
    forall id n, getTurn id c = Some n -> exists n', getTurn id c3 = Some n' /\
      tn_role n' = tn_role n /\ tn_state n' = tn_state n /\ tn_text n' = trim_text (tn_text n).
Proof.
  intros Hr. destruct (conversation_steps_ok ids _ _ (new_conversation_inv g) Hr) as [Hinv _].
  split; [|intros c2 c3; by apply restored_record]. intros k e Hk.
  destruct (inv_exchanges _ Hinv _ _ Hk) as (Hid & _ & Hlen & Ha & Hop & Hn). split_and!; [done..|].
  intros k' e' H' Heq. by eapply (inv_own _ Hinv).
Qed.

(** A rejected binding writes nothing: as long as the service does not
    listen to the binding of an exchange, no history of calls changes the
    exchange or its response turn, and each of the response handlers throws
    BINDING_REJECTED and leaves the conversation as it was. *)
Theorem rejected_binding_is_frozen (ids : ids_ok) g c c' k e :
  rtc (conversation_step gopts opts) (new_conversation g) c -> jget k (exchanges c) = Some e ->
  listens (binding_id e) = false -> rtc (conversation_step gopts opts) c c' ->
  jget k (exchanges c') = Some e /\ getTurn (response_turn_id e) c' = getTurn (response_turn_id e) c /\
  forall b now chunk code,
    appendResponseChunk opts k chunk b now c' = (c', Err BINDING_REJECTED) /\
    completeResponse opts k b now c' = (c', Err BINDING_REJECTED) /\
    failResponse opts k code b now c' = (c', Err BINDING_REJECTED) /\
    cancel opts k b now c' = (c', Err BINDING_REJECTED) /\
    timeout opts k b now c' = (c', Err BINDING_REJECTED).
Proof.
  intros Hr Hk Hl Hr'. destruct (conversation_steps_ok ids _ _ (new_conversation_inv g) Hr) as [Hinv _].
  destruct (conversation_steps_ok ids _ _ Hinv Hr') as [_ [_ Hev]]. destruct (Hev _ _ Hk) as (e' & Hk' & _ & Hf).
  destruct (Hf Hl) as [-> Ht]. split; [done|]. split; [done|]. intros b now chunk code.
  assert (Hb : forall b, cv_assertBinding opts e b = Err BINDING_REJECTED).
  { intros b'. destruct (cv_assertBinding opts e b') as [u|err] eqn:Heq; [apply binding_ok in Heq; congruence|].
    unfold cv_assertBinding, require in Heq. destruct (_ && _) in Heq; by simplify_eq. }
  unfold appendResponseChunk, completeResponse, failResponse, cancel, timeout, requireExchange, jbind, jread, jlift.
  rewrite Hk'. simpl. by rewrite !Hb.
Qed.

Lemma exchange_of_label intent c c' e l :
  map label_of (jvalues (exchanges c')) = map label_of (jvalues (exchanges c)) ++ l ->
  exchange_of intent c = Some e -> exists e', exchange_of intent c' = Some e' /\ exchange_id e' = exchange_id e.
Proof.
  unfold exchange_of. generalize (jvalues (exchanges c')) as v'. induction (jvalues (exchanges c)) as [|x v IH]; intros v' Hl; [done|].
  destruct v' as [|x' v']; [done|]. simpl in Hl. injection Hl as Hi Hx Hl. rewrite !filter_cons, Hx.
  case_decide; [|by apply IH]. intros [= ->]. by exists x'.
Qed.

(** One intent opens one exchange: once an exchange was opened for an
    intent, every later submission of that intent, after any history of calls,
    answers with that exchange as it then stands and leaves the conversation and
    the session graph untouched. *)
Theorem resubmission_opens_nothing (ids : ids_ok) g c c' sub session binding title now gnow e :
  en_workspace (sb_envelope sub) = co_workspace opts -> en_node (sb_envelope sub) = co_node opts ->
  rtc (conversation_step gopts opts) (new_conversation g) c ->
  exchange_of (intent_id (sb_envelope sub)) c = Some e ->
  rtc (conversation_step gopts opts) c c' ->
  exists e', submitIntent gopts opts sub session binding title now gnow c' = (c', Ok e') /\ exchange_id e' = exchange_id e /\
    getExchange (exchange_id e) c' = Some e'.
Proof.
  intros Hw Hn Hr He Hr'. destruct (conversation_steps_ok ids _ _ (new_conversation_inv g) Hr) as [Hinv _].
  destruct (conversation_steps_ok ids _ _ Hinv Hr') as [Hinv' [[l Hl] _]].
  destruct (exchange_of_label _ _ _ _ _ Hl He) as (e' & He' & Hid). exists e'. split.
  - unfold submitIntent, jbind, jlift, jread, jret, require, str_eqb. rewrite Hw, Hn, !bool_decide_eq_true_2 by done.
    by rewrite He'.
  - split; [done|]. unfold exchange_of in He'. apply head_Some_elem_of in He'.
    apply list_elem_of_filter in He' as [_ ([k x] & -> & Hin)%list_elem_of_fmap].
    apply elem_jget in Hin; [|apply (inv_nodup _ Hinv')]. destruct (inv_exchanges _ Hinv' _ _ Hin) as [Hk _].
    simpl in *. unfold getExchange. by rewrite <-Hid, Hk.
Qed.
End history.

Module ConversationWitness.
Fixpoint marks (n : nat) : string := match n with O => "" | S n => String "x" (marks n) end.
Definition ids (prefix : string) (n : nat) : string := prefix +:+ marks n.
Definition gopts : graph_options := GraphOptions "w" "n" None ids.
Definition listening (b : option string) : bool := negb (bool_decide (b = Some "old"%string)).
Definition opts : conversation_options := ConversationOptions "w" "n" "ann" ids (Some listening) None (Some 3).
Definition sub : submission := Submission accepted IntentWitness.e1 (safeAudit IntentWitness.e1 accepted).

Lemma marks_trim n : trim_end (marks n) = marks n.
Proof. induction n as [|n IH]; [done|]. simpl. rewrite IH. by destruct (marks n). Qed.

Lemma ids_fine : ids_ok opts.
Proof.
  assert (Hinj : forall n m, marks n = marks m -> n = m).
  { induction n as [|n IH]; intros [|m]; simpl; try done. intros [= H%IH]. by subst. }
  split; simpl.
  - intros n. unfold ids, trim. simpl. change ("" +:+ marks n)%string with (marks n). rewrite marks_trim. by destruct (marks n).
  - intros n m [= H]. by apply Hinj.
  - intros n m [= H]. by apply Hinj.
Qed.

Definition c0 : conversation := new_conversation new_graph.
Definition submitted (b : option string) (c : conversation) : conversation :=
  (submitIntent (zod := zod_ref) gopts opts sub None b None (Some 10) (Some 10) c).1.
Definition chunked (k : string) (t : text) (c : conversation) : conversation :=
  (appendResponseChunk opts k t None (Some 20) c).1.
Definition c1 : conversation := submitted None c0.
Definition x0 : string := "exchangexx".
Definition c2 : conversation := chunked x0 (units "hello <b>you</b>") c1.
Definition c3 : conversation := (completeResponse opts x0 None (Some 30) c2).1.
Definition o1 : conversation := submitted (Some "old"%string) c0.

Notation step := (conversation_step (zod := zod_ref) gopts opts).

Lemma submitted_step b : step c0 (submitted b c0).
Proof. exact (cv_submit _ _ c0 sub None b None 10 (Some 10) _ _ (surjective_pairing _)). Defined.

Lemma c3_reached : rtc step c1 c3.
Proof.
  apply (rtc_l _ c1 c2); [exact (cv_chunk _ _ c1 x0 _ None 20 c2 _ (surjective_pairing _))|].
  apply (rtc_l _ c2 c3); [exact (cv_complete _ _ c2 x0 None 30 c3 _ (surjective_pairing _))|]. apply rtc_refl.
Defined.

Definition done_exchange : exchange :=
  Exchange "exchangexx" "session" "intent-1" "intent-1" "turn" "turnx" None X_COMPLETED (units "hello you") 1 10 30 None.

Lemma exchanges_agree_with_turns_witness :
  jget x0 (exchanges c3) = Some done_exchange /\
  (exists n, getTurn "turnx" c3 = Some n /\ joined (tn_text n) = joined (units "hello you")) /\
  (cv_restore (zod := zod_ref) gopts (cv_snapshot c3) c1).2 = Ok tt /\
  exchanges (cv_restore (zod := zod_ref) gopts (cv_snapshot c3) c1).1 = exchanges c3.
Proof.
  assert (Hr : rtc step c0 c3) by (apply (rtc_l _ c0 c1); [exact (submitted_step None) | exact c3_reached]).
  pose proof (exchanges_agree_with_turns (zod := zod_ref) _ gopts opts ids_fine new_graph c3 Hr) as [Hx Hs].
  split; [vm_compute; reflexivity|]. split; [|split; [vm_compute; reflexivity|]].
  - destruct (Hx x0 done_exchange) as (_ & _ & _ & _ & (n & Hn & _ & Hj & _) & _); [vm_compute; reflexivity|].
    exists n. split; [exact Hn | exact Hj].
  - refine (proj1 (Hs c1 _ _)). vm_compute. reflexivity.
Defined.

Lemma rejected_binding_is_frozen_witness :
  completeResponse opts x0 None (Some 30) o1 = (o1, Err BINDING_REJECTED).
Proof.
  assert (Hk : exists e, jget x0 (exchanges o1) = Some e /\ listens opts (binding_id e) = false)
    by (eexists; vm_compute; split; reflexivity).
  destruct Hk as (e & Hk & Hl).
  exact (proj1 (proj2 (proj2 (proj2 (rejected_binding_is_frozen (zod := zod_ref) _ gopts opts ids_fine new_graph o1 o1 x0 e
    (rtc_once _ _ (submitted_step (Some "old"%string))) Hk Hl (rtc_refl _ _)) ) None (Some 30) [] None))).
Defined.

Lemma resubmission_opens_nothing_witness : exists e,
  submitIntent (zod := zod_ref) gopts opts sub None None None (Some 50) None c3 = (c3, Ok e) /\ exchange_id e = x0.
Proof.
  assert (He : exists e, exchange_of (intent_id (sb_envelope sub)) c1 = Some e /\ exchange_id e = x0)
    by (eexists; vm_compute; split; reflexivity).
  destruct He as (e & He & Hid).
  destruct (resubmission_opens_nothing (zod := zod_ref) _ gopts opts ids_fine new_graph c1 c3 sub None None None (Some 50) None e
    eq_refl eq_refl (rtc_once _ _ (submitted_step None)) He c3_reached) as (e' & H1 & H2 & _).
  exists e'. split; [exact H1 | exact (eq_trans H2 Hid)].
Defined.

Lemma safe_chunk_is_plain_witness : 0 <= 9 /\ Z.of_nat (length (safeChunk (units "<b>markup") 9)) <= 9.
Proof. split; [lia|]. exact (proj1 (safe_chunk_is_plain (units "<b>markup") 9 ltac:(lia))). Defined.

(** Removing a script scheme can leave another one. *)
Theorem nested_scheme_survives : safeChunk (units "javajavascript:script:x") 100 = units "javascript:x".
Proof. vm_compute. reflexivity. Qed.

(** Chunks are cleaned one by one: a tag split between two of them is in the
    response. *)
Theorem split_tag_survives :
  (response_text <$> jget x0 (exchanges (chunked x0 (units "ipt>") (chunked x0 (units "<scr") c1)))) = Some (units "<script>").
Proof. vm_compute. reflexivity. Qed.

(** The text ends with a separator, so splitting it counts one chunk too many:
    with a limit of three chunks the third is refused. *)
Theorem third_of_three_chunks_refused :
  let c := chunked x0 (units "b") (chunked x0 (units "a") c1) in
  snd (appendResponseChunk opts x0 (units "c") None (Some 20) c) = Err STREAM_LIMIT.
Proof. vm_compute. reflexivity. Qed.

(** The stream limit fails the exchange and leaves its turn streaming. *)
Theorem limited_turn_keeps_streaming :
  let c := chunked x0 (units "c") (chunked x0 (units "b") (chunked x0 (units "a") c1)) in
  (ex_status <$> jget x0 (exchanges c)) = Some X_FAILED /\ (tn_state <$> jget "turnx" (turns c)) = Some T_STREAMING.
Proof. vm_compute. split; reflexivity. Qed.

(** A completed exchange accepts another chunk and streams again. *)
Theorem completed_exchange_streams_again :
  (ex_status <$> jget x0 (exchanges (chunked x0 (units "more") c3))) = Some X_STREAMING.
Proof. vm_compute. reflexivity. Qed.

(** A full response and its separator are longer than the contract allows: the
    service refuses its own snapshot, after it cleared its turns. *)
Theorem full_response_cannot_be_restored :
  let c := chunked x0 (repeat 97 (Z.to_nat 32000)) c1 in
  let '(c', r) := cv_restore (zod := zod_ref) gopts (cv_snapshot c) c in
  r = Err INVALID_TURN /\ length (turns c) = 2%nat /\ length (turns c') = 1%nat.
Proof. vm_compute. split_and!; reflexivity. Qed.

(** Restoring the service's own snapshot trims the texts of the turns but not
    those of the exchanges: the two no longer agree. *)
Theorem restored_turn_loses_its_spaces :
  let c := chunked x0 (units " hello") c1 in
  let '(c', r) := cv_restore (zod := zod_ref) gopts (cv_snapshot c) c in
  r = Ok tt /\ (response_text <$> jget x0 (exchanges c')) = Some (units " hello") /\
  (joined <$> (tn_text <$> getTurn "turnx" c)) = Some (units " hello") /\
  (joined <$> (tn_text <$> getTurn "turnx" c')) = Some (units "hello").
Proof. vm_compute. split_and!; reflexivity. Qed.

(** The turn is stored before the graph accepts it: a refused submission leaves
    an operator turn without an exchange. *)
Theorem refused_submission_leaves_turn :
  let refusing := GraphOptions "w" "n" (Some (fun _ _ _ _ => false)) ids in
  let '(c, r) := submitIntent (zod := zod_ref) refusing opts sub None None None (Some 10) (Some 10) c0 in
  r = Err (CV_GRAPH UNAUTHORIZED_REFERENCE) /\ length (turns c) = 1%nat /\ exchanges c = [].
Proof. vm_compute. split_and!; reflexivity. Qed.
End ConversationWitness.
