(* ===== verification/SessionArtifacts.v ===== *)
(** * Session artifacts

    src/web/operator-dashboard/src/spatial/interaction/session-artifact.ts: the
    artifact a session of the graph collapses into, its restoring, branching and
    pinning, with the property that collapsing and restoring loses nothing of
    the session. *)

From stdpp Require Import relations.
From S2P Require Import Prelude.
From S2P Require Import Json.
From S2P Require Import Contracts.
From S2P Require Import SessionGraph.
From S2P Require Import SessionGraphProps.
From S2P Require Import Intent.

#[local] Open Scope Z_scope.

(** ** Data *)

Inductive artifact_state : Type := AR_ACTIVE | AR_ARCHIVED.
#[export] Instance artifact_state_eq_dec : EqDecision artifact_state.
Proof. solve_decision. Defined.

(** [SpatialArtifact]. *)
Record artifact : Type := Artifact {
  artifact_id : string;
  ar_session : string;
  ar_workspace : string;
  ar_node : string;
  ar_revision : Z;
  ar_title : string;
  ar_summary : string;
  turn_count : Z;
  ar_turns : list string;
  ar_objects : list string;
  ar_context_root : string;
  ar_state : artifact_state;
  pinned : bool;
  camera_snapshot : option (list (string * json));
  ar_created_at : iso;
  ar_updated_at : iso;
}.

(** [SessionArtifactErrorCode]; the errors of the session graph and of the clock
    pass through. *)
Inductive artifact_error : Type :=
| AR_SESSION_NOT_FOUND | ARTIFACT_NOT_FOUND | INVALID_ARTIFACT | STALE_ARTIFACT | AR_GRAPH (e : sg_error) | AR_RANGE_ERROR.
#[export] Instance artifact_error_eq_dec : EqDecision artifact_error.
Proof. solve_decision. Defined.

(** The argument of [collapse]. *)
Record collapse_input : Type := CollapseInput {
  ci_actor : string;
  ci_title : option string;
  ci_summary : option string;
  ci_camera : option (list (string * json));
}.

(** [SessionArtifactServiceOptions]; [ao_id n] is the [n]-th id of the factory. *)
Record artifact_options : Type := ArtifactOptions { ao_workspace : string; ao_node : string; ao_id : nat -> string }.

(** The service, with the session graph it shares. *)
Record artifact_service : Type := ArtifactService {
  as_graph : graph;
  artifacts : jsmap artifact;
  as_ids : nat;
}.

Definition write_artifact (k : string) (a : artifact) (s : artifact_service) : artifact_service :=
  ArtifactService (as_graph s) (jset k a (artifacts s)) (as_ids s).

(** The artifact an update leaves. *)
Definition revised (st : artifact_state) (pin : bool) (rev : Z) (t : iso) (a : artifact) : artifact :=
  Artifact (artifact_id a) (ar_session a) (ar_workspace a) (ar_node a) rev (ar_title a) (ar_summary a) (turn_count a)
    (ar_turns a) (ar_objects a) (ar_context_root a) st pin (camera_snapshot a) (ar_created_at a) t.

Section service.
Context {zod : Zod} (gopts : graph_options) (opts : artifact_options).

Definition spatialArtifactSchema (a : artifact) : option artifact :=
  id ← idSchema (artifact_id a);
  sess ← idSchema (ar_session a);
  ws ← idSchema (ar_workspace a);
  node ← idSchema (ar_node a);
  rev ← revisionSchema (ar_revision a);
  title ← labelSchema (ar_title a);
  summary ← z_string 0 2000 (trim (ar_summary a));
  count ← revisionSchema (turn_count a);
  turns ← z_array idSchema 10000 (ar_turns a);
  objects ← z_array idSchema 10000 (ar_objects a);
  root ← idSchema (ar_context_root a);
  camera ← structuredOperationSchema (camera_snapshot a);
  created ← timestampSchema (ar_created_at a);
  updated ← timestampSchema (ar_updated_at a);
  Some (Artifact id sess ws node rev title summary count turns objects root (ar_state a) (pinned a) camera created updated).

Definition as_iso (now : date) : result artifact_error iso := of_option now AR_RANGE_ERROR.

Definition as_idFactory : method artifact_service artifact_error string :=
  fun s => (ArtifactService (as_graph s) (artifacts s) (S (as_ids s)), Ok (ao_id opts (as_ids s))).

(** Run a method of the session graph. *)
Definition in_graph {A} (m : method graph sg_error A) : method artifact_service artifact_error A := fun s =>
  let '(g, r) := m (as_graph s) in
  (ArtifactService g (artifacts s) (as_ids s), match r with Ok a => Ok a | Err e => Err (AR_GRAPH e) end).

(** A call whose graph errors are swallowed. *)
Definition attempt_relation (input : relation_input) (now : date) : method artifact_service artifact_error unit := fun s =>
  let '(g, r) := addRelation gopts input now (as_graph s) in
  (ArtifactService g (artifacts s) (as_ids s), match r with Err SG_RANGE_ERROR => Err AR_RANGE_ERROR | _ => Ok tt end).

(** The artifact the session already names. *)
Definition known_artifact (ref : option string) (m : jsmap artifact) : option artifact :=
  if truthy ref then r ← ref; jget r m else None.

(** [collapse(sessionId, input)]; [gnow] is the clock of the graph. *)
Definition collapse (sessionId : string) (input : collapse_input) (now gnow : date)
  : method artifact_service artifact_error artifact :=
  let! s := jread in
  let! session := jlift (of_option (getSession sessionId (as_graph s)) AR_SESSION_NOT_FOUND) in
  match known_artifact (artifact_ref session) (artifacts s) with
  | Some existing => jret existing
  | None =>
      let! t := jlift (as_iso now) in
      let! id := as_idFactory in
      let! a := jlift (of_option (spatialArtifactSchema
        (Artifact id (session_id session) (ao_workspace opts) (ao_node opts) 0
           (trimmed_or_default (ci_title input) (session_title session))
           (trimmed_or_default (ci_summary input) (session_summary session))
           (Z.of_nat (length (turn_refs session))) (turn_refs session) (object_refs session) (context_root_ref session)
           AR_ACTIVE false (ci_camera input) t t)) INVALID_ARTIFACT) in
      let! s := jread in
      jwrite (write_artifact (artifact_id a) a s) ;!
      in_graph (updateSession (session_id session) (SessionPatch (Some S_COLLAPSED) None None (Some (Some (artifact_id a))))
        (Some (session_revision session)) gnow) ;!
      attempt_relation (RelationInput None PRODUCED (session_id session) (artifact_id a) (session_revision session + 1)
        (ar_revision a) (ci_actor input)) gnow ;!
      jret a
  end.

Definition require_artifact (id : string) (s : artifact_service) : result artifact_error artifact :=
  of_option (jget id (artifacts s)) ARTIFACT_NOT_FOUND.

(** [restore(artifactId)]. *)
Definition restoreArtifact (id : string) (now gnow : date) : method artifact_service artifact_error session :=
  let! s := jread in
  let! a := jlift (require_artifact id s) in
  let! session := jlift (of_option (getSession (ar_session a) (as_graph s)) AR_SESSION_NOT_FOUND) in
  let! t := jlift (as_iso now) in
  jwrite (write_artifact id (revised AR_ACTIVE (pinned a) (ar_revision a + 1) t a) s) ;!
  in_graph (updateSession (session_id session) (SessionPatch (Some S_ACTIVE) None None None)
    (Some (session_revision session)) gnow).

(** [branch(artifactId, input)]. *)
Definition branchArtifact (id intent actor : string) (title anchor : option string) (contextRefs : list string) (gnow : date)
  : method artifact_service artifact_error session :=
  let! s := jread in
  let! a := jlift (require_artifact id s) in
  in_graph (branchSession gopts (ar_session a) (SessionInput None intent actor
    (Some (default ("Branch of " +:+ ar_title a) title)) None (Some (default (ar_session a) anchor)) None None contextRefs None)
    gnow).

Definition fresh_revision (expected : option Z) (a : artifact) : result artifact_error unit :=
  require (match expected with Some e => bool_decide (e = ar_revision a) | None => true end) STALE_ARTIFACT.

(** The mutation of [pin] and [archive]; the clock is read after it began. *)
Definition revise (id : string) (st : artifact_state) (pin : bool) (a : artifact) (now : date)
  : method artifact_service artifact_error artifact :=
  let! s := jread in
  jwrite (write_artifact id (revised st pin (ar_revision a + 1) (ar_updated_at a) a) s) ;!
  let! t := jlift (as_iso now) in
  let a' := revised st pin (ar_revision a + 1) t a in
  let! s := jread in
  jwrite (write_artifact id a' s) ;!
  jret a'.

Definition pin (id : string) (pin : bool) (expected : option Z) (now : date) : method artifact_service artifact_error artifact :=
  let! s := jread in
  let! a := jlift (require_artifact id s) in
  jlift (fresh_revision expected a) ;!
  revise id (ar_state a) pin a now.

Definition archiveArtifact (id : string) (expected : option Z) (now : date) : method artifact_service artifact_error artifact :=
  let! s := jread in
  let! a := jlift (require_artifact id s) in
  jlift (fresh_revision expected a) ;!
  revise id AR_ARCHIVED (pinned a) a now.

Definition getArtifact (id : string) (s : artifact_service) : option artifact := jget id (artifacts s).
Definition listArtifacts (s : artifact_service) : list artifact := jvalues (artifacts s).

Definition restore_artifact (a : artifact) : method artifact_service artifact_error unit :=
  let! p := jlift (of_option (spatialArtifactSchema a) INVALID_ARTIFACT) in
  jlift (require (str_eqb (ar_workspace p) (ao_workspace opts) && str_eqb (ar_node p) (ao_node opts)) INVALID_ARTIFACT) ;!
  let! s := jread in
  jwrite (write_artifact (artifact_id p) p s).

(** [restoreSnapshot(artifacts)]. *)
Definition restoreSnapshot (l : list artifact) : method artifact_service artifact_error unit :=
  let! s := jread in
  jwrite (ArtifactService (as_graph s) [] (as_ids s)) ;!
  jforeach restore_artifact l.
End service.

(** [artifactTransition(prefersReducedMotion)]. *)
Definition artifactTransition (prefersReducedMotion : bool) : string := if prefersReducedMotion then "none" else "fade".

(** ** Properties *)

Section properties.
Context {zod : Zod} (laws : ZodLaws zod) (gopts : graph_options) (opts : artifact_options).

(** An update against the current revision succeeds and is what is read next. *)
Lemma updateSession_current k p t g s : keyed g -> getSession k g = Some s ->
  exists g', updateSession k p (Some (session_revision s)) (Some t) g = (g', Ok (assign_patch p s (session_revision s + 1) t)) /\
    keyed g' /\ getSession k g' = Some (assign_patch p s (session_revision s + 1) t) /\ session_id s = k.
Proof.
  intros Hk Hs. pose proof Hs as (i & Hi & Hh)%bind_Some. destruct (Hk k i Hi) as (s0 & Hs0 & Hid).
  rewrite Hh in Hs0. injection Hs0 as <-.
  assert (Hreq : requireSession k g = Ok (i, s)) by (unfold requireSession; rewrite Hi; simpl; by rewrite Hh).
  destruct (updateSession k p (Some (session_revision s)) (Some t) g) as [g' r] eqn:Hu.
  pose proof (updateSession_sound k p _ _ _ _ _ Hk Hu) as [Hk' _].
  unfold updateSession, jbind, jread, jlift, jwrite, jret in Hu. rewrite Hreq in Hu. simpl in Hu.
  unfold require in Hu. rewrite bool_decide_eq_true_2 in Hu by done. injection Hu as Hg <-.
  exists g'. split; [done|]. split; [done|]. split; [|done]. rewrite <-Hg. unfold getSession, session_at. simpl.
  rewrite jget_jset_eq. simpl. apply list_lookup_insert_eq. by eapply lookup_lt_Some.
Qed.

Lemma artifactSchema_spec a a' : spatialArtifactSchema a = Some a' ->
  artifact_id a' <> ""%string /\ ar_session a' = trim (ar_session a) /\ turn_count a' = turn_count a /\
  ar_turns a' = map trim (ar_turns a) /\ ar_objects a' = map trim (ar_objects a) /\ ar_state a' = ar_state a /\
  ar_revision a' = ar_revision a.
Proof.
  unfold spatialArtifactSchema, revisionSchema. intros H. inv_some. simpl.
  repeat match goal with H : idSchema _ = Some _ |- _ => apply idSchema_spec in H as [-> ?] end.
  repeat match goal with H : z_nonneg _ = Some _ |- _ => apply z_nonneg_sound in H as [-> _] end.
  repeat match goal with H : z_array idSchema _ _ = Some _ |- _ => apply z_array_ids in H as -> end. done.
Qed.

(** Collapsing loses nothing: after any history of the session graph,
    collapsing a session that has no artifact yet stores one that lists all its
    turns and objects, marks the session as collapsed into it and changes nothing
    else of the session; collapsing again answers with the same artifact and
    changes nothing; and restoring the artifact makes the session active again
    with every turn, object and text it had. *)
Theorem collapse_loses_nothing g m ids sessionId input t gt s c' a :
  rtc (sg_call gopts) new_graph g -> getSession sessionId g = Some s -> known_artifact (artifact_ref s) m = None ->
  trim sessionId = sessionId ->
  collapse gopts opts sessionId input (Some t) (Some gt) (ArtifactService g m ids) = (c', Ok a) ->
  let kept s' := session_id s' = sessionId /\ turn_refs s' = turn_refs s /\ object_refs s' = object_refs s /\
    session_title s' = session_title s /\ session_summary s' = session_summary s /\ parent_session_id s' = parent_session_id s in
  ar_session a = sessionId /\ ar_turns a = map trim (turn_refs s) /\ ar_objects a = map trim (object_refs s) /\
  turn_count a = Z.of_nat (length (turn_refs s)) /\ getArtifact (artifact_id a) c' = Some a /\
  (exists s', getSession sessionId (as_graph c') = Some s' /\ kept s' /\ session_status s' = S_COLLAPSED /\
     artifact_ref s' = Some (artifact_id a)) /\
  (forall input' now gnow, collapse gopts opts sessionId input' now gnow c' = (c', Ok a)) /\
  forall t2 gt2, exists c2 s2, restoreArtifact (artifact_id a) (Some t2) (Some gt2) c' = (c2, Ok s2) /\
    getSession sessionId (as_graph c2) = Some s2 /\ kept s2 /\ session_status s2 = S_ACTIVE /\
    forall input' now gnow, exists a2, collapse gopts opts sessionId input' now gnow c2 = (c2, Ok a2) /\ artifact_id a2 = artifact_id a.
Proof.
  intros Hg Hs Hknown Htrim H. cbv zeta.
  assert (Hk0 : keyed new_graph) by by intros ? ? ?. destruct (sg_calls_sound gopts _ _ Hk0 Hg) as [Hk _]. clear Hk0.
  unfold collapse, jbind, jread, jlift, jwrite, jret, as_idFactory, as_iso in H. simpl in H. rewrite Hs in H. simpl in H.
  rewrite Hknown in H. destruct (spatialArtifactSchema _) as [a0|] eqn:Ha; simpl in H; [|done].
  apply artifactSchema_spec in Ha as (Hne & Has & Hac & Hat & Hao & Hst & Hrev). simpl in *.
  destruct (updateSession_current sessionId (SessionPatch (Some S_COLLAPSED) None None (Some (Some (artifact_id a0)))) gt g s Hk Hs)
    as (g1 & Hu & Hk1 & Hs1 & Hid).
  unfold in_graph in H. simpl in H. rewrite Hid, Hu in H. unfold attempt_relation in H. simpl in H.
  destruct (addRelation gopts _ _ g1) as [g2 r2] eqn:Hr.
  pose proof (addRelation_effect gopts _ _ _ _ _ Hr) as (Hheap & Hsess & _).
  pose proof (addRelation_sound gopts _ _ _ _ _ Hk1 Hr) as [Hk2 _].
  assert (Hc : c' = ArtifactService g2 (jset (artifact_id a0) a0 m) (S ids) /\ a = a0)
    by (destruct r2 as [|[]]; by simplify_eq). destruct Hc as [-> ->]. clear H.
  set (s1 := assign_patch _ s _ _) in Hs1.
  assert (Hs2 : getSession sessionId g2 = Some s1) by (unfold getSession, session_at in *; by rewrite Hheap, Hsess).
  assert (Hs1' : (session_id s1 = sessionId /\ turn_refs s1 = turn_refs s /\ object_refs s1 = object_refs s /\
    session_title s1 = session_title s /\ session_summary s1 = session_summary s /\ parent_session_id s1 = parent_session_id s) /\
    session_status s1 = S_COLLAPSED /\ artifact_ref s1 = Some (artifact_id a0)) by by split_and!.
  clearbody s1. destruct Hs1' as (Hkept & Hst1 & Har1). pose proof (proj1 Hkept) as Hid1.
  assert (Hagain : forall b m', jget (artifact_id a0) m' = Some b -> known_artifact (Some (artifact_id a0)) m' = Some b).
  { intros b m' Hb. unfold known_artifact, truthy. simpl. by destruct (artifact_id a0). }
  rewrite Has, Hid, Htrim. split_and!; [done..| | | |].
  - unfold getArtifact. simpl. apply jget_jset_eq.
  - by exists s1.
  - intros input' now gnow. unfold collapse, jbind, jread, jlift. simpl. rewrite Hs2. simpl.
    rewrite Har1, (Hagain a0) by apply jget_jset_eq. done.
  - intros t2 gt2.
    destruct (updateSession_current sessionId (SessionPatch (Some S_ACTIVE) None None None) gt2 g2 s1 Hk2 Hs2)
      as (g3 & Hu3 & _ & Hs3 & _).
    exists (ArtifactService g3 (jset (artifact_id a0) (revised AR_ACTIVE (pinned a0) (ar_revision a0 + 1) t2 a0)
      (jset (artifact_id a0) a0 m)) (S ids)). eexists. split; [|split; [exact Hs3|]].
    + unfold restoreArtifact, require_artifact, jbind, jread, jlift, jwrite, as_iso. simpl. rewrite jget_jset_eq. simpl.
      rewrite Has, Hid, Htrim, Hs2. simpl. unfold in_graph. simpl. by rewrite Hid1, Hu3.
    + split; [done|]. split; [done|]. intros input' now gnow.
      exists (revised AR_ACTIVE (pinned a0) (ar_revision a0 + 1) t2 a0). split; [|done].
      unfold collapse, jbind, jread, jlift. simpl. rewrite Hs3. simpl. by rewrite Har1, (Hagain _ _ (jget_jset_eq _ _ _)).
Qed.
End properties.

Module ArtifactWitness.
Definition gopts : graph_options := GraphOptions "w" "n" None (fun p n => p).
Definition opts : artifact_options := ArtifactOptions "w" "n" (fun n => "artifact").
Definition input : collapse_input := CollapseInput "ann" None (Some " done "%string) None.
Definition g1 : graph :=
  (createSession (zod := zod_ref) gopts (SessionInput (Some "s"%string) "i" "ann" None None None None None [] None) (Some 1) new_graph).1.
Definition g2 : graph := (appendTurn gopts "s" "turn-1" "ann" (Some 0) (Some 2) g1).1.
Definition s2 : session :=
  Session "s" "w" "n" 1 S_ACTIVE "i" None None "session:s" "New interaction" "" ["turn-1"%string] [] "context" None 1 2.
Definition c0 : artifact_service := ArtifactService g2 [] 0.
Definition c1 : artifact_service := (collapse (zod := zod_ref) gopts opts "s" input (Some 3) (Some 3) c0).1.
Definition a1 : artifact :=
  Artifact "artifact" "s" "w" "n" 0 "New interaction" "done" 1 ["turn-1"%string] [] "context" AR_ACTIVE false None 3 3.

Lemma collapse_loses_nothing_witness : exists c2 s3,
  restoreArtifact "artifact" (Some 4) (Some 4) c1 = (c2, Ok s3) /\ session_status s3 = S_ACTIVE /\ turn_refs s3 = ["turn-1"%string].
Proof.
  destruct (collapse_loses_nothing (zod := zod_ref) _ gopts opts g2 [] 0%nat "s" input 3 3 s2 c1 a1) as (_ & _ & _ & _ & _ & _ & _ & H).
  - apply (rtc_l _ new_graph g1); [eapply call_create; [|exact (surjective_pairing _)]; reflexivity|].
    apply (rtc_l _ g1 g2); [exact (call_turn _ _ "s" "turn-1" "ann" (Some 0) (Some 2) _ _ (surjective_pairing _))|]. apply rtc_refl.
  - vm_compute. reflexivity.
  - reflexivity.
  - reflexivity.
  - vm_compute. reflexivity.
  - destruct (H 4 4) as (c2 & s3 & H1 & _ & (_ & H2 & _) & H3 & _). exists c2, s3. exact (conj H1 (conj H3 H2)).
Defined.

(** A restored session still names its artifact: collapsing it again answers with
    the old artifact, without the turns since, and leaves the session active. *)
Theorem restored_session_collapses_no_more :
  let c2 := (restoreArtifact "artifact" (Some 4) (Some 4) c1).1 in
  let c3 := ArtifactService (appendTurn gopts "s" "turn-2" "ann" (Some 0) (Some 5) (as_graph c2)).1 (artifacts c2) (as_ids c2) in
  let '(c4, r) := collapse (zod := zod_ref) gopts opts "s" input (Some 6) (Some 6) c3 in
  (ar_turns <$> getArtifact "artifact" c4) = Some ["turn-1"%string] /\
  (turn_refs <$> getSession "s" (as_graph c4)) = Some ["turn-1"%string; "turn-2"%string] /\
  (session_status <$> getSession "s" (as_graph c4)) = Some S_ACTIVE.
Proof. vm_compute. split_and!; reflexivity. Qed.
End ArtifactWitness.
