(* ===== verification/GeneratedObjects.v ===== *)
(** * Generated objects

    src/web/operator-dashboard/src/spatial/interaction/generated-object.ts: the
    tables, charts and reports a turn of a session produced, filed beside the
    session graph, with the property that they stay. The data of an object are
    JSON; [fresh] is what the id factory returns when it is called, and the clock
    of the graph is read once for each of its calls. *)

From stdpp Require Import relations.
From S2P Require Import Prelude.
From S2P Require Import Json.
From S2P Require Import Contracts.
From S2P Require Import SessionGraph.
From S2P Require Import SessionGraphProps.
From S2P Require Import Numbers.

#[local] Open Scope Z_scope.

(** ** Data *)

Inductive object_kind : Type := OBJECT | TABLE | CHART | FILE | REPORT.
#[export] Instance object_kind_eq_dec : EqDecision object_kind.
Proof. solve_decision. Defined.

Inductive object_state : Type := OB_ACTIVE | OB_COLLAPSED | OB_PINNED | OB_ARCHIVED.
#[export] Instance object_state_eq_dec : EqDecision object_state.
Proof. solve_decision. Defined.

Inductive region : Type := RG_WORKSPACE | RG_FOCUS | RG_ARTIFACT.
#[export] Instance region_eq_dec : EqDecision region.
Proof. solve_decision. Defined.

(** [SpatialGeneratedObject]. *)
Record generated : Type := Generated {
  object_id : string;
  ob_session : string;
  ob_workspace : string;
  ob_node : string;
  ob_turn : string;
  ob_revision : Z;
  ob_kind : object_kind;
  ob_state : object_state;
  ob_title : string;
  ob_summary : string;
  ob_source : string;
  ob_anchor : string;
  ob_region : region;
  focus_required : bool;
  ob_data : jsmap json;
  ob_created : iso;
  ob_updated : iso;
}.

(** [GeneratedObjectErrorCode]; the errors of the graph and of the clock pass
    through. *)
Inductive object_error : Type :=
| OB_SESSION_NOT_FOUND | SOURCE_TURN_NOT_FOUND | OBJECT_NOT_FOUND | STALE_OBJECT | OBJECT_LIMIT | INVALID_OBJECT
| OB_GRAPH (e : sg_error) | OB_RANGE_ERROR.
#[export] Instance object_error_eq_dec : EqDecision object_error.
Proof. solve_decision. Defined.

(** [GeneratedObjectServiceOptions], as the constructor keeps them. *)
Record object_options : Type := ObjectOptions {
  oo_workspace : string;
  oo_node : string;
  maxObjectsPerSession : jsnum;
}.
Definition object_options_of (ws node : string) (max : option jsnum) : object_options :=
  ObjectOptions ws node (num_max (num 1) (default (num 64) max)).

(** The service, with the session graph it shares. *)
Record object_service : Type := ObjectService {
  os_graph : graph;
  objects : jsmap generated;
}.

(** The argument of [create]. *)
Record object_input : Type := ObjectInput {
  oi_session : string;
  oi_turn : string;
  oi_actor : string;
  oi_kind : string;
  oi_title : string;
  oi_summary : option string;
  oi_anchor : option string;
  oi_region : option region;
  oi_focus : option bool;
  oi_data : option (jsmap json);
}.

(** The patch of [update]. *)
Record object_patch : Type := ObjectPatch {
  op_title : option string;
  op_summary : option string;
  op_data : option (jsmap json);
  op_state : option object_state;
}.

Definition mapPresentationToGeneratedObjectKind (v : string) : object_kind :=
  let n := to_upper v in
  if str_eqb n "TABLE" then TABLE else if str_eqb n "CHART" then CHART else if str_eqb n "FILE" then FILE
  else if str_eqb n "REPORT" then REPORT else OBJECT.

(** [{ ...a, ...b }]. *)
Definition spread (a b : jsmap json) : jsmap json := foldl (fun m kv => jset kv.1 kv.2 m) a b.

(** The mutations of [update] before the clock is read; [t] is [updated_at]. *)
Definition patched (p : object_patch) (t : iso) (o : generated) : generated :=
  let title := match op_title p with Some x => if str_eqb (trim x) "" then ob_title o else trim x | None => ob_title o end in
  Generated (object_id o) (ob_session o) (ob_workspace o) (ob_node o) (ob_turn o) (ob_revision o + 1) (ob_kind o)
    (default (ob_state o) (op_state p)) title (default (ob_summary o) (trim <$> op_summary p)) (ob_source o) (ob_anchor o)
    (ob_region o) (focus_required o) (default (ob_data o) (spread (ob_data o) <$> op_data p)) (ob_created o) t.

Definition write_object (k : string) (o : generated) (s : object_service) : object_service :=
  ObjectService (os_graph s) (jset k o (objects s)).

Section service.
Context {zod : Zod} (gopts : graph_options) (opts : object_options).

Definition spatialGeneratedObjectSchema (o : generated) : option generated :=
  id ← idSchema (object_id o);
  sess ← idSchema (ob_session o);
  ws ← idSchema (ob_workspace o);
  node ← idSchema (ob_node o);
  turn ← idSchema (ob_turn o);
  rev ← revisionSchema (ob_revision o);
  title ← labelSchema (ob_title o);
  summary ← z_string 0 2000 (trim (ob_summary o));
  src ← idSchema (ob_source o);
  anchor ← idSchema (ob_anchor o);
  data ← mapM (fun kv => k ← z_string 1 128 kv.1; Some (k, kv.2)) (ob_data o);
  created ← timestampSchema (ob_created o);
  updated ← timestampSchema (ob_updated o);
  Some (Generated id sess ws node turn rev (ob_kind o) (ob_state o) title summary src anchor (ob_region o) (focus_required o)
          data created updated).

Definition ob_iso (now : date) : result object_error iso := of_option now OB_RANGE_ERROR.

(** Run a method of the session graph. *)
Definition on_graph {A} (m : method graph sg_error A) : method object_service object_error A :=
  jzoom os_graph (fun g s => ObjectService g (objects s)) OB_GRAPH m.

(** Rethrows what is not [STALE_REFERENCE]. *)
Definition swallow_stale (e : object_error) : method object_service object_error unit :=
  if decide (e = OB_GRAPH STALE_REFERENCE) then jret tt else jthrow e.

(** The objects of a session that are not archived. *)
Definition live_objects (session : string) (m : jsmap generated) : list generated :=
  filter (fun o => ob_session o = session /\ ob_state o <> OB_ARCHIVED) (jvalues m).

Definition new_object (i : object_input) (s : session) (fresh : string) (t : iso) : generated :=
  let focus := str_eqb (oi_kind i) "REPORT" || str_eqb (oi_kind i) "CHART" in
  let title := trim (oi_title i) in
  Generated fresh (oi_session i) (oo_workspace opts) (oo_node opts) (oi_turn i) 0
    (mapPresentationToGeneratedObjectKind (oi_kind i)) OB_ACTIVE
    (if str_eqb title "" then "Generated object"%string else title) (default ""%string (trim <$> oi_summary i)) (oi_turn i)
    (default (semantic_anchor s) (oi_anchor i)) (default (if focus then RG_FOCUS else RG_WORKSPACE) (oi_region i))
    (default focus (oi_focus i)) (default [] (oi_data i)) t t.

(** [create(input)]; [gnow] and [gnow2] are the clock of the graph. *)
Definition create (i : object_input) (fresh : string) (now gnow gnow2 : date) : method object_service object_error generated :=
  let! s := jread in
  let! session := jlift (of_option (getSession (oi_session i) (os_graph s)) OB_SESSION_NOT_FOUND) in
  jlift (require (bool_decide (oi_turn i ∈ turn_refs session)) SOURCE_TURN_NOT_FOUND) ;!
  let count := length (live_objects (oi_session i) (objects s)) in
  jlift (require (negb (num_le (maxObjectsPerSession opts) (num (Z.of_nat count)))) OBJECT_LIMIT) ;!
  let! t := jlift (ob_iso now) in
  let! o := jlift (of_option (spatialGeneratedObjectSchema (new_object i session fresh t)) INVALID_OBJECT) in
  jwrite (write_object (object_id o) o s) ;!
  on_graph (appendObject gopts (oi_session i) (object_id o) (oi_actor i) (Some (ob_revision o)) gnow) ;!
  jcatch (on_graph (addRelation gopts (RelationInput None PRODUCED (oi_turn i) (object_id o) 0 (ob_revision o) (oi_actor i)) gnow2) ;! jret tt)
    swallow_stale ;!
  jret o.

Definition getObject (id : string) (s : object_service) : option generated := jget id (objects s).

(** [list(sessionId)]; no session and an empty one select all. *)
Definition listObjects (session : option string) (s : object_service) : list generated :=
  filter (fun o => truthy session = false \/ Some (ob_session o) = session) (jvalues (objects s)).

(** [update(objectId, patch, expectedRevision)]: the stored object is mutated
    before the clock is read. *)
Definition update (id : string) (p : object_patch) (expected : option Z) (now : date)
  : method object_service object_error generated :=
  let! s := jread in
  let! o := jlift (of_option (jget id (objects s)) OBJECT_NOT_FOUND) in
  jlift (require (match expected with Some e => bool_decide (e = ob_revision o) | None => true end) STALE_OBJECT) ;!
  jwrite (write_object id (patched p (ob_updated o) o) s) ;!
  let! t := jlift (ob_iso now) in
  let! s := jread in
  jwrite (write_object (object_id o) (patched p t o) s) ;!
  jret (patched p t o).

Definition state_patch (st : object_state) : object_patch := ObjectPatch None None None (Some st).
Definition collapse (id : string) := update id (state_patch OB_COLLAPSED).
Definition pin (id : string) := update id (state_patch OB_PINNED).
Definition archive (id : string) := update id (state_patch OB_ARCHIVED).
Definition restore (id : string) := update id (state_patch OB_ACTIVE).

Definition snapshot (s : object_service) : list generated := listObjects None s.

Definition restore_object (o : generated) : method object_service object_error unit :=
  let! p := jlift (of_option (spatialGeneratedObjectSchema o) INVALID_OBJECT) in
  jlift (require (str_eqb (ob_workspace p) (oo_workspace opts) && str_eqb (ob_node p) (oo_node opts)) INVALID_OBJECT) ;!
  let! s := jread in
  jwrite (write_object (object_id p) p s).

(** [restoreSnapshot(objects)]. *)
Definition restoreSnapshot (l : list generated) : method object_service object_error unit :=
  let! s := jread in
  jwrite (ObjectService (os_graph s) []) ;!
  jforeach restore_object l.

(** One call, returning or throwing, on a graph that others change as well. The
    id factory does not repeat itself. *)
Inductive object_step (s : object_service) : object_service -> Prop :=
| st_create i fresh now gnow gnow2 s' r : jget (trim fresh) (objects s) = None ->
    create i fresh now gnow gnow2 s = (s', r) -> object_step s s'
| st_update id p expected now s' r : update id p expected now s = (s', r) -> object_step s s'
| st_graph g : object_step s (ObjectService g (objects s)).
End service.

(** ** Properties *)

Section properties.
Context {zod : Zod} {laws : ZodLaws zod} (gopts : graph_options) (opts : object_options).

(** What the contract keeps of an object. *)
Lemma objectSchema_spec o o' : spatialGeneratedObjectSchema o = Some o' ->
  object_id o' = trim (object_id o) /\ object_id o' <> ""%string /\ ob_session o' = trim (ob_session o) /\ ob_turn o' = trim (ob_turn o) /\
  ob_revision o' = ob_revision o /\ ob_state o' = ob_state o /\ ob_kind o' = ob_kind o /\ ob_data o' = ob_data o.
Proof using laws.
  unfold spatialGeneratedObjectSchema, revisionSchema. intros H. inv_some.
  cbn [object_id ob_session ob_turn ob_revision ob_state ob_kind ob_data].
  repeat match goal with H : idSchema _ = Some _ |- _ => apply idSchema_spec in H as [-> ?] end.
  repeat match goal with H : z_nonneg _ = Some _ |- _ => apply z_nonneg_sound in H as [-> _] end.
  split_and!; try done. match goal with H : mapM _ _ = Some _ |- _ => apply mapM_Some in H; rename H into Hm end.
  induction Hm as [|[k v] [k' v'] l l' Hx _ IH]; [done|]. apply bind_Some in Hx as (k2 & [-> _]%z_string_sound & [= -> ->]). by rewrite IH.
Qed.

Lemma create_inv i fresh now gnow gnow2 s s' r : create gopts opts i fresh now gnow gnow2 s = (s', r) ->
  (s' = s /\ exists e, r = Err e) \/
  exists session t o g1 r1,
    getSession (oi_session i) (os_graph s) = Some session /\ oi_turn i ∈ turn_refs session /\ now = Some t /\
    num_le (maxObjectsPerSession opts) (num (Z.of_nat (length (live_objects (oi_session i) (objects s))))) = false /\
    spatialGeneratedObjectSchema (new_object opts i session fresh t) = Some o /\
    objects s' = jset (object_id o) o (objects s) /\
    appendObject gopts (oi_session i) (object_id o) (oi_actor i) (Some (ob_revision o)) gnow (os_graph s) = (g1, r1) /\
    (forall o', r = Ok o' -> o' = o /\ is_ok r1 = true /\ g_heap (os_graph s') = g_heap g1 /\ g_sessions (os_graph s') = g_sessions g1).
Proof.
  unfold create, jbind, jlift, jread, jwrite, jret, ob_iso. intros H.
  destruct (getSession _ _) as [session|]; cbn [of_option] in H; [|injection H as <- <-; left; by eauto].
  destruct (require (bool_decide _) _) as [u|] eqn:Ht; [|injection H as <- <-; left; by eauto].
  destruct (num_le _ _) eqn:Hc; cbn [negb require] in H; [injection H as <- <-; left; by eauto|].
  destruct now as [t|]; cbn [of_option] in H; [|injection H as <- <-; left; by eauto].
  destruct (spatialGeneratedObjectSchema _) as [o|] eqn:Ho; cbn [of_option] in H; [|injection H as <- <-; left; by eauto].
  apply require_ok, bool_decide_eq_true in Ht. right. unfold on_graph in H.
  destruct (jzoom _ _ _ (appendObject _ _ _ _ _ _) _) as [s1 r1'] eqn:Hz. apply jzoom_inv in Hz as (g1 & r1 & Ha & -> & ->).
  exists session, t, o, g1, r1. cbn [os_graph write_object] in Ha. split_and!; try done.
  - destruct r1; [|by injection H as <- <-]. revert H. unfold jcatch, jzoom. cbn -[addRelation].
    destruct (addRelation gopts _ _ _) as [g2 [x|e]]; cbn; [by intros [= <- <-]|].
    unfold swallow_stale. by destruct (decide _); intros [= <- <-].
  - intros o' ->. destruct r1; [|done]. revert H. unfold jcatch, jzoom. cbn -[addRelation].
    destruct (addRelation gopts _ _ _) as [g2 [x|e]] eqn:Hr; apply addRelation_effect in Hr as (Hh & Hs & _); cbn;
      [by intros [= <- <-]|]. unfold swallow_stale. by destruct (decide _); intros [= <- <-].
Qed.

Lemma update_inv id p expected now s s' r : update id p expected now s = (s', r) ->
  (s' = s /\ exists e, r = Err e) \/
  exists o, jget id (objects s) = Some o /\ (expected = None \/ expected = Some (ob_revision o)) /\ os_graph s' = os_graph s /\
    ((now = None /\ r = Err OB_RANGE_ERROR /\ objects s' = jset id (patched p (ob_updated o) o) (objects s)) \/
     exists t, now = Some t /\ r = Ok (patched p t o) /\
       objects s' = jset (object_id o) (patched p t o) (jset id (patched p (ob_updated o) o) (objects s))).
Proof.
  unfold update, jbind, jlift, jread, jwrite, jret, ob_iso. intros H.
  destruct (jget id (objects s)) as [o|] eqn:Ho; cbn [of_option] in H; [|injection H as <- <-; left; by eauto].
  destruct (require _ STALE_OBJECT) as [u|] eqn:He; [|injection H as <- <-; left; by eauto].
  right. exists o. split; [done|]. split.
  { apply require_ok in He. destruct expected as [e|]; [right; f_equal; by apply bool_decide_eq_true in He|by left]. }
  destruct now as [t|]; cbn [of_option] in H; injection H as <- <-; (split; [done|]); [right; by exists t|by left].
Qed.

(** What an object keeps from the turn that produced it. *)
Definition same_object (o o' : generated) : Prop :=
  object_id o' = object_id o /\ ob_session o' = ob_session o /\ ob_workspace o' = ob_workspace o /\ ob_node o' = ob_node o /\
  ob_turn o' = ob_turn o /\ ob_kind o' = ob_kind o /\ ob_source o' = ob_source o /\ ob_anchor o' = ob_anchor o /\
  ob_region o' = ob_region o /\ focus_required o' = focus_required o /\ ob_created o' = ob_created o.
(** Nothing of its data is dropped, only replaced. *)
Definition grown (o o' : generated) : Prop :=
  (o' = o \/ ob_revision o < ob_revision o') /\ forall k, is_Some (jget k (ob_data o)) -> is_Some (jget k (ob_data o')).

Lemma spread_keeps a b k : is_Some (jget k a) -> is_Some (jget k (spread a b)).
Proof.
  unfold spread. revert a. induction b as [|[k' v] b IH]; intros a Hk; [done|]. cbn [foldl]. by apply IH, jget_jset_is_Some.
Qed.

Lemma patched_later p t o : same_object o (patched p t o) /\ grown o (patched p t o).
Proof.
  split; [done|]. split; [right; cbn; lia|]. intros k Hk. cbn [patched ob_data]. destruct (op_data p); cbn; [by apply spread_keeps|done].
Qed.

Definition filed_objects (m : jsmap generated) : Prop := jall (fun k o => object_id o = k) m.

(** Every object of the one map is in the other, later. *)
Definition stays (m m' : jsmap generated) : Prop :=
  forall k o, jget k m = Some o -> exists o', jget k m' = Some o' /\ same_object o o' /\ grown o o'.

Lemma stays_refl m : stays m m.
Proof. intros k o Ho. exists o. split; [done|]. by split; [|split; [left|]]. Qed.

Lemma stays_trans m1 m2 m3 : stays m1 m2 -> stays m2 m3 -> stays m1 m3.
Proof.
  intros H12 H23 k o Ho. destruct (H12 _ _ Ho) as (o2 & H2 & Hs2 & [Hg2 Hd2]). destruct (H23 _ _ H2) as (o3 & H3 & Hs3 & [Hg3 Hd3]).
  exists o3. split; [done|]. split; [unfold same_object in *; intuition congruence|]. split; [|by auto].
  destruct Hg2 as [-> |?], Hg3 as [-> |?]; auto. right. lia.
Qed.

Lemma stays_jset k o m : jget k m = None -> stays m (jset k o m).
Proof.
  intros Hk k' x Hx. exists x. rewrite jget_jset_ne by congruence. split; [done|]. by split; [|split; [left|]].
Qed.

Lemma object_step_keeps s s' : object_step gopts opts s s' -> filed_objects (objects s) ->
  filed_objects (objects s') /\ stays (objects s) (objects s').
Proof using laws.
  intros [i fresh now gnow gnow2 s1 r Hf H|id p expected now s1 r H|g] Hfiled; [| |by split; [|apply stays_refl]].
  - apply create_inv in H as [[-> _]|(se & t & o & g1 & r1 & _ & _ & _ & _ & Ho & -> & _)]; [by split; [|apply stays_refl]|].
    apply objectSchema_spec in Ho as (Hid & _). cbn [object_id new_object] in Hid.
    split; [by apply jall_jset|]. apply stays_jset. by rewrite Hid.
  - apply update_inv in H as [[-> _]|(o & Ho & _ & _ & H)]; [by split; [|apply stays_refl]|].
    assert (Hid : object_id o = id) by by apply Hfiled.
    assert (Hget : exists t, forall k, jget k (objects s1) = if str_eqb id k then Some (patched p t o) else jget k (objects s)).
    { destruct H as [(_ & _ & ->)|(t & _ & _ & ->)]; [exists (ob_updated o)|exists t]; intros k; rewrite ?Hid, !jget_jset;
        by destruct (str_eqb id k). }
    destruct Hget as (t & Hget). split; intros k x; rewrite ?Hget.
    + destruct (str_eqb id k) eqn:He; [|by apply Hfiled]. apply str_eqb_eq in He as <-. by intros [= <-].
    + intros Hx. rewrite ?Hget. destruct (str_eqb id k) eqn:He; [|by apply stays_refl].
      apply str_eqb_eq in He as <-. rewrite Ho in Hx. injection Hx as <-. eexists. split; [done|]. apply patched_later.
Qed.

Lemma object_steps_keep s s' : rtc (object_step gopts opts) s s' -> filed_objects (objects s) ->
  filed_objects (objects s') /\ stays (objects s) (objects s').
Proof using laws.
  intros H. induction H as [|s1 s2 s3 Hs _ IH]; intros Hf; [by split; [|apply stays_refl]|].
  destruct (object_step_keeps _ _ Hs Hf) as [Hf2 H12]. destruct (IH Hf2) as [Hf3 H23]. split; [done|]. by eapply stays_trans.
Qed.
End properties.

Section claims.
Context {zod : Zod} {laws : ZodLaws zod} (gopts : graph_options) (opts : object_options).


(** What appending to a session does to it. *)
Lemma appendObject_ok k ref actor rev now g g1 s1 : keyed g -> appendObject gopts k ref actor rev now g = (g1, Ok s1) ->
  exists s0, getSession k g = Some s0 /\ getSession k g1 = Some s1 /\ turn_refs s1 = turn_refs s0 /\
    object_refs s1 = push_new ref (object_refs s0).
Proof.
  intros Hk H. unfold appendObject, jbind at 1 2, jread, jlift in H.
  destruct (requireSession k g) as [[i s]|e] eqn:Hreq; [|done]. apply requireSession_ok in Hreq as [Hi Hs].
  destruct (Hk k i Hi) as (s' & Hs' & Hid). rewrite Hs in Hs'. injection Hs' as <-. exists s.
  split; [unfold getSession, session_at; by rewrite Hi|]. unfold mutate, sg_iso, jbind, jread, jwrite, jlift, jret in H.
  destruct now as [t|]; cbn -[addRelation] in H; [|done].
  destruct (addRelation gopts _ _ _) as [g2 [x|e]] eqn:Hr; [|done]. injection H as <- <-.
  apply addRelation_effect in Hr as (Hh & Hse & _). split; [|done]. unfold getSession, session_at. rewrite Hse, Hh.
  cbn [g_sessions g_heap set_session_map set_heap session_id bump]. rewrite Hid, jget_jset_eq. cbn.
  apply list_lookup_insert_eq. rewrite length_insert. by eapply lookup_lt_Some.
Qed.

(** Creating an object succeeds only for a turn of a known session, and then the
    session lists the object beside what it had. *)
Theorem created_object_is_linked i fresh now gnow gnow2 s s' o :
  keyed (os_graph s) -> create gopts opts i fresh now gnow gnow2 s = (s', Ok o) ->
  exists before after, getSession (oi_session i) (os_graph s) = Some before /\ oi_turn i ∈ turn_refs before /\
    getSession (oi_session i) (os_graph s') = Some after /\ object_refs after = push_new (object_id o) (object_refs before) /\
    turn_refs after = turn_refs before /\
    getObject (object_id o) s' = Some o /\ object_id o = trim fresh /\ ob_revision o = 0 /\ ob_state o = OB_ACTIVE.
Proof using laws.
  intros Hkeyed H. apply create_inv in H as [[_ [e ?]]|(se & t & ob & g1 & r1 & Hs & Ht & _ & _ & Hx & Hobj & Ha & Hok)]; [done|].
  destruct (Hok o eq_refl) as (<- & Hr1 & Hh & Hses). apply objectSchema_spec in Hx as (Hid & _ & _ & _ & Hrev & Hst & _).
  destruct r1 as [s1|]; [|done]. apply appendObject_ok in Ha as (s0 & Hs0 & Hs1 & Hturns & Hrefs); [|done].
  rewrite Hs in Hs0. injection Hs0 as <-. exists se, s1. split_and!; try done.
  - unfold getSession, session_at in *. by rewrite Hses, Hh.
  - unfold getObject. rewrite Hobj. apply jget_jset_eq.
Qed.

(** Restoring a snapshot whose objects the contract accepts as they are gives the
    same objects, in the same order. *)
Lemma restore_objects l m g : NoDup (jkeys m ++ map object_id l) ->
  Forall (fun o => spatialGeneratedObjectSchema o = Some o /\ ob_workspace o = oo_workspace opts /\ ob_node o = oo_node opts) l ->
  jforeach (restore_object opts) l (ObjectService g m) = (ObjectService g (m ++ map (fun o => (object_id o, o)) l), Ok tt).
Proof.
  revert m. induction l as [|o l IH]; intros m Hn Hl; [by rewrite app_nil_r|].
  apply Forall_cons in Hl as [(Ho & Hw & Hnode) Hl]. rewrite (jforeach_cons_ok _ _ _ _ (ObjectService g (jset (object_id o) o m))).
  - assert (Hfresh : jget (object_id o) m = None).
    { apply jget_None. intros Hin. apply NoDup_app in Hn as (_ & Hn & _). apply (Hn _ Hin). left. }
    rewrite (jset_fresh _ _ _ Hfresh), IH; [cbn [map]; by rewrite <-app_assoc| |done].
    unfold jkeys in *. rewrite map_app. cbn [map] in *. by rewrite <-app_assoc.
  - unfold restore_object, jbind, jlift, jread, jwrite. rewrite Ho. cbn [of_option]. by rewrite Hw, Hnode, !str_eqb_refl.
Qed.

Theorem restored_snapshot_is_the_same g m g' m' :
  NoDup (jkeys m) -> filed_objects m ->
  Forall (fun o => spatialGeneratedObjectSchema o = Some o /\ ob_workspace o = oo_workspace opts /\ ob_node o = oo_node opts) (jvalues m) ->
  restoreSnapshot opts (snapshot (ObjectService g m)) (ObjectService g' m') = (ObjectService g' m, Ok tt).
Proof.
  intros Hn Hf Hall. assert (Hs : snapshot (ObjectService g m) = jvalues m).
  { unfold snapshot, listObjects. cbn [objects]. clear Hall. induction (jvalues m) as [|o l IH]; [done|]. rewrite filter_cons_True by (by left). by rewrite IH. }
  rewrite Hs. unfold restoreSnapshot, jbind, jread, jwrite. cbn [os_graph]. rewrite restore_objects; [|cbn [jkeys map app]|done].
  - by rewrite <-(jmap_of_values object_id m Hn Hf).
  - by rewrite (jvalues_keys object_id _ Hn Hf).
Qed.
End claims.

Module ObjectWitness.
#[local] Existing Instance zod_ref.
Definition gopts : graph_options := GraphOptions "w" "n" None (fun p n => p).
Definition opts : object_options := object_options_of "w" "n" (Some (num 1)).
Definition g1 : graph :=
  (createSession gopts (SessionInput (Some "s"%string) "i" "ann" None None None None None [] None) (Some 1) new_graph).1.
Definition g2 : graph := (appendTurn gopts "s" "turn-1" "ann" (Some 0) (Some 2) g1).1.
Definition a_chart (kind : string) (session : string) : object_input :=
  ObjectInput session "turn-1" "ann" kind " Load " None None None None (Some [("points", JNull)]).
Definition c0 : object_service := ObjectService g2 [].
Definition c1 : object_service := (create gopts opts (a_chart "CHART" "s") "object-1" (Some 3) (Some 3) (Some 3) c0).1.
Definition c2 : object_service := (collapse "object-1" (Some 0) (Some 4) c1).1.
Definition o1 : generated :=
  Generated "object-1" "s" "w" "n" "turn-1" 0 CHART OB_ACTIVE "Load" "" "turn-1" "session:s" RG_FOCUS true [("points", JNull)] 3 3.


Example object_refusals :
  (create gopts opts (a_chart "CHART" "s") "object-2" (Some 3) (Some 3) (Some 3) c1).2 = Err OBJECT_LIMIT /\
  (update "object-1" (state_patch OB_PINNED) (Some 7) (Some 4) c1).2 = Err STALE_OBJECT /\
  is_ok (create gopts opts (a_chart "CHART" "s") "object-2" (Some 3) (Some 3) (Some 3) (archive "object-1" None (Some 4) c1).1).2 = true.
Proof. vm_compute. done. Qed.

(** The kind is read in any case, its placement only in upper case. *)
Theorem placement_looks_at_the_case :
  match (create gopts opts (a_chart "chart" "s") "object-1" (Some 3) (Some 3) (Some 3) c0).2 with
  | Ok o => ob_kind o = CHART /\ ob_region o = RG_WORKSPACE /\ focus_required o = false
  | Err _ => False
  end.
Proof. vm_compute. done. Qed.

(** An update is not parsed: an object can be left that the restoring of its own
    snapshot refuses. *)
Theorem updated_object_cannot_be_restored :
  let s := (update "object-1" (ObjectPatch None None (Some [("", JNull)]) None) None (Some 4) c1).1 in
  (restoreSnapshot opts (snapshot s) s).2 = Err INVALID_OBJECT /\ objects (restoreSnapshot opts (snapshot s) s).1 = [].
Proof. vm_compute. done. Qed.

(** Restoring an archived object does not count the objects of its session. *)
Theorem restoring_exceeds_the_limit :
  let s := (archive "object-1" None (Some 4) c1).1 in
  let s := (create gopts opts (a_chart "CHART" "s") "object-2" (Some 5) (Some 5) (Some 5) s).1 in
  length (live_objects "s" (objects (restore "object-1" None (Some 6) s).1)) = 2%nat.
Proof. vm_compute. done. Qed.

(** The object is stored before the graph accepts it: a creation whose reference
    is not authorised throws and leaves the object. *)
Theorem refused_object_remains :
  let strict := GraphOptions "w" "n" (Some (fun _ _ _ _ => false)) (fun p n => p) in
  let r := create strict opts (a_chart "CHART" "s") "object-1" (Some 3) (Some 3) (Some 3) c0 in
  r.2 = Err (OB_GRAPH UNAUTHORIZED_REFERENCE) /\ getObject "object-1" r.1 = Some o1.
Proof. vm_compute. done. Qed.

(** Objects are stored under the trimmed session and counted under the session as
    given: a session that was created with a padded identifier has no limit. *)
Theorem padded_session_has_no_limit :
  let g := (createSession gopts (SessionInput (Some " s"%string) "i" "ann" None None None None None [] None) (Some 1) new_graph).1 in
  let g := (appendTurn gopts " s" "turn-1" "ann" (Some 0) (Some 2) g).1 in
  let s := (create gopts opts (a_chart "CHART" " s") "object-1" (Some 3) (Some 3) (Some 3) (ObjectService g [])).1 in
  is_ok (create gopts opts (a_chart "CHART" " s") "object-2" (Some 3) (Some 3) (Some 3) s).2 = true.
Proof. vm_compute. done. Qed.
End ObjectWitness.
