(* ===== verification/Privacy.v ===== *)
(** * Privacy records

    src/web/operator-dashboard/src/spatial/hardening/privacy.ts: classification,
    transcript redaction, and the privacy lifecycle with its export and purge,
    with the properties that an export discloses nothing secret and that a purge
    removes exactly what expired. *)

From stdpp Require Import relations.
From S2P Require Import Prelude.
From S2P Require Import Json.
From S2P Require Import Contracts.
From S2P Require Import Text.
From S2P Require Import Authorization.

#[local] Open Scope Z_scope.

(** ** Data *)

Inductive classification : Type := PV_PUBLIC | PV_OPERATOR | PV_PRIVATE | PV_SECRET.
#[export] Instance classification_eq_dec : EqDecision classification.
Proof. solve_decision. Defined.

Inductive privacy_lifecycle : Type := PL_ACTIVE | PL_ARCHIVED | PL_DELETED | PL_REDACTED.
#[export] Instance privacy_lifecycle_eq_dec : EqDecision privacy_lifecycle.
Proof. solve_decision. Defined.

(** [SpatialPrivacyRecord]. *)
Record privacy_record : Type := PrivacyRecord {
  record_id : string;
  pv_workspace : string;
  pv_node : string;
  pv_subject : string;
  pv_class : classification;
  pv_lifecycle : privacy_lifecycle;
  disclosed_fields : list string;
  redacted_fields : list string;
  retention_until : option iso;
  pv_evidence : list string;
  pv_updated_at : iso;
}.

(** [SpatialPrivacyRegistration]; a retention of [None] is left out, [Some None]
    is null. *)
Record registration : Type := Registration {
  rg_workspace : string;
  rg_node : string;
  rg_subject : string;
  rg_class : classification;
  rg_lifecycle : option privacy_lifecycle;
  rg_disclosed : option (list string);
  rg_redacted : option (list string);
  rg_retention : option (option instant);
  rg_evidence : option (list string);
  rg_now : option instant;
}.

(** [SpatialWorkspaceExport]. *)
Record workspace_export : Type := WorkspaceExport {
  wx_workspace : string;
  wx_node : string;
  canonical_refs : list string;
  wx_revisions : list (string * Z);
  wx_evidence : list string;
  privacy_records : list privacy_record;
  exported_at : iso;
}.

Inductive privacy_error : Type := INVALID_PRIVACY | UNKNOWN_PRIVACY | PV_RANGE_ERROR.

(** ** Classification and transcripts *)

(** [pattern.test(s)]. *)
Fixpoint test (m : matcher) (s : string) : bool :=
  match m s with
  | Some _ => true
  | None => match s with EmptyString => false | String _ s => test m s end
  end.

(** [private.?key]. *)
Definition private_key : matcher := fun s =>
  s ← word "private" s;
  match s' ← eat (fun c => negb (bool_decide (c = "010"%char)) && negb (bool_decide (c = "013"%char))) s; word "key" s' with
  | Some r => Some r
  | None => word "key" s
  end.

Definition names (l : list matcher) (key : string) : bool := existsb (fun m => test m key) l.

Definition secret_keys : list matcher := [word "secret"; word "token"; word "password"; private_key; word "credential"].
Definition private_keys : list matcher :=
  [word "prompt"; word "transcript"; word "message"; word "attachment"; word "email"; word "operator"].

(** The keys of an array are its indices, and match nothing. *)
Definition classifySpatialValue (value : json) : classification :=
  match value with
  | JNull => PV_PUBLIC
  | JObj fields =>
      let keys := map (fun kv => to_lower kv.1) fields in
      if existsb (names secret_keys) keys then PV_SECRET
      else if existsb (names private_keys) keys then PV_PRIVATE else PV_OPERATOR
  | _ => PV_OPERATOR
  end.

Definition is_word_char (c : ascii) : bool :=
  let n := N_of_ascii c in
  ((48 <=? n) && (n <=? 57) || (65 <=? n) && (n <=? 90) || (97 <=? n) && (n <=? 122) || (n =? 95))%N.

Definition starts_with_word (s : string) : bool := match s with String c _ => is_word_char c | EmptyString => false end.

(** [[A-Za-z0-9_-]+\b]: the longest non-empty run that ends at a boundary; a
    shorter one is taken when the longer ones end at none. *)
Fixpoint token_body (s : string) : option string :=
  match s with
  | EmptyString => None
  | String c s' =>
      if is_word_char c || bool_decide (c = "-"%char) then
        match token_body s' with
        | Some r => Some r
        | None => if xorb (is_word_char c) (starts_with_word s') then Some s' else None
        end
      else None
  end.

Fixpoint first_match (l : list matcher) (s : string) : option string :=
  match l with
  | [] => None
  | m :: l => match m s with Some r => Some r | None => first_match l s end
  end.

(** [(?:sk|pk|token|secret|password)_[A-Za-z0-9_-]+\b], any case. *)
Definition token_literal : matcher := fun s =>
  s ← first_match [word "sk_"; word "pk_"; word "token_"; word "secret_"; word "password_"] s; token_body s.

(** [Bearer\s+[A-Za-z0-9._-]+], any case. *)
Definition bearer : matcher := fun s =>
  let in_token c := is_word_char c || bool_decide (c = "-"%char) || bool_decide (c = "."%char) in
  s ← word "bearer" s; s ← eat is_js_space s; s ← eat in_token (skip is_js_space s); Some (skip in_token s).

(** Global replacement of a pattern that begins with [\b]: [prev] says whether
    the character before is a word character. *)
Fixpoint replace_words (m : matcher) (lit : string) (prev : bool) (n : nat) (s : string) : string :=
  match s with
  | EmptyString => EmptyString
  | String c s' =>
      match n with
      | S n => replace_words m lit (is_word_char c) n s'
      | O =>
          match (if xorb prev (is_word_char c) then m s else None) with
          | Some rest => lit +:+ replace_words m lit (is_word_char c) (String.length s' - String.length rest) s'
          | None => String c (replace_words m lit (is_word_char c) 0 s')
          end
      end
  end.

Definition redactSpatialTranscript (s : string) : string :=
  replace bearer "Bearer [REDACTED]" (replace_words token_literal "[REDACTED]" false 0 s).

Definition canGarbageCollectPresentation (ref : string) (evidence : list string) : bool := negb (bool_decide (ref ∈ evidence)).

(** ** The service *)

Section service.
Context {zod : Zod}.

Definition spatialPrivacyRecordSchema (r : privacy_record) : option privacy_record :=
  id ← idSchema (record_id r);
  ws ← idSchema (pv_workspace r);
  node ← idSchema (pv_node r);
  subject ← idSchema (pv_subject r);
  disclosed ← z_array idSchema 256 (disclosed_fields r);
  redacted ← z_array idSchema 256 (redacted_fields r);
  retention ← nullable timestampSchema (retention_until r);
  evidence ← z_array idSchema 256 (pv_evidence r);
  updated ← timestampSchema (pv_updated_at r);
  Some (PrivacyRecord id ws node subject (pv_class r) (pv_lifecycle r) disclosed redacted retention evidence updated).

(** [isoNow(value)]; [wall] is the host clock. *)
Definition pv_isoNow (v : option instant) (wall : iso) : result privacy_error iso :=
  match v with
  | Some (InDate d) => of_option d PV_RANGE_ERROR
  | Some (InText parsed) => Ok (default wall parsed)
  | None => Ok wall
  end.

(** [register(input)]; [fresh] is the id of the factory. *)
Definition register (input : registration) (fresh : string) (wall : iso)
  : method (jsmap privacy_record) privacy_error privacy_record :=
  let! now := jlift (pv_isoNow (rg_now input) wall) in
  let! retention := jlift (match rg_retention input with
                           | Some None => Ok None
                           | Some (Some v) => let? t := pv_isoNow (Some v) wall in Ok (Some t)
                           | None => let? t := pv_isoNow None wall in Ok (Some t)
                           end) in
  let! r := jlift (of_option (spatialPrivacyRecordSchema
    (PrivacyRecord fresh (rg_workspace input) (rg_node input) (rg_subject input) (rg_class input)
       (default PL_ACTIVE (rg_lifecycle input)) (unique_trimmed (default [] (rg_disclosed input)))
       (unique_trimmed (default [] (rg_redacted input))) retention (unique_trimmed (default [] (rg_evidence input))) now))
    INVALID_PRIVACY) in
  let! m := jread in
  jwrite (jset (record_id r) r m) ;!
  jret r.

Definition with_lifecycle (l : privacy_lifecycle) (t : iso) (r : privacy_record) : privacy_record :=
  PrivacyRecord (record_id r) (pv_workspace r) (pv_node r) (pv_subject r) (pv_class r) l (disclosed_fields r)
    (redacted_fields r) (retention_until r) (pv_evidence r) t.

Definition pv_transition (id : string) (l : privacy_lifecycle) (now : date)
  : method (jsmap privacy_record) privacy_error privacy_record :=
  let! m := jread in
  let! r := jlift (of_option (jget id m) UNKNOWN_PRIVACY) in
  let! t := jlift (of_option now PV_RANGE_ERROR) in
  let! p := jlift (of_option (spatialPrivacyRecordSchema (with_lifecycle l t r)) INVALID_PRIVACY) in
  jwrite (jset id p m) ;!
  jret p.

Definition pv_archive (id : string) := pv_transition id PL_ARCHIVED.
Definition pv_delete (id : string) := pv_transition id PL_DELETED.
Definition pv_redact (id : string) := pv_transition id PL_REDACTED.

(** The record an export shows. *)
Definition exported (r : privacy_record) : privacy_record :=
  if bool_decide (pv_class r = PV_SECRET)
  then PrivacyRecord (record_id r) (pv_workspace r) (pv_node r) (pv_subject r) PV_PRIVATE PL_REDACTED []
         (unique_trimmed (redacted_fields r ++ ["secret"%string])) (retention_until r) (pv_evidence r) (pv_updated_at r)
  else r.

Definition exportWorkspace (workspaceId nodeId : string) (refs : list string) (revisions : list (string * Z))
    (evidence : list string) (at_ : date) (m : jsmap privacy_record) : result privacy_error workspace_export :=
  let? t := of_option at_ PV_RANGE_ERROR in
  Ok (WorkspaceExport workspaceId nodeId (unique_trimmed refs) revisions (unique_trimmed evidence)
        (map exported (filter (fun r => pv_workspace r = workspaceId /\ pv_node r = nodeId) (jvalues m))) t).

Definition expired (now : date) (r : privacy_record) : bool :=
  match retention_until r, now with
  | Some t, Some n => t <=? n
  | _, _ => false
  end.

(** The loop of [purgeExpired], along the entries as they were. *)
Fixpoint pv_purge_loop (now : date) (l : list (string * privacy_record)) (m : jsmap privacy_record) (removed : Z)
  : jsmap privacy_record * Z :=
  match l with
  | [] => (m, removed)
  | (id, r) :: l => if expired now r then pv_purge_loop now l (jdelete id m) (removed + 1) else pv_purge_loop now l m removed
  end.

Definition pv_purgeExpired (now : date) (m : jsmap privacy_record) : jsmap privacy_record * Z := pv_purge_loop now m m 0.

(** One call, returning or throwing. *)
Inductive privacy_step (m : jsmap privacy_record) : jsmap privacy_record -> Prop :=
| pv_registered input fresh wall m' r : register input fresh wall m = (m', r) -> privacy_step m m'
| pv_moved id l now m' r : pv_transition id l now m = (m', r) -> privacy_step m m'
| pv_purged now m' n : pv_purgeExpired now m = (m', n) -> privacy_step m m'.

(** ** Properties *)

Definition privacy_ok (m : jsmap privacy_record) : Prop :=
  NoDup (jkeys m) /\ jall (fun k r => record_id r = k /\ trim k = k /\ Forall (fun f => trim f = f /\ f <> ""%string) (redacted_fields r)) m.

Lemma privacySchema_spec (laws : ZodLaws zod) r p : spatialPrivacyRecordSchema r = Some p ->
  record_id p = trim (record_id r) /\ pv_class p = pv_class r /\ pv_lifecycle p = pv_lifecycle r /\
  Forall (fun f => trim f = f /\ f <> ""%string) (redacted_fields p).
Proof.
  unfold spatialPrivacyRecordSchema. intros H. inv_some. simpl.
  match goal with H : z_array idSchema _ (redacted_fields r) = Some ?l |- _ => apply z_array_forall2 in H; assert (Hf := H) end.
  match goal with H : idSchema (record_id r) = Some _ |- _ => apply idSchema_spec in H as [-> _] end. split_and!; [done..|].
  clear -Hf laws. induction Hf as [|a b l l' Hab _ IH]; [constructor|]. constructor; [|done].
  apply idSchema_spec in Hab as [-> Hne]. by rewrite trim_idem.
Qed.

(** The purge keeps the entries that did not expire, and counts the others. *)
Lemma purge_loop_ok now (l : list (string * privacy_record)) m0 m n : NoDup (jkeys l) -> (forall k r, (k, r) ∈ l -> (k, r) ∈ m0) -> NoDup (jkeys m0) ->
  let '(m', n') := pv_purge_loop now l m n in
  n' = n + Z.of_nat (length (filter (fun kr => expired now kr.2 = true) l)) /\
  (NoDup (jkeys m) -> NoDup (jkeys m')) /\
  forall k r, (k, r) ∈ m' <-> (k, r) ∈ m /\ forall r', (k, r') ∈ l -> expired now r' = false.
Proof.
  revert m n. induction l as [|[k0 r0] l IH]; intros m n Hnd Hin Hm0; cbn [pv_purge_loop].
  - split; [simpl; lia|]. split; [done|]. intros k r. split; [|by intros [? _]]. intros H. split; [done|]. set_solver.
  - apply NoDup_cons in Hnd as [Hk0 Hnd].
    assert (IH' := fun m n => IH m n Hnd (fun k r H => Hin k r (list_elem_of_further _ _ _ H)) Hm0). clear IH.
    rewrite (filter_cons (fun kr : string * privacy_record => expired now kr.2 = true) (k0, r0) l). cbn [snd]. destruct (expired now r0) eqn:He.
    + specialize (IH' (jdelete k0 m) (n + 1)). destruct (pv_purge_loop now l (jdelete k0 m) (n + 1)) as [m' n'].
      destruct IH' as (-> & Hd & Hiff). rewrite decide_True by done. split; [cbn [length]; lia|].
      split; [intros; by apply Hd, NoDup_jdelete|]. intros k r. rewrite Hiff, elem_jdelete. split.
      * intros [[H Hne] Hl]. split; [done|]. intros r' [[= -> ->]|]%elem_of_cons; [done | by apply Hl].
      * intros [H Hl]. split; [split; [done|]|intros r' Hr'; apply Hl; by right].
        intros ->. specialize (Hl r0 (list_elem_of_here _ _)). congruence.
    + specialize (IH' m n). destruct (pv_purge_loop now l m n) as [m' n']. destruct IH' as (-> & Hd & Hiff).
      rewrite decide_False by congruence. split; [done|]. split; [done|]. intros k r. rewrite Hiff. split.
      * intros [H Hl]. split; [done|]. intros r' [[= -> ->]|]%elem_of_cons; [done | by apply Hl].
      * intros [H Hl]. split; [done|]. intros r' Hr'. apply Hl. by right.
Qed.

Lemma privacy_step_ok (laws : ZodLaws zod) m m' : privacy_ok m -> privacy_step m m' -> privacy_ok m'.
Proof.
  intros [Hnd Hall] [input fresh wall m1 r H|id l now m1 r H|now m1 n H].
  - unfold register, jbind, jlift, jread, jwrite, jret in H. destruct (pv_isoNow (rg_now input) wall); [|by simplify_eq].
    destruct (match rg_retention input with None => _ | _ => _ end); [|by simplify_eq].
    destruct (spatialPrivacyRecordSchema _) as [p|] eqn:Hp; simpl in H; simplify_eq; [|done].
    apply privacySchema_spec in Hp as (Hid & _ & _ & Hf); [|done]. split; [by apply NoDup_jset|]. apply jall_jset; [|done].
    split_and!; [done| |done]. by rewrite Hid, trim_idem.
  - unfold pv_transition, jbind, jlift, jread, jwrite, jret in H. destruct (jget id m) as [r0|] eqn:Hr0; simpl in H; [|by simplify_eq].
    destruct now as [t|]; simpl in H; [|by simplify_eq].
    destruct (spatialPrivacyRecordSchema _) as [p|] eqn:Hp; simpl in H; simplify_eq; [|done].
    apply privacySchema_spec in Hp as (Hid & _ & _ & Hf); [|done]. destruct (Hall _ _ Hr0) as (Hk & Ht & _).
    split; [by apply NoDup_jset|]. apply jall_jset; [|done]. split_and!; [|done|done]. simpl in Hid. congruence.
  - pose proof (purge_loop_ok now m m m 0 Hnd (fun _ _ H => H) Hnd) as Hp. unfold pv_purgeExpired in H. rewrite H in Hp.
    destruct Hp as (_ & Hd & Hiff). split; [by apply Hd|]. intros k r Hr%jget_elem. apply Hiff in Hr as [Hr _].
    apply Hall. by apply elem_jget.
Qed.

Lemma privacy_steps_ok (laws : ZodLaws zod) m : rtc privacy_step [] m -> privacy_ok m.
Proof.
  assert (H0 : privacy_ok []) by (split; [constructor | by intros ? ?]). intros Hr. revert H0.
  induction Hr as [|m1 m2 m3 Hs _ IH]; [done|]. intros H0. apply IH. by eapply privacy_step_ok.
Qed.

(** An export discloses nothing secret: in every history of the service,
    the exported records are, one for one, the stored records of the scope; none
    of them is classified secret; what is stored as secret is exported as
    private and redacted, with no disclosed field and with every redacted field
    it had and the mark of the secret; and anything else is exported as it is. *)
Theorem export_discloses_no_secret (laws : ZodLaws zod) m workspaceId nodeId refs revisions evidence t :
  rtc privacy_step [] m -> exists x,
  exportWorkspace workspaceId nodeId refs revisions evidence (Some t) m = Ok x /\
  map record_id (privacy_records x) =
    map record_id (filter (fun r => pv_workspace r = workspaceId /\ pv_node r = nodeId) (jvalues m)) /\
  forall r, r ∈ privacy_records x -> exists r0, jget (record_id r) m = Some r0 /\
    pv_workspace r = workspaceId /\ pv_node r = nodeId /\ pv_class r <> PV_SECRET /\
    (pv_class r0 <> PV_SECRET -> r = r0) /\
    (pv_class r0 = PV_SECRET -> pv_class r = PV_PRIVATE /\ pv_lifecycle r = PL_REDACTED /\ disclosed_fields r = [] /\
       redacted_fields r0 ⊆ redacted_fields r /\ "secret"%string ∈ redacted_fields r).
Proof.
  intros Hr. apply privacy_steps_ok in Hr as [Hnd Hall]; [|done]. eexists. split; [reflexivity|]. simpl. split.
  - rewrite map_map. apply map_ext. intros r. unfold exported. by case_bool_decide.
  - intros r (r0 & -> & [[Hw Hn] Hin]%list_elem_of_filter)%list_elem_of_fmap. exists r0.
    apply list_elem_of_fmap in Hin as ([k r1] & -> & Hin). simpl in *. apply elem_jget in Hin; [|done].
    destruct (Hall _ _ Hin) as (Hid & _ & Hf). unfold exported. case_bool_decide as Hs; simpl; rewrite Hid.
    + split_and!; [done..|]. intros _. split_and!; [done..| |].
      * intros f Hff. rewrite Forall_forall in Hf. destruct (Hf f Hff) as [Ht Hne]. apply elem_unique_trimmed. split; [done|].
        exists f. set_solver.
      * apply elem_unique_trimmed. split; [done|]. exists "secret"%string. set_solver.
    + by split_and!.
Qed.

(** A purge removes exactly the records that expired and says how many. *)
Theorem purge_removes_expired (laws : ZodLaws zod) m now :
  rtc privacy_step [] m ->
  let '(m', n) := pv_purgeExpired now m in
  n = Z.of_nat (length (filter (fun kr => expired now kr.2 = true) (m : list (string * privacy_record)))) /\
  forall k r, jget k m' = Some r <-> jget k m = Some r /\ expired now r = false.
Proof.
  intros Hr. apply privacy_steps_ok in Hr as [Hnd _]; [|done]. unfold pv_purgeExpired.
  pose proof (purge_loop_ok now m m m 0 Hnd (fun _ _ H => H) Hnd) as Hp. destruct (pv_purge_loop now m m 0) as [m' n].
  destruct Hp as (-> & Hd & Hiff). split; [done|]. specialize (Hd Hnd). intros k r. split.
  - intros H%jget_elem. apply Hiff in H as [H Hl]. split; [by apply elem_jget | by apply Hl].
  - intros [H He]. pose proof H as Hin%jget_elem. apply elem_jget; [done|]. apply Hiff. split; [done|].
    intros r' Hr'. apply elem_jget in Hr'; [|done]. congruence.
Qed.
End service.

Module PrivacyWitness.
Definition reg (c : classification) (retention : option (option instant)) : registration :=
  Registration "w" "n" "user" c None (Some ["email"%string]) (Some [" ssn "%string]) retention None None.
Definition m1 : jsmap privacy_record := (register (zod := zod_ref) (reg PV_SECRET (Some None)) "p1" 10 []).1.
Definition m2 : jsmap privacy_record := (register (zod := zod_ref) (reg PV_OPERATOR (Some None)) "p2" 20 m1).1.

Lemma export_discloses_no_secret_witness : exists x,
  exportWorkspace "w" "n" [] [] [] (Some 30) m2 = Ok x /\ length (privacy_records x) = 2%nat /\
  forall r, r ∈ privacy_records x -> pv_class r <> PV_SECRET.
Proof.
  destruct (export_discloses_no_secret (zod := zod_ref) _ m2 "w" "n" [] [] [] 30) as (x & Hx & Hids & H).
  - apply (rtc_l _ [] m1); [exact (pv_registered [] (reg PV_SECRET (Some None)) "p1" 10 _ _ (surjective_pairing _))|].
    apply (rtc_l _ m1 m2); [exact (pv_registered m1 (reg PV_OPERATOR (Some None)) "p2" 20 _ _ (surjective_pairing _))|]. apply rtc_refl.
  - exists x. split; [exact Hx|]. split.
    + apply (f_equal (@length _)) in Hids. rewrite length_map in Hids. rewrite Hids. vm_compute. reflexivity.
    + intros r Hr. destruct (H r Hr) as (_ & _ & _ & _ & Hs & _). exact Hs.
Defined.

(** A registration without a retention date gets the current time as its
    retention: the next purge removes the record. *)
Theorem missing_retention_expires_at_once :
  let m := (register (zod := zod_ref) (reg PV_OPERATOR None) "p3" 10 []).1 in
  (retention_until <$> jget "p3" m) = Some (Some 10) /\ pv_purgeExpired (Some 10) m = ([], 1).
Proof. vm_compute. split; reflexivity. Qed.

(** The keys of nested objects are not looked at. *)
Theorem nested_secret_is_operator :
  classifySpatialValue (JObj [("config"%string, JObj [("token"%string, JStr "t")])]) = PV_OPERATOR.
Proof. vm_compute. reflexivity. Qed.

Example transcript_redacted :
  redactSpatialTranscript "use SK_ab-12-- and bearer  x.y, not mask_1"%string =
  "use [REDACTED]-- and Bearer [REDACTED], not mask_1"%string.
Proof. vm_compute. reflexivity. Qed.
End PrivacyWitness.
