(* ===== verification/Observability.v ===== *)
(** * Bounded telemetry

    src/web/operator-dashboard/src/spatial/hardening/observability.ts: metrics
    that carry no content and few distinct dimensions, with the properties that
    they do. [fresh] is what the id factory returns and [wall] the host clock. *)

From Stdlib Require Import QArith.
From stdpp Require Import relations.
From S2P Require Import Prelude.
From S2P Require Import Json.
From S2P Require Import Contracts.
From S2P Require Import Numbers.
From S2P Require Import Text.
From S2P Require Import Authorization.

#[local] Open Scope Z_scope.

(** ** Data *)

Definition SPATIAL_OBSERVABILITY_METRIC_NAMES : list string :=
  ["renderer_init"; "renderer_fallback"; "frame_fps_bucket"; "frame_p95_bucket"; "event_lag_bucket"; "reconnect_count";
   "schema_rejection"; "view_model_failure"; "duplicate_entity"; "planner_rejection"; "attention_backlog_bucket";
   "workspace_conflict"; "remote_quarantine"; "component_error_boundary"; "classic_fallback"]%string.

(** [SpatialTelemetryInput]; an observation time is a [Date] or a text. *)
Record telemetry_input : Type := TelemetryInput {
  ti_workspace : string;
  ti_node : string;
  ti_name : string;
  ti_value : jsnum;
  ti_unit : string;
  ti_bucket : option string;
  ti_correlation : option string;
  ti_dimensions : option (jsmap string);
  ti_observed : option instant;
}.

(** [SpatialObservabilityMetric]; [content_free] is the constant [true]. *)
Record metric : Type := Metric {
  metric_id : string;
  mt_workspace : string;
  mt_node : string;
  mt_name : string;
  mt_value : jsnum;
  mt_unit : string;
  mt_bucket : string;
  mt_correlation : option string;
  mt_dimensions : jsmap string;
  mt_observed : iso;
}.

(** The codes of [SpatialTelemetryViolation], and a [RangeError]. *)
Inductive telemetry_error : Type := SENSITIVE_CONTENT | CARDINALITY_LIMIT | INVALID_METRIC | TL_RANGE_ERROR.
#[export] Instance telemetry_error_eq_dec : EqDecision telemetry_error.
Proof. solve_decision. Defined.

(** [BoundedSpatialTelemetry]: the dimensions seen of each metric, and the records. *)
Record telemetry : Type := Telemetry {
  tl_values : jsmap (list string);
  tl_records : list metric;
}.
Definition new_telemetry : telemetry := Telemetry [] [].

(** [Math.max(1, options.maxCardinality ?? 100)]. *)
Definition cardinality_of (max : option jsnum) : jsnum := num_max (num 1) (default (num 100) max).

(** ** Operations *)

Definition SENSITIVE_PATTERN : matcher := first_of
  [word "prompt"; word "token"; word "secret"; word "password"; word "credential"; word "transcript"; word "private";
   word "message"; word "content"; word "authorization"].

(** What [assertSafeText] lets through. *)
Definition safe_label (s : string) : bool :=
  negb (str_eqb s "") && bool_decide (String.length s <= 128)%nat && negb (test SENSITIVE_PATTERN s).
Definition assertSafeText (s : string) : result telemetry_error unit := require (safe_label s) SENSITIVE_CONTENT.

Definition bucket (v : jsnum) : string :=
  if negb (isFinite v) then "invalid"
  else if num_lt v (num 1) then "0"
  else if num_lt v (num 5) then "1-4"
  else if num_lt v (num 10) then "5-9"
  else if num_lt v (num 25) then "10-24"
  else if num_lt v (num 50) then "25-49"
  else if num_lt v (num 100) then "50-99"
  else "100+".

Definition tl_isoNow (v : option instant) (wall : iso) : result telemetry_error iso :=
  match v with
  | Some (InDate d) => of_option d TL_RANGE_ERROR
  | Some (InText parsed) => Ok (default wall parsed)
  | None => Ok wall
  end.

(** [JSON.stringify(dimensions)]. *)
Definition dimension_key (m : jsmap string) : string := stringify (JObj (map (fun kv => (kv.1, JStr kv.2)) m)).

Fixpoint all_ok {E A} (f : A -> result E unit) (l : list A) : result E unit :=
  match l with [] => Ok tt | x :: l => f x ;? all_ok f l end.

Section telemetry.
Context {zod : Zod} (maxCardinality : jsnum).

(** [z.record(idSchema, idSchema)] with its refinement. *)
Definition dimensionsSchema (m : jsmap string) : option (jsmap string) :=
  l ← mapM (fun kv => k ← idSchema kv.1; v ← idSchema kv.2; Some (k, v)) m;
  let out := foldl (fun acc kv => jset kv.1 kv.2 acc) [] l in
  if bool_decide (length out <= 16)%nat then Some out else None.

Definition spatialObservabilityMetricSchema (x : metric) : option metric :=
  id ← idSchema (metric_id x);
  ws ← idSchema (mt_workspace x);
  node ← idSchema (mt_node x);
  name ← idSchema (mt_name x);
  v ← finiteNumber (mt_value x);
  unit ← idSchema (mt_unit x);
  b ← idSchema (mt_bucket x);
  corr ← nullable idSchema (mt_correlation x);
  dims ← dimensionsSchema (mt_dimensions x);
  t ← timestampSchema (mt_observed x);
  Some (Metric id ws node name v unit b corr dims t).

(** The checks of [record] on its input. *)
Definition record_checks (i : telemetry_input) : result telemetry_error unit :=
  assertSafeText (ti_workspace i) ;?
  assertSafeText (ti_node i) ;?
  assertSafeText (ti_unit i) ;?
  (if truthy (ti_correlation i) then assertSafeText (default ""%string (ti_correlation i)) else Ok tt) ;?
  require (existsb (str_eqb (ti_name i)) SPATIAL_OBSERVABILITY_METRIC_NAMES) INVALID_METRIC ;?
  let dims := default [] (ti_dimensions i) in
  require (bool_decide (length dims <= 16)%nat) CARDINALITY_LIMIT ;?
  all_ok (fun kv => assertSafeText kv.1 ;? assertSafeText kv.2) dims.

Definition seen_of (name : string) (s : telemetry) : list string := default [] (jget name (tl_values s)).

Definition record (i : telemetry_input) (fresh : string) (wall : iso) : method telemetry telemetry_error metric :=
  jlift (record_checks i) ;!
  let! s := jread in
  let dims := default [] (ti_dimensions i) in
  let key := dimension_key dims in
  let seen := seen_of (ti_name i) s in
  jlift (require (bool_decide (key ∈ seen) || negb (num_le maxCardinality (num (Z.of_nat (length seen))))) CARDINALITY_LIMIT) ;!
  let seen' := if bool_decide (key ∈ seen) then seen else seen ++ [key] in
  jwrite (Telemetry (jset (ti_name i) seen' (tl_values s)) (tl_records s)) ;!
  let! t := jlift (tl_isoNow (ti_observed i) wall) in
  let! m := jlift (of_option (spatialObservabilityMetricSchema
    (Metric fresh (ti_workspace i) (ti_node i) (ti_name i) (ti_value i) (ti_unit i) (default (bucket (ti_value i)) (ti_bucket i))
       (ti_correlation i) dims t)) INVALID_METRIC) in
  let! s := jread in
  jwrite (Telemetry (tl_values s) (tl_records s ++ [m])) ;!
  jret m.

Definition flush (s : telemetry) : telemetry * list metric := (Telemetry (tl_values s) [], tl_records s).
Definition size (s : telemetry) : nat := length (tl_records s).

(** One call, with what it hands out. *)
Inductive telemetry_step (s : telemetry) : list metric -> telemetry -> Prop :=
| tl_record i fresh wall s' r : record i fresh wall s = (s', r) -> telemetry_step s [] s'
| tl_flush : telemetry_step s (flush s).2 (flush s).1.

(** A history, with everything it handed out. *)
Inductive telemetry_run : telemetry -> list metric -> telemetry -> Prop :=
| run_none s : telemetry_run s [] s
| run_step s out s1 out' s2 : telemetry_run s out s1 -> telemetry_step s1 out' s2 -> telemetry_run s (out ++ out') s2.
End telemetry.

(** ** Properties *)

Section properties.
Context {zod : Zod} {laws : ZodLaws zod} (n : nat).
Notation maxc := (num (Z.of_nat n)).

(** A text of a metric: it names nothing that is sensitive. *)
Definition content_free (s : string) : Prop := test SENSITIVE_PATTERN s = false.

Lemma safe_label_trim s : safe_label s = true -> content_free (trim s).
Proof using.
  intros [_ H%negb_true_iff]%andb_true_iff. apply test_trim; [|done]. unfold SENSITIVE_PATTERN. apply first_of_stretches.
  repeat (constructor; [apply word_stretches|]). constructor.
Qed.

Lemma all_ok_forall {E A} (f : A -> result E unit) l u : all_ok f l = Ok u -> Forall (fun x => is_ok (f x) = true) l.
Proof using. induction l as [|x l IH]; cbn [all_ok]; [constructor|]. intros H. destruct (f x) eqn:Hx; [|done]. constructor; [by rewrite Hx|by apply IH]. Qed.

Lemma record_checks_spec i u : record_checks i = Ok u ->
  let dims := default [] (ti_dimensions i) in
  safe_label (ti_workspace i) = true /\ safe_label (ti_node i) = true /\ safe_label (ti_unit i) = true /\
  (forall c, ti_correlation i = Some c -> c = ""%string \/ safe_label c = true) /\
  ti_name i ∈ SPATIAL_OBSERVABILITY_METRIC_NAMES /\ (length dims <= 16)%nat /\
  Forall (fun kv => safe_label kv.1 = true /\ safe_label kv.2 = true) dims.
Proof using.
  unfold record_checks, assertSafeText. cbv zeta. generalize (default [] (ti_dimensions i)). intros dims H.
  destruct (safe_label (ti_workspace i)); cbn [require rbind] in H; [|done].
  destruct (safe_label (ti_node i)); cbn [require rbind] in H; [|done].
  destruct (safe_label (ti_unit i)); cbn [require rbind] in H; [|done].
  destruct (if truthy (ti_correlation i) then _ else _) as [x|] eqn:Hc; cbn [rbind] in H; [|done].
  destruct (existsb _ _) eqn:Hn; cbn [require rbind] in H; [|done].
  destruct (bool_decide _) eqn:Hl; cbn [require rbind] in H; [|done]. split_and!; try done.
  - intros c Hcc. rewrite Hcc in Hc. destruct c as [|a c]; [by left|]. right. cbn in Hc. by apply require_ok in Hc.
  - apply existsb_exists in Hn as (m & Hin & ->%str_eqb_eq). by apply list_elem_of_In.
  - by apply bool_decide_eq_true in Hl.
  - apply all_ok_forall in H. eapply Forall_impl; [exact H|]. intros kv Hkv. cbn beta in Hkv.
    destruct (safe_label kv.1); cbn in Hkv; [|done]. by destruct (safe_label kv.2).
Qed.

Lemma name_trimmed name : name ∈ SPATIAL_OBSERVABILITY_METRIC_NAMES -> trim name = name.
Proof using.
  intros H. assert (Hall : Forall (fun x => trim x = x) SPATIAL_OBSERVABILITY_METRIC_NAMES)
    by (repeat (constructor; [vm_compute; reflexivity|]); constructor).
  rewrite Forall_forall in Hall. by apply Hall.
Qed.

(** What the dimensions of a metric are made of. *)
Lemma dimensionsSchema_spec m d : dimensionsSchema m = Some d ->
  Forall (fun kv => safe_label kv.1 = true /\ safe_label kv.2 = true) m ->
  (length d <= 16)%nat /\ Forall (fun kv => content_free kv.1 /\ content_free kv.2) d.
Proof using laws.
  unfold dimensionsSchema. intros (l & Hl & H)%bind_Some Hm. case_bool_decide as Hlen; [|done]. injection H as <-. split; [done|].
  clear Hlen. apply mapM_Some in Hl.
  assert (Hsafe : Forall (fun kv => content_free kv.1 /\ content_free kv.2) l).
  { induction Hl as [|[k v] [k' v'] m l Hx _ IH]; [constructor|]. apply Forall_cons in Hm as [[Hk Hv] Hm].
    apply bind_Some in Hx as (k2 & [-> _]%idSchema_spec & (v2 & [-> _]%idSchema_spec & [= <- <-])%bind_Some).
    constructor; [|by apply IH]. split; by apply safe_label_trim. }
  assert (Hfold : forall acc, Forall (fun kv => content_free kv.1 /\ content_free kv.2) acc ->
    Forall (fun kv => content_free kv.1 /\ content_free kv.2) (foldl (fun acc kv => jset kv.1 kv.2 acc) acc l)); [|by apply Hfold].
  clear Hl Hm. induction Hsafe as [|[k v] l [Hk Hv] _ IH]; intros acc Hacc; [done|]. cbn [foldl]. apply IH. clear IH l. cbn [fst snd] in *.
  induction Hacc as [|[k' v'] acc [Hk' Hv'] Hacc IH]; cbn [jset]; [by repeat constructor|].
  destruct (str_eqb k' k); by repeat constructor.
Qed.

(** The dimensions are determined by their key. *)
Lemma dimension_key_inj a b : dimension_key a = dimension_key b -> a = b.
Proof using.
  unfold dimension_key. intros [= H]%stringify_inj. revert b H. induction a as [|[k v] a IH]; intros [|[k' v'] b]; cbn [map]; try done.
  intros [= -> -> H]. f_equal. by apply IH.
Qed.

(** A metric is filed with its own name and has content-free texts. *)
Record metric_ok (m : metric) : Prop := {
  mo_name : mt_name m ∈ SPATIAL_OBSERVABILITY_METRIC_NAMES;
  mo_value : isFinite (mt_value m) = true;
  mo_texts : content_free (mt_workspace m) /\ content_free (mt_node m) /\ content_free (mt_unit m);
  mo_correlation : forall c, mt_correlation m = Some c -> content_free c;
  mo_dimensions : (length (mt_dimensions m) <= 16)%nat /\ Forall (fun kv => content_free kv.1 /\ content_free kv.2) (mt_dimensions m);
}.

Definition counted (s : telemetry) (m : metric) : Prop :=
  exists dims, dimension_key dims ∈ seen_of (mt_name m) s /\ dimensionsSchema dims = Some (mt_dimensions m).

Definition telemetry_ok (all : list metric) (s : telemetry) : Prop :=
  (forall name, (length (seen_of name s) <= n)%nat) /\ forall m, m ∈ all ++ tl_records s -> metric_ok m /\ counted s m.

Lemma record_inv i fresh wall s s' r : record maxc i fresh wall s = (s', r) ->
  s' = s \/
  exists seen' extra, tl_values s' = jset (ti_name i) seen' (tl_values s) /\ tl_records s' = tl_records s ++ extra /\
    seen_of (ti_name i) s ⊆ seen' /\ (length seen' <= Nat.max n (length (seen_of (ti_name i) s)))%nat /\
    (extra = [] \/ exists m, extra = [m] /\ metric_ok m /\ mt_name m = ti_name i /\
      dimension_key (default [] (ti_dimensions i)) ∈ seen' /\ dimensionsSchema (default [] (ti_dimensions i)) = Some (mt_dimensions m)).
Proof using laws.
  unfold record, jbind, jlift, jread, jwrite, jret. intros H. destruct (record_checks i) as [u|] eqn:Hc; [|injection H as <- _; by left].
  apply record_checks_spec in Hc as (Hw & Hnode & Hu & Hcorr & Hname & Hlen & Hdims). cbv zeta in Hlen, Hdims.
  set (key := dimension_key (default [] (ti_dimensions i))) in *. set (seen := seen_of (ti_name i) s) in *.
  destruct (require _ CARDINALITY_LIMIT) as [v|] eqn:Hcard; [|injection H as <- _; by left]. apply require_ok in Hcard. right.
  set (seen' := if bool_decide (key ∈ seen) then seen else seen ++ [key]) in *. exists seen'.
  assert (Hsub : seen ⊆ seen' /\ key ∈ seen' /\ (length seen' <= Nat.max n (length seen))%nat).
  { unfold seen'. case_bool_decide as Hk; [split_and!; [done|done|lia]|]. split_and!; [set_solver|set_solver|]. cbn [orb] in Hcard.
    apply negb_true_iff in Hcard. rewrite num_le_num in Hcard. apply bool_decide_eq_false in Hcard. rewrite length_app. cbn. lia. }
  destruct Hsub as (Hsub & Hin & Hlen'). clearbody seen'.
  destruct (tl_isoNow _ _) as [t|]; [|injection H as <- _; exists []; split_and!; cbn; rewrite ?app_nil_r; auto].
  destruct (spatialObservabilityMetricSchema _) as [m|] eqn:Hm; cbn [of_option] in H;
    [|injection H as <- _; exists []; split_and!; cbn; rewrite ?app_nil_r; auto].
  injection H as <- _. exists [m]. split_and!; try done. right. exists m.
  unfold spatialObservabilityMetricSchema, finiteNumber in Hm. inv_some. cbn [mt_name mt_dimensions].
  repeat match goal with H : idSchema _ = Some _ |- _ => apply idSchema_spec in H as [-> _] end.
  match goal with H : dimensionsSchema _ = Some _ |- _ => rename H into Hd end.
  match goal with H : nullable idSchema _ = Some _ |- _ => rename H into Hn end. cbn [mt_name mt_workspace mt_node mt_unit mt_bucket mt_value mt_correlation mt_dimensions metric_id] in *.
  split; [done|]. split; [|by rewrite (name_trimmed _ Hname)]. destruct (dimensionsSchema_spec _ _ Hd Hdims) as [Hd1 Hd2].
  split; cbn [mt_name mt_workspace mt_node mt_unit mt_bucket mt_value mt_correlation mt_dimensions].
  - by rewrite (name_trimmed _ Hname).
  - destruct (isFinite (ti_value i)) eqn:Hf; [|done]. match goal with H : Some _ = Some _ |- _ => injection H as <- end. done.
  - split_and!; by apply safe_label_trim.
  - intros c ->. destruct (ti_correlation i) as [c0|]; [|done]. cbn in Hn. apply fmap_Some in Hn as (c1 & [-> Hne]%idSchema_spec & [= ->]).
    destruct (Hcorr c0 eq_refl) as [-> |Hs]; [done|]. by apply safe_label_trim.
  - by split.
Qed.
Lemma seen_of_jset name seen' s s' name' : tl_values s' = jset name seen' (tl_values s) ->
  seen_of name' s' = if str_eqb name name' then seen' else seen_of name' s.
Proof using. intros H. unfold seen_of. rewrite H, jget_jset. by destruct (str_eqb name name'). Qed.

Lemma telemetry_step_ok all s out s' : telemetry_step maxc s out s' -> telemetry_ok all s -> telemetry_ok (all ++ out) s'.
Proof using laws.
  intros [i fresh wall s1 r H|] [Hn Hm]; [|split; [done|]; cbn [flush fst snd tl_records]; by rewrite app_nil_r].
  rewrite app_nil_r. apply record_inv in H as [-> |(seen' & extra & Hv & Hr & Hsub & Hlen & Hx)]; [done|].
  assert (Hcounted : forall m, counted s m -> counted s1 m).
  { intros m (dims & Hin & Hd). exists dims. split; [|done]. rewrite (seen_of_jset _ _ _ _ _ Hv).
    destruct (str_eqb (ti_name i) (mt_name m)) eqn:He; [|done]. apply str_eqb_eq in He. apply Hsub. by rewrite He. }
  split.
  - intros name. rewrite (seen_of_jset _ _ _ _ _ Hv). destruct (str_eqb _ _); [|done]. specialize (Hn (ti_name i)). lia.
  - intros m. rewrite Hr, app_assoc. intros [Hin|Hin]%elem_of_app; [destruct (Hm _ Hin); auto|].
    destruct Hx as [-> |(m' & -> & Hok & Hname & Hk & Hd)]; [by apply not_elem_of_nil in Hin|].
    apply list_elem_of_singleton in Hin as ->. split; [done|]. eexists. split; [|exact Hd].
    by rewrite (seen_of_jset _ _ _ _ _ Hv), Hname, str_eqb_refl.
Qed.

Lemma telemetry_run_ok s out s' : telemetry_run maxc s out s' -> telemetry_ok [] s -> telemetry_ok out s'.
Proof using laws. intros H. induction H as [|s0 out s1 out' s2 _ IH Hs]; [done|]. intros H0. by eapply telemetry_step_ok, IH. Qed.

(** Different things with keys of their own are no more than the keys. *)
Lemma keyed_length {A B} (R : A -> B -> Prop) l ks : NoDup l -> (forall a b k, R a k -> R b k -> a = b) ->
  (forall a, a ∈ l -> exists k, k ∈ ks /\ R a k) -> (length l <= length ks)%nat.
Proof using.
  intros Hn Hinj. revert ks. induction Hn as [|a l Ha _ IH]; intros ks Hk; [cbn; lia|].
  destruct (Hk a) as (k & Hin & Hr); [left|]. apply list_elem_of_split in Hin as (k1 & k2 & ->).
  specialize (IH (k1 ++ k2)). rewrite !length_app in *. cbn [length]. assert (length l <= length k1 + length k2)%nat; [|lia].
  apply IH. intros b Hb. destruct (Hk b) as (k' & Hin & Hr'); [by right|]. exists k'. split; [|done].
  apply elem_of_app in Hin as [Hin|[-> |Hin]%elem_of_cons]; [apply elem_of_app; by left| |apply elem_of_app; by right].
  by rewrite (Hinj _ _ _ Hr' Hr) in Hb.
Qed.

(** The different dimensions a metric was recorded with. *)
Definition dimensions_of (name : string) (l : list metric) : list (jsmap string) :=
  remove_dups (map mt_dimensions (filter (fun m => mt_name m = name) l)).

(** C29. Telemetry is content-free and bounded: over any calls, whatever is
    recorded and flushed, every metric has one of the declared names and a finite
    value; its workspace, Node, unit, correlation, and the keys and values of its
    at most sixteen dimensions contain none of the sensitive words in any case;
    and a metric appears with at most the permitted number of different
    dimensions. *)
Theorem telemetry_is_content_free out s : telemetry_run maxc new_telemetry out s ->
  (forall m, m ∈ out ++ tl_records s -> metric_ok m) /\
  forall name, (length (dimensions_of name (out ++ tl_records s)) <= n)%nat.
Proof using laws.
  intros H. apply telemetry_run_ok in H as [Hn Hm].
  - split; [intros m Hin; by apply Hm|]. intros name. etrans; [|exact (Hn name)].
    apply (keyed_length (fun d k => exists dims, k = dimension_key dims /\ dimensionsSchema dims = Some d)).
    + apply NoDup_remove_dups.
    + intros a b k (da & -> & Ha) (db & ->%dimension_key_inj & Hb). congruence.
    + intros d Hd. unfold dimensions_of in Hd. apply elem_of_remove_dups, list_elem_of_fmap in Hd as (m & -> & [Hname Hin]%list_elem_of_filter).
      destruct (Hm _ Hin) as [_ (dims & Hk & Hd)]. rewrite Hname in Hk. exists (dimension_key dims). split; [done|]. by exists dims.
  - split; [intros name; unfold seen_of; cbn; lia|]. intros m Hin. by apply not_elem_of_nil in Hin.
Qed.
End properties.

Module TelemetryWitness.
#[local] Existing Instance zod_ref.
Definition input (name : string) (v : jsnum) (dims : jsmap string) (b : option string) : telemetry_input :=
  TelemetryInput "w" "n" name v "ms" b None (Some dims) None.
Definition s1 : telemetry := (record (num (Z.of_nat 1)) (input "frame_p95_bucket" (num 20) [("profile", "high")]%string None) "m-1" 5 new_telemetry).1.
Definition out1 : list metric := (flush s1).2.
Definition s2 : telemetry := (record (num (Z.of_nat 1)) (input "reconnect_count" (num 2) [] None) "m-2" 6 (flush s1).1).1.

Lemma telemetry_is_content_free_witness :
  map mt_bucket (out1 ++ tl_records s2) = ["10-24"; "1-4"]%string /\
  (length (dimensions_of "frame_p95_bucket" (out1 ++ tl_records s2)) <= 1)%nat.
Proof.
  split; [vm_compute; reflexivity|].
  refine (proj2 (telemetry_is_content_free (laws := zod_ref_laws) 1 out1 s2 _) "frame_p95_bucket"%string).
  assert (H1 : telemetry_run (num (Z.of_nat 1)) new_telemetry ([] ++ []) s1)
    by exact (run_step _ _ _ _ _ _ (run_none _ _) (tl_record _ _ _ "m-1" 5 _ _ (surjective_pairing _))).
  assert (H2 : telemetry_run (num (Z.of_nat 1)) new_telemetry (([] ++ []) ++ out1) (flush s1).1)
    by exact (run_step _ _ _ _ _ _ H1 (tl_flush _ _)).
  assert (H3 : telemetry_run (num (Z.of_nat 1)) new_telemetry ((([] ++ []) ++ out1) ++ []) s2)
    by exact (run_step _ _ _ _ _ _ H2 (tl_record _ _ _ "m-2" 6 _ _ (surjective_pairing _))).
  exact H3.
Defined.

Example telemetry_refusals :
  let r := record (num 1) in
  (r (input "frame_p95_bucket" (num 20) [("profile", "low")]%string None) "m" 5 s1).2 = Err CARDINALITY_LIMIT /\
  (r (input "frame_p95_bucket" (num 20) [("user", "My Secret plan")]%string None) "m" 5 new_telemetry).2 = Err SENSITIVE_CONTENT /\
  (r (input "cpu" (num 20) [] None) "m" 5 new_telemetry).2 = Err INVALID_METRIC.
Proof. vm_compute. done. Qed.

(** A bucket that the caller gives is not looked at: a metric can carry what the
    other texts may not. *)
Theorem bucket_is_not_checked :
  match (record (num 1) (input "reconnect_count" (num 2) [] (Some "password: hunter2"%string)) "m" 5 new_telemetry).2 with
  | Ok m => mt_bucket m = "password: hunter2"%string /\ ~ content_free (mt_bucket m)
  | Err _ => False
  end.
Proof. vm_compute. split; [done|]. by intros [=]. Qed.

(** A metric the contract refuses has used up its dimensions: the next one is
    refused for the limit. *)
Theorem refused_metric_is_counted :
  let r := record (num 1) (input "reconnect_count" NaN [("a", "x")]%string None) "m" 5 new_telemetry in
  r.2 = Err INVALID_METRIC /\
  (record (num 1) (input "reconnect_count" (num 2) [("a", "y")]%string None) "m" 5 r.1).2 = Err CARDINALITY_LIMIT.
Proof. vm_compute. done. Qed.
End TelemetryWitness.
