(* ===== verification/Performance.v ===== *)
(** * Performance budgets

    src/web/operator-dashboard/src/spatial/hardening/performance.ts: the budgets
    of a quality profile, a report against them, and the surface that follows,
    with what an evaluation says. [fresh] is what the id factory returns and
    [wall] the host clock; an observation time is the instant it denotes, [None]
    when it denotes none. *)

From Stdlib Require Import QArith.
From S2P Require Import Prelude.
From S2P Require Import Contracts.
From S2P Require Import Numbers.

#[local] Open Scope Z_scope.

(** ** Data *)

Inductive profile : Type := LOW | PF_MOBILE | PF_DESKTOP | HIGH.
#[export] Instance profile_eq_dec : EqDecision profile.
Proof. solve_decision. Defined.

Inductive report_state : Type := PASS | ATTENTION | FAIL.
#[export] Instance report_state_eq_dec : EqDecision report_state.
Proof. solve_decision. Defined.

Inductive surface : Type := SPATIAL | CLASSIC.
#[export] Instance surface_eq_dec : EqDecision surface.
Proof. solve_decision. Defined.

(** [SpatialPerformanceBudget]. *)
Record budget : Type := Budget {
  maxInitialJsKb : jsnum;
  maxInitialCssKb : jsnum;
  maxWebglChunkKb : jsnum;
  maxTimeToInteractiveMs : jsnum;
  maxFirstSpatialFrameMs : jsnum;
  minSteadyFps : jsnum;
  maxFrameP95Ms : jsnum;
  maxMemoryGrowthMb : jsnum;
  maxIdleCpuPercent : jsnum;
  maxIdleGpuPercent : jsnum;
  maxEventBurstPerSecond : jsnum;
  maxConversationDomNodes : jsnum;
  maxMountCycles : jsnum;
}.

Definition SPATIAL_PERFORMANCE_BUDGETS (p : profile) : budget :=
  match p with
  | LOW => Budget (num 420) (num 100) (num 300) (num 3500) (num 3000) (num 30) (num 33) (num 160) (num 12) (num 18)
             (num 20) (num 1200) (num 20)
  | PF_MOBILE => Budget (num 500) (num 120) (num 320) (num 3000) (num 2500) (num 40) (num 25) (num 128) (num 8) (num 14)
             (num 24) (num 1600) (num 30)
  | PF_DESKTOP => Budget (num 650) (num 160) (num 450) (num 2200) (num 1800) (num 55) (Finite (167 # 10)) (num 192) (num 6) (num 10)
             (num 40) (num 2500) (num 50)
  | HIGH => Budget (num 900) (num 220) (num 600) (num 1800) (num 1400) (num 60) (Finite (167 # 10)) (num 256) (num 8) (num 14)
             (num 80) (num 4000) (num 80)
  end.

(** [SpatialPerformanceReport]. *)
Record report : Type := Report {
  report_id : string;
  rp_workspace : string;
  rp_node : string;
  rp_profile : profile;
  initial_js_kb : jsnum;
  initial_css_kb : jsnum;
  webgl_chunk_kb : jsnum;
  time_to_interactive_ms : jsnum;
  first_spatial_frame_ms : jsnum;
  steady_fps : jsnum;
  frame_p95_ms : jsnum;
  memory_growth_mb : jsnum;
  idle_cpu_percent : jsnum;
  idle_gpu_percent : jsnum;
  event_burst_per_second : jsnum;
  semantic_object_count : jsnum;
  conversation_dom_nodes : jsnum;
  mount_cycles : jsnum;
  rp_state : report_state;
  budget_refs : list string;
  rp_observed : iso;
}.

(** [SpatialPerformanceCheck] and [SpatialPerformanceEvaluation]. *)
Record check : Type := ACheck {
  ck_metric : string;
  pass : bool;
  observed : jsnum;
  ck_budget : jsnum;
}.
Record evaluation : Type := Evaluation {
  ev_profile : profile;
  ev_status : report_state;
  ev_checks : list check;
  fallback : surface;
}.

(** ** Reports *)

Section reports.
Context {zod : Zod}.

(** [z.number().finite().nonnegative()] and [z.number().int().nonnegative()]. *)
Definition amountSchema (n : jsnum) : option jsnum := if isFinite n && negb (num_lt n (num 0)) then Some n else None.
Definition countSchema (n : jsnum) : option jsnum := if isInteger n && num_le n (num (2 ^ 53 - 1)) then amountSchema n else None.

Definition spatialPerformanceReportSchema (r : report) : option report :=
  id ← idSchema (report_id r);
  ws ← idSchema (rp_workspace r);
  node ← idSchema (rp_node r);
  js ← amountSchema (initial_js_kb r);
  css ← amountSchema (initial_css_kb r);
  webgl ← amountSchema (webgl_chunk_kb r);
  tti ← amountSchema (time_to_interactive_ms r);
  frame ← amountSchema (first_spatial_frame_ms r);
  fps ← amountSchema (steady_fps r);
  p95 ← amountSchema (frame_p95_ms r);
  mem ← amountSchema (memory_growth_mb r);
  cpu ← boundedSchema 100 (idle_cpu_percent r);
  gpu ← boundedSchema 100 (idle_gpu_percent r);
  burst ← amountSchema (event_burst_per_second r);
  objects ← countSchema (semantic_object_count r);
  nodes ← countSchema (conversation_dom_nodes r);
  mounts ← countSchema (mount_cycles r);
  refs ← z_array idSchema 64 (budget_refs r);
  t ← timestampSchema (rp_observed r);
  Some (Report id ws node (rp_profile r) js css webgl tti frame fps p95 mem cpu gpu burst objects nodes mounts (rp_state r) refs t).

(** [createSpatialPerformanceReport(input)]: the report of the input with its
    identifier and time; [None] is the thrown [Error]. *)
Definition createSpatialPerformanceReport (input : string -> iso -> report) (reportId : option string) (observedAt : option date)
    (fresh : string) (wall : iso) : option report :=
  t ← default (Some wall) observedAt;
  spatialPerformanceReportSchema (input (default fresh reportId) t).
End reports.

(** ** Evaluation *)

Definition at_most (name : string) (o b : jsnum) : check := ACheck name (num_le o b) o b.
Definition at_least (name : string) (o b : jsnum) : check := ACheck name (num_le b o) o b.

Definition checks_of (r : report) : list check :=
  let b := SPATIAL_PERFORMANCE_BUDGETS (rp_profile r) in
  [at_most "initial_js_kb" (initial_js_kb r) (maxInitialJsKb b);
   at_most "initial_css_kb" (initial_css_kb r) (maxInitialCssKb b);
   at_most "webgl_chunk_kb" (webgl_chunk_kb r) (maxWebglChunkKb b);
   at_most "time_to_interactive_ms" (time_to_interactive_ms r) (maxTimeToInteractiveMs b);
   at_most "first_spatial_frame_ms" (first_spatial_frame_ms r) (maxFirstSpatialFrameMs b);
   at_least "steady_fps" (steady_fps r) (minSteadyFps b);
   at_most "frame_p95_ms" (frame_p95_ms r) (maxFrameP95Ms b);
   at_most "memory_growth_mb" (memory_growth_mb r) (maxMemoryGrowthMb b);
   at_most "idle_cpu_percent" (idle_cpu_percent r) (maxIdleCpuPercent b);
   at_most "idle_gpu_percent" (idle_gpu_percent r) (maxIdleGpuPercent b);
   at_most "event_burst_per_second" (event_burst_per_second r) (maxEventBurstPerSecond b);
   at_most "conversation_dom_nodes" (conversation_dom_nodes r) (maxConversationDomNodes b);
   at_most "mount_cycles" (mount_cycles r) (maxMountCycles b)].

Definition failed_checks (l : list check) : nat := length (filter (fun c => pass c = false) l).

Definition evaluateSpatialPerformanceReport (r : report) : evaluation :=
  let checks := checks_of r in
  let failed := failed_checks checks in
  let status :=
    if bool_decide (failed = 0%nat) && bool_decide (rp_state r = PASS) then PASS
    else if bool_decide (failed <= 2)%nat && negb (bool_decide (rp_state r = FAIL)) then ATTENTION
    else FAIL in
  Evaluation (rp_profile r) status checks (if decide (status = FAIL) then CLASSIC else SPATIAL).

(** [resolveSpatialPerformanceFallback(profile, report)]; [None] is a profile that
    does not exist. *)
Definition resolveSpatialPerformanceFallback (p : option profile) (r : option report) : surface :=
  match p with
  | None => CLASSIC
  | Some _ =>
      match r with
      | Some r => if decide (fallback (evaluateSpatialPerformanceReport r) = CLASSIC) then CLASSIC else SPATIAL
      | None => SPATIAL
      end
  end.

Definition supportsLargeSemanticDataset (n : jsnum) : bool := isInteger n && num_le (num 20000) n.

(** ** Properties *)

(** The status by the number of budgets that are exceeded. *)
Theorem evaluation_exact r :
  let failed := failed_checks (checks_of r) in
  let e := evaluateSpatialPerformanceReport r in
  (ev_status e = PASS <-> failed = 0%nat /\ rp_state r = PASS) /\
  (ev_status e = FAIL <-> (2 < failed)%nat \/ rp_state r = FAIL) /\
  (fallback e = CLASSIC <-> ev_status e = FAIL).
Proof.
  cbv zeta. unfold evaluateSpatialPerformanceReport. cbn [ev_status fallback]. generalize (failed_checks (checks_of r)). intros k.
  destruct (rp_state r); repeat case_bool_decide; cbn [andb negb]; repeat case_decide; split_and!; split; intros; try done; try lia; auto.
  all: try (by intuition (try done; lia)).
Qed.

(** One number is no better than another where less is better. *)
Lemma num_le_trans a b c : num_le a b = true -> num_le b c = true -> num_le a c = true.
Proof.
  destruct a as [p| | |], b as [q| | |], c as [r| | |]; try done. intros H1%num_le_finite H2%num_le_finite. apply num_le_finite.
  by eapply Qle_trans.
Qed.

(** [r'] is no better than [r] in any respect that is checked. *)
Record no_better (r r' : report) : Prop := {
  nb_profile : rp_profile r' = rp_profile r;
  nb_state : rp_state r = PASS \/ rp_state r' = rp_state r \/ rp_state r' = FAIL;
  nb_fps : num_le (steady_fps r') (steady_fps r) = true;
  nb_costs : Forall2 (fun x x' => num_le x x' = true)
    [initial_js_kb r; initial_css_kb r; webgl_chunk_kb r; time_to_interactive_ms r; first_spatial_frame_ms r; frame_p95_ms r;
     memory_growth_mb r; idle_cpu_percent r; idle_gpu_percent r; event_burst_per_second r; conversation_dom_nodes r; mount_cycles r]
    [initial_js_kb r'; initial_css_kb r'; webgl_chunk_kb r'; time_to_interactive_ms r'; first_spatial_frame_ms r'; frame_p95_ms r';
     memory_growth_mb r'; idle_cpu_percent r'; idle_gpu_percent r'; event_burst_per_second r'; conversation_dom_nodes r'; mount_cycles r'];
}.

Definition rank (s : report_state) : nat := match s with PASS => 0 | ATTENTION => 1 | FAIL => 2 end.

Lemma at_most_worse name o o' b : num_le o o' = true -> pass (at_most name o' b) = true -> pass (at_most name o b) = true.
Proof. intros H1 H2. by eapply num_le_trans. Qed.

Lemma failed_checks_worse l l' : Forall2 (fun c c' => pass c' = true -> pass c = true) l l' -> (failed_checks l <= failed_checks l')%nat.
Proof.
  unfold failed_checks. intros H. induction H as [|c c' l l' Hc _ IH]; [done|]. rewrite !filter_cons.
  destruct (pass c) eqn:H1, (pass c') eqn:H2; repeat case_decide; cbn [length]; try done; try lia; by rewrite Hc in H1.
Qed.

Lemma checks_worse r r' : no_better r r' -> Forall2 (fun c c' => pass c' = true -> pass c = true) (checks_of r) (checks_of r').
Proof.
  intros [Hp _ Hfps H]. unfold checks_of. rewrite Hp.
  repeat (apply Forall2_cons in H as [? H]). repeat (apply Forall2_cons_2; [first [apply at_most_worse; assumption | intros Hx; exact (num_le_trans _ _ _ Hx Hfps)]|]).
  apply Forall2_nil_2.
Qed.

(** An evaluation is monotone: a report of the same profile that is no
    better in any checked metric and in the state it was filed with, with a lower
    frame rate and higher costs, gets no better status, and is never shown on the
    spatial surface where the better one falls back to the classic one. *)
Theorem evaluation_is_monotone r r' : no_better r r' ->
  let e := evaluateSpatialPerformanceReport r in
  let e' := evaluateSpatialPerformanceReport r' in
  (rank (ev_status e) <= rank (ev_status e'))%nat /\ (fallback e = CLASSIC -> fallback e' = CLASSIC).
Proof.
  intros H. cbv zeta. pose proof (failed_checks_worse _ _ (checks_worse _ _ H)) as Hf. destruct H as [_ Hs _ _].
  destruct (evaluation_exact r) as (Hp & Hfail & Hc), (evaluation_exact r') as (Hp' & Hfail' & Hc'). cbv zeta in *.
  assert (Hff : ev_status (evaluateSpatialPerformanceReport r) = FAIL -> ev_status (evaluateSpatialPerformanceReport r') = FAIL).
  { rewrite Hfail, Hfail'. intros [?|E]; [left; lia|]. rewrite E in Hs. right. by destruct Hs as [?|[?|?]]. }
  assert (Hpp : ev_status (evaluateSpatialPerformanceReport r') = PASS -> ev_status (evaluateSpatialPerformanceReport r) = PASS).
  { rewrite Hp, Hp'. intros [? E]. split; [lia|]. rewrite E in Hs. by destruct Hs as [?|[?|?]]. }
  split; [|by rewrite Hc, Hc'].
  destruct (ev_status (evaluateSpatialPerformanceReport r)), (ev_status (evaluateSpatialPerformanceReport r')); cbn; try lia;
    first [by specialize (Hff eq_refl)|by specialize (Hpp eq_refl)].
Qed.

Module PerformanceWitness.
#[local] Existing Instance zod_ref.
Definition measured (p : profile) (js fps cpu burst : Z) (st : report_state) (id : string) (t : iso) : report :=
  Report id "w" "n" p (num js) (num 90) (num 250) (num 1500) (num 1000) (num fps) (num 16) (num 100) (num cpu) (num 8) (num burst)
    (num 20000) (num 900) (num 10) st [] t.
Definition good : report := measured PF_DESKTOP 500 60 5 30 PASS "r" 7.
Definition bad : report := measured PF_DESKTOP 700 50 7 30 PASS "r" 7.

Lemma evaluation_is_monotone_witness :
  ev_status (evaluateSpatialPerformanceReport good) = PASS /\ ev_status (evaluateSpatialPerformanceReport bad) = FAIL /\
  (rank (ev_status (evaluateSpatialPerformanceReport good)) <= rank (ev_status (evaluateSpatialPerformanceReport bad)))%nat.
Proof.
  split; [vm_compute; reflexivity|]. split; [vm_compute; reflexivity|]. apply (evaluation_is_monotone good bad).
  split; [reflexivity|left; reflexivity|vm_compute; reflexivity|].
  repeat (apply Forall2_cons_2; [vm_compute; reflexivity|]). apply Forall2_nil_2.
Defined.

Example created :
  createSpatialPerformanceReport (measured LOW 400 40 5 10 PASS) None None "fresh" 9 = Some (measured LOW 400 40 5 10 PASS "fresh" 9) /\
  createSpatialPerformanceReport (measured LOW 400 40 101 10 PASS) None None "fresh" 9 = None.
Proof. vm_compute. done. Qed.

(** The report is evaluated against the budgets of its own profile: what was
    measured on a desktop decides for a low-end device. *)
Theorem fallback_ignores_the_profile :
  resolveSpatialPerformanceFallback (Some LOW) (Some (measured PF_DESKTOP 640 60 5 40 PASS "r" 7)) = SPATIAL /\
  resolveSpatialPerformanceFallback (Some LOW) (Some (measured LOW 640 29 5 40 PASS "r" 7)) = CLASSIC.
Proof. vm_compute. done. Qed.

(** The number of semantic objects is reported and not checked. *)
Theorem object_count_is_not_checked :
  let with_objects k := Report "r" "w" "n" LOW (num 1) (num 1) (num 1) (num 1) (num 1) (num 60) (num 1) (num 1) (num 1) (num 1) (num 1)
                          k (num 1) (num 1) PASS [] 7 in
  ev_status (evaluateSpatialPerformanceReport (with_objects (num 100000000))) = PASS.
Proof. vm_compute. done. Qed.
End PerformanceWitness.
