(* ===== verification/Accessibility.v ===== *)
(** * The accessibility gate

    src/web/operator-dashboard/src/spatial/hardening/accessibility.ts: what a
    component has to declare before it is shown, and the order of the primary
    keyboard flow, with an exact description of what passes. *)

From Stdlib Require Import QArith.
From S2P Require Import Prelude.
From S2P Require Import Numbers.

#[local] Open Scope Z_scope.

(** ** Data *)

Inductive live_region : Type := polite | assertive | off.
#[export] Instance live_region_eq_dec : EqDecision live_region.
Proof. solve_decision. Defined.

(** [SpatialAccessibilityRequirement]; an absent focus return is not [null]. *)
Record requirement : Type := Requirement {
  rq_id : string;
  rq_role : string;
  accessibleName : option string;
  nameRequired : option bool;
  keyboardOperable : option bool;
  focusable : option bool;
  focusOrder : option jsnum;
  focusReturnId : option (option string);
  liveRegion : option live_region;
  liveUpdateHz : option jsnum;
  minTouchTargetPx : option jsnum;
  colorIndependent : option bool;
  highContrastSafe : option bool;
  reducedMotionSafe : option bool;
  reducedTransparencySafe : option bool;
  hasErrorInstructions : option bool;
}.

Inductive issue_code : Type :=
| MISSING_NAME | NOT_KEYBOARD_OPERABLE | NOT_FOCUSABLE | INVALID_FOCUS_ORDER | MISSING_FOCUS_RETURN | LIVE_REGION_TOO_FAST
| TOUCH_TARGET_TOO_SMALL | COLOR_ONLY_STATE | HIGH_CONTRAST_UNSAFE | MOTION_UNSAFE | TRANSPARENCY_UNSAFE
| MISSING_ERROR_INSTRUCTIONS.
#[export] Instance issue_code_eq_dec : EqDecision issue_code.
Proof. solve_decision. Defined.

(** [SpatialAccessibilityIssue]. *)
Record issue : Type := Issue { is_code : issue_code; is_id : string; is_message : string }.

(** ** The contract of a component *)

Definition is_true_flag (o : option bool) : bool := bool_decide (o = Some true).
Definition issue_if (b : bool) (c : issue_code) : list issue_code := if b then [c] else [].

(** The message a code is reported with. *)
Definition issue_message (c : issue_code) : string :=
  match c with
  | MISSING_NAME => "A visible or programmatic accessible name is required"
  | NOT_KEYBOARD_OPERABLE => "Primary interaction must be operable without a pointer"
  | NOT_FOCUSABLE => "Keyboard interaction requires a focusable target"
  | INVALID_FOCUS_ORDER => "Focus order must be a non-negative integer"
  | MISSING_FOCUS_RETURN => "Transient views must declare where focus returns"
  | LIVE_REGION_TOO_FAST => "Streaming announcements must be rate limited"
  | TOUCH_TARGET_TOO_SMALL => "Interactive targets must be at least 44 CSS pixels"
  | COLOR_ONLY_STATE => "State must have text, shape or icon semantics in addition to color"
  | HIGH_CONTRAST_UNSAFE => "The component must remain legible in forced colors/high contrast"
  | MOTION_UNSAFE => "The component must provide a reduced-motion path"
  | TRANSPARENCY_UNSAFE => "The component must remain readable without blur/transparency"
  | MISSING_ERROR_INSTRUCTIONS => "Errors must explain recovery and the next safe action"
  end.

Definition validateSpatialAccessibilityContract (r : requirement) : list issue :=
  map (fun c => Issue c (rq_id r) (issue_message c))
    (issue_if (negb (bool_decide (nameRequired r = Some false)) && str_eqb (trim (default "" (accessibleName r))) "") MISSING_NAME ++
     (if bool_decide (keyboardOperable r = Some false) then []
      else issue_if (negb (is_true_flag (keyboardOperable r))) NOT_KEYBOARD_OPERABLE ++
           issue_if (negb (is_true_flag (focusable r))) NOT_FOCUSABLE) ++
     issue_if (match focusOrder r with Some n => negb (isInteger n) || num_lt n (num 0) | None => false end) INVALID_FOCUS_ORDER ++
     issue_if (is_true_flag (focusable r) && bool_decide (focusReturnId r = None)) MISSING_FOCUS_RETURN ++
     issue_if (match liveRegion r with
               | Some polite | Some assertive => num_lt (num 4) (default (num 0) (liveUpdateHz r))
               | _ => false
               end) LIVE_REGION_TOO_FAST ++
     issue_if (num_lt (default (num 44) (minTouchTargetPx r)) (num 44)) TOUCH_TARGET_TOO_SMALL ++
     issue_if (negb (is_true_flag (colorIndependent r))) COLOR_ONLY_STATE ++
     issue_if (negb (is_true_flag (highContrastSafe r))) HIGH_CONTRAST_UNSAFE ++
     issue_if (negb (is_true_flag (reducedMotionSafe r))) MOTION_UNSAFE ++
     issue_if (negb (is_true_flag (reducedTransparencySafe r))) TRANSPARENCY_UNSAFE ++
     issue_if (negb (is_true_flag (hasErrorInstructions r))) MISSING_ERROR_INSTRUCTIONS).

(** [evaluateSpatialAccessibility(requirements)]: whether the gate passes, and why not. *)
Definition evaluateSpatialAccessibility (l : list requirement) : bool * list issue :=
  let issues := concat (map validateSpatialAccessibilityContract l) in
  (bool_decide (issues = []), issues).

Definition SPATIAL_PRIMARY_KEYBOARD_FLOW : list string :=
  ["open-workspace"; "inspect-agent"; "create-interaction"; "inspect-endpoint"; "submit-test"; "view-result"; "open-status";
   "return-home"]%string.

(** [validateSpatialPrimaryFlow(flow)]; empty steps are left out. *)
Definition validateSpatialPrimaryFlow (flow : list string) : list issue :=
  let actual := filter (fun s => s <> ""%string) flow in
  if forallb (fun iv => bool_decide (actual !! iv.1 = Some iv.2)) (imap pair SPATIAL_PRIMARY_KEYBOARD_FLOW) then []
  else [Issue INVALID_FOCUS_ORDER "primary-flow"
          ("Expected keyboard flow: " ++ String.concat " > " SPATIAL_PRIMARY_KEYBOARD_FLOW)].

(** ** Properties *)

(** What a component that passes declares. *)
Record accessible (r : requirement) : Prop := {
  acc_name : nameRequired r = Some false \/ exists n, accessibleName r = Some n /\ trim n <> ""%string;
  acc_keyboard : keyboardOperable r = Some false \/ keyboardOperable r = Some true /\ focusable r = Some true;
  acc_order : forall n, focusOrder r = Some n -> isInteger n = true /\ num_lt n (num 0) = false;
  acc_return : focusable r = Some true -> is_Some (focusReturnId r);
  acc_live : liveRegion r = Some polite \/ liveRegion r = Some assertive -> num_lt (num 4) (default (num 0) (liveUpdateHz r)) = false;
  acc_touch : num_lt (default (num 44) (minTouchTargetPx r)) (num 44) = false;
  acc_safe : Forall (fun o => o = Some true)
    [colorIndependent r; highContrastSafe r; reducedMotionSafe r; reducedTransparencySafe r; hasErrorInstructions r];
}.

Lemma issue_if_nil b c : issue_if b c = [] <-> b = false.
Proof. by destruct b. Qed.

Lemma is_true_flag_false o : negb (is_true_flag o) = false <-> o = Some true.
Proof. unfold is_true_flag. rewrite negb_false_iff. apply bool_decide_eq_true. Qed.

Lemma contract_exact r : validateSpatialAccessibilityContract r = [] <-> accessible r.
Proof.
  unfold validateSpatialAccessibilityContract.
  assert (Hmap : forall l : list issue_code, map (fun c => Issue c (rq_id r) (issue_message c)) l = [] <-> l = []) by (by intros [|? ?]).
  rewrite Hmap. repeat rewrite app_nil. rewrite !issue_if_nil, !is_true_flag_false.
  split.
  - intros (H1 & H2 & H3 & H4 & H5 & H6 & H7 & H8 & H9 & H10 & H11). split; try done.
    + apply andb_false_iff in H1 as [H1|H1]; [left; by apply negb_false_iff, bool_decide_eq_true in H1|].
      right. destruct (accessibleName r) as [n|]; [|done]. exists n. split; [done|]. intros E. cbn [from_option id] in H1. by rewrite E in H1.
    + destruct (keyboardOperable r) as [[]|] eqn:Ek; [|by left|by cbn in H2]. right. split; [done|].
      cbn [bool_decide decide] in H2. by apply is_true_flag_false, (issue_if_nil _ NOT_FOCUSABLE).
    + intros n Hn. rewrite Hn in H3. apply orb_false_iff in H3 as [Ha Hb]. by apply negb_false_iff in Ha.
    + intros Hf. unfold is_true_flag in H4. rewrite Hf in H4. cbn [andb bool_decide] in H4. case_bool_decide; [|done].
      apply bool_decide_eq_false in H4. by destruct (focusReturnId r); [eexists|].
    + by intros [E|E]; rewrite E in H5.
    + by repeat constructor.
  - intros [H1 H2 H3 H4 H5 H6 H7]. repeat (apply Forall_cons in H7 as [? H7]). split_and!; try done.
    + apply andb_false_iff. destruct H1 as [->|(n & -> & Hn)]; [by left|]. right. cbn [from_option id]. apply not_true_iff_false. by intros ?%str_eqb_eq.
    + case_bool_decide; [done|]. destruct H2 as [?|[-> ->]]; [done|]. done.
    + destruct (focusOrder r) as [n|]; [|done]. destruct (H3 n eq_refl) as [-> ->]. done.
    + unfold is_true_flag. case_bool_decide as Hf; [|done]. destruct (H4 Hf) as [x ->]. done.
    + destruct (liveRegion r) as [[]|]; auto.
Qed.

(** The accessibility gate is exact: it passes when every component has an
    accessible name or needs none, is operable from the keyboard with a focusable
    target or declares that it is not, has a focus order that is a natural number,
    says where a focus returns to, updates a live region at most four times a
    second, has a touch target of at least 44 pixels, and declares each of the five
    independence and recovery properties; otherwise an issue names a component
    that does not. *)
Theorem accessibility_gate_exact l :
  ((evaluateSpatialAccessibility l).1 = true <-> Forall accessible l) /\
  (forall i, i ∈ (evaluateSpatialAccessibility l).2 -> exists r, r ∈ l /\ rq_id r = is_id i /\ ~ accessible r).
Proof.
  unfold evaluateSpatialAccessibility. rewrite <- flat_map_concat_map. cbn [fst snd]. split.
  - rewrite bool_decide_eq_true. induction l as [|r l IH]; [by split|]. cbn [flat_map].
    rewrite app_nil, Forall_cons, IH, contract_exact. done.
  - intros i (r & Hr%list_elem_of_In & Hin%list_elem_of_In)%list_elem_of_In%in_flat_map. exists r. split; [done|].
    split; [unfold validateSpatialAccessibilityContract in Hin; by apply list_elem_of_fmap in Hin as (x & -> & _)|].
    intros Ha%contract_exact. rewrite Ha in Hin. by apply not_elem_of_nil in Hin.
Qed.

(** A flow passes when its steps, the empty ones left out, begin with the primary
    flow. *)
Theorem primary_flow_exact flow :
  validateSpatialPrimaryFlow flow = [] <->
  exists rest, filter (fun s => s <> ""%string) flow = SPATIAL_PRIMARY_KEYBOARD_FLOW ++ rest.
Proof.
  unfold validateSpatialPrimaryFlow. generalize (filter (fun s => s <> ""%string) flow). intros actual.
  assert (H : forallb (fun iv => bool_decide (actual !! iv.1 = Some iv.2)) (imap pair SPATIAL_PRIMARY_KEYBOARD_FLOW) = true <->
              exists rest, actual = SPATIAL_PRIMARY_KEYBOARD_FLOW ++ rest).
  { split.
    - cbn. intros H. do 8 (destruct actual as [|? actual]; [by rewrite ?andb_false_r in H|]). cbn in H.
      repeat (apply andb_true_iff in H as [?%bool_decide_eq_true H]). exists actual. by simplify_eq.
    - intros [rest ->]. done. }
  destruct (forallb _ _); [|split; [done|]; intros Hr; by apply H in Hr].
  split; [intros _; by apply H|done].
Qed.

Module AccessibilityWitness.
(** A component with a touch target that is not a number passes. *)
Definition button (px : jsnum) : requirement :=
  Requirement "b" "button" (Some "Send"%string) None (Some true) (Some true) (Some (num 0)) (Some None) None None (Some px)
    (Some true) (Some true) (Some true) (Some true) (Some true).
Example gate :
  evaluateSpatialAccessibility [button (num 44)] = (true, []) /\
  evaluateSpatialAccessibility [button (num 40)] = (false, [Issue TOUCH_TARGET_TOO_SMALL "b" "Interactive targets must be at least 44 CSS pixels"]) /\
  (evaluateSpatialAccessibility [button NaN]).1 = true.
Proof. vm_compute. done. Qed.
End AccessibilityWitness.
