(* ===== verification/Presence.v ===== *)
(** * The presence of the Primary Agent

    src/web/operator-dashboard/src/spatial/prototype/primary-agent.ts and
    data/primary-agent-presence.ts: what the operator sees of the Primary Agent
    in each operational state, composed with the state that [AgentState]
    aggregates. [toLocaleString] is the host's. *)

From Stdlib Require Import QArith.
From S2P Require Import Prelude.
From S2P Require Import Contracts.
From S2P Require Import Numbers.
From S2P Require Import Slot.
From S2P Require Import AgentState.

#[local] Open Scope Z_scope.

(** ** The visual vocabulary *)

Inductive quality_profile : Type := low | mobile | desktop | high.
#[export] Instance quality_profile_eq_dec : EqDecision quality_profile.
Proof. solve_decision. Defined.

Inductive accent : Type := ac_ready | ac_blue | ac_violet | ac_cyan | ac_amber | ac_critical | ac_offline.
Inductive motion : Type := mo_steady | mo_slow_pulse | mo_outbound_pulse | mo_attention_pulse | mo_critical_pulse | mo_static.
Inductive channel : Type := ch_halo | ch_core | ch_orbit | ch_attention | ch_critical | ch_placeholder.
Inductive visual_lod : Type := physical | simple.

(** [PrimaryAgentVisual]. *)
Record visual : Type := Visual {
  vi_state : operational_state;
  vi_label : string;
  vi_detail : string;
  vi_accent : accent;
  vi_motion : motion;
  vi_channel : channel;
  vi_lod : visual_lod;
}.

Definition primaryAgentVisuals (s : operational_state) : visual :=
  match s with
  | READY => Visual READY "Ready" "Available for a new operator intent." ac_ready mo_steady ch_halo physical
  | LISTENING => Visual LISTENING "Listening" "The Primary Agent is connected and waiting for operator input."
                   ac_blue mo_steady ch_halo physical
  | THINKING => Visual THINKING "Thinking" "Reasoning is in progress; no action has been committed."
                  ac_violet mo_slow_pulse ch_core physical
  | ACTING => Visual ACTING "Acting" "A mediated tool action is in flight; completion is confirmed by Node state."
                ac_cyan mo_outbound_pulse ch_orbit physical
  | WORKING => Visual WORKING "Working" "A mediated capability is active." ac_cyan mo_outbound_pulse ch_orbit physical
  | ATTENTION => Visual ATTENTION "Attention" "The agent has information or a decision that needs operator awareness."
                   ac_amber mo_attention_pulse ch_attention physical
  | CRITICAL => Visual CRITICAL "Critical" "A critical Node, security, or data condition needs recovery attention."
                  ac_critical mo_critical_pulse ch_critical physical
  | OFFLINE => Visual OFFLINE "Offline" "The Primary Agent is unavailable; System entry remains available."
                 ac_offline mo_static ch_placeholder simple
  end.

Definition small (p : quality_profile) : bool := match p with low | mobile => true | _ => false end.

Definition primaryAgentVisual (s : operational_state) (p : quality_profile) (prefersReducedMotion : bool) : visual :=
  let v := primaryAgentVisuals s in
  let still := prefersReducedMotion || bool_decide (p = low) || (bool_decide (p = mobile) && negb (bool_decide (s = OFFLINE))) in
  Visual (vi_state v) (vi_label v) (vi_detail v) (vi_accent v) (if still then mo_static else vi_motion v) (vi_channel v)
    (if small p then simple else vi_lod v).

Definition PRIMARY_AGENT_STATES : list operational_state := [READY; THINKING; WORKING; OFFLINE].

Fixpoint state_index (s : operational_state) (i : Z) (l : list operational_state) : Z :=
  match l with
  | [] => -1
  | x :: l => if bool_decide (x = s) then i else state_index s (i + 1) l
  end.

(** [nextPrimaryAgentState]; the index is in range. *)
Definition nextPrimaryAgentState (s : operational_state) : operational_state :=
  default READY (PRIMARY_AGENT_STATES !! Z.to_nat ((Z.max (state_index s 0 PRIMARY_AGENT_STATES) (-1) + 1) mod 4)).

Definition primaryAgentAccentColor (s : operational_state) : string :=
  match s with
  | READY => "#2e7457" | LISTENING => "#4b82b0" | THINKING => "#7777b7" | ACTING => "#3b98b7"
  | WORKING => "#4b829f" | ATTENTION => "#b07a3d" | CRITICAL => "#b44a59" | OFFLINE => "#56677d"
  end.

(** ** Material *)

Inductive pulse : Type := pu_steady | pu_slow | pu_fast | pu_attention | pu_static.
Inductive depth : Type := foreground | mid | background.

(** The fields a material has before its state and level of detail are added;
    a field that an override sets to [undefined] is [None]. *)
Record material : Type := Material {
  bodyColor : option string;
  ma_accentColor : option string;
  glowColor : option string;
  glowIntensity : option jsnum;
  ma_opacity : option jsnum;
  ma_pulse : option pulse;
  ma_depth : option depth;
}.

(** [Partial<...>]: a field that is absent is [None]. *)
Record override : Type := Override {
  ov_bodyColor : option (option string);
  ov_accentColor : option (option string);
  ov_glowColor : option (option string);
  ov_glowIntensity : option (option jsnum);
  ov_opacity : option (option jsnum);
  ov_pulse : option (option pulse);
  ov_depth : option (option depth);
}.

Definition base (body acc glow : string) (intensity opacity : Q) (p : pulse) (d : depth) : material :=
  Material (Some body) (Some acc) (Some glow) (Some (Finite intensity)) (Some (Finite opacity)) (Some p) (Some d).

Definition baseMaterial (s : operational_state) : material :=
  match s with
  | READY => base "#f7fbff" "#2e7457" "#b8f2d0" (48 # 100) (98 # 100) pu_steady foreground
  | LISTENING => base "#f7fbff" "#4b82b0" "#b8ddf2" (54 # 100) (98 # 100) pu_steady foreground
  | THINKING => base "#f7fbff" "#7777b7" "#d5d5ff" (68 # 100) (98 # 100) pu_slow mid
  | ACTING => base "#f7fbff" "#3b98b7" "#b9f3ff" (82 # 100) (98 # 100) pu_fast mid
  | WORKING => base "#f7fbff" "#4b829f" "#c1edff" (78 # 100) (98 # 100) pu_fast mid
  | ATTENTION => base "#fffaf1" "#b07a3d" "#ffd38f" (88 # 100) (99 # 100) pu_attention foreground
  | CRITICAL => base "#fff5f5" "#b44a59" "#ffadb8" 1 1 pu_attention foreground
  | OFFLINE => base "#b7c1cf" "#56677d" "#8794a6" (16 # 100) (76 # 100) pu_static background
  end.

(** [{ ...base, ...override }]. *)
Definition merge (b : material) (o : option override) : material :=
  match o with
  | None => b
  | Some o => Material (default (bodyColor b) (ov_bodyColor o)) (default (ma_accentColor b) (ov_accentColor o))
                (default (glowColor b) (ov_glowColor o)) (default (glowIntensity b) (ov_glowIntensity o))
                (default (ma_opacity b) (ov_opacity o)) (default (ma_pulse b) (ov_pulse o)) (default (ma_depth b) (ov_depth o))
  end.

(** [PrimaryAgentMaterialProfile]. *)
Record material_profile : Type := MaterialProfile {
  mp_state : operational_state;
  mp_material : material;
  mp_lod : visual_lod;
}.

Definition primaryAgentMaterialProfile (s : operational_state) (p : quality_profile) (prefersReducedMotion : bool)
    (overrides : operational_state -> option override) : material_profile :=
  let v := primaryAgentVisual s p prefersReducedMotion in
  let m := merge (baseMaterial s) (overrides s) in
  MaterialProfile s
    (Material (bodyColor m) (Some (default (primaryAgentAccentColor s) (ma_accentColor m))) (glowColor m) (glowIntensity m)
       (ma_opacity m) (if prefersReducedMotion || small p then Some pu_static else ma_pulse m) (ma_depth m))
    (vi_lod v).

(** ** Attention *)

Inductive overlay_pulse : Type := op_none | op_periodic | op_urgent.

(** [PrimaryAgentAttentionOverlay]. *)
Record overlay : Type := Overlay {
  ao_severity : attention_severity;
  ao_visible : bool;
  ao_label : string;
  ao_color : string;
  ao_pulse : overlay_pulse;
}.

Definition attentionOverlay (s : attention_severity) : overlay :=
  match s with
  | SEV_CRITICAL => Overlay s true "Critical attention" "#b44a59" op_urgent
  | SEV_WARNING => Overlay s true "Attention required" "#b07a3d" op_periodic
  | SEV_INFO => Overlay s true "Informational attention" "#4b82b0" op_periodic
  | SEV_NONE => Overlay s false "No pending attention" "#8794a6" op_none
  end.

(** ** The presence *)

(** [PrimaryAgentPresenceViewModel]. *)
Record presence : Type := Presence {
  pr_slot : string;
  pr_node : string;
  pr_binding : option string;
  pr_lifecycle : lifecycle;
  pr_state : operational_state;
  pr_label : string;
  pr_detail : string;
  accessibleLabel : string;
  lastSeenAt : option iso;
  pr_lastSeenLabel : string;
  pr_material : material_profile;
  pr_attention : overlay;
  sourceRevision : Z;
  canInteract : bool;
}.

Section presence.
(** [new Date(value).toLocaleString()] of the host. *)
Context (toLocaleString : iso -> string).

Definition lastSeenLabel (value : option iso) : string :=
  match value with Some t => "Last seen " +:+ toLocaleString t | None => "Last seen unavailable" end.

Definition composePrimaryAgentPresence (sl : slot) (s : operational_state) (operational : option agent_state)
    (p : quality_profile) (prefersReducedMotion : bool) (overrides : operational_state -> option override) : presence :=
  let severity := default (match s with CRITICAL => SEV_CRITICAL | ATTENTION => SEV_WARNING | _ => SEV_NONE end)
                          (st_severity <$> operational) in
  let v := primaryAgentVisual s p prefersReducedMotion in
  let seen := match last_seen_at sl with Some t => Some t | None => operational ≫= st_last_successful end in
  Presence (slot_id sl) (slot_node_id sl) (current_binding_id sl) (lifecycle_state sl) s (vi_label v) (vi_detail v)
    ("Primary Agent, " +:+ vi_label v +:+ ". " +:+ vi_detail v) seen (lastSeenLabel seen)
    (primaryAgentMaterialProfile s p prefersReducedMotion overrides) (attentionOverlay severity)
    (Z.max (slot_revision sl) (default 0 (st_revision <$> operational)))
    (negb (bool_decide (lifecycle_state sl = REVOKED))).
End presence.

(** ** Properties *)

Section laws.
Context {zod : Zod} {laws : ZodLaws zod} (toLocaleString : iso -> string).

(** The record that is created for a state and a severity. *)
Lemma record_of_inputs sc s i rev now r : createPrimaryAgentStateRecord sc s i rev now = Ok r ->
  aggregatePrimaryAgentState i now = Ok (st_state r) /\ severity (si_severity i) = Ok (st_severity r) /\
  st_node_id r = trim (slot_node_id s).
Proof using laws.
  intros H. unfold createPrimaryAgentStateRecord in H. inv_ok.
  repeat match goal with H : str_eqb _ _ = true |- _ => apply str_eqb_eq in H end.
  match goal with H : spatialPrimaryAgentStateSchema _ = Some r |- _ => unfold spatialPrimaryAgentStateSchema in H; cbn in H; inv_some end.
  cbn [st_state st_severity st_node_id]. split_and!; try done.
  match goal with H : idSchema (scope_node_id _) = Some _ |- _ => apply idSchema_spec in H as [-> _] end. by f_equal.
Qed.

Lemma aggregate_critical i now st att : severity (si_severity i) = Ok att -> aggregatePrimaryAgentState i now = Ok st ->
  (st = CRITICAL <-> att = SEV_CRITICAL) /\ (st = ATTENTION -> att = SEV_INFO \/ att = SEV_WARNING) /\
  (si_lifecycle i = REVOKED -> st = CRITICAL \/ st = OFFLINE).
Proof.
  intros Ha H. unfold aggregatePrimaryAgentState in H. rewrite Ha in H. injection H as <-. split_and!.
  - case_bool_decide; [by subst|]. split; [|done]. intros Hc. repeat (case_match; try done).
  - case_bool_decide; [done|]. case_match; [done|]. case_bool_decide; [|intros Hc; repeat (case_match; try done)].
    destruct att; cbn in *; auto; [lia | done].
  - intros Hl. case_bool_decide; [by left|]. right. unfold is_offline.
    assert (Hr : bool_decide (si_lifecycle i = REVOKED) = true) by by apply bool_decide_eq_true.
    by rewrite Hr, !orb_true_r.
Qed.

(** The presence the operator sees agrees with the Node's own record of the
    Primary Agent. Composed from a slot and the record the aggregator creates for
    it, it is of the same Node, no older than either of them, urges the operator
    exactly when the state is critical, shows attention exactly when the record
    carries some, and an agent whose slot is revoked can neither be interacted
    with nor appear to be at work. *)
Theorem presence_agrees_with_the_record sc s i rev now r p reduced ov :
  createPrimaryAgentStateRecord sc s i rev now = Ok r ->
  si_lifecycle i = lifecycle_state s ->
  let pr := composePrimaryAgentPresence toLocaleString s (st_state r) (Some r) p reduced ov in
  st_node_id r = trim (pr_node pr) /\
  slot_revision s <= sourceRevision pr /\ st_revision r <= sourceRevision pr /\
  (ao_pulse (pr_attention pr) = op_urgent <-> pr_state pr = CRITICAL) /\
  (ao_visible (pr_attention pr) = true <-> st_severity r <> SEV_NONE) /\
  (pr_state pr = ATTENTION -> ao_visible (pr_attention pr) = true) /\
  (lifecycle_state s = REVOKED -> canInteract pr = false /\ (pr_state pr = CRITICAL \/ pr_state pr = OFFLINE)).
Proof using laws.
  intros Hr Hl pr. apply record_of_inputs in Hr as (Ha & Hs & Hn).
  destruct (aggregate_critical _ _ _ _ Hs Ha) as (Hc & Hat & Hrev). subst pr. cbn [composePrimaryAgentPresence pr_node
    pr_state pr_attention sourceRevision canInteract fmap option_fmap option_map default from_option].
  split_and!; [done|lia|cbn; lia| | | |].
  - cbn. rewrite Hc. by destruct (st_severity r).
  - cbn. by destruct (st_severity r).
  - cbn. intros Hx. destruct (Hat Hx) as [-> | ->]; done.
  - intros Hx. split; [by rewrite bool_decide_eq_true_2|]. apply Hrev. congruence.
Qed.
End laws.

(** On a small device or for an operator who asked for less motion, neither the
    figure nor its material moves, whatever the overrides; and no override takes
    the accent away. *)
Theorem presence_keeps_still s p reduced ov :
  reduced || small p = true ->
  vi_motion (primaryAgentVisual s p reduced) = mo_static /\
  ma_pulse (mp_material (primaryAgentMaterialProfile s p reduced ov)) = Some pu_static /\
  is_Some (ma_accentColor (mp_material (primaryAgentMaterialProfile s p reduced ov))) /\
  (small p = true -> vi_lod (primaryAgentVisual s p reduced) = simple).
Proof.
  intros H. split_and!; [|cbn; by rewrite H|cbn; by eexists|intros Hp; cbn; by rewrite Hp].
  destruct reduced; [done|]. destruct p; cbn in H; try done. by destruct s.
Qed.

(** The compact sequence comes round after its four states, and every other state
    enters it at its start. *)
Theorem compact_sequence_comes_round s :
  (s ∈ PRIMARY_AGENT_STATES -> Nat.iter 4 nextPrimaryAgentState s = s) /\
  (s ∉ PRIMARY_AGENT_STATES -> nextPrimaryAgentState s = READY) /\
  nextPrimaryAgentState s ∈ PRIMARY_AGENT_STATES.
Proof.
  split_and!.
  - destruct s; intros H; try done; exfalso; revert H; cbv; set_solver.
  - destruct s; intros H; try done; exfalso; apply H; cbv; set_solver.
  - destruct s; cbv; set_solver.
Qed.

Module PresenceWitness.
#[local] Existing Instance zod_ref.

Definition sl (l : lifecycle) : slot :=
  Slot "slot-1" "node-1" (Some "b-1"%string) l 3 None None None None None None None None.
Definition inputs (l : lifecycle) (sev : string) : state_inputs :=
  StateInputs l (Some "b-1"%string) (Some conn_connected) None None None None false true false (Some sev) None (Some 500) None.
Definition no_override : operational_state -> option override := fun _ => None.
Definition clock (t : iso) : string := "noon".
Definition rec (l : lifecycle) (sev : string) : result error agent_state :=
  createPrimaryAgentStateRecord (Scope "hv" "node-1") (sl l) (inputs l sev) (Some 7) (Some 1000).

Lemma presence_agrees_with_the_record_witness : exists r,
  rec REVOKED "CRITICAL" = Ok r /\
  let pr := composePrimaryAgentPresence clock (sl REVOKED) (st_state r) (Some r) high false no_override in
  canInteract pr = false /\ ao_pulse (pr_attention pr) = op_urgent /\ 7 <= sourceRevision pr.
Proof.
  eexists. split; [reflexivity|].
  pose proof (presence_agrees_with_the_record clock (Scope "hv" "node-1") (sl REVOKED) (inputs REVOKED "CRITICAL") (Some 7) (Some 1000)
                _ high false no_override eq_refl eq_refl) as (_ & _ & Hrev & Hu & _ & _ & Hr).
  split_and!; [by apply Hr | by apply Hu | exact Hrev].
Defined.

Lemma keeps_still_witness : vi_motion (primaryAgentVisual CRITICAL mobile false) = mo_static.
Proof. apply (presence_keeps_still CRITICAL mobile false no_override). reflexivity. Defined.

(** The agent at work, as it is shown. *)
Example at_work :
  match rec CONNECTED "NONE" with
  | Ok r =>
      let pr := composePrimaryAgentPresence clock (sl CONNECTED) (st_state r) (Some r) desktop false no_override in
      pr_state pr = ACTING /\ accessibleLabel pr =
        "Primary Agent, Acting. A mediated tool action is in flight; completion is confirmed by Node state."%string /\
      pr_lastSeenLabel pr = "Last seen noon"%string /\ ma_pulse (mp_material (pr_material pr)) = Some pu_fast
  | Err _ => False
  end.
Proof. vm_compute. done. Qed.
End PresenceWitness.

(** ** Edge behaviour *)

(** An operator who asked for less motion still gets the urgent pulse of the
    attention overlay. *)
Theorem reduced_motion_leaves_the_overlay f sl ov :
  ao_pulse (pr_attention (composePrimaryAgentPresence f sl CRITICAL None desktop true ov)) = op_urgent.
Proof. done. Qed.

(** A record without attention hides it although the state shown is critical: the
    state is an argument of its own. *)
Theorem record_overrules_the_state f sl r p reduced ov : st_severity r = SEV_NONE ->
  ao_visible (pr_attention (composePrimaryAgentPresence f sl CRITICAL (Some r) p reduced ov)) = false.
Proof. intros H. cbn. by rewrite H. Qed.

(** A slot nobody is bound to can be interacted with. *)
Theorem unassigned_slot_is_interactive f sl s r p reduced ov : lifecycle_state sl = UNASSIGNED ->
  canInteract (composePrimaryAgentPresence f sl s r p reduced ov) = true.
Proof. intros H. cbn. by rewrite H. Qed.
