(* ===== verification/ViewModels.v ===== *)
(** * View models

    src/web/operator-dashboard/src/spatial/data/view-models.ts: the projection of
    a semantic snapshot ([WorkspaceRepo]) and a Node status ([Status]) to what the
    scene draws, with the presence of [Presence] for the Primary Agent. *)

From Stdlib Require Import QArith.
From S2P Require Import Prelude.
From S2P Require Import Json.
From S2P Require Import Contracts.
From S2P Require Import Numbers.
From S2P Require Import Text.
From S2P Require Import Slot.
From S2P Require Import Binding.
From S2P Require Import Status.
From S2P Require Import RemoteContracts.
From S2P Require Import WorkspaceRepo.
From S2P Require Import Presence.

#[local] Open Scope Z_scope.

(** ** Data *)

Inductive canonical_kind : Type := k_agent | k_endpoint | k_service | k_session | k_artifact | k_attention.
#[export] Instance canonical_kind_eq_dec : EqDecision canonical_kind.
Proof. solve_decision. Defined.

(** [SpatialEntityKind] of the prototype. *)
Inductive projected : Type := p_subagent | p_endpoint | p_service | p_session | p_artifact | p_attention.

Inductive visual_state : Type := vis_healthy | vis_attention | vis_critical | vis_offline | vis_unknown.
#[export] Instance visual_state_eq_dec : EqDecision visual_state.
Proof. solve_decision. Defined.

Inductive familiarity : Type := unseen | known | trusted_by_history.
Inductive activity : Type := idle | working | streaming.
Inductive lod_hint : Type := full | reduced | placeholder.

(** [SpatialEntityViewModel]. *)
Record view : Type := View {
  v_id : string;
  v_kind : projected;
  v_label : string;
  description : string;
  v_position : position;
  priority : jsnum;
  canonicalRef : string;
  canonicalKind : canonical_kind;
  v_revision : Z;
  provenanceRef : string;
  visualState : visual_state;
  v_familiarity : familiarity;
  v_activity : activity;
  v_availability : availability;
  v_freshness : freshness_state;
  v_freshnessLabel : string;
  emphasis : jsnum;
  lodHint : lod_hint;
}.

Inductive node_availability : Type := na_available | na_degraded | na_offline | na_unknown.
#[export] Instance node_availability_eq_dec : EqDecision node_availability.
Proof. solve_decision. Defined.

(** [SpatialNodeStatusViewModel]. *)
Record node_view : Type := NodeView {
  nv_node : string;
  nv_state : node_state;
  nv_availability : node_availability;
  nv_freshness : freshness_state;
  nv_label : string;
  nv_revision : Z;
  componentCount : nat;
}.

(** [SpatialPrimaryAgentViewModel]. *)
Record primary_view : Type := PrimaryView {
  pv_id : string;
  pv_ref : string;
  pv_state : operational_state;
  pv_label : string;
  pv_detail : string;
  pv_availability : availability;
  pv_freshness : freshness_state;
  pv_revision : Z;
  pv_lod : lod_hint;
}.

(** [SpatialRelation] of the prototype. *)
Record relation_view : Type := RelationView { rv_id : string; sourceId : string; targetId : string; rv_label : string }.

Inductive data_state : Type := ds_ready | ds_partial | ds_stale | ds_offline | ds_empty.
#[export] Instance data_state_eq_dec : EqDecision data_state.
Proof. solve_decision. Defined.

(** [SpatialWorkspaceViewModel]. *)
Record workspace_view : Type := WorkspaceView {
  wv_entities : list view;
  wv_relations : list relation_view;
  primaryAgent : option primary_view;
  nodeStatus : option status;
  nodeStatusViewModel : option node_view;
  wv_revision : Z;
  freshnessState : freshness_state;
  dataState : data_state;
}.

(** ** Entities *)

Definition kind_of (e : entity) : canonical_kind :=
  match en_data e with
  | D_agent _ _ _ => k_agent | D_endpoint _ _ _ _ => k_endpoint | D_service _ _ => k_service | D_session _ _ _ => k_session
  | D_artifact _ _ _ => k_artifact | D_attention _ _ _ => k_attention
  end.

Definition kind_text (k : canonical_kind) : string :=
  match k with
  | k_agent => "agent" | k_endpoint => "endpoint" | k_service => "service" | k_session => "session" | k_artifact => "artifact"
  | k_attention => "attention"
  end.

(** [positionHash]: [Math.abs] of an unsigned number is the number. *)
Definition positionHash (value : string) : Z := Z.abs (to_uint32 (fnv1a_loop 2166136261 value)).

Definition anchorFor (e : entity) (anchors : list anchor) : option anchor :=
  List.find (fun a => str_eqb (an_ref a) (en_ref e)) anchors.

Definition projectedKind (k : canonical_kind) : projected :=
  match k with
  | k_agent => p_subagent | k_endpoint => p_endpoint | k_service => p_service | k_session => p_session | k_artifact => p_artifact
  | k_attention => p_attention
  end.

Definition visualStateOf (e : entity) : visual_state :=
  let st := en_state e in
  let fr := fr_state (en_freshness e) in
  if bool_decide (en_availability e = AV_UNAVAILABLE) || includes "OFFLINE" st || includes "DISCONNECT" st then vis_offline
  else if bool_decide (en_availability e = AV_UNKNOWN) || bool_decide (fr = F_UNKNOWN) then vis_unknown
  else if includes "CRITICAL" st || match en_data e with D_attention SV_CRITICAL _ _ => true | _ => false end then vis_critical
  else if bool_decide (en_availability e = AV_DEGRADED) || bool_decide (fr = F_STALE) || bool_decide (fr = F_PARTIAL)
       then vis_attention
  else vis_healthy.

Definition activityFor (e : entity) : activity :=
  let st := en_state e in
  if includes "STREAM" st then streaming
  else if includes "WORK" st || includes "RUN" st || includes "ACTIVE" st then working
  else idle.

Definition freshnessLabel (f : freshness_state) : string :=
  match f with
  | F_FRESH => "Fresh evidence" | F_STALE => "Stale evidence" | F_PARTIAL => "Partial evidence"
  | F_UNKNOWN => "Freshness unknown" | F_UNAVAILABLE => "Evidence unavailable"
  end.

Definition toSpatialNodeStatusViewModel (s : status) : node_view :=
  let fr := fr_state (st_freshness s) in
  let av :=
    if bool_decide (fr = F_UNAVAILABLE) || bool_decide (st_state s ∈ [OFFLINE; DISCONNECTED]) then na_offline
    else if bool_decide (st_state s ∈ [DEGRADED; STALE]) || bool_decide (fr ∈ [F_STALE; F_PARTIAL]) then na_degraded
    else if bool_decide (st_state s = UNKNOWN) || bool_decide (fr = F_UNKNOWN) then na_unknown
    else na_available in
  NodeView (st_node s) (st_state s) av fr (freshnessLabel fr) (st_revision s) (length (components s)).

Definition emphasisFor (e : entity) : jsnum :=
  let b := match kind_of e with k_attention => 86 # 100 | k_agent => 72 # 100 | k_endpoint => 58 # 100 | _ => 46 # 100 end in
  let boost := if includes "ACTIVE" (en_state e) || includes "WORK" (en_state e) then 12 # 100 else 0 # 1 in
  toFixed 3 (num_min (num 1) (Finite (b + boost))).

(** [s.replaceAll('_', ' ')]. *)
Definition spaced (s : string) : string := string_map (fun c => if Ascii.eqb c "_" then " "%char else c) s.

Definition availability_text (a : availability) : string :=
  match a with
  | AV_AVAILABLE => "AVAILABLE" | AV_DEGRADED => "DEGRADED" | AV_UNAVAILABLE => "UNAVAILABLE" | AV_UNKNOWN => "UNKNOWN"
  end.

(** [s[0].toUpperCase() + s.slice(1)]. *)
Definition capitalized (s : string) : string :=
  match s with String c s => to_upper (String c "") +:+ s | EmptyString => EmptyString end.

Definition describeEntity (e : entity) : string :=
  let kind := match kind_of e with k_agent => "Agent"%string | k => capitalized (kind_text k) end in
  let dot := " " +:+ chr 183 +:+ " " in
  kind +:+ dot +:+ spaced (en_state e) +:+ dot +:+ spaced (availability_text (en_availability e)).

Section view_models.
Context {math : HostMath}.

Definition fallbackPosition (ref : string) (k : canonical_kind) : position :=
  let h := positionHash ref in
  let angle := (inject_Z (h mod 360) * (MATH_PI / 180))%Q in
  let radius := match k with k_attention => 38 # 10 | k_endpoint => 32 # 10 | _ => 235 # 100 end in
  Position (toFixed 3 (Finite (host_cos angle * radius))) (toFixed 3 (Finite (host_sin angle * radius * (58 # 100))))
    (toFixed 3 (Finite (- (25 # 10) - inject_Z (h mod 240) / 100))).

Definition toSpatialEntityViewModel (e : entity) (anchors : list anchor) : view :=
  let fr := fr_state (en_freshness e) in
  let hint :=
    if bool_decide (en_availability e = AV_UNAVAILABLE) || bool_decide (en_availability e = AV_UNKNOWN)
       || bool_decide (fr = F_UNKNOWN) || bool_decide (fr = F_UNAVAILABLE) then placeholder
    else if bool_decide (fr = F_STALE) || bool_decide (fr = F_PARTIAL) then reduced else full in
  View (en_id e) (projectedKind (kind_of e)) (en_label e) (describeEntity e)
    (match anchorFor e anchors with Some a => an_position a | None => fallbackPosition (en_ref e) (kind_of e) end)
    (emphasisFor e) (en_ref e) (kind_of e) (en_revision e) (default (en_ref e) (ep_ref <$> en_provenance e)) (visualStateOf e)
    unseen (activityFor e) (en_availability e) fr (freshnessLabel fr) (emphasisFor e) hint.

(** ** The Primary Agent *)

(** The states an agent may report by name. *)
Definition operational_named (s : string) : option operational_state :=
  jget s [("READY", Contracts.READY); ("LISTENING", LISTENING); ("THINKING", THINKING); ("ACTING", ACTING); ("WORKING", WORKING);
          ("ATTENTION", ATTENTION); ("CRITICAL", CRITICAL); ("OFFLINE", Contracts.OFFLINE)]%string.

Definition primaryState (e : entity) : operational_state :=
  let fr := fr_state (en_freshness e) in
  if bool_decide (en_availability e = AV_UNAVAILABLE) || bool_decide (en_availability e = AV_UNKNOWN)
     || bool_decide (fr = F_UNKNOWN) || bool_decide (fr = F_UNAVAILABLE) then Contracts.OFFLINE
  else default Contracts.READY (operational_named (en_state e)).

Definition toPrimaryAgentViewModel (e : entity) (p : quality_profile) : primary_view :=
  let st := primaryState e in
  let v := primaryAgentVisual st p false in
  PrimaryView (en_id e) (en_ref e) st (vi_label v) (vi_detail v) (en_availability e) (fr_state (en_freshness e)) (en_revision e)
    (match vi_lod v with physical => full | simple => reduced end).

(** ** The workspace *)

Definition relationViewModel (r : relation) (vs : list view) : option relation_view :=
  s ← List.find (fun v => str_eqb (canonicalRef v) (re_source r)) vs;
  t ← List.find (fun v => str_eqb (canonicalRef v) (re_target r)) vs;
  Some (RelationView (re_id r) (v_id s) (v_id t) (spaced (re_type r))).

(** The first entity of every canonical reference. *)
Definition unique_entities (es : list entity) : jsmap entity :=
  foldl (fun m e => if jhas (en_ref e) m then m else jset (en_ref e) e m) [] es.

Definition is_agent (e : entity) : bool := bool_decide (kind_of e = k_agent).
Definition has_role_primary (e : entity) : bool := match en_data e with D_agent RL_PRIMARY _ _ => true | _ => false end.

Definition primary_of (s : snapshot) : option entity :=
  let es := jvalues (unique_entities (entities s)) in
  match sn_primary s with
  | Some ref => if truthy (Some ref) then List.find (fun e => is_agent e && str_eqb (en_ref e) ref) es
                else List.find has_role_primary es
  | None => List.find has_role_primary es
  end.

Definition composeSpatialWorkspaceViewModel (s : snapshot) (ns : option status) (p : quality_profile) : workspace_view :=
  let primary := primary_of s in
  let shown := List.filter (fun e => match primary with Some q => negb (str_eqb (en_ref e) (en_ref q)) | None => true end)
                 (jvalues (unique_entities (entities s))) in
  let vs := map (fun e => toSpatialEntityViewModel e (semantic_anchors s)) shown in
  let fr := match ns with
            | Some n => fr_state (st_freshness n)
            | None => match entities s with e :: _ => fr_state (en_freshness e) | [] => F_UNKNOWN end
            end in
  WorkspaceView vs (omap (fun r => relationViewModel r vs) (relations s)) ((fun e => toPrimaryAgentViewModel e p) <$> primary) ns
    (toSpatialNodeStatusViewModel <$> ns) (semantic_revision s) fr
    (match entities s with
     | [] => ds_empty
     | _ => match fr with F_UNAVAILABLE => ds_offline | F_STALE => ds_stale | F_PARTIAL => ds_partial | _ => ds_ready end
     end).
End view_models.

(** ** Finding the first *)

Lemma find_filter_none {A} (f : A -> bool) (l : list A) : List.find f l = None <-> Forall (fun x => f x = false) l.
Proof.
  induction l as [|x l IH]; cbn [List.find]; [by split|]. destruct (f x) eqn:E.
  - split; [done|]. intros [Hx _]%Forall_cons. congruence.
  - rewrite IH, Forall_cons. split; [done | by intros [_ ?]].
Qed.

(** One of the elements that the predicate holds of, when only one can. *)
Lemma find_unique {A} (f : A -> string) (l : list A) x : NoDup (map f l) -> x ∈ l -> List.find (fun y => str_eqb (f y) (f x)) l = Some x.
Proof.
  induction l as [|y l IH]; [by intros ? ?%not_elem_of_nil|]. cbn [map List.find]. intros [Hn Hd]%NoDup_cons Hx.
  apply elem_of_cons in Hx as [->|Hx]; [by rewrite str_eqb_refl|].
  destruct (str_eqb (f y) (f x)) eqn:E; [|by apply IH]. apply str_eqb_eq in E. destruct Hn. rewrite E. by apply list_elem_of_fmap_2.
Qed.

Lemma find_hit {A} (f : A -> bool) (l : list A) x : List.find f l = Some x -> x ∈ l /\ f x = true.
Proof. intros H. apply List.find_some in H as [H1 H2]. split; [by apply list_elem_of_In | done]. Qed.

(** ** The entities that are kept *)

(** Every reference of the list is kept once, by the first entity that has it. *)
Record kept (es : list entity) (m : jsmap entity) : Prop := {
  kept_nodup : NoDup (jkeys m);
  kept_key : jall (fun k e => en_ref e = k) m;
  kept_first : forall ref, jget ref m = List.find (fun e => str_eqb (en_ref e) ref) es;
}.

Lemma unique_entities_kept es : kept es (unique_entities es).
Proof.
  unfold unique_entities. cut (forall done m, kept done m -> kept (done ++ es) (foldl (fun m e => if jhas (en_ref e) m then m else jset (en_ref e) e m) m es)).
  { intros H. apply (H [] []). split; [constructor | done | done]. }
  induction es as [|e es IH]; intros dn m Hm; cbn [foldl]; [by rewrite app_nil_r|].
  rewrite (cons_middle e dn es), app_assoc. apply IH. destruct Hm as [Hn Hk Hf].
  assert (Hadd : forall ref, List.find (fun e => str_eqb (en_ref e) ref) (dn ++ [e]) =
                        match jget ref m with Some x => Some x | None => if str_eqb (en_ref e) ref then Some e else None end).
  { intros ref. rewrite Hf. clear. induction dn as [|x l IH]; cbn [app List.find]; [done|]. by destruct (str_eqb (en_ref x) ref). }
  destruct (jhas (en_ref e) m) eqn:Hh; unfold jhas in Hh; [apply bool_decide_eq_true in Hh as [x Hx] | apply bool_decide_eq_false, eq_None_not_Some in Hh].
  - split; [done..|]. intros ref. rewrite Hadd. destruct (jget ref m) eqn:E; [done|]. destruct (str_eqb (en_ref e) ref) eqn:E'; [|done].
    apply str_eqb_eq in E'. congruence.
  - split; [by apply NoDup_jset | by apply jall_jset|]. intros ref. rewrite Hadd, jget_jset. destruct (str_eqb (en_ref e) ref) eqn:E; [|by destruct (jget ref m)].
    apply str_eqb_eq in E as <-. by rewrite Hh.
Qed.

(** The kept entities, by their references. *)
Lemma kept_refs es : map en_ref (jvalues (unique_entities es)) = jkeys (unique_entities es).
Proof. destruct (unique_entities_kept es) as [Hn Hk _]. by apply (jvalues_keys en_ref). Qed.

Lemma kept_entity es e : e ∈ jvalues (unique_entities es) <-> List.find (fun x => str_eqb (en_ref x) (en_ref e)) es = Some e.
Proof.
  destruct (unique_entities_kept es) as [Hn Hk Hf]. rewrite <-Hf, elem_jvalues. split.
  - intros [k Hin]. pose proof (elem_jget _ _ _ Hn Hin) as Hg. by rewrite (Hk _ _ Hg).
  - intros H. exists (en_ref e). by apply jget_elem.
Qed.

Lemma role_is_agent e : has_role_primary e = true -> is_agent e = true.
Proof. unfold has_role_primary, is_agent, kind_of. by destruct (en_data e) as [[]| | | | |]. Qed.

Lemma primary_of_kept s q : primary_of s = Some q -> q ∈ jvalues (unique_entities (entities s)) /\ is_agent q = true /\
  (forall ref, truthy (Some ref) = true -> sn_primary s = Some ref -> en_ref q = ref).
Proof.
  unfold primary_of.
  destruct (sn_primary s) as [ref|]; [destruct (truthy (Some ref)) eqn:Ht|]; intros [Hq Hf]%find_hit.
  - apply andb_true_iff in Hf as [Ha Hr]. apply str_eqb_eq in Hr. split_and!; [done..|]. intros ? _ [= <-]. done.
  - split_and!; [done | by apply role_is_agent|]. intros r Hr [= <-]. congruence.
  - split_and!; [done | by apply role_is_agent | done].
Qed.

(** The agent a snapshot names for its Primary Agent, or one with that role when
    it names none. *)
Definition elected (s : snapshot) (q : entity) : Prop :=
  if truthy (sn_primary s) then sn_primary s = Some (en_ref q) else has_role_primary q = true.

Lemma primary_elected s q : primary_of s = Some q -> elected s q.
Proof.
  unfold primary_of, elected. destruct (sn_primary s) as [ref|]; [destruct (truthy (Some ref))|]; intros [_ Hf]%find_hit.
  - apply andb_true_iff in Hf as [_ Hr]. apply str_eqb_eq in Hr. by rewrite Hr.
  - done.
  - done.
Qed.

Lemma nobody_elected s q : primary_of s = None -> q ∈ jvalues (unique_entities (entities s)) -> is_agent q = true -> ~ elected s q.
Proof.
  unfold primary_of, elected. intros H Hq Ha He.
  destruct (sn_primary s) as [ref|]; [destruct (truthy (Some ref))|]; apply find_filter_none in H; rewrite Forall_forall in H;
    specialize (H q Hq).
  - injection He as ->. by rewrite Ha, str_eqb_refl in H.
  - congruence.
  - cbn [truthy] in He. congruence.
Qed.

(** ** What the projection shows *)

Section projection.
Context {math : HostMath}.
Implicit Types (s : snapshot) (ns : option status) (p : quality_profile).

Lemma view_of_entity e anchors : canonicalRef (toSpatialEntityViewModel e anchors) = en_ref e.
Proof. done. Qed.

(** The shown entities are the kept ones without the Primary Agent's. *)
Lemma shown_entity s ns p v : v ∈ wv_entities (composeSpatialWorkspaceViewModel s ns p) <->
  exists e, List.find (fun x => str_eqb (en_ref x) (en_ref e)) (entities s) = Some e /\
    (forall q, primary_of s = Some q -> en_ref e <> en_ref q) /\ v = toSpatialEntityViewModel e (semantic_anchors s).
Proof.
  cbn [composeSpatialWorkspaceViewModel wv_entities]. rewrite list_elem_of_fmap. setoid_rewrite list_elem_of_In.
  setoid_rewrite List.filter_In. setoid_rewrite <-list_elem_of_In. setoid_rewrite kept_entity. split.
  - intros (e & -> & He & Hq). exists e. split_and!; try done. intros q E. rewrite E in Hq. intros Hr. by rewrite Hr, str_eqb_refl in Hq.
  - intros (e & He & Hq & ->). exists e. split_and!; try done. destruct (primary_of s) as [q|]; [|done].
    apply negb_true_iff, not_true_iff_false. intros Hr%str_eqb_eq. by apply (Hq q).
Qed.

Lemma shown_refs_nodup s ns p : NoDup (map canonicalRef (wv_entities (composeSpatialWorkspaceViewModel s ns p))).
Proof.
  cbn [composeSpatialWorkspaceViewModel wv_entities]. rewrite map_map. cbn [toSpatialEntityViewModel canonicalRef].
  assert (Hn : NoDup (map en_ref (jvalues (unique_entities (entities s))))).
  { rewrite kept_refs. by destruct (unique_entities_kept (entities s)). }
  generalize (fun e => match primary_of s with Some q => negb (str_eqb (en_ref e) (en_ref q)) | None => true end). intros f.
  revert Hn. generalize (jvalues (unique_entities (entities s))). intros l. induction l as [|x l IH]; [done|].
  cbn [map List.filter]. intros [Hx Hn]%NoDup_cons. destruct (f x); [|by apply IH]. cbn [map]. constructor; [|by apply IH].
  intros (y & Hy & Hin)%list_elem_of_fmap. apply Hx. rewrite Hy. apply list_elem_of_fmap_2. apply list_elem_of_In, List.filter_In in Hin as [Hin _].
  by apply list_elem_of_In.
Qed.

(** A relation is drawn exactly between two shown entities. *)
Lemma drawn_relation s ns p rv : rv ∈ wv_relations (composeSpatialWorkspaceViewModel s ns p) <->
  exists r a b, r ∈ relations s /\ a ∈ wv_entities (composeSpatialWorkspaceViewModel s ns p) /\
    b ∈ wv_entities (composeSpatialWorkspaceViewModel s ns p) /\ canonicalRef a = re_source r /\ canonicalRef b = re_target r /\
    rv = RelationView (re_id r) (v_id a) (v_id b) (spaced (re_type r)).
Proof.
  pose proof (shown_refs_nodup s ns p) as Hn.
  change (wv_relations (composeSpatialWorkspaceViewModel s ns p)) with
    (omap (fun r => relationViewModel r (wv_entities (composeSpatialWorkspaceViewModel s ns p))) (relations s)).
  revert Hn. generalize (wv_entities (composeSpatialWorkspaceViewModel s ns p)). intros vs Hn.
  rewrite list_elem_of_omap. split.
  - intros (r & Hr & Hv). unfold relationViewModel in Hv. apply bind_Some in Hv as (a & Ha & Hv). apply bind_Some in Hv as (b & Hb & [= <-]).
    apply find_hit in Ha as [Ha ?%str_eqb_eq]. apply find_hit in Hb as [Hb ?%str_eqb_eq]. by exists r, a, b.
  - intros (r & a & b & Hr & Ha & Hb & Es & Et & ->). exists r. split; [done|]. unfold relationViewModel. rewrite <-Es, <-Et.
    rewrite (find_unique canonicalRef _ _ Hn Ha). cbn. by rewrite (find_unique canonicalRef _ _ Hn Hb).
Qed.

(** The first entity of its reference. *)
Definition first_of s (e : entity) : Prop := List.find (fun x => str_eqb (en_ref x) (en_ref e)) (entities s) = Some e.

End projection.

Section states.
Context {math : HostMath}.

(** What is drawn in full is available with fresh evidence; what is drawn as
    offline is unavailable or says so itself; an entity drawn as healthy is
    available, neither offline, disconnected nor critical by its own word, and its
    evidence is fresh or unavailable. *)
Theorem visual_state_exact e anchors :
  let v := toSpatialEntityViewModel e anchors in
  let fr := fr_state (en_freshness e) in
  let says w := includes w (en_state e) = true in
  (lodHint v = full <-> (en_availability e = AV_AVAILABLE \/ en_availability e = AV_DEGRADED) /\ fr = F_FRESH) /\
  (visualState v = vis_offline <-> en_availability e = AV_UNAVAILABLE \/ says "OFFLINE"%string \/ says "DISCONNECT"%string) /\
  (visualState v = vis_healthy <->
     en_availability e = AV_AVAILABLE /\ (fr = F_FRESH \/ fr = F_UNAVAILABLE) /\
     ~ says "OFFLINE"%string /\ ~ says "DISCONNECT"%string /\ ~ says "CRITICAL"%string /\
     forall b t, en_data e <> D_attention SV_CRITICAL b t).
Proof.
  intros v fr says. subst says. cbn [v toSpatialEntityViewModel lodHint visualState]. unfold visualStateOf. subst fr.
  destruct (includes "OFFLINE" (en_state e)), (includes "DISCONNECT" (en_state e)), (includes "CRITICAL" (en_state e));
    destruct (en_availability e), (fr_state (en_freshness e)); cbn; destruct (en_data e) as [| | | | |[] ? ?]; cbn; naive_solver.
Qed.

(** The data of a workspace are ready only if there is something to show; a Node
    that is offline or without evidence is never available. *)
Theorem node_view_exact st :
  let v := toSpatialNodeStatusViewModel st in
  let fr := fr_state (st_freshness st) in
  (nv_availability v = na_offline <-> fr = F_UNAVAILABLE \/ st_state st = OFFLINE \/ st_state st = DISCONNECTED) /\
  (nv_availability v = na_available <->
     fr = F_FRESH /\ st_state st ∈ [ONLINE; READY; RUNNING; STARTING; STOPPING; RESTARTING; BLOCKED]).
Proof.
  intros v fr. cbn [v toSpatialNodeStatusViewModel nv_availability]. subst fr.
  rewrite (list_elem_of_In [ONLINE; READY; RUNNING; STARTING; STOPPING; RESTARTING; BLOCKED]).
  destruct (fr_state (st_freshness st)), (st_state st); vm_compute; naive_solver.
Qed.
End states.

Module ViewModelsWitness.
#[local] Instance math : HostMath := {| host_cos q := 1 # 1; host_sin q := 0 # 1; host_sqrt q := q |}.

Definition fresh : freshness := Freshness F_FRESH 5 (num 30) "node".
Definition ent (id ref st : string) (a : availability) (f : freshness) (d : entity_data) : entity :=
  Entity id ref "n" 1 id st a f 1 1 None d.
Definition rel (a b : string) : relation := Relation (a +:+ b) "n" 1 "USES_TOOL" a b RS_ACTIVE fresh 1 1.
Definition agent : entity := ent "a" "agent:a" "WORKING" AV_AVAILABLE fresh (D_agent RL_PRIMARY None []).
Definition endpoint : entity := ent "e" "endpoint:e" "READY" AV_AVAILABLE fresh (D_endpoint "llm" [] None None).
Definition impostor : entity := ent "x" "endpoint:e" "OFFLINE" AV_UNAVAILABLE fresh (D_endpoint "llm" [] None None).
Definition session : entity := ent "s" "session:s" "ACTIVE_STREAM" AV_DEGRADED fresh (D_session ST_SESSION None []).
Definition snap : snapshot :=
  Snapshot "w" "n" 1 4 1 1 [agent; endpoint; impostor; session]
    [rel "agent:a" "endpoint:e"; rel "endpoint:e" "session:s"; rel "session:s" "gone"] [] [] (Some "agent:a"%string).


Example drawn :
  let v := composeSpatialWorkspaceViewModel snap None mobile in
  map (fun e => (v_id e, visualState e, v_activity e)) (wv_entities v) = [("e"%string, vis_healthy, idle); ("s"%string, vis_attention, streaming)] /\
  (pv_state <$> primaryAgent v) = Some WORKING /\ (pv_lod <$> primaryAgent v) = Some reduced /\ dataState v = ds_ready.
Proof. vm_compute. done. Qed.
End ViewModelsWitness.

(** ** Edge behaviour *)

Section edges.
Context {math : HostMath}.

(** An entity whose evidence is unavailable is drawn as healthy, although its
    label says that there is no evidence and it is drawn as a placeholder. *)
Theorem no_evidence_looks_healthy :
  exists e, fr_state (en_freshness e) = F_UNAVAILABLE /\
    let v := toSpatialEntityViewModel e [] in
    visualState v = vis_healthy /\ v_freshnessLabel v = "Evidence unavailable"%string /\ lodHint v = placeholder.
Proof.
  exists (ViewModelsWitness.ent "e" "endpoint:e" "READY" AV_AVAILABLE (Freshness F_UNAVAILABLE 5 (num 30) "node")
            (D_endpoint "llm" [] None None)). done.
Qed.

(** With a freshness that is not known, the workspace data are ready. *)
Theorem unknown_freshness_is_ready s ns p e es : entities s = e :: es -> fr_state (st_freshness ns) = F_UNKNOWN ->
  dataState (composeSpatialWorkspaceViewModel s (Some ns) p) = ds_ready.
Proof. intros He Hf. cbn. by rewrite He, Hf. Qed.

(** When the reference a snapshot names for its Primary Agent is not there, an
    agent with that role is shown as any other entity. *)
Theorem dangling_primary_is_an_entity :
  exists s e, has_role_primary e = true /\ primaryAgent (composeSpatialWorkspaceViewModel s None desktop) = None /\
    map canonicalRef (wv_entities (composeSpatialWorkspaceViewModel s None desktop)) = [en_ref e].
Proof.
  exists (Snapshot "w" "n" 1 4 1 1 [ViewModelsWitness.agent] [] [] [] (Some "agent:b"%string)), ViewModelsWitness.agent. done.
Qed.
End edges.
