(* ===== verification/Transport.v ===== *)
(** * The HTTP transport

    src/web/operator-dashboard/src/spatial/data/transport.ts: the request that is
    sent for a Node scope, with the headers it carries, and what an answer, a
    failure or a timeout comes to. [fetch], the parser of JSON texts and the nonce
    are the host's: an [outcome] is what the host reports of a request that was
    sent. [parseCollection] is the envelope data/clients.ts reads lists in. *)

From S2P Require Import Prelude.
From S2P Require Import Json.
From S2P Require Import Contracts.

#[local] Open Scope Z_scope.

(** ** Data *)

Inductive http_method : Type := GET | POST | PUT | PATCH | DELETE.
#[export] Instance http_method_eq_dec : EqDecision http_method.
Proof. solve_decision. Defined.

Inductive error_category : Type :=
| unauthorized | forbidden | conflict | validation | not_found | timeout | network | malformed | incompatible | unknown.
#[export] Instance error_category_eq_dec : EqDecision error_category.
Proof. solve_decision. Defined.

(** [SpatialApiError]. *)
Record api_error : Type := ApiError { ae_category : error_category; ae_path : string; ae_status : option Z }.

(** [SpatialTransportRequest]; its signal is part of the outcome. *)
Record transport_request : Type := TransportRequest {
  rq_path : string;
  rq_method : option http_method;
  rq_scope : scope;
  rq_body : option json;
  rq_headers : option (jsmap string);
}.

Inductive credentials : Type := same_origin | omit | include_all.

(** [SpatialAuthAdapter]. *)
Record auth_adapter : Type := AuthAdapter {
  auth_headers : option (transport_request -> jsmap string);
  auth_credentials : option credentials;
}.

(** [SpatialRequestMetadata]. *)
Record metadata : Type := Metadata {
  md_request_id : string;
  md_correlation_id : string;
  md_idempotency_key : string;
  md_hypervisor_id : string;
  md_node_id : string;
}.

(** What [fetch] is called with. *)
Record http_request : Type := HttpRequest {
  hr_url : string;
  hr_method : http_method;
  hr_credentials : credentials;
  hr_headers : jsmap string;
  hr_body : option string;
}.

(** Whether the caller's signal was aborted: an abort is forwarded only when it
    happens after the listener was added. *)
Inductive abort : Type := ab_never | ab_before | ab_during.

(** [fetch] or reading the text failed, or there is a status and a text. *)
Inductive outcome : Type :=
| Failed (timed_out : bool) (caller : abort)
| Answered (http_status : Z) (text : string).

(** The errors of [request]: the [ZodError] of a scope that is none, and the
    transport's own. *)
Inductive transport_error : Type := BadScope | Api (e : api_error).

(** ** Requests *)

Section request.
Context {zod : Zod}.

Definition createSpatialRequestMetadata (sc : scope) (nonce : string) : result transport_error metadata :=
  let? n := of_option (normalizeSpatialNodeScope sc) BadScope in
  Ok (Metadata nonce nonce nonce (hypervisor_id n) (scope_node_id n)).

(** [{ ...m, ...l }]. *)
Definition spread (m l : jsmap string) : jsmap string := foldl (fun m kv => jset kv.1 kv.2 m) m l.

(** [root.replace(/\/$/, '')]. *)
Fixpoint without_last_slash (s : string) : string :=
  match s with
  | EmptyString => EmptyString
  | String c EmptyString => if Ascii.eqb c "/" then EmptyString else s
  | String c s => String c (without_last_slash s)
  end.

Definition mutating (rq : transport_request) : bool :=
  match rq_method rq with Some GET | None => false | Some _ => true end.

(** [request.headers?.[name]], if it is truthy. *)
Definition own_header (rq : transport_request) (name : string) : jsmap string :=
  match rq_headers rq ≫= jget name with
  | Some v => if truthy (Some v) then [(name, v)] else []
  | None => []
  end.

(** The headers of a request, a later group over the earlier ones. *)
Definition request_headers (auth : option auth_adapter) (rq : transport_request) (sc : scope) (md : metadata) : jsmap string :=
  foldl spread
    [("Accept", "application/json"); ("X-AiDN-Request-Id", md_request_id md); ("X-AiDN-Correlation-Id", md_correlation_id md)]%string
    [(if mutating rq then [("X-AiDN-Idempotency-Key", md_idempotency_key md)] else []);
     (match rq_body rq with Some _ => [("Content-Type", "application/json")] | None => [] end);
     (match auth ≫= auth_headers with Some f => f rq | None => [] end);
     default [] (rq_headers rq);
     [("X-AiDN-Hypervisor-Id", hypervisor_id sc); ("X-AiDN-Node-Id", scope_node_id sc)];
     (if mutating rq then own_header rq "X-AiDN-Idempotency-Key" else []);
     own_header rq "X-AiDN-Correlation-Id"]%string.

(** The part of [request] before the answer. *)
Definition prepare (apiRoot : option string) (auth : option auth_adapter) (rq : transport_request) (nonce : string)
  : result transport_error http_request :=
  let? sc := of_option (normalizeSpatialNodeScope (rq_scope rq)) BadScope in
  let? md := createSpatialRequestMetadata sc nonce in
  Ok (HttpRequest (without_last_slash (default "" apiRoot) +:+ rq_path rq) (default GET (rq_method rq))
        (default same_origin (auth ≫= auth_credentials)) (request_headers auth rq sc md) (stringify <$> rq_body rq)).
End request.

(** ** Answers *)

Definition categoryForStatus (st : Z) : error_category :=
  if bool_decide (st = 401) then unauthorized
  else if bool_decide (st = 403) then forbidden
  else if bool_decide (st = 404) then not_found
  else if bool_decide (st = 409) then conflict
  else if bool_decide (st = 422) then validation
  else unknown.

(** [response.ok]. *)
Definition response_ok (st : Z) : bool := bool_decide (200 <= st <= 299).

Section answers.
(** [JSON.parse] of the host. *)
Context (JSON_parse : string -> option json).

Definition payload_of (text : string) : option json := if str_eqb text "" then Some JNull else JSON_parse text.

(** The part of [request] after the answer. *)
Definition settle (path : string) (o : outcome) : result api_error json :=
  match o with
  | Answered st text =>
      let? v := of_option (payload_of text) (ApiError malformed path (Some st)) in
      require (response_ok st) (ApiError (categoryForStatus st) path (Some st)) ;?
      Ok v
  | Failed timed_out caller =>
      let aborted := timed_out || match caller with ab_during => true | _ => false end in
      let by_caller := match caller with ab_never => false | _ => true end in
      Err (ApiError (if aborted && negb by_caller then timeout else network) path None)
  end.

(** [request], from what the host does with the request that is prepared. *)
Definition request {zod : Zod} (apiRoot : option string) (auth : option auth_adapter) (host : http_request -> outcome)
    (rq : transport_request) (nonce : string) : result transport_error json :=
  let? h := prepare apiRoot auth rq nonce in
  match settle (rq_path rq) (host h) with Ok v => Ok v | Err e => Err (Api e) end.

(** [parseCollection] after the envelope was read: every item, or none. *)
Fixpoint parse_items {A} (path : string) (parseItem : json -> option A) (items : list json) : result api_error (list A) :=
  match items with
  | [] => Ok []
  | i :: items =>
      let? a := of_option (parseItem i) (ApiError malformed path None) in
      let? rest := parse_items path parseItem items in
      Ok (a :: rest)
  end.
End answers.

(** ** Properties *)

Lemma jget_spread k m l : NoDup (jkeys l) -> jget k (spread m l) = match jget k l with Some v => Some v | None => jget k m end.
Proof.
  unfold spread. revert m. induction l as [|[k' v] l IH]; intros m; [done|]. cbn [foldl jkeys map fst snd jget]. intros [Hk Hn]%NoDup_cons.
  rewrite IH by done. rewrite jget_jset. destruct (jget k l) as [w|] eqn:E; [|by destruct (str_eqb k' k)].
  destruct (str_eqb k' k) eqn:Ek; [|done]. apply str_eqb_eq in Ek as ->. destruct Hk. apply jget_elem in E.
  by apply (list_elem_of_fmap_2 fst) in E.
Qed.

(** A header of the caller's own, spread over the others. *)
Lemma own_header_same k m rq :
  jget k (spread m (own_header rq k)) =
    match rq_headers rq ≫= jget k with Some v => if truthy (Some v) then Some v else jget k m | None => jget k m end.
Proof.
  unfold own_header. destruct (rq_headers rq ≫= jget k) as [v|]; [|done]. destruct (truthy (Some v)); [|done].
  rewrite jget_spread by apply NoDup_singleton. cbn [jget]. by rewrite str_eqb_refl.
Qed.

Lemma own_header_other k name m rq : name <> k -> jget k (spread m (own_header rq name)) = jget k m.
Proof.
  intros Hne. unfold own_header. destruct (rq_headers rq ≫= jget name) as [v|]; [|done]. destruct (truthy (Some v)); [|done].
  by apply jget_jset_ne.
Qed.

(** The same, when it is only spread for a mutation. *)
Lemma own_header_mutation k name m rq : name <> k ->
  jget k (spread m (if mutating rq then own_header rq name else [])) = jget k m.
Proof. intros Hne. destruct (mutating rq); [by apply own_header_other | done]. Qed.

Lemma two_keys (a b : string) : NoDup (jkeys [("X-AiDN-Hypervisor-Id", a); ("X-AiDN-Node-Id", b)]%string).
Proof. apply NoDup_cons. split; [by rewrite list_elem_of_singleton | apply NoDup_singleton]. Qed.

(** Whatever comes before them, the two scope headers are the transport's. *)
Lemma scope_headers auth rq sc md :
  jget "X-AiDN-Hypervisor-Id" (request_headers auth rq sc md) = Some (hypervisor_id sc) /\
  jget "X-AiDN-Node-Id" (request_headers auth rq sc md) = Some (scope_node_id sc).
Proof.
  unfold request_headers. cbn [foldl]. by split; rewrite own_header_other, own_header_mutation, jget_spread by (done || apply two_keys).
Qed.

Section laws.
Context {zod : Zod} {laws : ZodLaws zod}.

(** C32. A request goes out for the scope it was made for and for no other: the
    Hypervisor and Node headers are the normalized ids of its scope, whatever the
    authentication adapter or the caller puts under these names, and a scope that
    is none sends nothing. What the host is asked to fetch is the path under the
    root, with the caller's method, and the answer is delivered only if the host
    reported a successful status with a JSON text. *)
Theorem request_keeps_its_scope JSON_parse apiRoot auth host rq nonce v :
  request JSON_parse apiRoot auth host rq nonce = Ok v ->
  exists sc h st text, normalizeSpatialNodeScope (rq_scope rq) = Some sc /\
    prepare apiRoot auth rq nonce = Ok h /\
    hr_url h = without_last_slash (default "" apiRoot) +:+ rq_path rq /\ hr_method h = default GET (rq_method rq) /\
    jget "X-AiDN-Hypervisor-Id" (hr_headers h) = Some (hypervisor_id sc) /\
    jget "X-AiDN-Node-Id" (hr_headers h) = Some (scope_node_id sc) /\
    host h = Answered st text /\ 200 <= st <= 299 /\ payload_of JSON_parse text = Some v.
Proof using laws.
  intros H. unfold request in H. apply rbind_ok in H as (h & Hh & H). pose proof Hh as Hp.
  unfold prepare in Hh. inv_ok. match goal with H : createSpatialRequestMetadata _ _ = Ok ?m |- _ => rename m into md end.
  match goal with H : normalizeSpatialNodeScope (rq_scope rq) = Some ?s |- _ => rename s into sc end.
  destruct (host _) as [t c|st text] eqn:Ho; cbn [settle] in H; [done|].
  destruct (payload_of JSON_parse text) as [w|] eqn:Hw; cbn [of_option rbind] in H; [|done].
  destruct (response_ok st) eqn:Hok; cbn [require rbind] in H; [|done]. injection H as <-.
  apply bool_decide_eq_true in Hok. destruct (scope_headers auth rq sc md) as [Hh1 Hh2].
  exists sc. eexists. exists st, text. split; [done|]. split; [exact Hp|]. done.
Qed.

(** A mutation that names no key of its own is sent with the request's id as its
    idempotency key and its correlation id; a key and a correlation id that the
    caller names are sent instead. *)
Theorem mutation_is_keyed apiRoot rq nonce h :
  prepare apiRoot None rq nonce = Ok h -> mutating rq = true -> NoDup (jkeys (default [] (rq_headers rq))) ->
  let own name := default nonce (rq_headers rq ≫= jget name) in
  jget "X-AiDN-Idempotency-Key" (hr_headers h) = Some (own "X-AiDN-Idempotency-Key"%string) /\
  jget "X-AiDN-Correlation-Id" (hr_headers h) = Some (own "X-AiDN-Correlation-Id"%string).
Proof using laws.
  intros H Hm Hn own. unfold prepare, createSpatialRequestMetadata in H. inv_ok. cbn [hr_headers]. unfold request_headers. rewrite Hm.
  cbn [foldl mbind option_bind]. subst own. split.
  - rewrite own_header_other, own_header_same, jget_spread by (done || apply two_keys).
    destruct (rq_headers rq) as [hs|]; cbn [mbind option_bind default from_option id] in *; [|destruct (rq_body rq); done].
    rewrite jget_spread by done. destruct (jget "X-AiDN-Idempotency-Key" hs) as [k|]; cbn [default from_option id jget fst snd].
    + by destruct (truthy _).
    + by destruct (rq_body rq).
  - rewrite own_header_same, own_header_other, jget_spread by (done || apply two_keys).
    destruct (rq_headers rq) as [hs|]; cbn [mbind option_bind default from_option id] in *; [|destruct (rq_body rq); done].
    rewrite jget_spread by done. destruct (jget "X-AiDN-Correlation-Id" hs) as [k|]; cbn [default from_option id jget fst snd].
    + by destruct (truthy _).
    + by destruct (rq_body rq).
Qed.
End laws.

(** Every failure has one category: a text that is not JSON is malformed whatever
    its status, an unsuccessful status with a JSON text says which failure it is,
    and only a request that ran out of time without its caller having given up is
    a timeout. *)
Theorem failure_categories JSON_parse path o e :
  settle JSON_parse path o = Err e ->
  ae_path e = path /\
  (ae_category e = malformed <-> exists st text, o = Answered st text /\ payload_of JSON_parse text = None) /\
  (ae_category e = timeout <-> o = Failed true ab_never) /\
  (ae_category e = network <-> exists t c, o = Failed t c /\ (t = false \/ c <> ab_never)) /\
  (ae_category e = unauthorized <-> exists text v, o = Answered 401 text /\ payload_of JSON_parse text = Some v) /\
  (ae_category e = conflict <-> exists text v, o = Answered 409 text /\ payload_of JSON_parse text = Some v).
Proof.
  intros H. destruct o as [t c|st text]; cbn [settle] in H.
  - injection H as <-. destruct t, c; cbn; split_and!; try done;
      (split; [intros ?; try done; do 2 eexists; (split; [done|]); by auto|intros (? & ? & ? & ?) || intros ?; naive_solver]).
  - destruct (payload_of JSON_parse text) as [v|] eqn:Hp; cbn [of_option rbind] in H;
      [destruct (response_ok st); cbn [require rbind] in H; [done|]|]; injection H as <-; cbn [ae_path ae_category];
      unfold categoryForStatus; repeat case_bool_decide; subst; split_and!; try done;
      (split; [intros ?; try done; by eauto 6|intros (? & ? & ? & ?) || intros ?; congruence]).
Qed.

(** A list that is read is read whole. *)
Theorem items_are_parsed_whole {A} path (parseItem : json -> option A) items l :
  parse_items path parseItem items = Ok l <-> mapM parseItem items = Some l.
Proof.
  revert l. induction items as [|i items IH]; intros l; cbn [parse_items mapM]; [by split; intros [= <-]|].
  destruct (parseItem i) as [a|]; cbn [of_option rbind mbind option_bind]; [|done].
  destruct (parse_items path parseItem items) as [r|e], (mapM parseItem items) as [r'|]; cbn [rbind mbind option_bind].
  - destruct (IH r) as [Hr _]. specialize (Hr eq_refl). injection Hr as ->. by split; intros [= <-].
  - destruct (IH r) as [Hr _]. by specialize (Hr eq_refl).
  - destruct (IH r') as [_ Hr]. by specialize (Hr eq_refl).
  - done.
Qed.

Module TransportWitness.
#[local] Existing Instance zod_ref.

(** A host whose texts are all [null], and a caller that spoofs a header. *)
Definition parse (text : string) : option json := if str_eqb text "<html>" then None else Some JNull.
Definition spoof : jsmap string := [("X-AiDN-Node-Id", "node-2"); ("X-AiDN-Correlation-Id", "c-1")]%string.
Definition rq (m : option http_method) (hs : option (jsmap string)) : transport_request :=
  TransportRequest "/operators/spatial/status" m (Scope "hv" " node-1 ") (Some (JBool true)) hs.
Definition answer (st : Z) (text : string) : http_request -> outcome := fun _ => Answered st text.

Lemma request_keeps_its_scope_witness :
  request parse (Some "https://node/"%string) None (answer 200 "") (rq (Some POST) (Some spoof)) "r-1" = Ok JNull /\
  exists h, prepare (Some "https://node/"%string) None (rq (Some POST) (Some spoof)) "r-1" = Ok h /\
    jget "X-AiDN-Node-Id" (hr_headers h) = Some "node-1"%string.
Proof.
  assert (E : request parse (Some "https://node/"%string) None (answer 200 "") (rq (Some POST) (Some spoof)) "r-1" = Ok JNull)
    by reflexivity.
  split; [exact E|].
  destruct (request_keeps_its_scope parse (Some "https://node/"%string) None (answer 200 "") (rq (Some POST) (Some spoof)) "r-1" JNull E)
    as (sc & h & st & text & Hs & Hp & _ & _ & _ & Hn & _). exists h. split; [exact Hp|]. rewrite Hn. vm_compute in Hs. by injection Hs as <-.
Defined.

Lemma mutation_is_keyed_witness :
  match prepare None None (rq (Some POST) (Some spoof)) "r-1" with
  | Ok h => jget "X-AiDN-Idempotency-Key" (hr_headers h) = Some "r-1"%string /\
            jget "X-AiDN-Correlation-Id" (hr_headers h) = Some "c-1"%string
  | Err _ => False
  end.
Proof.
  destruct (prepare None None (rq (Some POST) (Some spoof)) "r-1") as [h|e] eqn:E; [|done].
  apply (mutation_is_keyed None (rq (Some POST) (Some spoof)) "r-1" h E eq_refl).
  cbn. repeat (apply NoDup_cons; split; [cbv; set_solver|]). constructor.
Defined.

Lemma failure_categories_witness : settle parse "/p" (Failed true ab_never) = Err (ApiError timeout "/p" None).
Proof.
  destruct (settle parse "/p" (Failed true ab_never)) as [v|e] eqn:H; [done|].
  destruct (failure_categories parse "/p" _ _ H) as (Hp & _ & Ht & _). injection H as <-. reflexivity.
Defined.
End TransportWitness.

(** ** Edge behaviour *)

(** A login page in answer to a request without a session is a malformed answer,
    not an unauthorized one. *)
Theorem html_login_page_is_malformed JSON_parse path text :
  text <> ""%string -> JSON_parse text = None -> settle JSON_parse path (Answered 401 text) = Err (ApiError malformed path (Some 401)).
Proof.
  intros Hne Hp. cbn [settle]. unfold payload_of. destruct (str_eqb text "") eqn:E; [by apply str_eqb_eq in E|]. by rewrite Hp.
Qed.

(** A signal that was aborted before the request is not forwarded, and then hides
    that the request ran out of time. *)
Theorem early_abort_hides_a_timeout JSON_parse path :
  settle JSON_parse path (Failed true ab_before) = Err (ApiError network path None).
Proof. done. Qed.

(** An empty idempotency key of the caller's own is sent. *)
Theorem empty_key_is_sent {zod : Zod} : exists rq, mutating rq = true /\
  forall sc md, jget "X-AiDN-Idempotency-Key" (request_headers None rq sc md) = Some ""%string.
Proof.
  exists (TransportRequest "/p" (Some POST) (Scope "h" "n") None (Some [("X-AiDN-Idempotency-Key", "")]%string)).
  split; [done|]. intros sc md. reflexivity.
Qed.

(** Names are told apart by case here and not by HTTP: a caller's node header
    in lower case is sent beside the transport's own. *)
Theorem lower_case_header_is_sent {zod : Zod} : exists rq, forall sc md,
  jget "x-aidn-node-id" (request_headers None rq sc md) = Some "node-2"%string /\
  jget "X-AiDN-Node-Id" (request_headers None rq sc md) = Some (scope_node_id sc).
Proof.
  exists (TransportRequest "/p" None (Scope "h" "n") None (Some [("x-aidn-node-id", "node-2")]%string)).
  intros sc md. split; reflexivity.
Qed.
