(* ===== verification/DashboardAdapter.v ===== *)
(** * The dashboard adapter

    src/web/operator-dashboard/src/spatial/data/dashboard-adapter.ts: the
    translation of the operator dashboard's read model into the contracts of the
    spatial workspace ([WorkspaceRepo], [Status]), the requests it is read with
    ([Transport]) and the cache in front of them. A payload has the fields the
    adapter reads; its numbers are integers. The scene that is built from the
    projection is in [DashboardScene]. *)

From stdpp Require Import pretty.
From Stdlib Require Import QArith.
From S2P Require Import Prelude.
From S2P Require Import Json.
From S2P Require Import Contracts.
From S2P Require Import Numbers.
From S2P Require Import Text.
From S2P Require Import Slot.
From S2P Require Import Binding.
From S2P Require Import Status.
From S2P Require Import StatusProps.
From S2P Require Import RemoteContracts.
From S2P Require Import WorkspaceRepo.
From S2P Require Import Schemas.
From S2P Require Import Presence.
From S2P Require Import ViewModels.
From S2P Require Import Transport.

#[local] Open Scope Z_scope.

(** ** Payload *)

(** [Endpoint], [Bundle] and [ResidentAgentStatus] of lib/types.ts, and the status
    summary. *)
Record endpoint_item : Type := EndpointItem {
  endpoint_id : string;
  ei_display_name : option string;
  model_class : option string;
  ei_capabilities : list string;
  local_agent_use : bool;
  publication_status : string;
  runtime_status : string;
  publication_ready : option bool;
}.

Record bundle_item : Type := BundleItem {
  bundle_id : string;
  bundle_revision : Z;
  model_id : string;
  enabled : bool;
  registry_status : option string;
}.

Record resident_agent : Type := ResidentAgent { rs_state : string; rs_enabled : bool; rs_model_repo : string }.

Record status_summary : Type := StatusSummary {
  resident_state : option string;
  resident_configured : option bool;
  runtimes : nat;
  summary_queue_active : option Z;
}.

Record fleet : Type := Fleet { fleet_node_id : option string; bundles : list bundle_item; fleet_queue_active : Z }.
Record endpoint_payload : Type := EndpointPayload { ep_items : list endpoint_item; published : Z }.
Record session_dashboard : Type := SessionDashboard { node_identity : value; sessions_active : Z; ses_items : list (jsmap value) }.
Record primary_summary : Type := PrimarySummary { ps_id : string; ps_label : string; ps_state : string; ps_available : bool }.

(** [DashboardPayload]. *)
Record payload : Type := Payload {
  pl_primary : option primary_summary;
  pl_fleet : fleet;
  pl_endpoints : endpoint_payload;
  pl_sessions : session_dashboard;
  residentAgent : option resident_agent;
  statusSummary : option status_summary;
  failures : list string;
  observedAt : iso;
}.

(** ** Coercions *)

Definition record (v : value) : jsmap value := match v with VObj l => l | _ => [] end.
(** [o.key] of a record. *)
Definition field (k : string) (o : jsmap value) : value := default VUndefined (jget k o).
Definition optional_text (o : option string) : value := match o with Some s => VStr s | None => VUndefined end.

Definition stringValue (v : value) (fallback : string) : string :=
  match v with VStr s => if truthy (Some (trim s)) then trim s else fallback | _ => fallback end.

Definition or_else (s fallback : string) : string := if truthy (Some s) then s else fallback.

Definition code_char (c : ascii) : bool :=
  let n := N_of_ascii c in (bool_decide (65 <= n <= 90)%N) || is_digit c || one_of "_:-" c.

Definition upper (v : value) (fallback : string) : string :=
  or_else (slice 96 (string_map (fun c => if code_char c then c else "_"%char) (to_upper (stringValue v fallback)))) fallback.

Definition revisionFor (now : iso) : Z := Z.max 1 (now / 1000).

Definition freshness_of (observedAt : iso) : freshness := Freshness F_FRESH observedAt (num 30) "operators.dashboard".

(** [slug]: runs of other characters become one dash, those at the ends go. *)
Definition slug_char (c : ascii) : bool := let n := N_of_ascii c in bool_decide (97 <= n <= 122)%N || is_digit c.
Fixpoint strip_dashes_end (s : string) : string :=
  match s with
  | EmptyString => EmptyString
  | String c s' => match strip_dashes_end s' with
                   | EmptyString => if Ascii.eqb c "-" then EmptyString else String c EmptyString
                   | t => String c t
                   end
  end.
Definition slug (s : string) : string :=
  or_else (slice 48 (strip_dashes_end (skip (fun c => Ascii.eqb c "-") (replace (at_least 1 (fun c => negb (slug_char c))) "-" (to_lower s)))))
    "node".

(** [hash] is the one of the view models. *)
Definition hash (s : string) : Z := positionHash s.

Definition ENDPOINT_PALETTE : list string := ["#83c9e8"; "#9ed6c0"; "#b8a7ea"; "#efb68f"; "#f0d58d"; "#dba8d0"; "#a7cddf"]%string.
Definition ARTIFACT_PALETTE : list string := ["#b4c9ee"; "#c9b6e8"; "#afd8d2"; "#e4c39e"; "#d9abc9"; "#b9d8c1"; "#d1c2ef"]%string.
Definition AGENT_PALETTE : list string := ["#efc75b"; "#eb9d91"; "#8ed5bd"; "#b6a7ec"; "#83c9e8"; "#efb58c"]%string.

(** [palette[i]] is undefined outside of the palette. *)
Definition paletteColor (palette : list string) (key state : string) : option string :=
  if includes "OFFLINE" state || includes "UNAVAILABLE" state then Some "#aab5c4"%string
  else palette !! Z.to_nat (hash key mod Z.of_nat (length palette)).

(** ** States *)

Definition endpointState (e : endpoint_item) : string * availability :=
  let publication := upper (VStr (publication_status e)) "UNKNOWN" in
  let runtime := upper (VStr (runtime_status e)) "UNKNOWN" in
  if str_eqb publication "PUBLISHED" && negb (bool_decide (publication_ready e = Some false)) then ("READY"%string, AV_AVAILABLE)
  else if str_eqb publication "CONFIGURED" || str_eqb runtime "CREATED" || str_eqb runtime "RUNNING"
       then ("CONFIGURED"%string, AV_DEGRADED)
  else ("OFFLINE"%string, AV_UNAVAILABLE).

Definition sessionState (item : jsmap value) : string * availability :=
  let state := upper (field "status" (record (field "session" item))) "UNKNOWN" in
  if str_eqb state "ACTIVE" || str_eqb state "QUEUED" then (state, AV_AVAILABLE)
  else if str_eqb state "CLOSED" || str_eqb state "COMPLETED" || str_eqb state "TERMINAL" then (state, AV_AVAILABLE)
  else (state, if str_eqb state "UNKNOWN" then AV_UNKNOWN else AV_DEGRADED).

Definition primary_states : list string :=
  ["READY"; "LISTENING"; "THINKING"; "ACTING"; "WORKING"; "ATTENTION"; "CRITICAL"]%string.

Definition primaryState (r : option resident_agent) (st : option status_summary) : string * availability :=
  let state := upper (optional_text (match r with Some r => Some (rs_state r) | None => st ≫= resident_state end)) "UNKNOWN" in
  let on := match r with Some r => rs_enabled r | None => default false (st ≫= resident_configured) end in
  if negb on || includes "OFFLINE" state || includes "STOP" state then ("OFFLINE"%string, AV_UNAVAILABLE)
  else if includes "DEGRADED" state || includes "ERROR" state then ("ATTENTION"%string, AV_DEGRADED)
  else (if existsb (str_eqb state) primary_states then state else "READY"%string, AV_AVAILABLE).

(** ** The snapshot *)

Definition canonicalEntityBase (k : canonical_kind) (d : entity_data) (id node label : string) (st : string * availability)
    (revision : Z) (t : iso) : entity :=
  Entity id (kind_text k +:+ ":" +:+ id) node revision (or_else (slice 240 label) id) st.1 st.2 (freshness_of t) t t None d.

Definition nodeIdFor (sc : scope) (p : payload) : result api_error string :=
  let node := or_else (stringValue (optional_text (fleet_node_id (pl_fleet p))) "")
                (or_else (stringValue (field "node_id" (record (node_identity (pl_sessions p)))) "") (scope_node_id sc)) in
  require (str_eqb node (scope_node_id sc)) (ApiError conflict "scope" None) ;?
  Ok node.

(** [`${prefix}-${index + 1}`]. *)
Definition numbered (prefix : string) (i : N) : string := prefix +:+ "-" +:+ pretty (i + 1)%N.

Definition primary_id (p : payload) (node : string) : string :=
  match pl_primary p with Some a => ps_id a | None => "primary-agent-" +:+ slug node end.

Definition primary_entity (p : payload) (node : string) (revision : Z) : entity :=
  let st := match pl_primary p with
            | Some a => (ps_state a, if ps_available a then AV_AVAILABLE else AV_UNKNOWN)
            | None => primaryState (residentAgent p) (statusSummary p)
            end in
  canonicalEntityBase k_agent (D_agent RL_PRIMARY None ["operator.read"; "operator.observe"]%string) (primary_id p node) node
    (match pl_primary p with Some a => ps_label a | None => "Resident Primary Agent" end) st revision (observedAt p).

Definition endpoint_entity (p : payload) (node : string) (revision : Z) (i : N) (e : endpoint_item) : entity :=
  let id := or_else (endpoint_id e) (numbered "endpoint" i) in
  canonicalEntityBase k_endpoint
    (D_endpoint (stringValue (optional_text (model_class e)) (match ei_capabilities e with c :: _ => c | [] => "capability" end))
       (match ei_capabilities e with [] => ["endpoint.invoke"%string] | l => l end) None
       (if local_agent_use e then Some ("agent:" +:+ primary_id p node) else None))
    id node (stringValue (optional_text (ei_display_name e)) id) (endpointState e) (revision + Z.of_N i + 1) (observedAt p).

Definition session_entity (p : payload) (node : string) (revision : Z) (i : N) (item : jsmap value) : entity :=
  let ses := record (field "session" item) in
  let id := stringValue (field "session_id" ses) (numbered "session" i) in
  canonicalEntityBase k_session
    (D_session ST_SESSION (Some id)
       (List.filter (fun s => truthy (Some s)) [stringValue (field "client_wallet" ses) ""; stringValue (field "provider_wallet" ses) ""]))
    id node (stringValue (field "display_name" item) (stringValue (field "endpoint_id" ses) "Endpoint" +:+ " session"))
    (sessionState item) (revision + 100 + Z.of_N i) (observedAt p).

Definition bundle_entity (p : payload) (node : string) (revision : Z) (i : N) (b : bundle_item) : entity :=
  let id := stringValue (VStr (bundle_id b)) (numbered "bundle" i) in
  let st := if enabled b && negb (str_eqb (upper (optional_text (registry_status b)) "") "DISABLED") then "READY"%string
            else "CONFIGURED"%string in
  canonicalEntityBase k_artifact (D_artifact "provider-bundle" ("artifact:" +:+ id) (bundle_revision b)) id node
    (stringValue (VStr (model_id b)) id) (st, if enabled b then AV_AVAILABLE else AV_DEGRADED) (revision + 200 + Z.of_N i) (observedAt p).

Definition entityRecords (p : payload) (sc : scope) (now : iso) : result api_error (list entity) :=
  let revision := revisionFor now in
  let? node := nodeIdFor sc p in
  Ok (primary_entity p node revision ::
      map_index (endpoint_entity p node revision) 0 (ep_items (pl_endpoints p)) ++
      map_index (session_entity p node revision) 0 (ses_items (pl_sessions p)) ++
      map_index (bundle_entity p node revision) 0 (bundles (pl_fleet p))).

Definition is_kind (k : canonical_kind) (e : entity) : bool := bool_decide (kind_of e = k).

Definition relation_of (node : string) (revision : Z) (t : iso) (src : string) (prefix type : string)
    (st : relation_state) (e : entity) : relation :=
  Relation (prefix +:+ en_id e) node revision type src (en_ref e) st (freshness_of t) t t.

Definition relationRecords (p : payload) (sc : scope) (now : iso) (es : list entity) : result api_error (list relation) :=
  let revision := revisionFor now in
  let? node := nodeIdFor sc p in
  match List.find has_role_primary es with
  | None => Ok []
  | Some q =>
      Ok (map (relation_of node revision (observedAt p) (en_ref q) "uses-" "USES" RS_ACTIVE) (List.filter (is_kind k_endpoint) es) ++
          map (fun e => relation_of node revision (observedAt p) (en_ref q) "session-" "REQUEST"
                          (if str_eqb (en_state e) "ACTIVE" then RS_ACTIVE else RS_ARCHIVED) e) (List.filter (is_kind k_session) es))
  end.

Section adapter.
Context {zod : Zod}.

Definition createWorkspaceSnapshot (p : payload) (sc : scope) (now : iso) : result api_error snapshot :=
  let? es := entityRecords p sc now in
  let revision := revisionFor now in
  let? node := nodeIdFor sc p in
  let? rs := relationRecords p sc now es in
  of_option (spatialWorkspaceSchema
    (Snapshot ("workspace-" +:+ node) node revision revision (observedAt p) (observedAt p) es rs [] []
       (en_ref <$> List.find has_role_primary es))) (ApiError malformed "/operators/dashboard" None).

(** ** The Node status *)

(** The states of [SPATIAL_NODE_STATUS_STATES], by name. *)
Definition node_state_named (s : string) : option node_state :=
  jget s [("ONLINE", ONLINE); ("READY", Status.READY); ("RUNNING", RUNNING); ("STARTING", STARTING); ("STOPPING", STOPPING);
          ("RESTARTING", RESTARTING); ("DEGRADED", Status.DEGRADED); ("OFFLINE", Status.OFFLINE); ("DISCONNECTED", Status.DISCONNECTED);
          ("BLOCKED", BLOCKED); ("UNKNOWN", Status.UNKNOWN); ("STALE", Status.STALE)]%string.

(** [identity] is the one field of these details the contract keeps. *)
Definition kept_details (identity : option string) : details := Details identity None None [] [] A_AUTHORIZED.

(** The status before it is parsed, with the state of the Primary Agent's component. *)
Definition raw_status (p : payload) (node : string) (revision : Z) (primary : string * availability) (st : node_state) : status :=
  let t := observedAt p in
  let statusState := match primary.2 with AV_UNAVAILABLE | AV_DEGRADED => Status.DEGRADED | _ => ONLINE end in
  let component id type kind st dt :=
    Component (id +:+ "-" +:+ node) type kind st t (freshness_of t) "operators.dashboard" (Some revision) [] None [] None A_AUTHORIZED dt in
  let some (b : bool) st := if b then st else Status.UNKNOWN in
  Status node revision statusState t (freshness_of t)
    [component "node" "Node" ck_node statusState None;
     component "primary" "Primary Agent" ck_primary_agent st
       (Some (kept_details (Some (default "resident-agent" (rs_model_repo <$> residentAgent p)))));
     component "endpoints" "Endpoints" ck_endpoints (some (negb (bool_decide (ep_items (pl_endpoints p) = []))) Status.READY)
       (Some (kept_details None));
     component "sessions" "Sessions" ck_sessions (if bool_decide (0 < sessions_active (pl_sessions p)) then RUNNING else Status.READY)
       (Some (kept_details None));
     component "bundles" "Provider Bundles" ck_providers (some (negb (bool_decide (bundles (pl_fleet p) = []))) Status.READY)
       (Some (kept_details None));
     component "runtimes" "Runtimes" ck_runtimes
       (some (match statusSummary p with Some s => negb (bool_decide (runtimes s = O)) | None => false end) RUNNING)
       (Some (kept_details None))]%string
    None None None (negb (bool_decide (failures p = []))) false None
    (sessions_active (pl_sessions p)) (default (fleet_queue_active (pl_fleet p)) (statusSummary p ≫= summary_queue_active))
    (published (pl_endpoints p)) (Z.of_nat (length (failures p))) [] None.

Definition createNodeStatus (p : payload) (sc : scope) (now : iso) : result api_error status :=
  let? node := nodeIdFor sc p in
  let primary := primaryState (residentAgent p) (statusSummary p) in
  of_option
    (st ← node_state_named primary.1;
     spatialNodeStatusSchema (raw_status p node (revisionFor now) primary st))
    (ApiError malformed "/operators/dashboard/status/summary" None).
End adapter.

(** ** Requests *)

(** [responseError]. *)
Definition responseError (path : string) (st : Z) : api_error := ApiError (categoryForStatus st) path (Some st).

(** The request that is sent, with the scope as it is given. *)
Definition dashboard_request (apiRoot path : string) (sc : scope) : http_request :=
  HttpRequest (apiRoot +:+ path) GET same_origin
    [("Accept", "application/json"); ("X-AiDN-Hypervisor-Id", hypervisor_id sc); ("X-AiDN-Node-Id", scope_node_id sc)]%string None.

(** [requestDashboard], from what the host does with that request. *)
Definition requestDashboard {T} (JSON_parse : string -> option json) (apiRoot path : string) (schema : json -> option T) (sc : scope)
    (host : http_request -> outcome) : result api_error T :=
  match host (dashboard_request apiRoot path sc) with
  | Answered st text =>
      let? v := of_option (payload_of JSON_parse text) (ApiError malformed path (Some st)) in
      require (response_ok st) (responseError path st) ;?
      of_option (schema v) (ApiError malformed path (Some st))
  | Failed timed_out caller =>
      let aborted := timed_out || match caller with ab_during => true | _ => false end in
      let by_caller := match caller with ab_never => false | _ => true end in
      Err (ApiError (if aborted && negb by_caller then timeout else network) path None)
  end.

Definition emptyFleet (sc : scope) : fleet := Fleet (Some (scope_node_id sc)) [] 0.
Definition emptyEndpoints : endpoint_payload := EndpointPayload [] 0.
Definition emptySessions : session_dashboard := SessionDashboard VUndefined 0 [].

Definition settled {E A} (r : result E A) : option A := match r with Ok a => Some a | Err _ => None end.
Definition rejection {E A} (r : result E A) : option E := match r with Ok _ => None | Err e => Some e end.

(** [loadDashboardPayload], from its five settled requests. *)
Definition loadDashboardPayload (sc : scope) (rf : result api_error fleet) (re : result api_error endpoint_payload)
    (rs : result api_error session_dashboard) (ra : result api_error resident_agent) (rt : result api_error status_summary)
    (now : iso) : result api_error payload :=
  let rejections := [("/operators/dashboard/fleet", rejection rf); ("/operators/dashboard/endpoints", rejection re);
                     ("/operators/dashboard/sessions", rejection rs); ("/operators/dashboard/steward", rejection ra);
                     ("/operators/dashboard/status/summary", rejection rt)]%string in
  let failed := omap (fun r => (fun _ => r.1) <$> r.2) rejections in
  match settled rf, settled re, settled rs, settled ra with
  | None, None, None, None =>
      Err (default (ApiError network "/operators/dashboard" None) (head (omap snd rejections)))
  | _, _, _, _ =>
      Ok (Payload None (default (emptyFleet sc) (settled rf)) (default emptyEndpoints (settled re)) (default emptySessions (settled rs))
            (settled ra) (settled rt) failed now)
  end.

(** ** The cache *)

Record cache_entry : Type := CacheEntry { expiresAt : Z; scopeKey : string; cached_payload : payload }.

Section loaders.
Context {zod : Zod} (apiRoot : string) (cacheTtlMs : Z).

(** [apiRoot] is the option without its last slash. *)
Definition scope_key (sc : scope) : string := apiRoot +:+ "|" +:+ hypervisor_id sc +:+ "|" +:+ scope_node_id sc.

(** [load] before its await, at [Date.now() = t]. *)
Definition load_begin (sc : scope) (t : Z) (c : option cache_entry) : option payload :=
  match c with
  | Some e => if str_eqb (scopeKey e) (scope_key sc) && bool_decide (t < expiresAt e) then Some (cached_payload e) else None
  | None => None
  end.

(** [load] after it. *)
Definition load_commit (sc : scope) (p : payload) (t : Z) : option cache_entry := Some (CacheEntry (t + cacheTtlMs) (scope_key sc) p).

(** The two loaders, from the clock before and after a request and what it gives. *)
Definition load (sc : scope) (t : Z) (fetched : result api_error payload) (t' : Z)
  : method (option cache_entry) api_error payload :=
  let! c := jread in
  match load_begin sc t c with
  | Some p => jret p
  | None => let! p := jlift fetched in jwrite (load_commit sc p t') ;! jret p
  end.

Definition load_workspace (sc : scope) (t : Z) (fetched : result api_error payload) (t' now : Z)
  : method (option cache_entry) api_error snapshot :=
  let! p := load sc t fetched t' in jlift (createWorkspaceSnapshot p sc now).

Definition load_status (sc : scope) (t : Z) (fetched : result api_error payload) (t' now : Z)
  : method (option cache_entry) api_error status :=
  let! p := load sc t fetched t' in jlift (createNodeStatus p sc now).
End loaders.

(** ** The records *)

Lemma node_of_payload sc p node : nodeIdFor sc p = Ok node -> node = scope_node_id sc.
Proof. unfold nodeIdFor. intros H. inv_ok. by apply str_eqb_eq. Qed.

(** The Node a payload names: the fleet's, else the one of the sessions. *)
Definition payload_node (p : payload) : option string :=
  let of_fleet := stringValue (optional_text (fleet_node_id (pl_fleet p))) "" in
  let of_sessions := stringValue (field "node_id" (record (node_identity (pl_sessions p)))) "" in
  if truthy (Some of_fleet) then Some of_fleet else if truthy (Some of_sessions) then Some of_sessions else None.

Lemma nodeIdFor_spec sc p :
  nodeIdFor sc p = if bool_decide (payload_node p = None \/ payload_node p = Some (scope_node_id sc))
                   then Ok (scope_node_id sc) else Err (ApiError conflict "scope" None).
Proof.
  unfold nodeIdFor, payload_node, or_else. set (a := stringValue _ _). set (b := stringValue _ _).
  assert (Hx : forall x, (require (str_eqb x (scope_node_id sc)) (ApiError conflict "scope" None) ;? Ok x) =
    if bool_decide (Some x = None \/ Some x = Some (scope_node_id sc)) then Ok (scope_node_id sc) else Err (ApiError conflict "scope" None)).
  { intros x. destruct (str_eqb x (scope_node_id sc)) eqn:E; cbn [require rbind].
    - apply str_eqb_eq in E as ->. rewrite bool_decide_eq_true_2; auto.
    - rewrite bool_decide_eq_false_2; [done|]. intros [?|[= ->]]; [done|]. by rewrite str_eqb_refl in E. }
  destruct (truthy (Some a)); [apply Hx|]. destruct (truthy (Some b)); [apply Hx|].
  rewrite str_eqb_refl. cbn [require rbind]. rewrite bool_decide_eq_true_2; auto.
Qed.

(** The records of a payload: the Primary Agent, then one for each endpoint,
    session and bundle, each group in its order. *)
Record records_of (p : payload) (node : string) (revision : Z) (es : list entity) : Prop := {
  ro_primary : es !! 0%nat = Some (primary_entity p node revision);
  ro_endpoint i x : ep_items (pl_endpoints p) !! i = Some x ->
    es !! S i = Some (endpoint_entity p node revision (N.of_nat i) x);
  ro_session i x : ses_items (pl_sessions p) !! i = Some x ->
    es !! S (length (ep_items (pl_endpoints p)) + i) = Some (session_entity p node revision (N.of_nat i) x);
  ro_bundle i x : bundles (pl_fleet p) !! i = Some x ->
    es !! S (length (ep_items (pl_endpoints p)) + length (ses_items (pl_sessions p)) + i) =
      Some (bundle_entity p node revision (N.of_nat i) x);
  ro_length : length es = S (length (ep_items (pl_endpoints p)) + length (ses_items (pl_sessions p)) + length (bundles (pl_fleet p)));
}.

Lemma entityRecords_records p sc now es : entityRecords p sc now = Ok es -> records_of p (scope_node_id sc) (revisionFor now) es.
Proof.
  unfold entityRecords. intros H. inv_ok. match goal with H : nodeIdFor _ _ = Ok _ |- _ => apply node_of_payload in H as -> end. split.
  - done.
  - intros i x Hi. rewrite lookup_cons. cbv iota. rewrite lookup_app_l by (rewrite length_map_index; by eapply lookup_lt_Some).
    by rewrite lookup_map_index, Hi.
  - intros i x Hi. rewrite lookup_cons. cbv iota. rewrite lookup_app_r, length_map_index by (rewrite length_map_index; lia).
    rewrite lookup_app_l by (rewrite length_map_index; apply lookup_lt_Some in Hi; lia).
    rewrite lookup_map_index, Nat.add_sub_swap, Nat.sub_diag by done. cbn [Nat.add]. by rewrite Hi.
  - intros i x Hi. rewrite lookup_cons. cbv iota. rewrite !lookup_app_r; rewrite ?length_map_index; [|lia..].
    rewrite lookup_map_index. replace (_ + _ + i - _ - _)%nat with i by lia. by rewrite Hi.
  - cbn [length]. rewrite !length_app, !length_map_index. lia.
Qed.

(** What every record of a payload has in common. *)
Definition of_payload (node : string) (p : payload) (e : entity) : Prop :=
  en_node e = node /\ en_ref e = kind_text (kind_of e) +:+ ":" +:+ en_id e /\ en_freshness e = freshness_of (observedAt p).

Lemma map_index_Forall {A B} (P : B -> Prop) (f : N -> A -> B) i l : (forall i x, P (f i x)) -> Forall P (map_index f i l).
Proof. intros H. revert i. induction l as [|x l IH]; intros i; cbn [map_index]; constructor; auto. Qed.

Lemma entityRecords_ok p sc now es : entityRecords p sc now = Ok es ->
  exists rest, es = primary_entity p (scope_node_id sc) (revisionFor now) :: rest /\
    Forall (fun e => of_payload (scope_node_id sc) p e /\ has_role_primary e = false) rest /\
    length rest = (length (ep_items (pl_endpoints p)) + length (ses_items (pl_sessions p)) + length (bundles (pl_fleet p)))%nat.
Proof.
  unfold entityRecords. intros H. inv_ok. match goal with H : nodeIdFor _ _ = Ok _ |- _ => apply node_of_payload in H as -> end.
  eexists. split; [done|]. split.
  - by repeat (apply Forall_app; split); apply map_index_Forall; intros i x.
  - rewrite !length_app, !length_map_index. lia.
Qed.

(** Every relation starts at the Primary Agent and ends at an entity. *)
Lemma relationRecords_ok p sc now es rs q : relationRecords p sc now es = Ok rs -> List.find has_role_primary es = Some q ->
  Forall (fun r => re_node r = scope_node_id sc /\ re_source r = en_ref q /\ exists e, e ∈ es /\ re_target r = en_ref e) rs.
Proof.
  unfold relationRecords. intros H Hq. inv_ok. rewrite Hq in *. inv_ok.
  match goal with H : nodeIdFor _ _ = Ok _ |- _ => apply node_of_payload in H as -> end.
  apply Forall_forall. intros r [Hr|Hr]%elem_of_app; apply list_elem_of_fmap in Hr as (e & -> & He);
    apply list_elem_of_In, List.filter_In in He as [He _]; (split_and!; [done..|]); exists e; (split; [by apply list_elem_of_In | done]).
Qed.

Section laws.
Context {zod : Zod} {laws : ZodLaws zod}.

(** What the contract makes of an entity and of a relation. *)
Lemma entity_parsed e e' : spatialEntitySchema e = Some e' ->
  en_ref e' = trim (en_ref e) /\ en_ref e' <> ""%string /\ en_node e' = trim (en_node e) /\ kind_of e' = kind_of e /\
  has_role_primary e' = has_role_primary e.
Proof using laws.
  unfold spatialEntitySchema. intros H. inv_some.
  repeat match goal with H : idSchema _ = Some _ |- _ => apply idSchema_spec in H as [-> ?] end.
  match goal with H : entityDataSchema _ = Some _ |- _ => rename H into Hd end. cbn [en_ref en_node]. split_and!; try done;
    unfold kind_of, has_role_primary; cbn [en_data]; destruct (en_data e); cbn [entityDataSchema] in Hd; inv_some; done.
Qed.

Lemma relation_parsed r r' : spatialRelationSchema r = Some r' ->
  re_source r' = trim (re_source r) /\ re_target r' = trim (re_target r) /\ re_node r' = trim (re_node r).
Proof using laws.
  unfold spatialRelationSchema. intros H. inv_some.
  by repeat match goal with H : idSchema _ = Some _ |- _ => apply idSchema_spec in H as [-> _] end.
Qed.

Lemma snapshot_parsed s s' : spatialWorkspaceSchema s = Some s' ->
  sn_node s' = trim (sn_node s) /\ sn_primary s' = trim <$> sn_primary s /\
  Forall2 (fun e e' => spatialEntitySchema e = Some e') (entities s) (entities s') /\
  Forall2 (fun r r' => spatialRelationSchema r = Some r') (relations s) (relations s').
Proof using laws.
  unfold spatialWorkspaceSchema. intros H. inv_some.
  repeat match goal with H : z_array _ _ _ = Some _ |- _ => apply z_array_forall2 in H end.
  match goal with H : nullable idSchema (sn_primary s) = Some ?o |- _ =>
    assert (o = trim <$> sn_primary s) as -> by (destruct (sn_primary s) as [r|]; cbn in H;
      [by apply fmap_Some in H as (t & [-> _]%idSchema_spec & ->) | by injection H as <-]) end.
  by repeat match goal with H : idSchema _ = Some _ |- _ => apply idSchema_spec in H as [-> _] end.
Qed.

Lemma elem_of_parsed {A B} (f : A -> option B) l l' y : Forall2 (fun x y => f x = Some y) l l' -> y ∈ l' -> exists x, x ∈ l /\ f x = Some y.
Proof. intros H Hy. apply list_elem_of_lookup in Hy as [i Hi]. destruct (Forall2_lookup_r _ _ _ _ _ H Hi) as (x & Hx & E). exists x. split; [by eapply list_elem_of_lookup_2|done]. Qed.

Lemma parsed_elem_of {A B} (f : A -> option B) l l' x : Forall2 (fun x y => f x = Some y) l l' -> x ∈ l -> exists y, y ∈ l' /\ f x = Some y.
Proof. intros H Hx. apply list_elem_of_lookup in Hx as [i Hi]. destruct (Forall2_lookup_l _ _ _ _ _ H Hi) as (y & Hy & E). exists y. split; [by eapply list_elem_of_lookup_2|done]. Qed.

Lemma created_snapshot p sc now s : createWorkspaceSnapshot p sc now = Ok s ->
  nodeIdFor sc p = Ok (scope_node_id sc) /\ sn_node s = trim (scope_node_id sc) /\
  Forall (fun e => en_node e = sn_node s) (entities s) /\
  length (entities s) =
    S (length (ep_items (pl_endpoints p)) + length (ses_items (pl_sessions p)) + length (bundles (pl_fleet p))) /\
  exists q rest, entities s = q :: rest /\ has_role_primary q = true /\ Forall (fun e => has_role_primary e = false) rest /\
    sn_primary s = Some (en_ref q) /\ en_ref q <> ""%string /\
    Forall (fun r => re_node r = sn_node s /\ re_source r = en_ref q /\ re_target r ∈ map en_ref (entities s)) (relations s).
Proof using laws.
  intros H. unfold createWorkspaceSnapshot in H. inv_ok.
  match goal with H : entityRecords _ _ _ = Ok ?l |- _ => rename H into He, l into es end.
  match goal with H : relationRecords _ _ _ _ = Ok ?l |- _ => rename H into Hr, l into rs end.
  match goal with H : nodeIdFor _ _ = Ok _ |- _ => pose proof H as Hn; apply node_of_payload in H as -> end.
  match goal with H : spatialWorkspaceSchema _ = Some s |- _ => rename H into Hs end.
  apply entityRecords_ok in He as (rest & -> & Hrest & Hlen). set (q := primary_entity _ _ _) in *.
  assert (Hq : List.find has_role_primary (q :: rest) = Some q) by done. pose proof (relationRecords_ok _ _ _ _ _ _ Hr Hq) as Hrs.
  rewrite Hq in Hs. apply snapshot_parsed in Hs as (Hnode & Hprim & Hes & Hrels).
  cbn [sn_node WorkspaceRepo.entities WorkspaceRepo.relations sn_primary fmap option_fmap option_map] in *.
  inversion Hes as [|? q' ? rest' Hq' Hrest' Eq1 Eq2]. subst. rewrite <-Eq2 in Hes. rewrite Hnode.
  destruct (entity_parsed _ _ Hq') as (Eref & Hne' & Enode & _ & Erole).
  split_and!; try done.
  - apply Forall_cons. split; [done|]. apply Forall_forall. intros e' He'.
    destruct (elem_of_parsed _ _ _ _ Hrest' He') as (e & Hin & Hp). destruct (entity_parsed _ _ Hp) as (_ & _ & -> & _).
    rewrite Forall_forall in Hrest. by destruct (Hrest e Hin) as [[-> _] _].
  - cbn [length]. by rewrite <-(Forall2_length _ _ _ Hrest'), Hlen.
  - exists q', rest'. split_and!; try done; [| |].
    + apply Forall_forall. intros e' He'. destruct (elem_of_parsed _ _ _ _ Hrest' He') as (e & Hin & Hp).
      destruct (entity_parsed _ _ Hp) as (_ & _ & _ & _ & ->). rewrite Forall_forall in Hrest. by destruct (Hrest e Hin) as [_ ->].
    + by rewrite Eref.
    + apply Forall_forall. intros r' Hr'. destruct (elem_of_parsed _ _ _ _ Hrels Hr') as (r & Hin & Hp).
      destruct (relation_parsed _ _ Hp) as (-> & -> & ->). rewrite Forall_forall in Hrs. destruct (Hrs r Hin) as (-> & -> & e & Hine & ->).
      split_and!; [done | by rewrite Eref|]. destruct (parsed_elem_of _ _ _ _ Hes Hine) as (e' & Hine' & Hpe).
      destruct (entity_parsed _ _ Hpe) as (<- & _). by apply list_elem_of_fmap_2.
Qed.

(** Its entities are what the contract makes of the records, one of each. *)
Lemma created_entities p sc now s : createWorkspaceSnapshot p sc now = Ok s ->
  exists es, records_of p (scope_node_id sc) (revisionFor now) es /\
    Forall2 (fun e e' => spatialEntitySchema e = Some e' /\ en_ref e' = trim (en_ref e) /\ kind_of e' = kind_of e) es (entities s).
Proof using laws.
  unfold createWorkspaceSnapshot. intros H. inv_ok.
  match goal with H : entityRecords _ _ _ = Ok ?l |- _ => exists l; split; [by apply entityRecords_records|] end.
  match goal with H : spatialWorkspaceSchema _ = Some s |- _ => apply snapshot_parsed in H as (_ & _ & Hes & _) end.
  eapply Forall2_impl; [exact Hes|]. intros e e' He. destruct (entity_parsed _ _ He) as (? & _ & _ & ? & _). done.
Qed.

(** C31. What the dashboard shows of a Node is that Node's and is closed. A payload
    that names another Node gives a conflict and no snapshot. In a snapshot that is
    made the entities are, in order, what the contract makes of the Primary Agent's
    record and of one record for each endpoint, each session and each bundle of
    the payload, each with the reference (trimmed) and kind of its record and all of
    the scope's Node; the Primary Agent's is the one primary entity and the one the
    snapshot names; and each of its relations leads from the Primary Agent to one
    of its entities. *)
Theorem dashboard_snapshot_is_closed p sc now :
  (forall node, payload_node p = Some node -> node <> scope_node_id sc ->
     createWorkspaceSnapshot p sc now = Err (ApiError conflict "scope" None)) /\
  forall s, createWorkspaceSnapshot p sc now = Ok s ->
    (payload_node p = None \/ payload_node p = Some (scope_node_id sc)) /\ sn_node s = trim (scope_node_id sc) /\
    Forall (fun e => en_node e = sn_node s) (entities s) /\
    (exists es, records_of p (scope_node_id sc) (revisionFor now) es /\
       Forall2 (fun e e' => spatialEntitySchema e = Some e' /\ en_ref e' = trim (en_ref e) /\ kind_of e' = kind_of e) es (entities s)) /\
    exists q rest, entities s = q :: rest /\ has_role_primary q = true /\ Forall (fun e => has_role_primary e = false) rest /\
      sn_primary s = Some (en_ref q) /\ en_ref q <> ""%string /\
      Forall (fun r => re_node r = sn_node s /\ re_source r = en_ref q /\ re_target r ∈ map en_ref (entities s)) (relations s).
Proof using laws.
  split.
  - intros node Hp Hne. unfold createWorkspaceSnapshot, entityRecords. rewrite nodeIdFor_spec, bool_decide_eq_false_2; [done|].
    rewrite Hp. by intros [?|[= ?]].
  - intros s H. pose proof (created_entities _ _ _ _ H) as He. apply created_snapshot in H as (Hn & ? & ? & _ & Hq). split_and!; try done.
    rewrite nodeIdFor_spec in Hn. by case_bool_decide.
Qed.

(** Drawn as a workspace ([ViewModels]), a snapshot of the dashboard has its
    Primary Agent's presence and no relation: all its relations lead from the
    Primary Agent, which is not among the entities they are drawn between. *)
Theorem dashboard_relations_are_not_drawn {math : HostMath} p sc now s ns profile : createWorkspaceSnapshot p sc now = Ok s ->
  let v := composeSpatialWorkspaceViewModel s ns profile in
  wv_relations v = [] /\ exists a, primaryAgent v = Some a /\ sn_primary s = Some (pv_ref a).
Proof using laws.
  intros (_ & _ & _ & _ & q & rest & He & Hrole & _ & Hp & Hne & Hrs)%created_snapshot v.
  assert (Hq : exists x, primary_of s = Some x /\ en_ref x = en_ref q).
  { unfold primary_of. rewrite Hp. assert (Ht : truthy (Some (en_ref q)) = true) by (apply truthy_some; eauto). rewrite Ht.
    destruct (List.find _ _) as [x|] eqn:Hf; [apply find_hit in Hf as [_ [_ Hx]%andb_true_iff]; apply str_eqb_eq in Hx; by exists x|].
    apply find_filter_none in Hf. rewrite Forall_forall in Hf. specialize (Hf q). rewrite role_is_agent, str_eqb_refl in Hf by done.
    discriminate Hf. apply kept_entity. rewrite He. cbn [List.find]. by rewrite str_eqb_refl. }
  destruct Hq as (x & Hx & Ex). split.
  - destruct (wv_relations v) as [|rv rvs] eqn:Hv; [done|]. exfalso.
    assert (Hin : rv ∈ wv_relations v) by (rewrite Hv; by left). apply drawn_relation in Hin as (r & a & b & Hr & Ha & _ & Ea & _).
    apply shown_entity in Ha as (e & _ & Hnot & ->). rewrite Forall_forall in Hrs. destruct (Hrs r Hr) as (_ & Es & _).
    apply (Hnot x Hx). rewrite Ex, <-Es. done.
  - exists (toPrimaryAgentViewModel x profile). split; [|by rewrite Hp, <-Ex]. cbn. by rewrite Hx.
Qed.

(** ** The status *)

(** The states the Primary Agent can have, and those a Node component can. *)
Lemma primary_state_named r t st : node_state_named (primaryState r t).1 = Some st -> (primaryState r t).1 ∈ ["READY"; "OFFLINE"]%string.
Proof.
  unfold primaryState. destruct (negb _ || _ || _); [intros _; cbn; set_solver|]. destruct (_ || _); [by intros [=]|].
  destruct (existsb _ primary_states) eqn:E; [|intros _; cbn; set_solver]. cbn [fst]. unfold primary_states in E. cbn [existsb] in E.
  repeat (apply orb_true_iff in E as [->%str_eqb_eq|E]; [first [intros _; set_solver | by intros [=]]|]). done.
Qed.

(** A status is degraded exactly when the Primary Agent is not available and partial
    exactly when a source failed; all its evidence is fresh, and the Primary
    Agent's component shows a state that Node components have. *)
Theorem status_of_a_payload p sc now st : createNodeStatus p sc now = Ok st ->
  nodeIdFor sc p = Ok (scope_node_id sc) /\
  (st_state st = Status.DEGRADED <-> (primaryState (residentAgent p) (statusSummary p)).2 <> AV_AVAILABLE) /\
  (partial st = true <-> failures p <> []) /\ fr_state (st_freshness st) = F_FRESH /\
  Forall (fun c => fr_state (co_freshness c) = F_FRESH) (components st) /\
  (primaryState (residentAgent p) (statusSummary p)).1 ∈ ["READY"; "OFFLINE"]%string.
Proof using laws.
  unfold createNodeStatus. intros H. inv_ok. match goal with H : nodeIdFor _ _ = Ok _ |- _ => pose proof H as Hn; apply node_of_payload in H as -> end.
  match goal with H : _ = Some st |- _ => apply bind_Some in H as (pst & Hst & Hs) end.
  apply statusSchema_keeps in Hs as (-> & -> & _ & -> & _ & Hc). cbn [raw_status st_state partial st_freshness freshness_of fr_state].
  assert (Hav : (primaryState (residentAgent p) (statusSummary p)).2 <> AV_UNKNOWN) by (unfold primaryState; repeat case_match; done).
  split_and!; try done.
  - destruct (primaryState (residentAgent p) (statusSummary p)).2; naive_solver.
  - rewrite negb_true_iff, bool_decide_eq_false. done.
  - apply Forall_forall. intros c Hin. destruct (elem_of_parsed _ _ _ _ Hc Hin) as (c0 & Hin0 & (_ & _ & _ & -> & _)%componentSchema_keeps).
    revert c0 Hin0. apply Forall_forall. by repeat constructor.
  - revert Hst. apply primary_state_named.
Qed.
End laws.

(** ** Loading *)

(** A dashboard request fails as a request of the transport does; what it delivers
    is what the schema makes of a successful answer. *)
Theorem dashboard_request_exact {T} JSON_parse apiRoot path (schema : json -> option T) sc host :
  requestDashboard JSON_parse apiRoot path schema sc host =
    (let? v := settle JSON_parse path (host (dashboard_request apiRoot path sc)) in
     of_option (schema v) (ApiError malformed path
       (match host (dashboard_request apiRoot path sc) with Answered st _ => Some st | Failed _ _ => None end))).
Proof.
  unfold requestDashboard, settle, responseError. destruct (host _) as [t c|st text]; [done|].
  destruct (payload_of JSON_parse text); cbn [of_option rbind]; [|done]. by destruct (response_ok st).
Qed.

(** Nothing is shown only when the first four sources all failed, and then the
    error is the first one's; otherwise the payload names the sources that failed,
    in their order. *)
Theorem partial_outage_is_reported sc rf re rs ra rt now :
  match loadDashboardPayload sc rf re rs ra rt now with
  | Err e => rf = Err e /\ is_ok re = false /\ is_ok rs = false /\ is_ok ra = false
  | Ok p => (is_ok rf || is_ok re || is_ok rs || is_ok ra = true) /\
      failures p = List.filter (fun path => match jget path
          [("/operators/dashboard/fleet", is_ok rf); ("/operators/dashboard/endpoints", is_ok re); ("/operators/dashboard/sessions", is_ok rs);
           ("/operators/dashboard/steward", is_ok ra); ("/operators/dashboard/status/summary", is_ok rt)]%string
          with Some ok => negb ok | None => false end)
        ["/operators/dashboard/fleet"; "/operators/dashboard/endpoints"; "/operators/dashboard/sessions"; "/operators/dashboard/steward";
         "/operators/dashboard/status/summary"]%string
  end.
Proof. unfold loadDashboardPayload. destruct rf, re, rs, ra, rt; done. Qed.

(** Ids without the separator of the cache key. *)
Definition no_bar (s : string) : Prop := forallb (fun c => negb (Ascii.eqb c "|")) (String.list_ascii_of_string s) = true.

Lemma bar_inj a b x y : no_bar a -> no_bar b -> a +:+ "|" +:+ x = b +:+ "|" +:+ y -> a = b /\ x = y.
Proof.
  unfold no_bar. revert b. induction a as [|c a IH]; intros [|d b] Ha Hb H; simpl in *; injection H as H.
  - done.
  - subst d. done.
  - subst c. done.
  - subst d. apply andb_true_iff in Ha as [_ Ha], Hb as [_ Hb]. destruct (IH b) as [-> ->]; done.
Qed.

Section cache.
Context (apiRoot : string) (ttl : Z).

(** The requests that were answered, newest first, and the cache they leave,
    in whatever order their loads began. *)
Inductive cached_after : list (scope * payload * Z) -> option cache_entry -> Prop :=
| ca_none : cached_after [] None
| ca_commit h c sc p t : cached_after h c -> cached_after ((sc, p, t) :: h) (load_commit apiRoot ttl sc p t).

(** A load that sends no request serves what a request for the same scope was
    answered with less than the lifetime of the cache ago. *)
Theorem cache_serves_its_scope h c sc t p : cached_after h c ->
  no_bar (hypervisor_id sc) -> Forall (fun x => no_bar (hypervisor_id x.1.1)) h ->
  load_begin apiRoot sc t c = Some p -> exists t', (sc, p, t') ∈ h /\ t < t' + ttl.
Proof.
  intros Hc Hb Hh Hl. destruct Hc as [|h c sc' p' t' Hc]; [done|]. cbn [load_commit load_begin scopeKey expiresAt cached_payload] in Hl.
  destruct (str_eqb _ _) eqn:Hk; [|done]. case_bool_decide as Ht; [|done]. injection Hl as ->. apply str_eqb_eq in Hk.
  apply Forall_cons in Hh as [Hb' _]. cbn in Hb'. unfold scope_key in Hk.
  assert (He : forall a b c : string, a +:+ b = a +:+ c -> b = c).
  { intros a b e. induction a as [|x a IH]; [done|]. rewrite !sapp_cons. intros [= ?]. by apply IH. }
  apply He in Hk. rewrite !sapp_cons, !sapp_nil in Hk. injection Hk as Hk. apply bar_inj in Hk as [E1 E2]; [|done..].
  exists t'. split; [|done]. destruct sc, sc'. cbn in *. subst. by left.
Qed.
End cache.

(** A palette answers for every key with one of its colours, or with the grey of
    what is not available. *)
Theorem palette_has_a_colour palette key state : palette <> [] ->
  exists c, paletteColor palette key state = Some c /\ c ∈ "#aab5c4"%string :: palette.
Proof.
  intros Hne. unfold paletteColor. destruct (_ || _); [exists "#aab5c4"%string; split; [done | by left]|].
  assert (Hl : 0 < Z.of_nat (length palette)) by (destruct palette; [done | cbn; lia]).
  pose proof (Z.mod_pos_bound (hash key) _ Hl) as Hm.
  destruct (lookup_lt_is_Some_2 palette (Z.to_nat (hash key mod Z.of_nat (length palette)))) as [c Hc]; [lia|].
  exists c. split; [done|]. right. by eapply list_elem_of_lookup_2.
Qed.

(** The hash of the view models and of the adapter is an unsigned 32-bit number. *)
Theorem hash_is_uint32 s : 0 <= hash s < 2 ^ 32.
Proof. unfold hash, positionHash, to_uint32. pose proof (Z.mod_pos_bound (fnv1a_loop 2166136261 s) (2 ^ 32)). lia. Qed.

Module DashboardWitness.
#[local] Existing Instance zod_ref.

Definition sc : scope := Scope "hv" "node-1".
Definition ep (id : string) : endpoint_item := EndpointItem id (Some "Chat"%string) None ["chat"%string] true "published" "running" None.
Definition ses : jsmap value :=
  [("session", VObj [("session_id", VStr "s-1"); ("status", VStr "active"); ("client_wallet", VStr "w-1")])]%string.
Definition payload_with (node : option string) (state : string) (eps : list endpoint_item) : payload :=
  Payload None (Fleet node [BundleItem "b-1" 2 "m" true None] 1) (EndpointPayload eps 1) (SessionDashboard VUndefined 1 [ses])
    (Some (ResidentAgent state true "repo")) None ["/operators/dashboard/status/summary"%string] 5000.
Definition made : result api_error snapshot := createWorkspaceSnapshot (payload_with (Some "node-1"%string) "ready" [ep "e-1"; ep ""]) sc 9000.

Lemma dashboard_snapshot_is_closed_witness :
  createWorkspaceSnapshot (payload_with (Some "node-2"%string) "ready" []) sc 9000 = Err (ApiError conflict "scope" None) /\
  match made with
  | Ok s => sn_node s = "node-1"%string /\ exists e, entities s !! 4%nat = Some e /\ kind_of e = k_artifact
  | Err _ => False
  end.
Proof.
  split; [apply (proj1 (dashboard_snapshot_is_closed (payload_with (Some "node-2"%string) "ready" []) sc 9000) "node-2"%string); [reflexivity | discriminate]|].
  destruct made as [s|e] eqn:H; [|by vm_compute in H].
  destruct (proj2 (dashboard_snapshot_is_closed (payload_with (Some "node-1"%string) "ready" [ep "e-1"; ep ""]) sc 9000) s H)
    as (_ & Hn & _ & (es & Hes & Hf) & _).
  split; [exact Hn|]. pose proof (ro_bundle _ _ _ _ Hes 0%nat (BundleItem "b-1" 2 "m" true None) eq_refl) as Hb. cbn in Hb.
  destruct (Forall2_lookup_l _ _ _ _ _ Hf Hb) as (e & He & _ & _ & Hk). exists e. split; [exact He|]. rewrite Hk. reflexivity.
Defined.

Lemma dashboard_relations_witness :
  match made with Ok s => wv_relations (composeSpatialWorkspaceViewModel (math := ViewModelsWitness.math) s None desktop) = [] | Err _ => False end.
Proof.
  destruct made as [s|e] eqn:H; [|by vm_compute in H].
  apply (dashboard_relations_are_not_drawn (math := ViewModelsWitness.math) _ _ _ _ None desktop H).
Defined.

Lemma status_of_a_payload_witness :
  match createNodeStatus (payload_with None "ready" []) sc 9000 with Ok st => partial st = true | Err _ => False end.
Proof.
  destruct (createNodeStatus (payload_with None "ready" []) sc 9000) as [st|e] eqn:H; [|by vm_compute in H].
  apply (status_of_a_payload _ _ _ _ H). done.
Defined.

Lemma cache_serves_witness :
  exists p t', load_begin "" sc 4000 (load_commit "" 4000 sc p 1000) = Some p /\ (sc, p, t') ∈ [(sc, p, 1000)] /\ 4000 < t' + 4000.
Proof.
  exists (payload_with None "ready" []).
  destruct (cache_serves_its_scope "" 4000 [(sc, payload_with None "ready" [], 1000)] (load_commit "" 4000 sc (payload_with None "ready" []) 1000) sc 4000
              (payload_with None "ready" [])) as (t' & Hin & Ht).
  - apply (ca_commit "" 4000 [] None), ca_none.
  - reflexivity.
  - by repeat constructor.
  - reflexivity.
  - exists t'. split; [reflexivity|]. by split.
Defined.

(** The records of a payload, in order, with their states. *)
Example records :
  match made with
  | Ok s => map (fun e => (en_ref e, en_state e)) (entities s) =
      [("agent:primary-agent-node-1", "READY"); ("endpoint:e-1", "READY"); ("endpoint:endpoint-2", "READY"); ("session:s-1", "ACTIVE");
       ("artifact:b-1", "READY")]%string
  | Err _ => False
  end.
Proof. vm_compute. done. Qed.
Example slugs : slug "--Node 12 / A--" = "node-12-a"%string /\ slug "***" = "node"%string.
Proof. vm_compute. done. Qed.
End DashboardWitness.

(** ** Edge behaviour *)

Section edges.
Context {zod : Zod} {laws : ZodLaws zod}.

(** While the Primary Agent needs attention there is no Node status at all: the
    state it is given is none a Node component can have. *)
Theorem attention_hides_the_status p sc now st av :
  primaryState (residentAgent p) (statusSummary p) = (st, av) -> st <> "READY"%string -> st <> "OFFLINE"%string ->
  nodeIdFor sc p = Ok (scope_node_id sc) ->
  createNodeStatus p sc now = Err (ApiError malformed "/operators/dashboard/status/summary" None).
Proof.
  intros Hp Hr Ho Hn. destruct (createNodeStatus p sc now) as [s|e] eqn:H.
  - exfalso. unfold createNodeStatus in H. inv_ok. match goal with H : _ = Some s |- _ => apply bind_Some in H as (x & Hx & _) end.
    apply primary_state_named in Hx. rewrite Hp in Hx. cbn in Hx. rewrite !elem_of_cons in Hx. destruct Hx as [?|[?|?%not_elem_of_nil]]; done.
  - unfold createNodeStatus in H. rewrite Hn in H. cbn [rbind] in H. destruct (_ ≫= _); cbn [of_option] in H; congruence.
Qed.

(** A resident agent that reports a degraded state is one. *)
Theorem degraded_agent_hides_the_status sc now :
  let p := DashboardWitness.payload_with None "degraded" [] in
  nodeIdFor sc p = Ok (scope_node_id sc) /\
  createNodeStatus p sc now = Err (ApiError malformed "/operators/dashboard/status/summary" None).
Proof using laws.
  intros p. assert (Hn : nodeIdFor sc p = Ok (scope_node_id sc)).
  { unfold nodeIdFor, p, or_else. cbn. rewrite str_eqb_refl. done. }
  split; [done|]. by apply (attention_hides_the_status p sc now "ATTENTION" AV_DEGRADED).
Qed.

Lemma snapshot_error p sc now e : nodeIdFor sc p = Ok (scope_node_id sc) -> createWorkspaceSnapshot p sc now = Err e ->
  e = ApiError malformed "/operators/dashboard" None.
Proof.
  intros Hn. unfold createWorkspaceSnapshot, entityRecords, relationRecords. rewrite Hn. cbn [rbind].
  destruct (List.find _ _); cbn [rbind]; destruct (spatialWorkspaceSchema _); cbn [of_option]; congruence.
Qed.

(** One endpoint with an empty capability leaves the whole workspace without a
    snapshot. *)
Theorem one_bad_capability_hides_the_workspace :
  exists p, createWorkspaceSnapshot p DashboardWitness.sc 9000 = Err (ApiError malformed "/operators/dashboard" None) /\
    length (ep_items (pl_endpoints p)) = 2%nat.
Proof using laws.
  exists (DashboardWitness.payload_with None "ready"
    [DashboardWitness.ep "e-1"; EndpointItem "e-2" None None [""%string] false "published" "running" None]).
  split; [|done]. destruct (createWorkspaceSnapshot _ _ _) as [s|e] eqn:H; [exfalso|].
  - unfold createWorkspaceSnapshot in H. inv_ok. match goal with H : spatialWorkspaceSchema _ = Some s |- _ => rename H into Hs end.
    match goal with H : entityRecords _ _ _ = Ok ?l |- _ => rename H into He, l into es end.
    apply snapshot_parsed in Hs as (_ & _ & Hes & _). cbn [WorkspaceRepo.entities] in Hes. vm_compute in He. injection He as <-.
    inversion Hes as [|? ? ? ? _ Hes']. inversion Hes' as [|? ? ? ? _ Hes'']. inversion Hes'' as [|? ? ? ? Hx _]. subst.
    clear -Hx laws. unfold spatialEntitySchema in Hx. inv_some.
    match goal with H : entityDataSchema _ = Some _ |- _ => cbn [entityDataSchema en_data] in H end. inv_some.
    match goal with H : z_array idSchema _ _ = Some _ |- _ => apply z_array_forall2 in H; inversion H as [|? ? ? ? Hi _]; subst end.
    by apply idSchema_spec in Hi as [-> Hne].
  - f_equal. refine (snapshot_error _ DashboardWitness.sc 9000 e _ H). reflexivity.
Qed.

(** Two scopes can share a cache entry. *)
Theorem cache_keys_collide root : scope_key root (Scope "a|b" "c") = scope_key root (Scope "a" "b|c").
Proof. done. Qed.
End edges.
