(* ===== verification/Navigation.v ===== *)
(** * Gestures and the camera

    src/web/operator-dashboard/src/spatial/multidevice/navigation.ts: the state
    machine that turns pointer and key events into navigation commands; and
    prototype/camera.ts: the operations of the camera. Coordinates, times and
    zooms are finite and exact; a distance is compared by its square. *)

From Stdlib Require Import QArith Qabs Qminmax Lqa.
From stdpp Require Import relations.
From S2P Require Import Prelude.
From S2P Require Import Numbers.

#[local] Open Scope Z_scope.

(** ** Gestures *)

Inductive gesture_state : Type := IDLE | PANNING | PINCHING | LONG_PRESS_PENDING | SEED_READY | CANCELLED.
#[export] Instance gesture_state_eq_dec : EqDecision gesture_state.
Proof. solve_decision. Defined.

Inductive direction : Type := forward | backward.

(** [MobileNavigationCommand]. *)
Inductive command : Type :=
| PAN (dx dy : Q)
| ROTATE (dx dy : Q)
| ZOOM (scale : jsnum)
| SELECT (ref : option string)
| SEED
| FOCUS_NEXT (d : direction)
| HOME
| CANCEL.

Inductive target : Type := canvas | on_entity | form | scroll | button.
#[export] Instance target_eq_dec : EqDecision target.
Proof. solve_decision. Defined.

Inductive gesture_mode : Type := pan | rotate.

(** [MobileNavigationState]. *)
Record navigation : Type := Navigation {
  ns_state : gesture_state;
  startX : Q;
  startY : Q;
  lastX : Q;
  lastY : Q;
  startTime : Q;
  pointerCount : Z;
  captureScroll : bool;
  gestureMode : gesture_mode;
}.

Inductive key : Type := K_Home | K_Escape | K_ArrowLeft | K_ArrowRight.

(** [MobileGestureEvent]. *)
Inductive event : Type :=
| pointerdown (x y : Q) (count : option Z) (t : target) (mode : option gesture_mode) (time : option Q)
| pointermove (x y : Q) (count : option Z)
| pointerup (x y : Q) (t : target) (time : option Q) (selectedRef : option string)
| pinch (scale : jsnum)
| cancel
| keyboard (k : key).

Definition MOBILE_LONG_PRESS_MS : Q := 520.
Definition MOBILE_DRAG_THRESHOLD_PX : Q := 10.
Definition MOBILE_SWIPE_THRESHOLD_PX : Q := 56.

Definition createMobileNavigationState : navigation := Navigation IDLE 0 0 0 0 0 0 false pan.

Definition q_lt (a b : Q) : bool := negb (Qle_bool b a).

Definition shouldCaptureMobileGesture (t : target) (dx dy : Q) : bool :=
  match t with
  | form | button => false
  | canvas | on_entity => true
  | scroll => q_lt MOBILE_DRAG_THRESHOLD_PX (Qabs dx) && Qle_bool (Qabs dy * (11 # 10)) (Qabs dx)
  end.

(** [Math.hypot(dx, dy)], squared. *)
Definition hypot2 (dx dy : Q) : Q := dx * dx + dy * dy.
Definition threshold2 : Q := MOBILE_DRAG_THRESHOLD_PX * MOBILE_DRAG_THRESHOLD_PX.

Definition set_state (st : gesture_state) (n : navigation) : navigation :=
  Navigation st (startX n) (startY n) (lastX n) (lastY n) (startTime n) (pointerCount n) (captureScroll n) (gestureMode n).
Definition set_capture (b : bool) (n : navigation) : navigation :=
  Navigation (ns_state n) (startX n) (startY n) (lastX n) (lastY n) (startTime n) (pointerCount n) b (gestureMode n).
Definition set_count (c : Z) (n : navigation) : navigation :=
  Navigation (ns_state n) (startX n) (startY n) (lastX n) (lastY n) (startTime n) c (captureScroll n) (gestureMode n).
Definition set_last (x y : Q) (n : navigation) : navigation :=
  Navigation (ns_state n) (startX n) (startY n) x y (startTime n) (pointerCount n) (captureScroll n) (gestureMode n).

Definition handleMobileGesture (n : navigation) (ev : event) : navigation * option command :=
  match ev with
  | cancel => (set_capture false (set_state CANCELLED n), Some CANCEL)
  | keyboard K_Home => (set_state IDLE n, Some HOME)
  | keyboard K_Escape => (set_state CANCELLED n, Some CANCEL)
  | keyboard K_ArrowRight => (set_state IDLE n, Some (FOCUS_NEXT forward))
  | keyboard K_ArrowLeft => (set_state IDLE n, Some (FOCUS_NEXT backward))
  | pointerdown x y count t mode time =>
      let count := default 1 count in
      if bool_decide (t = form) || bool_decide (t = button)
      then (set_capture false (set_count count (set_state IDLE n)), None)
      else (Navigation (if bool_decide (1 < count) then PINCHING else LONG_PRESS_PENDING) x y x y (default 0%Q time) count
              (bool_decide (1 < count) || bool_decide (t = canvas) || bool_decide (t = on_entity)) (default pan mode), None)
  | pinch scale => (set_capture true (set_count 2 (set_state PINCHING n)), Some (ZOOM (num_max (Finite (1 # 10)) scale)))
  | pointermove x y count =>
      let count := default (pointerCount n) count in
      if bool_decide (1 < count) then (set_capture true (set_count count (set_last x y (set_state PINCHING n))), None)
      else if negb (captureScroll n) || Qle_bool (hypot2 (x - startX n) (y - startY n)) threshold2 then (set_last x y n, None)
      else (set_capture true (set_count count (set_last x y (set_state PANNING n))),
            Some (match gestureMode n with
                  | rotate => ROTATE (x - lastX n) (y - lastY n)
                  | pan => PAN (x - lastX n) (y - lastY n)
                  end))
  | pointerup x y t time ref =>
      let dx := (x - startX n)%Q in
      let dy := (y - startY n)%Q in
      let elapsed := (default (startTime n) time - startTime n)%Q in
      if bool_decide (ns_state n = LONG_PRESS_PENDING) && q_lt (hypot2 dx dy) threshold2 && Qle_bool MOBILE_LONG_PRESS_MS elapsed
      then (set_capture false (set_state (if bool_decide (t = canvas) then SEED_READY else IDLE) n),
            Some (if bool_decide (t = canvas) then SEED else SELECT ref))
      else if bool_decide (ns_state n = PANNING) || Qle_bool threshold2 (hypot2 dx dy)
      then (set_capture false (set_state IDLE n),
            Some (if Qle_bool MOBILE_SWIPE_THRESHOLD_PX (Qabs dx) && q_lt (Qabs dy * (12 # 10)) (Qabs dx)
                  then FOCUS_NEXT (if q_lt dx 0 then forward else backward)
                  else PAN dx dy))
      else if bool_decide (t = on_entity) then (set_state IDLE n, Some (SELECT ref))
      else (set_capture false (set_state IDLE n), None)
  end.

(** [mobileKeyboardEquivalent]; any other key is Escape. *)
Definition mobileKeyboardEquivalent (k : string) : navigation * option command :=
  handleMobileGesture createMobileNavigationState
    (keyboard (default K_Escape (jget k [("Home", K_Home); ("Escape", K_Escape); ("ArrowLeft", K_ArrowLeft); ("ArrowRight", K_ArrowRight)]%string))).

(** The state after a sequence of events. *)
Definition after (evs : list event) : navigation := foldl (fun n ev => (handleMobileGesture n ev).1) createMobileNavigationState evs.

(** ** The camera *)

(** [SpatialCameraState]. *)
Record camera_state : Type := CameraState { cs_x : Q; cs_y : Q; cs_zoom : Q; focusId : option string; transitionToken : Z }.

Definition minX : Q := -45 # 10.
Definition maxX : Q := 45 # 10.
Definition minY : Q := -3.
Definition maxY : Q := 3.
Definition minZoom : Q := 72 # 100.
Definition maxZoom : Q := 155 # 100.

Definition HOME_CAMERA : camera_state := CameraState 0 (1 # 2) 1 None 0.
Definition FOCUS_PRIMARY_AGENT : string := "primary-agent".

Definition clamp_to (lo hi v : Q) : Q := Qmin hi (Qmax lo v).

Definition clampSpatialCamera (c : camera_state) : camera_state :=
  CameraState (clamp_to minX maxX (cs_x c)) (clamp_to minY maxY (cs_y c)) (clamp_to minZoom maxZoom (cs_zoom c)) (focusId c)
    (transitionToken c).

Definition homeSpatialCamera (c : camera_state) : camera_state :=
  CameraState (cs_x HOME_CAMERA) (cs_y HOME_CAMERA) (cs_zoom HOME_CAMERA) (focusId HOME_CAMERA) (transitionToken c + 1).

(** An entity is focused by its id and its position. *)
Definition focusSpatialEntity (c : camera_state) (id : string) (x y : Q) : camera_state :=
  clampSpatialCamera (CameraState x y (128 # 100) (Some id) (transitionToken c + 1)).

Definition focusPrimaryAgent (c : camera_state) : camera_state := focusSpatialEntity c FOCUS_PRIMARY_AGENT 0 (42 # 100).

Definition returnFromSpatialFocus (c : camera_state) : camera_state := homeSpatialCamera c.

Definition zoomSpatialCamera (c : camera_state) (delta : Q) : camera_state :=
  clampSpatialCamera (CameraState (cs_x c) (cs_y c) (cs_zoom c + delta) (focusId c) (transitionToken c + 1)).

Definition panSpatialCamera (c : camera_state) (dx dy : Q) : camera_state :=
  let z := Qmax (cs_zoom c) (1 # 10) in
  clampSpatialCamera (CameraState (cs_x c + dx / z) (cs_y c + dy / z) (cs_zoom c) None (transitionToken c + 1)).

Definition rotateSpatialCamera (c : camera_state) (dx dy : Q) : camera_state :=
  panSpatialCamera c (dx * (7 # 10)) (dy * (7 # 10)).

Definition cameraForViewport (c : camera_state) (width height : Q) : camera_state :=
  if Qeq_bool width 0 || Qeq_bool height 0 then c
  else
    let limit := if q_lt (width / height) 1 then (maxX * (72 # 100))%Q else maxX in
    CameraState (clamp_to (- limit) limit (cs_x c)) (cs_y c) (cs_zoom c) (focusId c) (transitionToken c).

Definition cameraTransitionDuration (prefersReducedMotion : bool) : Z := if prefersReducedMotion then 0 else 220.

(** One use of the camera. *)
Inductive camera_step : camera_state -> camera_state -> Prop :=
| c_home c : camera_step c (homeSpatialCamera c)
| c_focus c id x y : camera_step c (focusSpatialEntity c id x y)
| c_primary c : camera_step c (focusPrimaryAgent c)
| c_return c : camera_step c (returnFromSpatialFocus c)
| c_zoom c d : camera_step c (zoomSpatialCamera c d)
| c_pan c dx dy : camera_step c (panSpatialCamera c dx dy)
| c_rotate c dx dy : camera_step c (rotateSpatialCamera c dx dy)
| c_viewport c w h : camera_step c (cameraForViewport c w h).

(** ** Long presses *)

Definition single_move (ev : event) : Prop :=
  match ev with pointermove _ _ count => default 1 count <= 1 | _ => False end.

Lemma after_snoc evs ev : after (evs ++ [ev]) = (handleMobileGesture (after evs) ev).1.
Proof. unfold after. by rewrite foldl_app. Qed.

(** What a pending long press remembers: the press it began with, after which the
    one pointer only moved. *)
Record pressing (evs : list event) (n : navigation) : Prop := {
  press_origin : exists pre count t mode time moves,
    evs = pre ++ pointerdown (startX n) (startY n) count t mode time :: moves /\ default 1 count <= 1 /\
    t <> form /\ t <> button /\ startTime n = default 0%Q time /\ Forall single_move moves;
  press_single : pointerCount n <= 1;
}.

Lemma pending_is_pressing evs : ns_state (after evs) = LONG_PRESS_PENDING -> pressing evs (after evs).
Proof.
  induction evs as [|ev evs IH] using rev_ind; [done|]. rewrite after_snoc. set (n := after evs) in *.
  destruct ev as [x y count t mode time|x y count|x y t time ref|scale| |k]; cbn [handleMobileGesture].
  - destruct (bool_decide (t = form) || bool_decide (t = button)) eqn:Ht; [done|]. apply orb_false_iff in Ht as [H1 H2].
    apply bool_decide_eq_false in H1, H2. cbn [fst ns_state]. case_bool_decide as Hc; [done|]. intros _.
    split; cbn [startX startY startTime pointerCount]; [|lia]. exists evs, count, t, mode, time, []. by split_and!; try done; lia.
  - case_bool_decide as Hc; [done|]. destruct (negb _ || _); [|done]. cbn [fst set_last ns_state]. intros Hs.
    destruct (IH Hs) as [(pre & c0 & t0 & m0 & ti0 & moves & He & Hc0 & Hf & Hb & Hti & Hm) Hsingle].
    split; cbn [startX startY startTime pointerCount]; [|done]. exists pre, c0, t0, m0, ti0, (moves ++ [pointermove x y count]).
    split_and!; try done.
    + rewrite He at 1. by rewrite <-app_assoc.
    + apply Forall_app. split; [done|]. constructor; [|constructor]. cbn. destruct count; cbn in *; lia.
  - repeat case_match; done.
  - done.
  - done.
  - by destruct k.
Qed.

Lemma q_lt_spec a b : q_lt a b = true <-> (a < b)%Q.
Proof. unfold q_lt. rewrite negb_true_iff, <-not_true_iff_false, Qle_bool_iff. split; [apply Qnot_le_lt | apply Qlt_not_le]. Qed.

(** C33. A new interaction is only seeded by a long press. Whenever a sequence of
    events ends in the command to seed, it ends with one pointer that was put down
    on neither a form nor a button, at least 520 milliseconds earlier by the event
    times, has since only moved, and is lifted over the canvas less than ten pixels
    from where it was put down. *)
Theorem seed_needs_a_long_press evs ev n' :
  handleMobileGesture (after evs) ev = (n', Some SEED) ->
  exists pre x0 y0 count t mode time moves x y time' ref,
    evs = pre ++ pointerdown x0 y0 count t mode time :: moves /\ ev = pointerup x y canvas time' ref /\
    default 1 count <= 1 /\ t <> form /\ t <> button /\ Forall single_move moves /\
    (hypot2 (x - x0) (y - y0) < threshold2)%Q /\ (MOBILE_LONG_PRESS_MS <= default (default 0 time) time' - default 0 time)%Q.
Proof.
  destruct ev as [x y count t mode time|x y count|x y t time ref|scale| |k]; cbn [handleMobileGesture].
  - by destruct (_ || _).
  - case_bool_decide; [done|]. destruct (_ || _); [done|]. by destruct (gestureMode (after evs)).
  - destruct (bool_decide _ && _ && _) eqn:Hc.
    + apply andb_true_iff in Hc as [[Hs Hd]%andb_true_iff Ht]. apply bool_decide_eq_true in Hs. apply q_lt_spec in Hd. apply Qle_bool_iff in Ht.
      case_bool_decide as Htc; [|done]. intros [= <-]. subst t.
      destruct (pending_is_pressing evs Hs) as [(pre & c0 & t0 & m0 & ti0 & moves & He & Hc0 & Hf & Hb & Hti & Hm) _].
      exists pre, (startX (after evs)), (startY (after evs)), c0, t0, m0, ti0, moves, x, y, time, ref. rewrite Hti in Ht. by split_and!.
    + case_match; [by case_match|]. by case_match.
  - done.
  - done.
  - by destruct k.
Qed.

(** A released pointer leaves no gesture behind, and the selection of an entity or
    a seed ends it as well: the machine waits for the next press. *)
Theorem release_ends_the_gesture n x y t time ref :
  let n' := (handleMobileGesture n (pointerup x y t time ref)).1 in
  ns_state n' = IDLE \/ ns_state n' = SEED_READY.
Proof. cbn [handleMobileGesture]. repeat case_match; cbn; auto. Qed.

(** A drag that keeps captured moves the view by what the pointer moved: after a
    first move beyond the threshold, the commands of the moves add up to the
    distance from the last position to the last one. *)
Definition panned (n : navigation) (moves : list (Q * Q)) : Q * Q :=
  (foldl (fun acc mv =>
     let r := handleMobileGesture acc.1 (pointermove mv.1 mv.2 None) in
     (r.1, match r.2 with Some (PAN dx dy) => ((acc.2.1 + dx)%Q, (acc.2.2 + dy)%Q) | _ => acc.2 end)) (n, (0%Q, 0%Q)) moves).2.

Theorem drag_adds_up n moves : gestureMode n = pan -> captureScroll n = true -> pointerCount n <= 1 ->
  Forall (fun mv => Qle_bool (hypot2 (mv.1 - startX n) (mv.2 - startY n)) threshold2 = false) moves ->
  let lst := default (lastX n, lastY n) (last moves) in
  (panned n moves).1 == lst.1 - lastX n /\ (panned n moves).2 == lst.2 - lastY n.
Proof.
  intros Hp Hc H1 Hall. unfold panned.
  cut (forall acc : Q * Q, let r := (foldl (fun acc mv =>
     let r := handleMobileGesture acc.1 (pointermove mv.1 mv.2 None) in
     (r.1, match r.2 with Some (PAN dx dy) => ((acc.2.1 + dx)%Q, (acc.2.2 + dy)%Q) | _ => acc.2 end)) (n, acc) moves).2 in
     let lst := default (lastX n, lastY n) (last moves) in
     r.1 == acc.1 + (lst.1 - lastX n) /\ r.2 == acc.2 + (lst.2 - lastY n)).
  { intros H. destruct (H (0%Q, 0%Q)) as [Ha Hb]. cbn [fst snd] in *. rewrite Ha, Hb. split; ring. }
  revert n Hp Hc H1 Hall. induction moves as [|mv moves IH]; intros n Hp Hc H1 Hall acc; cbn [foldl last default from_option fst snd].
  - cbn. split; ring.
  - apply Forall_cons in Hall as [Hm Hall]. cbn [handleMobileGesture fst snd].
    rewrite bool_decide_eq_false_2 by (cbn; lia). rewrite Hc, Hm, Hp. cbn [negb orb fst snd].
    match goal with |- context [foldl _ (?n', ?a) moves] => specialize (IH n') end. cbn in IH.
    destruct (IH Hp eq_refl H1 Hall (((acc.1 + (mv.1 - lastX n))%Q, (acc.2 + (mv.2 - lastY n))%Q))) as [Ha Hb].
    assert (Hl : default (lastX n, lastY n) (last (mv :: moves)) = default mv (last moves)).
    { destruct moves as [|mv' moves] using rev_ind; [by destruct mv|]. by rewrite app_comm_cons, !last_snoc. }
    cbn zeta. rewrite Hl. destruct mv as [a b]. cbn [fst snd] in *.
    cbv zeta in *. rewrite Ha, Hb. cbn [fst snd]. split; ring.
Qed.

(** ** The camera *)

Record in_bounds (c : camera_state) : Prop := {
  ib_x : (minX <= cs_x c <= maxX)%Q;
  ib_y : (minY <= cs_y c <= maxY)%Q;
  ib_zoom : (minZoom <= cs_zoom c <= maxZoom)%Q;
}.

Lemma clamp_to_bounds lo hi v : (lo <= hi)%Q -> (lo <= clamp_to lo hi v <= hi)%Q.
Proof.
  intros H. unfold clamp_to. split; [|apply Q.le_min_l]. apply Q.min_glb; [done | apply Q.le_max_l].
Qed.

Lemma clamp_to_id lo hi v : (lo <= v <= hi)%Q -> (clamp_to lo hi v == v)%Q.
Proof. intros [H1 H2]. unfold clamp_to. rewrite Q.max_r by done. by apply Q.min_r. Qed.

Lemma clamped_in_bounds c : in_bounds (clampSpatialCamera c).
Proof. split; apply clamp_to_bounds; unfold Qle; cbn; lia. Qed.

(** Whatever is done with the camera, it stays over the workspace: its
    position and zoom never leave their bounds, and every change an operator makes
    starts a new transition, the fitting to a viewport alone keeping the current
    one. *)
Theorem camera_stays_in_bounds c : rtc camera_step HOME_CAMERA c ->
  in_bounds c /\ 0 <= transitionToken c /\
  forall c', camera_step c c' -> transitionToken c' = transitionToken c + 1 \/
    exists w h, c' = cameraForViewport c w h /\ transitionToken c' = transitionToken c.
Proof.
  assert (Hstep : forall c c', camera_step c c' -> transitionToken c' = transitionToken c + 1 \/
    exists w h, c' = cameraForViewport c w h /\ transitionToken c' = transitionToken c).
  { intros a b []; try (by left). right. exists w, h. split; [done|]. unfold cameraForViewport. by destruct (_ || _). }
  intros H. cut (in_bounds c /\ 0 <= transitionToken c); [intros [? ?]; split_and!; [done..|apply Hstep]|].
  revert c H. apply (rtc_ind_r (fun c => in_bounds c /\ 0 <= transitionToken c) HOME_CAMERA).
  - split; [|done]. split; cbn; unfold Qle; cbn; lia.
  - intros a b _ Hab [[Hx Hy Hz] Ht]. split; [|destruct (Hstep _ _ Hab) as [->|(w & h & _ & ->)]; lia].
    destruct Hab; try apply clamped_in_bounds; try (split; cbn; unfold Qle; cbn; lia).
    unfold cameraForViewport. destruct (_ || _); [by split|]. split; cbn [cs_x cs_y cs_zoom]; [|done..].
    set (limit := if q_lt (w / h) 1 then (maxX * (72 # 100))%Q else maxX).
    assert (Hl : (minX <= - limit /\ - limit <= limit /\ limit <= maxX)%Q) by (subst limit; destruct (q_lt _ _); unfold Qle; cbn; lia).
    destruct Hl as (H1 & H2 & H3). destruct (clamp_to_bounds (- limit) limit (cs_x c) H2). split; lra.
Qed.

(** While the bounds are not touched, panning there and back is coming back. *)
Theorem pan_there_and_back c dx dy :
  in_bounds c -> in_bounds (CameraState (cs_x c + dx / cs_zoom c) (cs_y c + dy / cs_zoom c) (cs_zoom c) None 0) ->
  let c' := panSpatialCamera (panSpatialCamera c dx dy) (- dx) (- dy) in
  (cs_x c' == cs_x c)%Q /\ (cs_y c' == cs_y c)%Q /\ (cs_zoom c' == cs_zoom c)%Q.
Proof.
  intros [Hx Hy Hz] [Hx' Hy' _]. cbn in Hx', Hy'.
  assert (Hm : forall z, (z == cs_zoom c)%Q -> (Qmax z (1 # 10) == cs_zoom c)%Q).
  { intros z E. rewrite Q.max_l; [done|]. rewrite E. eapply Qle_trans; [|apply Hz]. unfold Qle; cbn; lia. }
  pose proof (Hm _ (Qeq_refl _)) as Hm0.
  assert (Hnz : ~ (cs_zoom c == 0)%Q) by (intros E; destruct Hz as [Hz _]; rewrite E in Hz; by revert Hz; unfold Qle; cbn; lia).
  unfold panSpatialCamera, clampSpatialCamera. cbn [cs_x cs_y cs_zoom].
  assert (Ez : (clamp_to minZoom maxZoom (cs_zoom c) == cs_zoom c)%Q) by by apply clamp_to_id.
  assert (E1 : (clamp_to minX maxX (cs_x c + dx / Qmax (cs_zoom c) (1 # 10)) == cs_x c + dx / cs_zoom c)%Q).
  { rewrite clamp_to_id; rewrite Hm0; [reflexivity | done]. }
  assert (E2 : (clamp_to minY maxY (cs_y c + dy / Qmax (cs_zoom c) (1 # 10)) == cs_y c + dy / cs_zoom c)%Q).
  { rewrite clamp_to_id; rewrite Hm0; [reflexivity | done]. }
  pose proof (Hm _ Ez) as Hm1.
  split_and!.
  - assert (E : (clamp_to minX maxX (cs_x c + dx / Qmax (cs_zoom c) (1 # 10)) + - dx / Qmax (clamp_to minZoom maxZoom (cs_zoom c)) (1 # 10) == cs_x c)%Q)
      by (rewrite E1, Hm1; field; done).
    rewrite clamp_to_id; [done | by rewrite E].
  - assert (E : (clamp_to minY maxY (cs_y c + dy / Qmax (cs_zoom c) (1 # 10)) + - dy / Qmax (clamp_to minZoom maxZoom (cs_zoom c)) (1 # 10) == cs_y c)%Q)
      by (rewrite E2, Hm1; field; done).
    rewrite clamp_to_id; [done | by rewrite E].
  - rewrite clamp_to_id; [done | by rewrite Ez].
Qed.

Module NavigationWitness.
Definition press : list event := [keyboard K_Home; pointerdown 100 100 None canvas None (Some 1000%Q); pointermove 103 100 None].

Lemma seed_needs_a_long_press_witness :
  handleMobileGesture (after press) (pointerup 104 101 canvas (Some 1520%Q) None) =
    (set_capture false (set_state SEED_READY (after press)), Some SEED) /\ (hypot2 (104 - 100) (101 - 100) < threshold2)%Q.
Proof.
  split; [reflexivity|].
  destruct (seed_needs_a_long_press press (pointerup 104 101 canvas (Some 1520%Q) None) _ eq_refl)
    as (pre & x0 & y0 & count & t & mode & time & moves & x & y & time' & ref & He & [= <- <- <- <-] & _). reflexivity.
Defined.

Definition dragging : navigation := Navigation PANNING 0 0 20 0 0 1 true pan.
Lemma drag_witness : ((panned dragging [(30, 5); (40, 8)]%Q).1 == 40 - 20)%Q.
Proof. apply (drag_adds_up dragging [(30, 5); (40, 8)]%Q); try done. by repeat constructor. Defined.

Lemma camera_stays_in_bounds_witness : in_bounds (panSpatialCamera HOME_CAMERA 1000 0).
Proof. apply (camera_stays_in_bounds (panSpatialCamera HOME_CAMERA 1000 0)). apply rtc_once. constructor. Defined.

Lemma pan_witness : (cs_x (panSpatialCamera (panSpatialCamera HOME_CAMERA 2 1) (- 2) (- 1)) == 0)%Q.
Proof. apply (pan_there_and_back HOME_CAMERA 2 1); split; cbn; unfold Qle; cbn; lia. Defined.

Example swipe :
  (handleMobileGesture (after [pointerdown 100 100 None scroll None None; pointermove 60 100 None]) (pointerup 40 101 scroll None None)).2 =
    Some (FOCUS_NEXT forward).
Proof. vm_compute. done. Qed.
End NavigationWitness.

(** ** Edge behaviour *)

(** After an entity was tapped the scroll stays captured, and a pointer that only
    hovers pans the view. *)
Theorem hovering_pans_after_a_tap :
  let n := after [pointerdown 0 0 None on_entity None None; pointerup 0 0 on_entity None (Some "e"%string)] in
  ns_state n = IDLE /\ captureScroll n = true /\ (handleMobileGesture n (pointermove 20 0 None)).2 = Some (PAN 20 0).
Proof. vm_compute. done. Qed.

(** Lifting the pointer after a drag pans by the whole drag once more. *)
Theorem release_pans_again :
  let n := after [pointerdown 0 0 None canvas None None] in
  let r := handleMobileGesture n (pointermove 0 30 None) in
  r.2 = Some (PAN 0 30) /\ (handleMobileGesture r.1 (pointerup 0 30 canvas None None)).2 = Some (PAN 0 30).
Proof. vm_compute. done. Qed.

(** A drag in rotate mode ends with a pan. *)
Theorem rotation_ends_with_a_pan :
  let n := after [pointerdown 0 0 None canvas (Some rotate) None] in
  let r := handleMobileGesture n (pointermove 0 30 None) in
  r.2 = Some (ROTATE 0 30) /\ (handleMobileGesture r.1 (pointerup 0 30 canvas None None)).2 = Some (PAN 0 30).
Proof. vm_compute. done. Qed.

(** A press on a form keeps the place of an earlier one, so that lifting the
    pointer there moves the focus. *)
Theorem form_press_moves_the_focus :
  (handleMobileGesture (after [pointerdown 0 0 None canvas None None; cancel; pointerdown 300 10 None form None None])
     (pointerup 300 10 form None None)).2 = Some (FOCUS_NEXT backward).
Proof. vm_compute. done. Qed.

(** Over a page that scrolls, where moves are not captured, lifting the pointer
    after a vertical swipe pans the view all the same. *)
Theorem scrolling_a_page_pans :
  let n := after [pointerdown 0 0 None scroll None None; pointermove 0 200 None] in
  captureScroll n = false /\ shouldCaptureMobileGesture scroll 0 200 = false /\
  (handleMobileGesture n (pointerup 0 200 scroll None None)).2 = Some (PAN 0 200).
Proof. vm_compute. done. Qed.
