(* ===== verification/Shell.v ===== *)
(** * The dashboard shell

    src/web/operator-dashboard/src/lib/feature-flags.ts, spatial/route.ts,
    app/dashboard-routing.ts with the screens of stores/operator-dashboard.ts, and
    lib/hypervisor-connections.ts: which surfaces are enabled, how the address and
    the screen shown stay together, and the saved Hypervisors. The parsers of URLs
    and of JSON texts are the host's. *)

From stdpp Require Import relations.
From S2P Require Import Prelude.
From S2P Require Import Json.
From S2P Require Import Contracts.
From S2P Require Import Numbers.
From S2P Require Import Text.
From S2P Require Import Schemas.
From S2P Require Import Transport.

#[local] Open Scope Z_scope.

(** ** Feature flags *)

Inductive flag : Type :=
| SPATIAL_UI | SPATIAL_WORKSPACE_PERSISTENCE | SPATIAL_INTERACTION | SPATIAL_TOPOLOGY | SPATIAL_STATUS | SPATIAL_REMOTE_MEDIATION
| SPATIAL_MEMORY | SPATIAL_MULTI_DEVICE_SYNC | SPATIAL_CHANGE_INTENT | SPATIAL_OPERATOR_PREVIEW.
#[export] Instance flag_eq_dec : EqDecision flag.
Proof. solve_decision. Defined.

Definition flag_name (f : flag) : string :=
  match f with
  | SPATIAL_UI => "spatial_ui_enabled" | SPATIAL_WORKSPACE_PERSISTENCE => "spatial_workspace_persistence_enabled"
  | SPATIAL_INTERACTION => "spatial_interaction_enabled" | SPATIAL_TOPOLOGY => "spatial_topology_enabled"
  | SPATIAL_STATUS => "spatial_status_enabled" | SPATIAL_REMOTE_MEDIATION => "spatial_remote_mediation_enabled"
  | SPATIAL_MEMORY => "spatial_memory_enabled" | SPATIAL_MULTI_DEVICE_SYNC => "spatial_multi_device_sync_enabled"
  | SPATIAL_CHANGE_INTENT => "spatial_change_intent_enabled" | SPATIAL_OPERATOR_PREVIEW => "spatial_operator_preview_enabled"
  end.

(** The hints of the page ([__AIDN_FEATURE_FLAGS__], in a browser that has them) and
    the variables of the build. *)
Record flag_sources : Type := FlagSources { hints : option (jsmap value); build : flag -> value }.

Definition parseBoolean (v : value) : bool :=
  match v with
  | VBool b => b
  | VStr s => existsb (str_eqb (to_lower (trim s))) ["1"; "true"; "yes"; "on"]%string
  | _ => false
  end.

Definition isFeatureFlagEnabled (src : flag_sources) (f : flag) : bool :=
  match hints src ≫= jget (flag_name f) with
  | Some (VBool b) => b
  | _ => parseBoolean (build src f)
  end.

Definition isSpatialStatusEnabled (src : flag_sources) : bool :=
  isFeatureFlagEnabled src SPATIAL_STATUS || isFeatureFlagEnabled src SPATIAL_UI.

(** [Boolean(v)]. *)
Definition truthy_value (v : value) : bool :=
  match v with
  | VUndefined | VNull => false
  | VBool b => b
  | VNum n => negb (bool_decide (num_sgn n = 0))
  | VStr s => negb (str_eqb s "")
  | VArr _ | VObj _ | VOpaque => true
  end.

Definition isSpatialOperatorPreviewEnabled (src : flag_sources) : bool :=
  match hints src ≫= jget (flag_name SPATIAL_OPERATOR_PREVIEW) with
  | Some v => truthy_value v
  | None => match build src SPATIAL_OPERATOR_PREVIEW with
            | VStr s => parseBoolean (VStr s)
            | _ => isFeatureFlagEnabled src SPATIAL_UI
            end
  end.

(** ** Routes *)

Definition SPATIAL_HASH : string := "#spatial".

(** [hash.split('?', 1)[0]]. *)
Fixpoint before_query (s : string) : string :=
  match s with
  | EmptyString => EmptyString
  | String c s => if Ascii.eqb c "?" then EmptyString else String c (before_query s)
  end.

Definition isSpatialRoute (hash : string) : bool := str_eqb (to_lower (before_query hash)) SPATIAL_HASH.

Definition normalizeClassicHash (hash : option string) : string :=
  match hash with
  | Some h => if truthy (Some h) && String.prefix "#" h && negb (isSpatialRoute h) then h else "#overview"%string
  | None => "#overview"%string
  end.

Definition dashboardScreens : list string :=
  ["overview"; "agents"; "bundles"; "market"; "catalog"; "endpoints"; "wallet"; "settings"; "providers"; "models"; "validation";
   "network"; "cometbft"; "resources"; "hooks"]%string.

(** The window and the dashboard store, as far as the routes use them. *)
Record shell : Type := Shell {
  location_hash : string;
  previous_classic : option string;
  history_entries : list string;
  activeScreen : string;
}.

Definition dashboardScreenFromHash (hash : string) : option string :=
  let candidate := match hash with String _ s => s | EmptyString => EmptyString end in
  if existsb (str_eqb candidate) dashboardScreens then Some candidate else None.

Definition setActiveScreen (screen : string) (w : shell) : shell :=
  Shell (location_hash w) (previous_classic w) (history_entries w) screen.

(** [history.pushState(..., '', hash)] with a fragment; a lone [#] has none. *)
Definition pushState (hash : string) (w : shell) : shell :=
  Shell (if str_eqb hash "#" then "" else hash) (previous_classic w) (hash :: history_entries w) (activeScreen w).
Definition set_previous (o : option string) (w : shell) : shell := Shell (location_hash w) o (history_entries w) (activeScreen w).

(** [syncScreenFromHash], which listens to [hashchange] and [popstate]. *)
Definition syncScreenFromHash (w : shell) : shell :=
  match dashboardScreenFromHash (location_hash w) with
  | Some screen => if truthy (Some screen) then setActiveScreen screen w else w
  | None => w
  end.

Definition dispatchRouteChange (w : shell) : shell := syncScreenFromHash w.

Definition openSpatialRoute (w : shell) : shell :=
  let w' := set_previous (Some (normalizeClassicHash (Some (location_hash w)))) w in
  if isSpatialRoute (location_hash w) then w' else dispatchRouteChange (pushState SPATIAL_HASH w').

Definition returnToClassicRoute (fallbackHash : string) (w : shell) : shell :=
  let target := normalizeClassicHash (Some (default fallbackHash (previous_classic w))) in
  dispatchRouteChange (pushState target (set_previous None w)).

Definition navigateToDashboardScreen (screen : string) (w : shell) : shell :=
  let w := setActiveScreen screen w in
  if str_eqb (location_hash w) ("#" +:+ screen) then w else pushState ("#" +:+ screen) w.

(** What happens to the shell; a browser that goes back, forward or to an address
    sets the hash and reports it. *)
Inductive shell_step : shell -> shell -> Prop :=
| sh_open w : shell_step w (openSpatialRoute w)
| sh_return fb w : shell_step w (returnToClassicRoute fb w)
| sh_navigate screen w : screen ∈ dashboardScreens -> shell_step w (navigateToDashboardScreen screen w)
| sh_browser hash w : shell_step w (syncScreenFromHash (Shell hash (previous_classic w) (history_entries w) (activeScreen w))).

(** ** Saved Hypervisors *)

(** [SavedHypervisorConnection]. *)
Record connection : Type := Connection { cn_id : string; cn_name : string; cn_url : string; addedAt : string }.

(** What the host's [URL] tells of an address: [href] is its text without query
    and fragment. *)
Record url : Type := Url { protocol : string; username : string; password : string; hostname : string; href : string }.

Inductive url_error : Type := InvalidUrl | NotHttp | HasCredentials.

Definition connection_json (c : connection) : json :=
  JObj [("id", JStr (cn_id c)); ("name", JStr (cn_name c)); ("url", JStr (cn_url c)); ("addedAt", JStr (addedAt c))]%string.

Definition isSavedHypervisorConnection (v : json) : bool :=
  match v with
  | JObj l => forallb (fun k => match jget k l with Some (JStr _) => true | _ => false end) ["id"; "name"; "url"; "addedAt"]%string
  | _ => false
  end.

Section connections.
Context (JSON_parse : string -> option json) (parse_url : string -> option url).

(** [loadSavedHypervisors], from what [localStorage] holds. *)
Definition loadSavedHypervisors (raw : option string) : list json :=
  match raw with
  | Some r => if truthy (Some r)
              then match JSON_parse r with Some (JArr l) => List.filter isSavedHypervisorConnection l | _ => [] end
              else []
  | None => []
  end.

(** [saveSavedHypervisors]: what [localStorage] holds then. *)
Definition saveSavedHypervisors (cs : list connection) : option string := Some (stringify (JArr (map connection_json cs))).

Definition normalizeDashboardUrl (v : string) : result url_error string :=
  let? u := of_option (parse_url (trim v)) InvalidUrl in
  require (str_eqb (protocol u) "http:" || str_eqb (protocol u) "https:") NotHttp ;?
  require (negb (truthy (Some (username u)) || truthy (Some (password u)))) HasCredentials ;?
  Ok (without_last_slash (href u)).

Definition createSavedHypervisor (name v now : string) : result url_error connection :=
  let? normalized := normalizeDashboardUrl v in
  let? label := if truthy (Some (trim name)) then Ok (trim name)
                else let? u := of_option (parse_url normalized) InvalidUrl in Ok (hostname u) in
  Ok (Connection normalized (slice 96 label) normalized now).
End connections.

(** ** Properties *)

(** A boolean hint of the page decides; without one the build does, and then only
    by one of four words. The status surface is never off while the workspace is
    on. *)
Theorem flag_precedence src f :
  (forall b, hints src ≫= jget (flag_name f) = Some (VBool b) -> isFeatureFlagEnabled src f = b) /\
  ((forall b, hints src ≫= jget (flag_name f) <> Some (VBool b)) -> isFeatureFlagEnabled src f = true ->
     build src f = VBool true \/ exists s, build src f = VStr s /\ to_lower (trim s) ∈ ["1"; "true"; "yes"; "on"]%string) /\
  (isFeatureFlagEnabled src SPATIAL_UI = true -> isSpatialStatusEnabled src = true).
Proof.
  unfold isFeatureFlagEnabled. split_and!.
  - by intros b ->.
  - intros Hn. assert (Hb : parseBoolean (build src f) = true -> build src f = VBool true \/
      exists s, build src f = VStr s /\ to_lower (trim s) ∈ ["1"; "true"; "yes"; "on"]%string).
    { destruct (build src f) as [| |b| |s| | |]; cbn [parseBoolean]; try done; [intros ->; by left|].
      intros (x & Hx & Hs)%existsb_exists. right. exists s. split; [done|]. apply str_eqb_eq in Hs as ->. by apply list_elem_of_In. }
    destruct (hints src ≫= jget (flag_name f)) as [[| |b| | | | |]|]; try done. by destruct (Hn b).
  - intros H. unfold isSpatialStatusEnabled, isFeatureFlagEnabled. by rewrite H, orb_true_r.
Qed.

(** ** The address and the screen *)

(** The shell shows the screen its address names, if it names one. *)
Definition in_sync (w : shell) : Prop := forall screen, dashboardScreenFromHash (location_hash w) = Some screen -> activeScreen w = screen.

Lemma sync_in_sync w : in_sync (syncScreenFromHash w).
Proof.
  unfold syncScreenFromHash, in_sync. destruct (dashboardScreenFromHash (location_hash w)) as [s|] eqn:E; [|congruence].
  assert (Ht : truthy (Some s) = true).
  { unfold dashboardScreenFromHash in E. destruct (existsb _ _) eqn:Hx; [|done]. injection E as <-. revert Hx.
    destruct (location_hash w) as [|c [|d t]]; [done..|]. intros _. done. }
  rewrite Ht. cbn [location_hash activeScreen setActiveScreen]. congruence.
Qed.

(** The screen that is shown is the one the address names. Once the shell has
    read its address, and through every navigation, every opening of the spatial
    workspace and every return from it, and whatever the browser's history does,
    an address that names a screen is the address of the screen shown. *)
Theorem screen_follows_the_address w0 w : rtc shell_step (syncScreenFromHash w0) w -> in_sync w.
Proof.
  intros H. eapply (rtc_ind_r in_sync (syncScreenFromHash w0)); [apply sync_in_sync | |done].
  intros a b _ [c|fb c|screen c Hs|hash c] Hin; try apply sync_in_sync.
  - unfold openSpatialRoute. destruct (isSpatialRoute (location_hash c)); [exact Hin | apply sync_in_sync].
  - unfold navigateToDashboardScreen. cbn [setActiveScreen location_hash].
    assert (Hn : dashboardScreenFromHash ("#" +:+ screen) = Some screen).
    { unfold dashboardScreenFromHash. rewrite sapp_cons, sapp_nil. assert (existsb (str_eqb screen) dashboardScreens = true) as ->; [|done].
      apply existsb_exists. exists screen. split; [by apply list_elem_of_In | apply str_eqb_refl]. }
    destruct (str_eqb (location_hash c) ("#" +:+ screen)) eqn:E; unfold in_sync; cbn [location_hash activeScreen pushState setActiveScreen].
    + apply str_eqb_eq in E. rewrite E, Hn. by intros s [= ->].
    + destruct (str_eqb ("#" +:+ screen) "#") eqn:Eh; [intros s Hf; by vm_compute in Hf|]. rewrite Hn. by intros s [= ->].
Qed.

(** Opening the spatial workspace from a classic page and returning from it leads
    back to that page and leaves nothing stored. *)
Theorem return_leads_back fb w : isSpatialRoute (location_hash w) = false -> String.prefix "#" (location_hash w) = true ->
  location_hash w <> "#"%string ->
  let w' := returnToClassicRoute fb (openSpatialRoute w) in
  location_hash w' = location_hash w /\ previous_classic w' = None.
Proof.
  intros Hs Hp Hne. unfold openSpatialRoute. rewrite Hs. unfold returnToClassicRoute, dispatchRouteChange.
  assert (Hk : forall w, location_hash (syncScreenFromHash w) = location_hash w /\ previous_classic (syncScreenFromHash w) = previous_classic w).
  { intros x. unfold syncScreenFromHash. destruct (dashboardScreenFromHash _); [|done]. by destruct (truthy _). }
  destruct (Hk (pushState SPATIAL_HASH (set_previous (Some (normalizeClassicHash (Some (location_hash w)))) w))) as [_ Hprev].
  assert (Ht : truthy (Some (location_hash w)) = true) by (apply truthy_some; exists (location_hash w); split; [done|]; intros E; by rewrite E in Hp).
  assert (Hc : normalizeClassicHash (Some (location_hash w)) = location_hash w) by (cbn [normalizeClassicHash]; by rewrite Ht, Hp, Hs).
  destruct (Hk (pushState (normalizeClassicHash (Some (default fb (previous_classic (syncScreenFromHash (pushState SPATIAL_HASH
    (set_previous (Some (normalizeClassicHash (Some (location_hash w)))) w))))))) (set_previous None (syncScreenFromHash (pushState SPATIAL_HASH
    (set_previous (Some (normalizeClassicHash (Some (location_hash w)))) w)))))) as [Hl Hpr].
  cbn zeta. rewrite Hl, Hpr. cbn [pushState location_hash previous_classic set_previous]. rewrite Hprev. cbn [pushState previous_classic set_previous default from_option id].
  rewrite Hc, Hc. assert (str_eqb (location_hash w) "#" = false) as ->; [|done]. apply not_true_iff_false. by intros ?%str_eqb_eq.
Qed.

(** ** Connections *)

(** What was saved is loaded again, given that the host parses what it printed. *)
Theorem saved_hypervisors_load JSON_parse cs :
  JSON_parse (stringify (JArr (map connection_json cs))) = Some (JArr (map connection_json cs)) ->
  loadSavedHypervisors JSON_parse (saveSavedHypervisors cs) = map connection_json cs.
Proof.
  intros H. unfold saveSavedHypervisors, loadSavedHypervisors.
  assert (Ht : truthy (Some (stringify (JArr (map connection_json cs)))) = true) by (apply truthy_some; by eexists).
  rewrite Ht, H. induction cs as [|c cs IH]; [done|]. cbn [map List.filter isSavedHypervisorConnection connection_json].
  f_equal. clear. induction cs as [|c cs IH]; [done|]. cbn [map List.filter]. by f_equal.
Qed.

(** A saved Hypervisor is reached over HTTP, its address carries no credentials,
    and its name has at most 96 characters. *)
Theorem saved_hypervisor_is_plain parse_url name v now c : createSavedHypervisor parse_url name v now = Ok c ->
  exists u, parse_url (trim v) = Some u /\ (protocol u = "http:"%string \/ protocol u = "https:"%string) /\
    username u = ""%string /\ password u = ""%string /\ cn_url c = without_last_slash (href u) /\ cn_id c = cn_url c /\
    (String.length (cn_name c) <= 96)%nat.
Proof.
  unfold createSavedHypervisor, normalizeDashboardUrl. intros H. inv_ok.
  match goal with H : parse_url (trim v) = Some ?x |- _ => exists x; split; [exact H|] end.
  match goal with H : str_eqb _ _ || str_eqb _ _ = true |- _ => apply orb_true_iff in H; rewrite !str_eqb_eq in H end.
  match goal with H : negb (_ || _) = true |- _ => apply negb_true_iff, orb_false_iff in H as [Hu Hp] end.
  cbn [truthy] in Hu, Hp. apply negb_false_iff, str_eqb_eq in Hu, Hp. split_and!; try done. apply (slice_length 96).
Qed.

Module ShellWitness.
Definition page (hash : string) : shell := Shell hash None [] "overview".

Lemma screen_follows_the_address_witness :
  activeScreen (navigateToDashboardScreen "wallet" (openSpatialRoute (syncScreenFromHash (page "#agents")))) = "wallet"%string.
Proof.
  apply (screen_follows_the_address (page "#agents")); [|reflexivity].
  eapply rtc_l; [apply sh_open|]. apply rtc_once, sh_navigate. repeat constructor.
Defined.

Lemma return_leads_back_witness : location_hash (returnToClassicRoute "#overview" (openSpatialRoute (page "#wallet"))) = "#wallet"%string.
Proof. apply (return_leads_back "#overview" (page "#wallet")); [reflexivity..|done]. Defined.

Definition conn : connection := Connection "http://a" "a" "http://a" "t".
Definition parse (s : string) : option json := if str_eqb s (stringify (JArr [connection_json conn])) then Some (JArr [connection_json conn]) else None.
Lemma saved_hypervisors_witness : loadSavedHypervisors parse (saveSavedHypervisors [conn]) = [connection_json conn].
Proof. apply (saved_hypervisors_load parse [conn]). vm_compute. reflexivity. Defined.

Definition host (s : string) : option url := Some (Url "http:" "" "" "node" "http://node/").
Lemma saved_is_plain_witness : createSavedHypervisor host " " "node" "t" = Ok (Connection "http://node" "node" "http://node" "t").
Proof.
  destruct (createSavedHypervisor host " " "node" "t") as [c|e] eqn:H; [|done].
  destruct (saved_hypervisor_is_plain _ _ _ _ _ H) as (u & Hu & _). injection H as <-. reflexivity.
Defined.

Example routes :
  isSpatialRoute "#Spatial?x=1" = true /\ normalizeClassicHash (Some "wallet"%string) = "#overview"%string /\
  dashboardScreenFromHash "#hooks" = Some "hooks"%string /\ dashboardScreenFromHash "" = None.
Proof. vm_compute. done. Qed.
End ShellWitness.

(** ** Edge behaviour *)

(** Opening the spatial workspace a second time forgets the page to return to. *)
Theorem opening_twice_forgets_the_page :
  location_hash (returnToClassicRoute "#overview" (openSpatialRoute (openSpatialRoute (ShellWitness.page "#wallet")))) = "#overview"%string.
Proof. vm_compute. done. Qed.

(** The operator preview takes any hint that is not empty for a yes, the text
    [false] too, where the other flags only take booleans. *)
Theorem preview_hint_is_not_parsed b :
  let src := FlagSources (Some [("spatial_operator_preview_enabled", VStr "false")]%string) b in
  isSpatialOperatorPreviewEnabled src = true /\ (b SPATIAL_OPERATOR_PREVIEW = VUndefined -> isFeatureFlagEnabled src SPATIAL_OPERATOR_PREVIEW = false).
Proof. split; [done|]. intros H. unfold isFeatureFlagEnabled. cbn. by rewrite H. Qed.
