(* ===== verification/LiveWorkspace.v ===== *)
(** * The live workspace

    src/web/operator-dashboard/src/spatial/data/use-spatial-workspace.ts: what the
    spatial surface shows of a Node while its queries answer, its events are
    replayed and the operator moves to another Node. The hook is a state machine:
    its state variables and refs, with the part of the query cache it reads, and
    one step for each thing that can happen to it, the effects it runs included in
    their order. The query library is the host's: of it the model uses that a query
    shows what was stored last under its key, by a fetch or by [setQueryData]. Mock
    data and the rendering are left out. *)

From stdpp Require Import relations.
From S2P Require Import Prelude.
From S2P Require Import Json.
From S2P Require Import Contracts.
From S2P Require Import Slot.
From S2P Require Import Events.
From S2P Require Import EventsProps.
From S2P Require Import Numbers.
From S2P Require Import Status.
From S2P Require Import RemoteContracts.
From S2P Require Import WorkspaceRepo.
From S2P Require Import Presence.
From S2P Require Import ViewModels.
From S2P Require Import Transport.

#[local] Open Scope Z_scope.

(** ** Typed events *)

(** What the hook takes the payload of an event for. *)
Inductive live_event : Type :=
| LE_status (s : status)
| LE_slot (s : slot)
| LE_state (s : agent_state)
| LE_grant (node grant_id : string)
| LE_workspace (s : snapshot)
| LE_entity (archived : bool) (e : entity)
| LE_relation (r : relation)
| LE_other.

(** The casts [event.payload as T]: a payload that passed its contract, read as
    the record of its type. *)
Class TypedPayloads : Type := typed : envelope -> live_event.

(** The Node a payload names, of the events the hook uses. *)
Definition event_node (ev : live_event) : option string :=
  match ev with
  | LE_status s => Some (st_node s)
  | LE_slot s => Some (slot_node_id s)
  | LE_state s => Some (st_node_id s)
  | LE_grant n _ => Some n
  | LE_workspace s => Some (sn_node s)
  | LE_entity _ e => Some (en_node e)
  | LE_relation r => Some (re_node r)
  | LE_other => None
  end.

(** A cast keeps the Node that the payload names. *)
Class TypedLaws (tp : TypedPayloads) : Prop :=
  typed_node : forall e n, event_node (typed e) = Some n -> payloadNodeId (ev_payload e) = Some n.

(** [applyTypedEvent]. *)
Definition applyTypedEvent (s : snapshot) (ev : live_event) : snapshot :=
  match ev with
  | LE_workspace next => if bool_decide (semantic_revision next < semantic_revision s) then s else next
  | LE_entity _ e =>
      if bool_decide (en_revision e < semantic_revision s) then s
      else Snapshot (sn_workspace s) (sn_node s) (Z.max (sn_revision s) (en_revision e))
             (Z.max (semantic_revision s) (en_revision e)) (sn_created s) (en_updated e)
             (List.filter (fun c => negb (str_eqb (en_ref c) (en_ref e))) (entities s) ++ [e]) (relations s)
             (semantic_anchors s) (cluster_membership s) (sn_primary s)
  | LE_relation r =>
      if bool_decide (re_revision r < semantic_revision s) then s
      else Snapshot (sn_workspace s) (sn_node s) (Z.max (sn_revision s) (re_revision r))
             (Z.max (semantic_revision s) (re_revision r)) (sn_created s) (re_updated r)
             (entities s) (List.filter (fun c => negb (str_eqb (re_id c) (re_id r))) (relations s) ++ [r])
             (semantic_anchors s) (cluster_membership s) (sn_primary s)
  | _ => s
  end.

(** ** The state of the hook *)

(** The query cache, as far as the hook reads it: what the workspace and the
    status query of each (normalized) scope show. *)
Record cache : Type := Cache { workspaces : scope -> option snapshot; statuses : scope -> option status }.

(** What the hook writes into the cache and reads nowhere. *)
Record written : Type := Written { wr_slot : option slot; wr_state : option agent_state; wr_grant : option string }.

Record live : Type := Live {
  lv_scope : scope;         (* the scope as given *)
  lv_key : scope;           (* the same, normalized *)
  liveScopeKey : string;
  resetScopeKey : string;
  liveSnapshot : option snapshot;
  liveStatus : option status;
  lastEvent : option envelope;
  livePrimaryAgentSlot : slot;
  livePrimaryAgentOperationalState : option agent_state;
  lv_cache : cache;
  lv_written : written;
}.

Definition upd {A} (f : scope -> A) (k : scope) (a : A) : scope -> A := fun k' => if bool_decide (k' = k) then a else f k'.

Definition store_workspace (k : scope) (s : snapshot) (c : cache) : cache := Cache (upd (workspaces c) k (Some s)) (statuses c).
Definition store_status (k : scope) (s : status) (c : cache) : cache := Cache (workspaces c) (upd (statuses c) k (Some s)).

Definition set_last (o : option envelope) (l : live) : live :=
  Live (lv_scope l) (lv_key l) (liveScopeKey l) (resetScopeKey l) (liveSnapshot l) (liveStatus l) o (livePrimaryAgentSlot l)
    (livePrimaryAgentOperationalState l) (lv_cache l) (lv_written l).
Definition set_snapshot (o : option snapshot) (c : cache) (l : live) : live :=
  Live (lv_scope l) (lv_key l) (liveScopeKey l) (resetScopeKey l) o (liveStatus l) (lastEvent l) (livePrimaryAgentSlot l)
    (livePrimaryAgentOperationalState l) c (lv_written l).
Definition set_status (o : option status) (c : cache) (l : live) : live :=
  Live (lv_scope l) (lv_key l) (liveScopeKey l) (resetScopeKey l) (liveSnapshot l) o (lastEvent l) (livePrimaryAgentSlot l)
    (livePrimaryAgentOperationalState l) c (lv_written l).
Definition set_agent (s : slot) (o : option agent_state) (w : written) (l : live) : live :=
  Live (lv_scope l) (lv_key l) (liveScopeKey l) (resetScopeKey l) (liveSnapshot l) (liveStatus l) (lastEvent l) s o (lv_cache l) w.

(** [currentScopeKey]: [spatialScopeKey] of the scope. *)
Definition key_text (k : scope) : string := hypervisor_id k +:+ ":" +:+ scope_node_id k.

(** [query.data] and [statusQuery.data]. *)
Definition query_data (l : live) : option snapshot := workspaces (lv_cache l) (lv_key l).
Definition status_data (l : live) : option status := statuses (lv_cache l) (lv_key l).

(** ** Effects *)

(** [!current || data.revision >= current.revision ? data : current]. *)
Definition newer {A} (rev : A -> Z) (data current : option A) : option A :=
  match data, current with
  | None, _ => current
  | Some d, None => Some d
  | Some d, Some c => if bool_decide (rev c <= rev d) then Some d else Some c
  end.

(** The second effect. *)
Definition adopt (l : live) : live :=
  if str_eqb (liveScopeKey l) (key_text (lv_key l)) then
    set_status (newer Status.st_revision (status_data l) (liveStatus l)) (lv_cache l)
      (set_snapshot (newer sn_revision (query_data l) (liveSnapshot l)) (lv_cache l) l)
  else l.

(** The first effect. *)
Definition reset (initialSlot : slot) (l : live) : live :=
  let k := key_text (lv_key l) in
  if str_eqb (resetScopeKey l) k then l
  else Live (lv_scope l) (lv_key l) k k (query_data l) (status_data l) None initialSlot None (lv_cache l) (lv_written l).

(** The updaters of [onStateUpdate]; a status and a snapshot are stored in the
    cache from within theirs. *)
Definition update_status (next : status) (l : live) : live :=
  if match liveStatus l with Some c => bool_decide (Status.st_revision next < Status.st_revision c) | None => false end then l
  else set_status (Some next) (store_status (lv_key l) next (lv_cache l)) l.

Definition update_slot (next : slot) (l : live) : live :=
  let current := livePrimaryAgentSlot l in
  let w := lv_written l in
  set_agent (if bool_decide (slot_revision next < slot_revision current) then current else next)
    (livePrimaryAgentOperationalState l) (Written (Some next) (wr_state w) (wr_grant w)) l.

Definition update_state (next : agent_state) (l : live) : live :=
  let current := livePrimaryAgentOperationalState l in
  let w := lv_written l in
  set_agent (livePrimaryAgentSlot l)
    (if match current with Some c => bool_decide (Contracts.st_revision next < Contracts.st_revision c) | None => false end
     then current else Some next)
    (Written (wr_slot w) (Some next) (wr_grant w)) l.

Definition update_grant (grant_id : string) (l : live) : live :=
  let w := lv_written l in
  set_agent (livePrimaryAgentSlot l) (livePrimaryAgentOperationalState l) (Written (wr_slot w) (wr_state w) (Some grant_id)) l.

Definition update_snapshot (ev : live_event) (l : live) : live :=
  match liveSnapshot l with
  | None => l
  | Some c => let next := applyTypedEvent c ev in set_snapshot (Some next) (store_workspace (lv_key l) next (lv_cache l)) l
  end.

(** [onStateUpdate]: the updaters run in the order they were queued. *)
Definition onStateUpdate (e : envelope) (ev : live_event) (l : live) : live :=
  let l := set_last (Some e) l in
  match ev with
  | LE_status next => update_status next l
  | LE_slot next => update_slot next l
  | LE_state next => update_state next l
  | LE_grant _ id => update_grant id l
  | _ => update_snapshot ev l
  end.

Section hook.
Context {zod : Zod} {parsers : PayloadParsers} {tp : TypedPayloads}.

(** The third effect, after the cleanup of the one before: a gateway of its own,
    to which the whole stream is replayed. *)
Definition replay_stream (stream : list (option envelope)) (l : live) : live :=
  foldl (fun l e => onStateUpdate e (typed e) l) (set_last None l) (gw_updates (gw_replay stream (new_gateway (lv_scope l))).1).

(** Another stream is given: the third effect, and then the second for what the
    events stored. *)
Definition stream_changes (stream : list (option envelope)) (l : live) : live := adopt (replay_stream stream l).

(** A query of any scope is answered. *)
Definition workspace_fetched (k : scope) (s : snapshot) (l : live) : live :=
  adopt (set_snapshot (liveSnapshot l) (store_workspace k s (lv_cache l)) l).
Definition status_fetched (k : scope) (s : status) (l : live) : live :=
  adopt (set_status (liveStatus l) (store_status k s (lv_cache l)) l).

(** The first render for another scope, before its effects. *)
Definition render_scope (sc k : scope) (l : live) : live :=
  Live sc k (liveScopeKey l) (resetScopeKey l) (liveSnapshot l) (liveStatus l) (lastEvent l) (livePrimaryAgentSlot l)
    (livePrimaryAgentOperationalState l) (lv_cache l) (lv_written l).

(** Another scope is given: the cleanup, the three effects of that render (the
    second still with the [liveScopeKey] of before), and the second effect once
    more. *)
Definition scope_changes (sc k : scope) (initialSlot : slot) (stream : list (option envelope)) (l : live) : live :=
  let r := render_scope sc k l in
  let l1 := reset initialSlot (set_last None r) in
  let l2 := if str_eqb (liveScopeKey r) (key_text k) then adopt l1 else l1 in
  adopt (replay_stream stream l2).

(** ** What is shown *)

Definition shown_snapshot (l : live) : option snapshot :=
  if str_eqb (liveScopeKey l) (key_text (lv_key l)) then liveSnapshot l else None.
Definition shown_status (l : live) : option status :=
  if str_eqb (liveScopeKey l) (key_text (lv_key l)) then liveStatus l else None.

(** The hook when it is mounted, its first effects included. *)
Definition mount (sc k : scope) (initialSlot : slot) (c : cache) (stream : list (option envelope)) : live :=
  stream_changes stream
    (Live sc k (key_text k) (key_text k) (workspaces c k) (statuses c k) None initialSlot None c (Written None None None)).

(** What can happen to the hook: it is mounted on a scope, with what the cache
    shows by then; a query of any scope is answered, with anything; another stream
    or another scope is given. The slot is the one the hook makes of its scope. *)
Inductive live_input : Type :=
| In_mount (sc k : scope) (now : date) (slot : slot) (c : cache) (stream : list (option envelope))
| In_workspace (k : scope) (s : snapshot)
| In_status (k : scope) (s : status)
| In_stream (stream : list (option envelope))
| In_scope (sc k : scope) (now : date) (slot : slot) (stream : list (option envelope)).

(** What each does to a mounted hook. A scope is one [normalizeSpatialNodeScope]
    accepts, and its slot the one [createPrimaryAgentSlot] makes: the hook throws
    otherwise. *)
Inductive live_step : live_input -> live -> live -> Prop :=
| ls_workspace k s l : live_step (In_workspace k s) l (workspace_fetched k s l)
| ls_status k s l : live_step (In_status k s) l (status_fetched k s l)
| ls_stream stream l : live_step (In_stream stream) l (stream_changes stream l)
| ls_scope sc k now slot stream l :
    normalizeSpatialNodeScope sc = Some k -> createPrimaryAgentSlot sc None None now = Ok slot ->
    live_step (In_scope sc k now slot stream) l (scope_changes sc k slot stream l).

(** A hook that was mounted, and whatever happened to it since, newest first. *)
Inductive opened : list live_input -> live -> Prop :=
| op_mount sc k now slot c stream : normalizeSpatialNodeScope sc = Some k ->
    createPrimaryAgentSlot sc None None now = Ok slot -> opened [In_mount sc k now slot c stream] (mount sc k slot c stream)
| op_step h i l l' : opened h l -> live_step i l l' -> opened (i :: h) l'.
End hook.

(** ** Queries and the state that is shown *)

Inductive data_mode : Type := mode_mock_real | mode_remote | mode_offline | mode_empty | mode_malformed.
#[export] Instance data_mode_eq_dec : EqDecision data_mode.
Proof. solve_decision. Defined.

(** Which of the sources were given. *)
Record sources : Type := Sources { has_repository : bool; has_clients : bool; has_workspaceLoader : bool; has_statusLoader : bool }.

(** The options a query is made with: [enabled], and whether there are
    [initialData]. *)
Record query_options : Type := QueryOptions { qo_enabled : bool; qo_initial : bool }.

(** What a query function asks. *)
Inductive query_source : Type := Ask_repository | Ask_clients | Ask_loader | Ask_initial | Ask_nothing (e : error_category).

Definition remote (m : data_mode) : bool := bool_decide (m = mode_remote).

Definition workspace_query (m : data_mode) (src : sources) : query_options :=
  QueryOptions (remote m && (has_repository src || has_clients src || has_workspaceLoader src) || bool_decide (m = mode_malformed))
    (negb (remote m || bool_decide (m = mode_malformed))).

Definition workspace_queryFn (m : data_mode) (src : sources) : query_source :=
  match m with
  | mode_malformed => Ask_nothing malformed
  | mode_remote =>
      if has_repository src then Ask_repository else if has_clients src then Ask_clients
      else if has_workspaceLoader src then Ask_loader else Ask_nothing network
  | _ => Ask_initial
  end.

Definition status_query (m : data_mode) (src : sources) : query_options :=
  QueryOptions (remote m && (has_clients src || has_statusLoader src)) (negb (remote m)).

Definition status_queryFn (m : data_mode) (src : sources) : query_source :=
  if remote m && has_clients src then Ask_clients else if remote m && has_statusLoader src then Ask_loader else Ask_initial.

(** What a query function can throw. *)
Inductive thrown : Type := T_api (e : api_error) | T_other.

Definition mapDataError (t : thrown) (path : string) : api_error :=
  match t with T_api e => e | T_other => ApiError network path None end.

(** [error] of the hook, from those of its queries. *)
Definition data_error (query statusQuery : option thrown) : option api_error :=
  match query with
  | Some t => Some (mapDataError t "/operators/spatial/workspace")
  | None => (fun t => mapDataError t "/operators/spatial/status") <$> statusQuery
  end.

Inductive shown_state : Type := S_error | S_loading | S_data (d : data_state).

Section state.
Context {math : HostMath}.

Definition projectionFor (o : option snapshot) (ns : option status) (p : quality_profile) : workspace_view :=
  match o with
  | Some s => composeSpatialWorkspaceViewModel s ns p
  | None => WorkspaceView [] [] None ns None 0 (match ns with Some n => fr_state (st_freshness n) | None => F_UNKNOWN end) ds_empty
  end.

Definition stateFor (o : option snapshot) (ns : option status) (isLoading : bool) (error : option api_error) (p : quality_profile) : shown_state :=
  match error with
  | Some _ => S_error
  | None => if isLoading then S_loading else S_data (dataState (projectionFor o ns p))
  end.
End state.

(** ** Applying an event *)

(** The list [{...list without those of the key, x}] of an upsert. *)
Lemma upserted_elem {A} (f : A -> string) (l : list A) x y :
  y ∈ List.filter (fun c => negb (str_eqb (f c) (f x))) l ++ [x] <-> y = x \/ (y ∈ l /\ f y <> f x).
Proof.
  rewrite elem_of_app, list_elem_of_singleton, !list_elem_of_In, List.filter_In. cbv beta.
  rewrite negb_true_iff, <-not_true_iff_false, str_eqb_eq. tauto.
Qed.

Lemma upserted_nodup {A} (f : A -> string) (l : list A) x : NoDup (map f l) ->
  NoDup (map f (List.filter (fun c => negb (str_eqb (f c) (f x))) l ++ [x])).
Proof.
  intros Hn. rewrite map_app. apply NoDup_app. split_and!; [|..|apply NoDup_singleton].
  - induction l as [|y l IH]; [done|]. cbn [map List.filter] in *. apply NoDup_cons in Hn as [Hy Hn].
    destruct (negb _); [|by apply IH]. cbn [map]. constructor; [|by apply IH]. intros (z & Ez & Hz)%list_elem_of_fmap. apply Hy. rewrite Ez.
    apply list_elem_of_fmap_2. apply list_elem_of_In, List.filter_In in Hz as [Hz _]. by apply list_elem_of_In.
  - intros k (y & -> & Hy)%list_elem_of_fmap Hk. apply list_elem_of_In, List.filter_In in Hy as [_ Hy].
    apply (list_elem_of_singleton (f y) (f x)) in Hk. by rewrite Hk, str_eqb_refl in Hy.
Qed.

(** An entity that is older than the semantic revision of the snapshot changes
    nothing. Any other is afterwards the last of the entities and the only one of
    its reference, the others are those that were there, both revisions have
    reached its own, and the relations are as they were. *)
Theorem entity_event_exact s archived e : let s' := applyTypedEvent s (LE_entity archived e) in
  (en_revision e < semantic_revision s -> s' = s) /\
  (semantic_revision s <= en_revision e ->
     (forall x, x ∈ entities s' <-> x = e \/ (x ∈ entities s /\ en_ref x <> en_ref e)) /\
     last (entities s') = Some e /\ semantic_revision s' = en_revision e /\ sn_revision s' = Z.max (sn_revision s) (en_revision e) /\
     relations s' = relations s) /\
  (NoDup (map en_ref (entities s)) -> NoDup (map en_ref (entities s'))).
Proof.
  cbn [applyTypedEvent]. case_bool_decide as Hr.
  { split_and!; [done | lia | done]. }
  split_and!; [lia | | intros Hn; by apply upserted_nodup]. intros _. split_and!; try done.
  - intros x. apply upserted_elem.
  - cbn [entities]. by rewrite last_snoc.
  - cbn [semantic_revision]. lia.
Qed.

(** The same for a relation. *)
Theorem relation_event_exact s r : let s' := applyTypedEvent s (LE_relation r) in
  (re_revision r < semantic_revision s -> s' = s) /\
  (semantic_revision s <= re_revision r ->
     (forall x, x ∈ relations s' <-> x = r \/ (x ∈ relations s /\ re_id x <> re_id r)) /\
     last (relations s') = Some r /\ semantic_revision s' = re_revision r /\ sn_revision s' = Z.max (sn_revision s) (re_revision r) /\
     entities s' = entities s) /\
  (NoDup (map re_id (relations s)) -> NoDup (map re_id (relations s'))).
Proof.
  cbn [applyTypedEvent]. case_bool_decide as Hr.
  { split_and!; [done | lia | done]. }
  split_and!; [lia | | intros Hn; by apply upserted_nodup]. intros _. split_and!; try done.
  - intros x. apply upserted_elem.
  - cbn [relations]. by rewrite last_snoc.
  - cbn [semantic_revision]. lia.
Qed.

Lemma applied_semantic s ev : semantic_revision s <= semantic_revision (applyTypedEvent s ev).
Proof. destruct ev; cbn [applyTypedEvent]; try done; case_bool_decide; cbn [semantic_revision]; lia. Qed.

Lemma applied_node s ev : (forall n, event_node ev = Some n -> n = sn_node s) -> sn_node (applyTypedEvent s ev) = sn_node s.
Proof.
  intros Hn. destruct ev as [ | | | |next|archived e|r| ]; cbn [applyTypedEvent]; try done; case_bool_decide; try done.
  by apply Hn.
Qed.

(** ** Nothing goes back *)

(** A value is there again, with a revision that is not older. *)
Definition no_older {A} (rev : A -> Z) (a b : option A) : Prop :=
  match a with Some x => exists y, b = Some y /\ rev x <= rev y | None => True end.

#[export] Instance no_older_preorder {A} (rev : A -> Z) : PreOrder (no_older rev).
Proof.
  split.
  - intros [x|]; [|done]. by exists x.
  - intros [x|] b c; [|done]. intros (y & -> & Hy) (z & -> & Hz). exists z. split; [done | lia].
Qed.

Lemma newer_no_older {A} (rev : A -> Z) d c : no_older rev c (newer rev d c).
Proof.
  destruct c as [c|]; [|done]. destruct d as [d|]; cbn; [|by exists c]. case_bool_decide; [by exists d | by exists c].
Qed.

Lemma newer_idem {A} (rev : A -> Z) d c : newer rev d (newer rev d c) = newer rev d c.
Proof.
  destruct d as [d|]; [|done]. destruct c as [c|]; cbn; [|by rewrite bool_decide_true].
  case_bool_decide as H; cbn; [by rewrite bool_decide_true | by rewrite bool_decide_false].
Qed.

Lemma newer_same {A} (rev : A -> Z) d : newer rev d d = d.
Proof. destruct d; cbn; [|done]. by rewrite bool_decide_true. Qed.

(** The hook has taken over what its queries show. *)
Definition settled (l : live) : Prop :=
  newer sn_revision (query_data l) (liveSnapshot l) = liveSnapshot l /\
  newer Status.st_revision (status_data l) (liveStatus l) = liveStatus l.

(** What is shown of a Node is not older, by the semantic revision of the
    snapshot. *)
Record forward (l l' : live) : Prop := {
  fw_snapshot : no_older semantic_revision (liveSnapshot l) (liveSnapshot l');
  fw_status : no_older Status.st_revision (liveStatus l) (liveStatus l');
  fw_slot : slot_revision (livePrimaryAgentSlot l) <= slot_revision (livePrimaryAgentSlot l');
  fw_state : no_older Contracts.st_revision (livePrimaryAgentOperationalState l) (livePrimaryAgentOperationalState l');
}.

#[export] Instance forward_preorder : PreOrder forward.
Proof. split; [by split|]. intros a b c [] []. split; etransitivity; eassumption. Qed.

Lemma upd_same {A} (f : scope -> A) k a : upd f k a k = a.
Proof. unfold upd. by rewrite bool_decide_true. Qed.

Lemma forward_snapshot ev l : forward l (update_snapshot ev l).
Proof.
  unfold update_snapshot. destruct (liveSnapshot l) as [c|] eqn:E; [|done]. split; cbn; try done. rewrite E.
  eexists. split; [done | apply applied_semantic].
Qed.

Lemma update_forward e ev l : forward l (onStateUpdate e ev l).
Proof.
  transitivity (set_last (Some e) l); [by split|]. unfold onStateUpdate. generalize (set_last (Some e) l). clear l. intros l.
  destruct ev; try apply forward_snapshot.
  - unfold update_status. destruct (liveStatus l) as [c|] eqn:E; [case_bool_decide|]; split; cbn; rewrite ?E; try done.
    eexists. split; [done | lia].
  - split; cbn; try done. case_bool_decide; lia.
  - split; cbn; try done. destruct (livePrimaryAgentOperationalState l) as [c|]; [|done]. cbn.
    case_bool_decide; eexists; (split; [done | lia]).
  - by split.
Qed.

(** What the hook has taken over stays so. *)
Lemma update_settled e ev l : settled l -> settled (onStateUpdate e ev l).
Proof.
  intros [H1 H2]. assert (H : settled (set_last (Some e) l)) by done. unfold onStateUpdate. revert H.
  generalize (set_last (Some e) l). clear l H1 H2. intros l [H1 H2].
  assert (Hs : forall ev, settled (update_snapshot ev l)).
  { intros ev'. unfold update_snapshot. destruct (liveSnapshot l) as [c|] eqn:E; [|by split; rewrite ?E]. split; [|done].
    unfold query_data. cbn. rewrite upd_same. apply newer_same. }
  destruct ev; try apply Hs; try by split.
  unfold update_status. destruct (match liveStatus l with Some c => _ | None => _ end); [by split|]. split; [done|].
  unfold status_data. cbn. rewrite upd_same. apply newer_same.
Qed.

Lemma adopt_settled l : liveScopeKey l = key_text (lv_key l) -> settled (adopt l).
Proof. intros H. unfold adopt. rewrite H, str_eqb_refl. split; cbn; apply newer_idem. Qed.

(** What is settled has nothing to take over. *)
Lemma settled_adopt l : settled l -> adopt l = l.
Proof. intros [H1 H2]. unfold adopt. destruct (str_eqb _ _); [|done]. rewrite H1, H2. by destruct l. Qed.

(** ** Scopes and their keys *)

Fixpoint no_colon (s : string) : bool :=
  match s with
  | EmptyString => true
  | String c s => negb (Ascii.eqb c ":") && no_colon s
  end.

(** Between hypervisors without a colon in their name, scopes have keys of their
    own. *)
Lemma key_text_inj a b : no_colon (hypervisor_id a) = true -> no_colon (hypervisor_id b) = true -> key_text a = key_text b -> a = b.
Proof.
  destruct a as [h n], b as [h' n']. unfold key_text. cbn [hypervisor_id scope_node_id]. revert h'.
  induction h as [|c h IH]; intros [|c' h']; cbn [no_colon]; rewrite ?andb_true_iff; intros H H' E.
  - injection E as E. change (n = n') in E. by rewrite E.
  - injection E as <- _. by destruct H'.
  - injection E as -> _. by destruct H.
  - destruct H as [_ H], H' as [_ H']. injection E as -> E. specialize (IH h' H H' E). congruence.
Qed.

Section hook_laws.
Context {zod : Zod} {laws : ZodLaws zod} {parsers : PayloadParsers} {tp : TypedPayloads} {typed_laws : TypedLaws tp}.

Lemma key_text_is_scope_key sc k : normalizeSpatialNodeScope sc = Some k -> spatialScopeKey sc = Some (key_text k).
Proof using. intros H. unfold spatialScopeKey. by rewrite H. Qed.

(** The scope and its keys, which no event changes. *)
Definition keys (l : live) : scope * scope * string * string := (lv_scope l, lv_key l, liveScopeKey l, resetScopeKey l).

Lemma update_keys e ev l : keys (onStateUpdate e ev l) = keys l.
Proof using.
  unfold onStateUpdate. destruct ev; try done; cbn; unfold update_status, update_snapshot; cbn.
  - by destruct (match liveStatus l with Some c => _ | None => _ end).
  - by destruct (liveSnapshot l).
  - by destruct (liveSnapshot l).
  - by destruct (liveSnapshot l).
  - by destruct (liveSnapshot l).
Qed.

Lemma adopt_keys l : keys (adopt l) = keys l.
Proof using. unfold adopt. by destruct (str_eqb _ _). Qed.

(** ** Delivered events *)

Lemma parsed_node p e : parseSpatialEventEnvelope p = Ok e -> trim (ev_node_id e) = ev_node_id e.
Proof using laws.
  destruct p as [e0|]; [|done]. cbn. destruct (spatialEventEnvelopeSchema e0) as [e1|] eqn:E; [|done]. intros H.
  assert (Hn : ev_node_id e = ev_node_id e1).
  { unfold parsePayload in H. destruct (contract_of _); [|done]. destruct (parse_payload _ _); [|done]. by injection H as <-. }
  rewrite Hn. unfold spatialEventEnvelopeSchema in E. inv_ok.
  match goal with H : idSchema (ev_node_id e0) = Some _ |- _ => apply idSchema_spec in H as [-> _] end. apply trim_idem.
Qed.

Lemma parsed_updates l g g' rs : gw_replay l g = (g', rs) ->
  Forall (fun e => trim (ev_node_id e) = ev_node_id e) (gw_updates g) -> Forall (fun e => trim (ev_node_id e) = ev_node_id e) (gw_updates g').
Proof using laws.
  revert g rs. induction l as [|p l IH]; intros g rs H Hg; cbn [gw_replay] in H; [by injection H as <- <-|].
  destruct (gw_ingest p g) as [g1 r] eqn:Hi. destruct (gw_replay l g1) as [g2 rs2] eqn:Hr. injection H as <- <-.
  eapply IH; [done|]. apply gw_ingest_cases in Hi as [(e & Hp & _ & -> & _)|(_ & _ & d & ->)]; [|done].
  cbn. apply Forall_app. split; [done|]. constructor; [by eapply parsed_node | done].
Qed.

Lemma later_replay_scope l g g' rs : gw_replay l g = (g', rs) -> gw_scope g' = gw_scope g.
Proof using. intros H. apply later_replay in H. by destruct H. Qed.

(** An event that reaches the hook is of the scope's Node, and then the scope was
    given without blanks around its Node. *)
Lemma delivered_node sc stream e : e ∈ gw_updates (gw_replay stream (new_gateway sc)).1 ->
  payloadNodeId (ev_payload e) = Some (scope_node_id sc) /\ trim (scope_node_id sc) = scope_node_id sc.
Proof using laws.
  destruct (gw_replay stream (new_gateway sc)) as [g rs] eqn:H. intros He.
  pose proof (gw_ok_replay _ _ _ _ H (new_gateway_ok sc)) as [_ _ _ _ _ _ Hs _ _].
  pose proof (parsed_updates _ _ _ _ H (Forall_nil_2 _)) as Ht. rewrite Forall_forall in Hs, Ht.
  destruct (Hs e He) as [Hn Hp]. rewrite (later_replay_scope _ _ _ _ H) in Hn. cbn in Hn. rewrite <-Hn. split; [done | by apply Ht].
Qed.

(** ** Replays *)

(** What holds after the cleanup, and is preserved by every delivered event, holds
    after the replay. *)
Lemma replay_invariant (P : live -> Prop) stream l : P (set_last None l) ->
  (forall e l', e ∈ gw_updates (gw_replay stream (new_gateway (lv_scope l))).1 -> keys l' = keys l -> P l' -> P (onStateUpdate e (typed e) l')) ->
  P (replay_stream stream l) /\ keys (replay_stream stream l) = keys l.
Proof using.
  intros H0 Hs. unfold replay_stream. apply (foldl_invariant (fun l' => P l' /\ keys l' = keys l)); [|done].
  intros l' e He [HP Hk]. split; [by apply Hs | by rewrite update_keys].
Qed.

Lemma replay_forward stream l : forward l (replay_stream stream l).
Proof using.
  apply (replay_invariant (forward l)); [by split|]. intros e l' _ _ H. etransitivity; [exact H | apply update_forward].
Qed.

Lemma replay_settled stream l : settled l -> settled (replay_stream stream l).
Proof using. intros H. apply (replay_invariant settled); [done|]. intros e l' _ _. apply update_settled. Qed.

(** ** The invariant *)

Definition has_node {A} (f : A -> string) (k : scope) (o : option A) : Prop := forall a, o = Some a -> f a = scope_node_id k.

Record cache_ok (c : cache) : Prop := {
  co_workspaces : forall k, has_node sn_node k (workspaces c k);
  co_statuses : forall k, has_node st_node k (statuses c k);
}.

Record live_ok (l : live) : Prop := {
  lo_norm : normalizeSpatialNodeScope (lv_scope l) = Some (lv_key l);
  lo_plain : no_colon (hypervisor_id (lv_key l)) = true;
  lo_key : liveScopeKey l = key_text (lv_key l);
  lo_reset : resetScopeKey l = key_text (lv_key l);
  lo_cache : cache_ok (lv_cache l);
  lo_snapshot : has_node sn_node (lv_key l) (liveSnapshot l);
  lo_status : has_node st_node (lv_key l) (liveStatus l);
  lo_slot : slot_node_id (livePrimaryAgentSlot l) = scope_node_id (lv_key l);
  lo_state : has_node st_node_id (lv_key l) (livePrimaryAgentOperationalState l);
}.

(** An answer names the Node it was asked of, and so does what the cache shows when
    the hook is mounted: the clients and the repository refuse any other
    ([assertSpatialScope], [nodeIdFor]), the loaders are the host's. *)
Definition answers_its_node (i : live_input) : Prop :=
  match i with
  | In_mount _ _ _ _ c _ => cache_ok c
  | In_workspace k s => sn_node s = scope_node_id k
  | In_status k s => st_node s = scope_node_id k
  | _ => True
  end.

(** A scope that is given has no colon in the name of its hypervisor: see
    [scope_keys_collide]. *)
Definition plain_hypervisor (i : live_input) : Prop :=
  match i with
  | In_mount _ k _ _ _ _ | In_scope _ k _ _ _ => no_colon (hypervisor_id k) = true
  | _ => True
  end.

Lemma stored_workspace c k s : cache_ok c -> sn_node s = scope_node_id k -> cache_ok (store_workspace k s c).
Proof using.
  intros [H1 H2] Hs. split; [|done]. intros k' a. cbn. unfold upd. case_bool_decide as E; [|apply H1]. subst. by intros [= <-].
Qed.

Lemma stored_status c k s : cache_ok c -> st_node s = scope_node_id k -> cache_ok (store_status k s c).
Proof using.
  intros [H1 H2] Hs. split; [done|]. intros k' a. cbn. unfold upd. case_bool_decide as E; [|apply H2]. subst. by intros [= <-].
Qed.

Lemma newer_node {A} (f : A -> string) rev k d c : has_node f k d -> has_node f k c -> has_node f k (newer rev d c).
Proof using.
  intros Hd Hc a. destruct d as [d|]; [|apply Hc]. destruct c as [c|]; cbn; [|apply Hd]. case_bool_decide; [apply Hd | apply Hc].
Qed.

Lemma adopt_ok l : live_ok l -> live_ok (adopt l).
Proof using.
  intros []. unfold adopt. destruct (str_eqb _ _); [|by split]. split; try done; cbn.
  - apply newer_node; [by apply co_workspaces | done].
  - apply newer_node; [by apply co_statuses | done].
Qed.

Lemma trimmed_scope sc k : normalizeSpatialNodeScope sc = Some k -> scope_node_id k = trim (scope_node_id sc).
Proof using laws.
  unfold normalizeSpatialNodeScope. intros H. inv_some. cbn.
  match goal with H : idSchema (scope_node_id sc) = Some _ |- _ => by apply idSchema_spec in H as [-> _] end.
Qed.

Lemma live_update_ok e ev l : (forall n, event_node ev = Some n -> n = scope_node_id (lv_key l)) -> live_ok l -> live_ok (onStateUpdate e ev l).
Proof using.
  intros Hn Hl. assert (H : live_ok (set_last (Some e) l)) by (by destruct Hl; split). revert H Hn. unfold onStateUpdate.
  change (lv_key l) with (lv_key (set_last (Some e) l)). generalize (set_last (Some e) l). clear l Hl. intros l [] Hn.
  assert (Hs : live_ok (update_snapshot ev l)).
  { unfold update_snapshot. destruct (liveSnapshot l) as [c|] eqn:E; [|split; try done; by rewrite E].
    assert (Hc : sn_node (applyTypedEvent c ev) = scope_node_id (lv_key l)).
    { rewrite applied_node; [by apply lo_snapshot0|]. intros n En. rewrite (Hn n En). symmetry. by apply lo_snapshot0. }
    split; try done; cbn; [by apply stored_workspace | by intros a [= <-]]. }
  destruct ev as [next|next|next|n id| | | | ]; try exact Hs; specialize (Hn _ eq_refl).
  - unfold update_status. destruct (match liveStatus l with Some c => _ | None => _ end); [by split|].
    split; try done; cbn; [by apply stored_status | by intros a [= <-]].
  - split; try done. cbn. by case_bool_decide.
  - split; try done. cbn. destruct (match livePrimaryAgentOperationalState l with Some c => _ | None => _ end); [done | by intros a [= <-]].
  - by split.
Qed.

Lemma live_replay_ok stream l : live_ok l -> live_ok (replay_stream stream l).
Proof using laws typed_laws.
  intros H. apply (replay_invariant live_ok); [by destruct H; split|]. intros e l' He Hk Hl. apply live_update_ok; [|done].
  intros n Hn. apply typed_node in Hn. apply delivered_node in He as [Hp Ht]. destruct H.
  assert (Hk' : lv_key l' = lv_key l) by (by injection Hk). rewrite Hk', (trimmed_scope _ _ lo_norm0), Ht. congruence.
Qed.

(** ** What the hook shows *)

Lemma created_node sc k now s : normalizeSpatialNodeScope sc = Some k -> createPrimaryAgentSlot sc None None now = Ok s ->
  slot_node_id s = scope_node_id k.
Proof using laws.
  intros Hk H. pose proof (trimmed_scope _ _ Hk) as Ht. unfold createPrimaryAgentSlot, scope_of in H. rewrite Hk in H. inv_ok. unfold spatialPrimaryAgentSlotSchema in *.
  inv_some. cbn in *.
  repeat match goal with H : idSchema _ = Some _ |- _ => apply idSchema_spec in H as [-> _] end.
  match goal with H : requireText (scope_node_id _) = Ok _ |- _ => unfold requireText in H; destruct (str_eqb _ _); [done|]; injection H as <- end.
  by rewrite Ht, !trim_idem.
Qed.

Lemma mounted_ok sc k now slot c stream : normalizeSpatialNodeScope sc = Some k -> no_colon (hypervisor_id k) = true ->
  createPrimaryAgentSlot sc None None now = Ok slot -> cache_ok c -> live_ok (mount sc k slot c stream).
Proof using laws typed_laws.
  intros Hk Hc Hs []. apply adopt_ok, live_replay_ok. split; try done; cbn; auto. by eapply created_node.
Qed.

(** A scope whose key is not the old one's is taken over whole. *)
Lemma reset_ok sc k slot l : live_ok l -> normalizeSpatialNodeScope sc = Some k -> no_colon (hypervisor_id k) = true ->
  slot_node_id slot = scope_node_id k -> live_ok (reset slot (set_last None (render_scope sc k l))).
Proof using.
  intros [] Hk Hc Hs. unfold reset. cbn. destruct (str_eqb _ _) eqn:E.
  - apply str_eqb_eq in E. rewrite lo_reset0 in E. apply key_text_inj in E; [|done..]. subst k. by split.
  - split; try done; cbn; intros a Ha; [by apply (co_workspaces _ lo_cache0) | by apply (co_statuses _ lo_cache0)].
Qed.

(** The keys of a mounted hook are those of its scope, whatever happened. *)
Definition keys_ok (l : live) : Prop := liveScopeKey l = key_text (lv_key l) /\ resetScopeKey l = key_text (lv_key l).

Lemma keys_ok_same l l' : keys l' = keys l -> keys_ok l -> keys_ok l'.
Proof using. unfold keys_ok. intros [= _ -> -> ->]. done. Qed.

Lemma replay_keys stream l : keys (replay_stream stream l) = keys l.
Proof using. by destruct (replay_invariant (fun _ => True) stream l I (fun _ _ _ _ _ => I)). Qed.

Lemma reset_keys sc k slot l : keys_ok l -> keys_ok (reset slot (set_last None (render_scope sc k l))).
Proof using.
  intros [H1 H2]. unfold reset. cbn. destruct (str_eqb _ _) eqn:E; [|done]. apply str_eqb_eq in E. split; cbn; congruence.
Qed.

Lemma opened_keys h l : opened h l -> keys_ok l.
Proof using.
  induction 1 as [sc k now slot c stream Hk Hs|h i l l' _ IH Hstep].
  - eapply keys_ok_same; [etransitivity; [apply adopt_keys | apply replay_keys]|]. done.
  - destruct Hstep; (eapply keys_ok_same; [apply adopt_keys|]); [exact IH | exact IH | | ];
      (eapply keys_ok_same; [apply replay_keys|]); [exact IH|].
    destruct (str_eqb _ _); [eapply keys_ok_same; [apply adopt_keys|]|]; by apply reset_keys.
Qed.

Lemma opened_ok h l : opened h l -> Forall answers_its_node h -> Forall plain_hypervisor h -> live_ok l.
Proof using laws typed_laws.
  induction 1 as [sc k now slot c stream Hk Hs|h i l l' _ IH Hstep]; intros [Ha Has]%Forall_cons [Hp Hps]%Forall_cons.
  { by eapply mounted_ok. }
  specialize (IH Has Hps). destruct Hstep as [k s l|k s l|stream l|sc k now slot stream l Hk Hs]; cbn in Ha, Hp.
  - apply adopt_ok. destruct IH. split; try done. by apply stored_workspace.
  - apply adopt_ok. destruct IH. split; try done. by apply stored_status.
  - by apply adopt_ok, live_replay_ok.
  - apply adopt_ok, live_replay_ok.
    assert (Hr : live_ok (reset slot (set_last None (render_scope sc k l)))) by (apply reset_ok; try done; by eapply created_node).
    destruct (str_eqb _ _); [by apply adopt_ok | done].
Qed.

Lemma adopted_settled l : keys_ok (adopt l) -> settled (adopt l).
Proof using. intros [H _]. apply adopt_settled. pose proof (adopt_keys l) as E. injection E as E1 E2 E3 E4. congruence. Qed.

Lemma opened_settled h l : opened h l -> settled l.
Proof using.
  intros H. pose proof (opened_keys _ _ H) as Hok. destruct H as [sc k0 now slot c stream|h i l l' _ Hstep]; [|destruct Hstep];
    by apply adopted_settled.
Qed.

(** C36. What is shown belongs to the Node of the scope. Once the effects have run
    the hook holds back none of the snapshot and the status it has, in every
    history of answers, streams and scopes. And in a history in which every answer
    names the Node it was asked of, as does what the cache shows when the hook is
    mounted, and no scope has a colon in the name of its hypervisor, the snapshot,
    the status, the slot and the state of the Primary Agent that are shown are
    those of the scope's Node, whatever the streams bring (an event is read as
    being of the Node its payload names). *)
Theorem live_stays_in_scope h l : opened h l ->
  shown_snapshot l = liveSnapshot l /\ shown_status l = liveStatus l /\
  (Forall answers_its_node h -> Forall plain_hypervisor h ->
   (forall s, shown_snapshot l = Some s -> sn_node s = scope_node_id (lv_key l)) /\
   (forall s, shown_status l = Some s -> st_node s = scope_node_id (lv_key l)) /\
   slot_node_id (livePrimaryAgentSlot l) = scope_node_id (lv_key l) /\
   (forall s, livePrimaryAgentOperationalState l = Some s -> st_node_id s = scope_node_id (lv_key l))).
Proof using laws typed_laws.
  intros H. destruct (opened_keys _ _ H) as [Hk _]. unfold shown_snapshot, shown_status. rewrite Hk, str_eqb_refl.
  split; [done|]. split; [done|]. intros Ha Hp. by destruct (opened_ok _ _ H Ha Hp).
Qed.

(** While the scope stays, nothing that is shown goes back. Events replace a
    snapshot only by one whose semantic revision is not older, an answer only by
    one whose revision is not older, and status, slot and state never by older
    ones; an answer to one query leaves what the other is about. *)
Theorem live_data_never_go_back h l : opened h l ->
  (forall stream, forward l (stream_changes stream l)) /\
  (forall k s, let l' := workspace_fetched k s l in
     no_older sn_revision (liveSnapshot l) (liveSnapshot l') /\ liveStatus l' = liveStatus l /\
     livePrimaryAgentSlot l' = livePrimaryAgentSlot l /\ livePrimaryAgentOperationalState l' = livePrimaryAgentOperationalState l) /\
  (forall k s, let l' := status_fetched k s l in
     no_older Status.st_revision (liveStatus l) (liveStatus l') /\ liveSnapshot l' = liveSnapshot l /\
     livePrimaryAgentSlot l' = livePrimaryAgentSlot l /\ livePrimaryAgentOperationalState l' = livePrimaryAgentOperationalState l).
Proof using.
  intros H. pose proof (opened_settled _ _ H) as [H1 H2]. split_and!.
  - intros stream. unfold stream_changes. rewrite settled_adopt by (apply replay_settled; by split). apply replay_forward.
  - intros k s. cbn. unfold workspace_fetched, adopt. cbn. destruct (str_eqb _ _); [|done].
    split_and!; [apply newer_no_older | exact H2 | done | done].
  - intros k s. cbn. unfold status_fetched, adopt. cbn. destruct (str_eqb _ _); [|done].
    split_and!; [apply newer_no_older | exact H1 | done | done].
Qed.
End hook_laws.

(** ** The state that is shown *)

Section shown.
Context {math : HostMath}.

(** An error is shown before anything else, then that something is still loading;
    the data are ready only of a snapshot with entities. A query that can fail
    shows the error it failed with, the workspace's before the status's. *)
Theorem shown_state_exact o ns loading err p :
  (stateFor o ns loading err p = S_error <-> is_Some err) /\
  (stateFor o ns loading err p = S_loading <-> err = None /\ loading = true) /\
  (stateFor o ns loading err p = S_data ds_ready -> exists s, o = Some s /\ entities s <> []) /\
  (forall q sq, is_Some (data_error q sq) <-> is_Some q \/ is_Some sq).
Proof.
  unfold stateFor. split_and!.
  - destruct err; [done|]. destruct loading; (split; [done | by intros []]).
  - destruct err; [by split; [|intros []]|]. destruct loading; by split; [|intros []].
  - destruct err; [done|]. destruct loading; [done|]. intros [= H]. destruct o as [s|]; [|done]. exists s. split; [done|].
    intros E. cbn in H. by rewrite E in H.
  - intros [q|] sq; cbn; [by split; eauto|]. rewrite fmap_is_Some. split; [eauto | by intros [[? [=]]|]].
Qed.

(** An enabled workspace query of a remote Node always has someone to ask. *)
Theorem enabled_query_asks src : qo_enabled (workspace_query mode_remote src) = true ->
  workspace_queryFn mode_remote src ∈ [Ask_repository; Ask_clients; Ask_loader].
Proof.
  destruct src as [[] [] [] []]; cbn; intros H; rewrite !elem_of_cons; try done; by eauto.
Qed.
End shown.

Module LiveWitness.
#[local] Existing Instance zod_ref.
#[local] Instance parsers : PayloadParsers := fun _ v => Ok v.

Definition snap (node : string) (rev sem : Z) (es : list entity) : snapshot := Snapshot "w" node rev sem 1 1 es [] [] [] None.

(** Casts of payloads that hold no more than their Node and a revision. *)
#[local] Instance casts : TypedPayloads := fun e =>
  match payloadNodeId (ev_payload e) with
  | None => LE_other
  | Some n =>
      if str_eqb (ev_event_type e) "spatial.primary-agent.state-changed.v1"
      then LE_state (AgentState n "slot" None Contracts.OFFLINE SEV_NONE "src" (ev_revision e) 0 None None)
      else LE_workspace (snap n (ev_revision e) (ev_revision e) [])
  end.

#[local] Instance casts_keep_the_node : TypedLaws casts.
Proof.
  intros e n. unfold typed, casts. destruct (payloadNodeId (ev_payload e)) as [m|]; [|done]. by destruct (str_eqb _ _).
Qed.

Definition event (id type : string) (seq rev : Z) : option envelope :=
  Some (Envelope id type "v1" "node" seq rev 0 None None (JObj [("node_id", JStr "node")]%string)).
Definition stream : list (option envelope) :=
  [event "e1" "spatial.primary-agent.state-changed.v1" 1 4; event "e2" "spatial.workspace.updated.v1" 2 9;
   event "e3" "spatial.workspace.updated.v1" 3 5].
Definition sc : scope := Scope "hv" "node".
Definition none_cached : cache := Cache (fun _ => None) (fun _ => None).
Definition the_slot (sc : scope) : slot :=
  match createPrimaryAgentSlot sc None None (Some 0) with Ok s => s | Err _ => Slot "" "" None UNASSIGNED 0 None None None None None None None None end.
Definition l0 : live := mount sc sc (the_slot sc) none_cached [].
Definition l1 : live := workspace_fetched sc (snap "node" 3 3 []) l0.
Definition l2 : live := stream_changes stream l1.

Definition mounted : list live_input := [In_mount sc sc (Some 0) (the_slot sc) none_cached []].
Definition answered : list live_input := In_workspace sc (snap "node" 3 3 []) :: mounted.

Lemma l1_opened : opened answered l1.
Proof. apply (op_step mounted _ l0); [|apply ls_workspace]. by apply op_mount. Qed.

Lemma live_stays_in_scope_witness :
  (sn_node <$> shown_snapshot l2) = Some "node"%string /\ (sn_revision <$> shown_snapshot l2) = Some 9 /\
  forall s, livePrimaryAgentOperationalState l2 = Some s -> st_node_id s = "node"%string.
Proof.
  split; [vm_compute; reflexivity|]. split; [vm_compute; reflexivity|].
  apply (live_stays_in_scope (In_stream stream :: answered) l2).
  - apply (op_step answered _ l1); [exact l1_opened | apply ls_stream].
  - by repeat constructor.
  - by repeat constructor.
Defined.

Lemma never_go_back_witness : no_older semantic_revision (liveSnapshot l1) (liveSnapshot l2).
Proof. destruct (live_data_never_go_back answered l1 l1_opened) as [H _]. apply (H stream). Defined.

(** An answer of another Node is shown: the hook does not look at what it is
    given, and leaves it to whoever asked. *)
Theorem foreign_answer_is_shown : exists h l, opened h l /\ Forall plain_hypervisor h /\
  (sn_node <$> shown_snapshot l) = Some "elsewhere"%string /\ scope_node_id (lv_key l) = "node"%string.
Proof.
  exists (In_workspace sc (snap "elsewhere" 3 3 []) :: mounted), (workspace_fetched sc (snap "elsewhere" 3 3 []) l0). split_and!.
  - apply (op_step mounted _ l0); [by apply op_mount | apply ls_workspace].
  - by repeat constructor.
  - vm_compute. reflexivity.
  - vm_compute. reflexivity.
Qed.
End LiveWitness.

(** ** Edge behaviour *)

Definition live_ent (ref : string) (rev : Z) : entity :=
  Entity ref ref "n" rev ref "READY" AV_AVAILABLE (Freshness F_FRESH 5 (num 30) "node") 1 1 None (D_service "s" None).

(** An entity's own newer revision is dropped when another resource has moved the
    revision of the snapshot on. *)
Theorem newer_entity_is_dropped : exists s old new, entities s = [old] /\ en_ref new = en_ref old /\
  en_revision old < en_revision new /\ applyTypedEvent s (LE_entity false new) = s.
Proof.
  exists (LiveWitness.snap "n" 9 9 [live_ent "e" 2]), (live_ent "e" 2), (live_ent "e" 3). done.
Qed.

(** The two revisions of a snapshot are compared by one side each: an event can
    take [revision] back and an answer [semantic_revision]. *)
Theorem each_side_lowers_the_other :
  (exists s next, sn_revision (applyTypedEvent s (LE_workspace next)) < sn_revision s) /\
  (exists data current s, newer sn_revision (Some data) (Some current) = Some s /\ semantic_revision s < semantic_revision current).
Proof.
  split.
  - by exists (LiveWitness.snap "n" 9 4 []), (LiveWitness.snap "n" 1 4 []).
  - by exists (LiveWitness.snap "n" 9 1 []), (LiveWitness.snap "n" 9 4 []), (LiveWitness.snap "n" 9 1 []).
Qed.

(** A whole workspace that an event brings before the query was answered is
    dropped. *)
Theorem first_workspace_event_is_lost s l : liveSnapshot l = None -> update_snapshot (LE_workspace s) l = l.
Proof. intros H. unfold update_snapshot. by rewrite H. Qed.

(** A slot that is too old to be shown is stored in the cache. *)
Theorem stale_slot_is_stored next l : slot_revision next < slot_revision (livePrimaryAgentSlot l) ->
  livePrimaryAgentSlot (update_slot next l) = livePrimaryAgentSlot l /\ wr_slot (lv_written (update_slot next l)) = Some next.
Proof. intros H. split; [|done]. cbn. by rewrite bool_decide_true. Qed.

(** The first render for another scope hides the snapshot and the status of the
    old one but not its Primary Agent. *)
Theorem first_render_shows_the_old_agent {zod : Zod} sc k l : live_ok l -> key_text k <> key_text (lv_key l) ->
  let r := render_scope sc k l in
  shown_snapshot r = None /\ shown_status r = None /\ slot_node_id (livePrimaryAgentSlot r) = scope_node_id (lv_key l).
Proof.
  intros [] Hk. unfold shown_snapshot, shown_status. cbn. rewrite lo_key0.
  destruct (str_eqb _ _) eqn:E; [|done]. apply str_eqb_eq in E. congruence.
Qed.

(** Two scopes can share their key, and then the hook does not notice that the
    scope was exchanged: it goes on showing the workspace of another Node. *)
Theorem scope_keys_collide : exists sc sc' c,
  let l := mount (zod := zod_ref) (parsers := LiveWitness.parsers) (tp := LiveWitness.casts) sc sc (LiveWitness.the_slot sc) c [] in
  let l' := scope_changes (zod := zod_ref) (parsers := LiveWitness.parsers) (tp := LiveWitness.casts) sc' sc' (LiveWitness.the_slot sc') [] l in
  scope_node_id sc <> scope_node_id sc' /\ lv_key l' = sc' /\ (sn_node <$> shown_snapshot l') = Some (scope_node_id sc).
Proof.
  exists (Scope "a" "b:c"), (Scope "a:b" "c"),
    (Cache (fun k => if bool_decide (k = Scope "a" "b:c") then Some (LiveWitness.snap "b:c" 1 1 []) else None) (fun _ => None)).
  vm_compute. done.
Qed.

(** A remote Node whose workspace is read from a repository alone is shown as
    loading for ever: nobody answers for its status, whose query is never made.
    That such a query is pending is what the query library says. *)
Theorem repository_alone_keeps_loading {math : HostMath} (isPending : query_options -> bool) s p :
  (forall o, qo_enabled o = false -> qo_initial o = false -> isPending o = true) ->
  let src := Sources true false false false in
  workspace_queryFn mode_remote src = Ask_repository /\ qo_enabled (workspace_query mode_remote src) = true /\
  stateFor (Some s) None (isPending (workspace_query mode_remote src) || isPending (status_query mode_remote src)) None p = S_loading.
Proof.
  intros H. split; [done|]. split; [done|]. by rewrite (H (status_query mode_remote _)), orb_true_r by done.
Qed.
