(* ===== verification/Scene.v ===== *)
(** * The calibration scene

    src/web/operator-dashboard/src/spatial-calibration/model.ts and endpoint.ts: the
    configuration of a scene, the presets, and the entities that move in it.
    Coordinates, speeds and times are rationals (the rounding of doubles is left
    out); sine and cosine are the host's. An entity is a value: [update] gives the
    entity after the call. What the renderer freezes is not told apart. *)

From Stdlib Require Import QArith Qround Qminmax Qabs Lqa.
From S2P Require Import Prelude.
From S2P Require Import Numbers.

#[local] Open Scope Q_scope.

(** ** Configurations *)

(** [Vector3Tuple]. *)
Record vec : Type := Vec { vx : Q; vy : Q; vz : Q }.

Record drift : Type := Drift { driftAmplitude : Q; driftFrequency : Q }.

(** [OrbMotionConfig]. *)
Record orb_motion : Type := OrbMotion { om_drift : drift; pulseAmplitude : Q; pulseFrequency : Q }.

(** [ConnectionMotionConfig]. *)
Record connection_motion : Type := ConnectionMotion { flowSpeed : Q; beadSpacing : Q; phase : Q }.

(** [ConnectionConfig]. *)
Record connection_config : Type := ConnectionConfig {
  cc_id : string;
  sourceId : string;
  targetId : string;
  cc_color : string;
  cc_opacity : option Q;
  startOffset : vec;
  endOffset : vec;
  bendA : vec;
  bendB : vec;
  cc_motion : connection_motion;
}.

(** [OrbMaterialConfig]. *)
Record orb_material : Type := OrbMaterial {
  om_color : string;
  om_roughness : Q;
  om_metalness : Q;
  om_clearcoat : Q;
  om_clearcoatRoughness : Q;
  om_transmission : Q;
  om_thickness : Q;
  om_ior : Q;
  om_envMapIntensity : Q;
  om_iridescence : Q;
  om_iridescenceIOR : Q;
  om_iridescenceThicknessRange : Q * Q;
}.

(** [CubeMaterialConfig]. *)
Record cube_material : Type := CubeMaterial {
  cm_color : string;
  cm_roughness : Q;
  cm_metalness : Q;
  cm_transmission : Q;
  cm_thickness : Q;
  cm_ior : Q;
  cm_envMapIntensity : Q;
  cm_clearcoat : Q;
  cm_clearcoatRoughness : Q;
  attenuationColor : string;
  attenuationDistance : Q;
  cm_iridescence : Q;
  cm_iridescenceIOR : Q;
  cm_iridescenceThicknessRange : Q * Q;
}.

(** [OrbConfig]. *)
Record orb_config : Type := OrbConfig {
  oc_id : string;
  oc_position : vec;
  oc_radius : Q;
  oc_pulse : string * Q;
  oc_material : orb_material;
  oc_motion : orb_motion;
}.

Inductive cluster : Type := legacy | active | new.

(** [CubeConfig.motion]. *)
Record cube_motion : Type := CubeMotion { cu_drift : drift; pitchSpeed : option Q; yawSpeed : Q; rollSpeed : option Q }.

(** [CubeConfig]. *)
Record cube_config : Type := CubeConfig {
  cb_id : string;
  cb_position : vec;
  cb_size : Q;
  cb_cluster : option cluster;
  baseYaw : Q;
  basePitch : option Q;
  baseRoll : option Q;
  cb_material : cube_material;
  cb_motion : cube_motion;
}.

(** [CalibrationConfig], without the camera, the environment, the lights and the
    floor, which are handed to the renderer as they are. *)
Record calibration : Type := Calibration {
  ca_orb : orb_config;
  ca_cube : cube_config;
  ca_agents : option (list orb_config);
  ca_artifacts : option (list cube_config);
  ca_connections : list connection_config;
}.

(** [EndpointConfig] of endpoint.ts. *)
Record endpoint_config : Type := EndpointConfig {
  ec_id : string;
  ec_position : vec;
  ec_radius : Q;
  coreColor : string;
  coronaColor : string;
  meteorColors : string * string * string;
  orbitRadius : Q;
  orbitSpeed : Q;
  trailAngle : Q;
  ec_driftAmplitude : option Q;
  ec_driftFrequency : option Q;
}.

(** ** Presets *)

Definition DEFAULT_CONNECTIONS : list connection_config :=
  [ConnectionConfig "agent-artifact-thread" "calibration-orb" "calibration-cube" "#78c9ee" None
     (Vec 0.74 (-0.36) 0.12) (Vec (-0.38) 0.24 (-0.04)) (Vec (-0.12) 0.10 0.24) (Vec 0.12 (-0.10) 0.22) (ConnectionMotion 0.17 0.31 0.08);
   ConnectionConfig "agent-endpoint-thread" "calibration-orb" "calibration-endpoint" "#d1b7ff" None
     (Vec 0.80 0.22 (-0.08)) (Vec (-0.23) (-0.05) 0.02) (Vec (-0.10) 0.32 0.22) (Vec 0.15 0.18 0.16) (ConnectionMotion 0.13 0.34 0.52)].

Definition DEFAULT_ORB : orb_config :=
  OrbConfig "calibration-orb" (Vec (-1.1) 2.1 0) 1 ("#f26f68"%string, 0.38)
    (OrbMaterial "#f5faff" 0.18 0 1 0.15 0.97 0.16 1.13 0.65 0.48 1.25 (180, 390)) (OrbMotion (Drift 0.08 0.36) 0.06 1.04719755).

Definition DEFAULT_CUBE : cube_config :=
  CubeConfig "calibration-cube" (Vec 0.65 0.72 (-0.35)) 0.92 (Some active) (-0.45) None None
    (CubeMaterial "#e1ebfc" 0.075 0 1 0.38 1.38 0.86 1 0.08 "#b6c9e6" 2.8 0.18 1.25 (180, 350))
    (CubeMotion (Drift 0.055 0.28) (Some 0.024) 0.045 (Some 0.018)).

Definition DEFAULT_CALIBRATION : calibration := Calibration DEFAULT_ORB DEFAULT_CUBE None None DEFAULT_CONNECTIONS.

Definition orb_color (c : string) (m : orb_material) : orb_material :=
  OrbMaterial c (om_roughness m) (om_metalness m) (om_clearcoat m) (om_clearcoatRoughness m) (om_transmission m) (om_thickness m)
    (om_ior m) (om_envMapIntensity m) (om_iridescence m) (om_iridescenceIOR m) (om_iridescenceThicknessRange m).

Definition cube_colors (c a : string) (m : cube_material) : cube_material :=
  CubeMaterial c (cm_roughness m) (cm_metalness m) (cm_transmission m) (cm_thickness m) (cm_ior m) (cm_envMapIntensity m)
    (cm_clearcoat m) (cm_clearcoatRoughness m) a (attenuationDistance m) (cm_iridescence m) (cm_iridescenceIOR m)
    (cm_iridescenceThicknessRange m).

Definition createAgentConfig (id : string) (position : vec) (radius : Q) (color : string) (ph : Q) : orb_config :=
  OrbConfig id position radius (color, 0.72) (orb_color "#f7fbff" (oc_material DEFAULT_ORB))
    (OrbMotion (Drift (0.045 + ph * 0.008) (0.2 + ph * 0.035)) 0.025 (0.68 + ph * 0.08)).

Definition DEMO_AGENT_CONFIGS : list orb_config :=
  [createAgentConfig "subagent-yellow" (Vec (-2.25) 3.72 0.52) 0.29 "#efc75b" 0.2;
   createAgentConfig "subagent-coral" (Vec (-1.75) 4.18 0.08) 0.34 "#eb9d91" 0.8;
   createAgentConfig "subagent-mint" (Vec (-1.15) 3.88 (-0.10)) 0.27 "#8ed5bd" 1.4;
   createAgentConfig "subagent-lilac" (Vec (-2.28) 3.25 0.12) 0.32 "#b6a7ec" 1.9;
   createAgentConfig "subagent-cyan" (Vec (-1.72) 3.35 0.58) 0.25 "#83c9e8" 2.5;
   createAgentConfig "subagent-peach" (Vec (-0.95) 3.66 0.30) 0.30 "#efb58c" 3.1].

(** [createArtifactConfig]; the fields of the seed in their order. *)
Definition createArtifactConfig (id : string) (cl : cluster) (position : vec) (size : Q) (color attenuation : string)
    (yaw pitch roll amplitude frequency pitch_speed yaw_speed roll_speed : Q) : cube_config :=
  CubeConfig id position size (Some cl) yaw (Some pitch) (Some roll) (cube_colors color attenuation (cb_material DEFAULT_CUBE))
    (CubeMotion (Drift amplitude frequency) (Some pitch_speed) yaw_speed (Some roll_speed)).

Definition DEMO_ARTIFACT_CONFIGS : list cube_config :=
  [createArtifactConfig "artifact-02" legacy (Vec (-2.75) 0.58 1.05) 0.36 "#b9aceb" "#7e72b4"
     (-0.52) 0.10 (-0.04) 0.035 0.22 0.024 0.036 (-0.018);
   createArtifactConfig "artifact-03" legacy (Vec (-1.55) 0.62 0.82) 0.42 "#efc2ad" "#b27d70"
     0.18 (-0.06) 0.08 0.040 0.27 (-0.021) (-0.048) 0.016;
   createArtifactConfig "artifact-04" legacy (Vec (-2.25) 0.60 0.18) 0.33 "#a5d9df" "#6c9da8"
     (-0.30) 0.05 0.10 0.030 0.24 0.030 0.041 0.021;
   createArtifactConfig "artifact-05" legacy (Vec (-1.15) 0.56 0.45) 0.46 "#c4e7d4" "#78a993"
     0.42 0.02 (-0.12) 0.046 0.19 (-0.027) 0.032 (-0.019);
   createArtifactConfig "artifact-06" legacy (Vec (-2.65) 0.58 (-0.55)) 0.38 "#e5b8d2" "#a9799b"
     (-0.20) 0.11 0.06 0.034 0.31 0.019 (-0.040) 0.025;
   createArtifactConfig "artifact-07" legacy (Vec (-1.42) 0.60 (-1.08)) 0.30 "#e7d38f" "#aa9258"
     0.58 (-0.08) (-0.10) 0.028 0.26 (-0.024) 0.052 0.018;
   createArtifactConfig "artifact-08" active (Vec (-0.28) 0.56 1.18) 0.44 "#aac6ee" "#718cb8"
     (-0.14) 0.06 0.12 0.038 0.23 0.028 (-0.038) (-0.022);
   createArtifactConfig "artifact-09" active (Vec 0.78 0.62 0.82) 0.35 "#d4b5ef" "#9179b0"
     0.35 (-0.10) 0.04 0.032 0.29 (-0.022) 0.046 0.017;
   createArtifactConfig "artifact-10" active (Vec (-0.55) 0.64 0.15) 0.50 "#a3dbcf" "#659d98"
     (-0.42) 0.04 (-0.08) 0.043 0.21 0.024 (-0.032) 0.020;
   createArtifactConfig "artifact-11" active (Vec 1.55 0.60 0.15) 0.37 "#efc0ae" "#b47f73"
     0.22 0.09 0.02 0.031 0.34 (-0.031) 0.039 (-0.018);
   createArtifactConfig "artifact-12" active (Vec (-1.05) 0.62 (-0.45)) 0.31 "#c4b3ef" "#8275b6"
     (-0.60) (-0.04) 0.13 0.027 0.25 0.020 (-0.050) 0.022;
   createArtifactConfig "artifact-13" active (Vec 0.10 0.56 (-0.62)) 0.43 "#efd18e" "#ae9153"
     0.08 0.12 (-0.06) 0.040 0.20 (-0.026) 0.034 (-0.021);
   createArtifactConfig "artifact-14" new (Vec 2.00 0.58 1.18) 0.35 "#a6d9e8" "#6598aa"
     (-0.28) (-0.07) 0.08 0.034 0.30 0.029 (-0.042) 0.018;
   createArtifactConfig "artifact-15" new (Vec 1.35 0.64 0.72) 0.47 "#d2b5ef" "#8975aa"
     0.48 0.03 (-0.11) 0.042 0.22 (-0.020) 0.045 (-0.023);
   createArtifactConfig "artifact-16" new (Vec 1.75 0.60 (-0.35)) 0.32 "#ecb7aa" "#aa7169"
     (-0.52) 0.08 0.05 0.029 0.27 0.026 (-0.036) 0.021;
   createArtifactConfig "artifact-17" new (Vec 2.15 0.62 (-1.05)) 0.40 "#b5e3cd" "#6f9e88"
     0.30 (-0.12) (-0.02) 0.036 0.24 (-0.023) 0.050 (-0.016);
   createArtifactConfig "artifact-18" new (Vec (-0.55) 0.56 (-1.15)) 0.44 "#b2c4ec" "#7183b0"
     (-0.04) 0.06 0.14 0.039 0.18 0.021 (-0.041) 0.019;
   createArtifactConfig "artifact-19" new (Vec 0.52 0.64 (-1.02)) 0.30 "#efd28f" "#a99052"
     0.62 (-0.02) (-0.07) 0.026 0.32 (-0.028) 0.038 0.024;
   createArtifactConfig "artifact-20" new (Vec 1.08 0.58 (-0.88)) 0.38 "#dfb5dc" "#9c719b"
     (-0.34) 0.10 0.09 0.033 0.28 0.025 (-0.047) (-0.020)].

Definition DEFAULT_ENDPOINT : endpoint_config :=
  EndpointConfig "calibration-endpoint" (Vec 1.22 3.28 (-0.25)) 0.27 "#f9fcff" "#6e8fbd" ("#82cfff", "#c1abff", "#ffceaf")%string
    0.52 0.24 0.65 None None.

Definition DEMO_ENDPOINT_CONFIGS : list endpoint_config :=
  [DEFAULT_ENDPOINT;
   EndpointConfig "endpoint-runtime" (Vec 1.92 3.68 0.36) 0.22 "#fbfffd" "#5ea98d" ("#9be0ca", "#9bd8ef", "#f0d88d")%string
     0.44 0.19 0.58 (Some 0.052) (Some 0.23);
   EndpointConfig "endpoint-vision" (Vec 2.18 3.04 0.08) 0.24 "#fffafc" "#aa79b9" ("#d8b8f2", "#f0b4c4", "#9fc7f0")%string
     0.49 0.22 0.62 (Some 0.040) (Some 0.29);
   EndpointConfig "endpoint-archive" (Vec 1.48 4.02 0.70) 0.19 "#fffef8" "#c89556" ("#f2cf9d", "#e8b4a8", "#c4d9a9")%string
     0.38 0.27 0.54 (Some 0.034) (Some 0.26)].

(** ** Entities *)

(** [SceneEntity]. *)
Record scene_entity : Type := SceneEntity {
  se_id : string;
  basePosition : vec;
  baseRotation : vec;
  se_position : vec;
  se_rotation : vec;
  se_scale : vec;
}.

Definition newSceneEntity (id : string) (p r : vec) : scene_entity := SceneEntity id p r p r (Vec 1 1 1).

(** [Number.isFinite(timeSeconds) && !reducedMotion ? timeSeconds : 0]. *)
Definition effective_time (timeSeconds : jsnum) (reducedMotion : bool) : Q :=
  match timeSeconds with Finite q => if reducedMotion then 0 else q | _ => 0 end.

(** [a % b] of JavaScript: the remainder has the sign of the dividend. *)
Definition js_rem (a b : Q) : Q := a - inject_Z (Qtrunc (a / b)) * b.

(** [ConnectionEntity]. *)
Record connection : Type := Connection {
  cn_config : connection_config;
  cn_opacity : Q;
  cn_time : Q;
}.

Record orb : Type := Orb { ob_entity : scene_entity; ob_config : orb_config; ob_time : Q }.
Record cube : Type := Cube { cu_entity : scene_entity; cu_config : cube_config }.
Record endpoint : Type := Endpoint { ep_entity : scene_entity; ep_config : endpoint_config; ep_time : Q }.

Definition newConnection (c : connection_config) : connection := Connection c (Qmin 1 (Qmax 0 (default 0.66 (cc_opacity c)))) 0.
Definition newOrb (c : orb_config) : orb := Orb (newSceneEntity (oc_id c) (oc_position c) (Vec 0 0 0)) c 0.
Definition newCube (c : cube_config) : cube :=
  Cube (newSceneEntity (cb_id c) (cb_position c) (Vec (default 0 (basePitch c)) (baseYaw c) (default 0 (baseRoll c)))) c.
Definition newEndpoint (c : endpoint_config) : endpoint := Endpoint (newSceneEntity (ec_id c) (ec_position c) (Vec 0 0 0)) c 0.

Definition connection_update (timeSeconds : jsnum) (reducedMotion : bool) (c : connection) : connection :=
  Connection (cn_config c) (cn_opacity c) (effective_time timeSeconds reducedMotion).

Definition vec_add (a b : vec) : vec := Vec (vx a + vx b) (vy a + vy b) (vz a + vz b).

(** The closure [control] of [getControlPoints]. *)
Definition control (start stop : vec) (amount : Q) (bend : vec) : vec :=
  Vec (vx start + (vx stop - vx start) * amount + vx bend) (vy start + (vy stop - vy start) * amount + vy bend)
    (vz start + (vz stop - vz start) * amount + vz bend).

Definition getControlPoints (source target : vec) (c : connection) : list vec :=
  let start := vec_add source (startOffset (cn_config c)) in
  let stop := vec_add target (endOffset (cn_config c)) in
  [start; control start stop 0.32 (bendA (cn_config c)); control start stop 0.68 (bendB (cn_config c)); stop].

Definition getFlowProgress (index : Z) (c : connection) : Q :=
  let m := cc_motion (cn_config c) in
  let raw := cn_time c * flowSpeed m + phase m + inject_Z index * beadSpacing m in
  raw - inject_Z (Qfloor raw).

Section motion.
Context {math : HostMath}.

(** [updateDrift]: the time that counts, and the entity. *)
Definition updateDrift (timeSeconds : jsnum) (reducedMotion : bool) (d : drift) (e : scene_entity) : Q * scene_entity :=
  let time := effective_time timeSeconds reducedMotion in
  let p := basePosition e in
  (time, SceneEntity (se_id e) p (baseRotation e)
           (Vec (vx p) (vy p + host_sin (time * driftFrequency d) * driftAmplitude d) (vz p)) (baseRotation e) (se_scale e)).

Definition orb_update (timeSeconds : jsnum) (reducedMotion : bool) (o : orb) : orb :=
  let m := oc_motion (ob_config o) in
  let (time, e) := updateDrift timeSeconds reducedMotion (om_drift m) (ob_entity o) in
  let s := 1 + host_sin (time * pulseFrequency m) * pulseAmplitude m in
  Orb (SceneEntity (se_id e) (basePosition e) (baseRotation e) (se_position e) (se_rotation e) (Vec s s s)) (ob_config o) time.

Definition cube_update (timeSeconds : jsnum) (reducedMotion : bool) (c : cube) : cube :=
  let m := cb_motion (cu_config c) in
  let (time, e) := updateDrift timeSeconds reducedMotion (cu_drift m) (cu_entity c) in
  let r := baseRotation e in
  Cube (SceneEntity (se_id e) (basePosition e) r (se_position e)
          (Vec (vx r + time * default 0 (pitchSpeed m)) (vy r + js_rem (time * yawSpeed m) (2 * MATH_PI))
             (vz r + time * default 0 (rollSpeed m))) (se_scale e)) (cu_config c).

Definition endpoint_update (timeSeconds : jsnum) (reducedMotion : bool) (p : endpoint) : endpoint :=
  let c := ep_config p in
  let (time, e) := updateDrift timeSeconds reducedMotion
                     (Drift (default 0.045 (ec_driftAmplitude c)) (default 0.3 (ec_driftFrequency c))) (ep_entity p) in
  Endpoint e c time.

(** The RangeError of [sampleMeteor]. *)
Inductive meteor_error : Type := MeteorIndex.

Definition meteor_lag (tail : jsnum) : Q := match tail with Finite q => Qmax 0 (Qmin 1 q) | _ => 0 end.

Definition sampleMeteor (index tail : jsnum) (p : endpoint) : result meteor_error vec :=
  if negb (isInteger index) || num_lt index (num 0) || num_lt (num 2) index then Err MeteorIndex
  else
    let i := match index with Finite q => q | _ => 0 end in
    let c := ep_config p in
    let angle := ep_time p * orbitSpeed c * (1 + i * 0.12) + i * MATH_PI * 2 / 3 - meteor_lag tail * trailAngle c in
    let radius := orbitRadius c * (1 + i * 0.07) in
    let x := host_cos angle * radius in
    let y := host_sin angle * radius * 0.62 in
    let z := host_sin angle * radius * 0.78 in
    let tilt := nth (Z.to_nat (Qfloor i)) [-0.4; 0.65; 1.5] 0 in
    Ok (Vec (x * host_cos tilt - y * host_sin tilt) (x * host_sin tilt + y * host_cos tilt) z).
End motion.

(** [createCalibrationEntities]. *)
Record calibration_entities : Type := CalibrationEntities {
  en_orb : orb;
  en_cube : cube;
  en_agents : list orb;
  en_artifacts : list cube;
  en_connections : list connection;
}.

Definition createCalibrationEntities (c : calibration) : calibration_entities :=
  CalibrationEntities (newOrb (ca_orb c)) (newCube (ca_cube c)) (map newOrb (default DEMO_AGENT_CONFIGS (ca_agents c)))
    (map newCube (default DEMO_ARTIFACT_CONFIGS (ca_artifacts c))) (map newConnection (ca_connections c)).

(** ** Arithmetic *)

(** What is documented of the sine and the cosine. *)
Class HostMathLaws (math : HostMath) : Prop := {
  sin_range : forall q, -1 <= host_sin q <= 1;
  cos_range : forall q, -1 <= host_cos q <= 1;
  sin_zero : forall q, q == 0 -> host_sin q == 0;
}.

Lemma trunc_close q : - (1) < q - inject_Z (Qtrunc q) < 1.
Proof.
  destruct q as [n d]. unfold Qtrunc, inject_Z, Qminus, Qplus, Qopp, Qlt. cbn [Qnum Qden].
  pose proof (Z.quot_rem' n (Zpos d)). pose proof (Z.rem_bound_abs n (Zpos d) ltac:(lia)). lia.
Qed.

(** The remainder is smaller than the divisor. *)
Lemma rem_close a b : 0 < b -> - b < js_rem a b < b.
Proof.
  intros Hb. unfold js_rem. pose proof (trunc_close (a / b)) as [H1 H2]. set (t := inject_Z (Qtrunc (a / b))) in *.
  assert (Ha : a == a / b * b) by (field; lra). split; nra.
Qed.

Lemma flow_fraction q : 0 <= q - inject_Z (Qfloor q) < 1.
Proof.
  pose proof (Qfloor_le q). pose proof (Qlt_floor q) as H1. rewrite inject_Z_plus in H1. change (inject_Z 1) with 1 in H1. lra.
Qed.

Lemma clamp_unit q : 0 <= Qmin 1 (Qmax 0 q) <= 1.
Proof. split; [apply Q.min_glb; [lra | apply Q.le_max_l] | apply Q.le_min_l]. Qed.

(** A value in the unit range, scaled. *)
Lemma scaled_range s a : -1 <= s <= 1 -> 0 <= a -> - a <= s * a <= a.
Proof. intros [H1 H2] Ha. split; nra. Qed.

Lemma Qred_of_Z i : Qred (i # 1) = i # 1.
Proof. unfold Qred. pose proof (Z.ggcd_gcd i 1) as Hg. pose proof (Z.ggcd_correct_divisors i 1) as Hd. rewrite Z.gcd_1_r in Hg.
  destruct (Z.ggcd i 1) as [g [a b]]. cbn [fst snd] in *. subst g. destruct Hd as [Ha Hb]. rewrite Z.mul_1_l in Ha, Hb. by subst.
Qed.

(** Equal as points. *)
Definition vec_eq (a b : vec) : Prop := vx a == vx b /\ vy a == vy b /\ vz a == vz b.

(** Runs an update without touching the arithmetic. *)
Ltac run_update :=
  cbn [orb_update cube_update endpoint_update updateDrift fst snd ob_entity ob_config ob_time cu_entity cu_config ep_entity ep_config
       ep_time se_id basePosition baseRotation se_position se_rotation se_scale vx vy vz].

(** ** Motion *)

Section motion_laws.
Context {math : HostMath} {math_laws : HostMathLaws math}.

(** An orb stays where its configuration puts it: whatever the clock says
    and however often it was updated before, it moves up and down by no more than
    its drift and in no other direction, it is as wide as high and deep and no
    further from its size than its pulse, it does not turn, and only the time of
    the last update counts. *)
Theorem orb_stays_in_place c o t reduced : let o' := orb_update t reduced o in
  ob_config o = c -> basePosition (ob_entity o) = oc_position c ->
  0 <= driftAmplitude (om_drift (oc_motion c)) -> 0 <= pulseAmplitude (oc_motion c) ->
  let p := se_position (ob_entity o') in
  let s := se_scale (ob_entity o') in
  vx p = vx (oc_position c) /\ vz p = vz (oc_position c) /\
  Qabs (vy p - vy (oc_position c)) <= driftAmplitude (om_drift (oc_motion c)) /\
  vx s = vy s /\ vy s = vz s /\ Qabs (vx s - 1) <= pulseAmplitude (oc_motion c) /\
  se_rotation (ob_entity o') = baseRotation (ob_entity o) /\
  forall t' reduced', orb_update t reduced (orb_update t' reduced' o) = o'.
Proof using math_laws.
  intros o' Hc Hb Hd Hp. subst c o'. run_update. rewrite <-Hb. split_and!; try done.
  - apply Qabs_Qle_condition. destruct (scaled_range _ _ (sin_range (effective_time t reduced * driftFrequency (om_drift (oc_motion (ob_config o))))) Hd). lra.
  - apply Qabs_Qle_condition. destruct (scaled_range _ _ (sin_range (effective_time t reduced * pulseFrequency (oc_motion (ob_config o)))) Hp). lra.
Qed.

(** With reduced motion, or a clock that is not a number, an orb rests at its place
    and in its size, and a cube as it was turned by its configuration. *)
Theorem reduced_motion_rests t reduced o c : effective_time t reduced == 0 ->
  (let e := ob_entity (orb_update t reduced o) in
   vy (se_position e) == vy (basePosition e) /\ vx (se_scale e) == 1) /\
  (let e := cu_entity (cube_update t reduced c) in
   vy (se_position e) == vy (basePosition e) /\ vx (se_rotation e) == vx (baseRotation e) /\
   vy (se_rotation e) == vy (baseRotation e) /\ vz (se_rotation e) == vz (baseRotation e)).
Proof using math_laws.
  intros Ht. run_update.
  assert (H0 : forall q, host_sin (effective_time t reduced * q) == 0) by (intros q; apply sin_zero; rewrite Ht; ring).
  split_and!; rewrite ?H0, ?Ht; try ring.
  assert (Hr : js_rem (effective_time t reduced * yawSpeed (cb_motion (cu_config c))) (2 * MATH_PI) == 0); [|rewrite Hr; ring].
  unfold js_rem. assert (Hz : Qtrunc (effective_time t reduced * yawSpeed (cb_motion (cu_config c)) / (2 * MATH_PI)) = 0%Z).
  { assert (Hq : effective_time t reduced * yawSpeed (cb_motion (cu_config c)) / (2 * MATH_PI) == 0) by (rewrite Ht; field; by intros ?).
    unfold Qtrunc. unfold Qeq in Hq. cbn [Qnum Qden] in Hq.
    assert (Hn : Qnum (effective_time t reduced * yawSpeed (cb_motion (cu_config c)) / (2 * MATH_PI)) = 0%Z) by lia. by rewrite Hn. }
  rewrite Hz, Ht. unfold inject_Z. ring.
Qed.

(** However long it turns, a cube's yaw is less than a turn from its base. *)
Theorem yaw_stays_within_a_turn t reduced c : let e := cu_entity (cube_update t reduced c) in
  Qabs (vy (se_rotation e) - vy (baseRotation e)) < 2 * MATH_PI.
Proof using.
  run_update. apply Qabs_Qlt_condition. pose proof (rem_close (effective_time t reduced * yawSpeed (cb_motion (cu_config c))) (2 * MATH_PI) eq_refl).
  lra.
Qed.

(** There are three meteors, and each keeps to its orbit: its height and depth are
    no more than the orbit's radius, which grows from one meteor to the next. *)
Theorem meteor_exact index tail p : 0 <= orbitRadius (ep_config p) ->
  match sampleMeteor index tail p with
  | Err _ => forall i, index = num i -> ~ (0 <= i <= 2)%Z
  | Ok v => exists q, index = Finite q /\ 0 <= q <= 2 /\ Qabs (vz v) <= 0.78 * (orbitRadius (ep_config p) * (1 + q * 0.07))
  end.
Proof using math_laws.
  intros Hr. unfold sampleMeteor. destruct (_ || _) eqn:E.
  - intros i ->. rewrite !num_lt_num in E. unfold isInteger, num, inject_Z in E. rewrite Qred_of_Z in E. cbn [Qden] in E.
    rewrite bool_decide_true in E by done. apply orb_true_iff in E as [E|E%bool_decide_eq_true]; [|lia].
    apply bool_decide_eq_true in E. lia.
  - apply orb_false_iff in E as [[E1 E2]%orb_false_iff E3]. apply negb_false_iff in E1. destruct index as [q| | |]; try done.
    exists q. split; [done|].
    assert (Hq : 0 <= q <= 2).
    { split; apply Qnot_lt_le; intros H; apply num_lt_finite in H.
      - change (num_lt (Finite q) (num 0) = true) in H. congruence.
      - change (num_lt (num 2) (Finite q) = true) in H. congruence. }
    split; [done|]. cbn [vz]. apply Qabs_Qle_condition.
    match goal with |- context [host_sin ?a * ?r] => assert (H1 : 0 <= r) by nra; destruct (scaled_range _ _ (sin_range a) H1) end.
    split; lra.
Qed.

(** A connection starts and ends at its offsets from the two ends, a connection
    between ends that are moved is moved with them, and its beads are always
    somewhere along it. *)
Theorem connection_follows_its_ends source target v c index :
  head (getControlPoints source target c) = Some (vec_add source (startOffset (cn_config c))) /\
  last (getControlPoints source target c) = Some (vec_add target (endOffset (cn_config c))) /\
  Forall2 vec_eq (getControlPoints (vec_add source v) (vec_add target v) c)
    (map (fun p => vec_add p v) (getControlPoints source target c)) /\
  0 <= getFlowProgress index c < 1 /\ (forall cfg, 0 <= cn_opacity (newConnection cfg) <= 1).
Proof using.
  split; [done|]. split; [done|]. split_and!; [|apply flow_fraction|apply flow_fraction|intros; apply clamp_unit..].
  repeat constructor; cbn [vec_add control vx vy vz]; ring.
Qed.
End motion_laws.

(** ** Presets *)

(** The ids of the bodies of the presets. *)
Definition preset_ids : list string :=
  oc_id DEFAULT_ORB :: cb_id DEFAULT_CUBE ::
  map oc_id DEMO_AGENT_CONFIGS ++ map cb_id DEMO_ARTIFACT_CONFIGS ++ map ec_id DEMO_ENDPOINT_CONFIGS.

(** The height of a body's lowest point when it is not turned. *)
Definition orb_low (c : orb_config) : Q := vy (oc_position c) - oc_radius c * (1 + pulseAmplitude (oc_motion c)) - driftAmplitude (om_drift (oc_motion c)).
Definition cube_low (c : cube_config) : Q := vy (cb_position c) - cb_size c / 2 - driftAmplitude (cu_drift (cb_motion c)).

(** The presets are six agents, nineteen artifacts and four endpoints with ids of
    their own; the connections lead from the orb to the cube and to an endpoint;
    no motion has a negative amplitude; and no body reaches the floor. *)
Theorem presets_are_wired :
  (length DEMO_AGENT_CONFIGS, length DEMO_ARTIFACT_CONFIGS, length DEMO_ENDPOINT_CONFIGS) = (6, 19, 4)%nat /\
  NoDup preset_ids /\
  Forall (fun c => sourceId c = oc_id DEFAULT_ORB /\ targetId c ∈ cb_id DEFAULT_CUBE :: map ec_id DEMO_ENDPOINT_CONFIGS) DEFAULT_CONNECTIONS /\
  Forall (fun c => 0 <= driftAmplitude (om_drift (oc_motion c)) /\ 0 <= pulseAmplitude (oc_motion c) /\ 0 < orb_low c)
    (DEFAULT_ORB :: DEMO_AGENT_CONFIGS) /\
  Forall (fun c => 0 <= driftAmplitude (cu_drift (cb_motion c)) /\ 0 < cube_low c) (DEFAULT_CUBE :: DEMO_ARTIFACT_CONFIGS).
Proof.
  split_and!; [reflexivity|..].
  - apply (bool_decide_eq_true_1 _). by vm_compute.
  - apply (bool_decide_eq_true_1 _). by vm_compute.
  - repeat constructor; by vm_compute.
  - repeat constructor; by vm_compute.
Qed.

(** A scene has one entity for each configuration, under its id, and every
    configuration that is left out is the preset's. *)
Theorem calibration_is_complete c : let e := createCalibrationEntities c in
  se_id (ob_entity (en_orb e)) = oc_id (ca_orb c) /\ se_id (cu_entity (en_cube e)) = cb_id (ca_cube c) /\
  map (fun o => se_id (ob_entity o)) (en_agents e) = map oc_id (default DEMO_AGENT_CONFIGS (ca_agents c)) /\
  map (fun o => se_id (cu_entity o)) (en_artifacts e) = map cb_id (default DEMO_ARTIFACT_CONFIGS (ca_artifacts c)) /\
  map cn_config (en_connections e) = ca_connections c.
Proof.
  cbn. split_and!; try done; rewrite map_map; try done. apply map_id.
Qed.

Module SceneWitness.
#[local] Instance math : HostMath :=
  {| host_cos q := 1; host_sin q := Qmax (- (1)) (Qmin 1 q); host_sqrt q := q |}.
#[local] Instance math_laws : HostMathLaws math.
Proof.
  split; cbn [host_sin host_cos math].
  - intros q. split; [apply Q.le_max_l|]. apply Q.max_lub; [lra | apply Q.le_min_l].
  - intros q. lra.
  - intros q ->. reflexivity.
Qed.

Definition moved : orb := orb_update (num 2) false (newOrb DEFAULT_ORB).

Lemma orb_stays_in_place_witness : vx (se_position (ob_entity moved)) = -1.1 /\ Qabs (vy (se_position (ob_entity moved)) - 2.1) <= 0.08.
Proof.
  destruct (orb_stays_in_place DEFAULT_ORB (newOrb DEFAULT_ORB) (num 2) false) as (Hx & _ & Hy & _); [done | done | by intros ? | by intros ?|].
  split; [exact Hx | exact Hy].
Defined.

Example moves : vy (se_position (ob_entity moved)) == 2.1 + 0.72 * 0.08.
Proof. reflexivity. Qed.

Lemma reduced_motion_witness : vy (se_position (cu_entity (cube_update (num 7) true (newCube DEFAULT_CUBE)))) == 0.72.
Proof. apply (reduced_motion_rests (num 7) true (newOrb DEFAULT_ORB) (newCube DEFAULT_CUBE)). reflexivity. Defined.

Lemma meteor_witness v : sampleMeteor (num 1) (num 0) (newEndpoint DEFAULT_ENDPOINT) = Ok v -> exists q, num 1 = Finite q /\ 0 <= q <= 2.
Proof.
  intros E. pose proof (meteor_exact (num 1) (num 0) (newEndpoint DEFAULT_ENDPOINT) ltac:(by intros ?)) as H. rewrite E in H.
  destruct H as (q & H1 & H2 & _). by exists q.
Qed.
End SceneWitness.
