(* ===== verification/DashboardScene.v ===== *)
(** * The scene of the dashboard

    src/web/operator-dashboard/src/spatial/data/dashboard-adapter.ts, the second
    half: the bodies and connections of the calibration scene ([Scene]) that are
    placed for the projection ([ViewModels]) of a workspace, and the snapshot of a
    payload ([DashboardAdapter]) with its scene. Coordinates are rationals; the
    square root is the host's. *)

From Stdlib Require Import QArith Qround Qminmax Qabs Lqa.
From stdpp Require Import pretty.
From S2P Require Import Prelude.
From S2P Require Import Json.
From S2P Require Import Contracts.
From S2P Require Import Numbers.
From S2P Require Import Text.
From S2P Require Import Binding.
From S2P Require Import Status.
From S2P Require Import RemoteContracts.
From S2P Require Import WorkspaceRepo.
From S2P Require Import Presence.
From S2P Require Import ViewModels.
From S2P Require Import Transport.
From S2P Require Import DashboardAdapter.
From S2P Require Import Scene.

#[local] Open Scope Z_scope.

(** ** Colours *)

Definition hex_digit_of (c : ascii) : option Z :=
  let n := Z.of_N (N_of_ascii c) in
  if bool_decide (48 <= n <= 57) then Some (n - 48)
  else if bool_decide (65 <= n <= 70) then Some (n - 55)
  else if bool_decide (97 <= n <= 102) then Some (n - 87)
  else None.

(** [/^#[0-9a-f]{6}$/i]: the digits after the sharp. *)
Definition colour_digits (value : string) : option (list Z) :=
  match value with
  | String c rest =>
      if Ascii.eqb c "#" then ds ← mapM hex_digit_of (String.list_ascii_of_string rest); if bool_decide (length ds = 6%nat) then Some ds else None
      else None
  | EmptyString => None
  end.

Definition hexColor (value fallback : string) : string :=
  match colour_digits value with Some _ => value | None => fallback end.

(** [Math.max(0, Math.min(255, Math.round(channel * amount)))]. *)
Definition shade_channel (amount : Q) (channel : Z) : Z := Z.max 0 (Z.min 255 (Qfloor (inject_Z channel * amount + (1 # 2))%Q)).

Fixpoint channels (ds : list Z) : list Z :=
  match ds with a :: b :: ds => (16 * a + b) :: channels ds | _ => [] end.

Definition shade (hex : string) (amount : Q) : string :=
  let ds := default [] (colour_digits (hexColor hex "#9bb1c8")) in
  "#" +:+ String.concat "" (map (fun c => padStart 2 "0" (toString16 2 (shade_channel amount c))) (channels ds)).

(** The name of a visual state, which a palette is asked with. *)
Definition visual_state_text (v : visual_state) : string :=
  match v with
  | vis_healthy => "healthy" | vis_attention => "attention" | vis_critical => "critical" | vis_offline => "offline" | vis_unknown => "unknown"
  end.

(** The colour of a view in a palette that has one. *)
Definition view_colour (palette : list string) (key : string) (v : view) : string :=
  default "" (paletteColor palette key (visual_state_text (visualState v))).

(** ** Positions *)

(** [hash(key) % n]. *)
Definition spread_of (key : string) (n : Z) : Q := inject_Z (hash key mod n).

Section scene.
Context {math : HostMath}.

Definition ceil_sqrt (q : Q) : Z := Qceiling (host_sqrt q).

Definition endpointPosition (index count : Z) : vec :=
  let columns := Z.min 4 (Z.max 2 (ceil_sqrt (inject_Z (Z.max 1 count)))) in
  let row := inject_Z (index / columns) in
  let column := inject_Z (index mod columns) in
  let width := (inject_Z (columns - 1) * 0.58)%Q in
  Vec (1.05 + column * 0.58 - width / 2)%Q (3.12 + row * 0.48 + spread_of ("endpoint-y-" +:+ pretty index) 10 * 0.012)%Q
    (0.30 + spread_of ("endpoint-z-" +:+ pretty index) 16 * 0.025)%Q.

Definition agentPosition (index : Z) : vec :=
  let column := inject_Z (index mod 3) in
  let row := inject_Z (index / 3) in
  Vec (-2.55 + column * 0.72)%Q (3.44 + row * 0.58 + spread_of ("agent-y-" +:+ pretty index) 8 * 0.015)%Q (0.46 - column * 0.17)%Q.

Definition artifact_columns (count : Z) : Z := Z.min 7 (Z.max 5 (ceil_sqrt (inject_Z (Z.max 1 count) * 1.55)%Q)).

Definition artifactPosition (index count : Z) (id : string) : vec :=
  let columns := artifact_columns count in
  let row := inject_Z (index / columns) in
  let column := inject_Z (index mod columns) in
  let xGap := (if bool_decide (7 <= columns)%Z then 0.82 else 0.96)%Q in
  let zGap := (if bool_decide (7 <= columns)%Z then 0.66 else 0.73)%Q in
  let jitterX := ((spread_of (id +:+ ":x") 19 - 9) / 100)%Q in
  let jitterZ := ((spread_of (id +:+ ":z") 17 - 8) / 120)%Q in
  Vec (-3.05 + column * xGap + jitterX)%Q (0.56 + spread_of (id +:+ ":y") 9 * 0.012)%Q (1.55 - row * zGap + jitterZ)%Q.

(** ** Bodies *)

Definition orbConfig (id : string) (position : vec) (radius : Q) (color : string) (ph : Q) : orb_config :=
  OrbConfig id position radius (color, 0.24)%Q (orb_color "#e9f4ff" (oc_material DEFAULT_ORB))
    (OrbMotion (Drift (0.045 + ph * 0.006) (0.22 + ph * 0.03)) 0.025 (0.72 + ph * 0.05))%Q.

(** [index % n ? a : b]. *)
Definition if_rem (index n : Z) (a b : Q) : Q := if bool_decide (index mod n = 0) then b else a.

Definition cubeConfig (id : string) (position : vec) (size : Q) (color : string) (index : Z) (session : bool) : cube_config :=
  CubeConfig id position size (Some (if session then active else new))
    ((spread_of (id +:+ ":yaw") 120 - 60) / 100)%Q (Some ((spread_of (id +:+ ":pitch") 24 - 12) / 100)%Q)
    (Some ((spread_of (id +:+ ":roll") 20 - 10) / 100)%Q)
    (cube_colors color (shade color 0.62) (cb_material DEFAULT_CUBE))
    (CubeMotion (Drift (0.028 + inject_Z (index mod 4) * 0.006) (0.18 + inject_Z (index mod 5) * 0.025))
       (Some (if_rem index 2 (-(1)) 1 * (0.018 + inject_Z (index mod 3) * 0.005)))
       (if_rem index 2 1 (-(1)) * (0.032 + inject_Z (index mod 4) * 0.006))
       (Some (if_rem index 3 1 (-(1)) * 0.014)))%Q.

(** [liveConnections]: to every endpoint, and to the first eight artifacts. *)
Definition endpoint_connection (primaryId : string) (i : N) (e : endpoint_config) : connection_config :=
  let index := inject_Z (Z.of_N i) in
  ConnectionConfig ("primary-" +:+ ec_id e +:+ "-thread") primaryId (ec_id e) (coronaColor e) (Some 0.25%Q)
    (Vec (0.58 + index * 0.035) (0.18 + inject_Z (Z.of_N i mod 2) * 0.06) 0.06) (Vec (-0.10) (-0.01) 0)
    (Vec (0.18 + index * 0.035) 0.26 0.22) (Vec (0.22 + index * 0.028) 0.20 0.18)
    (ConnectionMotion (0.068 + index * 0.006) 0.90 (0.18 + index * 0.10))%Q.

Definition artifact_connection (primaryId : string) (i : N) (a : cube_config) : connection_config :=
  let index := inject_Z (Z.of_N i) in
  ConnectionConfig ("primary-" +:+ cb_id a +:+ "-thread") primaryId (cb_id a) (cm_color (cb_material a)) (Some 0.18%Q)
    (Vec (0.34 + inject_Z (Z.of_N i mod 3) * 0.10) (-0.30 + inject_Z (Z.of_N i mod 2) * 0.08) 0.10) (Vec (-0.10) 0.12 0)
    (Vec (0.20 + index * 0.03) (-0.20) 0.20) (Vec (0.16 + index * 0.035) (-0.10) 0.18)
    (ConnectionMotion (0.062 + index * 0.006) 0.94 (0.42 + index * 0.08))%Q.

Definition liveConnections (primaryId : string) (endpoints : list endpoint_config) (artifacts : list cube_config) : list connection_config :=
  map_index (endpoint_connection primaryId) 0 endpoints ++ map_index (artifact_connection primaryId) 0 (take 8 artifacts).

(** ** Scenes *)

Inductive source_state : Type := src_live | src_partial.

(** [DashboardSpatialSceneSource]. *)
Record scene_source : Type := SceneSource {
  ss_nodeId : string;
  ss_state : source_state;
  ss_revision : Z;
  endpointCount : nat;
  sessionCount : nat;
  bundleCount : nat;
  subagentCount : nat;
  failedSources : list string;
}.

(** [DashboardSpatialSceneData]. *)
Record scene_data : Type := SceneData {
  sd_config : calibration;
  sd_endpoints : list endpoint_config;
  sd_source : scene_source;
  sd_projection : workspace_view;
}.

Definition of_kind (k : canonical_kind) (v : view) : bool := bool_decide (canonicalKind v = k).

Definition agent_body (i : N) (v : view) : orb_config :=
  orbConfig (v_id v) (agentPosition (Z.of_N i)) (0.22 + spread_of (v_id v) 8 * 0.012)%Q (view_colour AGENT_PALETTE (v_id v) v)
    (inject_Z (Z.of_N i + 1)).

Definition endpoint_body (count : Z) (i : N) (v : view) : endpoint_config :=
  let id := v_id v in
  EndpointConfig id (endpointPosition (Z.of_N i) count) (0.18 + spread_of id 8 * 0.012)%Q "#fbfffd" (view_colour ENDPOINT_PALETTE id v)
    (view_colour AGENT_PALETTE (id +:+ ":a") v, view_colour ENDPOINT_PALETTE (id +:+ ":b") v, view_colour ARTIFACT_PALETTE (id +:+ ":c") v)
    (0.36 + spread_of (id +:+ ":orbit") 12 * 0.012)%Q (0.17 + spread_of (id +:+ ":speed") 10 * 0.008)%Q 0.58
    (Some (0.032 + inject_Z (Z.of_N i mod 4) * 0.007)%Q) (Some (0.22 + inject_Z (Z.of_N i mod 5) * 0.018)%Q).

Definition artifact_body (count : Z) (i : N) (v : view) : cube_config :=
  let id := v_id v in
  cubeConfig id (artifactPosition (Z.of_N i) count id) (0.27 + spread_of (id +:+ ":size") 18 * 0.012)%Q (view_colour ARTIFACT_PALETTE id v)
    (Z.of_N i) (of_kind k_session v).

Definition agent_models (w : workspace_view) : list view := List.filter (of_kind k_agent) (wv_entities w).
Definition endpoint_models (w : workspace_view) : list view := List.filter (of_kind k_endpoint) (wv_entities w).
Definition artifact_models (w : workspace_view) : list view :=
  List.filter (fun v => of_kind k_session v || of_kind k_artifact v) (wv_entities w).

Definition sceneFromSnapshot (s : snapshot) (ns : option status) (src : scene_source) : scene_data :=
  let w := composeSpatialWorkspaceViewModel s ns desktop in
  let primaryId := match primaryAgent w with Some a => pv_id a | None => "primary-agent-" +:+ slug (sn_node s) end in
  let endpoints := map_index (endpoint_body (Z.of_nat (length (endpoint_models w)))) 0 (endpoint_models w) in
  let artifacts := map_index (artifact_body (Z.of_nat (length (artifact_models w)))) 0 (artifact_models w) in
  SceneData
    (Calibration (orbConfig primaryId (oc_position DEFAULT_ORB) 1 "#ef9c8e" 0.8) (default DEFAULT_CUBE (List.hd_error artifacts))
       (Some (map_index agent_body 0 (agent_models w))) (Some (List.tl artifacts)) (liveConnections primaryId endpoints artifacts))
    endpoints src w.

(** The counts of [createDashboardSpatialScene]. *)
Definition count_entities (f : entity -> bool) (s : snapshot) : nat := length (List.filter f (entities s)).
Definition is_subagent (e : entity) : bool := is_agent e && negb (has_role_primary e).

(** [createDashboardSpatialScene] without overrides. *)
Definition createDashboardSpatialScene (s : snapshot) (ns : option status) : scene_data :=
  sceneFromSnapshot s ns
    (SceneSource (sn_node s) (match ns with Some n => if partial n then src_partial else src_live | None => src_live end) (semantic_revision s)
       (count_entities (is_kind k_endpoint) s) (count_entities (is_kind k_session) s) (count_entities (is_kind k_artifact) s)
       (count_entities is_subagent s) []).

(** [createDashboardSpatialSnapshotForPayload]. *)
Definition createDashboardSpatialSnapshotForPayload {zod : Zod} (p : payload) (sc : scope) (now : iso)
  : result api_error (snapshot * status * scene_data) :=
  let? s := createWorkspaceSnapshot p sc now in
  let? st := createNodeStatus p sc now in
  Ok (s, st, sceneFromSnapshot s (Some st)
        (SceneSource (sn_node s) (match failures p with [] => src_live | _ => src_partial end) (semantic_revision s)
           (length (ep_items (pl_endpoints p))) (length (ses_items (pl_sessions p))) (length (bundles (pl_fleet p)))
           (count_entities is_subagent s) (failures p))).
End scene.

(** ** Lists with an index *)

Lemma map_index_map {A B C} (f : N -> A -> B) (g : B -> C) (h : A -> C) i l : (forall i x, g (f i x) = h x) -> map g (map_index f i l) = map h l.
Proof. intros H. revert i. induction l as [|x l IH]; intros i; [done|]. cbn. by rewrite H, IH. Qed.

(** ** Scenes *)

Section scene_laws.
Context {math : HostMath}.

(** C37. The scene of a workspace shows its projection: there is one orb for each
    agent that is projected, one endpoint for each endpoint and, if there are any,
    one cube for each session and artifact, under the ids of their views and in
    their order; and the connections lead from the Primary Agent's orb to each of
    the endpoints and to the first eight of the cubes, never to anything that is
    not in the scene. *)
Theorem scene_shows_the_projection s ns src : let d := sceneFromSnapshot s ns src in
  let w := sd_projection d in
  let c := sd_config d in
  w = composeSpatialWorkspaceViewModel s ns desktop /\
  (forall a, primaryAgent w = Some a -> oc_id (ca_orb c) = pv_id a) /\
  (map oc_id <$> ca_agents c) = Some (map v_id (agent_models w)) /\
  map ec_id (sd_endpoints d) = map v_id (endpoint_models w) /\
  (artifact_models w <> [] -> exists l, ca_artifacts c = Some l /\ map cb_id (ca_cube c :: l) = map v_id (artifact_models w)) /\
  map (fun k => (Scene.sourceId k, Scene.targetId k)) (ca_connections c) =
    map (fun id => (oc_id (ca_orb c), id)) (map v_id (endpoint_models w) ++ take 8 (map v_id (artifact_models w))).
Proof.
  cbn zeta. cbn [sceneFromSnapshot sd_projection sd_config sd_endpoints ca_orb ca_agents ca_artifacts ca_cube ca_connections orbConfig oc_id].
  set (w := composeSpatialWorkspaceViewModel s ns desktop). split_and!; [done| | | | |].
  - by intros a ->.
  - cbn [fmap option_fmap option_map]. f_equal. by apply map_index_map.
  - by apply map_index_map.
  - intros Hne. eexists. split; [done|]. rewrite <-(map_index_map (artifact_body (Z.of_nat (length (artifact_models w)))) cb_id v_id 0) by done.
    by destruct (artifact_models w).
  - unfold liveConnections. rewrite map_app, map_app. f_equal.
    + rewrite (map_index_map _ _ (fun e => (match primaryAgent w with Some a => pv_id a | None => "primary-agent-" +:+ slug (sn_node s) end, ec_id e))) by done.
      rewrite map_map. rewrite <-(map_map ec_id (fun id => (_, id))). rewrite (map_index_map _ ec_id v_id) by done. by rewrite map_map.
    + rewrite (map_index_map _ _ (fun e => (match primaryAgent w with Some a => pv_id a | None => "primary-agent-" +:+ slug (sn_node s) end, cb_id e))) by done.
      rewrite <-(map_map cb_id (fun id => (_, id))), <-!firstn_map. f_equal. rewrite (map_index_map _ cb_id v_id) by done. done.
Qed.

(** ** Positions *)

Lemma spread_range key n : 0 < n -> (0 <= spread_of key n <= inject_Z (n - 1))%Q.
Proof. intros Hn. unfold spread_of. pose proof (Z.mod_pos_bound (hash key) n Hn). split; rewrite <-Zle_Qle || (change 0%Q with (inject_Z 0); rewrite <-Zle_Qle); lia. Qed.

Lemma artifact_columns_range count : 5 <= artifact_columns count <= 7.
Proof. unfold artifact_columns. lia. Qed.

(** A step of one in whole numbers is one of at least the gap, less the jitter. *)
Lemma gap_after_jitter (g j x y : Q) (a b : Z) : a < b -> (0 <= g -> - j <= x <= j -> - j <= y <= j ->
  g - 2 * j <= (inject_Z b * g + y) - (inject_Z a * g + x))%Q.
Proof.
  intros Hab Hg [Hx1 Hx2] [Hy1 Hy2]. assert (H : (1 <= inject_Z b - inject_Z a)%Q).
  { unfold Qminus. rewrite <-inject_Z_opp, <-inject_Z_plus. change 1%Q with (inject_Z 1). rewrite <-Zle_Qle. lia. }
  nra.
Qed.

Lemma jitter_range key n (d : Q) (k : Z) : 0 < n -> (0 < d)%Q -> n - 1 = 2 * k -> (- (inject_Z k / d) <= (spread_of key n - inject_Z k) / d <= inject_Z k / d)%Q.
Proof.
  intros Hn Hd Hk. pose proof (spread_range key n Hn) as [H1 H2]. rewrite Hk, inject_Z_mult in H2. change (inject_Z 2) with 2%Q in H2.
  split.
  - apply Qle_shift_div_l; [done|]. assert (E : (- (inject_Z k / d) * d == - inject_Z k)%Q) by (field; lra). rewrite E. lra.
  - unfold Qdiv. apply Qmult_le_compat_r; [lra|]. apply Qlt_le_weak, Qinv_lt_0_compat. done.
Qed.

(** The artifacts of a scene stand in columns and rows that their jitter does not
    bridge: the centres of two of them are half a unit apart in width or depth,
    and none is as large as that. *)
Theorem artifacts_stand_apart i j count id id' v : 0 <= i < j ->
  let a := artifactPosition i count id in
  let b := artifactPosition j count id' in
  (0.5 <= Qabs (vx b - vx a) \/ 0.5 <= Qabs (vz b - vz a))%Q /\ (cb_size (artifact_body count 0 v) < 0.5)%Q.
Proof.
  intros Hij. split.
  2:{ cbn [artifact_body cubeConfig cb_size]. pose proof (spread_range (v_id v +:+ ":size") 18 eq_refl) as [_ H]. change (inject_Z (18 - 1)) with 17%Q in H. lra. }
  unfold artifactPosition. cbn [vx vz]. pose proof (artifact_columns_range count) as Hc. set (c := artifact_columns count) in *.
  assert (Hjx : forall key, (- (9 # 100) <= (spread_of key 19 - 9) / 100 <= 9 # 100)%Q) by (intros key; by apply (jitter_range key 19 100 9)).
  assert (Hjz : forall key, (- (8 # 120) <= (spread_of key 17 - 8) / 120 <= 8 # 120)%Q) by (intros key; by apply (jitter_range key 17 120 8)).
  pose proof (Hjx (id +:+ ":x")) as Hx. pose proof (Hjx (id' +:+ ":x")) as Hx'.
  pose proof (Hjz (id +:+ ":z")) as Hz. pose proof (Hjz (id' +:+ ":z")) as Hz'. clear Hjx Hjz.
  pose proof (Z.div_mod i c ltac:(lia)) as Hi. pose proof (Z.div_mod j c ltac:(lia)) as Hj.
  pose proof (Z.div_le_mono i j c ltac:(lia) ltac:(lia)) as Hd.
  set (jx := ((spread_of (id +:+ ":x") 19 - 9) / 100)%Q) in *. set (jx' := ((spread_of (id' +:+ ":x") 19 - 9) / 100)%Q) in *.
  set (jz := ((spread_of (id +:+ ":z") 17 - 8) / 120)%Q) in *. set (jz' := ((spread_of (id' +:+ ":z") 17 - 8) / 120)%Q) in *.
  assert (Hgx : exists g, (0.82 <= g)%Q /\ (if bool_decide (7 <= c)%Z then 0.82 else 0.96)%Q = g) by (eexists; split; [|reflexivity]; case_bool_decide; lra).
  assert (Hgz : exists g, (0.66 <= g)%Q /\ (if bool_decide (7 <= c)%Z then 0.66 else 0.73)%Q = g) by (eexists; split; [|reflexivity]; case_bool_decide; lra).
  destruct Hgx as (gx & Hgx & ->), Hgz as (gz & Hgz & ->).
  destruct (decide (i / c = j / c)) as [E|E].
  - left. assert (Hm : i mod c < j mod c) by (rewrite E in Hi; lia).
    pose proof (gap_after_jitter gx (9 # 100) jx jx' _ _ Hm ltac:(lra) Hx Hx').
    apply Qle_trans with (-3.05 + inject_Z (j mod c) * gx + jx' - (-3.05 + inject_Z (i mod c) * gx + jx))%Q; [lra | apply Qle_Qabs].
  - right. assert (Hm : i / c < j / c) by lia.
    assert (Hz1 : (- (8 # 120) <= - jz <= 8 # 120)%Q) by lra. assert (Hz1' : (- (8 # 120) <= - jz' <= 8 # 120)%Q) by lra.
    pose proof (gap_after_jitter gz (8 # 120) (- jz) (- jz') _ _ Hm ltac:(lra) Hz1 Hz1').
    rewrite Qabs_Qminus. apply Qle_trans with (1.55 - inject_Z (i / c) * gz + jz - (1.55 - inject_Z (j / c) * gz + jz'))%Q; [lra | apply Qle_Qabs].
Qed.
End scene_laws.

(** ** Shades *)

Lemma hex_of_byte : Forall (fun c => (length <$> mapM hex_digit_of (String.list_ascii_of_string (padStart 2 "0" (toString16 2 c)))) = Some 2%nat)
  (seqZ 0 256).
Proof. apply (bool_decide_eq_true_1 _). by vm_compute. Qed.

Lemma shade_channel_range amount c : 0 <= shade_channel amount c <= 255.
Proof. unfold shade_channel. lia. Qed.

Lemma list_of_app a b : String.list_ascii_of_string (a +:+ b) = String.list_ascii_of_string a ++ String.list_ascii_of_string b.
Proof. induction a as [|c a IH]; [done|]. change (String c a +:+ b) with (String c (a +:+ b)). cbn. by rewrite IH. Qed.

Lemma mapM_app_Some {A B} (f : A -> option B) l1 l2 k1 k2 : mapM f l1 = Some k1 -> mapM f l2 = Some k2 -> mapM f (l1 ++ l2) = Some (k1 ++ k2).
Proof. intros H1 H2. apply mapM_Some_2. apply Forall2_app; by apply mapM_Some_1. Qed.

Lemma channel_digits amount c : exists ds, length ds = 2%nat /\
  mapM hex_digit_of (String.list_ascii_of_string (padStart 2 "0" (toString16 2 (shade_channel amount c)))) = Some ds.
Proof.
  pose proof hex_of_byte as H. rewrite Forall_forall in H. specialize (H (shade_channel amount c)).
  destruct (mapM _ _) as [ds|] eqn:E; [|discriminate H; apply elem_of_seqZ; pose proof (shade_channel_range amount c); lia].
  exists ds. split; [|done]. assert (Hl : Some (length ds) = Some 2%nat); [|congruence].
  apply H, elem_of_seqZ. pose proof (shade_channel_range amount c). lia.
Qed.

Lemma colour_digits_length v ds : colour_digits v = Some ds -> length ds = 6%nat.
Proof.
  unfold colour_digits. destruct v as [|c rest]; [done|]. destruct (Ascii.eqb c "#"); [|done]. intros H. inv_some.
  case_bool_decide; [|done]. by inv_some.
Qed.

(** A shade is a colour, whatever text it is made from, and with an amount of at
    most one no channel becomes brighter. *)
Theorem shade_is_a_colour hex amount : is_Some (colour_digits (shade hex amount)) /\
  (forall c, 0 <= c <= 255 -> (0 <= amount <= 1)%Q -> shade_channel amount c <= c).
Proof.
  split.
  - unfold shade. set (ds := default [] (colour_digits (hexColor hex "#9bb1c8"))).
    assert (Hl : length ds = 6%nat).
    { subst ds. unfold hexColor. destruct (colour_digits hex) as [d|] eqn:E; [by rewrite E; eapply colour_digits_length | done]. }
    destruct ds as [|d1 [|d2 [|d3 [|d4 [|d5 [|d6 [|]]]]]]]; try done. cbn [channels map String.concat].
    destruct (channel_digits amount (16 * d1 + d2)) as (k1 & L1 & E1). destruct (channel_digits amount (16 * d3 + d4)) as (k2 & L2 & E2).
    destruct (channel_digits amount (16 * d5 + d6)) as (k3 & L3 & E3). unfold colour_digits.
    match goal with |- is_Some (match "#" +:+ ?t with _ => _ end) => change ("#" +:+ t) with (String "#" t) end. cbn [Ascii.eqb].
    change ("" +:+ ?x) with x. rewrite !list_of_app. cbn [String.list_ascii_of_string app].
    rewrite (mapM_app_Some _ _ _ _ _ E1 (mapM_app_Some _ _ _ _ _ E2 E3)). cbn. rewrite bool_decide_true; [by eexists|].
    rewrite !length_app. lia.
  - intros c Hc Ha. unfold shade_channel. assert (H : Qfloor (inject_Z c * amount + (1 # 2)) <= c); [|lia].
    assert (Hq : (inject_Z c * amount <= inject_Z c)%Q).
    { assert (H0 : (0 <= inject_Z c)%Q) by (change 0%Q with (inject_Z 0); rewrite <-Zle_Qle; lia). nra. }
    assert (Hf : (inject_Z (Qfloor (inject_Z c * amount + (1 # 2))) < inject_Z (c + 1))%Q).
    { eapply Qle_lt_trans; [apply Qfloor_le|]. rewrite inject_Z_plus. change (inject_Z 1) with 1%Q. lra. }
    rewrite <-Zlt_Qlt in Hf. lia.
Qed.

Module SceneDataWitness.
#[local] Instance math : HostMath := {| host_cos q := 1; host_sin q := 0; host_sqrt q := q |}%Q.

Definition scene : scene_data := createDashboardSpatialScene ViewModelsWitness.snap None.

Lemma scene_shows_the_projection_witness :
  oc_id (ca_orb (sd_config scene)) = "a"%string /\
  exists l, ca_artifacts (sd_config scene) = Some l /\ map cb_id (ca_cube (sd_config scene) :: l) = ["s"%string].
Proof.
  split.
  - destruct (scene_shows_the_projection ViewModelsWitness.snap None (sd_source scene)) as (_ & H & _). exact (H _ eq_refl).
  - apply (scene_shows_the_projection ViewModelsWitness.snap None (sd_source scene)). by vm_compute.
Defined.

Example connected : map Scene.targetId (ca_connections (sd_config scene)) = ["e"; "s"]%string.
Proof. vm_compute. done. Qed.
End SceneDataWitness.

(** ** Edge behaviour *)

Section edges.
Context {math : HostMath}.

(** The palettes are asked with a visual state in lower case and look for an upper
    case one: what is offline keeps its colour. *)
Theorem offline_is_not_grey palette key v : palette <> [] -> view_colour palette key v ∈ palette.
Proof.
  intros Hne. unfold view_colour, paletteColor.
  assert (E : includes "OFFLINE" (visual_state_text (visualState v)) || includes "UNAVAILABLE" (visual_state_text (visualState v)) = false)
    by (by destruct (visualState v)).
  rewrite E. assert (Hl : 0 < Z.of_nat (length palette)) by (destruct palette; [done | cbn; lia]).
  pose proof (Z.mod_pos_bound (hash key) _ Hl) as Hm.
  destruct (lookup_lt_is_Some_2 palette (Z.to_nat (hash key mod Z.of_nat (length palette)))) as [c Hc]; [lia|].
  rewrite Hc. by eapply list_elem_of_lookup_2.
Qed.

(** A workspace without sessions and artifacts shows a cube all the same, under an
    id that no entity has. *)
Theorem empty_scene_shows_a_cube s ns src : artifact_models (composeSpatialWorkspaceViewModel s ns desktop) = [] ->
  ca_cube (sd_config (sceneFromSnapshot s ns src)) = DEFAULT_CUBE.
Proof. intros H. cbn [sceneFromSnapshot sd_config ca_cube]. by rewrite H. Qed.

(** Ids are unique within a kind of entity only: a session and an artifact of one
    id are two cubes with the same id, and so are their connections. *)
Theorem scene_ids_collide : exists s, NoDup (map en_ref (entities s)) /\
  let c := sd_config (createDashboardSpatialScene s None) in
  cb_id <$> Some (ca_cube c) = cb_id <$> (ca_artifacts c ≫= List.hd_error) /\
  exists k l, map cc_id (ca_connections c) = [k; l] /\ k = l.
Proof.
  exists (Snapshot "w" "n" 1 4 1 1
    [ViewModelsWitness.ent "x" "session:x" "ACTIVE" AV_AVAILABLE ViewModelsWitness.fresh (D_session ST_SESSION None []);
     ViewModelsWitness.ent "x" "artifact:x" "READY" AV_AVAILABLE ViewModelsWitness.fresh (D_artifact "bundle" "artifact:x" 1)] [] [] [] None).
  split; [apply (bool_decide_eq_true_1 _); by vm_compute|]. split; [done|]. eexists _, _. split; [|done]. done.
Qed.
End edges.
