(* ===== verification/AgentInterface.v ===== *)
(** * The agent channel

    src/web/operator-dashboard/src/spatial-calibration/agent-interface.ts: the hook
    that polls the conversation with the Primary Agent, shows the scene and the
    workspace the agent publishes, and sends messages. The hook is a state machine:
    its state variables and refs, with a step for each part of a handler up to its
    next await. The publications are JSON; what the dashboard's schemas make of
    them is given ([parse_fleet] and the like), as in [DashboardAdapter]. *)

From stdpp Require Import relations.
From Stdlib Require Import QArith.
From S2P Require Import Prelude.
From S2P Require Import Json.
From S2P Require Import Contracts.
From S2P Require Import Numbers.
From S2P Require Import Text.
From S2P Require Import Events.
From S2P Require Import Transport.
From S2P Require Import DashboardAdapter.
From S2P Require Import Scene.
From S2P Require Import DashboardScene.

#[local] Open Scope Z_scope.

(** ** Conversations *)

(** [agent_id], which can also be null or missing. *)
Inductive agent_ref : Type := Ag_undefined | Ag_null | Ag (id : string).
#[export] Instance agent_ref_eq_dec : EqDecision agent_ref.
Proof. solve_decision. Defined.

Inductive direction : Type := FROM_OPERATOR | FROM_AGENT.
#[export] Instance direction_eq_dec : EqDecision direction.
Proof. solve_decision. Defined.

(** [AgentConversationMessage]; [created_at] is what [Date.parse] makes of it. *)
Record message : Type := Message {
  am_id : string;
  am_direction : direction;
  am_text : string;
  am_created : jsnum;
  am_request : option string;
}.

(** [AgentConversationProgress]. *)
Record progress : Type := Progress { pg_request : string; pg_surface : string; pg_text : string }.

(** [interface.scene]; [observed_at] is the date it stands for. *)
Record publication : Type := Publication { pb_revision : string; pb_observed : date; pb_data : list (string * json) }.

(** [AgentConversation]; a workspace that is null is missing. *)
Record conversation : Type := Conversation {
  cv_agent : agent_ref;
  cv_connected : bool;
  cv_messages : list message;
  cv_progress : list progress;
  cv_scene : option publication;
  cv_workspace : option json;
}.

(** [next.workspace?.active?.turns.some(turn => turn.role === 'agent' && turn.intent_id === id)]. *)
Definition is_text (k s : string) (v : json) : bool := match jget k (fields v) with Some (JStr t) => str_eqb t s | _ => false end.
Definition turn_answers (id : string) (turn : json) : bool :=
  is_text "role" "agent" turn && is_text "intent_id" id turn.
Definition workspace_answers (id : string) (w : option json) : bool :=
  match w with
  | Some w => match jget "active" (fields w) with
              | Some a => match jget "turns" (fields a) with Some (JArr l) => existsb (turn_answers id) l | _ => false end
              | None => false
              end
  | None => false
  end.

(** ** Failures *)

(** What a handler can catch: a [DashboardApiError], another error, anything else. *)
Inductive cause : Type := ApiCause (status : option Z) (message : string) | OtherError (message : string) | NoError.

Definition slowPoll (c : cause) : bool :=
  match c with ApiCause None m => includes "did not respond within" m | _ => false end.

(** The text that is shown: the error's own, or the one for a failure without. *)
Definition cause_text (fallback : string) (c : cause) : string :=
  match c with ApiCause _ m | OtherError m => m | NoError => fallback end.

(** ** The surface's identity *)

Definition surface_char (c : ascii) : bool := is_alpha c || is_digit c || one_of "_.:-" c.

(** [/^[A-Za-z0-9_.:-]{1,128}$/]. *)
Definition surface_name (s : string) : bool :=
  forallb surface_char (String.list_ascii_of_string s) && bool_decide (1 <= String.length s <= 128)%nat.

Definition interfaceId (prefix nonce : string) : string := prefix +:+ "-" +:+ nonce.

(** [surfaceIdentity]: the id and what is stored afterwards; [None] is a storage
    that throws. *)
Definition surfaceIdentity (storage : option (option string)) (nonce : string) : string * option (option string) :=
  match storage with
  | None => (interfaceId "spatial" nonce, None)
  | Some stored =>
      match stored with
      | Some s => if surface_name s then (s, storage) else (interfaceId "spatial" nonce, Some (Some (interfaceId "spatial" nonce)))
      | None => (interfaceId "spatial" nonce, Some (Some (interfaceId "spatial" nonce)))
      end
  end.

(** ** The hook's state *)

Record agent_ui : Type := AgentUi {
  surfaceId : string;
  ui_conversation : option conversation;
  ui_scene : option scene_data;
  ui_workspace : option json;
  streaming : option progress;
  ui_error : option string;
  online : bool;
  pending : option string;
  refreshKey : N;
  bootstrapSent : bool;
  mounted : bool;
  inFlight : bool;
  retryRequests : jsmap string;
  sceneRevision : option string;
  boundAgent : agent_ref;
}.

Definition opened_ui (surface : string) : agent_ui :=
  AgentUi surface None None None None None false None 0 false true false [] None Ag_undefined.

(** ** Sending *)

Inductive send_error : Type := Empty_message | Busy | Send_failed (c : cause).

(** [JSON.stringify({ text, interaction, chat })], without what is undefined. *)
Definition optional_field (k : string) (o : option json) : list (string * json) := match o with Some v => [(k, v)] | None => [] end.
Definition fingerprint_of (text : string) (interaction chat : option json) : string :=
  stringify (JObj (("text"%string, JStr (trim text)) :: optional_field "interaction" interaction ++ optional_field "chat" chat)).

Definition set_sending (error : option string) (busy : bool) (requests : jsmap string) (u : agent_ui) : agent_ui :=
  AgentUi (surfaceId u) (ui_conversation u) (ui_scene u) (ui_workspace u) (streaming u) error (online u) (pending u) (refreshKey u)
    (bootstrapSent u) (mounted u) busy requests (sceneRevision u) (boundAgent u).

(** [send] up to its request: the request's id and the fingerprint. *)
Definition send_begin (text : string) (interaction chat : option json) (nonce : string) (u : agent_ui)
  : agent_ui * result send_error (string * string) :=
  if str_eqb (trim text) "" then (u, Err Empty_message)
  else if inFlight u then (u, Err Busy)
  else
    let fingerprint := fingerprint_of text interaction chat in
    let requestId := default (interfaceId "request" nonce) (jget fingerprint (retryRequests u)) in
    (set_sending None true (jset fingerprint requestId (retryRequests u)) u, Ok (requestId, fingerprint)).

(** [send] after its request. *)
Definition send_settle (fingerprint requestId : string) (outcome : result cause unit) (u : agent_ui) : agent_ui * result send_error string :=
  match outcome with
  | Ok _ =>
      let u := set_sending (ui_error u) false (jdelete fingerprint (retryRequests u)) u in
      (if mounted u
       then AgentUi (surfaceId u) (ui_conversation u) (ui_scene u) (ui_workspace u) (streaming u) (ui_error u) (online u) (Some requestId)
              (refreshKey u + 1) (bootstrapSent u) (mounted u) (inFlight u) (retryRequests u) (sceneRevision u) (boundAgent u)
       else u, Ok requestId)
  | Err c => (set_sending (if mounted u then Some (cause_text "Не удалось передать сообщение агенту. Повторите отправку." c) else ui_error u) false (retryRequests u) u, Err (Send_failed c))
  end.

(** ** Polling *)

(** A poll of an effect that was cleaned up is aborted. *)
Definition aborted (generation : N) (u : agent_ui) : bool := negb (mounted u) || negb (generation =? refreshKey u)%N.

Definition bind_agent (next : conversation) (u : agent_ui) : agent_ui :=
  if bool_decide (cv_agent next = boundAgent u) then u
  else AgentUi (surfaceId u) (ui_conversation u) None None (streaming u) (ui_error u) (online u) (pending u) (refreshKey u) false
         (mounted u) (inFlight u) (retryRequests u) None (cv_agent next).

Definition set_scene (o : option scene_data) (revision : option string) (u : agent_ui) : agent_ui :=
  AgentUi (surfaceId u) (ui_conversation u) o (ui_workspace u) (streaming u) (ui_error u) (online u) (pending u) (refreshKey u)
    (bootstrapSent u) (mounted u) (inFlight u) (retryRequests u) revision (boundAgent u).

(** [JSON.stringify(current) === JSON.stringify(next.workspace ?? null)]. *)
Definition same_publication (a b : option json) : bool := str_eqb (stringify (default JNull a)) (stringify (default JNull b)).

(** The message [id] was sent for is answered. *)
Definition answered (next : conversation) (id : string) : bool :=
  existsb (fun m => bool_decide (am_direction m = FROM_AGENT) && bool_decide (am_request m = Some id)) (cv_messages next)
  || workspace_answers id (cv_workspace next).

(** From [setConversation] to [setPending]. *)
Definition show_conversation (next : conversation) (u : agent_ui) : agent_ui :=
  AgentUi (surfaceId u) (Some next) (ui_scene u) (if same_publication (ui_workspace u) (cv_workspace next) then ui_workspace u else cv_workspace next)
    (List.find (fun p => str_eqb (pg_surface p) (surfaceId u)) (cv_progress next)) None (cv_connected next)
    (match pending u with Some id => if answered next id then None else Some id | None => None end) (refreshKey u) (bootstrapSent u)
    (mounted u) (inFlight u) (retryRequests u) (sceneRevision u) (boundAgent u).

Definition set_bootstrap (b : bool) (u : agent_ui) : agent_ui :=
  AgentUi (surfaceId u) (ui_conversation u) (ui_scene u) (ui_workspace u) (streaming u) (ui_error u) (online u) (pending u) (refreshKey u)
    b (mounted u) (inFlight u) (retryRequests u) (sceneRevision u) (boundAgent u).

Definition set_online (b : bool) (error : option string) (u : agent_ui) : agent_ui :=
  AgentUi (surfaceId u) (ui_conversation u) (ui_scene u) (ui_workspace u) (streaming u) error b (pending u) (refreshKey u)
    (bootstrapSent u) (mounted u) (inFlight u) (retryRequests u) (sceneRevision u) (boundAgent u).

(** The [catch] of [poll]. *)
Definition poll_caught (c : cause) (u : agent_ui) : agent_ui :=
  if slowPoll c then set_online (online u || match boundAgent u with Ag _ => true | _ => false end) None u
  else set_online false (Some (cause_text "Канал агента недоступен. Показан последний полученный снимок." c)) (set_bootstrap false u).

(** The request that asks for a first scene, when there is one to send. *)
Definition bootstrap_request (next : conversation) (u : agent_ui) : option string :=
  let requestId := "scene-" +:+ surfaceId u in
  if existsb (fun m => bool_decide (am_request m = Some requestId)) (cv_messages next) then None else Some requestId.

(** How a poll goes on: it was aborted, it threw, or it is over, polling fast or
    not, perhaps with a request to send first. *)
Inductive poll_result : Type := Poll_aborted | Poll_threw (c : cause) | Poll_done (fastPoll : bool) (bootstrap : option string).

Section polling.
Context {math : HostMath} {zod : Zod}.
Context (parse_fleet : json -> option fleet) (parse_endpoints : json -> option endpoint_payload)
  (parse_sessions : json -> option session_dashboard).

Definition text_field (k : string) (l : list (string * json)) : option string :=
  match jget k l with Some (JStr s) => if str_eqb s "" then None else Some s | _ => None end.

Definition text_items (o : option json) : list string :=
  match o with Some (JArr l) => omap (fun v => match v with JStr s => Some s | _ => None end) l | _ => [] end.

(** What [sceneFromAgentPublication] throws: its own errors, and those of the
    schemas, of the date and of the adapter by what they are about. *)
Definition E_node : cause := OtherError "В публикации агента отсутствует идентификатор ноды.".
Definition E_agent : cause := OtherError "В публикации отсутствует идентификатор основного агента.".
Definition E_schema : cause := OtherError "schema".
Definition E_date : cause := OtherError "date".
Definition E_api : cause := OtherError "spatial".

(** [sceneFromAgentPublication]. A date that is none makes no snapshot. *)
Definition sceneFromAgentPublication (next : conversation) : result cause (option scene_data) :=
  match cv_scene next with
  | None => Ok None
  | Some pub =>
      let data := pb_data pub in
      let? node := of_option (text_field "node_id" data) E_node in
      let? agent := of_option (text_field "agent_id" data) E_agent in
      let? fl := of_option (jget "fleet" data ≫= parse_fleet) E_schema in
      let? eps := of_option (jget "endpoints" data ≫= parse_endpoints) E_schema in
      let? ses := of_option (jget "sessions" data ≫= parse_sessions) E_schema in
      let? at_ := of_option (pb_observed pub) E_date in
      match createDashboardSpatialSnapshotForPayload
              (Payload (Some (PrimarySummary agent "Основной агент" "CONNECTED" true)) fl eps ses None None (text_items (jget "failures" data)) at_)
              (Scope "local-hypervisor" node) at_ with
      | Ok (_, _, scene) => Ok (Some scene)
      | Err _ => Err E_api
      end
  end.

(** [poll] from its answer to its next await. *)
Definition poll_answered (generation : N) (next : conversation) (u : agent_ui) : agent_ui * poll_result :=
  if aborted generation u then (u, Poll_aborted)
  else
    let u := bind_agent next u in
    let revision := pb_revision <$> cv_scene next in
    match (if bool_decide (revision = sceneRevision u) then Ok u
           else match sceneFromAgentPublication next with Ok o => Ok (set_scene o revision u) | Err c => Err c end) with
    | Err c => (poll_caught c u, Poll_threw c)
    | Ok u =>
        let u := show_conversation next u in
        let fast := bool_decide (is_Some (streaming u)) in
        if cv_connected next && match cv_scene next with None => true | Some _ => false end && negb (bootstrapSent u)
        then let u := set_bootstrap true u in (u, Poll_done fast (bootstrap_request next u))
        else (u, Poll_done fast None)
    end.
End polling.

(** The answer did not come, or the request for a first scene failed. *)
Definition poll_failed (generation : N) (c : cause) (u : agent_ui) : agent_ui :=
  if aborted generation u then u else poll_caught c u.

(** When the next poll is scheduled. *)
Definition poll_delay (hidden fastPoll : bool) : Z := if hidden then 8000 else if fastPoll then 250 else 1500.

Definition unmount (u : agent_ui) : agent_ui :=
  AgentUi (surfaceId u) (ui_conversation u) (ui_scene u) (ui_workspace u) (streaming u) (ui_error u) (online u) (pending u) (refreshKey u)
    (bootstrapSent u) false (inFlight u) (retryRequests u) (sceneRevision u) (boundAgent u).

(** ** Sending once *)

Lemma fingerprint_inj t i c t' i' c' : fingerprint_of t i c = fingerprint_of t' i' c' -> trim t = trim t' /\ i = i' /\ c = c'.
Proof. intros [= Ht H]%stringify_inj. split; [done|]. destruct i, c, i', c'; by inv H. Qed.

(** A message is sent by one request at a time, and a blank one by none. A message
    that failed is sent again by the same request, one that arrived by a new one,
    and only messages of the same content share a request. *)
Theorem message_keeps_its_request text interaction chat nonce u : let r := send_begin text interaction chat nonce u in
  (r.2 = Err Empty_message <-> trim text = ""%string) /\
  (trim text <> ""%string -> inFlight u = true -> r = (u, Err Busy)) /\
  (forall id fp, r.2 = Ok (id, fp) ->
     inFlight u = false /\ inFlight r.1 = true /\ fp = fingerprint_of text interaction chat /\
     (forall text' interaction' chat', fingerprint_of text' interaction' chat' = fp ->
        trim text' = trim text /\ interaction' = interaction /\ chat' = chat) /\
     (forall c nonce', (send_begin text interaction chat nonce' (send_settle fp id (Err c) r.1).1).2 = Ok (id, fp)) /\
     (forall nonce', (send_begin text interaction chat nonce' (send_settle fp id (Ok tt) r.1).1).2 = Ok (interfaceId "request" nonce', fp))).
Proof.
  cbn zeta. remember (send_begin text interaction chat nonce u) as r eqn:Hr. unfold send_begin in Hr.
  destruct (str_eqb (trim text) "") eqn:Et.
  { apply str_eqb_eq in Et. subst r. split_and!; [done | by intros ? | done]. }
  assert (Hne : trim text <> ""%string) by (intros H; by rewrite H in Et).
  destruct (inFlight u) eqn:Eb; subst r; split_and!; try done. intros id fp [= <- <-]. split_and!; try done.
  - intros text' i' c' H. by apply fingerprint_inj in H.
  - intros c nonce'. unfold send_begin, send_settle. cbn [set_sending inFlight retryRequests fst snd]. by rewrite Et, jget_jset_eq.
  - intros nonce'. unfold send_begin, send_settle. cbn [set_sending inFlight retryRequests fst snd mounted].
    destruct (mounted u); cbn [inFlight retryRequests set_sending]; by rewrite Et, jget_jdelete, str_eqb_refl.
Qed.

(** ** What is shown *)

Section history.
Context {math : HostMath} {zod : Zod}.
Context (parse_fleet : json -> option fleet) (parse_endpoints : json -> option endpoint_payload)
  (parse_sessions : json -> option session_dashboard).

Notation poll := (poll_answered parse_fleet parse_endpoints parse_sessions).
Notation scene_of := (sceneFromAgentPublication parse_fleet parse_endpoints parse_sessions).

(** What can happen to the hook, with the conversations it was answered. *)
Inductive history : list conversation -> agent_ui -> Prop :=
| hi_open surface : history [] (opened_ui surface)
| hi_send seen u text i c nonce : history seen u -> history seen (send_begin text i c nonce u).1
| hi_settle seen u fp id outcome : history seen u -> history seen (send_settle fp id outcome u).1
| hi_answer seen u generation next : history seen u -> history (next :: seen) (poll generation next u).1
| hi_failure seen u generation c : history seen u -> history seen (poll_failed generation c u)
| hi_unmount seen u : history seen u -> history seen (unmount u).

(** The shown scene and workspace come from an answer of the bound agent. *)
Record ui_ok (seen : list conversation) (u : agent_ui) : Prop := {
  uo_scene : forall d, ui_scene u = Some d -> exists next pub,
    next ∈ seen /\ cv_agent next = boundAgent u /\ cv_scene next = Some pub /\ sceneRevision u = Some (pb_revision pub) /\
    scene_of next = Ok (Some d);
  uo_workspace : forall w, ui_workspace u = Some w -> exists next, next ∈ seen /\ cv_agent next = boundAgent u /\ cv_workspace next = Some w;
  uo_conversation : forall c, ui_conversation u = Some c -> c ∈ seen;
}.

(** Only these fields matter. *)
Lemma ui_ok_ext seen u u' : ui_scene u' = ui_scene u -> ui_workspace u' = ui_workspace u -> ui_conversation u' = ui_conversation u ->
  boundAgent u' = boundAgent u -> sceneRevision u' = sceneRevision u -> ui_ok seen u -> ui_ok seen u'.
Proof. intros E1 E2 E3 E4 E5 []. split; rewrite ?E1, ?E2, ?E3, ?E4, ?E5; done. Qed.

Lemma ui_ok_more seen u next : ui_ok seen u -> ui_ok (next :: seen) u.
Proof.
  intros [H1 H2 H3]. split.
  - intros d Hd. destruct (H1 d Hd) as (n & p & Hn & Hr). exists n, p. split; [by right | done].
  - intros w Hw. destruct (H2 w Hw) as (n & Hn & Hr). exists n. split; [by right | done].
  - intros c Hc. right. by apply H3.
Qed.

Lemma bind_agent_bound next u : boundAgent (bind_agent next u) = cv_agent next.
Proof. unfold bind_agent. case_bool_decide as E; [by symmetry | done]. Qed.

Lemma bind_agent_ok seen next u : ui_ok seen u -> ui_ok seen (bind_agent next u) /\ boundAgent (bind_agent next u) = cv_agent next.
Proof. intros []. unfold bind_agent. case_bool_decide as E; [by split|]. split; [|done]. by split. Qed.

Lemma caught_ok seen c u : ui_ok seen u -> ui_ok seen (poll_caught c u).
Proof. unfold poll_caught. destruct (slowPoll c); by apply ui_ok_ext. Qed.

Lemma same_publication_eq a b : same_publication a b = true <-> default JNull a = default JNull b.
Proof. unfold same_publication. rewrite str_eqb_eq. split; [apply stringify_inj | by intros ->]. Qed.

Lemma show_ok seen next u : next ∈ seen -> cv_agent next = boundAgent u -> ui_ok seen u -> ui_ok seen (show_conversation next u).
Proof.
  intros Hin Ha [H1 H2 H3]. split; cbn; [done| |by intros c [= <-]].
  intros w. destruct (same_publication _ _); [apply H2|]. intros Hw. by exists next.
Qed.

Lemma poll_ok seen generation next u : ui_ok seen u -> ui_ok (next :: seen) (poll generation next u).1.
Proof.
  intros H%(ui_ok_more _ _ next). unfold poll_answered. destruct (aborted generation u); [done|].
  apply (bind_agent_ok _ next) in H as [H Ha]. generalize dependent (bind_agent next u). clear u. intros u H Ha.
  assert (Hs : match (if bool_decide (pb_revision <$> cv_scene next = sceneRevision u) then Ok u
               else match scene_of next with Ok o => Ok (set_scene o (pb_revision <$> cv_scene next) u) | Err c => Err c end) with
               | Err c => True | Ok v => ui_ok (next :: seen) v /\ boundAgent v = cv_agent next end).
  { case_bool_decide; [done|]. destruct (scene_of next) as [o|c] eqn:E; [|done]. split; [|done]. destruct H as [H1 H2 H3].
    split; [|done..]. cbn. intros d ->. destruct (cv_scene next) as [pub|] eqn:Ep; [|unfold sceneFromAgentPublication in E; by rewrite Ep in E].
    exists next, pub. split; [left|]. done. }
  destruct (if bool_decide _ then _ else _) as [v|c]; [|by apply caught_ok]. destruct Hs as [Hv Hb].
  assert (Hc : ui_ok (next :: seen) (show_conversation next v)) by (apply show_ok; [left | done | done]).
  destruct (_ && _); [|done]. by apply (ui_ok_ext _ (show_conversation next v)).
Qed.

Lemma history_ok seen u : history seen u -> ui_ok seen u.
Proof.
  induction 1 as [surface|seen u text i c nonce _ IH|seen u fp id outcome _ IH|seen u generation next _ IH|seen u generation c _ IH|seen u _ IH].
  - by split.
  - unfold send_begin. destruct (str_eqb _ _); [done|]. destruct (inFlight u); [done|]. by apply (ui_ok_ext _ u).
  - unfold send_settle. destruct outcome; [|by apply (ui_ok_ext _ u)]. destruct (mounted u) eqn:E; cbn; rewrite E; by apply (ui_ok_ext _ u).
  - by apply poll_ok.
  - unfold poll_failed. destruct (aborted _ _); [done | by apply caught_ok].
  - by apply (ui_ok_ext _ u).
Qed.

(** C38. Whatever order answers, failures and messages come in: a scene that is
    shown is the one made from a publication of the agent the surface is bound to,
    in the revision it remembers, a workspace that is shown was published by that
    agent, and a conversation that is shown was answered. Another agent takes
    neither scene nor workspace over. *)
Theorem shown_is_what_the_agent_published seen u : history seen u ->
  (forall d, ui_scene u = Some d -> exists next pub,
     next ∈ seen /\ cv_agent next = boundAgent u /\ cv_scene next = Some pub /\ sceneRevision u = Some (pb_revision pub) /\
     scene_of next = Ok (Some d)) /\
  (forall w, ui_workspace u = Some w -> exists next, next ∈ seen /\ cv_agent next = boundAgent u /\ cv_workspace next = Some w) /\
  (forall c, ui_conversation u = Some c -> c ∈ seen) /\
  (forall generation next u' r, poll generation next u = (u', r) -> r <> Poll_aborted -> boundAgent u' = cv_agent next).
Proof.
  intros H%history_ok. destruct H as [H1 H2 H3]. split_and!; try done.
  intros generation next u' r Hp Hr. unfold poll_answered in Hp. destruct (aborted generation u); [by injection Hp as <- <-|].
  pose proof (bind_agent_bound next u) as Ha.
  destruct (bool_decide (_ = sceneRevision _)); [|destruct (scene_of next)]; [| |unfold poll_caught in Hp; destruct (slowPoll _); by injection Hp as <- <-].
  - cbn in Hp. destruct (_ && _); by injection Hp as <- <-.
  - cbn in Hp. destruct (_ && _); by injection Hp as <- <-.
Qed.

(** A first scene is asked for only while the agent is connected, has published
    none and was not asked before, by one request of the surface's own that is not
    among the messages; and then not again until a request fails or another agent
    is bound. *)
Theorem first_scene_is_asked_once generation next u u' fast id : poll generation next u = (u', Poll_done fast (Some id)) ->
  cv_connected next = true /\ cv_scene next = None /\ (cv_agent next = boundAgent u -> bootstrapSent u = false) /\
  id = ("scene-" +:+ surfaceId u)%string /\ (forall m, m ∈ cv_messages next -> am_request m <> Some id) /\ bootstrapSent u' = true.
Proof.
  unfold poll_answered. destruct (aborted generation u); [done|].
  assert (Hb : surfaceId (bind_agent next u) = surfaceId u /\ (cv_agent next = boundAgent u -> bind_agent next u = u))
    by (unfold bind_agent; by case_bool_decide).
  destruct Hb as [Hs Hb].
  destruct (if bool_decide _ then _ else _) as [v|c] eqn:E; [|done].
  assert (Hv : surfaceId v = surfaceId (bind_agent next u) /\ bootstrapSent v = bootstrapSent (bind_agent next u)).
  { case_bool_decide; [by injection E as <-|]. destruct (scene_of next); [by injection E as <- | done]. }
  destruct Hv as [Hv1 Hv2]. cbn. destruct (_ && _) eqn:Ec; [|done]. intros [= <- _ Hr].
  apply andb_true_iff in Ec as [Ec Ec3]. apply andb_true_iff in Ec as [Ec1 Ec2]. apply negb_true_iff in Ec3.
  unfold bootstrap_request in Hr. cbn in Hr. destruct (existsb _ _) eqn:Ex; [done|]. injection Hr as <-.
  split_and!; try done.
  - by destruct (cv_scene next).
  - intros Ha. by rewrite <-(Hb Ha), <-Hv2.
  - by rewrite Hv1, Hs.
  - intros m Hm Hq. apply not_true_iff_false in Ex. apply Ex, existsb_exists. exists m. split; [by apply list_elem_of_In|].
    by apply bool_decide_eq_true_2.
Qed.

(** A message stays pending until an answer names it: an agent's message to its
    request, or an agent's turn of the active workspace. *)
Theorem pending_until_answered generation next u u' fast b id : poll generation next u = (u', Poll_done fast b) ->
  pending u' = Some id <-> pending u = Some id /\ answered next id = false.
Proof.
  unfold poll_answered. destruct (aborted generation u); [done|].
  assert (Hp : pending (bind_agent next u) = pending u) by (unfold bind_agent; by case_bool_decide).
  destruct (if bool_decide _ then _ else _) as [v|c] eqn:E; [|done].
  assert (Hv : pending v = pending u).
  { rewrite <-Hp. case_bool_decide; [by injection E as <-|]. destruct (scene_of next); [by injection E as <- | done]. }
  intros H. assert (Hu : pending u' = match pending v with Some i => if answered next i then None else Some i | None => None end)
    by (cbn in H; destruct (_ && _); by injection H as <- _ _).
  rewrite Hu, Hv. destruct (pending u) as [i|]; [|by split; [|intros []]]. destruct (answered next i) eqn:Ea.
  - split; [done|]. intros [[= ->] ?]. congruence.
  - split; [by intros [= ->] | by intros [[= ->] _]].
Qed.

(** ** Edge behaviour *)

(** A publication that makes no scene stops the channel: as long as it stands, no
    answer is shown, however many are polled. *)
Theorem bad_scene_blocks_the_channel generation next u c pub : aborted generation u = false -> cv_agent next = boundAgent u ->
  cv_scene next = Some pub -> sceneRevision u <> Some (pb_revision pub) -> scene_of next = Err c -> slowPoll c = false ->
  let u' := (poll generation next u).1 in
  ui_conversation u' = ui_conversation u /\ ui_workspace u' = ui_workspace u /\ pending u' = pending u /\ online u' = false /\
  sceneRevision u' = sceneRevision u.
Proof.
  intros Hg Ha Hs Hr He Hc. unfold poll_answered. rewrite Hg. assert (Hb : bind_agent next u = u) by (unfold bind_agent; by case_bool_decide). rewrite Hb, Hs.
  cbn [fmap option_fmap option_map]. rewrite bool_decide_false by congruence. rewrite He. cbn [fst]. unfold poll_caught. by rewrite Hc.
Qed.

(** Another agent takes the pending message over, which it was never sent. *)
Theorem pending_survives_the_agent next u : pending (bind_agent next u) = pending u.
Proof. unfold bind_agent. by case_bool_decide. Qed.
End history.

(** A poll that came too late is no outage: who was online stays so, and so is who
    is bound to an agent. Any other failure is one, and a first scene may be asked
    for again. *)
Theorem failure_is_an_outage_unless_slow c u : let u' := poll_caught c u in
  (slowPoll c = true -> ui_error u' = None /\ bootstrapSent u' = bootstrapSent u /\
     (online u' = true <-> online u = true \/ exists id, boundAgent u = Ag id)) /\
  (slowPoll c = false -> online u' = false /\ is_Some (ui_error u') /\ bootstrapSent u' = false) /\
  ui_scene u' = ui_scene u /\ ui_workspace u' = ui_workspace u /\ ui_conversation u' = ui_conversation u /\ pending u' = pending u.
Proof.
  unfold poll_caught. destruct (slowPoll c); split_and!; try done; intros _; split_and!; try done.
  cbn. rewrite orb_true_iff. destruct (boundAgent u); naive_solver.
Qed.

(** An identity that was stored is found again. *)
Theorem surface_keeps_its_identity storage nonce nonce' id storage' : surfaceIdentity storage nonce = (id, storage') -> storage' <> None ->
  surface_name id = true -> (surfaceIdentity storage' nonce').1 = id.
Proof.
  unfold surfaceIdentity. destruct storage as [[s|]|]; [destruct (surface_name s) eqn:E| |]; intros [= <- <-] Hs Hn; cbn; by rewrite ?E, ?Hn.
Qed.

Module AgentWitness.
#[local] Existing Instance zod_ref.
#[local] Instance math : HostMath := {| host_cos q := 1; host_sin q := 0; host_sqrt q := q |}%Q.
Definition pf (_ : json) : option fleet := Some (Fleet None [] 0).
Definition pe (_ : json) : option endpoint_payload := Some (EndpointPayload [] 0).
Definition ps (_ : json) : option session_dashboard := Some (SessionDashboard Schemas.VUndefined 0 []).

Definition pub : publication :=
  Publication "r1" (Some 9000) [("node_id", JStr "n"); ("agent_id", JStr "a"); ("fleet", JNull); ("endpoints", JNull); ("sessions", JNull)]%string.
Definition next : conversation := Conversation (Ag "a") true [] [] (Some pub) (Some (JObj [("revision", JNum 1)]%string)).
Definition shown : agent_ui := (poll_answered pf pe ps 0 next (opened_ui "s")).1.

Lemma shown_is_what_the_agent_published_witness : is_Some (ui_scene shown) /\
  exists n, n ∈ [next] /\ cv_agent n = Ag "a" /\ cv_workspace n = Some (JObj [("revision", JNum 1)]%string).
Proof.
  split; [vm_compute; by eexists|].
  destruct (shown_is_what_the_agent_published pf pe ps [next] shown) as (_ & H & _); [apply hi_answer, hi_open|].
  apply (H _ eq_refl).
Defined.

Lemma first_scene_witness : exists u' id,
  poll_answered pf pe ps 0 (Conversation (Ag "a") true [] [] None None) (opened_ui "s") = (u', Poll_done false (Some id)) /\ id = "scene-s"%string.
Proof.
  eexists _, _. split; [reflexivity|].
  destruct (first_scene_is_asked_once pf pe ps 0 (Conversation (Ag "a") true [] [] None None) (opened_ui "s") _ _ _ eq_refl) as (_ & _ & _ & H & _).
  exact H.
Defined.
End AgentWitness.
