(* ===== verification/AgentVoice.v ===== *)
(** * Speaking with the Primary Agent

    src/web/operator-dashboard/src/spatial-calibration/primary-agent-voice.ts: what
    counts as a reply of the agent, the delivery of a spoken message over the agent
    channel ([AgentInterface]) with its polling loop, and the state of the voice
    control. The browser's recognition, its clock and the channel are what the
    steps are given. *)

From S2P Require Import Prelude.
From S2P Require Import Json.
From S2P Require Import Contracts.
From S2P Require Import Numbers.
From S2P Require Import Text.
From S2P Require Import Events.
From S2P Require Import AgentInterface.

#[local] Open Scope Z_scope.

(** ** Replies *)

Definition asRecord (v : json) : list (string * json) := fields v.

Definition nonEmptyText (o : option json) : option string :=
  match o with Some (JStr s) => if str_eqb (trim s) "" then None else Some (trim s) | _ => None end.

Definition REPLY_KEYS : list string := ["output_text"; "response_text"; "assistant_text"; "agent_reply"; "reply"; "answer"]%string.
Definition NESTED_KEYS : list string := ["result"; "data"; "response"; "payload"]%string.
Definition ASSISTANT_ROLES : list string := ["assistant"; "agent"; "ai"; "agent_reply"]%string.

(** The first result of a loop over keys that returns. *)
Fixpoint first_of {A} (f : string -> option A) (keys : list string) : option A :=
  match keys with [] => None | k :: keys => match f k with Some a => Some a | None => first_of f keys end end.

(** [r.a ?? r.b ?? r.c]. *)
Definition coalesce (keys : list string) (r : list (string * json)) : option json :=
  first_of (fun k => match jget k r with Some JNull | None => None | Some v => Some v end) keys.

Definition role_of (r : list (string * json)) : string :=
  to_lower (match coalesce ["role"; "sender"; "direction"]%string r with Some v => text_of v | None => ""%string end).

Definition own_reply (r : list (string * json)) : option string :=
  match first_of (fun k => nonEmptyText (jget k r)) REPLY_KEYS with
  | Some t => Some t
  | None => if bool_decide (role_of r ∈ ASSISTANT_ROLES) then nonEmptyText (coalesce ["text"; "content"; "message"]%string r) else None
  end.

(** [extractAgentReply]; [depths] is what is left of the four depths 0 to 3. *)
Fixpoint extract (depths : nat) (v : json) : option string :=
  match depths with
  | O => None
  | S depths =>
      let r := asRecord v in
      match own_reply r with
      | Some t => Some t
      | None => first_of (fun k => match jget k r with Some ((JObj _ | JArr _) as nested) => extract depths nested | _ => None end) NESTED_KEYS
      end
  end.
Definition extractAgentReply (v : json) : option string := extract 4 v.

(** A message that [extractLatestAgentReply] passes over. *)
Definition passed_over (known : list string) (requestStartedAt : option Z) (m : message) : bool :=
  negb (bool_decide (am_direction m = FROM_AGENT)) || str_eqb (trim (am_text m)) ""
  || (negb (str_eqb (am_id m) "") && bool_decide (am_id m ∈ known))
  || match requestStartedAt with Some t => num_lt (am_created m) (num (t - 1500)) && isFinite (am_created m) | None => false end.

Definition extractLatestAgentReply (c : option conversation) (known : list string) (requestStartedAt : option Z) : option string :=
  c ← c; (fun m => trim (am_text m)) <$> List.find (fun m => negb (passed_over known requestStartedAt m)) (reverse (cv_messages c)).

(** ** Delivery *)

Inductive delivery : Type :=
| Replied (text : string)
| No_reply
| Blank_message
| Not_connected
| Rejected (c : cause)
| Out_of_fuel.

(** What the channel and the clock answer in one round of the loop: the two
    readings of the clock, and the conversation that is read after the sleep. *)
Record round : Type := Round { rd_check : Z; rd_sleep : Z; rd_read : result cause conversation }.

(** The same for a whole delivery. *)
Record exchange : Type := Exchange {
  ex_before : result cause conversation;
  ex_started : Z;
  ex_sent : result cause json;
  ex_round : nat -> round;
}.

Definition DEFAULT_POLL_INTERVAL_MS : Z := 500.
Definition DEFAULT_REPLY_TIMEOUT_MS : Z := 45000.
Definition poll_interval (o : option Z) : Z := Z.max 150 (default DEFAULT_POLL_INTERVAL_MS o).
Definition reply_timeout (poll : Z) (o : option Z) : Z := Z.max poll (default DEFAULT_REPLY_TIMEOUT_MS o).

(** What a round sleeps. *)
Definition sleep_time (poll deadline now : Z) : Z := Z.min poll (Z.max 0 (deadline - now)).

Definition known_ids (c : conversation) : list string := List.filter (fun i => negb (str_eqb i "")) (map am_id (cv_messages c)).

(** The [while] loop, from round [k]. *)
Fixpoint await_reply (fuel : nat) (deadline : Z) (known : list string) (started : Z) (rounds : nat -> round) (k : nat) : delivery :=
  match fuel with
  | O => Out_of_fuel
  | S fuel =>
      if bool_decide (rd_check (rounds k) < deadline) then
        match rd_read (rounds k) with
        | Err c => Rejected c
        | Ok c => match extractLatestAgentReply (Some c) known (Some started) with
                  | Some t => Replied t
                  | None => await_reply fuel deadline known started rounds (S k)
                  end
        end
      else No_reply
  end.

(** [deliverVoiceMessage]. *)
Definition deliverVoiceMessage (fuel : nat) (text : string) (pollIntervalMs replyTimeoutMs : option Z) (e : exchange) : delivery :=
  if str_eqb (trim text) "" then Blank_message
  else match ex_before e with
       | Err c => Rejected c
       | Ok before =>
           if negb (cv_connected before) then Not_connected
           else match ex_sent e with
                | Err c => Rejected c
                | Ok answer =>
                    match extractAgentReply answer with
                    | Some t => Replied t
                    | None =>
                        let poll := poll_interval pollIntervalMs in
                        await_reply fuel (ex_started e + reply_timeout poll replyTimeoutMs) (known_ids before) (ex_started e) (ex_round e) 0
                    end
                end
       end.

(** The clock does not go back, and a sleep takes at least its time. *)
Record clock_ok (poll deadline : Z) (e : exchange) : Prop := {
  ck_start : ex_started e <= rd_check (ex_round e 0);
  ck_round : forall k, rd_check (ex_round e k) <= rd_sleep (ex_round e k);
  ck_sleep : forall k, rd_sleep (ex_round e k) + sleep_time poll deadline (rd_sleep (ex_round e k)) <= rd_check (ex_round e (S k));
}.

(** Enough rounds. *)
Definition rounds_enough (pollIntervalMs replyTimeoutMs : option Z) : nat :=
  let poll := poll_interval pollIntervalMs in S (S (Z.to_nat (reply_timeout poll replyTimeoutMs / poll))).

(** ** The voice control *)

Inductive voice_status : Type := V_idle | V_requesting | V_listening | V_sending | V_unsupported | V_error.
#[export] Instance voice_status_eq_dec : EqDecision voice_status.
Proof. solve_decision. Defined.

(** [VoiceCapabilities], as far as the control looks at them. *)
Record capabilities : Type := Capabilities { recognition : bool; secureContext : bool; microphone : bool }.

(** The errors that are shown, by what they are about. *)
Inductive voice_error : Type := VE_unavailable | VE_insecure | VE_permission | VE_start | VE_no_speech | VE_recognition | VE_delivery (m : string).

(** The state variables and refs; [vc_ready] says that there is a recognition. *)
Record voice : Type := VoiceControl {
  vc_capabilities : capabilities;
  vc_status : voice_status;
  vc_transcript : string;
  vc_response : string;
  vc_error : option voice_error;
  vc_submitted : option string;
  vc_mounted : bool;
  vc_ready : bool;
}.

Definition set_voice (st : voice_status) (transcript : string) (error : option voice_error) (submitted : option string) (v : voice) : voice :=
  VoiceControl (vc_capabilities v) st transcript (vc_response v) error submitted (vc_mounted v) (vc_ready v).

Definition mount_voice (c : capabilities) : voice :=
  VoiceControl c (if recognition c then V_idle else V_unsupported) "" "" None None true (recognition c).

(** [submit] up to its delivery: the text that is delivered, if any. *)
Definition submit_begin (text : string) (v : voice) : voice * option string :=
  let normalized := trim text in
  if str_eqb normalized "" || negb (vc_mounted v) then (v, None)
  else (set_voice V_sending normalized None (vc_submitted v) v, Some normalized).

Definition DELIVERY_ACK : string := "Сообщение отправлено основному агенту. Ответ пока не пришёл.".

(** [submit] after its delivery: the reply, or a failure. *)
Definition submit_settle (outcome : result string (option string)) (v : voice) : voice :=
  if negb (vc_mounted v) then v
  else match outcome with
       | Ok reply => VoiceControl (vc_capabilities v) V_idle (vc_transcript v) (default DELIVERY_ACK reply) (vc_error v) (vc_submitted v)
                       (vc_mounted v) (vc_ready v)
       | Err m => set_voice V_error (vc_transcript v) (Some (VE_delivery m)) (vc_submitted v) v
       end.

(** The transcript of a recognition event: its fragments, one space apart. *)
Definition transcript_of (fragments : list (option string)) : string :=
  trim (replace (at_least 1 is_js_space) " "
    (String.concat " " (omap (fun f => t ← f; if str_eqb (trim t) "" then None else Some (trim t)) fragments))).

(** [onresult]; the submission it starts follows at once. *)
Definition on_result (fragments : list (option string)) (isFinal : bool) (v : voice) : voice * option string :=
  let t := transcript_of fragments in
  if str_eqb t "" then (v, None)
  else
    let v := set_voice (vc_status v) t (vc_error v) (vc_submitted v) v in
    if isFinal && negb (bool_decide (vc_submitted v = Some t))
    then submit_begin t (set_voice V_sending t (vc_error v) (Some t) v)
    else (v, None).

Definition on_end (v : voice) : voice :=
  set_voice (if bool_decide (vc_status v = V_listening) then V_idle else vc_status v) (vc_transcript v) (vc_error v) (vc_submitted v) v.

Definition on_error (error : string) (v : voice) : voice :=
  if str_eqb error "aborted" then v
  else if str_eqb error "no-speech" then set_voice V_idle (vc_transcript v) (Some VE_no_speech) (vc_submitted v) v
  else set_voice V_error (vc_transcript v) (Some (if str_eqb error "not-allowed" then VE_permission else VE_recognition)) (vc_submitted v) v.

(** [startListening]; [starts] says whether [recognition.start()] returns. *)
Definition startListening (starts : bool) (v : voice) : voice :=
  let c := vc_capabilities v in
  if negb (vc_ready v) || negb (recognition c) then set_voice V_unsupported (vc_transcript v) (Some VE_unavailable) (vc_submitted v) v
  else if bool_decide (vc_status v ∈ [V_requesting; V_listening; V_sending]) then v
  else if negb (secureContext c) || negb (microphone c) then set_voice V_error "" (Some VE_insecure) None v
  else if starts then set_voice V_listening "" None None v
  else set_voice V_error "" (Some VE_start) None v.

(** The microphone was refused, which is known later. *)
Definition permission_refused (v : voice) : voice :=
  if vc_mounted v then set_voice V_error (vc_transcript v) (Some VE_permission) (vc_submitted v) v else v.

Definition stopListening (v : voice) : voice * option string :=
  if negb (vc_ready v) || negb (bool_decide (vc_status v = V_listening)) then (v, None)
  else
    let t := trim (vc_transcript v) in
    if negb (str_eqb t "") && negb (bool_decide (vc_submitted v = Some t))
    then submit_begin t (set_voice V_sending (vc_transcript v) (vc_error v) (Some t) v)
    else (set_voice V_idle (vc_transcript v) (vc_error v) (vc_submitted v) v, None).

(** ** What counts as a reply *)

Lemma first_of_some {A} (f : string -> option A) keys a : first_of f keys = Some a -> exists k, k ∈ keys /\ f k = Some a.
Proof.
  induction keys as [|k keys IH]; [done|]. cbn. destruct (f k) as [b|] eqn:E.
  - intros [= ->]. exists k. by split; [left|].
  - intros (k' & Hk & Hf)%IH. exists k'. by split; [right|].
Qed.

Lemma nonEmptyText_some o t : nonEmptyText o = Some t -> exists s, o = Some (JStr s) /\ t = trim s /\ t <> ""%string.
Proof.
  destruct o as [[| | |s| |]|]; try done. cbn. destruct (str_eqb (trim s) "") eqn:E; [done|]. intros [= <-]. exists s.
  split_and!; try done. intros H. by rewrite H in E.
Qed.

(** A value inside of another, by at most [n] of the nested keys. *)
Inductive nested_in : nat -> json -> json -> Prop :=
| ni_here n v : nested_in n v v
| ni_key n k v w u : k ∈ NESTED_KEYS -> jget k (asRecord v) = Some w -> nested_in n w u -> nested_in (S n) v u.

Lemma extract_sound n v t : extract n v = Some t -> exists u, nested_in n v u /\ own_reply (asRecord u) = Some t.
Proof.
  revert v. induction n as [|n IH]; intros v; [done|]. cbn [extract]. destruct (own_reply (asRecord v)) as [s|] eqn:E.
  - intros [= ->]. exists v. by split; [constructor|].
  - intros (k & Hk & Hf)%first_of_some. destruct (jget k (asRecord v)) as [w|] eqn:Ew; [|done].
    assert (Hw : extract n w = Some t) by (by destruct w). destruct (IH w Hw) as (u & Hu & Ho).
    exists u. split; [|done]. by eapply ni_key.
Qed.

(** What is spoken as a direct reply is never an arbitrary text of the answer: it is
    a text, trimmed and not blank, under a key for replies, or under a key for
    messages of a record that says it is an assistant's; and that record is the
    answer or nested in it by the four keys for results. *)
Theorem reply_is_explicit v t : extractAgentReply v = Some t ->
  t <> ""%string /\ exists u k s, nested_in 4 v u /\ jget k (asRecord u) = Some (JStr s) /\ t = trim s /\
    (k ∈ REPLY_KEYS \/ k ∈ ["text"; "content"; "message"]%string /\ role_of (asRecord u) ∈ ASSISTANT_ROLES).
Proof.
  intros (u & Hu & Ho)%extract_sound. unfold own_reply in Ho. destruct (first_of _ REPLY_KEYS) as [r|] eqn:E.
  - injection Ho as ->. apply first_of_some in E as (k & Hk & (s & Hs & Ht & Hne)%nonEmptyText_some). split; [done|].
    exists u, k, s. split_and!; try done. by left.
  - case_bool_decide as Hr; [|done]. apply nonEmptyText_some in Ho as (s & Hs & Ht & Hne). split; [done|].
    apply first_of_some in Hs as (k & Hk & Hs). exists u, k, s. split_and!; try done; [|by right].
    destruct (jget k (asRecord u)) as [[]|]; try done; by injection Hs as ->.
Qed.

(** ** Delivery *)

(** A message that is taken for the reply: the agent's, not blank, not known from
    before by its id, and not from more than one and a half seconds before the
    request as far as its date can be read. *)
Definition new_reply (known : list string) (started : Z) (m : message) : Prop :=
  am_direction m = FROM_AGENT /\ trim (am_text m) <> ""%string /\ (am_id m <> ""%string -> am_id m ∉ known) /\
  (forall q, am_created m = Finite q -> num_lt (Finite q) (num (started - 1500)) = false).

Lemma latest_is_new c known started t : extractLatestAgentReply (Some c) known (Some started) = Some t ->
  exists m, m ∈ cv_messages c /\ t = trim (am_text m) /\ new_reply known started m.
Proof.
  cbn. intros H. apply fmap_Some in H as (m & Hf & ->). apply List.find_some in Hf as [Hin Hp]. exists m.
  split; [by apply list_elem_of_In, In_reverse in Hin || (apply list_elem_of_In in Hin; by rewrite elem_of_reverse in Hin)|].
  split; [done|]. apply negb_true_iff in Hp. unfold passed_over in Hp. rewrite !orb_false_iff in Hp. destruct Hp as [[[H1 H2] H3] H4].
  split_and!.
  - apply negb_false_iff, bool_decide_eq_true in H1. done.
  - intros E. by rewrite E in H2.
  - intros Hne. apply andb_false_iff in H3 as [H3|H3]; [|by apply bool_decide_eq_false in H3].
    apply negb_false_iff, str_eqb_eq in H3. done.
  - intros q Hq. rewrite Hq in H4. cbn [isFinite] in H4. by rewrite andb_true_r in H4.
Qed.

Lemma await_sound fuel deadline known started rounds k t : await_reply fuel deadline known started rounds k = Replied t ->
  exists i c m, rd_read (rounds i) = Ok c /\ m ∈ cv_messages c /\ t = trim (am_text m) /\ new_reply known started m.
Proof.
  revert k. induction fuel as [|fuel IH]; intros k; [done|]. cbn. case_bool_decide; [|done].
  destruct (rd_read (rounds k)) as [c|] eqn:Er; [|done]. destruct (extractLatestAgentReply (Some c) known (Some started)) as [s|] eqn:El.
  - cbn in El. rewrite El. intros [= <-]. destruct (latest_is_new _ _ _ _ El) as (m & Hm). by exists k, c, m.
  - cbn in El. rewrite El. apply IH.
Qed.

(** When a round finds the deadline passed, fewer rounds than that are enough. *)
Lemma await_enough fuel deadline known started rounds k n : deadline <= rd_check (rounds (k + n)%nat) -> (n < fuel)%nat ->
  await_reply fuel deadline known started rounds k <> Out_of_fuel.
Proof.
  revert k n. induction fuel as [|fuel IH]; intros k n Hd Hn; [lia|]. cbn. case_bool_decide as Hc; [|done].
  destruct (rd_read (rounds k)) as [c|]; [|done]. destruct (_ <$> _); [done|].
  destruct n as [|n]; [rewrite Nat.add_0_r in Hd; lia|]. apply (IH (S k) n); [|lia]. by rewrite Nat.add_succ_comm.
Qed.

(** Every round takes an interval, or reaches the deadline. *)
Lemma rounds_advance poll deadline e k : clock_ok poll deadline e -> 0 <= poll ->
  Z.min deadline (ex_started e + Z.of_nat k * poll) <= rd_check (ex_round e k).
Proof.
  intros [H0 Hr Hs] Hp. induction k as [|k IH]; [lia|]. specialize (Hr k). specialize (Hs k). unfold sleep_time in Hs. rewrite Nat2Z.inj_succ, Z.mul_succ_l. lia.
Qed.

Lemma interval_pos o : 150 <= poll_interval o.
Proof. unfold poll_interval. lia. Qed.

(** C39. A delivery ends. With a clock that does not go back and sleeps that take
    their time, as many rounds as the timeout has intervals, and two more, are
    enough for an answer: the reply, or that there was none, or why the message
    was not delivered. And what is given for the reply is an explicit reply in the
    answer to the message, or the text of a message of the conversation as a later
    round read it that is the agent's, is not blank, does not have an id that was
    known before the message was sent, and does not have a readable date more than
    one and a half seconds before the time that was read just before sending. A
    message without id and date passes, however old it is: see
    [old_message_is_a_reply]. *)
Theorem voice_delivery_ends text po ro e fuel : let poll := poll_interval po in
  clock_ok poll (ex_started e + reply_timeout poll ro) e -> (rounds_enough po ro <= fuel)%nat ->
  deliverVoiceMessage fuel text po ro e <> Out_of_fuel /\
  forall t, deliverVoiceMessage fuel text po ro e = Replied t ->
    (exists v, ex_sent e = Ok v /\ extractAgentReply v = Some t) \/
    (exists before i c m, ex_before e = Ok before /\ rd_read (ex_round e i) = Ok c /\ m ∈ cv_messages c /\ t = trim (am_text m) /\
       new_reply (known_ids before) (ex_started e) m).
Proof.
  intros poll Hc Hf. unfold deliverVoiceMessage. destruct (str_eqb (trim text) ""); [done|].
  destruct (ex_before e) as [before|]; [|done]. destruct (cv_connected before); [|done]. cbn [negb].
  destruct (ex_sent e) as [v|]; [|done]. destruct (extractAgentReply v) as [s|] eqn:Ev.
  { split; [done|]. intros t [= <-]. left. by exists v. }
  split.
  - apply (await_enough _ _ _ _ _ 0 (S (Z.to_nat (reply_timeout poll ro / poll)))); [|unfold rounds_enough in Hf; subst poll; lia].
    pose proof (interval_pos po) as Hp. fold poll in Hp.
    pose proof (rounds_advance poll _ e (S (Z.to_nat (reply_timeout poll ro / poll))) Hc ltac:(lia)) as Ha.
    assert (Ht : 0 <= reply_timeout poll ro) by (unfold reply_timeout; lia).
    pose proof (Z.div_pos (reply_timeout poll ro) poll Ht ltac:(lia)).
    pose proof (Z.mul_succ_div_gt (reply_timeout poll ro) poll ltac:(lia)). 
    rewrite Nat2Z.inj_succ, Z2Nat.id, Z.mul_comm in Ha by lia. cbn [Nat.add]. fold poll. lia.
  - intros t (i & c & m & H)%await_sound. right. by exists before, i, c, m.
Qed.

(** ** The voice control *)

(** A transcript that was submitted is not submitted again, neither by the same
    final result nor when the operator stops listening, until listening starts
    anew; and what is submitted is a transcript, trimmed and not blank, of a
    control that is still mounted. *)
Theorem transcript_submitted_once fragments v v' t : on_result fragments true v = (v', Some t) ->
  t = transcript_of fragments /\ t <> ""%string /\ vc_mounted v = true /\ vc_status v' = V_sending /\
  (forall isFinal, (on_result fragments isFinal v').2 = None) /\
  (forall w, vc_submitted w = Some t -> vc_transcript w = t -> (stopListening w).2 = None).
Proof.
  unfold on_result. destruct (str_eqb (transcript_of fragments) "") eqn:Et; [done|]. cbn [andb].
  destruct (bool_decide _) eqn:Es; [done|]. cbn [negb]. unfold submit_begin.
  assert (Htr : trim (transcript_of fragments) = transcript_of fragments) by apply trim_idem.
  rewrite Htr, Et. cbn [orb set_voice vc_mounted]. destruct (vc_mounted v) eqn:Em; [|done]. intros [= <- <-].
  assert (Hne : transcript_of fragments <> ""%string) by (intros H; by rewrite H in Et).
  split_and!; try done.
  - intros isFinal. cbn [set_voice vc_submitted]. rewrite bool_decide_true by done. by rewrite andb_false_r.
  - intros w Hs Hw. unfold stopListening. rewrite Hs, Hw, Htr. rewrite (bool_decide_true (Some _ = Some _)) by done.
    rewrite andb_false_r. by destruct (_ || _).
Qed.

(** The control starts to listen only where the browser can, in a secure context
    with a microphone, not while it sends, and then with nothing transcribed or
    submitted. *)
Theorem listening_needs_a_microphone starts w : vc_status w <> V_listening -> vc_status (startListening starts w) = V_listening ->
  recognition (vc_capabilities w) = true /\ secureContext (vc_capabilities w) = true /\ microphone (vc_capabilities w) = true /\
  vc_ready w = true /\ vc_status w <> V_sending /\ vc_transcript (startListening starts w) = ""%string /\
  vc_submitted (startListening starts w) = None.
Proof.
  intros Hn. unfold startListening. destruct (vc_ready w) eqn:E1; [|done]. destruct (recognition _) eqn:E2; [|done]. cbn [negb orb].
  case_bool_decide as Hs; [congruence|]. destruct (secureContext _) eqn:E3; [|done]. destruct (microphone _) eqn:E4; [|done]. cbn [negb orb].
  destruct starts; [|done]. intros _. split_and!; try done. intros E. apply Hs. rewrite E. by repeat constructor.
Qed.

Module VoiceWitness.
Definition answer : json := JObj [("status", JStr "queued")]%string.
Definition conv (l : list message) : conversation := Conversation (Ag "a") true l [] None None.
Definition reply : message := Message "m2" FROM_AGENT " hello " (num 5000) None.
Definition earlier : message := Message "m1" FROM_AGENT "before" (num 100) None.
Definition talk : exchange :=
  Exchange (Ok (conv [earlier])) 4000 (Ok answer)
    (fun k => Round (4000 + 500 * Z.of_nat k) (4000 + 500 * Z.of_nat k) (Ok (conv (if bool_decide (k = 2%nat) then [earlier; reply] else [earlier])))).

Lemma voice_delivery_ends_witness :
  deliverVoiceMessage 92 "hi" None None talk <> Out_of_fuel /\ deliverVoiceMessage 92 "hi" None None talk = Replied "hello".
Proof.
  split; [|vm_compute; reflexivity].
  apply (voice_delivery_ends "hi" None None talk 92); [|vm_compute; lia].
  split; cbn [talk ex_started ex_round rd_check rd_sleep]; [lia | lia | intros k; unfold sleep_time, poll_interval, DEFAULT_POLL_INTERVAL_MS; cbn [default]; lia].
Defined.

Example silence : deliverVoiceMessage 92 "hi" None None (Exchange (Ok (conv [])) 0 (Ok answer) (fun k => Round (500 * Z.of_nat k) (500 * Z.of_nat k) (Ok (conv [])))) = No_reply.
Proof. vm_compute. reflexivity. Qed.
End VoiceWitness.

(** ** Edge behaviour *)

(** What the agent wrote before the message is taken for its reply when it has no
    id and no date that can be read. *)
Theorem old_message_is_a_reply : exists m before answer,
  m ∈ cv_messages before /\
  deliverVoiceMessage 92 "hi" None None (Exchange (Ok before) 4000 (Ok answer) (fun k => Round 4000 4000 (Ok before))) = Replied (am_text m).
Proof.
  exists (Message "" FROM_AGENT "before" NaN None), (VoiceWitness.conv [Message "" FROM_AGENT "before" NaN None]), VoiceWitness.answer.
  split; [left | reflexivity].
Qed.

(** Nothing keeps a second message from being submitted while the first is under
    way, and the first one's end then shows the control idle. *)
Theorem second_submission_is_not_awaited : exists v v1 v2,
  submit_begin "one" v = (v1, Some "one"%string) /\ submit_begin "two" v1 = (v2, Some "two"%string) /\
  vc_status (submit_settle (Ok None) v2) = V_idle.
Proof. exists (mount_voice (Capabilities true true true)). eexists _, _. split; [reflexivity|]. by split. Qed.

(** The microphone's refusal, which comes later than the start, shows an error over
    a message that is being sent. *)
Theorem late_refusal_hides_sending v : vc_mounted v = true -> vc_status v = V_sending -> vc_status (permission_refused v) = V_error.
Proof. intros Hm _. unfold permission_refused. by rewrite Hm. Qed.
