(* ===== verification/SceneField.v ===== *)
(** * Artifacts and seeds in the scene

    src/web/operator-dashboard/src/spatial-calibration/workspace-artifacts.ts: the
    cubes of the artifacts an agent has published, with their birth and their place
    in depth, and the cache that keeps them between publications; and
    interaction-seed.ts: what counts as a tap on the scene, and where the seed's
    panel is placed. The entities of the cache are shared objects: they are values
    of a map here, and the list [sync] returns is read from it when it is done. *)

From Stdlib Require Import QArith Qminmax Lqa.
From stdpp Require Import gmap.
From S2P Require Import Prelude.
From S2P Require Import Numbers.
From S2P Require Import Text.
From S2P Require Import Binding.
From S2P Require Import ViewModels.
From S2P Require Import Scene.

#[local] Open Scope Z_scope.

(** ** Artifacts *)

(** [WorkspaceArtifact], as far as the scene reads it; [wa_created] is what
    [Date.parse] makes of its date. *)
Record workspace_artifact : Type := WorkspaceArtifact { wa_id : string; wa_session : string; wa_created : jsnum; wa_order : Z }.

(** [identityHash]: an unsigned 32-bit number. *)
Definition identityHash (id : string) : Z := to_uint32 (fnv1a_loop 2166136261 id).

Definition COLORS : list string := ["#90b9dd"; "#b99cdb"; "#86c7b5"; "#d6a592"; "#c5ae72"; "#b49ccd"]%string.

(** [WorkspaceArtifactEntity]. *)
Record field_entity : Type := FieldEntity {
  fe_cube : cube;
  fe_session : string;
  fe_order : Z;
  depthRank : Z;
  depth : Q;
  targetDepth : Q;
  birthElapsed : Q;
}.

Definition rank_depth (rank : Z) : Q := (1.5 - inject_Z rank * 0.62)%Q.

Definition rem_of (h n : Z) : Q := inject_Z (h mod n).

(** The configuration the constructor gives the cube. *)
Definition artifact_config (item : workspace_artifact) (rank : Z) : cube_config :=
  let h := identityHash (wa_session item) in
  let m := cb_material DEFAULT_CUBE in
  CubeConfig (wa_id item) (Vec (-1.1 + (rem_of h 5 - 2) * 0.8)%Q 0.62%Q (rank_depth rank)) 0.52%Q (cb_cluster DEFAULT_CUBE)
    (rem_of h 23 * 0.1)%Q (Some (rem_of h 17 * 0.06)%Q) (Some (rem_of h 13 * 0.05)%Q)
    (CubeMaterial (default "" (COLORS !! Z.to_nat (h mod 6))) (cm_roughness m) (cm_metalness m) 0.84%Q (cm_thickness m) (cm_ior m) 1.02%Q
       (cm_clearcoat m) (cm_clearcoatRoughness m) "#6f86aa" (attenuationDistance m) (cm_iridescence m) (cm_iridescenceIOR m)
       (cm_iridescenceThicknessRange m))
    (CubeMotion (Drift 0.035%Q (0.2 + rem_of h 7 * 0.02)%Q) (Some (if bool_decide (h mod 2 = 0) then (-0.028)%Q else 0.032%Q))
       (if bool_decide (h mod 3 = 0) then 0.038%Q else (-0.043)%Q) (Some (if bool_decide (h mod 5 = 0) then (-0.021)%Q else 0.018%Q))).

Definition set_scale_z (s z : Q) (c : cube) : cube :=
  let e := cu_entity c in
  Cube (SceneEntity (se_id e) (basePosition e) (baseRotation e) (Vec (vx (se_position e)) (vy (se_position e)) z) (se_rotation e) (Vec s s s))
    (cu_config c).

Definition newFieldEntity (item : workspace_artifact) (rank : Z) (animateBirth : bool) : field_entity :=
  let c := newCube (artifact_config item rank) in
  FieldEntity (if animateBirth then set_scale_z 0.001%Q (vz (se_position (cu_entity c))) c else c) (wa_session item) (wa_order item) rank
    (rank_depth rank) (rank_depth rank) (if animateBirth then 0 else 2)%Q.

(** ** Frames *)

(** [Math.exp] of the host. *)
Class HostExp : Type := host_exp : Q -> Q.

Definition birth_progress (elapsed : Q) : Q := Qmin 1 (Qmax 0.001 ((elapsed - 0.32) / 0.9)).
Definition birth_scale (elapsed : Q) : Q := let p := birth_progress elapsed in (p * p * (3 - 2 * p))%Q.
Definition depth_scale (rank : Z) : Q := Qmax 0.76 (1 - inject_Z rank * 0.035).

(** [advance]. *)
Definition advance {math : HostMath} {ex : HostExp} (time : jsnum) (delta : Q) (paused reducedMotion : bool) (e : field_entity) : field_entity :=
  let c := cube_update time reducedMotion (fe_cube e) in
  let step := Qmin delta 0.05 in
  let d := if reducedMotion then targetDepth e
           else if paused then depth e
           else (depth e + (targetDepth e - depth e) * (1 - host_exp (- step * 0.45)))%Q in
  let b := if reducedMotion then 2%Q else if paused then birthElapsed e else Qmin 2 (birthElapsed e + step) in
  let z := (vz (se_position (cu_entity c)) + (d - vz (basePosition (cu_entity c))))%Q in
  FieldEntity (set_scale_z (birth_scale b * depth_scale (depthRank e))%Q z c) (fe_session e) (fe_order e) (depthRank e) d (targetDepth e) b.

(** ** The field *)

Record field_cache : Type := FieldCache { initialized : bool; field_entities : jsmap field_entity }.
Definition new_field : field_cache := FieldCache false [].

(** [Math.max(0, ...orders)]. *)
Definition latest_order (items : list workspace_artifact) : Z := foldr Z.max 0 (map wa_order items).

(** [(a, b) => b.order - a.order]. *)
Definition newest_first (a b : workspace_artifact) : bool := bool_decide (wa_order b <= wa_order a).

(** The first 32 of the newest, and those of the active session. *)
Definition is_visible (activeId : option string) (index : N) (item : workspace_artifact) : bool :=
  bool_decide (index < 32)%N || bool_decide (activeId = Some (wa_session item)).
Definition visible_items (items : list workspace_artifact) (activeId : option string) : list workspace_artifact :=
  omap (fun p => p) (map_index (fun i item => if is_visible activeId i item then Some item else None) 0 (sort_by newest_first items)).

Definition set_rank (rank : Z) (e : field_entity) : field_entity :=
  FieldEntity (fe_cube e) (fe_session e) (fe_order e) rank (depth e) (rank_depth rank) (birthElapsed e).

(** [Date.now() - Date.parse(created_at) < 30_000]. *)
Definition recent (now : Z) (item : workspace_artifact) : bool := num_lt (num_sub (num now) (wa_created item)) (num 30000).

(** One round of the [map] of [sync]. *)
Definition sync_item (latest : Z) (activeId : option string) (animate : bool) (now : Z) (wasInitialized : bool)
    (m : jsmap field_entity) (item : workspace_artifact) : jsmap field_entity :=
  let rank := latest - wa_order item in
  let e := match jget (wa_id item) m with
           | Some e => e
           | None => newFieldEntity item rank
                       (animate && recent now item && (wasInitialized || bool_decide (activeId = Some (wa_session item))))
           end in
  jset (wa_id item) (set_rank rank e) m.

Definition keep_only (ids : list string) (m : jsmap field_entity) : jsmap field_entity := List.filter (fun kv => bool_decide (kv.1 ∈ ids)) m.

(** [sync]. *)
Definition sync (items : list workspace_artifact) (activeId : option string) (animate : bool) (now : Z) (f : field_cache)
  : field_cache * list field_entity :=
  let latest := latest_order items in
  let visible := visible_items items activeId in
  let m := foldl (sync_item latest activeId animate now (initialized f)) (keep_only (map wa_id visible) (field_entities f)) visible in
  (FieldCache true m, omap (fun item => jget (wa_id item) m) visible).

(** ** Taps *)

Record point : Type := Point { pt_x : Q; pt_y : Q }.

(** [SceneTapGesture]. *)
Record tap : Type := Tap { pointers : gset Z; tap_start : point; blocked : bool }.
Definition new_tap : tap := Tap ∅ (Point 0 0) true.

Definition tap_down (id : Z) (x y : Q) (button : Z) (t : tap) : tap :=
  let t := if bool_decide (pointers t = ∅) then Tap (pointers t) (Point x y) (negb (bool_decide (button = 0))) else t in
  let ps := {[id]} ∪ pointers t in
  Tap ps (tap_start t) (blocked t || bool_decide (1 < size ps)%nat).

(** Distances are compared by their squares. *)
Definition tap_moves_away (x y : Q) (t : tap) : bool :=
  let dx := (x - pt_x (tap_start t))%Q in let dy := (y - pt_y (tap_start t))%Q in negb (Qle_bool (dx * dx + dy * dy) 36).

Definition tap_move (x y : Q) (t : tap) : tap :=
  if negb (bool_decide (pointers t = ∅)) && tap_moves_away x y t then Tap (pointers t) (tap_start t) true else t.

Definition tap_up (id : Z) (t : tap) : tap := Tap (pointers t ∖ {[id]}) (tap_start t) (blocked t).
Definition tap_cancel (id : Z) (t : tap) : tap := tap_up id (Tap (pointers t) (tap_start t) true).
Definition canTap (t : tap) : bool := negb (blocked t) && bool_decide (pointers t = ∅).

Inductive tap_event : Type := TE_down (id : Z) (x y : Q) (button : Z) | TE_move (x y : Q) | TE_up (id : Z) | TE_cancel (id : Z).
Definition tap_step (t : tap) (e : tap_event) : tap :=
  match e with
  | TE_down id x y b => tap_down id x y b t
  | TE_move x y => tap_move x y t
  | TE_up id => tap_up id t
  | TE_cancel id => tap_cancel id t
  end.

(** ** The seed's panel *)

Record seed_viewport : Type := SeedViewport { sv_width : Q; sv_height : Q; offsetTop : Q; offsetLeft : Q }.
Record panel : Type := Panel { pn_width : Q; pn_height : Q; pn_left : Q; pn_top : Q }.

Definition q_ltb (a b : Q) : bool := negb (Qle_bool b a).

Definition seed_margin (expanded : bool) : Q := if expanded then 16 else 64.

(** [seedLayout]. *)
Definition seedLayout (p : point) (v : seed_viewport) (expanded : bool) (textWidth lines : Q) (hasHistory : bool) : panel :=
  let margin := seed_margin expanded in
  let cap := (if q_ltb (sv_width v) 680 then sv_width v - 32 else Qmin 720 (sv_width v * 0.6))%Q in
  let width := if expanded then Qmin cap (Qmax (if hasHistory then 360 else 220) (textWidth + 40)) else 72%Q in
  let maxHeight := Qmin (sv_height v - 32) (if q_ltb (sv_height v) 500 then sv_height v - 32 else Qmin 480 (sv_height v * 0.5))%Q in
  let height := if expanded then Qmin maxHeight (if hasHistory then maxHeight else Qmax 142 (112 + lines * 24)) else 72%Q in
  Panel width height
    (Qmax (offsetLeft v + margin) (Qmin (pt_x p - 36) (offsetLeft v + sv_width v - width - margin)))
    (Qmax (offsetTop v + margin) (Qmin (pt_y p - 36) (offsetTop v + sv_height v - height - margin))).


(** ** The gestures that are taps *)

(** What a pointer does without making its gesture more than a tap, and what may
    follow once it is up. *)
Definition still (id : Z) (x y : Q) (e : tap_event) : bool :=
  match e with
  | TE_down id' _ _ _ => bool_decide (id' = id)
  | TE_move x' y' => negb (tap_moves_away x' y' (Tap ∅ (Point x y) false))
  | TE_up id' => negb (bool_decide (id' = id))
  | TE_cancel _ => false
  end.
Definition idle (e : tap_event) : bool := match e with TE_move _ _ | TE_up _ => true | _ => false end.

(** The gesture so far: one primary pointer that went down on a free scene and
    stayed near, still down, or up again since. *)
Inductive gesture (es : list tap_event) : point -> gset Z -> Prop :=
  | gesture_down pre id x y during : es = pre ++ TE_down id x y 0 :: during -> pointers (foldl tap_step new_tap pre) = ∅ ->
      Forall (fun e => still id x y e = true) during -> gesture es (Point x y) {[id]}
  | gesture_up pre id x y during after : es = pre ++ TE_down id x y 0 :: during ++ TE_up id :: after ->
      pointers (foldl tap_step new_tap pre) = ∅ -> Forall (fun e => still id x y e = true) during ->
      Forall (fun e => idle e = true) after -> gesture es (Point x y) ∅.

Lemma gesture_still es p ps e :
  gesture es p ps -> (forall id, ps = {[id]} -> still id (pt_x p) (pt_y p) e = true) -> (ps = ∅ -> idle e = true) ->
  gesture (es ++ [e]) p ps.
Proof.
  intros [pre id x y during -> Hp Hd | pre id x y during after -> Hp Hd Ha] Hs Hi.
  - apply (gesture_down _ pre id x y (during ++ [e])); [by rewrite <- app_assoc | done|]. apply Forall_app. split; [done|].
    constructor; [by apply Hs | constructor].
  - apply (gesture_up _ pre id x y during (after ++ [e])); [by rewrite <- !app_assoc, app_comm_cons, <- !app_assoc | done | done|].
    apply Forall_app. split; [done|]. constructor; [by apply Hi | constructor].
Qed.

Lemma gesture_lifted es x y id : gesture es (Point x y) {[id]} -> gesture (es ++ [TE_up id]) (Point x y) ∅.
Proof.
  intros H. remember {[id]} as ps eqn:Hps. remember (Point x y) as p eqn:Hpt.
  destruct H as [pre id' x' y' during -> Hp Hd | pre id' x' y' during after -> Hp Hd Ha].
  - assert (id' = id) as -> by set_solver. apply (gesture_up _ pre id x' y' during []); [by rewrite <- app_assoc | done | done | constructor].
  - exfalso. set_solver.
Qed.

Lemma gesture_pointers es p ps : gesture es p ps -> ps = ∅ \/ exists id, ps = {[id]}.
Proof. destruct 1; eauto. Qed.

(** A second pointer is blocked as soon as it is down. *)
Lemma second_pointer_blocks id id' x y b t : pointers t = {[id']} -> blocked (tap_down id x y b t) = false -> id = id'.
Proof.
  unfold tap_down. intros Ht. rewrite bool_decide_eq_false_2 by (rewrite Ht; set_solver). cbn [blocked]. rewrite Ht.
  intros [_ Hsz%bool_decide_eq_false]%orb_false_iff. destruct (decide (id = id')) as [|Hne]; [done|]. exfalso. apply Hsz.
  rewrite size_union by set_solver. rewrite !size_singleton. lia.
Qed.

Lemma tap_down_free id x y b t : pointers t = ∅ -> blocked (tap_down id x y b t) = false ->
  b = 0 /\ tap_down id x y b t = Tap {[id]} (Point x y) false.
Proof.
  unfold tap_down. intros Ht. rewrite bool_decide_eq_true_2 by done. cbn [blocked pointers tap_start]. rewrite Ht.
  replace ({[id]} ∪ ∅ : gset Z) with ({[id]} : gset Z) by set_solver.
  rewrite size_singleton. intros [Hb%negb_false_iff%bool_decide_eq_true _]%orb_false_iff. subst b. split; done.
Qed.

Lemma tap_step_gesture es t e : (blocked t = false -> gesture es (tap_start t) (pointers t)) ->
  pointers (foldl tap_step new_tap es) = pointers t -> blocked (tap_step t e) = false ->
  gesture (es ++ [e]) (tap_start (tap_step t e)) (pointers (tap_step t e)).
Proof.
  intros Hg Hfold Hb. destruct e as [id x y b|x y|id|id]; cbn [tap_step] in *.
  - destruct (decide (pointers t = ∅)) as [He|He].
    { destruct (tap_down_free id x y b t He Hb) as [-> ->]. cbn [tap_start pointers].
      apply (gesture_down _ es id x y []); [done | congruence | constructor]. }
    assert (Hbt : blocked t = false).
    { unfold tap_down in Hb. rewrite bool_decide_eq_false_2 in Hb by done. by apply orb_false_iff in Hb as [? _]. }
    destruct (gesture_pointers _ _ _ (Hg Hbt)) as [|[id' Hid]]; [done|].
    pose proof (second_pointer_blocks _ _ _ _ _ _ Hid Hb) as ->.
    assert (tap_start (tap_down id' x y b t) = tap_start t /\ pointers (tap_down id' x y b t) = pointers t) as [-> ->].
    { unfold tap_down. rewrite bool_decide_eq_false_2 by done. cbn. split; [done|]. rewrite Hid. set_solver. }
    apply gesture_still; [by apply Hg | | done]. intros id E. cbn. apply bool_decide_eq_true_2. rewrite E in Hid. set_solver.
  - unfold tap_move in *. destruct (negb _ && _) eqn:E; [done|]. apply gesture_still; [by apply Hg | | done].
    intros id Hid. cbn [still]. rewrite Hid in E. rewrite bool_decide_eq_false_2 in E by set_solver. cbn [negb andb] in E.
    unfold tap_moves_away in *. cbn [tap_start pt_x pt_y] in *. by rewrite E.
  - cbn [tap_up tap_start pointers blocked] in *. specialize (Hg Hb). destruct (tap_start t) as [x y] eqn:Hst.
    destruct (gesture_pointers _ _ _ Hg) as [He|[id' Hid]].
    + rewrite He in *. replace (∅ ∖ {[id]} : gset Z) with (∅ : gset Z) by set_solver.
      apply gesture_still; [done | intros id' ?; set_solver | done].
    + rewrite Hid in *. destruct (decide (id = id')) as [->|Hne].
      * replace ({[id']} ∖ {[id']} : gset Z) with (∅ : gset Z) by set_solver. by apply gesture_lifted.
      * replace ({[id']} ∖ {[id]} : gset Z) with ({[id']} : gset Z) by set_solver.
        apply gesture_still; [done | | intros; set_solver]. intros id'' E. cbn. assert (id'' = id') as -> by set_solver.
        by rewrite bool_decide_eq_false_2.
  - done.
Qed.

Lemma taps_gesture es : blocked (foldl tap_step new_tap es) = false ->
  gesture es (tap_start (foldl tap_step new_tap es)) (pointers (foldl tap_step new_tap es)).
Proof.
  induction es as [|e es IH] using rev_ind; [done|]. rewrite foldl_app. cbn [foldl]. intros Hb. by apply tap_step_gesture.
Qed.

(** C40. What the scene takes for a tap is one: whatever the pointers did before,
    the last gesture was a single pointer that went down with the primary button
    on a scene no pointer touched, that never moved more than six pixels away from
    where it went down and was never joined by another or cancelled, and that was
    lifted again; since then no pointer has been down. A pinch is never a tap. *)
Theorem tap_is_one_still_pointer es : canTap (foldl tap_step new_tap es) = true ->
  exists pre id x y during after, es = pre ++ TE_down id x y 0 :: during ++ TE_up id :: after /\
    pointers (foldl tap_step new_tap pre) = ∅ /\ Forall (fun e => still id x y e = true) during /\
    Forall (fun e => idle e = true) after.
Proof.
  unfold canTap. intros [Hb%negb_true_iff He%bool_decide_eq_true]%andb_true_iff.
  pose proof (taps_gesture es Hb) as Hg. rewrite He in Hg. remember ∅ as ps eqn:Hps.
  destruct Hg as [? id | pre id x y during after]; [exfalso; set_solver | by exists pre, id, x, y, during, after].
Qed.

(** And such a gesture is always one. *)
Theorem still_pointer_is_a_tap pre id x y : pointers (foldl tap_step new_tap pre) = ∅ ->
  canTap (foldl tap_step new_tap (pre ++ [TE_down id x y 0; TE_up id])) = true.
Proof.
  intros He. rewrite foldl_app. cbn [foldl tap_step]. generalize dependent (foldl tap_step new_tap pre). intros t He.
  unfold tap_down. rewrite (bool_decide_eq_true_2 (pointers t = ∅)) by done. cbn [tap_up canTap blocked pointers tap_start]. rewrite He.
  unfold canTap. cbn [blocked pointers tap_start]. replace ({[id]} ∪ ∅ : gset Z) with ({[id]} : gset Z) by set_solver. rewrite size_singleton.
  apply andb_true_iff. split; [done|]. apply bool_decide_eq_true_2. set_solver.
Qed.

(** ** The panel stays on the screen *)

(** An open panel keeps sixteen pixels from every side of the viewport, wherever
    it was asked for and whatever is written in it; a closed one its larger
    margin, if the viewport is 200 pixels wide and high. *)
Theorem panel_stays_in_view p v expanded w lines h : let l := seedLayout p v expanded w lines h in
  (offsetLeft v + seed_margin expanded <= pn_left l)%Q /\ (offsetTop v + seed_margin expanded <= pn_top l)%Q /\
  ((expanded = true \/ (200 <= sv_width v)%Q) -> (pn_left l + pn_width l + seed_margin expanded <= offsetLeft v + sv_width v)%Q) /\
  ((expanded = true \/ (200 <= sv_height v)%Q) -> (pn_top l + pn_height l + seed_margin expanded <= offsetTop v + sv_height v)%Q).
Proof.
  cbv zeta. cbn [seedLayout pn_left pn_top pn_width pn_height]. split_and!; [apply Q.le_max_l | apply Q.le_max_l | |].
  - intros H. set (wd := if expanded then _ else _). set (m := seed_margin expanded).
    assert (Hw : (wd + 2 * m <= sv_width v)%Q).
    { subst wd m. destruct expanded; cbn [seed_margin]; [|destruct H as [|H]; [done|]; lra].
      eapply Qle_trans; [apply Qplus_le_l, Q.le_min_l|]. unfold q_ltb. destruct (Qle_bool 680 (sv_width v)) eqn:E; cbn [negb].
      - apply Qle_bool_iff in E. pose proof (Q.le_min_r 720 (sv_width v * 0.6)). lra.
      - lra. }
    apply (Q.max_case_strong (offsetLeft v + m) _ (fun q => q + wd + m <= offsetLeft v + sv_width v)%Q).
    + intros ? ? ->. done.
    + intros _. lra.
    + intros _. pose proof (Q.le_min_r (pt_x p - 36) (offsetLeft v + sv_width v - wd - m)). lra.
  - intros H. set (ht := if expanded then _ else _). set (m := seed_margin expanded).
    assert (Hw : (ht + 2 * m <= sv_height v)%Q).
    { subst ht m. destruct expanded; cbn [seed_margin]; [|destruct H as [|H]; [done|]; lra].
      eapply Qle_trans; [apply Qplus_le_l, Q.le_min_l|]. eapply Qle_trans; [apply Qplus_le_l, Q.le_min_l|]. lra. }
    apply (Q.max_case_strong (offsetTop v + m) _ (fun q => q + ht + m <= offsetTop v + sv_height v)%Q).
    + intros ? ? ->. done.
    + intros _. lra.
    + intros _. pose proof (Q.le_min_r (pt_y p - 36) (offsetTop v + sv_height v - ht - m)). lra.
Qed.

(** ** What the field shows *)

(** The entity an artifact is shown as: the cached one, if there is one, in its
    new place. *)
Definition shown_entity (items : list workspace_artifact) (activeId : option string) (animate : bool) (now : Z) (f : field_cache)
    (item : workspace_artifact) : field_entity :=
  let rank := latest_order items - wa_order item in
  set_rank rank
    (match jget (wa_id item) (field_entities f) with
     | Some e => e
     | None => newFieldEntity item rank
                 (animate && recent now item && (initialized f || bool_decide (activeId = Some (wa_session item))))
     end).

Lemma map_index_visible activeId (l : list workspace_artifact) i :
  omap (fun p => p) (map_index (fun i item => if is_visible activeId i item then Some item else None) i l) =
  take (32 - N.to_nat i) l ++ filter (fun item => activeId = Some (wa_session item)) (drop (32 - N.to_nat i) l).
Proof.
  revert i. induction l as [|x l IH]; intros i; [by rewrite take_nil, drop_nil|]. cbn [map_index].
  unfold is_visible at 1. destruct (decide (i < 32)%N) as [Hi|Hi].
  - rewrite bool_decide_eq_true_2 by done. cbn [Datatypes.orb omap list_omap]. rewrite IH.
    replace (32 - N.to_nat i)%nat with (S (32 - N.to_nat (i + 1)))%nat by lia. done.
  - rewrite bool_decide_eq_false_2 by done. cbn [Datatypes.orb]. replace (32 - N.to_nat i)%nat with 0%nat by lia. cbn [take drop app].
    rewrite filter_cons. case_bool_decide as Ha; cbn [omap list_omap].
    + rewrite decide_True by done. f_equal. rewrite IH. replace (32 - N.to_nat (i + 1))%nat with 0%nat by lia. done.
    + rewrite decide_False by done. rewrite IH. replace (32 - N.to_nat (i + 1))%nat with 0%nat by lia. done.
Qed.

Lemma visible_items_eq items activeId : let l := sort_by newest_first items in
  visible_items items activeId = take 32 l ++ filter (fun item => activeId = Some (wa_session item)) (drop 32 l).
Proof. apply (map_index_visible activeId _ 0). Qed.

Lemma visible_NoDup items activeId : NoDup (map wa_id items) -> NoDup (map wa_id (visible_items items activeId)).
Proof.
  intros H. rewrite visible_items_eq. set (l := sort_by newest_first items).
  assert (Hl : NoDup (map wa_id l)).
  { unfold l. change (@map workspace_artifact string) with (@fmap list _ workspace_artifact string). by rewrite sort_by_perm. }
  rewrite <- (take_drop 32 l) in Hl. rewrite map_app in *. apply NoDup_app in Hl as (H1 & H2 & H3). apply NoDup_app. split_and!; [done| |].
  - intros i Hi Hin. apply (H2 i Hi). apply list_elem_of_fmap in Hin as (x & -> & [_ Hx]%list_elem_of_filter). by apply list_elem_of_fmap_2.
  - generalize dependent (drop 32 l). intros k _ Hk. induction k as [|x k IH]; [constructor|]. cbn [map] in Hk.
    apply NoDup_cons in Hk as [Hx Hk]. rewrite filter_cons. destruct (decide _); [|auto]. cbn [map]. apply NoDup_cons. split; [|auto].
    intros (y & E & [_ Hy]%list_elem_of_filter)%list_elem_of_fmap. apply Hx. rewrite E. by apply list_elem_of_fmap_2.
Qed.

Lemma jget_keep_only ids k (m : jsmap field_entity) : jget k (keep_only ids m) = if bool_decide (k ∈ ids) then jget k m else None.
Proof.
  induction m as [|[k0 v0] m IH]; cbn [keep_only List.filter jget fst]; [by case_bool_decide|]. fold (keep_only ids m).
  destruct (bool_decide (k0 ∈ ids)) eqn:E; cbn [jget]; unfold str_eqb; destruct (decide (k0 = k)) as [->|Hne];
    rewrite ?(bool_decide_eq_true_2 (k = k)), ?(bool_decide_eq_false_2 (k0 = k)) by done; rewrite ?IH, ?E; done.
Qed.

Lemma find_absent k l : k ∉ map wa_id l -> List.find (fun item => str_eqb (wa_id item) k) l = None.
Proof.
  induction l as [|x l IH]; [done|]. cbn [map List.find]. unfold str_eqb at 1. intros [Hx Hl]%not_elem_of_cons.
  rewrite bool_decide_eq_false_2 by done. auto.
Qed.

(** The rounds of [sync] over artifacts of different ids touch different entries. *)
Lemma sync_rounds items activeId animate now was m k l : NoDup (map wa_id l) ->
  jget k (foldl (sync_item (latest_order items) activeId animate now was) m l) =
  match List.find (fun item => str_eqb (wa_id item) k) l with
  | Some item => Some (shown_entity items activeId animate now (FieldCache was m) item)
  | None => jget k m
  end.
Proof.
  revert m. induction l as [|x l IH]; intros m Hnd; [done|]. cbn [map] in Hnd. apply NoDup_cons in Hnd as [Hx Hnd]. cbn [foldl List.find].
  rewrite IH by done. unfold str_eqb at 2. case_bool_decide as Hk.
  - subst k. rewrite find_absent by done. unfold sync_item. by rewrite jget_jset_eq.
  - destruct (List.find _ l) as [y|] eqn:E; [|by apply jget_jset_ne]. f_equal. unfold shown_entity. cbn [field_entities initialized].
    apply List.find_some in E as [Hy E]. unfold str_eqb in E. apply bool_decide_eq_true in E. unfold sync_item.
    rewrite jget_jset_ne; [done|]. rewrite E. done.
Qed.

Lemma find_wa item l : NoDup (map wa_id l) -> item ∈ l -> List.find (fun x => str_eqb (wa_id x) (wa_id item)) l = Some item.
Proof.
  induction l as [|x l IH]; cbn [map List.find]; intros Hnd Hin; [by apply elem_of_nil in Hin|].
  apply NoDup_cons in Hnd as [Hx Hnd]. unfold str_eqb at 1. apply elem_of_cons in Hin as [->|Hin].
  - by rewrite bool_decide_eq_true_2.
  - rewrite bool_decide_eq_false_2; [auto|]. intros E. apply Hx. rewrite E. by apply list_elem_of_fmap_2.
Qed.

(** The cache and the entities [sync] leaves. *)
Lemma sync_eq items activeId animate now f : NoDup (map wa_id items) -> let vis := visible_items items activeId in
  let (f', shown) := sync items activeId animate now f in
  initialized f' = true /\ shown = map (shown_entity items activeId animate now f) vis /\
  (forall item, item ∈ vis -> jget (wa_id item) (field_entities f') = Some (shown_entity items activeId animate now f item)) /\
  (forall k, k ∉ map wa_id vis -> jget k (field_entities f') = None).
Proof.
  intros Hnd. cbv zeta. unfold sync. cbn [initialized field_entities].
  pose proof (visible_NoDup items activeId Hnd) as Hv. set (vis := visible_items items activeId) in *.
  set (m := foldl _ _ _). 
  assert (Hget : forall item, item ∈ vis -> jget (wa_id item) m = Some (shown_entity items activeId animate now f item)).
  { intros item Hin. unfold m. rewrite sync_rounds by done. rewrite find_wa by done. unfold shown_entity. cbn [field_entities initialized].
    rewrite jget_keep_only, bool_decide_eq_true_2 by (by apply list_elem_of_fmap_2). done. }
  split_and!; [done | | exact Hget |].
  - clearbody m vis. clear Hv. induction vis as [|x l IH]; [done|]. cbn [omap list_omap map]. rewrite (Hget x) by left. f_equal.
    apply IH. intros item Hin. apply Hget. by right.
  - intros k Hk. unfold m. rewrite sync_rounds by done. rewrite find_absent by done. rewrite jget_keep_only.
    by rewrite bool_decide_eq_false_2.
Qed.

(** The field shows what it should: one entity for each artifact it shows,
    the newest first, each in the place its order gives it; it shows every artifact
    of the active session, and an artifact it leaves out has thirty-two that are at
    least as new before it. An artifact that was shown before is the same body, at
    the depth it had reached; and the cache keeps the bodies of the artifacts shown
    and no others. *)
Theorem field_shows_the_newest items activeId animate now f : NoDup (map wa_id items) -> let vis := visible_items items activeId in
  let (f', shown) := sync items activeId animate now f in
  shown = map (shown_entity items activeId animate now f) vis /\
  StronglySorted (fun a b => wa_order b <= wa_order a) vis /\ (forall item, item ∈ vis -> item ∈ items) /\
  (forall item, item ∈ items -> activeId = Some (wa_session item) -> item ∈ vis) /\
  (forall item, item ∈ items -> item ∉ vis ->
     length (take 32 vis) = 32%nat /\ Forall (fun other => wa_order item <= wa_order other) (take 32 vis)) /\
  (forall k, is_Some (jget k (field_entities f')) <-> k ∈ map wa_id vis) /\
  (forall k e item, jget k (field_entities f) = Some e -> item ∈ vis -> wa_id item = k ->
     jget k (field_entities f') = Some (set_rank (latest_order items - wa_order item) e)).
Proof.
  intros Hnd. cbv zeta. pose proof (sync_eq items activeId animate now f Hnd) as Hs. cbv zeta in Hs.
  destruct (sync _ _ _ _ _) as [f' shown]. destruct Hs as (_ & Hshown & Hget & Hnone).
  assert (Hsort : StronglySorted (fun a b => wa_order b <= wa_order a) (sort_by newest_first items)).
  { eapply sorted_impl; [|apply (sort_by_sorted newest_first)]; unfold newest_first.
    - intros a b. by rewrite bool_decide_eq_true.
    - intros a b. rewrite bool_decide_eq_false, bool_decide_eq_true. lia.
    - intros a b c. rewrite !bool_decide_eq_true. lia. }
  pose proof (visible_items_eq items activeId) as Hv. cbv zeta in Hv.
  pose proof (sort_by_perm newest_first items) as Hperm. set (l := sort_by newest_first items) in *.
  rewrite <- (take_drop 32 l) in Hsort. apply StronglySorted_app in Hsort as (H1 & H2 & H3).
  split_and!; [done | | | | | |].
  - rewrite Hv. apply StronglySorted_app. split_and!; [|done|].
    + intros a b Ha [_ Hb]%list_elem_of_filter. by apply H1.
    + clear -H3. generalize dependent (drop 32 l). intros k H. induction H as [|x k H IH Hf]; [constructor|].
      rewrite filter_cons. destruct (decide _); [|done]. constructor; [done|]. apply Forall_forall.
      intros y [_ Hy]%list_elem_of_filter. rewrite Forall_forall in Hf. by apply Hf.
  - intros item Hin. rewrite <- Hperm, <- (take_drop 32 l). rewrite Hv in Hin. rewrite elem_of_app, list_elem_of_filter in *. tauto.
  - intros item Hin Ha. rewrite <- Hperm, <- (take_drop 32 l) in Hin. rewrite Hv. rewrite elem_of_app, list_elem_of_filter in *. tauto.
  - intros item Hin Hn. rewrite <- Hperm, <- (take_drop 32 l) in Hin. rewrite Hv in *. rewrite elem_of_app, list_elem_of_filter in *.
    assert (Ht : item ∉ take 32 l /\ item ∈ drop 32 l) by tauto. destruct Ht as [_ Hd].
    assert (Hlen : length (take 32 l) = 32%nat).
    { rewrite length_take. apply Nat.min_l. destruct (decide (32 <= length l)%nat); [done|]. exfalso. rewrite drop_ge in Hd by lia.
      by apply elem_of_nil in Hd. }
    rewrite take_app_length' by done. split; [done|]. apply Forall_forall. intros other Ho. by apply H1.
  - intros k. split.
    + intros [e He]. destruct (decide (k ∈ map wa_id (visible_items items activeId))); [done|]. rewrite Hnone in He; done.
    + intros (item & -> & Hin)%list_elem_of_fmap. rewrite Hget by done. by eexists.
  - intros k e item He Hin <-. rewrite Hget by done. unfold shown_entity. by rewrite He.
Qed.

(** ** Birth and depth *)

(** What the scene needs of [Math.exp]. *)
Class HostExpLaws (ex : HostExp) : Prop := exp_decay : forall q, (q <= 0 -> 0 <= host_exp q <= 1)%Q.

Lemma birth_scale_range b : (0 < birth_scale b <= 1)%Q.
Proof.
  unfold birth_scale. cbv zeta.
  assert (Hp : (0.001 <= birth_progress b <= 1)%Q).
  { unfold birth_progress. split; [|apply Q.le_min_l]. apply Q.min_glb; [lra | apply Q.le_max_l]. }
  generalize dependent (birth_progress b). intros p Hp. assert (H3 : (0 < 3 - 2 * p)%Q) by lra. assert (H0 : (0 < p)%Q) by lra.
  split; [by repeat apply Qmult_lt_0_compat|].
  assert (H1 : (0 <= (1 - p) * (1 - p) * (1 + 2 * p))%Q) by (repeat apply Qmult_le_0_compat; lra). lra.
Qed.

Lemma depth_scale_range rank : 0 <= rank -> (0.76 <= depth_scale rank <= 1)%Q.
Proof.
  intros H. unfold depth_scale. split; [apply Q.le_max_l|]. apply Q.max_lub; [lra|].
  rewrite Zle_Qle in H. change (inject_Z 0) with 0%Q in H. lra.
Qed.

(** A step from [a] towards [b] by any part of the way stays between them. *)
Lemma between_shrinks a b x : (0 <= x <= 1)%Q -> (Qmin a b <= a + (b - a) * (1 - x) <= Qmax a b)%Q.
Proof.
  intros [H0 H1]. assert (E : (a + (b - a) * (1 - x) == a * x + b * (1 - x))%Q) by ring. rewrite E.
  pose proof (Q.le_min_l a b) as La. pose proof (Q.le_min_r a b) as Lb. pose proof (Q.le_max_l a b) as Ua. pose proof (Q.le_max_r a b) as Ub.
  assert (H1' : (0 <= 1 - x)%Q) by lra.
  pose proof (Qmult_le_compat_r _ _ _ La H0). pose proof (Qmult_le_compat_r _ _ _ Lb H1').
  pose proof (Qmult_le_compat_r _ _ _ Ua H0). pose proof (Qmult_le_compat_r _ _ _ Ub H1'). lra.
Qed.

Section advance_laws.
Context {math : HostMath} {ex : HostExp} {exp_laws : HostExpLaws ex}.

(** A frame moves an artifact from its depth towards its target and never past it,
    and its body is drawn at that depth; a paused scene leaves it where it is, and
    reduced motion puts it in its place at once. Its birth only goes on; it is
    drawn with a positive size that is never more than its own, the same in every
    direction. *)
Theorem depth_approaches time delta paused reducedMotion e : (0 <= delta)%Q -> 0 <= depthRank e ->
  let e' := advance time delta paused reducedMotion e in let s := cu_entity (fe_cube e') in
  (Qmin (depth e) (targetDepth e) <= depth e' <= Qmax (depth e) (targetDepth e))%Q /\
  (reducedMotion = true -> depth e' = targetDepth e) /\ (reducedMotion = false -> paused = true -> depth e' = depth e) /\
  (vz (basePosition (cu_entity (fe_cube e))) + (depth e' - vz (basePosition (cu_entity (fe_cube e)))) == vz (se_position s))%Q /\
  (birthElapsed e <= 2 -> birthElapsed e <= birthElapsed e' <= 2)%Q /\
  vx (se_scale s) = vz (se_scale s) /\ vy (se_scale s) = vz (se_scale s) /\ (0 < vz (se_scale s) <= 1)%Q.
Proof using exp_laws.
  intros Hd Hr. unfold advance. cbv zeta. cbn [depth targetDepth birthElapsed fe_cube cu_entity set_scale_z se_scale se_position vx vy vz].
  assert (Hstep : (0 <= Qmin delta 0.05)%Q) by (apply Q.min_glb; lra).
  refine (conj _ (conj _ (conj _ (conj _ (conj _ (conj _ (conj _ _))))))); [ | by intros -> | by intros -> -> | | | done | done |].
  - destruct reducedMotion; [split; [apply Q.le_min_r | apply Q.le_max_r]|]. destruct paused; [split; [apply Q.le_min_l | apply Q.le_max_l]|].
    apply between_shrinks. apply exp_decay. lra.
  - destruct (fe_cube e) as [c cfg]. destruct c. cbn. reflexivity.
  - intros Hb. destruct reducedMotion; [lra|]. destruct paused; [lra|]. split; [apply Q.min_glb; lra | apply Q.le_min_l].
  - set (b := if reducedMotion then _ else _). pose proof (birth_scale_range b). pose proof (depth_scale_range _ Hr). split; nra.
Qed.
End advance_laws.

Module FieldWitness.
Definition taps : list tap_event := [TE_down 1 0 0 0; TE_down 2 9 9 0; TE_up 2; TE_up 1; TE_down 1 5 5 0; TE_move 9 5; TE_up 1; TE_move 90 90].

(** The pinch is no tap, the touch after it is one. *)
Example pinch_is_no_tap : canTap (foldl tap_step new_tap (take 4 taps)) = false.
Proof. by vm_compute. Qed.

Lemma tap_is_one_still_pointer_witness :
  exists pre id x y during after, taps = pre ++ TE_down id x y 0 :: during ++ TE_up id :: after /\
    pointers (foldl tap_step new_tap pre) = ∅ /\ Forall (fun e => still id x y e = true) during /\
    Forall (fun e => idle e = true) after.
Proof. apply (tap_is_one_still_pointer taps). vm_compute. reflexivity. Defined.

Example dragged_is_no_tap : canTap (foldl tap_step new_tap [TE_down 1 5 5 0; TE_move 12 5; TE_move 5 5; TE_up 1]) = false.
Proof. by vm_compute. Qed.
Example right_button_is_no_tap : canTap (foldl tap_step new_tap [TE_down 1 5 5 2; TE_up 1]) = false.
Proof. by vm_compute. Qed.

Lemma still_pointer_witness : canTap (foldl tap_step new_tap (taps ++ [TE_down 7 0 0 0; TE_up 7])) = true.
Proof. apply (still_pointer_is_a_tap taps 7 0 0). vm_compute. reflexivity. Defined.

Definition item (id : string) (order : Z) : workspace_artifact := WorkspaceArtifact id "session" (num 0) order.
Definition items : list workspace_artifact := [item "a" 1; item "c" 3; item "b" 2].

Lemma field_shows_the_newest_witness : map fe_order (sync items None true 0 new_field).2 = [3; 2; 1] /\
  (forall k, is_Some (jget k (field_entities (sync items None true 0 new_field).1)) <-> k ∈ map wa_id (visible_items items None)).
Proof.
  pose proof (field_shows_the_newest items None true 0 new_field ltac:(apply (bool_decide_eq_true_1 _); by vm_compute)) as H.
  cbv zeta in H. destruct (sync items None true 0 new_field) as [f' shown].
  destruct H as (E & _ & _ & _ & _ & Hk & _). split; [|exact Hk]. cbn [snd]. rewrite E. by vm_compute.
Defined.

#[local] Instance math : HostMath := {| host_cos q := 1%Q; host_sin q := 0%Q; host_sqrt q := q |}.
#[local] Instance ex : HostExp := fun q => if Qle_bool q 0 then 0.5%Q else 2%Q.
#[local] Instance exp_laws : HostExpLaws ex.
Proof. intros q Hq. unfold host_exp, ex. apply Qle_bool_iff in Hq. rewrite Hq. lra. Qed.

Lemma depth_witness : let e := newFieldEntity (item "a" 1) 2 true in
  (Qmin (depth e) (targetDepth e) <= depth (advance (num 1) 0.016%Q false false e) <= Qmax (depth e) (targetDepth e))%Q.
Proof. apply (depth_approaches (num 1) 0.016 false false (newFieldEntity (item "a" 1) 2 true)); [lra | vm_compute; done]. Defined.

Definition phone : seed_viewport := SeedViewport 320 480 0 0.
Example panel_on_a_phone : let l := seedLayout (Point 310 470) phone true 500 3 false in
  (Qred (pn_left l), Qred (pn_top l), Qred (pn_width l), Qred (pn_height l)) = (16, 280, 288, 184)%Q.
Proof. by vm_compute. Qed.
End FieldWitness.
