(* ===== verification/WireContracts.v ===== *)
(** * Contracts on the wire

    src/web/operator-dashboard/src/spatial/contracts/index.ts, read as it is
    written: the schemas the domain clients and the event gateway hand values of
    type [unknown] to, over the combinators of [Schemas], and [parseSpatialContract]
    with its version check. The services' own files have the same contracts as
    typed records; this file has what lies before them: what is trimmed, put into
    capitals, defaulted, renamed or left out of a value before any of them sees it.
    A value on the wire is a JSON value, so there are no [Date]s in it, and numbers
    are exact. *)

From Stdlib Require Import QArith.
From S2P Require Import Prelude.
From S2P Require Import Numbers.
From S2P Require Import Contracts.
From S2P Require Import Text.
From S2P Require Import Schemas.

#[local] Open Scope Z_scope.

(** ** Normalization *)

Definition on_text (f : string -> string) (v : value) : value := match v with VStr s => VStr (f s) | _ => v end.

Definition normalizeString : value -> value := on_text trim.
Definition normalizeCode : value -> value := on_text (fun s => to_upper (trim s)).
Definition normalizeLowerCode : value -> value := on_text (fun s => to_lower (trim s)).

(** The digits of a decimal number, and what they stand for. *)
Fixpoint digits_of (s : string) (acc : Z) : option Z :=
  match s with
  | EmptyString => Some acc
  | String c s => if is_digit c then digits_of s (acc * 10 + (Z.of_N (N_of_ascii c) - 48)) else None
  end.
Fixpoint split_point (s : string) : string * option string :=
  match s with
  | EmptyString => (EmptyString, None)
  | String c s => if Ascii.eqb c "." then (EmptyString, Some s) else let (a, b) := split_point s in (String c a, b)
  end.

(** [/^\d+(?:\.\d+)?$/.test(s) ? Number(s) : undefined]. *)
Definition decimal (s : string) : option Q :=
  let (whole, fraction) := split_point s in
  if str_eqb whole "" || bool_decide (fraction = Some ""%string) then None
  else n ← digits_of whole 0;
       match fraction with
       | None => Some (inject_Z n)
       | Some f => d ← digits_of f 0; Some (inject_Z n + inject_Z d / inject_Z (10 ^ Z.of_nat (String.length f)))%Q
       end.

Definition normalizeNumber (v : value) : value :=
  match v with VStr s => match decimal (trim s) with Some q => VNum (Finite q) | None => v end | _ => v end.

(** [Date.parse] and [Date.prototype.toISOString] of the host. *)
Class HostDate : Type := { date_parse : string -> option Z; iso_text : Z -> string }.

(** A date that was parsed prints as a text that is not blank, is its own trim and
    parses as the same date. *)
Class HostDateLaws (d : HostDate) : Prop :=
  iso_parses : forall s z, date_parse s = Some z -> date_parse (iso_text z) = Some z /\ trim (iso_text z) <> ""%string.

(** [z.preprocess(f, p)]. *)
Definition vs_pre (f : value -> value) (p : schema) : schema := fun v => p (f v).

(** [z.record(key, value)] with a schema that changes its keys: a later property
    replaces an earlier one of the same key, and [__proto__] is never one. *)
Definition vs_rekeyed (key : string -> option string) (p : schema) : schema :=
  fun v => match v with
           | VObj l =>
               VObj <$> foldl (fun acc kv => m ← acc; k ← key kv.1; w ← p kv.2;
                                             Some (if str_eqb k "__proto__" then m else jset k w m))
                          (Some []) (filter (fun kv => str_eqb kv.1 "__proto__" = false) l)
           | _ => None
           end.

(** [z.discriminatedUnion(k, ...)] of objects that are stripped. *)
Definition vs_tagged (k : string) (os : list (string * list (string * schema))) : schema :=
  fun v => match v with
           | VObj l => match jget k l with
                       | Some (VStr s) => o ← List.find (fun o => str_eqb o.1 s) os; vs_object ((k, vs_enum [o.1]) :: o.2) v
                       | _ => None
                       end
           | _ => None
           end.

Definition vs_code (l : list string) : schema := vs_pre normalizeCode (vs_enum l).
Definition vs_lower_code (l : list string) : schema := vs_pre normalizeLowerCode (vs_enum l).
Definition vs_true : schema := fun v => match v with VBool true => Some v | _ => None end.
Definition vs_at_most (hi : Z) : schema := vs_number (fun n => safe_from 0 n && num_le n (num hi)).
Definition vs_amount : schema := vs_number (num_le (num 0)).

Section schemas.
Context {zod : Zod} {host_date : HostDate}.

Definition normalizeSpatialTimestamp (v : value) : option string :=
  match v with VStr s => if str_eqb (trim s) "" then None else iso_text <$> date_parse s | _ => None end.

Definition idSchema : schema := vs_pre normalizeString (vs_string 1 256).
Definition labelSchema : schema := vs_pre normalizeString (vs_string 1 240).
Definition stateSchema : schema := vs_pre normalizeCode (vs_string 1 96).
Definition sourceSchema : schema := vs_pre normalizeString (vs_string 1 128).
Definition revisionSchema : schema := vs_pre normalizeNumber vs_count.
Definition timestampSchema : schema :=
  vs_pre (fun v => match normalizeSpatialTimestamp v with Some t => VStr t | None => v end)
    (vs_text (fun s => negb (str_eqb s "") && bool_decide (is_Some (date_parse s)))).

(** [idSchema] as the schema of a key. *)
Definition id_key (s : string) : option string := z_string 1 256 (trim s).

Definition SPATIAL_FRESHNESS_STATES : list string := ["FRESH"; "STALE"; "PARTIAL"; "UNKNOWN"; "UNAVAILABLE"]%string.
Definition SPATIAL_AVAILABILITY_STATES : list string := ["AVAILABLE"; "DEGRADED"; "UNAVAILABLE"; "UNKNOWN"]%string.
Definition SPATIAL_NODE_STATUS_STATES : list string :=
  ["ONLINE"; "READY"; "RUNNING"; "STARTING"; "STOPPING"; "RESTARTING"; "DEGRADED"; "OFFLINE"; "DISCONNECTED"; "BLOCKED"; "UNKNOWN"; "STALE"]%string.
Definition SPATIAL_STATUS_COMPONENT_KINDS : list string :=
  ["node"; "hypervisor"; "primary-agent"; "mcp"; "hooks"; "network"; "consensus"; "wallet"; "sessions"; "tasks"; "endpoints"; "providers";
   "runtimes"; "resources"; "renderer"; "other"]%string.
Definition SPATIAL_RECOVERY_ACTIONS : list string :=
  ["RESTART_SERVICE"; "STOP_UNSAFE_RUNTIME"; "SUSPEND_AGENT_BINDING"; "REVOKE_BINDING_CREDENTIALS"; "DISABLE_HOOK";
   "RETRY_HOOK_DEAD_LETTER"; "BLOCK_REMOTE_ENDPOINT"; "RETURN_TO_CLASSIC"]%string.
Definition SPATIAL_RECOVERY_RESULT_STATES : list string := ["PLANNED"; "APPLIED"; "NOOP"; "REJECTED"; "FAILED"]%string.

Definition spatialFreshnessSchema : schema := vs_object
  [("state", vs_code SPATIAL_FRESHNESS_STATES); ("observed_at", timestampSchema);
   ("stale_after_seconds", vs_pre normalizeNumber (vs_at_most 31536000)); ("source", sourceSchema)]%string.

Definition provenanceSchema : schema := vs_object
  [("canonical_ref", idSchema); ("revision", revisionSchema); ("source", sourceSchema)]%string.

(** *** Entities *)

Definition entityBase : list (string * schema) :=
  [("schema_version", vs_enum ["spatial.entity.v1"]); ("id", idSchema); ("canonical_ref", idSchema); ("node_id", idSchema);
   ("revision", revisionSchema); ("label", labelSchema); ("state", stateSchema); ("availability", vs_code SPATIAL_AVAILABILITY_STATES);
   ("freshness", spatialFreshnessSchema); ("created_at", timestampSchema); ("updated_at", timestampSchema);
   ("provenance", vs_optional provenanceSchema)]%string.

Definition ids (n : N) : schema := vs_array 0 n idSchema.

Definition entity_options : list (string * list (string * schema)) :=
  [("agent", app entityBase
     [("role", vs_default (VStr "AGENT") (vs_code ["PRIMARY"; "SUBAGENT"; "AGENT"])); ("binding_ref", vs_optional idSchema);
      ("capability_refs", vs_default (VArr []) (ids 128))]);
   ("endpoint", app entityBase
     [("endpoint_type", labelSchema); ("capability_refs", vs_default (VArr []) (ids 128)); ("provider_ref", vs_optional idSchema);
      ("owner_agent_ref", vs_optional idSchema)]);
   ("service", app entityBase
     [("service_type", labelSchema); ("component_ref", vs_optional idSchema)]);
   ("session", app entityBase
     [("session_type", vs_default (VStr "SESSION") (vs_code ["WORKSPACE"; "PROTOCOL"; "SESSION"]));
      ("protocol_session_ref", vs_optional idSchema); ("actor_refs", vs_default (VArr []) (ids 128))]);
   ("artifact", app entityBase
     [("artifact_type", labelSchema); ("provenance_ref", idSchema); ("source_revision", revisionSchema)]);
   ("attention", app entityBase
     [("severity", vs_code ["INFO"; "NOTICE"; "WARNING"; "CRITICAL"]); ("requires_operator", vs_boolean);
      ("expires_at", vs_optional timestampSchema)])]%string.

(** [a ?? b], where absent is [undefined]. *)
Definition nullish_or (a b : value) : value := match a with VUndefined | VNull => b | _ => a end.
Definition property (l : jsmap value) (k : string) : value := default VUndefined (jget k l).

(** The last of the names is taken as it is, [null] included. *)
Definition alias_of (l : jsmap value) (a b c : string) : value := nullish_or (property l a) (nullish_or (property l b) (property l c)).
Definition set_defined (k : string) (v : value) (l : jsmap value) : jsmap value := match v with VUndefined => l | _ => jset k v l end.

Definition normalizeEntityAliases (v : value) : value :=
  match v with
  | VObj l =>
      VObj (set_defined "canonical_ref" (alias_of l "canonical_ref" "entity_ref" "object_ref")
              (set_defined "id" (alias_of l "id" "entity_id" "object_id") l))
  | _ => v
  end.

Definition spatialEntitySchema : schema := vs_pre normalizeEntityAliases (vs_tagged "kind" entity_options).

(** *** Status and recovery *)

Definition vs_authorization : schema := vs_enum ["AUTHORIZED"; "REDACTED"; "UNAVAILABLE"]%string.
Definition flag (b : bool) : schema := vs_default (VBool b) vs_boolean.

Definition statusEvidenceRefSchema : schema := vs_object
  [("ref", idSchema); ("kind", vs_optional (vs_pre normalizeLowerCode (vs_string 1 64))); ("label", vs_optional labelSchema);
   ("observed_at", vs_optional timestampSchema); ("authorized", flag true); ("redacted", flag false)]%string.

Definition statusDetailsSchema : schema := vs_object
  [("identity", vs_optional (vs_string 0 240)); ("runtime", vs_optional (vs_string 0 240)); ("connection", vs_optional (vs_string 0 240));
   ("last_events", vs_default (VArr []) (vs_array 0 20 (vs_object
      [("id", idSchema); ("occurred_at", timestampSchema); ("state", stateSchema); ("message", vs_optional (vs_string 0 240))])));
   ("safe_raw_evidence", vs_default (VArr []) (vs_array 0 20 (vs_string 0 512)));
   ("authorization", vs_default (VStr "AUTHORIZED") vs_authorization)]%string.

Definition statusComponentSchema : schema := vs_object
  [("component_id", idSchema); ("component_type", labelSchema);
   ("kind", vs_default (VStr "other") (vs_lower_code SPATIAL_STATUS_COMPONENT_KINDS)); ("state", vs_code SPATIAL_NODE_STATUS_STATES);
   ("observed_at", timestampSchema); ("freshness", spatialFreshnessSchema); ("source", sourceSchema);
   ("revision", vs_optional revisionSchema); ("stale_after", vs_optional timestampSchema);
   ("evidence_refs", vs_default (VArr []) (vs_array 0 32 statusEvidenceRefSchema));
   ("issue_code", vs_optional (vs_nullable (vs_pre normalizeCode (vs_string 1 96))));
   ("available_actions", vs_default (VArr []) (vs_array 0 16 (vs_code SPATIAL_RECOVERY_ACTIONS)));
   ("spatial_ref", vs_optional (vs_nullable idSchema)); ("authorization", vs_default (VStr "AUTHORIZED") vs_authorization);
   ("detail_ref", vs_optional (vs_nullable idSchema)); ("details", vs_optional statusDetailsSchema)]%string.

Definition tally : schema := vs_default (VNum (num 0)) vs_count.

Definition spatialNodeStatusSchema : schema := vs_object
  [("schema_version", vs_enum ["spatial.node-status.v1"]); ("node_id", idSchema); ("revision", revisionSchema);
   ("state", vs_code SPATIAL_NODE_STATUS_STATES); ("observed_at", timestampSchema); ("freshness", spatialFreshnessSchema);
   ("components", vs_array 0 256 statusComponentSchema); ("generated_at", vs_optional timestampSchema);
   ("node_revision", vs_optional revisionSchema); ("overall_state", vs_optional (vs_code SPATIAL_NODE_STATUS_STATES));
   ("partial", flag false); ("cached", flag false); ("last_known_at", vs_optional (vs_nullable timestampSchema));
   ("active_sessions", tally); ("running_tasks", tally); ("active_endpoints", tally); ("warning_count", tally);
   ("evidence_refs", vs_default (VArr []) (vs_array 0 64 statusEvidenceRefSchema)); ("provenance", vs_optional provenanceSchema)]%string.

Definition recoveryActionSchema : schema := vs_code SPATIAL_RECOVERY_ACTIONS.

Definition spatialRecoveryCommandSchema : schema := vs_object
  [("schema_version", vs_enum ["spatial.recovery-command.v1"]); ("command_id", idSchema); ("node_id", idSchema); ("target_ref", idSchema);
   ("action", recoveryActionSchema); ("requested_revision", revisionSchema); ("plan_hash", idSchema); ("actor_ref", idSchema);
   ("capability", idSchema); ("consequence", labelSchema); ("requires_confirmation", vs_boolean); ("confirmation", vs_optional vs_true);
   ("created_at", timestampSchema); ("idempotency_key", idSchema)]%string.

Definition spatialRecoveryResultSchema : schema := vs_object
  [("schema_version", vs_enum ["spatial.recovery-result.v1"]); ("command_id", idSchema); ("node_id", idSchema); ("target_ref", idSchema);
   ("action", recoveryActionSchema); ("state", vs_code SPATIAL_RECOVERY_RESULT_STATES); ("plan_hash", idSchema);
   ("revision", revisionSchema); ("observed_at", timestampSchema); ("audit_ref", idSchema);
   ("error_code", vs_optional (vs_nullable idSchema)); ("message", vs_optional labelSchema)]%string.

(** *** Relations and the Workspace *)

Definition spatialRelationSchema : schema := vs_object
  [("schema_version", vs_enum ["spatial.relation.v1"]); ("relation_id", idSchema); ("node_id", idSchema); ("revision", revisionSchema);
   ("relation_type", stateSchema); ("source_ref", idSchema); ("target_ref", idSchema);
   ("state", vs_code ["ACTIVE"; "ARCHIVED"; "UNKNOWN"; "STALE"; "UNAVAILABLE"]); ("freshness", spatialFreshnessSchema);
   ("created_at", timestampSchema); ("updated_at", timestampSchema)]%string.

Definition spatialPositionSchema : schema := vs_object [("x", vs_finite); ("y", vs_finite); ("z", vs_finite)]%string.

Definition semanticAnchorSchema : schema := vs_object
  [("canonical_ref", idSchema); ("position", spatialPositionSchema); ("region", stateSchema); ("cluster_ref", vs_optional idSchema)]%string.

Definition spatialWorkspaceSchema : schema := vs_object
  [("schema_version", vs_enum ["spatial.workspace.v1"]); ("workspace_id", idSchema); ("node_id", idSchema); ("revision", revisionSchema);
   ("semantic_revision", revisionSchema); ("created_at", timestampSchema); ("updated_at", timestampSchema);
   ("entities", vs_array 0 10000 spatialEntitySchema); ("relations", vs_array 0 20000 spatialRelationSchema);
   ("semantic_anchors", vs_array 0 10000 semanticAnchorSchema);
   ("cluster_membership", vs_default (VObj []) (vs_rekeyed id_key idSchema)); ("primary_agent_ref", vs_optional idSchema)]%string.

(** *** The Primary Agent *)

Definition spatialPrimaryAgentSlotSchema : schema := vs_object
  [("schema_version", vs_enum ["spatial.primary-agent-slot.v1"]); ("slot_id", idSchema); ("node_id", idSchema);
   ("current_binding_id", vs_nullable idSchema);
   ("lifecycle_state", vs_code ["UNASSIGNED"; "BINDING"; "CONNECTED"; "DEGRADED"; "DISCONNECTED"; "REVOKED"]);
   ("revision", revisionSchema); ("assigned_at", vs_nullable timestampSchema); ("assigned_by", vs_nullable idSchema);
   ("last_seen_at", vs_nullable timestampSchema); ("capability_grant_ref", vs_nullable idSchema);
   ("hook_subscription_ref", vs_nullable idSchema); ("durable_inbox_ref", vs_nullable idSchema);
   ("changed_at", vs_optional timestampSchema);
   ("provenance", vs_optional (vs_object [("actor_ref", idSchema); ("operation_id", idSchema); ("recorded_at", timestampSchema)]))]%string.

Definition spatialPrimaryAgentGrantSchema : schema := vs_object
  [("schema_version", vs_enum ["spatial.primary-agent-grant.v1"]); ("grant_id", idSchema); ("node_id", idSchema); ("binding_id", idSchema);
   ("revision", revisionSchema); ("categories", vs_array 0 32 (vs_lower_code ["read"; "write"; "action"]));
   ("allowlisted_tools", ids 256); ("redaction_profile_ref", vs_nullable idSchema); ("state", vs_code ["ACTIVE"; "REVOKED"; "EXPIRED"]);
   ("issued_at", timestampSchema); ("issued_by", idSchema); ("expires_at", vs_nullable timestampSchema)]%string.

Definition spatialPrimaryAgentStateSchema : schema := vs_object
  [("schema_version", vs_enum ["spatial.primary-agent-state.v1"]); ("node_id", idSchema); ("slot_id", idSchema);
   ("binding_id", vs_nullable idSchema);
   ("state", vs_code ["READY"; "LISTENING"; "THINKING"; "ACTING"; "WORKING"; "ATTENTION"; "CRITICAL"; "OFFLINE"]);
   ("attention_severity", vs_code ["NONE"; "INFO"; "WARNING"; "CRITICAL"]); ("source", idSchema); ("revision", revisionSchema);
   ("observed_at", timestampSchema); ("last_successful_response_at", vs_nullable timestampSchema);
   ("last_failed_response_at", vs_nullable timestampSchema)]%string.

(** *** Remote endpoints *)

Definition SPATIAL_RESOURCE_BILLING_POLICIES : list string := ["FREE"; "METERED"; "UNKNOWN"]%string.
Definition absent_null (p : schema) : schema := vs_default VNull (vs_nullable p).
Definition safeKeySchema : schema := vs_pre normalizeString (vs_string 1 96).

(** [/^[a-z0-9!#$&^_.+-]+\/[a-z0-9!#$&^_.+-]+$/i]. *)
Definition media_char (c : ascii) : bool := is_alpha c || is_digit c || one_of "!#$&^_.+-" c.
Definition is_media_type (s : string) : bool :=
  let chars := String.list_ascii_of_string s in
  let part (l : list ascii) := negb (bool_decide (l = [])) && forallb media_char l in
  existsb (fun i => bool_decide (chars !! i = Some "/"%char) && part (take i chars) && part (drop (S i) chars)) (seq 0 (length chars)).

Definition spatialEndpointProvenanceSchema : schema := vs_object
  [("schema_version", vs_enum ["spatial.endpoint-provenance.v1"]); ("provenance_id", idSchema); ("workspace_id", idSchema);
   ("node_id", idSchema); ("endpoint_ref", idSchema); ("endpoint_revision", revisionSchema); ("capability", labelSchema);
   ("provider_ref", absent_null idSchema); ("remote_node_ref", absent_null idSchema); ("source_zone", vs_enum ["REMOTE_UNTRUSTED"]);
   ("validation_state", vs_default (VStr "UNVERIFIED") (vs_code ["UNVERIFIED"; "VERIFIED"; "STALE"; "REVOKED"]));
   ("request_id", absent_null idSchema); ("correlation_id", idSchema); ("observed_at", timestampSchema); ("untrusted", vs_true)]%string.

Definition spatialRemoteResultSchema : schema := vs_object
  [("schema_version", vs_enum ["spatial.remote-result.v1"]); ("result_id", idSchema); ("request_id", idSchema); ("endpoint_ref", idSchema);
   ("endpoint_revision", revisionSchema); ("content_type", vs_text is_media_type);
   ("validation", vs_object
      [("status", vs_code ["UNVERIFIED"; "VALID"; "PARTIAL"; "SANITIZED"; "QUARANTINED"; "INVALID"]);
       ("classification", vs_default (VStr "NONE")
          (vs_code ["NONE"; "PROMPT_INJECTION"; "SCRIPT"; "UNSAFE_HTML"; "SECRET_PATTERN"; "MIME_MISMATCH"; "OVERSIZED"]));
       ("schema", absent_null idSchema); ("size_bytes", vs_at_most 50000000)]);
   ("safe_text", absent_null (vs_string 0 1000000)); ("payload_ref", absent_null idSchema); ("untrusted", vs_true);
   ("provenance", spatialEndpointProvenanceSchema); ("received_at", timestampSchema); ("correlation_id", idSchema)]%string.

Definition spatialEndpointTestFrameSchema : schema := vs_object
  [("schema_version", vs_enum ["spatial.endpoint-test-frame.v1"]); ("frame_id", idSchema); ("workspace_id", idSchema); ("node_id", idSchema);
   ("endpoint_ref", idSchema); ("capability", labelSchema);
   ("input_schema", vs_object
      [("fields", vs_array 0 64 safeKeySchema); ("media_types", vs_default (VArr []) (vs_array 0 16 (vs_string 0 128)))]);
   ("input_value_ref", absent_null idSchema); ("submit_intent_ref", absent_null idSchema); ("response_ref", absent_null idSchema);
   ("accounting_ref", absent_null idSchema);
   ("state", vs_default (VStr "READY")
      (vs_code ["READY"; "VALIDATING"; "SUBMITTING"; "STREAMING"; "COMPLETE"; "CANCELLED"; "TIMEOUT"; "UNAVAILABLE"; "INVALID_RESULT";
                "INSUFFICIENT_DEPOSIT"; "REJECTED"]));
   ("source_revision", revisionSchema); ("provenance_ref", absent_null idSchema); ("created_at", timestampSchema);
   ("updated_at", timestampSchema)]%string.

Definition spatialResourceAccountingSchema : schema := vs_object
  [("schema_version", vs_enum ["spatial.resource-accounting.v1"]); ("record_id", idSchema); ("request_id", idSchema); ("node_id", idSchema);
   ("workspace_session_ref", idSchema); ("protocol_session_ref", absent_null idSchema); ("endpoint_ref", idSchema);
   ("rate_card_revision", revisionSchema); ("billing_policy", vs_code SPATIAL_RESOURCE_BILLING_POLICIES);
   ("input_units", vs_default (VNum (num 0)) vs_amount); ("output_units", vs_default (VNum (num 0)) vs_amount);
   ("estimate_units", absent_null vs_amount); ("measured_units", absent_null vs_amount); ("settlement_ref", absent_null idSchema);
   ("charge_policy", vs_default (VStr "UNKNOWN") (vs_code ["NO_CHARGE"; "CHARGE_ON_ACCEPTED_RESULT"; "CHARGE_ON_ATTEMPT"; "UNKNOWN"]));
   ("state", vs_default (VStr "PENDING") (vs_code ["PENDING"; "SETTLED"; "FAILED"; "CANCELLED"]));
   ("authoritative_source", vs_enum ["NODE"]); ("created_at", timestampSchema); ("updated_at", timestampSchema)]%string.
End schemas.

(** ** Parsing a contract *)

(** The contracts whose parsers are here, by their schema versions. *)
Inductive contract : Type :=
| C_entity | C_relation | C_status | C_workspace | C_slot | C_grant | C_state | C_recovery_command | C_recovery_result
| C_provenance | C_remote_result | C_frame | C_accounting.

Definition contracts : list contract :=
  [C_entity; C_relation; C_status; C_workspace; C_slot; C_grant; C_state; C_recovery_command; C_recovery_result; C_provenance;
   C_remote_result; C_frame; C_accounting].

Definition contract_version (c : contract) : string :=
  match c with
  | C_entity => "spatial.entity.v1" | C_relation => "spatial.relation.v1" | C_status => "spatial.node-status.v1"
  | C_workspace => "spatial.workspace.v1" | C_slot => "spatial.primary-agent-slot.v1" | C_grant => "spatial.primary-agent-grant.v1"
  | C_state => "spatial.primary-agent-state.v1" | C_recovery_command => "spatial.recovery-command.v1"
  | C_recovery_result => "spatial.recovery-result.v1" | C_provenance => "spatial.endpoint-provenance.v1"
  | C_remote_result => "spatial.remote-result.v1" | C_frame => "spatial.endpoint-test-frame.v1"
  | C_accounting => "spatial.resource-accounting.v1"
  end.

(** [SPATIAL_SCHEMA_VERSIONS]. *)
Definition SPATIAL_SCHEMA_VERSIONS : list string :=
  map (fun s => "spatial." +:+ s +:+ ".v1")
    ["entity"; "relation"; "node-status"; "workspace"; "viewport"; "primary-agent-slot"; "primary-agent-grant"; "primary-agent-state";
     "intent-envelope"; "attachment-manifest"; "workspace-session"; "context-node"; "conversation-turn"; "generated-object"; "artifact";
     "presentation-intent"; "presentation-result"; "canonical-reference"; "endpoint-details"; "discovery-result"; "semantic-relation";
     "subagent-lifecycle"; "interaction-provenance"; "attention-item"; "attention-marker"; "attention-focus"; "recovery-command";
     "recovery-result"; "endpoint-provenance"; "remote-context-manifest"; "remote-request"; "remote-result"; "endpoint-test-frame";
     "resource-accounting"; "memory-layout"; "memory-projection"; "memory-cluster"; "memory-focus"; "memory-search";
     "memory-virtualization"; "workspace-world"; "device-viewport"; "presentation-geometry"; "workspace-mutation";
     "workspace-mutation-result"; "offline-queue"; "share-view"; "change-intent"; "result-model"; "component-frame"; "resource-summary";
     "action-feedback"; "authorization-decision"; "audit-record"; "reliability-incident"; "privacy-record"; "performance-report";
     "observability-metric"; "rollout-stage"]%string.

Inductive parse_code : Type := MALFORMED_PAYLOAD | INCOMPATIBLE_SCHEMA_VERSION.
#[export] Instance parse_code_eq_dec : EqDecision parse_code.
Proof. solve_decision. Defined.

(** [SpatialParseDiagnostic], without the path and code of zod's first issue. *)
Record parse_diagnostic : Type := ParseDiagnostic { pd_code : parse_code; pd_contract : string; received_version : option string }.

(** [version.replace(/\.v\d+$/, '')]. *)
Definition versionBase (version : string) : string :=
  let chars := String.list_ascii_of_string version in
  let ends (i : nat) := bool_decide (chars !! i = Some "."%char) && bool_decide (chars !! S i = Some "v"%char) &&
                        negb (bool_decide (drop (2 + i) chars = [])) && forallb is_digit (drop (2 + i) chars) in
  match List.find ends (seq 0 (length chars)) with Some i => String.string_of_list_ascii (take i chars) | None => version end.

Definition text_property (v : value) (k : string) : option string :=
  match v with VObj l => match jget k l with Some (VStr s) => Some s | _ => None end | _ => None end.

(** [parseSpatialContract]. *)
Definition parseSpatialContract (version : string) (p : schema) (payload : value) : result parse_diagnostic value :=
  let received := text_property payload "schema_version" in
  match received with
  | Some r =>
      if truthy received && negb (str_eqb r version) && String.prefix (versionBase version +:+ ".v") r
      then Err (ParseDiagnostic INCOMPATIBLE_SCHEMA_VERSION version received)
      else of_option (p payload) (ParseDiagnostic MALFORMED_PAYLOAD version None)
  | None => of_option (p payload) (ParseDiagnostic MALFORMED_PAYLOAD version None)
  end.

Section parsers.
Context {zod : Zod} {host_date : HostDate}.

Definition contract_schema (c : contract) : schema :=
  match c with
  | C_entity => spatialEntitySchema | C_relation => spatialRelationSchema | C_status => spatialNodeStatusSchema
  | C_workspace => spatialWorkspaceSchema | C_slot => spatialPrimaryAgentSlotSchema | C_grant => spatialPrimaryAgentGrantSchema
  | C_state => spatialPrimaryAgentStateSchema | C_recovery_command => spatialRecoveryCommandSchema
  | C_recovery_result => spatialRecoveryResultSchema | C_provenance => spatialEndpointProvenanceSchema
  | C_remote_result => spatialRemoteResultSchema | C_frame => spatialEndpointTestFrameSchema
  | C_accounting => spatialResourceAccountingSchema
  end.

(** [parseSpatialEntity] and the others. *)
Definition parse_contract (c : contract) (v : value) : result parse_diagnostic value :=
  parseSpatialContract (contract_version c) (contract_schema c) v.

(** ** Freshness *)

Inductive freshness_error : Type := FR_schema | FR_now.

(** [normalizeSpatialFreshness] at a time [now]: the parsed record, its state and
    its age in seconds. The age is a whole number of milliseconds, so printing it
    with three digits changes nothing. *)
Definition normalizeSpatialFreshness (input : value) (now : jsnum) : result freshness_error (value * string * Q) :=
  let? parsed := of_option (spatialFreshnessSchema input) FR_schema in
  let? now := of_option (match now with Finite q => Some q | _ => None end) FR_now in
  let? state := of_option (text_property parsed "state") FR_schema in
  let? observed := of_option (text_property parsed "observed_at" ≫= date_parse) FR_schema in
  let? ttl := of_option (match parsed with VObj l => match jget "stale_after_seconds" l with Some (VNum (Finite q)) => Some q | _ => None end
                                     | _ => None end) FR_schema in
  let age := (if Qle_bool ((now - inject_Z observed) / 1000) 0 then 0 else (now - inject_Z observed) / 1000)%Q in
  Ok (parsed, if str_eqb state "FRESH" && negb (Qle_bool age ttl) then "STALE"%string else state, age).
End parsers.

(** ** What every contract's schema has *)

(** The scan that finds what is not data. *)
Notation data := (behaves (fun _ => false) (fun _ => false)).

Section behaviour.
Context {zod : Zod} {laws : ZodLaws zod} {host_date : HostDate} {date_laws : HostDateLaws host_date}.

Lemma pre_behaves f p : data p -> (forall v w, p (f v) = Some w -> f w = w) ->
  (forall v, clean (fun _ => false) (fun _ => false) v -> clean (fun _ => false) (fun _ => false) (f v)) -> data (vs_pre f p).
Proof.
  intros [Hi Hh] Hf Hc. split; unfold vs_pre.
  - intros v w Hw. rewrite (Hf _ _ Hw). by apply Hi in Hw.
  - intros v w Hv Hw. exact (Hh _ _ (Hc _ Hv) Hw).
Qed.

Lemma text_pre_behaves f p : (forall s, f (f s) = f s) -> checks p -> data (vs_pre (on_text f) p).
Proof.
  intros Hf Hp. apply pre_behaves; [by apply checks_behaves | |].
  - intros v w ->%Hp. destruct v; cbn [on_text]; by rewrite ?Hf.
  - by intros [].
Qed.

Lemma string_pre_behaves lo hi : data (vs_pre normalizeString (vs_string lo hi)).
Proof using laws. apply text_pre_behaves; [apply trim_idem | apply string_checks]. Qed.
Lemma code_pre_behaves p : checks p -> data (vs_pre normalizeCode p).
Proof. apply text_pre_behaves, trim_upper_idem. Qed.
Lemma lower_pre_behaves p : checks p -> data (vs_pre normalizeLowerCode p).
Proof. apply text_pre_behaves, trim_lower_idem. Qed.
Lemma code_behaves l : data (vs_code l).
Proof. apply code_pre_behaves, text_checks. Qed.
Lemma lower_code_behaves l : data (vs_lower_code l).
Proof. apply lower_pre_behaves, text_checks. Qed.

Lemma number_pre_behaves ok : data (vs_pre normalizeNumber (vs_number ok)).
Proof.
  apply pre_behaves; [apply checks_behaves, number_checks | |].
  - intros v w Hw. pose proof (number_checks _ _ _ Hw) as ->. destruct (normalizeNumber v) as [| | |n|s| | |] eqn:E; cbn [vs_number] in Hw; done.
  - intros [| | | |s| | |] H; cbn [normalizeNumber]; try done. by destruct (decimal (trim s)).
Qed.

Lemma true_checks : checks vs_true.
Proof. by intros [| |[]| | | | |] w [= <-]. Qed.

Lemma timestamp_behaves : data timestampSchema.
Proof using date_laws.
  apply pre_behaves; [apply checks_behaves, text_checks | |].
  - intros v w Hw. pose proof (text_checks _ _ _ Hw) as ->. destruct v as [| | | |s| | |]; cbn [normalizeSpatialTimestamp] in *; try done.
    destruct (str_eqb (trim s) "") eqn:Es; cbn [normalizeSpatialTimestamp]; [by rewrite Es|].
    destruct (date_parse s) as [z|] eqn:Ez; cbn [fmap option_fmap option_map normalizeSpatialTimestamp]; [|by rewrite Es, Ez].
    destruct (iso_parses _ _ Ez) as [Hp Ht]. rewrite Hp. destruct (str_eqb (trim (iso_text z)) "") eqn:E; [by apply str_eqb_eq in E|].
    done.
  - intros [| | | |s| | |] H; cbn [normalizeSpatialTimestamp]; try done. destruct (str_eqb (trim s) ""); [done|]. by destruct (date_parse s).
Qed.

Lemma id_behaves : data idSchema. Proof using laws. apply string_pre_behaves. Qed.
Lemma label_behaves : data labelSchema. Proof using laws. apply string_pre_behaves. Qed.
Lemma source_behaves : data sourceSchema. Proof using laws. apply string_pre_behaves. Qed.
Lemma safeKey_behaves : data safeKeySchema. Proof using laws. apply string_pre_behaves. Qed.
Lemma state_behaves : data stateSchema. Proof using laws. apply code_pre_behaves, string_checks. Qed.
Lemma revision_behaves : data revisionSchema. Proof. apply number_pre_behaves. Qed.
Lemma count_behaves : data vs_count. Proof. apply checks_behaves, number_checks. Qed.
Lemma finite_behaves : data vs_finite. Proof. apply checks_behaves, number_checks. Qed.
Lemma at_most_behaves hi : data (vs_at_most hi). Proof. apply checks_behaves, number_checks. Qed.
Lemma amount_behaves : data vs_amount. Proof. apply checks_behaves, number_checks. Qed.
Lemma at_most_pre_behaves hi : data (vs_pre normalizeNumber (vs_at_most hi)). Proof. apply number_pre_behaves. Qed.
Lemma enum_behaves l : data (vs_enum l). Proof. apply checks_behaves, text_checks. Qed.

Lemma flag_behaves b : data (flag b).
Proof. unfold flag. apply default_behaves; [done | done | by destruct b | apply checks_behaves, boolean_checks]. Qed.

Lemma absent_null_behaves p : p VUndefined = None -> data p -> data (absent_null p).
Proof. intros Hu Hp. unfold absent_null. apply default_behaves; [done | done | done | by apply nullable_behaves]. Qed.
End behaviour.
#[export] Hint Resolve true_checks id_behaves label_behaves source_behaves safeKey_behaves state_behaves revision_behaves count_behaves
  finite_behaves at_most_behaves amount_behaves at_most_pre_behaves enum_behaves flag_behaves timestamp_behaves code_behaves
  lower_code_behaves code_pre_behaves lower_pre_behaves absent_null_behaves : schemas.

(** ** Records with schemas for their keys, tagged objects and aliases *)

Section more_behaviour.
Context {zod : Zod} {laws : ZodLaws zod} {host_date : HostDate} {date_laws : HostDateLaws host_date}.
Context (text key : string -> bool).

Lemma filter_keeps {A} (P : A -> Prop) `{forall x, Decision (P x)} (l : list A) : Forall P l -> filter P l = l.
Proof. induction 1 as [|x l Hx Hl IH]; [done|]. rewrite filter_cons_True by done. by rewrite IH. Qed.

(** The entries of a record that was parsed. *)
Definition entries_ok (k : string -> option string) (p : schema) (m : jsmap value) : Prop :=
  NoDup (jkeys m) /\ Forall (fun kv => str_eqb kv.1 "__proto__" = false /\ k kv.1 = Some kv.1 /\ p kv.2 = Some kv.2) m.

Definition rekey (k : string -> option string) (p : schema) (acc : option (jsmap value)) (kv : string * value) : option (jsmap value) :=
  m ← acc; k' ← k kv.1; w ← p kv.2; Some (if str_eqb k' "__proto__" then m else jset k' w m).

Lemma rekey_none k p l : foldl (rekey k p) None l = None.
Proof. by induction l. Qed.

Lemma jset_entries k p k' w m : k k' = Some k' -> p w = Some w -> str_eqb k' "__proto__" = false -> entries_ok k p m ->
  entries_ok k p (jset k' w m).
Proof.
  intros Hk Hp He [Hn Hm]. split.
  - rewrite jkeys_jset. destruct (jhas k' m) eqn:Hh; [done|]. apply NoDup_app. split_and!; [done | | apply NoDup_singleton].
    intros x Hx ->%list_elem_of_singleton. unfold jhas in Hh. apply bool_decide_eq_false in Hh. apply Hh.
    destruct (jget k' m) eqn:E; [by eexists|]. by apply jget_None in E.
  - clear Hn. induction m as [|[k0 v0] m IH]; cbn [jset]; [by repeat constructor|]. apply Forall_cons in Hm as [H0 Hm].
    destruct (str_eqb k0 k'); constructor; auto. cbn [fst snd] in *. naive_solver.
Qed.

Lemma rekey_entries k p l m out : (forall a b, k a = Some b -> k b = Some b) -> Idempotent p ->
  foldl (rekey k p) (Some m) l = Some out -> entries_ok k p m -> entries_ok k p out.
Proof.
  intros Hk Hp. revert m. induction l as [|[a v] l IH]; intros m; cbn [foldl]; [by intros [= ->]|].
  unfold rekey at 2. cbn [mbind option_bind fst snd]. destruct (k a) as [k'|] eqn:Ek; cbn [mbind option_bind]; [|by rewrite rekey_none].
  destruct (p v) as [w|] eqn:Ew; cbn [mbind option_bind]; [|by rewrite rekey_none]. intros H Hm. apply (IH _ H).
  destruct (str_eqb k' "__proto__") eqn:E; [done|]. apply jset_entries; [by apply (Hk a) | by eapply Hp | done | done].
Qed.

(** Entries that are well formed are read as they are. *)
Lemma rekey_same k p l m : entries_ok k p (m ++ l) -> foldl (rekey k p) (Some m) l = Some (m ++ l).
Proof.
  revert m. induction l as [|[a v] l IH]; intros m H; cbn [foldl]; [by rewrite app_nil_r|].
  pose proof H as [Hn Hf]. apply Forall_app in Hf as [_ Hf]. apply Forall_cons in Hf as [(He & Hk & Hp) _]. cbn [fst snd] in *.
  unfold rekey at 2. cbn [mbind option_bind fst snd]. rewrite Hk. cbn [mbind option_bind]. rewrite Hp. cbn [mbind option_bind]. rewrite He.
  rewrite jset_fresh.
  - rewrite IH by (by rewrite <- app_assoc). by rewrite <- app_assoc.
  - apply jget_None. unfold jkeys in *. rewrite map_app in Hn. apply NoDup_app in Hn as (_ & Hn & _). intros Ha. apply (Hn a Ha). left.
Qed.

Lemma rekeyed_behaves k p : (forall a b, k a = Some b -> k b = Some b) -> (forall a b, k a = Some b -> key b = false) ->
  behaves text key p -> behaves text key (vs_rekeyed k p).
Proof.
  intros Hk Hkey [Hi Hh]. split; intros v w.
  - destruct v as [| | | | | |l|]; cbn [vs_rekeyed]; try done. fold (rekey k p). intros (out & Ho & ->)%fmap_Some. cbn [vs_rekeyed].
    fold (rekey k p). assert (Hok : entries_ok k p out).
    { eapply rekey_entries; [exact Hk | exact Hi | exact Ho | split; constructor]. }
    rewrite filter_keeps by (eapply Forall_impl; [apply Hok|]; naive_solver). by rewrite (rekey_same k p out []).
  - destruct v as [| | | | | |l|]; cbn [vs_rekeyed]; try done. fold (rekey k p). intros Hc%clean_obj (out & Ho & ->)%fmap_Some.
    apply clean_obj. assert (Hl : Forall (fun kv => clean text key kv.2) (filter (fun kv : string * value => str_eqb kv.1 "__proto__" = false) l)).
    { rewrite Forall_forall in *. intros x [_ Hx]%list_elem_of_filter. by apply Hc. }
    assert (Hm : Forall (fun kv : string * value => key kv.1 = false /\ clean text key kv.2) []) by constructor. revert Hm Ho.
    generalize (@nil (string * value)). induction Hl as [|[a v] l' Hv Hl IH]; intros m Hm; cbn [foldl]; [by intros [= <-]|].
    unfold rekey at 2. cbn [mbind option_bind fst snd]. destruct (k a) as [k'|] eqn:Ek; cbn [mbind option_bind]; [|by rewrite rekey_none].
    destruct (p v) as [w|] eqn:Ew; cbn [mbind option_bind]; [|by rewrite rekey_none]. apply IH.
    destruct (str_eqb k' "__proto__"); [done|]. clear IH Hc. induction m as [|[k0 v0] m IHm]; cbn [jset].
    + constructor; [|constructor]. split; [by eapply Hkey | exact (Hh _ _ Hv Ew)].
    + apply Forall_cons in Hm as [[H0 H1] Hm]. cbn [fst snd] in *.
      destruct (str_eqb k0 k'); (apply Forall_cons_2; [|by auto]); cbn [fst snd]; (split; [done|]); [exact (Hh _ _ Hv Ew) | done].
Qed.

Lemma tagged_behaves k os : Forall (fun o => NoDup (k :: map fst o.2)) os ->
  Forall (fun o => behaves text key (vs_object ((k, vs_enum [o.1]) :: o.2))) os -> behaves text key (vs_tagged k os).
Proof.
  intros Hn Hs. assert (Hfind : forall s o, List.find (fun o => str_eqb o.1 s) os = Some o -> o.1 = s /\ o ∈ os).
  { intros s o [Hin He]%find_some. split; [by apply str_eqb_eq|]. by apply list_elem_of_In. }
  rewrite Forall_forall in Hn, Hs. split.
  - intros [| | | | | |l|] w; cbn [vs_tagged]; try done. destruct (jget k l) as [[| | | |s| | |]|] eqn:Hk; try done.
    intros (o & Ho & Hw)%bind_Some. destruct (Hfind s o Ho) as [<- Hin]. pose proof (bh_stable _ _ _ (Hs o Hin) _ _ Hw) as Hw'.
    cbn [vs_object] in Hw. apply fmap_Some in Hw as (out & Hout & ->).
    destruct (fields_lookup text key _ _ _ Hout (Hn o Hin)) as [_ Hall].
    apply Forall_cons in Hall as [(v & Hv & Hg) _]. cbn [fst snd] in Hv, Hg. rewrite Hk in Hv. cbn in Hv. unfold found in Hg.
    rewrite str_eqb_refl in Hv. injection Hv as <-. cbn [vs_tagged]. rewrite Hg, Ho. exact Hw'.
  - intros [| | | | | |l|] w Hc; cbn [vs_tagged]; try done. destruct (jget k l) as [[| | | |s| | |]|]; try done.
    intros (o & Ho & Hw)%bind_Some. destruct (Hfind s o Ho) as [_ Hin]. by eapply (bh_harmless _ _ _ (Hs o Hin)).
Qed.
End more_behaviour.

(** ** Nothing but data comes out *)

(** What a schema makes is data, whatever it was given. *)
Section purity.
Context {zod : Zod} {laws : ZodLaws zod}.

Notation is_data := (clean (fun _ => false) (fun _ => false)).

Definition pure (p : schema) : Prop := forall v w, p v = Some w -> is_data w.

Lemma data_obj l : is_data (VObj l) <-> Forall (fun kv => is_data kv.2) l.
Proof. rewrite clean_obj. apply Forall_iff. intros kv. by split; [intros [_ ?]|]. Qed.

Lemma boolean_pure : pure vs_boolean.
Proof. by intros [] w [= <-]. Qed.
Lemma true_pure : pure vs_true.
Proof. by intros [| |[]| | | | |] w [= <-]. Qed.
Lemma text_pure ok : pure (vs_text ok).
Proof. intros [| | | |s| | |] w; cbn; try done. destruct (ok s); [by intros [= <-]|done]. Qed.
Lemma string_pure lo hi : pure (vs_string lo hi).
Proof. intros [| | | |s| | |] w; cbn; try done. by intros (t & _ & ->)%fmap_Some. Qed.
Lemma number_pure ok : pure (vs_number ok).
Proof. intros [| | |n| | | |] w; cbn; try done. destruct (isFinite n && ok n); [by intros [= <-]|done]. Qed.

Lemma pre_pure f p : pure p -> pure (vs_pre f p).
Proof. intros H v w. apply H. Qed.
Lemma optional_pure p : pure p -> pure (vs_optional p).
Proof. intros H v w. destruct v; cbn [vs_optional]; try apply H. by intros [= <-]. Qed.
Lemma nullable_pure p : pure p -> pure (vs_nullable p).
Proof. intros H v w. destruct v; cbn [vs_nullable]; try apply H. by intros [= <-]. Qed.
Lemma default_pure d p : is_data d -> pure p -> pure (vs_default d p).
Proof. intros Hd H v w. destruct v; cbn [vs_default]; try apply H. by intros [= <-]. Qed.

Lemma array_pure lo hi p : pure p -> pure (vs_array lo hi p).
Proof.
  intros H v w. destruct v as [| | | | |l| |]; cbn [vs_array]; try done. case_bool_decide as Hl; [clear Hl|done].
  intros (l' & Hm & ->)%fmap_Some. apply clean_arr. apply mapM_Some in Hm. induction Hm; constructor; [by eapply H | done].
Qed.

Lemma fields_pure l shape out : Forall (fun f => pure f.2) shape -> vs_fields l shape = Some out ->
  Forall (fun kv => is_data kv.2) out.
Proof.
  intros Hs. revert out. induction Hs as [|[k p] shape Hp Hs IH]; intros out; cbn [vs_fields]; [by intros [= <-]|].
  intros (v & Hv & (rest & Hr & [= <-])%bind_Some)%bind_Some. specialize (IH rest Hr). apply Hp in Hv.
  destruct v; [destruct (jhas k l) eqn:Hh|..]; cbn [vs_put]; rewrite ?Hh; by repeat constructor.
Qed.

Lemma object_pure shape : Forall (fun f => pure f.2) shape -> pure (vs_object shape).
Proof.
  intros Hs [| | | | | |l|] w; cbn [vs_object]; try done. intros (out & Ho & ->)%fmap_Some. apply data_obj. by eapply fields_pure.
Qed.

Lemma tagged_pure k os : Forall (fun o => Forall (fun f => pure f.2) o.2) os -> pure (vs_tagged k os).
Proof.
  intros Hs [| | | | | |l|] w; cbn [vs_tagged]; try done. destruct (jget k l) as [[| | | |s| | |]|]; try done.
  intros (o & Ho & Hw)%bind_Some. apply find_some in Ho as [Hin%list_elem_of_In _]. rewrite Forall_forall in Hs.
  revert Hw. apply object_pure. constructor; [apply text_pure | by apply Hs].
Qed.

Lemma rekeyed_pure k p : pure p -> pure (vs_rekeyed k p).
Proof.
  intros H [| | | | | |l|] w; cbn [vs_rekeyed]; try done. fold (rekey k p). intros (out & Ho & ->)%fmap_Some. apply data_obj.
  assert (Hm : Forall (fun kv : string * value => is_data kv.2) []) by constructor. revert Hm Ho.
  generalize (@nil (string * value)). induction (filter _ l) as [|[a v] l' IH]; intros m Hm; cbn [foldl]; [by intros [= <-]|].
  unfold rekey at 2. cbn [mbind option_bind fst snd]. destruct (k a) as [k'|]; cbn [mbind option_bind]; [|by rewrite rekey_none].
  destruct (p v) as [x|] eqn:Ex; cbn [mbind option_bind]; [|by rewrite rekey_none]. apply IH. apply H in Ex.
  destruct (str_eqb k' "__proto__"); [done|]. clear IH. induction Hm as [|[k0 v0] m H0 Hm IHm]; cbn [jset]; [by repeat constructor|].
  destruct (str_eqb k0 k'); by constructor.
Qed.
End purity.

(** A schema by its outermost combinator; a name is unfolded. *)
Ltac solve_pure :=
  cbn [fst snd];
  lazymatch goal with
  | |- Forall _ (_ :: _) => apply Forall_cons_2; [solve_pure|solve_pure]
  | |- Forall _ [] => apply Forall_nil_2
  | |- Forall _ (_ ++ _) => apply Forall_app_2; [solve_pure|solve_pure]
  | |- Forall ?P ?l => let l' := eval red in l in change (Forall P l'); solve_pure
  | |- pure vs_boolean => apply boolean_pure
  | |- pure vs_true => apply true_pure
  | |- pure (vs_text _) => apply text_pure
  | |- pure (vs_string _ _) => apply string_pure
  | |- pure (vs_number _) => apply number_pure
  | |- pure (vs_pre _ _) => apply pre_pure; solve_pure
  | |- pure (vs_optional _) => apply optional_pure; solve_pure
  | |- pure (vs_nullable _) => apply nullable_pure; solve_pure
  | |- pure (vs_default _ _) => apply default_pure; [reflexivity|solve_pure]
  | |- pure (vs_array _ _ _) => apply array_pure; solve_pure
  | |- pure (vs_object _) => apply object_pure; solve_pure
  | |- pure (vs_tagged _ _) => apply tagged_pure; solve_pure
  | |- pure (vs_rekeyed _ _) => apply rekeyed_pure; solve_pure
  | |- pure ?p => let p' := eval red in p in change (pure p'); solve_pure
  end.

(** ** The contracts *)

Section contracts.
Context {zod : Zod} {laws : ZodLaws zod} {host_date : HostDate} {date_laws : HostDateLaws host_date}.

Lemma freshness_behaves : data spatialFreshnessSchema.
Proof using laws date_laws. unfold spatialFreshnessSchema. solve_schema. Qed.
Lemma wire_provenance_behaves : data provenanceSchema.
Proof using laws. unfold provenanceSchema. solve_schema. Qed.
#[local] Hint Resolve freshness_behaves wire_provenance_behaves : schemas.

Lemma entity_options_behave : Forall (fun o => data (vs_object (("kind"%string, vs_enum [o.1]) :: o.2))) entity_options.
Proof using laws date_laws. unfold entity_options, entityBase, ids. cbn [app]. solve_schema. Qed.

Lemma entity_names : Forall (fun o => NoDup ("kind"%string :: map fst o.2)) entity_options.
Proof. repeat constructor; apply (bool_decide_eq_true_1 _); vm_compute; reflexivity. Qed.

Lemma id_is_text v w : idSchema v = Some w -> exists s, w = VStr s.
Proof using laws. intros H. pose proof (string_checks _ _ _ _ H) as ->. destruct v; try done. by eexists. Qed.

Lemma alias_found l a b c s : jget a l = Some (VStr s) -> alias_of l a b c = VStr s.
Proof. intros H. unfold alias_of, property. by rewrite H. Qed.

Lemma entity_ids v w : vs_tagged "kind" entity_options v = Some w ->
  exists out i r, w = VObj out /\ jget "id" out = Some (VStr i) /\ jget "canonical_ref" out = Some (VStr r).
Proof using laws.
  destruct v as [| | | | | |l|]; cbn [vs_tagged]; try done. destruct (jget "kind" l) as [[| | | |s| | |]|]; try done.
  intros (o & Ho & Hw)%bind_Some. apply find_some in Ho as [Hin _]. apply list_elem_of_In in Hin.
  cbn [vs_object] in Hw. apply fmap_Some in Hw as (out & Hout & ->). pose proof entity_names as Hn. rewrite Forall_forall in Hn.
  destruct (fields_lookup (fun _ => false) (fun _ => false) _ _ _ Hout (Hn o Hin)) as [_ Hall].
  assert (Hbase : Forall (fun f => f ∈ ("kind"%string, vs_enum [o.1]) :: o.2) [("id"%string, idSchema); ("canonical_ref"%string, idSchema)]).
  { clear -Hin. revert o Hin. apply Forall_forall. unfold entity_options, entityBase. cbn [app].
    repeat (apply Forall_cons_2; [repeat constructor|]). constructor. }
  rewrite Forall_forall in Hall. apply Forall_cons in Hbase as [Hid [Href _]%Forall_cons].
  destruct (Hall _ Hid) as (vi & Hi & Hgi), (Hall _ Href) as (vr & Hr & Hgr). cbn [fst snd] in *.
  apply id_is_text in Hi as [i ->], Hr as [r ->]. by exists out, i, r.
Qed.

Lemma aliases_kept out i r : jget "id" out = Some (VStr i) -> jget "canonical_ref" out = Some (VStr r) ->
  normalizeEntityAliases (VObj out) = VObj out.
Proof.
  intros Hi Hr. cbn [normalizeEntityAliases]. rewrite (alias_found _ _ _ _ _ Hi), (alias_found _ _ _ _ _ Hr). cbn [set_defined].
  by rewrite (jset_same _ _ _ Hi), (jset_same _ _ _ Hr).
Qed.

Lemma jset_clean t k' v l : clean t (fun _ => false) (VObj l) -> clean t (fun _ => false) v -> clean t (fun _ => false) (VObj (jset k' v l)).
Proof.
  rewrite !clean_obj. intros Hl Hv. induction Hl as [|[k0 v0] l H0 Hl IH]; cbn [jset]; [by repeat constructor|].
  destruct (str_eqb k0 k'); by constructor.
Qed.

Lemma property_clean t k l : clean t (fun _ => false) (VObj l) -> clean t (fun _ => false) (property l k).
Proof.
  intros H%clean_obj. unfold property. destruct (jget k l) as [v|] eqn:E; [|done]. apply jget_elem in E. rewrite Forall_forall in H.
  by apply (H (k, v)).
Qed.

Lemma alias_clean t l a b c : clean t (fun _ => false) (VObj l) -> clean t (fun _ => false) (alias_of l a b c).
Proof.
  intros H. unfold alias_of, nullish_or.
  pose proof (property_clean t a l H). pose proof (property_clean t b l H). pose proof (property_clean t c l H).
  destruct (property l a); try done; by destruct (property l b).
Qed.

Lemma set_defined_clean t k v l : clean t (fun _ => false) (VObj l) -> clean t (fun _ => false) v ->
  clean t (fun _ => false) (VObj (set_defined k v l)).
Proof. intros Hl Hv. destruct v; cbn [set_defined]; try done; by apply jset_clean. Qed.

Lemma entity_behaves : data spatialEntitySchema.
Proof using laws date_laws.
  apply pre_behaves.
  - apply tagged_behaves; [apply entity_names | apply entity_options_behave].
  - intros v w Hw. destruct (entity_ids _ _ Hw) as (out & i & r & -> & Hi & Hr). by eapply aliases_kept.
  - intros [| | | | | |l|] H; try done. cbn [normalizeEntityAliases]. by repeat apply set_defined_clean; try apply alias_clean.
Qed.

Lemma membership_behaves : data (vs_rekeyed id_key idSchema).
Proof using laws.
  apply rekeyed_behaves; [|done | apply id_behaves]. unfold id_key. intros a b [-> H]%z_string_sound. rewrite trim_idem.
  by apply z_string_complete.
Qed.

Lemma contract_behaves c : data (contract_schema c).
Proof using laws date_laws.
  pose proof entity_behaves. pose proof membership_behaves.
  destruct c; cbn [contract_schema]; [apply entity_behaves|..];
    unfold spatialRelationSchema, spatialNodeStatusSchema, spatialWorkspaceSchema, spatialPrimaryAgentSlotSchema, spatialPrimaryAgentGrantSchema,
      spatialPrimaryAgentStateSchema, spatialRecoveryCommandSchema, spatialRecoveryResultSchema, spatialEndpointProvenanceSchema,
      spatialRemoteResultSchema, spatialEndpointTestFrameSchema, spatialResourceAccountingSchema, spatialEndpointProvenanceSchema,
      statusComponentSchema, statusEvidenceRefSchema, statusDetailsSchema, vs_authorization, recoveryActionSchema, semanticAnchorSchema,
      spatialRelationSchema, spatialPositionSchema, absent_null, tally, ids; solve_schema.
Qed.

Lemma contract_pure c : pure (contract_schema c).
Proof. destruct c; cbn [contract_schema]; solve_pure. Qed.
End contracts.

(** ** What a parser promises *)

Section promises.
Context {zod : Zod} {laws : ZodLaws zod} {host_date : HostDate} {date_laws : HostDateLaws host_date}.

Lemma object_property shape k p v w : vs_object shape v = Some w -> NoDup (map fst shape) -> (k, p) ∈ shape ->
  exists l out x, v = VObj l /\ w = VObj out /\ p (property l k) = Some x /\ found l x k out.
Proof.
  destruct v as [| | | | | |l|]; cbn [vs_object]; try done. intros (out & Ho & ->)%fmap_Some Hn Hin.
  destruct (fields_lookup (fun _ => false) (fun _ => false) _ _ _ Ho Hn) as [_ Hall]. rewrite Forall_forall in Hall.
  destruct (Hall _ Hin) as (x & Hx & Hf). by exists l, out, x.
Qed.

Lemma object_literal shape k s v w : vs_object shape v = Some w -> NoDup (map fst shape) -> (k, vs_enum [s]) ∈ shape ->
  text_property w k = Some s.
Proof.
  intros Hw Hn Hin. destruct (object_property _ _ _ _ _ Hw Hn Hin) as (l & out & x & -> & -> & Hx & Hf).
  destruct (property l k) as [| | | |t| | |]; cbn in Hx; try done. destruct (str_eqb t s) eqn:E; [|done]. injection Hx as <-.
  apply str_eqb_eq in E as ->. unfold found in Hf. cbn [text_property]. by rewrite Hf.
Qed.

Lemma contract_literal c v w : contract_schema c v = Some w -> text_property w "schema_version" = Some (contract_version c).
Proof.
  destruct c; cbn [contract_schema contract_version]; try (intros H; eapply object_literal; [exact H | solve_names | left]).
  unfold spatialEntitySchema, vs_pre. generalize (normalizeEntityAliases v). clear v. intros v.
  destruct v as [| | | | | |l|]; cbn [vs_tagged]; try done. destruct (jget "kind" l) as [[| | | |s| | |]|]; try done.
  intros (o & Ho & Hw)%bind_Some. apply find_some in Ho as [Hin _]. apply list_elem_of_In in Hin.
  pose proof entity_names as Hn. rewrite Forall_forall in Hn. eapply object_literal; [exact Hw | by apply Hn|].
  clear -Hin. revert o Hin. apply Forall_forall. unfold entity_options, entityBase. cbn [app].
  repeat (apply Forall_cons_2; [right; left|]). constructor.
Qed.

(** C35. On a host whose printed dates parse to the date they were printed of,
    what a contract's parser delivers it accepts again as it is, so a value
    that was parsed can be sent, stored and parsed again without another change:
    its texts stay trimmed and in capitals, its dates and numbers stay the same and
    nothing is renamed, defaulted or dropped a second time. It carries the version
    of the contract, and no function or other value that is not data at any depth,
    whatever was in the payload. *)
Theorem contract_reads_back c v w : parse_contract c v = Ok w ->
  parse_contract c w = Ok w /\ text_property w "schema_version" = Some (contract_version c) /\
  clean (fun _ => false) (fun _ => false) w.
Proof using laws date_laws.
  unfold parse_contract, parseSpatialContract. intros H.
  assert (Hw : contract_schema c v = Some w).
  { destruct (text_property v "schema_version") as [r|]; [destruct (_ && _ && _); [done|]|]; by apply of_option_ok in H. }
  pose proof (contract_literal _ _ _ Hw) as Hv. rewrite Hv, str_eqb_refl, andb_false_r. cbn [andb].
  destruct (contract_behaves c) as [Hi _]. split_and!; [by rewrite (Hi _ _ Hw) | done | by eapply contract_pure].
Qed.

(** No contract's version reads as another version of a contract that is here. *)
Lemma versions_are_apart c r : r ∈ SPATIAL_SCHEMA_VERSIONS -> r <> contract_version c ->
  String.prefix (versionBase (contract_version c) +:+ ".v") r = false.
Proof.
  assert (Hall : forallb (fun r => str_eqb r (contract_version c) || negb (String.prefix (versionBase (contract_version c) +:+ ".v") r))
                   SPATIAL_SCHEMA_VERSIONS = true) by (destruct c; vm_compute; reflexivity).
  rewrite forallb_forall in Hall. intros Hr Hne. apply list_elem_of_In in Hr. specialize (Hall r Hr).
  apply orb_true_iff in Hall as [E|E]; [by apply str_eqb_eq in E | by apply negb_true_iff in E].
Qed.

(** A payload is called incompatible exactly when it names another version of the
    same contract; another contract's payload is malformed, and so is every other
    payload that does not parse. *)
Theorem incompatible_is_another_version c v d : parse_contract c v = Err d ->
  pd_contract d = contract_version c /\
  (pd_code d = INCOMPATIBLE_SCHEMA_VERSION <->
   exists r, text_property v "schema_version" = Some r /\ r <> contract_version c /\
     String.prefix (versionBase (contract_version c) +:+ ".v") r = true) /\
  (forall r, text_property v "schema_version" = Some r -> r ∈ SPATIAL_SCHEMA_VERSIONS -> pd_code d = MALFORMED_PAYLOAD).
Proof.
  pose proof (versions_are_apart c) as Hdistinct.
  unfold parse_contract, parseSpatialContract.
  destruct (text_property v "schema_version") as [r|] eqn:Er.
  - destruct (truthy (Some r) && negb (str_eqb r (contract_version c)) && String.prefix _ r) eqn:E.
    + intros [= <-]. apply andb_true_iff in E as [[Ht Hne%negb_true_iff]%andb_true_iff Hp].
      assert (Hr : r <> contract_version c) by (intros ->; by rewrite str_eqb_refl in Hne).
      split_and!; [done | split; [intros _; by exists r | done] |]. intros ? [= <-] Hin. by rewrite Hdistinct in Hp.
    + intros H. destruct (contract_schema c v); [done|]. injection H as <-. split_and!; [done | | done]. split; [done|].
      intros (r' & [= <-] & Hne & Hp). exfalso. rewrite Hp, andb_true_r in E. apply andb_false_iff in E as [E|E%negb_false_iff].
      * cbn [truthy] in E. apply negb_false_iff in E. apply str_eqb_eq in E as ->. by destruct c.
      * by apply str_eqb_eq in E.
  - intros H. destruct (contract_schema c v); [done|]. injection H as <-. split_and!; [done | | done]. split; [done|]. by intros (r & ? & _).
Qed.

Lemma text_shape ok v w : vs_text ok v = Some w -> exists s, w = VStr s /\ ok s = true.
Proof. destruct v; cbn; try done. destruct (ok _) eqn:E; [|done]. intros [= <-]. by eexists. Qed.

Lemma number_shape ok v w : vs_number ok v = Some w -> exists q, w = VNum (Finite q) /\ ok (Finite q) = true.
Proof. destruct v as [| | |[q| | |]| | | |]; cbn; try done. destruct (ok (Finite q)) eqn:E; [|done]. intros [= <-]. by exists q. Qed.

(** What is in a freshness record that parsed. *)
Lemma freshness_fields v w : spatialFreshnessSchema v = Some w -> exists l state at_ ttl z, w = VObj l /\
  text_property w "state" = Some state /\ state ∈ SPATIAL_FRESHNESS_STATES /\ text_property w "observed_at" = Some at_ /\
  date_parse at_ = Some z /\ jget "stale_after_seconds" l = Some (VNum (Finite ttl)) /\ (0 <= ttl <= 31536000)%Q.
Proof.
  intros H. unfold spatialFreshnessSchema in H.
  destruct (object_property _ "state" _ _ _ H ltac:(solve_names) ltac:(left)) as (l & out & x & _ & -> & Hx & Hfx).
  destruct (object_property _ "observed_at" _ _ _ H ltac:(solve_names) ltac:(right; left)) as (? & ? & y & _ & [= <-] & Hy & Hfy).
  destruct (object_property _ "stale_after_seconds" _ _ _ H ltac:(solve_names) ltac:(right; right; left))
    as (? & ? & n & _ & [= <-] & Hn & Hfn).
  apply text_shape in Hx as (state & -> & Hs). apply text_shape in Hy as (at_ & -> & Ha). apply number_shape in Hn as (ttl & -> & Ht).
  apply andb_true_iff in Ha as [_ [z Hz]%bool_decide_eq_true]. apply andb_true_iff in Ht as [Ht1 Ht2].
  unfold safe_from in Ht1. apply andb_true_iff in Ht1 as [[_ Ht0]%andb_true_iff _]. unfold found in *.
  exists out, state, at_, ttl, z. cbn [text_property]. rewrite Hfx, Hfy, Hfn. split_and!; try done.
  - apply existsb_exists in Hs as (s & Hin & ->%str_eqb_eq). by apply list_elem_of_In.
  - cbn [num_le num_lt num] in Ht0. rewrite negb_involutive in Ht0. by apply Qle_bool_iff in Ht0.
  - cbn [num_le num_lt num] in Ht2. rewrite negb_involutive in Ht2. by apply Qle_bool_iff in Ht2.
Qed.

(** The freshness policy never makes a record look better: with a clock that works
    a record that parses always has an age, which is not negative; a FRESH record
    is STALE from the moment its time has run out, and every other state is left as
    it is, however young the record. *)
Theorem freshness_never_improves v now : is_Some (spatialFreshnessSchema v) ->
  exists w state at_ ttl age, normalizeSpatialFreshness v (Finite now) = Ok (w, state, age) /\ spatialFreshnessSchema v = Some w /\
    (0 <= age)%Q /\ text_property w "state" = Some at_ /\
    (at_ <> "FRESH"%string -> state = at_) /\ (at_ = "FRESH"%string -> state = (if Qle_bool age ttl then "FRESH" else "STALE")%string) /\
    (exists l, w = VObj l /\ jget "stale_after_seconds" l = Some (VNum (Finite ttl))) /\ state ∈ SPATIAL_FRESHNESS_STATES.
Proof.
  intros [w Hw]. destruct (freshness_fields v w Hw) as (l & st & at_ & ttl & z & -> & Hst & Hin & Hat & Hz & Httl & _).
  unfold normalizeSpatialFreshness. rewrite Hw. cbn [of_option rbind]. rewrite Hst, Hat. cbn [of_option rbind mbind option_bind].
  rewrite Hz. cbn [of_option rbind]. rewrite Httl. cbn [of_option rbind].
  set (age := if Qle_bool _ 0 then 0%Q else _). assert (Hage : (0 <= age)%Q).
  { subst age. destruct (Qle_bool _ 0) eqn:E; [apply Qle_refl|]. destruct (Qlt_le_dec 0 ((now - inject_Z z) / 1000)) as [Hl|Hl];
      [by apply Qlt_le_weak|]. apply Qle_bool_iff in Hl. congruence. }
  exists (VObj l), (if str_eqb st "FRESH" && negb (Qle_bool age ttl) then "STALE"%string else st), st, ttl, age.
  split_and!; [done | done | done | done | | | by exists l |].
  - intros Hne. unfold str_eqb. by rewrite bool_decide_eq_false_2.
  - intros ->. rewrite str_eqb_refl. cbn [andb]. by destruct (Qle_bool age ttl).
  - destruct (_ && _); [|done]. right. left.
Qed.
End promises.

Module WireWitness.
#[local] Existing Instance zod_ref.

(** Dates are written as their year here. *)
#[local] Instance host_date : HostDate := {| date_parse s := if str_eqb s "2026" then Some 56 else None; iso_text z := "2026"%string |}.
#[local] Instance date_laws : HostDateLaws host_date.
Proof. intros s z. cbn. destruct (str_eqb s "2026"); [|done]. by intros [= <-]. Qed.

Definition fresh : value :=
  VObj [("state", VStr " fresh "); ("observed_at", VStr "2026"); ("stale_after_seconds", VStr "60"); ("source", VStr "node")]%string.
Definition entity_payload : value :=
  VObj [("schema_version", VStr "spatial.entity.v1"); ("kind", VStr "agent"); ("entity_id", VStr " a-1 "); ("object_ref", VStr "agent:1");
        ("node_id", VStr "node-1"); ("revision", VStr "7"); ("label", VStr "A"); ("state", VStr "ready"); ("availability", VStr "available");
        ("freshness", fresh); ("created_at", VStr "2026"); ("updated_at", VStr "2026"); ("script", VOpaque)]%string.
Definition parsed_entity : value :=
  match parse_contract C_entity entity_payload with Ok w => w | Err _ => VUndefined end.

(** Aliases are renamed, codes are put into capitals, what is not in the contract
    goes, and what is missing has its default. *)
Example entity_is_normalized :
  (text_property parsed_entity "id", text_property parsed_entity "canonical_ref", text_property parsed_entity "state",
   text_property parsed_entity "role", text_property parsed_entity "entity_id") =
  (Some "a-1", Some "agent:1", Some "READY", Some "AGENT", None)%string.
Proof. by vm_compute. Qed.

Lemma contract_reads_back_witness :
  scan (fun _ => false) (fun _ => false) entity_payload = true /\ parse_contract C_entity entity_payload = Ok parsed_entity /\
  parse_contract C_entity parsed_entity = Ok parsed_entity /\ clean (fun _ => false) (fun _ => false) parsed_entity.
Proof.
  assert (E : parse_contract C_entity entity_payload = Ok parsed_entity) by (vm_compute; reflexivity).
  destruct (contract_reads_back C_entity entity_payload parsed_entity E) as (H & _ & Hc).
  split; [reflexivity|]. split; [exact E|]. split; [exact H | exact Hc].
Defined.

Lemma incompatible_witness : forall d, parse_contract C_entity (VObj [("schema_version", VStr "spatial.entity.v2")]%string) = Err d ->
  pd_code d = INCOMPATIBLE_SCHEMA_VERSION.
Proof.
  intros d H. apply (incompatible_is_another_version C_entity _ d H). exists "spatial.entity.v2"%string. split_and!; by vm_compute.
Defined.

Lemma freshness_witness : is_Some (spatialFreshnessSchema fresh) /\ exists w age, normalizeSpatialFreshness fresh (num 70056) = Ok (w, "STALE"%string, age).
Proof.
  assert (H : is_Some (spatialFreshnessSchema fresh)) by (vm_compute; by eexists). split; [exact H|].
  destruct (freshness_never_improves fresh (inject_Z 70056) H) as (w & st & at_ & ttl & age & E & _). exists w, age.
  change (num 70056) with (Finite (inject_Z 70056)). rewrite E. vm_compute in E. by injection E as _ <- _.
Defined.
End WireWitness.

(** ** Edge behaviour *)

(** An empty id hides its alias: [??] only passes over [null] and [undefined]. *)
Theorem empty_id_hides_its_alias l : jget "id" l = Some (VStr "") -> alias_of l "id" "entity_id" "object_id" = VStr "".
Proof. apply alias_found. Qed.
