(* ===== verification/Clients.v ===== *)
(** * The domain clients and the query keys

    src/web/operator-dashboard/src/spatial/data/clients.ts: the typed calls the
    dashboard makes to a Node, over any [SpatialTransport], with the contracts of
    [WireContracts] their answers are parsed with; and data/query-keys.ts: the keys
    under which answers are cached, and what is invalidated after a change. A value
    a caller sends is JSON. Abort signals belong to the transport. *)

From stdpp Require Import pretty.
From S2P Require Import Prelude.
From S2P Require Import Json.
From S2P Require Import Numbers.
From S2P Require Import Text.
From S2P Require Import Contracts.
From S2P Require Import Schemas.
From S2P Require Import WireContracts.
From S2P Require Import Transport.

#[local] Open Scope Z_scope.

(** ** Paths *)

Definition upper_hex (n : N) : ascii := ascii_of_N (if bool_decide (n < 10)%N then n + 48 else n + 55)%N.
Definition percent (byte : N) : string := String "%" (String (upper_hex (byte / 16)) (String (upper_hex (byte mod 16)) EmptyString)).

(** The characters [encodeURIComponent] leaves alone. *)
Definition unreserved (c : ascii) : bool := is_alpha c || is_digit c || one_of "-_.!~*'()" c.

(** One character, in UTF-8. *)
Definition encode_char (c : ascii) : string :=
  let n := N_of_ascii c in
  if unreserved c then String c EmptyString
  else if bool_decide (n < 128)%N then percent n
  else percent (192 + n / 64)%N +:+ percent (128 + n mod 64)%N.
Fixpoint encodeURIComponent (s : string) : string :=
  match s with EmptyString => EmptyString | String c s => encode_char c +:+ encodeURIComponent s end.

(** ** Calls *)

Inductive listed : Type := L_agents | L_endpoints | L_sessions.

(** The methods of [SpatialDomainClients]. *)
Inductive client_call : Type :=
| Node_status
| Entities (l : listed)
| Resources
| Events (cursor : option string)
| Hooks
| Workspace
| Relation (ref : string)
| Recovery_plan (command : json)
| Recovery_apply (command : json) (confirmed : bool)
| Endpoint_provenance (ref : string)
| Test_plan (frame : json)
| Test_submit (request : json)
| Test_cancel (request_id : string).

Definition call_path (c : client_call) : string :=
  "/operators/spatial/" +:+
  match c with
  | Node_status => "status"
  | Entities L_agents => "agents"
  | Entities L_endpoints => "endpoints"
  | Entities L_sessions => "sessions"
  | Resources => "resources"
  | Events cursor => if truthy cursor then "events?after=" +:+ encodeURIComponent (default "" cursor) else "events"
  | Hooks => "hooks"
  | Workspace => "workspace"
  | Relation ref => "relations/" +:+ encodeURIComponent ref
  | Recovery_plan _ => "recovery/plan"
  | Recovery_apply _ _ => "recovery/apply"
  | Endpoint_provenance ref => "endpoints/" +:+ encodeURIComponent ref +:+ "/provenance"
  | Test_plan _ => "endpoint-tests/plan"
  | Test_submit _ => "endpoint-tests/submit"
  | Test_cancel _ => "endpoint-tests/cancel"
  end.

Definition call_body (c : client_call) : option json :=
  match c with
  | Recovery_plan b | Test_plan b | Test_submit b => Some b
  | Recovery_apply b confirmed => Some (JObj [("command", b); ("confirmed", JBool confirmed)]%string)
  | Test_cancel id => Some (JObj [("request_id", JStr id)]%string)
  | _ => None
  end.

(** The function [request] of [createSpatialDomainClients]. *)
Definition call_request (c : client_call) (sc : scope) : transport_request :=
  TransportRequest (call_path c) (Some (match call_body c with Some _ => POST | None => GET end)) sc (call_body c) None.

(** ** Answers *)

(** [z.array(z.unknown())], and an object with [state] that keeps the rest. *)
Definition vs_list : schema := fun v => match v with VArr _ => Some v | _ => None end.
Definition vs_stateful : schema :=
  fun v => match text_property v "state" with Some s => if str_eqb s "" then None else Some v | None => None end.

Section clients.
Context {zod : Zod} {host_date : HostDate}.

Definition collectionSchema : schema := vs_object
  [("schema_version", vs_nonempty); ("node_id", idSchema); ("revision", revisionSchema); ("items", vs_list)]%string.

Definition resourceSummarySchema : schema := vs_object
  [("schema_version", vs_nonempty); ("node_id", idSchema); ("revision", revisionSchema); ("state", vs_nonempty);
   ("freshness", vs_stateful); ("cpu", vs_optional vs_amount); ("ram_mb", vs_optional vs_amount); ("vram_mb", vs_optional vs_amount)]%string.

Definition hookSummarySchema : schema := vs_object
  [("hook_id", idSchema); ("node_id", idSchema); ("state", vs_nonempty); ("revision", revisionSchema)]%string.

(** [spatialEventEnvelopeSchema] of data/events.ts, and the envelope of a page of
    events. *)
Definition spatialEventEnvelopeSchema : schema := vs_object
  [("event_id", idSchema); ("event_type", vs_string 1 160); ("schema_version", vs_string 1 160); ("node_id", idSchema);
   ("sequence", revisionSchema); ("revision", revisionSchema); ("occurred_at", timestampSchema); ("correlation_id", vs_nullable idSchema);
   ("causation_id", vs_nullable idSchema); ("payload", vs_unknown)]%string.

Definition eventPageSchema : schema := vs_object
  [("schema_version", vs_nonempty); ("node_id", idSchema); ("cursor", vs_optional (vs_nullable (vs_text (fun _ => true))));
   ("items", vs_list)]%string.

Definition hookListSchema : schema := vs_object [("node_id", idSchema); ("items", vs_list)]%string.
Definition submissionSchema : schema := vs_object [("result", vs_unknown); ("accounting", vs_unknown)]%string.

(** What a call returns. *)
Inductive answer : Type :=
| A_value (w : value)
| A_collection (node : string) (revision : value) (items : list value)
| A_events (node : string) (cursor : option string) (items : list value)
| A_items (items : list value)
| A_submitted (result accounting : value).

Definition reject {A} (category : error_category) (path : string) : result transport_error A := Err (Api (ApiError category path None)).

(** [assertSpatialScope] of data/transport.ts. *)
Definition assertSpatialScope (sc : scope) (node : string) : result transport_error unit :=
  let? n := of_option (normalizeSpatialNodeScope sc) BadScope in
  let? node := of_option (Contracts.idSchema node) BadScope in
  require (str_eqb (scope_node_id n) node) (Api (ApiError conflict "scope" None)).

(** The items of a list that was parsed, and a text of an object that was. *)
Definition items_of (w : value) : list value := match w with VObj l => match jget "items" l with Some (VArr l) => l | _ => [] end | _ => [] end.
Definition text_of (w : value) (k : string) : string := default "" (text_property w k).
Definition field (w : value) (k : string) : value := match w with VObj l => property l k | _ => VUndefined end.

Definition accepts (c : contract) (v : value) : option value := match parse_contract c v with Ok w => Some w | Err _ => None end.

(** [parseCollection]: every item, or none. *)
Definition parseCollection (raw : value) (path : string) (parseItem : value -> option value) : result transport_error (value * list value) :=
  let? envelope := of_option (collectionSchema raw) (Api (ApiError malformed path None)) in
  let? items := of_option (mapM parseItem (items_of envelope)) (Api (ApiError malformed path None)) in
  Ok (envelope, items).

Definition parseEventCollection (raw : value) (path : string) : result transport_error (value * list value) :=
  let? envelope := of_option (eventPageSchema raw) (Api (ApiError malformed path None)) in
  let? items := of_option (mapM spatialEventEnvelopeSchema (items_of envelope)) (Api (ApiError malformed path None)) in
  Ok (envelope, items).

Definition listed_kind (l : listed) : string := match l with L_agents => "agent" | L_endpoints => "endpoint" | L_sessions => "session" end.

(** The contract of the calls that answer with one value. *)
Definition call_contract (c : client_call) : option contract :=
  match c with
  | Node_status => Some C_status
  | Workspace => Some C_workspace
  | Relation _ => Some C_relation
  | Recovery_plan _ => Some C_recovery_command
  | Recovery_apply _ _ => Some C_recovery_result
  | Endpoint_provenance _ => Some C_provenance
  | Test_plan _ | Test_cancel _ => Some C_frame
  | _ => None
  end.

(** The part of such a call after the transport answered. *)
Definition typed_answer (k : contract) (sc : scope) (path : string) (raw : value) : result transport_error answer :=
  match parse_contract k raw with
  | Err d => reject (match pd_code d with INCOMPATIBLE_SCHEMA_VERSION => incompatible | MALFORMED_PAYLOAD => malformed end) path
  | Ok w => assertSpatialScope sc (text_of w "node_id") ;? Ok (A_value w)
  end.

(** The part of each call after the transport answered. *)
Definition read_answer (c : client_call) (sc : scope) (raw : value) : result transport_error answer :=
  let path := call_path c in
  match c with
  | Entities l =>
      let? page := parseCollection raw path (accepts C_entity) in
      let (envelope, items) := page in
      assertSpatialScope sc (text_of envelope "node_id") ;?
      (if existsb (fun item => negb (str_eqb (text_of item "kind") (listed_kind l))) items then reject malformed path
       else Ok (A_collection (text_of envelope "node_id") (field envelope "revision") items))
  | Resources =>
      let? w := of_option (resourceSummarySchema raw) (Api (ApiError malformed path None)) in
      assertSpatialScope sc (text_of w "node_id") ;?
      Ok (A_value w)
  | Events _ =>
      let? page := parseEventCollection raw path in
      let (envelope, items) := page in
      assertSpatialScope sc (text_of envelope "node_id") ;?
      Ok (A_events (text_of envelope "node_id") (text_property envelope "cursor") items)
  | Hooks =>
      let? envelope := of_option (hookListSchema raw) (Api (ApiError malformed path None)) in
      assertSpatialScope sc (text_of envelope "node_id") ;?
      let? items := of_option (mapM hookSummarySchema (items_of envelope)) (Api (ApiError malformed path None)) in
      Ok (A_items items)
  | Test_submit _ =>
      let? envelope := of_option (submissionSchema raw) (Api (ApiError malformed path None)) in
      let? res := of_option (accepts C_remote_result (field envelope "result")) (Api (ApiError malformed path None)) in
      let? accounting := of_option (accepts C_accounting (field envelope "accounting")) (Api (ApiError malformed path None)) in
      assertSpatialScope sc (text_of (field res "provenance") "node_id") ;?
      Ok (A_submitted res accounting)
  | Node_status => typed_answer C_status sc path raw
  | Workspace => typed_answer C_workspace sc path raw
  | Relation _ => typed_answer C_relation sc path raw
  | Recovery_plan _ => typed_answer C_recovery_command sc path raw
  | Recovery_apply _ _ => typed_answer C_recovery_result sc path raw
  | Endpoint_provenance _ => typed_answer C_provenance sc path raw
  | Test_plan _ | Test_cancel _ => typed_answer C_frame sc path raw
  end.

(** A call, over a transport. *)
Definition call (transport : transport_request -> result transport_error value) (c : client_call) (sc : scope)
  : result transport_error answer :=
  let? raw := transport (call_request c sc) in
  read_answer c sc raw.
End clients.

(** ** An answer belongs to its Node *)

Section laws.
Context {zod : Zod} {laws : ZodLaws zod} {host_date : HostDate} {date_laws : HostDateLaws host_date}.

Lemma id_is_trimmed v s : idSchema v = Some (VStr s) -> trim s = s.
Proof using laws.
  intros H. apply (bh_stable _ _ _ id_behaves) in H. pose proof (string_checks _ _ _ _ H) as E. cbn in E. congruence.
Qed.

(** An object with the id of a Node has it trimmed. *)
Lemma node_field shape v w : vs_object shape v = Some w -> NoDup (map fst shape) -> ("node_id"%string, idSchema) ∈ shape ->
  exists s, text_property w "node_id" = Some s /\ trim s = s.
Proof using laws.
  intros Hw Hn Hin. destruct (object_property _ _ _ _ _ Hw Hn Hin) as (l & out & x & _ & -> & Hx & Hf).
  destruct (id_is_text _ _ Hx) as [s ->]. exists s. split; [|by eapply id_is_trimmed]. unfold found in Hf. cbn [text_property]. by rewrite Hf.
Qed.

Lemma scope_checked sc s u : assertSpatialScope sc s = Ok u -> trim s = s ->
  exists n, normalizeSpatialNodeScope sc = Some n /\ scope_node_id n = s.
Proof using laws.
  unfold assertSpatialScope. intros H Ht. destruct (normalizeSpatialNodeScope sc) as [n|]; [|done]. cbn [of_option rbind] in H.
  destruct (Contracts.idSchema s) as [t|] eqn:Es; [|done]. cbn [of_option rbind] in H. unfold Contracts.idSchema in Es.
  apply z_string_sound in Es as [-> _]. rewrite Ht in H. destruct (str_eqb (scope_node_id n) s) eqn:E; [|done].
  apply str_eqb_eq in E. by exists n.
Qed.

(** Both together. *)
Lemma node_checked shape sc v w u : vs_object shape v = Some w -> NoDup (map fst shape) -> ("node_id"%string, idSchema) ∈ shape ->
  assertSpatialScope sc (text_of w "node_id") = Ok u ->
  exists n, normalizeSpatialNodeScope sc = Some n /\ text_property w "node_id" = Some (scope_node_id n).
Proof using laws.
  intros Hw Hn Hin Ha. destruct (node_field _ _ _ Hw Hn Hin) as (s & Hs & Ht). unfold text_of in Ha. rewrite Hs in Ha.
  destruct (scope_checked _ s _ Ha Ht) as (n & Hsc & Hid). exists n. by rewrite Hid, Hs.
Qed.

Lemma parsed_by k v w : parse_contract k v = Ok w -> contract_schema k v = Some w.
Proof.
  unfold parse_contract, parseSpatialContract.
  destruct (text_property v "schema_version") as [r|]; [destruct (_ && _ && _); [done|]|]; intros H; by apply of_option_ok in H.
Qed.

Lemma accepted_by k v w : accepts k v = Some w -> parse_contract k v = Ok w.
Proof. unfold accepts. destruct (parse_contract k v); [by intros [= ->] | done]. Qed.

Lemma typed_node c k v w sc u : call_contract c = Some k -> parse_contract k v = Ok w ->
  assertSpatialScope sc (text_of w "node_id") = Ok u ->
  exists n, normalizeSpatialNodeScope sc = Some n /\ text_property w "node_id" = Some (scope_node_id n).
Proof using laws.
  intros Hk Hw%parsed_by Ha. destruct c; try done; injection Hk as <-; (eapply node_checked; [exact Hw | solve_names | repeat constructor | exact Ha]).
Qed.

(** What an answer to a call has to do with the response it was read from. *)
Definition answers (node : string) (c : client_call) (raw : value) (a : answer) : Prop :=
  match a with
  | A_value w =>
      text_property w "node_id" = Some node /\
      match call_contract c with Some k => parse_contract k raw = Ok w | None => c = Resources /\ resourceSummarySchema raw = Some w end
  | A_collection n _ items =>
      n = node /\ exists l, c = Entities l /\
        Forall (fun i => text_property i "kind" = Some (listed_kind l) /\ exists v, parse_contract C_entity v = Ok i) items
  | A_events n _ items => n = node /\ Forall (fun i => exists v, spatialEventEnvelopeSchema v = Some i) items
  | A_items items =>
      (exists envelope, hookListSchema raw = Some envelope /\ text_property envelope "node_id" = Some node) /\
      Forall (fun i => exists v, hookSummarySchema v = Some i) items
  | A_submitted r accounting =>
      text_property (field r "provenance") "node_id" = Some node /\
      (exists v, parse_contract C_remote_result v = Ok r) /\ (exists v, parse_contract C_accounting v = Ok accounting)
  end.

Lemma version_of_diagnostic k v d : parse_contract k v = Err d -> pd_code d = INCOMPATIBLE_SCHEMA_VERSION ->
  exists r, text_property v "schema_version" = Some r /\ r <> contract_version k.
Proof.
  unfold parse_contract, parseSpatialContract. destruct (text_property v "schema_version") as [r|].
  - destruct (truthy (Some r) && negb (str_eqb r (contract_version k)) && String.prefix _ r) eqn:E.
    + intros _ _. exists r. split; [done|]. apply andb_true_iff in E as [[_ E%negb_true_iff]%andb_true_iff _]. intros ->.
      by rewrite str_eqb_refl in E.
    + intros H. destruct (contract_schema k v); [done|]. by injection H as <-.
  - intros H. destruct (contract_schema k v); [done|]. by injection H as <-.
Qed.

Lemma mapM_made {A} (f : value -> option A) l l' : mapM f l = Some l' -> Forall (fun y => exists x, f x = Some y) l'.
Proof. intros H%mapM_Some. induction H as [|x y l l' Hx _ IH]; constructor; [by exists x | done]. Qed.

Lemma typed_answers c k sc raw a : call_contract c = Some k -> typed_answer k sc (call_path c) raw = Ok a ->
  exists n, normalizeSpatialNodeScope sc = Some n /\ answers (scope_node_id n) c raw a.
Proof using laws.
  intros Hk. unfold typed_answer. destruct (parse_contract k raw) as [w|d] eqn:Hw; [|done].
  destruct (assertSpatialScope sc _) as [u|] eqn:Ha; [|done]. intros [= <-].
  destruct (typed_node _ _ _ _ _ _ Hk Hw Ha) as (n & Hn & Ht). exists n. cbn [answers]. by rewrite Hk.
Qed.

Lemma submitted_node v w sc u : contract_schema C_remote_result v = Some w ->
  assertSpatialScope sc (text_of (field w "provenance") "node_id") = Ok u ->
  exists n, normalizeSpatialNodeScope sc = Some n /\ text_property (field w "provenance") "node_id" = Some (scope_node_id n).
Proof using laws.
  cbn [contract_schema]. intros Hw.
  destruct (object_property _ "provenance" spatialEndpointProvenanceSchema _ _ Hw) as (l & out & x & _ & -> & Hx & Hf);
    [solve_names | repeat constructor |].
  assert (E : field (VObj out) "provenance" = x).
  { cbn [field]. unfold property. unfold found in Hf. rewrite Hf. destruct x; try done. by destruct (jhas _ l). }
  rewrite E. intros Ha. eapply node_checked; [exact Hx | solve_names | repeat constructor | exact Ha].
Qed.

(** C34. A client's answer belongs to the Node it was asked of. A call that
    returns has sent one request, the one its method makes of the caller's
    arguments and under the caller's scope; the response names the Node of the
    scope; and what is returned was accepted by the contract of the method, item by
    item, each item of a list being of the kind that was asked for. *)
Theorem clients_answer_for_their_node transport c sc a : call transport c sc = Ok a ->
  exists n raw, normalizeSpatialNodeScope sc = Some n /\ transport (call_request c sc) = Ok raw /\ answers (scope_node_id n) c raw a.
Proof using laws.
  unfold call. destruct (transport (call_request c sc)) as [raw|e] eqn:Ht; [|done]. cbn [rbind]. intros H.
  enough (exists n, normalizeSpatialNodeScope sc = Some n /\ answers (scope_node_id n) c raw a) as (n & Hn & Ha) by (by exists n, raw).
  destruct c; cbn [read_answer] in H; try (by (eapply typed_answers; [|exact H])).
  - unfold parseCollection in H. destruct (collectionSchema raw) as [w|] eqn:Hw; [|done]. cbn [of_option rbind] in H.
    destruct (mapM (accepts C_entity) (items_of w)) as [items|] eqn:Hi; [|done]. cbn [of_option rbind] in H.
    destruct (assertSpatialScope sc _) as [u|] eqn:Hs; [|done]. cbn [rbind] in H. destruct (existsb _ items) eqn:He; [done|].
    injection H as <-. destruct (node_checked _ _ _ _ _ Hw ltac:(solve_names) ltac:(repeat constructor) Hs) as (n & Hn & Hid).
    exists n. split; [done|]. cbn [answers]. unfold text_of at 1. rewrite Hid. split; [done|]. exists l. split; [done|].
    apply mapM_made in Hi. apply existsb_false in He. eapply Forall_and. split; [|eapply Forall_impl; [exact Hi|]].
    + eapply Forall_impl; [exact He|]. intros i Hk%negb_false_iff%str_eqb_eq. unfold text_of in Hk.
      destruct (text_property i "kind"); cbn in Hk; [by subst | by destruct l].
    + intros i [v Hv]. exists v. by apply accepted_by.
  - destruct (resourceSummarySchema raw) as [w|] eqn:Hw; [|done]. cbn [of_option rbind] in H.
    destruct (assertSpatialScope sc _) as [u|] eqn:Hs; [|done]. injection H as <-.
    destruct (node_checked _ _ _ _ _ Hw ltac:(solve_names) ltac:(repeat constructor) Hs) as (n & Hn & Hid). by exists n.
  - unfold parseEventCollection in H. destruct (eventPageSchema raw) as [w|] eqn:Hw; [|done]. cbn [of_option rbind] in H.
    destruct (mapM spatialEventEnvelopeSchema (items_of w)) as [items|] eqn:Hi; [|done]. cbn [of_option rbind] in H.
    destruct (assertSpatialScope sc _) as [u|] eqn:Hs; [|done]. injection H as <-.
    destruct (node_checked _ _ _ _ _ Hw ltac:(solve_names) ltac:(repeat constructor) Hs) as (n & Hn & Hid).
    exists n. split; [done|]. cbn [answers]. unfold text_of. rewrite Hid. split; [done | by eapply mapM_made].
  - destruct (hookListSchema raw) as [w|] eqn:Hw; [|done]. cbn [of_option rbind] in H.
    destruct (assertSpatialScope sc _) as [u|] eqn:Hs; [|done]. cbn [rbind] in H.
    destruct (mapM hookSummarySchema (items_of w)) as [items|] eqn:Hi; [|done]. injection H as <-.
    destruct (node_checked _ _ _ _ _ Hw ltac:(solve_names) ltac:(repeat constructor) Hs) as (n & Hn & Hid).
    exists n. split; [done|]. split; [by exists w | by eapply mapM_made].
  - destruct (submissionSchema raw) as [w|] eqn:Hw; [|done]. cbn [of_option rbind] in H.
    destruct (accepts C_remote_result _) as [r|] eqn:Hr; [|done]. cbn [of_option rbind] in H.
    destruct (accepts C_accounting _) as [m|] eqn:Hm; [|done]. cbn [of_option rbind] in H.
    destruct (assertSpatialScope sc _) as [u|] eqn:Hs; [|done]. injection H as <-. apply accepted_by in Hr, Hm.
    destruct (submitted_node _ _ _ _ (parsed_by _ _ _ Hr) Hs) as (n & Hn & Hid).
    exists n. split; [done|]. split; [done|]. split; by eexists.
Qed.

(** How a call fails: as its transport failed, because the scope is none, because
    the response is for another Node, or because it does not satisfy its contract;
    incompatible is said only of a response in another version of the contract. *)
Theorem client_failures transport c sc e : call transport c sc = Err e ->
  transport (call_request c sc) = Err e \/
  exists raw, transport (call_request c sc) = Ok raw /\
    (e = BadScope \/ e = Api (ApiError conflict "scope" None) \/ e = Api (ApiError malformed (call_path c) None) \/
     (e = Api (ApiError incompatible (call_path c) None) /\ exists k r, call_contract c = Some k /\
        text_property raw "schema_version" = Some r /\ r <> contract_version k)).
Proof.
  unfold call. destruct (transport (call_request c sc)) as [raw|e'] eqn:Ht; [|intros [= <-]; by left]. cbn [rbind]. intros H. right.
  exists raw. split; [done|].
  assert (Hs : forall s e', assertSpatialScope sc s = Err e' -> e' = BadScope \/ e' = Api (ApiError conflict "scope" None)).
  { intros s e'. unfold assertSpatialScope. destruct (normalizeSpatialNodeScope sc); cbn; [|intros [= <-]; by left].
    destruct (Contracts.idSchema s); cbn; [|intros [= <-]; by left]. destruct (str_eqb _ _); cbn; [done | intros [= <-]; by right]. }
  assert (Htyped : forall k, call_contract c = Some k -> typed_answer k sc (call_path c) raw = Err e ->
    e = BadScope \/ e = Api (ApiError conflict "scope" None) \/ e = Api (ApiError malformed (call_path c) None) \/
    (e = Api (ApiError incompatible (call_path c) None) /\ exists k r, call_contract c = Some k /\
       text_property raw "schema_version" = Some r /\ r <> contract_version k)).
  { intros k Hk. unfold typed_answer. destruct (parse_contract k raw) as [w|d] eqn:Hp.
    - destruct (assertSpatialScope sc _) as [u|e0] eqn:Ha; [done|]. intros [= <-]. apply Hs in Ha. tauto.
    - intros [= <-]. pose proof (version_of_diagnostic _ _ _ Hp) as Hv. destruct (pd_code d); [tauto|]. right; right; right.
      split; [done|]. destruct (Hv eq_refl) as (r & Hr & Hne). by exists k, r. }
  destruct c; cbn [read_answer] in H; try (by (eapply Htyped; [|exact H])); clear Htyped;
    repeat match goal with
    | H : rbind (of_option ?o _) _ = Err _ |- _ => destruct o; cbn [of_option rbind] in H; [|injection H as <-; tauto]
    | H : rbind (assertSpatialScope _ ?s) _ = Err _ |- _ =>
        destruct (assertSpatialScope sc s) as [?|?] eqn:Ha; cbn [rbind] in H; [|injection H as <-; apply Hs in Ha; tauto]
    | H : rbind (parseCollection _ _ _) _ = Err _ |- _ =>
        unfold parseCollection in H; destruct (collectionSchema raw); cbn [of_option rbind] in H; [|injection H as <-; tauto];
        destruct (mapM _ _); cbn [of_option rbind] in H; [|injection H as <-; tauto]
    | H : rbind (parseEventCollection _ _) _ = Err _ |- _ =>
        unfold parseEventCollection in H; destruct (eventPageSchema raw); cbn [of_option rbind] in H; [|injection H as <-; tauto];
        destruct (mapM _ _); cbn [of_option rbind] in H; [|injection H as <-; tauto]
    | H : (if ?b then _ else _) = Err _ |- _ => destruct b; [injection H as <-; tauto | done]
    | H : Ok _ = Err _ |- _ => discriminate H
    end.
Qed.
End laws.

(** ** References in paths *)

(** The character an encoded text starts with, and the rest. *)
Definition hex_of (c : ascii) : N := let n := N_of_ascii c in if bool_decide (n < 58)%N then (n - 48)%N else (n - 55)%N.
Definition decode_first (s : string) : option (ascii * string) :=
  match s with
  | String "%" (String a (String b rest)) =>
      let n := (16 * hex_of a + hex_of b)%N in
      if bool_decide (n < 128)%N then Some (ascii_of_N n, rest)
      else match rest with
           | String _ (String c (String d rest)) => Some (ascii_of_N (64 * (n - 192) + (16 * hex_of c + hex_of d - 128)), rest)
           | _ => None
           end
  | String c rest => Some (c, rest)
  | EmptyString => None
  end.

Lemma decode_encode_char c rest : decode_first (encode_char c +:+ rest) = Some (c, rest).
Proof. destruct c as [[] [] [] [] [] [] [] []]; vm_compute; reflexivity. Qed.

Lemma encode_injective a b : encodeURIComponent a = encodeURIComponent b -> a = b.
Proof.
  revert b. induction a as [|c a IH]; intros [|d b]; cbn [encodeURIComponent]; [done|..].
  - intros H. pose proof (decode_encode_char d (encodeURIComponent b)) as E. by rewrite <- H in E.
  - intros H. pose proof (decode_encode_char c (encodeURIComponent a)) as E. by rewrite H in E.
  - intros H. pose proof (decode_encode_char c (encodeURIComponent a)) as E. rewrite H, decode_encode_char in E.
    injection E as -> E. f_equal. by apply IH.
Qed.

Definition plain (c : ascii) : bool := unreserved c || Ascii.eqb c "%".
Fixpoint all_plain (s : string) : bool := match s with EmptyString => true | String c s => plain c && all_plain s end.

Lemma all_plain_app a b : all_plain (a +:+ b) = all_plain a && all_plain b.
Proof. induction a as [|c a IH]; [done|]. simpl. by rewrite IH, andb_assoc. Qed.

Lemma encode_plain s : all_plain (encodeURIComponent s) = true.
Proof.
  induction s as [|c s IH]; [done|]. cbn [encodeURIComponent]. rewrite all_plain_app, IH, andb_true_r.
  destruct c as [[] [] [] [] [] [] [] []]; vm_compute; reflexivity.
Qed.

Lemma append_cancel_l p a b : p +:+ a = p +:+ b -> a = b.
Proof. induction p as [|c p IH]; [done|]. simpl. intros H. injection H as H. auto. Qed.

Lemma append_cancel_r a b s : a +:+ s = b +:+ s -> a = b.
Proof.
  revert b. induction a as [|c a IH]; intros [|d b] H; [done|..].
  - exfalso. apply (f_equal String.length) in H. rewrite !slength_app in H. simpl in H. lia.
  - exfalso. apply (f_equal String.length) in H. rewrite !slength_app in H. simpl in H. lia.
  - cbn in H. injection H as -> H. f_equal. by apply IH.
Qed.

(** A reference keeps to its place in a path: the text it is encoded as has no
    slash, question mark, number sign or space in it, and different references are
    asked for at different paths. *)
Theorem references_keep_their_place a b :
  all_plain (encodeURIComponent a) = true /\
  (call_path (Relation a) = call_path (Relation b) -> a = b) /\
  (call_path (Endpoint_provenance a) = call_path (Endpoint_provenance b) -> a = b).
Proof.
  split_and!; [apply encode_plain|..]; intros H%append_cancel_l%append_cancel_l; apply encode_injective.
  - exact H.
  - by apply append_cancel_r in H.
Qed.

(** ** Query keys *)

(** The entries of [spatialQueryKeys] below a scope. *)
Inductive spatial_query : Type :=
| Q_node_status | Q_agents | Q_endpoints | Q_sessions | Q_resources
| Q_events (cursor : option string)
| Q_hooks | Q_workspace
| Q_workspace_presentation (device : string)
| Q_workspace_entity (ref : string)
| Q_workspace_relation (ref : string)
| Q_workspace_world
| Q_device_viewport (device : string)
| Q_offline_queue (device : string)
| Q_share_view (share : option string)
| Q_primary_agent_slot | Q_primary_agent_state
| Q_primary_agent_grant (grant : option string).

Definition query_parts (q : spatial_query) : list string :=
  match q with
  | Q_node_status => ["node-status"]
  | Q_agents => ["agents"]
  | Q_endpoints => ["endpoints"]
  | Q_sessions => ["sessions"]
  | Q_resources => ["resources"]
  | Q_events cursor => ["events"; default "head" cursor]
  | Q_hooks => ["hooks"]
  | Q_workspace => ["workspace"]
  | Q_workspace_presentation device => ["workspace-presentation"; device]
  | Q_workspace_entity ref => ["workspace-entity"; ref]
  | Q_workspace_relation ref => ["workspace-relation"; ref]
  | Q_workspace_world => ["workspace-world"]
  | Q_device_viewport device => ["device-viewport"; device]
  | Q_offline_queue device => ["offline-queue"; device]
  | Q_share_view share => ["share-view"; default "active" share]
  | Q_primary_agent_slot => ["primary-agent-slot"]
  | Q_primary_agent_state => ["primary-agent-state"]
  | Q_primary_agent_grant grant => ["primary-agent-grant"; default "active" grant]
  end%string.

Inductive invalidation : Type :=
| I_workspace_semantic | I_workspace_presentation | I_workspace_world | I_device_viewport | I_offline_queue | I_share_view | I_entity
| I_relation | I_status | I_events | I_primary_agent_slot | I_primary_agent_state | I_primary_agent_grant.

Definition invalidated (i : invalidation) : list spatial_query :=
  match i with
  | I_workspace_semantic | I_entity => [Q_workspace; Q_agents; Q_endpoints; Q_sessions]
  | I_workspace_presentation => [Q_workspace_presentation "local"]
  | I_workspace_world => [Q_workspace; Q_workspace_world]
  | I_device_viewport => [Q_device_viewport "local"]
  | I_offline_queue => [Q_offline_queue "local"]
  | I_share_view => [Q_share_view None]
  | I_relation => [Q_workspace]
  | I_status => [Q_node_status]
  | I_events => [Q_events None]
  | I_primary_agent_slot => [Q_primary_agent_slot; Q_agents]
  | I_primary_agent_state => [Q_primary_agent_state; Q_primary_agent_slot]
  | I_primary_agent_grant => [Q_primary_agent_grant None; Q_primary_agent_slot]
  end%string.

Section keys.
Context {zod : Zod} {laws : ZodLaws zod}.

Definition scopeKey (sc : scope) : option (list string) :=
  n ← normalizeSpatialNodeScope sc;
  Some ["spatial"; hypervisor_id n; scope_node_id n]%string.

Definition query_key (sc : scope) (q : spatial_query) : option (list string) := k ← scopeKey sc; Some (k ++ query_parts q).

Definition spatialInvalidationKeys (sc : scope) (i : invalidation) : option (list (list string)) := mapM (query_key sc) (invalidated i).

(** The query library invalidates every query whose key starts with the given one. *)
Definition reached (keys : list (list string)) (k : list string) : Prop := exists p, p ∈ keys /\ p `prefix_of` k.

(** Two queries with one key are the same query of the same scope, but for the
    names that stand for an absent argument. *)
Definition same_query (a b : spatial_query) : Prop :=
  a = b \/ (exists x y, a = Q_events x /\ b = Q_events y /\ default "head"%string x = default "head"%string y) \/
  (exists x y, a = Q_share_view x /\ b = Q_share_view y /\ default "active"%string x = default "active"%string y) \/
  (exists x y, a = Q_primary_agent_grant x /\ b = Q_primary_agent_grant y /\ default "active"%string x = default "active"%string y).

Lemma parts_tell_apart a b r : query_parts a ++ r = query_parts b -> same_query a b.
Proof.
  unfold same_query. destruct a, b; cbn [query_parts app]; intros H; try discriminate H; try (by left);
    try (injection H as H; subst; first [by left | right]); naive_solver.
Qed.

(** Keys tell scopes and queries apart, and an invalidation reaches nothing outside
    its scope and nothing but the queries it lists. *)
Theorem keys_tell_apart sc sc' i keys q k : spatialInvalidationKeys sc i = Some keys -> query_key sc' q = Some k -> reached keys k ->
  normalizeSpatialNodeScope sc = normalizeSpatialNodeScope sc' /\ exists p, p ∈ invalidated i /\ same_query p q.
Proof.
  unfold spatialInvalidationKeys. intros Hkeys Hk (p & Hp & r & Hr). apply mapM_Some in Hkeys.
  assert (Hq : exists q0, q0 ∈ invalidated i /\ query_key sc q0 = Some p).
  { revert Hp. induction Hkeys as [|x y l l' Hx _ IH]; [by intros ?%elem_of_nil|].
    intros [->|Hp]%elem_of_cons; [exists x; split; [left | done]|]. destruct (IH Hp) as (q0 & Hin & He). exists q0. split; [by right | done]. }
  destruct Hq as (q0 & Hin & Hq0). unfold query_key, scopeKey in *.
  destruct (normalizeSpatialNodeScope sc) as [n|]; [|done]. destruct (normalizeSpatialNodeScope sc') as [n'|]; [|done].
  cbn [mbind option_bind] in *. injection Hq0 as <-. injection Hk as <-. cbn [app] in Hr. injection Hr as Hh Hn Hr.
  split; [destruct n, n'; cbn in *; congruence|]. exists q0. split; [done|]. by eapply parts_tell_apart.
Qed.
End keys.

(** ** Edge behaviour *)

(** The dots of a relative path are left alone: what such a reference is asked for
    at is another resource. *)
Theorem dot_segments_pass : call_path (Relation "..") = "/operators/spatial/relations/.."%string /\
  call_path (Endpoint_provenance "..") = "/operators/spatial/endpoints/../provenance"%string.
Proof. by split; vm_compute. Qed.

Section key_edges.
Context {zod : Zod} {laws : ZodLaws zod}.

(** What has a key of its own is not reached by the invalidation of its kind: an
    entity, a relation, a page of events, another device's view, a grant by name. *)
Theorem own_keys_are_not_invalidated sc i keys q k : spatialInvalidationKeys sc i = Some keys -> query_key sc q = Some k ->
  (i, q) ∈ [(I_entity, Q_workspace_entity "agent:1"); (I_workspace_semantic, Q_workspace_entity "agent:1");
            (I_relation, Q_workspace_relation "relation:1"); (I_events, Q_events (Some "cursor-1"));
            (I_workspace_presentation, Q_workspace_presentation "tablet"); (I_primary_agent_grant, Q_primary_agent_grant (Some "grant-1"))]%string ->
  ~ reached keys k.
Proof.
  intros Hkeys Hk Hin Hr. destruct (keys_tell_apart _ _ _ _ _ _ Hkeys Hk Hr) as (_ & p & Hp & Hs). unfold same_query in Hs.
  repeat (apply elem_of_cons in Hin as [[= -> ->]|Hin]); [..|by apply elem_of_nil in Hin]; cbn [invalidated] in Hp;
    repeat (apply elem_of_cons in Hp as [->|Hp]); try (by apply elem_of_nil in Hp); naive_solver.
Qed.

(** A cursor called head has the key of the first page. *)
Theorem head_cursor_is_the_first_page sc : query_key sc (Q_events (Some "head"%string)) = query_key sc (Q_events None).
Proof. done. Qed.
End key_edges.

Module ClientWitness.
#[local] Existing Instance zod_ref.
#[local] Existing Instance WireWitness.host_date.
#[local] Existing Instance WireWitness.date_laws.

Definition sc : scope := Scope "hv" " node-1 ".
Definition hook (node : string) : value :=
  VObj [("hook_id", VStr "h-1"); ("node_id", VStr node); ("state", VStr "ACTIVE"); ("revision", VNum (num 1))]%string.
Definition hooks_of (node item_node : string) : transport_request -> result transport_error value :=
  fun _ => Ok (VObj [("node_id", VStr node); ("items", VArr [hook item_node])]%string).
Definition entities_of (node : string) : transport_request -> result transport_error value :=
  fun _ => Ok (VObj [("schema_version", VStr "1"); ("node_id", VStr node); ("revision", VStr "4");
                     ("items", VArr [WireWitness.entity_payload])]%string).

Definition listed_agents : result transport_error answer := call (entities_of "node-1") (Entities L_agents) sc.

Lemma clients_answer_for_their_node_witness : exists rev, listed_agents = Ok (A_collection "node-1" rev [WireWitness.parsed_entity]) /\
  exists n raw, normalizeSpatialNodeScope sc = Some n /\ entities_of "node-1" (call_request (Entities L_agents) sc) = Ok raw /\
    answers (scope_node_id n) (Entities L_agents) raw (A_collection "node-1" rev [WireWitness.parsed_entity]).
Proof.
  exists (VNum (num 4)). assert (E : listed_agents = Ok (A_collection "node-1" (VNum (num 4)) [WireWitness.parsed_entity])) by (vm_compute; reflexivity).
  split; [exact E|]. exact (clients_answer_for_their_node _ _ _ _ E).
Defined.

(** Endpoints that are asked for are not agents, and another Node's list is refused. *)
Example agents_are_no_endpoints : call (entities_of "node-1") (Entities L_endpoints) sc = reject malformed "/operators/spatial/endpoints".
Proof. by vm_compute. Qed.
Example other_node_is_refused : call (entities_of "node-2") (Entities L_agents) sc = Err (Api (ApiError conflict "scope" None)).
Proof. by vm_compute. Qed.

(** Only the list's own Node is compared: a hook of another Node is delivered in it. *)
Theorem hook_of_another_node_is_delivered : exists transport sc i,
  call transport Hooks sc = Ok (A_items [i]) /\ text_property i "node_id" = Some "node-2"%string /\
  forall n, normalizeSpatialNodeScope sc = Some n -> scope_node_id n = "node-1"%string.
Proof.
  exists (hooks_of "node-1" "node-2"), sc, (hook "node-2"). split_and!; [by vm_compute | by vm_compute|].
  intros n H. vm_compute in H. by injection H as <-.
Qed.

Lemma client_failures_witness : call (entities_of "node-2") (Entities L_agents) sc = Err (Api (ApiError conflict "scope" None)) /\
  (exists raw, entities_of "node-2" (call_request (Entities L_agents) sc) = Ok raw).
Proof.
  assert (E : call (entities_of "node-2") (Entities L_agents) sc = Err (Api (ApiError conflict "scope" None))) by (vm_compute; reflexivity).
  split; [exact E|]. destruct (client_failures _ _ _ _ E) as [H|(raw & H & _)]; [done | by exists raw].
Defined.

Lemma keys_witness : exists keys k, spatialInvalidationKeys sc I_relation = Some keys /\ query_key sc Q_workspace = Some k /\ reached keys k.
Proof.
  eexists _, _. split; [by vm_compute|]. split; [by vm_compute|]. eexists. split; [left | by exists []].
Qed.
End ClientWitness.
